(* ===== verification/_CoqProject ===== *)
-Q . S2P
Prelude.v
Float64.v
DomainState.v
StateStore.v
EventBus.v
DeviceModel.v
Lookup.v
CommandTracker.v
CommandCoordinator.v
DeviceRegistry.v
FloatText.v
Text.v
ModelContract.v
ConsumerCatalog.v
LogicalDevice.v
LogicalCompose.v
LogicalRuntime.v
Sha256.v
MappingProfile.v
MappingEngine.v
MappingBinding.v
MappingStore.v
ProfileService.v
ProfileInvariant.v
ProfileRuns.v
DeviceProjection.v
MappingProjection.v
MappingRoutes.v
MappingValues.v
MappingConsumers.v
MappingExamples.v
DeviceService.v
PropertyWrite.v
Cron.v
AgentAccess.v
Automation.v
AutomationService.v
AutomationRuns.v
AgentRuns.v
Auth.v
AuthRuns.v
Locations.v
LocationDirectory.v
DeviceDisplay.v
LocationHandlers.v
LocationRuns.v
LocationTraffic.v
TargetConfig.v
TargetStore.v
TargetRows.v
TargetService.v
TargetRuns.v
TargetManager.v
TargetManagerRuns.v
Settings.v
