(* ===== verification/Prelude.v ===== *)
(** * HomeLoom: verification library

    HomeLoom is a home hub.  Providers (Xiaomi, Gree, Sonoff, Tuya, MQTT, ...) report
    devices and property values; the hub keeps them, maps them to one device model, and
    publishes them to Targets (HomeKit, Matter, MCP).  Writes and actions travel the other
    way.  The backend is written in Go, under [src/backend]; this library models the
    packages that carry its own logic, and states what makes each of them correct.

    ** The parts and how they interact

    A Provider event enters through the dispatcher ([EventBus]), which keeps the order of
    the events of a device across three priority queues.  Its handler, in the device
    service ([DeviceService]), projects the native snapshot onto the unified model
    ([DeviceProjection]) with the routes of the profile service ([ProfileService],
    [MappingProjection]), stores it in the registry ([DeviceRegistry]), applies its values to
    the state store ([StateStore]), which decides between competing ones, and confirms or
    expires the commands in flight ([CommandTracker]).  Writes go through the gates of the
    coordinator ([CommandCoordinator]), become optimistic values and are read back
    ([PropertyWrite]).  Devices are validated ([DeviceModel]) and held against the contract
    of their type ([ModelContract]); consumers see projections of them ([ConsumerCatalog],
    [MappingConsumers]) under the names and places users chose ([Locations]).  A logical
    device aggregates concrete ones ([LogicalDevice], [LogicalCompose], [LogicalRuntime]).
    Values pass through validated mapping profiles in both directions ([MappingProfile],
    [MappingEngine]).  The AI Agent sees what an administrator granted and writes through a
    gateway ([AgentAccess], [AgentRuns]); automations run it by schedule or by state
    ([Automation], [AutomationService]).  Administrators log in ([Auth]).  Targets are
    configured by their service and published by their manager ([TargetService],
    [TargetManager]).

    ** Files and the code they model

    Paths are below [src/backend/internal].  A file whose name ends in [Runs], [Invariant],
    [Rows], [Routes], [Values], [Consumers], [Directory], [Display], [Handlers], [Traffic] or
    [Examples] states and proves properties of the definitions of the others.

    - [Prelude]: results of fallible code ([result], [let!], [guard!]), machine integers,
      time, strings ([TrimSpace], orders, NUL-joined keys), [range] over a Go map.
      [Lookup]: searches by identifier in lists.  [Text]: splitting, joining, numbers and
      runes of strings.  [Float64]: Go's [float64] as [spec_float] of the Standard Library
      at 53 bits of precision.  [FloatText]: [strconv.ParseFloat] and
      [FormatFloat (x, 'g', -1, 64)].  [Sha256]: the hash and its hexadecimal form.
    - [DomainState], [StateStore]: [domain/state/state.go], [state/store.go]: [Store] as a
      record, one definition per method; [step] is one call and [reachable] any sequence of
      calls from [NewStore].
    - [EventBus]: [eventbus/dispatcher.go]: a shard with its queues of pointers into a
      heap, the coalescing and deduplication tables; [enqueue] and [next] are the two
      ends; the dispatcher hashes the device to a shard.  [spec], [spec_enqueue] and
      [spec_next] in the same file are the abstract queue they refine.
    - [DeviceModel]: [domain/device/device.go]: devices, values, [ValidateStructure],
      [SetProperty], [ValidateWrite].  [ModelContract]: [domain/device/model_contract.go]:
      the table of contracts, the publisher boundary and the consumer projection.
      [ConsumerCatalog]: [mapping/consumer_catalog.go], [matter_consumer_catalog.go].
    - [CommandTracker]: [domain/command/command.go] and [command/tracker.go].
      [CommandCoordinator]: [application/command_coordinator.go], as a transition system of
      concurrent callers.  [Settings]: [application/settings_service.go] and its table.
    - [MappingProfile], [MappingEngine]: [mapping/profile.go], [mapping/engine.go].
      [MappingBinding]: [mapping/binding.go], [uuid.go], [custom_model.go] and the
      neighbouring types.  [MappingStore]: the tables of
      [persistence/gormstore/mapping_profiles.go] and its neighbours.  [ProfileService]:
      [application/profile_service.go], [profile_binding_service.go],
      [model_mapping_service.go]; [ProfileInvariant] and [ProfileRuns] its invariant and
      runs.  [MappingProjection]: the profile service as the mapper of the device service,
      and [application/consumer_mapping_service.go]; [MappingRoutes], [MappingValues],
      [MappingConsumers], [MappingExamples] its theorems.
    - [LogicalDevice]: [domain/logicaldevice/logical_device.go].  [LogicalCompose],
      [LogicalRuntime]: [runtime/providermanager/logical.go].
    - [DeviceRegistry]: [registry/device_registry.go].  [DeviceProjection],
      [DeviceService], [PropertyWrite], [Locations]: the parts of
      [application/device_service.go], with [state_checkpoint.go] and
      [persistence/gormstore/device_preferences.go]; [LocationDirectory], [DeviceDisplay],
      [LocationHandlers], [LocationRuns], [LocationTraffic] the theorems on names and places.
      A call of [Locations] is a resumption ([call]): transactions and accesses to the
      memory, which [run] executes in a row and [LocationTraffic] interleaves with others.
    - [AgentAccess]: [domain/mcp/config.go], [application/mcp_config_service.go],
      [mcp_tool_service.go], [mcpbridge/gateway.go] and the table of grants.  [AgentRuns]:
      [mcpagent/runtime.go]: an approval is checked and claimed under the mutex, asks the
      gateway without it, and stores the answer ([Checked], [Claimed], [Asked]).
    - [Cron], [Automation]: [domain/aiautomation/automation.go].  [AutomationService]:
      [application/ai_automation_service.go] and its table; [AutomationRuns] its runs.
    - [Auth]: [application/auth_service.go], [persistence/gormstore/auth.go] and the guard
      and login limiter of [platform/httpapi/server.go]; [AuthRuns] its runs.
    - [TargetConfig], [TargetService]: [domain/target/target.go],
      [application/target_service.go] and the start of Targets in
      [backend/cmd/homeloom/main.go]; [TargetStore]: [targets.go], [matter_storage.go] and
      [homekit_ids.go] of [persistence/gormstore], [TargetRows] its saves; [TargetRuns] the
      runs of the service, proved against the class [TargetRuntime].  [TargetManager]:
      [runtime/targetmanager/manager.go], the instance of that class; [mg_leaving] keeps the
      goroutines whose stop gave up waiting.  [TargetManagerRuns] discharges its laws.

    ** What the theorems show

    - State store: stored values are well formed and keyed; versions never decrease and a
      value only changes with a new version; reports of one provider converge to the one
      with the greatest sequence number in whatever order they arrive; replays are
      rejected; priorities decide between providers; an optimistic value is resolved only
      by its own command; expiry and unavailability mark exactly the values they should;
      a checkpoint does not depend on the iteration order of the map and restores, as
      stale, what it saved.
    - Event bus: each operation of a shard refines the abstract queue; draining a shard
      delivers every pending event, those of one device in their order; a closed shard
      stops; events of a device stay on one shard.
    - Commands: at most one pending command per property, and it is live; a finished
      command never changes; the functional behaviour of each operation; the number of
      kept commands is bounded except by live ones.  The gates of the coordinator refine
      one lock per device, and a caller can always go on.  The settings of commands that
      are in force are the ones stored, within their bounds.
    - Devices: the validators accept exactly the well-formed devices; [SetProperty]
      changes one property and keeps a device valid; the contract table is well formed;
      the publisher check and the projection together give a consumer what it requires.
    - Mapping: a profile is accepted exactly when it is well formed; [Preview] never
      dereferences nil and is well typed; reverse mappings are sections of the forward
      ones.  The profile service keeps its memory, its indexes and its tables in agreement
      over every run, and a restart restores it, with the accepted changes after which it
      does not start as counterexamples.  Projections never clash; a write to a projected
      property reaches the source it is read from; consumers read and write the same place.
    - Device service: what a projection publishes is valid and complete; an online snapshot
      reconciles the states, an offline one silences them; a failed write restores the value
      before it when nothing else touches the property, and otherwise takes back only what is
      still its own; an accepted one is optimistic until the next report.  Devices are shown
      under the names and in the places their users chose while calls do not overlap and
      no transaction fails; in any interleaving of calls rooms stay in homes that exist, and
      choices too when no choice overlaps a change of the directory.
    - Logical devices: the choice of a source for every property and command, and the
      routing of requests with fallback.
    - AI: the Agent sees and writes what was granted, after an approval or with the grant
      for unattended writes, as the grant was when it was read (the gateway holds no lock up
      to the write); a conversation ends, by one of its listed ends; an action whose
      approvals do not overlap is requested at most once, and two that overlap may
      execute it twice, as a counterexample.  Cron expressions mean what their grammar
      says, and print and parse back; an automation runs once at a time, and a change of it
      is a boundary for unattended writes.
    - Authentication: the guard answers as a table of live sessions would; failed logins
      of a client are bounded in every five minutes.
    - Targets: defaults are drawn once and settle a configuration; a saved configuration is
      read back; the mappings and endpoints a save keeps are those of its devices; numbers of
      Matter endpoints, HomeKit accessories and resources are given once, for good; memory and
      tables of the service agree, so that a restart at any time, in the middle of saves,
      deletions and confirmations of different Targets, finds what they wrote; pairing codes stay
      while a controller is paired and change alone when they are drawn again.  Each goroutine
      that publishes is the registered one of its Target, or one whose stop gave up waiting,
      while calls of the manager do not overlap; two that overlap lose one, as a counterexample.

    ** Conventions

    - A method that locks a mutex is one atomic operation: interleavings of goroutines
      are sequences of operations.  Where the code releases the mutex in between
      (writes and the gateway, approvals, runs of automations, the gates of the
      coordinator, calls on places, saves, deletions and starts of Targets), each section is a
      step of its own.  Methods that mutate a receiver take and return it; what they send
      to observers is returned as a list or kept in their queues.
    - [error] values are constructors of an inductive type per package; their texts are
      not modelled.  A Go string type with constants is an inductive type with a
      constructor [...Other s] for any other string, or a string where the code compares it.
    - [range] over a map visits the keys in an arbitrary order: it is an argument (a list
      with [range_of], or a function [ord]), and theorems hold for every order.
    - A statement of the database executes or fails as an argument says; a transaction that
      fails changes nothing.  Rows are finite maps from primary keys with the constraints
      of the schema; texts are compared byte by byte.
    - [int64] and [uint64] counters wrap around ([i64_wrap], [u64_add]).  A [time.Time] is
      a number of nanoseconds since Go's zero instant; durations are added without
      saturation.  [time.Now], random identifiers, [unicode.ToLower] beyond ASCII, bcrypt,
      Providers, the model of the Agent and its tools are arguments, with hypotheses where a
      theorem relies on them.
    - A [float64] operation rounds once: the fused multiply-add that Go may use on some
      processors is not modelled.
    - Fuel: [TrimSpace], [fields_from], [fields_loop], [rune_count], [any_rune] and [collapse]
      take as many rounds as the string has bytes, each round dropping one at least;
      [hex_loop] takes the sixteen rounds of a 64-bit number; eviction takes
      one round more than there are commands or runs, each round removing one; [add_values]
      takes one round per value of the range of a cron field; the shortest decimal of a
      [float64] is searched up to 17 digits, which always suffice; its decimal exponent is
      found in at most 400 rounds, since a positive [float64] is at least [2^-1074];
      [rounds] is called with the four rounds of tool calls the code allows.  The other
      recursions of the program are structural here.

    ** What is not modelled

    Input and output: HTTP beyond the guard and the login, the database engine, sockets,
    processes, encryption, logging, and JSON forms other than those of state values.  The
    Provider manager apart from logical devices (life cycles of protocol connections), the
    protocols and codecs of the vendors, the HomeKit and Matter libraries' glue, media
    streams, exports and maintenance, the metrics and the audit log, and of the device service
    the simulation and the catalogues of native properties.  The user
    interface (TypeScript), the Matter runtime (TypeScript) and the camera kernel (a media
    server) are other programs. *)

From Stdlib Require Export ZArith Lia Ascii String.
#[export] Set Warnings "-clear-no-such-hyp".
From stdpp Require Export base countable gmap strings list sorting option numbers pretty.

#[global] Open Scope Z_scope.

(** ** Results of fallible code

    A Go function returning [(T, error)] is modelled by [result E T]. *)

Inductive result (E A : Type) : Type :=
| Ok (a : A)
| Err (e : E).
Arguments Ok {E A} a.
Arguments Err {E A} e.

Declare Scope go_scope.
Delimit Scope go_scope with go.

Notation "'let!' x ':=' c 'in' k" :=
  (match c with Ok x => k | Err e => Err e end)
  (at level 10, x name, c at level 100, k at level 200) : go_scope.
Notation "'check!' c 'in' k" :=
  (match c with Ok _ => k | Err e => Err e end)
  (at level 10, c at level 100, k at level 200) : go_scope.

#[global] Open Scope go_scope.

Definition is_ok {E A} (r : result E A) : bool :=
  match r with Ok _ => true | Err _ => false end.

(** [guard! b else e in k]: the early return [if !b { return e }]. *)
Notation "'guard!' b 'else' e 'in' k" :=
  (if b then k else Err e)
  (at level 10, b at level 100, e at level 100, k at level 200) : go_scope.

(** ** Machine integers *)

Definition two64 : Z := 2 ^ 64.
Definition two63 : Z := 2 ^ 63.

(** [uint64] addition wraps around. *)
Definition u64_add (a b : Z) : Z := (a + b) mod two64.
Definition u64_succ (a : Z) : Z := u64_add a 1.
Definition in_u64 (a : Z) : Prop := 0 <= a < two64.
Definition in_i64 (a : Z) : Prop := - two63 <= a < two63.

(** Two's complement reading of the low 64 bits. *)
Definition i64_wrap (a : Z) : Z := (a + two63) mod two64 - two63.
(** [uint64(x)] for a signed [x]. *)
Definition u64_of_i64 (a : Z) : Z := a mod two64.

(** ** Time

    A [time.Time] is the number of nanoseconds since the zero instant of Go's
    [time] package, so that [time.Time{}] is [0] and [IsZero] is [=? 0]; the
    program strips monotonic readings with [UTC()].  A [time.Duration] is a
    number of nanoseconds. *)

Definition Time := Z.
Definition Duration := Z.
Definition zero_time : Time := 0.
Definition IsZero (t : Time) : bool := t =? zero_time.
Definition Before (a b : Time) : bool := a <? b.
Definition After (a b : Time) : bool := b <? a.
Definition TimeEqual (a b : Time) : bool := a =? b.

(** ** Strings: a Go string is a sequence of bytes *)

Definition NUL : ascii := Ascii.zero.
Definition nul : string := String NUL EmptyString.

Fixpoint string_Forall (P : ascii -> bool) (s : string) : bool :=
  match s with
  | EmptyString => true
  | String c s => P c && string_Forall P s
  end.

Definition nul_free (s : string) : bool :=
  string_Forall (fun c => negb (Ascii.eqb c NUL)) s.

(** Go's [==] on strings, as a boolean. *)
Notation "a =s b" := (bool_decide (a =@{string} b)) (at level 70) : go_scope.

Definition is_empty (s : string) : bool :=
  match s with EmptyString => true | String _ _ => false end.

(** Byte-wise lexicographic order, Go's [<] on strings. *)
Definition str_ltb (a b : string) : bool :=
  match String.compare a b with Lt => true | _ => false end.
Definition str_leb (a b : string) : bool :=
  match String.compare a b with Gt => false | _ => true end.

(** [strings.TrimSpace]: [unicode.IsSpace] holds of the ASCII white space
    bytes and of the runes U+0085, U+00A0, U+1680, U+2000 to U+200A, U+2028,
    U+2029, U+202F, U+205F and U+3000, given here by their UTF-8 bytes. *)
Definition bytes (l : list N) : string :=
  fold_right (fun n s => String (ascii_of_N n) s) EmptyString l.

Fixpoint rev_onto (s acc : string) : string :=
  match s with
  | EmptyString => acc
  | String c s => rev_onto s (String c acc)
  end.

Definition go_rev (s : string) : string := rev_onto s "".

Definition space_runes : list string :=
  List.map bytes
    (List.map (fun n : N => [n]) [9; 10; 11; 12; 13; 32]%N ++
     [[194; 133]; [194; 160]; [225; 154; 128]]%N ++
     List.map (fun n : N => [226; 128; n]%N)
       [128; 129; 130; 131; 132; 133; 134; 135; 136; 137; 138; 168; 169; 175]%N ++
     [[226; 129; 159]; [227; 128; 128]]%N).

(** [drop_prefix p s] is [Some r] when [s] is [p] followed by [r]. *)
Fixpoint drop_prefix (p s : string) : option string :=
  match p, s with
  | EmptyString, _ => Some s
  | String a p', String b s' => if Ascii.eqb a b then drop_prefix p' s' else None
  | String _ _, EmptyString => None
  end.

Definition drop_one (pats : list string) (s : string) : option string :=
  head (omap (fun p => drop_prefix p s) pats).

(** Each round drops at least one byte, so [String.length s] rounds are enough. *)
Fixpoint trim_prefix (pats : list string) (fuel : nat) (s : string) : string :=
  match fuel with
  | O => s
  | S fuel =>
      match drop_one pats s with
      | Some r => trim_prefix pats fuel r
      | None => s
      end
  end.

Definition TrimSpace (s : string) : string :=
  let l := trim_prefix space_runes (String.length s) s in
  let r := go_rev l in
  go_rev (trim_prefix (List.map go_rev space_runes) (String.length r) r).

(** Decimal printing, [%d] and [strconv.Itoa]. *)
Definition show_Z (z : Z) : string := pretty z.

(** ** Iteration over a Go map

    [range] visits every key exactly once, in an order the language leaves
    open.  An operation whose code ranges over a map takes the order as an
    argument; [range_of m ks] says [ks] is an order the language allows. *)

Definition range_of `{Countable K} {V} (m : gmap K V) (ks : list K) : Prop :=
  NoDup ks /\ forall k, k ∈ ks <-> is_Some (m !! k).

Definition some_range `{Countable K} {V} (m : gmap K V) : list K :=
  (map_to_list m).*1.

(** ** Automation *)

Create HintDb go discriminated.

(** Case analysis on the decisions and conditionals of a Go body. *)
Ltac go_case :=
  match goal with
  | |- context [if bool_decide ?P then _ else _] => case_bool_decide
  | H : context [if bool_decide ?P then _ else _] |- _ => case_bool_decide
  | |- context [if ?b then _ else _] => destruct b eqn:?
  | H : context [if ?b then _ else _] |- _ => destruct b eqn:?
  | |- context [match ?x with _ => _ end] => destruct x eqn:?
  | H : context [match ?x with _ => _ end] |- _ => destruct x eqn:?
  end.
Ltac go_cases := repeat (go_case; simplify_eq/=).

(** Boolean conditions to propositions. *)
Ltac bool_prop :=
  repeat match goal with
  | H : _ && _ = true |- _ => apply andb_true_iff in H; destruct H
  | H : _ || _ = false |- _ => apply orb_false_iff in H; destruct H
  | H : _ && _ = false |- _ => apply andb_false_iff in H; destruct H
  | H : _ || _ = true |- _ => apply orb_true_iff in H; destruct H
  | H : negb _ = true |- _ => apply negb_true_iff in H
  | H : negb _ = false |- _ => apply negb_false_iff in H
  | H : bool_decide _ = true |- _ => apply bool_decide_eq_true in H
  | H : bool_decide _ = false |- _ => apply bool_decide_eq_false in H
  | H : (_ =? _) = true |- _ => apply Z.eqb_eq in H
  | H : (_ =? _) = false |- _ => apply Z.eqb_neq in H
  | H : (_ <? _) = true |- _ => apply Z.ltb_lt in H
  | H : (_ <? _) = false |- _ => apply Z.ltb_ge in H
  | H : (_ <=? _) = true |- _ => apply Z.leb_le in H
  | H : (_ <=? _) = false |- _ => apply Z.leb_gt in H
  end.

(** ** Sizes of maps *)

Lemma map_size_delete_le `{Countable K} {V} (m : gmap K V) i : (size (delete i m) <= size m)%nat.
Proof. apply map_subseteq_size, delete_subseteq. Qed.

Lemma map_size_insert_le `{Countable K} {V} (m : gmap K V) i x : (size (<[i := x]> m) <= S (size m))%nat.
Proof. rewrite map_size_insert. destruct (m !! i); simpl; lia. Qed.

(** ** Sorted lists *)

Lemma elem_merge_sort {A} (le : relation A) `{!RelDecision le} x l : x ∈ merge_sort le l <-> x ∈ l.
Proof. by rewrite merge_sort_Permutation. Qed.

(** ** Machine integers: lemmas *)

Lemma u64_add_range a b : in_u64 (u64_add a b).
Proof. unfold in_u64, u64_add, two64. apply Z.mod_pos_bound. lia. Qed.

Lemma u64_succ_range a : in_u64 (u64_succ a).
Proof. apply u64_add_range. Qed.

Lemma u64_succ_small a : 0 <= a -> a + 1 < two64 -> u64_succ a = a + 1.
Proof. intros. unfold u64_succ, u64_add. apply Z.mod_small. lia. Qed.

Lemma u64_succ_neq a : in_u64 a -> u64_succ a <> a.
Proof.
  unfold in_u64, u64_succ, u64_add. intros [Hl Hu].
  destruct (decide (a + 1 < two64)).
  - rewrite Z.mod_small by lia. lia.
  - assert (a + 1 = two64) as -> by lia. rewrite Z_mod_same_full.
    unfold two64 in *. lia.
Qed.

#[export] Hint Resolve u64_add_range u64_succ_range : go.

(** ** Strings: lemmas *)

Lemma ascii_compare_refl a : Ascii.compare a a = Eq.
Proof. apply N.compare_refl. Qed.

Lemma str_compare_refl a : String.compare a a = Eq.
Proof. induction a as [|c a IH]; simpl; [done|]. by rewrite ascii_compare_refl. Qed.

Lemma str_ltb_irrefl a : str_ltb a a = false.
Proof. unfold str_ltb. by rewrite str_compare_refl. Qed.

Lemma str_leb_refl a : str_leb a a = true.
Proof. unfold str_leb. by rewrite str_compare_refl. Qed.

Lemma str_leb_total a b : str_leb a b = true \/ str_leb b a = true.
Proof.
  unfold str_leb. rewrite (String.compare_antisym b a).
  destruct (String.compare a b); simpl; auto.
Qed.

Lemma str_leb_antisym a b : str_leb a b = true -> str_leb b a = true -> a = b.
Proof.
  unfold str_leb. rewrite (String.compare_antisym a b).
  destruct (String.compare b a) eqn:E; simpl; try done; intros _ _.
  by apply String.compare_eq_iff in E.
Qed.

Lemma str_ltb_leb a b : str_ltb a b = negb (str_leb b a).
Proof.
  unfold str_ltb, str_leb. rewrite (String.compare_antisym a b).
  by destruct (String.compare b a).
Qed.

(** One level of a lexicographic comparison of strings. *)
Definition lex_le (x y : string) (rest : Prop) : Prop :=
  (x <> y -> str_leb x y = true) /\ (x = y -> rest).

Lemma ascii_compare_trans a b c r :
  Ascii.compare a b = r -> Ascii.compare b c = r -> Ascii.compare a c = r.
Proof.
  unfold Ascii.compare. destruct r; intros H1 H2.
  - apply N.compare_eq in H1, H2. rewrite H1, H2. apply N.compare_refl.
  - rewrite N.compare_lt_iff in *. lia.
  - rewrite N.compare_gt_iff in *. lia.
Qed.

Lemma ascii_compare_eq a b : Ascii.compare a b = Eq -> a = b.
Proof. apply Ascii.compare_eq_iff. Qed.

Lemma str_leb_trans a b c :
  str_leb a b = true -> str_leb b c = true -> str_leb a c = true.
Proof.
  unfold str_leb. revert b c. induction a as [|x a IH]; intros [|y b] [|z c]; simpl; try done.
  specialize (IH b c).
  destruct (Ascii.compare x y) eqn:E1, (Ascii.compare y z) eqn:E2; try done;
    repeat match goal with
    | H : Ascii.compare _ _ = Eq |- _ => apply ascii_compare_eq in H; subst
    end; try (rewrite E1 || rewrite E2); try done.
  - rewrite ascii_compare_refl. exact IH.
  - by rewrite (ascii_compare_trans _ _ _ _ E1 E2).
Qed.

Lemma is_empty_true s : is_empty s = true <-> s = "".
Proof. by destruct s. Qed.

Lemma is_empty_false s : is_empty s = false <-> s <> "".
Proof. by destruct s. Qed.

Lemma string_Forall_app P a b :
  string_Forall P (a +:+ b) = string_Forall P a && string_Forall P b.
Proof. induction a as [|c a IH]; simpl; [done|]. by rewrite IH, andb_assoc. Qed.

Lemma str_app_assoc (a b c : string) : (a +:+ b) +:+ c = a +:+ (b +:+ c).
Proof. induction a as [|x a IH]; [done|]. change (String x ((a +:+ b) +:+ c) = String x (a +:+ (b +:+ c))). by rewrite IH. Qed.

Lemma str_app_empty (a : string) : a +:+ "" = a.
Proof. induction a as [|x a IH]; [done|]. change (String x (a +:+ "") = String x a). by rewrite IH. Qed.

Lemma str_length_app (a b : string) : String.length (a +:+ b) = (String.length a + String.length b)%nat.
Proof. induction a as [|x a IH]; [done|]. change (S (String.length (a +:+ b)) = S (String.length a + String.length b)). by rewrite IH. Qed.

(** Joining NUL-free parts with NUL bytes loses nothing: this is why the
    program's composite map keys identify what they are made of. *)
Lemma nul_join_inj a b x y :
  nul_free a = true -> nul_free b = true ->
  a +:+ String NUL x = b +:+ String NUL y -> a = b /\ x = y.
Proof.
  revert b. induction a as [|c a IH]; intros [|d b]; simpl; intros Ha Hb E.
  - by simplify_eq.
  - injection E as <- E. discriminate Hb.
  - injection E as -> E. discriminate Ha.
  - unfold nul_free in *. simpl in *. bool_prop. injection E as -> E.
    destruct (IH b) as [-> ->]; auto.
Qed.

Lemma lex_le_trans x y z (P Q S : Prop) :
  (P -> Q -> S) -> lex_le x y P -> lex_le y z Q -> lex_le x z S.
Proof.
  intros HS [H1 P1] [H2 P2]. destruct (decide (x = y)) as [<-|Hxy].
  { split; intros E; auto. }
  destruct (decide (y = z)) as [<-|Hyz]; [by split; auto|].
  split; intros; [by eapply str_leb_trans; auto|subst z].
  exfalso. by apply Hxy, str_leb_antisym; auto.
Qed.

Lemma lex_le_antisym x y (P Q : Prop) : lex_le x y P -> lex_le y x Q -> x = y /\ P /\ Q.
Proof.
  intros [H1 P1] [H2 P2]. destruct (decide (x = y)) as [<-|Hne]; [auto|].
  exfalso. by apply Hne, str_leb_antisym; auto.
Qed.

Lemma lex_le_total x y (P Q : Prop) : P \/ Q -> lex_le x y P \/ lex_le y x Q.
Proof.
  intros HPQ. unfold lex_le. destruct (decide (x = y)) as [<-|Hne].
  - destruct HPQ; [left|right]; by split.
  - destruct (str_leb_total x y); [left|right]; split; congruence.
Qed.

(** [if x != y { return x < y }] followed by the comparison of the rest. *)
Lemma lex_le_if x y (b : bool) (P : Prop) :
  (b = false <-> P) ->
  (if negb (bool_decide (x = y)) then str_ltb x y else b) = false <-> lex_le y x P.
Proof.
  intros Hb. unfold lex_le. case_bool_decide as E; simpl.
  - subst. rewrite Hb. intuition.
  - rewrite str_ltb_leb, negb_false_iff. intuition congruence.
Qed.

(** ** Map iteration: lemmas *)

Lemma range_of_some_range `{Countable K} {V} (m : gmap K V) :
  range_of m (some_range m).
Proof.
  split.
  - apply NoDup_fst_map_to_list.
  - intros k. unfold some_range. rewrite list_elem_of_fmap. split.
    + intros [[k' v] [-> Hin]]. apply elem_of_map_to_list in Hin. by exists v.
    + intros [v Hv]. exists (k, v). split; [done|]. by apply elem_of_map_to_list.
Qed.

Lemma range_of_perm `{Countable K} {V} (m : gmap K V) ks :
  range_of m ks -> ks ≡ₚ some_range m.
Proof.
  intros [Hnd Hin]. apply NoDup_Permutation; [done|apply NoDup_fst_map_to_list|].
  intros k. rewrite Hin. symmetry. apply range_of_some_range.
Qed.

Lemma range_of_dom `{Countable K} {V} (m : gmap K V) ks k :
  range_of m ks -> k ∈ ks <-> is_Some (m !! k).
Proof. intros [_ H1]. apply H1. Qed.

#[export] Hint Resolve range_of_some_range : go.

(** [for key, value := range m { if v', ok := f(key, value); ok { m[key] = v';
    changed = append(changed, v') } }]: the loop that rewrites some entries of
    the map it ranges over, the keys visited in the order [ks]. *)
Fixpoint range_update `{Countable K} {V} (f : K -> V -> option V) (ks : list K)
    (m : gmap K V) : gmap K V * list V :=
  match ks with
  | [] => (m, [])
  | k :: ks =>
      match m !! k ≫= f k with
      | None => range_update f ks m
      | Some v' =>
          let '(m', changed) := range_update f ks (<[k := v']> m) in
          (m', v' :: changed)
      end
  end.

Section range_update.
Context `{Countable K} {V : Type} (f : K -> V -> option V).
Implicit Types (m : gmap K V) (ks : list K).

Lemma range_update_lookup ks m k :
  NoDup ks ->
  (range_update f ks m).1 !! k =
    if bool_decide (k ∈ ks)
    then (fun v => default v (f k v)) <$> m !! k else m !! k.
Proof.
  intros Hnd. revert m. induction ks as [|k0 ks IH]; intros m; [done|].
  apply NoDup_cons in Hnd as [Hk0 Hnd]. simpl.
  destruct (decide (k = k0)) as [->|Hne].
  - rewrite (bool_decide_eq_true_2 (k0 ∈ k0 :: ks)) by set_solver.
    destruct (m !! k0) as [v|] eqn:Hv; simpl;
      [destruct (f k0 v) as [v'|] eqn:Hf; simpl|].
    + destruct (range_update f ks (<[k0:=v']> m)) as [m' c] eqn:E. simpl.
      replace m' with (range_update f ks (<[k0:=v']> m)).1 by by rewrite E.
      rewrite IH by done. rewrite bool_decide_eq_false_2 by done.
      by rewrite lookup_insert_eq.
    + rewrite IH by done. by rewrite bool_decide_eq_false_2.
    + rewrite IH by done. by rewrite bool_decide_eq_false_2.
  - assert (bool_decide (k ∈ k0 :: ks) = bool_decide (k ∈ ks)) as ->
      by (apply bool_decide_ext; set_solver).
    destruct (m !! k0 ≫= f k0) as [v'|] eqn:Hf; simpl; [|by apply IH].
    destruct (range_update f ks (<[k0:=v']> m)) as [m' c] eqn:E. simpl.
    replace m' with (range_update f ks (<[k0:=v']> m)).1 by by rewrite E.
    rewrite IH by done. by rewrite lookup_insert_ne.
Qed.

Lemma range_update_changed ks m :
  NoDup ks -> (range_update f ks m).2 = omap (fun k => m !! k ≫= f k) ks.
Proof.
  intros Hnd. revert m. induction ks as [|k0 ks IH]; intros m; [done|].
  apply NoDup_cons in Hnd as [Hk0 Hnd]. simpl.
  destruct (m !! k0 ≫= f k0) as [v'|] eqn:Hf; simpl; [|by rewrite IH].
  destruct (range_update f ks (<[k0:=v']> m)) as [m' c] eqn:E. simpl.
  replace c with (range_update f ks (<[k0:=v']> m)).2 by by rewrite E.
  rewrite IH by done. f_equal. apply list_omap_ext.
  apply Forall2_same_length_lookup_2; [done|]. intros i a b Ha Hb.
  simplify_eq. rewrite lookup_insert_ne; [done|].
  intros ->. apply Hk0. by eapply list_elem_of_lookup_2.
Qed.

(** Over all the keys, the loop is a pointwise rewriting: no order matters. *)
Lemma range_update_all ks m k :
  range_of m ks ->
  (range_update f ks m).1 !! k = (fun v => default v (f k v)) <$> m !! k.
Proof.
  intros [Hnd Hin]. rewrite range_update_lookup by done.
  case_bool_decide as Hk; [done|]. rewrite Hin in Hk.
  by apply eq_None_not_Some in Hk as ->.
Qed.

Lemma range_update_order ks ks' m :
  range_of m ks -> range_of m ks' ->
  (range_update f ks m).1 = (range_update f ks' m).1.
Proof.
  intros Hr Hr'. apply map_eq. intros k. by rewrite !range_update_all.
Qed.

Lemma range_update_none ks m :
  (forall k v, m !! k = Some v -> f k v = None) -> range_update f ks m = (m, []).
Proof.
  intros Hf. induction ks as [|k ks IH]; simpl; [done|].
  destruct (m !! k) as [v|] eqn:Hv; simpl; [|done]. by rewrite (Hf _ _ Hv).
Qed.

Lemma range_of_updated ks m :
  range_of m ks -> range_of (range_update f ks m).1 ks.
Proof.
  intros Hr. split; [apply Hr|]. intros k. rewrite range_update_all by done.
  rewrite fmap_is_Some. apply Hr.
Qed.
End range_update.
