(* ===== verification/Float64.v ===== *)
(** * IEEE-754 binary64, Go's [float64]

    The type and the correctly rounded operations are the Standard Library's
    executable specification of floating-point arithmetic ([SpecFloat]) at
    precision 53 and maximal exponent 1024, rounding to nearest even, which is
    what the Go specification prescribes.  This file adds the [math] functions
    the program calls.  Go allows a compiler to fuse [x*y + z] on some
    architectures; as on amd64, every operation is rounded here. *)

From Stdlib Require Export SpecFloat.
From S2P Require Import Prelude.

Definition float64 : Type := spec_float.
Definition prec : Z := 53.
Definition emax : Z := 1024.

Definition fadd (x y : float64) : float64 := SFadd prec emax x y.
Definition fsub (x y : float64) : float64 := SFsub prec emax x y.
Definition fmul (x y : float64) : float64 := SFmul prec emax x y.
Definition fdiv (x y : float64) : float64 := SFdiv prec emax x y.

(** Go's comparison operators: every one but [!=] is false on a NaN. *)
Definition feqb (x y : float64) : bool := SFeqb x y.
Definition fltb (x y : float64) : bool := SFltb x y.
Definition fleb (x y : float64) : bool := SFleb x y.
Definition fgtb (x y : float64) : bool := fltb y x.
Definition fgeb (x y : float64) : bool := fleb y x.

Definition IsNaN (x : float64) : bool :=
  match x with S754_nan => true | _ => false end.
(** [math.IsInf(x, 0)]: either infinity. *)
Definition IsInf (x : float64) : bool :=
  match x with S754_infinity _ => true | _ => false end.

(** [float64(n)] for an integer [n]: rounded to nearest even. *)
Definition of_Z (n : Z) : float64 := binary_normalize prec emax n 0 false.

(** The constant [n / d] of the source, for [n] and [d] exactly representable. *)
Definition of_ratio (n d : Z) : float64 := fdiv (of_Z n) (of_Z d).

Definition fzero : float64 := S754_zero false.
Definition fone : float64 := of_Z 1.

(** An integral value [q] with the sign [s] kept when it is zero. *)
Definition signed_int (s : bool) (q : Z) : float64 :=
  binary_normalize prec emax (if s then - q else q) 0 s.

(** The integer part and whether a fraction was cut off, of [m * 2^e]. *)
Definition int_part (m : positive) (e : Z) : Z * bool :=
  if 0 <=? e then (Z.pos m * 2 ^ e, false)
  else (Z.pos m / 2 ^ (- e), negb (Z.pos m mod 2 ^ (- e) =? 0)).

(** [math.Trunc], [math.Floor], [math.Ceil], [math.Round] (halves away from
    zero); infinities, NaN and zeros are returned unchanged. *)
Definition Trunc (x : float64) : float64 :=
  match x with
  | S754_finite s m e =>
      if 0 <=? e then x else signed_int s (fst (int_part m e))
  | _ => x
  end.

Definition Floor (x : float64) : float64 :=
  match x with
  | S754_finite s m e =>
      if 0 <=? e then x
      else
        let '(q, frac) := int_part m e in
        signed_int s (if s && frac then q + 1 else q)
  | _ => x
  end.

Definition Ceil (x : float64) : float64 :=
  match x with
  | S754_finite s m e =>
      if 0 <=? e then x
      else
        let '(q, frac) := int_part m e in
        signed_int s (if negb s && frac then q + 1 else q)
  | _ => x
  end.

Definition Round (x : float64) : float64 :=
  match x with
  | S754_finite s m e =>
      if 0 <=? e then x
      else signed_int s ((2 * Z.pos m + 2 ^ (- e)) / (2 * 2 ^ (- e)))
  | _ => x
  end.

Definition Abs (x : float64) : float64 := SFabs x.

(** [math.Max] and [math.Min]: NaN if either argument is, and the zeros are
    ordered. *)
Definition sign_of (x : float64) : bool :=
  match x with
  | S754_zero s | S754_infinity s | S754_finite s _ _ => s
  | S754_nan => false
  end.

Definition is_pinf (x : float64) : bool :=
  match x with S754_infinity false => true | _ => false end.
Definition is_ninf (x : float64) : bool :=
  match x with S754_infinity true => true | _ => false end.
Definition is_zero (x : float64) : bool :=
  match x with S754_zero _ => true | _ => false end.

Definition Max (x y : float64) : float64 :=
  if is_pinf x || is_pinf y then S754_infinity false
  else if IsNaN x || IsNaN y then S754_nan
  else if is_zero x && is_zero y then (if sign_of x then y else x)
  else if fgtb x y then x else y.

Definition Min (x y : float64) : float64 :=
  if is_ninf x || is_ninf y then S754_infinity true
  else if IsNaN x || IsNaN y then S754_nan
  else if is_zero x && is_zero y then (if sign_of x then x else y)
  else if fltb x y then x else y.

(** [int64(x)]: the fraction is discarded.  Outside the range of [int64] the Go
    specification leaves the value open; the program converts only after a
    range check, except where noted. *)
Definition to_int64 (x : float64) : Z :=
  match x with
  | S754_finite s m e =>
      let q := fst (int_part m e) in
      i64_wrap (if s then - q else q)
  | _ => 0
  end.

Definition MinInt64f : float64 := of_Z (- two63).
(** The constant [math.MaxInt64] converted to [float64] rounds up to [2^63]. *)
Definition MaxInt64f : float64 := of_Z (two63 - 1).

Definition finite (x : float64) : bool := negb (IsNaN x) && negb (IsInf x).

(** The values a [float64] can hold: canonical mantissas. *)
Definition valid (x : float64) : bool := valid_binary prec emax x.

#[export] Instance float64_eq_dec : EqDecision float64.
Proof. solve_decision. Defined.

#[export] Instance float64_countable : Countable float64.
Proof.
  refine (inj_countable'
    (fun x : float64 => match x with
      | S754_zero s => inl (inl s)
      | S754_infinity s => inl (inr s)
      | S754_nan => inr (inl tt)
      | S754_finite s m e => inr (inr (s, m, e))
      end)
    (fun t => match t with
      | inl (inl s) => S754_zero s
      | inl (inr s) => S754_infinity s
      | inr (inl _) => S754_nan
      | inr (inr (s, m, e)) => S754_finite s m e
      end) _).
  by intros [].
Defined.

(** ** Lemmas *)

Lemma finite_spec x :
  finite x = true <->
  (exists s, x = S754_zero s) \/ (exists s m e, x = S754_finite s m e).
Proof.
  destruct x as [s|s| |s m e]; cbn; split; try discriminate; eauto;
    intros [[? ?]|(? & ? & ? & ?)]; done.
Qed.

Lemma SFcompare_antisym x y :
  SFcompare y x = option_map CompOpp (SFcompare x y).
Proof.
  assert (Hp : forall m n, Pos.compare_cont Eq m n = CompOpp (Pos.compare_cont Eq n m)).
  { intros m n. rewrite Pos.compare_cont_antisym. done. }
  destruct x as [[]|[]| |[] m e], y as [[]|[]| |[] m' e']; simpl; try done;
    do 2 f_equal; rewrite (Z.compare_antisym e e');
    destruct (e ?= e') eqn:E; simpl; try done; rewrite (Hp m' m); by rewrite ?CompOpp_involutive.
Qed.

Lemma fltb_irrefl x : fltb x x = false.
Proof.
  unfold fltb, SFltb. pose proof (SFcompare_antisym x x) as H.
  destruct (SFcompare x x) as [[]|]; simpl in H; congruence.
Qed.

Lemma fleb_nan_l x : fleb S754_nan x = false.
Proof. done. Qed.

Lemma fgtb_fltb x y : fgtb x y = fltb y x.
Proof. done. Qed.

(** On values that are not NaN the order is total. *)
Lemma fleb_total x y :
  IsNaN x = false -> IsNaN y = false -> fleb x y = negb (fltb y x).
Proof.
  intros Hx Hy. unfold fleb, fltb, SFleb, SFltb. rewrite (SFcompare_antisym x y).
  destruct (SFcompare x y) as [[]|] eqn:E; try done.
  destruct x, y; simpl in *; try done; repeat case_match; done.
Qed.

Lemma fltb_fleb x y : fltb x y = true -> fleb x y = true.
Proof. unfold fltb, fleb, SFltb, SFleb. by destruct (SFcompare x y) as [[]|]. Qed.

Lemma feqb_refl x : IsNaN x = false -> feqb x x = true.
Proof.
  intros Hx. unfold feqb, SFeqb. pose proof (SFcompare_antisym x x) as H.
  destruct (SFcompare x x) as [[]|] eqn:E; simpl in H; try congruence.
  destruct x; simpl in *; try done; repeat case_match; done.
Qed.

Lemma feqb_sym x y : feqb x y = feqb y x.
Proof.
  unfold feqb, SFeqb. rewrite (SFcompare_antisym x y).
  by destruct (SFcompare x y) as [[]|].
Qed.

Lemma feqb_nan x y : feqb x y = true -> IsNaN x = false /\ IsNaN y = false.
Proof. by destruct x, y. Qed.

(** Equal operands are the same value, except for the sign of zero. *)
Lemma feqb_eq x y : feqb x y = true -> is_zero x = false -> x = y.
Proof.
  unfold feqb, SFeqb.
  destruct x as [[]|[]| |[] m e], y as [[]|[]| |[] m' e']; simpl; try done;
    intros H _; destruct (e ?= e') eqn:E; try done;
    apply Z.compare_eq in E as ->;
    destruct (Pos.compare_cont Eq m m') eqn:E'; try done;
    by apply Pos.compare_eq in E' as ->.
Qed.

(** The order of [SFcompare], as a lexicographic order of integers. *)
Definition order_key (x : float64) : Z * Z * Z :=
  match x with
  | S754_infinity true => (-2, 0, 0)
  | S754_finite true m e => (-1, - e, Z.neg m)
  | S754_zero _ => (0, 0, 0)
  | S754_finite false m e => (1, e, Z.pos m)
  | S754_infinity false => (2, 0, 0)
  | S754_nan => (0, 0, 0)
  end.

Definition key_le (k k' : Z * Z * Z) : Prop :=
  let '(a, b, c) := k in
  let '(a', b', c') := k' in
  a < a' \/ a = a' /\ (b < b' \/ b = b' /\ c <= c').

Lemma fleb_key x y :
  IsNaN x = false -> IsNaN y = false -> fleb x y = true <-> key_le (order_key x) (order_key y).
Proof.
  intros Hx Hy. unfold fleb, SFleb.
  destruct x as [[]|[]| |[] m e], y as [[]|[]| |[] m' e']; try done; simpl;
    try (split; intros; [lia|done]); try (split; [done|lia]);
    destruct (Z.compare_spec e e'); simpl; try (split; [done|lia]); try (split; intros; [lia|done]);
    change (Pos.compare_cont Eq m m') with (Pos.compare m m');
    destruct (Pos.compare_spec m m'); simpl; try (split; [done|lia]); split; intros; try done; lia.
Qed.

Lemma fleb_trans x y z :
  IsNaN y = false -> fleb x y = true -> fleb y z = true -> fleb x z = true.
Proof.
  intros Hy Hxy Hyz.
  assert (IsNaN x = false) as Hx by by destruct x.
  assert (IsNaN z = false) as Hz by (destruct z; [done..| |done]; by destruct y as [[]|[]| |[]]).
  apply fleb_key in Hxy; [|done..]. apply fleb_key in Hyz; [|done..]. apply fleb_key; [done..|].
  unfold key_le in *. destruct (order_key x) as [[a b] c], (order_key y) as [[a' b'] c'],
    (order_key z) as [[a'' b''] c'']. lia.
Qed.

Lemma finite_not_nan x : finite x = true -> IsNaN x = false.
Proof. by destruct x. Qed.
