(* ===== verification/DomainState.v ===== *)
(** * Canonical property state: backend/internal/domain/state/state.go

    The value a Provider observed for one property, with its provenance,
    quality and availability. *)

From S2P Require Import Prelude Float64.

Definition ValueKind := string.
Definition KindBool : ValueKind := "bool".
Definition KindInt : ValueKind := "int".
Definition KindNumber : ValueKind := "number".
Definition KindString : ValueKind := "string".
Definition KindEnum : ValueKind := "enum".

Definition Source := string.
Definition SourceReported : Source := "reported".
Definition SourcePolled : Source := "polled".
Definition SourceOptimistic : Source := "optimistic".
Definition SourcePersistentCache : Source := "persistent-cache".
Definition SourceUnknown : Source := "unknown".

(** The constants of [Quality]; [QualityOther s] is any other string, [""] (the
    zero value) included. *)
Inductive Quality :=
| QualityConfirmed
| QualityReported
| QualityPolled
| QualityOptimistic
| QualityStale
| QualityUnknown
| QualityOther (s : string).

Definition UnavailableReason := string.
Definition UnavailableNeverReported : UnavailableReason := "never-reported".
Definition UnavailableDeviceOffline : UnavailableReason := "device-offline".
Definition UnavailableAvailabilityUnknown : UnavailableReason := "availability-unknown".
Definition UnavailableDisabled : UnavailableReason := "disabled".
Definition UnavailableRemoved : UnavailableReason := "removed".
Definition UnavailableExpired : UnavailableReason := "expired".
Definition UnavailableStale : UnavailableReason := "stale".
Definition UnavailableCommandUnconfirmed : UnavailableReason := "command-unconfirmed".
Definition UnavailableControlProviderOffline : UnavailableReason := "control-provider-offline".

(** A tagged value; a nil pointer of the Go struct is [None]. *)
Record Value := MkValue {
  v_Kind : ValueKind;
  v_Bool : option bool;
  v_Int : option Z;
  v_Number : option float64;
  v_String : option string;
}.

Definition zero_value : Value := MkValue "" None None None None.
Definition BoolValue (b : bool) : Value := MkValue KindBool (Some b) None None None.
Definition IntValue (n : Z) : Value := MkValue KindInt None (Some n) None None.
Definition NumberValue (x : float64) : Value := MkValue KindNumber None None (Some x) None.
Definition StringValue (s : string) : Value := MkValue KindString None None None (Some s).
Definition EnumValue (s : string) : Value := MkValue KindEnum None None None (Some s).

Record Key := MkKey {
  DeviceID : string;
  EndpointID : string;
  CapabilityID : string;
  PropertyID : string;
}.

Record StateValue := MkStateValue {
  sv_Key : Key;
  sv_Value : Value;
  sv_ProviderID : string;
  sv_Source : Source;
  sv_ObservedAt : Time;
  sv_ReceivedAt : Time;
  sv_ExpiresAt : Time;
  sv_Sequence : Z;
  sv_Version : Z;
  sv_Quality : Quality;
  sv_Known : bool;
  sv_Available : bool;
  sv_UnavailableReason : UnavailableReason;
  sv_TraceID : string;
  sv_PendingCommandID : string;
}.

Definition zero_key : Key := MkKey "" "" "" "".
(** The zero [StateValue{}] a failed map lookup yields. *)
Definition zero_state : StateValue :=
  MkStateValue zero_key zero_value "" "" zero_time zero_time zero_time 0 0
    (QualityOther "") false false "" "" "".

#[export] Instance Quality_eq_dec : EqDecision Quality.
Proof. solve_decision. Defined.
#[export] Instance Value_eq_dec : EqDecision Value.
Proof. solve_decision. Defined.
#[export] Instance Key_eq_dec : EqDecision Key.
Proof. solve_decision. Defined.
#[export] Instance StateValue_eq_dec : EqDecision StateValue.
Proof. solve_decision. Defined.
#[export] Instance Key_countable : Countable Key.
Proof.
  refine (inj_countable'
    (fun k => (DeviceID k, EndpointID k, CapabilityID k, PropertyID k))
    (fun '(d, e, c, p) => MkKey d e c p) _).
  by intros [].
Defined.

(** ** Field updates *)

Definition with_Version (s : StateValue) (n : Z) : StateValue :=
  match s with
  | MkStateValue k v p src o r e q _ qu kn av ur tr pc =>
      MkStateValue k v p src o r e q n qu kn av ur tr pc
  end.
Definition with_Pending (s : StateValue) (c : string) : StateValue :=
  match s with
  | MkStateValue k v p src o r e q n qu kn av ur tr _ =>
      MkStateValue k v p src o r e q n qu kn av ur tr c
  end.
Definition with_Quality (s : StateValue) (qu : Quality) : StateValue :=
  match s with
  | MkStateValue k v p src o r e q n _ kn av ur tr pc =>
      MkStateValue k v p src o r e q n qu kn av ur tr pc
  end.
Definition with_Known (s : StateValue) (kn : bool) : StateValue :=
  match s with
  | MkStateValue k v p src o r e q n qu _ av ur tr pc =>
      MkStateValue k v p src o r e q n qu kn av ur tr pc
  end.
Definition with_Available (s : StateValue) (av : bool) : StateValue :=
  match s with
  | MkStateValue k v p src o r e q n qu kn _ ur tr pc =>
      MkStateValue k v p src o r e q n qu kn av ur tr pc
  end.
Definition with_Reason (s : StateValue) (ur : UnavailableReason) : StateValue :=
  match s with
  | MkStateValue k v p src o r e q n qu kn av _ tr pc =>
      MkStateValue k v p src o r e q n qu kn av ur tr pc
  end.
Definition with_Trace (s : StateValue) (tr : string) : StateValue :=
  match s with
  | MkStateValue k v p src o r e q n qu kn av ur _ pc =>
      MkStateValue k v p src o r e q n qu kn av ur tr pc
  end.
Definition with_Source (s : StateValue) (src : Source) : StateValue :=
  match s with
  | MkStateValue k v p _ o r e q n qu kn av ur tr pc =>
      MkStateValue k v p src o r e q n qu kn av ur tr pc
  end.
Definition with_ExpiresAt (s : StateValue) (e : Time) : StateValue :=
  match s with
  | MkStateValue k v p src o r _ q n qu kn av ur tr pc =>
      MkStateValue k v p src o r e q n qu kn av ur tr pc
  end.
Definition with_Value (s : StateValue) (v : Value) : StateValue :=
  match s with
  | MkStateValue k _ p src o r e q n qu kn av ur tr pc =>
      MkStateValue k v p src o r e q n qu kn av ur tr pc
  end.

(** ** JSON shape

    [MarshalJSON] writes the fields of the struct (its [Value] is tagged
    ["-"]) and a ["value"] member, which is [null] for an unknown value; this
    is the document, before the text encoding of the [encoding/json] package. *)
Record StateDocument := MkStateDocument {
  doc_alias : StateValue;
  doc_value : option Value;
}.

Definition MarshalJSON (s : StateValue) : StateDocument :=
  MkStateDocument (with_Value s zero_value)
    (if sv_Known s then Some (sv_Value s) else None).

Definition UnmarshalJSON (d : StateDocument) : StateValue :=
  match doc_value d with
  | None => doc_alias d
  | Some v => with_Value (doc_alias d) v
  end.

(** ** Lemmas *)

Lemma unmarshal_marshal s :
  UnmarshalJSON (MarshalJSON s) =
    if sv_Known s then s else with_Value s zero_value.
Proof. destruct s as [??????????[]????]; done. Qed.
