(* ===== verification/StateStore.v ===== *)
(** * The State Store: backend/internal/state/store.go

    [Store] keeps one [StateValue] per property key and decides, for every
    incoming observation, whether it replaces the value it holds.  Each method
    runs under the store's mutex, so one method is one atomic step. *)

From S2P Require Import Prelude Float64 DomainState.

Inductive Decision :=
| DecisionAccepted
| DecisionAcceptedProviderReport
| DecisionRejectedProviderPriority
| DecisionRejectedSequence
| DecisionRejectedObservedAt
| DecisionRejectedQuality
| DecisionRejectedReceivedAt
| DecisionRejectedEquivalent.

#[export] Instance Decision_eq_dec : EqDecision Decision.
Proof. solve_decision. Defined.

Record ApplyResult := MkApplyResult {
  Applied : bool;
  ar_Decision : Decision;
  Current : StateValue;
  Incoming : StateValue;
  CurrentPriority : Z;
  IncomingPriority : Z;
}.

(** The interface [PriorityResolver]: the priority of a Provider at a key. *)
Class PriorityResolver (R : Type) := Priority : R -> Key -> string -> Z.

Record StaticPriorityResolver := MkStaticPriorityResolver {
  Providers : gmap string Z;
  Properties : gmap Key (gmap string Z);
}.

Definition static_priority (r : StaticPriorityResolver) (key : Key)
    (providerID : string) : Z :=
  match Properties r !! key with
  | Some propertyPriorities =>
      match propertyPriorities !! providerID with
      | Some priority => priority
      | None => default 0 (Providers r !! providerID)
      end
  | None => default 0 (Providers r !! providerID)
  end.

#[export] Instance static_resolver : PriorityResolver StaticPriorityResolver :=
  static_priority.

Record Checkpoint := MkCheckpoint {
  cp_Version : Z;
  cp_Values : list StateValue;
}.
Definition CheckpointVersion : Z := 1.

Definition qualityRank (q : Quality) : Z :=
  match q with
  | QualityConfirmed => 5
  | QualityReported => 4
  | QualityPolled => 3
  | QualityOptimistic => 2
  | QualityStale => 1
  | _ => 0
  end.

Definition normalize (value : StateValue) : StateValue :=
  let value := if is_empty (v_Kind (sv_Value value)) then value
               else with_Known value true in
  match sv_Quality value with
  | QualityConfirmed | QualityReported | QualityPolled | QualityOptimistic =>
      let value := with_Available value (sv_Known value) in
      if sv_Available value then with_Reason value ""
      else if is_empty (sv_UnavailableReason value)
           then with_Reason value UnavailableNeverReported else value
  | QualityUnknown =>
      let value := with_Available value false in
      if is_empty (sv_UnavailableReason value)
      then with_Reason value UnavailableNeverReported else value
  | QualityStale =>
      let value := with_Available value false in
      if is_empty (sv_UnavailableReason value)
      then with_Reason value UnavailableStale else value
  | QualityOther _ => value
  end.

Section Store.
Context {R : Type} `{PriorityResolver R}.

Record Store := MkStore {
  values : gmap Key StateValue;
  priority : option R;
}.

Definition NewStore (options : list (option R)) : Store :=
  MkStore ∅ (default None (head options)).

Definition SetPriorityResolver (s : Store) (resolver : option R) : Store :=
  MkStore (values s) resolver.

Definition set_values (s : Store) (m : gmap Key StateValue) : Store :=
  MkStore m (priority s).

Definition providerPriorityLocked (s : Store) (key : Key) (providerID : string) : Z :=
  match priority s with
  | None => 0
  | Some r => Priority r key providerID
  end.

Definition is_optimistic (q : Quality) : bool :=
  match q with QualityOptimistic => true | _ => false end.
Definition is_report (q : Quality) : bool :=
  match q with QualityReported | QualityConfirmed => true | _ => false end.

(** The comparison after the optimistic and Provider-priority rules. *)
Definition compare_time (current incoming : StateValue) : Decision * Z * Z :=
  if (sv_ProviderID current =s sv_ProviderID incoming)
     && (0 <? sv_Sequence current) && (0 <? sv_Sequence incoming) then
    if negb (sv_Sequence current =? sv_Sequence incoming) then
      if sv_Sequence current <? sv_Sequence incoming
      then (DecisionAccepted, 0, 0)
      else (DecisionRejectedSequence, 0, 0)
    else (DecisionRejectedEquivalent, 0, 0)
  else if negb (TimeEqual (sv_ObservedAt current) (sv_ObservedAt incoming)) then
    if After (sv_ObservedAt incoming) (sv_ObservedAt current)
    then (DecisionAccepted, 0, 0)
    else (DecisionRejectedObservedAt, 0, 0)
  else
    let currentQuality := qualityRank (sv_Quality current) in
    let incomingQuality := qualityRank (sv_Quality incoming) in
    if negb (currentQuality =? incomingQuality) then
      if currentQuality <? incomingQuality
      then (DecisionAccepted, 0, 0)
      else (DecisionRejectedQuality, 0, 0)
    else if negb (TimeEqual (sv_ReceivedAt current) (sv_ReceivedAt incoming)) then
      if After (sv_ReceivedAt incoming) (sv_ReceivedAt current)
      then (DecisionAccepted, 0, 0)
      else (DecisionRejectedReceivedAt, 0, 0)
    else (DecisionRejectedEquivalent, 0, 0).

Definition compareLocked (s : Store) (current incoming : StateValue) : Decision * Z * Z :=
  if is_optimistic (sv_Quality current) && is_report (sv_Quality incoming) then
    (DecisionAcceptedProviderReport, 0, 0)
  else if negb (is_empty (sv_ProviderID current))
          && negb (is_empty (sv_ProviderID incoming))
          && negb (sv_ProviderID current =s sv_ProviderID incoming) then
    let currentPriority := providerPriorityLocked s (sv_Key current) (sv_ProviderID current) in
    let incomingPriority := providerPriorityLocked s (sv_Key incoming) (sv_ProviderID incoming) in
    if negb (currentPriority =? incomingPriority) then
      if currentPriority <? incomingPriority
      then (DecisionAccepted, currentPriority, incomingPriority)
      else (DecisionRejectedProviderPriority, currentPriority, incomingPriority)
    else compare_time current incoming
  else compare_time current incoming.

Definition accepting (d : Decision) : bool :=
  match d with
  | DecisionAccepted | DecisionAcceptedProviderReport => true
  | _ => false
  end.

(** The new store, the value now held and the explanation. *)
Definition ApplyWithResult (s : Store) (incoming : StateValue)
    : Store * StateValue * ApplyResult :=
  let incoming := normalize incoming in
  let found := values s !! sv_Key incoming in
  let current := default zero_state found in
  let '(decision, currentPriority, incomingPriority) :=
    match found with
    | Some current => compareLocked s current incoming
    | None => (DecisionAccepted, 0, 0)
    end in
  if accepting decision then
    let incoming := with_Version incoming (u64_succ (sv_Version current)) in
    (set_values s (<[sv_Key incoming := incoming]> (values s)), incoming,
     MkApplyResult true decision current incoming currentPriority incomingPriority)
  else
    (s, current,
     MkApplyResult false decision current incoming currentPriority incomingPriority).

Definition Apply (s : Store) (incoming : StateValue) : Store * StateValue * bool :=
  let '(s', value, result) := ApplyWithResult s incoming in (s', value, Applied result).

Definition ApplyOptimistic (s : Store) (incoming : StateValue) : Store * StateValue :=
  let incoming := normalize incoming in
  let current := default zero_state (values s !! sv_Key incoming) in
  let incoming := with_Version incoming (u64_succ (sv_Version current)) in
  (set_values s (<[sv_Key incoming := incoming]> (values s)), incoming).

Definition EnsureUnknown (s : Store) (incoming : StateValue) : Store * StateValue * bool :=
  let incoming := normalize (with_Quality incoming QualityUnknown) in
  match values s !! sv_Key incoming with
  | Some current => (s, current, false)
  | None =>
      let incoming := with_Version incoming 1 in
      (set_values s (<[sv_Key incoming := incoming]> (values s)), incoming, true)
  end.

(** The comparison [sortStateValues] sorts by: [less] is its closure. *)
Definition key_less (left right : Key) : bool :=
  if negb (DeviceID left =s DeviceID right) then str_ltb (DeviceID left) (DeviceID right)
  else if negb (EndpointID left =s EndpointID right) then str_ltb (EndpointID left) (EndpointID right)
  else if negb (CapabilityID left =s CapabilityID right) then str_ltb (CapabilityID left) (CapabilityID right)
  else str_ltb (PropertyID left) (PropertyID right).

(** [i] may stay before [j] when [j] is not less than [i]. *)
Definition state_le (a b : StateValue) : Prop :=
  key_less (sv_Key b) (sv_Key a) = false.

#[local] Instance state_le_dec : RelDecision state_le.
Proof. intros a b. unfold state_le. apply _. Defined.

Definition sortStateValues (l : list StateValue) : list StateValue :=
  merge_sort state_le l.

(** The entries of the map in the order [ks] its iteration takes. *)
Definition range_values (m : gmap Key StateValue) (ks : list Key) : list StateValue :=
  omap (fun k => m !! k) ks.

Definition Device (s : Store) (ks : list Key) (deviceID : string) : list StateValue :=
  sortStateValues
    (omap (fun k => if DeviceID k =s deviceID then values s !! k else None) ks).

Definition Get (s : Store) (key : Key) : option StateValue := values s !! key.

Definition takeCheckpoint (s : Store) (ks : list Key) : Checkpoint :=
  MkCheckpoint CheckpointVersion (sortStateValues (range_values (values s) ks)).

(** One iteration of the loop of [RestoreCheckpoint]. *)
Definition restore_value (value : StateValue) : option StateValue :=
  if is_empty (DeviceID (sv_Key value)) || is_empty (EndpointID (sv_Key value))
     || is_empty (CapabilityID (sv_Key value)) || is_empty (PropertyID (sv_Key value))
  then None
  else
    let value := with_Quality value QualityStale in
    let value := with_Source value SourcePersistentCache in
    let value := with_Available value false in
    let value := with_Reason value UnavailableStale in
    let value := with_Pending value "" in
    let value := with_ExpiresAt value zero_time in
    let value := normalize value in
    Some (if sv_Version value =? 0 then with_Version value 1 else value).

Fixpoint restore_values (l : list StateValue) (m : gmap Key StateValue)
    : gmap Key StateValue :=
  match l with
  | [] => m
  | value :: l =>
      match restore_value value with
      | None => restore_values l m
      | Some value => restore_values l (<[sv_Key value := value]> m)
      end
  end.

Definition RestoreCheckpoint (s : Store) (checkpoint : Checkpoint) : Store * bool :=
  if negb (cp_Version checkpoint =? CheckpointVersion) then (s, false)
  else (set_values s (restore_values (cp_Values checkpoint) ∅), true).

Fixpoint ResolveOptimistic_loop (commandID : string) (fallback : option StateValue)
    (ks : list Key) (m : gmap Key StateValue) : gmap Key StateValue * option StateValue :=
  match ks with
  | [] => (m, None)
  | key :: ks =>
      match m !! key with
      | None => ResolveOptimistic_loop commandID fallback ks m
      | Some current =>
          if negb (sv_PendingCommandID current =s commandID)
          then ResolveOptimistic_loop commandID fallback ks m
          else
            let resolved :=
              match fallback with
              | Some restored =>
                  with_Pending (with_Version restored (u64_succ (sv_Version current))) ""
              | None =>
                  with_Reason (with_Available (with_Version (with_Pending (with_Quality current
                    QualityStale) "") (u64_succ (sv_Version current))) false)
                    UnavailableCommandUnconfirmed
              end in
            (<[key := resolved]> m, Some resolved)
      end
  end.

Definition ResolveOptimistic (s : Store) (ks : list Key) (commandID : string)
    (fallback : option StateValue) : Store * StateValue * bool :=
  let '(m, resolved) := ResolveOptimistic_loop commandID fallback ks (values s) in
  (set_values s m, default zero_state resolved, bool_decide (is_Some resolved)).

Definition is_stale (q : Quality) : bool :=
  match q with QualityStale => true | _ => false end.

Definition mark_stale_at (now : Time) (_ : Key) (value : StateValue) : option StateValue :=
  if IsZero (sv_ExpiresAt value) || Before now (sv_ExpiresAt value)
     || is_stale (sv_Quality value) then None
  else
    let value := with_Quality value QualityStale in
    let value := with_Available value false in
    let value := with_Reason value UnavailableExpired in
    let value := with_Pending value "" in
    Some (with_Version value (u64_succ (sv_Version value))).

Definition MarkStale (s : Store) (ks : list Key) (now : Time) : Store * list StateValue :=
  let '(m, changed) := range_update (mark_stale_at now) ks (values s) in
  (set_values s m, changed).

(** The body shared by the loops of [MarkDeviceUnavailable] and
    [MarkCapabilityUnavailable], after their filter on the key. *)
Definition mark_unavailable (reason : UnavailableReason) (traceID : string)
    (value : StateValue) : option StateValue :=
  let quality := if sv_Known value then QualityStale else QualityUnknown in
  if negb (sv_Available value) && bool_decide (sv_Quality value = quality)
     && (sv_UnavailableReason value =s reason) then None
  else
    let value := with_Quality value quality in
    let value := with_Available value false in
    let value := with_Reason value reason in
    let value := with_Trace value traceID in
    let value := with_Pending value "" in
    Some (with_Version value (u64_succ (sv_Version value))).

Definition mark_device_at (deviceID : string) (reason : UnavailableReason)
    (traceID : string) (key : Key) (value : StateValue) : option StateValue :=
  if negb (DeviceID key =s deviceID) then None
  else mark_unavailable reason traceID value.

Definition MarkDeviceUnavailable (s : Store) (ks : list Key) (deviceID : string)
    (reason : UnavailableReason) (traceIDs : list string) : Store * list StateValue :=
  let traceID := default "" (head traceIDs) in
  let '(m, changed) := range_update (mark_device_at deviceID reason traceID) ks (values s) in
  (set_values s m, changed).

Definition MarkDeviceStale (s : Store) (ks : list Key) (deviceID : string)
    : Store * list StateValue :=
  MarkDeviceUnavailable s ks deviceID UnavailableDeviceOffline [].

Definition mark_capability_at (deviceID endpointID capabilityID : string)
    (reason : UnavailableReason) (traceID : string) (key : Key) (value : StateValue)
    : option StateValue :=
  if negb (DeviceID key =s deviceID) || negb (EndpointID key =s endpointID)
     || negb (CapabilityID key =s capabilityID) then None
  else mark_unavailable reason traceID value.

Definition MarkCapabilityUnavailable (s : Store) (ks : list Key)
    (deviceID endpointID capabilityID : string) (reason : UnavailableReason)
    (traceIDs : list string) : Store * list StateValue :=
  let traceID := default "" (head traceIDs) in
  let '(m, changed) :=
    range_update (mark_capability_at deviceID endpointID capabilityID reason traceID)
      ks (values s) in
  (set_values s m, changed).

(** ** The store as a transition system

    One constructor per method that changes the store, [RestoreCheckpoint]
    apart, which replaces it; [ks] is the order of the map iteration the method
    happens to take. *)
Inductive step : Store -> Store -> Prop :=
| step_priority s r : step s (SetPriorityResolver s r)
| step_apply s v : step s (ApplyWithResult s v).1.1
| step_optimistic s v : step s (ApplyOptimistic s v).1
| step_ensure s v : step s (EnsureUnknown s v).1.1
| step_resolve s ks c fb : range_of (values s) ks ->
    (forall k cur old, values s !! k = Some cur -> sv_PendingCommandID cur = c ->
       fb = Some old -> sv_Key old = k /\ normalize old = old) ->
    step s (ResolveOptimistic s ks c fb).1.1
| step_stale s ks now : range_of (values s) ks -> step s (MarkStale s ks now).1
| step_device s ks d r tr : range_of (values s) ks -> r <> "" ->
    step s (MarkDeviceUnavailable s ks d r tr).1
| step_capability s ks d e c r tr : range_of (values s) ks -> r <> "" ->
    step s (MarkCapabilityUnavailable s ks d e c r tr).1.

Inductive reachable : Store -> Prop :=
| reachable_new options : reachable (NewStore options)
| reachable_step s s' : reachable s -> step s s' -> reachable s'
| reachable_restore s cp : reachable s -> reachable (RestoreCheckpoint s cp).1.

(** What every stored value satisfies: it is filed under its own key and its
    availability agrees with its quality. *)
Definition wf_value (v : StateValue) : Prop :=
  (v_Kind (sv_Value v) <> "" -> sv_Known v = true) /\
  match sv_Quality v with
  | QualityConfirmed | QualityReported | QualityPolled | QualityOptimistic =>
      sv_Available v = sv_Known v /\
      (sv_UnavailableReason v = "" <-> sv_Available v = true)
  | QualityUnknown | QualityStale =>
      sv_Available v = false /\ sv_UnavailableReason v <> ""
  | QualityOther _ => True
  end.

Definition wf_store (s : Store) : Prop :=
  forall k v, values s !! k = Some v -> sv_Key v = k /\ wf_value v.

End Store.

Arguments Store : clear implicits.

(** ** Lemmas *)

#[export] Hint Unfold with_Version with_Pending with_Quality with_Known
  with_Available with_Reason with_Trace with_Source with_ExpiresAt with_Value : go.

(** Split on everything the availability rules of a state value look at. *)
Ltac sv_cases v :=
  destruct v as [? [[|??] ? ? ? ?] ? ? ? ? ? ? ? [] [] [] [|??] ? ?].

Section normalize.
Implicit Type v : StateValue.

Lemma normalize_wf v : wf_value (normalize v).
Proof.
  unfold wf_value. sv_cases v; simpl; split_and?; by try split.
Qed.

(** Normalising touches nothing but [Known], [Available] and the reason. *)
Lemma normalize_fields v :
  sv_Key (normalize v) = sv_Key v /\ sv_Value (normalize v) = sv_Value v /\
  sv_ProviderID (normalize v) = sv_ProviderID v /\
  sv_ObservedAt (normalize v) = sv_ObservedAt v /\
  sv_ReceivedAt (normalize v) = sv_ReceivedAt v /\
  sv_ExpiresAt (normalize v) = sv_ExpiresAt v /\
  sv_Sequence (normalize v) = sv_Sequence v /\
  sv_Version (normalize v) = sv_Version v /\
  sv_Quality (normalize v) = sv_Quality v /\
  sv_PendingCommandID (normalize v) = sv_PendingCommandID v.
Proof. sv_cases v; by repeat split. Qed.

Lemma wf_normalized v : wf_value v -> normalize v = v.
Proof.
  unfold wf_value. intros [Hk Hq]. sv_cases v; simpl in *; try done;
    exfalso; naive_solver.
Qed.

Lemma normalize_idem v : normalize (normalize v) = normalize v.
Proof. apply wf_normalized, normalize_wf. Qed.

Lemma wf_with_Version v n : wf_value v -> wf_value (with_Version v n).
Proof. by destruct v. Qed.

Lemma wf_with_Pending v c : wf_value v -> wf_value (with_Pending v c).
Proof. by destruct v. Qed.

Lemma restore_value_wf v v' :
  restore_value v = Some v' -> wf_value v' /\ sv_Key v' = sv_Key v.
Proof.
  unfold restore_value, wf_value. intros E.
  case_match; [done|]. injection E as <-.
  sv_cases v; simpl; case_match; simpl; by split_and?.
Qed.

Lemma restore_value_dead v v' :
  restore_value v = Some v' ->
  sv_Quality v' = QualityStale /\ sv_Available v' = false /\
  sv_PendingCommandID v' = "" /\ sv_ExpiresAt v' = zero_time.
Proof.
  unfold restore_value. intros E. case_match; [done|]. injection E as <-.
  sv_cases v; simpl; case_match; done.
Qed.

Lemma mark_unavailable_wf r tr v v' :
  r <> "" -> wf_value v -> mark_unavailable r tr v = Some v' ->
  wf_value v' /\ sv_Key v' = sv_Key v /\
  sv_Version v' = u64_succ (sv_Version v).
Proof.
  intros Hr [Hk Hq] E. unfold mark_unavailable in E. unfold wf_value.
  destruct v as [k [kind vb vi vn vs] p src o r' e q n qu kn av ur tr' pc].
  simpl in *. repeat case_match; simplify_eq/=; naive_solver.
Qed.

Lemma mark_unavailable_idem r tr tr' v v' :
  mark_unavailable r tr v = Some v' -> mark_unavailable r tr' v' = None.
Proof.
  unfold mark_unavailable.
  destruct v as [k val p src o r' e q n qu kn av ur tr0 pc]; simpl.
  intros E. case_match; simplify_eq/=.
  by rewrite !bool_decide_eq_true_2.
Qed.

Lemma mark_stale_at_wf now k v v' :
  wf_value v -> mark_stale_at now k v = Some v' ->
  wf_value v' /\ sv_Key v' = sv_Key v /\
  sv_Version v' = u64_succ (sv_Version v).
Proof.
  intros [Hk Hq] E. unfold mark_stale_at in E. unfold wf_value.
  destruct v as [k' [kind vb vi vn vs] p src o r' e q n qu kn av ur tr' pc].
  simpl in *. case_match; simplify_eq/=. done.
Qed.

Lemma mark_stale_at_idem now k v v' :
  mark_stale_at now k v = Some v' -> mark_stale_at now k v' = None.
Proof.
  unfold mark_stale_at. intros E.
  destruct v as [k' val p src o r' e q n qu kn av ur tr' pc]; simpl in *.
  case_match; simplify_eq/=. by rewrite !orb_true_r.
Qed.
End normalize.

Section theorems.
Context {R : Type} `{PriorityResolver R}.
Implicit Types (s : Store R) (v : StateValue) (m : gmap Key StateValue).

Lemma sv_Key_with_Version v n : sv_Key (with_Version v n) = sv_Key v.
Proof. by destruct v. Qed.

Lemma sv_Version_with_Version v n : sv_Version (with_Version v n) = n.
Proof. by destruct v. Qed.

Lemma sv_Key_normalize v : sv_Key (normalize v) = sv_Key v.
Proof. apply normalize_fields. Qed.

(** What [ApplyWithResult] does, in one equation. *)
Lemma apply_eq s v :
  ApplyWithResult s v =
    let inc := normalize v in
    let cur := default zero_state (values s !! sv_Key v) in
    let '(d, cp, ip) := match values s !! sv_Key v with
                        | Some c => compareLocked s c inc
                        | None => (DecisionAccepted, 0, 0) end in
    let new := with_Version inc (u64_succ (sv_Version cur)) in
    if accepting d
    then (set_values s (<[sv_Key v := new]> (values s)), new,
          MkApplyResult true d cur new cp ip)
    else (s, cur, MkApplyResult false d cur inc cp ip).
Proof.
  unfold ApplyWithResult. rewrite sv_Key_normalize. cbv zeta.
  destruct (values s !! sv_Key v) as [c|]; simpl.
  - destruct (compareLocked s c (normalize v)) as [[d cp] ip].
    destruct (accepting d); [|done]. by rewrite sv_Key_with_Version, sv_Key_normalize.
  - by rewrite sv_Key_with_Version, sv_Key_normalize.
Qed.

Lemma apply_values s v :
  values (ApplyWithResult s v).1.1 = values s \/
  values (ApplyWithResult s v).1.1 =
    <[sv_Key v := with_Version (normalize v)
        (u64_succ (sv_Version (default zero_state (values s !! sv_Key v))))]> (values s).
Proof.
  rewrite apply_eq. cbv zeta. repeat case_match; simpl; auto.
Qed.

Lemma optimistic_values s v :
  values (ApplyOptimistic s v).1 =
    <[sv_Key v := with_Version (normalize v)
        (u64_succ (sv_Version (default zero_state (values s !! sv_Key v))))]> (values s).
Proof.
  unfold ApplyOptimistic. cbv zeta. simpl.
  by rewrite sv_Key_with_Version, sv_Key_normalize.
Qed.

(** ** Well-formedness *)

Lemma wf_insert s k v :
  wf_store s -> sv_Key v = k -> wf_value v -> wf_store (set_values s (<[k := v]> (values s))).
Proof.
  intros Hs Hk Hv k' v'. simpl. destruct (decide (k = k')) as [<-|Hne].
  - rewrite lookup_insert_eq. intros [= <-]. done.
  - rewrite lookup_insert_ne by done. apply Hs.
Qed.

Lemma wf_range_update s f ks :
  wf_store s -> range_of (values s) ks ->
  (forall k v v', wf_value v -> sv_Key v = k -> f k v = Some v' ->
     wf_value v' /\ sv_Key v' = sv_Key v) ->
  wf_store (set_values s (range_update f ks (values s)).1).
Proof.
  intros Hs Hr Hf k v'. simpl. rewrite range_update_all by done.
  destruct (values s !! k) as [v|] eqn:Hv; simpl; [|done]. intros [= <-].
  destruct (Hs k v Hv) as [Hk Hwf].
  destruct (f k v) as [v'|] eqn:E; simpl; [|done].
  destruct (Hf k v v' Hwf Hk E) as [? ->]. done.
Qed.

Lemma resolve_loop_spec c fb ks m :
  NoDup ks ->
  ResolveOptimistic_loop c fb ks m = (m, None) \/
  exists k cur new, k ∈ ks /\ m !! k = Some cur /\ sv_PendingCommandID cur = c /\
    ResolveOptimistic_loop c fb ks m = (<[k := new]> m, Some new) /\
    sv_Version new = u64_succ (sv_Version cur) /\ sv_PendingCommandID new = "" /\
    match fb with
    | Some old => new = with_Pending (with_Version old (u64_succ (sv_Version cur))) ""
    | None => sv_Quality new = QualityStale /\ sv_Available new = false /\
              sv_UnavailableReason new = UnavailableCommandUnconfirmed /\
              sv_Key new = sv_Key cur /\ sv_Value new = sv_Value cur /\
              sv_Known new = sv_Known cur
    end.
Proof.
  induction ks as [|k ks IH]; intros Hnd; simpl; [by left|].
  apply NoDup_cons in Hnd as [_ Hnd].
  assert (Hrec : ResolveOptimistic_loop c fb ks m = (m, None) \/ _) by (apply IH, Hnd).
  destruct (m !! k) as [cur|] eqn:Hcur.
  - case_bool_decide as Hc; simpl.
    + right. exists k, cur. eexists. split; [set_solver|].
      split; [done|]. split; [done|]. split; [done|].
      by destruct fb as [[]|], cur.
    + destruct Hrec as [->|(k' & cur' & new & Hin & Hrest)]; [by left|right].
      exists k', cur', new. split; [set_solver|done].
  - destruct Hrec as [->|(k' & cur' & new & Hin & Hrest)]; [by left|right].
    exists k', cur', new. split; [set_solver|done].
Qed.

Lemma restore_values_wf l m :
  (forall k v, m !! k = Some v -> sv_Key v = k /\ wf_value v) ->
  forall k v, restore_values l m !! k = Some v -> sv_Key v = k /\ wf_value v.
Proof.
  revert m. induction l as [|v l IH]; intros m Hm; simpl; [done|].
  destruct (restore_value v) as [v'|] eqn:E; [|by apply IH].
  apply IH. intros k w. destruct (decide (sv_Key v' = k)) as [<-|Hne].
  - rewrite lookup_insert_eq. intros [= <-].
    by destruct (restore_value_wf v v' E).
  - rewrite lookup_insert_ne by done. apply Hm.
Qed.

Lemma step_wf s s' : step s s' -> wf_store s -> wf_store s'.
Proof.
  intros Hstep Hs. destruct Hstep as [s r|s v|s v|s v|s ks c fb Hr Hfb|s ks now Hr|
    s ks d r tr Hr Hne|s ks d e c r tr Hr Hne].
  - exact Hs.
  - rewrite apply_eq. cbv zeta. repeat case_match; simpl; try done;
      apply wf_insert; auto using wf_with_Version, normalize_wf;
      by rewrite sv_Key_with_Version, sv_Key_normalize.
  - unfold ApplyOptimistic. simpl. by apply wf_insert; [|rewrite sv_Key_with_Version|auto using wf_with_Version, normalize_wf].
  - unfold EnsureUnknown. case_match; simpl; [done|].
    by apply wf_insert; [|rewrite sv_Key_with_Version|auto using wf_with_Version, normalize_wf].
  - unfold ResolveOptimistic.
    destruct (resolve_loop_spec c fb ks (values s)) as
      [->|(k & cur & new & Hin & Hcur & Hc & -> & Hver & Hp & Hnew)]; [apply Hr|done|].
    simpl. destruct (Hs k cur Hcur) as [Hk Hwf]. apply wf_insert; [done| |].
    + destruct fb as [old|]; [|by destruct Hnew as (_ & _ & _ & -> & _)].
      destruct (Hfb k cur old Hcur Hc eq_refl) as [<- _]. subst new. by destruct old.
    + destruct fb as [old|].
      * destruct (Hfb k cur old Hcur Hc eq_refl) as [_ Hn]. subst new.
        apply wf_with_Pending, wf_with_Version. rewrite <- Hn. apply normalize_wf.
      * destruct Hnew as (Hq & Ha & Hu & _ & Hv & Hkn), Hwf as [Hwf _].
        unfold wf_value. rewrite Hq, Ha, Hu, Hv, Hkn. done.
  - unfold MarkStale. rewrite (surjective_pairing (range_update _ _ _)). simpl.
    apply wf_range_update; [done..|]. intros k v v' Hwf _ E.
    by destruct (mark_stale_at_wf now k v v' Hwf E) as (? & ? & _).
  - unfold MarkDeviceUnavailable. rewrite (surjective_pairing (range_update _ _ _)). simpl.
    apply wf_range_update; [done..|]. intros k v v' Hwf _. unfold mark_device_at.
    case_match; [done|]. intros E.
    by destruct (mark_unavailable_wf r _ v v' Hne Hwf E) as (? & ? & _).
  - unfold MarkCapabilityUnavailable. rewrite (surjective_pairing (range_update _ _ _)). simpl.
    apply wf_range_update; [done..|]. intros k v v' Hwf _. unfold mark_capability_at.
    case_match; [done|]. intros E.
    by destruct (mark_unavailable_wf r _ v v' Hne Hwf E) as (? & ? & _).
Qed.

Lemma restore_wf s cp : wf_store s -> wf_store (RestoreCheckpoint s cp).1.
Proof.
  intros Hs. unfold RestoreCheckpoint. case_match; simpl; [done|].
  intros k v. apply restore_values_wf. intros ? ? Hl. by rewrite lookup_empty in Hl.
Qed.

Lemma reachable_wf s : reachable s -> wf_store s.
Proof.
  induction 1; eauto using step_wf, restore_wf.
  intros k v Hl. simpl in Hl. by rewrite lookup_empty in Hl.
Qed.

(** ** Versions *)

Lemma range_update_version f ks m :
  range_of m ks ->
  (forall k v v', m !! k = Some v -> f k v = Some v' ->
     sv_Version v' = u64_succ (sv_Version v)) ->
  forall k v, m !! k = Some v ->
    exists v', (range_update f ks m).1 !! k = Some v' /\
      (v' = v \/ sv_Version v' = u64_succ (sv_Version v)).
Proof.
  intros Hr Hf k v Hv. rewrite range_update_all, Hv by done. simpl.
  destruct (f k v) as [v'|] eqn:E; simpl; eauto.
Qed.

Lemma insert_version m k0 w :
  (forall v, m !! k0 = Some v -> sv_Version w = u64_succ (sv_Version v)) ->
  forall k v, m !! k = Some v ->
    exists v', <[k0 := w]> m !! k = Some v' /\
      (v' = v \/ sv_Version v' = u64_succ (sv_Version v)).
Proof.
  intros Hw k v Hv. destruct (decide (k0 = k)) as [<-|Hne].
  - rewrite lookup_insert_eq. eauto.
  - rewrite lookup_insert_ne by done. eauto.
Qed.

Lemma mark_stale_at_version now k v v' :
  mark_stale_at now k v = Some v' -> sv_Version v' = u64_succ (sv_Version v).
Proof. unfold mark_stale_at. case_match; [done|]. intros [= <-]. by destruct v. Qed.

Lemma mark_unavailable_version r tr v v' :
  mark_unavailable r tr v = Some v' -> sv_Version v' = u64_succ (sv_Version v).
Proof. unfold mark_unavailable. case_match; [done|]. intros [= <-]. by destruct v. Qed.

(** No step of the State Store forgets a property: every key keeps an entry,
    and an entry that changes moves its version by exactly one (modulo 2^64), so
    a reader can tell a changed entry from an unchanged one by its version. *)
Theorem step_versions s s' :
  step s s' ->
  forall k v, values s !! k = Some v ->
  exists v', values s' !! k = Some v' /\
    (v' = v \/ sv_Version v' = u64_succ (sv_Version v)).
Proof.
  intros Hstep. destruct Hstep as [s r|s v|s v|s v|s ks c fb Hr Hfb|s ks now Hr|
    s ks d r tr Hr Hne|s ks d e c r tr Hr Hne]; intros k w Hw.
  - eauto.
  - destruct (apply_values s v) as [->| ->]; [eauto|]. apply insert_version; [|done].
    intros w' Hw'. by rewrite sv_Version_with_Version, Hw'.
  - rewrite optimistic_values. apply insert_version; [|done].
    intros w' Hw'. by rewrite sv_Version_with_Version, Hw'.
  - unfold EnsureUnknown. case_match eqn:E; simpl; [eauto|].
    apply insert_version; [|done]. intros w' Hw'.
    by rewrite sv_Key_with_Version, E in Hw'.
  - unfold ResolveOptimistic.
    destruct (resolve_loop_spec c fb ks (values s)) as
      [->|(k' & cur & new & Hin & Hcur & Hc & -> & Hver & _)]; [apply Hr|simpl; eauto|].
    simpl. apply insert_version; [|done]. intros w' Hw'. by simplify_eq.
  - unfold MarkStale. rewrite (surjective_pairing (range_update _ _ _)). simpl.
    apply range_update_version; eauto using mark_stale_at_version.
  - unfold MarkDeviceUnavailable. rewrite (surjective_pairing (range_update _ _ _)). simpl.
    apply range_update_version; [done| |done]. intros ? ? ? _. unfold mark_device_at.
    case_match; [done|]. apply mark_unavailable_version.
  - unfold MarkCapabilityUnavailable. rewrite (surjective_pairing (range_update _ _ _)). simpl.
    apply range_update_version; [done| |done]. intros ? ? ? _. unfold mark_capability_at.
    case_match; [done|]. apply mark_unavailable_version.
Qed.

(** Every value of a reachable State Store is filed under its own key and is
    well formed: a value with a payload is known; a fresh quality is available
    exactly when the value is known, and has a reason exactly when it is not; a
    stale or unknown quality is never available and always has a reason. *)
Theorem reachable_store_wf s k v :
  reachable s -> values s !! k = Some v -> sv_Key v = k /\ wf_value v.
Proof. intros Hr. apply (reachable_wf s Hr). Qed.

(** ** Conflict resolution *)

(** Two observations of one Provider that both carry a sequence number. *)
Definition sequenced (a b : StateValue) : Prop :=
  sv_ProviderID a = sv_ProviderID b /\ 0 < sv_Sequence a /\ 0 < sv_Sequence b.

Lemma compare_sequenced s cur inc :
  sequenced cur inc -> is_optimistic (sv_Quality cur) && is_report (sv_Quality inc) = false ->
  accepting (compareLocked s cur inc).1.1 = (sv_Sequence cur <? sv_Sequence inc).
Proof.
  intros (Hp & Hc & Hi) Ho. unfold compareLocked. rewrite Ho.
  rewrite (bool_decide_eq_true_2 (sv_ProviderID cur = _)) by done.
  rewrite andb_false_r. unfold compare_time.
  rewrite bool_decide_eq_true_2 by done.
  replace (0 <? sv_Sequence cur) with true by lia.
  replace (0 <? sv_Sequence inc) with true by lia. simpl.
  destruct (Z.eqb_spec (sv_Sequence cur) (sv_Sequence inc)) as [->|Hne]; simpl.
  - by rewrite Z.ltb_irrefl.
  - by destruct (sv_Sequence cur <? sv_Sequence inc).
Qed.

(** Deliver a list of observations one after the other. *)
Definition apply_all s (l : list StateValue) : Store R :=
  foldl (fun s v => (ApplyWithResult s v).1.1) s l.

(** The observation with the highest sequence number; the first of equals. *)
Definition newest (v : StateValue) (l : list StateValue) : StateValue :=
  foldl (fun a b => if sv_Sequence a <? sv_Sequence b then b else a) v l.

Definition payload (v : StateValue) : StateValue := with_Version (normalize v) 0.

(** Reports of one Provider for one property, none of them optimistic. *)
Definition same_feed (k : Key) (p : string) (v : StateValue) : Prop :=
  sv_Key v = k /\ sv_ProviderID v = p /\ 0 < sv_Sequence v /\
  is_optimistic (sv_Quality v) = false.

Lemma normalize_with_Version v n :
  normalize (with_Version v n) = with_Version (normalize v) n.
Proof. by sv_cases v. Qed.

Lemma apply_feed k p s cur v :
  same_feed k p cur -> same_feed k p v -> values s !! k = Some cur -> wf_value cur ->
  exists cur', values (ApplyWithResult s v).1.1 !! k = Some cur' /\ wf_value cur' /\
    same_feed k p cur' /\
    payload cur' = payload (if sv_Sequence cur <? sv_Sequence v then v else cur).
Proof.
  intros (Hck & Hcp & Hcs & Hco) (Hvk & Hvp & Hvs & Hvo) Hcur Hwf.
  destruct (normalize_fields v) as (Nk & _ & Np & _ & _ & _ & Ns & _ & Nq & _).
  rewrite apply_eq, Hvk, Hcur. cbv zeta.
  pose proof (compare_sequenced s cur (normalize v)) as Hcmp.
  destruct (compareLocked s cur (normalize v)) as [[d cp] ip]. simpl in *.
  rewrite Hcmp, Ns; [|split_and!; congruence|by rewrite Hco].
  destruct (sv_Sequence cur <? sv_Sequence v); simpl.
  - rewrite lookup_insert_eq. eexists. split; [done|].
    split; [apply wf_with_Version, normalize_wf|]. split.
    + unfold same_feed. rewrite sv_Key_with_Version.
      destruct (normalize v) eqn:E; simpl in *. split_and!; congruence.
    + unfold payload. rewrite normalize_with_Version, normalize_idem.
      by destruct (normalize v).
  - exists cur. done.
Qed.

(** The stored payload after a feed is the newest report of the feed. *)
Lemma apply_all_feed k p l : forall s cur,
  same_feed k p cur -> Forall (same_feed k p) l ->
  values s !! k = Some cur -> wf_value cur ->
  exists cur', values (apply_all s l) !! k = Some cur' /\
    payload cur' = payload (newest cur l).
Proof.
  induction l as [|v l IH]; intros s cur Hcur Hl Hs Hwf; [by eauto|].
  apply Forall_cons in Hl as [Hv Hl]. simpl.
  destruct (apply_feed k p s cur v) as (cur' & Hs' & Hwf' & Hf' & Hp); [done..|].
  destruct (IH _ cur' Hf' Hl Hs' Hwf') as (c2 & Hc2 & E). exists c2. split; [done|].
  rewrite E. clear IH Hc2 E c2 Hs Hs'.
  assert (Hn : forall a b, payload a = payload b ->
    payload (newest a l) = payload (newest b l)).
  { clear -l. induction l as [|w l IH]; intros a b Hab; [done|]. simpl. apply IH.
    assert (sv_Sequence a = sv_Sequence b) as ->.
    { apply (f_equal sv_Sequence) in Hab. unfold payload in Hab.
      destruct (normalize_fields a) as (_&_&_&_&_&_&Ha&_), (normalize_fields b) as (_&_&_&_&_&_&Hb&_).
      by destruct (normalize a), (normalize b); simpl in *; subst. }
    by destruct (_ <? _). }
  apply Hn, Hp.
Qed.

Lemma newest_max v l :
  newest v l ∈ v :: l /\ Forall (fun w => sv_Sequence w <= sv_Sequence (newest v l)) (v :: l).
Proof.
  revert v. induction l as [|w l IH]; intros v; simpl.
  - split; [set_solver|]. repeat constructor. lia.
  - destruct (Z.ltb_spec (sv_Sequence v) (sv_Sequence w)).
    + destruct (IH w) as [Hin Hall]. split; [set_solver|].
      apply Forall_cons in Hall as [Hw Hall]. repeat constructor; [lia|done..].
    + destruct (IH v) as [Hin Hall]. split; [set_solver|].
      apply Forall_cons in Hall as [Hv Hall]. repeat constructor; [done|lia|done].
Qed.

(** C1: Delivery order does not matter.  Reports of one Provider for one
    property, with distinct positive sequence numbers, leave the State Store
    with the same value, up to its version counter, in whatever order they
    arrive: the report with the highest sequence number. *)
Theorem apply_all_converges k p s cur l l' :
  wf_store s -> values s !! k = Some cur -> same_feed k p cur ->
  Forall (same_feed k p) l -> NoDup (sv_Sequence <$> cur :: l) -> l ≡ₚ l' ->
  exists v v' w, w ∈ cur :: l /\
    values (apply_all s l) !! k = Some v /\ values (apply_all s l') !! k = Some v' /\
    payload v = payload w /\ payload v' = payload w /\
    Forall (fun x => sv_Sequence x <= sv_Sequence w) (cur :: l).
Proof.
  intros Hwf Hcur Hf Hl Hnd Hperm. destruct (Hwf k cur Hcur) as [_ Hwc].
  destruct (apply_all_feed k p l s cur) as (v & Hv & E); [done..|].
  destruct (apply_all_feed k p l' s cur) as (v' & Hv' & E'); [done|by rewrite <- Hperm|done..|].
  destruct (newest_max cur l) as [Hin Hmax], (newest_max cur l') as [Hin' Hmax'].
  exists v, v', (newest cur l). split_and!; try done. rewrite E'. f_equal.
  assert (Hin2 : newest cur l' ∈ cur :: l) by by rewrite Hperm.
  rewrite <- Hperm in Hmax'. rewrite Forall_forall in Hmax, Hmax'.
  assert (Heq : sv_Sequence (newest cur l') = sv_Sequence (newest cur l)).
  { specialize (Hmax _ Hin2). specialize (Hmax' _ Hin). lia. }
  apply list_elem_of_lookup in Hin as [i Hi], Hin2 as [j Hj].
  rewrite NoDup_alt in Hnd.
  assert (j = i) as ->; [|congruence].
  apply (Hnd j i (sv_Sequence (newest cur l)));
    rewrite list_lookup_fmap; [rewrite Hj; simpl; congruence|by rewrite Hi].
Qed.

(** An observation delivered twice is applied at most once: whatever the
    first delivery did, the second one is rejected and leaves the store as it is. *)
Theorem apply_replay s v :
  let s1 := (ApplyWithResult s v).1.1 in
  Applied (ApplyWithResult s v).2 = true ->
  Applied (ApplyWithResult s1 v).2 = false /\ (ApplyWithResult s1 v).1.1 = s1.
Proof.
  intros s1. subst s1. rewrite (apply_eq s v). cbv zeta.
  set (cur := default zero_state _). set (new := with_Version _ _).
  set (c := match values s !! sv_Key v with Some _ => _ | None => _ end).
  destruct c as [[d cp] ip]. destruct (accepting d); [|done]. simpl. intros _.
  rewrite apply_eq. cbv zeta. simpl. rewrite lookup_insert_eq.
  assert (Hcmp : compareLocked (set_values s (<[sv_Key v:=new]> (values s))) new (normalize v)
                 = (DecisionRejectedEquivalent, 0, 0)).
  { subst new. unfold compareLocked, compare_time. destruct (normalize v) as
      [k val p src o r e q n qu kn av ur tr pc]; simpl.
    replace (is_optimistic qu && is_report qu) with false by by destruct qu.
    rewrite !bool_decide_eq_true_2 by done. rewrite andb_false_r.
    unfold TimeEqual. rewrite !Z.eqb_refl. simpl.
    by destruct (_ && _). }
  by rewrite Hcmp.
Qed.

(** Between two Providers of different priority only the priority counts:
    unless the report confirms an optimistic value, an observation replaces the
    current value of another Provider exactly when its Provider has the higher
    priority, whatever the sequence numbers, times and qualities are. *)
Theorem apply_priority s r v cur :
  priority s = Some r -> values s !! sv_Key v = Some cur -> sv_Key cur = sv_Key v ->
  is_optimistic (sv_Quality cur) && is_report (sv_Quality v) = false ->
  sv_ProviderID cur <> "" -> sv_ProviderID v <> "" ->
  sv_ProviderID cur <> sv_ProviderID v ->
  Priority r (sv_Key v) (sv_ProviderID cur) <> Priority r (sv_Key v) (sv_ProviderID v) ->
  Applied (ApplyWithResult s v).2 =
    (Priority r (sv_Key v) (sv_ProviderID cur) <? Priority r (sv_Key v) (sv_ProviderID v)).
Proof.
  intros Hr Hcur Hk Ho Hp1 Hp2 Hp Hpr.
  destruct (normalize_fields v) as (Nk & _ & Np & _ & _ & _ & Ns & _ & Nq & _).
  rewrite apply_eq, Hcur. cbv zeta. unfold compareLocked, providerPriorityLocked.
  rewrite Nk, Np, Nq, Ho, Hr, Hk.
  apply is_empty_false in Hp1 as ->, Hp2 as ->.
  rewrite bool_decide_eq_false_2 by done. simpl.
  apply Z.eqb_neq in Hpr as ->. simpl. by destruct (_ <? _).
Qed.

(** ** Rolling back optimistic values *)

Lemma resolve_none s ks c fb :
  range_of (values s) ks ->
  (forall k v, values s !! k = Some v -> sv_PendingCommandID v <> c) ->
  ResolveOptimistic s ks c fb = (s, zero_state, false).
Proof.
  intros [Hnd _] Hno. unfold ResolveOptimistic.
  destruct (resolve_loop_spec c fb ks (values s) Hnd) as
    [->|(k & cur & new & _ & Hcur & Hc & _)]; [by destruct s|].
  by destruct (Hno k cur Hcur).
Qed.

Lemma resolve_owned s ks c fb :
  range_of (values s) ks ->
  (forall k v, values s !! k = Some v -> sv_PendingCommandID v <> c ->
     values (ResolveOptimistic s ks c fb).1.1 !! k = Some v) /\
  (forall k cur, values s !! k = Some cur -> sv_PendingCommandID cur = c ->
     (forall k' v, values s !! k' = Some v -> sv_PendingCommandID v = c -> k' = k) ->
     exists new, ResolveOptimistic s ks c fb = (set_values s (<[k := new]> (values s)), new, true) /\
       sv_Version new = u64_succ (sv_Version cur) /\ sv_PendingCommandID new = "" /\
       match fb with
       | Some old => new = with_Pending (with_Version old (u64_succ (sv_Version cur))) ""
       | None => sv_Quality new = QualityStale /\ sv_Available new = false /\
                 sv_Value new = sv_Value cur
       end).
Proof.
  intros [Hnd Hin]. unfold ResolveOptimistic.
  destruct (resolve_loop_spec c fb ks (values s) Hnd) as
    [E|(k0 & cur0 & new & _ & Hcur0 & Hc0 & E & Hver & Hpend & Hnew)].
  - rewrite E. simpl. split; [done|]. intros k cur Hcur Hc _. exfalso.
    assert (Hk : k ∈ ks) by (apply Hin; eauto).
    clear -E Hk Hcur Hc. induction ks as [|k' ks IH]; [set_solver|]. simpl in E.
    destruct (values s !! k') as [c'|] eqn:Hc'.
    + case_bool_decide; simpl in E; [done|].
      apply elem_of_cons in Hk as [<-|Hk]; [congruence|auto].
    + apply elem_of_cons in Hk as [<-|Hk]; [congruence|auto].
  - rewrite E. simpl. split.
    + intros k v Hv Hne. rewrite lookup_insert_ne; [done|]. intros <-. congruence.
    + intros k cur Hcur Hc Huniq. assert (k0 = k) as -> by eauto.
      rewrite Hcur0 in Hcur. injection Hcur as ->. exists new. split_and!; try done.
      destruct fb; [done|]. tauto.
Qed.

(** Resolving a command rolls back only the value that command still owns:
    an entry owned by no command or by another one is untouched (a Provider
    report that arrived first is never overwritten), and the one entry the
    command owns is restored to the fallback, or marked stale without one, in
    whatever order the map is searched. *)
Theorem resolve_optimistic_owner s ks c fb :
  range_of (values s) ks ->
  (forall k v, values s !! k = Some v -> sv_PendingCommandID v <> c ->
     values (ResolveOptimistic s ks c fb).1.1 !! k = Some v) /\
  (forall k cur, values s !! k = Some cur -> sv_PendingCommandID cur = c ->
     (forall k' v, values s !! k' = Some v -> sv_PendingCommandID v = c -> k' = k) ->
     exists new, ResolveOptimistic s ks c fb = (set_values s (<[k := new]> (values s)), new, true) /\
       sv_Version new = u64_succ (sv_Version cur) /\ sv_PendingCommandID new = "" /\
       match fb with
       | Some old => new = with_Pending (with_Version old (u64_succ (sv_Version cur))) ""
       | None => sv_Quality new = QualityStale /\ sv_Available new = false /\
                 sv_Value new = sv_Value cur
       end).
Proof. apply resolve_owned. Qed.

(** ** Expiry *)

Lemma mark_stale_at_spec now k v :
  match mark_stale_at now k v with
  | None => IsZero (sv_ExpiresAt v) = true \/ now < sv_ExpiresAt v \/ sv_Quality v = QualityStale
  | Some v' => sv_Quality v' = QualityStale /\ sv_Available v' = false
  end.
Proof.
  unfold mark_stale_at, Before. destruct v as [? ? ? ? ? ? e ? ? [] ? ? ? ? ?]; simpl;
    destruct (IsZero e) eqn:?, (now <? e) eqn:?; simpl; bool_prop; auto.
Qed.

(** Expiry is complete and exact: after [MarkStale now] no value past its
    expiry is left with a live quality, a value that had not expired is
    unchanged, the returned list is the changed values, and running it again at
    the same time changes nothing. *)
Theorem mark_stale_complete s ks now :
  range_of (values s) ks ->
  let s' := (MarkStale s ks now).1 in
  (forall k v, values s' !! k = Some v ->
     IsZero (sv_ExpiresAt v) = true \/ now < sv_ExpiresAt v \/ sv_Quality v = QualityStale) /\
  (forall k v, values s !! k = Some v ->
     IsZero (sv_ExpiresAt v) = true \/ now < sv_ExpiresAt v -> values s' !! k = Some v) /\
  (forall v', v' ∈ (MarkStale s ks now).2 <->
     exists k v, values s !! k = Some v /\ mark_stale_at now k v = Some v') /\
  MarkStale s' ks now = (s', []).
Proof.
  intros Hr s'. subst s'. unfold MarkStale.
  rewrite (surjective_pairing (range_update _ _ _)). simpl. split_and!.
  - intros k v'. rewrite range_update_all by done.
    destruct (values s !! k) as [v|]; simpl; [|done]. intros [= <-].
    pose proof (mark_stale_at_spec now k v) as E.
    destruct (mark_stale_at now k v); simpl; tauto.
  - intros k v Hv He. rewrite range_update_all, Hv by done. simpl.
    unfold mark_stale_at, Before. destruct He as [->|He]; [done|].
    apply Z.ltb_lt in He as ->. by rewrite orb_true_r.
  - intros v'. rewrite range_update_changed by apply Hr.
    rewrite list_elem_of_omap. split.
    + intros (k & Hk & E). destruct (values s !! k) as [v|] eqn:Hv; simpl in E; [eauto|done].
    + intros (k & v & Hv & E). exists k. rewrite Hv. split; [apply Hr; eauto|done].
  - rewrite range_update_none; [done|]. intros k v'. rewrite range_update_all by done.
    destruct (values s !! k) as [v|]; simpl; [|done]. intros [= <-].
    destruct (mark_stale_at now k v) eqn:E; simpl; [|done].
    by eapply mark_stale_at_idem.
Qed.

(** Marking a device unavailable takes every property of that device out of
    service with the given reason and leaves the other devices alone; a repeated
    offline event changes nothing, so it inflates no version. *)
Theorem mark_device_unavailable s ks d reason tr tr' :
  range_of (values s) ks ->
  let s' := (MarkDeviceUnavailable s ks d reason tr).1 in
  (forall k v, values s' !! k = Some v -> DeviceID k = d ->
     sv_Available v = false /\ sv_UnavailableReason v = reason /\
     sv_Quality v = (if sv_Known v then QualityStale else QualityUnknown)) /\
  (forall k, DeviceID k <> d -> values s' !! k = values s !! k) /\
  MarkDeviceUnavailable s' ks d reason tr' = (s', []).
Proof.
  intros Hr s'. subst s'. unfold MarkDeviceUnavailable.
  rewrite (surjective_pairing (range_update _ _ (values s))). simpl. split_and!.
  - intros k v'. rewrite range_update_all by done.
    destruct (values s !! k) as [v|]; simpl; [|done]. intros [= <-] Hd.
    unfold mark_device_at, mark_unavailable.
    rewrite bool_decide_eq_true_2 by done. simpl.
    destruct v as [? ? ? ? ? ? ? ? ? q kn av ur ? ?]; simpl.
    case_match eqn:E; simpl; [|done]. bool_prop. by subst.
  - intros k Hd. rewrite range_update_all by done.
    destruct (values s !! k) as [v|]; simpl; [|done].
    unfold mark_device_at. by rewrite bool_decide_eq_false_2.
  - rewrite range_update_none; [done|]. intros k v'. rewrite range_update_all by done.
    destruct (values s !! k) as [v|]; simpl; [|done]. intros [= <-].
    unfold mark_device_at. case_match; [done|].
    destruct (mark_unavailable reason _ v) eqn:E; simpl;
      [by eapply mark_unavailable_idem|].
    revert E. unfold mark_unavailable. by destruct (_ && _).
Qed.

(** ** Checkpoints *)

Definition key_le (a b : Key) : Prop := key_less b a = false.

Lemma key_le_lex a b :
  key_le a b <->
  lex_le (DeviceID a) (DeviceID b)
    (lex_le (EndpointID a) (EndpointID b)
      (lex_le (CapabilityID a) (CapabilityID b)
        (str_leb (PropertyID a) (PropertyID b) = true))).
Proof.
  unfold key_le, key_less. apply lex_le_if, lex_le_if, lex_le_if.
  by rewrite str_ltb_leb, negb_false_iff.
Qed.

#[local] Instance key_le_trans : Transitive key_le.
Proof.
  intros a b c. rewrite !key_le_lex. repeat apply lex_le_trans. apply str_leb_trans.
Qed.

#[local] Instance key_le_antisym : AntiSymm eq key_le.
Proof.
  intros [d e c p] [d' e' c' p']. rewrite !key_le_lex. simpl. intros H1 H2.
  destruct (lex_le_antisym _ _ _ _ H1 H2) as (-> & H3 & H4).
  destruct (lex_le_antisym _ _ _ _ H3 H4) as (-> & H5 & H6).
  destruct (lex_le_antisym _ _ _ _ H5 H6) as (-> & H7 & H8).
  by rewrite (str_leb_antisym p p').
Qed.

Lemma key_le_total a b : key_le a b \/ key_le b a.
Proof. rewrite !key_le_lex. repeat apply lex_le_total. apply str_leb_total. Qed.

#[local] Instance state_le_total : Total state_le.
Proof. intros a b. apply key_le_total. Qed.

Lemma sort_perm l : sortStateValues l ≡ₚ l.
Proof. apply merge_sort_Permutation. Qed.

Lemma sort_keys_sorted l : Sorted key_le (sv_Key <$> sortStateValues l).
Proof.
  apply (Sorted_fmap sv_Key state_le); [done|]. apply (Sorted_merge_sort state_le).
Qed.

(** A list whose elements are determined by their keys is determined by its keys. *)
Lemma keyed_list_eq m l l' :
  Forall (fun v => m !! sv_Key v = Some v) l ->
  Forall (fun v => m !! sv_Key v = Some v) l' ->
  sv_Key <$> l = sv_Key <$> l' -> l = l'.
Proof.
  revert l'. induction l as [|v l IH]; intros [|v' l']; simpl; try done.
  rewrite !Forall_cons. intros [Hv Hl] [Hv' Hl'] [= Hk E].
  f_equal; [congruence|auto].
Qed.

Lemma range_values_keyed s ks :
  wf_store s -> Forall (fun v => values s !! sv_Key v = Some v) (range_values (values s) ks).
Proof.
  intros Hs. apply Forall_forall. intros v. unfold range_values.
  rewrite list_elem_of_omap. intros (k & _ & Hv). by destruct (Hs k v Hv) as [-> _].
Qed.

(** A checkpoint is deterministic: it does not depend on the order in which
    the map is iterated. *)
Theorem checkpoint_deterministic s ks ks' :
  wf_store s -> range_of (values s) ks -> range_of (values s) ks' ->
  takeCheckpoint s ks = takeCheckpoint s ks'.
Proof.
  intros Hs Hr Hr'. unfold takeCheckpoint. f_equal.
  assert (Hp : range_values (values s) ks ≡ₚ range_values (values s) ks').
  { unfold range_values. apply omap_Permutation. by rewrite (range_of_perm (values s) ks), (range_of_perm (values s) ks'). }
  apply (keyed_list_eq (values s)); rewrite ?sort_perm; auto using range_values_keyed.
  apply (Sorted_unique key_le); auto using sort_keys_sorted.
  by rewrite !sort_perm, Hp.
Qed.

Lemma restore_value_key v v' : restore_value v = Some v' -> sv_Key v' = sv_Key v.
Proof. intros E. by destruct (restore_value_wf v v' E). Qed.

Lemma restore_values_lookup m0 l m k :
  (forall k v, m0 !! k = Some v -> sv_Key v = k) ->
  Forall (fun v => m0 !! sv_Key v = Some v) l -> NoDup (sv_Key <$> l) ->
  restore_values l m !! k =
    match m0 !! k with
    | Some v => if bool_decide (v ∈ l)
                then match restore_value v with Some v' => Some v' | None => m !! k end
                else m !! k
    | None => m !! k
    end.
Proof.
  intros Hm0. revert m. induction l as [|v l IH]; intros m Hl Hnd; simpl.
  { by destruct (m0 !! k). }
  apply Forall_cons in Hl as [Hv Hl]. apply NoDup_cons in Hnd as [Hnin Hnd].
  assert (Hv' : v ∉ l) by (intros Hin; apply Hnin, list_elem_of_fmap; eauto).
  destruct (decide (sv_Key v = k)) as [<-|Hne].
  - rewrite Hv, (bool_decide_eq_true_2 (v ∈ v :: l)) by set_solver.
    destruct (restore_value v) as [v'|] eqn:E; rewrite IH by done;
      rewrite Hv, bool_decide_eq_false_2 by done; [|done].
    by rewrite (restore_value_key v v' E), lookup_insert_eq.
  - assert (Hm : forall v', restore_value v = Some v' -> <[sv_Key v' := v']> m !! k = m !! k).
    { intros v' E. rewrite lookup_insert_ne; [done|]. by rewrite (restore_value_key v v' E). }
    destruct (restore_value v) as [v'|] eqn:E; rewrite IH by done;
      (destruct (m0 !! k) as [w|] eqn:Hw; [|by rewrite ?Hm]);
      (replace (bool_decide (w ∈ v :: l)) with (bool_decide (w ∈ l));
       [by rewrite ?Hm|apply bool_decide_ext; rewrite elem_of_cons; split; [auto|];
        intros [->|]; [by destruct Hne; apply Hm0|done]]).
Qed.

(** Saving a checkpoint and restoring it into any store keeps every property
    whose key is complete, and no other: the restored entry is the saved one
    made stale, so a restart never presents cached data as live. *)
Theorem checkpoint_roundtrip s s0 ks k :
  wf_store s -> range_of (values s) ks ->
  let r := RestoreCheckpoint s0 (takeCheckpoint s ks) in
  r.2 = true /\
  values r.1 !! k = values s !! k ≫= restore_value /\
  (forall v, values r.1 !! k = Some v ->
     sv_Quality v = QualityStale /\ sv_Available v = false /\
     sv_PendingCommandID v = "" /\ sv_ExpiresAt v = zero_time).
Proof.
  intros Hs Hr r. assert (E : values r.1 !! k = values s !! k ≫= restore_value).
  { subst r. unfold RestoreCheckpoint, takeCheckpoint. simpl.
    rewrite (restore_values_lookup (values s)).
    - rewrite lookup_empty. destruct (values s !! k) as [v|] eqn:Hv; simpl; [|done].
      rewrite bool_decide_eq_true_2; [by destruct (restore_value v)|].
      rewrite sort_perm. unfold range_values. rewrite list_elem_of_omap.
      exists k. split; [apply Hr; eauto|done].
    - intros k' v Hv. by apply Hs.
    - rewrite sort_perm. by apply range_values_keyed.
    - rewrite sort_perm. destruct Hr as [Hnd _]. clear -Hnd Hs. unfold range_values.
      induction ks as [|k ks IH]; simpl; [constructor|].
      apply NoDup_cons in Hnd as [Hk Hnd].
      destruct (values s !! k) as [v|] eqn:Hv; simpl; [|auto]. constructor; [|auto].
      rewrite list_elem_of_fmap. intros (w & Hkw & Hw).
      apply list_elem_of_omap in Hw as (k' & Hk' & Hw).
      destruct (Hs k v Hv) as [Hkv _], (Hs k' w Hw) as [Hkw' _]. congruence. }
  split_and!; [done|done|]. intros v. rewrite E.
  destruct (values s !! k) as [w|]; simpl; [|done]. apply restore_value_dead.
Qed.

End theorems.

(** ** Concrete instances *)

Section witnesses.

Definition ex_key : Key := MkKey "lamp" "main" "switch" "power".
Definition ex_report (provider : string) (seq : Z) (b : bool) : StateValue :=
  MkStateValue ex_key (BoolValue b) provider SourceReported (10 + seq) (11 + seq) 100
    seq 0 QualityReported false false "" "" "".
Definition ex_policy : StaticPriorityResolver :=
  MkStaticPriorityResolver {["mqtt" := 1; "xiaomi" := 5]} ∅.
Definition ex_store : Store StaticPriorityResolver :=
  (ApplyWithResult (NewStore [Some ex_policy]) (ex_report "xiaomi" 1 true)).1.1.
Definition ex_current : StateValue := default zero_state (values ex_store !! ex_key).
Definition ex_pending : Store StaticPriorityResolver :=
  (ApplyOptimistic ex_store
     (with_Pending (with_Quality (ex_report "xiaomi" 0 false) QualityOptimistic) "cmd-1")).1.

Definition ex_owned : StateValue := default zero_state (values ex_pending !! ex_key).

Lemma ex_reachable : reachable ex_store.
Proof. eapply reachable_step; [apply (reachable_new [Some ex_policy])|constructor]. Qed.

Lemma step_versions_witness :
  exists v', values (ApplyWithResult ex_store (ex_report "xiaomi" 2 false)).1.1 !! ex_key = Some v' /\
    (v' = ex_current \/ sv_Version v' = u64_succ (sv_Version ex_current)).
Proof.
  apply (step_versions ex_store _ (step_apply ex_store (ex_report "xiaomi" 2 false))
    ex_key ex_current). vm_compute. reflexivity.
Defined.

Lemma reachable_store_wf_witness : sv_Key ex_current = ex_key /\ wf_value ex_current.
Proof.
  apply (reachable_store_wf ex_store ex_key ex_current ex_reachable).
  vm_compute. reflexivity.
Defined.

Lemma apply_all_converges_witness :
  exists v v' w,
    w ∈ [ex_current; ex_report "xiaomi" 3 false; ex_report "xiaomi" 2 true] /\
    values (apply_all ex_store [ex_report "xiaomi" 3 false; ex_report "xiaomi" 2 true]) !! ex_key = Some v /\
    values (apply_all ex_store [ex_report "xiaomi" 2 true; ex_report "xiaomi" 3 false]) !! ex_key = Some v' /\
    payload v = payload w /\ payload v' = payload w /\
    Forall (fun x => sv_Sequence x <= sv_Sequence w)
      [ex_current; ex_report "xiaomi" 3 false; ex_report "xiaomi" 2 true].
Proof.
  apply (apply_all_converges ex_key "xiaomi" ex_store ex_current).
  - apply (reachable_wf ex_store ex_reachable).
  - vm_compute. reflexivity.
  - vm_compute. repeat split.
  - repeat constructor.
  - vm_compute. repeat constructor; set_solver.
  - constructor.
Defined.

Lemma apply_replay_witness :
  Applied (ApplyWithResult (ApplyWithResult ex_store (ex_report "mqtt" 7 true)).1.1
    (ex_report "xiaomi" 2 false)).2 = true /\
  Applied (ApplyWithResult (ApplyWithResult ex_store (ex_report "xiaomi" 2 false)).1.1
    (ex_report "xiaomi" 2 false)).2 = false.
Proof.
  split; [vm_compute; reflexivity|].
  apply (apply_replay ex_store (ex_report "xiaomi" 2 false)). vm_compute. reflexivity.
Defined.

Lemma apply_priority_witness :
  Applied (ApplyWithResult ex_store (ex_report "mqtt" 9 false)).2 =
    (static_priority ex_policy ex_key "xiaomi" <? static_priority ex_policy ex_key "mqtt").
Proof.
  apply (apply_priority ex_store ex_policy (ex_report "mqtt" 9 false) ex_current);
    vm_compute; congruence.
Defined.

Lemma resolve_optimistic_owner_witness :
  exists new, ResolveOptimistic ex_pending [ex_key] "cmd-1" None
      = (set_values ex_pending (<[ex_key := new]> (values ex_pending)), new, true) /\
    sv_Version new = u64_succ (sv_Version ex_owned) /\ sv_PendingCommandID new = "" /\
    sv_Quality new = QualityStale /\ sv_Available new = false /\
    sv_Value new = sv_Value ex_owned.
Proof.
  destruct (resolve_optimistic_owner ex_pending [ex_key] "cmd-1" None
    (range_of_some_range (values ex_pending))) as [_ Howner].
  apply (Howner ex_key ex_owned).
  - vm_compute. reflexivity.
  - reflexivity.
  - intros k v Hv _. unfold ex_pending in Hv. rewrite optimistic_values in Hv.
    destruct (decide (ex_key = k)) as [<-|Hne]; [done|].
    change (sv_Key _) with ex_key in Hv. rewrite lookup_insert_ne in Hv by done.
    change (values ex_store) with (<[ex_key := ex_current]> (∅ : gmap Key StateValue)) in Hv.
    rewrite lookup_insert_ne in Hv by done. by rewrite lookup_empty in Hv.
Defined.

Lemma mark_stale_complete_witness :
  let s' := (MarkStale ex_store [ex_key] 100).1 in
  MarkStale s' [ex_key] 100 = (s', []) /\
  (sv_Quality <$> values s' !! ex_key) = Some QualityStale.
Proof.
  split; [|vm_compute; reflexivity].
  apply (mark_stale_complete ex_store [ex_key] 100 (range_of_some_range (values ex_store))).
Defined.

Lemma mark_device_unavailable_witness :
  let s' := (MarkDeviceUnavailable ex_store [ex_key] "lamp" UnavailableRemoved ["t"]).1 in
  MarkDeviceUnavailable s' [ex_key] "lamp" UnavailableRemoved [] = (s', []) /\
  (sv_Available <$> values s' !! ex_key) = Some false.
Proof.
  split; [|vm_compute; reflexivity].
  apply (mark_device_unavailable ex_store [ex_key] "lamp" UnavailableRemoved ["t"] []
    (range_of_some_range (values ex_store))).
Defined.

Lemma checkpoint_deterministic_witness :
  takeCheckpoint ex_store [ex_key] = takeCheckpoint ex_store (some_range (values ex_store)).
Proof.
  apply (checkpoint_deterministic ex_store).
  - apply (reachable_wf ex_store ex_reachable).
  - exact (range_of_some_range (values ex_store)).
  - apply range_of_some_range.
Defined.

Lemma checkpoint_roundtrip_witness :
  let r := RestoreCheckpoint ex_pending (takeCheckpoint ex_store [ex_key]) in
  r.2 = true /\ values r.1 !! ex_key = values ex_store !! ex_key ≫= restore_value.
Proof.
  destruct (checkpoint_roundtrip ex_store ex_pending [ex_key] ex_key
    (reachable_wf ex_store ex_reachable) (range_of_some_range (values ex_store)))
    as (H1 & H2 & _).
  split; [exact H1|exact H2].
Defined.

End witnesses.
