(* ===== verification/EventBus.v ===== *)
(** * The event dispatcher: backend/internal/eventbus/dispatcher.go

    A dispatcher is a list of shards; a shard is a bounded queue with four
    priorities, coalescing of queued updates and deduplication of low-priority
    events.  The Go queues hold pointers to [queuedEvent] objects that a later
    [enqueue] may overwrite in place, so the model keeps the objects in a heap
    indexed by pointers, shared by the queues and the [coalesce] index.  Every
    method of a shard runs under its mutex and is one atomic step. *)

From S2P Require Import Prelude.

Inductive Priority :=
| PriorityLow
| PriorityNormal
| PriorityHigh
| PriorityCritical
| PriorityOther (s : string).

#[export] Instance Priority_eq_dec : EqDecision Priority.
Proof. solve_decision. Defined.

#[export] Instance Priority_countable : Countable Priority.
Proof.
  refine (inj_countable'
    (fun p => match p with
      | PriorityLow => (0%nat, "")
      | PriorityNormal => (1%nat, "")
      | PriorityHigh => (2%nat, "")
      | PriorityCritical => (3%nat, "")
      | PriorityOther s => (4%nat, s)
      end)
    (fun '(n, s) => match n with
      | 0%nat => PriorityLow
      | 1%nat => PriorityNormal
      | 2%nat => PriorityHigh
      | 3%nat => PriorityCritical
      | _ => PriorityOther s
      end) _).
  by intros [].
Defined.

Inductive BusError := ErrQueueFull | ErrDispatcherClosed | ErrLowPriorityDuplicate.

Record Config := MkConfig { ShardCount : Z; QueueSize : Z }.
Definition DefaultShardCount : Z := 8.
Definition DefaultQueueSize : Z := 128.

Definition normalized (c : Config) : Config :=
  MkConfig
    (if ShardCount c <? 1 then DefaultShardCount else ShardCount c)
    (if QueueSize c <? 1 then DefaultQueueSize else QueueSize c).

Definition normalizePriority (p : Priority) : Priority :=
  match p with
  | PriorityLow | PriorityHigh | PriorityCritical => p
  | PriorityNormal => PriorityNormal
  | PriorityOther _ => PriorityNormal
  end.

Definition rank (p : Priority) : Z :=
  match p with
  | PriorityCritical => 4
  | PriorityHigh => 3
  | PriorityNormal => 2
  | PriorityLow => 1
  | PriorityOther _ => 2
  end.

Definition priorityGreater (left right : Priority) : bool := rank right <? rank left.

Definition priorities : list Priority :=
  [PriorityCritical; PriorityHigh; PriorityNormal; PriorityLow].

Section Shard.
Context {Payload : Type}.

Record Event := MkEvent {
  e_DeviceID : string;
  e_TraceID : string;
  e_Payload : Payload;
  e_Priority : Priority;
  CoalesceKey : string;
  DeduplicationKey : string;
  enqueuedAt : Time;
}.

Definition with_Priority (e : Event) (p : Priority) : Event :=
  MkEvent (e_DeviceID e) (e_TraceID e) (e_Payload e) p (CoalesceKey e)
    (DeduplicationKey e) (enqueuedAt e).

Definition ptr := nat.

Record queuedEvent := MkQueued { event : Event; order : Z }.

Record dispatcherShard := MkShard {
  closed : bool;
  capacity : Z;
  pending : Z;
  queues : gmap Priority (list ptr);
  coalesce : gmap string ptr;
  dedupe : gset string;
  nextOrder : Z;
  heap : gmap ptr queuedEvent;
  nextPtr : ptr;
}.

Definition newDispatcherShard (capacity : Z) : dispatcherShard :=
  MkShard false capacity 0
    (list_to_map ((fun p => (p, [])) <$> priorities)) ∅ ∅ 0 ∅ 0%nat.

Definition queue (q : dispatcherShard) (p : Priority) : list ptr := queues q !!! p.

Definition set_queue (q : dispatcherShard) (p : Priority) (l : list ptr) : dispatcherShard :=
  MkShard (closed q) (capacity q) (pending q) (<[p := l]> (queues q)) (coalesce q)
    (dedupe q) (nextOrder q) (heap q) (nextPtr q).
Definition set_event (q : dispatcherShard) (p : ptr) (e : Event) : dispatcherShard :=
  MkShard (closed q) (capacity q) (pending q) (queues q) (coalesce q) (dedupe q)
    (nextOrder q) (alter (fun x => MkQueued e (order x)) p (heap q)) (nextPtr q).
Definition set_dedupe (q : dispatcherShard) (d : gset string) : dispatcherShard :=
  MkShard (closed q) (capacity q) (pending q) (queues q) (coalesce q) d
    (nextOrder q) (heap q) (nextPtr q).
Definition set_coalesce (q : dispatcherShard) (c : gmap string ptr) : dispatcherShard :=
  MkShard (closed q) (capacity q) (pending q) (queues q) c (dedupe q)
    (nextOrder q) (heap q) (nextPtr q).
Definition set_pending (q : dispatcherShard) (n : Z) : dispatcherShard :=
  MkShard (closed q) (capacity q) n (queues q) (coalesce q) (dedupe q)
    (nextOrder q) (heap q) (nextPtr q).

(** [&queuedEvent{event: e, order: o}] *)
Definition alloc (q : dispatcherShard) (e : Event) (o : Z) : dispatcherShard :=
  MkShard (closed q) (capacity q) (pending q) (queues q) (coalesce q) (dedupe q)
    o (<[nextPtr q := MkQueued e o]> (heap q)) (S (nextPtr q)).

Fixpoint remove_first (target : ptr) (items : list ptr) : list ptr :=
  match items with
  | [] => []
  | item :: items =>
      if bool_decide (item = target) then items else item :: remove_first target items
  end.

Definition removeLocked (q : dispatcherShard) (target : ptr) : dispatcherShard :=
  match heap q !! target with
  | None => q
  | Some x =>
      let p := e_Priority (event x) in
      set_queue q p (remove_first target (queue q p))
  end.

Definition is_low (p : Priority) : bool :=
  match p with PriorityLow => true | _ => false end.

(** The branch of [enqueue] that merges into the queued event [current]. *)
Definition merge_into (q : dispatcherShard) (current : ptr) (x : queuedEvent)
    (ev : Event) : dispatcherShard :=
  let previousPriority := e_Priority (event x) in
  let previousDedupeKey := DeduplicationKey (event x) in
  let '(q, now) :=
    if priorityGreater (e_Priority ev) previousPriority then
      let q := removeLocked q current in
      let q := set_event q current ev in
      (set_queue q (e_Priority ev) (queue q (e_Priority ev) ++ [current]), ev)
    else
      let ev := with_Priority ev previousPriority in
      (set_event q current ev, ev) in
  let q :=
    if is_low previousPriority && negb (is_empty previousDedupeKey)
    then set_dedupe q (dedupe q ∖ {[previousDedupeKey]}) else q in
  if is_low (e_Priority now) && negb (is_empty (DeduplicationKey now))
  then set_dedupe q ({[DeduplicationKey now]} ∪ dedupe q) else q.

(** The shard afterwards and [(accepted, merged, err)]. *)
Definition enqueue (q : dispatcherShard) (ev : Event)
    : dispatcherShard * (bool * bool * option BusError) :=
  let ev := with_Priority ev (normalizePriority (e_Priority ev)) in
  if closed q then (q, (false, false, Some ErrDispatcherClosed))
  else if is_low (e_Priority ev) && negb (is_empty (DeduplicationKey ev))
          && bool_decide (DeduplicationKey ev ∈ dedupe q)
  then (q, (false, false, Some ErrLowPriorityDuplicate))
  else
    let current :=
      if is_empty (CoalesceKey ev) then None else
      match coalesce q !! CoalesceKey ev with
      | None => None
      | Some p => match heap q !! p with Some x => Some (p, x) | None => None end
      end in
    match current with
    | Some (p, x) => (merge_into q p x ev, (true, true, None))
    | None =>
        if capacity q <=? pending q then (q, (false, false, Some ErrQueueFull))
        else
          let queued := nextPtr q in
          let q := alloc q ev (u64_succ (nextOrder q)) in
          let q := set_queue q (e_Priority ev) (queue q (e_Priority ev) ++ [queued]) in
          let q := set_pending q (pending q + 1) in
          let q := if is_empty (CoalesceKey ev) then q
                   else set_coalesce q (<[CoalesceKey ev := queued]> (coalesce q)) in
          let q := if is_low (e_Priority ev) && negb (is_empty (DeduplicationKey ev))
                   then set_dedupe q ({[DeduplicationKey ev]} ∪ dedupe q) else q in
          (q, (true, false, None))
    end.

Definition hasEarlierForDeviceLocked (q : dispatcherShard) (candidate : ptr) : bool :=
  match heap q !! candidate with
  | None => false
  | Some c =>
      existsb (fun p => existsb (fun other =>
        match heap q !! other with
        | None => false
        | Some o =>
            negb (bool_decide (other = candidate))
            && (e_DeviceID (event o) =s e_DeviceID (event c))
            && (order o <? order c)
        end) (queue q p)) priorities
  end.

Definition removeAtLocked (q : dispatcherShard) (p : Priority) (index : nat) : dispatcherShard :=
  set_queue q p (take index (queue q p) ++ drop (S index) (queue q p)).

(** The first position of [items], from [index] on, whose event has no earlier
    one for its device. *)
Fixpoint scan (q : dispatcherShard) (index : nat) (items : list ptr) : option (nat * ptr) :=
  match items with
  | [] => None
  | queued :: items =>
      if hasEarlierForDeviceLocked q queued then scan q (S index) items
      else Some (index, queued)
  end.

Fixpoint pick (q : dispatcherShard) (ps : list Priority) : option (Priority * nat * ptr) :=
  match ps with
  | [] => None
  | p :: ps =>
      match scan q 0%nat (queue q p) with
      | Some (index, queued) => Some (p, index, queued)
      | None => pick q ps
      end
  end.

Inductive NextResult :=
| NextBlocked
| NextStopped
| NextDelivered (e : Event)
| NextPanic.

Definition next (q : dispatcherShard) : dispatcherShard * NextResult :=
  if (pending q =? 0) && negb (closed q) then (q, NextBlocked)
  else if pending q =? 0 then (q, NextStopped)
  else
    match pick q priorities with
    | None => (q, NextPanic)
    | Some (p, index, queued) =>
        match heap q !! queued with
        | None => (q, NextPanic)
        | Some x =>
            let q := removeAtLocked q p index in
            let q := set_pending q (pending q - 1) in
            let q :=
              if negb (is_empty (CoalesceKey (event x)))
                 && bool_decide (coalesce q !! CoalesceKey (event x) = Some queued)
              then set_coalesce q (delete (CoalesceKey (event x)) (coalesce q)) else q in
            let q :=
              if is_low (e_Priority (event x)) && negb (is_empty (DeduplicationKey (event x)))
              then set_dedupe q (dedupe q ∖ {[DeduplicationKey (event x)]}) else q in
            (q, NextDelivered (event x))
        end
    end.

Definition close (q : dispatcherShard) : dispatcherShard :=
  MkShard true (capacity q) (pending q) (queues q) (coalesce q) (dedupe q)
    (nextOrder q) (heap q) (nextPtr q).

Definition pendingCount (q : dispatcherShard) : Z := pending q.

(** ** The dispatcher *)

Record Dispatcher := MkDispatcher {
  shards : list dispatcherShard;
  d_closed : bool;
  handled : Z;
  totalLatencyNanos : Z;
  maxLatencyNanos : Z;
  slowHandlers : Z;
  merged : Z;
  duplicatesDropped : Z;
}.

Definition NewDispatcherWithConfig (c : Config) : Dispatcher :=
  let c := normalized c in
  MkDispatcher (replicate (Z.to_nat (ShardCount c)) (newDispatcherShard (QueueSize c)))
    false 0 0 0 0 0 0.

Definition NewDispatcher (shardCount queueSize : Z) : Dispatcher :=
  NewDispatcherWithConfig
    (MkConfig (if shardCount <? 1 then 1 else shardCount)
       (if queueSize <? 1 then 1 else queueSize)).

(** FNV-1a, 32 bits ([hash/fnv]). *)
Fixpoint fnv32a (hash : Z) (s : string) : Z :=
  match s with
  | EmptyString => hash
  | String c s =>
      fnv32a (Z.lxor hash (Z.of_N (N_of_ascii c)) * 16777619 mod 2 ^ 32) s
  end.

Definition shard (id : string) (count : Z) : Z :=
  fnv32a 2166136261 id mod (count mod 2 ^ 32).

(** [%x] of a number. *)
Definition hex_digit (n : Z) : string :=
  String (ascii_of_N (Z.to_N (if n <? 10 then 48 + n else 87 + n))) "".

Fixpoint hex_loop (fuel : nat) (n : Z) (acc : string) : string :=
  match fuel with
  | O => acc
  | S fuel =>
      let acc := hex_digit (n mod 16) +:+ acc in
      if n <? 16 then acc else hex_loop fuel (n / 16) acc
  end.

(** Sixteen digits are enough for 64 bits. *)
Definition show_hex (n : Z) : string :=
  if n <? 0 then "-" +:+ hex_loop 16 (- n) "" else hex_loop 16 n "".

Definition stamp (e : Event) (traceID : string) (now : Time) : Event :=
  MkEvent (e_DeviceID e) traceID (e_Payload e) (e_Priority e) (CoalesceKey e)
    (DeduplicationKey e) now.

(** [seq] is the process-wide [traceSequence], [nanos] and [now] the two
    readings of the clock. *)
Definition Publish (d : Dispatcher) (seq : Z) (nanos : Z) (now : Time) (ev : Event)
    : Dispatcher * Z * option BusError :=
  if d_closed d then (d, seq, Some ErrDispatcherClosed)
  else
    let '(seq, traceID) :=
      if is_empty (e_TraceID ev) then
        let seq := u64_succ seq in
        (seq, "event-" +:+ show_hex nanos +:+ "-" +:+ show_hex seq)
      else (seq, e_TraceID ev) in
    let ev := stamp ev traceID now in
    let i := Z.to_nat (shard (e_DeviceID ev) (Z.of_nat (length (shards d)))) in
    match shards d !! i with
    | None => (d, seq, None)
    | Some q =>
        let '(q, (_, was_merged, err)) := enqueue q ev in
        (MkDispatcher (<[i := q]> (shards d)) (d_closed d) (handled d) (totalLatencyNanos d)
           (maxLatencyNanos d) (slowHandlers d)
           (if was_merged : bool then u64_succ (merged d) else merged d)
           (match err with
            | Some ErrLowPriorityDuplicate => u64_succ (duplicatesDropped d)
            | _ => duplicatesDropped d
            end), seq, err)
    end.

Record Stats := MkStats {
  Handled : Z;
  AverageLatency : Duration;
  MaxLatency : Duration;
  SlowHandlers : Z;
  Merged : Z;
  LowPriorityDuplicatesDropped : Z;
}.

Definition getStats (d : Dispatcher) : Stats :=
  MkStats (handled d)
    (if 0 <? handled d then i64_wrap (totalLatencyNanos d / handled d) else 0)
    (i64_wrap (maxLatencyNanos d)) (slowHandlers d) (merged d) (duplicatesDropped d).

Definition Pending (d : Dispatcher) : Z :=
  fold_right (fun q total => pendingCount q + total) 0 (shards d).

Definition Capacity (d : Dispatcher) : Z :=
  fold_right (fun q total => capacity q + total) 0 (shards d).

(** [Close] up to the wait for the workers. *)
Definition CloseDispatcher (d : Dispatcher) : Dispatcher :=
  if d_closed d then d
  else MkDispatcher (close <$> shards d) true (handled d) (totalLatencyNanos d)
         (maxLatencyNanos d) (slowHandlers d) (merged d) (duplicatesDropped d).

(** One iteration of the worker of shard [i]: the event handed to the handler,
    which ran from [started] to [finished], and the counters.  The loop around
    the compare-and-swap ends with the larger of the two latencies. *)
Definition run_iteration (d : Dispatcher) (i : nat) (started finished : Time)
    : Dispatcher * option NextResult :=
  match shards d !! i with
  | None => (d, None)
  | Some q =>
      let '(q', r) := next q in
      match r with
      | NextDelivered e =>
          let latency := u64_of_i64 (finished - enqueuedAt e) in
          let handlerDuration := finished - started in
          (MkDispatcher (<[i := q']> (shards d)) (d_closed d) (u64_succ (handled d))
             (u64_add (totalLatencyNanos d) latency)
             (if latency <=? maxLatencyNanos d then maxLatencyNanos d else latency)
             (if 100000000 <=? handlerDuration then u64_succ (slowHandlers d) else slowHandlers d)
             (merged d) (duplicatesDropped d), Some r)
      | _ => (MkDispatcher (<[i := q']> (shards d)) (d_closed d) (handled d)
                (totalLatencyNanos d) (maxLatencyNanos d) (slowHandlers d) (merged d)
                (duplicatesDropped d), Some r)
      end
  end.

(** ** What a shard promises

    An abstract shard is the set of waiting events by arrival number. *)
Record spec := MkSpec {
  sp_entries : gmap Z Event;
  sp_next : Z;
  sp_capacity : Z;
  sp_closed : bool;
}.

Definition higher (a b : Priority) : Priority := if priorityGreater a b then a else b.

(** The waiting entry an event merges into. *)
Definition merges_with (a : spec) (k : string) (o : Z) (e : Event) : Prop :=
  k <> "" /\ sp_entries a !! o = Some e /\ CoalesceKey e = k.

Definition duplicate (a : spec) (e : Event) : Prop :=
  e_Priority e = PriorityLow /\ DeduplicationKey e <> "" /\
  exists o e', sp_entries a !! o = Some e' /\ e_Priority e' = PriorityLow /\
    DeduplicationKey e' = DeduplicationKey e.

Inductive spec_enqueue (a : spec) (ev : Event) : spec -> bool * bool * option BusError -> Prop :=
| spec_closed : sp_closed a = true ->
    spec_enqueue a ev a (false, false, Some ErrDispatcherClosed)
| spec_duplicate : sp_closed a = false -> duplicate a ev ->
    spec_enqueue a ev a (false, false, Some ErrLowPriorityDuplicate)
| spec_merge o e : sp_closed a = false -> ~ duplicate a ev ->
    merges_with a (CoalesceKey ev) o e ->
    spec_enqueue a ev
      (MkSpec (<[o := with_Priority ev (higher (e_Priority ev) (e_Priority e))]> (sp_entries a))
         (sp_next a) (sp_capacity a) (sp_closed a))
      (true, true, None)
| spec_full : sp_closed a = false -> ~ duplicate a ev ->
    (forall o e, ~ merges_with a (CoalesceKey ev) o e) ->
    sp_capacity a <= Z.of_nat (size (sp_entries a)) ->
    spec_enqueue a ev a (false, false, Some ErrQueueFull)
| spec_append : sp_closed a = false -> ~ duplicate a ev ->
    (forall o e, ~ merges_with a (CoalesceKey ev) o e) ->
    Z.of_nat (size (sp_entries a)) < sp_capacity a ->
    spec_enqueue a ev
      (MkSpec (<[sp_next a + 1 := ev]> (sp_entries a)) (sp_next a + 1)
         (sp_capacity a) (sp_closed a))
      (true, false, None).

(** An entry may be delivered when no earlier one waits for its device. *)
Definition eligible (a : spec) (o : Z) (e : Event) : Prop :=
  sp_entries a !! o = Some e /\
  forall o' e', sp_entries a !! o' = Some e' -> e_DeviceID e' = e_DeviceID e -> o <= o'.

Inductive spec_next (a : spec) : spec -> NextResult -> Prop :=
| spec_blocked : sp_entries a = ∅ -> sp_closed a = false -> spec_next a a NextBlocked
| spec_stopped : sp_entries a = ∅ -> sp_closed a = true -> spec_next a a NextStopped
| spec_deliver o e : eligible a o e ->
    (forall o' e', eligible a o' e' -> rank (e_Priority e') <= rank (e_Priority e)) ->
    spec_next a
      (MkSpec (delete o (sp_entries a)) (sp_next a) (sp_capacity a) (sp_closed a))
      (NextDelivered e).

End Shard.

Arguments Event : clear implicits.
Arguments queuedEvent : clear implicits.
Arguments dispatcherShard : clear implicits.
Arguments NextResult : clear implicits.
Arguments Dispatcher : clear implicits.
Arguments spec : clear implicits.

Section theorems.
Context {Payload : Type}.
Implicit Types (q : dispatcherShard Payload) (a : spec Payload) (e ev : Event Payload)
  (x : queuedEvent Payload).

(** Every queued pointer. *)
Definition ptrs q : list ptr :=
  queue q PriorityCritical ++ queue q PriorityHigh ++
  queue q PriorityNormal ++ queue q PriorityLow.

(** ** The invariant of a shard *)
Record wf q : Prop := {
  wf_nodup : NoDup (ptrs q);
  wf_queue pr p : p ∈ queue q pr ->
    normalizePriority pr = pr /\
    exists x, heap q !! p = Some x /\ e_Priority (event x) = pr;
  wf_live p x : p ∈ ptrs q -> heap q !! p = Some x ->
    0 < order x <= nextOrder q /\ (p < nextPtr q)%nat;
  wf_order p p' x x' : p ∈ ptrs q -> p' ∈ ptrs q ->
    heap q !! p = Some x -> heap q !! p' = Some x' -> order x = order x' -> p = p';
  wf_pending : pending q = Z.of_nat (length (ptrs q));
  wf_coalesce k p : coalesce q !! k = Some p <->
    k <> "" /\ p ∈ ptrs q /\ exists x, heap q !! p = Some x /\ CoalesceKey (event x) = k;
  wf_dedupe k : k ∈ dedupe q <->
    k <> "" /\ exists p x, p ∈ ptrs q /\ heap q !! p = Some x /\
      e_Priority (event x) = PriorityLow /\ DeduplicationKey (event x) = k;
  wf_dedupe_inj p p' x x' : p ∈ ptrs q -> p' ∈ ptrs q ->
    heap q !! p = Some x -> heap q !! p' = Some x' ->
    e_Priority (event x) = PriorityLow -> e_Priority (event x') = PriorityLow ->
    DeduplicationKey (event x) = DeduplicationKey (event x') ->
    DeduplicationKey (event x) <> "" -> p = p';
  wf_capacity : pending q <= capacity q;
  wf_next : 0 <= nextOrder q;
}.

(** [a] is what the shard [q] stands for. *)
Record rep q a : Prop := {
  rep_entries o e : sp_entries a !! o = Some e <->
    exists p, p ∈ ptrs q /\ heap q !! p = Some (MkQueued e o);
  rep_size : size (sp_entries a) = length (ptrs q);
  rep_next : sp_next a = nextOrder q;
  rep_capacity : sp_capacity a = capacity q;
  rep_closed : sp_closed a = closed q;
}.

(** ** Queues and pointers *)

Lemma queue_set_queue q p l p' :
  queue (set_queue q p l) p' = if decide (p = p') then l else queue q p'.
Proof.
  unfold queue. simpl. case_decide as E.
  - subst. by rewrite lookup_total_insert_eq.
  - by rewrite lookup_total_insert_ne.
Qed.

Lemma elem_of_ptrs q p : p ∈ ptrs q <-> exists pr, pr ∈ priorities /\ p ∈ queue q pr.
Proof.
  unfold ptrs, priorities. rewrite !elem_of_app. split.
  - intros [?|[?|[?|?]]]; eexists; (split; [|eassumption]); set_solver.
  - intros (pr & Hpr & Hp). rewrite !elem_of_cons, elem_of_nil in Hpr.
    destruct Hpr as [->|[->|[->|[->|[]]]]]; auto.
Qed.

Lemma normal_in pr : normalizePriority pr = pr <-> pr ∈ priorities.
Proof.
  unfold priorities. rewrite !elem_of_cons, elem_of_nil.
  destruct pr; simpl; split; try done; try tauto.
  intros [?|[?|[?|[?|[]]]]]; done.
Qed.

Lemma wf_ptrs q p : wf q -> p ∈ ptrs q ->
  exists x, heap q !! p = Some x /\ p ∈ queue q (e_Priority (event x)).
Proof.
  intros Hq Hp. apply elem_of_ptrs in Hp as (pr & Hpr & Hp).
  destruct (wf_queue q Hq pr p Hp) as (_ & x & Hx & <-). eauto.
Qed.

Lemma queue_ptrs q pr p : wf q -> p ∈ queue q pr -> p ∈ ptrs q.
Proof.
  intros Hq Hp. apply elem_of_ptrs. exists pr. split; [|done].
  apply normal_in. by apply (wf_queue q Hq pr p).
Qed.

Lemma ptrs_split q pr l :
  normalizePriority pr = pr ->
  exists l1 l2, ptrs q = l1 ++ queue q pr ++ l2 /\ ptrs (set_queue q pr l) = l1 ++ l ++ l2.
Proof.
  intros Hpr. unfold ptrs. rewrite !queue_set_queue.
  destruct pr; simpl in Hpr; try done; repeat case_decide; try done.
  - exists (queue q PriorityCritical ++ queue q PriorityHigh ++ queue q PriorityNormal), [].
    by rewrite <- !app_assoc, !app_nil_r.
  - exists (queue q PriorityCritical ++ queue q PriorityHigh), (queue q PriorityLow).
    by rewrite <- !app_assoc.
  - by exists (queue q PriorityCritical), (queue q PriorityNormal ++ queue q PriorityLow).
  - by exists [], (queue q PriorityHigh ++ queue q PriorityNormal ++ queue q PriorityLow).
Qed.

Lemma ptrs_append q pr p :
  normalizePriority pr = pr ->
  ptrs (set_queue q pr (queue q pr ++ [p])) ≡ₚ p :: ptrs q.
Proof.
  intros Hpr. destruct (ptrs_split q pr (queue q pr ++ [p]) Hpr) as (l1 & l2 & -> & ->).
  rewrite <- (app_assoc _ [p]). cbn [app]. by rewrite !app_assoc, <- Permutation_middle.
Qed.

Lemma remove_first_perm p l : p ∈ l -> p :: remove_first p l ≡ₚ l.
Proof.
  induction l as [|y l IH]; simpl; [set_solver|]. intros Hp.
  case_bool_decide as E; [by subst|].
  apply elem_of_cons in Hp as [->|Hp]; [done|]. by rewrite <- (IH Hp) at 2; constructor.
Qed.

Lemma take_drop_perm (l : list ptr) i p :
  l !! i = Some p -> p :: take i l ++ drop (S i) l ≡ₚ l.
Proof. intros Hi. rewrite <- (take_drop_middle l i p Hi) at 3. by rewrite Permutation_middle. Qed.

Lemma ptrs_remove q pr p l :
  normalizePriority pr = pr -> p :: l ≡ₚ queue q pr ->
  p :: ptrs (set_queue q pr l) ≡ₚ ptrs q.
Proof.
  intros Hpr Hl. destruct (ptrs_split q pr l Hpr) as (l1 & l2 & -> & ->).
  rewrite <- Hl. cbn [app]. by rewrite Permutation_middle.
Qed.

Lemma is_low_true p : is_low p = true <-> p = PriorityLow.
Proof. by destruct p. Qed.

Lemma low_key_true p (k : string) :
  is_low p && negb (is_empty k) = true <-> p = PriorityLow /\ k <> "".
Proof. by rewrite andb_true_iff, negb_true_iff, is_low_true, is_empty_false. Qed.

Lemma ptrs_of_queues q q' : queues q' = queues q -> ptrs q' = ptrs q.
Proof. unfold ptrs, queue. by intros ->. Qed.

(** ** Merging *)

(** The dedupe index after a low-priority event [old] became [new]. *)
Definition redupe (d : gset string) (old new : Event Payload) : gset string :=
  let d := if is_low (e_Priority old) && negb (is_empty (DeduplicationKey old))
           then d ∖ {[DeduplicationKey old]} else d in
  if is_low (e_Priority new) && negb (is_empty (DeduplicationKey new))
  then {[DeduplicationKey new]} ∪ d else d.

Lemma elem_of_redupe d old new k :
  k ∈ redupe d old new <->
  (e_Priority new = PriorityLow /\ k <> "" /\ k = DeduplicationKey new) \/
  (k ∈ d /\ ~ (e_Priority old = PriorityLow /\ DeduplicationKey old <> "" /\ k = DeduplicationKey old)).
Proof.
  unfold redupe.
  pose proof (low_key_true (e_Priority old) (DeduplicationKey old)) as Ho.
  pose proof (low_key_true (e_Priority new) (DeduplicationKey new)) as Hn.
  destruct (is_low (e_Priority old) && _), (is_low (e_Priority new) && _);
    rewrite ?elem_of_union, ?elem_of_difference, ?elem_of_singleton;
    intuition (subst; auto; congruence).
Qed.

(** [q'] is [q] with the event of the queued object [p] replaced by [now]. *)
Record merge_of q p x (now : Event Payload) q' : Prop := {
  mg_ptrs : ptrs q' ≡ₚ ptrs q;
  mg_heap : heap q' = <[p := MkQueued now (order x)]> (heap q);
  mg_queue pr p' : p' ∈ queue q' pr -> p' <> p /\ p' ∈ queue q pr \/ p' = p /\ pr = e_Priority now;
  mg_coalesce : coalesce q' = coalesce q;
  mg_dedupe : dedupe q' = redupe (dedupe q) (event x) now;
  mg_rest : pending q' = pending q /\ capacity q' = capacity q /\ closed q' = closed q /\
    nextOrder q' = nextOrder q /\ nextPtr q' = nextPtr q;
}.

Lemma merged_heap q p x now q' p' x' :
  merge_of q p x now q' -> heap q' !! p' = Some x' ->
  p' = p /\ x' = MkQueued now (order x) \/ p' <> p /\ heap q !! p' = Some x'.
Proof.
  intros M. rewrite (mg_heap _ _ _ _ _ M). destruct (decide (p = p')) as [<-|Hne].
  - rewrite lookup_insert_eq. intros [= <-]. auto.
  - rewrite lookup_insert_ne by done. auto.
Qed.

Lemma merged_wf q p x now q' :
  wf q -> p ∈ ptrs q -> heap q !! p = Some x -> merge_of q p x now q' ->
  CoalesceKey now = CoalesceKey (event x) ->
  normalizePriority (e_Priority now) = e_Priority now ->
  (e_Priority now = PriorityLow -> DeduplicationKey now <> "" -> DeduplicationKey now ∉ dedupe q) ->
  wf q'.
Proof.
  intros Hq Hp Hx M Hck Hn Hdup.
  destruct (mg_rest _ _ _ _ _ M) as (Epend & Ecap & Ecl & Eno & Enp).
  assert (Hin : forall p', p' ∈ ptrs q' <-> p' ∈ ptrs q) by (intros; by rewrite (mg_ptrs _ _ _ _ _ M)).
  assert (Hself : heap q' !! p = Some (MkQueued now (order x)))
    by (rewrite (mg_heap _ _ _ _ _ M); apply lookup_insert_eq).
  assert (Hoth : forall p', p' <> p -> heap q' !! p' = heap q !! p')
    by (intros; rewrite (mg_heap _ _ _ _ _ M), lookup_insert_ne; done).
  constructor.
  - rewrite (mg_ptrs _ _ _ _ _ M). apply Hq.
  - intros pr p' Hp'. destruct (mg_queue _ _ _ _ _ M pr p' Hp') as [[Hne Hold]|[-> ->]].
    + rewrite (Hoth p' Hne). by apply (wf_queue q Hq).
    + eauto.
  - intros p' x' Hp' Hx'. rewrite Eno, Enp. apply Hin in Hp'.
    destruct (merged_heap _ _ _ _ _ _ _ M Hx') as [[-> ->]|[Hne Hx0]];
      [apply (wf_live q Hq p x Hp Hx)|by apply (wf_live q Hq p' x')].
  - intros p1 p2 x1 x2 H1 H2 Hx1 Hx2. apply Hin in H1, H2.
    destruct (merged_heap _ _ _ _ _ _ _ M Hx1) as [[-> ->]|[Hne1 Hx1']],
      (merged_heap _ _ _ _ _ _ _ M Hx2) as [[-> ->]|[Hne2 Hx2']]; simpl; intros E;
      [done|by apply (wf_order q Hq p p2 x x2)|by apply (wf_order q Hq p1 p x1 x)|
       by apply (wf_order q Hq p1 p2 x1 x2)].
  - rewrite Epend, (mg_ptrs _ _ _ _ _ M). apply Hq.
  - intros k p'. rewrite (mg_coalesce _ _ _ _ _ M), (wf_coalesce q Hq), Hin.
    destruct (decide (p' = p)) as [->|Hne]; [|by rewrite Hoth].
    rewrite Hx, Hself. split; intros (Hk & _ & y & [= <-] & Hy); simpl in *;
      (split; [done|]); (split; [done|]); eexists; (split; [reflexivity|]); simpl; congruence.
  - intros k. rewrite (mg_dedupe _ _ _ _ _ M), elem_of_redupe, (wf_dedupe q Hq). split.
    + intros [(Hl & Hk & ->)|[(Hk & p' & x' & Hp' & Hx' & Hl & <-) Hold]].
      * split; [done|]. exists p. eexists. rewrite Hin, Hself. done.
      * split; [done|]. exists p', x'. rewrite Hin.
        destruct (decide (p' = p)) as [->|Hne]; [|by rewrite Hoth].
        rewrite Hx in Hx'. naive_solver.
    + intros (Hk & p' & x' & Hp' & Hx' & Hl & Hkey). apply Hin in Hp'.
      destruct (merged_heap _ _ _ _ _ _ _ M Hx') as [[-> ->]|[Hne Hx0]]; [simpl in *; auto|].
      right. split; [naive_solver|]. intros (Hl' & Hk' & ->). apply Hne.
      apply (wf_dedupe_inj q Hq p' p x' x); congruence.
  - intros p1 p2 x1 x2 H1 H2 Hx1 Hx2 Hl1 Hl2 Hkk Hne. apply Hin in H1, H2.
    assert (Habs : forall p3 x3, p3 ∈ ptrs q -> heap q !! p3 = Some x3 ->
      e_Priority (event x3) = PriorityLow -> e_Priority now = PriorityLow ->
      DeduplicationKey now = DeduplicationKey (event x3) -> DeduplicationKey now <> "" -> False).
    { intros p3 x3 Hp3 Hx3 Hl3 Hl E3 Hn3. apply (Hdup Hl Hn3), (wf_dedupe q Hq). naive_solver. }
    destruct (merged_heap _ _ _ _ _ _ _ M Hx1) as [[-> ->]|[Hne1 Hx1']],
      (merged_heap _ _ _ _ _ _ _ M Hx2) as [[-> ->]|[Hne2 Hx2']]; simpl in *.
    + done.
    + by destruct (Habs p2 x2).
    + destruct (Habs p1 x1); congruence.
    + by apply (wf_dedupe_inj q Hq p1 p2 x1 x2).
  - rewrite Epend, Ecap. apply Hq.
  - rewrite Eno. apply Hq.
Qed.

(** The representation relation follows a merge. *)
Lemma merged_rep q p x now q' a :
  wf q -> rep q a -> p ∈ ptrs q -> heap q !! p = Some x -> merge_of q p x now q' ->
  rep q' (MkSpec (<[order x := now]> (sp_entries a)) (sp_next a) (sp_capacity a) (sp_closed a)).
Proof.
  intros Hq Ha Hp Hx M.
  destruct (mg_rest _ _ _ _ _ M) as (_ & Ecap & Ecl & Eno & _).
  assert (Hin : forall p', p' ∈ ptrs q' <-> p' ∈ ptrs q) by (intros; by rewrite (mg_ptrs _ _ _ _ _ M)).
  assert (Hold : sp_entries a !! order x = Some (event x))
    by (apply Ha; exists p; split; [done|by destruct x]).
  constructor; simpl.
  - intros o e. destruct (decide (order x = o)) as [<-|Hne].
    + rewrite lookup_insert_eq. split.
      * intros [= <-]. exists p. rewrite Hin, (mg_heap _ _ _ _ _ M), lookup_insert_eq. done.
      * intros (p' & Hp' & Hx'). apply Hin in Hp'.
        destruct (merged_heap _ _ _ _ _ _ _ M Hx') as [[-> [= ->]]|[Hne Hx0]]; [done|].
        by destruct Hne; apply (wf_order q Hq p' p (MkQueued e (order x)) x).
    + rewrite lookup_insert_ne by done. rewrite (rep_entries q a Ha).
      split; intros (p' & Hp' & Hx'); exists p'; rewrite Hin in *; (split; [done|]).
      * rewrite (mg_heap _ _ _ _ _ M), lookup_insert_ne; [done|]. intros <-.
        rewrite Hx in Hx'. by injection Hx' as ->.
      * destruct (merged_heap _ _ _ _ _ _ _ M Hx') as [[-> [= -> ->]]|[_ Hx0]]; done.
  - rewrite map_size_insert_Some by (rewrite Hold; eauto).
    rewrite (rep_size q a Ha). by rewrite (mg_ptrs _ _ _ _ _ M).
  - rewrite Eno. apply Ha.
  - rewrite Ecap. apply Ha.
  - rewrite Ecl. apply Ha.
Qed.

Lemma set_dedupe_redupe q old new :
  (let q := if is_low (e_Priority old) && negb (is_empty (DeduplicationKey old))
            then set_dedupe q (dedupe q ∖ {[DeduplicationKey old]}) else q in
   if is_low (e_Priority new) && negb (is_empty (DeduplicationKey new))
   then set_dedupe q ({[DeduplicationKey new]} ∪ dedupe q) else q) =
  set_dedupe q (redupe (dedupe q) old new).
Proof. unfold redupe. destruct q. by repeat case_match. Qed.

Lemma merge_into_eq q p x ev :
  merge_into q p x ev =
    if priorityGreater (e_Priority ev) (e_Priority (event x)) then
      let q2 := set_event (removeLocked q p) p ev in
      let q3 := set_queue q2 (e_Priority ev) (queue q2 (e_Priority ev) ++ [p]) in
      set_dedupe q3 (redupe (dedupe q3) (event x) ev)
    else
      let now := with_Priority ev (e_Priority (event x)) in
      let q2 := set_event q p now in
      set_dedupe q2 (redupe (dedupe q2) (event x) now).
Proof.
  unfold merge_into. destruct (priorityGreater _ _); apply set_dedupe_redupe.
Qed.

Lemma with_Priority_id e : with_Priority e (e_Priority e) = e.
Proof. by destruct e. Qed.

Lemma heap_set_event q p e x :
  heap q !! p = Some x -> heap (set_event q p e) = <[p := MkQueued e (order x)]> (heap q).
Proof.
  intros Hx. simpl. apply map_eq. intros p'. destruct (decide (p = p')) as [<-|Hne].
  - by rewrite lookup_alter_eq, lookup_insert_eq, Hx.
  - by rewrite lookup_alter_ne, lookup_insert_ne.
Qed.

Lemma remove_first_elem p l p' : NoDup l -> p' ∈ remove_first p l -> p' <> p /\ p' ∈ l.
Proof.
  induction 1 as [|y l Hy Hnd IH]; simpl; [set_solver|].
  case_bool_decide as E; [subst; set_solver|]. set_solver.
Qed.

Lemma wf_queue_nodup q pr : wf q -> normalizePriority pr = pr -> NoDup (queue q pr).
Proof.
  intros Hq Hpr. destruct (ptrs_split q pr [] Hpr) as (l1 & l2 & E & _).
  pose proof (wf_nodup q Hq) as Hnd. rewrite E, !NoDup_app in Hnd. tauto.
Qed.

Lemma merge_into_merged q p x ev :
  wf q -> p ∈ ptrs q -> heap q !! p = Some x ->
  normalizePriority (e_Priority ev) = e_Priority ev ->
  merge_of q p x (with_Priority ev (higher (e_Priority ev) (e_Priority (event x))))
    (merge_into q p x ev).
Proof.
  intros Hq Hp Hx Hn. set (pp := e_Priority (event x)).
  destruct (wf_ptrs q p Hq Hp) as (x0 & Hx0 & Hpq). assert (x0 = x) as -> by congruence.
  destruct (wf_queue q Hq _ _ Hpq) as [Hnp _].
  rewrite merge_into_eq. unfold higher. fold pp. destruct (priorityGreater (e_Priority ev) pp).
  - rewrite with_Priority_id. unfold removeLocked. rewrite Hx. fold pp.
    set (q1 := set_queue q pp (remove_first p (queue q pp))).
    set (q2 := set_event q1 p ev).
    assert (E2 : ptrs q2 = ptrs q1) by by apply ptrs_of_queues.
    assert (Hrem : p :: ptrs q1 ≡ₚ ptrs q).
    { apply ptrs_remove; [done|]. by apply remove_first_perm. }
    constructor; try done.
    + change (ptrs (set_queue q2 (e_Priority ev) (queue q2 (e_Priority ev) ++ [p])) ≡ₚ ptrs q).
      by rewrite ptrs_append, E2.
    + by apply (heap_set_event q1).
    + intros pr p' Hp'.
      change (p' ∈ queue (set_queue q2 (e_Priority ev) (queue q2 (e_Priority ev) ++ [p])) pr) in Hp'.
      assert (Hq2 : p' ∈ queue q2 pr -> p' <> p /\ p' ∈ queue q pr).
      { clear Hp'. change (queue q2 pr) with (queue q1 pr). subst q1.
        rewrite queue_set_queue. case_decide as Epr.
        - rewrite <- Epr. apply remove_first_elem. by apply wf_queue_nodup.
        - intros Hin. split; [|done]. intros ->. apply Epr.
          destruct (wf_queue q Hq pr p Hin) as (_ & y & Hy & <-). subst pp. congruence. }
      rewrite queue_set_queue in Hp'.
      case_decide as Epr; [subst pr|auto].
      apply elem_of_app in Hp' as [Hp'|Hp']; [auto|]. right. set_solver.
  - constructor; try done.
    + by apply heap_set_event.
    + intros pr p' Hp'. change (p' ∈ queue q pr) in Hp'.
      destruct (decide (p' = p)) as [->|Hne]; [|auto]. right. split; [done|].
      destruct (wf_queue q Hq pr p Hp') as (_ & y & Hy & <-). simpl. subst pp. congruence.
Qed.

(** ** Appending *)

(** [q'] is [q] with the fresh object [nextPtr q] holding [ev] queued last. *)
Record appended q (ev : Event Payload) q' : Prop := {
  ap_ptrs : ptrs q' ≡ₚ nextPtr q :: ptrs q;
  ap_heap : heap q' = <[nextPtr q := MkQueued ev (nextOrder q + 1)]> (heap q);
  ap_queue pr p' : p' ∈ queue q' pr -> p' ∈ queue q pr \/ p' = nextPtr q /\ pr = e_Priority ev;
  ap_coalesce : coalesce q' = if is_empty (CoalesceKey ev) then coalesce q
                              else <[CoalesceKey ev := nextPtr q]> (coalesce q);
  ap_dedupe : dedupe q' = if is_low (e_Priority ev) && negb (is_empty (DeduplicationKey ev))
                          then {[DeduplicationKey ev]} ∪ dedupe q else dedupe q;
  ap_rest : pending q' = pending q + 1 /\ capacity q' = capacity q /\ closed q' = closed q /\
    nextOrder q' = nextOrder q + 1 /\ nextPtr q' = S (nextPtr q);
}.

Lemma appended_live q ev q' p' x' :
  wf q -> appended q ev q' -> p' ∈ ptrs q' -> heap q' !! p' = Some x' ->
  p' = nextPtr q /\ x' = MkQueued ev (nextOrder q + 1) \/
  p' <> nextPtr q /\ p' ∈ ptrs q /\ heap q !! p' = Some x' /\ order x' <= nextOrder q.
Proof.
  intros Hq M Hp' Hx'. rewrite (ap_ptrs _ _ _ M) in Hp'. rewrite (ap_heap _ _ _ M) in Hx'.
  destruct (decide (p' = nextPtr q)) as [->|Hne].
  - rewrite lookup_insert_eq in Hx'. injection Hx' as <-. auto.
  - rewrite lookup_insert_ne in Hx' by done. apply elem_of_cons in Hp' as [->|Hp']; [done|].
    destruct (wf_live q Hq p' x' Hp' Hx') as [[_ ?] _]. auto.
Qed.

Lemma appended_old q ev q' p' :
  wf q -> appended q ev q' -> p' ∈ ptrs q ->
  p' <> nextPtr q /\ p' ∈ ptrs q' /\ heap q' !! p' = heap q !! p'.
Proof.
  intros Hq M Hp'. destruct (wf_ptrs q p' Hq Hp') as (x & Hx & _).
  destruct (wf_live q Hq p' x Hp' Hx) as [_ Hlt].
  rewrite (ap_ptrs _ _ _ M), (ap_heap _ _ _ M), lookup_insert_ne by lia.
  split_and!; [lia|set_solver|done].
Qed.

Lemma appended_new q ev q' :
  appended q ev q' ->
  nextPtr q ∈ ptrs q' /\ heap q' !! nextPtr q = Some (MkQueued ev (nextOrder q + 1)).
Proof.
  intros M. rewrite (ap_ptrs _ _ _ M), (ap_heap _ _ _ M), lookup_insert_eq. set_solver.
Qed.

Lemma appended_wf q ev q' :
  wf q -> appended q ev q' -> normalizePriority (e_Priority ev) = e_Priority ev ->
  pending q < capacity q -> coalesce q !! CoalesceKey ev = None ->
  (e_Priority ev = PriorityLow -> DeduplicationKey ev <> "" -> DeduplicationKey ev ∉ dedupe q) ->
  wf q'.
Proof.
  intros Hq M Hn Hcap Hco Hdup.
  destruct (ap_rest _ _ _ M) as (Epend & Ecap & Ecl & Eno & Enp).
  destruct (appended_new _ _ _ M) as [Hnew Hxnew].
  assert (Hfresh : nextPtr q ∉ ptrs q).
  { intros Hin. by destruct (appended_old _ _ _ _ Hq M Hin). }
  constructor.
  - rewrite (ap_ptrs _ _ _ M). constructor; [done|apply Hq].
  - intros pr p' Hp'. destruct (ap_queue _ _ _ M pr p' Hp') as [Hold|[-> ->]]; [|eauto].
    destruct (appended_old _ _ _ p' Hq M (queue_ptrs q pr p' Hq Hold)) as (_ & _ & ->).
    by apply (wf_queue q Hq).
  - intros p' x' Hp' Hx'. rewrite Eno, Enp. pose proof (wf_next q Hq).
    destruct (appended_live _ _ _ _ _ Hq M Hp' Hx') as [[-> ->]|(_ & Hp & Hx & _)];
      [simpl; lia|]. destruct (wf_live q Hq p' x' Hp Hx). lia.
  - intros p1 p2 x1 x2 H1 H2 Hx1 Hx2.
    destruct (appended_live _ _ _ _ _ Hq M H1 Hx1) as [[-> ->]|(_ & Hp1 & Hx1' & Ho1)],
      (appended_live _ _ _ _ _ Hq M H2 Hx2) as [[-> ->]|(_ & Hp2 & Hx2' & Ho2)]; simpl; intros E;
      [done|lia|lia|by apply (wf_order q Hq p1 p2 x1 x2)].
  - rewrite Epend, (ap_ptrs _ _ _ M), (wf_pending q Hq). simpl. lia.
  - intros k p'. rewrite (ap_coalesce _ _ _ M). split.
    + intros Hl. assert (Hcase : coalesce q !! k = Some p' \/
        k <> "" /\ k = CoalesceKey ev /\ p' = nextPtr q).
      { destruct (is_empty (CoalesceKey ev)) eqn:Ek; [auto|]. apply is_empty_false in Ek.
        destruct (decide (CoalesceKey ev = k)) as [<-|Hne].
        - rewrite lookup_insert_eq in Hl. injection Hl as <-. auto.
        - rewrite lookup_insert_ne in Hl by done. auto. }
      destruct Hcase as [Hold|(Hk & -> & ->)]; [|eauto 6].
      apply (wf_coalesce q Hq) in Hold as (Hk & Hp & Hx).
      destruct (appended_old _ _ _ p' Hq M Hp) as (_ & ? & ->). auto.
    + intros (Hk & Hp & x' & Hx' & <-).
      destruct (appended_live _ _ _ _ _ Hq M Hp Hx') as [[-> ->]|(_ & Hp0 & Hx0 & _)]; simpl in *.
      * apply is_empty_false in Hk as ->. by rewrite lookup_insert_eq.
      * assert (Hold : coalesce q !! CoalesceKey (event x') = Some p')
          by (apply (wf_coalesce q Hq); eauto).
        case_match; [done|]. rewrite lookup_insert_ne; congruence.
  - intros k. rewrite (ap_dedupe _ _ _ M).
    assert (E : (k ∈ (if is_low (e_Priority ev) && negb (is_empty (DeduplicationKey ev))
        then {[DeduplicationKey ev]} ∪ dedupe q else dedupe q)) <->
        (e_Priority ev = PriorityLow /\ k <> "" /\ k = DeduplicationKey ev) \/ k ∈ dedupe q).
    { pose proof (low_key_true (e_Priority ev) (DeduplicationKey ev)) as Hlk.
      destruct (_ && _); rewrite ?elem_of_union, ?elem_of_singleton;
        intuition (subst; auto; congruence). }
    rewrite E, (wf_dedupe q Hq). clear E. split.
    + intros [(Hl & Hk & ->)|(Hk & p' & x' & Hp & Hx & Hr)]; [split; eauto 8|].
      destruct (appended_old _ _ _ p' Hq M Hp) as (_ & ? & E).
      split; [done|]. exists p', x'. by rewrite E.
    + intros (Hk & p' & x' & Hp & Hx & Hl & Hkey).
      destruct (appended_live _ _ _ _ _ Hq M Hp Hx) as [[-> ->]|(_ & Hp0 & Hx0 & _)];
        simpl in *; [auto|]. right. eauto 8.
  - intros p1 p2 x1 x2 H1 H2 Hx1 Hx2 Hl1 Hl2 Hkk Hne.
    assert (Habs : forall p3 x3, p3 ∈ ptrs q -> heap q !! p3 = Some x3 ->
      e_Priority (event x3) = PriorityLow -> e_Priority ev = PriorityLow ->
      DeduplicationKey ev = DeduplicationKey (event x3) -> DeduplicationKey ev <> "" -> False).
    { intros p3 x3 Hp3 Hx3 Hl3 Hl E3 Hn3. apply (Hdup Hl Hn3), (wf_dedupe q Hq). eauto 8. }
    destruct (appended_live _ _ _ _ _ Hq M H1 Hx1) as [[-> ->]|(_ & Hp1 & Hx1' & _)],
      (appended_live _ _ _ _ _ Hq M H2 Hx2) as [[-> ->]|(_ & Hp2 & Hx2' & _)]; simpl in *.
    + done.
    + by destruct (Habs p2 x2).
    + destruct (Habs p1 x1); congruence.
    + by apply (wf_dedupe_inj q Hq p1 p2 x1 x2).
  - rewrite Epend, Ecap. lia.
  - rewrite Eno. pose proof (wf_next q Hq). lia.
Qed.

Lemma rep_fresh q a o : wf q -> rep q a -> nextOrder q < o -> sp_entries a !! o = None.
Proof.
  intros Hq Ha Ho. destruct (sp_entries a !! o) as [e|] eqn:E; [|done].
  apply Ha in E as (p & Hp & Hx). destruct (wf_live q Hq _ _ Hp Hx) as [[_ H1] _].
  simpl in H1. lia.
Qed.

Lemma appended_rep q ev q' a :
  wf q -> rep q a -> appended q ev q' ->
  rep q' (MkSpec (<[sp_next a + 1 := ev]> (sp_entries a)) (sp_next a + 1)
            (sp_capacity a) (sp_closed a)).
Proof.
  intros Hq Ha M. destruct (ap_rest _ _ _ M) as (_ & Ecap & Ecl & Eno & _).
  destruct (appended_new _ _ _ M) as [Hnew Hxnew]. rewrite (rep_next q a Ha).
  constructor; simpl.
  - intros o e. destruct (decide (nextOrder q + 1 = o)) as [<-|Hne].
    + rewrite lookup_insert_eq. split; [intros [= <-]; eauto|].
      intros (p & Hp & Hx). f_equal.
      destruct (appended_live _ _ _ _ _ Hq M Hp Hx) as [[_ [= ->]]|(_ & _ & _ & Ho)]; [done|].
      simpl in Ho. lia.
    + rewrite lookup_insert_ne by done. rewrite (rep_entries q a Ha). split.
      * intros (p & Hp & Hx). exists p.
        destruct (appended_old _ _ _ p Hq M Hp) as (_ & ? & ->). done.
      * intros (p & Hp & Hx).
        destruct (appended_live _ _ _ _ _ Hq M Hp Hx) as [[-> [= -> ->]]|(_ & ? & ? & _)];
          [done|eauto].
  - rewrite map_size_insert_None by (apply (rep_fresh q); [done..|lia]).
    rewrite (rep_size q a Ha), (ap_ptrs _ _ _ M). done.
  - by rewrite Eno.
  - rewrite Ecap. apply Ha.
  - rewrite Ecl. apply Ha.
Qed.

(** ** Removing *)

(** [q'] is [q] without the queued object [p], which holds [x]. *)
Record removed q p x q' : Prop := {
  rm_ptrs : p :: ptrs q' ≡ₚ ptrs q;
  rm_heap : heap q' = heap q;
  rm_queue pr p' : p' ∈ queue q' pr -> p' ∈ queue q pr;
  rm_coalesce : coalesce q' =
    if negb (is_empty (CoalesceKey (event x)))
       && bool_decide (coalesce q !! CoalesceKey (event x) = Some p)
    then delete (CoalesceKey (event x)) (coalesce q) else coalesce q;
  rm_dedupe : dedupe q' =
    if is_low (e_Priority (event x)) && negb (is_empty (DeduplicationKey (event x)))
    then dedupe q ∖ {[DeduplicationKey (event x)]} else dedupe q;
  rm_rest : pending q' = pending q - 1 /\ capacity q' = capacity q /\ closed q' = closed q /\
    nextOrder q' = nextOrder q /\ nextPtr q' = nextPtr q;
}.

Lemma removed_in q p x q' p' :
  wf q -> removed q p x q' -> p' ∈ ptrs q' <-> p' ∈ ptrs q /\ p' <> p.
Proof.
  intros Hq M. pose proof (wf_nodup q Hq) as Hnd. rewrite <- (rm_ptrs _ _ _ _ M) in Hnd |- *.
  apply NoDup_cons in Hnd as [Hp _]. rewrite elem_of_cons. split.
  - intros Hin. split; [auto|]. by intros ->.
  - intros [[->|]]; done.
Qed.

Lemma removed_wf q p x q' :
  wf q -> heap q !! p = Some x -> p ∈ ptrs q -> removed q p x q' -> wf q'.
Proof.
  intros Hq Hx Hp M. destruct (rm_rest _ _ _ _ M) as (Epend & Ecap & Ecl & Eno & Enp).
  pose proof (removed_in q p x q') as Hin.
  constructor.
  - pose proof (wf_nodup q Hq) as Hnd. rewrite <- (rm_ptrs _ _ _ _ M) in Hnd.
    by apply NoDup_cons in Hnd as [_ ?].
  - intros pr p' Hp'. rewrite (rm_heap _ _ _ _ M). apply (wf_queue q Hq).
    by apply (rm_queue _ _ _ _ M).
  - intros p' x'. rewrite Hin, (rm_heap _ _ _ _ M), Eno, Enp by done.
    intros [? _]. by apply (wf_live q Hq).
  - intros p1 p2 x1 x2. rewrite !Hin, (rm_heap _ _ _ _ M) by done.
    intros [? _] [? _]. by apply (wf_order q Hq).
  - rewrite Epend, (wf_pending q Hq), <- (rm_ptrs _ _ _ _ M). simpl. lia.
  - intros k p'. rewrite (rm_coalesce _ _ _ _ M), Hin, (rm_heap _ _ _ _ M) by done.
    assert (Hk : forall k, k <> "" -> CoalesceKey (event x) = k -> coalesce q !! k = Some p)
      by (intros ? ? <-; apply (wf_coalesce q Hq); eauto).
    case_match eqn:E.
    + destruct (decide (CoalesceKey (event x) = k)) as [<-|Hne].
      * rewrite lookup_delete_eq. split; [done|]. intros (Hk0 & [Hp' Hne] & Hx').
        destruct Hne. assert (coalesce q !! CoalesceKey (event x) = Some p')
          by (apply (wf_coalesce q Hq); auto).
        specialize (Hk _ Hk0 eq_refl). congruence.
      * rewrite lookup_delete_ne, (wf_coalesce q Hq) by done. split.
        -- intros (Hk0 & Hp' & y & Hy & Hky).
           assert (p' <> p) by (intros ->; congruence). eauto 8.
        -- intros (? & [? _] & ?). auto.
    + rewrite (wf_coalesce q Hq). split.
      * intros (Hk0 & Hp' & y & Hy & Hky). split_and!; eauto. intros ->.
        assert (y = x) as -> by congruence. specialize (Hk k Hk0 Hky). subst k.
        rewrite bool_decide_eq_true_2 in E by done.
        by apply is_empty_false in Hk0; rewrite Hk0 in E.
      * intros (? & [? _] & ?). auto.
  - intros k. rewrite (rm_dedupe _ _ _ _ M).
    assert (E : k ∈ (if is_low (e_Priority (event x)) && negb (is_empty (DeduplicationKey (event x)))
        then dedupe q ∖ {[DeduplicationKey (event x)]} else dedupe q) <->
        k ∈ dedupe q /\ ~ (e_Priority (event x) = PriorityLow /\ k <> "" /\
                           k = DeduplicationKey (event x))).
    { pose proof (low_key_true (e_Priority (event x)) (DeduplicationKey (event x))) as Hlk.
      destruct (_ && _); rewrite ?elem_of_difference, ?elem_of_singleton;
        intuition (subst; auto; congruence). }
    rewrite E, (wf_dedupe q Hq), (rm_heap _ _ _ _ M). clear E. split.
    + intros [(Hk & p' & x' & Hp' & Hx' & Hl & Hkey) Hno]. split; [done|].
      exists p', x'. rewrite Hin by done. split_and!; try done. intros ->.
      apply Hno. assert (x' = x) as -> by congruence. auto.
    + intros (Hk & p' & x' & Hp' & Hx' & Hl & Hkey). apply Hin in Hp' as [Hp' Hne]; [|done..].
      split; [eauto 8|]. intros (Hl0 & _ & ->). apply Hne.
      by apply (wf_dedupe_inj q Hq p' p x' x); congruence.
  - intros p1 p2 x1 x2. rewrite !Hin, (rm_heap _ _ _ _ M) by done.
    intros [? _] [? _]. by apply (wf_dedupe_inj q Hq).
  - rewrite Epend, Ecap. pose proof (wf_capacity q Hq). lia.
  - rewrite Eno. apply Hq.
Qed.

Lemma removed_rep q p x q' a :
  wf q -> rep q a -> heap q !! p = Some x -> p ∈ ptrs q -> removed q p x q' ->
  rep q' (MkSpec (delete (order x) (sp_entries a)) (sp_next a) (sp_capacity a) (sp_closed a)).
Proof.
  intros Hq Ha Hx Hp M. destruct (rm_rest _ _ _ _ M) as (_ & Ecap & Ecl & Eno & _).
  assert (Hold : sp_entries a !! order x = Some (event x))
    by (apply Ha; exists p; split; [done|by destruct x]).
  constructor; simpl.
  - intros o e. rewrite (rm_heap _ _ _ _ M). destruct (decide (order x = o)) as [<-|Hne].
    + rewrite lookup_delete_eq. split; [done|]. intros (p' & Hp' & Hx').
      apply (removed_in q p x q') in Hp' as [Hp' Hne]; [|done..]. destruct Hne.
      by apply (wf_order q Hq p' p (MkQueued e (order x)) x).
    + rewrite lookup_delete_ne, (rep_entries q a Ha) by done. split.
      * intros (p' & Hp' & Hx'). exists p'. split; [|done].
        apply (removed_in q p x q'); [done..|]. split; [done|]. intros ->.
        rewrite Hx in Hx'. by injection Hx' as ->.
      * intros (p' & Hp' & Hx'). apply (removed_in q p x q') in Hp' as [Hp' _]; eauto.
  - rewrite map_size_delete_Some by (rewrite Hold; eauto).
    rewrite (rep_size q a Ha), <- (rm_ptrs _ _ _ _ M). done.
  - rewrite Eno. apply Ha.
  - rewrite Ecap. apply Ha.
  - rewrite Ecl. apply Ha.
Qed.

(** ** Choosing *)

Lemma hasEarlier_true q c xc :
  wf q -> heap q !! c = Some xc ->
  hasEarlierForDeviceLocked q c = true <->
  exists p x, p ∈ ptrs q /\ heap q !! p = Some x /\
    e_DeviceID (event x) = e_DeviceID (event xc) /\ order x < order xc.
Proof.
  intros Hq Hc. unfold hasEarlierForDeviceLocked. rewrite Hc, existsb_exists. split.
  - intros (pr & Hpr & E). apply existsb_exists in E as (p & Hp & E).
    destruct (heap q !! p) as [x|] eqn:Hx; [|done]. bool_prop.
    exists p, x. rewrite <- list_elem_of_In in Hp. eauto using queue_ptrs.
  - intros (p & x & Hp & Hx & Hd & Ho). apply elem_of_ptrs in Hp as (pr & Hpr & Hp).
    exists pr. rewrite <- list_elem_of_In. split; [done|]. apply existsb_exists. exists p.
    rewrite <- list_elem_of_In, Hx, Hd, bool_decide_eq_false_2, bool_decide_eq_true_2; [|done|].
    + split; [done|]. simpl. lia.
    + intros ->. assert (x = xc) as -> by congruence. lia.
Qed.

Lemma scan_spec q i l :
  match scan q i l with
  | Some (j, c) => exists n, j = (i + n)%nat /\ l !! n = Some c /\
                     hasEarlierForDeviceLocked q c = false
  | None => forall c, c ∈ l -> hasEarlierForDeviceLocked q c = true
  end.
Proof.
  revert i. induction l as [|c l IH]; intros i; simpl; [set_solver|].
  destruct (hasEarlierForDeviceLocked q c) eqn:E.
  - specialize (IH (S i)). destruct (scan q (S i) l) as [[j c']|].
    + destruct IH as (n & -> & Hn & Hc). exists (S n). split; [lia|done].
    + intros c' [->|Hc']%elem_of_cons; auto.
  - exists 0%nat. split; [lia|done].
Qed.

Lemma pick_spec q ps :
  match pick q ps with
  | Some (pr, i, c) => queue q pr !! i = Some c /\ pr ∈ ps /\
      hasEarlierForDeviceLocked q c = false /\
      exists before after, ps = before ++ pr :: after /\
        forall pr' c', pr' ∈ before -> c' ∈ queue q pr' -> hasEarlierForDeviceLocked q c' = true
  | None => forall pr c, pr ∈ ps -> c ∈ queue q pr -> hasEarlierForDeviceLocked q c = true
  end.
Proof.
  induction ps as [|p ps IH]; simpl; [set_solver|].
  pose proof (scan_spec q 0 (queue q p)) as Hs. destruct (scan q 0 (queue q p)) as [[j c]|].
  - destruct Hs as (n & -> & Hn & Hc). split_and!; [done|set_solver|done|].
    exists [], ps. split; [done|set_solver].
  - destruct (pick q ps) as [[[pr i] c]|].
    + destruct IH as (Hl & Hin & Hc & before & after & -> & Hb). split_and!; [done|set_solver|done|].
      exists (p :: before), after. split; [done|].
      intros pr' c' [->|Hpr']%elem_of_cons; eauto.
    + intros pr c [->|Hpr]%elem_of_cons; eauto.
Qed.

Lemma rank_before before pr after pr' :
  priorities = before ++ pr :: after -> pr' ∈ priorities -> rank pr < rank pr' -> pr' ∈ before.
Proof.
  intros E. unfold priorities in *.
  destruct before as [|p1 [|p2 [|p3 [|p4 [|p5 before]]]]]; simpl in E; simplify_eq;
    rewrite !elem_of_cons, elem_of_nil; intros [->|[->|[->|[->|[]]]]]; simpl; try lia; tauto.
Qed.

(** A non-empty list has an element of least weight. *)
Lemma least_element {A} (f : A -> Z) (l : list A) :
  l <> [] -> exists m, m ∈ l /\ forall y, y ∈ l -> f m <= f y.
Proof.
  induction l as [|a0 l IH]; [done|]. intros _. destruct l as [|b l].
  - exists a0. split; [set_solver|]. intros y ->%list_elem_of_singleton. lia.
  - destruct IH as (m & Hm & Hmin); [done|]. destruct (Z.le_gt_cases (f a0) (f m)).
    + exists a0. split; [set_solver|]. intros y [->|Hy]%elem_of_cons; [lia|].
      specialize (Hmin y Hy). lia.
    + exists m. split; [set_solver|]. intros y [->|Hy]%elem_of_cons; [lia|auto].
Qed.

Definition order_of q (p : ptr) : Z := from_option order 0 (heap q !! p).

(** A waiting shard always has something to deliver. *)
Lemma pick_some q : wf q -> ptrs q <> [] -> exists pr i c, pick q priorities = Some (pr, i, c).
Proof.
  intros Hq Hne. destruct (least_element (order_of q) (ptrs q) Hne) as (m & Hm & Hmin).
  destruct (wf_ptrs q m Hq Hm) as (x & Hx & Hmq).
  pose proof (pick_spec q priorities) as Hp.
  destruct (pick q priorities) as [[[pr i] c]|]; [eauto|]. exfalso.
  assert (E : hasEarlierForDeviceLocked q m = true).
  { apply (Hp (e_Priority (event x))); [|done]. apply normal_in, (wf_queue q Hq _ m Hmq). }
  apply (hasEarlier_true q m x Hq Hx) in E as (p' & x' & Hp' & Hx' & _ & Hlt).
  specialize (Hmin p' Hp'). unfold order_of in Hmin. rewrite Hx, Hx' in Hmin. simpl in Hmin. lia.
Qed.

(** ** The shard implements its specification *)

Lemma duplicate_dedupe q a ev :
  wf q -> rep q a ->
  is_low (e_Priority ev) && negb (is_empty (DeduplicationKey ev))
    && bool_decide (DeduplicationKey ev ∈ dedupe q) = true <-> duplicate a ev.
Proof.
  intros Hq Ha. rewrite andb_true_iff, low_key_true, bool_decide_eq_true, (wf_dedupe q Hq).
  unfold duplicate. split.
  - intros [[Hl Hk] (_ & p & [e o] & Hp & Hx & Hl' & Hkey)]. split_and!; [done..|].
    exists o, e. split_and!; [|done..]. apply Ha. eauto.
  - intros (Hl & Hk & o & e & He & Hl' & Hkey). apply Ha in He as (p & Hp & Hx).
    split_and!; [done..|]. exists p, (MkQueued e o). done.
Qed.

Lemma coalesce_merges q a ev p :
  wf q -> rep q a -> CoalesceKey ev <> "" -> coalesce q !! CoalesceKey ev = Some p ->
  exists x, p ∈ ptrs q /\ heap q !! p = Some x /\
    merges_with a (CoalesceKey ev) (order x) (event x).
Proof.
  intros Hq Ha Hk Hp. apply (wf_coalesce q Hq) in Hp as (_ & Hp & x & Hx & Hkx).
  exists x. split_and!; [done..|]. split_and!; [done| |done]. apply Ha. exists p.
  by destruct x.
Qed.

Lemma coalesce_none q a ev :
  wf q -> rep q a -> is_empty (CoalesceKey ev) = true \/ coalesce q !! CoalesceKey ev = None ->
  forall o e, ~ merges_with a (CoalesceKey ev) o e.
Proof.
  intros Hq Ha Hno o e (Hk & He & Hke). apply Ha in He as (p & Hp & Hx).
  destruct Hno as [Hno|Hno]; [by apply is_empty_true in Hno|].
  assert (coalesce q !! CoalesceKey ev = Some p); [|congruence].
  apply (wf_coalesce q Hq). split_and!; [done..|]. by exists (MkQueued e o).
Qed.

Lemma coalesce_empty q : wf q -> coalesce q !! "" = None.
Proof.
  intros Hq. destruct (coalesce q !! "") as [p|] eqn:E; [|done].
  by apply (wf_coalesce q Hq) in E as [? _].
Qed.

(** The state [enqueue] builds when it appends. *)
Lemma enqueue_appended q ev :
  wf q -> nextOrder q + 1 < two64 -> normalizePriority (e_Priority ev) = e_Priority ev ->
  let q1 := alloc q ev (u64_succ (nextOrder q)) in
  let q2 := set_queue q1 (e_Priority ev) (queue q1 (e_Priority ev) ++ [nextPtr q]) in
  let q3 := set_pending q2 (pending q2 + 1) in
  let q4 := if is_empty (CoalesceKey ev) then q3
            else set_coalesce q3 (<[CoalesceKey ev := nextPtr q]> (coalesce q3)) in
  let q5 := if is_low (e_Priority ev) && negb (is_empty (DeduplicationKey ev))
            then set_dedupe q4 ({[DeduplicationKey ev]} ∪ dedupe q4) else q4 in
  appended q ev q5.
Proof.
  intros Hq Hno Hn q1 q2 q3 q4 q5. pose proof (wf_next q Hq) as H0.
  assert (Eo : u64_succ (nextOrder q) = nextOrder q + 1) by by apply u64_succ_small.
  assert (Eq : queues q5 = queues q2) by (subst q5 q4; by repeat case_match).
  constructor.
  - rewrite (ptrs_of_queues q2 q5 Eq). by apply (ptrs_append q1).
  - subst q5 q4 q3 q2 q1. rewrite <- Eo. by repeat case_match.
  - intros pr p'. unfold queue. rewrite Eq. fold (queue q2 pr). subst q2.
    rewrite queue_set_queue. case_decide as E; [subst pr|auto].
    rewrite elem_of_app, list_elem_of_singleton. intros [?|?]; auto.
  - subst q5 q4. by repeat case_match.
  - subst q5 q4. by repeat case_match.
  - subst q5 q4 q3 q2 q1. rewrite <- Eo. by repeat case_match.
Qed.

(** What [enqueue] keeps: the invariant, the capacity, the closed flag, and every
    waiting event but the one of [ev]'s device it may add or overwrite with. *)
Definition enqueue_keeps q (dev : string) q' : Prop :=
  wf q' /\ capacity q' = capacity q /\ closed q' = closed q /\
  forall p x, p ∈ ptrs q' -> heap q' !! p = Some x ->
    e_DeviceID (event x) = dev \/ p ∈ ptrs q /\ heap q !! p = Some x.

Lemma enqueue_keeps_refl q dev : wf q -> enqueue_keeps q dev q.
Proof. intros Hq. split_and!; auto. Qed.

Lemma enqueue_sound q a ev :
  wf q -> rep q a -> nextOrder q + 1 < two64 ->
  enqueue_keeps q (e_DeviceID ev) (enqueue q ev).1 /\
  exists a', spec_enqueue a (with_Priority ev (normalizePriority (e_Priority ev)))
               a' (enqueue q ev).2 /\ rep (enqueue q ev).1 a'.
Proof.
  intros Hq Ha Hno. unfold enqueue.
  set (ev' := with_Priority ev (normalizePriority (e_Priority ev))).
  assert (Hn : normalizePriority (e_Priority ev') = e_Priority ev') by (by destruct ev as [???[]]).
  assert (Hdev : e_DeviceID ev' = e_DeviceID ev /\ True) by done.
  clearbody ev'. destruct (closed q) eqn:Hcl.
  { split; [exact (enqueue_keeps_refl q _ Hq)|].
    exists a. split; [constructor; by rewrite (rep_closed q a Ha)|done]. }
  assert (Hcl' : sp_closed a = false) by by rewrite (rep_closed q a Ha).
  pose proof (duplicate_dedupe q a ev' Hq Ha) as Hdup.
  destruct (_ && bool_decide (DeduplicationKey ev' ∈ dedupe q)) eqn:Ed.
  { split; [exact (enqueue_keeps_refl q _ Hq)|].
    exists a. split; [constructor; [done|by apply Hdup]|done]. }
  assert (Hnd : ~ duplicate a ev') by (rewrite <- Hdup; congruence).
  assert (Hfresh : e_Priority ev' = PriorityLow -> DeduplicationKey ev' <> "" ->
    DeduplicationKey ev' ∉ dedupe q).
  { intros Hl Hk Hin. apply not_true_iff_false in Ed. apply Ed.
    rewrite andb_true_iff, low_key_true, bool_decide_eq_true. done. }
  match goal with |- context [match ?c with Some _ => _ | None => _ end] => set (cur := c) end.
  assert (Hcur : match cur with
    | Some (p, x) => p ∈ ptrs q /\ heap q !! p = Some x /\
        CoalesceKey ev' = CoalesceKey (event x) /\
        merges_with a (CoalesceKey ev') (order x) (event x)
    | None => coalesce q !! CoalesceKey ev' = None /\
        forall o e, ~ merges_with a (CoalesceKey ev') o e
    end).
  { subst cur. destruct (is_empty (CoalesceKey ev')) eqn:Ek.
    - split; [|by apply (coalesce_none q); auto]. apply is_empty_true in Ek as ->.
      by apply coalesce_empty.
    - apply is_empty_false in Ek. destruct (coalesce q !! CoalesceKey ev') as [p|] eqn:Ec.
      + destruct (coalesce_merges q a ev' p Hq Ha Ek Ec) as (x & Hp & Hx & Hm).
        rewrite Hx. destruct Hm as (? & ? & ?). done.
      + split; [done|]. by apply (coalesce_none q); auto. }
  destruct cur as [[p x]|].
  - destruct Hcur as (Hp & Hx & Hk & Hm). pose proof (merge_into_merged q p x ev' Hq Hp Hx Hn) as M.
    split; [split|].
    + apply (merged_wf _ _ _ _ _ Hq Hp Hx M); [done| |].
      * simpl. unfold higher. destruct (wf_ptrs q p Hq Hp) as (x0 & Hx0 & Hpq).
        assert (x0 = x) as -> by congruence.
        case_match; [done|]. by apply (wf_queue q Hq _ _ Hpq).
      * simpl. unfold higher, priorityGreater.
        destruct (Z.ltb_spec (rank (e_Priority (event x))) (rank (e_Priority ev'))) as [Hr|Hr]; [done|].
        intros Hl. apply Hfresh. rewrite Hl in Hr. by destruct (e_Priority ev').
    + destruct (mg_rest _ _ _ _ _ M) as (_ & Ecap & Ecl & _). rewrite <- (proj1 Hdev). split_and!; [done..|].
      intros p' x' Hp' Hx'. rewrite (mg_ptrs _ _ _ _ _ M) in Hp'.
      by destruct (merged_heap _ _ _ _ _ _ _ M Hx') as [[-> ->]|[_ ?]]; [left|right].
    + eexists. split; [by eapply spec_merge|].
      by apply (merged_rep q p x _ _ a Hq Ha Hp Hx M).
  - destruct Hcur as [Hco Hnom]. pose proof (rep_size q a Ha) as Hsz.
    pose proof (wf_pending q Hq) as Hpe. pose proof (rep_capacity q a Ha) as Hca.
    destruct (Z.leb_spec (capacity q) (pending q)) as [Hfull|Hroom].
    + split; [exact (enqueue_keeps_refl q _ Hq)|]. exists a. split; [|done]. apply spec_full; [done..|].
      rewrite Hca, Hsz. lia.
    + pose proof (enqueue_appended q ev' Hq Hno Hn) as M. cbv zeta in M.
      split; [split; [by apply (appended_wf _ _ _ Hq M)|]|].
      { destruct (ap_rest _ _ _ M) as (_ & Ecap & Ecl & _). rewrite <- (proj1 Hdev). split_and!; [done..|].
        intros p' x' Hp' Hx'.
        by destruct (appended_live _ _ _ _ _ Hq M Hp' Hx') as [[-> ->]|(_ & ? & ? & _)]; [left|right]. }
      eexists. split; [apply spec_append; [done|done|done|]; rewrite Hca, Hsz; lia|].
      exact (appended_rep _ _ _ _ Hq Ha M).
Qed.

(** C2: A shard implements its specification, [enqueue]: a closed shard refuses,
    a low-priority duplicate is dropped, an event with the coalesce key of a
    waiting one replaces it in place (last write wins, the arrival number kept,
    the priority never lowered), a full shard refuses, and any other event is
    added with a fresh arrival number. *)
Theorem enqueue_refines q a ev :
  wf q -> rep q a -> nextOrder q + 1 < two64 ->
  wf (enqueue q ev).1 /\
  exists a', spec_enqueue a (with_Priority ev (normalizePriority (e_Priority ev)))
               a' (enqueue q ev).2 /\ rep (enqueue q ev).1 a'.
Proof.
  intros Hq Ha Hno. destruct (enqueue_sound q a ev Hq Ha Hno) as [[? _] ?]. done.
Qed.

Lemma rep_eligible q a p x :
  wf q -> rep q a -> p ∈ ptrs q -> heap q !! p = Some x ->
  hasEarlierForDeviceLocked q p = false <-> eligible a (order x) (event x).
Proof.
  intros Hq Ha Hp Hx. rewrite <- not_true_iff_false, (hasEarlier_true q p x Hq Hx).
  unfold eligible. split.
  - intros Hno. split; [apply Ha; exists p; by destruct x|]. intros o' e' He' Hd.
    apply Ha in He' as (p' & Hp' & Hx'). destruct (Z.le_gt_cases (order x) o'); [done|].
    destruct Hno. exists p', (MkQueued e' o'). simpl. split_and!; [done..|lia].
  - intros [_ Hmin] (p' & [e' o'] & Hp' & Hx' & Hd & Hlt). simpl in *.
    assert (sp_entries a !! o' = Some e') as He' by (apply Ha; eauto).
    specialize (Hmin o' e' He' Hd). lia.
Qed.

Lemma ptrs_empty q a : rep q a -> ptrs q = [] <-> sp_entries a = ∅.
Proof.
  intros Ha. rewrite <- map_size_empty_iff, (rep_size q a Ha). by destruct (ptrs q).
Qed.

(** What [next] leaves behind when it delivers. *)
Lemma next_removed q pr i p x :
  wf q -> heap q !! p = Some x -> p ∈ queue q pr -> queue q pr !! i = Some p ->
  let q1 := removeAtLocked q pr i in
  let q2 := set_pending q1 (pending q1 - 1) in
  let q3 := if negb (is_empty (CoalesceKey (event x)))
               && bool_decide (coalesce q2 !! CoalesceKey (event x) = Some p)
            then set_coalesce q2 (delete (CoalesceKey (event x)) (coalesce q2)) else q2 in
  let q4 := if is_low (e_Priority (event x)) && negb (is_empty (DeduplicationKey (event x)))
            then set_dedupe q3 (dedupe q3 ∖ {[DeduplicationKey (event x)]}) else q3 in
  removed q p x q4.
Proof.
  intros Hq Hx Hp Hi q1 q2 q3 q4. destruct (wf_queue q Hq pr p Hp) as [Hn _].
  assert (Eq : queues q4 = queues q1) by (subst q4 q3; by repeat case_match).
  constructor.
  - rewrite (ptrs_of_queues q1 q4 Eq). apply ptrs_remove; [done|].
    by apply take_drop_perm.
  - subst q4 q3. by repeat case_match.
  - intros pr' p'. unfold queue at 1. rewrite Eq. fold (queue q1 pr'). subst q1.
    unfold removeAtLocked. rewrite queue_set_queue. case_decide as E; [subst pr'|done].
    rewrite elem_of_app. intros [Hp'|Hp'];
      [exact (subseteq_take _ _ _ Hp')|exact (subseteq_drop _ _ _ Hp')].
  - subst q4 q3 q2 q1. simpl. by destruct (_ && _), (_ && bool_decide _).
  - subst q4 q3 q2 q1. simpl. by destruct (_ && negb _), (_ && bool_decide _).
  - subst q4 q3 q2 q1. by destruct (_ && negb _), (_ && bool_decide _).
Qed.

(** A shard with waiting events delivers one that may be delivered. *)
Lemma next_delivers q a :
  wf q -> rep q a -> pending q <> 0 ->
  exists p x, p ∈ ptrs q /\ heap q !! p = Some x /\ eligible a (order x) (event x) /\
    (forall o' e', eligible a o' e' -> rank (e_Priority e') <= rank (e_Priority (event x))) /\
    (next q).2 = NextDelivered (event x) /\ removed q p x (next q).1.
Proof.
  intros Hq Ha Hz. unfold next. pose proof (wf_pending q Hq) as Hpe.
  apply Z.eqb_neq in Hz as Hz'. rewrite Hz'. cbn [andb].
  assert (Hne : ptrs q <> []) by (intros E; rewrite E in Hpe; done).
  destruct (pick_some q Hq Hne) as (pr & i & p & Hpick).
  pose proof (pick_spec q priorities) as Hs. rewrite Hpick in Hs |- *.
  destruct Hs as (Hi & Hpr & Hno & before & after & Hsplit & Hbefore).
  assert (Hpq : p ∈ queue q pr) by by eapply list_elem_of_lookup_2.
  assert (Hp : p ∈ ptrs q) by by apply (queue_ptrs q pr).
  destruct (wf_queue q Hq pr p Hpq) as (_ & x & Hx & Epr). rewrite Hx.
  exists p, x. split_and!; [done..|exact (proj1 (rep_eligible q a p x Hq Ha Hp Hx) Hno)| |done|].
  2: exact (next_removed q pr i p x Hq Hx Hpq Hi).
  intros o' e' Hel. rewrite Epr. destruct (Z.le_gt_cases (rank (e_Priority e')) (rank pr)); [done|].
  pose proof Hel as [He' _]. apply Ha in He' as (p' & Hp' & Hx').
  destruct (wf_ptrs q p' Hq Hp') as (x0 & Hx0 & Hpq').
  rewrite Hx' in Hx0. injection Hx0 as <-. simpl in Hpq'.
  assert (E : hasEarlierForDeviceLocked q p' = true).
  { apply (Hbefore (e_Priority e')); [|done].
    eapply rank_before; [done| |lia]. apply normal_in, (wf_queue q Hq _ _ Hpq'). }
  pose proof (proj2 (rep_eligible q a p' (MkQueued e' o') Hq Ha Hp' Hx') Hel). congruence.
Qed.

(** C3: A shard implements its specification, [next]: it blocks only when nothing
    waits and it is open, stops only when nothing waits and it is closed, and
    otherwise delivers an event that is the earliest of its device and has the
    highest priority among the events that are (it never panics). *)
Theorem next_refines q a :
  wf q -> rep q a ->
  wf (next q).1 /\ exists a', spec_next a a' (next q).2 /\ rep (next q).1 a'.
Proof.
  intros Hq Ha. destruct (decide (pending q = 0)) as [Hz|Hz].
  - pose proof (wf_pending q Hq) as Hpe. pose proof (rep_closed q a Ha) as Hcl.
    assert (Hnil : ptrs q = []) by (destruct (ptrs q); [done|simpl in Hpe; lia]).
    apply (ptrs_empty q a Ha) in Hnil. unfold next. rewrite Hz. simpl.
    destruct (closed q); simpl; (split; [done|]); exists a; split; try done; by constructor.
  - destruct (next_delivers q a Hq Ha Hz) as (p & x & Hp & Hx & Hel & Hmax & -> & M).
    split; [by apply (removed_wf _ _ _ _ Hq Hx Hp M)|].
    eexists. split; [by apply spec_deliver|exact (removed_rep _ _ _ _ _ Hq Ha Hx Hp M)].
Qed.

(** ** Draining a shard *)

(** Up to [n] deliveries of a worker. *)
Fixpoint drain (n : nat) q : list (Event Payload) * dispatcherShard Payload :=
  match n with
  | O => ([], q)
  | S n =>
      match next q with
      | (q', NextDelivered e) => let '(l, q'') := drain n q' in (e :: l, q'')
      | (q', _) => ([], q')
      end
  end.

Lemma drain_trace n : forall q a,
  wf q -> rep q a -> pending q = Z.of_nat n ->
  exists tr, tr.*2 = (drain n q).1 /\ length tr = n /\ pending (drain n q).2 = 0 /\
    closed (drain n q).2 = closed q /\
    (forall o e, (o, e) ∈ tr -> sp_entries a !! o = Some e) /\
    (forall i j o e o' e', (i < j)%nat -> tr !! i = Some (o, e) -> tr !! j = Some (o', e') ->
       e_DeviceID e = e_DeviceID e' -> o < o').
Proof.
  induction n as [|n IH]; intros q a Hq Ha Hn; simpl.
  { exists []. split_and!; try done. set_solver. }
  destruct (next_delivers q a Hq Ha) as (p & x & Hp & Hx & Hel & _ & Hd & M); [lia|].
  pose proof (removed_wf _ _ _ _ Hq Hx Hp M) as Hq'.
  pose proof (removed_rep _ _ _ _ _ Hq Ha Hx Hp M) as Ha'.
  destruct (rm_rest _ _ _ _ M) as (Epend & _ & Ecl & _).
  destruct (IH _ _ Hq' Ha') as (tr & Etr & Hlen & Hpend & Hcl & Hin & Hord); [lia|].
  destruct (next q) as [q' r]. simpl in *. subst r.
  destruct (drain n q') as [l q'']. simpl in *. subst l.
  exists ((order x, event x) :: tr). simpl. split_and!; [done|lia|done|congruence| |].
  - intros o e [[= -> ->]|Hoe]%elem_of_cons; [apply Hel|].
    specialize (Hin o e Hoe). by apply lookup_delete_Some in Hin as [_ ?].
  - intros [|i] [|j] o e o' e' Hij Hi Hj Hdev; simpl in *; try lia.
    + injection Hi as <- <-. apply list_elem_of_lookup_2, Hin in Hj.
      apply lookup_delete_Some in Hj as [Hne Hj].
      destruct Hel as [_ Hmin]. specialize (Hmin o' e' Hj (eq_sym Hdev)). lia.
    + apply (Hord i j o e o' e'); [lia|done..].
Qed.

(** C33: A worker drains its shard: [pending] calls of [next] deliver as many events,
    all of them waiting ones, leave nothing, and hand over the events of one
    device in the order in which they arrived, whatever their priorities; a
    closed shard then stops its worker. *)
Theorem drain_fifo q a :
  wf q -> rep q a ->
  let r := drain (Z.to_nat (pending q)) q in
  length r.1 = Z.to_nat (pending q) /\ pending r.2 = 0 /\
  (closed q = true -> (next r.2).2 = NextStopped) /\
  exists tr, tr.*2 = r.1 /\
    (forall o e, (o, e) ∈ tr -> sp_entries a !! o = Some e) /\
    (forall i j o e o' e', (i < j)%nat -> tr !! i = Some (o, e) -> tr !! j = Some (o', e') ->
       e_DeviceID e = e_DeviceID e' -> o < o').
Proof.
  intros Hq Ha r. pose proof (wf_pending q Hq).
  destruct (drain_trace (Z.to_nat (pending q)) q a Hq Ha) as
    (tr & Etr & Hlen & Hpend & Hcl & Hin & Hord); [lia|]. fold r in Etr, Hpend, Hcl.
  split_and!; [by rewrite <- Etr, length_fmap|done| |by exists tr].
  intros Hc. unfold next. by rewrite Hpend, Hcl, Hc.
Qed.

(** ** Construction and closing *)

Lemma queue_new n pr : queue (newDispatcherShard (Payload := Payload) n) pr = [].
Proof.
  destruct pr; try reflexivity. unfold queue. simpl.
  by rewrite !lookup_total_insert_ne, lookup_total_empty by done.
Qed.

Lemma new_wf n : 0 <= n -> wf (newDispatcherShard (Payload := Payload) n).
Proof.
  intros Hn. assert (E : ptrs (newDispatcherShard (Payload := Payload) n) = [])
    by (unfold ptrs; by rewrite !queue_new).
  assert (H0 : forall p, p ∉ ptrs (newDispatcherShard (Payload := Payload) n))
    by (rewrite E; by intros p ?%elem_of_nil).
  constructor.
  - rewrite E. constructor.
  - intros pr p. rewrite queue_new. by intros ?%elem_of_nil.
  - by intros p x ?%H0.
  - by intros p p' x x' ?%H0.
  - by rewrite E.
  - intros k p. simpl. rewrite lookup_empty. split; [done|]. by intros (_ & ?%H0 & _).
  - intros k. simpl. rewrite elem_of_empty. split; [done|]. by intros (_ & p & x & ?%H0 & _).
  - by intros p p' x x' ?%H0.
  - done.
  - done.
Qed.

Lemma new_rep n : rep (newDispatcherShard (Payload := Payload) n) (MkSpec ∅ 0 n false).
Proof.
  assert (E : ptrs (newDispatcherShard (Payload := Payload) n) = [])
    by (unfold ptrs; by rewrite !queue_new).
  constructor; simpl; rewrite ?E; try done. intros o e. rewrite lookup_empty.
  split; [done|]. by intros (p & ?%elem_of_nil & _).
Qed.

Lemma close_wf q : wf q -> wf (close q).
Proof. intros Hq. destruct Hq. by constructor. Qed.

(** Every well-formed shard stands for some abstract one. *)
Definition entry_of q (p : ptr) : option (Z * Event Payload) :=
  (fun x => (order x, event x)) <$> heap q !! p.

Definition abstract q : spec Payload :=
  MkSpec (list_to_map (omap (entry_of q) (ptrs q))) (nextOrder q) (capacity q) (closed q).

Lemma entries_nodup q ps :
  wf q -> NoDup ps -> (forall p, p ∈ ps -> p ∈ ptrs q) ->
  NoDup (omap (entry_of q) ps).*1 /\ length (omap (entry_of q) ps) = length ps.
Proof.
  intros Hq. induction ps as [|p ps IH]; intros Hnd Hsub; simpl; [by split; [constructor|]|].
  apply NoDup_cons in Hnd as [Hp Hnd]. destruct IH as [IH1 IH2]; [done|set_solver|].
  destruct (wf_ptrs q p Hq) as (x & Hx & _); [set_solver|].
  assert (E : entry_of q p = Some (order x, event x)) by (unfold entry_of; by rewrite Hx).
  rewrite E. simpl. split; [|exact (f_equal S IH2)]. constructor; [|exact IH1].
  rewrite list_elem_of_fmap.
  intros ([o e] & Ho & Hoe). simpl in Ho. apply list_elem_of_omap in Hoe as (p' & Hp' & E').
  unfold entry_of in E'. destruct (heap q !! p') as [x'|] eqn:Hx'; simplify_eq/=.
  assert (p = p') as <-; [|done]. apply (wf_order q Hq p p' x x'); [set_solver..|done|done|done].
Qed.

Lemma abstract_rep q : wf q -> rep q (abstract q).
Proof.
  intros Hq. destruct (entries_nodup q (ptrs q) Hq (wf_nodup q Hq)) as [Hnd Hlen]; [done|].
  constructor; simpl; try done.
  - intros o e. rewrite <- elem_of_list_to_map by done. rewrite list_elem_of_omap.
    unfold entry_of. split.
    + intros (p & Hp & E). destruct (heap q !! p) as [[e' o']|] eqn:Hx; simplify_eq/=. eauto.
    + intros (p & Hp & Hx). exists p. by rewrite Hx.
  - rewrite map_size_list_to_map, Hlen; done.
Qed.

(** ** The dispatcher *)

Lemma fnv32a_range s : forall h, 0 <= h < 2 ^ 32 -> 0 <= fnv32a h s < 2 ^ 32.
Proof.
  induction s as [|c s IH]; intros h Hh; simpl; [done|].
  apply IH. apply Z.mod_pos_bound. lia.
Qed.

Lemma shard_range id count : 0 < count < 2 ^ 32 -> 0 <= shard id count < count.
Proof.
  intros Hc. unfold shard. rewrite (Z.mod_small count) by lia. apply Z.mod_pos_bound. lia.
Qed.

Implicit Type d : Dispatcher Payload.

(** The shard of a device. *)
Definition home d (dev : string) : nat := Z.to_nat (shard dev (Z.of_nat (length (shards d)))).

Lemma home_lt d dev : (0 < length (shards d))%nat -> Z.of_nat (length (shards d)) < 2 ^ 32 ->
  (home d dev < length (shards d))%nat.
Proof.
  intros. unfold home.
  pose proof (shard_range dev (Z.of_nat (length (shards d)))). lia.
Qed.

(** Every shard is well formed, closed with the dispatcher, and holds only events
    of the devices that hash to it. *)
Definition wf_dispatcher d : Prop :=
  (0 < length (shards d))%nat /\ Z.of_nat (length (shards d)) < 2 ^ 32 /\
  forall i q, shards d !! i = Some q ->
    wf q /\ closed q = d_closed d /\
    forall p x, p ∈ ptrs q -> heap q !! p = Some x -> home d (e_DeviceID (event x)) = i.

(** The dispatcher's operations; the counter of arrivals of a shard may not wrap
    around, which takes 2^64 events. *)
Inductive dstep : Dispatcher Payload -> Dispatcher Payload -> Prop :=
| dstep_publish d seq nanos now ev :
    (forall i q, shards d !! i = Some q -> nextOrder q + 1 < two64) ->
    dstep d (Publish d seq nanos now ev).1.1
| dstep_run d i started finished : dstep d (run_iteration d i started finished).1
| dstep_close d : dstep d (CloseDispatcher d).

Inductive dreachable (c : Config) : Dispatcher Payload -> Prop :=
| dreachable_new : dreachable c (NewDispatcherWithConfig c)
| dreachable_step d d' : dreachable c d -> dstep d d' -> dreachable c d'.

(** Replacing one shard keeps the dispatcher well formed. *)
Lemma wf_dispatcher_insert d d' i q q' :
  wf_dispatcher d -> shards d !! i = Some q -> shards d' = <[i := q']> (shards d) ->
  d_closed d' = d_closed d -> wf q' -> closed q' = closed q ->
  (forall p x, p ∈ ptrs q' -> heap q' !! p = Some x ->
     home d (e_DeviceID (event x)) = i \/ p ∈ ptrs q /\ heap q !! p = Some x) ->
  wf_dispatcher d'.
Proof.
  intros (Hpos & Hmax & Hd) Hi Es Ec Hq' Hcl Hlive.
  assert (Hlen : length (shards d') = length (shards d)) by (rewrite Es; apply length_insert).
  assert (Hh : forall dev, home d' dev = home d dev) by (intros; unfold home; by rewrite Hlen).
  split; [lia|]. split; [lia|]. intros j r Hj. rewrite Es in Hj. rewrite Ec.
  destruct (Hd i q Hi) as (Hq & Hclq & Hhome).
  destruct (decide (i = j)) as [<-|Hne].
  - rewrite list_lookup_insert_eq in Hj by by eapply lookup_lt_Some. injection Hj as <-.
    split; [done|]. split; [congruence|]. intros p x Hp Hx. rewrite Hh.
    destruct (Hlive p x Hp Hx) as [?|[Hp0 Hx0]]; [done|by apply (Hhome p)].
  - rewrite list_lookup_insert_ne in Hj by done. destruct (Hd j r Hj) as (? & ? & Hr).
    split_and!; [done..|]. intros p x Hp Hx. rewrite Hh. by apply (Hr p).
Qed.

Lemma next_keeps q : wf q ->
  wf (next q).1 /\ capacity (next q).1 = capacity q /\ closed (next q).1 = closed q /\
  (next q).2 <> NextPanic /\
  forall p x, p ∈ ptrs (next q).1 -> heap (next q).1 !! p = Some x ->
    p ∈ ptrs q /\ heap q !! p = Some x.
Proof.
  intros Hq. destruct (decide (pending q = 0)) as [Hz|Hz].
  - unfold next. rewrite Hz. simpl. destruct (closed q) eqn:E; simpl; split_and!; auto; done.
  - destruct (next_delivers q _ Hq (abstract_rep q Hq) Hz) as (p & x & Hp & Hx & _ & _ & Er & M).
    destruct (rm_rest _ _ _ _ M) as (_ & Ecap & Ecl & _).
    split_and!; [by apply (removed_wf _ _ _ _ Hq Hx Hp M)|done|done|by rewrite Er|].
    intros p' x' Hp'. apply (removed_in q p x _ p' Hq M) in Hp' as [? _].
    by rewrite (rm_heap _ _ _ _ M).
Qed.

Lemma dstep_wf d d' : dstep d d' -> wf_dispatcher d -> wf_dispatcher d'.
Proof.
  intros [d0 seq nanos now ev Hno|d0 i started finished|d0] Hd.
  - unfold Publish. destruct (d_closed d0) eqn:Hcl; [done|].
    destruct (if is_empty (e_TraceID ev) then _ else _) as [seq' tr].
    set (i := Z.to_nat _). destruct (shards d0 !! i) as [q|] eqn:Hi; [|done].
    pose proof Hd as (_ & _ & Hall). destruct (Hall i q Hi) as (Hq & Hclq & _).
    destruct (enqueue_sound q _ (stamp ev tr now) Hq (abstract_rep q Hq) (Hno i q Hi))
      as [(Hwf & _ & Ecl & Hlive) _].
    destruct (enqueue q (stamp ev tr now)) as [q' [[ok mg] err]]. simpl in *.
    apply (wf_dispatcher_insert d0 _ i q q'); try done.
    intros p x Hp Hx. destruct (Hlive p x Hp Hx) as [Edev|?]; [left|by right].
    by rewrite Edev.
  - unfold run_iteration. destruct (shards d0 !! i) as [q|] eqn:Hi; [|done].
    pose proof Hd as (_ & _ & Hall). destruct (Hall i q Hi) as (Hq & Hclq & _).
    destruct (next_keeps q Hq) as (Hwf & _ & Ecl & _ & Hlive).
    destruct (next q) as [q' r]. simpl in *.
    destruct r; apply (wf_dispatcher_insert d0 _ i q q'); auto.
  - unfold CloseDispatcher. destruct (d_closed d0) eqn:Hcl; [done|].
    destruct Hd as (Hpos & Hmax & Hall). split; [|split]; simpl; [by rewrite length_fmap..|].
    intros i q Hi. rewrite list_lookup_fmap in Hi.
    destruct (shards d0 !! i) as [q0|] eqn:Hi0; simplify_eq/=.
    destruct (Hall i q0 Hi0) as (Hq & _ & Hhome). split_and!; [by apply close_wf|done|].
    intros p x Hp Hx. unfold home. simpl. rewrite length_fmap. by apply (Hhome p x).
Qed.

(** A dispatcher keeps every event of a device in the one shard its identifier
    hashes to, so the order a shard keeps is the order of the device, and no
    worker of a reachable dispatcher ever hits the panic of [next]. *)
Theorem dispatcher_routing c d :
  ShardCount c < 2 ^ 32 -> dreachable c d ->
  (forall i q p x, shards d !! i = Some q -> p ∈ ptrs q -> heap q !! p = Some x ->
     Z.of_nat i = shard (e_DeviceID (event x)) (Z.of_nat (length (shards d)))) /\
  (forall i started finished, (run_iteration d i started finished).2 <> Some NextPanic).
Proof.
  intros Hc Hr. assert (Hd : wf_dispatcher d).
  { induction Hr as [|d d' _ IH Hs]; [|by eapply dstep_wf].
    unfold wf_dispatcher, NewDispatcherWithConfig. simpl. rewrite length_replicate.
    assert (1 <= ShardCount (normalized c) < 2 ^ 32 /\ 1 <= QueueSize (normalized c))
      by (unfold normalized, DefaultShardCount, DefaultQueueSize; simpl;
          destruct (Z.ltb_spec (ShardCount c) 1), (Z.ltb_spec (QueueSize c) 1); lia).
    unfold normalized in *. simpl in *. split; [lia|]. split; [lia|].
    intros i q [-> _]%lookup_replicate. split_and!; [apply new_wf; lia|done|].
    intros p x. unfold ptrs. rewrite !queue_new. simpl. set_solver. }
  destruct Hd as (Hpos & Hmax & Hall). split.
  - intros i q p x Hi Hp Hx. destruct (Hall i q Hi) as (_ & _ & Hhome).
    rewrite <- (Hhome p x Hp Hx). unfold home.
    pose proof (shard_range (e_DeviceID (event x)) (Z.of_nat (length (shards d)))). lia.
  - intros i started finished. unfold run_iteration.
    destruct (shards d !! i) as [q|] eqn:Hi; [|done].
    destruct (Hall i q Hi) as (Hq & _ & _).
    destruct (next_keeps q Hq) as (_ & _ & _ & Hnp & _).
    destruct (next q) as [q' []]; simpl in *; congruence.
Qed.

End theorems.

(** ** Concrete instances *)

Section witnesses.

Definition ex_event (dev : string) (p : Priority) (ck dk : string) (n : Z) : Event Z :=
  MkEvent dev "t" n p ck dk 0.
Definition ex_shard : dispatcherShard Z :=
  let q := (enqueue (newDispatcherShard 3) (ex_event "lamp" PriorityNormal "lamp/power" "" 1)).1 in
  (enqueue q (ex_event "fan" PriorityLow "" "fan/poll" 2)).1.

Lemma ex_shard_wf : wf ex_shard.
Proof.
  unfold ex_shard. apply (enqueue_sound _ (abstract (enqueue (newDispatcherShard 3)
    (ex_event "lamp" PriorityNormal "lamp/power" "" 1)).1)); [|apply abstract_rep|done];
    (apply (enqueue_sound _ (MkSpec ∅ 0 3 false)); [by apply new_wf|apply new_rep|done]).
Qed.

Lemma enqueue_refines_witness :
  exists a', spec_enqueue (abstract ex_shard)
      (with_Priority (ex_event "lamp" PriorityCritical "lamp/power" "" 7) PriorityCritical)
      a' (true, true, None) /\
    rep (enqueue ex_shard (ex_event "lamp" PriorityCritical "lamp/power" "" 7)).1 a'.
Proof.
  apply (enqueue_refines ex_shard (abstract ex_shard)
    (ex_event "lamp" PriorityCritical "lamp/power" "" 7) ex_shard_wf (abstract_rep _ ex_shard_wf)).
  reflexivity.
Defined.

Lemma next_refines_witness :
  exists a', spec_next (abstract ex_shard) a'
      (NextDelivered (ex_event "lamp" PriorityNormal "lamp/power" "" 1)) /\
    rep (next ex_shard).1 a'.
Proof.
  apply (next_refines ex_shard (abstract ex_shard) ex_shard_wf (abstract_rep _ ex_shard_wf)).
Defined.

Lemma drain_fifo_witness :
  length (drain 2 ex_shard).1 = 2%nat /\ pending (drain 2 ex_shard).2 = 0.
Proof.
  destruct (drain_fifo ex_shard (abstract ex_shard) ex_shard_wf (abstract_rep _ ex_shard_wf))
    as (H1 & H2 & _).
  split; [exact H1|exact H2].
Defined.

Definition ex_dispatcher : Dispatcher Z :=
  (Publish (NewDispatcher 2 4) 0 10 11 (ex_event "lamp" PriorityNormal "" "" 5)).1.1.

Lemma dispatcher_routing_witness :
  (run_iteration ex_dispatcher 0 12 13).2 <> Some NextPanic.
Proof.
  apply (dispatcher_routing (MkConfig 2 4) ex_dispatcher).
  - reflexivity.
  - eapply dreachable_step; [apply dreachable_new|]. apply dstep_publish.
    intros [|[|i]] q Hq; vm_compute in Hq; try discriminate; injection Hq as <-; reflexivity.
Defined.

End witnesses.
