(* ===== verification/DeviceModel.v ===== *)
(** * The unified device model: backend/internal/domain/device/device.go

    A device is a tree of endpoints, capabilities and properties; every property
    has a definition (type, limits, control increment) and a typed value.  This
    file holds the data, its validation, and the lookup and update of a property
    by its path.  A nil pointer of a Go struct is [None]; a nil slice and an
    empty one are both [[]]. *)

From S2P Require Import Prelude Float64.

(** ** Constants

    A Go string type with named constants is an inductive with one constructor
    per constant and [...Other s] for every other string [s]. *)

Definition SchemaVersion : Z := 1.

Definition Type_ := string.

Inductive ValueType :=
| ValueTypeBool | ValueTypeInt | ValueTypeNumber | ValueTypeString | ValueTypeEnum
| ValueTypeOther (s : string).

Inductive Availability :=
| AvailabilityOnline | AvailabilityOffline | AvailabilityUnknown
| AvailabilityOther (s : string).

Inductive ParameterLevel :=
| ParameterRequired | ParameterOptional | ParameterCustom
| ParameterOther (s : string).

Inductive RuntimeMode :=
| RuntimeModePending | RuntimeModeLocal | RuntimeModeCloud
| RuntimeModeOther (s : string).

Inductive StateTransport :=
| StateTransportPending | StateTransportLocalMQTT | StateTransportCloudMQTT
| StateTransportCloudHTTP | StateTransportOther (s : string).

Definition LocationMode := string.
Definition LocationModeSource : LocationMode := "source".
Definition LocationModeCustom : LocationMode := "custom".

#[export] Instance ValueType_eq_dec : EqDecision ValueType.
Proof. solve_decision. Defined.
#[export] Instance Availability_eq_dec : EqDecision Availability.
Proof. solve_decision. Defined.
#[export] Instance ParameterLevel_eq_dec : EqDecision ParameterLevel.
Proof. solve_decision. Defined.
#[export] Instance RuntimeMode_eq_dec : EqDecision RuntimeMode.
Proof. solve_decision. Defined.
#[export] Instance StateTransport_eq_dec : EqDecision StateTransport.
Proof. solve_decision. Defined.

(** Equality tests of string types, in linear time. *)
Definition value_type_eqb (a b : ValueType) : bool :=
  match a, b with
  | ValueTypeBool, ValueTypeBool | ValueTypeInt, ValueTypeInt
  | ValueTypeNumber, ValueTypeNumber | ValueTypeString, ValueTypeString
  | ValueTypeEnum, ValueTypeEnum => true
  | ValueTypeOther s, ValueTypeOther t => String.eqb s t
  | _, _ => false
  end.

Definition level_eqb (a b : ParameterLevel) : bool :=
  match a, b with
  | ParameterRequired, ParameterRequired | ParameterOptional, ParameterOptional
  | ParameterCustom, ParameterCustom => true
  | ParameterOther s, ParameterOther t => String.eqb s t
  | _, _ => false
  end.

(** ** Stable identifiers

    [^[a-z0-9](?:[a-z0-9._-]{0,62}[a-z0-9])?$] *)

Definition between (lo hi : N) (c : ascii) : bool :=
  ((lo <=? N_of_ascii c) && (N_of_ascii c <=? hi))%N.
Definition id_alnum (c : ascii) : bool := between 97 122 c || between 48 57 c.
Definition id_char (c : ascii) : bool :=
  id_alnum c || Ascii.eqb c "."%char || Ascii.eqb c "_"%char || Ascii.eqb c "-"%char.

(** [[a-z0-9._-]{0,n}[a-z0-9]$] *)
Fixpoint id_tail (n : nat) (s : string) : bool :=
  match s with
  | EmptyString => false
  | String c s' =>
      (id_alnum c && is_empty s') ||
      match n with
      | O => false
      | S n => id_char c && id_tail n s'
      end
  end.

Definition ValidStableID (value : string) : bool :=
  match value with
  | EmptyString => false
  | String c s => id_alnum c && (is_empty s || id_tail 62 s)
  end.

(** ** Values *)

Record PropertyValue := MkPropertyValue {
  pv_Type : ValueType;
  pv_Bool : option bool;
  pv_Int : option Z;
  pv_Number : option float64;
  pv_String : option string;
}.

Definition BoolValue (value : bool) : PropertyValue :=
  MkPropertyValue ValueTypeBool (Some value) None None None.
Definition IntValue (value : Z) : PropertyValue :=
  MkPropertyValue ValueTypeInt None (Some value) None None.
Definition NumberValue (value : float64) : PropertyValue :=
  MkPropertyValue ValueTypeNumber None None (Some value) None.
Definition StringValue (value : string) : PropertyValue :=
  MkPropertyValue ValueTypeString None None None (Some value).
Definition EnumValue (value : string) : PropertyValue :=
  MkPropertyValue ValueTypeEnum None None None (Some value).

(** [p != nil && q != nil && *p == *q] *)
Definition both {A} (eqb : A -> A -> bool) (p q : option A) : bool :=
  match p, q with
  | Some a, Some b => eqb a b
  | _, _ => false
  end.

Definition Equal (p other : PropertyValue) : bool :=
  if negb (value_type_eqb (pv_Type p) (pv_Type other)) then false
  else
    match pv_Type p with
    | ValueTypeBool => both Bool.eqb (pv_Bool p) (pv_Bool other)
    | ValueTypeInt => both Z.eqb (pv_Int p) (pv_Int other)
    | ValueTypeNumber => both feqb (pv_Number p) (pv_Number other)
    | ValueTypeString | ValueTypeEnum => both String.eqb (pv_String p) (pv_String other)
    | ValueTypeOther _ => false
    end.

Definition present {A} (p : option A) : bool :=
  match p with Some _ => true | None => false end.

(** The number of payloads set. *)
Definition payloads (v : PropertyValue) : Z :=
  let one (b : bool) : Z := if b then 1 else 0 in
  one (present (pv_Bool v)) + one (present (pv_Int v)) +
  one (present (pv_Number v)) + one (present (pv_String v)).

Definition HasSinglePayload (p : PropertyValue) : bool :=
  if negb (payloads p =? 1) then false
  else
    match pv_Type p with
    | ValueTypeBool => present (pv_Bool p)
    | ValueTypeInt => present (pv_Int p)
    | ValueTypeNumber => present (pv_Number p)
    | ValueTypeString | ValueTypeEnum => present (pv_String p)
    | ValueTypeOther _ => false
    end.

(** ** Definitions of properties, capabilities, endpoints and devices *)

Record PropertyDefinition := MkPropertyDefinition {
  pd_ID : string;
  pd_Name : string;
  pd_Type : ValueType;
  pd_ParameterLevel : ParameterLevel;
  pd_Unit : string;
  pd_Readable : bool;
  pd_Writable : bool;
  pd_Notifiable : bool;
  pd_Min : option float64;
  pd_Max : option float64;
  pd_Step : option float64;
  pd_Enum : list string;
  pd_StaleAfterSeconds : Z;
}.

Record Property := MkProperty {
  p_Definition : PropertyDefinition;
  p_Value : PropertyValue;
  p_StateTransport : StateTransport;
}.

Record CommandParameter := MkCommandParameter {
  cp_ID : string;
  cp_Name : string;
  cp_Type : ValueType;
  cp_Required : bool;
}.

Record CommandDefinition := MkCommandDefinition {
  cd_ID : string;
  cd_Name : string;
  cd_Idempotent : bool;
  cd_Parameters : list CommandParameter;
}.

Record EventDefinition := MkEventDefinition {
  ed_ID : string;
  ed_Name : string;
  ed_Payload : ValueType;
}.

Record Capability := MkCapability {
  cap_ID : string;
  cap_Type : string;
  cap_Properties : list Property;
  cap_Commands : list CommandDefinition;
  cap_Events : list EventDefinition;
}.

Record Endpoint := MkEndpoint {
  ep_ID : string;
  ep_Name : string;
  ep_Type : string;
  ep_Capabilities : list Capability;
}.

Record Device := MkDevice {
  d_SchemaVersion : Z;
  d_ID : string;
  d_ProviderID : string;
  d_Name : string;
  d_SourceName : string;
  d_NameOverridden : bool;
  d_Type : Type_;
  d_HomeID : string;
  d_HomeName : string;
  d_RoomID : string;
  d_RoomName : string;
  d_LocationMode : LocationMode;
  d_SourceHomeID : string;
  d_SourceHomeName : string;
  d_SourceRoomID : string;
  d_SourceRoomName : string;
  d_Availability : Availability;
  d_Online : bool;
  d_Sequence : Z;
  d_Disabled : bool;
  d_Removed : bool;
  d_RuntimeMode : RuntimeMode;
  d_StateTransport : StateTransport;
  d_MappingError : string;
  d_Endpoints : list Endpoint;
  d_LastUpdateAt : Time;
}.

Definition with_p_Value (p : Property) (v : PropertyValue) : Property :=
  MkProperty (p_Definition p) v (p_StateTransport p).
Definition with_pd_Level (d : PropertyDefinition) (l : ParameterLevel) : PropertyDefinition :=
  MkPropertyDefinition (pd_ID d) (pd_Name d) (pd_Type d) l (pd_Unit d) (pd_Readable d)
    (pd_Writable d) (pd_Notifiable d) (pd_Min d) (pd_Max d) (pd_Step d) (pd_Enum d)
    (pd_StaleAfterSeconds d).
Definition with_p_Definition (p : Property) (d : PropertyDefinition) : Property :=
  MkProperty d (p_Value p) (p_StateTransport p).
Definition with_Properties (c : Capability) (l : list Property) : Capability :=
  MkCapability (cap_ID c) (cap_Type c) l (cap_Commands c) (cap_Events c).
Definition with_Capabilities (e : Endpoint) (l : list Capability) : Endpoint :=
  MkEndpoint (ep_ID e) (ep_Name e) (ep_Type e) l.

Definition with_Endpoints (d : Device) (l : list Endpoint) : Device :=
  match d with
  | MkDevice v i p n sn no t hi hn ri rn lm shi shn sri srn av on sq di re rm st me _ lu =>
      MkDevice v i p n sn no t hi hn ri rn lm shi shn sri srn av on sq di re rm st me l lu
  end.
Definition with_availability (d : Device) (av : Availability) (on : bool) : Device :=
  match d with
  | MkDevice v i p n sn no t hi hn ri rn lm shi shn sri srn _ _ sq di re rm st me l lu =>
      MkDevice v i p n sn no t hi hn ri rn lm shi shn sri srn av on sq di re rm st me l lu
  end.

(** ** Availability *)

Definition is_online (a : Availability) : bool :=
  match a with AvailabilityOnline => true | _ => false end.

Definition EffectiveAvailability (d : Device) : Availability :=
  match d_Availability d with
  | AvailabilityOnline | AvailabilityOffline | AvailabilityUnknown => d_Availability d
  | AvailabilityOther _ => if d_Online d then AvailabilityOnline else AvailabilityOffline
  end.

Definition IsOnline (d : Device) : bool := is_online (EffectiveAvailability d).

Definition SetAvailability (d : Device) (value : Availability) : Device :=
  with_availability d value (is_online value).

Definition SetOnline (d : Device) (online : bool) : Device :=
  if online then SetAvailability d AvailabilityOnline else SetAvailability d AvailabilityOffline.

Definition NormalizeAvailability (d : Device) : Device :=
  SetAvailability d (EffectiveAvailability d).

(** ** Validation of a property *)

Inductive PropertyError :=
| UnsupportedStateTransport (t : StateTransport)
| UnsupportedParameterLevel (l : ParameterLevel)
| MinimumExceedsMaximum
| StepNotPositive
| EnumOptionsRequired
| IntConstraintNotInteger
| TypeMismatch (value definition : ValueType)
| NotExactlyOnePayload
| PayloadMissing (t : ValueType)
| BelowMinimum (t : ValueType)
| AboveMaximum (t : ValueType)
| NumberNotFinite
| EnumValueNotDeclared
| UnsupportedValueType (t : ValueType)
| StepMismatch (t : ValueType).

(** [t != "" && t != StateTransportPending && ...], negated. *)
Definition transport_ok (t : StateTransport) : bool :=
  match t with
  | StateTransportOther s => is_empty s
  | _ => true
  end.
Definition level_ok (l : ParameterLevel) : bool :=
  match l with
  | ParameterOther s => is_empty s
  | _ => true
  end.

(** [c != nil && test *c] *)
Definition holds {A} (test : A -> bool) (c : option A) : bool :=
  match c with Some a => test a | None => false end.

Definition not_integral (x : float64) : bool := negb (feqb (Trunc x) x).

(** Which of the three constraints the code names depends on the order of a map
    iteration; the error does not carry it here. *)
Definition int_constraints_bad (d : PropertyDefinition) : bool :=
  existsb (holds not_integral) [pd_Min d; pd_Max d; pd_Step d].

Definition min_exceeds_max (d : PropertyDefinition) : bool :=
  match pd_Min d, pd_Max d with
  | Some lo, Some hi => fgtb lo hi
  | _, _ => false
  end.

Definition is_enum_type (t : ValueType) : bool :=
  match t with ValueTypeEnum => true | _ => false end.
Definition is_int_type (t : ValueType) : bool :=
  match t with ValueTypeInt => true | _ => false end.

(** The limits, for a payload converted to [float64]. *)
Definition check_range (t : ValueType) (d : PropertyDefinition) (x : float64)
    : result PropertyError unit :=
  if holds (fun lo => fltb x lo) (pd_Min d) then Err (BelowMinimum t)
  else if holds (fun hi => fgtb x hi) (pd_Max d) then Err (AboveMaximum t)
  else Ok tt.

(** The [switch value.Type] at the end of [Validate]. *)
Definition check_payload (d : PropertyDefinition) (v : PropertyValue) : result PropertyError unit :=
  match pv_Type v with
  | ValueTypeBool =>
      match pv_Bool v with None => Err (PayloadMissing ValueTypeBool) | Some _ => Ok tt end
  | ValueTypeInt =>
      match pv_Int v with
      | None => Err (PayloadMissing ValueTypeInt)
      | Some n => check_range ValueTypeInt d (of_Z n)
      end
  | ValueTypeNumber =>
      match pv_Number v with
      | None => Err (PayloadMissing ValueTypeNumber)
      | Some x =>
          if IsNaN x || IsInf x then Err NumberNotFinite
          else check_range ValueTypeNumber d x
      end
  | ValueTypeString =>
      match pv_String v with None => Err (PayloadMissing ValueTypeString) | Some _ => Ok tt end
  | ValueTypeEnum =>
      match pv_String v with
      | None => Err (PayloadMissing ValueTypeEnum)
      | Some s => if existsb (fun option => String.eqb option s) (pd_Enum d) then Ok tt
                  else Err EnumValueNotDeclared
      end
  | ValueTypeOther _ => Err (UnsupportedValueType (pv_Type v))
  end.

Definition ValidateProperty (p : Property) : result PropertyError unit :=
  let value := p_Value p in
  let d := p_Definition p in
  guard! transport_ok (p_StateTransport p) else UnsupportedStateTransport (p_StateTransport p) in
  guard! level_ok (pd_ParameterLevel d) else UnsupportedParameterLevel (pd_ParameterLevel d) in
  guard! negb (min_exceeds_max d) else MinimumExceedsMaximum in
  guard! negb (holds (fun s => fleb s fzero) (pd_Step d)) else StepNotPositive in
  guard! negb (is_enum_type (pd_Type d) && (length (pd_Enum d) =? 0)%nat)
    else EnumOptionsRequired in
  guard! negb (is_int_type (pd_Type d) && int_constraints_bad d) else IntConstraintNotInteger in
  guard! value_type_eqb (pv_Type value) (pd_Type d)
    else TypeMismatch (pv_Type value) (pd_Type d) in
  guard! (payloads value =? 1) else NotExactlyOnePayload in
  check_payload d value.

Definition numericStepOrigin (minimum : option float64) : float64 :=
  match minimum with None => fzero | Some m => m end.

Definition valueMatchesStep (value origin step : float64) : bool :=
  if fleb step fzero || IsNaN value || IsInf value then false
  else
    let quotient := fdiv (fsub value origin) step in
    fleb (Abs (fsub quotient (Round quotient)))
      (fmul (of_ratio 1 1000000000) (Max fone (Abs quotient))).

Definition ValidateWrite (p : Property) : result PropertyError unit :=
  check! ValidateProperty p in
  let d := p_Definition p in
  match pd_Writable d, pd_Step d with
  | true, Some step =>
      match pd_Type d with
      | ValueTypeInt =>
          if holds (fun n => valueMatchesStep (of_Z n) (numericStepOrigin (pd_Min d)) step)
               (pv_Int (p_Value p))
          then Ok tt else Err (StepMismatch ValueTypeInt)
      | ValueTypeNumber =>
          if holds (fun x => valueMatchesStep x (numericStepOrigin (pd_Min d)) step)
               (pv_Number (p_Value p))
          then Ok tt else Err (StepMismatch ValueTypeNumber)
      | _ => Ok tt
      end
  | _, _ => Ok tt
  end.

(** ** Validation of a device *)

Inductive DeviceError :=
| UnsupportedSchemaVersion (v : Z)
| InvalidDeviceOrProviderID
| InvalidAvailability (a : Availability)
| OnlineConflictsWithAvailability
| InvalidRuntimeMode (m : RuntimeMode)
| InvalidStateTransport (t : StateTransport)
| DisabledOrRemovedOnline
| InvalidID (kind id : string)
| DuplicateID (kind id : string)
| InvalidProperty (id : string) (e : PropertyError)
| UnsupportedCommandParameterType (t : ValueType)
| UnsupportedEventPayloadType (t : ValueType).

(** A loop that threads a state and returns at the first error. *)
Fixpoint each {E S A} (f : S -> A -> result E S) (s : S) (l : list A) : result E S :=
  match l with
  | [] => Ok s
  | x :: l => let! s' := f s x in each f s' l
  end.

Definition claimStableID (seen : gset string) (id kind : string) : result DeviceError (gset string) :=
  guard! ValidStableID id else InvalidID kind id in
  guard! negb (bool_decide (id ∈ seen)) else DuplicateID kind id in
  Ok ({[id]} ∪ seen).

Definition validValueType (value : ValueType) : bool :=
  match value with ValueTypeOther _ => false | _ => true end.

Definition lift_property {A} (id : string) (r : result PropertyError A) : result DeviceError A :=
  match r with Ok a => Ok a | Err e => Err (InvalidProperty id e) end.

Definition validate_property_in (seen : gset string) (p : Property)
    : result DeviceError (gset string) :=
  let! seen' := claimStableID seen (pd_ID (p_Definition p)) "property" in
  check! lift_property (pd_ID (p_Definition p)) (ValidateProperty p) in
  Ok seen'.

Definition validate_parameter_in (seen : gset string) (p : CommandParameter)
    : result DeviceError (gset string) :=
  let! seen' := claimStableID seen (cp_ID p) "command parameter" in
  guard! validValueType (cp_Type p) else UnsupportedCommandParameterType (cp_Type p) in
  Ok seen'.

Definition validate_command_in (seen : gset string) (c : CommandDefinition)
    : result DeviceError (gset string) :=
  let! seen' := claimStableID seen (cd_ID c) "command" in
  check! each validate_parameter_in ∅ (cd_Parameters c) in
  Ok seen'.

Definition validate_event_in (seen : gset string) (e : EventDefinition)
    : result DeviceError (gset string) :=
  let! seen' := claimStableID seen (ed_ID e) "event" in
  guard! validValueType (ed_Payload e) else UnsupportedEventPayloadType (ed_Payload e) in
  Ok seen'.

Definition validate_capability_in (seen : gset string) (c : Capability)
    : result DeviceError (gset string) :=
  let! seen' := claimStableID seen (cap_ID c) "capability" in
  check! each validate_property_in ∅ (cap_Properties c) in
  let! definitions := each validate_command_in ∅ (cap_Commands c) in
  check! each validate_event_in definitions (cap_Events c) in
  Ok seen'.

Definition validate_endpoint_in (seen : gset string) (e : Endpoint)
    : result DeviceError (gset string) :=
  let! seen' := claimStableID seen (ep_ID e) "endpoint" in
  check! each validate_capability_in ∅ (ep_Capabilities e) in
  Ok seen'.

(** [availability = ""] or one of the constants; and with a constant the flag
    [Online] agrees with it. *)
Definition availability_known (a : Availability) : bool :=
  match a with AvailabilityOther s => is_empty s | _ => true end.
Definition availability_given (a : Availability) : bool :=
  match a with AvailabilityOther s => negb (is_empty s) | _ => true end.
Definition runtime_mode_ok (m : RuntimeMode) : bool :=
  match m with RuntimeModeOther s => is_empty s | _ => true end.

Definition ValidateStructure (d : Device) : result DeviceError unit :=
  guard! (d_SchemaVersion d =? SchemaVersion) else UnsupportedSchemaVersion (d_SchemaVersion d) in
  guard! negb (negb (ValidStableID (d_ID d)) || negb (ValidStableID (d_ProviderID d)))
    else InvalidDeviceOrProviderID in
  guard! availability_known (d_Availability d) else InvalidAvailability (d_Availability d) in
  guard! negb (availability_given (d_Availability d)
               && negb (Bool.eqb (d_Online d) (is_online (d_Availability d))))
    else OnlineConflictsWithAvailability in
  guard! runtime_mode_ok (d_RuntimeMode d) else InvalidRuntimeMode (d_RuntimeMode d) in
  guard! transport_ok (d_StateTransport d) else InvalidStateTransport (d_StateTransport d) in
  guard! negb ((d_Disabled d || d_Removed d) && IsOnline d) else DisabledOrRemovedOnline in
  check! each validate_endpoint_in ∅ (d_Endpoints d) in
  Ok tt.

(** ** Lookup and update by path *)

(** The first result a loop with [return] finds. *)
Fixpoint first {A B} (f : A -> option B) (l : list A) : option B :=
  match l with
  | [] => None
  | x :: l => match f x with Some b => Some b | None => first f l end
  end.

(** A loop over [&l[i]] that updates the first element [f] accepts and returns. *)
Fixpoint update_first {A} (f : A -> option A) (l : list A) : option (list A) :=
  match l with
  | [] => None
  | x :: l =>
      match f x with
      | Some x' => Some (x' :: l)
      | None => cons x <$> update_first f l
      end
  end.

Definition property_in (propertyID : string) (l : list Property) : option Property :=
  first (fun p => if String.eqb (pd_ID (p_Definition p)) propertyID then Some p else None) l.
Definition capability_property (capabilityID propertyID : string) (l : list Capability)
    : option Property :=
  first (fun c => if String.eqb (cap_ID c) capabilityID
                  then property_in propertyID (cap_Properties c) else None) l.

Definition PropertyAt (d : Device) (endpointID capabilityID propertyID : string)
    : option Property :=
  first (fun e => if String.eqb (ep_ID e) endpointID
                  then capability_property capabilityID propertyID (ep_Capabilities e)
                  else None) (d_Endpoints d).

Definition set_property_in (propertyID : string) (value : PropertyValue) (l : list Property)
    : option (list Property) :=
  update_first (fun p => if String.eqb (pd_ID (p_Definition p)) propertyID
                         then Some (with_p_Value p value) else None) l.
Definition set_in_capabilities (capabilityID propertyID : string) (value : PropertyValue)
    (l : list Capability) : option (list Capability) :=
  update_first (fun c => if String.eqb (cap_ID c) capabilityID
                         then with_Properties c <$> set_property_in propertyID value (cap_Properties c)
                         else None) l.

(** The device afterwards and whether a property was found. *)
Definition SetProperty (d : Device) (endpointID capabilityID propertyID : string)
    (value : PropertyValue) : Device * bool :=
  match update_first (fun e => if String.eqb (ep_ID e) endpointID
                               then with_Capabilities e <$>
                                      set_in_capabilities capabilityID propertyID value
                                        (ep_Capabilities e)
                               else None) (d_Endpoints d) with
  | Some endpoints => (with_Endpoints d endpoints, true)
  | None => (d, false)
  end.

(** ** Specifications *)

(** The language of [stableIDPattern]. *)
Definition stable_id (s : string) : Prop :=
  let cs := String.list_ascii_of_string s in
  (1 <= length cs <= 64)%nat /\
  Forall (fun c => id_char c = true) cs /\
  (exists c, head cs = Some c /\ id_alnum c = true) /\
  (exists c, last cs = Some c /\ id_alnum c = true).

Definition in_limits (d : PropertyDefinition) (x : float64) : Prop :=
  (forall lo, pd_Min d = Some lo -> fltb x lo = false) /\
  (forall hi, pd_Max d = Some hi -> fltb hi x = false).

(** The values a definition admits. *)
Inductive admits (d : PropertyDefinition) : PropertyValue -> Prop :=
| admits_bool b : pd_Type d = ValueTypeBool -> admits d (BoolValue b)
| admits_int n : pd_Type d = ValueTypeInt -> in_limits d (of_Z n) -> admits d (IntValue n)
| admits_number x : pd_Type d = ValueTypeNumber -> finite x = true -> in_limits d x ->
    admits d (NumberValue x)
| admits_string s : pd_Type d = ValueTypeString -> admits d (StringValue s)
| admits_enum s : pd_Type d = ValueTypeEnum -> s ∈ pd_Enum d -> admits d (EnumValue s).

Record definition_ok (d : PropertyDefinition) : Prop := {
  do_level : level_ok (pd_ParameterLevel d) = true;
  do_range lo hi : pd_Min d = Some lo -> pd_Max d = Some hi -> fltb hi lo = false;
  do_step s : pd_Step d = Some s -> fleb s fzero = false;
  do_integral x : pd_Type d = ValueTypeInt -> pd_Min d = Some x \/ pd_Max d = Some x \/
    pd_Step d = Some x -> feqb (Trunc x) x = true;
}.

(** [l] carries distinct valid identifiers and each element satisfies [P]. *)
Definition claims {A} (id : A -> string) (P : A -> Prop) (l : list A) : Prop :=
  NoDup (id <$> l) /\ Forall (fun x => ValidStableID (id x) = true /\ P x) l.

Definition parameter_ok (p : CommandParameter) : Prop := validValueType (cp_Type p) = true.
Definition command_ok (c : CommandDefinition) : Prop := claims cp_ID parameter_ok (cd_Parameters c).
Definition event_ok (e : EventDefinition) : Prop := validValueType (ed_Payload e) = true.
Definition property_ok (p : Property) : Prop :=
  transport_ok (p_StateTransport p) = true /\ definition_ok (p_Definition p) /\
  admits (p_Definition p) (p_Value p).
Definition capability_ok (c : Capability) : Prop :=
  claims (fun p => pd_ID (p_Definition p)) property_ok (cap_Properties c) /\
  claims cd_ID command_ok (cap_Commands c) /\
  claims ed_ID event_ok (cap_Events c) /\
  (cd_ID <$> cap_Commands c) ## (ed_ID <$> cap_Events c).
Definition endpoint_ok (e : Endpoint) : Prop := claims cap_ID capability_ok (ep_Capabilities e).

Record structure_ok (d : Device) : Prop := {
  so_schema : d_SchemaVersion d = SchemaVersion;
  so_id : ValidStableID (d_ID d) = true;
  so_provider : ValidStableID (d_ProviderID d) = true;
  so_availability : d_Availability d = AvailabilityOther "" \/
    match d_Availability d with AvailabilityOther _ => False | a => d_Online d = is_online a end;
  so_mode : runtime_mode_ok (d_RuntimeMode d) = true;
  so_transport : transport_ok (d_StateTransport d) = true;
  so_live : d_Disabled d || d_Removed d = true -> IsOnline d = false;
  so_endpoints : claims ep_ID endpoint_ok (d_Endpoints d);
}.

(** ** Identifiers *)

Lemma id_alnum_char c : id_alnum c = true -> id_char c = true.
Proof. unfold id_char. by intros ->. Qed.

Lemma id_tail_spec n s :
  id_tail n s = true <->
  let cs := String.list_ascii_of_string s in
  (1 <= length cs <= S n)%nat /\ Forall (fun c => id_char c = true) cs /\
  exists c, last cs = Some c /\ id_alnum c = true.
Proof.
  revert s. induction n as [|n IH]; intros [|c s]; cbn -[id_char id_alnum].
  - split; [done|]. intros (? & _). lia.
  - rewrite orb_false_r, andb_true_iff, is_empty_true. split.
    + intros [Hc ->]. simpl. split_and!; [lia|lia| |by exists c]. constructor; [|done].
      by apply id_alnum_char.
    + destruct s; simpl; [|lia]. intros (_ & _ & c' & [= ->] & ?). done.
  - split; [done|]. intros (? & _). lia.
  - rewrite orb_true_iff, !andb_true_iff, is_empty_true, IH. split.
    + intros [[Hc ->]|[Hc (Hl & Hf & l & Hlast & Hl')]]; cbn -[id_char id_alnum].
      * split_and!; [lia|lia| |by exists c]. constructor; [|done]. by apply id_alnum_char.
      * split_and!; [lia|lia|by constructor|]. exists l. split; [|done].
        destruct (String.list_ascii_of_string s) eqn:E; [done|]. by rewrite last_cons_cons.
    + intros (Hl & Hf & l & Hlast & Hl'). apply Forall_cons in Hf as [Hc Hf].
      destruct s as [|c' s]; [left; by simplify_eq/=|right].
      split; [done|]. cbn [String.list_ascii_of_string length] in *.
      rewrite last_cons_cons in Hlast. split_and!; [lia|lia|done|by exists l].
Qed.

(** The identifiers accepted are exactly the words of the pattern: one to 64
    bytes of [a-z], [0-9], [.], [_] and [-], starting and ending with a letter or
    a digit. *)
Theorem valid_stable_id_spec s : ValidStableID s = true <-> stable_id s.
Proof.
  unfold stable_id. destruct s as [|c s]; cbn -[id_char id_alnum id_tail].
  { split; [done|]. intros (? & _). lia. }
  rewrite andb_true_iff, orb_true_iff, is_empty_true, id_tail_spec. split.
  - intros [Hc [->|(Hl & Hf & l & Hlast & Hl')]]; cbn -[id_char id_alnum].
    + split_and!; [lia|lia|constructor; [by apply id_alnum_char|done]|by exists c|by exists c].
    + split_and!; [lia|lia|constructor; [by apply id_alnum_char|done]|by exists c|].
      exists l. split; [|done].
      destruct (String.list_ascii_of_string s) eqn:E; [done|]. by rewrite last_cons_cons.
  - intros (Hl & Hf & (? & [= <-] & Hc) & l & Hlast & Hl'). split; [done|].
    apply Forall_cons in Hf as [_ Hf]. destruct s as [|c' s]; [by left|right].
    cbn [String.list_ascii_of_string length] in *.
    rewrite last_cons_cons in Hlast. split_and!; [lia|lia|done|by exists l].
Qed.

(** ** Loops that claim identifiers *)

Lemma claimStableID_ok seen id kind s :
  claimStableID seen id kind = Ok s <->
  ValidStableID id = true /\ (id ∉ seen) /\ s = {[id]} ∪ seen.
Proof.
  unfold claimStableID. destruct (ValidStableID id); [|intuition discriminate].
  case_bool_decide; simpl; [intuition discriminate|].
  split; [by intros [= <-]|by intros (_ & _ & ->)].
Qed.

(** [f] claims the identifier of its element and checks [P]. *)
Definition claimer {A} (id : A -> string) (P : A -> Prop)
    (f : gset string -> A -> result DeviceError (gset string)) : Prop :=
  forall seen x s, f seen x = Ok s <->
    (ValidStableID (id x) = true /\ P x) /\ (id x ∉ seen) /\ s = {[id x]} ∪ seen.

Lemma claimer_intro {A B} (id : A -> string) (P : A -> Prop) f (check : A -> result DeviceError B)
    kind :
  (forall seen x,
     f seen x = (let! s := claimStableID seen (id x) kind in check! check x in Ok s)) ->
  (forall x, (exists b, check x = Ok b) <-> P x) -> claimer id P f.
Proof.
  intros Hf HP seen x s. rewrite Hf, <- HP. split.
  - destruct (claimStableID seen (id x) kind) as [s'|] eqn:E; [|done].
    apply claimStableID_ok in E as (Hv & Hn & ->).
    destruct (check x) as [b|]; [|done]. intros [= <-]. eauto.
  - intros ((Hv & b & ->) & Hn & ->).
    by rewrite (proj2 (claimStableID_ok seen (id x) kind _) (conj Hv (conj Hn eq_refl))).
Qed.

Lemma each_claims_seen {A} (id : A -> string) P f : claimer id P f ->
  forall l seen s, each f seen l = Ok s <->
  claims id P l /\ (forall x, x ∈ id <$> l -> x ∉ seen) /\
  s = list_to_set (id <$> l) ∪ seen.
Proof.
  intros Hf l. unfold claims. induction l as [|x l IH]; intros seen s; simpl.
  { split; [intros [= <-]|intros (_ & _ & ->); f_equal; set_solver].
    split_and!; [constructor|constructor|set_solver|set_solver]. }
  rewrite NoDup_cons, Forall_cons. split.
  - destruct (f seen x) as [s'|] eqn:E; [|done].
    apply (Hf seen x s') in E as (HP & Hn & ->). rewrite IH.
    intros ((Hnd & HF) & Hseen & ->). split_and!; try done; [set_solver..|].
    apply set_eq. set_solver.
  - intros (((Hn & Hnd) & HP & HF) & Hseen & ->).
    rewrite (proj2 (Hf seen x _) (conj HP (conj (Hseen (id x) (list_elem_of_here _ _)) eq_refl))).
    apply IH. split_and!; [done..|set_solver|apply set_eq; set_solver].
Qed.

Lemma each_claims {A} (id : A -> string) P f : claimer id P f ->
  forall l, (exists s, each f ∅ l = Ok s) <-> claims id P l.
Proof.
  intros Hf l. split.
  - intros [s Hs]. by apply (each_claims_seen id P f Hf) in Hs as (? & _).
  - intros Hl. eexists. apply (each_claims_seen id P f Hf). split; [done|].
    split; [set_solver|done].
Qed.

Lemma guard_ok {E} (b : bool) (e : E) :
  (exists u : unit, (guard! b else e in (Ok tt)) = Ok u) <-> b = true.
Proof. destruct b; split; try done; [by exists tt|by intros []]. Qed.

Lemma claimer_parameter : claimer cp_ID parameter_ok validate_parameter_in.
Proof.
  apply claimer_intro with (kind := "command parameter")
    (check := fun p => guard! validValueType (cp_Type p)
                       else UnsupportedCommandParameterType (cp_Type p) in Ok tt).
  - intros seen x. unfold validate_parameter_in.
    destruct (claimStableID _ _ _); [|done]. by destruct (validValueType _).
  - intros x. apply guard_ok.
Qed.

Lemma claimer_command : claimer cd_ID command_ok validate_command_in.
Proof.
  eapply claimer_intro; [done|]. intros x. apply (each_claims _ _ _ claimer_parameter).
Qed.

Lemma claimer_event : claimer ed_ID event_ok validate_event_in.
Proof.
  apply claimer_intro with (kind := "event")
    (check := fun e => guard! validValueType (ed_Payload e)
                       else UnsupportedEventPayloadType (ed_Payload e) in Ok tt).
  - intros seen x. unfold validate_event_in.
    destruct (claimStableID _ _ _); [|done]. by destruct (validValueType _).
  - intros x. apply guard_ok.
Qed.

(** ** Validation *)

Lemma value_type_eqb_eq a b : value_type_eqb a b = true <-> a = b.
Proof.
  destruct a, b; simpl; try (split; congruence).
  rewrite String.eqb_eq. split; congruence.
Qed.

Lemma guard_then {E A} (b : bool) (e : E) (k : result E A) u :
  (guard! b else e in k) = Ok u <-> b = true /\ k = Ok u.
Proof. destruct b; intuition congruence. Qed.

Lemma check_range_ok t d x u : check_range t d x = Ok u <-> in_limits d x.
Proof.
  unfold check_range, in_limits, holds, fgtb. destruct u.
  destruct (pd_Min d) as [lo|], (pd_Max d) as [hi|]; repeat go_case; split; try done;
    (intros [H1 H2] || intros _);
    repeat match goal with
    | H : forall x, Some ?a = Some x -> _ |- _ => specialize (H a eq_refl)
    end; try congruence; split; intros; simplify_eq; done.
Qed.

(** One payload, of the declared type. *)
Lemma one_payload v : payloads v = 1 ->
  match v with
  | MkPropertyValue _ (Some _) None None None | MkPropertyValue _ None (Some _) None None
  | MkPropertyValue _ None None (Some _) None | MkPropertyValue _ None None None (Some _) => True
  | _ => False
  end.
Proof. destruct v as [t [] [] [] []]; unfold payloads; simpl; lia. Qed.

Lemma existsb_eqb s l : existsb (fun o => String.eqb o s) l = true <-> s ∈ l.
Proof.
  rewrite existsb_exists. split.
  - intros (x & Hx & ->%String.eqb_eq). by apply list_elem_of_In.
  - intros Hs. exists s. split; [by apply list_elem_of_In|by apply String.eqb_eq].
Qed.

Lemma check_payload_ok d v u :
  pv_Type v = pd_Type d /\ payloads v = 1 /\ check_payload d v = Ok u <-> admits d v.
Proof.
  destruct u. split.
  - intros (Ht & Hp & Hc). apply one_payload in Hp. unfold check_payload in Hc.
    destruct v as [t b n x s]. simpl in *.
    destruct t, b, n, x, s; try done; rewrite <- ?Ht in *; simplify_eq.
    + by apply (admits_bool d).
    + apply check_range_ok in Hc. by apply (admits_int d).
    + destruct (IsNaN f || IsInf f) eqn:Hf; [done|]. apply check_range_ok in Hc.
      apply (admits_number d); [done| |done]. unfold finite. by rewrite <- negb_orb, Hf.
    + by apply (admits_string d).
    + destruct (existsb _ _) eqn:He; [|done]. apply existsb_eqb in He. by apply (admits_enum d).
  - intros [b Ht|n Ht Hl|x Ht Hf Hl|s Ht|s Ht He]; split_and!; try done;
      unfold check_payload; simpl; try done.
    + by apply check_range_ok.
    + unfold finite in Hf. rewrite <- negb_orb in Hf. apply negb_true_iff in Hf as ->.
      by apply check_range_ok.
    + by rewrite (proj2 (existsb_eqb s (pd_Enum d)) He).
Qed.

Lemma holds_false {A} (f : A -> bool) c :
  negb (holds f c) = true <-> forall a, c = Some a -> f a = false.
Proof.
  destruct c as [a|]; simpl; [|by split].
  rewrite negb_true_iff. split; [by intros ? ? [= <-]|by intros H; apply H].
Qed.

Lemma range_ok d :
  negb (min_exceeds_max d) = true <->
  forall lo hi, pd_Min d = Some lo -> pd_Max d = Some hi -> fltb hi lo = false.
Proof.
  unfold min_exceeds_max, fgtb. destruct (pd_Min d) as [lo|], (pd_Max d) as [hi|];
    try by split.
  rewrite negb_true_iff. split; [by intros ? ? ? [= <-] [= <-]|by intros H; apply H].
Qed.

Lemma integral_ok d :
  negb (is_int_type (pd_Type d) && int_constraints_bad d) = true <->
  forall x, pd_Type d = ValueTypeInt -> pd_Min d = Some x \/ pd_Max d = Some x \/
    pd_Step d = Some x -> feqb (Trunc x) x = true.
Proof.
  destruct (is_int_type (pd_Type d)) eqn:Ht; simpl.
  - assert (pd_Type d = ValueTypeInt) as Ht' by by destruct (pd_Type d).
    unfold int_constraints_bad. simpl. rewrite orb_false_r, !negb_orb, !andb_true_iff, !holds_false.
    unfold not_integral. split.
    + intros (H1 & H2 & H3) x _ [?|[?|?]]; apply negb_false_iff; auto.
    + intros H. split_and!; intros a ?; apply negb_false_iff; auto.
  - split; [|done]. intros _ x Ht'. by rewrite Ht' in Ht.
Qed.

Lemma validate_property_ok p u : ValidateProperty p = Ok u <-> property_ok p.
Proof.
  destruct u. unfold ValidateProperty, property_ok. cbv zeta. rewrite !guard_then.
  rewrite range_ok, holds_false, integral_ok, value_type_eqb_eq, Z.eqb_eq.
  rewrite <- (check_payload_ok _ _ tt). split.
  - intros (? & ? & ? & ? & ? & ? & ? & ? & ?). split_and!; done.
  - intros (? & [] & Ht & Hp & Hc). split_and!; try done.
    destruct (is_enum_type (pd_Type (p_Definition p))) eqn:He; [|done]. simpl.
    apply negb_true_iff, Nat.eqb_neq. intros Hl. apply nil_length_inv in Hl.
    unfold check_payload in Hc. rewrite Ht in Hc.
    destruct (pd_Type (p_Definition p)); try done.
    rewrite Hl in Hc. by destruct (pv_String (p_Value p)).
Qed.

Lemma claimer_property : claimer (fun p => pd_ID (p_Definition p)) property_ok validate_property_in.
Proof.
  eapply claimer_intro; [done|]. intros p. unfold lift_property.
  destruct (ValidateProperty p) as [[]|e] eqn:E.
  - apply validate_property_ok in E. split; [done|by exists tt].
  - split; [by intros []|]. intros Hp%(validate_property_ok p tt). congruence.
Qed.

Lemma claimer_capability : claimer cap_ID capability_ok validate_capability_in.
Proof.
  apply claimer_intro with (kind := "capability") (check := fun c =>
    check! each validate_property_in ∅ (cap_Properties c) in
    let! definitions := each validate_command_in ∅ (cap_Commands c) in
    each validate_event_in definitions (cap_Events c)).
  - intros seen c. unfold validate_capability_in. destruct (claimStableID _ _ _); [|done].
    destruct (each _ _ (cap_Properties c)); [|done]. by destruct (each _ _ (cap_Commands c)).
  - intros c. unfold capability_ok. split.
    + intros [b Hb]. destruct (each _ _ (cap_Properties c)) eqn:E1; [|done].
      destruct (each _ _ (cap_Commands c)) eqn:E2; [|done].
      apply (each_claims_seen _ _ _ claimer_property) in E1 as (H1 & _).
      apply (each_claims_seen _ _ _ claimer_command) in E2 as (H2 & _ & ->).
      apply (each_claims_seen _ _ _ claimer_event) in Hb as (H3 & H4 & _).
      split_and!; try done. intros x. set_solver.
    + intros (H1 & H2 & H3 & H4).
      destruct (proj2 (each_claims _ _ _ claimer_property _) H1) as [s1 ->].
      destruct (proj2 (each_claims _ _ _ claimer_command _) H2) as [s2 E2]. rewrite E2.
      apply (each_claims_seen _ _ _ claimer_command) in E2 as (_ & _ & ->).
      eexists. apply (each_claims_seen _ _ _ claimer_event). split_and!; [done| |done].
      intros x Hx. set_solver.
Qed.

Lemma claimer_endpoint : claimer ep_ID endpoint_ok validate_endpoint_in.
Proof.
  eapply claimer_intro; [done|]. intros e. apply (each_claims _ _ _ claimer_capability).
Qed.

Lemma validate_structure_ok d : ValidateStructure d = Ok tt <-> structure_ok d.
Proof.
  unfold ValidateStructure. rewrite !guard_then, Z.eqb_eq, !negb_true_iff, orb_false_iff,
    !negb_false_iff.
  assert (E : (check! each validate_endpoint_in ∅ (d_Endpoints d) in @Ok DeviceError _ tt) = Ok tt
    <-> claims ep_ID endpoint_ok (d_Endpoints d)).
  { rewrite <- (each_claims _ _ _ claimer_endpoint). destruct (each _ _ _) as [s|];
      split; intros H; try done; [by exists s|by destruct H]. }
  rewrite E.
  assert (A : availability_known (d_Availability d) = true /\
    availability_given (d_Availability d) && negb (Bool.eqb (d_Online d) (is_online (d_Availability d))) = false
    <-> d_Availability d = AvailabilityOther "" \/
      match d_Availability d with AvailabilityOther _ => False | a => d_Online d = is_online a end).
  { destruct (d_Availability d) as [| | |[]], (d_Online d); simpl; naive_solver. }
  split.
  - intros (? & [? ?] & Hk & Hg & ? & ? & Hl & ?). constructor; try done; [by apply A|].
    intros Hd. by rewrite Hd in Hl.
  - intros [? ? ? HA ? ? HL ?]. apply A in HA as [? ?]. split_and!; try done.
    destruct (d_Disabled d || d_Removed d); [simpl; auto|done].
Qed.

(** Structural validation accepts exactly the well-formed devices: supported
    schema, stable identifiers, an availability its compatibility flag agrees
    with, distinct identifiers at every level, and every property with a
    coherent definition and one payload of its type within its limits. *)
Theorem validate_structure_spec d : ValidateStructure d = Ok tt <-> structure_ok d.
Proof. apply validate_structure_ok. Qed.

(** ** Lookup and update *)

Lemma first_elem {A B} (f : A -> option B) l b : first f l = Some b -> exists a, a ∈ l /\ f a = Some b.
Proof.
  induction l as [|x l IH]; simpl; [done|]. destruct (f x) eqn:E.
  - intros [= ->]. exists x. split; [left|done].
  - intros (y & ? & ?)%IH. exists y. split; [by right|done].
Qed.

(** [u] updates what [f] finds by [h] and leaves the lookups [G] alone. *)
Definition updates {A B} (f : A -> option B) (u : A -> option A) (h : B -> B)
    (G : (A -> option B) -> Prop) (x : A) : Prop :=
  match f x with
  | None => u x = None
  | Some b => exists x', u x = Some x' /\ f x' = Some (h b) /\ forall g, G g -> g x' = g x
  end.

Lemma update_first_spec {A B} (f : A -> option B) u h G l :
  (forall x, updates f u h G x) ->
  match first f l with
  | None => update_first u l = None
  | Some b => exists l', update_first u l = Some l' /\ first f l' = Some (h b) /\
      forall g, G g -> first g l' = first g l
  end.
Proof.
  intros Hu. induction l as [|x l IH]; simpl; [done|]. specialize (Hu x). unfold updates in Hu.
  destruct (f x) as [b|] eqn:Hf.
  - destruct Hu as (x' & -> & Hx' & Hg). exists (x' :: l). simpl. rewrite Hx'.
    split_and!; try done. intros g HG. by rewrite (Hg g HG).
  - rewrite Hu. destruct (first f l) as [b|]; [|by rewrite IH].
    destruct IH as (l' & -> & Hl' & Hg). exists (x :: l'). simpl. rewrite Hf.
    split_and!; try done. intros g HG. by rewrite (Hg g HG).
Qed.

(** An update of the first match keeps distinct identifiers and the checks. *)
Lemma update_first_claims {A B} (id : A -> string) P (f : A -> option B) u b l l' :
  (forall x, f x = None -> u x = None) ->
  (forall x, f x = Some b -> exists x', u x = Some x' /\ id x' = id x /\ (P x -> P x')) ->
  first f l = Some b -> update_first u l = Some l' ->
  id <$> l' = id <$> l /\ (claims id P l -> claims id P l').
Proof.
  intros Hn Hs. unfold claims. revert l'.
  induction l as [|x l IH]; [done|]. intros l' Hf Hu. cbn [first update_first] in *.
  destruct (f x) as [b'|] eqn:Hfx.
  - injection Hf as ->. destruct (Hs x Hfx) as (x' & Hux & Hid & HP). rewrite Hux in Hu.
    injection Hu as <-. rewrite !fmap_cons, Hid. split; [done|].
    intros [Hnd [[Hv Hx] HF]%Forall_cons]. split; [done|]. constructor; [|done].
    rewrite Hid. auto.
  - rewrite (Hn x Hfx) in Hu. destruct (update_first u l) as [l0|]; [|done].
    injection Hu as <-. destruct (IH l0 Hf eq_refl) as [Hid IH'].
    rewrite !fmap_cons, Hid. split; [done|]. intros [Hnd [Hx HF]%Forall_cons].
    split; [done|]. constructor; [done|]. apply IH'. by apply NoDup_cons in Hnd as [].
Qed.

(** Looking up under an identifier: [f] on the elements that carry it. *)
Definition under {A B} (id : A -> string) (i : string) (f : A -> option B) (x : A) : option B :=
  if String.eqb (id x) i then f x else None.

(** Updating under an identifier leaves the lookups under another one alone, and
    under the same one those the inner update leaves alone. *)
Lemma update_under {A B C} (id : A -> string) i (f : A -> option B) (u : A -> option A) h
    (G : C -> Prop) (look : string -> C -> A -> option B) l :
  (forall x x', u x = Some x' -> id x' = id x) ->
  (forall x, match f x with
             | None => u x = None
             | Some b => exists x', u x = Some x' /\ f x' = Some (h b) /\
                 forall c, G c -> look i c x' = look i c x
             end) ->
  match first (under id i f) l with
  | None => update_first (under id i u) l = None
  | Some b => exists l', update_first (under id i u) l = Some l' /\
      first (under id i f) l' = Some (h b) /\
      forall i' c, i' <> i \/ G c ->
        first (under id i' (look i' c)) l' = first (under id i' (look i' c)) l
  end.
Proof.
  intros Hid Hu.
  pose proof (update_first_spec (under id i f) (under id i u) h
    (fun g => exists i' c, (i' <> i \/ G c) /\ g = under id i' (look i' c)) l) as H.
  destruct (first (under id i f) l) as [b|]; [destruct H as (l' & ? & ? & Hg)|apply H].
  2: exists l'; split_and!; eauto.
  all: intros x; specialize (Hu x); specialize (Hid x); unfold updates, under in *;
    destruct (String.eqb_spec (id x) i) as [E|E]; [|done];
    destruct (f x) as [b0|]; [|done]; destruct Hu as (x' & Hux & Hfx & Hlook);
    exists x'; rewrite (Hid x' Hux), E, String.eqb_refl;
    (split_and!; [done..|]); intros g (i' & c & HG & ->); rewrite (Hid x' Hux), E;
    destruct (String.eqb_spec i i') as [<-|]; [|done]; apply Hlook; by destruct HG.
Qed.

Lemma property_in_under pid l :
  property_in pid l = first (under (fun p => pd_ID (p_Definition p)) pid Some) l.
Proof. done. Qed.

Lemma set_property_in_spec pid v l :
  match property_in pid l with
  | None => set_property_in pid v l = None
  | Some x => exists l', set_property_in pid v l = Some l' /\
      property_in pid l' = Some (with_p_Value x v) /\
      forall pid', pid' <> pid -> property_in pid' l' = property_in pid' l
  end.
Proof.
  pose proof (update_under (C := unit) (fun p => pd_ID (p_Definition p)) pid Some
    (fun p => Some (with_p_Value p v)) (fun p => with_p_Value p v) (fun _ => False)
    (fun _ _ => Some) l) as H.
  change (property_in pid l) with (first (under (fun p => pd_ID (p_Definition p)) pid Some) l).
  destruct (first _ l) as [x|]; [|apply H; [by intros x x' [= <-]|]].
  - destruct H as (l' & H1 & H2 & H3); [by intros y y' [= <-]|intros y; by eexists|].
    exists l'. split_and!; try done. intros pid' Hne. apply (H3 pid' tt). by left.
  - intros x. by eexists.
Qed.

Lemma set_in_capabilities_spec cid pid v l :
  match capability_property cid pid l with
  | None => set_in_capabilities cid pid v l = None
  | Some x => exists l', set_in_capabilities cid pid v l = Some l' /\
      capability_property cid pid l' = Some (with_p_Value x v) /\
      forall cid' pid', cid' <> cid \/ pid' <> pid ->
        capability_property cid' pid' l' = capability_property cid' pid' l
  end.
Proof.
  apply (update_under cap_ID cid (fun c => property_in pid (cap_Properties c))
    (fun c => with_Properties c <$> set_property_in pid v (cap_Properties c))
    (fun x => with_p_Value x v) (fun pid' => pid' <> pid)
    (fun _ pid' c => property_in pid' (cap_Properties c)) l).
  - intros x x'. by destruct (set_property_in _ _ _); intros [= <-].
  - intros c. pose proof (set_property_in_spec pid v (cap_Properties c)) as H.
    destruct (property_in pid (cap_Properties c)) as [x|]; [|by rewrite H].
    destruct H as (l' & -> & H1 & H2). eexists. split; [done|]. by split.
Qed.

Lemma PropertyAt_under d e c p :
  PropertyAt d e c p =
  first (under ep_ID e (fun x => capability_property c p (ep_Capabilities x))) (d_Endpoints d).
Proof. done. Qed.

Lemma SetProperty_under d e c p v :
  SetProperty d e c p v =
  match update_first (under ep_ID e (fun x =>
      with_Capabilities x <$> set_in_capabilities c p v (ep_Capabilities x))) (d_Endpoints d) with
  | Some endpoints => (with_Endpoints d endpoints, true)
  | None => (d, false)
  end.
Proof. done. Qed.

(** Setting a property changes its value at its path and nothing else; for a
    path the device does not have, it reports so and changes nothing. *)
Theorem set_property_spec d e c p v :
  match PropertyAt d e c p with
  | None => SetProperty d e c p v = (d, false)
  | Some x => exists d', SetProperty d e c p v = (d', true) /\
      PropertyAt d' e c p = Some (with_p_Value x v) /\
      (forall e' c' p', (e', c', p') <> (e, c, p) ->
         PropertyAt d' e' c' p' = PropertyAt d e' c' p') /\
      d = with_Endpoints d' (d_Endpoints d)
  end.
Proof.
  pose proof (update_under ep_ID e (fun x => capability_property c p (ep_Capabilities x))
    (fun x => with_Capabilities x <$> set_in_capabilities c p v (ep_Capabilities x))
    (fun x => with_p_Value x v) (fun cp => cp.1 <> c \/ cp.2 <> p)
    (fun _ cp x => capability_property cp.1 cp.2 (ep_Capabilities x)) (d_Endpoints d)) as H.
  assert (H1 : forall x x', with_Capabilities x <$> set_in_capabilities c p v (ep_Capabilities x)
    = Some x' -> ep_ID x' = ep_ID x)
    by (intros x x'; by destruct (set_in_capabilities _ _ _ _); intros [= <-]).
  specialize (H H1). clear H1. rewrite (PropertyAt_under d e c p), SetProperty_under.
  assert (H2 : forall x, match capability_property c p (ep_Capabilities x) with
    | None => with_Capabilities x <$> set_in_capabilities c p v (ep_Capabilities x) = None
    | Some b => exists x', with_Capabilities x <$> set_in_capabilities c p v (ep_Capabilities x)
          = Some x' /\ capability_property c p (ep_Capabilities x') = Some (with_p_Value b v) /\
        forall cp : string * string, cp.1 <> c \/ cp.2 <> p ->
          capability_property cp.1 cp.2 (ep_Capabilities x') =
          capability_property cp.1 cp.2 (ep_Capabilities x) end).
  { intros x. pose proof (set_in_capabilities_spec c p v (ep_Capabilities x)) as Hc.
    destruct (capability_property c p (ep_Capabilities x)) as [b|]; [|by rewrite Hc].
    destruct Hc as (l' & -> & Hc & Ho). eexists. split; [done|]. split; [done|].
    intros [c' p']. apply Ho. }
  specialize (H H2). destruct (first _ (d_Endpoints d)) as [x|]; [|by rewrite H].
  destruct H as (l' & -> & Hx & Ho). exists (with_Endpoints d l').
  split_and!; [done|by destruct d| |by destruct d].
  intros e' c' p' Hne. rewrite !PropertyAt_under.
  replace (d_Endpoints (with_Endpoints d l')) with l' by by destruct d.
  apply (Ho e' (c', p')).
  destruct (decide (e' = e)) as [->|]; [|by left]. right. simpl.
  destruct (decide (c' = c)) as [->|]; [|by left]. right. congruence.
Qed.

(** An update keeps the identifiers and whatever the lists promise. *)
Lemma update_under_claims {A B} (id : A -> string) P i (f : A -> option B) u b l l' :
  (forall x, f x = None -> u x = None) ->
  (forall x, f x = Some b -> exists x', u x = Some x' /\ id x' = id x /\ (P x -> P x')) ->
  first (under id i f) l = Some b -> update_first (under id i u) l = Some l' ->
  claims id P l -> claims id P l'.
Proof.
  intros Hn Hs Hf Hu. apply (update_first_claims id P (under id i f) (under id i u) b l l');
    try done; unfold under; intros x; destruct (String.eqb (id x) i); auto; done.
Qed.

Lemma set_property_in_claims pid v x l l' :
  property_ok (with_p_Value x v) ->
  property_in pid l = Some x -> set_property_in pid v l = Some l' ->
  claims (fun p => pd_ID (p_Definition p)) property_ok l ->
  claims (fun p => pd_ID (p_Definition p)) property_ok l'.
Proof.
  intros Hok. apply update_under_claims; [done|]. intros y [= ->]. by eexists.
Qed.

Lemma set_in_capabilities_claims cid pid v x l l' :
  property_ok (with_p_Value x v) ->
  capability_property cid pid l = Some x -> set_in_capabilities cid pid v l = Some l' ->
  claims cap_ID capability_ok l -> claims cap_ID capability_ok l'.
Proof.
  intros Hok. apply update_under_claims; intros c Hc;
    pose proof (set_property_in_spec pid v (cap_Properties c)) as H; rewrite Hc in H.
  - by rewrite H.
  - destruct H as (l0 & Hl0 & _). rewrite Hl0. eexists. split_and!; [done|done|].
    intros (Hp & Hrest). split; [|done]. simpl. by eapply set_property_in_claims.
Qed.

Lemma set_property_structure d e c p v x :
  structure_ok d -> PropertyAt d e c p = Some x -> property_ok (with_p_Value x v) ->
  structure_ok (SetProperty d e c p v).1.
Proof.
  intros Hd Hx Hok. rewrite PropertyAt_under in Hx. rewrite SetProperty_under.
  destruct (update_first _ _) as [l'|] eqn:Hu; [|done].
  assert (claims ep_ID endpoint_ok l') as Hl'.
  { eapply update_under_claims; [..|exact Hx|exact Hu|apply Hd]; intros y Hy; cbv beta in *;
      pose proof (set_in_capabilities_spec c p v (ep_Capabilities y)) as H; rewrite Hy in H.
    - by rewrite H.
    - destruct H as (l0 & Hl0 & _). rewrite Hl0. eexists. split_and!; [done|done|].
      intros He. unfold endpoint_ok. simpl. by eapply set_in_capabilities_claims. }
  destruct d, Hd. by constructor.
Qed.

(** Writing a value that validates against the definition of a property
    keeps a valid device valid. *)
Theorem set_property_valid d e c p v x :
  ValidateStructure d = Ok tt -> PropertyAt d e c p = Some x ->
  ValidateProperty (with_p_Value x v) = Ok tt ->
  ValidateStructure (SetProperty d e c p v).1 = Ok tt.
Proof.
  intros Hd Hx Hv. apply validate_property_ok in Hv. apply validate_structure_ok.
  eapply set_property_structure; [by apply validate_structure_ok|done|done].
Qed.

(** ** Writes *)

Lemma fsub_diag x : finite x = true -> exists s, fsub x x = S754_zero s.
Proof.
  destruct x as [[]|[]| |s m e]; try done; intros _; try by eexists.
  exists false. unfold fsub, SFsub.
  by rewrite Z.min_id, Z.sub_diag.
Qed.

Lemma fdiv_zero s x : IsNaN x = false -> fleb x fzero = false ->
  exists t, fdiv (S754_zero s) x = S754_zero t.
Proof. destruct x as [[]|[]| |s' m e]; try done; intros _ _; by eexists. Qed.

Lemma origin_matches_step m step :
  finite m = true -> IsNaN step = false -> fleb step fzero = false ->
  valueMatchesStep m m step = true.
Proof.
  intros Hm Hn Hs. unfold valueMatchesStep. rewrite Hs.
  assert (IsNaN m || IsInf m = false) as Hf
    by (unfold finite in Hm; rewrite <- negb_orb in Hm; by apply negb_true_iff in Hm).
  rewrite <- orb_assoc, Hf. simpl orb. cbv iota zeta.
  destruct (fsub_diag m Hm) as [s1 ->]. destruct (fdiv_zero s1 step Hn Hs) as [s2 ->].
  destruct s2; reflexivity.
Qed.

(** Whatever its step, a writable number or integer property accepts its own
    minimum. *)
Theorem minimum_writable p m :
  pd_Min (p_Definition p) = Some m -> finite m = true ->
  (p_Value p = NumberValue m \/ exists n, p_Value p = IntValue n /\ of_Z n = m) ->
  (forall s, pd_Step (p_Definition p) = Some s -> IsNaN s = false) ->
  ValidateProperty p = Ok tt -> ValidateWrite p = Ok tt.
Proof.
  intros Hmin Hm Hv Hs Hp. unfold ValidateWrite. rewrite Hp.
  destruct (pd_Writable _); [|done]. destruct (pd_Step _) as [step|] eqn:Est; [|done].
  apply validate_property_ok in Hp as (_ & Hd & Ha). pose proof (do_step _ Hd _ Est) as Hpos.
  rewrite Hmin. cbn [numericStepOrigin].
  pose proof (origin_matches_step m step Hm (Hs step eq_refl) Hpos) as Hstep.
  destruct Hv as [Hv|(n & Hv & Hn)]; rewrite Hv in Ha |- *; inversion Ha as [|? Ht|? Ht| |];
    rewrite Ht; cbn [holds pv_Int pv_Number IntValue NumberValue]; [by rewrite Hstep|].
  by rewrite Hn, Hstep.
Qed.

(** ** Availability *)

Lemma effective_normalized d :
  EffectiveAvailability (NormalizeAvailability d) = EffectiveAvailability d.
Proof. destruct d as [? ? ? ? ? ? ? ? ? ? ? ? ? ? ? ? [] []]; done. Qed.

Lemma normalize_availability_idem d :
  NormalizeAvailability (NormalizeAvailability d) = NormalizeAvailability d.
Proof. destruct d as [? ? ? ? ? ? ? ? ? ? ? ? ? ? ? ? [] []]; done. Qed.

(** ** Concrete instances *)

Definition ex_power : Property :=
  MkProperty (MkPropertyDefinition "power" "Power" ValueTypeBool ParameterRequired "" true true
    true None None None [] 0) (BoolValue false) (StateTransportOther "").
Definition ex_target : Property :=
  MkProperty (MkPropertyDefinition "target-temperature" "Target" ValueTypeNumber
    (ParameterOther "") "celsius" true true true (Some (of_Z 16)) (Some (of_Z 30))
    (Some (of_ratio 1 10)) [] 0) (NumberValue (of_Z 16)) StateTransportLocalMQTT.
Definition ex_device : Device :=
  MkDevice 1 "ac-1" "miio" "AC" "" false "air-conditioner" "" "" "" "" "" "" "" "" ""
    AvailabilityOnline true 3 false false RuntimeModeLocal (StateTransportOther "") ""
    [MkEndpoint "main" "Main" "air-conditioner"
       [MkCapability "switch" "switch" [ex_power]
          [MkCommandDefinition "toggle" "Toggle" false [MkCommandParameter "delay" "Delay" ValueTypeInt false]]
          [MkEventDefinition "pressed" "Pressed" ValueTypeBool];
        MkCapability "temperature" "temperature" [ex_target] [] []]] 5.

Lemma set_property_valid_witness :
  ValidateStructure
    (SetProperty ex_device "main" "temperature" "target-temperature" (NumberValue (of_Z 25))).1
  = Ok tt.
Proof.
  apply (set_property_valid ex_device "main" "temperature" "target-temperature"
    (NumberValue (of_Z 25)) ex_target); vm_compute; reflexivity.
Defined.

Lemma minimum_writable_witness : ValidateWrite ex_target = Ok tt.
Proof.
  apply (minimum_writable ex_target (of_Z 16)); [reflexivity|reflexivity|by left| |].
  - intros s [= <-]. vm_compute. reflexivity.
  - vm_compute. reflexivity.
Defined.
