(* ===== verification/Lookup.v ===== *)
(** * Lookup by identifier in a list

    The code finds the endpoint, capability, property or command with an identifier by a
    loop over a slice; [find_by] is that loop.  [upsert] and [add_unique] are the loops
    that add to such a slice. *)

From S2P Require Import Prelude Float64 DeviceModel.

Definition find_by {A} (id : A -> string) (i : string) (l : list A) : option A :=
  first (fun x => if String.eqb (id x) i then Some x else None) l.

(** The element of [l] with the identifier [i], or else [fresh] appended; updated by [f]. *)
Definition upsert {A} (id : A -> string) (i : string) (fresh : A) (f : A -> A) (l : list A) : list A :=
  match update_first (fun x => if String.eqb (id x) i then Some (f x) else None) l with
  | Some l' => l'
  | None => l ++ [f fresh]
  end.

(** [x] appended unless its identifier is taken. *)
Definition add_unique {A} (id : A -> string) (x : A) (l : list A) : list A :=
  if existsb (fun existing => String.eqb (id existing) (id x)) l then l else l ++ [x].

Section find_by.
Context {A : Type} (id : A -> string).
Implicit Types (l : list A) (i j : string).

Lemma find_by_app i l l' :
  find_by id i (l ++ l') = match find_by id i l with Some x => Some x | None => find_by id i l' end.
Proof.
  unfold find_by. induction l as [|x l IH]; simpl; [done|]. by destruct (String.eqb (id x) i).
Qed.

Lemma find_by_some i l x : find_by id i l = Some x -> x ∈ l /\ id x = i.
Proof.
  unfold find_by. induction l as [|y l IH]; simpl; [done|].
  destruct (String.eqb_spec (id y) i); [intros [= <-]; split; [left|done]|].
  intros [? ?]%IH. split; [by right|done].
Qed.

Lemma find_by_none i l : find_by id i l = None <-> i ∉ id <$> l.
Proof.
  unfold find_by. induction l as [|y l IH]; simpl; [set_solver|].
  destruct (String.eqb_spec (id y) i) as [<-|]; [set_solver|]. rewrite IH. set_solver.
Qed.

Lemma find_by_elem l x : NoDup (id <$> l) -> x ∈ l -> find_by id (id x) l = Some x.
Proof.
  unfold find_by. induction l as [|y l IH]; [by intros _ ?%not_elem_of_nil|].
  rewrite fmap_cons, NoDup_cons. intros [Hn Hnd] [->|Hx]%elem_of_cons; simpl.
  - by rewrite String.eqb_refl.
  - destruct (String.eqb_spec (id y) (id x)) as [E|]; [|auto].
    destruct Hn. rewrite E. by apply list_elem_of_fmap_2.
Qed.

(** With distinct identifiers a search under an identifier looks at one element. *)
Lemma first_under {B} (f : A -> option B) i l : NoDup (id <$> l) ->
  first (fun x => if String.eqb (id x) i then f x else None) l = find_by id i l ≫= f.
Proof.
  unfold find_by. induction l as [|y l IH]; simpl; [done|]. intros [Hn Hnd]%NoDup_cons.
  destruct (String.eqb_spec (id y) i) as [<-|]; simpl; [|auto].
  destruct (f y); [done|]. rewrite IH by done.
  apply (proj2 (find_by_none (id y) l)) in Hn. unfold find_by in Hn. by rewrite Hn.
Qed.

Lemma find_by_update i j f l : (forall x, id x = i -> id (f x) = i) ->
  match update_first (fun x => if String.eqb (id x) i then Some (f x) else None) l with
  | Some l' => is_Some (find_by id i l) /\
      find_by id j l' = if bool_decide (j = i) then f <$> find_by id i l else find_by id j l
  | None => find_by id i l = None
  end.
Proof.
  intros Hf. unfold find_by. induction l as [|y l IH]; simpl; [done|].
  destruct (String.eqb_spec (id y) i) as [E|E]; simpl.
  - rewrite (Hf y E). split; [by eexists|].
    destruct (String.eqb_spec i j) as [->|]; [by rewrite bool_decide_eq_true_2|].
    rewrite bool_decide_eq_false_2 by done. rewrite E. by destruct (String.eqb_spec i j).
  - destruct (update_first _ l) as [l'|]; simpl; [|done]. destruct IH as [? ->].
    split; [done|]. destruct (String.eqb_spec (id y) j) as [E'|]; [|done].
    rewrite bool_decide_eq_false_2; [done|]. congruence.
Qed.

Lemma find_by_upsert i j fresh f l : id fresh = i -> (forall x, id x = i -> id (f x) = i) ->
  find_by id j (upsert id i fresh f l) =
    if bool_decide (j = i) then Some (f (default fresh (find_by id i l))) else find_by id j l.
Proof.
  intros Hi Hf. unfold upsert. pose proof (find_by_update i j f l Hf) as H.
  destruct (update_first _ l) as [l'|].
  - destruct H as [[x E] ->]. by rewrite E.
  - rewrite find_by_app, H. unfold find_by at 2. simpl. rewrite (Hf fresh Hi).
    case_bool_decide as Hj; [subst j; by rewrite H, String.eqb_refl|].
    destruct (String.eqb_spec i j); [congruence|]. by destruct (find_by id j l).
Qed.

Lemma find_by_add j x l :
  find_by id j (add_unique id x l) =
    if bool_decide (j = id x) then Some (default x (find_by id j l)) else find_by id j l.
Proof.
  unfold add_unique. destruct (existsb _ l) eqn:He.
  - case_bool_decide as Hj; [|done]. subst j. apply existsb_exists in He as (y & Hy & E%String.eqb_eq).
    destruct (find_by id (id x) l) eqn:Hf; [done|]. apply find_by_none in Hf. destruct Hf.
    rewrite <- E. by apply list_elem_of_fmap_2, list_elem_of_In.
  - rewrite find_by_app. unfold find_by at 2. simpl.
    case_bool_decide as Hj; [subst j; rewrite String.eqb_refl; by destruct (find_by _ _ l)|].
    destruct (String.eqb_spec (id x) j); [congruence|]. by destruct (find_by id j l).
Qed.
End find_by.
