(* ===== verification/CommandTracker.v ===== *)
(** * Command tracking: backend/internal/command/tracker.go and
    backend/internal/domain/command/command.go

    Every control request becomes a command that is queued, sent, accepted and
    ends in one of four terminal states.  At most one property command is
    pending per property; an identical request coalesces into it and a different
    one supersedes it.  Finished commands are evicted, oldest first, beyond a
    bound.

    An operation is the body of the method under the tracker's mutex; the clock
    readings and the random identifier are arguments, and the commands it
    notifies its listeners of are a result.  The loops that range over the map of
    commands take the order of the iteration from [ord] (or an argument). *)

From S2P Require Import Prelude Float64 DeviceModel.

(** ** Commands *)

Inductive Kind := KindProperty | KindAction | KindOther (s : string).

Inductive Status :=
| StatusQueued | StatusSent | StatusAccepted
| StatusConfirmed | StatusRejected | StatusTimeout | StatusSuperseded
| StatusOther (s : string).

(** The zero value [""] is [OutcomeNone]. *)
Inductive Outcome :=
| OutcomeSucceeded | OutcomeFailed | OutcomeUnknown | OutcomeNone.

#[export] Instance Kind_eq_dec : EqDecision Kind.
Proof. solve_decision. Defined.
#[export] Instance Status_eq_dec : EqDecision Status.
Proof. solve_decision. Defined.
#[export] Instance Outcome_eq_dec : EqDecision Outcome.
Proof. solve_decision. Defined.

Record Command := MkCommand {
  cmd_ID : string;
  cmd_Kind : Kind;
  cmd_DeviceID : string;
  cmd_EndpointID : string;
  cmd_CapabilityID : string;
  cmd_PropertyID : string;
  cmd_CommandID : string;
  cmd_Expected : PropertyValue;
  cmd_Parameters : gmap string PropertyValue;
  cmd_IdempotencyKey : string;
  cmd_CorrelationID : string;
  cmd_Coalesced : Z;
  cmd_Status : Status;
  cmd_Outcome : Outcome;
  cmd_Error : string;
  cmd_CreatedAt : Time;
  cmd_UpdatedAt : Time;
  cmd_Deadline : Time;
}.

Definition zero_property_value : PropertyValue :=
  MkPropertyValue (ValueTypeOther "") None None None None.
(** The zero [Command{}]. *)
Definition zero_command : Command :=
  MkCommand "" (KindOther "") "" "" "" "" "" zero_property_value ∅ "" "" 0
    (StatusOther "") OutcomeNone "" zero_time zero_time zero_time.

Definition with_coalesced (c : Command) (n : Z) (now : Time) : Command :=
  match c with
  | MkCommand i k d e ca p ac ex pa ik co _ st ou er cr _ de =>
      MkCommand i k d e ca p ac ex pa ik co n st ou er cr now de
  end.
Definition with_status (c : Command) (st : Status) (ou : Outcome) (er : string) (now : Time)
    : Command :=
  match c with
  | MkCommand i k d e ca p ac ex pa ik co n _ _ _ cr _ de =>
      MkCommand i k d e ca p ac ex pa ik co n st ou er cr now de
  end.

Definition terminal (status : Status) : bool :=
  match status with
  | StatusConfirmed | StatusRejected | StatusTimeout | StatusSuperseded => true
  | _ => false
  end.

Definition outcomeForStatus (status : Status) : Outcome :=
  match status with
  | StatusConfirmed => OutcomeSucceeded
  | StatusRejected => OutcomeFailed
  | StatusTimeout | StatusSuperseded => OutcomeUnknown
  | _ => OutcomeNone
  end.

Definition pendingKey (deviceID endpointID capabilityID propertyID : string) : string :=
  deviceID +:+ nul +:+ endpointID +:+ nul +:+ capabilityID +:+ nul +:+ propertyID.
Definition actionIdempotencyScope (deviceID endpointID capabilityID actionID key : string) : string :=
  deviceID +:+ nul +:+ endpointID +:+ nul +:+ capabilityID +:+ nul +:+ actionID +:+ nul +:+ key.

(** The pending key of a command. *)
Definition key_of (c : Command) : string :=
  pendingKey (cmd_DeviceID c) (cmd_EndpointID c) (cmd_CapabilityID c) (cmd_PropertyID c).

(** [range left] visits the keys of [left] in some order; the answer is the
    conjunction of the tests, whatever the order. *)
Definition parameterMapsEqual (left right : gmap string PropertyValue) : bool :=
  (size left =? size right)%nat &&
  forallb (fun '(key, value) =>
    match right !! key with
    | None => false
    | Some other => Equal value other
    end) (map_to_list left).

(** ** The tracker *)

Record Tracker := MkTracker {
  timeoutNanos : Z;
  commands : gmap string Command;
  pending : gmap string string;
  idempotency : gmap string string;
  maxItems : Z;
  listeners : gset Z;
  nextListener : Z;
}.

Definition with_commands (t : Tracker) (m : gmap string Command) : Tracker :=
  MkTracker (timeoutNanos t) m (pending t) (idempotency t) (maxItems t) (listeners t) (nextListener t).
Definition with_pending (t : Tracker) (m : gmap string string) : Tracker :=
  MkTracker (timeoutNanos t) (commands t) m (idempotency t) (maxItems t) (listeners t) (nextListener t).
Definition with_idempotency (t : Tracker) (m : gmap string string) : Tracker :=
  MkTracker (timeoutNanos t) (commands t) (pending t) m (maxItems t) (listeners t) (nextListener t).
Definition with_maxItems (t : Tracker) (n : Z) : Tracker :=
  MkTracker (timeoutNanos t) (commands t) (pending t) (idempotency t) n (listeners t) (nextListener t).
Definition put (t : Tracker) (id : string) (c : Command) : Tracker :=
  with_commands t (<[id := c]> (commands t)).

Definition SetTimeout (t : Tracker) (timeout : Duration) : Tracker :=
  MkTracker timeout (commands t) (pending t) (idempotency t) (maxItems t) (listeners t) (nextListener t).

Definition Timeout (t : Tracker) : Duration := timeoutNanos t.

Definition NewTracker (timeout : Duration) : Tracker :=
  SetTimeout (MkTracker 0 ∅ ∅ ∅ 1000 ∅ 0) timeout.

Definition MaxItems (t : Tracker) : Z := maxItems t.

(** The scan of [removeOldestTerminalLocked]: the best candidate so far is its
    identifier ([""] for none) and its creation time. *)
Fixpoint oldest_terminal (m : gmap string Command) (ks : list string) (oldestID : string)
    (oldest : Time) : string :=
  match ks with
  | [] => oldestID
  | id :: ks =>
      match m !! id with
      | None => oldest_terminal m ks oldestID oldest
      | Some c =>
          if negb (terminal (cmd_Status c)) then oldest_terminal m ks oldestID oldest
          else if is_empty oldestID || Before (cmd_CreatedAt c) oldest
          then oldest_terminal m ks id (cmd_CreatedAt c)
          else oldest_terminal m ks oldestID oldest
      end
  end.

Definition removeOldestTerminalLocked (ks : list string) (t : Tracker) : Tracker * bool :=
  let oldestID := oldest_terminal (commands t) ks "" zero_time in
  if negb (is_empty oldestID) then
    (with_idempotency (with_commands t (delete oldestID (commands t)))
       (filter (fun kv => kv.2 <> oldestID) (idempotency t)), true)
  else (t, false).

Section Operations.
(** The order in which a map of commands is visited. *)
Variable ord : gmap string Command -> list string.

(** [for over(len(t.commands)) && t.removeOldestTerminalLocked() {}]; every
    round removes a command, so their number bounds the rounds. *)
Fixpoint evict (over : Z -> bool) (fuel : nat) (t : Tracker) : Tracker :=
  match fuel with
  | O => t
  | S fuel =>
      if over (Z.of_nat (size (commands t))) then
        let '(t', removed) := removeOldestTerminalLocked (ord (commands t)) t in
        if removed : bool then evict over fuel t' else t'
      else t
  end.

Definition trim (t : Tracker) : Tracker :=
  evict (fun n => maxItems t <? n) (S (size (commands t))) t.
Definition pruneLocked (t : Tracker) : Tracker :=
  evict (fun n => maxItems t <=? n) (S (size (commands t))) t.

Definition SetMaxItems (t : Tracker) (limit : Z) : Tracker :=
  trim (with_maxItems t (if limit <? 1 then 1 else limit)).

(** The command, the one it superseded, whether it coalesced, and the
    notifications. *)
Definition BeginPropertyCorrelated (t : Tracker) (now : Time) (id : string)
    (deviceID endpointID capabilityID propertyID : string) (value : PropertyValue)
    (correlationID : string) : Tracker * (Command * option Command * bool) * list Command :=
  let key := pendingKey deviceID endpointID capabilityID propertyID in
  let command := MkCommand id KindProperty deviceID endpointID capabilityID propertyID "" value ∅
    "" correlationID 0 StatusQueued OutcomeNone "" now now (now + Timeout t) in
  let t := pruneLocked t in
  let fresh (t : Tracker) (superseded : option Command) (notes : list Command) :=
    (with_pending (put t id command) (<[key := id]> (pending t)),
     (command, superseded, false), notes ++ [command]) in
  match pending t !! key with
  | None => fresh t None []
  | Some previousID =>
      let previous := default zero_command (commands t !! previousID) in
      if negb (terminal (cmd_Status previous)) then
        if Equal (cmd_Expected previous) value then
          let previous := with_coalesced previous (u64_succ (cmd_Coalesced previous)) now in
          (put t previousID previous, (previous, None, true), [previous])
        else
          let previous := with_status previous StatusSuperseded OutcomeUnknown
            "replaced by a newer command" now in
          fresh (put t previousID previous) (Some previous) [previous]
      else fresh t None []
  end.

Definition BeginReplacingCorrelated (t : Tracker) (now : Time) (id : string)
    (deviceID endpointID capabilityID propertyID : string) (value : PropertyValue)
    (correlationID : string) : Tracker * (Command * option Command) * list Command :=
  let '(t, (command, superseded, _), notes) :=
    BeginPropertyCorrelated t now id deviceID endpointID capabilityID propertyID value correlationID in
  (t, (command, superseded), notes).

Definition BeginReplacing (t : Tracker) (now : Time) (id : string)
    (deviceID endpointID capabilityID propertyID : string) (value : PropertyValue)
    : Tracker * (Command * option Command) * list Command :=
  BeginReplacingCorrelated t now id deviceID endpointID capabilityID propertyID value "".

Definition Begin (t : Tracker) (now : Time) (id : string)
    (deviceID endpointID capabilityID propertyID : string) (value : PropertyValue)
    : Tracker * Command * list Command :=
  let '(t, (command, _), notes) :=
    BeginReplacing t now id deviceID endpointID capabilityID propertyID value in
  (t, command, notes).

Definition AddCoalesced (t : Tracker) (now : Time) (id : string) (count : Z)
    : Tracker * (Command * bool) * list Command :=
  if count =? 0 then (t, (zero_command, false), [])
  else
    match commands t !! id with
    | None => (t, (zero_command, false), [])
    | Some c =>
        let c := with_coalesced c (u64_add (cmd_Coalesced c) count) now in
        (put t id c, (c, true), [c])
    end.

Definition Supersede (t : Tracker) (now : Time) (id message : string)
    : Tracker * (Command * bool) * list Command :=
  let message := if is_empty message then "replaced by a newer command" else message in
  match commands t !! id with
  | None => (t, (zero_command, false), [])
  | Some c =>
      if terminal (cmd_Status c) then (t, (c, false), [])
      else
        let c := with_status c StatusSuperseded OutcomeUnknown message now in
        let t := put t id c in
        let key := key_of c in
        let t := if bool_decide (default "" (pending t !! key) = id)
                 then with_pending t (delete key (pending t)) else t in
        (trim t, (c, true), [c])
  end.

Inductive TrackerError := ErrIdempotencyConflict.

(** The command and whether it is a replay. *)
Definition BeginActionIdempotentCorrelated (t : Tracker) (now : Time) (id : string)
    (deviceID endpointID capabilityID actionID : string) (parameters : gmap string PropertyValue)
    (idempotencyKey correlationID : string)
    : Tracker * result TrackerError (Command * bool) * list Command :=
  let command := MkCommand id KindAction deviceID endpointID capabilityID "" actionID
    zero_property_value parameters idempotencyKey correlationID 0 StatusQueued OutcomeNone ""
    now now (now + Timeout t) in
  let scope := actionIdempotencyScope deviceID endpointID capabilityID actionID idempotencyKey in
  match (if is_empty idempotencyKey then None else idempotency t !! scope) with
  | Some existingID =>
      let existing := default zero_command (commands t !! existingID) in
      if negb (parameterMapsEqual (cmd_Parameters existing) parameters)
      then (t, Err ErrIdempotencyConflict, [])
      else (t, Ok (existing, true), [])
  | None =>
      let t := put (pruneLocked t) id command in
      let t := if is_empty idempotencyKey then t
               else with_idempotency t (<[scope := id]> (idempotency t)) in
      (t, Ok (command, false), [command])
  end.

Definition BeginActionIdempotent (t : Tracker) (now : Time) (id : string)
    (deviceID endpointID capabilityID actionID : string) (parameters : gmap string PropertyValue)
    (idempotencyKey : string) : Tracker * result TrackerError (Command * bool) * list Command :=
  BeginActionIdempotentCorrelated t now id deviceID endpointID capabilityID actionID parameters
    idempotencyKey "".

Definition BeginAction (t : Tracker) (now : Time) (id : string)
    (deviceID endpointID capabilityID actionID : string) (parameters : gmap string PropertyValue)
    : Tracker * Command * list Command :=
  let '(t, r, notes) :=
    BeginActionIdempotent t now id deviceID endpointID capabilityID actionID parameters "" in
  (t, match r with Ok (command, _) => command | Err _ => zero_command end, notes).

Definition transition (t : Tracker) (now : Time) (id : string) (status : Status) (message : string)
    : Tracker * bool * list Command :=
  match commands t !! id with
  | None => (t, false, [])
  | Some c =>
      if terminal (cmd_Status c) then (t, false, [])
      else
        let c := with_status c status (outcomeForStatus status) message now in
        let t := put t id c in
        let t := if terminal status
                 then trim (with_pending t (delete (key_of c) (pending t))) else t in
        (t, true, [c])
  end.

Definition Sent (t : Tracker) (now : Time) (id : string) := transition t now id StatusSent "".
Definition Accepted (t : Tracker) (now : Time) (id : string) := transition t now id StatusAccepted "".
Definition Confirmed (t : Tracker) (now : Time) (id : string) := transition t now id StatusConfirmed "".
Definition Rejected (t : Tracker) (now : Time) (id err : string) := transition t now id StatusRejected err.

Definition Confirm (t : Tracker) (now : Time)
    (deviceID endpointID capabilityID propertyID : string) (value : PropertyValue)
    : Tracker * bool * list Command :=
  let key := pendingKey deviceID endpointID capabilityID propertyID in
  match pending t !! key with
  | None => (t, false, [])
  | Some id =>
      let c := default zero_command (commands t !! id) in
      if negb (Equal (cmd_Expected c) value) then (t, false, [])
      else
        let c := with_status c StatusConfirmed OutcomeSucceeded (cmd_Error c) now in
        (trim (with_pending (put t id c) (delete key (pending t))), true, [c])
  end.

(** The loop of [Expire] over the commands, visited in the order [ks]. *)
Fixpoint expire_loop (now : Time) (ks : list string) (t : Tracker) : Tracker * list Command :=
  match ks with
  | [] => (t, [])
  | id :: ks =>
      match commands t !! id with
      | None => expire_loop now ks t
      | Some c =>
          if terminal (cmd_Status c) || Before now (cmd_Deadline c) then expire_loop now ks t
          else
            let c := with_status c StatusTimeout OutcomeUnknown (cmd_Error c) now in
            let t := with_pending (put t id c) (delete (key_of c) (pending t)) in
            let '(t, expired) := expire_loop now ks t in
            (t, c :: expired)
      end
  end.

Definition Expire (t : Tracker) (now : Time) : Tracker * list Command :=
  let '(t, expired) := expire_loop now (ord (commands t)) t in
  (trim t, expired).

Definition Get (t : Tracker) (now : Time) (id : string)
    : Tracker * (Command * bool) * list Command :=
  let '(t, expired) := Expire t now in
  (t, match commands t !! id with
      | Some c => (c, true)
      | None => (zero_command, false)
      end, expired).

(** [List] up to the order of the commands created at the same instant, which
    [sort.Slice] leaves open: its result is some permutation of the commands in
    descending order of creation. *)
Definition newest_first (l : list Command) : Prop :=
  Sorted (fun a b => Before (cmd_CreatedAt a) (cmd_CreatedAt b) = false) l.
Definition listed (t : Tracker) (now : Time) (l : list Command) : Prop :=
  Permutation l (map_to_list (commands (Expire t now).1)).*2 /\ newest_first l.

End Operations.

Definition Subscribe (t : Tracker) : Tracker * Z :=
  let id := u64_succ (nextListener t) in
  (MkTracker (timeoutNanos t) (commands t) (pending t) (idempotency t) (maxItems t)
     ({[id]} ∪ listeners t) id, id).
Definition Unsubscribe (t : Tracker) (id : Z) : Tracker :=
  MkTracker (timeoutNanos t) (commands t) (pending t) (idempotency t) (maxItems t)
    (listeners t ∖ {[id]}) (nextListener t).
(** The calls [notify] makes, the listeners visited in the order [ls]. *)
Definition notify (ls : list Z) (command : Command) : list (Z * Command) :=
  (fun l => (l, command)) <$> ls.

(** ** Invariant *)

Fixpoint last_byte (s : string) : option ascii :=
  match s with
  | EmptyString => None
  | String c s => match last_byte s with Some d => Some d | None => Some c end
  end.

(** A property identifier that a pending key cannot confuse with the empty one of
    an action: not empty, and not ending in a NUL byte. *)
Definition well_named (propertyID : string) : Prop :=
  exists c, last_byte propertyID = Some c /\ c <> NUL.

Definition scope_of (c : Command) : string :=
  actionIdempotencyScope (cmd_DeviceID c) (cmd_EndpointID c) (cmd_CapabilityID c)
    (cmd_CommandID c) (cmd_IdempotencyKey c).

(** The pending map holds exactly the live property commands, each under its own
    key; the idempotency map points to retained actions of that scope. *)
Record wf (t : Tracker) : Prop := {
  wf_id id c : commands t !! id = Some c -> cmd_ID c = id /\ id <> "";
  wf_pending k id : pending t !! k = Some id ->
    exists c, commands t !! id = Some c /\ terminal (cmd_Status c) = false /\
      cmd_Kind c = KindProperty /\ key_of c = k;
  wf_live id c : commands t !! id = Some c -> cmd_Kind c = KindProperty ->
    terminal (cmd_Status c) = false -> pending t !! key_of c = Some id;
  wf_idempotency s id : idempotency t !! s = Some id ->
    exists c, commands t !! id = Some c /\ cmd_Kind c = KindAction /\ scope_of c = s /\
      cmd_IdempotencyKey c <> "";
  wf_scope id c : commands t !! id = Some c -> cmd_Kind c = KindAction ->
    cmd_IdempotencyKey c <> "" -> idempotency t !! scope_of c = Some id;
  wf_outcome id c : commands t !! id = Some c ->
    cmd_Outcome c = outcomeForStatus (cmd_Status c);
  wf_kind id c : commands t !! id = Some c ->
    (cmd_Kind c = KindProperty /\ well_named (cmd_PropertyID c)) \/
    (cmd_Kind c = KindAction /\ cmd_PropertyID c = "");
  wf_max : 1 <= maxItems t;
}.

(** The operations that change the commands, and what they notify. *)
Inductive tstep (ord : gmap string Command -> list string) (t : Tracker)
    : Tracker -> list Command -> Prop :=
| step_max limit : tstep ord t (SetMaxItems ord t limit) []
| step_begin_property now id d e c p v co :
    commands t !! id = None -> id <> "" -> well_named p ->
    tstep ord t (BeginPropertyCorrelated ord t now id d e c p v co).1.1
      (BeginPropertyCorrelated ord t now id d e c p v co).2
| step_add_coalesced now id n :
    tstep ord t (AddCoalesced t now id n).1.1 (AddCoalesced t now id n).2
| step_supersede now id msg :
    tstep ord t (Supersede ord t now id msg).1.1 (Supersede ord t now id msg).2
| step_begin_action now id d e c a ps ik co :
    commands t !! id = None -> id <> "" ->
    tstep ord t (BeginActionIdempotentCorrelated ord t now id d e c a ps ik co).1.1
      (BeginActionIdempotentCorrelated ord t now id d e c a ps ik co).2
| step_sent now id : tstep ord t (Sent ord t now id).1.1 (Sent ord t now id).2
| step_accepted now id : tstep ord t (Accepted ord t now id).1.1 (Accepted ord t now id).2
| step_confirmed now id : tstep ord t (Confirmed ord t now id).1.1 (Confirmed ord t now id).2
| step_rejected now id err : tstep ord t (Rejected ord t now id err).1.1 (Rejected ord t now id err).2
| step_confirm now d e c p v : tstep ord t (Confirm ord t now d e c p v).1.1 (Confirm ord t now d e c p v).2
| step_expire now : tstep ord t (Expire ord t now).1 (Expire ord t now).2.

Inductive treachable (ord : gmap string Command -> list string) (timeout : Duration)
    : Tracker -> Prop :=
| treachable_new : treachable ord timeout (NewTracker timeout)
| treachable_step t t' notes :
    treachable ord timeout t -> tstep ord t t' notes -> treachable ord timeout t'.

(** ** Keys *)

Lemma last_byte_app a b :
  last_byte (a +:+ b) = match last_byte b with Some c => Some c | None => last_byte a end.
Proof.
  induction a as [|x a IH].
  - change ("" +:+ b) with b. by destruct (last_byte b).
  - change (String x a +:+ b) with (String x (a +:+ b)). simpl. rewrite IH.
    by destruct (last_byte b).
Qed.

Lemma property_key_last d e c p : well_named p -> last_byte (pendingKey d e c p) <> Some NUL.
Proof.
  intros (x & Hx & Hne). unfold pendingKey. rewrite !last_byte_app, Hx. congruence.
Qed.

Lemma action_key_last d e c : last_byte (pendingKey d e c "") = Some NUL.
Proof. unfold pendingKey. by rewrite !last_byte_app. Qed.

(** ** Eviction *)

(** What evicting finished commands may do. *)
Record evicted (t t' : Tracker) : Prop := {
  ev_sub id c : commands t' !! id = Some c -> commands t !! id = Some c;
  ev_terminal id c : commands t !! id = Some c -> commands t' !! id = None ->
    terminal (cmd_Status c) = true;
  ev_oldest id c id' c' : commands t !! id = Some c -> commands t' !! id = None ->
    commands t' !! id' = Some c' -> terminal (cmd_Status c') = true ->
    cmd_CreatedAt c <= cmd_CreatedAt c';
  ev_pending : pending t' = pending t;
  ev_idempotency s id : idempotency t' !! s = Some id <->
    idempotency t !! s = Some id /\ ~ (is_Some (commands t !! id) /\ commands t' !! id = None);
  ev_max : maxItems t' = maxItems t;
  ev_timeout : timeoutNanos t' = timeoutNanos t;
}.

Lemma evicted_refl t : evicted t t.
Proof.
  constructor; try done; try (intros; simplify_eq; congruence).
  intros s id. split; [|by intros []]. intros. split; [done|]. intros [[] ?]. congruence.
Qed.

Lemma evicted_trans t1 t2 t3 : evicted t1 t2 -> evicted t2 t3 -> evicted t1 t3.
Proof.
  intros H1 H2. constructor.
  - intros id c Hc. by apply (ev_sub _ _ H1), (ev_sub _ _ H2).
  - intros id c Hc Hn. destruct (commands t2 !! id) as [c2|] eqn:E.
    + apply (ev_terminal _ _ H2 id); [|done]. pose proof (ev_sub _ _ H1 _ _ E). congruence.
    + by apply (ev_terminal _ _ H1 id).
  - intros id c id' c' Hc Hn Hc' Ht. destruct (commands t2 !! id) as [c2|] eqn:E.
    + apply (ev_oldest _ _ H2 id _ id'); try done. pose proof (ev_sub _ _ H1 _ _ E). congruence.
    + apply (ev_oldest _ _ H1 id _ id'); try done. by apply (ev_sub _ _ H2).
  - rewrite (ev_pending _ _ H2). apply H1.
  - intros s id. rewrite (ev_idempotency _ _ H2), (ev_idempotency _ _ H1).
    destruct (commands t2 !! id) as [c2|] eqn:E.
    + rewrite (ev_sub _ _ H1 _ _ E). split.
      * intros [[? _] Hn]. split; [done|]. intros [_ ?]. by apply Hn.
      * intros [? Hn]. split_and!; [done|by intros []|]. intros [_ ?]. by apply Hn.
    + assert (commands t3 !! id = None) as ->.
      { destruct (commands t3 !! id) as [c3|] eqn:E3; [|done].
        pose proof (ev_sub _ _ H2 _ _ E3). congruence. }
      split; [by intros [[? Hn] _]|]. intros [? Hn]. split_and!; [done..|]. by intros [[] _].
  - rewrite (ev_max _ _ H2). apply H1.
  - rewrite (ev_timeout _ _ H2). apply H1.
Qed.

Lemma oldest_terminal_spec m ks oldestID oldest :
  let r := oldest_terminal m ks oldestID oldest in
  (forall k, k ∈ ks -> is_Some (m !! k) -> k <> "") ->
  (r = "" -> oldestID = "" /\
     forall id c, id ∈ ks -> m !! id = Some c -> terminal (cmd_Status c) = false) /\
  (r <> "" -> (r = oldestID \/ exists c, r ∈ ks /\ m !! r = Some c /\ terminal (cmd_Status c) = true) /\
     exists t, (r = oldestID /\ t = oldest \/ exists c, m !! r = Some c /\ cmd_CreatedAt c = t) /\
       (oldestID <> "" -> t <= oldest) /\
       forall id c, id ∈ ks -> m !! id = Some c -> terminal (cmd_Status c) = true ->
         t <= cmd_CreatedAt c).
Proof.
  cbv zeta. revert oldestID oldest. induction ks as [|k ks IH]; intros oldestID oldest Hk; simpl.
  { split; [intros ->; split; [done|set_solver]|]. intros Hne. split; [by left|].
    exists oldest. split_and!; [by left|lia|set_solver]. }
  assert (Hk' : forall k0, k0 ∈ ks -> is_Some (m !! k0) -> k0 <> "") by (intros; apply Hk; set_solver).
  destruct (m !! k) as [c|] eqn:Hc; [|]. 2: {
    destruct (IH oldestID oldest Hk') as [H1 H2]. split.
    - intros Hr. destruct (H1 Hr) as [? H]. split; [done|]. intros id c [->|]%elem_of_cons; [congruence|eauto].
    - intros Hr. destruct (H2 Hr) as [Hin (t & Ht & Ho & H)]. split; [set_solver|].
      exists t. split_and!; try done. intros id c [->|]%elem_of_cons; [congruence|eauto]. }
  assert (Hkne : k <> "") by (apply Hk; [set_solver|by exists c]).
  destruct (terminal (cmd_Status c)) eqn:Ht; simpl; [|].
  2: { destruct (IH oldestID oldest Hk') as [H1 H2]. split.
    - intros Hr. destruct (H1 Hr) as [? H]. split; [done|].
      intros id c' [->|]%elem_of_cons; [congruence|eauto].
    - intros Hr. destruct (H2 Hr) as [Hin (t & Htt & Ho & H)]. split; [set_solver|].
      exists t. split_and!; try done. intros id c' [->|]%elem_of_cons; [congruence|eauto]. }
  destruct (is_empty oldestID || Before (cmd_CreatedAt c) oldest) eqn:Hb.
  - destruct (IH k (cmd_CreatedAt c) Hk') as [H1 H2]. split.
    { intros Hr. by destruct (H1 Hr). }
    intros Hr. destruct (H2 Hr) as [Hin (t & Htt & Ho & H)]. specialize (Ho Hkne). split.
    { right. destruct Hin as [->|(c' & ? & ? & ?)]; [exists c|exists c']; set_solver. }
    exists t. split_and!.
    + right. destruct Htt as [[-> ->]|?]; [by exists c|done].
    + intros Hne. apply orb_true_iff in Hb as [Hb|Hb]; [by apply is_empty_true in Hb|].
      unfold Before in Hb. lia.
    + intros id c' [->|]%elem_of_cons; [|eauto]. intros. simplify_eq. done.
  - apply orb_false_iff in Hb as [Hb1 Hb2]. apply is_empty_false in Hb1.
    unfold Before in Hb2. apply Z.ltb_ge in Hb2.
    destruct (IH oldestID oldest Hk') as [H1 H2]. split.
    { intros Hr. by destruct (H1 Hr). }
    intros Hr. destruct (H2 Hr) as [Hin (t & Htt & Ho & H)]. specialize (Ho Hb1). split; [set_solver|].
    exists t. split_and!; try done. intros id c' [->|]%elem_of_cons; [|eauto].
    intros. simplify_eq. lia.
Qed.

Definition no_terminal (t : Tracker) : Prop :=
  forall id c, commands t !! id = Some c -> terminal (cmd_Status c) = false.
Definition named (t : Tracker) : Prop := forall id, is_Some (commands t !! id) -> id <> "".

Lemma remove_oldest_spec ks t :
  range_of (commands t) ks -> named t ->
  match removeOldestTerminalLocked ks t with
  | (t', true) => evicted t t' /\ (size (commands t') < size (commands t))%nat
  | (t', false) => t' = t /\ no_terminal t
  end.
Proof.
  intros Hr Hk. unfold removeOldestTerminalLocked.
  destruct (oldest_terminal_spec (commands t) ks "" zero_time) as [H1 H2]; [by auto|].
  set (r := oldest_terminal _ _ _ _) in *.
  destruct (is_empty r) eqn:E; simpl; [apply is_empty_true in E|apply is_empty_false in E].
  - split; [done|]. destruct (H1 E) as [_ H]. intros id c Hc. eapply H; [|done].
    apply (range_of_dom _ _ _ Hr). by exists c.
  - destruct (H2 E) as [[->|(c & _ & Hc & Ht)] (t0 & Ht0 & _ & Hmin)]; [done|].
    assert (t0 = cmd_CreatedAt c) as ->
      by (destruct Ht0 as [[? _]|(c' & ? & <-)]; [done|by simplify_eq]).
    split.
    + constructor; simpl; try done.
      * intros id c' Hc'. by apply lookup_delete_Some in Hc' as [_ ?].
      * intros id c' Hc' [->|?]%lookup_delete_None; [by simplify_eq|congruence].
      * intros id c1 id' c2 Hc1 [<-|?]%lookup_delete_None [_ Hc2]%lookup_delete_Some Ht2;
          [|congruence]. simplify_eq. apply (Hmin id'); [|done|done].
        apply (range_of_dom _ _ _ Hr). by exists c2.
      * intros s id. rewrite map_lookup_filter_Some, lookup_delete_None. simpl.
        split; intros [Hs Hn]; (split; [done|]).
        -- intros [[] [->|?]]; [done|congruence].
        -- intros ->. apply Hn. split; [by exists c|by left].
    + rewrite map_size_delete_Some by by exists c.
      enough (size (commands t) <> 0%nat) by lia. intros Hz. apply map_size_empty_inv in Hz.
      rewrite Hz in Hc. by apply lookup_empty_Some in Hc.
Qed.

Section Evict.
Variable ord : gmap string Command -> list string.
Hypothesis ord_range : forall m, range_of m (ord m).

Lemma evicted_named t t' : evicted t t' -> named t -> named t'.
Proof. intros H Hn id [c Hc]. apply Hn. exists c. by apply (ev_sub _ _ H). Qed.

Lemma evict_spec over fuel t :
  (size (commands t) < fuel)%nat -> named t ->
  let t' := evict ord over fuel t in
  evicted t t' /\ (over (Z.of_nat (size (commands t'))) = false \/ no_terminal t').
Proof.
  cbv zeta. revert t. induction fuel as [|fuel IH]; intros t Hf Hn; [lia|]. simpl.
  destruct (over (Z.of_nat (size (commands t)))) eqn:Ho; [|by split; [apply evicted_refl|left]].
  pose proof (remove_oldest_spec (ord (commands t)) t (ord_range _) Hn) as H.
  destruct (removeOldestTerminalLocked _ t) as [t' []].
  - destruct H as [He Hs]. destruct (IH t') as [He' Hp]; [lia|by eapply evicted_named|].
    split; [by eapply evicted_trans|done].
  - destruct H as [-> Hnt]. split; [apply evicted_refl|by right].
Qed.

Lemma trim_spec t : named t ->
  evicted t (trim ord t) /\
  (Z.of_nat (size (commands (trim ord t))) <= maxItems t \/ no_terminal (trim ord t)).
Proof.
  intros Hn. destruct (evict_spec (fun n => maxItems t <? n) (S (size (commands t))) t)
    as [He [Ho|Ho]]; [lia|done| |by split; [|right]].
  split; [done|left]. by apply Z.ltb_ge in Ho.
Qed.

Lemma prune_spec t : named t ->
  evicted t (pruneLocked ord t) /\
  (Z.of_nat (size (commands (pruneLocked ord t))) < maxItems t \/ no_terminal (pruneLocked ord t)).
Proof.
  intros Hn. destruct (evict_spec (fun n => maxItems t <=? n) (S (size (commands t))) t)
    as [He [Ho|Ho]]; [lia|done| |by split; [|right]].
  split; [done|left]. by apply Z.leb_gt in Ho.
Qed.
End Evict.

(** ** The invariant is kept *)

Lemma wf_named t : wf t -> named t.
Proof. intros Ht id [c Hc]. by apply (wf_id _ Ht) in Hc as []. Qed.

Lemma wf_evicted t t' : wf t -> evicted t t' -> wf t'.
Proof.
  intros Ht He. constructor.
  - intros id c Hc. by apply (wf_id _ Ht), (ev_sub _ _ He).
  - intros k id. rewrite (ev_pending _ _ He). intros Hp.
    destruct (wf_pending _ Ht k id Hp) as (c & Hc & Hl & ?). exists c. split; [|done].
    destruct (commands t' !! id) as [c'|] eqn:E.
    + apply (ev_sub _ _ He) in E. congruence.
    + rewrite (ev_terminal _ _ He id c Hc E) in Hl. done.
  - intros id c Hc. rewrite (ev_pending _ _ He). by apply (wf_live _ Ht), (ev_sub _ _ He).
  - intros s id [Hs Hn]%(ev_idempotency _ _ He).
    destruct (wf_idempotency _ Ht s id Hs) as (c & Hc & ?). exists c. split; [|done].
    destruct (commands t' !! id) as [c'|] eqn:E; [|by destruct Hn].
    apply (ev_sub _ _ He) in E. congruence.
  - intros id c Hc Hk Hi. apply (ev_idempotency _ _ He). split; [|intros [_ ?]; congruence].
    apply (wf_scope _ Ht); try done. by apply (ev_sub _ _ He).
  - intros id c Hc. by eapply (wf_outcome _ Ht), (ev_sub _ _ He).
  - intros id c Hc. by eapply (wf_kind _ Ht), (ev_sub _ _ He).
  - rewrite (ev_max _ _ He). apply Ht.
Qed.

(** What no operation changes about a command. *)
Record same_request (c c' : Command) : Prop := {
  sr_id : cmd_ID c' = cmd_ID c;
  sr_kind : cmd_Kind c' = cmd_Kind c;
  sr_key : key_of c' = key_of c;
  sr_property : cmd_PropertyID c' = cmd_PropertyID c;
  sr_scope : scope_of c' = scope_of c;
  sr_idempotency : cmd_IdempotencyKey c' = cmd_IdempotencyKey c;
  sr_expected : cmd_Expected c' = cmd_Expected c;
  sr_parameters : cmd_Parameters c' = cmd_Parameters c;
  sr_created : cmd_CreatedAt c' = cmd_CreatedAt c;
  sr_deadline : cmd_Deadline c' = cmd_Deadline c;
}.

Lemma same_request_refl c : same_request c c.
Proof. by constructor. Qed.
Lemma same_request_status c st ou er now : same_request c (with_status c st ou er now).
Proof. by destruct c. Qed.
Lemma same_request_coalesced c n now : same_request c (with_coalesced c n now).
Proof. by destruct c. Qed.

#[local] Hint Resolve same_request_refl same_request_status same_request_coalesced : go.

Lemma status_with_status c st ou er now :
  cmd_Status (with_status c st ou er now) = st /\ cmd_Outcome (with_status c st ou er now) = ou.
Proof. by destruct c. Qed.
Lemma status_with_coalesced c n now :
  cmd_Status (with_coalesced c n now) = cmd_Status c /\
  cmd_Outcome (with_coalesced c n now) = cmd_Outcome c.
Proof. by destruct c. Qed.

(** A command rewritten without ending it. *)
Lemma wf_put t id c c' :
  wf t -> commands t !! id = Some c -> same_request c c' ->
  terminal (cmd_Status c') = terminal (cmd_Status c) ->
  cmd_Outcome c' = outcomeForStatus (cmd_Status c') -> wf (put t id c').
Proof.
  intros Ht Hc Hs Hterm Ho. constructor; simpl.
  - intros id0 c0 [[<- <-]|[? ?]]%lookup_insert_Some; [|by apply (wf_id _ Ht)].
    rewrite (sr_id _ _ Hs). by apply (wf_id _ Ht).
  - intros k id0 (c0 & Hc0 & Hl & Hk & Hkey)%(wf_pending _ Ht).
    destruct (decide (id = id0)) as [<-|].
    + simplify_eq. exists c'. rewrite lookup_insert_eq. split; [done|].
      by rewrite Hterm, (sr_kind _ _ Hs), (sr_key _ _ Hs).
    + exists c0. by rewrite lookup_insert_ne.
  - intros id0 c0 [[<- <-]|[? ?]]%lookup_insert_Some; [|by apply (wf_live _ Ht)].
    rewrite Hterm, (sr_kind _ _ Hs), (sr_key _ _ Hs). by apply (wf_live _ Ht).
  - intros s id0 (c0 & Hc0 & Hk & Hsc & Hik)%(wf_idempotency _ Ht).
    destruct (decide (id = id0)) as [<-|].
    + simplify_eq. exists c'. rewrite lookup_insert_eq. split; [done|].
      by rewrite (sr_kind _ _ Hs), (sr_scope _ _ Hs), (sr_idempotency _ _ Hs).
    + exists c0. by rewrite lookup_insert_ne.
  - intros id0 c0 [[<- <-]|[? ?]]%lookup_insert_Some; [|by apply (wf_scope _ Ht)].
    rewrite (sr_kind _ _ Hs), (sr_scope _ _ Hs), (sr_idempotency _ _ Hs). by apply (wf_scope _ Ht).
  - intros id0 c0 [[<- <-]|[? ?]]%lookup_insert_Some; [done|by eapply (wf_outcome _ Ht)].
  - intros id0 c0 [[<- <-]|[? ?]]%lookup_insert_Some; [|by eapply (wf_kind _ Ht)].
    rewrite (sr_kind _ _ Hs), (sr_property _ _ Hs). by apply (wf_kind _ Ht id).
  - apply Ht.
Qed.

(** No live property is filed under the key of an action. *)
Lemma action_key_free t id c : wf t -> commands t !! id = Some c -> cmd_Kind c = KindAction ->
  pending t !! key_of c = None.
Proof.
  intros Ht Hc Hk. destruct (wf_kind _ Ht id c Hc) as [[? _]|[_ Hp]]; [congruence|].
  destruct (pending t !! key_of c) as [id'|] eqn:E; [|done].
  destruct (wf_pending _ Ht _ _ E) as (c' & Hc' & _ & Hk' & Hkey).
  destruct (wf_kind _ Ht id' c' Hc') as [[_ Hw]|[? _]]; [|congruence].
  exfalso. apply (property_key_last (cmd_DeviceID c') (cmd_EndpointID c')
    (cmd_CapabilityID c') (cmd_PropertyID c') Hw).
  change (pendingKey _ _ _ _) with (key_of c'). rewrite Hkey.
  unfold key_of. rewrite Hp. apply action_key_last.
Qed.

(** The pending entry removed when a live command ends is its own. *)
Lemma pending_own t id c k id' : wf t -> commands t !! id = Some c ->
  terminal (cmd_Status c) = false -> pending t !! k = Some id' -> k = key_of c -> id' = id.
Proof.
  intros Ht Hc Hl Hp ->. destruct (wf_kind _ Ht id c Hc) as [[Hk _]|[Hk _]].
  - pose proof (wf_live _ Ht id c Hc Hk Hl). congruence.
  - rewrite (action_key_free t id c Ht Hc Hk) in Hp. done.
Qed.

(** A live command that ends. *)
Lemma wf_finish t id c c' :
  wf t -> commands t !! id = Some c -> terminal (cmd_Status c) = false -> same_request c c' ->
  terminal (cmd_Status c') = true -> cmd_Outcome c' = outcomeForStatus (cmd_Status c') ->
  wf (with_pending (put t id c') (delete (key_of c) (pending t))).
Proof.
  intros Ht Hc Hl Hs Hterm Ho. constructor; simpl.
  - intros id0 c0 [[<- <-]|[? ?]]%lookup_insert_Some; [|by apply (wf_id _ Ht)].
    rewrite (sr_id _ _ Hs). by apply (wf_id _ Ht).
  - intros k id0 [Hne Hp]%lookup_delete_Some.
    destruct (wf_pending _ Ht k id0 Hp) as (c0 & Hc0 & Hl0 & Hk & Hkey).
    destruct (decide (id = id0)) as [<-|]; [simplify_eq; done|].
    exists c0. by rewrite lookup_insert_ne.
  - intros id0 c0 [[<- <-]|[Hne Hc0]]%lookup_insert_Some; [congruence|]. intros Hk0 Hl0.
    pose proof (wf_live _ Ht _ _ Hc0 Hk0 Hl0) as Hp. apply lookup_delete_Some. split; [|done].
    intros Hkey. by rewrite (pending_own t id c _ id0 Ht Hc Hl Hp) in Hne.
  - intros s id0 (c0 & Hc0 & Hk & Hsc & Hik)%(wf_idempotency _ Ht).
    destruct (decide (id = id0)) as [<-|].
    + simplify_eq. exists c'. rewrite lookup_insert_eq. split; [done|].
      by rewrite (sr_kind _ _ Hs), (sr_scope _ _ Hs), (sr_idempotency _ _ Hs).
    + exists c0. by rewrite lookup_insert_ne.
  - intros id0 c0 [[<- <-]|[? ?]]%lookup_insert_Some; [|by apply (wf_scope _ Ht)].
    rewrite (sr_kind _ _ Hs), (sr_scope _ _ Hs), (sr_idempotency _ _ Hs). by apply (wf_scope _ Ht).
  - intros id0 c0 [[<- <-]|[? ?]]%lookup_insert_Some; [done|by eapply (wf_outcome _ Ht)].
  - intros id0 c0 [[<- <-]|[? ?]]%lookup_insert_Some; [|by eapply (wf_kind _ Ht)].
    rewrite (sr_kind _ _ Hs), (sr_property _ _ Hs). by apply (wf_kind _ Ht id).
  - apply Ht.
Qed.

(** A new property command, its key free. *)
Lemma wf_begin_property t id c :
  wf t -> commands t !! id = None -> id <> "" -> cmd_ID c = id -> cmd_Kind c = KindProperty ->
  well_named (cmd_PropertyID c) -> cmd_Status c = StatusQueued -> cmd_Outcome c = OutcomeNone ->
  pending t !! key_of c = None ->
  wf (with_pending (put t id c) (<[key_of c := id]> (pending t))).
Proof.
  intros Ht Hid Hne Eid Hk Hw Hst Hou Hfree. constructor; simpl.
  - intros id0 c0 [[<- <-]|[? ?]]%lookup_insert_Some; [done|by apply (wf_id _ Ht)].
  - intros k id0 [[<- <-]|[? Hp]]%lookup_insert_Some.
    + exists c. rewrite lookup_insert_eq, Hst. done.
    + destruct (wf_pending _ Ht k id0 Hp) as (c0 & Hc0 & ?). exists c0.
      rewrite lookup_insert_ne; [done|congruence].
  - intros id0 c0 [[<- <-]|[? Hc0]]%lookup_insert_Some; [by rewrite lookup_insert_eq|].
    intros Hk0 Hl0. pose proof (wf_live _ Ht _ _ Hc0 Hk0 Hl0).
    rewrite lookup_insert_ne; [done|congruence].
  - intros s id0 (c0 & Hc0 & ?)%(wf_idempotency _ Ht). exists c0.
    rewrite lookup_insert_ne; [done|congruence].
  - intros id0 c0 [[<- <-]|[? ?]]%lookup_insert_Some; [congruence|by apply (wf_scope _ Ht)].
  - intros id0 c0 [[<- <-]|[? ?]]%lookup_insert_Some; [by rewrite Hst|by eapply (wf_outcome _ Ht)].
  - intros id0 c0 [[<- <-]|[? ?]]%lookup_insert_Some; [by left|by eapply (wf_kind _ Ht)].
  - apply Ht.
Qed.

(** A new action, its scope free unless it has no idempotency key. *)
Lemma wf_begin_action t id c :
  wf t -> commands t !! id = None -> id <> "" -> cmd_ID c = id -> cmd_Kind c = KindAction ->
  cmd_PropertyID c = "" -> cmd_Status c = StatusQueued -> cmd_Outcome c = OutcomeNone ->
  (cmd_IdempotencyKey c <> "" -> idempotency t !! scope_of c = None) ->
  wf (if is_empty (cmd_IdempotencyKey c) then put t id c
      else with_idempotency (put t id c) (<[scope_of c := id]> (idempotency t))).
Proof.
  intros Ht Hid Hne Eid Hk Hp Hst Hou Hfree.
  set (t' := if is_empty _ then _ else _).
  assert (Ec : commands t' = <[id := c]> (commands t)) by (unfold t'; by destruct (is_empty _)).
  assert (Ep : pending t' = pending t) by (unfold t'; by destruct (is_empty _)).
  assert (Em : maxItems t' = maxItems t) by (unfold t'; by destruct (is_empty _)).
  assert (Ei : forall s id0, idempotency t' !! s = Some id0 <->
    (cmd_IdempotencyKey c <> "" /\ s = scope_of c /\ id0 = id) \/ idempotency t !! s = Some id0).
  { intros s id0. unfold t'. destruct (is_empty _) eqn:E; simpl.
    - apply is_empty_true in E. rewrite E. naive_solver.
    - apply is_empty_false in E. rewrite lookup_insert_Some. specialize (Hfree E). split.
      + intros [[<- <-]|[? ?]]; [by left|by right].
      + intros [(_ & -> & ->)|Hs]; [by left|]. right. split; [congruence|done]. }
  constructor; rewrite ?Ec, ?Ep, ?Em; try apply Ht.
  - intros id0 c0 [[<- <-]|[? ?]]%lookup_insert_Some; [done|by apply (wf_id _ Ht)].
  - intros k id0 Hp0. destruct (wf_pending _ Ht k id0 Hp0) as (c0 & Hc0 & ?). exists c0.
    rewrite lookup_insert_ne; [done|congruence].
  - intros id0 c0 [[<- <-]|[? ?]]%lookup_insert_Some; [congruence|by apply (wf_live _ Ht)].
  - intros s id0 [(? & -> & ->)|Hs]%Ei; [exists c; by rewrite lookup_insert_eq|].
    destruct (wf_idempotency _ Ht s id0 Hs) as (c0 & Hc0 & ?). exists c0.
    rewrite lookup_insert_ne; [done|congruence].
  - intros id0 c0 [[<- <-]|[? ?]]%lookup_insert_Some Hk0 Hi; apply Ei; [by left|right].
    by apply (wf_scope _ Ht).
  - intros id0 c0 [[<- <-]|[? ?]]%lookup_insert_Some; [by rewrite Hst|by eapply (wf_outcome _ Ht)].
  - intros id0 c0 [[<- <-]|[? ?]]%lookup_insert_Some; [by right|by eapply (wf_kind _ Ht)].
Qed.

(** ** Expiry *)

Definition due (now : Time) (c : Command) : bool :=
  negb (terminal (cmd_Status c) || Before now (cmd_Deadline c)).
Definition timed_out (now : Time) (c : Command) : Command :=
  with_status c StatusTimeout OutcomeUnknown (cmd_Error c) now.

Lemma due_live now c : due now c = true -> terminal (cmd_Status c) = false.
Proof. unfold due. by destruct (terminal _). Qed.

Lemma timed_out_terminal now c : terminal (cmd_Status (timed_out now c)) = true.
Proof. by destruct c. Qed.

Lemma timed_out_ID now c : cmd_ID (timed_out now c) = cmd_ID c.
Proof. by destruct c. Qed.

Lemma timed_out_not_due now c : due now (timed_out now c) = false.
Proof. unfold due. by rewrite timed_out_terminal. Qed.

(** The commands a loop over [ks] times out. *)
Definition expired_in (now : Time) (t : Tracker) (ks : list string) : list Command :=
  omap (fun id => commands t !! id ≫= fun c => if due now c then Some (timed_out now c) else None) ks.

Lemma elem_of_expired now t ks n : wf t ->
  n ∈ expired_in now t ks <->
  cmd_ID n ∈ ks /\ exists c, commands t !! cmd_ID n = Some c /\ due now c = true /\ n = timed_out now c.
Proof.
  intros Ht. unfold expired_in. rewrite list_elem_of_omap. split.
  - intros (id & Hid & E). destruct (commands t !! id) as [c|] eqn:Hc; [|done]. simpl in E.
    destruct (due now c) eqn:Hd; simplify_eq.
    rewrite timed_out_ID, (proj1 (wf_id _ Ht _ _ Hc)). split; [done|by exists c].
  - intros (Hid & c & Hc & Hd & E). exists (cmd_ID n). rewrite Hc. simpl. rewrite Hd.
    split; [done|by f_equal].
Qed.

Lemma NoDup_expired now t ks : wf t -> NoDup ks -> NoDup (cmd_ID <$> expired_in now t ks).
Proof.
  intros Ht. induction ks as [|k ks IH]; intros Hnd; [constructor|].
  apply NoDup_cons in Hnd as [Hk Hnd]. specialize (IH Hnd). unfold expired_in in *.
  cbn [omap list_omap]. destruct (commands t !! k) as [c|] eqn:Hc; [|done]. cbn [mbind option_bind].
  destruct (due now c); [|done]. rewrite fmap_cons, NoDup_cons. split; [|done].
  rewrite timed_out_ID, (proj1 (wf_id _ Ht _ _ Hc)).
  intros (n & -> & Hin)%list_elem_of_fmap. by apply (elem_of_expired now t ks n Ht) in Hin as [? _].
Qed.

Lemma expire_loop_spec now ks t :
  NoDup ks -> wf t ->
  wf (expire_loop now ks t).1 /\
  (forall id, commands (expire_loop now ks t).1 !! id =
    if bool_decide (id ∈ ks)
    then (fun c => if due now c then timed_out now c else c) <$> commands t !! id
    else commands t !! id) /\
  (expire_loop now ks t).2 = expired_in now t ks /\
  maxItems (expire_loop now ks t).1 = maxItems t /\
  idempotency (expire_loop now ks t).1 = idempotency t.
Proof.
  unfold expired_in. revert t. induction ks as [|k ks IH]; intros t Hnd Ht; [done|].
  apply NoDup_cons in Hnd as [Hk Hnd]. cbn [expire_loop].
  assert (Hin : forall id, bool_decide (id ∈ k :: ks) = bool_decide (id = k) || bool_decide (id ∈ ks)).
  { intros id. rewrite <- bool_decide_or. apply bool_decide_ext. set_solver. }
  destruct (commands t !! k) as [c|] eqn:Hc.
  - destruct (due now c) eqn:Hd.
    + assert (E : terminal (cmd_Status c) || Before now (cmd_Deadline c) = false)
        by (unfold due in Hd; by apply negb_true_iff in Hd). rewrite E. clear E.
      set (t1 := with_pending _ _).
      assert (Ht1 : wf t1).
      { unfold t1. rewrite (sr_key c _ (same_request_status _ _ _ _ _)).
        apply (wf_finish t k c); try done; [by eapply due_live|apply same_request_status|..];
          by destruct c. }
      destruct (IH t1 Hnd Ht1) as (H1 & H2 & H3 & H4 & H5).
      destruct (expire_loop now ks t1) as [t' ex]. simpl in *. split_and!; try done.
      * intros id. rewrite H2, Hin. destruct (decide (id = k)) as [->|Hne].
        -- rewrite bool_decide_eq_false_2, bool_decide_eq_true_2 by done. simpl.
           by rewrite lookup_insert_eq, Hc; simpl; rewrite Hd.
        -- rewrite (bool_decide_eq_false_2 (id = k)) by done. simpl.
           by rewrite lookup_insert_ne.
      * rewrite Hc. simpl. rewrite Hd. f_equal. rewrite H3. apply list_omap_ext.
        apply Forall2_same_length_lookup_2; [done|]. intros i a b Ha Hb. simplify_eq.
        rewrite lookup_insert_ne; [done|]. intros ->. apply Hk. by eapply list_elem_of_lookup_2.
    + assert (E : terminal (cmd_Status c) || Before now (cmd_Deadline c) = true)
        by (unfold due in Hd; by apply negb_false_iff in Hd). rewrite E. clear E.
      destruct (IH t Hnd Ht) as (H1 & H2 & H3 & H4 & H5). split_and!; try done.
      * intros id. rewrite H2, Hin. destruct (decide (id = k)) as [->|Hne].
        -- rewrite bool_decide_eq_false_2, bool_decide_eq_true_2 by done.
           rewrite Hc. simpl. by rewrite Hd.
        -- by rewrite (bool_decide_eq_false_2 (id = k)).
      * rewrite H3. simpl. rewrite Hc. simpl. by rewrite Hd.
  - destruct (IH t Hnd Ht) as (H1 & H2 & H3 & H4 & H5). split_and!; try done.
    + intros id. rewrite H2, Hin. destruct (decide (id = k)) as [->|Hne].
      * rewrite bool_decide_eq_false_2, bool_decide_eq_true_2 by done. by rewrite Hc.
      * by rewrite (bool_decide_eq_false_2 (id = k)).
    + rewrite H3. simpl. by rewrite Hc.
Qed.

(** ** The life of a command *)

(** What a step may do to the commands: a retained command keeps its request and,
    once ended, its end; a live command that ends or disappears was notified as
    ended; a new command was notified. *)
Record advances (t t' : Tracker) (notes : list Command) : Prop := {
  adv_keep id c c' : commands t !! id = Some c -> commands t' !! id = Some c' ->
    same_request c c' /\
    (terminal (cmd_Status c) = true ->
     cmd_Status c' = cmd_Status c /\ cmd_Outcome c' = cmd_Outcome c /\ cmd_Error c' = cmd_Error c);
  adv_end id c : commands t !! id = Some c -> terminal (cmd_Status c) = false ->
    (forall c', commands t' !! id = Some c' -> terminal (cmd_Status c') = true) ->
    exists n, n ∈ notes /\ same_request c n /\ terminal (cmd_Status n) = true;
  adv_new id c' : commands t !! id = None -> commands t' !! id = Some c' ->
    exists n, n ∈ notes /\ same_request n c';
}.

Lemma same_request_trans a b c : same_request a b -> same_request b c -> same_request a c.
Proof. intros [] []. constructor; congruence. Qed.

Lemma advances_refl t : advances t t [].
Proof.
  constructor; [|intros id c Hc Hl Hall|congruence].
  - intros id c c' Hc Hc'. simplify_eq. by split; [apply same_request_refl|].
  - rewrite (Hall c Hc) in Hl. done.
Qed.

Lemma advances_evict t t1 t2 notes :
  advances t t1 notes -> evicted t1 t2 -> advances t t2 notes.
Proof.
  intros H He. constructor.
  - intros id c c' Hc Hc'. apply (adv_keep _ _ _ H id); [done|by apply (ev_sub _ _ He)].
  - intros id c Hc Hl Hall. apply (adv_end _ _ _ H id c Hc Hl). intros c1 Hc1.
    destruct (commands t2 !! id) as [c2|] eqn:E; [|by apply (ev_terminal _ _ He id)].
    pose proof (ev_sub _ _ He _ _ E). simplify_eq. by apply Hall.
  - intros id c' Hn Hc'. apply (adv_new _ _ _ H id); [done|by apply (ev_sub _ _ He)].
Qed.

Lemma advances_after_evict t t1 t2 notes :
  evicted t t1 -> advances t1 t2 notes ->
  (forall id, is_Some (commands t !! id) -> commands t1 !! id = None -> commands t2 !! id = None) ->
  advances t t2 notes.
Proof.
  intros He H Hdrop. constructor.
  - intros id c c' Hc Hc'. destruct (commands t1 !! id) as [c1|] eqn:E.
    + pose proof (ev_sub _ _ He _ _ E). simplify_eq. by apply (adv_keep _ _ _ H id).
    + rewrite (Hdrop id) in Hc'; [done|by exists c|done].
  - intros id c Hc Hl Hall. apply (adv_end _ _ _ H id); [|done|done].
    destruct (commands t1 !! id) as [c1|] eqn:E.
    + pose proof (ev_sub _ _ He _ _ E). by simplify_eq.
    + pose proof (ev_terminal _ _ He _ _ Hc E). congruence.
  - intros id c' Hn Hc'. apply (adv_new _ _ _ H id); [|done].
    destruct (commands t1 !! id) as [c1|] eqn:E; [|done].
    pose proof (ev_sub _ _ He _ _ E). congruence.
Qed.

Lemma advances_trans t t1 t2 n1 n2 :
  advances t t1 n1 -> advances t1 t2 n2 ->
  (forall id, is_Some (commands t !! id) -> is_Some (commands t1 !! id)) ->
  advances t t2 (n1 ++ n2).
Proof.
  intros H1 H2 Hkeep. constructor.
  - intros id c c' Hc Hc'. destruct (Hkeep id) as [c1 Hc1]; [by exists c|].
    destruct (adv_keep _ _ _ H1 id c c1 Hc Hc1) as [Hs1 He1].
    destruct (adv_keep _ _ _ H2 id c1 c' Hc1 Hc') as [Hs2 He2].
    split; [by eapply same_request_trans|]. intros Ht. destruct (He1 Ht) as (E1 & E2 & E3).
    rewrite <- E1, <- E2, <- E3. apply He2. by rewrite E1.
  - intros id c Hc Hl Hall. destruct (Hkeep id) as [c1 Hc1]; [by exists c|].
    destruct (terminal (cmd_Status c1)) eqn:Ht1.
    + destruct (adv_end _ _ _ H1 id c Hc Hl) as (n & Hn & ?); [by intros c' Hc'; simplify_eq|].
      exists n. split; [set_solver|done].
    + destruct (adv_end _ _ _ H2 id c1 Hc1 Ht1 Hall) as (n & Hn & Hs & ?).
      exists n. split; [set_solver|]. split; [|done].
      destruct (adv_keep _ _ _ H1 id c c1 Hc Hc1) as [? _]. by eapply same_request_trans.
  - intros id c' Hn Hc'. destruct (commands t1 !! id) as [c1|] eqn:Hc1.
    + destruct (adv_new _ _ _ H1 id c1 Hn Hc1) as (n & Hin & Hs). exists n. split; [set_solver|].
      destruct (adv_keep _ _ _ H2 id c1 c' Hc1 Hc') as [? _]. by eapply same_request_trans.
    + destruct (adv_new _ _ _ H2 id c' Hc1 Hc') as (n & Hin & Hs). exists n. set_solver.
Qed.

Lemma advances_put t t' id c c' :
  commands t !! id = Some c -> commands t' = <[id := c']> (commands t) -> same_request c c' ->
  (terminal (cmd_Status c) = true ->
   cmd_Status c' = cmd_Status c /\ cmd_Outcome c' = cmd_Outcome c /\ cmd_Error c' = cmd_Error c) ->
  advances t t' [c'].
Proof.
  intros Hc E Hs Hend. constructor; rewrite E.
  - intros id0 c0 c1 Hc0 [[<- <-]|[? ?]]%lookup_insert_Some; simplify_eq; [done|].
    by split; [apply same_request_refl|].
  - intros id0 c0 Hc0 Hl Hall. destruct (decide (id = id0)) as [<-|].
    + simplify_eq. exists c'. split_and!; [set_solver|done|]. apply Hall, lookup_insert_eq.
    + rewrite (Hall c0) in Hl; [done|]. by rewrite lookup_insert_ne.
  - intros id0 c1 Hn [[<- <-]|[? ?]]%lookup_insert_Some; congruence.
Qed.

Lemma advances_new t t' id c :
  commands t !! id = None -> commands t' = <[id := c]> (commands t) -> advances t t' [c].
Proof.
  intros Hc E. constructor; rewrite E.
  - intros id0 c0 c1 Hc0. rewrite lookup_insert_ne by congruence. intros. simplify_eq.
    by split; [apply same_request_refl|].
  - intros id0 c0 Hc0 Hl Hall. rewrite (Hall c0) in Hl; [done|].
    by rewrite lookup_insert_ne by congruence.
  - intros id0 c1 Hn [[<- <-]|[? ?]]%lookup_insert_Some; [|congruence].
    exists c. split; [set_solver|apply same_request_refl].
Qed.

(** Beyond the bound at most one ended command is kept: the one a new command has
    just superseded. *)
Definition bounded (t : Tracker) : Prop :=
  Z.of_nat (size (commands t)) <= maxItems t \/
  exists id0, forall id c, commands t !! id = Some c -> terminal (cmd_Status c) = true -> id = id0.

Lemma no_terminal_bounded t : no_terminal t -> bounded t.
Proof. intros H. right. exists "". intros id c Hc. by rewrite (H id c Hc). Qed.

(** What every step guarantees. *)
Record good_step (t t' : Tracker) (notes : list Command) : Prop := {
  gs_wf : wf t';
  gs_advances : advances t t' notes;
  gs_bounded : bounded t';
}.

Lemma good_refl t : wf t -> bounded t -> good_step t t [].
Proof. intros. constructor; [done|apply advances_refl|done]. Qed.

(** A command rewritten in place, live or ended as before. *)
Lemma good_put t id c c' :
  wf t -> bounded t -> commands t !! id = Some c -> same_request c c' ->
  terminal (cmd_Status c') = terminal (cmd_Status c) ->
  cmd_Outcome c' = outcomeForStatus (cmd_Status c') ->
  (terminal (cmd_Status c) = true -> cmd_Status c' = cmd_Status c /\ cmd_Error c' = cmd_Error c) ->
  good_step t (put t id c') [c'].
Proof.
  intros Ht Hb Hc Hs Hterm Ho Hend. constructor.
  - by eapply wf_put.
  - apply (advances_put t _ id c); try done. intros Hl. destruct (Hend Hl) as [E ?].
    split_and!; [done| |done]. by rewrite Ho, E, (wf_outcome _ Ht id c Hc).
  - destruct Hb as [Hb|[id0 Hb]]; [left|right].
    + simpl. rewrite map_size_insert_Some; [done|by exists c].
    + exists id0. simpl. intros id1 c1 [[<- <-]|[? ?]]%lookup_insert_Some; [|by apply Hb].
      rewrite Hterm. by apply Hb.
Qed.

Section Steps.
Variable ord : gmap string Command -> list string.
Hypothesis ord_range : forall m, range_of m (ord m).

Lemma trim_good t t1 notes :
  wf t1 -> advances t t1 notes -> good_step t (trim ord t1) notes.
Proof.
  intros Ht Ha. destruct (trim_spec ord ord_range t1 (wf_named _ Ht)) as [He Hs].
  constructor; [by eapply wf_evicted|by eapply advances_evict|].
  destruct Hs as [Hs|Hs]; [left; by rewrite (ev_max _ _ He)|by apply no_terminal_bounded].
Qed.

(** A live command that ends, with the eviction that follows. *)
Lemma finish_good t id c c' :
  wf t -> commands t !! id = Some c -> terminal (cmd_Status c) = false -> same_request c c' ->
  terminal (cmd_Status c') = true -> cmd_Outcome c' = outcomeForStatus (cmd_Status c') ->
  good_step t (trim ord (with_pending (put t id c') (delete (key_of c) (pending t)))) [c'].
Proof.
  intros Ht Hc Hl Hs Hterm Ho. apply trim_good; [by apply wf_finish|].
  apply (advances_put t _ id c); try done. congruence.
Qed.

Lemma SetMaxItems_good t limit : wf t -> good_step t (SetMaxItems ord t limit) [].
Proof.
  intros Ht. apply trim_good.
  - destruct Ht. constructor; try done. simpl. destruct (Z.ltb_spec limit 1); lia.
  - destruct (advances_refl t) as [H1 H2 H3]. by constructor.
Qed.

Lemma AddCoalesced_good t now id n : wf t -> bounded t ->
  good_step t (AddCoalesced t now id n).1.1 (AddCoalesced t now id n).2.
Proof.
  intros Ht Hb. unfold AddCoalesced. destruct (n =? 0); [by apply good_refl|].
  destruct (commands t !! id) as [c|] eqn:Hc; [|by apply good_refl].
  apply (good_put t id c); try done; [apply same_request_coalesced|..];
    destruct (status_with_coalesced c (u64_add (cmd_Coalesced c) n) now) as [E1 E2];
    rewrite ?E1, ?E2; try done; [by apply (wf_outcome _ Ht id)|by destruct c].
Qed.

Lemma transition_good t now id st msg : wf t -> bounded t ->
  good_step t (transition ord t now id st msg).1.1 (transition ord t now id st msg).2.
Proof.
  intros Ht Hb. unfold transition.
  destruct (commands t !! id) as [c|] eqn:Hc; [|by apply good_refl].
  destruct (terminal (cmd_Status c)) eqn:Hl; [by apply good_refl|].
  set (c' := with_status _ _ _ _ _). cbn [fst snd].
  assert (Hs : same_request c c') by apply same_request_status.
  destruct (status_with_status c st (outcomeForStatus st) msg now) as [E1 E2].
  destruct (terminal st) eqn:Hst.
  - rewrite (sr_key _ _ Hs). apply (finish_good t id c c'); try done; unfold c'; congruence.
  - apply (good_put t id c); try done; unfold c'; congruence.
Qed.

Lemma Supersede_pending t id c (m : string) : wf t -> commands t !! id = Some c ->
  terminal (cmd_Status c) = false ->
  (if bool_decide (default "" (pending t !! key_of c) = id)
   then delete (key_of c) (pending t) else pending t) = delete (key_of c) (pending t).
Proof.
  intros Ht Hc Hl. case_bool_decide as E; [done|]. symmetry. apply delete_id.
  destruct (pending t !! key_of c) as [id'|] eqn:Hp; [|done].
  rewrite (pending_own t id c _ id' Ht Hc Hl Hp eq_refl) in E. done.
Qed.

Lemma Supersede_good t now id msg : wf t -> bounded t ->
  good_step t (Supersede ord t now id msg).1.1 (Supersede ord t now id msg).2.
Proof.
  intros Ht Hb. unfold Supersede. set (text := if is_empty msg then _ else _).
  destruct (commands t !! id) as [c|] eqn:Hc; [|by apply good_refl].
  destruct (terminal (cmd_Status c)) eqn:Hl; [by apply good_refl|].
  set (c' := with_status _ _ _ _ _). cbn [fst snd]. cbv zeta.
  assert (Hs : same_request c c') by apply same_request_status.
  destruct (status_with_status c StatusSuperseded OutcomeUnknown text now) as [E1 E2].
  assert (E : (if bool_decide (default "" (pending (put t id c') !! key_of c') = id)
    then with_pending (put t id c') (delete (key_of c') (pending (put t id c'))) else put t id c')
    = with_pending (put t id c') (delete (key_of c) (pending t))).
  { rewrite (sr_key _ _ Hs). simpl. rewrite <- (Supersede_pending t id c msg Ht Hc Hl) at 2.
    by destruct (bool_decide _). }
  rewrite E. apply (finish_good t id c c'); try done; unfold c'; [by rewrite E1|by rewrite E1, E2].
Qed.

Lemma Confirm_good t now d e c p v : wf t -> bounded t ->
  good_step t (Confirm ord t now d e c p v).1.1 (Confirm ord t now d e c p v).2.
Proof.
  intros Ht Hb. unfold Confirm. destruct (pending t !! _) as [id|] eqn:Hp; [|by apply good_refl].
  destruct (wf_pending _ Ht _ _ Hp) as (c0 & Hc & Hl & Hk & Hkey). rewrite Hc.
  change (default zero_command (Some c0)) with c0.
  destruct (Equal (cmd_Expected c0) v); [|by apply good_refl]. cbn [negb fst snd].
  rewrite <- Hkey. apply (finish_good t id c0); try done; [apply same_request_status|..]; by destruct c0.
Qed.

Lemma Expire_good t now : wf t -> good_step t (Expire ord t now).1 (Expire ord t now).2.
Proof.
  intros Ht. unfold Expire. pose proof (ord_range (commands t)) as Hr.
  destruct (expire_loop_spec now (ord (commands t)) t) as (H1 & H2 & H3 & _); [apply Hr|done|].
  destruct (expire_loop now (ord (commands t)) t) as [t1 ex]. simpl in *. apply trim_good; [done|].
  assert (Hl : forall id, commands t1 !! id =
    (fun c => if due now c then timed_out now c else c) <$> commands t !! id).
  { intros id. rewrite H2. case_bool_decide as Hin; [done|].
    destruct (commands t !! id) as [c|] eqn:E; [|done]. exfalso.
    by apply Hin, (range_of_dom _ _ _ Hr); exists c. }
  constructor.
  - intros id c c' Hc. rewrite Hl, Hc. simpl. intros [= <-].
    destruct (due now c) eqn:Hd; [|split; [apply same_request_refl|done]].
    split; [apply same_request_status|]. rewrite (due_live now c Hd). done.
  - intros id c Hc Hlive Hall. specialize (Hl id). rewrite Hc in Hl. simpl in Hl.
    destruct (due now c) eqn:Hd; [|rewrite (Hall c Hl) in Hlive; done].
    exists (timed_out now c). split_and!; [|apply same_request_status|apply timed_out_terminal].
    rewrite H3. apply (elem_of_expired now t _ _ Ht).
    rewrite timed_out_ID, (proj1 (wf_id _ Ht _ _ Hc)).
    split; [apply (range_of_dom _ _ _ Hr); by exists c|by exists c].
  - intros id c' Hn. rewrite Hl, Hn. done.
Qed.

(** A new command on a pruned tracker. *)
Lemma pruned_bounded t1 t2 id c :
  1 <= maxItems t1 -> (Z.of_nat (size (commands t1)) < maxItems t1 \/ no_terminal t1) ->
  commands t2 = <[id := c]> (commands t1) -> maxItems t2 = maxItems t1 ->
  commands t1 !! id = None -> terminal (cmd_Status c) = false -> bounded t2.
Proof.
  intros Hm Hp E Em Hid Hl. destruct Hp as [Hp|Hp].
  - left. rewrite E, Em, map_size_insert_None by done. lia.
  - apply no_terminal_bounded. intros id0 c0. rewrite E.
    intros [[<- <-]|[? ?]]%lookup_insert_Some; [done|by eapply Hp].
Qed.

Lemma evicted_none t t1 id : evicted t t1 -> commands t !! id = None -> commands t1 !! id = None.
Proof.
  intros He Hn. destruct (commands t1 !! id) as [c|] eqn:E; [|done].
  rewrite (ev_sub _ _ He _ _ E) in Hn. done.
Qed.

Lemma BeginAction_good t now id d e c a ps ik co :
  wf t -> bounded t -> commands t !! id = None -> id <> "" ->
  good_step t (BeginActionIdempotentCorrelated ord t now id d e c a ps ik co).1.1
    (BeginActionIdempotentCorrelated ord t now id d e c a ps ik co).2.
Proof.
  intros Ht Hb Hid Hne. unfold BeginActionIdempotentCorrelated.
  set (scope := actionIdempotencyScope d e c a ik). set (cmd := MkCommand _ _ _ _ _ _ _ _ _ _ _ _ _ _ _ _ _ _).
  destruct (if is_empty ik then None else idempotency t !! scope) as [x|] eqn:Hi.
  { destruct (negb _); by apply good_refl. }
  cbn [fst snd]. destruct (prune_spec ord ord_range t (wf_named _ Ht)) as [He Hp].
  set (t1 := pruneLocked ord t) in *. rewrite <- (ev_max _ _ He) in Hp.
  assert (Ht1 : wf t1) by by eapply wf_evicted.
  pose proof (evicted_none _ _ id He Hid) as Hid1.
  set (t2 := if is_empty ik then _ else _).
  assert (Ec : commands t2 = <[id := cmd]> (commands t1)) by (unfold t2; by destruct (is_empty ik)).
  assert (Em : maxItems t2 = maxItems t1) by (unfold t2; by destruct (is_empty ik)).
  constructor.
  - apply (wf_begin_action t1 id cmd); try done. intros Hik. simpl in Hik.
    apply is_empty_false in Hik. rewrite Hik in Hi.
    destruct (idempotency t1 !! scope_of cmd) as [x|] eqn:E; [|done].
    apply (ev_idempotency _ _ He) in E as [E _]. change (scope_of cmd) with scope in E. congruence.
  - apply (advances_after_evict t t1); [done|by eapply advances_new|].
    intros id0 [c0 Hc0] Hn. rewrite Ec, lookup_insert_ne; congruence.
  - exact (pruned_bounded t1 t2 id cmd (wf_max _ Ht1) Hp Ec Em Hid1 eq_refl).
Qed.

Lemma BeginProperty_good t now id d e c p v co :
  wf t -> bounded t -> commands t !! id = None -> id <> "" -> well_named p ->
  good_step t (BeginPropertyCorrelated ord t now id d e c p v co).1.1
    (BeginPropertyCorrelated ord t now id d e c p v co).2.
Proof.
  intros Ht Hb Hid Hne Hw. unfold BeginPropertyCorrelated.
  set (key := pendingKey d e c p). set (cmd := MkCommand _ _ _ _ _ _ _ _ _ _ _ _ _ _ _ _ _ _).
  destruct (prune_spec ord ord_range t (wf_named _ Ht)) as [He Hp].
  set (t1 := pruneLocked ord t) in *. rewrite <- (ev_max _ _ He) in Hp.
  assert (Ht1 : wf t1) by by eapply wf_evicted.
  pose proof (evicted_none _ _ id He Hid) as Hid1.
  assert (Hm : 1 <= maxItems t1) by apply Ht1.
  change (cmd_DeviceID cmd) with d.
  destruct (pending t1 !! key) as [pid|] eqn:Hpk.
  - destruct (wf_pending _ Ht1 _ _ Hpk) as (c0 & Hc0 & Hl & Hk & Hkey). rewrite Hc0.
    change (default zero_command (Some c0)) with c0. rewrite Hl. cbn [negb].
    assert (Hpid : pid <> id) by congruence.
    destruct (Equal (cmd_Expected c0) v); cbn [fst snd].
    + set (c1 := with_coalesced _ _ _).
      assert (Hb1 : bounded t1).
      { destruct Hp as [Hp|Hp]; [left; lia|by apply no_terminal_bounded]. }
      destruct (good_put t1 pid c0 c1) as [W A B]; try done;
        [apply same_request_coalesced|by destruct c0| |by destruct c0|].
      { pose proof (wf_outcome _ Ht1 _ _ Hc0). by destruct c0. }
      constructor; [done| |done]. apply (advances_after_evict t t1); [done|done|].
      intros id0 Hs Hn. simpl. rewrite lookup_insert_ne; congruence.
    + set (c1 := with_status _ _ _ _ _).
      assert (Hs1 : same_request c0 c1) by apply same_request_status.
      assert (Ht2 : wf (with_pending (put t1 pid c1) (delete key (pending t1)))).
      { rewrite <- Hkey. apply wf_finish; try done; by destruct c0. }
      assert (E : with_pending (put (put t1 pid c1) id cmd) (<[key:=id]> (pending (put t1 pid c1))) =
        with_pending (put (with_pending (put t1 pid c1) (delete key (pending t1))) id cmd)
          (<[key_of cmd := id]> (pending (with_pending (put t1 pid c1) (delete key (pending t1)))))).
      { unfold with_pending, put, with_commands. simpl. change (key_of cmd) with key.
        by rewrite insert_delete_eq. }
      rewrite E. clear E. set (t2 := with_pending (put t1 pid c1) _) in *.
      assert (Hid2 : commands t2 !! id = None) by (unfold t2; simpl; by rewrite lookup_insert_ne).
      constructor.
      * apply wf_begin_property; try done. unfold t2. simpl. apply lookup_delete_eq.
      * apply (advances_after_evict t t1); [done| |].
        -- change [c1; cmd] with ([c1] ++ [cmd]). apply (advances_trans t1 t2).
           ++ apply (advances_put t1 t2 pid c0); try done. congruence.
           ++ by apply (advances_new t2 _ id).
           ++ intros id0 Hs. unfold t2. simpl. destruct (decide (pid = id0)) as [<-|].
              ** rewrite lookup_insert_eq. by eexists.
              ** by rewrite lookup_insert_ne.
        -- intros id0 [c2 Hc2] Hn. unfold t2. simpl. rewrite !lookup_insert_ne; congruence.
      * unfold bounded. cbn [commands maxItems with_pending put with_commands t2].
        destruct Hp as [Hp|Hp]; [left|right].
        -- rewrite map_size_insert_None by (by rewrite lookup_insert_ne).
           rewrite map_size_insert_Some by by exists c0. lia.
        -- exists pid. intros id0 c2 [[<- <-]|[_ Hc2]]%lookup_insert_Some; [done|].
           apply lookup_insert_Some in Hc2 as [[<- <-]|[_ Hc2]]; [done|].
           intros Hterm. by rewrite (Hp _ _ Hc2) in Hterm.
  - cbn [fst snd app]. constructor.
    + by apply (wf_begin_property t1 id cmd).
    + apply (advances_after_evict t t1); [done|by eapply advances_new|].
      intros id0 [c0 Hc0] Hn. simpl. rewrite lookup_insert_ne; congruence.
    + by eapply (pruned_bounded t1 _ id cmd).
Qed.

Lemma tstep_good t t' notes : wf t -> bounded t -> tstep ord t t' notes -> good_step t t' notes.
Proof.
  intros Ht Hb []; try by apply transition_good.
  - by apply SetMaxItems_good.
  - by apply BeginProperty_good.
  - by apply AddCoalesced_good.
  - by apply Supersede_good.
  - by apply BeginAction_good.
  - by apply Confirm_good.
  - by apply Expire_good.
Qed.

Lemma reachable_good timeout t : treachable ord timeout t -> wf t /\ bounded t.
Proof.
  induction 1 as [|t t' notes _ [Ht Hb] Hs].
  - split; [|left; simpl; rewrite map_size_empty; lia].
    constructor; simpl; try done; intros; simplify_map_eq.
  - destruct (tstep_good t t' notes Ht Hb Hs). done.
Qed.

End Steps.

(** ** Properties *)

Section Properties.
Variable ord : gmap string Command -> list string.
Hypothesis ord_range : forall m, range_of m (ord m).

(** C31: In every reachable tracker the pending map holds exactly the live property
    commands, at most one per property, the idempotency map the retained actions
    with a key, every command has the outcome of its status, and beyond
    [MaxItems] at most one ended command is kept. *)
Theorem tracker_invariant timeout t :
  treachable ord timeout t ->
  wf t /\ bounded t /\
  forall id id' c c', commands t !! id = Some c -> commands t !! id' = Some c' ->
    cmd_Kind c = KindProperty -> cmd_Kind c' = KindProperty ->
    terminal (cmd_Status c) = false -> terminal (cmd_Status c') = false ->
    key_of c = key_of c' -> id = id'.
Proof.
  intros Hr. destruct (reachable_good ord ord_range timeout t Hr) as [Ht Hb].
  split_and!; try done. intros id id' c c' Hc Hc' Hk Hk' Hl Hl' Hkey.
  pose proof (wf_live _ Ht _ _ Hc Hk Hl) as H1. pose proof (wf_live _ Ht _ _ Hc' Hk' Hl') as H2.
  congruence.
Qed.

(** C4: No step changes the request of a command or the end of an ended one; a
    command that ends, even one evicted at once, was notified as ended; and a new
    command was notified. *)
Theorem command_lifecycle timeout t t' notes :
  treachable ord timeout t -> tstep ord t t' notes -> advances t t' notes.
Proof.
  intros Hr Hs. destruct (reachable_good ord ord_range timeout t Hr) as [Ht Hb].
  by apply (tstep_good ord ord_range).
Qed.

(** As long as an action with an idempotency key is retained, a request with
    its scope starts nothing: it replays the action when the parameters are the
    same and is refused when they differ. *)
Theorem action_idempotent timeout t now id0 id c ps co :
  treachable ord timeout t -> commands t !! id = Some c -> cmd_Kind c = KindAction ->
  cmd_IdempotencyKey c <> "" ->
  BeginActionIdempotentCorrelated ord t now id0 (cmd_DeviceID c) (cmd_EndpointID c)
    (cmd_CapabilityID c) (cmd_CommandID c) ps (cmd_IdempotencyKey c) co =
  (t, if parameterMapsEqual (cmd_Parameters c) ps then Ok (c, true)
      else Err ErrIdempotencyConflict, []).
Proof.
  intros Hr Hc Hk Hi. destruct (reachable_good ord ord_range timeout t Hr) as [Ht _].
  unfold BeginActionIdempotentCorrelated. rewrite (proj2 (is_empty_false _) Hi).
  pose proof (wf_scope _ Ht id c Hc Hk Hi) as Hs. unfold scope_of in Hs. rewrite Hs, Hc.
  change (default zero_command (Some c)) with c. by destruct (parameterMapsEqual _ _).
Qed.

Lemma Confirm_cases t now d e c p v :
  wf t ->
  match pending t !! pendingKey d e c p with
  | None => Confirm ord t now d e c p v = (t, false, [])
  | Some id => exists cmd, commands t !! id = Some cmd /\ terminal (cmd_Status cmd) = false /\
      if Equal (cmd_Expected cmd) v then
        exists t' cmd', Confirm ord t now d e c p v = (t', true, [cmd']) /\
          same_request cmd cmd' /\ cmd_Status cmd' = StatusConfirmed /\
          cmd_Outcome cmd' = OutcomeSucceeded /\
          (forall x, commands t' !! id = Some x -> x = cmd') /\
          pending t' = delete (pendingKey d e c p) (pending t) /\
          (forall id' x, id' <> id -> commands t' !! id' = Some x -> commands t !! id' = Some x) /\
          (forall id' x, id' <> id -> commands t !! id' = Some x ->
             terminal (cmd_Status x) = false -> commands t' !! id' = Some x)
      else Confirm ord t now d e c p v = (t, false, [])
  end.
Proof.
  intros Ht.
  unfold Confirm. destruct (pending t !! _) as [id|] eqn:Hp; [|done].
  destruct (wf_pending _ Ht _ _ Hp) as (cmd & Hc & Hl & Hk & Hkey). exists cmd.
  rewrite Hc. change (default zero_command (Some cmd)) with cmd. split_and!; [done|done|].
  destruct (Equal (cmd_Expected cmd) v); [|done]. cbn [negb].
  set (cmd' := with_status _ _ _ _ _). set (t1 := with_pending _ _).
  assert (Ht1 : wf t1).
  { unfold t1. rewrite <- Hkey. apply (wf_finish t id cmd); try done; by destruct cmd. }
  destruct (trim_spec ord ord_range t1 (wf_named _ Ht1)) as [He _].
  exists (trim ord t1), cmd'. split_and!; [done|apply same_request_status|by destruct cmd..| | | |].
  - intros x Hx%(ev_sub _ _ He). simpl in Hx. rewrite lookup_insert_eq in Hx. congruence.
  - by rewrite (ev_pending _ _ He).
  - intros id' x Hne Hx%(ev_sub _ _ He). simpl in Hx. by rewrite lookup_insert_ne in Hx.
  - intros id' x Hne Hx Hlx. destruct (commands (trim ord t1) !! id') as [y|] eqn:E.
    + apply (ev_sub _ _ He) in E. simpl in E. rewrite lookup_insert_ne in E; congruence.
    + assert (Hx1 : commands t1 !! id' = Some x) by (simpl; by rewrite lookup_insert_ne).
      rewrite (ev_terminal _ _ He _ _ Hx1 E) in Hlx. done.
Qed.

(** A report confirms a property command exactly when the pending command of
    that property expects the reported value; that command, and no other, becomes
    confirmed, and its property is free again. *)
Theorem confirm_spec timeout t now d e c p v :
  treachable ord timeout t ->
  match pending t !! pendingKey d e c p with
  | None => Confirm ord t now d e c p v = (t, false, [])
  | Some id => exists cmd, commands t !! id = Some cmd /\ terminal (cmd_Status cmd) = false /\
      if Equal (cmd_Expected cmd) v then
        exists t' cmd', Confirm ord t now d e c p v = (t', true, [cmd']) /\
          same_request cmd cmd' /\ cmd_Status cmd' = StatusConfirmed /\
          cmd_Outcome cmd' = OutcomeSucceeded /\
          (forall x, commands t' !! id = Some x -> x = cmd') /\
          pending t' = delete (pendingKey d e c p) (pending t) /\
          (forall id' x, id' <> id -> commands t' !! id' = Some x -> commands t !! id' = Some x) /\
          (forall id' x, id' <> id -> commands t !! id' = Some x ->
             terminal (cmd_Status x) = false -> commands t' !! id' = Some x)
      else Confirm ord t now d e c p v = (t, false, [])
  end.
Proof.
  intros Hr. apply Confirm_cases. by apply (reachable_good ord ord_range timeout).
Qed.

(** Expiry ends exactly the live commands whose deadline has been reached, as
    timeouts with an unknown outcome, and reports each of them once; afterwards no
    live command is overdue. *)
Theorem expire_complete timeout t now :
  treachable ord timeout t ->
  let '(t', expired) := Expire ord t now in
  (forall id c, commands t' !! id = Some c -> due now c = false) /\
  (forall n, n ∈ expired <->
     exists c, commands t !! cmd_ID n = Some c /\ due now c = true /\ n = timed_out now c) /\
  NoDup (cmd_ID <$> expired) /\
  (forall id c, commands t !! id = Some c -> due now c = false ->
     commands t' !! id = Some c \/ terminal (cmd_Status c) = true).
Proof.
  intros Hr. destruct (reachable_good ord ord_range timeout t Hr) as [Ht Hb].
  unfold Expire. pose proof (ord_range (commands t)) as Ho.
  destruct (expire_loop_spec now (ord (commands t)) t) as (H1 & H2 & H3 & _); [apply Ho|done|].
  destruct (expire_loop now (ord (commands t)) t) as [t1 ex]. simpl in *.
  destruct (trim_spec ord ord_range t1 (wf_named _ H1)) as [He _].
  assert (Hl : forall id, commands t1 !! id =
    (fun c => if due now c then timed_out now c else c) <$> commands t !! id).
  { intros id. rewrite H2. case_bool_decide as Hin; [done|].
    destruct (commands t !! id) as [c|] eqn:E; [|done]. exfalso.
    by apply Hin, (range_of_dom _ _ _ Ho); exists c. }
  split_and!.
  - intros id c Hc%(ev_sub _ _ He). rewrite Hl in Hc.
    apply fmap_Some in Hc as (c0 & Hc0 & ->). destruct (due now c0) eqn:E; [|done].
    apply timed_out_not_due.
  - intros n. rewrite H3, (elem_of_expired now t _ n Ht), (range_of_dom _ _ _ Ho).
    split; [by intros [_ ?]|]. intros (c & Hc & ?). split; [by exists c|by exists c].
  - rewrite H3. apply (NoDup_expired now t _ Ht), Ho.
  - intros id c Hc Hd. destruct (terminal (cmd_Status c)) eqn:Hterm; [by right|left].
    assert (Hc1 : commands t1 !! id = Some c) by (rewrite Hl, Hc; simpl; by rewrite Hd).
    destruct (commands (trim ord t1) !! id) as [c'|] eqn:E.
    + apply (ev_sub _ _ He) in E. congruence.
    + rewrite (ev_terminal _ _ He _ _ Hc1 E) in Hterm. done.
Qed.

(** Shrinking the bound evicts only ended commands, the oldest first, with the
    idempotency entries of exactly those, and stops at the bound or when no ended
    command is left. *)
Theorem set_max_items_evicts timeout t limit :
  treachable ord timeout t ->
  let t' := SetMaxItems ord t limit in
  evicted (with_maxItems t (Z.max 1 limit)) t' /\
  (Z.of_nat (size (commands t')) <= Z.max 1 limit \/ no_terminal t').
Proof.
  intros Hr. destruct (reachable_good ord ord_range timeout t Hr) as [Ht _].
  unfold SetMaxItems. assert ((if limit <? 1 then 1 else limit) = Z.max 1 limit) as ->
    by (destruct (Z.ltb_spec limit 1); lia).
  apply (trim_spec ord ord_range). intros id Hs. by apply (wf_named _ Ht).
Qed.

(** A property request joins the live command of its property when the values
    are equal, and otherwise becomes the live command itself, superseding the
    previous one; in both cases the command returned is the pending one. *)
Theorem begin_property_spec timeout t now id d e c p v co :
  treachable ord timeout t -> commands t !! id = None -> id <> "" -> well_named p ->
  let '(t', (cmd, superseded, joined), _) := BeginPropertyCorrelated ord t now id d e c p v co in
  pending t' !! pendingKey d e c p = Some (cmd_ID cmd) /\
  commands t' !! cmd_ID cmd = Some cmd /\ terminal (cmd_Status cmd) = false /\
  match pending t !! pendingKey d e c p with
  | None => cmd_ID cmd = id /\ cmd_Expected cmd = v /\ superseded = None /\ joined = false
  | Some pid => exists previous, commands t !! pid = Some previous /\
      if Equal (cmd_Expected previous) v then
        joined = true /\ superseded = None /\ same_request previous cmd /\
        cmd_Coalesced cmd = u64_succ (cmd_Coalesced previous)
      else
        joined = false /\ cmd_ID cmd = id /\ cmd_Expected cmd = v /\
        exists s, superseded = Some s /\ same_request previous s /\
          cmd_Status s = StatusSuperseded /\ commands t' !! pid = Some s
  end.
Proof.
  intros Hr Hid Hne Hw. destruct (reachable_good ord ord_range timeout t Hr) as [Ht _].
  unfold BeginPropertyCorrelated. set (key := pendingKey d e c p).
  destruct (prune_spec ord ord_range t (wf_named _ Ht)) as [He _].
  set (t1 := pruneLocked ord t) in *. assert (Ht1 : wf t1) by by eapply wf_evicted.
  rewrite (ev_pending _ _ He). destruct (pending t !! key) as [pid|] eqn:Hp.
  - destruct (wf_pending _ Ht1 key pid) as (c0 & Hc0 & Hl & _); [by rewrite (ev_pending _ _ He)|].
    pose proof (ev_sub _ _ He _ _ Hc0) as Hct. rewrite Hc0.
    change (default zero_command (Some c0)) with c0. rewrite Hl. cbn [negb].
    assert (Epid : cmd_ID c0 = pid) by by apply (wf_id _ Ht1).
    destruct (Equal (cmd_Expected c0) v) eqn:Heq.
    + rewrite (sr_id c0 _ (same_request_coalesced _ _ _)), Epid. simpl.
      rewrite (ev_pending _ _ He), lookup_insert_eq. split_and!; try done; [by destruct c0|].
      exists c0. rewrite Heq. split_and!; try done; [apply same_request_coalesced|by destruct c0].
    + simpl. rewrite !lookup_insert_eq. split_and!; try done. exists c0. rewrite Heq.
      split_and!; try done. eexists. split_and!; [done|apply same_request_status|by destruct c0|].
      rewrite lookup_insert_ne by congruence. by rewrite lookup_insert_eq.
  - simpl. by rewrite !lookup_insert_eq.
Qed.
End Properties.

(** ** Concrete instances *)

Definition ord0 : gmap string Command -> list string := some_range.

Lemma ord0_range m : range_of m (ord0 m).
Proof. apply range_of_some_range. Qed.

Definition ex_t1 : Tracker :=
  (BeginPropertyCorrelated ord0 (NewTracker 30) 100 "c1" "lamp" "main" "switch" "power"
     (BoolValue true) "").1.1.
Definition ex_t2 : Tracker :=
  (BeginActionIdempotentCorrelated ord0 ex_t1 110 "c2" "vacuum" "main" "cleaner" "start"
     {["room" := StringValue "kitchen"]} "key-1" "").1.1.

Lemma ex_t1_reachable : treachable ord0 30 ex_t1.
Proof.
  eapply treachable_step; [apply treachable_new|]. apply step_begin_property; [done|done|].
  by exists "r"%char.
Qed.

Lemma ex_t2_reachable : treachable ord0 30 ex_t2.
Proof.
  eapply treachable_step; [apply ex_t1_reachable|]. apply step_begin_action; [|done].
  vm_compute. reflexivity.
Qed.

Definition the_command (t : Tracker) (id : string) : Command :=
  default zero_command (commands t !! id).

Lemma tracker_invariant_witness : wf ex_t2 /\ bounded ex_t2.
Proof.
  destruct (tracker_invariant ord0 ord0_range 30 ex_t2 ex_t2_reachable) as (H1 & H2 & _).
  split; [exact H1|exact H2].
Defined.

Lemma command_lifecycle_witness :
  advances ex_t2 (Expire ord0 ex_t2 135).1 (Expire ord0 ex_t2 135).2 /\
  length (Expire ord0 ex_t2 135).2 = 1%nat.
Proof.
  split; [|vm_compute; reflexivity].
  apply (command_lifecycle ord0 ord0_range 30 ex_t2); [apply ex_t2_reachable|apply step_expire].
Defined.

Lemma action_idempotent_witness :
  BeginActionIdempotentCorrelated ord0 ex_t2 120 "c3" "vacuum" "main" "cleaner" "start"
    {["room" := StringValue "bath"]} "key-1" "" = (ex_t2, Err ErrIdempotencyConflict, []) /\
  BeginActionIdempotentCorrelated ord0 ex_t2 120 "c3" "vacuum" "main" "cleaner" "start"
    {["room" := StringValue "kitchen"]} "key-1" "" = (ex_t2, Ok (the_command ex_t2 "c2", true), []).
Proof.
  pose proof (fun ps => action_idempotent ord0 ord0_range 30 ex_t2 120 "c3" "c2"
    (the_command ex_t2 "c2") ps "" ex_t2_reachable) as H.
  split; (etransitivity; [apply H; [vm_compute; reflexivity|vm_compute; reflexivity|vm_compute; discriminate]|]);
    vm_compute; reflexivity.
Defined.

Lemma confirm_spec_witness :
  exists t' c', Confirm ord0 ex_t2 120 "lamp" "main" "switch" "power" (BoolValue true) = (t', true, [c'])
    /\ cmd_Status c' = StatusConfirmed.
Proof.
  pose proof (confirm_spec ord0 ord0_range 30 ex_t2 120 "lamp" "main" "switch" "power"
    (BoolValue true) ex_t2_reachable) as H.
  replace (pending ex_t2 !! pendingKey "lamp" "main" "switch" "power") with (Some "c1") in H
    by (vm_compute; reflexivity).
  destruct H as (c & Hc & _ & H).
  replace (Equal (cmd_Expected c) (BoolValue true)) with true in H.
  - destruct H as (t' & c' & H & _ & Hs & _). exists t', c'. split; [exact H|exact Hs].
  - replace c with (the_command ex_t2 "c1") by (unfold the_command; by rewrite Hc).
    vm_compute. reflexivity.
Defined.

Lemma expire_complete_witness :
  due 135 (the_command (Expire ord0 ex_t2 135).1 "c2") = false.
Proof.
  pose proof (expire_complete ord0 ord0_range 30 ex_t2 135 ex_t2_reachable) as H.
  assert (E : commands (Expire ord0 ex_t2 135).1 !! "c2" =
    Some (the_command (Expire ord0 ex_t2 135).1 "c2")) by (vm_compute; reflexivity).
  destruct (Expire ord0 ex_t2 135) as [t' ex]. destruct H as (H & _).
  apply (H "c2"). exact E.
Defined.

Lemma set_max_items_evicts_witness :
  evicted (with_maxItems ex_t2 (Z.max 1 0)) (SetMaxItems ord0 ex_t2 0).
Proof. apply (set_max_items_evicts ord0 ord0_range 30 ex_t2 0 ex_t2_reachable). Defined.

Lemma begin_property_spec_witness :
  pending (BeginPropertyCorrelated ord0 ex_t2 120 "c3" "lamp" "main" "switch" "power"
    (BoolValue false) "").1.1 !! pendingKey "lamp" "main" "switch" "power" = Some "c3".
Proof.
  pose proof (begin_property_spec ord0 ord0_range 30 ex_t2 120 "c3" "lamp" "main" "switch" "power"
    (BoolValue false) "" ex_t2_reachable ltac:(vm_compute; reflexivity) ltac:(discriminate)
    ltac:(exists "r"%char; split; [reflexivity|discriminate])) as H.
  destruct (BeginPropertyCorrelated ord0 ex_t2 120 "c3" "lamp" "main" "switch" "power"
    (BoolValue false) "") as [[t' [[c s] j]] n] eqn:E.
  destruct H as (H & _). cbn [fst]. rewrite H. replace c with
    (BeginPropertyCorrelated ord0 ex_t2 120 "c3" "lamp" "main" "switch" "power"
       (BoolValue false) "").1.2.1.1 by (by rewrite E).
  vm_compute. reflexivity.
Defined.
