(* ===== verification/CommandCoordinator.v ===== *)
(** * Command coordination: backend/internal/application/command_coordinator.go

    Writes to one device are serialised by a gate, a channel that holds one token;
    different devices do not wait for each other.  A goroutine finds or makes the
    gate of its device, takes the token, or waits for it until its context is done,
    and gives the token back through the function [acquire] returns.  A gate counts
    the goroutines that refer to it, and the last one removes it from the map.

    The state holds the gates (by address, since goroutines keep pointers to them)
    and the position of every goroutine inside [acquire] or the function it
    returned.  [exec] is one atomic action of one goroutine: a section under the
    mutex, an operation on an atomic counter, or an operation on a channel; any
    interleaving of them is a sequence of [step]s.  [refs] and [pending] count
    goroutines, of which memory holds far fewer than 2^63, so that they are plain
    integers. *)

From S2P Require Import Prelude.

(** The channel holds at most one token. *)
Record commandGate := MkCommandGate {
  token : nat;
  refs : Z;
}.

(** Where a goroutine stands: its device, its gate, and its local variables. *)
Inductive Position :=
| AtPoll (dev : string) (a : nat)                   (* before the first [select] *)
| AtAdd (dev : string) (a : nat)                    (* it found no token *)
| AtLoad (dev : string) (a : nat) (n : Z)           (* [pending := n] *)
| AtSwap (dev : string) (a : nat) (n maximum : Z)   (* it read [maximum] *)
| AtWait (dev : string) (a : nat) (n : Z)           (* before the second [select] *)
| AtLeave (dev : string) (a : nat)                  (* its context is done *)
| AtEnter (dev : string) (a : nat)                  (* it received the token *)
| AtHold (dev : string) (a : nat)                   (* [acquire] returned *)
| AtUnref (dev : string) (a : nat).                 (* before [releaseReference] *)

Record commandCoordinator := MkCoordinator {
  gates : gmap string nat;
  heap : gmap nat commandGate;
  pending : Z;
  maxPending : Z;
  threads : gmap nat Position;
}.

Definition newCommandCoordinator : commandCoordinator := MkCoordinator ∅ ∅ 0 0 ∅.

Definition move (s : commandCoordinator) (t : nat) (p : Position) : commandCoordinator :=
  MkCoordinator (gates s) (heap s) (pending s) (maxPending s) (<[t := p]> (threads s)).
Definition leave (s : commandCoordinator) (t : nat) : commandCoordinator :=
  MkCoordinator (gates s) (heap s) (pending s) (maxPending s) (delete t (threads s)).
Definition put_gate (s : commandCoordinator) (a : nat) (g : commandGate) : commandCoordinator :=
  MkCoordinator (gates s) (<[a := g]> (heap s)) (pending s) (maxPending s) (threads s).
Definition add_pending (s : commandCoordinator) (n : Z) : commandCoordinator :=
  MkCoordinator (gates s) (heap s) (pending s + n) (maxPending s) (threads s).
Definition set_maxPending (s : commandCoordinator) (n : Z) : commandCoordinator :=
  MkCoordinator (gates s) (heap s) (pending s) n (threads s).

(** An address no gate uses. *)
Definition next_address (s : commandCoordinator) : nat := fresh (dom (heap s)).

(** The first section of [acquire]: the gate of the device, made with its token
    when there is none, and one more reference to it. *)
Definition acquire_gate (s : commandCoordinator) (deviceID : string)
    : option (commandCoordinator * nat) :=
  match gates s !! deviceID with
  | None =>
      let a := next_address s in
      Some (MkCoordinator (<[deviceID := a]> (gates s)) (<[a := MkCommandGate 1 1]> (heap s))
              (pending s) (maxPending s) (threads s), a)
  | Some a =>
      match heap s !! a with
      | None => None
      | Some g => Some (put_gate s a (MkCommandGate (token g) (refs g + 1)), a)
      end
  end.

(** A receive from the channel: [None] when it is empty. *)
Definition receive (s : commandCoordinator) (a : nat) : option commandCoordinator :=
  match heap s !! a with
  | Some (MkCommandGate (S n) r) => Some (put_gate s a (MkCommandGate n r))
  | _ => None
  end.

(** [gate.token <- struct{}{}]: it blocks, [None], when the channel is full. *)
Definition send (s : commandCoordinator) (a : nat) : option commandCoordinator :=
  match heap s !! a with
  | Some (MkCommandGate O r) => Some (put_gate s a (MkCommandGate 1 r))
  | _ => None
  end.

Definition releaseReference (s : commandCoordinator) (deviceID : string) (a : nat)
    : option commandCoordinator :=
  match heap s !! a with
  | None => None
  | Some g =>
      let s := put_gate s a (MkCommandGate (token g) (refs g - 1)) in
      Some (if (refs g - 1 =? 0) && bool_decide (gates s !! deviceID = Some a)
            then MkCoordinator (delete deviceID (gates s)) (heap s) (pending s) (maxPending s)
                   (threads s)
            else s)
  end.

Definition stats (s : commandCoordinator) : Z * Z := (pending s, maxPending s).

Inductive Event :=
| Call (t : nat) (deviceID : string)   (* [acquire(ctx, deviceID)] *)
| Go (t : nat)                         (* the next action of the goroutine *)
| Done (t : nat)                       (* its context is done, and it takes that branch *)
| Release (t : nat).                   (* the first call of the function returned *)

(** One action of the goroutine [t]; [None] when it cannot happen.  A second call
    of the function [acquire] returned does nothing, by [sync.Once]. *)
Definition exec (e : Event) (s : commandCoordinator) : option commandCoordinator :=
  match e with
  | Call t deviceID =>
      match threads s !! t with
      | Some _ => None
      | None =>
          '(s, a) ← acquire_gate s deviceID;
          Some (move s t (AtPoll deviceID a))
      end
  | Go t =>
      match threads s !! t with
      | Some (AtPoll dev a) =>
          Some (match receive s a with
                | Some s => move s t (AtHold dev a)
                | None => move s t (AtAdd dev a)
                end)
      | Some (AtAdd dev a) =>
          let s := add_pending s 1 in Some (move s t (AtLoad dev a (pending s)))
      | Some (AtLoad dev a n) =>
          let maximum := maxPending s in
          Some (if n <=? maximum then move s t (AtWait dev a n)
                else move s t (AtSwap dev a n maximum))
      | Some (AtSwap dev a n maximum) =>
          Some (if maxPending s =? maximum
                then move (set_maxPending s n) t (AtWait dev a n)
                else move s t (AtLoad dev a n))
      | Some (AtWait dev a n) =>
          s ← receive s a; Some (move s t (AtEnter dev a))
      | Some (AtLeave dev a) => Some (move (add_pending s (-1)) t (AtUnref dev a))
      | Some (AtEnter dev a) => Some (move (add_pending s (-1)) t (AtHold dev a))
      | Some (AtUnref dev a) => s ← releaseReference s dev a; Some (leave s t)
      | Some (AtHold _ _) | None => None
      end
  | Done t =>
      match threads s !! t with
      | Some (AtWait dev a n) => Some (move s t (AtLeave dev a))
      | _ => None
      end
  | Release t =>
      match threads s !! t with
      | Some (AtHold dev a) => s ← send s a; Some (move s t (AtUnref dev a))
      | _ => None
      end
  end.

Definition step (s s' : commandCoordinator) : Prop := exists e, exec e s = Some s'.
Definition reachable : commandCoordinator -> Prop := rtc step newCommandCoordinator.

Definition run (es : list Event) (s : commandCoordinator) : option commandCoordinator :=
  foldl (fun s e => s ≫= exec e) (Some s) es.

(** ** What the positions mean *)

Definition gate_of (p : Position) : string * nat :=
  match p with
  | AtPoll d a | AtAdd d a | AtLoad d a _ | AtSwap d a _ _ | AtWait d a _
  | AtLeave d a | AtEnter d a | AtHold d a | AtUnref d a => (d, a)
  end.

(** It has the token. *)
Definition has_token (p : Position) : bool :=
  match p with AtEnter _ _ | AtHold _ _ => true | _ => false end.

(** It is counted in [pending]. *)
Definition is_pending (p : Position) : bool :=
  match p with
  | AtLoad _ _ _ | AtSwap _ _ _ _ | AtWait _ _ _ | AtLeave _ _ | AtEnter _ _ => true
  | _ => false
  end.

(** The number of goroutines at a position that satisfies [P]. *)
Definition count (P : Position -> bool) (m : gmap nat Position) : Z :=
  Z.of_nat (size (filter (fun kv => P kv.2 = true) m)).

Definition at_gate (a : nat) (p : Position) : bool := bool_decide ((gate_of p).2 = a).
Definition holds_gate (a : nat) (p : Position) : bool := at_gate a p && has_token p.

(** ** The abstract specification: one lock per device *)

Inductive lock_step : gmap string nat -> gmap string nat -> Prop :=
| lock_acquire o d t : o !! d = None -> lock_step o (<[d := t]> o)
| lock_release o d t : o !! d = Some t -> lock_step o (delete d o).

(** [o] gives the owner of each device in [s]. *)
Definition represents (s : commandCoordinator) (o : gmap string nat) : Prop :=
  forall d t, o !! d = Some t <->
    exists p, threads s !! t = Some p /\ (gate_of p).1 = d /\ has_token p = true.

(** ** The invariant *)

Record coordinator_inv (s : commandCoordinator) : Prop := {
  inv_threads : forall t p, threads s !! t = Some p -> gates s !! (gate_of p).1 = Some (gate_of p).2;
  inv_inj : forall d1 d2 a, gates s !! d1 = Some a -> gates s !! d2 = Some a -> d1 = d2;
  inv_gates : forall d a, gates s !! d = Some a -> exists g, heap s !! a = Some g /\
    refs g = count (at_gate a) (threads s) /\ 0 < refs g /\
    Z.of_nat (token g) + count (holds_gate a) (threads s) = 1;
  inv_pending : pending s = count is_pending (threads s);
  inv_max : forall t p, threads s !! t = Some p ->
    match p with
    | AtWait _ _ n => n <= maxPending s
    | AtSwap _ _ n m => m < n
    | _ => True
    end;
}.

(** ** Counting goroutines *)

Definition b2z (b : bool) : Z := if b then 1 else 0.

Lemma count_delete (P : Position -> bool) (m : gmap nat Position) (t : nat) :
  count P (delete t m) = count P m - (match m !! t with Some p => b2z (P p) | None => 0 end).
Proof.
  unfold count. rewrite map_filter_delete, map_size_delete.
  destruct (m !! t) as [p|] eqn:Hp.
  - destruct (P p) eqn:HP; simpl.
    + assert (Hf : filter (fun kv : nat * Position => P kv.2 = true) m !! t = Some p)
        by (apply map_lookup_filter_Some; auto).
      rewrite Hf; simpl. assert (size (filter (fun kv : nat * Position => P kv.2 = true) m) <> 0)%nat.
      { rewrite map_size_ne_0_lookup. eauto. }
      lia.
    + assert (Hf : filter (fun kv : nat * Position => P kv.2 = true) m !! t = None).
      { apply map_lookup_filter_None; right. intros q Hq; simpl. congruence. }
      rewrite Hf; simpl; lia.
  - assert (Hf : filter (fun kv : nat * Position => P kv.2 = true) m !! t = None)
      by (apply map_lookup_filter_None; auto).
    rewrite Hf; simpl; lia.
Qed.

Lemma count_insert (P : Position -> bool) (m : gmap nat Position) (t : nat) (p : Position) :
  count P (<[t := p]> m) =
  count P m + b2z (P p) - (match m !! t with Some q => b2z (P q) | None => 0 end).
Proof.
  rewrite <- insert_delete_eq.
  assert (Hd : count P (<[t := p]> (delete t m)) = count P (delete t m) + b2z (P p)).
  { unfold count. rewrite map_filter_insert; simpl.
    destruct (decide (P p = true)) as [->|HP].
    - rewrite map_size_insert_None; [simpl; lia|].
      apply map_lookup_filter_None; left. apply lookup_delete_eq.
    - apply not_true_is_false in HP as ->. rewrite delete_delete_eq; simpl; lia. }
  rewrite Hd, count_delete; lia.
Qed.

Lemma count_nonneg (P : Position -> bool) (m : gmap nat Position) : 0 <= count P m.
Proof. unfold count; lia. Qed.

Lemma count_pos (P : Position -> bool) (m : gmap nat Position) (t : nat) (p : Position) :
  m !! t = Some p -> P p = true -> 0 < count P m.
Proof.
  intros Hp HP. pose proof (count_delete P m t) as H. rewrite Hp, HP in H. simpl in H.
  pose proof (count_nonneg P (delete t m)). lia.
Qed.

Lemma count_two (P : Position -> bool) (m : gmap nat Position) (t1 t2 : nat) (p1 p2 : Position) :
  m !! t1 = Some p1 -> m !! t2 = Some p2 -> P p1 = true -> P p2 = true -> count P m <= 1 ->
  t1 = t2.
Proof.
  intros H1 H2 HP1 HP2 Hc. destruct (decide (t1 = t2)) as [|Hne]; [done|].
  pose proof (count_delete P m t1) as H. rewrite H1, HP1 in H; simpl in H.
  pose proof (count_pos P (delete t1 m) t2 p2) as Hpos.
  rewrite lookup_delete_ne in Hpos by done. specialize (Hpos H2 HP2). lia.
Qed.

Lemma count_exists (P : Position -> bool) (m : gmap nat Position) :
  0 < count P m -> exists t p, m !! t = Some p /\ P p = true.
Proof.
  intros Hc. unfold count in Hc.
  assert (Hs : size (filter (fun kv : nat * Position => P kv.2 = true) m) <> 0%nat) by lia.
  apply map_size_ne_0_lookup in Hs as [t [p Hp]].
  apply map_lookup_filter_Some in Hp as [? ?]. eauto.
Qed.

Lemma count_none (P : Position -> bool) (m : gmap nat Position) :
  (forall t p, m !! t = Some p -> P p = false) -> count P m = 0.
Proof.
  intros H. destruct (Z_lt_le_dec 0 (count P m)) as [Hc|Hc].
  - apply count_exists in Hc as (t & p & Hp & HP). rewrite (H t p Hp) in HP. discriminate.
  - pose proof (count_nonneg P m). lia.
Qed.

(** ** Every action preserves the invariant *)

Lemma inv_new : coordinator_inv newCommandCoordinator.
Proof.
  constructor; simpl; try (intros; rewrite lookup_empty in *; discriminate). reflexivity.
Qed.

(** An action of a goroutine at its gate: it moves from [p] to [p'], and the gate
    may hold another number of tokens. *)
Lemma inv_action (s s' : commandCoordinator) (t : nat) (p p' : Position) (g g' : commandGate) :
  coordinator_inv s -> threads s !! t = Some p -> gate_of p' = gate_of p ->
  heap s !! (gate_of p).2 = Some g ->
  gates s' = gates s -> heap s' = <[(gate_of p).2 := g']> (heap s) ->
  threads s' = <[t := p']> (threads s) ->
  refs g' = refs g ->
  Z.of_nat (token g') + b2z (has_token p') = Z.of_nat (token g) + b2z (has_token p) ->
  pending s' = pending s + b2z (is_pending p') - b2z (is_pending p) ->
  maxPending s <= maxPending s' ->
  match p' with AtWait _ _ n => n <= maxPending s' | AtSwap _ _ n m => m < n | _ => True end ->
  coordinator_inv s'.
Proof.
  intros [It Ii Ig Ip Im] Hp Hgate Hg Hgs Hh Ht Hrefs Htok Hpend Hmax Hp'.
  constructor; rewrite ?Hgs, ?Ht.
  - intros t0 p0. rewrite lookup_insert_Some; intros [[<- <-]|[_ H]]; [|eauto].
    rewrite Hgate. eauto.
  - exact Ii.
  - intros d a Ha. destruct (Ig d a Ha) as (g0 & Hg0 & Hr0 & Hpos & Hinv).
    rewrite Hh, !count_insert, !Hp. unfold holds_gate, at_gate. rewrite Hgate.
    destruct (decide ((gate_of p).2 = a)) as [<-|Hne].
    + rewrite lookup_insert_eq. exists g'. rewrite Hg in Hg0; simplify_eq.
      rewrite bool_decide_true by done. cbn [andb].
      unfold holds_gate, at_gate in Hinv, Hr0. split_and!; [done| |lia|]; lia.
    + rewrite lookup_insert_ne by done. exists g0.
      rewrite bool_decide_false by done. cbn [andb b2z].
      unfold holds_gate, at_gate in Hinv, Hr0. split_and!; [done| |lia|]; lia.
  - rewrite Hpend, Ip, count_insert, Hp. lia.
  - intros t0 p0. rewrite lookup_insert_Some; intros [[<- <-]|[_ H]]; [exact Hp'|].
    specialize (Im t0 p0 H). destruct p0; lia || done.
Qed.

Lemma inv_gate_of (s : commandCoordinator) (t : nat) (p : Position) :
  coordinator_inv s -> threads s !! t = Some p ->
  exists g, heap s !! (gate_of p).2 = Some g /\
    refs g = count (at_gate (gate_of p).2) (threads s) /\ 0 < refs g /\
    Z.of_nat (token g) + count (holds_gate (gate_of p).2) (threads s) = 1.
Proof. intros Hi Hp. exact (inv_gates s Hi _ _ (inv_threads s Hi t p Hp)). Qed.

Lemma inv_call (s s' : commandCoordinator) (t a : nat) (d : string) :
  coordinator_inv s -> threads s !! t = None -> acquire_gate s d = Some (s', a) ->
  coordinator_inv (move s' t (AtPoll d a)).
Proof.
  intros [It Ii Ig Ip Im] Ht. unfold acquire_gate.
  destruct (gates s !! d) as [a0|] eqn:Hd; [destruct (heap s !! a0) as [g|] eqn:Hg; [|done]|];
    intros [= <- <-]; constructor; simpl.
  - intros t0 p0. rewrite lookup_insert_Some; intros [[<- <-]|[_ H]]; [done|eauto].
  - exact Ii.
  - intros d1 a1 Ha1. destruct (Ig d1 a1 Ha1) as (g1 & Hg1 & Hr1 & Hpos & Hinv).
    rewrite !count_insert, Ht. unfold holds_gate, at_gate in *; simpl in *. rewrite andb_false_r; simpl.
    destruct (decide (a0 = a1)) as [<-|Hne].
    + rewrite lookup_insert_eq, bool_decide_true by done. simplify_eq.
      eexists; split; [done|]; simpl. lia.
    + rewrite lookup_insert_ne, bool_decide_false by done. eexists; split; [done|]; simpl. lia.
  - rewrite count_insert, Ht. simpl. lia.
  - intros t0 p0. rewrite lookup_insert_Some; intros [[<- <-]|[_ H]]; [done|].
    apply (Im _ _ H).
  - intros t0 p0. rewrite lookup_insert_Some; intros [[<- <-]|[_ H]].
    + apply lookup_insert_eq.
    + rewrite lookup_insert_ne; [eauto|]. intros ->. rewrite (It _ _ H) in Hd. discriminate.
  - assert (Hfresh : forall d1, gates s !! d1 <> Some (next_address s)).
    { intros d1 H. destruct (Ig _ _ H) as (g1 & Hg1 & _).
      apply (is_fresh (dom (heap s))). apply elem_of_dom. unfold next_address in Hg1. eauto. }
    intros d1 d2 a1. rewrite !lookup_insert_Some.
    intros [[? ?]|[_ ?]] [[? ?]|[_ ?]]; simplify_eq; first [done|by eauto|exfalso; by eapply Hfresh].
  - intros d1 a1. rewrite lookup_insert_Some; intros [[<- <-]|[Hne H]].
    + exists (MkCommandGate 1 1). rewrite lookup_insert_eq, !count_insert, Ht.
      assert (Hno : forall t0 p0, threads s !! t0 = Some p0 ->
                at_gate (next_address s) p0 = false).
      { intros t0 p0 H0. apply bool_decide_false. intros Heq.
        destruct (Ig _ _ (It _ _ H0)) as (g1 & Hg1 & _). rewrite Heq in Hg1.
        apply (is_fresh (dom (heap s))). apply elem_of_dom. unfold next_address in Hg1. eauto. }
      rewrite !count_none; [|intros; unfold holds_gate; by erewrite Hno by done|done].
      unfold holds_gate, at_gate; simpl. rewrite bool_decide_true by done. split_and!; done || lia.
    + destruct (Ig _ _ H) as (g1 & Hg1 & Hr1 & Hpos & Hinv).
      assert (next_address s <> a1).
      { intros <-. apply (is_fresh (dom (heap s))). apply elem_of_dom.
        unfold next_address in Hg1. eauto. }
      exists g1. rewrite lookup_insert_ne, !count_insert, Ht by done.
      unfold holds_gate, at_gate in *; simpl. rewrite bool_decide_false by done. simpl.
      split_and!; done || lia.
  - rewrite count_insert, Ht. simpl. lia.
  - intros t0 p0. rewrite lookup_insert_Some; intros [[<- <-]|[_ H]]; [done|].
    apply (Im _ _ H).
Qed.

Lemma inv_unref (s s' : commandCoordinator) (t a : nat) (d : string) :
  coordinator_inv s -> threads s !! t = Some (AtUnref d a) -> releaseReference s d a = Some s' ->
  coordinator_inv (leave s' t).
Proof.
  intros Hinv Ht. destruct (inv_gate_of s t _ Hinv Ht) as (g & Hg & Hr & Hpos & Htok).
  destruct Hinv as [It Ii Ig Ip Im]. simpl in *.
  unfold releaseReference. rewrite Hg, bool_decide_true, andb_true_r by exact (It t _ Ht).
  intros [= <-].
  assert (Hother : forall d1 a1, gates s !! d1 = Some a1 -> a1 <> a -> exists g1,
    <[a := MkCommandGate (token g) (refs g - 1)]> (heap s) !! a1 = Some g1 /\
    refs g1 = count (at_gate a1) (delete t (threads s)) /\ 0 < refs g1 /\
    Z.of_nat (token g1) + count (holds_gate a1) (delete t (threads s)) = 1).
  { intros d1 a1 Ha1 Hne. destruct (Ig d1 a1 Ha1) as (g1 & Hg1 & Hr1 & Hp1 & Hi1).
    exists g1. rewrite lookup_insert_ne, !count_delete, Ht by done.
    unfold holds_gate, at_gate in *; simpl. rewrite bool_decide_false by done; simpl.
    split_and!; done || lia. }
  assert (Hown : refs g - 1 = count (at_gate a) (delete t (threads s)) /\
    Z.of_nat (token g) + count (holds_gate a) (delete t (threads s)) = 1).
  { rewrite !count_delete, Ht. unfold holds_gate, at_gate in *; simpl.
    rewrite bool_decide_true by done; simpl. lia. }
  destruct (Z.eqb_spec (refs g - 1) 0) as [Hz|Hz]; constructor; simpl.
  - intros t0 p0. rewrite lookup_delete_Some. intros [Hne H].
    rewrite lookup_delete_ne; [eauto|]. intros Heq.
    pose proof (It _ _ H) as Hg0. pose proof (It _ _ Ht) as Hd; simpl in Hd.
    rewrite <- Heq, Hd in Hg0.
    pose proof (count_pos (at_gate a) (delete t (threads s)) t0 p0) as Hc.
    rewrite lookup_delete_ne in Hc by done. unfold at_gate at 1 in Hc.
    rewrite bool_decide_true in Hc by congruence. specialize (Hc H eq_refl). lia.
  - intros d1 d2 a1. rewrite !lookup_delete_Some. intros [_ H1] [_ H2]. eauto.
  - intros d1 a1. rewrite lookup_delete_Some. intros [Hne H]. apply (Hother d1 a1 H).
    intros ->. apply Hne. eapply Ii; [exact (It t _ Ht)|done].
  - rewrite count_delete, Ht; simpl. lia.
  - intros t0 p0. rewrite lookup_delete_Some. intros [_ H]. exact (Im _ _ H).
  - intros t0 p0. rewrite lookup_delete_Some. intros [_ H]. eauto.
  - exact Ii.
  - intros d1 a1 H. destruct (decide (a1 = a)) as [->|Hne]; [|eauto].
    eexists. rewrite lookup_insert_eq. split; [done|]; simpl. destruct Hown. lia.
  - rewrite count_delete, Ht; simpl. lia.
  - intros t0 p0. rewrite lookup_delete_Some. intros [_ H]. exact (Im _ _ H).
Qed.

Lemma receive_Some (s s' : commandCoordinator) (a : nat) :
  receive s a = Some s' <->
  exists n r, heap s !! a = Some (MkCommandGate (S n) r) /\ s' = put_gate s a (MkCommandGate n r).
Proof.
  unfold receive. destruct (heap s !! a) as [[[|n] r]|]; naive_solver.
Qed.

Lemma send_Some (s s' : commandCoordinator) (a : nat) :
  send s a = Some s' <->
  exists r, heap s !! a = Some (MkCommandGate 0 r) /\ s' = put_gate s a (MkCommandGate 1 r).
Proof.
  unfold send. destruct (heap s !! a) as [[[|n] r]|]; naive_solver.
Qed.

(** An action that leaves the gates alone. *)
Lemma inv_local (s s' : commandCoordinator) (t : nat) (p p' : Position) :
  coordinator_inv s -> threads s !! t = Some p -> gate_of p' = gate_of p ->
  gates s' = gates s -> heap s' = heap s -> threads s' = <[t := p']> (threads s) ->
  has_token p' = has_token p ->
  pending s' = pending s + b2z (is_pending p') - b2z (is_pending p) ->
  maxPending s <= maxPending s' ->
  match p' with AtWait _ _ n => n <= maxPending s' | AtSwap _ _ n m => m < n | _ => True end ->
  coordinator_inv s'.
Proof.
  intros Hi Hp Hgate Hgs Hh Ht Htok Hpend Hmax Hp'.
  destruct (inv_gate_of s t p Hi Hp) as (g & Hg & _).
  eapply (inv_action s s' t p p' g g); eauto; [|by rewrite Htok].
  rewrite Hh. symmetry. by apply insert_id.
Qed.

Lemma inv_exec (e : Event) (s s' : commandCoordinator) :
  coordinator_inv s -> exec e s = Some s' -> coordinator_inv s'.
Proof.
  intros Hi. destruct e as [t d|t|t|t]; simpl; destruct (threads s !! t) as [p|] eqn:Hp; try done.
  - destruct (acquire_gate s d) as [[s1 a]|] eqn:Ha; simpl; [|done]. intros [= <-].
    by eapply inv_call.
  - destruct p as [d a|d a|d a n|d a n m|d a n|d a|d a|d a|d a]; try done.
    + destruct (receive s a) as [s1|] eqn:Hr; intros [= <-].
      * apply receive_Some in Hr as (n & r & Hg & ->).
        eapply (inv_action s _ t _ (AtHold d a) _ _ Hi Hp); simpl; done || (simpl; lia).
      * apply (inv_local s _ t _ (AtAdd d a) Hi Hp); simpl; done || lia.
    + intros [= <-]. apply (inv_local s _ t _ (AtLoad d a (pending s + 1)) Hi Hp); simpl; done || lia.
    + destruct (Z.leb_spec n (maxPending s)); intros [= <-].
      * apply (inv_local s _ t _ (AtWait d a n) Hi Hp); simpl; done || lia.
      * apply (inv_local s _ t _ (AtSwap d a n (maxPending s)) Hi Hp); simpl; done || lia.
    + pose proof (inv_max s Hi t _ Hp); simpl in *.
      destruct (Z.eqb_spec (maxPending s) m); intros [= <-].
      * apply (inv_local s _ t _ (AtWait d a n) Hi Hp); simpl; done || lia.
      * apply (inv_local s _ t _ (AtLoad d a n) Hi Hp); simpl; done || lia.
    + destruct (receive s a) as [s1|] eqn:Hr; simpl; [|done]. intros [= <-].
      apply receive_Some in Hr as (k & r & Hg & ->).
      eapply (inv_action s _ t _ (AtEnter d a) _ _ Hi Hp); simpl; done || (simpl; lia).
    + intros [= <-]. apply (inv_local s _ t _ (AtUnref d a) Hi Hp); simpl; done || lia.
    + intros [= <-]. apply (inv_local s _ t _ (AtHold d a) Hi Hp); simpl; done || lia.
    + destruct (releaseReference s d a) as [s1|] eqn:Hr; simpl; [|done]. intros [= <-].
      by eapply inv_unref.
  - destruct p as [| | | |d a n| | | |]; try done. intros [= <-].
    apply (inv_local s _ t _ (AtLeave d a) Hi Hp); simpl; done || lia.
  - destruct p as [| | | | | | |d a|]; try done.
    destruct (send s a) as [s1|] eqn:Hr; simpl; [|done]. intros [= <-].
    apply send_Some in Hr as (r & Hg & ->).
    eapply (inv_action s _ t _ (AtUnref d a) _ _ Hi Hp); simpl; done || (simpl; lia).
Qed.

Lemma inv_reachable (s : commandCoordinator) : reachable s -> coordinator_inv s.
Proof.
  unfold reachable. generalize inv_new. generalize newCommandCoordinator.
  intros s0 H0 H. induction H as [|s0 s1 s2 [e He] _ IH]; [done|].
  apply IH. by eapply inv_exec.
Qed.

(** The goroutine that holds the token of a device is the only one. *)
Lemma one_holder (s : commandCoordinator) (t1 t2 : nat) (p1 p2 : Position) :
  coordinator_inv s -> threads s !! t1 = Some p1 -> threads s !! t2 = Some p2 ->
  has_token p1 = true -> has_token p2 = true -> (gate_of p1).1 = (gate_of p2).1 -> t1 = t2.
Proof.
  intros Hi H1 H2 Ht1 Ht2 Heq.
  destruct (inv_gate_of s t1 p1 Hi H1) as (g & _ & _ & _ & Htok).
  assert (Hg : (gate_of p2).2 = (gate_of p1).2).
  { pose proof (inv_threads s Hi _ _ H1) as Hg1. pose proof (inv_threads s Hi _ _ H2) as Hg2.
    congruence. }
  eapply (count_two (holds_gate (gate_of p1).2)); eauto; [| |lia];
    unfold holds_gate, at_gate; rewrite bool_decide_true by done; done.
Qed.

(** What an action does to the holders of the tokens. *)
Lemma exec_holders (e : Event) (s s' : commandCoordinator) :
  exec e s = Some s' ->
  exists t, (forall t0, t0 <> t -> threads s' !! t0 = threads s !! t0) /\
    let h p := p ≫= (fun p => if has_token p then Some (gate_of p) else None) in
    let before := h (threads s !! t) in
    let after := h (threads s' !! t) in
    before = after
    \/ (exists d a g, before = None /\ after = Some (d, a) /\
          (gate_of <$> threads s !! t) = Some (d, a) /\
          heap s !! a = Some g /\ (0 < token g)%nat)
    \/ (exists d a, before = Some (d, a) /\ after = None).
Proof.
  destruct e as [t d|t|t|t]; simpl; destruct (threads s !! t) as [p|] eqn:Hp; try done;
    intros He; exists t; rewrite Hp; (split; [|simpl]).
  - destruct (acquire_gate s d) as [[s1 a]|] eqn:Ha; simplify_eq/=. intros t0 Hne.
    rewrite lookup_insert_ne by done. unfold acquire_gate in Ha.
    destruct (gates s !! d) as [a0|]; [destruct (heap s !! a0); [|done]|]; by simplify_eq/=.
  - destruct (acquire_gate s d) as [[s1 a]|]; simplify_eq/=. left. by rewrite lookup_insert_eq.
  - intros t0 Hne. unfold receive, releaseReference in He.
    repeat (case_match; simplify_eq/=); rewrite ?lookup_insert_ne, ?lookup_delete_ne by done; done.
  - destruct p; simpl in *; simplify_eq/=.
    + destruct (receive s a) as [s1|] eqn:Hr; simplify_eq/=; rewrite lookup_insert_eq; simpl; [|by left].
      apply receive_Some in Hr as (n & r & Hg & ->). right; left.
      do 3 eexists; split_and!; try done; simpl; lia.
    + left. by rewrite lookup_insert_eq.
    + left. case_match; simpl; by rewrite lookup_insert_eq.
    + left. case_match; simpl; by rewrite lookup_insert_eq.
    + destruct (receive s a) as [s1|] eqn:Hr; simplify_eq/=. rewrite lookup_insert_eq; simpl.
      apply receive_Some in Hr as (k & r & Hg & ->). right; left.
      do 3 eexists; split_and!; try done; simpl; lia.
    + left. by rewrite lookup_insert_eq.
    + left. by rewrite lookup_insert_eq.
    + destruct (releaseReference s dev a) as [s1|]; simplify_eq/=. left. by rewrite lookup_delete_eq.
  - intros t0 Hne. destruct p; simplify_eq/=. by rewrite lookup_insert_ne.
  - destruct p; simplify_eq/=. left. by rewrite lookup_insert_eq.
  - intros t0 Hne. unfold send in He. repeat (case_match; simplify_eq/=); by rewrite lookup_insert_ne.
  - destruct p; simplify_eq/=. destruct (send s a) as [s1|]; simplify_eq/=.
    right; right. rewrite lookup_insert_eq; simpl. eauto.
Qed.

(** ** The properties *)

(** C21: the coordinator refines one lock per device.  Whatever a goroutine does in
    any interleaving (find a gate, take or miss the token, count itself as waiting,
    be cancelled, give the token back, drop its reference and with it the gate), the
    holders of the tokens change as a lock does: they stay as they are, a goroutine
    becomes the owner of a device nobody owned, or the owner gives it up.  In
    particular two goroutines never mutate one device at the same time, although
    gates are made and removed while others wait. *)
Theorem coordinator_refines_locks (s s' : commandCoordinator) (o : gmap string nat) :
  reachable s -> step s s' -> represents s o ->
  exists o', (o' = o \/ lock_step o o') /\ represents s' o'.
Proof.
  intros Hr [e He] Ho. unfold represents in *. pose proof (inv_reachable s Hr) as Hi.
  destruct (exec_holders e s s' He) as (t & Hother & [Hsame|[(d & a & g & Hb & Ha & Hat & Hg & Htok)|(d & a & Hb & Ha)]]).
  - exists o. split; [by left|]. intros d t'. rewrite Ho.
    destruct (decide (t' = t)) as [->|Hne]; [|by rewrite (Hother t' Hne)].
    destruct (threads s !! t) as [p|], (threads s' !! t) as [p'|]; simpl in *;
      repeat case_match; simplify_eq; naive_solver congruence.
  - assert (Hfree : o !! d = None).
    { destruct (o !! d) as [t0|] eqn:Hd; [|done]. apply Ho in Hd as (p0 & Hp0 & Hd0 & Ht0).
      destruct (threads s !! t) as [p|] eqn:Hp; [|done]. simpl in Hat. injection Hat as Hat.
      pose proof (inv_threads s Hi _ _ Hp) as Hgp. pose proof (inv_threads s Hi _ _ Hp0) as Hg0.
      rewrite Hat in Hgp; rewrite Hd0 in Hg0; simpl in Hgp. rewrite Hgp in Hg0. injection Hg0 as Hg0.
      destruct (inv_gates s Hi _ _ Hgp) as (g1 & Hg1 & _ & _ & Hinv). rewrite Hg in Hg1. simplify_eq.
      pose proof (count_pos (holds_gate (gate_of p0).2) (threads s) t0 p0 Hp0) as Hc.
      unfold holds_gate at 1, at_gate in Hc. rewrite bool_decide_true, Ht0 in Hc by done.
      specialize (Hc eq_refl). lia. }
    exists (<[d := t]> o). split; [by right; constructor|]. intros d' t'.
    destruct (threads s' !! t) as [p'|] eqn:Hp'; simpl in Ha; [|done].
    destruct (has_token p') eqn:Ht'; [|done]. injection Ha as Ha.
    rewrite lookup_insert_Some, Ho. destruct (decide (t' = t)) as [->|Hne].
    + rewrite Hp'. destruct (threads s !! t) as [p|] eqn:Hp; simpl in Hb, Hat; [|done].
      destruct (has_token p) eqn:Htp; [done|]. split.
      * intros [[-> _]|[_ (q & Hq & _ & Hqt)]]; [exists p'; by rewrite Ha|congruence].
      * intros (q & Hq & Hqd & _). simplify_eq. left. by rewrite Ha.
    + rewrite (Hother t' Hne). split; [naive_solver|]. intros Hex. right. split; [|done].
      intros <-. destruct Hex as (q & Hq & Hqd & Hqt).
      assert (o !! d = Some t') as Hod by (apply Ho; eauto). congruence.
  - destruct (threads s !! t) as [p|] eqn:Hp; simpl in Hb; [|done].
    destruct (has_token p) eqn:Htp; [|done]. injection Hb as Hb.
    assert (Hod : o !! d = Some t) by (apply Ho; exists p; rewrite Hb; done).
    exists (delete d o). split; [by right; econstructor|]. intros d' t'.
    rewrite lookup_delete_Some, Ho. destruct (decide (t' = t)) as [->|Hne].
    + rewrite Hp. split; [intros [Hd (q & ? & ? & ?)]; simplify_eq; by rewrite Hb in Hd|].
      intros (q & Hq & _ & Hqt). rewrite Hq in Ha; simpl in Ha. by rewrite Hqt in Ha.
    + rewrite (Hother t' Hne). split; [naive_solver|]. intros (q & Hq & Hqd & Hqt).
      split; [|eauto]. intros <-. apply Hne. eapply (one_holder s t' t q p); eauto.
      by rewrite Hb.
Qed.

(** Two goroutines write to one device and a third to another; the second waits. *)
Definition contention : list Event :=
  [Call 0 "lamp"; Go 0; Call 1 "lamp"; Go 1; Call 2 "plug"; Go 2; Go 1; Go 1; Go 1].

Lemma run_rtc (es : list Event) (s s' : commandCoordinator) :
  run es s = Some s' -> rtc step s s'.
Proof.
  revert s. induction es as [|e es IH]; intros s; unfold run; simpl; [intros [= ->]; done|].
  destruct (exec e s) as [s1|] eqn:He; [intros H; apply (rtc_l _ _ s1); [by exists e|by apply IH]|].
  intros H. exfalso. clear -H. induction es as [|e es IH]; simpl in H; done.
Qed.

Definition contended : commandCoordinator :=
  Eval vm_compute in default newCommandCoordinator (run contention newCommandCoordinator).

Lemma contended_reachable : reachable contended.
Proof. apply (run_rtc contention). vm_compute. reflexivity. Qed.

Lemma contended_represents : represents contended {["lamp" := 0%nat; "plug" := 2%nat]}.
Proof.
  assert (Ht : threads contended = {[0%nat := AtHold "lamp" 0; 1%nat := AtWait "lamp" 0 1;
    2%nat := AtHold "plug" 1]}) by (vm_compute; reflexivity).
  intros d t. rewrite Ht. split.
  - rewrite lookup_insert_Some. intros [[<- <-]|[_ H]]; [eexists; done|].
    rewrite lookup_singleton_Some in H. destruct H as [<- <-]. eexists; done.
  - intros (p & Hp & <- & Htok). revert Hp.
    rewrite !lookup_insert_Some, lookup_singleton_Some. naive_solver.
Qed.

(** the holder of ["lamp"] gives the token back: its lock is released. *)
Lemma coordinator_refines_locks_witness :
  is_Some (exec (Release 0) contended) /\
  exists s' o', step contended s' /\ represents s' o'.
Proof.
  split; [vm_compute; eauto|].
  destruct (exec (Release 0) contended) as [s'|] eqn:He; [|vm_compute in He; discriminate].
  assert (Hs : step contended s') by (exists (Release 0); exact He).
  destruct (coordinator_refines_locks contended s' _ contended_reachable Hs contended_represents)
    as (o' & _ & Ho').
  exists s', o'. exact (conj Hs Ho').
Defined.

Lemma can_move (s : commandCoordinator) (t : nat) (p : Position) :
  reachable s -> threads s !! t = Some p ->
  match p with
  | AtHold _ _ => is_Some (exec (Release t) s)
  | AtWait d a n => is_Some (exec (Done t) s) /\
      (is_Some (exec (Go t) s) \/
       exists t' p', t' <> t /\ threads s !! t' = Some p' /\ (gate_of p').1 = d /\ has_token p' = true)
  | _ => is_Some (exec (Go t) s)
  end.
Proof.
  intros Hr Hp. pose proof (inv_reachable s Hr) as Hi.
  destruct (inv_gate_of s t p Hi Hp) as ([k r] & Hg & _ & _ & Htok).
  destruct p as [d a|d a|d a n|d a n m|d a n|d a|d a|d a|d a]; simpl in *; rewrite Hp;
    try solve [eauto|case_match; eauto].
  - split; [eauto|]. unfold receive. rewrite Hg. destruct k as [|k]; [right|left; simpl; eauto].
    destruct (count_exists (holds_gate a) (threads s)) as (t' & p' & Hp' & Hh); [lia|].
    apply andb_true_iff in Hh as [Hat Hh]. apply bool_decide_eq_true in Hat.
    exists t', p'. assert (Hne : t' <> t) by (intros ->; rewrite Hp in Hp'; injection Hp' as <-; done).
    split; [exact Hne|]. split; [exact Hp'|]. split; [|exact Hh].
    pose proof (inv_threads s Hi _ _ Hp) as H1. pose proof (inv_threads s Hi _ _ Hp') as H2.
    rewrite Hat in H2. exact (inv_inj s Hi _ _ _ H2 H1).
  - unfold send. rewrite Hg. destruct k as [|k]; [simpl; eauto|].
    pose proof (count_pos (holds_gate a) (threads s) t _ Hp) as Hc.
    unfold holds_gate at 1, at_gate in Hc; simpl in Hc. rewrite bool_decide_true in Hc by done.
    specialize (Hc eq_refl). lia.
  - unfold releaseReference. rewrite Hg. simpl. eauto.
Qed.

(** A gate that is kept is the gate of some goroutine. *)
Lemma gate_used (s : commandCoordinator) (d : string) :
  reachable s -> is_Some (gates s !! d) -> exists t p, threads s !! t = Some p /\ (gate_of p).1 = d.
Proof.
  intros Hr [a Ha]. pose proof (inv_reachable s Hr) as Hi.
  destruct (inv_gates s Hi _ _ Ha) as (g & _ & Hrf & Hpos & _).
  rewrite Hrf in Hpos. apply count_exists in Hpos as (t & p & Hp & Hat). exists t, p. split; [done|].
  unfold at_gate in Hat. apply bool_decide_eq_true in Hat.
  pose proof (inv_threads s Hi t p Hp) as Hg. rewrite Hat in Hg. exact (inv_inj s Hi _ _ _ Hg Ha).
Qed.

Lemma unused_gates (s : commandCoordinator) :
  reachable s -> threads s = ∅ -> gates s = ∅ /\ stats s = (0, maxPending s).
Proof.
  intros Hr He. split.
  - apply map_empty. intros d. apply eq_None_not_Some. intros Hd.
    destruct (gate_used s d Hr Hd) as (t & p & Hp & _). by rewrite He, lookup_empty in Hp.
  - unfold stats. by rewrite (inv_pending s (inv_reachable s Hr)), He.
Qed.

(** C34: no goroutine is stuck, and nothing is left behind.  At any moment of any
    interleaving every goroutine inside [acquire] can take its next action, except one
    that waits for a token, which can still be cancelled and which can go on unless
    another goroutine has the token of the same device; giving the token back never
    blocks, since the channel of a held gate is empty; and when no goroutine is inside,
    the coordinator keeps no gate and reports nothing pending. *)
Theorem coordinator_progress (s : commandCoordinator) :
  reachable s ->
  (forall (t : nat) (p : Position), threads s !! t = Some p ->
    match p with
    | AtHold _ _ => is_Some (exec (Release t) s)
    | AtWait d a n => is_Some (exec (Done t) s) /\
        (is_Some (exec (Go t) s) \/
         exists t' p', t' <> t /\ threads s !! t' = Some p' /\ (gate_of p').1 = d /\ has_token p' = true)
    | _ => is_Some (exec (Go t) s)
    end)
  /\ (threads s = ∅ -> gates s = ∅ /\ stats s = (0, maxPending s)).
Proof.
  intros Hr. split; [intros t p; by apply can_move|by apply unused_gates].
Qed.

(** the second writer of ["lamp"] waits for the first, which holds the token. *)
Lemma coordinator_progress_witness :
  is_Some (exec (Done 1) contended) /\
  (is_Some (exec (Go 1) contended) \/
   exists t' p', t' <> 1%nat /\ threads contended !! t' = Some p' /\ (gate_of p').1 = "lamp" /\
     has_token p' = true).
Proof.
  exact (proj1 (coordinator_progress contended contended_reachable) 1%nat (AtWait "lamp" 0 1)
    ltac:(vm_compute; reflexivity)).
Defined.

(** nothing leaks.  At any moment the number of pending writes [stats] reports is
    the number of goroutines that wait; the most it ever reported covers every
    goroutine that waits now; a gate is kept exactly while a goroutine refers to its
    device, and it counts those goroutines; so a coordinator nobody uses has no gate
    and nothing pending. *)
Theorem coordinator_accounts (s : commandCoordinator) :
  reachable s ->
  (stats s).1 = count is_pending (threads s)
  /\ (forall t d a n, threads s !! t = Some (AtWait d a n) -> n <= (stats s).2)
  /\ (forall d, is_Some (gates s !! d) <-> exists t p, threads s !! t = Some p /\ (gate_of p).1 = d)
  /\ (forall d a g, gates s !! d = Some a -> heap s !! a = Some g ->
        refs g = count (fun p => bool_decide ((gate_of p).1 = d)) (threads s))
  /\ (threads s = ∅ -> gates s = ∅ /\ stats s = (0, maxPending s)).
Proof.
  intros Hr. pose proof (inv_reachable s Hr) as Hi.
  assert (Hgate : forall d a, gates s !! d = Some a -> forall t p, threads s !! t = Some p ->
    at_gate a p = bool_decide ((gate_of p).1 = d)).
  { intros d a Ha t p Hp. unfold at_gate. apply bool_decide_ext.
    pose proof (inv_threads s Hi t p Hp) as Hg. split; [|congruence].
    intros <-. exact (inv_inj s Hi _ _ _ Hg Ha). }
  split_and!.
  - apply (inv_pending s Hi).
  - intros t d a n Hp. exact (inv_max s Hi t _ Hp).
  - intros d. split; [by apply gate_used|]. intros (t & p & Hp & <-). rewrite (inv_threads s Hi t p Hp). eauto.
  - intros d a g Ha Hg. destruct (inv_gates s Hi _ _ Ha) as (g' & Hg' & Hrf & _). simplify_eq.
    rewrite Hrf. unfold count. f_equal. f_equal.
    apply map_filter_ext. intros t p Hp. simpl. by rewrite (Hgate d a Ha t p Hp).
  - by apply unused_gates.
Qed.

(** one write waits. *)
Lemma coordinator_accounts_witness : (stats contended).1 = 1.
Proof. exact (proj1 (coordinator_accounts contended contended_reachable)). Defined.
