(* ===== verification/DeviceRegistry.v ===== *)
(** * The registry of devices: backend/internal/registry/device_registry.go

    The latest snapshot of every device, by identifier.  Each method runs under the
    registry's mutex and is one step. *)

From S2P Require Import Prelude Float64 DeviceModel.

Record DeviceRegistry := MkRegistry { devices : gmap string Device }.

Definition Upsert (r : DeviceRegistry) (item : Device) : DeviceRegistry :=
  let item := NormalizeAvailability item in
  MkRegistry (<[d_ID item := item]> (devices r)).

Definition NewDeviceRegistry (items : list Device) : DeviceRegistry :=
  fold_left (fun r item =>
    let item := NormalizeAvailability item in
    MkRegistry (<[d_ID item := item]> (devices r))) items (MkRegistry ∅).

Definition Delete (r : DeviceRegistry) (id : string) : DeviceRegistry :=
  MkRegistry (delete id (devices r)).

(** The copy [Clone] makes is the same value. *)
Definition Get (r : DeviceRegistry) (id : string) : option Device := devices r !! id.

Definition device_le (a b : Device) : Prop := str_leb (d_ID a) (d_ID b) = true.
#[local] Instance device_le_dec : RelDecision device_le.
Proof. intros a b. unfold device_le. apply _. Defined.

(** The map is visited in the order [ks] and the result sorted by identifier. *)
Definition List_ (r : DeviceRegistry) (ks : list string) : list Device :=
  merge_sort device_le (omap (fun k => devices r !! k) ks).

(** ** Invariant: devices are kept under their identifier, normalised *)

Definition normalized (d : Device) : Prop := NormalizeAvailability d = d.
Definition registry_wf (r : DeviceRegistry) : Prop :=
  forall id d, devices r !! id = Some d -> d_ID d = id /\ normalized d.

Inductive registry_step (r : DeviceRegistry) : DeviceRegistry -> Prop :=
| registry_upsert item : registry_step r (Upsert r item)
| registry_delete id : registry_step r (Delete r id).

Inductive registry_reachable : DeviceRegistry -> Prop :=
| registry_new items : registry_reachable (NewDeviceRegistry items)
| registry_next r r' : registry_reachable r -> registry_step r r' -> registry_reachable r'.

Lemma d_ID_with_availability d av on : d_ID (with_availability d av on) = d_ID d.
Proof. by destruct d. Qed.
Lemma d_ID_SetAvailability d av : d_ID (SetAvailability d av) = d_ID d.
Proof. apply d_ID_with_availability. Qed.
Lemma d_ID_SetOnline d b : d_ID (SetOnline d b) = d_ID d.
Proof. destruct b; apply d_ID_with_availability. Qed.
Lemma d_ID_Normalize d : d_ID (NormalizeAvailability d) = d_ID d.
Proof. apply d_ID_with_availability. Qed.
Create Rewrite HintDb registry.
#[export] Hint Rewrite d_ID_with_availability d_ID_SetAvailability d_ID_SetOnline d_ID_Normalize : registry.

Lemma normalize_normalized d : normalized (NormalizeAvailability d).
Proof. apply normalize_availability_idem. Qed.

Lemma effective_normalize d : EffectiveAvailability (NormalizeAvailability d) = EffectiveAvailability d.
Proof.
  destruct d as [v i p n sn no t hi hn ri rn lm shi shn sri srn av on sq di re rm st me l lu].
  unfold NormalizeAvailability, SetAvailability, EffectiveAvailability; simpl.
  destruct av; simpl; try done. by destruct on.
Qed.

Lemma online_normalize d : IsOnline (NormalizeAvailability d) = IsOnline d.
Proof. unfold IsOnline. by rewrite effective_normalize. Qed.

Lemma wf_Upsert r item : registry_wf r -> registry_wf (Upsert r item).
Proof.
  intros Hr id d. unfold Upsert; simpl. rewrite lookup_insert_Some.
  intros [[<- <-]|[_ Hd]]; [|by apply Hr].
  split; [done|apply normalize_normalized].
Qed.

Lemma wf_Delete r id : registry_wf r -> registry_wf (Delete r id).
Proof.
  intros Hr i d. unfold Delete; simpl. rewrite lookup_delete_Some. intros [_ Hd]. by apply Hr.
Qed.

Lemma wf_New items : registry_wf (NewDeviceRegistry items).
Proof.
  unfold NewDeviceRegistry.
  assert (forall l r, registry_wf r -> registry_wf (fold_left (fun r item =>
    MkRegistry (<[d_ID (NormalizeAvailability item) := NormalizeAvailability item]> (devices r))) l r)) as H.
  { induction l as [|d l IH]; intros r Hr; simpl; [done|]. apply IH. by apply (wf_Upsert r d). }
  apply H. intros id d Hd. simpl in Hd. by rewrite lookup_empty in Hd.
Qed.

Lemma registry_reachable_wf r : registry_reachable r -> registry_wf r.
Proof.
  induction 1 as [items|r r' _ IH [item|id]]; [apply wf_New|by apply wf_Upsert|by apply wf_Delete].
Qed.

Lemma Get_Upsert r item id :
  Get (Upsert r item) id =
  if decide (id = d_ID item) then Some (NormalizeAvailability item) else Get r id.
Proof.
  unfold Get, Upsert; simpl. rewrite d_ID_Normalize.
  case_decide as Hid; [subst; apply lookup_insert_eq|by apply lookup_insert_ne].
Qed.

Lemma Get_Delete r id id' : Get (Delete r id) id' = if decide (id' = id) then None else Get r id'.
Proof.
  unfold Get, Delete; simpl. case_decide as Hid; [subst; apply lookup_delete_eq|].
  by apply lookup_delete_ne.
Qed.

Lemma device_le_trans : Transitive device_le.
Proof. intros a b c. unfold device_le. apply str_leb_trans. Qed.
Lemma device_le_total : Total device_le.
Proof. intros a b. unfold device_le. apply str_leb_total. Qed.

(** Devices with distinct identifiers are sorted in one way only. *)
Lemma sorted_devices_eq (l l' : list Device) :
  l ≡ₚ l' -> NoDup (d_ID <$> l) -> Sorted device_le l -> Sorted device_le l' -> l = l'.
Proof.
  pose proof device_le_trans as Ht.
  intros Hp Hnd Hs Hs'. apply Sorted_StronglySorted in Hs, Hs'; try done.
  revert l' Hp Hs'. induction Hs as [|a l Hs IH Ha]; intros l' Hp Hs'.
  { by apply Permutation_nil in Hp as ->. }
  destruct Hs' as [|b l' Hs' Hb]; [symmetry in Hp; by apply Permutation_nil in Hp|].
  simpl in Hnd. apply NoDup_cons in Hnd as [Hin Hnd].
  assert (a = b) as <-.
  { assert (Hbin : b ∈ a :: l) by (rewrite Hp; set_solver).
    assert (Hain : a ∈ b :: l') by (rewrite <- Hp; set_solver).
    apply elem_of_cons in Hbin as [->|Hbin]; [done|].
    apply elem_of_cons in Hain as [->|Hain]; [done|].
    rewrite List.Forall_forall in Ha, Hb. exfalso. apply Hin.
    assert (d_ID a = d_ID b) as ->; [|by apply list_elem_of_fmap_2].
    apply str_leb_antisym; [apply Ha|apply Hb]; by apply list_elem_of_In. }
  f_equal. apply IH; [done|by apply Permutation_cons_inv in Hp|done].
Qed.

(** in every registry a program can build, devices are kept under their own
    identifier with a normalised availability ([Online] agrees with it), [Get] returns
    the last device stored, and [List] is every device once, in increasing order of
    identifiers, whatever order the map is visited in. *)
Theorem registry_spec r ks ks' :
  registry_reachable r -> range_of (devices r) ks -> range_of (devices r) ks' ->
  registry_wf r
  /\ List_ r ks = List_ r ks'
  /\ (forall d, d ∈ List_ r ks <-> Get r (d_ID d) = Some d)
  /\ NoDup (d_ID <$> List_ r ks) /\ Sorted device_le (List_ r ks).
Proof.
  intros Hr Hk Hk'. pose proof (registry_reachable_wf r Hr) as Hwf.
  pose proof device_le_total as Htot. pose proof device_le_trans as Htr.
  assert (Hel : forall ks0, range_of (devices r) ks0 -> forall d,
            d ∈ omap (fun k => devices r !! k) ks0 <-> Get r (d_ID d) = Some d).
  { intros ks0 [_ H0] d. rewrite list_elem_of_omap. unfold Get. split.
    - intros (k & _ & Hd). destruct (Hwf k d Hd) as [-> _]. done.
    - intros Hd. exists (d_ID d). split; [apply H0; eauto|done]. }
  assert (Hnd : forall ks0, range_of (devices r) ks0 -> NoDup (d_ID <$> omap (fun k => devices r !! k) ks0)).
  { intros ks0 [Hnd0 _]. induction Hnd0 as [|k ks0 Hn _ IH]; simpl; [constructor|].
    destruct (devices r !! k) as [d|] eqn:Hd; simpl; [|done].
    apply NoDup_cons. split; [|done]. destruct (Hwf k d Hd) as [-> _].
    rewrite list_elem_of_fmap. intros (d' & -> & Hd').
    apply list_elem_of_omap in Hd' as (k' & Hk0 & Hd'). destruct (Hwf k' d' Hd') as [Heq _]. by rewrite Heq in Hn. }
  split; [done|]. unfold List_. split_and!.
  - apply sorted_devices_eq; try apply Sorted_merge_sort; try done.
    + rewrite !merge_sort_Permutation. by apply omap_Permutation; rewrite (range_of_perm _ _ Hk), (range_of_perm _ _ Hk').
    + rewrite merge_sort_Permutation. by apply Hnd.
  - intros d. rewrite merge_sort_Permutation. by apply Hel.
  - rewrite merge_sort_Permutation. by apply Hnd.
  - by apply Sorted_merge_sort.
Qed.

(** an offline-by-flag device is stored with the availability it implies. *)
Lemma registry_spec_witness :
  d_ID <$> List_ (Upsert (NewDeviceRegistry [ex_device]) ex_device) [d_ID ex_device] = [d_ID ex_device]
  /\ registry_wf (Upsert (NewDeviceRegistry [ex_device]) ex_device).
Proof.
  split; [vm_compute; reflexivity|].
  eapply (registry_spec (Upsert (NewDeviceRegistry [ex_device]) ex_device)).
  - eapply registry_next; [apply registry_new|apply registry_upsert].
  - apply range_of_some_range.
  - apply range_of_some_range.
Defined.
