(* ===== verification/FloatText.v ===== *)
(** * Numbers as text: [strconv.ParseFloat(s, 64)] and
    [strconv.FormatFloat(x, 'g', -1, 64)]

    The two functions of Go's standard library the mapping engine converts
    strings with.  Parsing accepts the decimal and hexadecimal floating-point
    literals of the language with an optional sign, and the names of the
    infinities and NaN, and rounds the exact value to nearest even.  Printing
    produces the shortest decimal that parses back to the number. *)

From S2P Require Import Prelude Float64.

(** ** Bytes *)

Definition byte (c : ascii) : Z := Z.of_N (N_of_ascii c).
Definition lower (c : ascii) : Z := Z.lor (byte c) 32.
Definition is_digit (c : ascii) : bool := (48 <=? byte c) && (byte c <=? 57).
Definition is_hex (c : ascii) : bool := (97 <=? lower c) && (lower c <=? 102).
Definition underscore : ascii := "_"%char.
Definition is_sign (c : ascii) : bool := Ascii.eqb c "+"%char || Ascii.eqb c "-"%char.

(** An optional sign: whether it is a minus, and the rest. *)
Definition split_sign (s : string) : bool * string :=
  match s with
  | String c s' => if is_sign c then (Ascii.eqb c "-"%char, s') else (false, s)
  | EmptyString => (false, s)
  end.

(** [s] starts with 0 and the letter [l], in either case. *)
Definition has_prefix (l : Z) (s : string) : bool :=
  match s with
  | String c (String d _) => (byte c =? 48) && (lower d =? l)
  | _ => false
  end.

Fixpoint equal_fold (s t : string) : bool :=
  match s, t with
  | EmptyString, EmptyString => true
  | String c s, String d t => (lower c =? byte d) && equal_fold s t
  | _, _ => false
  end.

(** ** Rounding a decimal or hexadecimal value *)

(** [(-1)^neg * m * base^e], rounded to nearest even, for [m >= 0]. *)
Definition round_scaled (neg : bool) (m base e : Z) : float64 :=
  if m =? 0 then S754_zero neg
  else if 0 <=? e then
    binary_normalize prec emax ((if neg then - m else m) * base ^ e) 0 neg
  else
    let '(mz, ez, lz) := SFdiv_core_binary prec emax m 0 (base ^ (- e)) 0 in
    binary_round_aux prec emax neg mz ez lz.

(** ** Parsing *)

(** Where the scan of the mantissa stands: its digits so far as an integer, the
    number of digits after the point, whether there was a point, a digit, an
    underscore. *)
Record Mantissa := MkMantissa {
  m_value : Z;
  m_fraction : Z;
  m_dot : bool;
  m_digits : bool;
  m_underscores : bool;
}.

Definition add_digit (base d : Z) (m : Mantissa) : Mantissa :=
  MkMantissa (m_value m * base + d) (if m_dot m then m_fraction m + 1 else m_fraction m)
    (m_dot m) true (m_underscores m).

Fixpoint read_mantissa (base : Z) (s : string) (m : Mantissa) : Mantissa * string :=
  match s with
  | EmptyString => (m, s)
  | String c s' =>
      if Ascii.eqb c underscore then
        read_mantissa base s' (MkMantissa (m_value m) (m_fraction m) (m_dot m) (m_digits m) true)
      else if Ascii.eqb c "."%char then
        if m_dot m then (m, s)
        else read_mantissa base s'
               (MkMantissa (m_value m) (m_fraction m) true (m_digits m) (m_underscores m))
      else if is_digit c then read_mantissa base s' (add_digit base (byte c - 48) m)
      else if (base =? 16) && is_hex c then read_mantissa base s' (add_digit base (lower c - 87) m)
      else (m, s)
  end.

(** The digits of the exponent; beyond 10000 further digits are ignored. *)
Fixpoint read_exponent (s : string) (e : Z) (underscores : bool) : Z * bool * string :=
  match s with
  | EmptyString => (e, underscores, s)
  | String c s' =>
      if Ascii.eqb c underscore then read_exponent s' e true
      else if is_digit c then
        read_exponent s' (if e <? 10000 then e * 10 + (byte c - 48) else e) underscores
      else (e, underscores, s)
  end.

(** The last character seen, for [underscoreOK]. *)
Inductive Saw := SawStart | SawDigit | SawUnderscore | SawOther.

Fixpoint underscore_scan (hex : bool) (s : string) (saw : Saw) : bool :=
  match s with
  | EmptyString => match saw with SawUnderscore => false | _ => true end
  | String c s =>
      if is_digit c || (hex && is_hex c) then underscore_scan hex s SawDigit
      else if Ascii.eqb c underscore then
        match saw with SawDigit => underscore_scan hex s SawUnderscore | _ => false end
      else match saw with SawUnderscore => false | _ => underscore_scan hex s SawOther end
  end.

Definition skip2 (s : string) : string :=
  match s with String _ (String _ s) => s | _ => s end.

Definition underscoreOK (s : string) : bool :=
  let s := (split_sign s).2 in
  if has_prefix 98 s || has_prefix 111 s || has_prefix 120 s
  then underscore_scan (has_prefix 120 s) (skip2 s) SawDigit
  else underscore_scan false s SawStart.

(** A syntax error or a value out of range. *)
Inductive NumError := ErrSyntax | ErrRange.

Definition special (s : string) : option float64 :=
  let '(neg, rest) := split_sign s in
  if equal_fold rest "inf" || equal_fold rest "infinity" then Some (S754_infinity neg)
  else if equal_fold s "nan" then Some S754_nan
  else None.

Definition finish (neg : bool) (base : Z) (m : Mantissa) (e : Z) : result NumError float64 :=
  let x := if base =? 16 then round_scaled neg (m_value m) 2 (e - 4 * m_fraction m)
           else round_scaled neg (m_value m) 10 (e - m_fraction m) in
  if IsInf x then Err ErrRange else Ok x.

Definition ParseFloat (s : string) : result NumError float64 :=
  match special s with
  | Some x => Ok x
  | None =>
      let '(neg, body) := split_sign s in
      let hex := has_prefix 120 body && (2 <? String.length body)%nat in
      let base := if hex then 16 else 10 in
      let '(m, rest) := read_mantissa base (if hex then skip2 body else body)
                          (MkMantissa 0 0 false false false) in
      if negb (m_digits m) then Err ErrSyntax
      else
        match rest with
        | EmptyString =>
            if hex || (m_underscores m && negb (underscoreOK s)) then Err ErrSyntax
            else finish neg base m 0
        | String c rest =>
            if lower c =? (if hex then 112 else 101) then
              let '(eneg, rest) := split_sign rest in
              match rest with
              | String d _ =>
                  if is_digit d then
                    let '(e, us, rest) := read_exponent rest 0 (m_underscores m) in
                    if negb (is_empty rest) || (us && negb (underscoreOK s)) then Err ErrSyntax
                    else finish neg base m (if eneg then - e else e)
                  else Err ErrSyntax
              | EmptyString => Err ErrSyntax
              end
            else Err ErrSyntax
        end
  end.

(** ** Printing *)

(** The number of decimal digits of [n > 0]. *)
Definition digits10 (n : Z) : Z := Z.of_nat (String.length (show_Z n)).

Fixpoint scale_up (fuel : nat) (num den : Z) (j : Z) : Z :=
  match fuel with
  | O => j
  | S fuel => if den <=? num then j else scale_up fuel (num * 10) den (j + 1)
  end.

(** The [k] with [10^(k-1) <= num/den < 10^k]; a positive [float64] is at least
    [2^-1074], so 400 rounds are enough. *)
Definition dec_exponent (num den : Z) : Z :=
  if den <=? num then digits10 (num / den) else 1 - scale_up 400 num den 0.

(** [num/den * 10^p], as a quotient. *)
Definition scale10 (num den p : Z) : Z * Z :=
  if 0 <=? p then (num * 10 ^ p, den) else (num, den * 10 ^ (- p)).

(** The nearest decimal of [n] digits that parses back to [x], if there is one. *)
Definition decimal_of (x : float64) (num den k n : Z) : option Z :=
  let '(a, b) := scale10 num den (n - k) in
  let q := a / b in
  let r := a mod b in
  let back (d : Z) := feqb (round_scaled false d 10 (k - n)) x in
  match back q, back (q + 1) with
  | true, true =>
      Some (if 2 * r <? b then q else if b <? 2 * r then q + 1
            else if Z.even q then q else q + 1)
  | true, false => Some q
  | false, true => Some (q + 1)
  | false, false => None
  end.

(** Seventeen digits identify every [float64]. *)
Fixpoint shortest (fuel : nat) (x : float64) (num den k n : Z) : Z * Z :=
  match decimal_of x num den k n with
  | Some d => (d, n)
  | None =>
      match fuel with
      | O => let '(a, b) := scale10 num den (n - k) in (a / b, n)
      | S fuel => shortest fuel x num den k (n + 1)
      end
  end.

Fixpoint zeros (n : nat) : string :=
  match n with O => "" | S n => String "0" (zeros n) end.

Definition show2 (n : Z) : string :=
  if n <? 10 then "0" +:+ show_Z n else show_Z n.

(** [%e] of the digits [ds] with the point after [dp] of them. *)
Definition fmtE (ds : string) (dp : Z) : string :=
  match ds with
  | EmptyString => ""
  | String c rest =>
      let e := dp - 1 in
      String c "" +:+ (if is_empty rest then "" else "." +:+ rest) +:+ "e" +:+
      (if e <? 0 then "-" +:+ show2 (- e) else "+" +:+ show2 e)
  end.

(** [%f] of the same. *)
Definition fmtF (ds : string) (dp : Z) : string :=
  let nd := Z.of_nat (String.length ds) in
  if dp <=? 0 then "0." +:+ zeros (Z.to_nat (- dp)) +:+ ds
  else if nd <=? dp then ds +:+ zeros (Z.to_nat (dp - nd))
  else String.substring 0 (Z.to_nat dp) ds +:+ "." +:+
       String.substring (Z.to_nat dp) (Z.to_nat (nd - dp)) ds.

(** The choice of ['g']: scientific notation below [1e-4] and from [1e6] on. *)
Definition format_digits (neg : bool) (ds : string) (dp : Z) : string :=
  (if neg then "-" else "") +:+
  (if (dp - 1 <? -4) || (6 <=? dp - 1) then fmtE ds dp else fmtF ds dp).

Definition FormatFloat (x : float64) : string :=
  match x with
  | S754_nan => "NaN"
  | S754_infinity false => "+Inf"
  | S754_infinity true => "-Inf"
  | S754_zero neg => if neg then "-0" else "0"
  | S754_finite neg m e =>
      let '(num, den) := if 0 <=? e then (Z.pos m * 2 ^ e, 1) else (Z.pos m, 2 ^ (- e)) in
      let k := dec_exponent num den in
      let '(d, n) := shortest 16 (S754_finite false m e) num den k 1 in
      let '(d, k) := if d =? 10 ^ n then (1, k + 1) else (d, k) in
      format_digits neg (show_Z d) k
  end.

(** ** Concrete instances *)

Example parse_ex :
  ParseFloat "21.5" = Ok (of_ratio 43 2) /\ ParseFloat "-1_0e-1" = Ok (of_Z (-1)) /\
  ParseFloat "0x1.8p1" = Ok (of_Z 3) /\ ParseFloat "0.1" = Ok (of_ratio 1 10) /\
  ParseFloat "1e400" = Err ErrRange /\ ParseFloat "1__0" = Err ErrSyntax /\
  ParseFloat "1e" = Err ErrSyntax /\ ParseFloat "" = Err ErrSyntax /\
  ParseFloat "-inf" = Ok (S754_infinity true) /\ ParseFloat "0x1" = Err ErrSyntax /\
  ParseFloat "." = Err ErrSyntax /\ ParseFloat "4.9e-324" = Ok (S754_finite false 1 (-1074)).
Proof. vm_compute. repeat split. Qed.

Example format_ex :
  FormatFloat (of_ratio 1 10) = "0.1" /\ FormatFloat (of_Z 1000000) = "1e+06" /\
  FormatFloat (of_Z 123456) = "123456" /\ FormatFloat (of_ratio 1 3) = "0.3333333333333333" /\
  FormatFloat (of_ratio (-43) 2) = "-21.5" /\ FormatFloat (of_Z (2 ^ 53)) = "9.007199254740992e+15" /\
  FormatFloat (S754_finite false 1 (-1074)) = "5e-324" /\ FormatFloat (of_ratio 1 100000) = "1e-05".
Proof. vm_compute. repeat split. Qed.
