(* ===== verification/Text.v ===== *)
(** * Text: what the program uses of Go's [strings], [strconv] and [unicode/utf8]

    [strings.Split], [Cut], [Contains] with a separator of one byte, [strings.Fields],
    [strconv.Atoi] and [utf8.RuneCountInString]; with the lemmas by which printed numbers
    and joined lists read back. *)

From S2P Require Import Prelude Float64 FloatText.

(** ** Separators *)

(** [strings.Split (s, sep)] for a separator of one byte. *)
Fixpoint Split (sep : ascii) (s : string) : list string :=
  match s with
  | EmptyString => [""]
  | String c s =>
      if Ascii.eqb c sep then "" :: Split sep s
      else match Split sep s with
           | w :: ws => String c w :: ws
           | [] => [String c ""]
           end
  end.

(** [strings.Cut]: what is before and after the first separator; [None] without one. *)
Fixpoint Cut (sep : ascii) (s : string) : option (string * string) :=
  match s with
  | EmptyString => None
  | String c s =>
      if Ascii.eqb c sep then Some ("", s)
      else match Cut sep s with
           | Some (before, after) => Some (String c before, after)
           | None => None
           end
  end.

Definition Contains (s : string) (c : ascii) : bool := negb (string_Forall (fun d => negb (Ascii.eqb d c)) s).

(** [strings.Join]. *)
Fixpoint Join (sep : string) (l : list string) : string :=
  match l with
  | [] => ""
  | [s] => s
  | s :: l => s +:+ sep +:+ Join sep l
  end.

Definition non_empty (w : string) : list string := if is_empty w then [] else [w].

(** [strings.Fields]: [word] is the field read so far; a round drops at least one byte. *)
Fixpoint fields_from (fuel : nat) (s word : string) : list string :=
  match fuel with
  | O => non_empty word
  | S fuel =>
      match drop_one space_runes s, s with
      | Some rest, _ => non_empty word ++ fields_from fuel rest ""
      | None, EmptyString => non_empty word
      | None, String c rest => fields_from fuel rest (word +:+ String c "")
      end
  end.
Definition Fields (s : string) : list string := fields_from (S (String.length s)) s "".

(** ** Numbers *)

Fixpoint digits_value (s : string) (acc : Z) : option Z :=
  match s with
  | EmptyString => Some acc
  | String c s => if is_digit c then digits_value s (acc * 10 + (byte c - 48)) else None
  end.

(** [strconv.Atoi]: an optional sign and decimal digits whose value fits 64 bits; [None] is an error. *)
Definition Atoi (s : string) : option Z :=
  let '(neg, body) := split_sign s in
  if is_empty body then None
  else match digits_value body 0 with
       | None => None
       | Some n => let n := if neg : bool then - n else n in
                   if (- two63 <=? n) && (n <? two63) then Some n else None
       end.

(** ** Runes *)

Definition in_bytes (lo hi : Z) (c : ascii) : bool := (lo <=? byte c) && (byte c <=? hi).
Definition continuation (c : ascii) : bool := in_bytes 128 191 c.

(** What follows the first rune: an encoding that is not valid counts as one byte. *)
Definition skip_rune (c : ascii) (s : string) : string :=
  let two (lo hi : Z) := match s with String d s' => if in_bytes lo hi d then Some s' else None | _ => None end in
  let cont (r : option string) :=
    match r with Some (String d s') => if continuation d then Some s' else None | _ => None end in
  let r :=
    if in_bytes 194 223 c then two 128 191
    else if in_bytes 224 224 c then cont (two 160 191)
    else if in_bytes 237 237 c then cont (two 128 159)
    else if in_bytes 225 239 c then cont (two 128 191)
    else if in_bytes 240 240 c then cont (cont (two 144 191))
    else if in_bytes 241 243 c then cont (cont (two 128 191))
    else if in_bytes 244 244 c then cont (cont (two 128 143))
    else None in
  default s r.

Fixpoint rune_count (fuel : nat) (s : string) : Z :=
  match fuel, s with
  | S fuel, String c s => 1 + rune_count fuel (skip_rune c s)
  | _, _ => 0
  end.
(** [utf8.RuneCountInString]; a round drops at least one byte. *)
Definition RuneCountInString (s : string) : Z := rune_count (String.length s) s.

(** ** Lemmas *)

Definition free_of (c : ascii) (s : string) : bool := string_Forall (fun d => negb (Ascii.eqb d c)) s.

Lemma str_app_cons c (a b : string) : String c a +:+ b = String c (a +:+ b).
Proof. done. Qed.

Lemma split_free sep s : free_of sep s = true -> Split sep s = [s].
Proof.
  unfold free_of. induction s as [|c s IH]; simpl; [done|]. intros H. bool_prop. rewrite H. by rewrite IH.
Qed.

Lemma split_app sep a s : free_of sep a = true -> Split sep (a +:+ String sep s) = a :: Split sep s.
Proof.
  unfold free_of. induction a as [|c a IH]; simpl; intros H.
  - by rewrite Ascii.eqb_refl.
  - bool_prop. rewrite H. by rewrite IH.
Qed.

(** Joined parts without the separator are split again. *)
Lemma split_join sep l : l <> [] -> Forall (fun w => free_of sep w = true) l -> Split sep (Join (String sep "") l) = l.
Proof.
  intros Hne H. induction H as [|w l Hw Hl IH]; [done|]. destruct l as [|v l]; [by apply split_free|].
  change (Join (String sep "") (w :: v :: l)) with (w +:+ String sep (Join (String sep "") (v :: l))).
  rewrite split_app by done. by rewrite IH.
Qed.

Lemma cut_free sep s : free_of sep s = true -> Cut sep s = None.
Proof.
  unfold free_of. induction s as [|c s IH]; simpl; [done|]. intros H. bool_prop. rewrite H. by rewrite IH.
Qed.

Lemma cut_app sep a s : free_of sep a = true -> Cut sep (a +:+ String sep s) = Some (a, s).
Proof.
  unfold free_of. induction a as [|c a IH]; simpl; intros H.
  - by rewrite Ascii.eqb_refl.
  - bool_prop. rewrite H. by rewrite IH.
Qed.

Lemma cut_spec sep s :
  match Cut sep s with
  | None => free_of sep s = true
  | Some (before, after) => s = before +:+ String sep after /\ free_of sep before = true
  end.
Proof.
  unfold free_of. induction s as [|c s IH]; simpl; [done|]. destruct (Ascii.eqb c sep) eqn:E.
  - apply Ascii.eqb_eq in E as ->. done.
  - destruct (Cut sep s) as [[before after]|]; simpl in *; rewrite ?E; simpl; [|done].
    destruct IH as [-> ?]. done.
Qed.

Lemma contains_free s c : Contains s c = negb (free_of c s).
Proof. done. Qed.

(** Printed numbers read back. *)
Lemma pretty_char_value x : (x < 10)%N ->
  is_digit (pretty_N_char x) = true /\ byte (pretty_N_char x) - 48 = Z.of_N x.
Proof.
  intros Hx. assert (x = 0 \/ x = 1 \/ x = 2 \/ x = 3 \/ x = 4 \/ x = 5 \/ x = 6 \/ x = 7 \/ x = 8 \/ x = 9)%N as H by lia.
  by repeat destruct H as [->|H]; [..|subst x].
Qed.

Lemma digits_value_pretty x s : digits_value (pretty_N_go x s) 0 = digits_value s (Z.of_N x).
Proof.
  revert s. induction (N.lt_wf_0 x) as [x _ IH]. intros s. destruct (decide (x = 0)%N) as [->|Hx]; [done|].
  rewrite pretty_N_go_step by lia. rewrite IH by (apply N.div_lt; lia). simpl.
  destruct (pretty_char_value (x `mod` 10)%N) as [-> ->]; [by apply N.mod_lt|].
  f_equal. pose proof (N.div_mod x 10). lia.
Qed.

Definition digits (s : string) : bool := string_Forall is_digit s.

Lemma digits_pretty_go x s : digits s = true -> digits (pretty_N_go x s) = true.
Proof.
  revert s. induction (N.lt_wf_0 x) as [x _ IH]. intros s Hs. destruct (decide (x = 0)%N) as [->|Hx]; [done|].
  rewrite pretty_N_go_step by lia. apply IH; [apply N.div_lt; lia|].
  unfold digits in *. simpl. rewrite Hs. by destruct (pretty_char_value (x `mod` 10)%N) as [-> _]; [by apply N.mod_lt|].
Qed.

Lemma pretty_go_nonempty x s : s <> "" -> pretty_N_go x s <> "".
Proof.
  revert s. induction (N.lt_wf_0 x) as [x _ IH]. intros s Hs. destruct (decide (x = 0)%N) as [->|Hx]; [done|].
  rewrite pretty_N_go_step by lia. by apply IH; [apply N.div_lt; lia|].
Qed.

Lemma show_Z_nonneg n : 0 <= n -> show_Z n = pretty (Z.to_N n).
Proof. unfold show_Z, pretty, pretty_Z. by destruct n. Qed.

Lemma show_Z_digits n : 0 <= n -> digits (show_Z n) = true /\ show_Z n <> "".
Proof.
  intros Hn. rewrite show_Z_nonneg by done. unfold pretty, pretty_N. destruct (decide _) as [|Hz]; [done|].
  split; [by apply digits_pretty_go|]. rewrite pretty_N_go_step by lia. by apply pretty_go_nonempty.
Qed.

Lemma digit_not_sign c : is_digit c = true -> is_sign c = false.
Proof. by destruct c as [[] [] [] [] [] [] [] []]. Qed.

Lemma split_sign_digits s : digits s = true -> split_sign s = (false, s).
Proof.
  destruct s as [|c s]; [done|]. unfold digits. simpl. intros H. bool_prop. by rewrite digit_not_sign.
Qed.

Lemma atoi_show n : 0 <= n < two63 -> Atoi (show_Z n) = Some n.
Proof.
  intros [H0 H1]. destruct (show_Z_digits n H0) as [Hd Hne]. unfold Atoi. rewrite split_sign_digits by done.
  apply is_empty_false in Hne. rewrite Hne. rewrite show_Z_nonneg by done. unfold pretty, pretty_N.
  destruct (decide _) as [Hz|Hz].
  - assert (n = 0) as -> by lia. done.
  - rewrite digits_value_pretty. simpl. rewrite Z2N.id by done.
    rewrite (proj2 (Z.leb_le _ _)) by (unfold two63; lia). by rewrite (proj2 (Z.ltb_lt _ _)).
Qed.

(** ** White space *)

(** Visible ASCII characters: none starts or ends the encoding of white space. *)
Definition visible (c : ascii) : bool := in_bytes 33 126 c.

Lemma visible_no_space c s : visible c = true -> drop_one space_runes (String c s) = None.
Proof. by destruct c as [[] [] [] [] [] [] [] []]. Qed.

Lemma visible_no_space_rev c s : visible c = true -> drop_one (List.map go_rev space_runes) (String c s) = None.
Proof. by destruct c as [[] [] [] [] [] [] [] []]. Qed.

Lemma trim_none pats fuel s : drop_one pats s = None -> trim_prefix pats fuel s = s.
Proof. intros H. destruct fuel; simpl; [done|]. by rewrite H. Qed.

Lemma rev_onto_app s acc : rev_onto s acc = go_rev s +:+ acc.
Proof.
  unfold go_rev. revert acc. induction s as [|c s IH]; intros acc; simpl; [done|].
  rewrite IH. rewrite (IH (String c "")). by rewrite str_app_assoc.
Qed.

Lemma go_rev_cons c s : go_rev (String c s) = go_rev s +:+ String c "".
Proof. unfold go_rev at 1. simpl. apply rev_onto_app. Qed.

Lemma go_rev_app a b : go_rev (a +:+ b) = go_rev b +:+ go_rev a.
Proof.
  induction a as [|c a IH]; simpl; [by rewrite str_app_empty|].
  rewrite str_app_cons, !go_rev_cons, IH. by rewrite str_app_assoc.
Qed.

Lemma go_rev_involutive s : go_rev (go_rev s) = s.
Proof. induction s as [|c s IH]; [done|]. rewrite go_rev_cons, go_rev_app, IH. done. Qed.

(** Text that starts and ends with a visible character is not trimmed. *)
Lemma trim_visible c d s t : visible c = true -> visible d = true -> go_rev (String c s) = String d t ->
  TrimSpace (String c s) = String c s.
Proof.
  intros Hc Hd Ht. unfold TrimSpace. rewrite (trim_none space_runes) by (by apply visible_no_space).
  rewrite Ht. rewrite trim_none by (by apply visible_no_space_rev). by rewrite <- Ht, go_rev_involutive.
Qed.

Definition visible_word (w : string) : Prop := w <> "" /\ string_Forall visible w = true.

Lemma rev_word w : visible_word w -> exists d t, go_rev w = String d t /\ visible d = true.
Proof.
  intros [Hne Hw]. induction w as [|c w IH]; [done|]. simpl in Hw. bool_prop.
  destruct w as [|c' w]; [by exists c, ""|]. destruct IH as (d & t & E & Hd); [done..|].
  rewrite go_rev_cons, E. by exists d, (t +:+ String c "").
Qed.

Lemma trim_word w : visible_word w -> TrimSpace w = w.
Proof.
  intros Hw. destruct (rev_word w Hw) as (d & t & E & Hd). destruct Hw as [Hne Hw]. destruct w as [|c w]; [done|].
  simpl in Hw. bool_prop. by eapply trim_visible.
Qed.

(** Words joined by single spaces are the fields. *)
Definition space : string := String " "%char "".

Lemma fields_word fuel w s word : (String.length w <= fuel)%nat -> string_Forall visible w = true ->
  fields_from fuel (w +:+ s) word = fields_from (fuel - String.length w) s (word +:+ w).
Proof.
  revert fuel word. induction w as [|c w IH]; intros fuel word Hf Hw; simpl in *.
  - by rewrite Nat.sub_0_r, str_app_empty.
  - destruct fuel as [|fuel]; [lia|]. bool_prop. rewrite str_app_cons. cbn [fields_from].
    rewrite visible_no_space by done. rewrite IH by (done || lia). by rewrite str_app_assoc.
Qed.

Lemma fields_join fuel l : Forall visible_word l -> (String.length (Join space l) < fuel)%nat ->
  fields_from fuel (Join space l) "" = l.
Proof.
  intros H. revert fuel. induction H as [|w l [Hne Hw] Hl IH]; intros fuel Hf.
  - destruct fuel; [lia|]. done.
  - destruct l as [|v l].
    + simpl in *. rewrite <- (str_app_empty w) at 1. rewrite fields_word by (done || lia).
      destruct (fuel - String.length w)%nat as [|n] eqn:E; [lia|]. by destruct w.
    + change (Join space (w :: v :: l)) with (w +:+ String " "%char (Join space (v :: l))) in *.
      rewrite str_length_app in Hf. cbn [String.length] in Hf. rewrite fields_word by (done || lia).
      destruct (fuel - String.length w)%nat as [|n] eqn:E; [lia|]. cbn [fields_from].
      change (drop_one space_runes (String " "%char (Join space (v :: l)))) with (Some (Join space (v :: l))).
      change ("" +:+ w) with w. unfold non_empty. rewrite (proj2 (is_empty_false w)) by done. cbn [app]. f_equal.
      apply IH. lia.
Qed.

(** ** Trimming twice *)

Lemma drop_prefix_some p s r : drop_prefix p s = Some r -> s = p +:+ r.
Proof.
  revert s. induction p as [|c p IH]; intros [|d s]; simpl; intros H; [by injection H as <-|by injection H as <-|done|].
  destruct (Ascii.eqb_spec c d) as [->|]; [|done]. by rewrite (IH _ H).
Qed.

Lemma drop_prefix_app p s t : drop_prefix p s <> None -> drop_prefix p (s +:+ t) <> None.
Proof.
  revert s. induction p as [|c p IH]; intros [|d s]; simpl; [done..|].
  destruct (Ascii.eqb c d); [by apply IH|done].
Qed.

Lemma drop_one_none pats s : drop_one pats s = None <-> forall p, p ∈ pats -> drop_prefix p s = None.
Proof.
  unfold drop_one. induction pats as [|p pats IH]; simpl.
  - split; [intros _ p Hp; by apply not_elem_of_nil in Hp|done].
  - destruct (drop_prefix p s) eqn:E; simpl.
    + split; [done|]. intros H. specialize (H p ltac:(set_solver)). congruence.
    + rewrite IH. split; [|intros H q Hq; apply H; set_solver]. intros H q [->|Hq]%elem_of_cons; [done|by apply H].
Qed.

Lemma drop_one_some pats s r : drop_one pats s = Some r -> exists p, p ∈ pats /\ s = p +:+ r.
Proof.
  unfold drop_one. induction pats as [|p pats IH]; simpl; [done|]. destruct (drop_prefix p s) eqn:E; simpl.
  - intros [= <-]. exists p. split; [set_solver|by apply drop_prefix_some].
  - intros H. destruct (IH H) as (q & Hq & ->). exists q. set_solver.
Qed.

Definition proper (pats : list string) : Prop := forall p, p ∈ pats -> p <> "".

Lemma trim_done pats fuel s : proper pats -> (String.length s <= fuel)%nat -> drop_one pats (trim_prefix pats fuel s) = None.
Proof.
  intros Hp. revert s. induction fuel as [|fuel IH]; intros s Hs; simpl.
  - destruct s; [|simpl in Hs; lia]. apply drop_one_none. intros p H. specialize (Hp _ H). by destruct p.
  - destruct (drop_one pats s) as [r|] eqn:E; [|done]. apply IH. apply drop_one_some in E as (p & H & ->).
    specialize (Hp _ H). rewrite str_length_app in Hs. destruct p; [done|]. simpl in Hs. lia.
Qed.

Lemma trim_suffix pats fuel s : exists x, s = x +:+ trim_prefix pats fuel s.
Proof.
  revert s. induction fuel as [|fuel IH]; intros s; simpl; [by exists ""|].
  destruct (drop_one pats s) as [r|] eqn:E; [|by exists ""]. apply drop_one_some in E as (p & _ & ->).
  destruct (IH r) as [x Hx]. exists (p +:+ x). by rewrite str_app_assoc, <- Hx.
Qed.

Lemma proper_spaces : proper space_runes /\ proper (List.map go_rev space_runes).
Proof.
  assert (H : forallb (fun p => negb (is_empty p)) space_runes && forallb (fun p => negb (is_empty p)) (List.map go_rev space_runes) = true)
    by (vm_compute; reflexivity).
  apply andb_true_iff in H as [H1 H2]. rewrite !forallb_forall in H1, H2.
  split; intros p Hp ->; apply list_elem_of_In in Hp; [specialize (H1 _ Hp)|specialize (H2 _ Hp)]; done.
Qed.

Lemma trim_idem s : TrimSpace (TrimSpace s) = TrimSpace s.
Proof.
  destruct proper_spaces as [Hp Hq]. unfold TrimSpace at 2 3. set (l := trim_prefix space_runes (String.length s) s).
  set (r := trim_prefix _ (String.length (go_rev l)) (go_rev l)).
  assert (Hl : drop_one space_runes l = None) by (by apply trim_done).
  assert (Hr : drop_one (List.map go_rev space_runes) r = None) by (by apply trim_done).
  assert (Hlr : drop_one space_runes (go_rev r) = None).
  { destruct (trim_suffix (List.map go_rev space_runes) (String.length (go_rev l)) (go_rev l)) as [x Hx]. fold r in Hx.
    assert (El : l = go_rev r +:+ go_rev x) by (by rewrite <- go_rev_app, <- Hx, go_rev_involutive).
    apply drop_one_none. intros p Hin. destruct (drop_prefix p (go_rev r)) eqn:E; [|done].
    exfalso. apply (drop_prefix_app p (go_rev r) (go_rev x)); [by rewrite E|]. rewrite <- El. exact (proj1 (drop_one_none space_runes l) Hl p Hin). }
  unfold TrimSpace. rewrite (trim_none space_runes) by done. rewrite go_rev_involutive. by rewrite trim_none.
Qed.
