(* ===== verification/ModelContract.v ===== *)
(** * Model contracts: backend/internal/domain/device/model_contract.go

    The unified model fixes, for every built-in device type, which parameters a
    Provider must or may publish and a Consumer must or may map.  This file holds
    the table of contracts, the publisher boundary ([NormalizeModelParameters],
    [validatePublisherModel]) and the consumer boundary ([ProjectForConsumer]). *)

From S2P Require Import Prelude Float64 DeviceModel.

(** ** Device types (device.go) *)

Definition TypeSwitch : Type_ := "switch".
Definition TypeTemperatureSensor : Type_ := "temperature-sensor".
Definition TypeHumiditySensor : Type_ := "humidity-sensor".
Definition TypeTemperatureHumiditySensor : Type_ := "temperature-humidity-sensor".
Definition TypePressureSensor : Type_ := "pressure-sensor".
Definition TypeNoiseSensor : Type_ := "noise-sensor".
Definition TypeWaterLevelSensor : Type_ := "water-level-sensor".
Definition TypeSoilMoistureSensor : Type_ := "soil-moisture-sensor".
Definition TypeLightbulb : Type_ := "lightbulb".
Definition TypeOutlet : Type_ := "outlet".
Definition TypeNetworkDevice : Type_ := "network-device".
Definition TypeContactSensor : Type_ := "contact-sensor".
Definition TypeMotionSensor : Type_ := "motion-sensor".
Definition TypeFan : Type_ := "fan".
Definition TypeAirPurifier : Type_ := "air-purifier".
Definition TypeWindowCovering : Type_ := "window-covering".
Definition TypeIlluminanceSensor : Type_ := "illuminance-sensor".
Definition TypeOccupancySensor : Type_ := "occupancy-sensor".
Definition TypeLeakSensor : Type_ := "leak-sensor".
Definition TypeSmokeSensor : Type_ := "smoke-sensor".
Definition TypeCarbonMonoxideSensor : Type_ := "carbon-monoxide-sensor".
Definition TypeCarbonDioxideSensor : Type_ := "carbon-dioxide-sensor".
Definition TypeAirQualitySensor : Type_ := "air-quality-sensor".
Definition TypeThermostat : Type_ := "thermostat".
Definition TypeAirConditioner : Type_ := "air-conditioner".
Definition TypeHeaterCooler : Type_ := "heater-cooler".
Definition TypeHumidifierDehumidifier : Type_ := "humidifier-dehumidifier".
Definition TypeLock : Type_ := "lock".
Definition TypeGarageDoor : Type_ := "garage-door".
Definition TypeSecuritySystem : Type_ := "security-system".
Definition TypeValve : Type_ := "valve".
Definition TypePump : Type_ := "pump".
Definition TypeWaterHeater : Type_ := "water-heater".
Definition TypePowerMeter : Type_ := "power-meter".
Definition TypeEVCharger : Type_ := "ev-charger".
Definition TypeSpeaker : Type_ := "speaker".
Definition TypeTelevision : Type_ := "television".
Definition TypeCamera : Type_ := "camera".
Definition TypeRobotVacuum : Type_ := "robot-vacuum".


(** ** Contract data *)

Record ParameterPath := MkParameterPath {
  pp_EndpointID : string;
  pp_CapabilityID : string;
  pp_PropertyID : string;
}.

#[export] Instance ParameterPath_eq_dec : EqDecision ParameterPath.
Proof. solve_decision. Defined.

Definition path_key (p : ParameterPath) : string :=
  pp_EndpointID p +:+ nul +:+ pp_CapabilityID p +:+ nul +:+ pp_PropertyID p.

Definition path_string (p : ParameterPath) : string :=
  pp_EndpointID p +:+ "/" +:+ pp_CapabilityID p +:+ "/" +:+ pp_PropertyID p.

Record ParameterRole := MkParameterRole { ro_Level : ParameterLevel; ro_Behavior : string }.

Record ModelParameter := MkModelParameter {
  mp_Path : ParameterPath;
  mp_Name : string;
  mp_Level : ParameterLevel;
  mp_Type : ValueType;
  mp_Unit : string;
  mp_Readable : bool;
  mp_Writable : bool;
  mp_Notifiable : bool;
  mp_Min : option float64;
  mp_Max : option float64;
  mp_Step : option float64;
  mp_StaleAfterSeconds : Z;
  mp_Enum : list string;
  mp_Publisher : ParameterRole;
  mp_Consumer : ParameterRole;
  mp_PublisherNotes : string;
  mp_ConsumerNotes : string;
}.

Record CustomParameterPolicy := MkCustomParameterPolicy {
  cu_Publisher : ParameterRole;
  cu_Consumer : ParameterRole;
}.

Record ModelContract := MkModelContract {
  mc_DeviceType : Type_;
  mc_Name : string;
  mc_Version : Z;
  mc_BuiltIn : bool;
  mc_Parameters : list ModelParameter;
  mc_Custom : CustomParameterPolicy;
}.

(** ** Building parameters *)

Definition with_mp_range (p : ModelParameter) (unit : string) (lo hi step : float64) : ModelParameter :=
  match p with
  | MkModelParameter pa na le ty _ re wr no _ _ _ st en pu co pn cn =>
      MkModelParameter pa na le ty unit re wr no (Some lo) (Some hi) (Some step) st en pu co pn cn
  end.
Definition with_mp_Writable (p : ModelParameter) (b : bool) : ModelParameter :=
  match p with
  | MkModelParameter pa na le ty un re _ no lo hi sp st en pu co pn cn =>
      MkModelParameter pa na le ty un re b no lo hi sp st en pu co pn cn
  end.
Definition with_mp_Enum (p : ModelParameter) (en : list string) : ModelParameter :=
  match p with
  | MkModelParameter pa na le ty un re wr no lo hi sp st _ pu co pn cn =>
      MkModelParameter pa na le ty un re wr no lo hi sp st en pu co pn cn
  end.

Definition required (capabilityID propertyID name : string) (valueType : ValueType) (writable : bool)
    : ModelParameter :=
  MkModelParameter (MkParameterPath "main" capabilityID propertyID) name ParameterRequired valueType
    "" true writable true None None None 0 []
    (MkParameterRole ParameterRequired "must-publish") (MkParameterRole ParameterRequired "must-map")
    "必须发布且符合统一类型" "Consumer 声明支持该模型时必须映射".

Definition requiredMeasurement (capabilityID propertyID name unit : string)
    (minimum maximum step : float64) : ModelParameter :=
  with_mp_range (required capabilityID propertyID name ValueTypeNumber false) unit minimum maximum step.

Definition requiredWritableMeasurement (capabilityID propertyID name unit : string)
    (minimum maximum step : float64) : ModelParameter :=
  with_mp_Writable (requiredMeasurement capabilityID propertyID name unit minimum maximum step) true.

Definition requiredEnum (capabilityID propertyID name : string) (writable : bool)
    (values : list string) : ModelParameter :=
  with_mp_Enum (required capabilityID propertyID name ValueTypeEnum writable) values.

Definition requiredInt (capabilityID propertyID name unit : string) (writable : bool)
    (minimum maximum step : float64) : ModelParameter :=
  with_mp_range (required capabilityID propertyID name ValueTypeInt writable) unit minimum maximum step.

Definition optional (capabilityID propertyID name : string) (valueType : ValueType) (unit : string)
    (writable : bool) (enum : list string) : ModelParameter :=
  MkModelParameter (MkParameterPath "main" capabilityID propertyID) name ParameterOptional valueType
    unit true writable true None None None 0 enum
    (MkParameterRole ParameterOptional "publish-if-supported")
    (MkParameterRole ParameterOptional "map-if-supported")
    "Provider 有能力时发布" "Consumer 支持时映射，缺失可降级".

Definition optionalEnum (capabilityID propertyID name : string) (writable : bool)
    (values : list string) : ModelParameter :=
  optional capabilityID propertyID name ValueTypeEnum "" writable values.

Definition optionalMeasurement (capabilityID propertyID name unit : string) (writable : bool)
    (minimum maximum step : float64) : ModelParameter :=
  with_mp_range (optional capabilityID propertyID name ValueTypeNumber unit writable [])
    unit minimum maximum step.

Definition optionalInt (capabilityID propertyID name unit : string) (writable : bool)
    (minimum maximum step : float64) : ModelParameter :=
  with_mp_range (optional capabilityID propertyID name ValueTypeInt unit writable [])
    unit minimum maximum step.

Definition zero_role : ParameterRole := MkParameterRole (ParameterOther "") "".

(** An entry of the table, its other fields zero. *)
Definition contract (deviceType : Type_) (name : string) (version : Z)
    (parameters : list ModelParameter) : ModelContract :=
  MkModelContract deviceType name version false parameters (MkCustomParameterPolicy zero_role zero_role).

Definition withCustomPolicy (c : ModelContract) : ModelContract :=
  MkModelContract (mc_DeviceType c) (mc_Name c) (mc_Version c) (mc_BuiltIn c) (mc_Parameters c)
    (MkCustomParameterPolicy (MkParameterRole ParameterCustom "preserve-and-mark-custom")
       (MkParameterRole ParameterCustom "explicit-path-mapping-only")).

Definition with_BuiltIn (c : ModelContract) : ModelContract :=
  MkModelContract (mc_DeviceType c) (mc_Name c) (mc_Version c) true (mc_Parameters c) (mc_Custom c).

(** ** The table *)

Definition batteryLevelParameters : list ModelParameter := [
   optionalInt "battery" "level" "电池电量" "percent" false (of_Z 0) (of_Z 100) (of_Z 1);
   optional "battery" "low" "低电量" ValueTypeBool "" false [];
   optional "battery" "charging" "正在充电" ValueTypeBool "" false []].

Definition batteryParameters : list ModelParameter :=
  batteryLevelParameters ++ [optional "security" "tampered" "防拆状态" ValueTypeBool "" false []].

Definition sensorHealthParameters : list ModelParameter :=
  batteryParameters ++ [
   optional "status" "active" "传感器有效" ValueTypeBool "" false [];
   optional "status" "fault" "传感器故障" ValueTypeBool "" false []].

Definition electricalParameters : list ModelParameter := [
   optionalMeasurement "electrical" "current-power" "当前功率" "watt" false (of_Z 0) (of_Z 100000)
     (of_ratio 1 10);
   optionalMeasurement "electrical" "voltage" "电压" "volt" false (of_Z 0) (of_Z 1000) (of_ratio 1
     10);
   optionalMeasurement "electrical" "current" "电流" "ampere" false (of_Z 0) (of_Z 1000) (of_ratio
     1 1000);
   optionalMeasurement "electrical" "frequency" "频率" "hertz" false (of_Z 0) (of_Z 1000)
     (of_ratio 1 10);
   optionalMeasurement "electrical" "power-factor" "功率因数" "ratio" false (of_Z 0) (of_Z 1)
     (of_ratio 1 100);
   optionalMeasurement "electrical" "energy" "累计电量" "kilowatt-hour" false (of_Z 0) (of_Z
     1000000000) (of_ratio 1 1000)].

Definition filterParameters : list ModelParameter := [
   optionalMeasurement "filter" "life-level" "滤芯寿命" "percent" false (of_Z 0) (of_Z 100) (of_Z 1);
   optional "filter" "change-indication" "需要更换滤芯" ValueTypeBool "" false [];
   optionalInt "filter" "used-time" "滤芯已使用时长" "hour" false (of_Z 0) (of_Z 1000000) (of_Z 1);
   optionalInt "filter" "remaining-time" "滤芯剩余时长" "hour" false (of_Z 0) (of_Z 1000000) (of_Z 1)].

Definition contractSwitch : ModelContract := contract TypeSwitch "开关" 2 ([
   required "switch" "power" "开关" ValueTypeBool true;
   optional "switch" "in-use" "正在使用" ValueTypeBool "" false [];
   optional "switch" "lock-physical-controls" "物理控制锁" ValueTypeBool "" true [];
   optional "status" "fault" "设备故障" ValueTypeBool "" false []]).

Definition contractLightbulb : ModelContract := contract TypeLightbulb "灯泡" 2 ([
   required "switch" "power" "开关" ValueTypeBool true;
   optionalMeasurement "light" "brightness" "亮度" "percent" true (of_Z 0) (of_Z 100) (of_Z 1);
   optionalInt "light" "color-temperature" "色温" "mired" true (of_Z 50) (of_Z 1000) (of_Z 1);
   optionalMeasurement "light" "hue" "色相" "degree" true (of_Z 0) (of_Z 360) (of_ratio 1 10);
   optionalMeasurement "light" "saturation" "饱和度" "percent" true (of_Z 0) (of_Z 100) (of_ratio 1
     10);
   optionalEnum "light" "color-mode" "颜色模式" false ["brightness"; "color-temperature"; "color"];
   optionalEnum "light" "effect" "灯效" true ["none"; "reading"; "night"; "color-loop"; "custom"];
   optional "light" "adaptive-lighting" "自适应照明" ValueTypeBool "" true [];
   optional "status" "fault" "灯具故障" ValueTypeBool "" false []]).

Definition contractOutlet : ModelContract := contract TypeOutlet "插座" 2 ([
   required "switch" "power" "开关" ValueTypeBool true;
   optional "outlet" "in-use" "正在使用" ValueTypeBool "" false [];
   optional "outlet" "overload" "过载" ValueTypeBool "" false [];
   optional "outlet" "lock-physical-controls" "物理控制锁" ValueTypeBool "" true []] ++ electricalParameters).

Definition contractTemperatureSensor : ModelContract := contract TypeTemperatureSensor "温度传感器" 1 ([
   requiredMeasurement "temperature" "current-temperature" "当前温度" "celsius" (of_Z (-100)) (of_Z
     200) (of_ratio 1 10);
   optionalMeasurement "temperature" "minimum-temperature" "最低温度" "celsius" false (of_Z (-100))
     (of_Z 200) (of_ratio 1 10);
   optionalMeasurement "temperature" "maximum-temperature" "最高温度" "celsius" false (of_Z (-100))
     (of_Z 200) (of_ratio 1 10)] ++ sensorHealthParameters).

Definition contractHumiditySensor : ModelContract := contract TypeHumiditySensor "湿度传感器" 1 ([
   requiredMeasurement "humidity" "current-humidity" "当前湿度" "percent" (of_Z 0) (of_Z 100)
     (of_ratio 1 10);
   optionalMeasurement "humidity" "minimum-humidity" "最低湿度" "percent" false (of_Z 0) (of_Z 100)
     (of_ratio 1 10);
   optionalMeasurement "humidity" "maximum-humidity" "最高湿度" "percent" false (of_Z 0) (of_Z 100)
     (of_ratio 1 10)] ++ sensorHealthParameters).

Definition contractTemperatureHumiditySensor : ModelContract := contract TypeTemperatureHumiditySensor "温湿度传感器" 2 ([
   requiredMeasurement "temperature" "current-temperature" "当前温度" "celsius" (of_Z (-100)) (of_Z
     200) (of_ratio 1 10);
   requiredMeasurement "humidity" "current-humidity" "当前湿度" "percent" (of_Z 0) (of_Z 100)
     (of_ratio 1 10);
   optionalMeasurement "temperature" "dew-point" "露点温度" "celsius" false (of_Z (-100)) (of_Z 100)
     (of_ratio 1 10);
   optionalMeasurement "humidity" "absolute-humidity" "绝对湿度" "gram-per-cubic-meter" false (of_Z
     0) (of_Z 1000) (of_ratio 1 10)] ++ sensorHealthParameters).

Definition contractPressureSensor : ModelContract := contract TypePressureSensor "气压传感器" 1 ([
   requiredMeasurement "pressure" "current-pressure" "当前气压" "hectopascal" (of_Z 0) (of_Z 2000)
     (of_ratio 1 10);
   optionalEnum "pressure" "trend" "气压趋势" false ["falling"; "steady"; "rising"]] ++ sensorHealthParameters).

Definition contractNoiseSensor : ModelContract := contract TypeNoiseSensor "噪声传感器" 1 ([
   requiredMeasurement "noise" "current-level" "当前声级" "decibel" (of_Z 0) (of_Z 200) (of_ratio 1
     10);
   optionalMeasurement "noise" "peak-level" "峰值声级" "decibel" false (of_Z 0) (of_Z 200) (of_ratio
     1 10)] ++ sensorHealthParameters).

Definition contractWaterLevelSensor : ModelContract := contract TypeWaterLevelSensor "水位传感器" 1 ([
   requiredMeasurement "water-level" "current-level" "当前水位" "percent" (of_Z 0) (of_Z 100)
     (of_ratio 1 10);
   optional "water-level" "low" "低水位" ValueTypeBool "" false [];
   optional "water-level" "overflow" "溢水" ValueTypeBool "" false []] ++ sensorHealthParameters).

Definition contractSoilMoistureSensor : ModelContract := contract TypeSoilMoistureSensor "土壤湿度传感器" 1 ([
   requiredMeasurement "soil-moisture" "current-moisture" "当前土壤湿度" "percent" (of_Z 0) (of_Z 100)
     (of_ratio 1 10);
   optionalMeasurement "soil-moisture" "conductivity" "土壤电导率" "microsiemens-per-centimeter"
     false (of_Z 0) (of_Z 100000) (of_Z 1);
   optionalMeasurement "temperature" "current-temperature" "土壤温度" "celsius" false (of_Z (-100))
     (of_Z 200) (of_ratio 1 10)] ++ sensorHealthParameters).

Definition contractNetworkDevice : ModelContract := contract TypeNetworkDevice "网络设备" 2 ([
   required "switch" "power" "电源状态" ValueTypeBool true;
   optional "network" "wake-pending" "唤醒启动中" ValueTypeBool "" false []]).

Definition contractContactSensor : ModelContract := contract TypeContactSensor "接触传感器" 2 ([
   required "contact" "contact-detected" "接触状态" ValueTypeBool false;
   optionalInt "contact" "open-duration" "持续打开时长" "second" false (of_Z 0) (of_Z 31536000) (of_Z
     1);
   optionalInt "contact" "event-count" "触发次数" "count" false (of_Z 0) (of_Z 1000000000) (of_Z 1)] ++ sensorHealthParameters).

Definition contractMotionSensor : ModelContract := contract TypeMotionSensor "活动传感器" 2 ([
   required "motion" "motion-detected" "活动状态" ValueTypeBool false;
   optionalEnum "motion" "sensitivity" "灵敏度" true ["low"; "medium"; "high"];
   optionalInt "motion" "clear-after" "无人延迟" "second" true (of_Z 0) (of_Z 86400) (of_Z 1);
   optionalMeasurement "illuminance" "current-illuminance" "当前照度" "lux" false (of_Z 0) (of_Z
     100000) (of_ratio 1 10)] ++ sensorHealthParameters).

Definition contractFan : ModelContract := contract TypeFan "风扇" 2 ([
   required "fan" "active" "启用" ValueTypeBool true;
   requiredEnum "fan" "current-state" "当前状态" false ["inactive"; "idle"; "blowing-air"];
   optional "fan" "target-state" "目标模式" ValueTypeEnum "" true ["manual"; "auto"];
   optionalMeasurement "fan" "rotation-speed" "转速" "percent" true (of_Z 0) (of_Z 100) (of_Z 1);
   optionalEnum "fan" "speed-level" "风速档位" true ["auto"; "low"; "medium"; "high"; "turbo"];
   optional "fan" "swing-mode" "摇头" ValueTypeBool "" true [];
   optional "fan" "rotation-direction" "旋转方向" ValueTypeEnum "" true ["clockwise";
     "counter-clockwise"];
   optional "fan" "lock-physical-controls" "物理控制锁" ValueTypeBool "" true [];
   optionalInt "fan" "set-duration" "定时关闭" "second" true (of_Z 0) (of_Z 86400) (of_Z 1);
   optionalInt "fan" "remaining-duration" "剩余时长" "second" false (of_Z 0) (of_Z 86400) (of_Z 1);
   optional "status" "fault" "设备故障" ValueTypeBool "" false []]).

Definition contractAirPurifier : ModelContract := contract TypeAirPurifier "空气净化器" 2 ([
   required "air-purifier" "active" "启用" ValueTypeBool true;
   requiredEnum "air-purifier" "current-state" "当前状态" false ["inactive"; "idle";
     "purifying-air"];
   optional "air-purifier" "target-state" "目标模式" ValueTypeEnum "" true ["manual"; "auto"];
   optionalMeasurement "air-purifier" "rotation-speed" "净化速度" "percent" true (of_Z 0) (of_Z 100)
     (of_Z 1);
   optional "air-purifier" "swing-mode" "摆风" ValueTypeBool "" true [];
   optional "air-purifier" "lock-physical-controls" "物理控制锁" ValueTypeBool "" true [];
   optional "air-quality" "current-air-quality" "空气质量" ValueTypeEnum "" false ["unknown";
     "excellent"; "good"; "fair"; "inferior"; "poor"];
   optionalMeasurement "air-quality" "pm2.5-density" "PM2.5" "microgram-per-cubic-meter" false
     (of_Z 0) (of_Z 10000) (of_ratio 1 10);
   optionalMeasurement "air-quality" "pm10-density" "PM10" "microgram-per-cubic-meter" false
     (of_Z 0) (of_Z 10000) (of_ratio 1 10);
   optionalMeasurement "air-quality" "voc-density" "VOC" "microgram-per-cubic-meter" false (of_Z
     0) (of_Z 100000) (of_ratio 1 10);
   optionalMeasurement "air-quality" "carbon-dioxide-level" "二氧化碳浓度" "ppm" false (of_Z 0) (of_Z
     100000) (of_Z 1);
   optionalMeasurement "temperature" "current-temperature" "当前温度" "celsius" false (of_Z (-100))
     (of_Z 200) (of_ratio 1 10);
   optionalMeasurement "humidity" "current-humidity" "当前湿度" "percent" false (of_Z 0) (of_Z 100)
     (of_ratio 1 10);
   optionalInt "air-purifier" "set-duration" "定时关闭" "second" true (of_Z 0) (of_Z 86400) (of_Z 1);
   optionalInt "air-purifier" "remaining-duration" "剩余时长" "second" false (of_Z 0) (of_Z 86400)
     (of_Z 1);
   optional "status" "fault" "设备故障" ValueTypeBool "" false []] ++ filterParameters).

Definition contractWindowCovering : ModelContract := contract TypeWindowCovering "窗帘" 2 ([
   requiredInt "window-covering" "current-position" "当前位置" "percent" false (of_Z 0) (of_Z 100)
     (of_Z 1);
   requiredInt "window-covering" "target-position" "目标位置" "percent" true (of_Z 0) (of_Z 100)
     (of_Z 1);
   requiredEnum "window-covering" "position-state" "运动状态" false ["decreasing"; "increasing";
     "stopped"];
   optional "window-covering" "obstruction-detected" "障碍物检测" ValueTypeBool "" false [];
   optionalInt "window-covering" "current-horizontal-tilt" "当前水平倾角" "degree" false (of_Z (-90))
     (of_Z 90) (of_Z 1);
   optionalInt "window-covering" "target-horizontal-tilt" "目标水平倾角" "degree" true (of_Z (-90))
     (of_Z 90) (of_Z 1);
   optionalInt "window-covering" "current-vertical-tilt" "当前垂直倾角" "degree" false (of_Z (-90))
     (of_Z 90) (of_Z 1);
   optionalInt "window-covering" "target-vertical-tilt" "目标垂直倾角" "degree" true (of_Z (-90))
     (of_Z 90) (of_Z 1);
   optional "window-covering" "hold-position" "暂停运动" ValueTypeBool "" true [];
   optional "status" "fault" "设备故障" ValueTypeBool "" false []]).

Definition contractIlluminanceSensor : ModelContract := contract TypeIlluminanceSensor "照度传感器" 2 ([
   requiredMeasurement "illuminance" "current-illuminance" "当前照度" "lux" (of_Z 0) (of_Z 100000)
     (of_ratio 1 10);
   optionalMeasurement "illuminance" "minimum-illuminance" "最低照度" "lux" false (of_Z 0) (of_Z
     100000) (of_ratio 1 10);
   optionalMeasurement "illuminance" "maximum-illuminance" "最高照度" "lux" false (of_Z 0) (of_Z
     100000) (of_ratio 1 10)] ++ sensorHealthParameters).

Definition contractOccupancySensor : ModelContract := contract TypeOccupancySensor "占用传感器" 2 ([
   required "occupancy" "occupancy-detected" "占用状态" ValueTypeBool false;
   optionalInt "occupancy" "person-count" "人数" "count" false (of_Z 0) (of_Z 1000) (of_Z 1);
   optionalEnum "occupancy" "sensitivity" "灵敏度" true ["low"; "medium"; "high"];
   optionalInt "occupancy" "clear-after" "无人延迟" "second" true (of_Z 0) (of_Z 86400) (of_Z 1)] ++ sensorHealthParameters).

Definition contractLeakSensor : ModelContract := contract TypeLeakSensor "漏水传感器" 2 ([
   required "leak" "leak-detected" "漏水状态" ValueTypeBool false;
   optionalMeasurement "water-level" "current-level" "检测水位" "millimeter" false (of_Z 0) (of_Z
     100000) (of_ratio 1 10)] ++ sensorHealthParameters).

Definition contractSmokeSensor : ModelContract := contract TypeSmokeSensor "烟雾传感器" 2 ([
   required "smoke" "smoke-detected" "烟雾状态" ValueTypeBool false;
   optionalMeasurement "smoke" "density" "烟雾浓度" "percent" false (of_Z 0) (of_Z 100) (of_ratio 1
     10)] ++ sensorHealthParameters).

Definition contractCarbonMonoxideSensor : ModelContract := contract TypeCarbonMonoxideSensor "一氧化碳传感器" 2 ([
   required "carbon-monoxide" "detected" "一氧化碳告警" ValueTypeBool false;
   optionalMeasurement "carbon-monoxide" "current-level" "当前浓度" "ppm" false (of_Z 0) (of_Z
     10000) (of_ratio 1 10);
   optionalMeasurement "carbon-monoxide" "peak-level" "峰值浓度" "ppm" false (of_Z 0) (of_Z 10000)
     (of_ratio 1 10)] ++ sensorHealthParameters).

Definition contractCarbonDioxideSensor : ModelContract := contract TypeCarbonDioxideSensor "二氧化碳传感器" 2 ([
   required "carbon-dioxide" "detected" "二氧化碳告警" ValueTypeBool false;
   optionalMeasurement "carbon-dioxide" "current-level" "当前浓度" "ppm" false (of_Z 0) (of_Z
     100000) (of_Z 1);
   optionalMeasurement "carbon-dioxide" "peak-level" "峰值浓度" "ppm" false (of_Z 0) (of_Z 100000)
     (of_Z 1)] ++ sensorHealthParameters).

Definition contractAirQualitySensor : ModelContract := contract TypeAirQualitySensor "空气质量传感器" 2 ([
   requiredEnum "air-quality" "current-air-quality" "当前空气质量" false ["unknown"; "excellent";
     "good"; "fair"; "inferior"; "poor"];
   optionalMeasurement "air-quality" "index" "空气质量指数" "aqi" false (of_Z 0) (of_Z 1000) (of_Z 1);
   optionalMeasurement "air-quality" "pm2.5-density" "PM2.5" "microgram-per-cubic-meter" false
     (of_Z 0) (of_Z 10000) (of_ratio 1 10);
   optionalMeasurement "air-quality" "pm10-density" "PM10" "microgram-per-cubic-meter" false
     (of_Z 0) (of_Z 10000) (of_ratio 1 10);
   optionalMeasurement "air-quality" "voc-density" "VOC" "microgram-per-cubic-meter" false (of_Z
     0) (of_Z 100000) (of_ratio 1 10);
   optionalMeasurement "air-quality" "carbon-monoxide-level" "一氧化碳浓度" "ppm" false (of_Z 0) (of_Z
     10000) (of_ratio 1 10);
   optionalMeasurement "air-quality" "carbon-dioxide-level" "二氧化碳浓度" "ppm" false (of_Z 0) (of_Z
     100000) (of_Z 1);
   optionalMeasurement "air-quality" "nitrogen-dioxide-density" "二氧化氮浓度"
     "microgram-per-cubic-meter" false (of_Z 0) (of_Z 10000) (of_ratio 1 10);
   optionalMeasurement "air-quality" "ozone-density" "臭氧浓度" "microgram-per-cubic-meter" false
     (of_Z 0) (of_Z 10000) (of_ratio 1 10);
   optionalMeasurement "temperature" "current-temperature" "当前温度" "celsius" false (of_Z (-100))
     (of_Z 200) (of_ratio 1 10);
   optionalMeasurement "humidity" "current-humidity" "当前湿度" "percent" false (of_Z 0) (of_Z 100)
     (of_ratio 1 10)] ++ sensorHealthParameters).

Definition contractThermostat : ModelContract := contract TypeThermostat "恒温器" 2 ([
   requiredEnum "thermostat" "current-state" "当前工作状态" false ["off"; "heating"; "cooling";
     "idle"];
   requiredEnum "thermostat" "target-mode" "目标模式" true ["off"; "heat"; "cool"; "auto"];
   requiredMeasurement "temperature" "current-temperature" "当前温度" "celsius" (of_Z (-100)) (of_Z
     200) (of_ratio 1 10);
   requiredWritableMeasurement "temperature" "target-temperature" "目标温度" "celsius" (of_Z 5)
     (of_Z 35) (of_ratio 1 10);
   optionalMeasurement "temperature" "heating-threshold" "制热阈值" "celsius" true (of_Z 5) (of_Z
     35) (of_ratio 1 10);
   optionalMeasurement "temperature" "cooling-threshold" "制冷阈值" "celsius" true (of_Z 5) (of_Z
     35) (of_ratio 1 10);
   optionalMeasurement "humidity" "current-humidity" "当前湿度" "percent" false (of_Z 0) (of_Z 100)
     (of_ratio 1 10);
   optional "thermostat" "display-units" "显示温标" ValueTypeEnum "" true ["celsius"; "fahrenheit"];
   optionalEnum "thermostat" "fan-mode" "风机模式" true ["auto"; "on"; "circulate"];
   optional "thermostat" "hold" "温度保持" ValueTypeBool "" true [];
   optional "thermostat" "lock-physical-controls" "物理控制锁" ValueTypeBool "" true [];
   optional "status" "fault" "设备故障" ValueTypeBool "" false []]).

Definition contractAirConditioner : ModelContract := contract TypeAirConditioner "空调" 3 ([
   required "air-conditioner" "active" "启用" ValueTypeBool true;
   optionalEnum "air-conditioner" "current-state" "当前工作状态" false ["off"; "idle"; "cooling";
     "heating"; "drying"; "fan-only"];
   requiredEnum "air-conditioner" "target-mode" "运行模式" true ["off"; "auto"; "cool"; "heat";
     "dry"; "fan"];
   optionalMeasurement "temperature" "current-temperature" "当前温度" "celsius" false (of_Z (-100))
     (of_Z 200) (of_ratio 1 10);
   requiredWritableMeasurement "temperature" "target-temperature" "目标温度" "celsius" (of_Z 16)
     (of_Z 32) (of_ratio 5 10);
   optionalEnum "air-conditioner" "fan-speed" "风速档位" true ["auto"; "low"; "medium_low";
     "medium"; "medium_high"; "high"; "turbo"; "quiet"];
   optionalMeasurement "air-conditioner" "rotation-speed" "风速百分比" "percent" true (of_Z 0) (of_Z
     100) (of_Z 1);
   optional "air-conditioner" "vertical-swing" "上下扫风" ValueTypeBool "" true [];
   optional "air-conditioner" "horizontal-swing" "左右扫风" ValueTypeBool "" true [];
   optionalEnum "air-conditioner" "vertical-swing-mode" "上下扫风位置" true ["default"; "swing_full";
     "fixed_upmost"; "fixed_middle_up"; "fixed_middle"; "fixed_middle_low"; "fixed_lowest";
     "swing_downmost"; "swing_middle_low"; "swing_middle"; "swing_middle_up"; "swing_upmost"];
   optionalEnum "air-conditioner" "horizontal-swing-mode" "左右扫风位置" true ["default";
     "swing_full"; "fixed_leftmost"; "fixed_middle_left"; "fixed_middle"; "fixed_middle_right";
     "fixed_rightmost"];
   optionalEnum "air-conditioner" "wind-direction" "导风方向" true ["auto"; "up"; "middle"; "down"];
   optional "air-conditioner" "auxiliary-heat" "辅热" ValueTypeBool "" true [];
   optional "air-conditioner" "eight-degree-heat" "8°C 防冻制热" ValueTypeBool "" true [];
   optional "air-conditioner" "sleep-mode" "睡眠模式" ValueTypeBool "" true [];
   optional "air-conditioner" "sleep" "睡眠" ValueTypeBool "" true [];
   optional "air-conditioner" "eco-mode" "节能模式" ValueTypeBool "" true [];
   optional "air-conditioner" "power-save" "省电模式" ValueTypeBool "" true [];
   optional "air-conditioner" "x-fan" "X-Fan" ValueTypeBool "" true [];
   optional "air-conditioner" "health" "健康模式" ValueTypeBool "" true [];
   optional "air-conditioner" "air" "新风模式" ValueTypeBool "" true [];
   optional "air-conditioner" "display-enabled" "面板显示" ValueTypeBool "" true [];
   optional "air-conditioner" "anti-direct-blow" "防直吹" ValueTypeBool "" true [];
   optional "air-conditioner" "light-sensor" "光线传感器" ValueTypeBool "" true [];
   optional "air-conditioner" "beeper" "蜂鸣器" ValueTypeBool "" true [];
   optional "air-conditioner" "auto-x-fan" "自动 X-Fan" ValueTypeBool "" true [];
   optional "air-conditioner" "auto-light" "自动面板灯" ValueTypeBool "" true [];
   optionalMeasurement "humidity" "current-humidity" "当前湿度" "percent" false (of_Z 0) (of_Z 100)
     (of_ratio 1 10);
   optionalMeasurement "temperature" "outside-temperature" "室外温度" "celsius" false (of_Z (-100))
     (of_Z 200) (of_ratio 1 10);
   optional "air-conditioner" "display-units" "显示温标" ValueTypeEnum "" true ["celsius";
     "fahrenheit"];
   optional "air-conditioner" "fault" "故障代码" ValueTypeString "" false [];
   optionalInt "air-conditioner" "set-duration" "定时关闭" "second" true (of_Z 0) (of_Z 86400) (of_Z
     1);
   optionalInt "air-conditioner" "remaining-duration" "剩余时长" "second" false (of_Z 0) (of_Z
     86400) (of_Z 1)] ++ filterParameters).

Definition contractHeaterCooler : ModelContract := contract TypeHeaterCooler "冷暖设备" 2 ([
   required "heater-cooler" "active" "启用" ValueTypeBool true;
   requiredEnum "heater-cooler" "current-state" "当前工作状态" false ["inactive"; "idle"; "heating";
     "cooling"];
   requiredEnum "heater-cooler" "target-state" "目标模式" true ["auto"; "heat"; "cool"];
   requiredMeasurement "temperature" "current-temperature" "当前温度" "celsius" (of_Z (-100)) (of_Z
     200) (of_ratio 1 10);
   optionalMeasurement "temperature" "heating-threshold" "制热阈值" "celsius" true (of_Z 5) (of_Z
     35) (of_ratio 1 10);
   optionalMeasurement "temperature" "cooling-threshold" "制冷阈值" "celsius" true (of_Z 5) (of_Z
     35) (of_ratio 1 10);
   optionalMeasurement "heater-cooler" "rotation-speed" "风速" "percent" true (of_Z 0) (of_Z 100)
     (of_Z 1);
   optional "heater-cooler" "swing-mode" "摆风" ValueTypeBool "" true [];
   optional "heater-cooler" "lock-physical-controls" "物理控制锁" ValueTypeBool "" true [];
   optionalInt "heater-cooler" "set-duration" "定时关闭" "second" true (of_Z 0) (of_Z 86400) (of_Z
     1);
   optionalInt "heater-cooler" "remaining-duration" "剩余时长" "second" false (of_Z 0) (of_Z 86400)
     (of_Z 1);
   optional "status" "fault" "设备故障" ValueTypeBool "" false []]).

Definition contractHumidifierDehumidifier : ModelContract := contract TypeHumidifierDehumidifier "加湿除湿器" 2 ([
   required "humidifier-dehumidifier" "active" "启用" ValueTypeBool true;
   requiredEnum "humidifier-dehumidifier" "current-state" "当前工作状态" false ["inactive"; "idle";
     "humidifying"; "dehumidifying"];
   requiredEnum "humidifier-dehumidifier" "target-state" "目标模式" true ["auto"; "humidify";
     "dehumidify"];
   requiredMeasurement "humidity" "current-humidity" "当前湿度" "percent" (of_Z 0) (of_Z 100)
     (of_ratio 1 10);
   requiredWritableMeasurement "humidity" "target-humidity" "目标湿度" "percent" (of_Z 0) (of_Z 100)
     (of_Z 1);
   optionalMeasurement "humidifier-dehumidifier" "water-level" "水位" "percent" false (of_Z 0)
     (of_Z 100) (of_Z 1);
   optional "humidifier-dehumidifier" "water-shortage" "缺水" ValueTypeBool "" false [];
   optional "humidifier-dehumidifier" "lock-physical-controls" "物理控制锁" ValueTypeBool "" true [];
   optionalMeasurement "humidifier-dehumidifier" "rotation-speed" "风速" "percent" true (of_Z 0)
     (of_Z 100) (of_Z 1);
   optionalInt "humidifier-dehumidifier" "set-duration" "定时关闭" "second" true (of_Z 0) (of_Z
     86400) (of_Z 1);
   optional "status" "fault" "设备故障" ValueTypeBool "" false []] ++ filterParameters).

Definition contractLock : ModelContract := contract TypeLock "门锁" 2 ([
   requiredEnum "lock" "current-state" "当前锁定状态" false ["unsecured"; "secured"; "jammed";
     "unknown"];
   requiredEnum "lock" "target-state" "目标锁定状态" true ["unsecured"; "secured"];
   optional "lock" "jammed" "锁舌卡住" ValueTypeBool "" false [];
   optional "lock" "door-open" "门已打开" ValueTypeBool "" false [];
   optionalEnum "lock" "last-operation" "最近操作" false ["lock"; "unlock"; "auto-lock"; "key";
     "inside"; "unknown"];
   optional "lock" "lock-physical-controls" "物理控制锁" ValueTypeBool "" true []] ++ sensorHealthParameters).

Definition contractGarageDoor : ModelContract := contract TypeGarageDoor "车库门" 2 ([
   requiredEnum "garage-door" "current-state" "当前门状态" false ["open"; "closed"; "opening";
     "closing"; "stopped"; "unknown"];
   requiredEnum "garage-door" "target-state" "目标门状态" true ["open"; "closed"];
   optional "garage-door" "obstruction-detected" "障碍物检测" ValueTypeBool "" false [];
   optional "garage-door" "lock-current-state" "当前锁定状态" ValueTypeEnum "" false ["unsecured";
     "secured"; "jammed"; "unknown"];
   optional "garage-door" "lock-target-state" "目标锁定状态" ValueTypeEnum "" true ["unsecured";
     "secured"];
   optional "status" "fault" "设备故障" ValueTypeBool "" false []]).

Definition contractSecuritySystem : ModelContract := contract TypeSecuritySystem "安防系统" 2 ([
   requiredEnum "security-system" "current-state" "当前布防状态" false ["stay-arm"; "away-arm";
     "night-arm"; "disarmed"; "triggered"];
   requiredEnum "security-system" "target-state" "目标布防状态" true ["stay-arm"; "away-arm";
     "night-arm"; "disarmed"];
   optional "security-system" "alarm-type" "告警类型" ValueTypeEnum "" false ["none"; "unknown";
     "burglar"; "fire"; "water"; "panic"];
   optional "security-system" "siren-active" "警号启用" ValueTypeBool "" true [];
   optionalInt "security-system" "exit-delay" "离家布防延迟" "second" true (of_Z 0) (of_Z 3600) (of_Z
     1);
   optionalInt "security-system" "entry-delay" "进入撤防延迟" "second" true (of_Z 0) (of_Z 3600) (of_Z
     1);
   optional "security" "tampered" "防拆状态" ValueTypeBool "" false [];
   optional "status" "fault" "系统故障" ValueTypeBool "" false []]).

Definition contractValve : ModelContract := contract TypeValve "阀门" 2 ([
   required "valve" "active" "启用" ValueTypeBool true;
   required "valve" "in-use" "正在使用" ValueTypeBool false;
   requiredEnum "valve" "valve-type" "阀门类型" false ["generic"; "irrigation"; "shower"; "faucet"];
   optionalInt "valve" "set-duration" "设定时长" "second" true (of_Z 0) (of_Z 86400) (of_Z 1);
   optionalInt "valve" "remaining-duration" "剩余时长" "second" false (of_Z 0) (of_Z 86400) (of_Z 1);
   optionalMeasurement "valve" "position" "阀门开度" "percent" true (of_Z 0) (of_Z 100) (of_Z 1);
   optionalMeasurement "flow" "current-flow" "当前流量" "liter-per-minute" false (of_Z 0) (of_Z
     100000) (of_ratio 1 10);
   optionalMeasurement "flow" "total-volume" "累计流量" "liter" false (of_Z 0) (of_Z 1000000000)
     (of_ratio 1 10);
   optional "status" "fault" "阀门故障" ValueTypeBool "" false []]).

Definition contractPump : ModelContract := contract TypePump "水泵" 1 ([
   required "pump" "active" "启用" ValueTypeBool true;
   requiredEnum "pump" "current-state" "当前状态" false ["inactive"; "starting"; "running";
     "stopping"; "fault"];
   optionalMeasurement "pump" "speed" "转速" "percent" true (of_Z 0) (of_Z 100) (of_Z 1);
   optionalMeasurement "flow" "current-flow" "当前流量" "liter-per-minute" false (of_Z 0) (of_Z
     100000) (of_ratio 1 10);
   optionalMeasurement "pressure" "current-pressure" "当前压力" "kilopascal" false (of_Z 0) (of_Z
     100000) (of_ratio 1 10);
   optionalInt "pump" "set-duration" "设定时长" "second" true (of_Z 0) (of_Z 86400) (of_Z 1);
   optionalInt "pump" "remaining-duration" "剩余时长" "second" false (of_Z 0) (of_Z 86400) (of_Z 1);
   optional "status" "fault" "水泵故障" ValueTypeBool "" false []]).

Definition contractWaterHeater : ModelContract := contract TypeWaterHeater "热水器" 1 ([
   required "water-heater" "active" "启用" ValueTypeBool true;
   requiredEnum "water-heater" "current-state" "当前状态" false ["inactive"; "idle"; "heating";
     "keeping-warm"; "fault"];
   requiredMeasurement "temperature" "current-temperature" "当前水温" "celsius" (of_Z 0) (of_Z 100)
     (of_ratio 1 10);
   requiredWritableMeasurement "temperature" "target-temperature" "目标水温" "celsius" (of_Z 5)
     (of_Z 100) (of_ratio 5 10);
   optionalEnum "water-heater" "mode" "运行模式" true ["standard"; "eco"; "boost"; "vacation"];
   optionalMeasurement "water-heater" "water-level" "水量" "percent" false (of_Z 0) (of_Z 100)
     (of_Z 1);
   optionalInt "water-heater" "remaining-time" "剩余加热时间" "second" false (of_Z 0) (of_Z 86400)
     (of_Z 1);
   optional "water-heater" "lock-physical-controls" "物理控制锁" ValueTypeBool "" true [];
   optional "status" "fault" "设备故障" ValueTypeBool "" false []]).

Definition contractPowerMeter : ModelContract := contract TypePowerMeter "电力计量器" 1 ([
   requiredMeasurement "electrical" "current-power" "当前功率" "watt" (of_Z 0) (of_Z 1000000000)
     (of_ratio 1 10);
   optionalEnum "electrical" "power-flow" "功率方向" false ["importing"; "exporting"; "idle"];
   optionalMeasurement "electrical" "reactive-power" "无功功率" "var" false (of_Z (-1000000000))
     (of_Z 1000000000) (of_ratio 1 10);
   optionalMeasurement "electrical" "apparent-power" "视在功率" "volt-ampere" false (of_Z 0) (of_Z
     1000000000) (of_ratio 1 10)] ++ (tail electricalParameters ++ sensorHealthParameters)).

Definition contractEVCharger : ModelContract := contract TypeEVCharger "电动汽车充电桩" 1 ([
   required "ev-charger" "active" "允许充电" ValueTypeBool true;
   requiredEnum "ev-charger" "current-state" "当前状态" false ["disconnected"; "connected";
     "charging"; "paused"; "complete"; "fault"];
   optionalMeasurement "ev-charger" "target-current" "目标电流" "ampere" true (of_Z 0) (of_Z 1000)
     (of_ratio 1 10);
   optionalMeasurement "ev-charger" "session-energy" "本次充电量" "kilowatt-hour" false (of_Z 0)
     (of_Z 1000000) (of_ratio 1 1000);
   optionalInt "ev-charger" "session-duration" "本次充电时长" "second" false (of_Z 0) (of_Z 31536000)
     (of_Z 1);
   optionalInt "ev-charger" "remaining-duration" "预计剩余时长" "second" false (of_Z 0) (of_Z
     31536000) (of_Z 1);
   optional "ev-charger" "cable-locked" "充电枪锁定" ValueTypeBool "" false [];
   optional "status" "fault" "充电故障" ValueTypeBool "" false []] ++ electricalParameters).

Definition contractSpeaker : ModelContract := contract TypeSpeaker "扬声器" 2 ([
   required "speaker" "active" "启用" ValueTypeBool true;
   requiredWritableMeasurement "speaker" "volume" "音量" "percent" (of_Z 0) (of_Z 100) (of_Z 1);
   required "speaker" "mute" "静音" ValueTypeBool true;
   optionalEnum "speaker" "current-media-state" "当前媒体状态" false ["playing"; "paused"; "stopped";
     "loading"; "interrupted"];
   optionalEnum "speaker" "target-media-state" "目标媒体状态" true ["play"; "pause"; "stop"];
   optional "speaker" "input-source" "输入源" ValueTypeString "" true [];
   optional "speaker" "title" "媒体标题" ValueTypeString "" false [];
   optional "speaker" "artist" "艺术家" ValueTypeString "" false [];
   optionalInt "speaker" "position" "播放位置" "second" true (of_Z 0) (of_Z 31536000) (of_Z 1);
   optionalInt "speaker" "duration" "媒体时长" "second" false (of_Z 0) (of_Z 31536000) (of_Z 1);
   optional "speaker" "shuffle" "随机播放" ValueTypeBool "" true [];
   optionalEnum "speaker" "repeat" "循环模式" true ["off"; "one"; "all"]]).

Definition contractTelevision : ModelContract := contract TypeTelevision "电视" 2 ([
   required "television" "active" "电源" ValueTypeBool true;
   requiredWritableMeasurement "television" "volume" "音量" "percent" (of_Z 0) (of_Z 100) (of_Z 1);
   requiredEnum "television" "target-media-state" "目标媒体状态" true ["play"; "pause"; "stop"];
   requiredEnum "television" "remote-key" "遥控按键" true ["select"; "up"; "down"; "left"; "right";
     "exit"; "back"; "info"; "play"; "pause"; "stop"; "rewind"; "fast-forward"; "next";
     "previous"; "power"; "volume-up"; "volume-down"; "mute"];
   optionalEnum "television" "current-media-state" "当前媒体状态" false ["playing"; "paused";
     "stopped"; "loading"; "interrupted"]]).

Definition contractCamera : ModelContract := contract TypeCamera "摄像头" 2 ([
   optional "camera" "privacy" "隐私模式" ValueTypeBool "" true [];
   optional "camera" "indicator" "状态指示灯" ValueTypeBool "" true [];
   optionalEnum "camera" "night-vision" "夜视模式" true ["off"; "on"; "auto"];
   optional "camera" "motion-detection" "移动侦测" ValueTypeBool "" true [];
   optional "camera" "motion-detected" "检测到移动" ValueTypeBool "" false [];
   optional "media" "live-stream" "实时视频" ValueTypeBool "" false [];
   optional "media" "snapshot" "快照" ValueTypeBool "" false [];
   optional "media" "microphone" "麦克风" ValueTypeBool "" false [];
   optional "media" "talkback" "双向语音" ValueTypeBool "" false [];
   optionalEnum "ptz" "movement" "云台移动" true ["stop"; "up"; "down"; "left"; "right"; "up-left";
     "up-right"; "down-left"; "down-right"];
   optionalInt "ptz" "movement-speed" "云台速度" "percent" true (of_Z 1) (of_Z 100) (of_Z 1);
   optionalMeasurement "ptz" "pan-position" "水平位置" "degree" true (of_Z (-360)) (of_Z 360)
     (of_ratio 1 10);
   optionalMeasurement "ptz" "tilt-position" "垂直位置" "degree" true (of_Z (-180)) (of_Z 180)
     (of_ratio 1 10);
   optionalMeasurement "ptz" "zoom-level" "变焦倍率" "percent" true (of_Z 0) (of_Z 100) (of_Z 1);
   optional "ptz" "current-preset" "当前记忆点" ValueTypeString "" false [];
   optional "ptz" "target-preset" "目标记忆点" ValueTypeString "" true [];
   optionalInt "ptz" "preset-count" "记忆点数量" "count" false (of_Z 0) (of_Z 1000) (of_Z 1)] ++ batteryLevelParameters).

Definition contractRobotVacuum : ModelContract := contract TypeRobotVacuum "扫地机器人" 2 ([
   required "robot-vacuum" "active" "启用" ValueTypeBool true;
   requiredEnum "robot-vacuum" "current-state" "当前工作状态" false ["idle"; "cleaning"; "paused";
     "returning"; "charging"; "error"];
   requiredEnum "robot-vacuum" "target-mode" "目标模式" true ["vacuum"; "mop"; "vacuum-and-mop";
     "spot"];
   optionalMeasurement "robot-vacuum" "cleaning-progress" "清洁进度" "percent" false (of_Z 0) (of_Z
     100) (of_Z 1);
   optionalMeasurement "robot-vacuum" "fan-speed" "吸力" "percent" true (of_Z 0) (of_Z 100) (of_Z
     1);
   optional "robot-vacuum" "fault" "故障代码" ValueTypeString "" false [];
   optional "battery" "charging" "正在充电" ValueTypeBool "" false [];
   optionalInt "battery" "level" "电池电量" "percent" false (of_Z 0) (of_Z 100) (of_Z 1);
   optional "battery" "low" "低电量" ValueTypeBool "" false [];
   optionalMeasurement "robot-vacuum" "cleaned-area" "已清洁面积" "square-meter" false (of_Z 0) (of_Z
     100000) (of_ratio 1 10);
   optionalInt "robot-vacuum" "cleaning-time" "清洁时长" "second" false (of_Z 0) (of_Z 31536000)
     (of_Z 1);
   optionalMeasurement "robot-vacuum" "water-level" "拖地水量" "percent" true (of_Z 0) (of_Z 100)
     (of_Z 1);
   optional "robot-vacuum" "mop-attached" "拖布已安装" ValueTypeBool "" false [];
   optional "robot-vacuum" "dust-bin-present" "尘盒已安装" ValueTypeBool "" false []] ++ filterParameters).

Definition builtin_contracts : list ModelContract := [
   contractSwitch; contractLightbulb; contractOutlet; contractTemperatureSensor;
   contractHumiditySensor; contractTemperatureHumiditySensor; contractPressureSensor;
     contractNoiseSensor;
   contractWaterLevelSensor; contractSoilMoistureSensor; contractNetworkDevice;
     contractContactSensor;
   contractMotionSensor; contractFan; contractAirPurifier; contractWindowCovering;
   contractIlluminanceSensor; contractOccupancySensor; contractLeakSensor; contractSmokeSensor;
   contractCarbonMonoxideSensor; contractCarbonDioxideSensor; contractAirQualitySensor;
     contractThermostat;
   contractAirConditioner; contractHeaterCooler; contractHumidifierDehumidifier; contractLock;
   contractGarageDoor; contractSecuritySystem; contractValve; contractPump;
   contractWaterHeater; contractPowerMeter; contractEVCharger; contractSpeaker;
   contractTelevision; contractCamera; contractRobotVacuum].

Definition modelContracts : gmap string ModelContract :=
  list_to_map ((fun c => (mc_DeviceType c, c)) <$> builtin_contracts).

Definition contract_le (a b : ModelContract) : Prop :=
  str_leb (mc_DeviceType a) (mc_DeviceType b) = true.
#[export] Instance contract_le_dec : RelDecision contract_le.
Proof. intros a b. unfold contract_le. apply _. Defined.

(** [range] over the map, then sorted by the device type, which is unique. *)
Definition ModelContracts : list ModelContract :=
  merge_sort contract_le
    ((fun kv => with_BuiltIn (withCustomPolicy kv.2)) <$> map_to_list modelContracts).

Definition ModelContractFor (deviceType : Type_) : option ModelContract :=
  (fun c => with_BuiltIn (withCustomPolicy c)) <$> modelContracts !! deviceType.

(** [None] is the nil map of an unknown device type. *)
Definition parameterIndex (deviceType : Type_) : option (gmap string ModelParameter) :=
  (fun c => fold_left (fun m p => <[path_key (mp_Path p) := p]> m) (mc_Parameters c) ∅)
    <$> modelContracts !! deviceType.

(** Lookup in a possibly nil map. *)
Definition index_lookup (index : option (gmap string ModelParameter)) (key : string)
    : option ModelParameter := index ≫= fun m => m !! key.

(** ** The publisher boundary *)

Definition normalize_property (index : option (gmap string ModelParameter))
    (endpointID capabilityID : string) (p : Property) : Property :=
  let d := p_Definition p in
  let key := path_key (MkParameterPath endpointID capabilityID (pd_ID d)) in
  with_p_Definition p (with_pd_Level d
    (match index_lookup index key with
     | Some parameter => mp_Level parameter
     | None => ParameterCustom
     end)).

Definition normalize_capability (index : option (gmap string ModelParameter)) (endpointID : string)
    (c : Capability) : Capability :=
  with_Properties c (normalize_property index endpointID (cap_ID c) <$> cap_Properties c).

Definition normalize_endpoint (index : option (gmap string ModelParameter)) (e : Endpoint) : Endpoint :=
  with_Capabilities e (normalize_capability index (ep_ID e) <$> ep_Capabilities e).

(** The annotations of [NormalizeModelParameters], before its validation. *)
Definition annotate (d : Device) : Device :=
  with_Endpoints d (normalize_endpoint (parameterIndex (d_Type d)) <$> d_Endpoints d).

Inductive PublisherError :=
| CustomDeclaresLevel (p : ParameterPath) (l : ParameterLevel)
| LevelMismatch (p : ParameterPath) (l contract : ParameterLevel)
| ParameterTypeMismatch (p : ParameterPath) (t contract : ValueType)
| RequiredParameterMissing.

Definition level_given (l : ParameterLevel) : bool :=
  match l with ParameterOther s => negb (is_empty s) | _ => true end.

(** One iteration of the loops over the properties; [found] is the set of the
    keys of the standard parameters met. *)
Definition check_property (index : gmap string ModelParameter) (endpointID capabilityID : string)
    (found : gset string) (p : Property) : result PublisherError (gset string) :=
  let d := p_Definition p in
  let path := MkParameterPath endpointID capabilityID (pd_ID d) in
  match index !! path_key path with
  | None =>
      if level_given (pd_ParameterLevel d) && negb (level_eqb (pd_ParameterLevel d) ParameterCustom)
      then Err (CustomDeclaresLevel path (pd_ParameterLevel d)) else Ok found
  | Some parameter =>
      if level_given (pd_ParameterLevel d)
         && negb (level_eqb (pd_ParameterLevel d) (mp_Level parameter))
      then Err (LevelMismatch path (pd_ParameterLevel d) (mp_Level parameter))
      else if negb (value_type_eqb (pd_Type d) (mp_Type parameter))
      then Err (ParameterTypeMismatch path (pd_Type d) (mp_Type parameter))
      else Ok ({[path_key path]} ∪ found)
  end.

Definition check_capability (index : gmap string ModelParameter) (endpointID : string)
    (found : gset string) (c : Capability) : result PublisherError (gset string) :=
  each (check_property index endpointID (cap_ID c)) found (cap_Properties c).

Definition check_endpoint (index : gmap string ModelParameter) (found : gset string) (e : Endpoint)
    : result PublisherError (gset string) :=
  each (check_capability index (ep_ID e)) found (ep_Capabilities e).

(** [parameter.Level == ParameterRequired && !found[key]] *)
Definition missing (found : gset string) (kp : string * ModelParameter) : bool :=
  level_eqb (mp_Level kp.2) ParameterRequired && negb (bool_decide (kp.1 ∈ found)).

(** Which missing parameter is named depends on the iteration of the map; the
    error does not carry it here. *)
Definition validatePublisherModel (d : Device) : result PublisherError unit :=
  match parameterIndex (d_Type d) with
  | None => Ok tt
  | Some index =>
      let! found := each (check_endpoint index) ∅ (d_Endpoints d) in
      if existsb (missing found) (map_to_list index) then Err RequiredParameterMissing else Ok tt
  end.

Inductive ModelError :=
| StructureError (e : DeviceError)
| ContractError (e : PublisherError).

Definition ValidateDevice (d : Device) : result ModelError unit :=
  match ValidateStructure d with
  | Err e => Err (StructureError e)
  | Ok _ =>
      match validatePublisherModel d with
      | Err e => Err (ContractError e)
      | Ok _ => Ok tt
      end
  end.

(** The device afterwards and the result. *)
Definition NormalizeModelParameters (d : Device) : Device * result ModelError unit :=
  let d := annotate d in (d, ValidateDevice d).

(** ** The consumer boundary *)

Record ConsumerParameterMapping := MkConsumerMapping {
  cm_Source : ParameterPath;
  cm_DefaultModelPath : ParameterPath;
  cm_Target : string;
  cm_Level : ParameterLevel;
}.

Definition ModelPath (m : ConsumerParameterMapping) : ParameterPath :=
  let p := cm_DefaultModelPath m in
  if negb (is_empty (pp_EndpointID p)) || negb (is_empty (pp_CapabilityID p))
     || negb (is_empty (pp_PropertyID p))
  then p else cm_Source m.

Record ConsumerModelContract := MkConsumerContract {
  cc_ConsumerID : string;
  cc_DeviceType : Type_;
  cc_Parameters : list ConsumerParameterMapping;
}.

Record MappedParameter := MkMappedParameter {
  mapped_Source : ParameterPath;
  mapped_Target : string;
  mapped_Level : ParameterLevel;
  mapped_Property : Property;
}.

Record ConsumerProjection := MkProjection {
  cj_ConsumerID : string;
  cj_DeviceID : string;
  cj_Parameters : list MappedParameter;
  cj_MissingOptional : list ParameterPath;
}.

Inductive ConsumerError :=
| ContractDoesNotMatch (t : Type_)
| InvalidConsumerMapping (p : ParameterPath)
| ConsumerRequires (p : ParameterPath)
| StandardNeedsStandardMapping (p : ParameterPath)
| CustomNeedsCustomMapping (p : ParameterPath).

Definition known_level (l : ParameterLevel) : bool :=
  match l with ParameterOther _ => false | _ => true end.
Definition is_custom (l : ParameterLevel) : bool :=
  match l with ParameterCustom => true | _ => false end.

Definition property_at (d : Device) (p : ParameterPath) : option Property :=
  PropertyAt d (pp_EndpointID p) (pp_CapabilityID p) (pp_PropertyID p).

(** One iteration over the mappings of the contract. *)
Definition project_mapping (item : Device) (r : ConsumerProjection) (m : ConsumerParameterMapping)
    : result ConsumerError ConsumerProjection :=
  if is_empty (cm_Target m) || negb (known_level (cm_Level m))
  then Err (InvalidConsumerMapping (cm_Source m))
  else
    match property_at item (cm_Source m) with
    | None =>
        if level_eqb (cm_Level m) ParameterRequired then Err (ConsumerRequires (cm_Source m))
        else Ok (MkProjection (cj_ConsumerID r) (cj_DeviceID r) (cj_Parameters r)
                   (cj_MissingOptional r ++ [cm_Source m]))
    | Some p =>
        let standard := present (index_lookup (parameterIndex (d_Type item)) (path_key (ModelPath m))) in
        if is_custom (cm_Level m) && standard then Err (StandardNeedsStandardMapping (cm_Source m))
        else if negb (is_custom (cm_Level m)) && negb standard
        then Err (CustomNeedsCustomMapping (cm_Source m))
        else Ok (MkProjection (cj_ConsumerID r) (cj_DeviceID r)
                   (cj_Parameters r ++ [MkMappedParameter (cm_Source m) (cm_Target m) (cm_Level m) p])
                   (cj_MissingOptional r))
    end.

Definition ProjectForConsumer (item : Device) (contract : ConsumerModelContract)
    : result ConsumerError ConsumerProjection :=
  if is_empty (cc_ConsumerID contract) || negb (String.eqb (cc_DeviceType contract) (d_Type item))
  then Err (ContractDoesNotMatch (d_Type item))
  else each (project_mapping item) (MkProjection (cc_ConsumerID contract) (d_ID item) [] [])
         (cc_Parameters contract).

(** ** The table is well formed *)

Definition path_ok (p : ParameterPath) : bool :=
  ValidStableID (pp_EndpointID p) && ValidStableID (pp_CapabilityID p)
  && ValidStableID (pp_PropertyID p).

(** Coherent limits, roles and options. *)
Definition parameter_wf (p : ModelParameter) : bool :=
  path_ok (mp_Path p) && level_eqb (ro_Level (mp_Publisher p)) (mp_Level p)
  && level_eqb (ro_Level (mp_Consumer p)) (mp_Level p)
  && negb (match mp_Min p, mp_Max p with Some lo, Some hi => fgeb lo hi | _, _ => false end)
  && negb (holds (fun s => fleb s fzero) (mp_Step p))
  && Bool.eqb (is_enum_type (mp_Type p)) (negb (length (mp_Enum p) =? 0)%nat)
  && bool_decide (NoDup (mp_Enum p))
  && (negb (is_int_type (mp_Type p)) ||
      negb (existsb (holds not_integral) [mp_Min p; mp_Max p; mp_Step p])).

Definition contract_wf (t : Type_) (c : ModelContract) : bool :=
  String.eqb (mc_DeviceType c) t && ValidStableID t && (1 <=? mc_Version c)
  && bool_decide (NoDup (mp_Path <$> mc_Parameters c)) && forallb parameter_wf (mc_Parameters c).

Lemma builtin_types_NoDup : NoDup (mc_DeviceType <$> builtin_contracts).
Proof. apply (bool_decide_unpack _). vm_compute. exact I. Qed.

Lemma builtin_wf : forallb (fun c => contract_wf (mc_DeviceType c) c) builtin_contracts = true.
Proof. vm_compute. reflexivity. Qed.

Lemma modelContracts_elem t c :
  modelContracts !! t = Some c <-> c ∈ builtin_contracts /\ mc_DeviceType c = t.
Proof.
  unfold modelContracts. rewrite <- elem_of_list_to_map.
  - rewrite list_elem_of_fmap. split.
    + intros (c' & [= -> ->] & ?). done.
    + intros [? <-]. by exists c.
  - rewrite <- list_fmap_compose. exact builtin_types_NoDup.
Qed.

Lemma modelContracts_wf t c : modelContracts !! t = Some c -> contract_wf t c = true.
Proof.
  intros [Hin <-]%modelContracts_elem. pose proof builtin_wf as H. rewrite forallb_forall in H.
  apply (H c). by apply list_elem_of_In.
Qed.

(** The table of built-in contracts has one well-formed contract per device
    type: distinct stable parameter paths, ordered limits, positive steps, distinct
    options exactly for the enum types, integral limits for the integer types, and
    roles at the level of the parameter. *)
Theorem builtin_contracts_wf :
  length builtin_contracts = size modelContracts /\
  map_Forall (fun t c => contract_wf t c = true) modelContracts.
Proof.
  split; [|intros t c; apply modelContracts_wf].
  unfold modelContracts. rewrite map_size_list_to_map; [by rewrite length_fmap|].
  rewrite <- list_fmap_compose. exact builtin_types_NoDup.
Qed.

(** Conversion must not unfold the table. *)
#[global] Opaque modelContracts.

(** ** The published properties *)

Definition published_in (e : string) (c : Capability) : list (ParameterPath * Property) :=
  (fun p => (MkParameterPath e (cap_ID c) (pd_ID (p_Definition p)), p)) <$> cap_Properties c.
Definition published (d : Device) : list (ParameterPath * Property) :=
  d_Endpoints d ≫= fun e => ep_Capabilities e ≫= published_in (ep_ID e).

Lemma each_app {E S A} (f : S -> A -> result E S) s l1 l2 :
  each f s (l1 ++ l2) = let! s' := each f s l1 in each f s' l2.
Proof. revert s. induction l1 as [|x l1 IH]; intros s; simpl; [done|]. by destruct (f s x). Qed.

Lemma each_bind {E S A B} (g : S -> B -> result E S) (h : A -> list B) s l :
  each (fun s x => each g s (h x)) s l = each g s (l ≫= h).
Proof.
  revert s. induction l as [|x l IH]; intros s; [done|]. cbn [each mbind list_bind].
  rewrite each_app. destruct (each g s (h x)); [apply IH|done].
Qed.

Lemma each_ext {E S A} (f g : S -> A -> result E S) s l :
  (forall s x, f s x = g s x) -> each f s l = each g s l.
Proof.
  intros H. revert s. induction l as [|x l IH]; intros s; simpl; [done|]. rewrite H.
  by destruct (g s x).
Qed.

Lemma each_fmap {E S A B} (g : S -> B -> result E S) (h : A -> B) s l :
  each g s (h <$> l) = each (fun s x => g s (h x)) s l.
Proof.
  revert s. induction l as [|x l IH]; intros s; [done|]. cbn. by destruct (g s (h x)).
Qed.

(** The loop body at a path. *)
Definition check_at (index : gmap string ModelParameter) (found : gset string)
    (x : ParameterPath * Property) : result PublisherError (gset string) :=
  check_property index (pp_EndpointID x.1) (pp_CapabilityID x.1) found x.2.

Lemma check_endpoints_flat index found d :
  each (check_endpoint index) found (d_Endpoints d) = each (check_at index) found (published d).
Proof.
  unfold published. rewrite <- each_bind. apply each_ext. intros s e.
  rewrite <- each_bind. unfold check_endpoint. apply each_ext. intros s' c.
  unfold published_in. rewrite each_fmap. unfold check_capability. by apply each_ext.
Qed.

(** What one published property must satisfy. *)
Definition conforms (index : gmap string ModelParameter) (x : ParameterPath * Property) : Prop :=
  let d := p_Definition x.2 in
  match index !! path_key x.1 with
  | None => pd_ParameterLevel d = ParameterOther "" \/ pd_ParameterLevel d = ParameterCustom
  | Some q => (pd_ParameterLevel d = ParameterOther "" \/ pd_ParameterLevel d = mp_Level q) /\
      pd_Type d = mp_Type q
  end.

Lemma level_eqb_eq a b : level_eqb a b = true <-> a = b.
Proof.
  destruct a, b; simpl; try (split; congruence).
  rewrite String.eqb_eq. split; congruence.
Qed.

Lemma level_fits l l' :
  level_given l && negb (level_eqb l l') = false <-> l = ParameterOther "" \/ l = l'.
Proof.
  rewrite andb_false_iff, negb_false_iff, level_eqb_eq.
  assert (level_given l = false <-> l = ParameterOther "") as ->; [|done].
  destruct l as [| | |[]]; simpl; split; congruence.
Qed.

Lemma published_path d x : x ∈ published d -> pp_PropertyID x.1 = pd_ID (p_Definition x.2).
Proof.
  unfold published, published_in. intros (e & Hx & _)%list_elem_of_bind.
  apply list_elem_of_bind in Hx as (c & Hx & _). by apply list_elem_of_fmap in Hx as (p & -> & _).
Qed.

Definition is_standard (index : gmap string ModelParameter) (x : ParameterPath * Property) : bool :=
  present (index !! path_key x.1).

Lemma check_at_ok index found x s :
  pp_PropertyID x.1 = pd_ID (p_Definition x.2) ->
  check_at index found x = Ok s <->
  conforms index x /\ s = (if is_standard index x then {[path_key x.1]} ∪ found else found).
Proof.
  intros Hid. unfold check_at, check_property, conforms, is_standard. rewrite <- Hid.
  destruct x as [[e c p] pr]. simpl in *. set (path := MkParameterPath e c p).
  destruct (index !! path_key path) as [q|]; simpl.
  - destruct (_ && _) eqn:El.
    + split; [done|]. intros [[Hl _] _]. apply level_fits in Hl. congruence.
    + apply level_fits in El. destruct (value_type_eqb _ _) eqn:Et; simpl.
      * apply value_type_eqb_eq in Et. split; [by intros [= <-]|by intros [_ ->]].
      * split; [done|]. intros [[_ Ht] _]. apply value_type_eqb_eq in Ht. congruence.
  - destruct (_ && _) eqn:El.
    + split; [done|]. intros [Hl _]. apply level_fits in Hl. congruence.
    + apply level_fits in El. split; [by intros [= <-]|by intros [_ ->]].
Qed.

Lemma each_check_at index l found s :
  (forall x, x ∈ l -> pp_PropertyID x.1 = pd_ID (p_Definition x.2)) ->
  each (check_at index) found l = Ok s <->
  (forall x, x ∈ l -> conforms index x) /\
  s = list_to_set ((fun x => path_key x.1) <$> filter (fun x => is_standard index x = true) l) ∪ found.
Proof.
  revert found. induction l as [|x l IH]; intros found Hid.
  { simpl. split; [intros [= <-]; split; set_solver|intros [_ ->]; f_equal; set_solver]. }
  assert (Hx : pp_PropertyID x.1 = pd_ID (p_Definition x.2)) by (apply Hid; set_solver).
  assert (Hl : forall y, y ∈ l -> pp_PropertyID y.1 = pd_ID (p_Definition y.2))
    by (intros; apply Hid; set_solver).
  cbn [each]. rewrite filter_cons. split.
  - destruct (check_at index found x) as [s0|] eqn:E; [|done].
    apply (check_at_ok index found x s0 Hx) in E as [Hc ->]. intros [Hcs ->]%(IH _ Hl).
    split; [intros y [->|?]%elem_of_cons; auto|].
    case_decide as Hd; [rewrite Hd|apply not_true_is_false in Hd; rewrite Hd]; apply set_eq; set_solver.
  - intros [Hc ->]. rewrite (proj2 (check_at_ok index found x _ Hx) (conj (Hc x (list_elem_of_here _ _)) eq_refl)).
    apply (IH _ Hl). split; [intros; apply Hc; set_solver|].
    case_decide as Hd; [rewrite Hd|apply not_true_is_false in Hd; rewrite Hd]; apply set_eq; set_solver.
Qed.

(** The publisher contract, declaratively. *)
Definition publishes (index : gmap string ModelParameter) (d : Device) : Prop :=
  (forall x, x ∈ published d -> conforms index x) /\
  (forall key q, index !! key = Some q -> mp_Level q = ParameterRequired ->
     exists x, x ∈ published d /\ path_key x.1 = key).

Lemma validatePublisherModel_ok d :
  validatePublisherModel d = Ok tt <->
  match parameterIndex (d_Type d) with None => True | Some index => publishes index d end.
Proof.
  unfold validatePublisherModel. destruct (parameterIndex (d_Type d)) as [index|]; [|done].
  rewrite check_endpoints_flat. unfold publishes.
  destruct (each (check_at index) ∅ (published d)) as [found|e] eqn:E.
  - apply (each_check_at index _ ∅ found (published_path d)) in E as [Hc ->].
    set (found := list_to_set _ ∪ ∅).
    assert (Hf : forall key q, index !! key = Some q ->
      (key ∈ found <-> exists x, x ∈ published d /\ path_key x.1 = key)).
    { intros key q Hq. unfold found.
      rewrite elem_of_union, elem_of_list_to_set, list_elem_of_fmap. split.
      - intros [(x & -> & Hx)|?]; [|set_solver]. apply list_elem_of_filter in Hx as [_ ?].
        by exists x.
      - intros (x & Hx & <-). left. exists x. split; [done|]. apply list_elem_of_filter.
        split; [|done]. unfold is_standard. by rewrite Hq. }
    destruct (existsb (missing found) (map_to_list index)) eqn:Em.
    + split; [done|]. intros [_ Hreq]. exfalso. apply existsb_exists in Em as ([key q] & Hin & Hm).
      apply list_elem_of_In, elem_of_map_to_list in Hin. unfold missing in Hm. simpl in Hm.
      apply andb_true_iff in Hm as [Hl Hn]. apply level_eqb_eq in Hl.
      apply negb_true_iff, bool_decide_eq_false in Hn. apply Hn, (Hf key q Hin), (Hreq key q Hin Hl).
    + split; [|done]. intros _. split; [done|]. intros key q Hq Hl. apply (Hf key q Hq).
      destruct (decide (key ∈ found)) as [?|Hn]; [done|]. exfalso.
      assert (existsb (missing found) (map_to_list index) = true); [|congruence].
      apply existsb_exists. exists (key, q). split.
      * by apply list_elem_of_In, elem_of_map_to_list.
      * unfold missing. simpl. rewrite Hl. by rewrite bool_decide_eq_false_2.
  - split; [done|]. intros [Hc _]. exfalso.
    rewrite (proj2 (each_check_at index (published d) ∅ _ (published_path d)) (conj Hc eq_refl)) in E.
    done.
Qed.

(** A device passes the publisher check exactly when its type is not a built-in
    one, or every property it publishes agrees with the contract (standard ones in
    type and level, the others declaring no standard level) and every required
    parameter is published. *)
Theorem publisher_contract_spec d :
  validatePublisherModel d = Ok tt <->
  match parameterIndex (d_Type d) with None => True | Some index => publishes index d end.
Proof. apply validatePublisherModel_ok. Qed.

(** ** Normalisation *)

Definition contract_level (t : Type_) (path : ParameterPath) : ParameterLevel :=
  match index_lookup (parameterIndex t) (path_key path) with
  | Some q => mp_Level q
  | None => ParameterCustom
  end.
Definition set_level (l : ParameterLevel) (p : Property) : Property :=
  with_p_Definition p (with_pd_Level (p_Definition p) l).

Lemma annotate_type d : d_Type (annotate d) = d_Type d.
Proof. by destruct d. Qed.
Lemma annotate_endpoints d :
  d_Endpoints (annotate d) = normalize_endpoint (parameterIndex (d_Type d)) <$> d_Endpoints d.
Proof. by destruct d. Qed.

Lemma bind_fmap_l {A B C} (f : A -> B) (g : B -> list C) (l : list A) :
  (f <$> l) ≫= g = l ≫= (fun x => g (f x)).
Proof. induction l as [|x l IH]; [done|]. cbn. by rewrite <- IH. Qed.

Lemma fmap_bind_r {A B C} (g : A -> list B) (h : B -> C) (l : list A) :
  h <$> (l ≫= g) = l ≫= (fun x => h <$> g x).
Proof. induction l as [|x l IH]; [done|]. cbn. rewrite <- IH. apply fmap_app. Qed.

Lemma list_bind_pointwise {A B} (f g : A -> list B) (l : list A) :
  (forall x, f x = g x) -> l ≫= f = l ≫= g.
Proof. intros H. induction l as [|x l IH]; [done|]. cbn. by rewrite H, <- IH. Qed.

Lemma published_annotate d :
  published (annotate d) =
  (fun x => (x.1, set_level (contract_level (d_Type d) x.1) x.2)) <$> published d.
Proof.
  unfold published. rewrite annotate_endpoints, bind_fmap_l, fmap_bind_r.
  apply list_bind_pointwise. intros e. cbn [normalize_endpoint ep_Capabilities with_Capabilities ep_ID].
  rewrite bind_fmap_l, fmap_bind_r. apply list_bind_pointwise. intros c.
  unfold published_in. cbn [normalize_capability cap_Properties with_Properties cap_ID].
  rewrite <- !list_fmap_compose. by apply list_fmap_ext.
Qed.

Lemma normalize_property_idem index e c p :
  normalize_property index e c (normalize_property index e c p) = normalize_property index e c p.
Proof. by destruct p as [[] ? ?]. Qed.

Lemma normalize_capability_idem index e c :
  normalize_capability index e (normalize_capability index e c) = normalize_capability index e c.
Proof.
  destruct c. unfold normalize_capability, with_Properties. simpl. f_equal.
  rewrite <- list_fmap_compose. apply list_fmap_ext. intros. apply normalize_property_idem.
Qed.

Lemma normalize_endpoint_idem index e :
  normalize_endpoint index (normalize_endpoint index e) = normalize_endpoint index e.
Proof.
  destruct e. unfold normalize_endpoint, with_Capabilities. simpl. f_equal.
  rewrite <- list_fmap_compose. apply list_fmap_ext. intros. apply normalize_capability_idem.
Qed.

Lemma annotate_idem d : annotate (annotate d) = annotate d.
Proof.
  unfold annotate at 1. rewrite annotate_type, annotate_endpoints, <- list_fmap_compose.
  rewrite (list_fmap_ext (normalize_endpoint _ ∘ normalize_endpoint _)
    (normalize_endpoint (parameterIndex (d_Type d)))) by (intros; apply normalize_endpoint_idem).
  by destruct d.
Qed.

(** Normalising a device annotates every property with the level of the
    contract ([custom] for the others) and changes nothing else; it is idempotent,
    and what is left to fail at the publisher boundary is a wrong type or a
    missing required parameter. *)
Theorem normalize_annotates d :
  let d' := (NormalizeModelParameters d).1 in
  published d' =
    ((fun x => (x.1, set_level (contract_level (d_Type d) x.1) x.2)) <$> published d) /\
  with_Endpoints d' [] = with_Endpoints d [] /\
  NormalizeModelParameters d' = NormalizeModelParameters d /\
  (validatePublisherModel d' = Ok tt <->
   match parameterIndex (d_Type d) with
   | None => True
   | Some index =>
       (forall x q, x ∈ published d -> index !! path_key x.1 = Some q ->
          pd_Type (p_Definition x.2) = mp_Type q) /\
       (forall key q, index !! key = Some q -> mp_Level q = ParameterRequired ->
          exists x, x ∈ published d /\ path_key x.1 = key)
   end).
Proof.
  cbn [fst NormalizeModelParameters]. split_and!.
  - apply published_annotate.
  - by destruct d.
  - unfold NormalizeModelParameters. by rewrite annotate_idem.
  - rewrite validatePublisherModel_ok, annotate_type.
    destruct (parameterIndex (d_Type d)) as [index|] eqn:Ei; [|done].
    unfold publishes. rewrite published_annotate.
    setoid_rewrite list_elem_of_fmap. split; intros [H1 H2]; split.
    + intros x q Hx Hq. specialize (H1 _ (ex_intro _ x (conj eq_refl Hx))).
      unfold conforms in H1. simpl in H1. rewrite Hq in H1. by destruct H1.
    + intros key q Hq Hl. destruct (H2 key q Hq Hl) as (y & (x & -> & Hx) & <-). by exists x.
    + intros y (x & -> & Hx). unfold conforms. simpl.
      unfold contract_level, index_lookup. rewrite Ei. simpl.
      destruct (index !! path_key x.1) as [q|] eqn:Hq; [|by right].
      split; [by right|]. by apply (H1 x).
    + intros key q Hq Hl. destruct (H2 key q Hq Hl) as (x & Hx & <-). eexists.
      split; [by exists x|done].
Qed.

(** ** Projection *)

Definition standard_of (item : Device) (m : ConsumerParameterMapping) : bool :=
  present (index_lookup (parameterIndex (d_Type item)) (path_key (ModelPath m))).

(** The mappings the consumer boundary lets through. *)
Definition mapping_ok (item : Device) (m : ConsumerParameterMapping) : Prop :=
  cm_Target m <> "" /\ known_level (cm_Level m) = true /\
  match property_at item (cm_Source m) with
  | None => cm_Level m <> ParameterRequired
  | Some _ => is_custom (cm_Level m) = negb (standard_of item m)
  end.

Definition mapped_of (item : Device) (m : ConsumerParameterMapping) : option MappedParameter :=
  (fun p => MkMappedParameter (cm_Source m) (cm_Target m) (cm_Level m) p)
    <$> property_at item (cm_Source m).
Definition missing_of (item : Device) (m : ConsumerParameterMapping) : option ParameterPath :=
  match property_at item (cm_Source m) with None => Some (cm_Source m) | Some _ => None end.

Lemma project_mapping_ok item r m r' :
  project_mapping item r m = Ok r' <->
  mapping_ok item m /\
  r' = MkProjection (cj_ConsumerID r) (cj_DeviceID r)
         (cj_Parameters r ++ omap (mapped_of item) [m])
         (cj_MissingOptional r ++ omap (missing_of item) [m]).
Proof.
  unfold project_mapping, mapping_ok, mapped_of, missing_of, standard_of.
  destruct (is_empty (cm_Target m)) eqn:Et.
  { apply is_empty_true in Et. split; [done|]. by intros [[? _] _]. }
  apply is_empty_false in Et. destruct (known_level (cm_Level m)) eqn:Ek; simpl.
  2: { split; [done|]. by intros [(_ & ? & _) _]. }
  destruct (property_at item (cm_Source m)) as [p|]; simpl.
  - rewrite app_nil_r. destruct (is_custom _), (present _); simpl; split; try done;
      try (by intros [(_ & _ & ?) _]); try (intros [= <-]; done); by intros [_ ->].
  - rewrite app_nil_r. destruct (level_eqb _ _) eqn:El.
    + apply level_eqb_eq in El. split; [done|]. by intros [(_ & _ & ?) _].
    + assert (cm_Level m <> ParameterRequired) by (intros H; apply level_eqb_eq in H; congruence).
      split; [by intros [= <-]|by intros [_ ->]].
Qed.

Lemma project_each item ms r r' :
  each (project_mapping item) r ms = Ok r' <->
  (forall m, m ∈ ms -> mapping_ok item m) /\
  r' = MkProjection (cj_ConsumerID r) (cj_DeviceID r)
         (cj_Parameters r ++ omap (mapped_of item) ms)
         (cj_MissingOptional r ++ omap (missing_of item) ms).
Proof.
  revert r. induction ms as [|m ms IH]; intros r; cbn [each].
  { destruct r. cbn [omap list_omap cj_ConsumerID cj_DeviceID cj_Parameters cj_MissingOptional].
    rewrite !app_nil_r. split; [intros [= <-]; by split; [set_solver|]|by intros [_ ->]]. }
  change (m :: ms) with ([m] ++ ms). rewrite !omap_app. split.
  - destruct (project_mapping item r m) as [r1|] eqn:E; [|done].
    apply project_mapping_ok in E as [Hm ->]. intros [Hms ->]%IH.
    split; [intros m' [->%list_elem_of_singleton|?]%elem_of_app; auto|].
    cbn [cj_ConsumerID cj_DeviceID cj_Parameters cj_MissingOptional]. by rewrite <- !app_assoc.
  - intros [Hms ->]. rewrite (proj2 (project_mapping_ok item r m _)
      (conj (Hms m ltac:(set_solver)) eq_refl)). apply IH.
    split; [intros; apply Hms; set_solver|].
    cbn [cj_ConsumerID cj_DeviceID cj_Parameters cj_MissingOptional]. by rewrite <- !app_assoc.
Qed.

(** A projection succeeds exactly when the contract is for the type of the
    device and every mapping is allowed (required ones present, custom ones exactly
    for the parameters outside the contract); it then holds the present sources in
    order, and lists the missing ones. *)
Theorem project_spec item c r :
  ProjectForConsumer item c = Ok r <->
  cc_ConsumerID c <> "" /\ cc_DeviceType c = d_Type item /\
  (forall m, m ∈ cc_Parameters c -> mapping_ok item m) /\
  r = MkProjection (cc_ConsumerID c) (d_ID item) (omap (mapped_of item) (cc_Parameters c))
        (omap (missing_of item) (cc_Parameters c)).
Proof.
  unfold ProjectForConsumer. destruct (is_empty (cc_ConsumerID c)) eqn:Ec.
  { apply is_empty_true in Ec. split; [done|]. by intros [? _]. }
  apply is_empty_false in Ec. destruct (String.eqb_spec (cc_DeviceType c) (d_Type item)); simpl.
  - rewrite project_each. cbn [cj_ConsumerID cj_DeviceID cj_Parameters cj_MissingOptional app].
    intuition.
  - split; [done|]. by intros (_ & ? & _).
Qed.

(** ** Publisher and consumer together *)

Lemma id_char_not_nul c : id_char c = true -> negb (Ascii.eqb c NUL) = true.
Proof.
  intros H. apply negb_true_iff. destruct (Ascii.eqb_spec c NUL) as [->|]; [|done].
  vm_compute in H. done.
Qed.

Lemma id_tail_nul_free n s : id_tail n s = true -> nul_free s = true.
Proof.
  intros (_ & Hf & _)%id_tail_spec. unfold nul_free.
  induction s as [|c s IH]; simpl in *; [done|]. apply Forall_cons in Hf as [Hc Hf].
  by rewrite id_char_not_nul, IH.
Qed.

Lemma stable_nul_free s : ValidStableID s = true -> nul_free s = true.
Proof.
  destruct s as [|c s]; [done|]. cbn [ValidStableID]. intros [Hc Hs]%andb_true_iff.
  unfold nul_free. cbn [string_Forall]. rewrite id_char_not_nul by by apply id_alnum_char.
  apply orb_true_iff in Hs as [->%is_empty_true|Hs]; [done|]. by apply (id_tail_nul_free 62).
Qed.

(** Keys identify paths of stable identifiers. *)
Lemma path_key_inj p q :
  nul_free (pp_EndpointID p) = true -> nul_free (pp_CapabilityID p) = true ->
  nul_free (pp_EndpointID q) = true -> nul_free (pp_CapabilityID q) = true ->
  path_key p = path_key q -> p = q.
Proof.
  destruct p as [e c x], q as [e' c' x']. simpl. intros He Hc He' Hc' E. unfold path_key in E. simpl in E.
  apply nul_join_inj in E as [-> E]; [|done..]. apply nul_join_inj in E as [-> E]; [|done..].
  by subst.
Qed.

Lemma published_ids d x : structure_ok d -> x ∈ published d ->
  ValidStableID (pp_EndpointID x.1) = true /\ ValidStableID (pp_CapabilityID x.1) = true.
Proof.
  intros [_ _ _ _ _ _ _ [_ He]] Hx. unfold published, published_in in Hx.
  apply list_elem_of_bind in Hx as (e & Hx & Hin).
  rewrite Forall_forall in He. destruct (He e Hin) as [Hide [_ Hc]].
  apply list_elem_of_bind in Hx as (c & Hx & Hinc). rewrite Forall_forall in Hc.
  destruct (Hc c Hinc) as [Hidc _]. by apply list_elem_of_fmap in Hx as (p & -> & _).
Qed.

Lemma first_some {A B} (f : A -> option B) l x b : x ∈ l -> f x = Some b -> is_Some (first f l).
Proof.
  induction l as [|y l IH]; [set_solver|]. intros [<-|Hx]%elem_of_cons Hf; simpl.
  - rewrite Hf. by eexists.
  - destruct (f y); [by eexists|auto].
Qed.

Lemma published_lookup d x : x ∈ published d -> is_Some (property_at d x.1).
Proof.
  unfold published, published_in. intros (e & Hx & Hin)%list_elem_of_bind.
  apply list_elem_of_bind in Hx as (c & Hx & Hinc).
  apply list_elem_of_fmap in Hx as (p & -> & Hinp). simpl.
  unfold property_at, PropertyAt, capability_property, property_in. simpl.
  destruct (first_some (fun q => if String.eqb (pd_ID (p_Definition q)) (pd_ID (p_Definition p))
    then Some q else None) (cap_Properties c) p p Hinp) as [q Hq]; [by rewrite String.eqb_refl|].
  edestruct (first_some (fun c' => if String.eqb (cap_ID c') (cap_ID c) then
    first (fun q => if String.eqb (pd_ID (p_Definition q)) (pd_ID (p_Definition p))
      then Some q else None) (cap_Properties c') else None) (ep_Capabilities e) c q Hinc) as [q' Hq'];
    [by rewrite String.eqb_refl|].
  apply (first_some _ _ e q' Hin). by rewrite String.eqb_refl.
Qed.

Lemma parameter_wf_free p : parameter_wf p = true ->
  nul_free (pp_EndpointID (mp_Path p)) = true /\ nul_free (pp_CapabilityID (mp_Path p)) = true.
Proof.
  intros H. assert (path_ok (mp_Path p) = true) as Hp
    by (unfold parameter_wf in H; by destruct (path_ok (mp_Path p))).
  unfold path_ok in Hp. apply andb_true_iff in Hp as [[? ?]%andb_true_iff _].
  split; by apply stable_nul_free.
Qed.

(** The index of a contract is its list of parameters by key. *)
Lemma index_of_contract t c q :
  modelContracts !! t = Some c -> q ∈ mc_Parameters c ->
  exists index, parameterIndex t = Some index /\ index !! path_key (mp_Path q) = Some q.
Proof.
  intros Hc Hq. unfold parameterIndex. rewrite Hc. eexists. split; [done|].
  pose proof (modelContracts_wf t c Hc) as Hwf. unfold contract_wf in Hwf.
  apply andb_true_iff in Hwf as [Hwf Hps]. apply andb_true_iff in Hwf as [_ Hnd].
  apply bool_decide_eq_true in Hnd. rewrite forallb_forall in Hps.
  assert (Hfree : forall p, p ∈ mc_Parameters c ->
    nul_free (pp_EndpointID (mp_Path p)) = true /\ nul_free (pp_CapabilityID (mp_Path p)) = true).
  { intros p Hp. apply parameter_wf_free, Hps. by apply list_elem_of_In. }
  clear Hps Hc. generalize (mc_Parameters c) Hq Hnd Hfree.
  intros l. induction l as [|p l IH] using rev_ind; [set_solver|].
  rewrite fmap_app, NoDup_app. intros Hin (Hnd1 & Hdis & _) Hf.
  rewrite fold_left_app. cbn [fold_left].
  apply elem_of_app in Hin as [Hin|Hin];
    [|apply list_elem_of_singleton in Hin as ->; by rewrite lookup_insert_eq].
  rewrite lookup_insert_ne.
  - apply IH; [done|done|]. intros p' Hp'. apply Hf. set_solver.
  - intros E. apply path_key_inj in E; [|apply Hf; set_solver..].
    apply (Hdis (mp_Path q)); [by apply list_elem_of_fmap_2|]. rewrite <- E. set_solver.
Qed.

(** A device that passes the publisher boundary has every required parameter of its
    contract, as a property. *)
Lemma required_published d c q :
  ValidateDevice d = Ok tt -> modelContracts !! d_Type d = Some c -> q ∈ mc_Parameters c ->
  mp_Level q = ParameterRequired -> is_Some (property_at d (mp_Path q)).
Proof.
  intros Hd Hc Hq Hl. unfold ValidateDevice in Hd.
  destruct (ValidateStructure d) as [[]|] eqn:Hs; [|done]. apply validate_structure_ok in Hs.
  destruct (validatePublisherModel d) as [[]|] eqn:Hp; [|done].
  apply validatePublisherModel_ok in Hp.
  destruct (index_of_contract _ _ _ Hc Hq) as (index & Ei & Hi).
  rewrite Ei in Hp. destruct Hp as [_ Hreq]. destruct (Hreq _ _ Hi Hl) as (x & Hx & Hk).
  destruct (published_ids d x Hs Hx) as [H1 H2].
  assert (x.1 = mp_Path q) as <-; [|by apply published_lookup].
  pose proof (modelContracts_wf _ _ Hc) as Hwf. unfold contract_wf in Hwf.
  apply andb_true_iff in Hwf as [_ Hps]. rewrite forallb_forall in Hps.
  destruct (parameter_wf_free q) as [? ?]; [by apply Hps, list_elem_of_In|].
  apply path_key_inj; [by apply stable_nul_free|by apply stable_nul_free|done|done|done].
Qed.

(** The parameters of a contract are the standard ones of its device type. *)
Lemma contract_standard d c q m :
  modelContracts !! d_Type d = Some c -> q ∈ mc_Parameters c -> mp_Path q = ModelPath m ->
  standard_of d m = true.
Proof.
  intros Hc Hq Hpath. destruct (index_of_contract _ _ _ Hc Hq) as (index & Ei & Hi).
  unfold standard_of. rewrite Ei, <- Hpath. unfold index_lookup. simpl. by rewrite Hi.
Qed.

(** What a validated Provider device publishes is enough for every Consumer that
    asks for required parameters of the contract: its projection succeeds, with all
    its mappings and nothing missing. *)
Theorem required_mappings_succeed d c consumer ms :
  ValidateDevice d = Ok tt -> modelContracts !! d_Type d = Some c -> consumer <> "" ->
  (forall m, m ∈ ms -> cm_Target m <> "" /\
     (cm_Level m = ParameterRequired \/ cm_Level m = ParameterOptional) /\
     ModelPath m = cm_Source m /\
     exists q, q ∈ mc_Parameters c /\ mp_Path q = cm_Source m /\ mp_Level q = ParameterRequired) ->
  exists r, ProjectForConsumer d (MkConsumerContract consumer (d_Type d) ms) = Ok r /\
    length (cj_Parameters r) = length ms /\ cj_MissingOptional r = [].
Proof.
  intros Hd Hc Hne Hms.
  assert (H : forall m, m ∈ ms -> is_Some (property_at d (cm_Source m)) /\ standard_of d m = true).
  { intros m Hm. destruct (Hms m Hm) as (_ & _ & Hmp & q & Hq & Hpath & Hl). split.
    - rewrite <- Hpath. by eapply required_published.
    - apply (contract_standard d c q); [done|done|congruence]. }
  eexists. split.
  - unfold ProjectForConsumer. cbn [cc_ConsumerID cc_DeviceType cc_Parameters].
    rewrite (proj2 (is_empty_false _) Hne), String.eqb_refl. cbn [orb negb].
    apply project_each. split; [|reflexivity]. intros m Hm.
    destruct (Hms m Hm) as (Ht & Hl & _). destruct (H m Hm) as [[p Hpr] Hstd].
    unfold mapping_ok. rewrite Hpr, Hstd. split_and!; [done|by destruct Hl as [->| ->]..].
  - cbn [cj_Parameters cj_MissingOptional cj_ConsumerID app]. clear -H.
    induction ms as [|m ms IH]; [done|]. destruct (H m) as [[p Hp] _]; [set_solver|].
    destruct IH as [IH1 IH2]; [intros; apply H; set_solver|].
    cbn [omap list_omap]. unfold mapped_of at 1, missing_of at 1. rewrite Hp. simpl.
    split; [by f_equal|done].
Qed.

(** ** Concrete instances *)

Definition ex_switch : Device :=
  MkDevice 1 "lamp-1" "miio" "Lamp" "" false TypeSwitch "" "" "" "" "" "" "" "" ""
    AvailabilityOnline true 1 false false RuntimeModeLocal (StateTransportOther "") ""
    [MkEndpoint "main" "Main" "switch" [MkCapability "switch" "switch" [ex_power] [] []]] 5.

Definition ex_mapping : ConsumerParameterMapping :=
  MkConsumerMapping (MkParameterPath "main" "switch" "power") (MkParameterPath "" "" "")
    "On" ParameterRequired.

Lemma required_mappings_succeed_witness :
  exists r, ProjectForConsumer ex_switch (MkConsumerContract "homekit" TypeSwitch [ex_mapping]) = Ok r /\
    length (cj_Parameters r) = 1%nat /\ cj_MissingOptional r = [].
Proof.
  apply (required_mappings_succeed ex_switch contractSwitch "homekit" [ex_mapping]).
  - vm_compute. reflexivity.
  - vm_compute. reflexivity.
  - discriminate.
  - intros m ->%list_elem_of_singleton. split; [discriminate|]. split; [by left|].
    split; [reflexivity|].
    exists (required "switch" "power" "开关" ValueTypeBool true). split; [|split; reflexivity].
    unfold contractSwitch, contract. cbn [mc_Parameters]. apply list_elem_of_here.
Defined.
