(* ===== verification/ConsumerCatalog.v ===== *)
(** * What consumers understand:
    backend/internal/mapping/consumer_catalog.go and matter_consumer_catalog.go

    A consumer (HomeKit, Matter) has a contract per device type: which of its own
    properties come from which parameter of the unified model.  Its catalogue lists
    those properties with the definitions of the model, the ones of HomeKit with the
    limits HomeKit sets, and the ones of Matter with the commands of Matter besides. *)

From S2P Require Import Prelude Float64 DeviceModel Lookup ModelContract.

(** ** Data *)

Record ConsumerProperty := MkConsumerProperty {
  con_ID : string;
  con_Name : string;
  con_OriginalName : string;
  con_Cluster : string;
  con_Element : string;
  con_Kind : string;
  con_DeviceType : Type_;
  con_DefaultModelPath : ParameterPath;
  con_Level : ParameterLevel;
  con_Type : ValueType;
  con_Unit : string;
  con_Min : option float64;
  con_Max : option float64;
  con_Step : option float64;
  con_Enum : list string;
  con_Readable : bool;
  con_Writable : bool;
  con_Notifiable : bool;
}.

Record ConsumerCatalog := MkConsumerCatalog {
  cat_ID : string;
  cat_Name : string;
  cat_Properties : list ConsumerProperty;
}.

Record ConsumerAdapter := MkConsumerAdapter {
  ad_Catalog : ConsumerCatalog;
  ad_Contracts : list ConsumerModelContract;
}.

Record numericConstraints := MkConstraints { co_min : float64; co_max : float64; co_step : float64 }.

Record matterCommandDefinition := MkCommandDefinition {
  mcd_deviceType : Type_;
  mcd_modelPath : ParameterPath;
  mcd_id : string;
  mcd_name : string;
}.

(** ** The contracts *)

Definition main_path (capabilityID propertyID : string) : ParameterPath :=
  MkParameterPath "main" capabilityID propertyID.
Definition no_path : ParameterPath := MkParameterPath "" "" "".
Definition consumer_required (capabilityID propertyID target : string) : ConsumerParameterMapping :=
  MkConsumerMapping (main_path capabilityID propertyID) no_path target ParameterRequired.
Definition consumer_optional (capabilityID propertyID target : string) : ConsumerParameterMapping :=
  MkConsumerMapping (main_path capabilityID propertyID) no_path target ParameterOptional.

Definition batteryStatus : list ConsumerParameterMapping :=
  [consumer_optional "battery" "level" "BatteryService.BatteryLevel";
   consumer_optional "battery" "low" "BatteryService.StatusLowBattery"].
Definition sensorStatus : list ConsumerParameterMapping :=
  [consumer_optional "battery" "level" "BatteryService.BatteryLevel";
   consumer_optional "battery" "low" "BatteryService.StatusLowBattery";
   consumer_optional "security" "tampered" "PrimaryService.StatusTampered"].

Definition HomeKitConsumerContracts : list ConsumerModelContract := [
  MkConsumerContract "homekit" TypeSwitch ([
    consumer_required "switch" "power" "Switch.On"]);
  MkConsumerContract "homekit" TypeLightbulb ([
    consumer_required "switch" "power" "Lightbulb.On";
    consumer_optional "light" "brightness" "Lightbulb.Brightness";
    consumer_optional "light" "color-temperature" "Lightbulb.ColorTemperature";
    consumer_optional "light" "hue" "Lightbulb.Hue";
    consumer_optional "light" "saturation" "Lightbulb.Saturation"]);
  MkConsumerContract "homekit" TypeOutlet ([
    consumer_required "switch" "power" "Outlet.On";
    consumer_optional "outlet" "in-use" "Outlet.OutletInUse"]);
  MkConsumerContract "homekit" TypeTemperatureSensor ([
    consumer_required "temperature" "current-temperature" "TemperatureSensor.CurrentTemperature"] ++ batteryStatus);
  MkConsumerContract "homekit" TypeHumiditySensor ([
    consumer_required "humidity" "current-humidity" "HumiditySensor.CurrentRelativeHumidity"] ++ batteryStatus);
  MkConsumerContract "homekit" TypeTemperatureHumiditySensor ([
    consumer_required "temperature" "current-temperature" "TemperatureSensor.CurrentTemperature";
    consumer_required "humidity" "current-humidity" "HumiditySensor.CurrentRelativeHumidity"] ++ batteryStatus);
  MkConsumerContract "homekit" TypeNetworkDevice ([
    consumer_required "switch" "power" "Switch.On"]);
  MkConsumerContract "homekit" TypeContactSensor ([
    consumer_required "contact" "contact-detected" "ContactSensor.ContactSensorState"] ++ sensorStatus);
  MkConsumerContract "homekit" TypeMotionSensor ([
    consumer_required "motion" "motion-detected" "MotionSensor.MotionDetected"] ++ sensorStatus);
  MkConsumerContract "homekit" TypeFan ([
    consumer_required "fan" "active" "FanV2.Active";
    consumer_required "fan" "current-state" "FanV2.CurrentFanState";
    consumer_required "fan" "target-state" "FanV2.TargetFanState";
    consumer_required "fan" "rotation-speed" "FanV2.RotationSpeed";
    consumer_optional "fan" "swing-mode" "FanV2.SwingMode";
    consumer_optional "fan" "rotation-direction" "FanV2.RotationDirection";
    consumer_optional "fan" "lock-physical-controls" "FanV2.LockPhysicalControls"]);
  MkConsumerContract "homekit" TypeAirPurifier ([
    consumer_required "air-purifier" "active" "AirPurifier.Active";
    consumer_required "air-purifier" "current-state" "AirPurifier.CurrentAirPurifierState";
    consumer_optional "air-purifier" "target-state" "AirPurifier.TargetAirPurifierState";
    consumer_optional "air-purifier" "rotation-speed" "AirPurifier.RotationSpeed";
    consumer_optional "air-purifier" "swing-mode" "AirPurifier.SwingMode";
    consumer_optional "air-purifier" "lock-physical-controls" "AirPurifier.LockPhysicalControls";
    consumer_optional "air-quality" "current-air-quality" "AirQualitySensor.AirQuality";
    consumer_optional "air-quality" "pm2.5-density" "AirQualitySensor.PM2.5Density";
    consumer_optional "air-quality" "voc-density" "AirQualitySensor.VOCDensity";
    consumer_optional "filter" "life-level" "FilterMaintenance.FilterLifeLevel";
    consumer_optional "filter" "change-indication" "FilterMaintenance.FilterChangeIndication"]);
  MkConsumerContract "homekit" TypeWindowCovering ([
    consumer_required "window-covering" "current-position" "WindowCovering.CurrentPosition";
    consumer_required "window-covering" "target-position" "WindowCovering.TargetPosition";
    consumer_required "window-covering" "position-state" "WindowCovering.PositionState";
    consumer_optional "window-covering" "obstruction-detected" "WindowCovering.ObstructionDetected"]);
  MkConsumerContract "homekit" TypeIlluminanceSensor ([
    consumer_required "illuminance" "current-illuminance" "LightSensor.CurrentAmbientLightLevel"] ++ batteryStatus);
  MkConsumerContract "homekit" TypeOccupancySensor ([
    consumer_required "occupancy" "occupancy-detected" "OccupancySensor.OccupancyDetected"] ++ sensorStatus);
  MkConsumerContract "homekit" TypeLeakSensor ([
    consumer_required "leak" "leak-detected" "LeakSensor.LeakDetected"] ++ sensorStatus);
  MkConsumerContract "homekit" TypeSmokeSensor ([
    consumer_required "smoke" "smoke-detected" "SmokeSensor.SmokeDetected"] ++ sensorStatus);
  MkConsumerContract "homekit" TypeCarbonMonoxideSensor ([
    consumer_required "carbon-monoxide" "detected" "CarbonMonoxideSensor.CarbonMonoxideDetected";
    consumer_optional "carbon-monoxide" "current-level" "CarbonMonoxideSensor.CarbonMonoxideLevel";
    consumer_optional "carbon-monoxide" "peak-level" "CarbonMonoxideSensor.CarbonMonoxidePeakLevel"] ++ sensorStatus);
  MkConsumerContract "homekit" TypeCarbonDioxideSensor ([
    consumer_required "carbon-dioxide" "detected" "CarbonDioxideSensor.CarbonDioxideDetected";
    consumer_optional "carbon-dioxide" "current-level" "CarbonDioxideSensor.CarbonDioxideLevel";
    consumer_optional "carbon-dioxide" "peak-level" "CarbonDioxideSensor.CarbonDioxidePeakLevel"] ++ batteryStatus);
  MkConsumerContract "homekit" TypeAirQualitySensor ([
    consumer_required "air-quality" "current-air-quality" "AirQualitySensor.AirQuality";
    consumer_optional "air-quality" "pm2.5-density" "AirQualitySensor.PM2.5Density";
    consumer_optional "air-quality" "pm10-density" "AirQualitySensor.PM10Density";
    consumer_optional "air-quality" "voc-density" "AirQualitySensor.VOCDensity";
    consumer_optional "air-quality" "carbon-dioxide-level" "AirQualitySensor.CarbonDioxideLevel";
    consumer_optional "air-quality" "nitrogen-dioxide-density" "AirQualitySensor.NitrogenDioxideDensity";
    consumer_optional "air-quality" "ozone-density" "AirQualitySensor.OzoneDensity"]);
  MkConsumerContract "homekit" TypeThermostat ([
    consumer_required "thermostat" "current-state" "Thermostat.CurrentHeatingCoolingState";
    consumer_required "thermostat" "target-mode" "Thermostat.TargetHeatingCoolingState";
    consumer_required "temperature" "current-temperature" "Thermostat.CurrentTemperature";
    consumer_required "temperature" "target-temperature" "Thermostat.TargetTemperature";
    consumer_optional "temperature" "heating-threshold" "Thermostat.HeatingThresholdTemperature";
    consumer_optional "temperature" "cooling-threshold" "Thermostat.CoolingThresholdTemperature";
    consumer_optional "humidity" "current-humidity" "Thermostat.CurrentRelativeHumidity";
    consumer_optional "thermostat" "display-units" "Thermostat.TemperatureDisplayUnits"]);
  MkConsumerContract "homekit" TypeAirConditioner ([
    consumer_required "air-conditioner" "active" "HeaterCooler.Active";
    consumer_optional "air-conditioner" "current-state" "HeaterCooler.CurrentHeaterCoolerState";
    consumer_required "air-conditioner" "target-mode" "HeaterCooler.TargetHeaterCoolerState";
    consumer_optional "temperature" "current-temperature" "HeaterCooler.CurrentTemperature";
    consumer_required "temperature" "target-temperature" "HeaterCooler.TargetTemperature";
    consumer_optional "air-conditioner" "rotation-speed" "HeaterCooler.RotationSpeed";
    consumer_optional "air-conditioner" "vertical-swing" "HeaterCooler.SwingMode";
    consumer_optional "humidity" "current-humidity" "HumiditySensor.CurrentRelativeHumidity";
    consumer_optional "air-conditioner" "display-units" "HeaterCooler.TemperatureDisplayUnits";
    consumer_optional "filter" "life-level" "FilterMaintenance.FilterLifeLevel";
    consumer_optional "filter" "change-indication" "FilterMaintenance.FilterChangeIndication"]);
  MkConsumerContract "homekit" TypeHeaterCooler ([
    consumer_required "heater-cooler" "active" "HeaterCooler.Active";
    consumer_required "heater-cooler" "current-state" "HeaterCooler.CurrentHeaterCoolerState";
    consumer_required "heater-cooler" "target-state" "HeaterCooler.TargetHeaterCoolerState";
    consumer_required "temperature" "current-temperature" "HeaterCooler.CurrentTemperature";
    consumer_optional "temperature" "heating-threshold" "HeaterCooler.HeatingThresholdTemperature";
    consumer_optional "temperature" "cooling-threshold" "HeaterCooler.CoolingThresholdTemperature";
    consumer_optional "heater-cooler" "rotation-speed" "HeaterCooler.RotationSpeed";
    consumer_optional "heater-cooler" "swing-mode" "HeaterCooler.SwingMode";
    consumer_optional "heater-cooler" "lock-physical-controls" "HeaterCooler.LockPhysicalControls"]);
  MkConsumerContract "homekit" TypeHumidifierDehumidifier ([
    consumer_required "humidifier-dehumidifier" "active" "HumidifierDehumidifier.Active";
    consumer_required "humidifier-dehumidifier" "current-state" "HumidifierDehumidifier.CurrentState";
    consumer_required "humidifier-dehumidifier" "target-state" "HumidifierDehumidifier.TargetState";
    consumer_required "humidity" "current-humidity" "HumidifierDehumidifier.CurrentRelativeHumidity";
    consumer_required "humidity" "target-humidity" "HumidifierDehumidifier.TargetHumidity";
    consumer_optional "humidifier-dehumidifier" "water-level" "HumidifierDehumidifier.WaterLevel";
    consumer_optional "humidifier-dehumidifier" "lock-physical-controls" "HumidifierDehumidifier.LockPhysicalControls"]);
  MkConsumerContract "homekit" TypeLock ([
    consumer_required "lock" "current-state" "LockMechanism.LockCurrentState";
    consumer_required "lock" "target-state" "LockMechanism.LockTargetState"] ++ sensorStatus);
  MkConsumerContract "homekit" TypeGarageDoor ([
    consumer_required "garage-door" "current-state" "GarageDoorOpener.CurrentDoorState";
    consumer_required "garage-door" "target-state" "GarageDoorOpener.TargetDoorState";
    consumer_optional "garage-door" "obstruction-detected" "GarageDoorOpener.ObstructionDetected"]);
  MkConsumerContract "homekit" TypeSecuritySystem ([
    consumer_required "security-system" "current-state" "SecuritySystem.CurrentState";
    consumer_required "security-system" "target-state" "SecuritySystem.TargetState";
    consumer_optional "security-system" "alarm-type" "SecuritySystem.AlarmType";
    consumer_optional "security" "tampered" "SecuritySystem.StatusTampered"]);
  MkConsumerContract "homekit" TypeValve ([
    consumer_required "valve" "active" "Valve.Active";
    consumer_required "valve" "in-use" "Valve.InUse";
    consumer_required "valve" "valve-type" "Valve.ValveType";
    consumer_optional "valve" "set-duration" "Valve.SetDuration";
    consumer_optional "valve" "remaining-duration" "Valve.RemainingDuration"]);
  MkConsumerContract "homekit" TypeSpeaker ([
    consumer_required "speaker" "active" "Speaker.Active";
    consumer_required "speaker" "volume" "Speaker.Volume";
    consumer_required "speaker" "mute" "Speaker.Mute";
    consumer_optional "speaker" "current-media-state" "Speaker.CurrentMediaState";
    consumer_optional "speaker" "target-media-state" "Speaker.TargetMediaState"]);
  MkConsumerContract "homekit" TypeTelevision ([
    consumer_required "television" "active" "Television.Active";
    consumer_required "television" "volume" "Television.Volume";
    consumer_required "television" "target-media-state" "Television.TargetMediaState";
    consumer_required "television" "remote-key" "Television.RemoteKey";
    consumer_optional "television" "current-media-state" "Television.CurrentMediaState"])].

Definition MatterConsumerContracts : list ConsumerModelContract := [
  MkConsumerContract "matter" TypeSwitch ([
    consumer_required "switch" "power" "OnOff.OnOff"]);
  MkConsumerContract "matter" TypeOutlet ([
    consumer_required "switch" "power" "OnOff.OnOff"]);
  MkConsumerContract "matter" TypeLightbulb ([
    consumer_required "switch" "power" "OnOff.OnOff";
    consumer_optional "light" "brightness" "LevelControl.CurrentLevel";
    consumer_optional "light" "color-temperature" "ColorControl.ColorTemperatureMireds";
    consumer_optional "light" "hue" "ColorControl.CurrentHue";
    consumer_optional "light" "saturation" "ColorControl.CurrentSaturation"]);
  MkConsumerContract "matter" TypeTemperatureSensor ([
    consumer_required "temperature" "current-temperature" "TemperatureMeasurement.MeasuredValue"]);
  MkConsumerContract "matter" TypeHumiditySensor ([
    consumer_required "humidity" "current-humidity" "RelativeHumidityMeasurement.MeasuredValue"]);
  MkConsumerContract "matter" TypeNetworkDevice ([
    consumer_required "switch" "power" "OnOff.OnOff"]);
  MkConsumerContract "matter" TypeContactSensor ([
    consumer_required "contact" "contact-detected" "BooleanState.StateValue"]);
  MkConsumerContract "matter" TypeMotionSensor ([
    consumer_required "motion" "motion-detected" "OccupancySensing.Occupancy"]);
  MkConsumerContract "matter" TypeOccupancySensor ([
    consumer_required "occupancy" "occupancy-detected" "OccupancySensing.Occupancy"]);
  MkConsumerContract "matter" TypeWindowCovering ([
    consumer_required "window-covering" "current-position" "WindowCovering.CurrentPositionLiftPercent100ths";
    consumer_required "window-covering" "target-position" "WindowCovering.TargetPositionLiftPercent100ths";
    consumer_required "window-covering" "position-state" "WindowCovering.OperationalStatus";
    consumer_optional "window-covering" "obstruction-detected" "WindowCovering.SafetyStatus"]);
  MkConsumerContract "matter" TypeFan ([
    consumer_required "fan" "active" "OnOff.OnOff";
    consumer_optional "fan" "target-state" "FanControl.FanMode";
    consumer_optional "fan" "rotation-speed" "FanControl.PercentSetting";
    consumer_optional "fan" "swing-mode" "FanControl.RockSetting"]);
  MkConsumerContract "matter" TypeThermostat ([
    consumer_required "thermostat" "current-state" "Thermostat.ThermostatRunningState";
    consumer_required "thermostat" "target-mode" "Thermostat.SystemMode";
    consumer_required "temperature" "current-temperature" "Thermostat.LocalTemperature";
    consumer_required "temperature" "target-temperature" "Thermostat.OccupiedHeatingSetpoint";
    consumer_optional "temperature" "cooling-threshold" "Thermostat.OccupiedCoolingSetpoint";
    consumer_optional "thermostat" "display-units" "ThermostatUserInterfaceConfiguration.TemperatureDisplayMode"]);
  MkConsumerContract "matter" TypeLock ([
    consumer_required "lock" "current-state" "DoorLock.LockState";
    consumer_optional "lock" "door-open" "DoorLock.DoorState"]);
  MkConsumerContract "matter" TypeIlluminanceSensor ([
    consumer_required "illuminance" "current-illuminance" "IlluminanceMeasurement.MeasuredValue"]);
  MkConsumerContract "matter" TypePressureSensor ([
    consumer_required "pressure" "current-pressure" "PressureMeasurement.MeasuredValue"]);
  MkConsumerContract "matter" TypeLeakSensor ([
    consumer_required "leak" "leak-detected" "BooleanState.StateValue"]);
  MkConsumerContract "matter" TypeSmokeSensor ([
    consumer_required "smoke" "smoke-detected" "SmokeCoAlarm.SmokeState"]);
  MkConsumerContract "matter" TypeCarbonMonoxideSensor ([
    consumer_required "carbon-monoxide" "detected" "SmokeCoAlarm.CoState"]);
  MkConsumerContract "matter" TypeAirQualitySensor ([
    consumer_required "air-quality" "current-air-quality" "AirQuality.AirQuality";
    consumer_optional "air-quality" "pm2.5-density" "Pm25ConcentrationMeasurement.MeasuredValue";
    consumer_optional "air-quality" "pm10-density" "Pm10ConcentrationMeasurement.MeasuredValue";
    consumer_optional "air-quality" "voc-density" "TotalVolatileOrganicCompoundsConcentrationMeasurement.MeasuredValue";
    consumer_optional "air-quality" "carbon-dioxide-level" "CarbonDioxideConcentrationMeasurement.MeasuredValue";
    consumer_optional "air-quality" "carbon-monoxide-level" "CarbonMonoxideConcentrationMeasurement.MeasuredValue";
    consumer_optional "temperature" "current-temperature" "TemperatureMeasurement.MeasuredValue";
    consumer_optional "humidity" "current-humidity" "RelativeHumidityMeasurement.MeasuredValue"]);
  MkConsumerContract "matter" TypeValve ([
    consumer_required "valve" "active" "ValveConfigurationAndControl.TargetState";
    consumer_optional "valve" "in-use" "ValveConfigurationAndControl.CurrentState";
    consumer_optional "valve" "position" "ValveConfigurationAndControl.CurrentLevel";
    consumer_optional "valve" "set-duration" "ValveConfigurationAndControl.DefaultOpenDuration";
    consumer_optional "valve" "remaining-duration" "ValveConfigurationAndControl.RemainingDuration"]);
  MkConsumerContract "matter" TypePump ([
    consumer_required "pump" "active" "OnOff.OnOff";
    consumer_optional "pump" "speed" "LevelControl.CurrentLevel";
    consumer_optional "pressure" "current-pressure" "PressureMeasurement.MeasuredValue"]);
  MkConsumerContract "matter" TypePowerMeter ([
    consumer_required "electrical" "current-power" "ElectricalPowerMeasurement.ActivePower";
    consumer_optional "electrical" "voltage" "ElectricalPowerMeasurement.Voltage";
    consumer_optional "electrical" "current" "ElectricalPowerMeasurement.ActiveCurrent";
    consumer_optional "electrical" "frequency" "ElectricalPowerMeasurement.Frequency";
    consumer_optional "electrical" "power-factor" "ElectricalPowerMeasurement.PowerFactor";
    consumer_optional "electrical" "reactive-power" "ElectricalPowerMeasurement.ReactivePower";
    consumer_optional "electrical" "apparent-power" "ElectricalPowerMeasurement.ApparentPower";
    consumer_optional "electrical" "energy" "ElectricalEnergyMeasurement.CumulativeEnergyImported"]);
  MkConsumerContract "matter" TypeAirPurifier ([
    consumer_required "air-purifier" "active" "OnOff.OnOff";
    consumer_optional "air-purifier" "target-state" "FanControl.FanMode";
    consumer_optional "air-purifier" "rotation-speed" "FanControl.PercentSetting";
    consumer_optional "air-purifier" "swing-mode" "FanControl.RockSetting"]);
  MkConsumerContract "matter" TypeSpeaker ([
    consumer_required "speaker" "mute" "OnOff.OnOff";
    consumer_required "speaker" "volume" "LevelControl.CurrentLevel"]);
  MkConsumerContract "matter" TypeTelevision ([
    consumer_required "television" "active" "OnOff.OnOff";
    consumer_optional "television" "current-media-state" "MediaPlayback.CurrentState"])].

(** ** The catalogues *)

Definition homeKitNumericConstraints : list (string * numericConstraints) := [
  ("Lightbulb.Brightness", MkConstraints (of_Z 0) (of_Z 100) (of_Z 1));
  ("Lightbulb.ColorTemperature", MkConstraints (of_Z 140) (of_Z 500) (of_Z 1));
  ("Lightbulb.Hue", MkConstraints (of_Z 0) (of_Z 360) (of_Z 1));
  ("Lightbulb.Saturation", MkConstraints (of_Z 0) (of_Z 100) (of_Z 1));
  ("TemperatureSensor.CurrentTemperature", MkConstraints (of_Z 0) (of_Z 100) (of_ratio 1 10));
  ("HumiditySensor.CurrentRelativeHumidity", MkConstraints (of_Z 0) (of_Z 100) (of_Z 1));
  ("BatteryService.BatteryLevel", MkConstraints (of_Z 0) (of_Z 100) (of_Z 1));
  ("FanV2.RotationSpeed", MkConstraints (of_Z 0) (of_Z 100) (of_Z 1));
  ("AirPurifier.RotationSpeed", MkConstraints (of_Z 0) (of_Z 100) (of_Z 1));
  ("AirQualitySensor.PM2.5Density", MkConstraints (of_Z 0) (of_Z 1000) (of_Z 1));
  ("AirQualitySensor.PM10Density", MkConstraints (of_Z 0) (of_Z 1000) (of_Z 1));
  ("AirQualitySensor.VOCDensity", MkConstraints (of_Z 0) (of_Z 1000) (of_Z 1));
  ("AirQualitySensor.CarbonDioxideLevel", MkConstraints (of_Z 0) (of_Z 100000) (of_Z 1));
  ("AirQualitySensor.NitrogenDioxideDensity", MkConstraints (of_Z 0) (of_Z 1000) (of_Z 1));
  ("AirQualitySensor.OzoneDensity", MkConstraints (of_Z 0) (of_Z 1000) (of_Z 1));
  ("FilterMaintenance.FilterLifeLevel", MkConstraints (of_Z 0) (of_Z 100) (of_Z 1));
  ("WindowCovering.CurrentPosition", MkConstraints (of_Z 0) (of_Z 100) (of_Z 1));
  ("WindowCovering.TargetPosition", MkConstraints (of_Z 0) (of_Z 100) (of_Z 1));
  ("LightSensor.CurrentAmbientLightLevel", MkConstraints (of_ratio 1 10000) (of_Z 100000) (of_Z 0));
  ("CarbonMonoxideSensor.CarbonMonoxideLevel", MkConstraints (of_Z 0) (of_Z 100) (of_Z 0));
  ("CarbonMonoxideSensor.CarbonMonoxidePeakLevel", MkConstraints (of_Z 0) (of_Z 100) (of_Z 0));
  ("CarbonDioxideSensor.CarbonDioxideLevel", MkConstraints (of_Z 0) (of_Z 100000) (of_Z 0));
  ("CarbonDioxideSensor.CarbonDioxidePeakLevel", MkConstraints (of_Z 0) (of_Z 100000) (of_Z 0));
  ("Thermostat.CurrentTemperature", MkConstraints (of_Z 0) (of_Z 100) (of_ratio 1 10));
  ("Thermostat.TargetTemperature", MkConstraints (of_Z 10) (of_Z 38) (of_ratio 1 10));
  ("Thermostat.HeatingThresholdTemperature", MkConstraints (of_Z 0) (of_Z 25) (of_ratio 1 10));
  ("Thermostat.CoolingThresholdTemperature", MkConstraints (of_Z 10) (of_Z 35) (of_ratio 1 10));
  ("Thermostat.CurrentRelativeHumidity", MkConstraints (of_Z 0) (of_Z 100) (of_Z 1));
  ("HeaterCooler.CurrentTemperature", MkConstraints (of_Z 0) (of_Z 100) (of_ratio 1 10));
  ("HeaterCooler.TargetTemperature", MkConstraints (of_Z 0) (of_Z 35) (of_ratio 1 10));
  ("HeaterCooler.HeatingThresholdTemperature", MkConstraints (of_Z 0) (of_Z 25) (of_ratio 1 10));
  ("HeaterCooler.CoolingThresholdTemperature", MkConstraints (of_Z 10) (of_Z 35) (of_ratio 1 10));
  ("HeaterCooler.RotationSpeed", MkConstraints (of_Z 0) (of_Z 100) (of_Z 1));
  ("HumidifierDehumidifier.CurrentRelativeHumidity", MkConstraints (of_Z 0) (of_Z 100) (of_Z 1));
  ("HumidifierDehumidifier.TargetHumidity", MkConstraints (of_Z 0) (of_Z 100) (of_Z 1));
  ("HumidifierDehumidifier.WaterLevel", MkConstraints (of_Z 0) (of_Z 100) (of_Z 1));
  ("Valve.SetDuration", MkConstraints (of_Z 0) (of_Z 3600) (of_Z 1));
  ("Valve.RemainingDuration", MkConstraints (of_Z 0) (of_Z 3600) (of_Z 1));
  ("Speaker.Volume", MkConstraints (of_Z 0) (of_Z 100) (of_Z 1))].

Definition matterCommandDefinitions : list matterCommandDefinition := [
  MkCommandDefinition TypeSwitch (main_path "switch" "power") "OnOff.On" "开启";
  MkCommandDefinition TypeSwitch (main_path "switch" "power") "OnOff.Off" "关闭";
  MkCommandDefinition TypeOutlet (main_path "switch" "power") "OnOff.On" "开启";
  MkCommandDefinition TypeOutlet (main_path "switch" "power") "OnOff.Off" "关闭";
  MkCommandDefinition TypeLightbulb (main_path "switch" "power") "OnOff.On" "开启";
  MkCommandDefinition TypeLightbulb (main_path "switch" "power") "OnOff.Off" "关闭";
  MkCommandDefinition TypeNetworkDevice (main_path "switch" "power") "OnOff.On" "唤醒";
  MkCommandDefinition TypeLightbulb (main_path "light" "brightness") "LevelControl.MoveToLevel" "移动到亮度";
  MkCommandDefinition TypeWindowCovering (main_path "window-covering" "target-position") "WindowCovering.GoToLiftPercentage" "移动窗帘";
  MkCommandDefinition TypeWindowCovering (main_path "window-covering" "target-position") "WindowCovering.StopMotion" "停止窗帘";
  MkCommandDefinition TypeLock (main_path "lock" "target-state") "DoorLock.LockDoor" "上锁";
  MkCommandDefinition TypeLock (main_path "lock" "target-state") "DoorLock.UnlockDoor" "解锁";
  MkCommandDefinition TypeValve (main_path "valve" "active") "ValveConfigurationAndControl.Open" "打开阀门";
  MkCommandDefinition TypeValve (main_path "valve" "active") "ValveConfigurationAndControl.Close" "关闭阀门";
  MkCommandDefinition TypePump (main_path "pump" "active") "OnOff.On" "启动水泵";
  MkCommandDefinition TypePump (main_path "pump" "active") "OnOff.Off" "停止水泵";
  MkCommandDefinition TypeAirPurifier (main_path "air-purifier" "active") "OnOff.On" "启动净化器";
  MkCommandDefinition TypeAirPurifier (main_path "air-purifier" "active") "OnOff.Off" "停止净化器";
  MkCommandDefinition TypeSpeaker (main_path "speaker" "mute") "OnOff.On" "取消静音";
  MkCommandDefinition TypeSpeaker (main_path "speaker" "mute") "OnOff.Off" "静音";
  MkCommandDefinition TypeTelevision (main_path "television" "target-media-state") "MediaPlayback.Play" "播放";
  MkCommandDefinition TypeTelevision (main_path "television" "target-media-state") "MediaPlayback.Pause" "暂停";
  MkCommandDefinition TypeTelevision (main_path "television" "target-media-state") "MediaPlayback.Stop" "停止";
  MkCommandDefinition TypeTelevision (main_path "television" "remote-key") "KeypadInput.SendKey" "发送遥控按键"].

(** [strings.Cut] at the first dot. *)
Fixpoint cut_dot (s : string) : option (string * string) :=
  match s with
  | EmptyString => None
  | String a r =>
      if Ascii.eqb a "."%char then Some ("", r)
      else (fun x => (String a x.1, x.2)) <$> cut_dot r
  end.
Definition splitConsumerPath (value : string) : string * string :=
  default ("", value) (cut_dot value).

Definition zero_parameter : ModelParameter :=
  MkModelParameter no_path "" (ParameterOther "") (ValueTypeOther "") "" false false false None None None
    0 [] zero_role zero_role "" "".

Definition applyHomeKitNumericConstraints (p : ConsumerProperty) : ConsumerProperty :=
  match find_by fst (con_ID p) homeKitNumericConstraints with
  | None => p
  | Some (_, c) =>
      MkConsumerProperty (con_ID p) (con_Name p) (con_OriginalName p) (con_Cluster p) (con_Element p) (con_Kind p)
        (con_DeviceType p) (con_DefaultModelPath p) (con_Level p) (con_Type p) (con_Unit p)
        (Some (co_min c)) (Some (co_max c)) (if fgtb (co_step c) fzero then Some (co_step c) else None)
        (con_Enum p) (con_Readable p) (con_Writable p) (con_Notifiable p)
  end.

(** The parameters of the model of a device type, by path: none without a model. *)
Definition model_parameter (deviceType : Type_) (path : ParameterPath) : ModelParameter :=
  default zero_parameter (index_lookup (parameterIndex deviceType) (path_key path)).

Definition consumer_property (id : string) (deviceType : Type_) (item : ConsumerParameterMapping)
    : ConsumerProperty :=
  let parameter := model_parameter deviceType (ModelPath item) in
  let '(cluster, element) := splitConsumerPath (cm_Target item) in
  let name := if (id =s "matter") && negb (is_empty (mp_Name parameter)) then mp_Name parameter
              else cm_Target item in
  let p := MkConsumerProperty (cm_Target item) name (cm_Target item) cluster element "attribute" deviceType
    (ModelPath item) (cm_Level item) (mp_Type parameter) (mp_Unit parameter) (mp_Min parameter)
    (mp_Max parameter) (mp_Step parameter) (mp_Enum parameter) (mp_Readable parameter)
    (mp_Writable parameter) (mp_Notifiable parameter) in
  if id =s "homekit" then applyHomeKitNumericConstraints p else p.

Definition consumerCatalog (id name : string) (contracts : list ConsumerModelContract) : ConsumerCatalog :=
  MkConsumerCatalog id name
    (contracts ≫= fun c => consumer_property id (cc_DeviceType c) <$> cc_Parameters c).

Definition command_property (d : matterCommandDefinition) : option ConsumerProperty :=
  model ← ModelContractFor (mcd_deviceType d);
  let parameter := default zero_parameter
    (find_by (fun p => path_key (mp_Path p)) (path_key (mcd_modelPath d)) (mc_Parameters model)) in
  let '(cluster, element) := splitConsumerPath (mcd_id d) in
  Some (MkConsumerProperty (mcd_id d) (mcd_name d) (mcd_id d) cluster element "command" (mcd_deviceType d)
    (mcd_modelPath d) ParameterOptional (mp_Type parameter) (mp_Unit parameter) (mp_Min parameter)
    (mp_Max parameter) (mp_Step parameter) (mp_Enum parameter) false true false).
Definition matterCommandProperties : list ConsumerProperty := omap command_property matterCommandDefinitions.

Definition BuiltInConsumerAdapters : list ConsumerAdapter :=
  let matter := consumerCatalog "matter" "Matter" MatterConsumerContracts in
  [MkConsumerAdapter (consumerCatalog "homekit" "Apple Home / HomeKit" HomeKitConsumerContracts)
     HomeKitConsumerContracts;
   MkConsumerAdapter (MkConsumerCatalog "matter" "Matter" (cat_Properties matter ++ matterCommandProperties))
     MatterConsumerContracts].
Definition BuiltInConsumerCatalogs : list ConsumerCatalog := ad_Catalog <$> BuiltInConsumerAdapters.

(** ** Lookups *)

Definition ConsumerContract (consumerID : string) (deviceType : Type_) : option ConsumerModelContract :=
  first (fun a => if cat_ID (ad_Catalog a) =s consumerID
                  then find_by cc_DeviceType deviceType (ad_Contracts a) else None)
    BuiltInConsumerAdapters.

(** Whether the consumer is known, and whether it supports the device type. *)
Definition ConsumerModelSupport (consumerID : string) (deviceType : Type_) : bool * bool :=
  match find_by (fun a => cat_ID (ad_Catalog a)) consumerID BuiltInConsumerAdapters with
  | None => (false, false)
  | Some a => (true, present (find_by cc_DeviceType deviceType (ad_Contracts a)))
  end.

Definition FindConsumerProperty (consumerID : string) (deviceType : Type_) (propertyID : string)
    : option ConsumerProperty :=
  first (fun c => if cat_ID c =s consumerID
                  then first (fun p => if (con_DeviceType p =s deviceType) && (con_ID p =s propertyID)
                                       then Some p else None) (cat_Properties c)
                  else None) BuiltInConsumerCatalogs.

Definition HomeKitConsumerContract (deviceType : Type_) : option ConsumerModelContract :=
  ConsumerContract "homekit" deviceType.

(** ** The tables agree with the unified model *)

(** The parameter of the unified model a mapping reads. *)
Definition parameter_of (t : Type_) (m : ConsumerParameterMapping) : option ModelParameter :=
  model ← find_by mc_DeviceType t builtin_contracts;
  first (fun q => if bool_decide (mp_Path q = ModelPath m) then Some q else None) (mc_Parameters model).

Definition is_required (l : ParameterLevel) : bool := level_eqb l ParameterRequired.

(** A mapping names a parameter of the model, under its own path. *)
Definition mapping_sound (t : Type_) (m : ConsumerParameterMapping) : bool :=
  negb (is_empty (cm_Target m)) && (is_required (cm_Level m) || level_eqb (cm_Level m) ParameterOptional) &&
  bool_decide (ModelPath m = cm_Source m) && present (parameter_of t m).

(** The consumer requires what the model only suggests. *)
Definition demanding (t : Type_) (m : ConsumerParameterMapping) : bool :=
  is_required (cm_Level m) && negb (holds (fun q => is_required (mp_Level q)) (parameter_of t m)).

Definition adapter_sound (a : ConsumerAdapter) : bool :=
  negb (is_empty (cat_ID (ad_Catalog a))) &&
  bool_decide (NoDup (cc_DeviceType <$> ad_Contracts a)) &&
  bool_decide (NoDup ((fun p => (con_DeviceType p, con_ID p)) <$> cat_Properties (ad_Catalog a))) &&
  forallb (fun c => (cc_ConsumerID c =s cat_ID (ad_Catalog a)) &&
                    forallb (mapping_sound (cc_DeviceType c)) (cc_Parameters c)) (ad_Contracts a).

Lemma adapters_sound : forallb adapter_sound BuiltInConsumerAdapters = true.
Proof. vm_compute. reflexivity. Qed.

(** The only demands of this kind are those HomeKit makes of fans. *)
Lemma demands :
  (fun a => (fun c => (cc_ConsumerID c, cc_DeviceType c, cm_Target <$> List.filter (demanding (cc_DeviceType c)) (cc_Parameters c)))
    <$> List.filter (fun c => existsb (demanding (cc_DeviceType c)) (cc_Parameters c)) (ad_Contracts a))
    <$> BuiltInConsumerAdapters =
  [[("homekit", TypeFan, ["FanV2.TargetFanState"; "FanV2.RotationSpeed"])]; []].
Proof. vm_compute. reflexivity. Qed.

Lemma parameter_of_model t m q :
  parameter_of t m = Some q -> exists c, modelContracts !! t = Some c /\ q ∈ mc_Parameters c /\
    mp_Path q = ModelPath m.
Proof.
  unfold parameter_of. destruct (find_by _ _ _) as [c|] eqn:Hc; [|done]. simpl.
  apply find_by_some in Hc as [Hc Ht]. intros Hq. exists c. split; [by apply modelContracts_elem|].
  revert Hq. induction (mc_Parameters c) as [|x l IH]; simpl; [done|].
  case_bool_decide; [intros [= <-]; split; [left|done]|]. intros [? ?]%IH. split; [by right|done].
Qed.

(** The contract of a consumer comes from its adapter. *)
Lemma ConsumerContract_elem consumerID t c :
  ConsumerContract consumerID t = Some c -> exists a, a ∈ BuiltInConsumerAdapters /\
    cat_ID (ad_Catalog a) = consumerID /\ c ∈ ad_Contracts a /\ cc_DeviceType c = t.
Proof.
  unfold ConsumerContract. induction BuiltInConsumerAdapters as [|a l IH]; simpl; [done|].
  case_bool_decide as Hid; [destruct (find_by _ _ _) as [c'|] eqn:Hc|].
  - intros [= <-]. apply find_by_some in Hc as [? ?]. exists a. split_and!; [left|done..].
  - intros (a' & ? & ?)%IH. exists a'. split; [by right|done].
  - intros (a' & ? & ?)%IH. exists a'. split; [by right|done].
Qed.

Lemma contract_sound consumerID t c m :
  ConsumerContract consumerID t = Some c ->
  cc_ConsumerID c = consumerID /\ cc_DeviceType c = t /\ consumerID <> "" /\
  (m ∈ cc_Parameters c -> mapping_sound t m = true).
Proof.
  intros (a & Ha & Hid & Hc & Ht)%ConsumerContract_elem.
  pose proof adapters_sound as Hs. rewrite forallb_forall in Hs.
  specialize (Hs a (proj1 (list_elem_of_In _ _) Ha)). unfold adapter_sound in Hs.
  apply andb_true_iff in Hs as [[[Hne _]%andb_true_iff _]%andb_true_iff Hs].
  rewrite forallb_forall in Hs. specialize (Hs c (proj1 (list_elem_of_In _ _) Hc)).
  apply andb_true_iff in Hs as [Hcid%bool_decide_eq_true Hms]. rewrite Ht, forallb_forall in Hms.
  rewrite negb_true_iff, is_empty_false in Hne. split_and!; [congruence|done|congruence|].
  intros Hm. by apply Hms, list_elem_of_In.
Qed.

Definition demand_ok (a : ConsumerAdapter) (c : ConsumerModelContract) : bool :=
  negb (existsb (demanding (cc_DeviceType c)) (cc_Parameters c)) ||
  ((cat_ID (ad_Catalog a) =s "homekit") && (cc_DeviceType c =s TypeFan)).

Lemma demand_table a c :
  a ∈ BuiltInConsumerAdapters -> c ∈ ad_Contracts a ->
  existsb (demanding (cc_DeviceType c)) (cc_Parameters c) = true ->
  cat_ID (ad_Catalog a) = "homekit" /\ cc_DeviceType c = TypeFan.
Proof.
  intros Ha Hc He.
  assert (Ht : forallb (fun a => forallb (demand_ok a) (ad_Contracts a)) BuiltInConsumerAdapters = true)
    by (vm_compute; reflexivity).
  rewrite forallb_forall in Ht. specialize (Ht a (proj1 (list_elem_of_In _ _) Ha)).
  rewrite forallb_forall in Ht. specialize (Ht c (proj1 (list_elem_of_In _ _) Hc)).
  unfold demand_ok in Ht. rewrite He in Ht. simpl in Ht.
  by apply andb_true_iff in Ht as [->%bool_decide_eq_true ->%bool_decide_eq_true].
Qed.

(** C7: a device that Providers may publish reaches every consumer that supports its
    type: the projection to the contract of the consumer succeeds, and holds the value
    of every mapped property the device has, each required one included.  The
    condition, that the properties a consumer requires and the model leaves optional
    are there, concerns HomeKit fans only. *)
Theorem consumers_accept_devices consumerID d c :
  ValidateDevice d = Ok tt -> ConsumerContract consumerID (d_Type d) = Some c ->
  (forall m, m ∈ cc_Parameters c -> demanding (d_Type d) m = true -> is_Some (property_at d (cm_Source m))) ->
  (exists r, ProjectForConsumer d c = Ok r /\ cj_Parameters r = omap (mapped_of d) (cc_Parameters c) /\
     forall m, m ∈ cc_Parameters c -> cm_Level m = ParameterRequired -> is_Some (mapped_of d m)) /\
  (existsb (demanding (d_Type d)) (cc_Parameters c) = true ->
     consumerID = "homekit" /\ d_Type d = TypeFan).
Proof.
  intros Hd Hc Hdem. split.
  - assert (Hparam : forall m, m ∈ cc_Parameters c -> mapping_ok d m /\
      (cm_Level m = ParameterRequired -> is_Some (property_at d (cm_Source m)))).
    { intros m Hm. destruct (contract_sound _ _ c m Hc) as (_ & _ & _ & Hs). specialize (Hs Hm).
      unfold mapping_sound in Hs. rewrite !andb_true_iff, orb_true_iff in Hs.
      destruct Hs as [[[Ht Hl] Hp%bool_decide_eq_true] Hq].
      destruct (parameter_of (d_Type d) m) as [q|] eqn:Hpo; [|done].
      destruct (parameter_of_model _ _ _ Hpo) as (mc & Hmc & Hqin & Hpath).
      assert (Hreq : cm_Level m = ParameterRequired -> is_Some (property_at d (cm_Source m))).
      { intros Hr. destruct (is_required (mp_Level q)) eqn:Hql.
        - rewrite <- Hp, <- Hpath. eapply required_published; [done..|]. by destruct (mp_Level q).
        - apply Hdem; [done|]. unfold demanding, holds. by rewrite Hr, Hpo, Hql. }
      split; [|exact Hreq]. unfold mapping_ok. rewrite negb_true_iff, is_empty_false in Ht.
      rewrite (contract_standard d mc q m) by done.
      assert (Hlev : cm_Level m = ParameterRequired \/ cm_Level m = ParameterOptional)
        by (destruct Hl as [Hl|Hl]; destruct (cm_Level m); auto; done).
      split_and!; [done|by destruct Hlev as [->| ->]|].
      destruct (property_at d (cm_Source m)) eqn:Hpr; [by destruct Hlev as [->| ->]|].
      intros Hr. specialize (Hreq Hr). by destruct Hreq. }
    destruct (contract_sound _ _ c (consumer_required "" "" "") Hc) as (Hcid & Hct & Hne & _).
    exists (MkProjection (cc_ConsumerID c) (d_ID d) (omap (mapped_of d) (cc_Parameters c))
      (omap (missing_of d) (cc_Parameters c))). split_and!; [|done|].
    + unfold ProjectForConsumer. rewrite Hct, String.eqb_refl, Hcid, (proj2 (is_empty_false _) Hne).
      apply project_each. split; [|done]. intros m Hm. by apply Hparam.
    + intros m Hm Hr. unfold mapped_of. destruct (proj2 (Hparam m Hm) Hr) as [p ->]. simpl. eauto.
  - apply ConsumerContract_elem in Hc as (a & Ha & <- & Hc & <-). intros He.
    exact (demand_table a c Ha Hc He).
Qed.

(** A switch, which HomeKit understands. *)
Lemma consumers_accept_devices_witness :
  exists r, ProjectForConsumer ex_switch (default (MkConsumerContract "" "" []) (ConsumerContract "homekit" TypeSwitch))
    = Ok r.
Proof.
  destruct (consumers_accept_devices "homekit" ex_switch
    (default (MkConsumerContract "" "" []) (ConsumerContract "homekit" TypeSwitch))) as [[r [Hr _]] _].
  - vm_compute. reflexivity.
  - vm_compute. reflexivity.
  - intros m Hm Hd. exfalso.
    assert (He := proj2 (existsb_exists _ _) (ex_intro _ m (conj (proj1 (list_elem_of_In _ _) Hm) Hd))).
    vm_compute in He. discriminate He.
  - exists r. exact Hr.
Defined.
