(* ===== verification/LogicalDevice.v ===== *)
(** * Logical devices: backend/internal/domain/logicaldevice/logical_device.go

    A logical device aggregates concrete Provider devices: its configuration
    binds at least two of them and routes properties and commands to prioritised
    candidates among the bound ones. *)

From S2P Require Import Prelude Float64 DeviceModel ModelContract.

Definition ProviderID : string := "logical".

Record SourceRef := MkSourceRef { sr_ProviderID : string; sr_DeviceID : string }.

Definition source_key (r : SourceRef) : string := sr_ProviderID r +:+ nul +:+ sr_DeviceID r.

Record Binding := MkBinding { b_Source : SourceRef; b_Priority : Z }.

(** The address of a property or of a command: endpoint, capability and name. *)
Record PropertyPath := MkPropertyPath {
  lp_EndpointID : string;
  lp_CapabilityID : string;
  lp_PropertyID : string;
}.
Record CommandPath := MkCommandPath {
  lc_EndpointID : string;
  lc_CapabilityID : string;
  lc_CommandID : string;
}.

Definition property_path_key (p : PropertyPath) : string :=
  lp_EndpointID p +:+ nul +:+ lp_CapabilityID p +:+ nul +:+ lp_PropertyID p.
Definition command_path_key (p : CommandPath) : string :=
  lc_EndpointID p +:+ nul +:+ lc_CapabilityID p +:+ nul +:+ lc_CommandID p.

Record PropertyCandidate := MkPropertyCandidate {
  pc_Source : SourceRef;
  pc_Path : PropertyPath;
  pc_Priority : Z;
  pc_AllowFallback : bool;
}.
Record CommandCandidate := MkCommandCandidate {
  co_Source : SourceRef;
  co_Path : CommandPath;
  co_Priority : Z;
  co_AllowFallback : bool;
}.
Record PropertyRoute := MkPropertyRoute {
  prr_Path : PropertyPath;
  prr_Candidates : list PropertyCandidate;
}.
Record CommandRoute := MkCommandRoute {
  crr_Path : CommandPath;
  crr_Candidates : list CommandCandidate;
}.

Record LogicalConfig := MkLogicalConfig {
  l_ID : string;
  l_Name : string;
  l_Type : Type_;
  l_Bindings : list Binding;
  l_PropertyRoutes : list PropertyRoute;
  l_CommandRoutes : list CommandRoute;
}.

(** ** Validation *)

Inductive LogicalError :=
| InvalidLogicalID
| InvalidLogicalName
| LogicalTypeRequired
| TooFewBindings
| InvalidBindingSource
| NestedLogicalDevice
| BindingPriorityRange
| DuplicateBinding (provider device : string)
| InvalidPropertyPath
| InvalidCommandPath
| DuplicateRoute (key : string)
| NoCandidates (key : string)
| UnboundSource (key : string)
| RoutePriorityRange
| DuplicateCandidate.

Definition validateSource (s : SourceRef) : result LogicalError unit :=
  guard! negb (negb (ValidStableID (sr_ProviderID s)) || negb (ValidStableID (sr_DeviceID s)))
    else InvalidBindingSource in Ok tt.

Definition validatePropertyPath (p : PropertyPath) : result LogicalError unit :=
  guard! negb (negb (ValidStableID (lp_EndpointID p)) || negb (ValidStableID (lp_CapabilityID p))
               || negb (ValidStableID (lp_PropertyID p))) else InvalidPropertyPath in Ok tt.

Definition validateCommandPath (p : CommandPath) : result LogicalError unit :=
  guard! negb (negb (ValidStableID (lc_EndpointID p)) || negb (ValidStableID (lc_CapabilityID p))
               || negb (ValidStableID (lc_CommandID p))) else InvalidCommandPath in Ok tt.

Definition priority_ok (n : Z) : bool := negb ((n <? 0) || (1000 <? n)).

(** [if _, exists := seen[key]; exists { return err }; seen[key] = ...] *)
Definition claim_key (seen : gset string) (key : string) (e : LogicalError)
    : result LogicalError (gset string) :=
  guard! negb (bool_decide (key ∈ seen)) else e in Ok ({[key]} ∪ seen).

Definition validate_binding (seen : gset string) (b : Binding) : result LogicalError (gset string) :=
  check! validateSource (b_Source b) in
  guard! negb (String.eqb (sr_ProviderID (b_Source b)) ProviderID) else NestedLogicalDevice in
  guard! priority_ok (b_Priority b) else BindingPriorityRange in
  claim_key seen (source_key (b_Source b))
    (DuplicateBinding (sr_ProviderID (b_Source b)) (sr_DeviceID (b_Source b))).

Definition validate_property_candidate (bindings : gset string) (route : string)
    (seen : gset string) (c : PropertyCandidate) : result LogicalError (gset string) :=
  guard! bool_decide (source_key (pc_Source c) ∈ bindings) else UnboundSource route in
  check! validatePropertyPath (pc_Path c) in
  guard! priority_ok (pc_Priority c) else RoutePriorityRange in
  claim_key seen (source_key (pc_Source c) +:+ nul +:+ property_path_key (pc_Path c)) DuplicateCandidate.

Definition validate_command_candidate (bindings : gset string) (route : string)
    (seen : gset string) (c : CommandCandidate) : result LogicalError (gset string) :=
  guard! bool_decide (source_key (co_Source c) ∈ bindings) else UnboundSource route in
  check! validateCommandPath (co_Path c) in
  guard! priority_ok (co_Priority c) else RoutePriorityRange in
  claim_key seen (source_key (co_Source c) +:+ nul +:+ command_path_key (co_Path c)) DuplicateCandidate.

Definition validate_property_route (bindings seen : gset string) (r : PropertyRoute)
    : result LogicalError (gset string) :=
  check! validatePropertyPath (prr_Path r) in
  let key := property_path_key (prr_Path r) in
  let! seen' := claim_key seen key (DuplicateRoute key) in
  guard! negb (length (prr_Candidates r) =? 0)%nat else NoCandidates key in
  check! each (validate_property_candidate bindings key) ∅ (prr_Candidates r) in
  Ok seen'.

Definition validate_command_route (bindings seen : gset string) (r : CommandRoute)
    : result LogicalError (gset string) :=
  check! validateCommandPath (crr_Path r) in
  let key := command_path_key (crr_Path r) in
  let! seen' := claim_key seen key (DuplicateRoute key) in
  guard! negb (length (crr_Candidates r) =? 0)%nat else NoCandidates key in
  check! each (validate_command_candidate bindings key) ∅ (crr_Candidates r) in
  Ok seen'.

Definition ValidateLogical (c : LogicalConfig) : result LogicalError unit :=
  guard! negb (negb (ValidStableID (l_ID c)) || String.eqb (l_ID c) ProviderID)
    else InvalidLogicalID in
  guard! negb (is_empty (TrimSpace (l_Name c)) || (160 <? String.length (l_Name c))%nat)
    else InvalidLogicalName in
  guard! negb (is_empty (l_Type c)) else LogicalTypeRequired in
  guard! negb (length (l_Bindings c) <? 2)%nat else TooFewBindings in
  let! bindings := each validate_binding ∅ (l_Bindings c) in
  check! each (validate_property_route bindings) ∅ (l_PropertyRoutes c) in
  check! each (validate_command_route bindings) ∅ (l_CommandRoutes c) in
  Ok tt.

(** ** Sorting *)

(** [strings.Compare] *)
Definition compare_strings (a b : string) : Z :=
  match String.compare a b with Lt => -1 | Eq => 0 | Gt => 1 end.

(** The comparison function; a difference of [int]s wraps around. *)
Definition compare_bindings (left right : Binding) : Z :=
  if negb (b_Priority left =? b_Priority right)
  then i64_wrap (b_Priority left - b_Priority right)
  else if negb (String.eqb (sr_ProviderID (b_Source left)) (sr_ProviderID (b_Source right)))
  then compare_strings (sr_ProviderID (b_Source left)) (sr_ProviderID (b_Source right))
  else compare_strings (sr_DeviceID (b_Source left)) (sr_DeviceID (b_Source right)).

Definition binding_le (a b : Binding) : Prop := compare_bindings a b <= 0.
#[export] Instance binding_le_dec : RelDecision binding_le.
Proof. intros a b. unfold binding_le. apply _. Defined.

Definition SortBindings (items : list Binding) : list Binding := merge_sort binding_le items.

(** ** Well-formed configurations *)

Definition source_ok (s : SourceRef) : Prop :=
  ValidStableID (sr_ProviderID s) = true /\ ValidStableID (sr_DeviceID s) = true.
Definition property_path_ok (p : PropertyPath) : Prop :=
  ValidStableID (lp_EndpointID p) = true /\ ValidStableID (lp_CapabilityID p) = true /\
  ValidStableID (lp_PropertyID p) = true.
Definition command_path_ok (p : CommandPath) : Prop :=
  ValidStableID (lc_EndpointID p) = true /\ ValidStableID (lc_CapabilityID p) = true /\
  ValidStableID (lc_CommandID p) = true.

Definition binding_ok (b : Binding) : Prop :=
  source_ok (b_Source b) /\ sr_ProviderID (b_Source b) <> ProviderID /\ 0 <= b_Priority b <= 1000.

Definition property_route_ok (sources : list SourceRef) (r : PropertyRoute) : Prop :=
  property_path_ok (prr_Path r) /\ prr_Candidates r <> [] /\
  NoDup ((fun c => (pc_Source c, pc_Path c)) <$> prr_Candidates r) /\
  forall c, c ∈ prr_Candidates r ->
    pc_Source c ∈ sources /\ property_path_ok (pc_Path c) /\ 0 <= pc_Priority c <= 1000.

Definition command_route_ok (sources : list SourceRef) (r : CommandRoute) : Prop :=
  command_path_ok (crr_Path r) /\ crr_Candidates r <> [] /\
  NoDup ((fun c => (co_Source c, co_Path c)) <$> crr_Candidates r) /\
  forall c, c ∈ crr_Candidates r ->
    co_Source c ∈ sources /\ command_path_ok (co_Path c) /\ 0 <= co_Priority c <= 1000.

Record logical_ok (c : LogicalConfig) : Prop := {
  lo_id : ValidStableID (l_ID c) = true /\ l_ID c <> ProviderID;
  lo_name : TrimSpace (l_Name c) <> "" /\ (String.length (l_Name c) <= 160)%nat;
  lo_type : l_Type c <> "";
  lo_two : (2 <= length (l_Bindings c))%nat;
  lo_bindings b : b ∈ l_Bindings c -> binding_ok b;
  lo_distinct : NoDup (b_Source <$> l_Bindings c);
  lo_property_routes r : r ∈ l_PropertyRoutes c ->
    property_route_ok (b_Source <$> l_Bindings c) r;
  lo_property_paths : NoDup (prr_Path <$> l_PropertyRoutes c);
  lo_command_routes r : r ∈ l_CommandRoutes c ->
    command_route_ok (b_Source <$> l_Bindings c) r;
  lo_command_paths : NoDup (crr_Path <$> l_CommandRoutes c);
}.

(** ** Loops that claim a key *)

Definition keyer {E A} (key : A -> string) (P : A -> Prop)
    (f : gset string -> A -> result E (gset string)) : Prop :=
  forall seen x s, f seen x = Ok s <-> P x /\ (key x ∉ seen) /\ s = {[key x]} ∪ seen.

Lemma each_keyer_seen {E A} (key : A -> string) P (f : gset string -> A -> result E (gset string)) :
  keyer key P f -> forall l seen s, each f seen l = Ok s <->
    (forall x, x ∈ l -> P x) /\ NoDup (key <$> l) /\ (forall k, k ∈ key <$> l -> k ∉ seen) /\
    s = list_to_set (key <$> l) ∪ seen.
Proof.
  intros Hf l. induction l as [|x l IH]; intros seen s.
  { cbn. split; [intros [= <-]; split_and!; [set_solver|constructor|set_solver|set_solver]|].
    intros (_ & _ & _ & ->). f_equal. set_solver. }
  cbn [each]. rewrite !fmap_cons, NoDup_cons. split.
  - destruct (f seen x) as [s0|] eqn:Hfx; [|done]. apply (Hf seen x s0) in Hfx as (Hx & Hn & ->).
    intros (HP & Hnd & Hs & ->)%IH. split_and!; [set_solver..|]. apply set_eq. set_solver.
  - intros (HP & (Hn & Hnd) & Hs & ->).
    rewrite (proj2 (Hf seen x _) (conj (HP x (list_elem_of_here _ _))
      (conj (Hs _ (list_elem_of_here _ _)) eq_refl))).
    apply IH. split_and!; [set_solver|done|set_solver|apply set_eq; set_solver].
Qed.

Lemma each_keyer {E A} (key : A -> string) P (f : gset string -> A -> result E (gset string)) :
  keyer key P f -> forall l s, each f ∅ l = Ok s <->
    (forall x, x ∈ l -> P x) /\ NoDup (key <$> l) /\ s = list_to_set (key <$> l).
Proof.
  intros Hf l s. rewrite (each_keyer_seen key P f Hf). split.
  - intros (? & ? & _ & ->). split_and!; [done..|apply set_eq; set_solver].
  - intros (? & ? & ->). split_and!; [done..|set_solver|apply set_eq; set_solver].
Qed.

(** Distinct by key is distinct by content where keys identify content. *)
Lemma NoDup_keys {A B} (key : A -> string) (g : A -> B) l :
  (forall x y, x ∈ l -> y ∈ l -> key x = key y <-> g x = g y) ->
  NoDup (key <$> l) <-> NoDup (g <$> l).
Proof.
  induction l as [|x l IH]; intros Hk; [by split; constructor|].
  rewrite !fmap_cons, !NoDup_cons, IH by set_solver.
  assert (key x ∈ key <$> l <-> g x ∈ g <$> l) as ->; [|done].
  rewrite !list_elem_of_fmap. split; intros (y & E & Hy); exists y; (split; [|done]);
    apply Hk; set_solver.
Qed.

(** A join with one separator splits one way only. *)
Lemma nul_join_split a b x y :
  nul_free b = true -> nul_free y = true -> a +:+ String NUL x = b +:+ String NUL y ->
  a = b /\ x = y.
Proof.
  intros Hb Hy. revert a. induction b as [|c b IH]; intros [|d a] E.
  - by injection E.
  - exfalso. change (String d (a +:+ String NUL x) = String NUL y) in E. injection E as _ <-.
    unfold nul_free in Hy. rewrite string_Forall_app in Hy. simpl in Hy.
    by rewrite andb_false_r in Hy.
  - exfalso. change (String NUL x = String c (b +:+ String NUL y)) in E. injection E as <- _.
    discriminate Hb.
  - change (String d (a +:+ String NUL x) = String c (b +:+ String NUL y)) in E.
    injection E as -> E. unfold nul_free in *. cbn [string_Forall] in Hb.
    apply andb_true_iff in Hb as [_ Hb]. by destruct (IH Hb a E) as [-> ->].
Qed.

Lemma source_key_inj s s' : source_ok s' -> source_key s = source_key s' <-> s = s'.
Proof.
  intros [Hp Hd]. split; [|by intros ->]. destruct s as [p d], s' as [p' d']. simpl in *.
  intros E. change (p +:+ String NUL d = p' +:+ String NUL d') in E. apply nul_join_split in E as [-> ->]; [done|by apply stable_nul_free..].
Qed.

Lemma property_path_key_inj p q : property_path_ok p -> property_path_ok q ->
  property_path_key p = property_path_key q <-> p = q.
Proof.
  intros (He & Hc & _) (He' & Hc' & _). split; [|by intros ->].
  destruct p as [e c x], q as [e' c' x']. simpl in *. intros E.
  change (e +:+ String NUL (c +:+ String NUL x) = e' +:+ String NUL (c' +:+ String NUL x')) in E.
  apply nul_join_inj in E as [-> E]; [|by apply stable_nul_free..].
  apply nul_join_inj in E as [-> E]; [|by apply stable_nul_free..]. by subst.
Qed.

Lemma command_path_key_inj p q : command_path_ok p -> command_path_ok q ->
  command_path_key p = command_path_key q <-> p = q.
Proof.
  intros (He & Hc & _) (He' & Hc' & _). split; [|by intros ->].
  destruct p as [e c x], q as [e' c' x']. simpl in *. intros E.
  change (e +:+ String NUL (c +:+ String NUL x) = e' +:+ String NUL (c' +:+ String NUL x')) in E.
  apply nul_join_inj in E as [-> E]; [|by apply stable_nul_free..].
  apply nul_join_inj in E as [-> E]; [|by apply stable_nul_free..]. by subst.
Qed.

(** The key of a candidate identifies its source and what follows. *)
Lemma candidate_key_inj s s' k k' : source_ok s -> source_ok s' ->
  source_key s +:+ nul +:+ k = source_key s' +:+ nul +:+ k' <-> s = s' /\ k = k'.
Proof.
  intros [Hp Hd] [Hp' Hd']. split; [|by intros [-> ->]]. destruct s as [p d], s' as [p' d'].
  unfold source_key. simpl in *. rewrite !str_app_assoc. intros E.
  change (p +:+ String NUL (d +:+ String NUL k) = p' +:+ String NUL (d' +:+ String NUL k')) in E.
  apply nul_join_inj in E as [-> E]; [|by apply stable_nul_free..].
  apply nul_join_inj in E as [-> E]; [|by apply stable_nul_free..]. done.
Qed.

(** ** The checks *)

Lemma orb_negb2 a b : negb (negb a || negb b) = true <-> a = true /\ b = true.
Proof. destruct a, b; simpl; intuition. Qed.

Lemma validateSource_ok s : validateSource s = Ok tt <-> source_ok s.
Proof. unfold validateSource, source_ok. rewrite guard_then, orb_negb2. intuition. Qed.

Lemma validatePropertyPath_ok p : validatePropertyPath p = Ok tt <-> property_path_ok p.
Proof.
  unfold validatePropertyPath, property_path_ok. rewrite guard_then.
  destruct (ValidStableID _), (ValidStableID _), (ValidStableID _); simpl; intuition.
Qed.

Lemma validateCommandPath_ok p : validateCommandPath p = Ok tt <-> command_path_ok p.
Proof.
  unfold validateCommandPath, command_path_ok. rewrite guard_then.
  destruct (ValidStableID _), (ValidStableID _), (ValidStableID _); simpl; intuition.
Qed.

Lemma priority_ok_iff n : priority_ok n = true <-> 0 <= n <= 1000.
Proof.
  unfold priority_ok. rewrite negb_true_iff, orb_false_iff, !Z.ltb_ge. lia.
Qed.

Lemma claim_key_ok seen key e s : claim_key seen key e = Ok s <-> (key ∉ seen) /\ s = {[key]} ∪ seen.
Proof.
  unfold claim_key. case_bool_decide; simpl; [intuition congruence|].
  split; [by intros [= <-]|by intros [_ ->]].
Qed.

Lemma unit_check {E B} (c : result E unit) (k : result E B) (r : B) :
  (check! c in k) = Ok r <-> c = Ok tt /\ k = Ok r.
Proof. destruct c as [[]|]; intuition congruence. Qed.

Lemma binding_keyer : keyer (fun b => source_key (b_Source b)) binding_ok validate_binding.
Proof.
  intros seen b s. unfold validate_binding, binding_ok.
  rewrite unit_check, !guard_then, claim_key_ok, validateSource_ok, priority_ok_iff,
    negb_true_iff, String.eqb_neq. tauto.
Qed.

Lemma length_nonzero {A} (l : list A) : negb (length l =? 0)%nat = true <-> l <> [].
Proof. by destruct l. Qed.

(** The sources a set of keys stands for. *)
Definition keys_of (sources : list SourceRef) : gset string := list_to_set (source_key <$> sources).

Lemma elem_of_keys s sources : (forall s', s' ∈ sources -> source_ok s') ->
  source_key s ∈ keys_of sources <-> s ∈ sources.
Proof.
  intros Hok. unfold keys_of. rewrite elem_of_list_to_set, list_elem_of_fmap. split.
  - intros (s' & E & Hin). by apply source_key_inj in E as ->; [|apply Hok].
  - intros Hin. by exists s.
Qed.

(** Property routes and command routes are checked alike. *)
Section Routes.
Context {R C P : Type} (rpath : R -> P) (cands : R -> list C) (src : C -> SourceRef)
  (cpath : C -> P) (prio : C -> Z) (pkey : P -> string) (pok : P -> Prop)
  (vpath : P -> result LogicalError unit).
Context (pkey_inj : forall p q, pok p -> pok q -> pkey p = pkey q <-> p = q)
  (vpath_ok : forall p, vpath p = Ok tt <-> pok p).

Let cand_key (c : C) : string := source_key (src c) +:+ nul +:+ pkey (cpath c).
Let check_cand (bindings : gset string) (route : string) (seen : gset string) (c : C) :=
  guard! bool_decide (source_key (src c) ∈ bindings) else UnboundSource route in
  check! vpath (cpath c) in
  guard! priority_ok (prio c) else RoutePriorityRange in
  claim_key seen (source_key (src c) +:+ nul +:+ pkey (cpath c)) DuplicateCandidate.
Let check_route (bindings seen : gset string) (r : R) :=
  check! vpath (rpath r) in
  let key := pkey (rpath r) in
  let! seen' := claim_key seen key (DuplicateRoute key) in
  guard! negb (length (cands r) =? 0)%nat else NoCandidates key in
  check! each (check_cand bindings key) ∅ (cands r) in
  Ok seen'.
Let route_ok (sources : list SourceRef) (r : R) : Prop :=
  pok (rpath r) /\ cands r <> [] /\ NoDup ((fun c => (src c, cpath c)) <$> cands r) /\
  forall c, c ∈ cands r -> src c ∈ sources /\ pok (cpath c) /\ 0 <= prio c <= 1000.

Lemma candidate_keyer bindings route :
  keyer cand_key (fun c => source_key (src c) ∈ bindings /\ pok (cpath c) /\ 0 <= prio c <= 1000)
    (check_cand bindings route).
Proof using All.
  intros seen c s. unfold check_cand.
  rewrite guard_then, unit_check, guard_then, claim_key_ok, vpath_ok, priority_ok_iff,
    bool_decide_eq_true. tauto.
Qed.

Lemma candidates_ok sources route l : (forall s, s ∈ sources -> source_ok s) ->
  (exists s, each (check_cand (keys_of sources) route) ∅ l = Ok s) <->
  NoDup ((fun c => (src c, cpath c)) <$> l) /\
  forall c, c ∈ l -> src c ∈ sources /\ pok (cpath c) /\ 0 <= prio c <= 1000.
Proof using All.
  intros Hok. setoid_rewrite (each_keyer _ _ _ (candidate_keyer (keys_of sources) route)).
  setoid_rewrite (elem_of_keys _ sources Hok).
  assert (Hk : (forall c, c ∈ l -> src c ∈ sources /\ pok (cpath c) /\ 0 <= prio c <= 1000) ->
    NoDup (cand_key <$> l) <-> NoDup ((fun c => (src c, cpath c)) <$> l)).
  { intros HP. apply NoDup_keys. intros x y Hx Hy.
    destruct (HP x Hx) as (? & ? & _), (HP y Hy) as (? & ? & _). unfold cand_key.
    rewrite candidate_key_inj, pkey_inj by auto.
    split; [by intros [-> ->]|by intros [= -> ->]]. }
  split.
  - intros (s0 & HP & Hnd & _). by rewrite <- Hk.
  - intros (Hnd & HP). eexists. rewrite <- Hk in Hnd by done. done.
Qed.

Lemma route_keyer sources : (forall s, s ∈ sources -> source_ok s) ->
  keyer (fun r => pkey (rpath r)) (route_ok sources) (check_route (keys_of sources)).
Proof using All.
  intros Hok seen r s. unfold check_route, route_ok. rewrite unit_check, vpath_ok. cbv zeta.
  set (key := pkey (rpath r)). rewrite <- (candidates_ok sources key _ Hok).
  destruct (claim_key seen key (DuplicateRoute key)) as [s'|] eqn:Ek.
  - apply claim_key_ok in Ek as [Hn ->]. rewrite guard_then, length_nonzero.
    destruct (each _ ∅ (cands r)) as [s0|].
    + split; [intros (? & ? & [= <-]); split_and!; eauto|by intros ((? & ? & _) & _ & ->)].
    + split; [by intros (_ & _ & ?)|by intros ((_ & _ & s0 & ?) & _)].
  - split; [by intros [_ ?]|]. intros (_ & Hn & _). exfalso.
    rewrite (proj2 (claim_key_ok seen key (DuplicateRoute key) _) (conj Hn eq_refl)) in Ek. done.
Qed.
End Routes.

Lemma property_route_keyer sources : (forall s, s ∈ sources -> source_ok s) ->
  keyer (fun r => property_path_key (prr_Path r)) (property_route_ok sources)
    (validate_property_route (keys_of sources)).
Proof.
  exact (route_keyer prr_Path prr_Candidates pc_Source pc_Path pc_Priority property_path_key
    property_path_ok validatePropertyPath property_path_key_inj validatePropertyPath_ok sources).
Qed.

Lemma command_route_keyer sources : (forall s, s ∈ sources -> source_ok s) ->
  keyer (fun r => command_path_key (crr_Path r)) (command_route_ok sources)
    (validate_command_route (keys_of sources)).
Proof.
  exact (route_keyer crr_Path crr_Candidates co_Source co_Path co_Priority command_path_key
    command_path_ok validateCommandPath command_path_key_inj validateCommandPath_ok sources).
Qed.

Lemma any_check {E A B} (c : result E A) (k : result E B) (r : B) :
  (check! c in k) = Ok r <-> (exists s, c = Ok s) /\ k = Ok r.
Proof.
  destruct c as [s|]; split; [eauto|by intros [_ ?]|done|by intros [[? ?] _]].
Qed.

Lemma bindings_ok l keys : each validate_binding ∅ l = Ok keys <->
  (forall b, b ∈ l -> binding_ok b) /\ NoDup (b_Source <$> l) /\ keys = keys_of (b_Source <$> l).
Proof.
  rewrite (each_keyer _ _ _ binding_keyer). unfold keys_of. rewrite <- list_fmap_compose.
  assert (Hk : (forall b, b ∈ l -> binding_ok b) ->
    NoDup ((fun b => source_key (b_Source b)) <$> l) <-> NoDup (b_Source <$> l)).
  { intros HP. apply NoDup_keys. intros x y Hx Hy. apply source_key_inj. by apply HP. }
  split; intros (HP & Hnd & ->); rewrite Hk in * by done; done.
Qed.

(** Routes with distinct paths, each one well formed. *)
Lemma routes_ok {R P} (path : R -> P) (key : P -> string) (pok : P -> Prop) ok
    (f : gset string -> R -> result LogicalError (gset string)) :
  keyer (fun r => key (path r)) ok f -> (forall r, ok r -> pok (path r)) ->
  (forall p q, pok p -> pok q -> key p = key q <-> p = q) ->
  forall l, (exists s, each f ∅ l = Ok s) <-> (forall r, r ∈ l -> ok r) /\ NoDup (path <$> l).
Proof.
  intros Hf Hp Hinj l. setoid_rewrite (each_keyer _ _ _ Hf).
  assert (Hk : (forall r, r ∈ l -> ok r) ->
    NoDup ((fun r => key (path r)) <$> l) <-> NoDup (path <$> l)) by (intros; apply NoDup_keys; auto).
  split.
  - intros (s & HP & Hnd & _). by rewrite <- Hk.
  - intros (HP & Hnd). rewrite <- Hk in Hnd by done. eauto.
Qed.

Lemma logical_guards c :
  (negb (negb (ValidStableID (l_ID c)) || String.eqb (l_ID c) ProviderID) = true <->
    ValidStableID (l_ID c) = true /\ l_ID c <> ProviderID) /\
  (negb (is_empty (TrimSpace (l_Name c)) || (160 <? String.length (l_Name c))%nat) = true <->
    TrimSpace (l_Name c) <> "" /\ (String.length (l_Name c) <= 160)%nat) /\
  (negb (is_empty (l_Type c)) = true <-> l_Type c <> "") /\
  (negb (length (l_Bindings c) <? 2)%nat = true <-> (2 <= length (l_Bindings c))%nat).
Proof.
  rewrite !negb_true_iff, !orb_false_iff, negb_false_iff, String.eqb_neq, !is_empty_false, !Nat.ltb_ge.
  done.
Qed.

Lemma validate_logical_ok c : ValidateLogical c = Ok tt <-> logical_ok c.
Proof.
  unfold ValidateLogical. rewrite !guard_then.
  destruct (logical_guards c) as (-> & -> & -> & ->).
  destruct (each validate_binding ∅ (l_Bindings c)) as [keys|] eqn:Eb.
  - apply bindings_ok in Eb as (Hb & Hnd & ->).
    assert (Hs : forall s, s ∈ b_Source <$> l_Bindings c -> source_ok s).
    { intros s (b & -> & Hin)%list_elem_of_fmap. apply (Hb b Hin). }
    rewrite !any_check,
      (routes_ok _ _ _ _ _ (property_route_keyer _ Hs) (fun r H => proj1 H) property_path_key_inj),
      (routes_ok _ _ _ _ _ (command_route_keyer _ Hs) (fun r H => proj1 H) command_path_key_inj).
    split; [intros (? & ? & ? & ? & [] & [] & _); by constructor|by intros []].
  - split; [by intros (_ & _ & _ & _ & ?)|]. intros []. exfalso.
    rewrite (proj2 (bindings_ok _ _) (conj lo_bindings0 (conj lo_distinct0 eq_refl))) in Eb. done.
Qed.

(** A logical device configuration is accepted exactly when it is well formed: a
    stable identifier other than the reserved one, a name, a type, at least two
    distinct bindings to concrete devices, and distinct routes whose distinct
    candidates are all bound. *)
Theorem validate_logical_spec c : ValidateLogical c = Ok tt <-> logical_ok c.
Proof. apply validate_logical_ok. Qed.

(** ** The order of the bindings *)

(** What the comparison is meant to say: the priority first, then the provider and the
    device. *)
Definition binding_before (a b : Binding) : Prop :=
  b_Priority a < b_Priority b \/
  b_Priority a = b_Priority b /\
  lex_le (sr_ProviderID (b_Source a)) (sr_ProviderID (b_Source b))
    (str_leb (sr_DeviceID (b_Source a)) (sr_DeviceID (b_Source b)) = true).

Definition in_range (b : Binding) : Prop := 0 <= b_Priority b <= 1000.

Lemma compare_strings_le a b : compare_strings a b <= 0 <-> str_leb a b = true.
Proof. unfold compare_strings, str_leb. destruct (String.compare a b); intuition lia. Qed.

Lemma wrap_small a : - two63 <= a < two63 -> i64_wrap a = a.
Proof. unfold i64_wrap, two64, two63. intros ?. rewrite Z.mod_small by lia. lia. Qed.

(** No difference of two validated priorities wraps around. *)
Lemma binding_le_before a b : in_range a -> in_range b -> binding_le a b <-> binding_before a b.
Proof.
  unfold in_range, binding_le, binding_before, compare_bindings, lex_le. intros Ha Hb.
  destruct (Z.eqb_spec (b_Priority a) (b_Priority b)) as [E|E]; cbn [negb].
  - destruct (String.eqb_spec (sr_ProviderID (b_Source a)) (sr_ProviderID (b_Source b))) as [E'|E'];
      cbn [negb]; rewrite compare_strings_le; intuition lia.
  - rewrite wrap_small by (unfold two63; lia). intuition lia.
Qed.

#[export] Instance binding_le_total : Total binding_le.
Proof.
  intros a b. unfold binding_le, compare_bindings.
  rewrite (Z.eqb_sym (b_Priority b)), (String.eqb_sym (sr_ProviderID (b_Source b))).
  destruct (Z.eqb_spec (b_Priority a) (b_Priority b)) as [E|E]; cbn [negb].
  - destruct (String.eqb _ _); cbn [negb]; rewrite !compare_strings_le; apply str_leb_total.
  - unfold i64_wrap, two64, two63.
    assert (b_Priority b - b_Priority a = - (b_Priority a - b_Priority b)) as -> by lia.
    generalize (b_Priority a - b_Priority b) as d. intros d. 
    pose proof (Z.mod_pos_bound (d + 9223372036854775808) 18446744073709551616 ltac:(lia)).
    pose proof (Z.mod_pos_bound (- d + 9223372036854775808) 18446744073709551616 ltac:(lia)).
    Z.div_mod_to_equations. lia.
Qed.

#[export] Instance binding_before_trans : Transitive binding_before.
Proof.
  intros a b c. unfold binding_before.
  intros [?|[E1 L1]] [?|[E2 L2]]; [left; lia..|right]. split; [lia|].
  revert L1 L2. apply lex_le_trans. apply str_leb_trans.
Qed.

Lemma binding_before_antisym a b : binding_before a b -> binding_before b a -> a = b.
Proof.
  unfold binding_before, lex_le. intros [?|(E1 & L1 & L1')] [?|(E2 & L2 & L2')]; try lia.
  destruct a as [[pa da] na], b as [[pb db] nb]. simpl in *. subst nb.
  destruct (decide (pa = pb)) as [->|Hn].
  - by rewrite (str_leb_antisym da db (L1' eq_refl) (L2' eq_refl)).
  - exfalso. apply Hn, str_leb_antisym; auto.
Qed.

Lemma Sorted_impl {A} (R R' : relation A) l :
  (forall x y, x ∈ l -> y ∈ l -> R x y -> R' x y) -> Sorted R l -> Sorted R' l.
Proof.
  intros H Hs. induction Hs as [|x l Hs IH Hd]; [constructor|]. constructor.
  - apply IH. intros y z Hy Hz. apply H; by right.
  - destruct Hd; constructor. apply H; [left|right; left|done].
Qed.

Lemma SortBindings_sorted items : (forall b, b ∈ items -> 0 <= b_Priority b <= 1000) ->
  StronglySorted binding_before (SortBindings items).
Proof.
  intros Hrange. apply Sorted_StronglySorted; [apply _|].
  apply (Sorted_impl binding_le); [|apply Sorted_merge_sort, _].
  intros x y. unfold SortBindings. rewrite !merge_sort_Permutation.
  intros Hx Hy. by apply binding_le_before; apply Hrange.
Qed.

(** Sorting validated bindings orders them by priority, then provider, then device,
    without a wrapped difference, and no other order of them is sorted: the result does
    not depend on the algorithm. *)
Theorem sort_bindings_spec (items sorted : list Binding)
    (Hrange : forall b, b ∈ items -> 0 <= b_Priority b <= 1000) :
  SortBindings items = sorted <-> sorted ≡ₚ items /\ StronglySorted binding_before sorted.
Proof.
  assert (Hp : SortBindings items ≡ₚ items) by apply merge_sort_Permutation.
  pose proof (SortBindings_sorted items Hrange) as Hs.
  split; [by intros <-|]. intros [Hp' Hs'].
  apply (StronglySorted_unique_strong binding_before); [|done..|by rewrite Hp, Hp'].
  intros x y _ _. apply binding_before_antisym.
Qed.

Definition two_bindings : list Binding :=
  [MkBinding (MkSourceRef "mi" "lamp") 2; MkBinding (MkSourceRef "gree" "ac") 2;
   MkBinding (MkSourceRef "zigbee" "lamp") 0].

Lemma sort_bindings_spec_witness :
  SortBindings two_bindings =
    [MkBinding (MkSourceRef "zigbee" "lamp") 0; MkBinding (MkSourceRef "gree" "ac") 2;
     MkBinding (MkSourceRef "mi" "lamp") 2] <->
  [MkBinding (MkSourceRef "zigbee" "lamp") 0; MkBinding (MkSourceRef "gree" "ac") 2;
   MkBinding (MkSourceRef "mi" "lamp") 2] ≡ₚ two_bindings /\
  StronglySorted binding_before
    [MkBinding (MkSourceRef "zigbee" "lamp") 0; MkBinding (MkSourceRef "gree" "ac") 2;
     MkBinding (MkSourceRef "mi" "lamp") 2].
Proof.
  apply sort_bindings_spec. unfold two_bindings. intros b Hb.
  repeat (apply elem_of_cons in Hb as [->|Hb]; [simpl; lia|]). by apply not_elem_of_nil in Hb.
Defined.
