(* ===== verification/LogicalCompose.v ===== *)
(** * Composing logical devices: backend/internal/runtime/providermanager/logical.go

    The snapshot of a logical device is composed from the snapshots of the concrete
    devices it binds: for every property and command path the candidates are ranked
    and one is chosen.  [range] over the map of the present sources is in the order
    [ord] gives. *)

From S2P Require Import Prelude Float64 DeviceModel Lookup ModelContract LogicalDevice.

#[export] Instance SourceRef_eq_dec : EqDecision SourceRef.
Proof. solve_decision. Defined.
#[export] Instance PropertyPath_eq_dec : EqDecision PropertyPath.
Proof. solve_decision. Defined.
#[export] Instance CommandPath_eq_dec : EqDecision CommandPath.
Proof. solve_decision. Defined.

Record logicalPropertyChoice := MkPropertyChoice {
  pch_candidate : PropertyCandidate;
  pch_property : Property;
  pch_endpoint : Endpoint;
  pch_capability : Capability;
  pch_available : bool;
}.

Record logicalCommandChoice := MkCommandChoice {
  cch_candidate : CommandCandidate;
  cch_command : CommandDefinition;
  cch_available : bool;
}.

Record CandidateSelection := MkSelection {
  sel_Source : SourceRef;
  sel_Path : string;
  sel_Priority : Z;
  sel_Available : bool;
  sel_Selected : bool;
}.

Record RouteExplanation := MkExplanation {
  re_LogicalDeviceID : string;
  re_Kind : string;
  re_Path : string;
  re_Reason : string;
  re_Selected : CandidateSelection;
  re_Candidates : list CandidateSelection;
}.

(** ** Stable sorting *)

(** [sort.SliceStable]: [x] goes before the elements of [l] that are not less. *)
Fixpoint insert_stable {A} (less : A -> A -> bool) (x : A) (l : list A) : list A :=
  match l with
  | [] => [x]
  | y :: l' => if less y x then y :: insert_stable less x l' else x :: l
  end.
Definition stable_sort {A} (less : A -> A -> bool) (l : list A) : list A :=
  foldr (insert_stable less) [] l.

(** ** Candidates *)

Definition explicitPropertyRoute (config : LogicalConfig) (path : PropertyPath)
    : option PropertyRoute :=
  first (fun route => if bool_decide (prr_Path route = path) then Some route else None)
    (l_PropertyRoutes config).
Definition explicitCommandRoute (config : LogicalConfig) (path : CommandPath)
    : option CommandRoute :=
  first (fun route => if bool_decide (crr_Path route = path) then Some route else None)
    (l_CommandRoutes config).

Definition propertyCandidates (config : LogicalConfig) (path : PropertyPath)
    (bindings : list Binding) : list PropertyCandidate :=
  match explicitPropertyRoute config path with
  | Some route => stable_sort (fun i j => pc_Priority i <? pc_Priority j) (prr_Candidates route)
  | None =>
      imap (fun index b => MkPropertyCandidate (b_Source b) path (b_Priority b)
                             (index <? length bindings - 1)%nat) bindings
  end.
Definition commandCandidates (config : LogicalConfig) (path : CommandPath)
    (bindings : list Binding) : list CommandCandidate :=
  match explicitCommandRoute config path with
  | Some route => stable_sort (fun i j => co_Priority i <? co_Priority j) (crr_Candidates route)
  | None =>
      imap (fun index b => MkCommandCandidate (b_Source b) path (b_Priority b)
                             (index <? length bindings - 1)%nat) bindings
  end.

(** ** What a source offers *)

Definition property_of (e : Endpoint) (c : Capability) (propertyID : string)
    : option (Property * Endpoint * Capability) :=
  first (fun p => if String.eqb (pd_ID (p_Definition p)) propertyID then Some (p, e, c) else None)
    (cap_Properties c).

Definition sourceProperty (item : Device) (path : PropertyPath)
    : option (Property * Endpoint * Capability) :=
  first (fun e =>
    if negb (String.eqb (ep_ID e) (lp_EndpointID path)) then None else
    first (fun c =>
      if negb (String.eqb (cap_ID c) (lp_CapabilityID path)) then None
      else property_of e c (lp_PropertyID path)) (ep_Capabilities e)) (d_Endpoints item).

Definition sourceCommand (item : Device) (path : CommandPath) : option CommandDefinition :=
  first (fun e =>
    if negb (String.eqb (ep_ID e) (lc_EndpointID path)) then None else
    first (fun c =>
      if negb (String.eqb (cap_ID c) (lc_CapabilityID path)) then None else
      first (fun command => if String.eqb (cd_ID command) (lc_CommandID path)
                            then Some command else None) (cap_Commands c))
      (ep_Capabilities e)) (d_Endpoints item).

Definition propertyChoices (config : LogicalConfig) (path : PropertyPath)
    (sources : gmap string Device) (bindings : list Binding) : list logicalPropertyChoice :=
  omap (fun candidate =>
    match sources !! source_key (pc_Source candidate) with
    | None => None
    | Some source =>
        match sourceProperty source (pc_Path candidate) with
        | None => None
        | Some (p, e, c) => Some (MkPropertyChoice candidate p e c (IsOnline source))
        end
    end) (propertyCandidates config path bindings).

Definition commandChoices (config : LogicalConfig) (path : CommandPath)
    (sources : gmap string Device) (bindings : list Binding) : list logicalCommandChoice :=
  omap (fun candidate =>
    match sources !! source_key (co_Source candidate) with
    | None => None
    | Some source =>
        match sourceCommand source (co_Path candidate) with
        | None => None
        | Some command => Some (MkCommandChoice candidate command (IsOnline source))
        end
    end) (commandCandidates config path bindings).

Definition selectPropertyChoice (items : list logicalPropertyChoice) : option logicalPropertyChoice :=
  match first (fun item => if pch_available item then Some item else None) items with
  | Some item => Some item
  | None => head items
  end.
Definition selectCommandChoice (items : list logicalCommandChoice) : option logicalCommandChoice :=
  match first (fun item => if cch_available item then Some item else None) items with
  | Some item => Some item
  | None => head items
  end.

(** ** The paths of the composed device *)

(** [set[path.Key()] = path] over a list of paths. *)
Definition put_paths {P} (key : P -> string) (paths : list P) (set : gmap string P) : gmap string P :=
  foldl (fun m path => <[key path := path]> m) set paths.

Definition device_property_paths (source : Device) : list PropertyPath :=
  e ← d_Endpoints source; c ← ep_Capabilities e; p ← cap_Properties c;
  [MkPropertyPath (ep_ID e) (cap_ID c) (pd_ID (p_Definition p))].
Definition device_command_paths (source : Device) : list CommandPath :=
  e ← d_Endpoints source; c ← ep_Capabilities e; command ← cap_Commands c;
  [MkCommandPath (ep_ID e) (cap_ID c) (cd_ID command)].

Definition path_le {P} (key : P -> string) (a b : P) : Prop := str_leb (key a) (key b) = true.
#[export] Instance path_le_dec {P} (key : P -> string) : RelDecision (path_le key).
Proof. intros a b. unfold path_le. apply _. Defined.

(** The values of the map, sorted by their keys. *)
Definition sorted_paths {P} (key : P -> string) (items : gmap string P) : list P :=
  merge_sort (path_le key) (map_to_list items).*2.
Definition sortedPropertyPaths (items : gmap string PropertyPath) : list PropertyPath :=
  sorted_paths property_path_key items.
Definition sortedCommandPaths (items : gmap string CommandPath) : list CommandPath :=
  sorted_paths command_path_key items.

(** The keys of [sources] in the order of the iteration. *)
Definition logicalPropertyPaths (ord : gmap string Device -> list string) (config : LogicalConfig)
    (sources : gmap string Device) : list PropertyPath :=
  let set := put_paths property_path_key (prr_Path <$> l_PropertyRoutes config) ∅ in
  let offered := omap (fun k => sources !! k) (ord sources) ≫= device_property_paths in
  sortedPropertyPaths (put_paths property_path_key
    (filter (fun path => explicitPropertyRoute config path = None) offered) set).

Definition logicalCommandPaths (ord : gmap string Device -> list string) (config : LogicalConfig)
    (sources : gmap string Device) : list CommandPath :=
  let set := put_paths command_path_key (crr_Path <$> l_CommandRoutes config) ∅ in
  let offered := omap (fun k => sources !! k) (ord sources) ≫= device_command_paths in
  sortedCommandPaths (put_paths command_path_key
    (filter (fun path => explicitCommandRoute config path = None) offered) set).

(** ** Adding to the composed device *)

Definition with_Commands (c : Capability) (l : list CommandDefinition) : Capability :=
  MkCapability (cap_ID c) (cap_Type c) (cap_Properties c) l (cap_Events c).

Definition property_id (p : Property) : string := pd_ID (p_Definition p).

(** [logicalEndpoint] and [logicalCapability] return a pointer into the device, through
    which the element is updated. *)
Definition logicalEndpoint (id name kind : string) (f : Endpoint -> Endpoint)
    (endpoints : list Endpoint) : list Endpoint :=
  upsert ep_ID id (MkEndpoint id name kind []) f endpoints.
Definition logicalCapability (id kind : string) (f : Capability -> Capability)
    (endpoint : Endpoint) : Endpoint :=
  with_Capabilities endpoint
    (upsert cap_ID id (MkCapability id kind [] [] []) f (ep_Capabilities endpoint)).

Definition addLogicalProperty (endpoints : list Endpoint) (path : PropertyPath)
    (sourceEndpoint : Endpoint) (sourceCapability : Capability) (property : Property)
    : list Endpoint :=
  logicalEndpoint (lp_EndpointID path) (ep_Name sourceEndpoint) (ep_Type sourceEndpoint)
    (logicalCapability (lp_CapabilityID path) (cap_Type sourceCapability)
      (fun c => with_Properties c
                  (add_unique property_id property (cap_Properties c))))
    endpoints.

Definition addLogicalCommand (endpoints : list Endpoint) (path : CommandPath)
    (command : CommandDefinition) : list Endpoint :=
  logicalEndpoint (lc_EndpointID path) (lc_EndpointID path) (lc_EndpointID path)
    (logicalCapability (lc_CapabilityID path) (lc_CapabilityID path)
      (fun c => with_Commands c (add_unique cd_ID command (cap_Commands c))))
    endpoints.

(** ** Explanations *)

(** The selected candidate, or the first: [candidates[indexSelection(candidates)]]. *)
Definition selected_of (items : list CandidateSelection) (none : CandidateSelection)
    : CandidateSelection :=
  match first (fun item => if sel_Selected item then Some item else None) items with
  | Some item => item
  | None => default none (head items)
  end.

Definition reason_of (available : bool) (same_source : bool) : string :=
  if negb available then "all_sources_unavailable"
  else if negb same_source then "safe_fallback_provider_unavailable"
  else "provider_priority".

Definition explainProperty (id : string) (path : PropertyPath) (choices : list logicalPropertyChoice)
    (selected : logicalPropertyChoice) : RouteExplanation :=
  let selection (choice : logicalPropertyChoice) :=
    let c := pch_candidate choice in
    MkSelection (pc_Source c) (property_path_key (pc_Path c)) (pc_Priority c) (pch_available choice)
      (bool_decide (pc_Source c = pc_Source (pch_candidate selected)) &&
       bool_decide (pc_Path c = pc_Path (pch_candidate selected))) in
  let candidates := selection <$> choices in
  let same := match choices with
              | [] => false
              | c :: _ => bool_decide (pc_Source (pch_candidate c) = pc_Source (pch_candidate selected))
              end in
  MkExplanation id "property" (property_path_key path) (reason_of (pch_available selected) same)
    (selected_of candidates (selection selected)) candidates.

Definition explainCommand (id : string) (path : CommandPath) (choices : list logicalCommandChoice)
    (selected : logicalCommandChoice) : RouteExplanation :=
  let selection (choice : logicalCommandChoice) :=
    let c := cch_candidate choice in
    MkSelection (co_Source c) (command_path_key (co_Path c)) (co_Priority c) (cch_available choice)
      (bool_decide (co_Source c = co_Source (cch_candidate selected)) &&
       bool_decide (co_Path c = co_Path (cch_candidate selected))) in
  let candidates := selection <$> choices in
  let same := match choices with
              | [] => false
              | c :: _ => bool_decide (co_Source (cch_candidate c) = co_Source (cch_candidate selected))
              end in
  MkExplanation id "command" (command_path_key path) (reason_of (cch_available selected) same)
    (selected_of candidates (selection selected)) candidates.

Definition explanation_le (a b : RouteExplanation) : Prop :=
  (if negb (String.eqb (re_Kind a) (re_Kind b)) then str_leb (re_Kind a) (re_Kind b)
   else str_leb (re_Path a) (re_Path b)) = true.
#[export] Instance explanation_le_dec : RelDecision explanation_le.
Proof. intros a b. unfold explanation_le. apply _. Defined.

(** ** The composition *)

Definition with_pd_ID (d : PropertyDefinition) (id : string) : PropertyDefinition :=
  MkPropertyDefinition id (pd_Name d) (pd_Type d) (pd_ParameterLevel d) (pd_Unit d) (pd_Readable d)
    (pd_Writable d) (pd_Notifiable d) (pd_Min d) (pd_Max d) (pd_Step d) (pd_Enum d)
    (pd_StaleAfterSeconds d).
Definition with_cd_ID (c : CommandDefinition) (id : string) : CommandDefinition :=
  MkCommandDefinition id (cd_Name c) (cd_Idempotent c) (cd_Parameters c).

Definition zero_device : Device :=
  MkDevice 0 "" "" "" "" false "" "" "" "" "" "" "" "" "" "" (AvailabilityOther "") false 0
    false false (RuntimeModeOther "") (StateTransportOther "") "" [] zero_time.

(** What the loop over the bindings gathers. *)
Record gathering := MkGathering {
  g_present : gmap string Device;
  g_online : Z;
  g_unknown : Z;
  g_lastUpdate : Time;
  g_location : Device;
}.

Definition gather (config : LogicalConfig) (sources : gmap string Device) (g : gathering)
    (b : Binding) : gathering :=
  let missing := MkGathering (g_present g) (g_online g) (g_unknown g + 1) (g_lastUpdate g)
                   (g_location g) in
  match sources !! source_key (b_Source b) with
  | None => missing
  | Some item =>
      if negb (String.eqb (d_Type item) (l_Type config)) then missing
      else
        MkGathering (<[source_key (b_Source b) := item]> (g_present g))
          (match EffectiveAvailability item with
           | AvailabilityOnline => g_online g + 1 | _ => g_online g end)
          (match EffectiveAvailability item with
           | AvailabilityUnknown => g_unknown g + 1 | _ => g_unknown g end)
          (if After (d_LastUpdateAt item) (g_lastUpdate g) then d_LastUpdateAt item
           else g_lastUpdate g)
          (if is_empty (d_ID (g_location g)) then item else g_location g)
  end.

Definition gather_all (config : LogicalConfig) (sources : gmap string Device)
    (bindings : list Binding) : gathering :=
  foldl (gather config sources) (MkGathering ∅ 0 0 zero_time zero_device) bindings.

(** The header of the composed device. *)
Definition composed_device (config : LogicalConfig) (now : Time) (g : gathering)
    (endpoints : list Endpoint) : Device :=
  let availability := if 0 <? g_online g then AvailabilityOnline
                      else if 0 <? g_unknown g then AvailabilityUnknown
                      else AvailabilityOffline in
  let location := g_location g in
  MkDevice SchemaVersion (l_ID config) ProviderID (l_Name config) "" false (l_Type config)
    (d_HomeID location) (d_HomeName location) (d_RoomID location) (d_RoomName location)
    (d_LocationMode location) (d_SourceHomeID location) (d_SourceHomeName location)
    (d_SourceRoomID location) (d_SourceRoomName location)
    availability (is_online availability) 0 false false
    (RuntimeModeOther "") (StateTransportOther "") "" endpoints
    (if IsZero (g_lastUpdate g) then now else g_lastUpdate g).

Definition compose_property (config : LogicalConfig) (present : gmap string Device)
    (bindings : list Binding) (acc : list Endpoint * list RouteExplanation) (path : PropertyPath)
    : list Endpoint * list RouteExplanation :=
  let '(endpoints, explanations) := acc in
  let choices := propertyChoices config path present bindings in
  match selectPropertyChoice choices with
  | None => (endpoints, explanations)
  | Some selected =>
      let property := with_p_Definition (pch_property selected)
        (with_pd_ID (p_Definition (pch_property selected)) (lp_PropertyID path)) in
      (addLogicalProperty endpoints path (pch_endpoint selected) (pch_capability selected) property,
       if (1 <? length choices)%nat
       then explanations ++ [explainProperty (l_ID config) path choices selected] else explanations)
  end.

Definition compose_command (config : LogicalConfig) (present : gmap string Device)
    (bindings : list Binding) (acc : list Endpoint * list RouteExplanation) (path : CommandPath)
    : list Endpoint * list RouteExplanation :=
  let '(endpoints, explanations) := acc in
  let choices := commandChoices config path present bindings in
  match selectCommandChoice choices with
  | None => (endpoints, explanations)
  | Some selected =>
      let command := with_cd_ID (cch_command selected) (lc_CommandID path) in
      (addLogicalCommand endpoints path command,
       if (1 <? length choices)%nat
       then explanations ++ [explainCommand (l_ID config) path choices selected] else explanations)
  end.

Definition composeLogicalSnapshot (ord : gmap string Device -> list string) (now : Time)
    (config : LogicalConfig) (sources : gmap string Device)
    : option (Device * list RouteExplanation) :=
  let bindings := SortBindings (l_Bindings config) in
  let g := gather_all config sources bindings in
  let present := g_present g in
  if (size present =? 0)%nat then None
  else
    let properties := logicalPropertyPaths ord config present in
    let acc := foldl (compose_property config present bindings) ([], []) properties in
    let commands := logicalCommandPaths ord config present in
    let '(endpoints, explanations) :=
      foldl (compose_command config present bindings) acc commands in
    let item := composed_device config now g endpoints in
    match ValidateStructure item with
    | Err _ => None
    | Ok _ => Some (item, merge_sort explanation_le explanations)
    end.

(** ** What the composition promises *)

(** The bound source [s], when it is known and of the type of the logical device. *)
Definition visible (config : LogicalConfig) (sources : gmap string Device) (s : SourceRef)
    : option Device :=
  if bool_decide (s ∈ b_Source <$> l_Bindings config)
  then d ← sources !! source_key s; if String.eqb (d_Type d) (l_Type config) then Some d else None
  else None.

(** The first of the online ones, or else the first. *)
Definition preferred {A} (l : list (bool * A)) : option A :=
  match first (fun x => if x.1 : bool then Some x.2 else None) l with
  | Some a => Some a
  | None => snd <$> head l
  end.

(** Every ranked candidate the visible sources offer, and whether its source is online. *)
Definition property_offers (config : LogicalConfig) (sources : gmap string Device)
    (path : PropertyPath) : list (bool * Property) :=
  omap (fun c => d ← visible config sources (pc_Source c);
                 x ← PropertyAt d (lp_EndpointID (pc_Path c)) (lp_CapabilityID (pc_Path c))
                       (lp_PropertyID (pc_Path c));
                 Some (IsOnline d, x))
    (propertyCandidates config path (SortBindings (l_Bindings config))).
Definition command_offers (config : LogicalConfig) (sources : gmap string Device)
    (path : CommandPath) : list (bool * CommandDefinition) :=
  omap (fun c => d ← visible config sources (co_Source c);
                 x ← sourceCommand d (co_Path c); Some (IsOnline d, x))
    (commandCandidates config path (SortBindings (l_Bindings config))).

Definition rename_property (id : string) (p : Property) : Property :=
  with_p_Definition p (with_pd_ID (p_Definition p) id).

Definition valid_sources (sources : gmap string Device) : Prop :=
  forall k d, sources !! k = Some d -> ValidateStructure d = Ok tt.

Lemma update_first_same {A} (id : A -> string) (P : A -> Prop) i f l l' :
  (forall x, id x = i -> id (f x) = i) -> (forall x, id x = i -> P x -> P (f x)) ->
  update_first (fun x => if String.eqb (id x) i then Some (f x) else None) l = Some l' ->
  id <$> l' = id <$> l /\ (Forall P l -> Forall P l').
Proof.
  intros Hid HP. revert l'. induction l as [|x l IH]; intros l'; simpl; [done|].
  destruct (String.eqb_spec (id x) i) as [E|E]; simpl.
  - intros [= <-]. rewrite fmap_cons, (Hid x E), E. split; [done|].
    intros [Hx Hl]%Forall_cons. constructor; auto.
  - destruct (update_first _ l) as [l0|]; simpl; [|done]. intros [= <-].
    destruct (IH l0 eq_refl) as [E' H]. rewrite !fmap_cons, E'. split; [done|].
    intros [Hx Hl]%Forall_cons. constructor; auto.
Qed.

Lemma claims_snoc {A} (id : A -> string) P l x :
  claims id P l -> ValidStableID (id x) = true -> P x -> id x ∉ id <$> l -> claims id P (l ++ [x]).
Proof.
  intros [Hnd HF] Hv HP Hn. split.
  - rewrite fmap_app, NoDup_app. split_and!; [done|set_solver|apply NoDup_singleton].
  - apply Forall_app. split; [done|]. by constructor.
Qed.

Lemma upsert_claims {A} (id : A -> string) (P : A -> Prop) i fresh f l :
  ValidStableID i = true -> id fresh = i -> P fresh -> (forall x, id x = i -> id (f x) = i) ->
  (forall x, id x = i -> P x -> P (f x)) ->
  claims id P l -> claims id P (upsert id i fresh f l).
Proof.
  intros Hv Hi Hfresh Hid HP Hl. unfold upsert.
  pose proof (find_by_update id i i f l Hid) as Hn.
  destruct (update_first _ l) as [l'|] eqn:E.
  - destruct (update_first_same id (fun x => ValidStableID (id x) = true /\ P x) i f l l' Hid)
      as [E' HF]; [|done|].
    + intros x Hx [? ?]. split; [by rewrite Hid|auto].
    + destruct Hl as [Hnd Hl]. split; [by rewrite E'|auto].
  - apply claims_snoc; [done|by rewrite Hid|auto|]. rewrite Hid by done. by apply find_by_none in Hn.
Qed.

Lemma add_unique_claims {A} (id : A -> string) P x l :
  ValidStableID (id x) = true -> P x -> claims id P l -> claims id P (add_unique id x l).
Proof.
  intros Hv HP Hl. unfold add_unique. destruct (existsb _ l) eqn:E; [done|].
  apply claims_snoc; try done. intros (y & Ey & Hy)%list_elem_of_fmap.
  assert (existsb (fun existing => String.eqb (id existing) (id x)) l = true); [|congruence].
  apply existsb_exists. exists y. split; [by apply list_elem_of_In|]. apply String.eqb_eq. congruence.
Qed.

(** ** Lookups in a tree of endpoints *)

Definition capability_at (l : list Endpoint) (e c : string) : option Capability :=
  x ← find_by ep_ID e l; find_by cap_ID c (ep_Capabilities x).
Definition look_property (l : list Endpoint) (q : PropertyPath) : option Property :=
  c ← capability_at l (lp_EndpointID q) (lp_CapabilityID q);
  find_by property_id (lp_PropertyID q) (cap_Properties c).
Definition look_command (l : list Endpoint) (q : CommandPath) : option CommandDefinition :=
  c ← capability_at l (lc_EndpointID q) (lc_CapabilityID q);
  find_by cd_ID (lc_CommandID q) (cap_Commands c).

(** Distinct endpoints, and distinct capabilities in each. *)
Definition tree_ok (l : list Endpoint) : Prop :=
  NoDup (ep_ID <$> l) /\ forall e, e ∈ l -> NoDup (cap_ID <$> ep_Capabilities e).

Lemma structure_tree d : structure_ok d -> tree_ok (d_Endpoints d).
Proof.
  intros [Hnd HF]%so_endpoints. split; [done|].
  intros e He. rewrite Forall_forall in HF. apply (HF e He).
Qed.

Lemma tree_first {B} (f : Capability -> option B) l e c : tree_ok l ->
  first (fun x => if String.eqb (ep_ID x) e
    then first (fun y => if String.eqb (cap_ID y) c then f y else None) (ep_Capabilities x)
    else None) l = capability_at l e c ≫= f.
Proof.
  intros [Hnd Hc]. rewrite (first_under ep_ID (fun x =>
    first (fun y => if String.eqb (cap_ID y) c then f y else None) (ep_Capabilities x))) by done.
  unfold capability_at. destruct (find_by ep_ID e l) as [x|] eqn:E; simpl; [|done].
  apply first_under, Hc. by apply find_by_some in E as [? _].
Qed.

Lemma first_ext {A B} (f g : A -> option B) l : (forall x, f x = g x) -> first f l = first g l.
Proof. intros H. induction l as [|x l IH]; simpl; [done|]. by rewrite H, IH. Qed.

Lemma PropertyAt_look d q : tree_ok (d_Endpoints d) ->
  PropertyAt d (lp_EndpointID q) (lp_CapabilityID q) (lp_PropertyID q) =
  look_property (d_Endpoints d) q.
Proof.
  intros Ht. apply (tree_first (fun c => find_by property_id (lp_PropertyID q) (cap_Properties c))), Ht.
Qed.

Lemma negb_if {A} (b : bool) (x y : A) : (if negb b then x else y) = if b then y else x.
Proof. by destruct b. Qed.

Lemma sourceCommand_look d q : tree_ok (d_Endpoints d) ->
  sourceCommand d q = look_command (d_Endpoints d) q.
Proof.
  intros Ht. unfold look_command. rewrite <- tree_first by done. apply first_ext. intros e.
  rewrite negb_if. destruct (String.eqb _ _); [|done]. apply first_ext. intros c. apply negb_if.
Qed.

(** What [sourceProperty] returns besides the property. *)
Lemma sourceProperty_look d q : tree_ok (d_Endpoints d) ->
  (fun x => x.1.1) <$> sourceProperty d q = look_property (d_Endpoints d) q.
Proof.
  intros [Hnd Hc]. unfold look_property, capability_at, sourceProperty.
  rewrite (first_ext _ (fun e => if String.eqb (ep_ID e) (lp_EndpointID q) then
    first (fun c => if String.eqb (cap_ID c) (lp_CapabilityID q)
                    then property_of e c (lp_PropertyID q) else None) (ep_Capabilities e) else None)).
  2: { intros e. rewrite negb_if. destruct (String.eqb _ _); [|done]. apply first_ext. intros c.
       apply negb_if. }
  rewrite (first_under ep_ID (fun e => first (fun c => if String.eqb (cap_ID c) (lp_CapabilityID q)
    then property_of e c (lp_PropertyID q) else None) (ep_Capabilities e))) by done.
  destruct (find_by ep_ID _ _) as [e|] eqn:E; simpl; [|done].
  rewrite (first_under cap_ID (fun c => property_of e c (lp_PropertyID q)))
    by (apply Hc; by apply find_by_some in E as [? _]).
  destruct (find_by cap_ID _ _) as [c|]; simpl; [|done]. unfold property_of, find_by.
  generalize (cap_Properties c). intros l. induction l as [|p l IH]; simpl; [done|].
  by destruct (String.eqb _ _).
Qed.

(** ** Adding one property or command *)

Definition fresh_capability (c kind : string) : Capability := MkCapability c kind [] [] [].

Lemma capability_at_add l e name kind c kc f e' c' : (forall x, cap_ID x = c -> cap_ID (f x) = c) ->
  capability_at (logicalEndpoint e name kind (logicalCapability c kc f) l) e' c' =
    if bool_decide (e' = e /\ c' = c)
    then Some (f (default (fresh_capability c kc) (capability_at l e c)))
    else capability_at l e' c'.
Proof.
  intros Hf. unfold capability_at, logicalEndpoint.
  rewrite find_by_upsert by (done || by intros x ?). case_bool_decide as He.
  - subst e'. cbn [mbind option_bind]. unfold logicalCapability. cbn [with_Capabilities ep_Capabilities].
    rewrite find_by_upsert by done.
    assert (Hd : forall c0, find_by cap_ID c0 (ep_Capabilities (default (MkEndpoint e name kind [])
        (find_by ep_ID e l))) = x ← find_by ep_ID e l; find_by cap_ID c0 (ep_Capabilities x)).
    { intros c0. by destruct (find_by ep_ID e l). }
    rewrite !Hd. case_bool_decide as Hc.
    + rewrite bool_decide_eq_true_2 by done. done.
    + rewrite bool_decide_eq_false_2 by tauto. done.
  - rewrite bool_decide_eq_false_2 by tauto. done.
Qed.

Lemma look_property_add l path e c p q : property_id p = lp_PropertyID path ->
  look_property (addLogicalProperty l path e c p) q =
    if bool_decide (q = path) then Some (default p (look_property l path)) else look_property l q.
Proof.
  intros Hp. unfold look_property, addLogicalProperty. rewrite capability_at_add by done.
  destruct path as [pe pc pp], q as [qe qc qp]; simpl in *.
  destruct (decide (qe = pe /\ qc = pc)) as [[-> ->]|Hn].
  - rewrite bool_decide_eq_true_2 by done. cbn [mbind option_bind].
    cbn [with_Properties cap_Properties]. rewrite find_by_add, Hp. subst pp.
    destruct (decide (qp = property_id p)) as [->|Hq].
    + rewrite !bool_decide_eq_true_2 by done. by destruct (capability_at l pe pc).
    + rewrite !bool_decide_eq_false_2 by (done || by intros [= ?]). by destruct (capability_at l pe pc).
  - rewrite !bool_decide_eq_false_2; [done|intros [= ? ?]; tauto|tauto].
Qed.

Lemma look_command_add_property l path e c p q :
  look_command (addLogicalProperty l path e c p) q = look_command l q.
Proof.
  unfold look_command, addLogicalProperty. rewrite capability_at_add by done.
  case_bool_decide as H; [|done]. destruct H as [-> ->]. simpl.
  by destruct (capability_at l _ _).
Qed.

Lemma look_command_add l path x q : cd_ID x = lc_CommandID path ->
  look_command (addLogicalCommand l path x) q =
    if bool_decide (q = path) then Some (default x (look_command l path)) else look_command l q.
Proof.
  intros Hp. unfold look_command, addLogicalCommand. rewrite capability_at_add by done.
  destruct path as [pe pc pp], q as [qe qc qp]; simpl in *.
  destruct (decide (qe = pe /\ qc = pc)) as [[-> ->]|Hn].
  - rewrite bool_decide_eq_true_2 by done. cbn [mbind option_bind].
    cbn [with_Commands cap_Commands]. rewrite find_by_add, Hp. subst pp.
    destruct (decide (qp = cd_ID x)) as [->|Hq].
    + rewrite !bool_decide_eq_true_2 by done. by destruct (capability_at l pe pc).
    + rewrite !bool_decide_eq_false_2 by (done || by intros [= ?]). by destruct (capability_at l pe pc).
  - rewrite !bool_decide_eq_false_2; [done|intros [= ? ?]; tauto|tauto].
Qed.

Lemma look_property_add_command l path x q :
  look_property (addLogicalCommand l path x) q = look_property l q.
Proof.
  unfold look_property, addLogicalCommand. rewrite capability_at_add by done.
  case_bool_decide as H; [|done]. destruct H as [-> ->]. simpl.
  by destruct (capability_at l _ _).
Qed.

(** The endpoints of a composed device: well formed, without events. *)
Definition composed_capability (c : Capability) : Prop := capability_ok c /\ cap_Events c = [].
Definition composed_endpoint (e : Endpoint) : Prop :=
  claims cap_ID composed_capability (ep_Capabilities e).
Definition composed_endpoints (l : list Endpoint) : Prop := claims ep_ID composed_endpoint l.

Lemma claims_impl {A} (id : A -> string) (P Q : A -> Prop) l :
  (forall x, P x -> Q x) -> claims id P l -> claims id Q l.
Proof.
  intros H [? HF]. split; [done|]. eapply Forall_impl; [exact HF|]. intros x [? ?]. auto.
Qed.

Lemma claims_nil {A} (id : A -> string) P : claims id P [].
Proof. split; constructor. Qed.

Lemma composed_endpoints_ok l : composed_endpoints l -> claims ep_ID endpoint_ok l.
Proof. apply claims_impl. intros e. apply claims_impl. by intros c []. Qed.

Lemma composed_add l e name kind c kc f :
  ValidStableID e = true -> ValidStableID c = true -> (forall x, cap_ID x = c -> cap_ID (f x) = c) ->
  (forall x, composed_capability x -> composed_capability (f x)) ->
  composed_endpoints l ->
  composed_endpoints (logicalEndpoint e name kind (logicalCapability c kc f) l).
Proof.
  intros He Hc Hf HP. apply upsert_claims; [done|done|apply claims_nil|done|].
  intros x _. unfold composed_endpoint, logicalCapability. cbn [with_Capabilities ep_Capabilities].
  apply upsert_claims; [done|done| |done|auto]. unfold composed_capability, capability_ok. simpl.
  split_and!; try apply claims_nil; [set_solver|done].
Qed.

Lemma composed_add_property l path e c p :
  property_path_ok path -> property_id p = lp_PropertyID path -> property_ok p ->
  composed_endpoints l -> composed_endpoints (addLogicalProperty l path e c p).
Proof.
  intros (? & ? & ?) Hid Hp. apply composed_add; [done..|].
  intros x [(Hps & Hrest) Hev]. split; [|done]. split; [|done].
  apply (add_unique_claims property_id); [by rewrite Hid|done|done].
Qed.

Lemma composed_add_command l path x :
  command_path_ok path -> cd_ID x = lc_CommandID path -> command_ok x ->
  composed_endpoints l -> composed_endpoints (addLogicalCommand l path x).
Proof.
  intros (? & ? & ?) Hid Hp. apply composed_add; [done..|].
  intros c [(Hps & Hcs & Hes & Hdis) Hev]. split; [|done]. split_and!; [done| |done|].
  - apply add_unique_claims; [by rewrite Hid|done|done].
  - cbn [with_Commands cap_Events]. rewrite Hev. set_solver.
Qed.

(** ** The set of paths *)

Lemma put_paths_app {P} (key : P -> string) l1 l2 m :
  put_paths key l2 (put_paths key l1 m) = put_paths key (l1 ++ l2) m.
Proof. symmetry. apply foldl_app. Qed.

Lemma put_paths_lookup {P} (key : P -> string) l m k p :
  put_paths key l m !! k = Some p -> (p ∈ l /\ key p = k) \/ m !! k = Some p.
Proof.
  revert m. induction l as [|x l IH]; intros m; [by right|]. cbn [put_paths foldl].
  intros [[? ?]|H]%IH; [left; split; [by right|done]|].
  destruct (decide (key x = k)) as [<-|].
  - rewrite lookup_insert_eq in H. injection H as <-. left. split; [left|done].
  - rewrite lookup_insert_ne in H by done. by right.
Qed.

Lemma put_paths_some {P} (key : P -> string) l m k :
  k ∈ key <$> l \/ is_Some (m !! k) -> is_Some (put_paths key l m !! k).
Proof.
  revert m. induction l as [|x l IH]; intros m; cbn [put_paths foldl]; [set_solver|].
  rewrite fmap_cons, elem_of_cons. intros H. apply IH.
  destruct (decide (key x = k)) as [<-|].
  - right. rewrite lookup_insert_eq. by eexists.
  - rewrite lookup_insert_ne by done. destruct H as [[->|?]|?]; [done|by left|by right].
Qed.

Lemma elem_of_sorted_paths {P} (key : P -> string) l p :
  (forall x y, x ∈ l -> y ∈ l -> key x = key y -> x = y) ->
  p ∈ sorted_paths key (put_paths key l ∅) <-> p ∈ l.
Proof.
  intros Hinj. unfold sorted_paths. rewrite merge_sort_Permutation, list_elem_of_fmap.
  assert (Hin : forall k x, put_paths key l ∅ !! k = Some x -> x ∈ l /\ key x = k).
  { intros k x [?|Hx]%put_paths_lookup; [done|by rewrite lookup_empty in Hx]. }
  split.
  - intros ([k x] & -> & Hx%elem_of_map_to_list). by apply Hin in Hx as [? _].
  - intros Hp. destruct (put_paths_some key l ∅ (key p)) as [x Hx].
    { left. by apply list_elem_of_fmap_2. }
    exists (key p, x). split; [|by apply elem_of_map_to_list].
    apply Hin in Hx as [Hx E]. simpl. symmetry. by apply Hinj.
Qed.

(** The paths of the routes, and those the present sources offer where [Q] holds. *)
Lemma elem_of_offered {P} (key : P -> string) (pok Q : P -> Prop) `{forall p, Decision (Q p)}
    routes (paths : Device -> list P) (present : gmap string Device) ks q :
  (forall p p', pok p -> pok p' -> key p = key p' <-> p = p') -> range_of present ks ->
  (forall p, p ∈ routes -> pok p) ->
  (forall k d p, present !! k = Some d -> p ∈ paths d -> pok p) ->
  q ∈ sorted_paths key (put_paths key (filter Q (omap (fun k => present !! k) ks ≫= paths))
                          (put_paths key routes ∅)) <->
  q ∈ routes \/ (Q q /\ exists k d, present !! k = Some d /\ q ∈ paths d).
Proof.
  intros Hinj Hks Hr Hp. rewrite put_paths_app.
  assert (Ho : forall p, p ∈ omap (fun k => present !! k) ks ≫= paths <->
    exists k d, present !! k = Some d /\ p ∈ paths d).
  { intros p. rewrite list_elem_of_bind. split.
    - intros (d & Hpd & (k & _ & Hk)%list_elem_of_omap). eauto.
    - intros (k & d & Hk & Hpd). exists d. split; [done|]. apply list_elem_of_omap.
      exists k. split; [|done]. rewrite (range_of_dom _ _ _ Hks), Hk. by eexists. }
  rewrite elem_of_sorted_paths.
  { by rewrite elem_of_app, list_elem_of_filter, Ho. }
  assert (Hok : forall p, p ∈ routes ++ filter Q (omap (fun k => present !! k) ks ≫= paths) -> pok p).
  { intros p [?|[_ (k & d & ? & ?)%Ho]%list_elem_of_filter]%elem_of_app; eauto. }
  intros x y Hx Hy. apply Hinj; auto.
Qed.

Lemma elem_of_property_paths d q : q ∈ device_property_paths d <->
  exists e c p, e ∈ d_Endpoints d /\ c ∈ ep_Capabilities e /\ p ∈ cap_Properties c /\
    q = MkPropertyPath (ep_ID e) (cap_ID c) (property_id p).
Proof.
  unfold device_property_paths. rewrite list_elem_of_bind. split.
  - intros (e & (c & (p & Hq & Hp)%list_elem_of_bind & Hc)%list_elem_of_bind & He).
    exists e, c, p. by rewrite list_elem_of_singleton in Hq.
  - intros (e & c & p & He & Hc & Hp & ->). exists e. split; [|done].
    apply list_elem_of_bind. exists c. split; [|done].
    apply list_elem_of_bind. exists p. split; [by left|done].
Qed.

Lemma elem_of_command_paths d q : q ∈ device_command_paths d <->
  exists e c x, e ∈ d_Endpoints d /\ c ∈ ep_Capabilities e /\ x ∈ cap_Commands c /\
    q = MkCommandPath (ep_ID e) (cap_ID c) (cd_ID x).
Proof.
  unfold device_command_paths. rewrite list_elem_of_bind. split.
  - intros (e & (c & (p & Hq & Hp)%list_elem_of_bind & Hc)%list_elem_of_bind & He).
    exists e, c, p. by rewrite list_elem_of_singleton in Hq.
  - intros (e & c & p & He & Hc & Hp & ->). exists e. split; [|done].
    apply list_elem_of_bind. exists c. split; [|done].
    apply list_elem_of_bind. exists p. split; [by left|done].
Qed.

Lemma claims_elem {A} (id : A -> string) P l x :
  claims id P l -> x ∈ l -> ValidStableID (id x) = true /\ P x.
Proof. intros [_ HF] Hx. rewrite Forall_forall in HF. by apply HF. Qed.

(** What a valid device publishes under a path. *)
Lemma device_property_ok d e c p : structure_ok d ->
  e ∈ d_Endpoints d -> c ∈ ep_Capabilities e -> p ∈ cap_Properties c ->
  property_path_ok (MkPropertyPath (ep_ID e) (cap_ID c) (property_id p)) /\ property_ok p.
Proof.
  intros Hd He Hc Hp. destruct (claims_elem _ _ _ _ (so_endpoints d Hd) He) as [? Hcs].
  destruct (claims_elem _ _ _ _ Hcs Hc) as [? [Hps _]].
  by destruct (claims_elem _ _ _ _ Hps Hp) as [? ?].
Qed.

Lemma device_command_ok d e c x : structure_ok d ->
  e ∈ d_Endpoints d -> c ∈ ep_Capabilities e -> x ∈ cap_Commands c ->
  command_path_ok (MkCommandPath (ep_ID e) (cap_ID c) (cd_ID x)) /\ command_ok x.
Proof.
  intros Hd He Hc Hp. destruct (claims_elem _ _ _ _ (so_endpoints d Hd) He) as [? Hcs].
  destruct (claims_elem _ _ _ _ Hcs Hc) as [? [_ [Hps _]]].
  by destruct (claims_elem _ _ _ _ Hps Hp) as [? ?].
Qed.

(** What a lookup finds is there. *)
Lemma look_property_elem l q p : look_property l q = Some p -> exists e c,
  e ∈ l /\ c ∈ ep_Capabilities e /\ p ∈ cap_Properties c /\
  q = MkPropertyPath (ep_ID e) (cap_ID c) (property_id p).
Proof.
  unfold look_property, capability_at. destruct (find_by ep_ID _ _) as [e|] eqn:E1; [simpl|done].
  destruct (find_by cap_ID _ _) as [c|] eqn:E2; [simpl|done]. intros E3.
  apply find_by_some in E1 as [? ?], E2 as [? ?], E3 as [? ?]. exists e, c.
  split_and!; [done..|]. destruct q; simpl in *; congruence.
Qed.

Lemma look_command_elem l q x : look_command l q = Some x -> exists e c,
  e ∈ l /\ c ∈ ep_Capabilities e /\ x ∈ cap_Commands c /\
  q = MkCommandPath (ep_ID e) (cap_ID c) (cd_ID x).
Proof.
  unfold look_command, capability_at. destruct (find_by ep_ID _ _) as [e|] eqn:E1; [simpl|done].
  destruct (find_by cap_ID _ _) as [c|] eqn:E2; [simpl|done]. intros E3.
  apply find_by_some in E1 as [? ?], E2 as [? ?], E3 as [? ?]. exists e, c.
  split_and!; [done..|]. destruct q; simpl in *; congruence.
Qed.

(** ** The loop over the bindings *)

Definition of_type (config : LogicalConfig) (d : Device) : option Device :=
  if String.eqb (d_Type d) (l_Type config) then Some d else None.

(** A counter that only grows is positive exactly when something was counted. *)
Lemma count_positive {A G} (step : G -> A -> G) (count : G -> Z) (hit : A -> Prop)
    (Hstep : forall g a, (hit a /\ count (step g a) = count g + 1) \/
                         (~ hit a /\ count (step g a) = count g)) l g :
  0 <= count g -> 0 < count (foldl step g l) <-> 0 < count g \/ exists a, a ∈ l /\ hit a.
Proof.
  revert g. induction l as [|a l IH]; intros g Hg; simpl.
  { split; [by left|]. intros [?|(a & Ha & _)]; [done|]. by apply not_elem_of_nil in Ha. }
  setoid_rewrite elem_of_cons. destruct (Hstep g a) as [[Ha Hc]|[Ha Hc]]; rewrite IH by lia.
  - split; [right; eauto|left; lia].
  - rewrite Hc. naive_solver.
Qed.

Lemma effective_cases d : EffectiveAvailability d = AvailabilityOnline \/
  EffectiveAvailability d = AvailabilityOffline \/ EffectiveAvailability d = AvailabilityUnknown.
Proof.
  unfold EffectiveAvailability. destruct (d_Availability d); auto. destruct (d_Online d); auto.
Qed.

Section gather.
Context (config : LogicalConfig) (sources : gmap string Device).

Let found (b : Binding) : option Device := sources !! source_key (b_Source b) ≫= of_type config.

Lemma gather_found g b :
  gather config sources g b =
  match found b with
  | None => MkGathering (g_present g) (g_online g) (g_unknown g + 1) (g_lastUpdate g) (g_location g)
  | Some item =>
      MkGathering (<[source_key (b_Source b) := item]> (g_present g))
        (match EffectiveAvailability item with
         | AvailabilityOnline => g_online g + 1 | _ => g_online g end)
        (match EffectiveAvailability item with
         | AvailabilityUnknown => g_unknown g + 1 | _ => g_unknown g end)
        (if After (d_LastUpdateAt item) (g_lastUpdate g) then d_LastUpdateAt item
         else g_lastUpdate g)
        (if is_empty (d_ID (g_location g)) then item else g_location g)
  end.
Proof.
  unfold gather, found, of_type. destruct (sources !! _) as [d|]; simpl; [|done].
  by destruct (String.eqb _ _).
Qed.

Lemma gather_present l g k :
  g_present (foldl (gather config sources) g l) !! k =
    match (if bool_decide (k ∈ (fun b => source_key (b_Source b)) <$> l)
           then sources !! k ≫= of_type config else None) with
    | Some d => Some d
    | None => g_present g !! k
    end.
Proof.
  revert g. induction l as [|b l IH]; intros g; [done|].
  cbn [foldl]. rewrite IH, gather_found, fmap_cons. unfold found.
  destruct (decide (k = source_key (b_Source b))) as [->|Hne].
  - rewrite (bool_decide_eq_true_2 (_ ∈ _ :: _)) by left.
    destruct (sources !! _ ≫= of_type config) as [d|] eqn:E; simpl.
    + case_bool_decide; [done|]. by rewrite lookup_insert_eq.
    + by case_bool_decide.
  - assert (bool_decide (k ∈ source_key (b_Source b) :: ((fun b => source_key (b_Source b)) <$> l)) =
      bool_decide (k ∈ (fun b => source_key (b_Source b)) <$> l)) as ->
      by (apply bool_decide_ext; rewrite elem_of_cons; tauto).
    destruct (if bool_decide _ then _ else _); [done|].
    destruct (sources !! source_key (b_Source b) ≫= of_type config); simpl; [|done].
    by rewrite lookup_insert_ne.
Qed.

Lemma gather_online l g : 0 <= g_online g ->
  0 < g_online (foldl (gather config sources) g l) <->
  0 < g_online g \/ exists b, b ∈ l /\ exists d, found b = Some d /\ IsOnline d = true.
Proof.
  apply count_positive. intros g0 b. rewrite gather_found. unfold IsOnline.
  destruct (found b) as [d|]; simpl; [|right; naive_solver].
  destruct (EffectiveAvailability d) eqn:E; simpl; [left|right..]; (split; [|done]).
  1: exists d; by rewrite E.
  all: intros (d' & [= <-] & Hd); by rewrite E in Hd.
Qed.

Lemma gather_unknown l g : 0 <= g_unknown g ->
  0 < g_unknown (foldl (gather config sources) g l) <->
  0 < g_unknown g \/ exists b, b ∈ l /\
    forall d, found b = Some d -> EffectiveAvailability d = AvailabilityUnknown.
Proof.
  apply count_positive. intros g0 b. rewrite gather_found.
  destruct (found b) as [d|]; simpl; [|left; naive_solver].
  destruct (EffectiveAvailability d) eqn:E; simpl; [right|right|left|right]; (split; [|done]).
  3: by intros d' [= <-].
  all: intros H; specialize (H d eq_refl); by rewrite E in H.
Qed.
End gather.

(** ** Routing *)

Lemma omap_pointwise {A B} (f g : A -> option B) (l : list A) : (forall x, f x = g x) -> omap f l = omap g l.
Proof. intros H. apply list_omap_ext, Forall_Forall2_diag, Forall_true, H. Qed.

Lemma preferred_fmap {A B} (available : A -> bool) (g : A -> B) l :
  g <$> (match first (fun x => if available x then Some x else None) l with
         | Some x => Some x
         | None => head l
         end) = preferred ((fun x => (available x, g x)) <$> l).
Proof.
  unfold preferred.
  assert (first (fun x => if x.1 : bool then Some x.2 else None) ((fun x => (available x, g x)) <$> l) =
    g <$> first (fun x => if available x then Some x else None) l) as ->.
  { induction l as [|x l IH]; [done|]. rewrite fmap_cons. cbn [first fst snd].
    by destruct (available x). }
  destruct (first _ l); [done|]. by destruct l.
Qed.

Lemma rename_property_ok id p : property_ok p -> property_ok (rename_property id p).
Proof.
  destruct p as [d v t]. intros (Ht & [] & Ha). split_and!; [done|by constructor|].
  simpl in *. destruct Ha; by constructor.
Qed.

Section compose.
Context (ord : gmap string Device -> list string) (config : LogicalConfig)
  (sources : gmap string Device).
Context (Hord : forall m, range_of m (ord m)) (Hconfig : logical_ok config)
  (Hsources : valid_sources sources).

Let bindings := SortBindings (l_Bindings config).
Let present := g_present (gather_all config sources bindings).

Lemma bindings_perm : bindings ≡ₚ l_Bindings config.
Proof using. apply merge_sort_Permutation. Qed.

Lemma present_visible s : present !! source_key s = visible config sources s.
Proof using Hconfig.
  unfold present, gather_all. rewrite gather_present. cbn [g_present]. rewrite lookup_empty.
  unfold visible, of_type.
  assert (bool_decide (source_key s ∈ (fun b => source_key (b_Source b)) <$> bindings) =
    bool_decide (s ∈ b_Source <$> l_Bindings config)) as ->.
  { apply bool_decide_ext. rewrite bindings_perm, !list_elem_of_fmap. split.
    - intros (b & E & Hb). exists b. split; [|done].
      apply source_key_inj in E; [done|]. apply (lo_bindings config Hconfig b Hb).
    - intros (b & -> & Hb). by exists b. }
  case_bool_decide; [|done]. destruct (sources !! source_key s) as [d|]; simpl; [|done].
  by destruct (String.eqb _ _).
Qed.

Lemma present_source k d : present !! k = Some d -> sources !! k = Some d /\ structure_ok d.
Proof using Hsources.
  unfold present, gather_all. rewrite gather_present. cbn [g_present]. rewrite lookup_empty.
  case_bool_decide; [|done]. destruct (sources !! k) as [d'|] eqn:E; simpl; [|done].
  unfold of_type. destruct (String.eqb _ _); [|done]. intros [= ->]. split; [done|].
  by eapply validate_structure_ok, Hsources.
Qed.

Lemma visible_ok s d : visible config sources s = Some d -> structure_ok d.
Proof using Hsources Hconfig. rewrite <- present_visible. apply present_source. Qed.

Lemma property_paths_ok q :
  q ∈ logicalPropertyPaths ord config present <->
  q ∈ prr_Path <$> l_PropertyRoutes config \/
  (explicitPropertyRoute config q = None /\
   exists k d, present !! k = Some d /\ q ∈ device_property_paths d).
Proof using All.
  apply (elem_of_offered _ property_path_ok); [apply property_path_key_inj|apply Hord|..].
  - intros p (r & -> & Hr)%list_elem_of_fmap. apply (lo_property_routes config Hconfig r Hr).
  - intros k d p [_ Hd]%present_source (e & c & x & He & Hc & Hx & ->)%elem_of_property_paths.
    by apply (device_property_ok d e c x).
Qed.

Lemma command_paths_ok q :
  q ∈ logicalCommandPaths ord config present <->
  q ∈ crr_Path <$> l_CommandRoutes config \/
  (explicitCommandRoute config q = None /\
   exists k d, present !! k = Some d /\ q ∈ device_command_paths d).
Proof using All.
  apply (elem_of_offered _ command_path_ok); [apply command_path_key_inj|apply Hord|..].
  - intros p (r & -> & Hr)%list_elem_of_fmap. apply (lo_command_routes config Hconfig r Hr).
  - intros k d p [_ Hd]%present_source (e & c & x & He & Hc & Hx & ->)%elem_of_command_paths.
    by apply (device_command_ok d e c x).
Qed.

(** ** The chosen candidates *)

Let chosen_property q := selectPropertyChoice (propertyChoices config q present bindings).
Let chosen_command q := selectCommandChoice (commandChoices config q present bindings).

Lemma chosen_property_in q ch : chosen_property q = Some ch ->
  ch ∈ propertyChoices config q present bindings.
Proof using.
  unfold chosen_property, selectPropertyChoice.
  destruct (first _ _) as [x|] eqn:E; [|by intros ?%head_Some_elem_of].
  intros [= <-]. apply first_elem in E as (y & Hy & E). by destruct (pch_available y); simplify_eq.
Qed.

Lemma chosen_command_in q ch : chosen_command q = Some ch ->
  ch ∈ commandChoices config q present bindings.
Proof using.
  unfold chosen_command, selectCommandChoice.
  destruct (first _ _) as [x|] eqn:E; [|by intros ?%head_Some_elem_of].
  intros [= <-]. apply first_elem in E as (y & Hy & E). by destruct (cch_available y); simplify_eq.
Qed.

(** Whatever is chosen for a path is a property of a present source, and the path is one
    of those the composition visits. *)
Lemma chosen_property_ok q ch : chosen_property q = Some ch ->
  property_ok (pch_property ch) /\ q ∈ logicalPropertyPaths ord config present.
Proof using All.
  intros (c & Hc & Hch)%chosen_property_in%list_elem_of_omap.
  destruct (present !! _) as [d|] eqn:Hd; [|done]. pose proof (present_source _ _ Hd) as [_ Hs].
  destruct (sourceProperty d (pc_Path c)) as [[[p e] cap]|] eqn:Hp; [|done].
  injection Hch as <-. simpl.
  assert (Hl : look_property (d_Endpoints d) (pc_Path c) = Some p).
  { rewrite <- sourceProperty_look by by apply structure_tree. by rewrite Hp. }
  apply look_property_elem in Hl as (e' & c' & He & Hc' & Hp' & Hq).
  split; [by apply (device_property_ok d e' c' p)|]. apply property_paths_ok.
  unfold propertyCandidates in Hc. destruct (explicitPropertyRoute config q) as [r|] eqn:Hr.
  - left. apply first_elem in Hr as (r' & Hr' & E). case_bool_decide; simplify_eq.
    by apply list_elem_of_fmap_2.
  - right. split; [done|]. apply list_elem_of_lookup_1 in Hc as [i Hi].
    rewrite list_lookup_imap in Hi. apply fmap_Some in Hi as (b & _ & ->). simpl in *.
    exists (source_key (b_Source b)), d. split; [done|]. rewrite Hq. apply elem_of_property_paths.
    by exists e', c', p.
Qed.

Lemma chosen_command_ok q ch : chosen_command q = Some ch ->
  command_ok (cch_command ch) /\ q ∈ logicalCommandPaths ord config present.
Proof using All.
  intros (c & Hc & Hch)%chosen_command_in%list_elem_of_omap.
  destruct (present !! _) as [d|] eqn:Hd; [|done]. pose proof (present_source _ _ Hd) as [_ Hs].
  destruct (sourceCommand d (co_Path c)) as [x|] eqn:Hx; [|done].
  injection Hch as <-. simpl.
  rewrite sourceCommand_look in Hx by by apply structure_tree.
  apply look_command_elem in Hx as (e' & c' & He & Hc' & Hp' & Hq).
  split; [by apply (device_command_ok d e' c' x)|]. apply command_paths_ok.
  unfold commandCandidates in Hc. destruct (explicitCommandRoute config q) as [r|] eqn:Hr.
  - left. apply first_elem in Hr as (r' & Hr' & E). case_bool_decide; simplify_eq.
    by apply list_elem_of_fmap_2.
  - right. split; [done|]. apply list_elem_of_lookup_1 in Hc as [i Hi].
    rewrite list_lookup_imap in Hi. apply fmap_Some in Hi as (b & _ & ->). simpl in *.
    exists (source_key (b_Source b)), d. split; [done|]. rewrite Hq. apply elem_of_command_paths.
    by exists e', c', x.
Qed.

Lemma preferred_property q :
  pch_property <$> chosen_property q = preferred (property_offers config sources q).
Proof using Hconfig Hsources.
  unfold chosen_property, selectPropertyChoice.
  rewrite (preferred_fmap pch_available pch_property). f_equal.
  unfold propertyChoices, property_offers. rewrite list_fmap_omap. apply omap_pointwise.
  intros c. rewrite <- present_visible. destruct (present !! _) as [d|] eqn:Hd; simpl; [|done].
  apply present_source in Hd as [_ Hs]. apply structure_tree in Hs.
  rewrite PropertyAt_look, <- sourceProperty_look by done.
  by destruct (sourceProperty d (pc_Path c)) as [[[p e] cap]|].
Qed.

Lemma preferred_command q :
  cch_command <$> chosen_command q = preferred (command_offers config sources q).
Proof using Hconfig Hsources.
  unfold chosen_command, selectCommandChoice.
  rewrite (preferred_fmap cch_available cch_command). f_equal.
  unfold commandChoices, command_offers. rewrite list_fmap_omap. apply omap_pointwise.
  intros c. rewrite <- present_visible. destruct (present !! _) as [d|] eqn:Hd; simpl; [|done].
  by destruct (sourceCommand d (co_Path c)) as [x|].
Qed.

(** ** The loops over the paths *)

Lemma compose_property_step l ex path : exists ex',
  compose_property config present bindings (l, ex) path =
  (match chosen_property path with
   | Some ch => addLogicalProperty l path (pch_endpoint ch) (pch_capability ch)
                  (rename_property (lp_PropertyID path) (pch_property ch))
   | None => l
   end, ex').
Proof using.
  unfold compose_property. fold (chosen_property path).
  destruct (chosen_property path); by eexists.
Qed.

Lemma compose_command_step l ex path : exists ex',
  compose_command config present bindings (l, ex) path =
  (match chosen_command path with
   | Some ch => addLogicalCommand l path (with_cd_ID (cch_command ch) (lc_CommandID path))
   | None => l
   end, ex').
Proof using.
  unfold compose_command. fold (chosen_command path).
  destruct (chosen_command path); by eexists.
Qed.

Lemma fold_properties paths acc :
  (forall q, q ∈ paths -> property_path_ok q) -> composed_endpoints acc.1 ->
  let acc' := foldl (compose_property config present bindings) acc paths in
  composed_endpoints acc'.1 /\
  (forall q, look_command acc'.1 q = look_command acc.1 q) /\
  forall q, look_property acc'.1 q =
    match look_property acc.1 q with
    | Some p => Some p
    | None => if bool_decide (q ∈ paths)
              then (fun ch => rename_property (lp_PropertyID q) (pch_property ch)) <$> chosen_property q
              else None
    end.
Proof using All.
  revert acc. induction paths as [|path paths IH]; intros [l ex] Hp Hl; cbv zeta; cbn [foldl].
  { split_and!; [done..|]. intros q. by destruct (look_property _ q). }
  destruct (compose_property_step l ex path) as [ex' ->].
  pose proof (chosen_property_ok path) as Hch.
  destruct (chosen_property path) as [ch|] eqn:E.
  - destruct (Hch ch eq_refl) as [Hok _].
    destruct (IH (addLogicalProperty l path (pch_endpoint ch) (pch_capability ch)
      (rename_property (lp_PropertyID path) (pch_property ch)), ex')) as (Hc & Hcmd & Hlook).
    { intros q Hq. apply Hp. by right. }
    { apply composed_add_property; [apply Hp; left|done|by apply rename_property_ok|done]. }
    split_and!; [exact Hc| |]; intros q; cbn [fst] in *.
    + rewrite Hcmd. apply look_command_add_property.
    + rewrite Hlook, look_property_add by done. destruct (decide (q = path)) as [->|Hne].
      * rewrite !bool_decide_eq_true_2 by (done || left). rewrite E. by destruct (look_property l path).
      * rewrite bool_decide_eq_false_2 by done. destruct (look_property l q); [done|].
        rewrite (bool_decide_ext (q ∈ paths) (q ∈ path :: paths)); [done|]. set_solver.
  - destruct (IH (l, ex')) as (Hc & Hcmd & Hlook); [intros q Hq; apply Hp; by right|done|].
    split_and!; [exact Hc|exact Hcmd|]. intros q. rewrite Hlook. cbn [fst].
    destruct (look_property l q); [done|]. destruct (decide (q = path)) as [->|Hne].
    + rewrite E. by repeat case_bool_decide.
    + rewrite (bool_decide_ext (q ∈ paths) (q ∈ path :: paths)); [done|]. set_solver.
Qed.

Lemma fold_commands paths acc :
  (forall q, q ∈ paths -> command_path_ok q) -> composed_endpoints acc.1 ->
  let acc' := foldl (compose_command config present bindings) acc paths in
  composed_endpoints acc'.1 /\
  (forall q, look_property acc'.1 q = look_property acc.1 q) /\
  forall q, look_command acc'.1 q =
    match look_command acc.1 q with
    | Some x => Some x
    | None => if bool_decide (q ∈ paths)
              then (fun ch => with_cd_ID (cch_command ch) (lc_CommandID q)) <$> chosen_command q
              else None
    end.
Proof using All.
  revert acc. induction paths as [|path paths IH]; intros [l ex] Hp Hl; cbv zeta; cbn [foldl].
  { split_and!; [done..|]. intros q. by destruct (look_command _ q). }
  destruct (compose_command_step l ex path) as [ex' ->].
  pose proof (chosen_command_ok path) as Hch.
  destruct (chosen_command path) as [ch|] eqn:E.
  - destruct (Hch ch eq_refl) as [Hok _].
    destruct (IH (addLogicalCommand l path (with_cd_ID (cch_command ch) (lc_CommandID path)), ex'))
      as (Hc & Hcmd & Hlook).
    { intros q Hq. apply Hp. by right. }
    { apply composed_add_command; [apply Hp; left|done|exact Hok|done]. }
    split_and!; [exact Hc| |]; intros q; cbn [fst] in *.
    + rewrite Hcmd. apply look_property_add_command.
    + rewrite Hlook, look_command_add by done. destruct (decide (q = path)) as [->|Hne].
      * rewrite !bool_decide_eq_true_2 by (done || left). rewrite E. by destruct (look_command l path).
      * rewrite bool_decide_eq_false_2 by done. destruct (look_command l q); [done|].
        rewrite (bool_decide_ext (q ∈ paths) (q ∈ path :: paths)); [done|]. set_solver.
  - destruct (IH (l, ex')) as (Hc & Hcmd & Hlook); [intros q Hq; apply Hp; by right|done|].
    split_and!; [exact Hc|exact Hcmd|]. intros q. rewrite Hlook. cbn [fst].
    destruct (look_command l q); [done|]. destruct (decide (q = path)) as [->|Hne].
    + rewrite E. by repeat case_bool_decide.
    + rewrite (bool_decide_ext (q ∈ paths) (q ∈ path :: paths)); [done|]. set_solver.
Qed.

(** The endpoints both loops build. *)
Let built := foldl (compose_command config present bindings)
  (foldl (compose_property config present bindings) ([], []) (logicalPropertyPaths ord config present))
  (logicalCommandPaths ord config present).

Lemma visited_property q : q ∈ logicalPropertyPaths ord config present -> property_path_ok q.
Proof using All.
  intros [(r & -> & Hr)%list_elem_of_fmap|(_ & k & d & [_ Hd]%present_source & Hq)]%property_paths_ok.
  - apply (lo_property_routes config Hconfig r Hr).
  - apply elem_of_property_paths in Hq as (e & c & p & He & Hc & Hp & ->).
    by apply (device_property_ok d e c p).
Qed.

Lemma visited_command q : q ∈ logicalCommandPaths ord config present -> command_path_ok q.
Proof using All.
  intros [(r & -> & Hr)%list_elem_of_fmap|(_ & k & d & [_ Hd]%present_source & Hq)]%command_paths_ok.
  - apply (lo_command_routes config Hconfig r Hr).
  - apply elem_of_command_paths in Hq as (e & c & p & He & Hc & Hp & ->).
    by apply (device_command_ok d e c p).
Qed.

Lemma built_spec :
  composed_endpoints built.1 /\
  (forall q, look_property built.1 q =
     rename_property (lp_PropertyID q) <$> preferred (property_offers config sources q)) /\
  (forall q, look_command built.1 q =
     (fun x => with_cd_ID x (lc_CommandID q)) <$> preferred (command_offers config sources q)).
Proof using All.
  destruct (fold_properties (logicalPropertyPaths ord config present) ([], []) visited_property)
    as (Hc & Hcmd & Hlook); [apply claims_nil|].
  destruct (fold_commands (logicalCommandPaths ord config present) _ visited_command Hc)
    as (Hc' & Hprop & Hlook').
  split_and!; [exact Hc'|intros q..].
  - unfold built. rewrite Hprop, Hlook, <- preferred_property, <- option_fmap_compose.
    cbn [look_property capability_at find_by first mbind option_bind fst].
    case_bool_decide as Hq; [done|]. destruct (chosen_property q) as [ch|] eqn:E; [|done].
    destruct Hq. by apply (chosen_property_ok q ch).
  - unfold built. rewrite Hlook', Hcmd, <- preferred_command, <- option_fmap_compose.
    cbn [look_command capability_at find_by first mbind option_bind fst].
    case_bool_decide as Hq; [done|]. destruct (chosen_command q) as [ch|] eqn:E; [|done].
    destruct Hq. by apply (chosen_command_ok q ch).
Qed.

Lemma composed_valid now : ValidateStructure
  (composed_device config now (gather_all config sources bindings) built.1) = Ok tt.
Proof using All.
  apply validate_structure_ok. unfold composed_device.
  constructor; simpl; try done; [apply (lo_id config Hconfig)|right|].
  - by destruct (0 <? _); [|destruct (0 <? _)].
  - apply composed_endpoints_ok, built_spec.
Qed.

Lemma compose_eq now : composeLogicalSnapshot ord now config sources =
  if (size present =? 0)%nat then None
  else Some (composed_device config now (gather_all config sources bindings) built.1,
             merge_sort explanation_le built.2).
Proof using All.
  unfold composeLogicalSnapshot. cbv zeta. fold bindings. fold present. fold built.
  destruct (size present =? 0)%nat; [done|]. rewrite (surjective_pairing built) at 1.
  by rewrite composed_valid.
Qed.

Lemma present_empty : (size present =? 0)%nat = true <->
  forall b, b ∈ l_Bindings config -> visible config sources (b_Source b) = None.
Proof using Hconfig.
  rewrite Nat.eqb_eq, map_size_empty_iff. split.
  - intros E b _. by rewrite <- present_visible, E.
  - intros Hv. apply map_eq. intros k. rewrite lookup_empty.
    destruct (present !! k) as [d|] eqn:E; [|done]. exfalso.
    pose proof E as E'. unfold present, gather_all in E'. rewrite gather_present in E'.
    cbn [g_present] in E'. rewrite lookup_empty in E'. case_bool_decide as Hk; [|done].
    apply list_elem_of_fmap in Hk as (b & -> & Hb). rewrite bindings_perm in Hb.
    rewrite present_visible, (Hv b Hb) in E. done.
Qed.

Lemma visible_found b : b ∈ l_Bindings config ->
  sources !! source_key (b_Source b) ≫= of_type config = visible config sources (b_Source b).
Proof using.
  intros Hb. unfold visible. rewrite bool_decide_eq_true_2 by by apply list_elem_of_fmap_2.
  done.
Qed.

Lemma online_visible : 0 < g_online (gather_all config sources bindings) <->
  exists b d, b ∈ l_Bindings config /\ visible config sources (b_Source b) = Some d /\
    IsOnline d = true.
Proof using.
  unfold gather_all. rewrite gather_online by done. cbn [g_online]. split.
  - intros [?|(b & Hb & d & Hd & ?)]; [lia|]. rewrite bindings_perm in Hb. exists b, d.
    split_and!; [done| |done]. by rewrite <- visible_found.
  - intros (b & d & Hb & Hd & ?). right. exists b. rewrite bindings_perm. split; [done|].
    exists d. by rewrite visible_found.
Qed.

Lemma unknown_visible : 0 < g_unknown (gather_all config sources bindings) <->
  exists b, b ∈ l_Bindings config /\ forall d,
    visible config sources (b_Source b) = Some d -> EffectiveAvailability d = AvailabilityUnknown.
Proof using.
  unfold gather_all. rewrite gather_unknown by done. cbn [g_unknown]. split.
  - intros [?|(b & Hb & Hd)]; [lia|]. rewrite bindings_perm in Hb. exists b. split; [done|].
    intros d. rewrite <- visible_found by done. apply Hd.
  - intros (b & Hb & Hd). right. exists b. rewrite bindings_perm. split; [done|].
    intros d. rewrite visible_found by done. apply Hd.
Qed.

Lemma composed_online now endpoints :
  d_Availability (composed_device config now (gather_all config sources bindings) endpoints) =
    AvailabilityOnline <->
  exists b d, b ∈ l_Bindings config /\ visible config sources (b_Source b) = Some d /\
    IsOnline d = true.
Proof using.
  rewrite <- online_visible. simpl. destruct (Z.ltb_spec 0 (g_online (gather_all config sources bindings)));
    [done|]. split; [by destruct (0 <? _)|lia].
Qed.

Lemma composed_offline now endpoints :
  d_Availability (composed_device config now (gather_all config sources bindings) endpoints) =
    AvailabilityOffline <->
  forall b, b ∈ l_Bindings config -> exists d, visible config sources (b_Source b) = Some d /\
    EffectiveAvailability d = AvailabilityOffline.
Proof using.
  pose proof online_visible as Hon. pose proof unknown_visible as Hun. simpl.
  destruct (Z.ltb_spec 0 (g_online (gather_all config sources bindings))) as [Ho|Ho].
  { split; [done|]. intros Ha. apply Hon in Ho as (b & d & Hb & Hd & Ho).
    destruct (Ha b Hb) as (d' & Hd' & E). rewrite Hd in Hd'. injection Hd' as <-.
    unfold IsOnline in Ho. by rewrite E in Ho. }
  destruct (Z.ltb_spec 0 (g_unknown (gather_all config sources bindings))) as [Hu|Hu].
  { split; [done|]. intros Ha. apply Hun in Hu as (b & Hb & Hd).
    destruct (Ha b Hb) as (d' & Hd' & E). by rewrite (Hd d' Hd') in E. }
  apply Z.le_ngt in Ho, Hu. rewrite Hon in Ho. rewrite Hun in Hu.
  split; [|done]. intros _ b Hb. destruct (visible config sources (b_Source b)) as [d|] eqn:Hd.
  - exists d. split; [done|]. destruct (effective_cases d) as [E|[E|E]]; [|done|].
    + destruct Ho. exists b, d. unfold IsOnline. by rewrite E.
    + destruct Hu. exists b. split; [done|]. rewrite Hd. by intros d' [= <-].
  - destruct Hu. exists b. split; [done|]. by rewrite Hd.
Qed.
End compose.

(** A valid configuration over valid sources has a snapshot exactly when one of its
    bound sources is known and of its type.  The snapshot is a valid device; it is online
    exactly when one of these sources is, and offline exactly when all bound sources are
    known, of its type and offline. *)
Theorem compose_materializes ord now config sources
    (Hord : forall m, range_of m (ord m)) (Hconfig : ValidateLogical config = Ok tt)
    (Hsources : valid_sources sources) :
  match composeLogicalSnapshot ord now config sources with
  | None => forall b, b ∈ l_Bindings config -> visible config sources (b_Source b) = None
  | Some (item, _) =>
      (exists b, b ∈ l_Bindings config /\ is_Some (visible config sources (b_Source b))) /\
      ValidateStructure item = Ok tt /\
      d_ID item = l_ID config /\ d_ProviderID item = ProviderID /\ d_Type item = l_Type config /\
      (d_Availability item = AvailabilityOnline <->
       exists b d, b ∈ l_Bindings config /\ visible config sources (b_Source b) = Some d /\
         IsOnline d = true) /\
      (d_Availability item = AvailabilityOffline <->
       forall b, b ∈ l_Bindings config -> exists d, visible config sources (b_Source b) = Some d /\
         EffectiveAvailability d = AvailabilityOffline)
  end.
Proof.
  apply validate_logical_ok in Hconfig. rewrite compose_eq by done.
  pose proof (present_empty config sources Hconfig) as He.
  destruct (size _ =? 0)%nat; [by apply He|].
  split_and!; try done.
  - destruct (Exists_dec (fun b => is_Some (visible config sources (b_Source b))) (l_Bindings config))
      as [(b & ? & ?)%Exists_exists|Hn]; [eauto|].
    assert (false = true); [|done]. apply He. intros b Hb. apply eq_None_not_Some. intros Hv.
    apply Hn, Exists_exists. eauto.
  - by apply composed_valid.
  - by apply composed_online.
  - by apply composed_offline.
Qed.

(** C29: The snapshot offers, under every path, the property (or command) of the first
    online source in the ranking of its candidates that has it, or of the first source
    that has it when none is online; renamed to the path, and nothing else. *)
Theorem compose_routes ord now config sources item explanations
    (Hord : forall m, range_of m (ord m)) (Hconfig : ValidateLogical config = Ok tt)
    (Hsources : valid_sources sources) :
  composeLogicalSnapshot ord now config sources = Some (item, explanations) ->
  (forall q, PropertyAt item (lp_EndpointID q) (lp_CapabilityID q) (lp_PropertyID q) =
     rename_property (lp_PropertyID q) <$> preferred (property_offers config sources q)) /\
  (forall q, sourceCommand item q =
     (fun x => with_cd_ID x (lc_CommandID q)) <$> preferred (command_offers config sources q)).
Proof.
  apply validate_logical_ok in Hconfig. rewrite compose_eq by done.
  destruct (size _ =? 0)%nat; [done|]. intros [= <- <-].
  destruct (built_spec ord config sources Hord Hconfig Hsources) as (Hc & Hp & Hcmd).
  pose proof (composed_valid ord config sources Hord Hconfig Hsources now) as Hv.
  apply validate_structure_ok, structure_tree in Hv.
  split; intros q; [rewrite PropertyAt_look by done; apply Hp|].
  rewrite sourceCommand_look by done. apply Hcmd.
Qed.

(** ** Concrete instances *)

Definition ex_lamp (id provider : string) (av : Availability) (on : bool) : Device :=
  with_availability
    (with_Endpoints (MkDevice SchemaVersion id provider "lamp" "" false "switch" "" "" "" "" "" "" "" "" ""
       (AvailabilityOther "") false 0 false false (RuntimeModeOther "") (StateTransportOther "") "" [] 5)
       [MkEndpoint "main" "Main" "switch" [MkCapability "switch" "switch"
          [MkProperty (MkPropertyDefinition "on" "On" ValueTypeBool ParameterRequired "" true true true
             None None None [] 0) (BoolValue on) (StateTransportOther "")]
          [MkCommandDefinition "toggle" "Toggle" false []] []]])
    av (is_online av).

Definition ex_config : LogicalConfig :=
  MkLogicalConfig "both" "Both" "switch"
    [MkBinding (MkSourceRef "mi" "lamp") 1; MkBinding (MkSourceRef "gree" "lamp") 0]
    [MkPropertyRoute (MkPropertyPath "main" "switch" "power")
       [MkPropertyCandidate (MkSourceRef "mi" "lamp") (MkPropertyPath "main" "switch" "on") 0 false]] [].

(** The preferred source is offline. *)
Definition ex_sources : gmap string Device :=
  <[source_key (MkSourceRef "mi" "lamp") := ex_lamp "lamp" "mi" AvailabilityOnline true]>
  (<[source_key (MkSourceRef "gree" "lamp") := ex_lamp "lamp" "gree" AvailabilityOffline false]> ∅).

Lemma ex_sources_valid : valid_sources ex_sources.
Proof.
  intros k d Hd. unfold ex_sources in Hd.
  apply lookup_insert_Some in Hd as [[_ <-]|[_ Hd]]; [by vm_compute|].
  apply lookup_insert_Some in Hd as [[_ <-]|[_ Hd]]; [by vm_compute|by rewrite lookup_empty in Hd].
Qed.

Definition ex_composed : Device * list RouteExplanation :=
  default (zero_device, []) (composeLogicalSnapshot some_range 7 ex_config ex_sources).

Lemma compose_routes_witness :
  PropertyAt ex_composed.1 "main" "switch" "power" = Some (rename_property "power"
    (MkProperty (MkPropertyDefinition "on" "On" ValueTypeBool ParameterRequired "" true true true
       None None None [] 0) (BoolValue true) (StateTransportOther ""))) /\
  sourceCommand ex_composed.1 (MkCommandPath "main" "switch" "toggle") =
    Some (MkCommandDefinition "toggle" "Toggle" false []).
Proof.
  destruct (compose_routes some_range 7 ex_config ex_sources ex_composed.1 ex_composed.2
    range_of_some_range ltac:(vm_compute; reflexivity) ex_sources_valid
    ltac:(vm_compute; reflexivity)) as [Hp Hc].
  specialize (Hp (MkPropertyPath "main" "switch" "power")). cbn [lp_EndpointID lp_CapabilityID
    lp_PropertyID] in Hp. split; [rewrite Hp|rewrite Hc]; by vm_compute.
Defined.

Lemma compose_materializes_witness :
  ValidateStructure ex_composed.1 = Ok tt /\ d_Availability ex_composed.1 = AvailabilityOnline.
Proof.
  pose proof (compose_materializes some_range 7 ex_config ex_sources range_of_some_range
    ltac:(vm_compute; reflexivity) ex_sources_valid) as H.
  assert (E : composeLogicalSnapshot some_range 7 ex_config ex_sources =
    Some (ex_composed.1, ex_composed.2)) by (vm_compute; reflexivity).
  rewrite E in H. destruct H as (_ & Hv & _ & _ & _ & Ho & _). split; [exact Hv|].
  apply Ho. exists (MkBinding (MkSourceRef "mi" "lamp") 1), (ex_lamp "lamp" "mi" AvailabilityOnline true).
  split; [left|split]; by vm_compute.
Defined.
