(* ===== verification/LogicalRuntime.v ===== *)
(** * Logical devices at run time: backend/internal/runtime/providermanager/logical.go

    The part of the Provider manager that keeps logical devices: their configuration,
    the snapshots of the sources and of the composed devices, and the routing of reads,
    writes and commands to the concrete Providers.  Providers are an interface: any
    function from requests to results.  [range] over a map is in the order an argument
    gives; [clock id] is the instant the device [id] is composed at. *)

From S2P Require Import Prelude Float64 DeviceModel ModelContract LogicalDevice LogicalCompose.

(** ** Errors of Providers *)

Inductive ProviderError :=
| ErrDeviceNotFound
| ErrPropertyUnsupported
| ErrPropertyInvalid
| ErrWriteRejected
| ErrSimulationInvalid
| ErrProviderUnavailable
| ErrCommandUnsupported
| ErrCommandInvalid
| InvalidSourceSnapshot (providerID : string) (e : DeviceError)
| WrappedError (context : string) (e : ProviderError)
| OtherError (text : string).

(** [errors.Is(err, ErrProviderUnavailable)] and [errors.Is(err, ErrDeviceNotFound)]:
    the chain of wrapped errors. *)
Fixpoint is_unavailable (e : ProviderError) : bool :=
  match e with
  | ErrProviderUnavailable => true
  | WrappedError _ e => is_unavailable e
  | _ => false
  end.
Fixpoint is_not_found (e : ProviderError) : bool :=
  match e with
  | ErrDeviceNotFound => true
  | WrappedError _ e => is_not_found e
  | _ => false
  end.

Definition canFallback (e : ProviderError) : bool := is_unavailable e || is_not_found e.

(** ** Requests and Providers *)

Record PropertyWriteRequest := MkWriteRequest {
  wr_DeviceID : string;
  wr_Path : PropertyPath;
  wr_Value : PropertyValue;
}.
Record PropertyReadRequest := MkReadRequest {
  rr_DeviceID : string;
  rr_Path : PropertyPath;
}.
Record CommandRequest := MkCommandRequest {
  cr_DeviceID : string;
  cr_Path : CommandPath;
  cr_Parameters : gmap string PropertyValue;
  cr_IdempotencyKey : string;
}.

(** A managed Provider; an interface it does not implement is [None]. *)
Record managedProvider := MkProvider {
  mp_status : string;
  mp_writer : option (PropertyWriteRequest -> result ProviderError Device);
  mp_reader : option (PropertyReadRequest -> result ProviderError Property);
  mp_executor : option (CommandRequest -> result ProviderError Device);
}.
Definition running (p : managedProvider) : bool := String.eqb (mp_status p) "running".

Definition writeConcreteProperty (providers : gmap string managedProvider) (candidate : PropertyCandidate)
    (value : PropertyValue) : result ProviderError Device :=
  match providers !! sr_ProviderID (pc_Source candidate) with
  | None => Err ErrDeviceNotFound
  | Some current =>
      if negb (running current) then Err ErrProviderUnavailable
      else
        match mp_writer current with
        | None => Err ErrPropertyUnsupported
        | Some write => write (MkWriteRequest (sr_DeviceID (pc_Source candidate)) (pc_Path candidate) value)
        end
  end.

Definition readConcreteProperty (providers : gmap string managedProvider) (candidate : PropertyCandidate)
    : result ProviderError Property :=
  match providers !! sr_ProviderID (pc_Source candidate) with
  | None => Err ErrDeviceNotFound
  | Some current =>
      if negb (running current) then Err ErrProviderUnavailable
      else
        match mp_reader current with
        | None => Err ErrPropertyUnsupported
        | Some read => read (MkReadRequest (sr_DeviceID (pc_Source candidate)) (pc_Path candidate))
        end
  end.

Definition executeConcreteCommand (providers : gmap string managedProvider) (candidate : CommandCandidate)
    (parameters : gmap string PropertyValue) (key : string) : result ProviderError Device :=
  match providers !! sr_ProviderID (co_Source candidate) with
  | None => Err ErrDeviceNotFound
  | Some current =>
      if negb (running current) then Err ErrProviderUnavailable
      else
        match mp_executor current with
        | None => Err ErrCommandUnsupported
        | Some execute =>
            execute (MkCommandRequest (sr_DeviceID (co_Source candidate)) (co_Path candidate) parameters key)
        end
  end.

(** ** The state *)

Record LogicalState := MkLogicalState {
  logicalDevices : gmap string LogicalConfig;
  logicalSourceIDs : gmap string (gset string);
  logicalSourceSnapshots : gmap string Device;
  logicalSnapshots : gmap string Device;
  logicalExplanations : gmap string (list RouteExplanation);
  routes : gmap string string;
}.

Definition with_sources (st : LogicalState) (m : gmap string Device) : LogicalState :=
  MkLogicalState (logicalDevices st) (logicalSourceIDs st) m (logicalSnapshots st)
    (logicalExplanations st) (routes st).

Definition providerDeviceKey (providerID deviceID : string) : string := providerID +:+ nul +:+ deviceID.

(** ** Configuration *)

Inductive LogicalManagerError :=
| InvalidLogicalDevice (id : string) (e : LogicalError)
| DuplicateLogicalDevice (id : string)
| SourceAlreadyLinked (providerID deviceID : string)
| ConflictsWithProvider.

Definition link_source (id : string) (bySource : gmap string (gset string)) (b : Binding)
    : result LogicalManagerError (gmap string (gset string)) :=
  let key := providerDeviceKey (sr_ProviderID (b_Source b)) (sr_DeviceID (b_Source b)) in
  guard! negb (present (bySource !! key))
    else SourceAlreadyLinked (sr_ProviderID (b_Source b)) (sr_DeviceID (b_Source b)) in
  Ok (<[key := {[id]}]> bySource).

Definition add_config (acc : gmap string LogicalConfig * gmap string (gset string))
    (item : LogicalConfig)
    : result LogicalManagerError (gmap string LogicalConfig * gmap string (gset string)) :=
  match ValidateLogical item with
  | Err e => Err (InvalidLogicalDevice (l_ID item) e)
  | Ok _ =>
      guard! negb (present (acc.1 !! l_ID item)) else DuplicateLogicalDevice (l_ID item) in
      let! bySource := each (link_source (l_ID item)) acc.2 (l_Bindings item) in
      Ok (<[l_ID item := item]> acc.1, bySource)
  end.

(** A concrete Provider owns the identifier. *)
Definition concrete_owner (routes : gmap string string) (id : string) : bool :=
  match routes !! id with
  | Some owner => negb (is_empty owner) && negb (String.eqb owner ProviderID)
  | None => false
  end.

(** The error names one of the conflicting devices, depending on the iteration of the map;
    it does not carry it here. *)
Definition SetLogicalDevices (st : LogicalState) (items : list LogicalConfig)
    : LogicalState * result LogicalManagerError unit :=
  match each add_config (∅, ∅) items with
  | Err e => (st, Err e)
  | Ok (configs, bySource) =>
      if existsb (fun kv => concrete_owner (routes st) kv.1) (map_to_list configs)
      then (st, Err ConflictsWithProvider)
      else
        let gone (id : string) := is_Some (logicalSnapshots st !! id) /\ configs !! id = None in
        (MkLogicalState configs bySource (logicalSourceSnapshots st)
           (filter (fun kv => ~ gone kv.1) (logicalSnapshots st))
           (filter (fun kv => ~ gone kv.1) (logicalExplanations st))
           (filter (fun kv => ~ gone kv.1) (routes st)), Ok tt)
  end.

Definition config_le (a b : LogicalConfig) : Prop := str_leb (l_ID a) (l_ID b) = true.
#[export] Instance config_le_dec : RelDecision config_le.
Proof. intros a b. unfold config_le. apply _. Defined.

Definition LogicalDevices (st : LogicalState) : list LogicalConfig :=
  merge_sort config_le (map_to_list (logicalDevices st)).*2.

Definition LogicalDeviceExplanations (st : LogicalState) (id : string) : list RouteExplanation * bool :=
  match logicalDevices st !! id with
  | None => ([], false)
  | Some _ => (default [] (logicalExplanations st !! id), true)
  end.

(** ** Snapshots *)

Definition with_Sequence (d : Device) (n : Z) : Device :=
  match d with
  | MkDevice v i p na sn no t hi hn ri rn lm shi shn sri srn av on _ di re rm st me l lu =>
      MkDevice v i p na sn no t hi hn ri rn lm shi shn sri srn av on n di re rm st me l lu
  end.
Definition with_ProviderID (d : Device) (s : string) : Device :=
  match d with
  | MkDevice v i _ na sn no t hi hn ri rn lm shi shn sri srn av on sq di re rm st me l lu =>
      MkDevice v i s na sn no t hi hn ri rn lm shi shn sri srn av on sq di re rm st me l lu
  end.

(** One iteration of [rebuildLogicalSnapshotsLocked]. *)
Definition rebuild_one (ords : gmap string Device -> list string) (clock : string -> Time)
    (acc : LogicalState * list Device) (id : string) : LogicalState * list Device :=
  let '(st, result) := acc in
  match logicalDevices st !! id with
  | None => acc
  | Some config =>
      match composeLogicalSnapshot ords (clock id) config (logicalSourceSnapshots st) with
      | None => acc
      | Some (item, explanations) =>
          let item :=
            match logicalSnapshots st !! l_ID config with
            | Some previous =>
                if d_Sequence item <=? d_Sequence previous
                then with_Sequence item (u64_succ (d_Sequence previous)) else item
            | None => item
            end in
          (MkLogicalState (logicalDevices st) (logicalSourceIDs st) (logicalSourceSnapshots st)
             (<[l_ID config := item]> (logicalSnapshots st))
             (<[l_ID config := explanations]> (logicalExplanations st))
             (<[l_ID config := ProviderID]> (routes st)), result ++ [item])
      end
  end.

(** The orders in which the maps of sources and of logical devices are visited. *)
Record orders := MkOrders {
  ord_sources : gmap string Device -> list string;
  ord_devices : gmap string LogicalConfig -> list string;
}.
Definition orders_ok (o : orders) : Prop :=
  (forall m, range_of m (ord_sources o m)) /\ (forall m, range_of m (ord_devices o m)).

Definition rebuildLogicalSnapshotsLocked (o : orders) (clock : string -> Time) (st : LogicalState)
    : LogicalState * list Device :=
  let cleared := MkLogicalState (logicalDevices st) (logicalSourceIDs st) (logicalSourceSnapshots st)
                   (logicalSnapshots st) ∅ (routes st) in
  let '(st', result) :=
    foldl (rebuild_one (ord_sources o) clock) (cleared, []) (ord_devices o (logicalDevices st)) in
  (MkLogicalState (logicalDevices st') (logicalSourceIDs st') (logicalSourceSnapshots st')
     (filter (fun kv => is_Some (logicalDevices st' !! kv.1)) (logicalSnapshots st'))
     (logicalExplanations st') (routes st'), result).

Definition replaceLogicalSourceSnapshotsLocked (o : orders) (clock : string -> Time) (st : LogicalState)
    (items : gmap string Device) : LogicalState * list Device :=
  rebuildLogicalSnapshotsLocked o clock (with_sources st items).

Definition updateLogicalSourceSnapshotLocked (o : orders) (clock : string -> Time) (st : LogicalState)
    (providerID : string) (item : Device) : LogicalState * list Device * bool :=
  let key := providerDeviceKey providerID (d_ID item) in
  match logicalSourceIDs st !! key with
  | None => (st, [], false)
  | Some _ =>
      (rebuildLogicalSnapshotsLocked o clock
         (with_sources st (<[key := item]> (logicalSourceSnapshots st))), true)
  end.

Definition logicalSnapshotsForIDLocked (o : orders) (st : LogicalState) (source : SourceRef)
    : option Device :=
  first (fun id =>
    match logicalDevices st !! id with
    | None => None
    | Some config =>
        if existsb (fun b => bool_decide (b_Source b = source)) (l_Bindings config)
        then Some (logicalSnapshots st !! id) else None
    end) (ord_devices o (logicalDevices st)) ≫= id.

(** The snapshot is also broadcast; the result says which. *)
Definition finalizeLogicalSourceSnapshot (o : orders) (clock : string -> Time) (st : LogicalState)
    (source : SourceRef) (item : Device) : LogicalState * result ProviderError Device :=
  let item := NormalizeAvailability (with_ProviderID item (sr_ProviderID source)) in
  match ValidateStructure item with
  | Err e => (st, Err (InvalidSourceSnapshot (sr_ProviderID source) e))
  | Ok _ =>
      let '(st, _) := rebuildLogicalSnapshotsLocked o clock
        (with_sources st (<[source_key source := item]> (logicalSourceSnapshots st))) in
      (st, match logicalSnapshotsForIDLocked o st source with
           | Some snapshot => Ok snapshot
           | None => Err ErrDeviceNotFound
           end)
  end.

(** ** Routing *)

(** What the three routing loops share: over the candidates, of which [n] in all, from the
    position [index] on; the attempts made and the result. *)
Section route_loop.
Context {C X R : Type} (offers : C -> option X) (offline : C -> bool) (may : C -> X -> bool)
  (attempt : C -> result ProviderError R) (unsupported : ProviderError) (n : nat).

Fixpoint route_loop (index : nat) (candidates : list C)
    : list (C * result ProviderError R) * result ProviderError (C * R) :=
  match candidates with
  | [] => ([], Err unsupported)
  | c :: candidates =>
      match offers c with
      | None => route_loop (S index) candidates
      | Some x =>
          if offline c then
            if may c x && (index <? n - 1)%nat then route_loop (S index) candidates
            else ([], Err ErrProviderUnavailable)
          else
            match attempt c with
            | Ok r => ([(c, Ok r)], Ok (c, r))
            | Err e =>
                if negb (canFallback e) || negb (may c x) || (index =? n - 1)%nat
                then ([(c, Err e)], Err e)
                else
                  let '(trace, result) := route_loop (S index) candidates in
                  ((c, Err e) :: trace, result)
            end
      end
  end.
End route_loop.

Definition source_of (st : LogicalState) (s : SourceRef) : Device :=
  default zero_device (logicalSourceSnapshots st !! source_key s).
Definition is_offline (d : Device) : bool :=
  match EffectiveAvailability d with AvailabilityOffline => true | _ => false end.

Definition write_attempts (providers : gmap string managedProvider) (st : LogicalState)
    (config : LogicalConfig) (path : PropertyPath) (value : PropertyValue) :=
  let candidates := propertyCandidates config path (SortBindings (l_Bindings config)) in
  route_loop (fun c => sourceProperty (source_of st (pc_Source c)) (pc_Path c))
    (fun c => is_offline (source_of st (pc_Source c))) (fun c _ => pc_AllowFallback c)
    (fun c => writeConcreteProperty providers c value) ErrPropertyUnsupported (length candidates)
    0 candidates.

Definition read_attempts (providers : gmap string managedProvider) (st : LogicalState)
    (config : LogicalConfig) (path : PropertyPath) :=
  let candidates := propertyCandidates config path (SortBindings (l_Bindings config)) in
  route_loop (fun c => sourceProperty (source_of st (pc_Source c)) (pc_Path c))
    (fun c => is_offline (source_of st (pc_Source c))) (fun c _ => pc_AllowFallback c)
    (fun c => readConcreteProperty providers c) ErrPropertyUnsupported (length candidates)
    0 candidates.

Definition execute_attempts (providers : gmap string managedProvider) (st : LogicalState)
    (config : LogicalConfig) (path : CommandPath) (parameters : gmap string PropertyValue)
    (key : string) :=
  let candidates := commandCandidates config path (SortBindings (l_Bindings config)) in
  route_loop (fun c => sourceCommand (source_of st (co_Source c)) (co_Path c))
    (fun c => is_offline (source_of st (co_Source c)))
    (fun c command => co_AllowFallback c && cd_Idempotent command)
    (fun c => executeConcreteCommand providers c parameters key) ErrCommandUnsupported
    (length candidates) 0 candidates.

(** The requests made to Providers, the state afterwards and the result.  The manager is
    unlocked while a Provider works: [later] is the state its answer meets. *)
Definition writeLogicalProperty (o : orders) (clock : string -> Time)
    (providers : gmap string managedProvider) (st later : LogicalState) (request : PropertyWriteRequest)
    : LogicalState * list (PropertyCandidate * result ProviderError Device) *
      result ProviderError Device :=
  match logicalDevices st !! wr_DeviceID request with
  | None => (later, [], Err ErrDeviceNotFound)
  | Some config =>
      let '(trace, outcome) := write_attempts providers st config (wr_Path request) (wr_Value request) in
      match outcome with
      | Err e => (later, trace, Err e)
      | Ok (c, updated) =>
          let '(st, r) := finalizeLogicalSourceSnapshot o clock later (pc_Source c) updated in
          (st, trace, r)
      end
  end.

Definition readLogicalProperty (providers : gmap string managedProvider) (st : LogicalState)
    (request : PropertyReadRequest)
    : list (PropertyCandidate * result ProviderError Property) * result ProviderError Property :=
  match logicalDevices st !! rr_DeviceID request with
  | None => ([], Err ErrDeviceNotFound)
  | Some config =>
      let '(trace, outcome) := read_attempts providers st config (rr_Path request) in
      (trace, match outcome with
              | Err e => Err e
              | Ok (_, p) => Ok (rename_property (lp_PropertyID (rr_Path request)) p)
              end)
  end.

Definition executeLogicalCommand (o : orders) (clock : string -> Time)
    (providers : gmap string managedProvider) (st later : LogicalState) (request : CommandRequest)
    : LogicalState * list (CommandCandidate * result ProviderError Device) *
      result ProviderError Device :=
  match logicalDevices st !! cr_DeviceID request with
  | None => (later, [], Err ErrDeviceNotFound)
  | Some config =>
      let '(trace, outcome) := execute_attempts providers st config (cr_Path request)
                                 (cr_Parameters request) (cr_IdempotencyKey request) in
      match outcome with
      | Err e => (later, trace, Err e)
      | Ok (c, updated) =>
          let '(st, r) := finalizeLogicalSourceSnapshot o clock later (co_Source c) updated in
          (st, trace, r)
      end
  end.

(** ** Stable sorting *)

Section stable_sort.
Context {A : Type} (rank : A -> Z).

Let less (a b : A) : bool := rank a <? rank b.
Let le (a b : A) : Prop := rank a <= rank b.

Lemma insert_stable_perm x l : insert_stable less x l ≡ₚ x :: l.
Proof.
  induction l as [|y l IH]; simpl; [done|]. destruct (less y x); [|done].
  rewrite IH. apply Permutation_swap.
Qed.

Lemma stable_sort_perm l : stable_sort less l ≡ₚ l.
Proof.
  induction l as [|x l IH]; [done|]. cbn [stable_sort foldr].
  rewrite insert_stable_perm. by apply Permutation_cons.
Qed.

Lemma insert_stable_sorted x l : StronglySorted le l -> StronglySorted le (insert_stable less x l).
Proof.
  induction 1 as [|y l Hs IH HF]; simpl; [by repeat constructor|].
  destruct (less y x) eqn:E; unfold less in E.
  - constructor; [done|]. apply Forall_forall. intros z.
    rewrite insert_stable_perm, elem_of_cons. unfold le in *. rewrite Forall_forall in HF.
    intros [->|?]; [lia|auto].
  - constructor; [by constructor|]. unfold le in *. constructor; [lia|].
    eapply Forall_impl; [exact HF|]. simpl. lia.
Qed.

Lemma stable_sort_sorted l : StronglySorted le (stable_sort less l).
Proof.
  induction l as [|x l IH]; [constructor|]. by apply insert_stable_sorted.
Qed.
End stable_sort.

Lemma sublist_StronglySorted {A} (R : relation A) l l' :
  l `sublist_of` l' -> StronglySorted R l' -> StronglySorted R l.
Proof.
  induction 1 as [|x l l' Hs IH|x l l' Hs IH]; intros H; [done|..]; inversion_clear H; [|auto].
  constructor; [auto|]. rewrite Forall_forall in *. intros y Hy. by eauto using elem_of_sublist.
Qed.

(** ** Routing loops *)

(** The error is the other one, or wraps it. *)
Inductive wraps : ProviderError -> ProviderError -> Prop :=
| wraps_itself e : wraps e e
| wraps_context context e e' : wraps e e' -> wraps (WrappedError context e) e'.

(** The answers after which nothing has been done: the Provider is not available, or has no
    such device.  Every other error (a rejection, an unsupported or invalid request, a
    failure of any other kind, a timeout among them) leaves open what has. *)
Definition not_reached (e : ProviderError) : Prop :=
  wraps e ErrProviderUnavailable \/ wraps e ErrDeviceNotFound.

Lemma is_unavailable_wraps e : is_unavailable e = true -> wraps e ErrProviderUnavailable.
Proof. induction e; try discriminate; [constructor|]. intros H. constructor. auto. Qed.

Lemma is_not_found_wraps e : is_not_found e = true -> wraps e ErrDeviceNotFound.
Proof. induction e; try discriminate; [constructor|]. intros H. constructor. auto. Qed.

(** What a routing loop promises of its attempts, over the ranked [candidates]: they are
    made in the order of the ranking, at candidates that offer what is asked and are not
    offline; each is what the Provider answered; one is followed by another only after an
    answer that the device was not reached, where the candidate allows it; and the result is
    a success exactly when the last one is. *)
Record routed {C X R : Type} (offers : C -> option X) (offline : C -> bool) (may : C -> X -> bool)
    (attempt : C -> result ProviderError R) (candidates : list C)
    (trace : list (C * result ProviderError R)) (outcome : result ProviderError (C * R)) : Prop := {
  ro_order : trace.*1 `sublist_of` candidates;
  ro_made c r : (c, r) ∈ trace -> is_Some (offers c) /\ offline c = false /\ r = attempt c;
  ro_retry i c r : trace !! i = Some (c, r) -> (S i < length trace)%nat ->
    exists e x, r = Err e /\ not_reached e /\ offers c = Some x /\ may c x = true;
  ro_outcome :
    match outcome with
    | Ok (c, r) => last trace = Some (c, Ok r)
    | Err _ => forall c r, (c, r) ∈ trace -> exists e, r = Err e
    end;
}.

Section routed.
Context {C X R : Type} (offers : C -> option X) (offline : C -> bool) (may : C -> X -> bool)
  (attempt : C -> result ProviderError R) (unsupported : ProviderError) (n : nat).

Let loop := route_loop offers offline may attempt unsupported n.
Let promise := routed offers offline may attempt.

Lemma routed_skip c l trace outcome : promise l trace outcome -> promise (c :: l) trace outcome.
Proof using.
  intros []. constructor; [by apply sublist_cons|done..].
Qed.

Lemma routed_none l e : promise l [] (Err e).
Proof using.
  constructor; [apply sublist_nil_l|by intros c r ?%not_elem_of_nil|done|].
  by intros c r ?%not_elem_of_nil.
Qed.

(** The last attempt. *)
Lemma routed_last c l r : is_Some (offers c) -> offline c = false -> attempt c = r ->
  promise (c :: l) [(c, r)] (match r with Ok a => Ok (c, a) | Err e => Err e end).
Proof using.
  intros Ho Hoff <-. constructor.
  - apply sublist_skip, sublist_nil_l.
  - intros c' r' [= -> ->]%list_elem_of_singleton. done.
  - intros [|i] c' r' Hi Hlt; simpl in *; [lia|done].
  - destruct (attempt c) as [a|e]; [done|].
    intros c' r' [= -> ->]%list_elem_of_singleton. eauto.
Qed.

Lemma routed_retry c x l e trace outcome :
  offers c = Some x -> offline c = false -> attempt c = Err e -> not_reached e ->
  may c x = true -> promise l trace outcome -> promise (c :: l) ((c, Err e) :: trace) outcome.
Proof using.
  intros Ho Hoff Ha Hf Hm []. constructor.
  - by apply sublist_skip.
  - intros c' r' [[= -> ->]|?]%elem_of_cons; [|auto]. by rewrite Ho, Ha.
  - intros [|i] c' r' Hi Hlt; cbn [lookup list_lookup length] in *; [|eapply ro_retry0; [done|lia]].
    injection Hi as <- <-. eauto 10.
  - destruct outcome as [[c' a]|e'].
    + destruct trace; [done|]. by rewrite last_cons_cons.
    + intros c' r' [[= -> ->]|?]%elem_of_cons; eauto.
Qed.

Lemma route_loop_routed index l : promise l (loop index l).1 (loop index l).2.
Proof using.
  revert index. induction l as [|c l IH]; intros index; unfold loop; cbn [route_loop].
  { apply routed_none. }
  destruct (offers c) as [x|] eqn:Ho; [|apply routed_skip, IH].
  destruct (offline c) eqn:Hoff.
  { destruct (may c x && _); [apply routed_skip, IH|apply routed_none]. }
  destruct (attempt c) as [r|e] eqn:Ha.
  { apply (routed_last c l (Ok r)); [by rewrite Ho|done|done]. }
  destruct (negb (canFallback e) || negb (may c x) || _) eqn:Hs.
  { apply (routed_last c l (Err e)); [by rewrite Ho|done|done]. }
  apply orb_false_iff in Hs as [[Hf Hm]%orb_false_iff _]. apply negb_false_iff in Hf, Hm.
  specialize (IH (S index)). unfold loop in IH. destruct (route_loop _ _ _ _ _ _ (S index) l).
  eapply routed_retry; try done. unfold canFallback in Hf.
  apply orb_true_iff in Hf as [Hf|Hf]; [left; by apply is_unavailable_wraps|right; by apply is_not_found_wraps].
Qed.
End routed.

(** ** Ranked candidates *)

Lemma StronglySorted_fmap {A B} (R : relation B) (f : A -> B) l :
  StronglySorted R (f <$> l) <-> StronglySorted (fun a b => R (f a) (f b)) l.
Proof.
  induction l as [|x l IH]; [by split; constructor|]. rewrite fmap_cons.
  split; intros H; inversion_clear H; (constructor; [by apply IH|by apply Forall_fmap]).
Qed.

Lemma fmap_imap {A B C} (f : nat -> A -> B) (g : B -> C) (h : A -> C) l :
  (forall i a, g (f i a) = h a) -> g <$> imap f l = h <$> l.
Proof.
  intros H. apply list_eq. intros i. rewrite !list_lookup_fmap, list_lookup_imap.
  destruct (l !! i); simpl; [by rewrite H|done].
Qed.

Section ranked.
Context {C P : Type} (source : C -> SourceRef) (path : C -> P) (priority : C -> Z).

(** The candidates of a route, sorted; and those the bindings stand for. *)
Lemma ranked_explicit l : NoDup ((fun c => (source c, path c)) <$> l) ->
  NoDup (stable_sort (fun i j => priority i <? priority j) l) /\
  StronglySorted (fun a b => priority a <= priority b)
    (stable_sort (fun i j => priority i <? priority j) l).
Proof.
  intros Hnd. split; [|apply stable_sort_sorted].
  rewrite (stable_sort_perm priority). by eapply NoDup_fmap_1.
Qed.

Lemma ranked_implicit (f : nat -> Binding -> C) l :
  (forall i b, source (f i b) = b_Source b) -> (forall i b, priority (f i b) = b_Priority b) ->
  (forall b, b ∈ l -> 0 <= b_Priority b <= 1000) -> NoDup (b_Source <$> l) ->
  NoDup (imap f (SortBindings l)) /\
  StronglySorted (fun a b => priority a <= priority b) (imap f (SortBindings l)).
Proof.
  intros Hs Hp Hr Hnd. split.
  - apply (NoDup_fmap_1 source). rewrite (fmap_imap f source b_Source) by done.
    unfold SortBindings. by rewrite merge_sort_Permutation.
  - apply StronglySorted_fmap. rewrite (fmap_imap f priority b_Priority) by done.
    apply StronglySorted_fmap. pose proof (SortBindings_sorted l Hr) as H.
    induction H as [|b l' Hl IH HF]; constructor; [done|].
    eapply Forall_impl; [exact HF|]. intros b' [?|[? _]]; lia.
Qed.
End ranked.

Lemma ranked_properties config path : logical_ok config ->
  let l := propertyCandidates config path (SortBindings (l_Bindings config)) in
  NoDup l /\ StronglySorted (fun a b => pc_Priority a <= pc_Priority b) l.
Proof.
  intros Hc. unfold propertyCandidates.
  destruct (explicitPropertyRoute config path) as [r|] eqn:E.
  - apply first_elem in E as (r' & Hr & E). case_bool_decide; simplify_eq.
    apply (ranked_explicit pc_Source pc_Path). apply (lo_property_routes config Hc r Hr).
  - apply (ranked_implicit pc_Source pc_Priority); [done|done| |apply (lo_distinct config Hc)].
    intros b Hb. apply (lo_bindings config Hc b Hb).
Qed.

Lemma ranked_commands config path : logical_ok config ->
  let l := commandCandidates config path (SortBindings (l_Bindings config)) in
  NoDup l /\ StronglySorted (fun a b => co_Priority a <= co_Priority b) l.
Proof.
  intros Hc. unfold commandCandidates.
  destruct (explicitCommandRoute config path) as [r|] eqn:E.
  - apply first_elem in E as (r' & Hr & E). case_bool_decide; simplify_eq.
    apply (ranked_explicit co_Source co_Path). apply (lo_command_routes config Hc r Hr).
  - apply (ranked_implicit co_Source co_Priority); [done|done| |apply (lo_distinct config Hc)].
    intros b Hb. apply (lo_bindings config Hc b Hb).
Qed.

(** ** Requests *)

(** Routed as promised, each candidate asked once at most and by rank. *)
Definition routed_once {C X R} (offers : C -> option X) (offline : C -> bool) (may : C -> X -> bool)
    (attempt : C -> result ProviderError R) (priority : C -> Z) (candidates : list C)
    (trace : list (C * result ProviderError R)) (outcome : result ProviderError (C * R)) : Prop :=
  routed offers offline may attempt candidates trace outcome /\
  NoDup trace.*1 /\ StronglySorted (fun a b => priority a <= priority b) trace.*1.

Lemma routed_ranked {C X R} (offers : C -> option X) offline may
    (attempt : C -> result ProviderError R) (priority : C -> Z) candidates trace outcome :
  routed offers offline may attempt candidates trace outcome ->
  NoDup candidates /\ StronglySorted (fun a b => priority a <= priority b) candidates ->
  routed_once offers offline may attempt priority candidates trace outcome.
Proof.
  intros Hr [Hnd Hs]. pose proof (ro_order _ _ _ _ _ _ _ Hr) as Ho. split_and!; [done|..].
  - by eapply sublist_NoDup.
  - by eapply sublist_StronglySorted.
Qed.

(** What becomes of the outcome: a failure changes nothing, an updated source is taken over. *)
Definition answered {C} (source : C -> SourceRef) (o : orders) (clock : string -> Time)
    (later : LogicalState) (outcome : result ProviderError (C * Device))
    (later' : LogicalState) (result : result ProviderError Device) : Prop :=
  match outcome with
  | Err e => later' = later /\ result = Err e
  | Ok (c, updated) => (later', result) = finalizeLogicalSourceSnapshot o clock later (source c) updated
  end.

(** C28: A write or a command for a logical device is sent to its ranked candidates one at
    a time, never to an offline source and never twice to the same one; a further
    candidate is tried only after a Provider answered that it was not available, or that it
    has no such device, and where the candidate allows fallback, for a command only when it
    is idempotent. *)
Theorem requests_routed o clock providers st later config
    (Hconfig : ValidateLogical config = Ok tt) :
  (forall request, logicalDevices st !! wr_DeviceID request = Some config ->
     let '(trace, outcome) := write_attempts providers st config (wr_Path request) (wr_Value request) in
     routed_once (fun c => sourceProperty (source_of st (pc_Source c)) (pc_Path c))
       (fun c => is_offline (source_of st (pc_Source c))) (fun c _ => pc_AllowFallback c)
       (fun c => writeConcreteProperty providers c (wr_Value request)) pc_Priority
       (propertyCandidates config (wr_Path request) (SortBindings (l_Bindings config))) trace outcome /\
     exists later' result,
       writeLogicalProperty o clock providers st later request = (later', trace, result) /\
       answered pc_Source o clock later outcome later' result) /\
  (forall request, logicalDevices st !! cr_DeviceID request = Some config ->
     let '(trace, outcome) := execute_attempts providers st config (cr_Path request)
                                (cr_Parameters request) (cr_IdempotencyKey request) in
     routed_once (fun c => sourceCommand (source_of st (co_Source c)) (co_Path c))
       (fun c => is_offline (source_of st (co_Source c)))
       (fun c command => co_AllowFallback c && cd_Idempotent command)
       (fun c => executeConcreteCommand providers c (cr_Parameters request) (cr_IdempotencyKey request))
       co_Priority
       (commandCandidates config (cr_Path request) (SortBindings (l_Bindings config))) trace outcome /\
     exists later' result,
       executeLogicalCommand o clock providers st later request = (later', trace, result) /\
       answered co_Source o clock later outcome later' result).
Proof.
  apply validate_logical_ok in Hconfig. split; intros request Hd.
  - destruct (write_attempts providers st config _ _) as [trace outcome] eqn:E. split.
    + apply routed_ranked; [|by apply ranked_properties].
      pose proof (route_loop_routed (fun c => sourceProperty (source_of st (pc_Source c)) (pc_Path c))
        (fun c => is_offline (source_of st (pc_Source c))) (fun c _ => pc_AllowFallback c)
        (fun c => writeConcreteProperty providers c (wr_Value request)) ErrPropertyUnsupported
        (length (propertyCandidates config (wr_Path request) (SortBindings (l_Bindings config)))) 0
        (propertyCandidates config (wr_Path request) (SortBindings (l_Bindings config)))) as H.
      unfold write_attempts in E. by rewrite E in H.
    + unfold writeLogicalProperty. rewrite Hd, E. destruct outcome as [[c updated]|e]; [|by do 2 eexists].
      simpl. destruct (finalizeLogicalSourceSnapshot _ _ _ _ _). by do 2 eexists.
  - destruct (execute_attempts providers st config _ _ _) as [trace outcome] eqn:E. split.
    + apply routed_ranked; [|by apply ranked_commands].
      pose proof (route_loop_routed (fun c => sourceCommand (source_of st (co_Source c)) (co_Path c))
        (fun c => is_offline (source_of st (co_Source c)))
        (fun c command => co_AllowFallback c && cd_Idempotent command)
        (fun c => executeConcreteCommand providers c (cr_Parameters request) (cr_IdempotencyKey request))
        ErrCommandUnsupported
        (length (commandCandidates config (cr_Path request) (SortBindings (l_Bindings config)))) 0
        (commandCandidates config (cr_Path request) (SortBindings (l_Bindings config)))) as H.
      unfold execute_attempts in E. by rewrite E in H.
    + unfold executeLogicalCommand. rewrite Hd, E. destruct outcome as [[c updated]|e]; [|by do 2 eexists].
      simpl. destruct (finalizeLogicalSourceSnapshot _ _ _ _ _). by do 2 eexists.
Qed.

(** ** Rebuilding *)

(** The sequence number of the new snapshot of a device. *)
Definition bump (previous : option Device) (item : Device) : Device :=
  match previous with
  | Some previous =>
      if d_Sequence item <=? d_Sequence previous
      then with_Sequence item (u64_succ (d_Sequence previous)) else item
  | None => item
  end.

(** What a rebuild makes of the logical device [id], if it can be composed. *)
Definition rebuilt (ords : gmap string Device -> list string) (clock : string -> Time)
    (st : LogicalState) (id : string) : option (Device * list RouteExplanation) :=
  config ← logicalDevices st !! id;
  '(item, explanations) ← composeLogicalSnapshot ords (clock id) config (logicalSourceSnapshots st);
  Some (bump (logicalSnapshots st !! id) item, explanations).

(** The entry at [id] afterwards. *)
Definition updated {A} (ids : list string) (id : string) (new : option A) (old : option A) : option A :=
  if bool_decide (id ∈ ids) then match new with Some a => Some a | None => old end else old.

Section rebuild.
Context (ords : gmap string Device -> list string) (clock : string -> Time).

(** Each device is stored under its identifier. *)
Let keyed (st : LogicalState) : Prop := forall id c, logicalDevices st !! id = Some c -> l_ID c = id.

Lemma rebuild_one_eq st result id : keyed st ->
  rebuild_one ords clock (st, result) id =
  match rebuilt ords clock st id with
  | None => (st, result)
  | Some (item, explanations) =>
      (MkLogicalState (logicalDevices st) (logicalSourceIDs st) (logicalSourceSnapshots st)
         (<[id := item]> (logicalSnapshots st)) (<[id := explanations]> (logicalExplanations st))
         (<[id := ProviderID]> (routes st)), result ++ [item])
  end.
Proof.
  intros Hk. unfold rebuild_one, rebuilt. destruct (logicalDevices st !! id) as [c|] eqn:Hc; [|done].
  rewrite (Hk id c Hc). simpl. destruct (composeLogicalSnapshot _ _ _ _) as [[item ex]|]; [|done].
  done.
Qed.

Lemma updated_cons {A} ids id0 id (new new' old mid : option A) : id0 ∉ ids ->
  (id = id0 -> mid = match new with Some a => Some a | None => old end) ->
  (id <> id0 -> mid = old /\ new' = new) ->
  updated ids id new' mid = updated (id0 :: ids) id new old.
Proof.
  unfold updated. intros Hn He Hne. destruct (decide (id = id0)) as [->|Hd].
  - rewrite bool_decide_eq_false_2 by done. rewrite bool_decide_eq_true_2 by left. auto.
  - rewrite (bool_decide_ext (id ∈ id0 :: ids) (id ∈ ids)) by (rewrite elem_of_cons; tauto).
    by destruct (Hne Hd) as [-> ->].
Qed.

Lemma rebuild_fold ids st result : NoDup ids -> keyed st ->
  let '(st', result') := foldl (rebuild_one ords clock) (st, result) ids in
  logicalDevices st' = logicalDevices st /\ logicalSourceIDs st' = logicalSourceIDs st /\
  logicalSourceSnapshots st' = logicalSourceSnapshots st /\
  (forall id, logicalSnapshots st' !! id =
     updated ids id (fst <$> rebuilt ords clock st id) (logicalSnapshots st !! id)) /\
  (forall id, logicalExplanations st' !! id =
     updated ids id (snd <$> rebuilt ords clock st id) (logicalExplanations st !! id)) /\
  (forall id, routes st' !! id =
     updated ids id ((fun _ => ProviderID) <$> rebuilt ords clock st id) (routes st !! id)) /\
  result' = result ++ omap (fun id => fst <$> rebuilt ords clock st id) ids.
Proof.
  revert st result. induction ids as [|id0 ids IH]; intros st result Hnd Hk; cbn [foldl].
  { split_and!; try done. by rewrite app_nil_r. }
  apply NoDup_cons in Hnd as [Hn Hnd]. rewrite rebuild_one_eq by done.
  destruct (rebuilt ords clock st id0) as [[item ex]|] eqn:E.
  - set (st1 := MkLogicalState _ _ _ _ _ _).
    specialize (IH st1 (result ++ [item]) Hnd Hk). destruct (foldl _ _ ids) as [st' result'].
    assert (Hsame : forall id, id <> id0 -> rebuilt ords clock st1 id = rebuilt ords clock st id).
    { intros id Hne. unfold rebuilt, st1. cbn -[composeLogicalSnapshot]. by rewrite lookup_insert_ne. }
    destruct IH as (H1 & H2 & H3 & Hs & Hex & Hr & ->). split_and!; try done.
    1: intros id; rewrite Hs.
    2: intros id; rewrite Hex.
    3: intros id; rewrite Hr.
    1-3: apply updated_cons; [done|intros ->; rewrite E; apply lookup_insert_eq|];
      intros Hne; split; [by apply lookup_insert_ne|by rewrite Hsame].
    cbn [omap list_omap]. rewrite E. simpl. rewrite <- app_assoc. simpl. do 2 f_equal.
    apply list_omap_ext, Forall_Forall2_diag, Forall_forall. intros id Hid. rewrite Hsame; [done|].
    by intros ->.
  - specialize (IH st result Hnd Hk). destruct (foldl _ _ ids) as [st' result'].
    destruct IH as (H1 & H2 & H3 & Hs & Hex & Hr & ->). split_and!; try done.
    1: intros id; rewrite Hs.
    2: intros id; rewrite Hex.
    3: intros id; rewrite Hr.
    1-3: apply updated_cons; [done|intros ->; by rewrite E|done].
    cbn [omap list_omap]. by rewrite E.
Qed.
End rebuild.

Definition keyed_devices (st : LogicalState) : Prop :=
  forall id c, logicalDevices st !! id = Some c -> l_ID c = id.

Lemma rebuild_all o clock st : orders_ok o -> keyed_devices st ->
  let '(st', published) := rebuildLogicalSnapshotsLocked o clock st in
  logicalDevices st' = logicalDevices st /\ logicalSourceIDs st' = logicalSourceIDs st /\
  logicalSourceSnapshots st' = logicalSourceSnapshots st /\
  (forall id, logicalSnapshots st' !! id =
     _ ← logicalDevices st !! id;
     match rebuilt (ord_sources o) clock st id with
     | Some (item, _) => Some item
     | None => logicalSnapshots st !! id
     end) /\
  (forall id, logicalExplanations st' !! id = snd <$> rebuilt (ord_sources o) clock st id) /\
  (forall d, d ∈ published <-> exists id, fst <$> rebuilt (ord_sources o) clock st id = Some d).
Proof.
  intros [_ Ho] Hk. unfold rebuildLogicalSnapshotsLocked.
  set (cleared := MkLogicalState _ _ _ _ _ _).
  pose proof (rebuild_fold (ord_sources o) clock (ord_devices o (logicalDevices st)) cleared []
    (proj1 (Ho _)) Hk) as H.
  destruct (foldl _ _ _) as [st' published]. destruct H as (H1 & H2 & H3 & Hs & He & _ & ->).
  assert (Hin : forall id, id ∈ ord_devices o (logicalDevices st) <-> is_Some (logicalDevices st !! id))
    by apply Ho.
  assert (Hr : forall id, rebuilt (ord_sources o) clock cleared id = rebuilt (ord_sources o) clock st id)
    by done.
  cbn [logicalDevices logicalSourceIDs logicalSourceSnapshots logicalSnapshots logicalExplanations].
  split_and!; [done..| | |].
  - intros id. rewrite map_lookup_filter, Hs, H1, Hr. unfold updated.
    rewrite (bool_decide_ext _ _ (Hin id)).
    destruct (logicalDevices st !! id) as [c|] eqn:Ec.
    + rewrite bool_decide_eq_true_2 by by eexists. cbn [mbind option_bind].
      assert (Hg : forall x : option Device, x ≫= (fun d =>
        guard (is_Some (logicalDevices cleared !! (id, d).1));; Some d) = x).
      { intros [d|]; [|done]. cbn [mbind option_bind fst]. rewrite option_guard_True; [done|].
        cbn. rewrite Ec. by eexists. }
      rewrite Hg. by destruct (rebuilt _ _ _ id) as [[item ex]|].
    + cbn [mbind option_bind].
      destruct (if bool_decide _ then _ else _) as [d|]; [|done]. cbn [mbind option_bind fst].
      rewrite option_guard_False; [done|]. cbn. rewrite Ec. apply is_Some_None.
  - intros id. rewrite He, Hr. unfold updated. cbn. rewrite lookup_empty.
    rewrite (bool_decide_ext _ _ (Hin id)). case_bool_decide as Hc.
    + by destruct (rebuilt _ _ _ id) as [[item ex]|].
    + unfold rebuilt. apply eq_None_not_Some in Hc. by rewrite Hc.
  - intros d. simpl. rewrite list_elem_of_omap. split; [intros (id & _ & E); eauto|].
    intros (id & E). exists id. split; [|done]. apply Hin. unfold rebuilt in E.
    destruct (logicalDevices st !! id); [by eexists|done].
Qed.

(** ** The invariant of the manager *)

Record logical_state_ok (st : LogicalState) : Prop := {
  ls_config id c : logicalDevices st !! id = Some c -> ValidateLogical c = Ok tt /\ l_ID c = id;
  ls_source k ids : logicalSourceIDs st !! k = Some ids <->
    exists id c b, logicalDevices st !! id = Some c /\ b ∈ l_Bindings c /\
      source_key (b_Source b) = k /\ ids = {[id]};
  ls_snapshot id d : logicalSnapshots st !! id = Some d ->
    is_Some (logicalDevices st !! id) /\ d_ID d = id /\ d_ProviderID d = ProviderID /\
    ValidateStructure d = Ok tt /\ in_u64 (d_Sequence d);
  ls_explanation id : is_Some (logicalExplanations st !! id) -> is_Some (logicalSnapshots st !! id);
}.

Definition empty_state : LogicalState := MkLogicalState ∅ ∅ ∅ ∅ ∅ ∅.

Definition with_routes (st : LogicalState) (r : gmap string string) : LogicalState :=
  MkLogicalState (logicalDevices st) (logicalSourceIDs st) (logicalSourceSnapshots st)
    (logicalSnapshots st) (logicalExplanations st) r.

(** One call that changes the logical state; the rest of the manager changes the routes. *)
Inductive lstep (st : LogicalState) : LogicalState -> Prop :=
| lstep_set items : lstep st (SetLogicalDevices st items).1
| lstep_replace o clock items : orders_ok o ->
    lstep st (replaceLogicalSourceSnapshotsLocked o clock st items).1
| lstep_update o clock providerID item : orders_ok o ->
    lstep st (updateLogicalSourceSnapshotLocked o clock st providerID item).1.1
| lstep_finalize o clock source item : orders_ok o ->
    lstep st (finalizeLogicalSourceSnapshot o clock st source item).1
| lstep_routes r : lstep st (with_routes st r).

Inductive lreachable : LogicalState -> Prop :=
| lreachable_empty : lreachable empty_state
| lreachable_step st st' : lreachable st -> lstep st st' -> lreachable st'.

Lemma each_inv {E S A} (I : S -> Prop) (f : S -> A -> result E S) l s s' :
  (forall s x s', f s x = Ok s' -> I s -> I s') -> each f s l = Ok s' -> I s -> I s'.
Proof.
  intros Hf. revert s. induction l as [|x l IH]; intros s; cbn [each]; [by intros [= <-]|].
  destruct (f s x) as [s0|] eqn:Hfx; [|done]. eauto.
Qed.

Lemma link_sources_ok id m l m' : each (link_source id) m l = Ok m' ->
  (forall k, k ∈ (fun b => source_key (b_Source b)) <$> l -> m !! k = None) /\
  forall k, m' !! k =
    if bool_decide (k ∈ (fun b => source_key (b_Source b)) <$> l) then Some {[id]} else m !! k.
Proof.
  revert m. induction l as [|b l IH]; intros m; cbn [each].
  { intros [= <-]. split; [|done]. by intros k ?%not_elem_of_nil. }
  unfold link_source at 1. fold (source_key (b_Source b)). cbv zeta.
  change (providerDeviceKey (sr_ProviderID (b_Source b)) (sr_DeviceID (b_Source b)))
    with (source_key (b_Source b)).
  destruct (m !! source_key (b_Source b)) as [x|] eqn:Hm; simpl; [done|].
  intros [Hn Hl]%IH. split.
  - intros k [->|Hk]%elem_of_cons; [done|]. specialize (Hn k Hk).
    apply lookup_insert_None in Hn as [? _]. done.
  - intros k. rewrite Hl. destruct (decide (k = source_key (b_Source b))) as [->|Hne].
    + rewrite (bool_decide_eq_true_2 (_ ∈ _ :: _)) by left. case_bool_decide; [done|].
      apply lookup_insert_eq.
    + rewrite lookup_insert_ne by done.
      by rewrite (bool_decide_ext (k ∈ source_key (b_Source b) :: _) (k ∈ (fun b => source_key (b_Source b)) <$> l))
        by (rewrite elem_of_cons; tauto).
Qed.

(** The two maps of the configuration agree. *)
Definition configs_ok (acc : gmap string LogicalConfig * gmap string (gset string)) : Prop :=
  (forall id c, acc.1 !! id = Some c -> ValidateLogical c = Ok tt /\ l_ID c = id) /\
  forall k ids, acc.2 !! k = Some ids <->
    exists id c b, acc.1 !! id = Some c /\ b ∈ l_Bindings c /\
      source_key (b_Source b) = k /\ ids = {[id]}.

Lemma configs_ok_empty : configs_ok (∅, ∅).
Proof.
  split; [done|]. intros k ids. simpl. rewrite lookup_empty.
  split; [done|]. intros (id & c & b & Hc & _). by rewrite lookup_empty in Hc.
Qed.

Lemma add_config_ok acc item acc' : add_config acc item = Ok acc' -> configs_ok acc -> configs_ok acc'.
Proof.
  destruct acc as [configs bySource]. unfold add_config. cbn [fst snd].
  destruct (ValidateLogical item) as [[]|] eqn:Hv; [|done].
  destruct (configs !! l_ID item) as [x|] eqn:Hid; simpl; [done|].
  destruct (each _ bySource _) as [m|] eqn:El; [|done]. intros [= <-] [Hc Hs].
  apply link_sources_ok in El as [Hfree Hm]. unfold configs_ok. cbn [fst snd] in *. split.
  - intros id c [[<- <-]|[_ ?]]%lookup_insert_Some; [done|auto].
  - intros k ids. rewrite Hm. case_bool_decide as Hk.
    + apply list_elem_of_fmap in Hk as (b & -> & Hb). split.
      * intros [= <-]. exists (l_ID item), item, b. by rewrite lookup_insert_eq.
      * intros (id & c & b' & [[<- <-]|[Hne Hc']]%lookup_insert_Some & Hb' & Hk' & ->); [done|].
        assert (bySource !! source_key (b_Source b) = Some {[id]}) as E.
        { apply Hs. by exists id, c, b'. }
        rewrite Hfree in E; [done|]. apply list_elem_of_fmap. by exists b.
    + rewrite Hs. split.
      * intros (id & c & b & Hc' & ? & ? & ?). exists id, c, b.
        rewrite lookup_insert_ne; [done|]. intros <-. by rewrite Hid in Hc'.
      * intros (id & c & b & [[<- <-]|[Hne Hc']]%lookup_insert_Some & Hb & Hk' & ?).
        { destruct Hk. rewrite <- Hk'. by apply (list_elem_of_fmap_2 (fun b => source_key (b_Source b))). }
        by exists id, c, b.
Qed.

Lemma set_ok st items : logical_state_ok st -> logical_state_ok (SetLogicalDevices st items).1.
Proof.
  intros Hst. unfold SetLogicalDevices. destruct (each add_config _ _) as [[configs bySource]|] eqn:E; [|done].
  apply (each_inv configs_ok) in E as [Hc Hs]; [|apply add_config_ok|apply configs_ok_empty].
  destruct (existsb _ _); [done|]. constructor; cbn [fst snd logicalDevices logicalSourceIDs
    logicalSnapshots logicalExplanations]; [exact Hc|exact Hs|..].
  - intros id d [Hd Hg]%map_lookup_filter_Some. destruct (ls_snapshot st Hst id d Hd) as (_ & H).
    split; [|done]. destruct (configs !! id) eqn:Ec; [by eexists|]. destruct Hg. cbn.
    split; [by eexists|done].
  - intros id [ex [He Hg]%map_lookup_filter_Some].
    destruct (ls_explanation st Hst id) as [d Hd]; [by eexists|].
    exists d. by apply map_lookup_filter_Some.
Qed.

Lemma compose_some ords now config sources item ex :
  composeLogicalSnapshot ords now config sources = Some (item, ex) ->
  ValidateStructure item = Ok tt /\ d_ID item = l_ID config /\ d_ProviderID item = ProviderID /\
  d_Sequence item = 0.
Proof.
  unfold composeLogicalSnapshot. cbv zeta. destruct (_ =? 0)%nat; [done|].
  destruct (foldl _ (foldl _ _ _) _) as [endpoints explanations].
  destruct (ValidateStructure _) as [[]|] eqn:Hv; [|done]. intros [= <- <-]. done.
Qed.

Lemma with_Sequence_valid d n : ValidateStructure (with_Sequence d n) = ValidateStructure d.
Proof. by destruct d. Qed.

Lemma bump_ok previous item : d_Sequence item = 0 ->
  ValidateStructure (bump previous item) = ValidateStructure item /\
  d_ID (bump previous item) = d_ID item /\ d_ProviderID (bump previous item) = d_ProviderID item /\
  in_u64 (d_Sequence (bump previous item)).
Proof.
  intros H0. unfold bump. destruct previous as [p|]; [destruct (_ <=? _)|].
  - rewrite with_Sequence_valid. destruct item. simpl. split_and!; try done. apply u64_succ_range.
  - by rewrite H0.
  - by rewrite H0.
Qed.

Lemma rebuild_ok o clock st : orders_ok o -> logical_state_ok st ->
  logical_state_ok (rebuildLogicalSnapshotsLocked o clock st).1.
Proof.
  intros Ho Hst. pose proof (rebuild_all o clock st Ho (fun id c H => proj2 (ls_config st Hst id c H))) as H.
  destruct (rebuildLogicalSnapshotsLocked o clock st) as [st' published].
  destruct H as (H1 & H2 & H3 & Hs & He & _). constructor; cbn [fst].
  - rewrite H1. apply Hst.
  - rewrite H1, H2. apply Hst.
  - intros id d. rewrite Hs, H1. destruct (logicalDevices st !! id) as [c|] eqn:Hc; simpl; [|done].
    destruct (rebuilt _ _ _ id) as [[item ex]|] eqn:Hr; [|intros Hd; by apply ls_snapshot in Hd as (_ & ?)].
    intros [= <-]. split; [by eexists|]. unfold rebuilt in Hr. rewrite Hc in Hr. simpl in Hr.
    destruct (composeLogicalSnapshot _ _ _ _) as [[item' ex']|] eqn:Hcomp; simpl in Hr; [|done].
    injection Hr as <- <-. apply compose_some in Hcomp as (Hv & Hid & Hp & H0).
    destruct (bump_ok (logicalSnapshots st !! id) item' H0) as (-> & -> & -> & ?).
    rewrite Hid, Hp. destruct (ls_config st Hst id c Hc) as [_ ->]. done.
  - intros id. rewrite He, Hs. destruct (rebuilt _ _ _ id) as [[item ex]|] eqn:Hr;
      [|by intros []]. intros _. unfold rebuilt in Hr.
    destruct (logicalDevices st !! id); [by eexists|done].
Qed.

Lemma finalize_state o clock st source item : exists item',
  (finalizeLogicalSourceSnapshot o clock st source item).1 = st \/
  (finalizeLogicalSourceSnapshot o clock st source item).1 =
    (rebuildLogicalSnapshotsLocked o clock (with_sources st item')).1.
Proof.
  unfold finalizeLogicalSourceSnapshot. cbv zeta.
  destruct (ValidateStructure _); [|exists ∅; by left].
  exists (<[source_key source := NormalizeAvailability (with_ProviderID item (sr_ProviderID source))]>
            (logicalSourceSnapshots st)). right.
  by destruct (rebuildLogicalSnapshotsLocked _ _ _).
Qed.

Lemma with_sources_ok st m : logical_state_ok st -> logical_state_ok (with_sources st m).
Proof. by intros []. Qed.

Lemma lstep_ok st st' : logical_state_ok st -> lstep st st' -> logical_state_ok st'.
Proof.
  intros Hst [items|o clock items Ho|o clock providerID item Ho|o clock source item Ho|r].
  - by apply set_ok.
  - by apply rebuild_ok, with_sources_ok.
  - unfold updateLogicalSourceSnapshotLocked. destruct (logicalSourceIDs st !! _); [|done].
    by apply rebuild_ok, with_sources_ok.
  - destruct (finalize_state o clock st source item) as [m [-> | ->]]; [done|].
    by apply rebuild_ok, with_sources_ok.
  - by destruct Hst.
Qed.

Lemma lreachable_ok st : lreachable st -> logical_state_ok st.
Proof.
  induction 1 as [|st st' _ IH Hstep]; [|by eapply lstep_ok].
  constructor; simpl; [done| |done|by intros id []].
  intros k ids. rewrite lookup_empty. split; [done|].
  intros (id & c & b & Hc & _). by rewrite lookup_empty in Hc.
Qed.

(** ** Properties *)

(** Whatever calls are made, every logical device is valid, no concrete device is
    linked to two of them, the table of linked sources is the one of their bindings, and
    the snapshots are valid devices of configured identifiers. *)
Theorem logical_manager_invariant st : lreachable st ->
  logical_state_ok st /\
  forall id id' c c' b b', logicalDevices st !! id = Some c -> logicalDevices st !! id' = Some c' ->
    b ∈ l_Bindings c -> b' ∈ l_Bindings c' -> b_Source b = b_Source b' -> id = id'.
Proof.
  intros Hst%lreachable_ok. split; [done|]. intros id id' c c' b b' Hc Hc' Hb Hb' E.
  assert (H1 : logicalSourceIDs st !! source_key (b_Source b) = Some {[id]}).
  { apply ls_source; [done|]. by exists id, c, b. }
  assert (H2 : logicalSourceIDs st !! source_key (b_Source b) = Some {[id']}).
  { apply ls_source; [done|]. exists id', c', b'. by rewrite E. }
  rewrite H1 in H2. apply (inj Some) in H2. by apply (inj (singleton (B := gset string))) in H2.
Qed.

Lemma rebuilt_configured ords clock st id x :
  rebuilt ords clock st id = Some x -> is_Some (logicalDevices st !! id).
Proof. unfold rebuilt. destruct (logicalDevices st !! id); [by eexists|done]. Qed.

(** A rebuild recomposes every logical device that can be composed, with the next
    sequence number, and its explanations; it keeps the snapshot of the others, and
    publishes exactly the recomposed ones. *)
Theorem rebuild_publishes o clock st : orders_ok o -> lreachable st ->
  let '(st', published) := rebuildLogicalSnapshotsLocked o clock st in
  (forall id c, logicalDevices st !! id = Some c ->
     match composeLogicalSnapshot (ord_sources o) (clock id) c (logicalSourceSnapshots st) with
     | Some (item, explanations) =>
         logicalSnapshots st' !! id = Some (with_Sequence item
           (match logicalSnapshots st !! id with
            | Some previous => u64_succ (d_Sequence previous)
            | None => 0
            end)) /\
         logicalExplanations st' !! id = Some explanations
     | None => logicalSnapshots st' !! id = logicalSnapshots st !! id /\
               logicalExplanations st' !! id = None
     end) /\
  forall d, d ∈ published <-> exists id, is_Some (logicalExplanations st' !! id) /\
    logicalSnapshots st' !! id = Some d.
Proof.
  intros Ho Hst%lreachable_ok.
  pose proof (rebuild_all o clock st Ho (fun id c H => proj2 (ls_config st Hst id c H))) as H.
  destruct (rebuildLogicalSnapshotsLocked o clock st) as [st' published].
  destruct H as (_ & _ & _ & Hs & He & Hp). split.
  - intros id c Hc. rewrite Hs, He, Hc. cbn [mbind option_bind]. unfold rebuilt. rewrite Hc.
    cbn [mbind option_bind].
    destruct (composeLogicalSnapshot _ _ _ _) as [[item ex]|] eqn:Hcomp; [|done].
    apply compose_some in Hcomp as (_ & _ & _ & H0). split; [|done].
    cbn [mbind option_bind]. f_equal. unfold bump. rewrite H0.
    destruct (logicalSnapshots st !! id) as [p|] eqn:Hprev.
    + apply ls_snapshot in Hprev as (_ & _ & _ & _ & [Hseq _]); [|done].
      by rewrite (proj2 (Z.leb_le _ _) Hseq).
    + destruct item. simpl in *. by subst.
  - intros d. rewrite Hp. split.
    + intros [id Hd]. exists id. rewrite He, Hs.
      destruct (rebuilt (ord_sources o) clock st id) as [[item ex]|] eqn:Hr; [|done].
      destruct (rebuilt_configured _ _ _ _ _ Hr) as [c ->]. split; [by eexists|exact Hd].
    + intros (id & [ex Hex] & Hd). exists id. rewrite He in Hex. rewrite Hs in Hd.
      destruct (rebuilt _ _ _ id) as [[item ex']|]; [|done]. by destruct (logicalDevices st !! id).
Qed.

(** ** Concrete instances *)

Definition ex_orders : orders := MkOrders some_range some_range.
Lemma ex_orders_ok : orders_ok ex_orders.
Proof. split; intros m; apply range_of_some_range. Qed.

(** One logical device over two lamps, the preferred one offline. *)
Definition ex_state : LogicalState :=
  (replaceLogicalSourceSnapshotsLocked ex_orders (fun _ => 7)
     (SetLogicalDevices empty_state [ex_config]).1 ex_sources).1.

Lemma ex_state_reachable : lreachable ex_state.
Proof.
  apply (lreachable_step (SetLogicalDevices empty_state [ex_config]).1).
  - apply (lreachable_step empty_state); constructor.
  - apply lstep_replace, ex_orders_ok.
Qed.

Definition ex_providers : gmap string managedProvider :=
  <["mi" := MkProvider "running"
     (Some (fun r => Ok (ex_lamp (wr_DeviceID r) "mi" AvailabilityOnline false))) None None]>
  (<["gree" := MkProvider "running" (Some (fun _ => Err ErrProviderUnavailable)) None None]> ∅).

Definition ex_write : PropertyWriteRequest :=
  MkWriteRequest "both" (MkPropertyPath "main" "switch" "on") (BoolValue false).

Lemma requests_routed_witness :
  exists later' result,
    writeLogicalProperty ex_orders (fun _ => 8) ex_providers ex_state ex_state ex_write =
      (later', (write_attempts ex_providers ex_state ex_config (wr_Path ex_write) (wr_Value ex_write)).1,
       result) /\
    answered pc_Source ex_orders (fun _ => 8) ex_state
      (write_attempts ex_providers ex_state ex_config (wr_Path ex_write) (wr_Value ex_write)).2
      later' result.
Proof.
  destruct (requests_routed ex_orders (fun _ => 8) ex_providers ex_state ex_state ex_config
    ltac:(vm_compute; reflexivity)) as [Hw _].
  specialize (Hw ex_write ltac:(vm_compute; reflexivity)).
  destruct (write_attempts ex_providers ex_state ex_config _ _) as [trace outcome].
  exact (proj2 Hw).
Defined.

Lemma logical_manager_invariant_witness : logical_state_ok ex_state.
Proof. exact (proj1 (logical_manager_invariant ex_state ex_state_reachable)). Defined.

Lemma rebuild_publishes_witness :
  d_Sequence <$> logicalSnapshots (rebuildLogicalSnapshotsLocked ex_orders (fun _ => 9) ex_state).1
                 !! "both" = Some 1.
Proof.
  pose proof (rebuild_publishes ex_orders (fun _ => 9) ex_state ex_orders_ok ex_state_reachable) as H.
  destruct (rebuildLogicalSnapshotsLocked ex_orders (fun _ => 9) ex_state) as [st' published].
  destruct H as [H _]. specialize (H "both" ex_config ltac:(vm_compute; reflexivity)).
  assert (E : composeLogicalSnapshot (ord_sources ex_orders) ((fun _ => 9) "both") ex_config
    (logicalSourceSnapshots ex_state) = Some (ex_composed.1, ex_composed.2)) by (vm_compute; reflexivity).
  rewrite E in H. destruct H as [H _]. cbn [fst]. rewrite H. by vm_compute.
Defined.
