(* ===== verification/Sha256.v ===== *)
(** * SHA-256 and its uses

    The code derives identifiers from digests (crypto/sha256): those of the built-in
    mapping profiles and of the homes and rooms a user makes.  This file has the digest
    of FIPS 180-4, of which the tests below are the published examples, and the
    hexadecimal digits of encoding/hex. *)

From S2P Require Import Prelude.

(** ** Bytes and hexadecimal digits *)

Definition byte_of (a : ascii) : Z := Z.of_nat (nat_of_ascii a).
Definition ascii_of (z : Z) : ascii := ascii_of_nat (Z.to_nat (z mod 256)).
Fixpoint bytes_of (s : string) : list Z :=
  match s with EmptyString => [] | String a s => byte_of a :: bytes_of s end.

Definition hex_digit (z : Z) : ascii :=
  match String.get (Z.to_nat (z mod 16)) "0123456789abcdef" with Some a => a | None => NUL end.
(** [hex.EncodeToString] *)
Fixpoint hex (l : list Z) : string :=
  match l with
  | [] => ""
  | b :: l => String (hex_digit (Z.shiftr b 4)) (String (hex_digit b) (hex l))
  end.

(** ** The compression function *)

Definition two32 : Z := 2 ^ 32.
Definition add32 (a b : Z) : Z := (a + b) mod two32.
Definition rotr (n x : Z) : Z := Z.lor (Z.shiftr x n) (Z.shiftl x (32 - n) mod two32).
Definition not32 (x : Z) : Z := two32 - 1 - x.

Definition round_constants : list Z :=
  [1116352408; 1899447441; 3049323471; 3921009573; 961987163; 1508970993; 2453635748; 2870763221;
   3624381080; 310598401; 607225278; 1426881987; 1925078388; 2162078206; 2614888103; 3248222580;
   3835390401; 4022224774; 264347078; 604807628; 770255983; 1249150122; 1555081692; 1996064986;
   2554220882; 2821834349; 2952996808; 3210313671; 3336571891; 3584528711; 113926993; 338241895;
   666307205; 773529912; 1294757372; 1396182291; 1695183700; 1986661051; 2177026350; 2456956037;
   2730485921; 2820302411; 3259730800; 3345764771; 3516065817; 3600352804; 4094571909; 275423344;
   430227734; 506948616; 659060556; 883997877; 958139571; 1322822218; 1537002063; 1747873779;
   1955562222; 2024104815; 2227730452; 2361852424; 2428436474; 2756734187; 3204031479; 3329325298].
Definition initial_hash : list Z :=
  [1779033703; 3144134277; 1013904242; 2773480762; 1359893119; 2600822924; 528734635; 1541459225].

Definition big_sigma0 (x : Z) : Z := Z.lxor (rotr 2 x) (Z.lxor (rotr 13 x) (rotr 22 x)).
Definition big_sigma1 (x : Z) : Z := Z.lxor (rotr 6 x) (Z.lxor (rotr 11 x) (rotr 25 x)).
Definition small_sigma0 (x : Z) : Z := Z.lxor (rotr 7 x) (Z.lxor (rotr 18 x) (Z.shiftr x 3)).
Definition small_sigma1 (x : Z) : Z := Z.lxor (rotr 17 x) (Z.lxor (rotr 19 x) (Z.shiftr x 10)).
Definition choose (x y z : Z) : Z := Z.lxor (Z.land x y) (Z.land (not32 x) z).
Definition majority (x y z : Z) : Z := Z.lxor (Z.land x y) (Z.lxor (Z.land x z) (Z.land y z)).

(** The message schedule, the latest word first. *)
Fixpoint schedule (n : nat) (ws : list Z) : list Z :=
  match n with
  | O => ws
  | S n =>
      schedule n (add32 (add32 (small_sigma1 (nth 1 ws 0)) (nth 6 ws 0))
                    (add32 (small_sigma0 (nth 14 ws 0)) (nth 15 ws 0)) :: ws)
  end.

Definition sha_round (h : list Z) (kw : Z * Z) : list Z :=
  match h with
  | [a; b; c; d; e; f; g; i] =>
      let t1 := add32 (add32 i (big_sigma1 e)) (add32 (choose e f g) (add32 kw.1 kw.2)) in
      let t2 := add32 (big_sigma0 a) (majority a b c) in
      [add32 t1 t2; a; b; c; add32 d t1; e; f; g]
  | _ => h
  end.

Definition compress (h ws : list Z) : list Z :=
  zip_with add32 h
    (fold_left sha_round (zip round_constants (rev (schedule 48 (rev ws)))) h).

(** ** Padding and digests *)

Definition word (b : list Z) : Z := fold_left (fun acc x => Z.lor (Z.shiftl acc 8) x) b 0.
(** [n] groups of [k] elements. *)
Fixpoint groups {A} (n k : nat) (l : list A) : list (list A) :=
  match n with O => [] | S n => take k l :: groups n k (drop k l) end.
Definition be_bytes (n : nat) (x : Z) : list Z :=
  rev (map (fun i => Z.shiftr x (8 * Z.of_nat i) mod 256) (seq 0 n)).

Definition pad (l : list Z) : list Z :=
  let n := List.length l in
  let zeros := ((119 - n mod 64) mod 64)%nat in
  l ++ [128] ++ repeat 0 zeros ++ be_bytes 8 (8 * Z.of_nat n).

Definition Sum256 (l : list Z) : list Z :=
  let p := pad l in
  let blocks := groups (List.length p / 64)%nat 64 p in
  let h := fold_left (fun h b => compress h (map word (groups 16 4 b))) blocks initial_hash in
  mjoin (map (be_bytes 4) h).

(** The examples of the standard. *)
Example sha256_empty : hex (Sum256 (bytes_of "")) =
  "e3b0c44298fc1c149afbf4c8996fb92427ae41e4649b934ca495991b7852b855".
Proof. vm_compute. reflexivity. Qed.
Example sha256_abc : hex (Sum256 (bytes_of "abc")) =
  "ba7816bf8f01cfea414140de5dae2223b00361a396177a9cb410ff61f20015ad".
Proof. vm_compute. reflexivity. Qed.
Example sha256_two_blocks :
  hex (Sum256 (bytes_of "abcdbcdecdefdefgefghfghighijhijkijkljklmklmnlmnomnopnopq")) =
  "248d6a61d20638b8e5c026930c3e6039a33ce45964ff2167f6ecedd419db06c1".
Proof. vm_compute. reflexivity. Qed.

Lemma pad_length l : exists k, List.length (pad l) = (k * 64)%nat.
Proof.
  unfold pad, be_bytes. rewrite !length_app, length_rev, length_map, length_seq, repeat_length.
  cbn [List.length].
  set (n := List.length l). exists (S ((n + 8) / 64))%nat.
  pose proof (Nat.div_mod n 64 ltac:(lia)) as Hn.
  pose proof (Nat.mod_upper_bound n 64 ltac:(lia)) as Hm.
  pose proof (Nat.div_mod (n + 8) 64 ltac:(lia)) as H8.
  pose proof (Nat.mod_upper_bound (n + 8) 64 ltac:(lia)) as Hm8.
  destruct (decide (n mod 64 < 56)%nat) as [Hlt|Hge].
  - assert ((119 - n mod 64) mod 64 = 55 - n mod 64)%nat as ->.
    { symmetry. apply (Nat.mod_unique _ _ 1); lia. }
    lia.
  - rewrite (Nat.mod_small (119 - n mod 64)) by lia. lia.
Qed.

Lemma be_bytes_length n x : List.length (be_bytes n x) = n.
Proof. unfold be_bytes. by rewrite length_rev, length_map, length_seq. Qed.

Lemma compress_length h ws : List.length h = 8%nat -> List.length (compress h ws) = 8%nat.
Proof.
  intros Hh. unfold compress. rewrite length_zip_with.
  assert (forall l h, List.length h = 8%nat -> List.length (fold_left sha_round l h) = 8%nat) as Hl.
  { induction l as [|kw l IH]; intros h' H'; simpl; [done|]. apply IH. unfold sha_round.
    destruct h' as [|? [|? [|? [|? [|? [|? [|? [|? [|]]]]]]]]]; done. }
  rewrite Hl, Hh by done. done.
Qed.

(** A digest has 32 bytes. *)
Lemma Sum256_length l : List.length (Sum256 l) = 32%nat.
Proof.
  unfold Sum256. cbv zeta. generalize (groups (List.length (pad l) / 64) 64 (pad l)). intros bs.
  assert (forall bs h, List.length h = 8%nat ->
    List.length (fold_left (fun h b => compress h (map word (groups 16 4 b))) bs h) = 8%nat) as Hl.
  { induction bs0 as [|b bs0 IH]; intros h Hh; simpl; [done|]. apply IH. by apply compress_length. }
  specialize (Hl bs initial_hash eq_refl).
  destruct (fold_left _ bs initial_hash) as [|? [|? [|? [|? [|? [|? [|? [|? [|]]]]]]]]]; try done.
Qed.
