(* ===== verification/MappingProfile.v ===== *)
(** * Mapping profiles: backend/internal/mapping/profile.go

    A profile is a pipeline of transforms between the value a Provider reports
    and the unified value of a property.  This file holds the profile data and
    [Validate], which collects an error message per field; the last section
    characterises what a validated profile promises, transform by transform. *)

From S2P Require Import Prelude Float64 DeviceModel.

Definition SchemaVersion : Z := 1.

Inductive ProfileKind := KindProvider | KindCapability | KindTarget | KindOther (s : string).

Inductive TransformType :=
| TransformInvert | TransformReciprocal | TransformIntNumber | TransformScale | TransformClamp
| TransformEnum | TransformUnit | TransformRangeEnum | TransformEnumNumber | TransformThreshold
| TransformBoolNumber | TransformBoolEnum | TransformEnumBool | TransformMapRange | TransformRound
| TransformParseNumber | TransformNumberString | TransformOther (s : string).

Inductive Direction := DirectionForward | DirectionReverse | DirectionOther (s : string).

#[export] Instance TransformType_eq_dec : EqDecision TransformType.
Proof. solve_decision. Defined.
#[export] Instance Direction_eq_dec : EqDecision Direction.
Proof. solve_decision. Defined.

Record RangeBand := MkRangeBand {
  rb_Max : option float64;
  rb_Value : string;
  rb_Reverse : float64;
}.

Record Transform := MkTransform {
  tr_Type : TransformType;
  tr_Factor : option float64;
  tr_Offset : option float64;
  tr_Min : option float64;
  tr_Max : option float64;
  tr_Values : gmap string string;
  tr_ReverseValues : gmap string string;
  tr_FromUnit : string;
  tr_ToUnit : string;
  tr_Bands : list RangeBand;
  tr_Threshold : option float64;
  tr_Operator : string;
  tr_TrueNumber : option float64;
  tr_FalseNumber : option float64;
  tr_TrueValue : string;
  tr_FalseValue : string;
  tr_InputMin : option float64;
  tr_InputMax : option float64;
  tr_OutputMin : option float64;
  tr_OutputMax : option float64;
  tr_Mode : string;
}.

Record Profile := MkProfile {
  pr_SchemaVersion : Z;
  pr_ID : string;
  pr_Identifier : string;
  pr_Version : Z;
  pr_Kind : ProfileKind;
  pr_InputType : ValueType;
  pr_OutputType : ValueType;
  pr_Default : option PropertyValue;
  pr_Transforms : list Transform;
}.

(** ** Values (engine.go, [validateValue]) *)

Inductive ValueError :=
| TypeNotExpected (value expected : ValueType)
| NotSinglePayload
| PayloadIsMissing (t : ValueType)
| NumberNotFinitePayload
| UnsupportedType (t : ValueType).

Definition validateValue (value : PropertyValue) (expected : ValueType) : result ValueError unit :=
  guard! value_type_eqb (pv_Type value) expected else TypeNotExpected (pv_Type value) expected in
  guard! HasSinglePayload value else NotSinglePayload in
  match pv_Type value with
  | ValueTypeBool =>
      guard! present (pv_Bool value) else PayloadIsMissing ValueTypeBool in Ok tt
  | ValueTypeInt =>
      guard! present (pv_Int value) else PayloadIsMissing ValueTypeInt in Ok tt
  | ValueTypeNumber =>
      match pv_Number value with
      | None => Err NumberNotFinitePayload
      | Some x => if IsNaN x || IsInf x then Err NumberNotFinitePayload else Ok tt
      end
  | ValueTypeString | ValueTypeEnum =>
      guard! present (pv_String value) else PayloadIsMissing (pv_Type value) in Ok tt
  | ValueTypeOther _ => Err (UnsupportedType (pv_Type value))
  end.

(** ** Field errors *)

(** A message of the field map: a literal one, or one made from a value. *)
Inductive Message :=
| Text (s : string)
| BadValue (e : ValueError)
| PipelineProduces (t : ValueType)
| UsedBy (owner : string)
| NotNewer (version : Z).

(** The [fields] of a [ValidationError]. *)
Definition Fields := gmap string Message.

Record ValidationError := MkValidationError { ve_Fields : Fields }.

(** [if cond { fields[key] = msg }] *)
Definition note (cond : bool) (key : string) (msg : string) (fields : Fields) : Fields :=
  if cond then <[key := Text msg]> fields else fields.

(** ** Small predicates *)

Definition numericType (value : ValueType) : bool :=
  match value with ValueTypeInt | ValueTypeNumber => true | _ => false end.
Definition textType (value : ValueType) : bool :=
  match value with ValueTypeEnum | ValueTypeString => true | _ => false end.
Definition float64Value (value : option float64) (fallback : float64) : float64 :=
  default fallback value.
Definition finitePointer (value : option float64) : bool := holds finite value.

Definition containsString (items : list string) (want : string) : bool :=
  existsb (fun item => String.eqb item want) items.

Definition thresholdMatches (value threshold : float64) (operator : string) : bool :=
  if String.eqb operator "gte" then fgeb value threshold
  else if String.eqb operator "gt" then fgtb value threshold
  else if String.eqb operator "lte" then fleb value threshold
  else if String.eqb operator "lt" then fltb value threshold
  else false.

(** ** Validation of the parts of a transform *)

(** The loops of [validateEnumValues] range over maps; every iteration writes
    only the key of its own target, so their order does not matter.  [sources]
    is [sourcesByTarget[target]]. *)
Definition sources_of (values : gmap string string) (target : string) : list string :=
  ((map_to_list (filter (fun kv => kv.2 = target) values)).*1).

Definition validate_target (path : string) (reverseValues : gmap string string)
    (values : gmap string string) (target : string) (fields : Fields) : Fields :=
  let sources := sources_of values target in
  let key := path +:+ ".reverseValues." +:+ target in
  match reverseValues !! target with
  | None => note (1 <? length sources)%nat key "required when multiple sources map to this target" fields
  | Some canonical =>
      if is_empty canonical then note true key "must not be empty" fields
      else note (negb (containsString sources canonical)) key
             "must be a source that maps to this target" fields
  end.

Definition validate_reverse (path : string) (values : gmap string string)
    (target source : string) (fields : Fields) : Fields :=
  let key := path +:+ ".reverseValues." +:+ target in
  if is_empty target
  then note true (path +:+ ".reverseValues") "reverse targets must not be empty" fields
  else
    match values !! source with
    | None => note true key "must be a source defined by values" fields
    | Some _ =>
        let sources := sources_of values target in
        note (negb (length sources =? 0)%nat && negb (containsString sources source)) key
          "must be a source that maps to this target" fields
    end.

(** The distinct targets, the keys of [sourcesByTarget]. *)
Definition targets (values : gmap string string) : list string :=
  elements (list_to_set ((map_to_list values).*2) : gset string).

Definition validateEnumValues (path : string) (values reverseValues : gmap string string)
    (fields : Fields) : Fields :=
  if (size values =? 0)%nat then note true (path +:+ ".values") "must not be empty" fields
  else if existsb (fun kv => is_empty kv.1 || is_empty kv.2) (map_to_list values)
  then note true (path +:+ ".values") "source and target values must not be empty" fields
  else
    let fields := fold_right (validate_target path reverseValues values) fields (targets values) in
    fold_right (fun kv fields => validate_reverse path values kv.1 kv.2 fields) fields
      (map_to_list reverseValues).

Definition validateBooleanLabels (path trueValue falseValue : string) (fields : Fields) : Fields :=
  if is_empty (TrimSpace trueValue) || is_empty (TrimSpace falseValue)
  then note true path "trueValue and falseValue must not be empty" fields
  else note (String.eqb trueValue falseValue) path "trueValue and falseValue must be different" fields.

(** One iteration of the loop of [validateRangeBands]. *)
Definition validate_band (bandPath : string) (final : bool) (seen : gset string)
    (previousMax : option float64) (band : RangeBand) (fields : Fields) : Fields :=
  let fields := note (is_empty (TrimSpace (rb_Value band))) (bandPath +:+ ".value")
    "must not be empty" fields in
  let fields := note (bool_decide (rb_Value band ∈ seen)) (bandPath +:+ ".value")
    "must be unique for reverse mapping" fields in
  let fields := note (negb (finite (rb_Reverse band))) (bandPath +:+ ".reverse")
    "must be finite" fields in
  let fields :=
    match rb_Max band with
    | None => note (negb final) (bandPath +:+ ".max") "only the final band may omit max" fields
    | Some max =>
        let fields := note (negb (finite max)) (bandPath +:+ ".max") "must be finite" fields in
        note (holds (fun p => fleb max p) previousMax) (bandPath +:+ ".max")
          "must be greater than the previous max" fields
    end in
  let fields := note (holds (fun p => fleb (rb_Reverse band) p) previousMax) (bandPath +:+ ".reverse")
    "must be greater than the previous max" fields in
  note (holds (fun max => fgtb (rb_Reverse band) max) (rb_Max band)) (bandPath +:+ ".reverse")
    "must be within this band" fields.

Fixpoint validate_bands (path : string) (index : Z) (seen : gset string)
    (previousMax : option float64) (bands : list RangeBand) (fields : Fields) : Fields :=
  match bands with
  | [] => fields
  | band :: rest =>
      let bandPath := path +:+ ".bands." +:+ show_Z index in
      let fields := validate_band bandPath (length rest =? 0)%nat seen previousMax band fields in
      validate_bands path (index + 1) ({[rb_Value band]} ∪ seen)
        (match rb_Max band with Some max => Some max | None => previousMax end) rest fields
  end.

Definition final_has_max (bands : list RangeBand) : bool :=
  match last bands with
  | Some band => present (rb_Max band)
  | None => false
  end.

Definition validateRangeBands (path : string) (bands : list RangeBand) (fields : Fields) : Fields :=
  if (length bands <? 2)%nat
  then note true (path +:+ ".bands") "must contain at least two ordered bands" fields
  else
    let fields := validate_bands path 0 ∅ None bands fields in
    note (final_has_max bands) (path +:+ ".bands")
      "final band must omit max to cover remaining values" fields.

Definition valid_operator (operator : string) : bool :=
  String.eqb operator "gte" || String.eqb operator "gt" || String.eqb operator "lte" ||
  String.eqb operator "lt".

Definition validateThreshold (path : string) (t : Transform) (fields : Fields) : Fields :=
  let fields := note (negb (finitePointer (tr_Threshold t))) (path +:+ ".threshold")
    "must be a finite number" fields in
  let fields := note (negb (valid_operator (tr_Operator t))) (path +:+ ".operator")
    "must be gte, gt, lte, or lt" fields in
  let fields := note (negb (finitePointer (tr_TrueNumber t))) (path +:+ ".trueNumber")
    "must be a finite reverse value" fields in
  let fields := note (negb (finitePointer (tr_FalseNumber t))) (path +:+ ".falseNumber")
    "must be a finite reverse value" fields in
  match tr_Threshold t, tr_TrueNumber t, tr_FalseNumber t with
  | Some threshold, Some yes, Some no =>
      if finite threshold && finite yes && finite no then
        let fields := note (negb (thresholdMatches yes threshold (tr_Operator t)))
          (path +:+ ".trueNumber") "reverse value must evaluate to true" fields in
        note (thresholdMatches no threshold (tr_Operator t))
          (path +:+ ".falseNumber") "reverse value must evaluate to false" fields
      else fields
  | _, _, _ => fields
  end.

(** ** Units (engine.go) *)

Definition unitFormula (from to : string) : option (float64 * float64) :=
  if String.eqb from to && negb (is_empty from) then Some (fone, fzero)
  else
    let key := from +:+ ":" +:+ to in
    if String.eqb key "celsius:fahrenheit" then Some (of_ratio 18 10, of_Z 32)
    else if String.eqb key "fahrenheit:celsius" then Some (of_ratio 5 9, of_ratio (-160) 9)
    else if String.eqb key "celsius:kelvin" then Some (fone, of_ratio 27315 100)
    else if String.eqb key "kelvin:celsius" then Some (fone, of_ratio (-27315) 100)
    else if String.eqb key "ratio:percent" then Some (of_Z 100, fzero)
    else if String.eqb key "percent:ratio" then Some (of_ratio 1 100, fzero)
    else None.

Definition nonlinearUnitConversion (from to : string) : bool :=
  (String.eqb from "kelvin" && String.eqb to "mired") ||
  (String.eqb from "mired" && String.eqb to "kelvin").

Definition unitConversionSupported (from to : string) : bool :=
  match unitFormula from to with
  | Some _ => true
  | None => nonlinearUnitConversion from to
  end.

(** ** Validation of a profile *)

Definition both_and (test : float64 -> float64 -> bool) (a b : option float64) : bool :=
  match a, b with Some x, Some y => test x y | _, _ => false end.
Definition not_finite_at (p : option float64) : bool := holds (fun x => IsNaN x || IsInf x) p.

(** The checks of one transform on an input of type [current], at [path]. *)
Definition validate_transform (path : string) (current : ValueType) (t : Transform)
    (fields : Fields) : Fields :=
  let numeric (msg : string) := note (negb (numericType current)) path msg in
  let text (msg : string) := note (negb (textType current)) path msg in
  let exactly (ty : ValueType) (msg : string) := note (negb (value_type_eqb current ty)) path msg in
  match tr_Type t with
  | TransformInvert => exactly ValueTypeBool "invert requires bool input" fields
  | TransformReciprocal => numeric "reciprocal requires int or number input" fields
  | TransformIntNumber => exactly ValueTypeInt "int-number requires int input" fields
  | TransformScale =>
      let fields := numeric "scale requires int or number input" fields in
      let factor := float64Value (tr_Factor t) fone in
      let fields := note (feqb factor fzero || IsNaN factor || IsInf factor) (path +:+ ".factor")
        "must be finite and non-zero" fields in
      let offset := float64Value (tr_Offset t) fzero in
      note (IsNaN offset || IsInf offset) (path +:+ ".offset") "must be finite" fields
  | TransformClamp =>
      let fields := numeric "clamp requires int or number input" fields in
      let fields := note (negb (present (tr_Min t)) && negb (present (tr_Max t))) path
        "clamp requires min or max" fields in
      let fields := note (both_and fgtb (tr_Min t) (tr_Max t)) path "minimum exceeds maximum" fields in
      let fields := note (not_finite_at (tr_Min t)) (path +:+ ".min") "must be finite" fields in
      note (not_finite_at (tr_Max t)) (path +:+ ".max") "must be finite" fields
  | TransformEnum =>
      let fields := text "enum mapping requires enum or string input" fields in
      validateEnumValues path (tr_Values t) (tr_ReverseValues t) fields
  | TransformUnit =>
      let fields := numeric "unit conversion requires int or number input" fields in
      note (negb (unitConversionSupported (tr_FromUnit t) (tr_ToUnit t))) path
        "unsupported unit conversion" fields
  | TransformRangeEnum =>
      let fields := numeric "range-enum requires int or number input" fields in
      validateRangeBands path (tr_Bands t) fields
  | TransformEnumNumber =>
      let fields := text "enum-number requires enum or string input" fields in
      validateRangeBands path (tr_Bands t) fields
  | TransformThreshold =>
      let fields := numeric "threshold requires int or number input" fields in
      validateThreshold path t fields
  | TransformBoolNumber =>
      let fields := exactly ValueTypeBool "bool-number requires bool input" fields in
      validateThreshold path t fields
  | TransformBoolEnum =>
      let fields := exactly ValueTypeBool "bool-enum requires bool input" fields in
      validateBooleanLabels path (tr_TrueValue t) (tr_FalseValue t) fields
  | TransformEnumBool =>
      let fields := text "enum-bool requires enum or string input" fields in
      validateBooleanLabels path (tr_TrueValue t) (tr_FalseValue t) fields
  | TransformMapRange =>
      let fields := numeric "map-range requires int or number input" fields in
      let fields := fold_right (fun '(name, value) =>
          note (negb (finitePointer value)) (path +:+ "." +:+ name) "must be a finite number") fields
        [("inputMin", tr_InputMin t); ("inputMax", tr_InputMax t);
         ("outputMin", tr_OutputMin t); ("outputMax", tr_OutputMax t)] in
      let fields := note (both_and feqb (tr_InputMin t) (tr_InputMax t)) path
        "input range must not be zero" fields in
      note (both_and feqb (tr_OutputMin t) (tr_OutputMax t)) path
        "output range must not be zero for reverse mapping" fields
  | TransformRound =>
      let fields := numeric "round requires int or number input" fields in
      note (negb (String.eqb (tr_Mode t) "nearest" || String.eqb (tr_Mode t) "floor" ||
                  String.eqb (tr_Mode t) "ceil")) (path +:+ ".mode")
        "must be nearest, floor, or ceil" fields
  | TransformParseNumber => exactly ValueTypeString "parse-number requires string input" fields
  | TransformNumberString => numeric "number-string requires int or number input" fields
  | TransformOther _ => note true (path +:+ ".type") "unsupported transform" fields
  end.

(** The type [current] after the transform: the assignments of [Validate]. *)
Definition next_type (current : ValueType) (t : Transform) : ValueType :=
  match tr_Type t with
  | TransformReciprocal | TransformIntNumber | TransformScale | TransformClamp | TransformUnit
  | TransformEnumNumber | TransformBoolNumber | TransformMapRange | TransformParseNumber =>
      ValueTypeNumber
  | TransformRangeEnum | TransformBoolEnum => ValueTypeEnum
  | TransformThreshold | TransformEnumBool => ValueTypeBool
  | TransformRound => ValueTypeInt
  | TransformNumberString => ValueTypeString
  | TransformInvert | TransformEnum | TransformOther _ => current
  end.

Definition transformOutputType (input : ValueType) (t : Transform) : ValueType :=
  match tr_Type t with
  | TransformReciprocal | TransformIntNumber | TransformScale | TransformClamp | TransformUnit
  | TransformMapRange | TransformParseNumber | TransformEnumNumber | TransformBoolNumber =>
      ValueTypeNumber
  | TransformRangeEnum | TransformBoolEnum => ValueTypeEnum
  | TransformThreshold | TransformEnumBool => ValueTypeBool
  | TransformRound => ValueTypeInt
  | TransformNumberString => ValueTypeString
  | _ => input
  end.

Fixpoint validate_transforms (index : Z) (current : ValueType) (ts : list Transform)
    (fields : Fields) : Fields * ValueType :=
  match ts with
  | [] => (fields, current)
  | t :: ts =>
      let path := "profile.transforms." +:+ show_Z index in
      validate_transforms (index + 1) (next_type current t) ts
        (validate_transform path current t fields)
  end.

Definition kind_ok (k : ProfileKind) : bool :=
  match k with KindOther _ => false | _ => true end.

Definition Validate (profile : Profile) : result ValidationError unit :=
  let fields := note (negb (pr_SchemaVersion profile =? SchemaVersion)) "profile.schemaVersion"
    "must be 1" ∅ in
  let fields := note (negb (ValidStableID (pr_ID profile))) "profile.id"
    "must be a stable lowercase identifier" fields in
  let fields := note (negb (is_empty (pr_Identifier profile)) &&
                      negb (ValidStableID (pr_Identifier profile))) "profile.identifier"
    "must be a stable lowercase identifier" fields in
  let fields := note (pr_Version profile <? 1) "profile.version" "must be positive" fields in
  let fields := note (negb (kind_ok (pr_Kind profile))) "profile.kind"
    "must be provider, capability, or target" fields in
  let fields := note (negb (validValueType (pr_InputType profile))) "profile.inputType"
    "unsupported value type" fields in
  let fields := note (negb (validValueType (pr_OutputType profile))) "profile.outputType"
    "unsupported value type" fields in
  let fields :=
    match pr_Default profile with
    | None => fields
    | Some v =>
        match validateValue v (pr_InputType profile) with
        | Ok _ => fields
        | Err e => <["profile.default" := BadValue e]> fields
        end
    end in
  let '(fields, current) :=
    validate_transforms 0 (pr_InputType profile) (pr_Transforms profile) fields in
  let fields :=
    if validValueType (pr_OutputType profile) && negb (value_type_eqb current (pr_OutputType profile))
    then <["profile.outputType" := PipelineProduces current]> fields else fields in
  if (0 <? size fields)%nat then Err (MkValidationError fields) else Ok tt.

(** ** What a validated profile promises *)

Record enum_ok (values reverseValues : gmap string string) : Prop := {
  eo_nonempty : values <> ∅;
  eo_labels source target : values !! source = Some target -> source <> "" /\ target <> "";
  eo_unique target s s' : reverseValues !! target = None ->
    values !! s = Some target -> values !! s' = Some target -> s = s';
  eo_canonical target canonical s : reverseValues !! target = Some canonical ->
    values !! s = Some target -> values !! canonical = Some target;
  eo_reverse target source : reverseValues !! target = Some source ->
    target <> "" /\ is_Some (values !! source);
}.

(** Bands after [seen] and above [previous]. *)
Fixpoint bands_from (seen : gset string) (previous : option float64) (bands : list RangeBand) : Prop :=
  match bands with
  | [] => True
  | b :: rest =>
      TrimSpace (rb_Value b) <> "" /\ (rb_Value b ∉ seen) /\ finite (rb_Reverse b) = true /\
      (forall p, previous = Some p -> fleb (rb_Reverse b) p = false) /\
      (rb_Max b = None -> rest = []) /\
      (forall m, rb_Max b = Some m -> finite m = true /\ fgtb (rb_Reverse b) m = false /\
         forall p, previous = Some p -> fleb m p = false) /\
      bands_from ({[rb_Value b]} ∪ seen)
        (match rb_Max b with Some m => Some m | None => previous end) rest
  end.

Definition bands_ok (bands : list RangeBand) : Prop :=
  (2 <= length bands)%nat /\ bands_from ∅ None bands /\
  exists b, last bands = Some b /\ rb_Max b = None.

Definition labels_ok (trueValue falseValue : string) : Prop :=
  TrimSpace trueValue <> "" /\ TrimSpace falseValue <> "" /\ trueValue <> falseValue.

Definition threshold_ok (t : Transform) : Prop :=
  valid_operator (tr_Operator t) = true /\
  exists threshold yes no, tr_Threshold t = Some threshold /\ tr_TrueNumber t = Some yes /\
    tr_FalseNumber t = Some no /\ finite threshold = true /\ finite yes = true /\ finite no = true /\
    thresholdMatches yes threshold (tr_Operator t) = true /\
    thresholdMatches no threshold (tr_Operator t) = false.

Definition transform_ok (current : ValueType) (t : Transform) : Prop :=
  match tr_Type t with
  | TransformInvert => current = ValueTypeBool
  | TransformReciprocal | TransformNumberString => numericType current = true
  | TransformIntNumber => current = ValueTypeInt
  | TransformScale => numericType current = true /\
      finite (float64Value (tr_Factor t) fone) = true /\
      feqb (float64Value (tr_Factor t) fone) fzero = false /\
      finite (float64Value (tr_Offset t) fzero) = true
  | TransformClamp => numericType current = true /\
      (tr_Min t <> None \/ tr_Max t <> None) /\
      both_and fgtb (tr_Min t) (tr_Max t) = false /\
      (forall m, tr_Min t = Some m -> finite m = true) /\
      (forall m, tr_Max t = Some m -> finite m = true)
  | TransformEnum => textType current = true /\ enum_ok (tr_Values t) (tr_ReverseValues t)
  | TransformUnit => numericType current = true /\
      unitConversionSupported (tr_FromUnit t) (tr_ToUnit t) = true
  | TransformRangeEnum => numericType current = true /\ bands_ok (tr_Bands t)
  | TransformEnumNumber => textType current = true /\ bands_ok (tr_Bands t)
  | TransformThreshold => numericType current = true /\ threshold_ok t
  | TransformBoolNumber => current = ValueTypeBool /\ threshold_ok t
  | TransformBoolEnum => current = ValueTypeBool /\ labels_ok (tr_TrueValue t) (tr_FalseValue t)
  | TransformEnumBool => textType current = true /\ labels_ok (tr_TrueValue t) (tr_FalseValue t)
  | TransformMapRange => numericType current = true /\
      exists a b c d, tr_InputMin t = Some a /\ tr_InputMax t = Some b /\
        tr_OutputMin t = Some c /\ tr_OutputMax t = Some d /\
        finite a = true /\ finite b = true /\ finite c = true /\ finite d = true /\
        feqb a b = false /\ feqb c d = false
  | TransformRound => numericType current = true /\
      (tr_Mode t = "nearest" \/ tr_Mode t = "floor" \/ tr_Mode t = "ceil")
  | TransformParseNumber => current = ValueTypeString
  | TransformOther _ => False
  end.

(** A pipeline of valid transforms from one type to another. *)
Inductive pipeline : ValueType -> list Transform -> ValueType -> Prop :=
| pipeline_nil ty : pipeline ty [] ty
| pipeline_cons ty t ts out :
    transform_ok ty t -> pipeline (next_type ty t) ts out -> pipeline ty (t :: ts) out.

Record profile_ok (p : Profile) : Prop := {
  po_schema : pr_SchemaVersion p = SchemaVersion;
  po_id : ValidStableID (pr_ID p) = true;
  po_identifier : pr_Identifier p = "" \/ ValidStableID (pr_Identifier p) = true;
  po_version : 1 <= pr_Version p;
  po_kind : kind_ok (pr_Kind p) = true;
  po_input : validValueType (pr_InputType p) = true;
  po_output : validValueType (pr_OutputType p) = true;
  po_default v : pr_Default p = Some v -> validateValue v (pr_InputType p) = Ok tt;
  po_pipeline : pipeline (pr_InputType p) (pr_Transforms p) (pr_OutputType p);
}.

(** ** Validation accepts exactly the well-formed profiles *)

Lemma note_empty c k m f : note c k m f = ∅ <-> c = false /\ f = ∅.
Proof.
  unfold note. destruct c; [|by intuition].
  split; [intros H; by apply insert_non_empty in H|by intros []].
Qed.

Lemma is_empty_negb s : negb (is_empty s) = true <-> s <> "".
Proof. by destruct s. Qed.

Lemma containsString_spec l s : containsString l s = true <-> s ∈ l.
Proof.
  unfold containsString. rewrite existsb_exists. split.
  - intros (x & Hx & ->%String.eqb_eq). by apply list_elem_of_In.
  - intros Hs. exists s. by rewrite <- list_elem_of_In, String.eqb_eq.
Qed.

Lemma elem_of_sources values s target : s ∈ sources_of values target <-> values !! s = Some target.
Proof.
  unfold sources_of. rewrite list_elem_of_fmap. split.
  - intros ([s' t'] & -> & H%elem_of_map_to_list). by apply map_lookup_filter_Some in H as [? <-].
  - intros H. exists (s, target). split; [done|]. apply elem_of_map_to_list.
    by apply map_lookup_filter_Some.
Qed.

Lemma NoDup_sources values target : NoDup (sources_of values target).
Proof. apply NoDup_fst_map_to_list. Qed.

Lemma sources_unique values target :
  (1 <? length (sources_of values target))%nat = false <->
  forall s s', values !! s = Some target -> values !! s' = Some target -> s = s'.
Proof.
  rewrite Nat.ltb_ge. pose proof (NoDup_sources values target) as Hnd.
  setoid_rewrite <- elem_of_sources. destruct (sources_of values target) as [|a [|b l]]; simpl.
  - split; [set_solver|lia].
  - split; [set_solver|lia].
  - split; [lia|]. intros H. exfalso. apply NoDup_cons in Hnd as [Hn _].
    apply Hn. rewrite (H a b) by set_solver. set_solver.
Qed.

Lemma elem_of_targets values target : target ∈ targets values <-> exists s, values !! s = Some target.
Proof.
  unfold targets. rewrite elem_of_elements, elem_of_list_to_set, list_elem_of_fmap. split.
  - intros ([s t] & -> & H%elem_of_map_to_list). by exists s.
  - intros [s H]. exists (s, target). split; [done|]. by apply elem_of_map_to_list.
Qed.

(** A fold of writers leaves no error iff none of them writes. *)
Lemma fold_empty {A} (f : A -> Fields -> Fields) (P : A -> Prop) l fields :
  (forall x fs, x ∈ l -> f x fs = ∅ <-> P x /\ fs = ∅) ->
  fold_right f fields l = ∅ <-> (forall x, x ∈ l -> P x) /\ fields = ∅.
Proof.
  intros Hf. induction l as [|x l IH]; simpl; [set_solver|].
  rewrite Hf by set_solver. rewrite IH by (intros; apply Hf; set_solver). set_solver.
Qed.

Lemma validate_target_empty path rv values target fs :
  (exists s, values !! s = Some target) -> (forall s, values !! s = Some target -> s <> "") ->
  validate_target path rv values target fs = ∅ <->
  match rv !! target with
  | None => forall s s', values !! s = Some target -> values !! s' = Some target -> s = s'
  | Some canonical => values !! canonical = Some target
  end /\ fs = ∅.
Proof.
  intros [s0 Hs0] Hne. unfold validate_target. destruct (rv !! target) as [c|].
  - destruct (is_empty c) eqn:E; rewrite note_empty.
    + apply is_empty_true in E as ->. split; [by intros []|]. intros [H _]. by apply Hne in H.
    + by rewrite negb_false_iff, containsString_spec, elem_of_sources.
  - by rewrite note_empty, sources_unique.
Qed.

Lemma validate_reverse_empty path values target source fs :
  validate_reverse path values target source fs = ∅ <->
  (target <> "" /\ is_Some (values !! source) /\
   ((exists s, values !! s = Some target) -> values !! source = Some target)) /\ fs = ∅.
Proof.
  unfold validate_reverse. destruct (is_empty target) eqn:E.
  { apply is_empty_true in E. rewrite note_empty. split; [by intros []|by intros ((? & _) & _)]. }
  apply is_empty_false in E. destruct (values !! source) as [t|] eqn:Hs; rewrite note_empty.
  - rewrite andb_false_iff, !negb_false_iff, containsString_spec, elem_of_sources, Hs, Nat.eqb_eq.
    split; intros [H ->]; (split; [|done]).
    + split_and!; [done|by eexists|]. intros [s Hst]. destruct H as [H|H]; [|done].
      apply nil_length_inv in H. apply elem_of_sources in Hst. rewrite H in Hst. set_solver.
    + destruct H as (_ & _ & H). destruct (sources_of values target) as [|s l] eqn:El; [by left|].
      right. apply H. exists s. apply elem_of_sources. rewrite El. set_solver.
  - split; [by intros []|]. intros ((_ & [? ?] & _) & _). done.
Qed.

Lemma validateEnumValues_empty path values rv fs :
  validateEnumValues path values rv fs = ∅ <-> enum_ok values rv /\ fs = ∅.
Proof.
  unfold validateEnumValues. destruct (size values =? 0)%nat eqn:Hsz.
  { apply Nat.eqb_eq, map_size_empty_inv in Hsz. rewrite note_empty. split; [by intros []|].
    by intros [[] _]. }
  assert (values <> ∅) as Hne by (intros ->; by rewrite map_size_empty in Hsz).
  destruct (existsb _ (map_to_list values)) eqn:Hex.
  { rewrite note_empty. split; [by intros []|]. intros [[_ Hl _ _ _] _]. exfalso.
    apply existsb_exists in Hex as ([s t] & Hin & Ht). simpl in Ht.
    apply list_elem_of_In, elem_of_map_to_list in Hin. destruct (Hl s t Hin) as [H1 H2].
    apply orb_true_iff in Ht as [?%is_empty_true|?%is_empty_true]; done. }
  assert (Hlab : forall s t, values !! s = Some t -> s <> "" /\ t <> "").
  { intros s t Hst. destruct (is_empty s || is_empty t) eqn:E.
    - assert (existsb (fun kv => is_empty kv.1 || is_empty kv.2) (map_to_list values) = true); [|congruence].
      apply existsb_exists. exists (s, t). split; [|done].
      by apply list_elem_of_In, elem_of_map_to_list.
    - apply orb_false_iff in E as [?%is_empty_false ?%is_empty_false]. done. }
  rewrite (fold_empty _ (fun kv => kv.1 <> "" /\ is_Some (values !! kv.2) /\
    ((exists s, values !! s = Some kv.1) -> values !! kv.2 = Some kv.1)))
    by (intros x f _; apply validate_reverse_empty).
  rewrite (fold_empty _ (fun target => match rv !! target with
    | None => forall s s', values !! s = Some target -> values !! s' = Some target -> s = s'
    | Some canonical => values !! canonical = Some target end)).
  2: { intros x f Hx%elem_of_targets. apply validate_target_empty; [done|].
       intros s Hs. by apply (Hlab s x). }
  split.
  - intros (Hr & Ht & ->). split; [|done]. constructor; try done.
    + intros target s s' Hn Hs. specialize (Ht target). rewrite Hn in Ht. apply Ht; [|done].
      apply elem_of_targets. by exists s.
    + intros target c s Hc Hs. specialize (Ht target). rewrite Hc in Ht. apply Ht.
      apply elem_of_targets. by exists s.
    + intros target source Hts. destruct (Hr (target, source)) as (? & ? & _); [|done].
      by apply elem_of_map_to_list.
  - intros [[_ _ Hu Hc Hr] ->]. split_and!; try done.
    + intros [target source] Hts%elem_of_map_to_list. simpl.
      destruct (Hr target source Hts). split_and!; try done. intros [s Hs]. by eapply Hc.
    + intros target [s Hs]%elem_of_targets. destruct (rv !! target) eqn:E; [by eapply Hc|].
      intros s1 s2. by apply (Hu target).
Qed.

Lemma validate_bands_empty path index seen prev bands fs :
  validate_bands path index seen prev bands fs = ∅ <-> bands_from seen prev bands /\ fs = ∅.
Proof.
  revert index seen prev fs. induction bands as [|b rest IH]; intros index seen prev fs; simpl; [tauto|].
  rewrite IH. unfold validate_band. rewrite !note_empty.
  assert (E : is_empty (TrimSpace (rb_Value b)) = false <-> TrimSpace (rb_Value b) <> "")
    by apply is_empty_false.
  assert (P : holds (fun p => fleb (rb_Reverse b) p) prev = false <->
    forall p, prev = Some p -> fleb (rb_Reverse b) p = false) by (rewrite <- holds_false; by rewrite negb_true_iff).
  destruct (rb_Max b) as [m|]; rewrite !note_empty, E, P, bool_decide_eq_false, !negb_false_iff.
  - assert (P' : holds (fun p => fleb m p) prev = false <->
      forall p, prev = Some p -> fleb m p = false) by (rewrite <- holds_false; by rewrite negb_true_iff).
    rewrite P'. simpl. split.
    + intros (? & ? & ? & ? & ? & ? & ? & ? & ?). split_and!; try done.
      intros m' [= <-]. done.
    + intros ((? & ? & ? & ? & ? & Hm & ?) & ?). destruct (Hm m eq_refl) as (? & ? & ?). split_and!; done.
  - rewrite Nat.eqb_eq. split.
    + intros (? & _ & ? & Hl & ? & ? & ? & ?). split_and!; try done.
      intros _. by apply nil_length_inv.
    + intros ((? & ? & ? & ? & Hr & _ & ?) & ?). split_and!; try done. by rewrite Hr.
Qed.

Lemma final_has_max_false bands : bands <> [] ->
  final_has_max bands = false <-> exists b, last bands = Some b /\ rb_Max b = None.
Proof.
  intros Hne. unfold final_has_max. destruct (last bands) as [b|] eqn:E.
  - destruct (rb_Max b) as [m|] eqn:Em; simpl; split; try done.
    + intros (b' & [= <-] & ?). congruence.
    + intros _. by exists b.
  - by apply last_None in E.
Qed.

Lemma validateRangeBands_empty path bands fs :
  validateRangeBands path bands fs = ∅ <-> bands_ok bands /\ fs = ∅.
Proof.
  unfold validateRangeBands, bands_ok. destruct (Nat.ltb_spec (length bands) 2).
  - rewrite note_empty. split; [by intros []|]. intros ((? & _) & _). lia.
  - rewrite note_empty, validate_bands_empty, final_has_max_false by (by intros ->; simpl in *; lia).
    intuition.
Qed.

Lemma validateBooleanLabels_empty path a b fs :
  validateBooleanLabels path a b fs = ∅ <-> labels_ok a b /\ fs = ∅.
Proof.
  unfold validateBooleanLabels, labels_ok.
  destruct (is_empty (TrimSpace a) || is_empty (TrimSpace b)) eqn:E; rewrite note_empty.
  - split; [by intros []|]. intros ((? & ? & _) & _).
    apply orb_true_iff in E as [?%is_empty_true|?%is_empty_true]; done.
  - apply orb_false_iff in E as [?%is_empty_false ?%is_empty_false].
    rewrite String.eqb_neq. intuition.
Qed.

Lemma finitePointer_true p : finitePointer p = true <-> exists x, p = Some x /\ finite x = true.
Proof.
  unfold finitePointer. destruct p as [x|]; simpl; [|split; [done|by intros (? & ? & _)]].
  split; [by exists x|by intros (y & [= <-] & ?)].
Qed.

Lemma validateThreshold_empty path t fs :
  validateThreshold path t fs = ∅ <-> threshold_ok t /\ fs = ∅.
Proof.
  unfold validateThreshold, threshold_ok.
  set (base := note _ _ _ (note _ _ _ _)).
  assert (Hb : base = ∅ <-> valid_operator (tr_Operator t) = true /\
    finitePointer (tr_Threshold t) = true /\ finitePointer (tr_TrueNumber t) = true /\
    finitePointer (tr_FalseNumber t) = true /\ fs = ∅).
  { unfold base. rewrite !note_empty, !negb_false_iff. tauto. }
  destruct (tr_Threshold t) as [x|], (tr_TrueNumber t) as [y|], (tr_FalseNumber t) as [z|];
    unfold finitePointer in Hb; simpl in Hb;
    try (rewrite Hb; split; [by intros (_ & ? & ? & ? & _)|intros ((_ & ? & ? & ? & ? & ? & ? & _) & _); done]).
  destruct (finite x && finite y && finite z) eqn:E.
  - apply andb_true_iff in E as [[Ex Ey]%andb_true_iff Ez].
    rewrite !note_empty, Hb, negb_false_iff. split.
    + intros (? & ? & ? & _ & _ & _ & ->). split; [|done]. split; [done|]. exists x, y, z. done.
    + intros ((? & ? & ? & ? & [= <-] & [= <-] & [= <-] & ? & ? & ? & ? & ?) & ->). done.
  - rewrite Hb. split.
    + intros (_ & Ex & Ey & Ez & _). by rewrite Ex, Ey, Ez in E.
    + intros ((_ & ? & ? & ? & [= <-] & [= <-] & [= <-] & Ex & Ey & Ez & _) & _).
      by rewrite Ex, Ey, Ez in E.
Qed.

Lemma finite_false x : IsNaN x || IsInf x = false <-> finite x = true.
Proof. unfold finite. rewrite <- negb_orb. destruct (IsNaN x || IsInf x); intuition. Qed.

Lemma not_finite_at_false p : not_finite_at p = false <-> forall m, p = Some m -> finite m = true.
Proof.
  unfold not_finite_at. destruct p as [x|]; simpl; [|by split].
  rewrite finite_false. split; [by intros ? ? [= <-]|by intros H; apply H].
Qed.

Lemma present_false {A} (p : option A) : negb (present p) = true <-> p = None.
Proof. by destruct p. Qed.

Lemma validate_transform_empty path current t fs :
  validate_transform path current t fs = ∅ <-> transform_ok current t /\ fs = ∅.
Proof.
  unfold validate_transform, transform_ok.
  destruct (tr_Type t); cbv zeta;
    rewrite ?validateEnumValues_empty, ?validateRangeBands_empty, ?validateThreshold_empty,
      ?validateBooleanLabels_empty; cbn [fold_right]; rewrite ?note_empty, ?negb_false_iff,
      ?value_type_eqb_eq, ?not_finite_at_false; try tauto.
  - rewrite orb_false_iff, orb_false_iff, <- !finite_false, !orb_false_iff. tauto.
  - rewrite andb_false_iff. rewrite <- !not_true_iff_false, !present_false. tauto.
  - rewrite !finitePointer_true. split.
    + intros (Ho & Hi & (a & Ea & ?) & (b & Eb & ?) & (c & Ec & ?) & (d & Ed & ?) & ? & ?).
      rewrite Ea, Eb, Ec, Ed in *. simpl in *. split; [|done]. split; [done|].
      exists a, b, c, d. done.
    + intros ((? & a & b & c & d & -> & -> & -> & -> & ? & ? & ? & ? & ? & ?) & ->). simpl.
      split_and!; eauto.
  - rewrite !orb_true_iff, !String.eqb_eq. tauto.
  - split; [by intros []|by intros [? _]].
Qed.

Lemma validate_transforms_empty index current ts fs :
  ((validate_transforms index current ts fs).1 = ∅ <->
   pipeline current ts (validate_transforms index current ts fs).2 /\ fs = ∅) /\
  (forall out, pipeline current ts out -> out = (validate_transforms index current ts fs).2).
Proof.
  revert index current fs. induction ts as [|t ts IH]; intros index current fs; simpl.
  - split; [split; [by split; [constructor|]|by intros []]|]. intros out H. by inversion H.
  - edestruct IH as [IH1 IH2]. split.
    + rewrite IH1, validate_transform_empty. split.
      * intros (Hp & Ht & ->). split; [|done]. by constructor.
      * intros [Hp ->]. inversion Hp; subst. done.
    + intros out Hp. inversion Hp; subst. by apply IH2.
Qed.

Lemma Validate_ok p : Validate p = Ok tt <-> profile_ok p.
Proof.
  unfold Validate. set (base := match pr_Default p with None => _ | Some _ => _ end).
  assert (Hb : base = ∅ <-> pr_SchemaVersion p = SchemaVersion /\ ValidStableID (pr_ID p) = true /\
    (pr_Identifier p = "" \/ ValidStableID (pr_Identifier p) = true) /\ 1 <= pr_Version p /\
    kind_ok (pr_Kind p) = true /\ validValueType (pr_InputType p) = true /\
    validValueType (pr_OutputType p) = true /\
    (forall v, pr_Default p = Some v -> validateValue v (pr_InputType p) = Ok tt)).
  { assert (Hi : negb (is_empty (pr_Identifier p)) && negb (ValidStableID (pr_Identifier p)) = false <->
      pr_Identifier p = "" \/ ValidStableID (pr_Identifier p) = true)
      by (rewrite andb_false_iff, !negb_false_iff, is_empty_true; tauto).
    unfold base. destruct (pr_Default p) as [v|].
    - destruct (validateValue v (pr_InputType p)) as [[]|e] eqn:E.
      + rewrite !note_empty, !negb_false_iff, Hi, Z.eqb_eq, Z.ltb_ge. intuition congruence.
      + split; [intros H; by apply insert_non_empty in H|].
        intros (_ & _ & _ & _ & _ & _ & _ & H). specialize (H v eq_refl). congruence.
    - rewrite !note_empty, !negb_false_iff, Hi, Z.eqb_eq, Z.ltb_ge. intuition congruence. }
  clearbody base.
  destruct (validate_transforms_empty 0 (pr_InputType p) (pr_Transforms p) base) as [H1 H2].
  destruct (validate_transforms 0 (pr_InputType p) (pr_Transforms p) base) as [fields current].
  simpl in *.
  assert (Hsz : forall f : Fields, (if (0 <? size f)%nat then Err (MkValidationError f) else Ok tt) = Ok tt
    <-> f = ∅).
  { intros f. destruct (Nat.ltb_spec 0 (size f)).
    - split; [done|]. intros Hf. rewrite Hf in H. exfalso. revert H. vm_compute. lia.
    - split; [|done]. intros _. apply Nat.le_0_r in H. by apply map_size_empty_inv. }
  rewrite Hsz. destruct (validValueType (pr_OutputType p)) eqn:Ho; simpl.
  - destruct (value_type_eqb current (pr_OutputType p)) eqn:Ht; simpl.
    + apply value_type_eqb_eq in Ht. subst current. rewrite H1, Hb. split.
      * intros (Hp & ? & ? & ? & ? & ? & ? & ? & ?). by constructor.
      * intros []. done.
    + split; [intros H; by apply insert_non_empty in H|]. intros []. exfalso.
      apply not_true_iff_false in Ht. apply Ht, value_type_eqb_eq. symmetry. by apply H2.
  - split; [|intros []; congruence]. intros ->. destruct H1 as [H1 _].
    destruct (H1 eq_refl) as [_ Hb0]. apply Hb in Hb0. tauto || (decompose [and] Hb0; congruence).
Qed.

(** [Validate] accepts exactly the well-formed profiles: supported schema,
    stable identifiers, positive version, a default of the input type, and a
    pipeline of well-configured transforms whose types chain from the input type
    to the output type. *)
Theorem validate_profile_spec p : Validate p = Ok tt <-> profile_ok p.
Proof. apply Validate_ok. Qed.
