(* ===== verification/MappingEngine.v ===== *)
(** * The mapping engine: backend/internal/mapping/engine.go

    [Preview] runs a value through the pipeline of a profile, forwards (Provider
    value to unified value) or in reverse (a control write).  Dereferencing a nil
    pointer, which panics, is the error [NilDereference]: that a validated
    profile never does so is a theorem. *)

From S2P Require Import Prelude Float64 DeviceModel FloatText MappingProfile.

Inductive TransformError :=
| IntNotExact (n : Z)
| NotFinite
| NoMapping (s : string)
| AmbiguousReverse (s : string)
| NoRangeBand (x : float64)
| NotALabel (s : string)
| OutsideInt64
| BadNumber (s : string) (e : NumError)
| NumberNotInt (x : float64)
| StringNotInt (s : string)
| NotReversible
| ReciprocalOfZero
| NotPositive (unit : string)
| UnsupportedUnits (from to : string)
| UnsupportedTransform (t : TransformType)
| NilDereference.

Definition deref {A} (p : option A) : result TransformError A :=
  match p with Some a => Ok a | None => Err NilDereference end.

Definition maxSafeInteger : Z := 2 ^ 53 - 1.

Definition numericValue (value : PropertyValue) : result TransformError float64 :=
  match pv_Int value with
  | Some n => Ok (of_Z n)
  | None => deref (pv_Number value)
  end.

Definition finiteNumber (value : float64) : result TransformError PropertyValue :=
  if IsNaN value || IsInf value then Err NotFinite else Ok (NumberValue value).

Definition stringValueForType (value : string) (kind : ValueType) : PropertyValue :=
  match kind with ValueTypeEnum => EnumValue value | _ => StringValue value end.

Definition reciprocalValue (value : PropertyValue) : result TransformError PropertyValue :=
  let! number := numericValue value in
  if feqb number fzero then Err ReciprocalOfZero else finiteNumber (fdiv fone number).

Definition convertUnitValue (from to : string) (value : float64)
    : result TransformError PropertyValue :=
  if nonlinearUnitConversion from to then
    if fleb value fzero then Err (NotPositive from)
    else finiteNumber (fdiv (of_Z 1000000) value)
  else
    match unitFormula from to with
    | None => Err (UnsupportedUnits from to)
    | Some (factor, offset) => finiteNumber (fadd (fmul value factor) offset)
    end.

(** [for _, band := range transform.Bands { if cond { return band } }] *)
Definition band_for (number : float64) (bands : list RangeBand) : option RangeBand :=
  first (fun b => match rb_Max b with
                  | None => Some b
                  | Some max => if fleb number max then Some b else None
                  end) bands.
Definition band_named (value : string) (bands : list RangeBand) : option RangeBand :=
  first (fun b => if String.eqb (rb_Value b) value then Some b else None) bands.

Definition round_by (mode : string) (number : float64) : float64 :=
  if String.eqb mode "floor" then Floor number
  else if String.eqb mode "ceil" then Ceil number
  else Round number.

Definition outside_int64 (number : float64) : bool :=
  fltb number MinInt64f || fgtb number MaxInt64f.

Definition label_value (trueValue falseValue s : string) : result TransformError PropertyValue :=
  if String.eqb s trueValue then Ok (BoolValue true)
  else if String.eqb s falseValue then Ok (BoolValue false)
  else Err (NotALabel s).

Definition not_integral_in (lo hi : float64) (number : float64) : bool :=
  negb (feqb (Trunc number) number) || fltb number lo || fgtb number hi.

Definition map_range (a b c d number : float64) : float64 :=
  fadd c (fdiv (fmul (fsub number a) (fsub d c)) (fsub b a)).

Definition applyForward (t : Transform) (value : PropertyValue)
    : result TransformError PropertyValue :=
  match tr_Type t with
  | TransformInvert => let! b := deref (pv_Bool value) in Ok (BoolValue (negb b))
  | TransformReciprocal => reciprocalValue value
  | TransformIntNumber =>
      let! n := deref (pv_Int value) in
      if (n <? - maxSafeInteger) || (maxSafeInteger <? n) then Err (IntNotExact n)
      else finiteNumber (of_Z n)
  | TransformScale =>
      let! number := numericValue value in
      finiteNumber (fadd (fmul number (float64Value (tr_Factor t) fone))
                      (float64Value (tr_Offset t) fzero))
  | TransformClamp =>
      let! number := numericValue value in
      let number := match tr_Min t with Some lo => Max number lo | None => number end in
      let number := match tr_Max t with Some hi => Min number hi | None => number end in
      finiteNumber number
  | TransformEnum =>
      let! s := deref (pv_String value) in
      match tr_Values t !! s with
      | None => Err (NoMapping s)
      | Some mapped => Ok (stringValueForType mapped (pv_Type value))
      end
  | TransformUnit =>
      let! number := numericValue value in
      convertUnitValue (tr_FromUnit t) (tr_ToUnit t) number
  | TransformRangeEnum =>
      let! number := numericValue value in
      match band_for number (tr_Bands t) with
      | Some band => Ok (EnumValue (rb_Value band))
      | None => Err (NoRangeBand number)
      end
  | TransformEnumNumber =>
      let! s := deref (pv_String value) in
      match band_named s (tr_Bands t) with
      | Some band => finiteNumber (rb_Reverse band)
      | None => Err (NoMapping s)
      end
  | TransformThreshold =>
      let! number := numericValue value in
      let! threshold := deref (tr_Threshold t) in
      Ok (BoolValue (thresholdMatches number threshold (tr_Operator t)))
  | TransformBoolNumber =>
      let! b := deref (pv_Bool value) in
      let! x := deref (if b : bool then tr_TrueNumber t else tr_FalseNumber t) in
      finiteNumber x
  | TransformBoolEnum =>
      let! b := deref (pv_Bool value) in
      Ok (EnumValue (if b : bool then tr_TrueValue t else tr_FalseValue t))
  | TransformEnumBool =>
      let! s := deref (pv_String value) in
      label_value (tr_TrueValue t) (tr_FalseValue t) s
  | TransformMapRange =>
      let! c := deref (tr_OutputMin t) in
      let! number := numericValue value in
      let! a := deref (tr_InputMin t) in
      let! d := deref (tr_OutputMax t) in
      let! b := deref (tr_InputMax t) in
      finiteNumber (map_range a b c d number)
  | TransformRound =>
      let! number := numericValue value in
      let number := round_by (tr_Mode t) number in
      if outside_int64 number then Err OutsideInt64 else Ok (IntValue (to_int64 number))
  | TransformParseNumber =>
      let! s := deref (pv_String value) in
      match ParseFloat (TrimSpace s) with
      | Err e => Err (BadNumber s e)
      | Ok number => finiteNumber number
      end
  | TransformNumberString =>
      let! number := numericValue value in
      Ok (StringValue (FormatFloat number))
  | TransformOther _ => Err (UnsupportedTransform (tr_Type t))
  end.

Definition applyReverse (t : Transform) (value : PropertyValue) (expected : ValueType)
    : result TransformError PropertyValue :=
  match tr_Type t with
  | TransformInvert => let! b := deref (pv_Bool value) in Ok (BoolValue (negb b))
  | TransformReciprocal => reciprocalValue value
  | TransformIntNumber =>
      let! number := numericValue value in
      if not_integral_in (of_Z (- maxSafeInteger)) (of_Z maxSafeInteger) number
      then Err (NumberNotInt number) else Ok (IntValue (to_int64 number))
  | TransformScale =>
      let! number := numericValue value in
      finiteNumber (fdiv (fsub number (float64Value (tr_Offset t) fzero))
                      (float64Value (tr_Factor t) fone))
  | TransformClamp => Err NotReversible
  | TransformEnum =>
      let! s := deref (pv_String value) in
      match tr_ReverseValues t !! s with
      | Some source => Ok (stringValueForType source expected)
      | None =>
          match sources_of (tr_Values t) s with
          | [found] => Ok (stringValueForType found expected)
          | [] => Err (NoMapping s)
          | _ => Err (AmbiguousReverse s)
          end
      end
  | TransformUnit =>
      let! number := numericValue value in
      convertUnitValue (tr_ToUnit t) (tr_FromUnit t) number
  | TransformRangeEnum =>
      let! s := deref (pv_String value) in
      match band_named s (tr_Bands t) with
      | Some band => finiteNumber (rb_Reverse band)
      | None => Err (NoMapping s)
      end
  | TransformEnumNumber =>
      let! number := numericValue value in
      match band_for number (tr_Bands t) with
      | Some band => Ok (stringValueForType (rb_Value band) expected)
      | None => Err (NoRangeBand number)
      end
  | TransformThreshold =>
      let! b := deref (pv_Bool value) in
      let! x := deref (if b : bool then tr_TrueNumber t else tr_FalseNumber t) in
      finiteNumber x
  | TransformBoolNumber =>
      let! number := numericValue value in
      let! threshold := deref (tr_Threshold t) in
      Ok (BoolValue (thresholdMatches number threshold (tr_Operator t)))
  | TransformBoolEnum =>
      let! s := deref (pv_String value) in
      label_value (tr_TrueValue t) (tr_FalseValue t) s
  | TransformEnumBool =>
      let! b := deref (pv_Bool value) in
      Ok (stringValueForType (if b : bool then tr_TrueValue t else tr_FalseValue t) expected)
  | TransformMapRange =>
      let! a := deref (tr_InputMin t) in
      let! number := numericValue value in
      let! c := deref (tr_OutputMin t) in
      let! b := deref (tr_InputMax t) in
      let! d := deref (tr_OutputMax t) in
      finiteNumber (map_range c d a b number)
  | TransformRound => let! number := numericValue value in finiteNumber number
  | TransformParseNumber =>
      let! number := numericValue value in
      Ok (StringValue (FormatFloat number))
  | TransformNumberString =>
      let! s := deref (pv_String value) in
      match ParseFloat (TrimSpace s) with
      | Err e => Err (BadNumber s e)
      | Ok number =>
          if is_int_type expected then
            if not_integral_in MinInt64f MaxInt64f number then Err (StringNotInt s)
            else Ok (IntValue (to_int64 number))
          else finiteNumber number
      end
  | TransformOther _ => Err (UnsupportedTransform (tr_Type t))
  end.

(** ** Preview *)

Definition cloneValue (value : PropertyValue) : PropertyValue :=
  match pv_Type value, value with
  | ValueTypeBool, MkPropertyValue _ (Some b) _ _ _ => BoolValue b
  | ValueTypeInt, MkPropertyValue _ _ (Some n) _ _ => IntValue n
  | ValueTypeNumber, MkPropertyValue _ _ _ (Some x) _ => NumberValue x
  | ValueTypeString, MkPropertyValue _ _ _ _ (Some s) => StringValue s
  | ValueTypeEnum, MkPropertyValue _ _ _ _ (Some s) => EnumValue s
  | _, _ => value
  end.

Record PreviewRequest := MkPreviewRequest {
  rq_ProfileID : string;
  rq_Profile : Profile;
  rq_Direction : Direction;
  rq_Value : option PropertyValue;
}.

(** [Transform] of a step is [None] for the step named ["default"]. *)
Record Step := MkStep {
  st_Index : Z;
  st_Transform : option TransformType;
  st_Input : option PropertyValue;
  st_Output : PropertyValue;
}.

Record PreviewResult := MkPreviewResult {
  rs_ProfileID : string;
  rs_ProfileVersion : Z;
  rs_Direction : Direction;
  rs_Value : PropertyValue;
  rs_Steps : list Step;
}.

(** Each is a [ValidationError] of the code, with the field it names; the last is
    the panic of a nil dereference in a transform. *)
Inductive PreviewError :=
| ProfileInvalid (e : ValidationError)
| DirectionInvalid
| ValueRequired
| ValueInvalid (e : ValueError)
| TransformFailed (index : Z) (e : TransformError)
| OutputOutsideInt64
| OutputInvalid (e : ValueError).

Fixpoint run_forward (index : Z) (ts : list Transform) (current : PropertyValue) (steps : list Step)
    : result PreviewError (PropertyValue * list Step) :=
  match ts with
  | [] => Ok (current, steps)
  | t :: ts =>
      match applyForward t current with
      | Err e => Err (TransformFailed index e)
      | Ok output =>
          run_forward (index + 1) ts output
            (steps ++ [MkStep index (Some (tr_Type t)) (Some (cloneValue current)) (cloneValue output)])
      end
  end.

(** The transforms with their index and input type ([types[index]]). *)
Fixpoint typed_transforms (index : Z) (ty : ValueType) (ts : list Transform)
    : list (Z * Transform * ValueType) :=
  match ts with
  | [] => []
  | t :: ts => (index, t, ty) :: typed_transforms (index + 1) (transformOutputType ty t) ts
  end.

Fixpoint run_reverse (ts : list (Z * Transform * ValueType)) (current : PropertyValue)
    (steps : list Step) : result PreviewError (PropertyValue * list Step) :=
  match ts with
  | [] => Ok (current, steps)
  | (index, t, ty) :: ts =>
      match applyReverse t current ty with
      | Err e => Err (TransformFailed index e)
      | Ok output =>
          run_reverse ts output
            (steps ++ [MkStep index (Some (tr_Type t)) (Some (cloneValue current)) (cloneValue output)])
      end
  end.

Definition is_reverse (d : Direction) : bool :=
  match d with DirectionReverse => true | _ => false end.

(** The conversion of a number to the integer type of the result; the first
    rounding transform of the profile decides in reverse. *)
Definition integerize (direction : Direction) (ts : list Transform) (finalType : ValueType)
    (current : PropertyValue) : result PreviewError PropertyValue :=
  match finalType, pv_Type current, pv_Number current with
  | ValueTypeInt, ValueTypeNumber, Some number =>
      if feqb (Trunc number) number then
        if outside_int64 number then Err OutputOutsideInt64 else Ok (IntValue (to_int64 number))
      else if is_reverse direction then
        match first (fun t => match tr_Type t with TransformRound => Some t | _ => None end) ts with
        | None => Ok current
        | Some t =>
            let number := round_by (tr_Mode t) number in
            if outside_int64 number then Err OutputOutsideInt64 else Ok (IntValue (to_int64 number))
        end
      else Ok current
  | _, _, _ => Ok current
  end.

Definition check_value {E} (wrap : ValueError -> E) (v : PropertyValue) (ty : ValueType)
    : result E unit :=
  match validateValue v ty with Ok _ => Ok tt | Err e => Err (wrap e) end.

(** The value the pipeline starts from, and the steps so far. *)
Definition initial_value (request : PreviewRequest) (direction : Direction)
    : result PreviewError (PropertyValue * list Step) :=
  match rq_Value request with
  | Some v => Ok (cloneValue v, [])
  | None =>
      match pr_Default (rq_Profile request) with
      | Some v =>
          if is_reverse direction then Err ValueRequired
          else Ok (cloneValue v, [MkStep (-1) None None (cloneValue (cloneValue v))])
      | None => Err ValueRequired
      end
  end.

Definition Preview (request : PreviewRequest) : result PreviewError PreviewResult :=
  let profile := rq_Profile request in
  match Validate profile with
  | Err e => Err (ProfileInvalid e)
  | Ok _ =>
      let direction := match rq_Direction request with
                       | DirectionOther s => if is_empty s then DirectionForward
                                             else DirectionOther s
                       | d => d
                       end in
      guard! match direction with DirectionOther _ => false | _ => true end
        else DirectionInvalid in
      let expectedType := if is_reverse direction then pr_OutputType profile
                          else pr_InputType profile in
      let! start := initial_value request direction in
      let '(current, steps) := start in
      check! check_value ValueInvalid current expectedType in
      let! run :=
        (if is_reverse direction
         then run_reverse (rev (typed_transforms 0 (pr_InputType profile) (pr_Transforms profile)))
                current steps
         else run_forward 0 (pr_Transforms profile) current steps) in
      let '(current, steps) := run in
      let finalType := if is_reverse direction then pr_InputType profile
                       else pr_OutputType profile in
      let! current := integerize direction (pr_Transforms profile) finalType current in
      check! check_value OutputInvalid current finalType in
      Ok (MkPreviewResult (pr_ID profile) (pr_Version profile) direction current steps)
  end.

(** ** Typed values *)

(** The valid values of a type. *)
Inductive typed : ValueType -> PropertyValue -> Prop :=
| typed_bool b : typed ValueTypeBool (BoolValue b)
| typed_int n : typed ValueTypeInt (IntValue n)
| typed_number x : finite x = true -> typed ValueTypeNumber (NumberValue x)
| typed_string s : typed ValueTypeString (StringValue s)
| typed_enum s : typed ValueTypeEnum (EnumValue s).

Lemma validateValue_ok v ty : validateValue v ty = Ok tt <-> typed ty v.
Proof.
  unfold validateValue. rewrite !guard_then, value_type_eqb_eq. split.
  - intros (<- & Hp & Hv). unfold HasSinglePayload in Hp.
    destruct (Z.eqb_spec (payloads v) 1) as [E|]; [|done]. apply one_payload in E.
    destruct v as [t b n x s]. simpl in *. destruct t, b, n, x, s; try done; try by constructor.
    constructor. apply finite_false. by destruct (IsNaN f || IsInf f).
  - intros [b|n|x Hx|s|s]; split_and!; try done. simpl. apply finite_false in Hx. by rewrite Hx.
Qed.

Lemma finiteNumber_ok x w : finiteNumber x = Ok w <-> finite x = true /\ w = NumberValue x.
Proof.
  unfold finiteNumber. rewrite <- finite_false. destruct (IsNaN x || IsInf x); intuition congruence.
Qed.

Lemma finiteNumber_safe x : finiteNumber x <> Err NilDereference.
Proof. unfold finiteNumber. by destruct (IsNaN x || IsInf x). Qed.

(** Either numeric type holds a number; either text type holds a string. *)
Inductive loosely : ValueType -> PropertyValue -> Prop :=
| loose_bool b : loosely ValueTypeBool (BoolValue b)
| loose_number ty v : numericType ty = true ->
    typed ValueTypeInt v \/ typed ValueTypeNumber v -> loosely ty v
| loose_text ty v : textType ty = true ->
    typed ValueTypeString v \/ typed ValueTypeEnum v -> loosely ty v.

Lemma typed_loosely ty v : typed ty v -> loosely ty v.
Proof.
  intros [b|n|x Hx|s|s]; [constructor|apply loose_number|apply loose_number|apply loose_text|
    apply loose_text]; try done; [left|right|left|right]; by constructor.
Qed.

Lemma loosely_numeric ty v : numericType ty = true -> loosely ty v ->
  exists x, numericValue v = Ok x.
Proof.
  intros Hn Hv. destruct Hv as [b|ty v Hty [H|H]|ty v Hty Hv]; [done|..].
  - inversion H; subst. by eexists.
  - inversion H; subst. by eexists.
  - by destruct ty.
Qed.

Lemma loosely_text ty v : textType ty = true -> loosely ty v -> exists s, pv_String v = Some s.
Proof.
  intros Hn Hv. destruct Hv as [b|ty v Hty Hv|ty v Hty [H|H]]; [done|by destruct ty|..];
    inversion H; subst; by eexists.
Qed.

Lemma loosely_bool v : loosely ValueTypeBool v -> exists b, v = BoolValue b.
Proof. intros Hv. inversion Hv; subst; [by eexists|done|done]. Qed.

(** A transform that neither dereferences nil nor leaves a type. *)
Definition safe (r : result TransformError PropertyValue) (P : PropertyValue -> Prop) : Prop :=
  match r with Ok w => P w | Err e => e <> NilDereference end.

Lemma safe_finite x (P : PropertyValue -> Prop) :
  (finite x = true -> P (NumberValue x)) -> safe (finiteNumber x) P.
Proof.
  intros H. unfold safe. destruct (finiteNumber x) as [w|e] eqn:E.
  - apply finiteNumber_ok in E as [? ->]. auto.
  - intros ->. by apply finiteNumber_safe in E.
Qed.

Lemma safe_number ty x : numericType ty = true -> safe (finiteNumber x) (loosely ty).
Proof. intros Hty. apply safe_finite. intros Hx. apply loose_number; [done|right; by constructor]. Qed.

Lemma safe_reciprocal v x (P : PropertyValue -> Prop) : numericValue v = Ok x ->
  (forall y, finite y = true -> P (NumberValue y)) -> safe (reciprocalValue v) P.
Proof.
  intros E HP. unfold reciprocalValue. rewrite E. destruct (feqb x fzero); [done|].
  by apply safe_finite, HP.
Qed.

Lemma safe_unit from to x (P : PropertyValue -> Prop) :
  (forall y, finite y = true -> P (NumberValue y)) -> safe (convertUnitValue from to x) P.
Proof.
  intros HP. unfold convertUnitValue. destruct (nonlinearUnitConversion from to).
  - destruct (fleb x fzero); [done|]. by apply safe_finite, HP.
  - destruct (unitFormula from to) as [[f o]|]; [|done]. by apply safe_finite, HP.
Qed.

Lemma stringValueForType_typed s ty : textType ty = true -> typed ty (stringValueForType s ty).
Proof. destruct ty; try done; constructor. Qed.

Lemma safe_label a b s (P : PropertyValue -> Prop) :
  (forall x, P (BoolValue x)) -> safe (label_value a b s) P.
Proof. intros HP. unfold label_value. destruct (String.eqb s a), (String.eqb s b); simpl; auto; done. Qed.

(** What a transform needs of its input holds of every loosely typed value. *)
Ltac payload :=
  match goal with
  | H : loosely ValueTypeBool ?v |- _ => let b := fresh "b" in
      destruct (loosely_bool v H) as [b ->]; clear H; cbn [BoolValue pv_Bool deref]
  | Hn : numericType ?ty = true, H : loosely ?ty ?v |- context [numericValue ?v] =>
      let x := fresh "x" in let E := fresh "E" in
      destruct (loosely_numeric ty v Hn H) as [x E]; rewrite E
  | Hn : textType ?ty = true, H : loosely ?ty ?v |- context [pv_String ?v] =>
      let s := fresh "s" in let E := fresh "E" in
      destruct (loosely_text ty v Hn H) as [s E]; rewrite E; cbn [deref]
  end.

Lemma applyForward_safe t ty v :
  transform_ok ty t -> typed ty v -> safe (applyForward t v) (typed (next_type ty t)).
Proof.
  intros Ht Hv. pose proof (typed_loosely ty v Hv) as Hl.
  assert (Hnum : forall y, finite y = true -> typed ValueTypeNumber (NumberValue y)) by by constructor.
  unfold transform_ok, applyForward, next_type in *. destruct (tr_Type t).
  - subst. payload. constructor.
  - destruct (loosely_numeric ty v Ht Hl) as [x E]. by apply (safe_reciprocal v x).
  - subst. inversion Hv; subst. cbn [pv_Int IntValue deref]. destruct (_ || _); [done|].
    by apply safe_finite, Hnum.
  - destruct Ht as [Ht _]. payload. by apply safe_finite, Hnum.
  - destruct Ht as [Ht _]. payload. by apply safe_finite, Hnum.
  - destruct Ht as [Ht _]. payload. destruct (tr_Values t !! s); [|done].
    destruct Hv; try done; constructor.
  - destruct Ht as [Ht _]. payload. by apply safe_unit.
  - destruct Ht as [Ht _]. payload. destruct (band_for _ _); [constructor|done].
  - destruct Ht as [Ht _]. payload. destruct (band_named _ _); [|done]. by apply safe_finite, Hnum.
  - destruct Ht as [Ht (_ & x0 & y & z & -> & _)]. payload. constructor.
  - destruct Ht as [-> (_ & x0 & y & z & _ & -> & -> & _)]. payload.
    destruct b; by apply safe_finite, Hnum.
  - destruct Ht as [-> _]. payload. constructor.
  - destruct Ht as [Ht _]. payload. apply safe_label. constructor.
  - destruct Ht as [Ht (a & b & c & d & -> & -> & -> & -> & _)]. payload. by apply safe_finite, Hnum.
  - destruct Ht as [Ht _]. payload. cbv zeta. destruct (outside_int64 _); [done|constructor].
  - subst. inversion Hv; subst. cbn [pv_String StringValue deref].
    destruct (ParseFloat _); [|done]. by apply safe_finite, Hnum.
  - payload. constructor.
  - done.
Qed.

Lemma applyReverse_safe t ty v :
  transform_ok ty t -> loosely (next_type ty t) v -> safe (applyReverse t v ty) (loosely ty).
Proof.
  intros Ht Hl. unfold transform_ok, applyReverse, next_type in *.
  assert (Hnn : numericType ValueTypeNumber = true) by done.
  assert (Hni : numericType ValueTypeInt = true) by done.
  assert (Hte : textType ValueTypeEnum = true) by done.
  assert (Hts : textType ValueTypeString = true) by done.
  assert (Hint : forall n, numericType ty = true -> loosely ty (IntValue n))
    by (intros n H; apply loose_number; [done|left; constructor]).
  assert (Hnum : forall y, numericType ty = true -> finite y = true -> loosely ty (NumberValue y))
    by (intros y H Hy; apply loose_number; [done|right; by constructor]).
  assert (Hstr : forall s, textType ty = true -> loosely ty (stringValueForType s ty))
    by (intros s H; by apply typed_loosely, stringValueForType_typed).
  destruct (tr_Type t).
  - subst. payload. constructor.
  - destruct (loosely_numeric _ v Hnn Hl) as [x E]. apply (safe_reciprocal v x); auto.
  - subst. payload. destruct (not_integral_in _ _ _); [done|]. by apply Hint.
  - destruct Ht as [Ht _]. payload. by apply safe_number.
  - done.
  - destruct Ht as [Ht _]. payload. destruct (tr_ReverseValues t !! s); [by apply Hstr|].
    destruct (sources_of _ _) as [|? []]; try done. by apply Hstr.
  - destruct Ht as [Ht _]. payload. apply safe_unit; auto.
  - destruct Ht as [Ht _]. payload. destruct (band_named _ _); [|done]. by apply safe_number.
  - destruct Ht as [Ht _]. payload. destruct (band_for _ _); [by apply Hstr|done].
  - destruct Ht as [Ht (_ & x0 & y & z & _ & -> & -> & _)]. payload. destruct b; by apply safe_number.
  - destruct Ht as [-> (_ & x0 & y & z & -> & _)]. payload. constructor.
  - destruct Ht as [-> _]. payload. apply safe_label. constructor.
  - destruct Ht as [Ht _]. payload. by apply Hstr.
  - destruct Ht as [Ht (a & b & c & d & -> & -> & -> & -> & _)]. payload. by apply safe_number.
  - destruct Ht as [Ht _]. payload. by apply safe_number.
  - subst. payload. apply typed_loosely. constructor.
  - payload. destruct (ParseFloat _) as [x|]; [|done].
    destruct (is_int_type ty) eqn:Ei.
    + destruct (not_integral_in _ _ _); [done|]. by apply Hint.
    + by apply safe_number.
  - done.
Qed.

(** ** Pipelines *)

Lemma run_forward_safe ty ts out index v steps :
  pipeline ty ts out -> typed ty v ->
  match run_forward index ts v steps with
  | Ok (w, _) => typed out w
  | Err (TransformFailed _ e) => e <> NilDereference
  | Err _ => False
  end.
Proof.
  intros Hp. revert index v steps. induction Hp as [ty|ty t ts out Ht _ IH];
    intros index v steps Hv; simpl; [done|].
  pose proof (applyForward_safe t ty v Ht Hv) as Hs. unfold safe in Hs.
  destruct (applyForward t v) as [w|e]; [by apply IH|done].
Qed.

Lemma transformOutputType_next ty t : transformOutputType ty t = next_type ty t.
Proof. unfold transformOutputType, next_type. by destruct (tr_Type t). Qed.

Lemma run_reverse_app l1 l2 v steps :
  run_reverse (l1 ++ l2) v steps =
  match run_reverse l1 v steps with
  | Ok (w, steps') => run_reverse l2 w steps'
  | Err e => Err e
  end.
Proof.
  revert v steps. induction l1 as [|[[i t] ty] l1 IH]; intros v steps; simpl; [done|].
  destruct (applyReverse t v ty); [by apply IH|done].
Qed.

Lemma run_reverse_safe ty ts out index v steps :
  pipeline ty ts out -> loosely out v ->
  match run_reverse (rev (typed_transforms index ty ts)) v steps with
  | Ok (w, _) => loosely ty w
  | Err (TransformFailed _ e) => e <> NilDereference
  | Err _ => False
  end.
Proof.
  intros Hp. revert index v steps. induction Hp as [ty|ty t ts out Ht _ IH];
    intros index v steps Hv; simpl; [done|].
  rewrite transformOutputType_next, run_reverse_app. specialize (IH (index + 1) v steps Hv).
  destruct (run_reverse _ v steps) as [[w st]|[]]; try done. simpl.
  pose proof (applyReverse_safe t ty w Ht IH) as Hs. unfold safe in Hs.
  by destruct (applyReverse t w ty).
Qed.

Lemma cloneValue_typed ty v : typed ty (cloneValue v) -> cloneValue (cloneValue v) = cloneValue v.
Proof. by intros []. Qed.

Lemma check_value_ok {E} (wrap : ValueError -> E) v ty u :
  check_value wrap v ty = Ok u <-> typed ty v.
Proof.
  destruct u. rewrite <- validateValue_ok. unfold check_value.
  destruct (validateValue v ty) as [[]|]; split; congruence.
Qed.

(** ** Bands *)

Lemma fgtb_false_fleb x y : finite x = true -> finite y = true -> fgtb x y = false -> fleb x y = true.
Proof.
  intros Hx Hy H. rewrite fleb_total by by apply finite_not_nan. by rewrite <- fgtb_fltb, H.
Qed.

Lemma fleb_false_swap x y : finite x = true -> finite y = true -> fleb x y = false -> fleb y x = true.
Proof.
  intros Hx Hy H. rewrite fleb_total in H by by apply finite_not_nan.
  apply negb_false_iff in H. by apply fltb_fleb.
Qed.

(** In validated bands the canonical number of a band selects that band, and its
    label names it. *)
Lemma bands_from_value seen prev bands b :
  bands_from seen prev bands -> b ∈ bands -> (rb_Value b ∉ seen).
Proof.
  revert seen prev. induction bands as [|b0 rest IH]; intros seen prev Hb Hin; [set_solver|].
  destruct Hb as (_ & Hn & _ & _ & _ & _ & Hrest). apply elem_of_cons in Hin as [->|Hin]; [done|].
  specialize (IH _ _ Hrest Hin). set_solver.
Qed.

Lemma bands_from_reverse seen prev bands b :
  bands_from seen prev bands -> b ∈ bands ->
  finite (rb_Reverse b) = true /\
  forall p, prev = Some p -> finite p = true -> fleb (rb_Reverse b) p = false.
Proof.
  revert seen prev. induction bands as [|b0 rest IH]; intros seen prev Hb Hin; [set_solver|].
  destruct Hb as (_ & _ & Hf & Hp & Hlast & Hm & Hrest).
  apply elem_of_cons in Hin as [->|Hin]; [by split; [|intros; apply Hp]|].
  destruct (IH _ _ Hrest Hin) as [Hfb Hrev]. split; [done|]. intros p -> Hfp.
  destruct (rb_Max b0) as [m|] eqn:Em; [|by apply Hrev].
  destruct (Hm m eq_refl) as (Hfm & _ & Hmp). specialize (Hmp p eq_refl).
  specialize (Hrev m eq_refl Hfm). destruct (fleb (rb_Reverse b) p) eqn:E; [|done].
  rewrite (fleb_trans (rb_Reverse b) p m) in Hrev; [done|by apply finite_not_nan|done|].
  by apply fleb_false_swap.
Qed.

Lemma band_for_reverse seen prev bands b :
  bands_from seen prev bands -> b ∈ bands -> band_for (rb_Reverse b) bands = Some b.
Proof.
  revert seen prev. induction bands as [|b0 rest IH]; intros seen prev Hb Hin; [set_solver|].
  pose proof Hb as (_ & _ & Hf & _ & Hlast & Hm & Hrest). unfold band_for. simpl.
  apply elem_of_cons in Hin as [->|Hin].
  - destruct (rb_Max b0) as [m|] eqn:Em; [|done]. destruct (Hm m eq_refl) as (Hfm & Hg & _).
    by rewrite (fgtb_false_fleb _ _ Hf Hfm Hg).
  - destruct (rb_Max b0) as [m|] eqn:Em; [|by rewrite (Hlast eq_refl) in Hin; set_solver].
    destruct (Hm m eq_refl) as (Hfm & _). destruct (bands_from_reverse _ _ _ _ Hrest Hin) as [_ Hr].
    rewrite (Hr m eq_refl Hfm). by eapply IH.
Qed.

Lemma band_named_value seen prev bands b :
  bands_from seen prev bands -> b ∈ bands -> band_named (rb_Value b) bands = Some b.
Proof.
  revert seen prev. induction bands as [|b0 rest IH]; intros seen prev Hb Hin; [set_solver|].
  pose proof Hb as (_ & _ & _ & _ & _ & _ & Hrest). unfold band_named. simpl.
  apply elem_of_cons in Hin as [->|Hin]; [by rewrite String.eqb_refl|].
  destruct (String.eqb_spec (rb_Value b0) (rb_Value b)) as [E|_]; [|by eapply IH].
  exfalso. apply (bands_from_value _ _ _ _ Hrest Hin). rewrite <- E. set_solver.
Qed.

Lemma band_for_elem x bands b : band_for x bands = Some b -> b ∈ bands.
Proof.
  intros (b' & Hin & E)%first_elem. destruct (rb_Max b') as [m|]; [|by simplify_eq].
  destruct (fleb x m); by simplify_eq.
Qed.

Lemma band_named_elem s bands b : band_named s bands = Some b -> b ∈ bands /\ rb_Value b = s.
Proof.
  intros (b' & Hin & E)%first_elem. destruct (String.eqb_spec (rb_Value b') s); by simplify_eq.
Qed.

(** ** Properties *)

(** C5: Whatever the request, [Preview] never dereferences a nil pointer; a value it
    returns is valid for the type the direction ends in; and forwards the value a
    validated pipeline produces always has the declared output type. *)
Theorem preview_sound request :
  match Preview request with
  | Ok r =>
      typed (if is_reverse (rs_Direction r) then pr_InputType (rq_Profile request)
             else pr_OutputType (rq_Profile request)) (rs_Value r) /\
      pr_ID (rq_Profile request) = rs_ProfileID r
  | Err e =>
      (forall i, e <> TransformFailed i NilDereference) /\
      (is_reverse (rq_Direction request) = false ->
       e <> OutputOutsideInt64 /\ forall e', e <> OutputInvalid e')
  end.
Proof.
  unfold Preview. set (p := rq_Profile request).
  destruct (Validate p) as [[]|e] eqn:Hv; [|done]. apply Validate_ok in Hv.
  set (dir := match rq_Direction request with DirectionOther s => _ | d => d end).
  assert (Hd : is_reverse dir = is_reverse (rq_Direction request))
    by (unfold dir; destruct (rq_Direction request) as [| |s]; try done; by destruct (is_empty s)).
  destruct dir eqn:Edir; try done.
  - (* forward *)
    simpl in Hd |- *. destruct (initial_value request DirectionForward) as [[v steps]|e] eqn:Ei.
    2: { unfold initial_value in Ei. destruct (rq_Value request); [done|].
         destruct (pr_Default _); simplify_eq/=; done. }
    destruct (check_value ValueInvalid v (pr_InputType p)) as [[]|e] eqn:Hc.
    2: { unfold check_value in Hc. destruct (validateValue _ _); simplify_eq. done. }
    apply check_value_ok in Hc.
    pose proof (run_forward_safe _ _ _ 0 v steps (po_pipeline _ Hv) Hc) as Hs.
    destruct (run_forward 0 (pr_Transforms p) v steps) as [[w st]|e].
    + assert (integerize DirectionForward (pr_Transforms p) (pr_OutputType p) w = Ok w) as ->
        by (unfold integerize; by destruct Hs).
      rewrite (proj2 (check_value_ok OutputInvalid w (pr_OutputType p) tt) Hs). done.
    + destruct e; try done. split; [|done]. intros i [= _ ->]. done.
  - (* reverse *)
    simpl in Hd |- *. destruct (initial_value request DirectionReverse) as [[v steps]|e] eqn:Ei.
    2: { unfold initial_value in Ei. destruct (rq_Value request); [done|].
         destruct (pr_Default _); simplify_eq/=; done. }
    destruct (check_value ValueInvalid v (pr_OutputType p)) as [[]|e] eqn:Hc.
    2: { unfold check_value in Hc. destruct (validateValue _ _); simplify_eq. done. }
    apply check_value_ok in Hc.
    pose proof (run_reverse_safe _ _ _ 0 v steps (po_pipeline _ Hv) (typed_loosely _ _ Hc)) as Hs.
    destruct (run_reverse _ v steps) as [[w st]|e].
    + destruct (integerize _ _ _ w) as [w'|e] eqn:Hi.
      * destruct (check_value OutputInvalid w' (pr_InputType p)) as [[]|e] eqn:Hc'.
        -- apply check_value_ok in Hc'. done.
        -- unfold check_value in Hc'. destruct (validateValue _ _); simplify_eq.
           split; [done|]. by rewrite <- Hd.
      * split; [|by rewrite <- Hd]. intros i ->. unfold integerize in Hi. repeat case_match; done.
    + destruct e; try done. split; [intros i [= _ ->]; done|by rewrite <- Hd].
Qed.

Lemma stringValueForType_fields s ty : textType ty = true ->
  pv_String (stringValueForType s ty) = Some s /\ pv_Type (stringValueForType s ty) = ty.
Proof. by destruct ty. Qed.

Lemma typed_type ty v : typed ty v -> pv_Type v = ty.
Proof. by intros []. Qed.

Lemma sources_single values s target :
  values !! s = Some target ->
  (forall s1 s2, values !! s1 = Some target -> values !! s2 = Some target -> s1 = s2) ->
  sources_of values target = [s].
Proof.
  intros Hs Hu. pose proof (NoDup_sources values target) as Hnd.
  assert (s ∈ sources_of values target) as Hin by by apply elem_of_sources.
  destruct (sources_of values target) as [|a l] eqn:E; [set_solver|].
  assert (Ha : forall x, x ∈ a :: l -> x = s).
  { intros x Hx. apply Hu; [|done]. apply elem_of_sources. by rewrite E. }
  rewrite (Ha a) in * by set_solver. destruct l as [|b l]; [done|]. exfalso.
  apply NoDup_cons in Hnd as [Hn _]. apply Hn. rewrite (Ha b) by set_solver. set_solver.
Qed.

Lemma label_value_section a b s x : a <> b -> label_value a b s = Ok x ->
  exists y, x = BoolValue y /\ label_value a b (if y : bool then a else b) = Ok x.
Proof.
  intros Hab. unfold label_value. destruct (String.eqb_spec s a) as [->|Ha].
  - intros [= <-]. exists true. by rewrite String.eqb_refl.
  - destruct (String.eqb_spec s b) as [->|]; [|done]. intros [= <-]. exists false.
    split; [done|]. destruct (String.eqb_spec b a); [congruence|]. by rewrite String.eqb_refl.
Qed.

(** [reverse_is_section] for one kind of transform. *)
Definition section_of (t : Transform) (ty : ValueType) (v : PropertyValue) : Prop :=
  forall w, transform_ok ty t -> typed ty v -> applyForward t v = Ok w ->
  exists u, applyReverse t w ty = Ok u /\ applyForward t u = Ok w.

Lemma section_invert t ty v : tr_Type t = TransformInvert -> section_of t ty v.
Proof.
  intros E w Ht Hv Hw. unfold applyForward, applyReverse, transform_ok in *. rewrite E in *. subst.
  inversion Hv; subst. simpl in *. injection Hw as <-. eexists. split; [done|]. simpl.
  by rewrite negb_involutive.
Qed.

Lemma section_enum t ty v : tr_Type t = TransformEnum -> section_of t ty v.
Proof.
  intros E w Ht Hv Hw. unfold applyForward, applyReverse, transform_ok in *. rewrite E in *.
  destruct Ht as [Hty [_ _ Hu Hc _]].
  destruct (loosely_text _ _ Hty (typed_loosely _ _ Hv)) as [s Es]. rewrite Es in Hw. simpl in Hw.
  destruct (tr_Values t !! s) as [mapped|] eqn:Em; [|done]. injection Hw as <-.
  rewrite (typed_type _ _ Hv). destruct (stringValueForType_fields mapped ty Hty) as [-> _]. simpl.
  assert (Hback : forall src, tr_Values t !! src = Some mapped ->
    (let! s0 := deref (pv_String (stringValueForType src ty)) in
     match tr_Values t !! s0 with
     | None => Err (NoMapping s0)
     | Some m => Ok (stringValueForType m (pv_Type (stringValueForType src ty)))
     end) = Ok (stringValueForType mapped ty)).
  { intros src Hsrc. destruct (stringValueForType_fields src ty Hty) as [-> ->]. simpl. by rewrite Hsrc. }
  destruct (tr_ReverseValues t !! mapped) as [src|] eqn:Er.
  - eexists. split; [done|]. apply Hback. by eapply Hc.
  - rewrite (sources_single _ s mapped Em) by (intros s1 s2; by apply (Hu mapped)). eexists. split; [done|]. by apply Hback.
Qed.

Lemma section_range_enum t ty v : tr_Type t = TransformRangeEnum -> section_of t ty v.
Proof.
  intros E w Ht Hv Hw. unfold applyForward, applyReverse, transform_ok in *. rewrite E in *.
  destruct Ht as [Hty (_ & Hb & _)].
  destruct (loosely_numeric _ _ Hty (typed_loosely _ _ Hv)) as [x Ex]. rewrite Ex in Hw.
  destruct (band_for x (tr_Bands t)) as [b|] eqn:Eb; [|done]. injection Hw as <-.
  apply band_for_elem in Eb. simpl. rewrite (band_named_value _ _ _ _ Hb Eb).
  destruct (bands_from_reverse _ _ _ _ Hb Eb) as [Hf _]. exists (NumberValue (rb_Reverse b)).
  split; [by apply finiteNumber_ok|]. simpl. by rewrite (band_for_reverse _ _ _ _ Hb Eb).
Qed.

Lemma section_enum_number t ty v : tr_Type t = TransformEnumNumber -> section_of t ty v.
Proof.
  intros E w Ht Hv Hw. unfold applyForward, applyReverse, transform_ok in *. rewrite E in *.
  destruct Ht as [Hty (_ & Hb & _)].
  destruct (loosely_text _ _ Hty (typed_loosely _ _ Hv)) as [s Es]. rewrite Es in Hw. simpl in Hw.
  destruct (band_named s (tr_Bands t)) as [b|] eqn:Eb; [|done].
  apply finiteNumber_ok in Hw as [Hf ->]. apply band_named_elem in Eb as [Hin <-]. simpl.
  rewrite (band_for_reverse _ _ _ _ Hb Hin). eexists. split; [done|].
  destruct (stringValueForType_fields (rb_Value b) ty Hty) as [-> _]. simpl.
  rewrite (band_named_value _ _ _ _ Hb Hin). by apply finiteNumber_ok.
Qed.

Lemma section_threshold t ty v : tr_Type t = TransformThreshold -> section_of t ty v.
Proof.
  intros E w Ht Hv Hw. unfold applyForward, applyReverse, transform_ok in *. rewrite E in *.
  destruct Ht as [Hty (_ & th & yes & no & Eth & Ey & En & _ & Fy & Fn & My & Mn)].
  destruct (loosely_numeric _ _ Hty (typed_loosely _ _ Hv)) as [x Ex].
  rewrite Ex, Eth in Hw. injection Hw as <-. simpl. rewrite Ey, En, Eth.
  destruct (thresholdMatches x th (tr_Operator t)); simpl; eexists;
    (split; [by apply finiteNumber_ok|]); simpl; by rewrite ?My, ?Mn.
Qed.

Lemma section_bool_number t ty v : tr_Type t = TransformBoolNumber -> section_of t ty v.
Proof.
  intros E w Ht Hv Hw. unfold applyForward, applyReverse, transform_ok in *. rewrite E in *.
  destruct Ht as [-> (_ & th & yes & no & Eth & Ey & En & _ & Fy & Fn & My & Mn)].
  inversion Hv; subst. rewrite Eth, Ey, En in *. simpl in Hw. destruct b; simpl in Hw;
    apply finiteNumber_ok in Hw as [_ ->]; simpl; rewrite ?My, ?Mn; eexists;
    (split; [done|]); simpl; by apply finiteNumber_ok.
Qed.

Lemma section_bool_enum t ty v : tr_Type t = TransformBoolEnum -> section_of t ty v.
Proof.
  intros E w Ht Hv Hw. unfold applyForward, applyReverse, transform_ok in *. rewrite E in *.
  destruct Ht as [-> (_ & _ & Hne)]. inversion Hv; subst. simpl in *. injection Hw as <-.
  unfold label_value. simpl. exists (BoolValue b). split; [|done].
  destruct b; [by rewrite String.eqb_refl|]. rewrite String.eqb_refl.
  destruct (String.eqb_spec (tr_FalseValue t) (tr_TrueValue t)); [congruence|done].
Qed.

Lemma section_enum_bool t ty v : tr_Type t = TransformEnumBool -> section_of t ty v.
Proof.
  intros E w Ht Hv Hw. unfold applyForward, applyReverse, transform_ok in *. rewrite E in *.
  destruct Ht as [Hty (_ & _ & Hne)].
  destruct (loosely_text _ _ Hty (typed_loosely _ _ Hv)) as [s Es]. rewrite Es in Hw. simpl in Hw.
  destruct (label_value_section _ _ _ _ Hne Hw) as (y & -> & Hy). simpl. eexists. split; [done|].
  by destruct (stringValueForType_fields (if y then tr_TrueValue t else tr_FalseValue t) ty Hty) as [-> _].
Qed.

(** C6: A control write of a value the transform reports comes back as that value:
    for the transforms between labels, bands, thresholds and booleans, whatever
    forward mapping gives, its reverse succeeds and maps forwards to it again. *)
Theorem reverse_is_section t ty v w :
  transform_ok ty t -> typed ty v -> applyForward t v = Ok w ->
  tr_Type t ∈ [TransformInvert; TransformEnum; TransformRangeEnum; TransformEnumNumber;
               TransformThreshold; TransformBoolNumber; TransformBoolEnum; TransformEnumBool] ->
  exists u, applyReverse t w ty = Ok u /\ applyForward t u = Ok w.
Proof.
  intros Ht Hv Hw Hin. assert (Hs : section_of t ty v); [|by apply Hs].
  repeat (apply elem_of_cons in Hin as [Hin|Hin];
    [first [by apply section_invert|by apply section_enum|by apply section_range_enum
           |by apply section_enum_number|by apply section_threshold|by apply section_bool_number
           |by apply section_bool_enum|by apply section_enum_bool]|]).
  by apply not_elem_of_nil in Hin.
Qed.

(** The largest [int64] is not representable: as a [float64] it is [2^63], which
    passes the range check, and its conversion wraps around. *)
Lemma round_boundary t :
  tr_Type t = TransformRound ->
  applyForward t (IntValue (two63 - 1)) = Ok (IntValue (- two63)).
Proof.
  intros E. unfold applyForward. rewrite E. cbn [numericValue IntValue pv_Int]. unfold round_by.
  by destruct (String.eqb (tr_Mode t) "floor"), (String.eqb (tr_Mode t) "ceil").
Qed.

(** ** Concrete instances *)

Definition empty_transform (ty : TransformType) : Transform :=
  MkTransform ty None None None None ∅ ∅ "" "" [] None "" None None "" "" None None None None "".

Definition ex_bands : Transform :=
  MkTransform TransformRangeEnum None None None None ∅ ∅ "" ""
    [MkRangeBand (Some (of_Z 35)) "good" (of_Z 20); MkRangeBand (Some (of_Z 75)) "fair" (of_Z 50);
     MkRangeBand None "poor" (of_Z 120)]
    None "" None None "" "" None None None None "".

Definition ex_profile : Profile :=
  MkProfile 1 "pm25-level" "" 1 KindProvider ValueTypeInt ValueTypeEnum None [ex_bands].

Lemma ex_profile_valid : profile_ok ex_profile.
Proof. apply Validate_ok. vm_compute. reflexivity. Qed.

Lemma ex_bands_ok : transform_ok ValueTypeInt ex_bands.
Proof. pose proof (po_pipeline _ ex_profile_valid) as H. by inversion H; subst. Qed.

Example preview_ex :
  match Preview (MkPreviewRequest "" ex_profile (DirectionOther "") (Some (IntValue 60))) with
  | Ok r => rs_Value r = EnumValue "fair"
  | Err _ => False
  end.
Proof. vm_compute. reflexivity. Qed.

Lemma reverse_is_section_witness :
  exists u, applyReverse ex_bands (EnumValue "fair") ValueTypeInt = Ok u /\
    applyForward ex_bands u = Ok (EnumValue "fair").
Proof.
  apply (reverse_is_section ex_bands ValueTypeInt (IntValue 60)).
  - apply ex_bands_ok.
  - constructor.
  - vm_compute. reflexivity.
  - set_solver.
Defined.
