(* ===== verification/MappingBinding.v ===== *)
(** * Bindings, their keys and the identifiers of mappings:
    backend/internal/mapping/binding.go, uuid.go, capability_profile.go,
    custom_model.go, model_property.go and model_enum_override.go

    A binding routes a raw property of a Provider into the unified model, or a property
    of the unified model into one of a consumer.  Its keys index the routes.  Custom
    models, custom properties and replaced option lists extend the unified model.
    Identifiers of profiles are UUIDs of version 7; those of the built-in profiles come
    from a digest of their readable names. *)

From S2P Require Import Prelude Float64 DeviceModel ModelContract Sha256 MappingProfile.

(** ** Bindings *)

(** A Go string: any other text is [StageOther], the empty one included. *)
Inductive BindingStage := StageProvider | StageConsumer | StageOther (s : string).

#[export] Instance BindingStage_eq_dec : EqDecision BindingStage.
Proof. solve_decision. Defined.

Definition stage_text (s : BindingStage) : string :=
  match s with StageProvider => "provider" | StageConsumer => "consumer" | StageOther s => s end.

Record Binding := MkBinding {
  mb_ID : string;
  mb_Stage : BindingStage;
  mb_ProfileID : string;
  mb_ProviderID : string;
  mb_DeviceID : string;
  mb_EndpointID : string;
  mb_CapabilityID : string;
  mb_PropertyID : string;
  mb_DeviceType : Type_;
  mb_ConsumerDeviceType : Type_;
  mb_ModelEndpointID : string;
  mb_ModelCapabilityID : string;
  mb_ModelPropertyID : string;
  mb_ConsumerID : string;
  mb_TargetID : string;
  mb_ConsumerDeviceID : string;
  mb_ConsumerProperty : string;
  mb_Enabled : bool;
  mb_ReadbackEnabled : bool;
  mb_ReadbackDelaysMS : list Z;
  mb_PresentationStep : option float64;
}.

Definition minimumPresentationStep : float64 := of_ratio 1 100.

Definition EffectiveConsumerDeviceType (b : Binding) : Type_ :=
  if negb (is_empty (mb_ConsumerDeviceType b)) then mb_ConsumerDeviceType b else mb_DeviceType b.

Definition EffectiveStage (b : Binding) : BindingStage :=
  match mb_Stage b with
  | StageOther s => if is_empty s then StageProvider else StageOther s
  | s => s
  end.

Definition is_provider (s : BindingStage) : bool := bool_decide (s = StageProvider).
Definition is_consumer (s : BindingStage) : bool := bool_decide (s = StageConsumer).

Definition SourcePath (b : Binding) : ParameterPath :=
  MkParameterPath (mb_EndpointID b) (mb_CapabilityID b) (mb_PropertyID b).

Definition empty_path (p : ParameterPath) : bool :=
  is_empty (pp_EndpointID p) && is_empty (pp_CapabilityID p) && is_empty (pp_PropertyID p).

Definition ModelPath (b : Binding) : ParameterPath :=
  let path := MkParameterPath (mb_ModelEndpointID b) (mb_ModelCapabilityID b) (mb_ModelPropertyID b) in
  if is_provider (EffectiveStage b) && empty_path path then SourcePath b else path.

(** [strings.Join(l, "\x00")] *)
Fixpoint join_nul (l : list string) : string :=
  match l with
  | [] => ""
  | [s] => s
  | s :: l => s +:+ String NUL (join_nul l)
  end.

(** The keys of the routes of a property, as the methods of a binding with these fields. *)
Definition provider_key (providerID deviceID : string) (path : ParameterPath) : string :=
  join_nul ["provider"; providerID; deviceID; pp_EndpointID path; pp_CapabilityID path; pp_PropertyID path].
Definition consumer_key (providerID deviceID targetID consumerDeviceID consumerID property : string) : string :=
  join_nul ["consumer"; providerID; deviceID; targetID; consumerDeviceID; consumerID; property].

Definition Key (b : Binding) : string :=
  if is_consumer (EffectiveStage b)
  then consumer_key (mb_ProviderID b) (mb_DeviceID b) (mb_TargetID b) (mb_ConsumerDeviceID b)
         (mb_ConsumerID b) (mb_ConsumerProperty b)
  else provider_key (mb_ProviderID b) (mb_DeviceID b) (SourcePath b).

Definition ModelKey (b : Binding) : string :=
  provider_key (mb_ProviderID b) (mb_DeviceID b) (ModelPath b).

(** ** Validation *)

Definition scope_char (c : ascii) : bool :=
  between 65 90 c || between 97 122 c || between 48 57 c || Ascii.eqb c "_" || Ascii.eqb c "-".
(** [^[A-Za-z0-9_-]+$] *)
Definition targetScopeID (s : string) : bool := negb (is_empty s) && string_Forall scope_char s.

Definition stable_message : string := "must be a stable lowercase identifier".
Definition unstable (name value : string) (fields : Fields) : Fields :=
  note (negb (ValidStableID value)) name stable_message fields.

(** Whether the loop over the delays finds one out of range or out of order. *)
Fixpoint bad_delays (previous : Z) (delays : list Z) : bool :=
  match delays with
  | [] => false
  | delay :: delays =>
      (delay <? 100) || (300000 <? delay) || (delay <=? previous) || bad_delays delay delays
  end.

Definition step_refused (step : option float64) : bool :=
  holds (fun x => IsNaN x || IsInf x || fltb x minimumPresentationStep) step.

Definition validate_provider (b : Binding) (fields : Fields) : Fields :=
  let fields := unstable "binding.providerId" (mb_ProviderID b) fields in
  let fields := unstable "binding.deviceId" (mb_DeviceID b) fields in
  let fields := unstable "binding.endpointId" (mb_EndpointID b) fields in
  let fields := unstable "binding.capabilityId" (mb_CapabilityID b) fields in
  let fields := unstable "binding.propertyId" (mb_PropertyID b) fields in
  let fields := if negb (is_empty (mb_DeviceType b))
                then unstable "binding.deviceType" (mb_DeviceType b) fields else fields in
  let fields :=
    if mb_ReadbackEnabled b then
      let fields := note ((List.length (mb_ReadbackDelaysMS b) =? 0)%nat ||
                          (8 <? List.length (mb_ReadbackDelaysMS b))%nat)
        "binding.readbackDelaysMs" "must contain between 1 and 8 delays" fields in
      note (bad_delays 0 (mb_ReadbackDelaysMS b)) "binding.readbackDelaysMs"
        "must be strictly increasing values between 100 and 300000 milliseconds" fields
    else fields in
  note (step_refused (mb_PresentationStep b)) "binding.presentationStep"
    "must be a finite number greater than or equal to 0.01" fields.

Definition validate_consumer (b : Binding) (fields : Fields) : Fields :=
  let scope_message := "may contain only letters, numbers, underscores and hyphens" in
  let fields := note (mb_ReadbackEnabled b || negb (List.length (mb_ReadbackDelaysMS b) =? 0)%nat ||
                      present (mb_PresentationStep b))
    "binding.presentationStep" "is supported only for provider bindings" fields in
  let fields := unstable "binding.providerId" (mb_ProviderID b) fields in
  let fields := unstable "binding.deviceId" (mb_DeviceID b) fields in
  let fields := unstable "binding.consumerId" (mb_ConsumerID b) fields in
  let fields := note (negb (Bool.eqb (is_empty (mb_TargetID b)) (is_empty (mb_ConsumerDeviceID b))))
    "binding.targetId" "targetId and consumerDeviceId must be provided together" fields in
  let fields := note (negb (is_empty (mb_TargetID b)) && negb (targetScopeID (mb_TargetID b)))
    "binding.targetId" scope_message fields in
  let fields := note (negb (is_empty (mb_ConsumerDeviceID b)) && negb (targetScopeID (mb_ConsumerDeviceID b)))
    "binding.consumerDeviceId" scope_message fields in
  let fields := unstable "binding.deviceType" (mb_DeviceType b) fields in
  let fields := unstable "binding.consumerDeviceType" (EffectiveConsumerDeviceType b) fields in
  note (is_empty (TrimSpace (mb_ConsumerProperty b)) || (160 <? String.length (mb_ConsumerProperty b))%nat)
    "binding.consumerProperty" "must be between 1 and 160 characters" fields.

(** The error of a validation, if any field is wrong. *)
Definition fields_error (fields : Fields) : result ValidationError unit :=
  if (0 <? size fields)%nat then Err (MkValidationError fields) else Ok tt.

Definition ValidateBinding (b : Binding) : result ValidationError unit :=
  let fields := unstable "binding.id" (mb_ID b) ∅ in
  let fields := note (negb (is_empty (mb_ProfileID b)) && negb (ValidStableID (mb_ProfileID b)))
    "binding.profileId" "must be empty or a stable lowercase identifier" fields in
  let stage := EffectiveStage b in
  let fields := note (negb (is_provider stage) && negb (is_consumer stage)) "binding.stage"
    "must be provider or consumer" fields in
  let model := ModelPath b in
  let fields := unstable "binding.modelEndpointId" (pp_EndpointID model) fields in
  let fields := unstable "binding.modelCapabilityId" (pp_CapabilityID model) fields in
  let fields := unstable "binding.modelPropertyId" (pp_PropertyID model) fields in
  fields_error (if is_provider stage then validate_provider b fields
                else if is_consumer stage then validate_consumer b fields else fields).

(** ** Custom models, custom properties and option lists *)

Record CustomModel := MkCustomModel {
  cu_DeviceType : Type_;
  cu_Name : string;
  cu_Version : Z;
}.

Definition ValidateCustomModel (item : CustomModel) : result ValidationError unit :=
  let fields := unstable "deviceType" (cu_DeviceType item) ∅ in
  let fields := note (is_empty (TrimSpace (cu_Name item)) || (80 <? String.length (cu_Name item))%nat)
    "name" "must be between 1 and 80 characters" fields in
  let fields := note (cu_Version item <? 1) "version" "must be greater than zero" fields in
  fields_error fields.

Record CustomModelProperty := MkCustomProperty {
  cmp_ID : string;
  cmp_DeviceType : Type_;
  cmp_EndpointID : string;
  cmp_EndpointName : string;
  cmp_EndpointType : string;
  cmp_CapabilityID : string;
  cmp_CapabilityType : string;
  cmp_Definition : PropertyDefinition;
}.

Definition custom_path (p : CustomModelProperty) : ParameterPath :=
  MkParameterPath (cmp_EndpointID p) (cmp_CapabilityID p) (pd_ID (cmp_Definition p)).
(** The key of a path of the model of a device type. *)
Definition model_key (t : Type_) (path : ParameterPath) : string := t +:+ nul +:+ path_key path.
Definition custom_key (p : CustomModelProperty) : string := model_key (cmp_DeviceType p) (custom_path p).

Inductive DefinitionError :=
| NegativeStaleAfter
| EnumOptionsRequired
| UnsupportedDefinitionType (t : ValueType)
| InvalidDefinition (e : PropertyError).

(** The value a definition is tried with. *)
Definition sample_value (d : PropertyDefinition) : result DefinitionError PropertyValue :=
  match pd_Type d with
  | ValueTypeBool => Ok (BoolValue false)
  | ValueTypeInt => Ok (IntValue (match pd_Min d with Some x => to_int64 x | None => 0 end))
  | ValueTypeNumber => Ok (NumberValue (default fzero (pd_Min d)))
  | ValueTypeString => Ok (StringValue "")
  | ValueTypeEnum => match pd_Enum d with [] => Err EnumOptionsRequired | s :: _ => Ok (EnumValue s) end
  | ValueTypeOther s => Err (UnsupportedDefinitionType (ValueTypeOther s))
  end.

Definition validateCustomDefinition (d : PropertyDefinition) : result DefinitionError unit :=
  guard! negb (pd_StaleAfterSeconds d <? 0) else NegativeStaleAfter in
  let! value := sample_value d in
  match ValidateProperty (MkProperty d value (StateTransportOther "")) with
  | Ok _ => Ok tt
  | Err e => Err (InvalidDefinition e)
  end.

Definition ValidateCustomModelProperty (item : CustomModelProperty) : result ValidationError unit :=
  let fields := unstable "id" (cmp_ID item) ∅ in
  let fields := unstable "deviceType" (cmp_DeviceType item) fields in
  let fields := unstable "endpointId" (cmp_EndpointID item) fields in
  let fields := unstable "capabilityId" (cmp_CapabilityID item) fields in
  let fields := unstable "definition.id" (pd_ID (cmp_Definition item)) fields in
  let fields := note (is_empty (cmp_EndpointName item)) "endpointName" "is required" fields in
  let fields := note (is_empty (cmp_EndpointType item)) "endpointType" "is required" fields in
  let fields := note (is_empty (cmp_CapabilityType item)) "capabilityType" "is required" fields in
  let fields := note (is_empty (pd_Name (cmp_Definition item))) "definition.name" "is required" fields in
  let fields := note (negb (is_ok (validateCustomDefinition (with_pd_Level (cmp_Definition item) ParameterCustom))))
    "definition" "is invalid" fields in
  fields_error fields.

Definition CustomModelParameter (item : CustomModelProperty) : ModelParameter :=
  let d := cmp_Definition item in
  MkModelParameter (custom_path item) (pd_Name d) ParameterCustom (pd_Type d) (pd_Unit d) (pd_Readable d)
    (pd_Writable d) (pd_Notifiable d) (pd_Min d) (pd_Max d) (pd_Step d) (pd_StaleAfterSeconds d) (pd_Enum d)
    (MkParameterRole ParameterCustom "preserve-and-mark-custom")
    (MkParameterRole ParameterCustom "explicit-path-mapping-only")
    "Provider 通过显式路由发布自定义属性" "Consumer 通过显式路由使用自定义属性".

Record ModelEnumOverride := MkEnumOverride {
  eo_ID : string;
  eo_DeviceType : Type_;
  eo_EndpointID : string;
  eo_CapabilityID : string;
  eo_PropertyID : string;
  eo_Enum : list string;
}.

Definition override_path (o : ModelEnumOverride) : ParameterPath :=
  MkParameterPath (eo_EndpointID o) (eo_CapabilityID o) (eo_PropertyID o).
Definition override_key (o : ModelEnumOverride) : string := model_key (eo_DeviceType o) (override_path o).

Fixpoint validate_options (index : Z) (seen : gset string) (options : list string) (fields : Fields) : Fields :=
  match options with
  | [] => fields
  | option :: options =>
      let trimmed := TrimSpace option in
      let path := "enum." +:+ show_Z index in
      if is_empty trimmed
      then validate_options (index + 1) seen options (<[path := Text "must not be empty"]> fields)
      else
        let fields := note (negb (trimmed =s option)) path
          "must not include leading or trailing whitespace" fields in
        let fields := note (bool_decide (trimmed ∈ seen)) path "must be unique" fields in
        validate_options (index + 1) ({[trimmed]} ∪ seen) options fields
  end.

Definition ValidateModelEnumOverride (item : ModelEnumOverride) : result ValidationError unit :=
  let fields := unstable "id" (eo_ID item) ∅ in
  let fields := unstable "deviceType" (eo_DeviceType item) fields in
  let fields := unstable "endpointId" (eo_EndpointID item) fields in
  let fields := unstable "capabilityId" (eo_CapabilityID item) fields in
  let fields := unstable "propertyId" (eo_PropertyID item) fields in
  let fields := note (List.length (eo_Enum item) =? 0)%nat "enum" "must not be empty" fields in
  fields_error (validate_options 0 ∅ (eo_Enum item) fields).

Definition ModelEnumOverrideID (t : Type_) (path : ParameterPath) : string :=
  "enum-" +:+ t +:+ "-" +:+ pp_EndpointID path +:+ "-" +:+ pp_CapabilityID path +:+ "-" +:+ pp_PropertyID path.

(** ** Identifiers *)

(** [formatUUID], from the byte at the index. *)
Fixpoint format_from (index : nat) (raw : list Z) : string :=
  match raw with
  | [] => ""
  | value :: raw =>
      let digits := String (hex_digit (Z.shiftr value 4)) (String (hex_digit value) (format_from (S index) raw)) in
      if existsb (Nat.eqb index) [4; 6; 8; 10]%nat then String "-" digits else digits
  end.
Definition formatUUID (raw : list Z) : string := format_from 0 raw.

(** The time in the first six bytes, the version and the variant. *)
Definition stamp (milliseconds : Z) (raw : list Z) : list Z :=
  let raw := be_bytes 6 milliseconds ++ drop 6 raw in
  let raw := alter (fun b => Z.lor (Z.land b 15) 112) 6%nat raw in
  alter (fun b => Z.lor (Z.land b 63) 128) 8%nat raw.

(** [raw] is what the random generator returns, [milliseconds] what the clock shows. *)
Definition NewUUIDv7 (milliseconds : Z) (raw : list Z) : string := formatUUID (stamp milliseconds raw).

Definition BuiltInProfileID (identifier : string) : string :=
  formatUUID (stamp 1704067200000 (take 16 (Sum256 (bytes_of ("homeloom/builtin-profile/" +:+ identifier))))).

Definition lower_hex (c : ascii) : bool := between 48 57 c || between 97 102 c.
Definition byte_at (i : nat) (test : ascii -> bool) (s : string) : bool := holds test (String.get i s).

Definition IsUUIDv7 (value : string) : bool :=
  (String.length value =? 36)%nat &&
  forallb (fun i => byte_at i (fun c => Ascii.eqb c "-") value) [8; 13; 18; 23]%nat &&
  byte_at 14 (fun c => Ascii.eqb c "7") value &&
  byte_at 19 (fun c => Ascii.eqb c "8" || Ascii.eqb c "9" || Ascii.eqb c "a" || Ascii.eqb c "b") value &&
  forallb (fun i => existsb (Nat.eqb i) [8; 13; 18; 23]%nat || byte_at i lower_hex value) (seq 0 36).

(** ** Profiles of unit conversions *)

Definition value_type_text (t : ValueType) : string :=
  match t with
  | ValueTypeBool => "bool" | ValueTypeInt => "int" | ValueTypeNumber => "number"
  | ValueTypeString => "string" | ValueTypeEnum => "enum" | ValueTypeOther s => s
  end.

Definition plain_transform (t : TransformType) (from to mode : string) : Transform :=
  MkTransform t None None None None ∅ ∅ from to [] None "" None None "" "" None None None None mode.

Definition AutoCapabilityProfile (inputType outputType : ValueType) (fromUnit toUnit : string) : option Profile :=
  if negb (numericType inputType) || negb (numericType outputType) || is_empty fromUnit || is_empty toUnit ||
     (fromUnit =s toUnit) || negb (unitConversionSupported fromUnit toUnit) then None
  else
    let transforms := plain_transform TransformUnit fromUnit toUnit "" ::
      (if value_type_eqb outputType ValueTypeInt then [plain_transform TransformRound "" "" "nearest"] else []) in
    let identifier := "builtin-capability-" +:+ fromUnit +:+ "-to-" +:+ toUnit +:+ "-" +:+
      value_type_text inputType +:+ "-to-" +:+ value_type_text outputType in
    let profile := MkProfile SchemaVersion (BuiltInProfileID identifier) identifier 1 KindCapability
      inputType outputType None transforms in
    if is_ok (Validate profile) then Some profile else None.

Definition unit_routes : list (string * string) :=
  [("celsius", "fahrenheit"); ("fahrenheit", "celsius"); ("celsius", "kelvin"); ("kelvin", "celsius");
   ("kelvin", "mired"); ("mired", "kelvin"); ("ratio", "percent"); ("percent", "ratio")].
Definition AutoCapabilityProfiles : list Profile :=
  unit_routes ≫= fun '(from, to) =>
  [ValueTypeInt; ValueTypeNumber] ≫= fun inputType =>
  omap (fun outputType => AutoCapabilityProfile inputType outputType from to) [ValueTypeInt; ValueTypeNumber].

(** ** What validation accepts *)

Record provider_ok (b : Binding) : Prop := {
  bp_provider : ValidStableID (mb_ProviderID b) = true;
  bp_device : ValidStableID (mb_DeviceID b) = true;
  bp_endpoint : ValidStableID (mb_EndpointID b) = true;
  bp_capability : ValidStableID (mb_CapabilityID b) = true;
  bp_property : ValidStableID (mb_PropertyID b) = true;
  bp_type : mb_DeviceType b = "" \/ ValidStableID (mb_DeviceType b) = true;
  bp_delays : mb_ReadbackEnabled b = true ->
    (1 <= List.length (mb_ReadbackDelaysMS b) <= 8)%nat /\
    StronglySorted Z.lt (mb_ReadbackDelaysMS b) /\ Forall (fun d => 100 <= d <= 300000) (mb_ReadbackDelaysMS b);
  bp_step x : mb_PresentationStep b = Some x -> finite x = true /\ fltb x minimumPresentationStep = false;
}.

(** The scope of a consumer binding: every instance of the consumer, or one device of one target. *)
Definition scope_ok (b : Binding) : Prop :=
  (mb_TargetID b = "" /\ mb_ConsumerDeviceID b = "") \/
  (targetScopeID (mb_TargetID b) = true /\ targetScopeID (mb_ConsumerDeviceID b) = true).

Record consumer_ok (b : Binding) : Prop := {
  cn_readback : mb_ReadbackEnabled b = false /\ mb_ReadbackDelaysMS b = [] /\ mb_PresentationStep b = None;
  cn_provider : ValidStableID (mb_ProviderID b) = true;
  cn_device : ValidStableID (mb_DeviceID b) = true;
  cn_consumer : ValidStableID (mb_ConsumerID b) = true;
  cn_scope : scope_ok b;
  cn_type : ValidStableID (mb_DeviceType b) = true;
  cn_consumer_type : ValidStableID (EffectiveConsumerDeviceType b) = true;
  cn_property : TrimSpace (mb_ConsumerProperty b) <> "" /\ (String.length (mb_ConsumerProperty b) <= 160)%nat;
}.

Definition path_ok (p : ParameterPath) : Prop :=
  ValidStableID (pp_EndpointID p) = true /\ ValidStableID (pp_CapabilityID p) = true /\
  ValidStableID (pp_PropertyID p) = true.

Record binding_ok (b : Binding) : Prop := {
  bo_id : ValidStableID (mb_ID b) = true;
  bo_profile : mb_ProfileID b = "" \/ ValidStableID (mb_ProfileID b) = true;
  bo_model : path_ok (ModelPath b);
  bo_stage : (EffectiveStage b = StageProvider /\ provider_ok b) \/
             (EffectiveStage b = StageConsumer /\ consumer_ok b);
}.

Lemma fields_error_ok fields u : fields_error fields = Ok u <-> fields = ∅.
Proof.
  unfold fields_error. destruct u. rewrite <- (map_size_empty_iff (M := gmap string) fields).
  change (gmap string Message) with Fields. destruct (Nat.ltb_spec 0 (size fields)); split; try done; lia.
Qed.

Lemma unstable_empty name value fields :
  unstable name value fields = ∅ <-> ValidStableID value = true /\ fields = ∅.
Proof. unfold unstable. by rewrite note_empty, negb_false_iff. Qed.

Lemma bad_delays_ok previous delays :
  bad_delays previous delays = false <->
  StronglySorted Z.lt (previous :: delays) /\ Forall (fun d => 100 <= d <= 300000) delays.
Proof.
  revert previous. induction delays as [|d delays IH]; intros previous; simpl.
  { split; [|done]. intros _. split; [repeat constructor|constructor]. }
  rewrite !orb_false_iff, IH, !Z.ltb_ge, Z.leb_gt. split.
  - intros [[[H1 H2] H3] [Hs Hf]]. split; [|constructor; [lia|done]].
    constructor; [done|]. apply StronglySorted_inv in Hs as [Hs Hd].
    constructor; [done|]. eapply Forall_impl; [exact Hd|]. intros; simpl in *; lia.
  - intros [Hs Hf]. apply Forall_cons in Hf as [Hd Hf].
    apply StronglySorted_inv in Hs as [Hs Hpd]. apply Forall_cons in Hpd as [Hpd _]. split_and!; [lia|lia|lia|done|done].
Qed.

Lemma scope_free s : targetScopeID s = true -> nul_free s = true.
Proof.
  unfold targetScopeID, nul_free. intros [_ H]%andb_true_iff. revert H.
  induction s as [|c s IH]; simpl; [done|]. rewrite !andb_true_iff. intros [Hc Hs]. split; [|by apply IH].
  apply negb_true_iff, Ascii.eqb_neq. intros ->. by vm_compute in Hc.
Qed.

Lemma scope_checks b :
  negb (Bool.eqb (is_empty (mb_TargetID b)) (is_empty (mb_ConsumerDeviceID b))) = false /\
  negb (is_empty (mb_TargetID b)) && negb (targetScopeID (mb_TargetID b)) = false /\
  negb (is_empty (mb_ConsumerDeviceID b)) && negb (targetScopeID (mb_ConsumerDeviceID b)) = false <->
  scope_ok b.
Proof.
  unfold scope_ok. rewrite negb_false_iff, eqb_true_iff, !andb_false_iff, !negb_false_iff, !is_empty_true.
  destruct (is_empty (mb_TargetID b)) eqn:Et, (is_empty (mb_ConsumerDeviceID b)) eqn:Ec;
    rewrite ?is_empty_true, ?is_empty_false in *.
  - intuition.
  - rewrite Et. unfold targetScopeID. simpl. intuition congruence.
  - rewrite Ec. unfold targetScopeID. simpl. intuition congruence.
  - intuition.
Qed.

Lemma provider_fields b fields :
  validate_provider b fields = ∅ <-> provider_ok b /\ fields = ∅.
Proof.
  unfold validate_provider. rewrite note_empty.
  assert (Hdelays : forall f : Fields, (if mb_ReadbackEnabled b then
      let fields := note ((List.length (mb_ReadbackDelaysMS b) =? 0)%nat || (8 <? List.length (mb_ReadbackDelaysMS b))%nat)
        "binding.readbackDelaysMs" "must contain between 1 and 8 delays" f in
      note (bad_delays 0 (mb_ReadbackDelaysMS b)) "binding.readbackDelaysMs"
        "must be strictly increasing values between 100 and 300000 milliseconds" fields
    else f) = ∅ <-> (mb_ReadbackEnabled b = true ->
      (1 <= List.length (mb_ReadbackDelaysMS b) <= 8)%nat /\
      StronglySorted Z.lt (mb_ReadbackDelaysMS b) /\ Forall (fun d => 100 <= d <= 300000) (mb_ReadbackDelaysMS b)) /\ f = ∅).
  { intros f. destruct (mb_ReadbackEnabled b); [|by intuition]. cbv zeta.
    rewrite !note_empty, bad_delays_ok, orb_false_iff, Nat.eqb_neq, Nat.ltb_ge. split.
    - intros [[Hs Hf] [[? ?] ->]]. split; [|done]. intros _. split; [lia|].
      by apply StronglySorted_inv in Hs as [? _].
    - intros [H ->]. destruct (H eq_refl) as ([? ?] & Hs & Hf). split_and!; [|done|lia|lia|done].
      constructor; [done|]. eapply Forall_impl; [exact Hf|]. intros; simpl in *; lia. }
  cbv zeta in Hdelays. rewrite Hdelays.
  assert (Htype : forall f : Fields, (if negb (is_empty (mb_DeviceType b))
      then unstable "binding.deviceType" (mb_DeviceType b) f else f) = ∅ <->
    (mb_DeviceType b = "" \/ ValidStableID (mb_DeviceType b) = true) /\ f = ∅).
  { intros f. destruct (is_empty (mb_DeviceType b)) eqn:E; simpl; rewrite ?unstable_empty.
    - apply is_empty_true in E. rewrite E. intuition.
    - apply is_empty_false in E. intuition. }
  rewrite Htype, !unstable_empty.
  assert (Hstep : step_refused (mb_PresentationStep b) = false <->
    forall x, mb_PresentationStep b = Some x -> finite x = true /\ fltb x minimumPresentationStep = false).
  { unfold step_refused, holds. destruct (mb_PresentationStep b) as [x|]; [|done].
    rewrite orb_false_iff, finite_false. split; [by intros H y [= <-]|auto]. }
  rewrite Hstep. split.
  - intros (? & ? & ? & ? & ? & ? & ? & ? & ?). split; [by constructor|done].
  - intros [[] ?]. by split_and!.
Qed.

Lemma consumer_fields b fields :
  validate_consumer b fields = ∅ <-> consumer_ok b /\ fields = ∅.
Proof.
  unfold validate_consumer. cbv zeta. rewrite !note_empty, !unstable_empty, !note_empty, !unstable_empty, !note_empty.
  assert (Hl : negb (List.length (mb_ReadbackDelaysMS b) =? 0)%nat = false <-> mb_ReadbackDelaysMS b = [])
    by by destruct (mb_ReadbackDelaysMS b).
  assert (Hp : present (mb_PresentationStep b) = false <-> mb_PresentationStep b = None)
    by by destruct (mb_PresentationStep b).
  rewrite !orb_false_iff, Hl, Hp, is_empty_false, Nat.ltb_ge.
  pose proof (scope_checks b) as Hs. split.
  - intros ([? ?] & ? & ? & ? & ? & ? & ? & ? & ? & [[? ?] ?] & ->).
    split; [|done]. constructor; try done. by apply Hs.
  - intros [[(? & ? & ?) ? ? ? Hsc ? ? [? ?]] ->]. apply Hs in Hsc as (? & ? & ?). by split_and!.
Qed.

Lemma ValidateBinding_ok b u : ValidateBinding b = Ok u <-> binding_ok b.
Proof.
  unfold ValidateBinding. cbv zeta. rewrite fields_error_ok.
  assert (Hb : forall f : Fields, unstable "binding.modelPropertyId" (pp_PropertyID (ModelPath b))
      (unstable "binding.modelCapabilityId" (pp_CapabilityID (ModelPath b))
      (unstable "binding.modelEndpointId" (pp_EndpointID (ModelPath b)) f)) = ∅ <-> path_ok (ModelPath b) /\ f = ∅).
  { intros f. rewrite !unstable_empty. unfold path_ok. tauto. }
  assert (Hf : note (negb (is_empty (mb_ProfileID b)) && negb (ValidStableID (mb_ProfileID b)))
      "binding.profileId" "must be empty or a stable lowercase identifier"
      (unstable "binding.id" (mb_ID b) ∅) = ∅ <->
    (mb_ProfileID b = "" \/ ValidStableID (mb_ProfileID b) = true) /\ ValidStableID (mb_ID b) = true).
  { rewrite note_empty, unstable_empty, andb_false_iff, !negb_false_iff, is_empty_true. tauto. }
  assert (Hs : is_provider (EffectiveStage b) = true /\ EffectiveStage b = StageProvider \/
    is_provider (EffectiveStage b) = false /\ is_consumer (EffectiveStage b) = true /\ EffectiveStage b = StageConsumer \/
    is_provider (EffectiveStage b) = false /\ is_consumer (EffectiveStage b) = false /\
      EffectiveStage b <> StageProvider /\ EffectiveStage b <> StageConsumer).
  { clear. unfold is_provider, is_consumer. destruct (EffectiveStage b); [left|right; left|right; right]; done. }
  destruct Hs as [[-> Hs]|[(-> & -> & Hs)|(-> & -> & Hp & Hc)]]; cbn [negb andb];
    rewrite ?provider_fields, ?consumer_fields, Hb, note_empty, Hf.
  - split; [|intros [? ? ? [[? ?]|[? ?]]]; [done|congruence]].
    intros (? & ? & _ & ? & ?). constructor; try done. by left.
  - split; [|intros [? ? ? [[? ?]|[? ?]]]; [congruence|done]].
    intros (? & ? & _ & ? & ?). constructor; try done. by right.
  - split; [by intros (? & ? & _)|]. intros [? ? ? [[? ?]|[? ?]]]; congruence.
Qed.

(** ** Keys identify routes *)

Fixpoint count_nul (s : string) : nat :=
  match s with EmptyString => 0 | String c s => (if Ascii.eqb c NUL then 1 else 0) + count_nul s end.

Lemma nul_free_count s : nul_free s = true <-> count_nul s = 0%nat.
Proof.
  unfold nul_free. induction s as [|c s IH]; simpl; [done|].
  rewrite andb_true_iff, negb_true_iff, IH. destruct (Ascii.eqb c NUL); [split; [by intros []|done]|tauto].
Qed.

Lemma count_nul_app a b : count_nul (a +:+ b) = (count_nul a + count_nul b)%nat.
Proof. induction a as [|c a IH]; simpl; [done|]. rewrite IH. lia. Qed.

Lemma count_nul_join s l :
  count_nul (join_nul (s :: l)) = (List.length l + sum_list (count_nul <$> s :: l))%nat.
Proof.
  revert s. induction l as [|s' l IH]; intros s; [simpl; lia|].
  change (join_nul (s :: s' :: l)) with (s +:+ String NUL (join_nul (s' :: l))).
  rewrite count_nul_app. cbn [count_nul]. rewrite IH. rewrite Ascii.eqb_refl. simpl. lia.
Qed.

(** One side without NUL bytes is enough: the other has no room for one. *)
Lemma join_nul_inj l l' :
  List.length l = List.length l' -> Forall (fun s => nul_free s = true) l -> join_nul l = join_nul l' -> l = l'.
Proof.
  intros Hlen Hf E.
  assert (Hf' : Forall (fun s => nul_free s = true) l').
  { destruct l as [|s l], l' as [|s' l']; try done.
    assert (Hc : count_nul (join_nul (s :: l)) = count_nul (join_nul (s' :: l'))) by congruence.
    rewrite !count_nul_join in Hc. injection Hlen as Hlen.
    assert (H0 : sum_list (count_nul <$> s :: l) = 0%nat).
    { clear -Hf. revert Hf. generalize (s :: l). intros k. induction 1 as [|x k Hx _ IH]; [done|].
      rewrite fmap_cons. simpl. apply nul_free_count in Hx. lia. }
    assert (H1 : sum_list (count_nul <$> s' :: l') = 0%nat) by lia. clear -H1. revert H1.
    generalize (s' :: l'). intros k. induction k as [|x k IH]; intros H; [constructor|].
    apply Nat.eq_add_0 in H as [Hx Hk]. constructor; [by apply nul_free_count|by apply IH]. }
  revert l' Hlen Hf' E. induction Hf as [|s l Hs Hl IH]; intros [|s' l'] Hlen Hf' E; try done.
  apply Forall_cons in Hf' as [Hs' Hl']. destruct l as [|t l], l' as [|t' l']; try done.
  - simpl in E. by subst.
  - change (s +:+ String NUL (join_nul (t :: l)) = s' +:+ String NUL (join_nul (t' :: l'))) in E.
    apply nul_join_inj in E as [-> E]; [|done..]. f_equal. apply IH; [by injection Hlen as Hlen; simpl; rewrite Hlen|done..].
Qed.

Lemma path_free p : path_ok p ->
  nul_free (pp_EndpointID p) = true /\ nul_free (pp_CapabilityID p) = true /\ nul_free (pp_PropertyID p) = true.
Proof. intros (? & ? & ?). by split_and!; apply stable_nul_free. Qed.

Lemma provider_key_inj providerID deviceID path providerID' deviceID' path' :
  ValidStableID providerID = true -> ValidStableID deviceID = true -> path_ok path ->
  provider_key providerID deviceID path = provider_key providerID' deviceID' path' <->
  providerID = providerID' /\ deviceID = deviceID' /\ path = path'.
Proof.
  intros Hp Hd Hq. split; [|by intros (-> & -> & ->)]. apply path_free in Hq as (? & ? & ?). intros E.
  apply join_nul_inj in E; [|done|repeat constructor; auto using stable_nul_free].
  destruct path, path'. simpl in *. by simplify_eq.
Qed.

Lemma scope_nul_free b : scope_ok b ->
  nul_free (mb_TargetID b) = true /\ nul_free (mb_ConsumerDeviceID b) = true.
Proof. intros [[-> ->]|[? ?]]; [done|]. split; by apply scope_free. Qed.

(** The keys of the two stages do not meet. *)
Lemma stages_apart providerID deviceID path p d t c i x : provider_key providerID deviceID path <> consumer_key p d t c i x.
Proof.
  unfold provider_key, consumer_key. intros E.
  change ("provider" +:+ String NUL (join_nul [providerID; deviceID; pp_EndpointID path; pp_CapabilityID path; pp_PropertyID path])
    = "consumer" +:+ String NUL (join_nul [p; d; t; c; i; x])) in E. by apply nul_join_inj in E as [? _].
Qed.

(** ** UUIDs *)

Lemma hex_digit_lower z : lower_hex (hex_digit z) = true /\ id_alnum (hex_digit z) = true.
Proof.
  unfold hex_digit. pose proof (Z.mod_pos_bound z 16 ltac:(lia)) as H.
  generalize dependent (z mod 16). intros m Hm.
  assert (Ha : forallb (fun i => match String.get i "0123456789abcdef" with
    | Some a => lower_hex a && id_alnum a | None => false end) (seq 0 16) = true) by reflexivity.
  rewrite forallb_forall in Ha. specialize (Ha (Z.to_nat m)). rewrite in_seq in Ha.
  destruct (String.get (Z.to_nat m) "0123456789abcdef"); [|by specialize (Ha ltac:(lia))].
  apply andb_true_iff, Ha. lia.
Qed.

Lemma hex_version b : hex_digit (Z.shiftr (Z.lor (Z.land b 15) 112) 4) = "7"%char.
Proof. by rewrite Z.shiftr_lor, Z.shiftr_land, Z.land_0_r. Qed.

Lemma hex_variant b : hex_digit (Z.shiftr (Z.lor (Z.land b 63) 128) 4) ∈ ["8"; "9"; "a"; "b"]%char.
Proof.
  rewrite Z.shiftr_lor, Z.shiftr_land. change (Z.shiftr 63 4) with (Z.ones 2). rewrite Z.land_ones by lia.
  pose proof (Z.mod_pos_bound (Z.shiftr b 4) (2 ^ 2) ltac:(lia)) as H.
  set (m := Z.shiftr b 4 mod 2 ^ 2) in *. clearbody m. change (2 ^ 2) with 4 in H.
  assert (m = 0 \/ m = 1 \/ m = 2 \/ m = 3) as [->|[->|[->| ->]]] by lia; vm_compute; set_solver.
Qed.

(** Sixteen bytes with the version and the variant in place. *)
Lemma format_is_uuid raw b6 b8 :
  List.length raw = 16%nat -> raw !! 6%nat = Some b6 -> raw !! 8%nat = Some b8 ->
  hex_digit (Z.shiftr b6 4) = "7"%char -> hex_digit (Z.shiftr b8 4) ∈ ["8"; "9"; "a"; "b"]%char ->
  IsUUIDv7 (formatUUID raw) = true.
Proof.
  intros Hlen H6 H8 E6 E8. do 16 (destruct raw as [|? raw]; [done|]). destruct raw; [|done].
  simpl in H6, H8. injection H6 as ->. injection H8 as ->.
  unfold IsUUIDv7, formatUUID, byte_at. cbn -[hex_digit Z.shiftr lower_hex].
  rewrite E6, !(fun z => proj1 (hex_digit_lower z)). cbn -[hex_digit Z.shiftr lower_hex].
  rewrite !elem_of_cons in E8. destruct E8 as [->|[->|[->|[->|E8%elem_of_nil]]]]; done.
Qed.

Lemma stamped_is_uuid milliseconds raw :
  List.length raw = 16%nat -> IsUUIDv7 (formatUUID (stamp milliseconds raw)) = true.
Proof.
  intros Hlen. pose proof (be_bytes_length 6 milliseconds) as Hms. unfold stamp.
  set (ms := be_bytes 6 milliseconds) in *. clearbody ms.
  do 6 (destruct ms as [|? ms]; [done|]). destruct ms; [|done].
  do 16 (destruct raw as [|? raw]; [done|]). destruct raw; [|done].
  eapply format_is_uuid; [done|reflexivity|reflexivity|apply hex_version|apply hex_variant].
Qed.

Lemma get_lookup i s : String.get i s = String.list_ascii_of_string s !! i.
Proof. revert i. induction s as [|c s IH]; intros [|i]; simpl; [done..|apply IH]. Qed.

Lemma ascii_length s : List.length (String.list_ascii_of_string s) = String.length s.
Proof. induction s as [|c s IH]; simpl; [done|]. by rewrite IH. Qed.

(** Every UUID is a stable identifier. *)
Lemma uuid_stable s : IsUUIDv7 s = true -> ValidStableID s = true.
Proof.
  unfold IsUUIDv7. rewrite !andb_true_iff, Nat.eqb_eq. intros [[[[Hlen Hd] _] _] Hall].
  assert (Hat : forall i c, String.list_ascii_of_string s !! i = Some c ->
    lower_hex c = true \/ (i ∈ [8; 13; 18; 23]%nat /\ c = "-"%char)).
  { intros i c Hi. rewrite forallb_forall in Hall, Hd.
    assert (Hlt : (i < 36)%nat).
    { apply lookup_lt_Some in Hi. by rewrite ascii_length, Hlen in Hi. }
    specialize (Hall i). rewrite in_seq in Hall. specialize (Hall ltac:(lia)).
    apply orb_true_iff in Hall as [Hin|Hhex]; [right|left].
    - apply existsb_exists in Hin as (j & Hj & ->%Nat.eqb_eq). split; [by apply list_elem_of_In|].
      specialize (Hd j Hj). unfold byte_at, holds in Hd. rewrite get_lookup, Hi in Hd. by apply Ascii.eqb_eq.
    - unfold byte_at, holds in Hhex. by rewrite get_lookup, Hi in Hhex. }
  assert (Hlow : forall c, lower_hex c = true -> id_alnum c = true).
  { intros c. unfold lower_hex, id_alnum, between. rewrite !orb_true_iff, !andb_true_iff, !N.leb_le. lia. }
  apply valid_stable_id_spec. unfold stable_id. cbv zeta.
  rewrite ascii_length, Hlen.
  assert (Hget : forall i, (i < 36)%nat -> exists c, String.list_ascii_of_string s !! i = Some c).
  { intros i Hi. apply lookup_lt_is_Some_2. by rewrite ascii_length, Hlen. }
  split_and!; [lia|lia| | |].
  - apply Forall_lookup. intros i c [Hc|[_ ->]]%Hat; [by apply id_alnum_char, Hlow|done].
  - destruct (Hget 0%nat) as [c Hc]; [lia|]. exists c. rewrite head_lookup. split; [done|].
    apply Hat in Hc as [Hc|[Hc _]]; [by apply Hlow|]. exfalso. set_solver by lia.
  - destruct (Hget 35%nat) as [c Hc]; [lia|]. exists c.
    rewrite last_lookup, ascii_length, Hlen. split; [done|].
    apply Hat in Hc as [Hc|[Hc _]]; [by apply Hlow|]. exfalso. set_solver by lia.
Qed.

(** the identifiers the program generates are UUIDs of version 7 in their canonical
    form, whatever the clock and the random generator return and whatever the readable
    name of a built-in profile; and every such UUID is a stable identifier, so that a
    profile can be referred to from a binding. *)
Theorem generated_ids_are_uuids :
  (forall milliseconds raw, List.length raw = 16%nat -> IsUUIDv7 (NewUUIDv7 milliseconds raw) = true) /\
  (forall identifier, IsUUIDv7 (BuiltInProfileID identifier) = true) /\
  (forall s, IsUUIDv7 s = true -> ValidStableID s = true).
Proof.
  split_and!; [exact stamped_is_uuid| |exact uuid_stable]. intros identifier. apply stamped_is_uuid.
  by rewrite length_take, Sum256_length.
Qed.

(** a binding that is accepted has the same key as another one exactly when they
    route the same property: of the same device of the same Provider, or of the same
    consumer in the same scope; a consumer route never meets a Provider route. *)
Theorem keys_identify_routes a b :
  binding_ok a -> binding_ok b ->
  (EffectiveStage a = StageProvider -> EffectiveStage b = StageProvider ->
    (Key a = Key b <-> (mb_ProviderID a, mb_DeviceID a, SourcePath a) = (mb_ProviderID b, mb_DeviceID b, SourcePath b)) /\
    (ModelKey a = ModelKey b <->
      (mb_ProviderID a, mb_DeviceID a, ModelPath a) = (mb_ProviderID b, mb_DeviceID b, ModelPath b))) /\
  (EffectiveStage a = StageConsumer -> EffectiveStage b = StageConsumer ->
    Key a = Key b <->
    (mb_ProviderID a, mb_DeviceID a, mb_TargetID a, mb_ConsumerDeviceID a, mb_ConsumerID a, mb_ConsumerProperty a) =
    (mb_ProviderID b, mb_DeviceID b, mb_TargetID b, mb_ConsumerDeviceID b, mb_ConsumerID b, mb_ConsumerProperty b)) /\
  (EffectiveStage a = StageProvider -> EffectiveStage b = StageConsumer -> Key a <> Key b).
Proof.
  intros Ha Hb. unfold Key, ModelKey. split_and!.
  - intros Ea Eb. rewrite Ea, Eb. destruct Ha as [_ _ Hm [[_ Hp]|[? _]]]; [|congruence].
    destruct Hp. simpl. rewrite !provider_key_inj by done. split; (split; [by intros (-> & -> & ->)|by intros [= ? ? ?]; split_and!; unfold SourcePath; congruence]).
  - intros Ea Eb. rewrite Ea, Eb. destruct Ha as [_ _ _ [[? _]|[_ Hc]]]; [congruence|].
    destruct Hb as [_ _ _ [[? _]|[_ Hc']]]; [congruence|]. simpl.
    destruct Hc as [_ ? ? ? Hs _ _ _], Hc' as [_ ? ? ? Hs' _ _ _].
    apply scope_nul_free in Hs as [? ?], Hs' as [? ?].
    split; [|by intros [= -> -> -> -> -> ->]]. unfold consumer_key. intros E.
    repeat match type of E with join_nul (?x :: ?y :: ?l) = join_nul (?x' :: ?y' :: ?l') =>
      change (x +:+ String NUL (join_nul (y :: l)) = x' +:+ String NUL (join_nul (y' :: l'))) in E;
      apply nul_join_inj in E as [? E]; [|first [done|by apply stable_nul_free]..] end.
    simpl in E. congruence.
  - intros Ea Eb. rewrite Ea, Eb. apply stages_apart.
Qed.

(** ** Examples *)

(** The power of a lamp, published where it is, and shown to HomeKit. *)
Definition ex_route : Binding :=
  MkBinding "binding-1" StageProvider "" "miio" "lamp-1" "main" "switch" "power" TypeSwitch "" "main" "switch" "power"
    "" "" "" "" true false [] None.
Definition ex_consumer_route : Binding :=
  MkBinding "binding-2" StageConsumer "" "miio" "lamp-1" "" "" "" TypeSwitch "" "main" "switch" "power"
    "homekit" "bridge" "lamp" "Switch.On" true false [] None.

Lemma keys_identify_routes_witness : Key ex_route <> Key ex_consumer_route.
Proof.
  apply (keys_identify_routes ex_route ex_consumer_route).
  - apply (ValidateBinding_ok _ tt). vm_compute. reflexivity.
  - apply (ValidateBinding_ok _ tt). vm_compute. reflexivity.
  - reflexivity.
  - reflexivity.
Defined.
