(* ===== verification/MappingStore.v ===== *)
(** * The tables of the mappings:
    backend/internal/persistence/gormstore/mapping_profiles.go, mapping_bindings.go,
    custom_models.go, custom_model_properties.go and model_enum_overrides.go

    A table is a finite map from primary keys to rows; a row is the document it stores
    (its JSON form is not modelled).  A statement takes [io], whether the database can
    execute it, and refuses rows that break a constraint of the schema (models.go). *)

From S2P Require Import Prelude Float64 DeviceModel ModelContract MappingProfile MappingBinding.

Record MappingStore := MkMappingStore {
  profile_rows : gmap string Profile;
  binding_rows : gmap string Binding;
  model_rows : gmap Type_ CustomModel;
  property_rows : gmap string CustomModelProperty;
  override_rows : gmap string ModelEnumOverride;
}.

Inductive StoreError := Unavailable | ConstraintFailed (id : string) | RowNotFound (id : string).

Definition with_profile_rows (t : MappingStore) x : MappingStore :=
  MkMappingStore x (binding_rows t) (model_rows t) (property_rows t) (override_rows t).
Definition with_binding_rows (t : MappingStore) x : MappingStore :=
  MkMappingStore (profile_rows t) x (model_rows t) (property_rows t) (override_rows t).
Definition with_model_rows (t : MappingStore) x : MappingStore :=
  MkMappingStore (profile_rows t) (binding_rows t) x (property_rows t) (override_rows t).
Definition with_property_rows (t : MappingStore) x : MappingStore :=
  MkMappingStore (profile_rows t) (binding_rows t) (model_rows t) x (override_rows t).
Definition with_override_rows (t : MappingStore) x : MappingStore :=
  MkMappingStore (profile_rows t) (binding_rows t) (model_rows t) (property_rows t) x.

(** ** Rows *)

(** Another row of the table has the unique columns of [row]. *)
Definition taken {V} (clash : V -> V -> bool) (id : string) (row : V) (rows : gmap string V) : bool :=
  existsb (fun kv => negb (kv.1 =s id) && clash row kv.2) (map_to_list rows).

(** [INSERT ... ON CONFLICT (id) DO UPDATE]; [valid] are the other constraints of the table. *)
Definition upsert_row {V} (io valid : bool) (clash : V -> V -> bool) (id : string) (row : V)
    (rows : gmap string V) : result StoreError (gmap string V) :=
  guard! io else Unavailable in
  guard! valid && negb (taken clash id row rows) else ConstraintFailed id in
  Ok (<[id := row]> rows).

(** [DELETE ... WHERE id = ?], with the number of rows checked. *)
Definition delete_row {V} (io : bool) (id : string) (rows : gmap string V) : result StoreError (gmap string V) :=
  guard! io else Unavailable in
  guard! present (rows !! id) else RowNotFound id in
  Ok (delete id rows).

Definition no_clash {V} (a b : V) : bool := false.

(** ** Profiles *)

Definition profile_row_ok (item : Profile) : bool := kind_ok (pr_Kind item) && (0 <? pr_Version item).

Definition save_profile_row (io : bool) (rows : gmap string Profile) (item : Profile)
    : result StoreError (gmap string Profile) :=
  upsert_row io (profile_row_ok item) no_clash (pr_ID item) item rows.

(** One transaction: a failure leaves the table as it was. *)
Definition SaveMappingProfiles (io : bool) (items : list Profile) (t : MappingStore) : result StoreError MappingStore :=
  let! rows := each (save_profile_row io) (profile_rows t) items in Ok (with_profile_rows t rows).

Definition SaveMappingProfile (io : bool) (item : Profile) (t : MappingStore) : result StoreError MappingStore :=
  SaveMappingProfiles io [item] t.

Record ProfileIdentityMigration := MkMigration {
  mi_PreviousID : string;
  mi_Profile : Profile;
}.

(** [UPDATE ... SET id = ?, ... WHERE id = ?]: the new primary key must be free. *)
Definition migrate_profile (io : bool) (rows : gmap string Profile) (m : ProfileIdentityMigration)
    : result StoreError (gmap string Profile) :=
  let item := mi_Profile m in
  guard! io else Unavailable in
  guard! present (rows !! mi_PreviousID m) else RowNotFound (mi_PreviousID m) in
  guard! profile_row_ok item && ((pr_ID item =s mi_PreviousID m) || negb (present (rows !! pr_ID item)))
    else ConstraintFailed (pr_ID item) in
  Ok (<[pr_ID item := item]> (delete (mi_PreviousID m) rows)).

Definition with_ProfileID (b : Binding) (id : string) : Binding :=
  MkBinding (mb_ID b) (mb_Stage b) id (mb_ProviderID b) (mb_DeviceID b) (mb_EndpointID b) (mb_CapabilityID b)
    (mb_PropertyID b) (mb_DeviceType b) (mb_ConsumerDeviceType b) (mb_ModelEndpointID b) (mb_ModelCapabilityID b)
    (mb_ModelPropertyID b) (mb_ConsumerID b) (mb_TargetID b) (mb_ConsumerDeviceID b) (mb_ConsumerProperty b)
    (mb_Enabled b) (mb_ReadbackEnabled b) (mb_ReadbackDelaysMS b) (mb_PresentationStep b).

(** [UPDATE mapping_bindings SET profile_id = id WHERE profile_id = previousID] *)
Definition move_bindings (rows : gmap string Binding) (move : string * string) : gmap string Binding :=
  let '(previousID, id) := move in
  if previousID =s id then rows
  else (fun b => if mb_ProfileID b =s previousID then with_ProfileID b id else b) <$> rows.

(** [moves] lists the map [bindingProfileIDs] in the order [range] visits it. *)
Definition MigrateMappingProfileIdentities (io : bool) (migrations : list ProfileIdentityMigration)
    (moves : list (string * string)) (t : MappingStore) : result StoreError MappingStore :=
  match migrations, moves with
  | [], [] => Ok t
  | _, _ =>
      guard! io else Unavailable in
      let! rows := each (migrate_profile io) (profile_rows t) migrations in
      Ok (with_binding_rows (with_profile_rows t rows) (fold_left move_bindings moves (binding_rows t)))
  end.

Definition DeleteMappingProfile (io : bool) (id : string) (t : MappingStore) : result StoreError MappingStore :=
  let! rows := delete_row io id (profile_rows t) in Ok (with_profile_rows t rows).

(** ** Bindings *)

(** The row of a binding holds its effective stage and model path. *)
Definition binding_row (b : Binding) : Binding :=
  let model := ModelPath b in
  MkBinding (mb_ID b) (EffectiveStage b) (mb_ProfileID b) (mb_ProviderID b) (mb_DeviceID b) (mb_EndpointID b)
    (mb_CapabilityID b) (mb_PropertyID b) (mb_DeviceType b) (mb_ConsumerDeviceType b) (pp_EndpointID model)
    (pp_CapabilityID model) (pp_PropertyID model) (mb_ConsumerID b) (mb_TargetID b) (mb_ConsumerDeviceID b)
    (mb_ConsumerProperty b) (mb_Enabled b) (mb_ReadbackEnabled b) (mb_ReadbackDelaysMS b) (mb_PresentationStep b).

Definition model_columns (b : Binding) : ParameterPath :=
  MkParameterPath (mb_ModelEndpointID b) (mb_ModelCapabilityID b) (mb_ModelPropertyID b).

(** The indexes [mapping_provider_model_unique] and [mapping_consumer_target_unique]. *)
Definition binding_clash (a b : Binding) : bool :=
  bool_decide (mb_Stage a = StageProvider /\ mb_Stage b = StageProvider /\
    (mb_ProviderID a, mb_DeviceID a, model_columns a) = (mb_ProviderID b, mb_DeviceID b, model_columns b)) ||
  bool_decide (mb_Stage a = StageConsumer /\ mb_Stage b = StageConsumer /\
    (mb_ProviderID a, mb_DeviceID a, mb_TargetID a, mb_ConsumerDeviceID a, mb_ConsumerID a, mb_ConsumerProperty a) =
    (mb_ProviderID b, mb_DeviceID b, mb_TargetID b, mb_ConsumerDeviceID b, mb_ConsumerID b, mb_ConsumerProperty b)).

Definition stage_check (b : Binding) : bool := is_provider (mb_Stage b) || is_consumer (mb_Stage b).

Definition SaveMappingBinding (io : bool) (item : Binding) (t : MappingStore) : result StoreError MappingStore :=
  let row := binding_row item in
  let! rows := upsert_row io (stage_check row) binding_clash (mb_ID row) row (binding_rows t) in
  Ok (with_binding_rows t rows).

Definition DeleteMappingBinding (io : bool) (id : string) (t : MappingStore) : result StoreError MappingStore :=
  let! rows := delete_row io id (binding_rows t) in Ok (with_binding_rows t rows).

(** ** Custom models, custom properties and option lists *)

Definition SaveCustomModel (io : bool) (item : CustomModel) (t : MappingStore) : result StoreError MappingStore :=
  let! rows := upsert_row io (0 <? cu_Version item) no_clash (cu_DeviceType item) item (model_rows t) in
  Ok (with_model_rows t rows).
Definition DeleteCustomModel (io : bool) (deviceType : Type_) (t : MappingStore) : result StoreError MappingStore :=
  let! rows := delete_row io deviceType (model_rows t) in Ok (with_model_rows t rows).

(** The indexes [custom_model_property_path] and [model_enum_override_path]. *)
Definition property_clash (a b : CustomModelProperty) : bool :=
  bool_decide ((cmp_DeviceType a, custom_path a) = (cmp_DeviceType b, custom_path b)).
Definition override_clash (a b : ModelEnumOverride) : bool :=
  bool_decide ((eo_DeviceType a, override_path a) = (eo_DeviceType b, override_path b)).

Definition SaveCustomModelProperty (io : bool) (item : CustomModelProperty) (t : MappingStore)
    : result StoreError MappingStore :=
  let! rows := upsert_row io true property_clash (cmp_ID item) item (property_rows t) in
  Ok (with_property_rows t rows).
Definition DeleteCustomModelProperty (io : bool) (id : string) (t : MappingStore) : result StoreError MappingStore :=
  let! rows := delete_row io id (property_rows t) in Ok (with_property_rows t rows).

Definition SaveModelEnumOverride (io : bool) (item : ModelEnumOverride) (t : MappingStore)
    : result StoreError MappingStore :=
  let! rows := upsert_row io true override_clash (eo_ID item) item (override_rows t) in
  Ok (with_override_rows t rows).
Definition DeleteModelEnumOverride (io : bool) (id : string) (t : MappingStore) : result StoreError MappingStore :=
  let! rows := delete_row io id (override_rows t) in Ok (with_override_rows t rows).

(** A [List...] method returns the rows of a table, in the order of the query: theorems
    hold for every order. *)
Definition listed {V} (rows : gmap string V) (l : list V) : Prop := l ≡ₚ (map_to_list rows).*2.
