(* ===== verification/ProfileService.v ===== *)
(** * Profiles, bindings and custom models:
    backend/internal/application/profile_service.go, profile_binding_service.go (the
    operations on bindings) and model_mapping_service.go

    The service keeps profiles, bindings, custom models, custom properties and replaced
    option lists in memory, with two indexes of the bindings and one of the identifiers
    of profiles, and writes every change to the tables of MappingStore before it changes
    its memory.  An operation returns the new state; when it fails, the state is the old
    one.  [io] is whether the database executes the statement of the operation; the
    identifiers and random bytes the code generates are arguments. *)

From S2P Require Import Prelude Float64 DeviceModel Lookup ModelContract ConsumerCatalog Sha256.
From S2P Require Import MappingProfile MappingEngine MappingBinding MappingStore.

(** ** State *)

Record ProfileService := MkProfileService {
  profiles : gmap string Profile;
  builtIns : gmap string Profile;
  profileIDsByIdentifier : gmap string string;
  bindings : gmap string Binding;
  bindingsByKey : gmap string (list string);
  bindingsByModel : gmap string string;
  customProperties : gmap string CustomModelProperty;
  enumOverrides : gmap string ModelEnumOverride;
  customModels : gmap Type_ CustomModel;
  store : MappingStore;
  changes : Z;  (* calls of the change handler *)
}.

Inductive ServiceError :=
| ErrProfileNotFound | ErrProfileExists | ErrProfileBuiltIn | ErrProfileInUse
| ErrBindingNotFound | ErrBindingExists
| ErrCustomModelPropertyNotFound | ErrCustomModelPropertyExists
| ErrCustomModelNotFound | ErrCustomModelExists
| ErrModelEnumOverrideNotFound | ErrModelEnumOverrideExists
| Invalid (fields : Fields)              (* NewValidationError of this package *)
| MappingInvalid (e : ValidationError)   (* *mapping.ValidationError *)
| StoreFailed (e : StoreError)
| NoRandomness.

Definition set_profiles (s : ProfileService) p i t : ProfileService :=
  MkProfileService p (builtIns s) i (bindings s) (bindingsByKey s) (bindingsByModel s) (customProperties s)
    (enumOverrides s) (customModels s) t (changes s).
Definition set_builtIns (s : ProfileService) b i : ProfileService :=
  MkProfileService (profiles s) b i (bindings s) (bindingsByKey s) (bindingsByModel s) (customProperties s)
    (enumOverrides s) (customModels s) (store s) (changes s).
Definition set_bindings (s : ProfileService) b k m t : ProfileService :=
  MkProfileService (profiles s) (builtIns s) (profileIDsByIdentifier s) b k m (customProperties s)
    (enumOverrides s) (customModels s) t (changes s).
Definition set_customProperties (s : ProfileService) c t : ProfileService :=
  MkProfileService (profiles s) (builtIns s) (profileIDsByIdentifier s) (bindings s) (bindingsByKey s)
    (bindingsByModel s) c (enumOverrides s) (customModels s) t (changes s).
Definition set_enumOverrides (s : ProfileService) o t : ProfileService :=
  MkProfileService (profiles s) (builtIns s) (profileIDsByIdentifier s) (bindings s) (bindingsByKey s)
    (bindingsByModel s) (customProperties s) o (customModels s) t (changes s).
Definition set_customModels (s : ProfileService) c t : ProfileService :=
  MkProfileService (profiles s) (builtIns s) (profileIDsByIdentifier s) (bindings s) (bindingsByKey s)
    (bindingsByModel s) (customProperties s) (enumOverrides s) c t (changes s).
Definition set_store (s : ProfileService) t : ProfileService :=
  set_customModels s (customModels s) t.
Definition notifyChanged (s : ProfileService) : ProfileService :=
  MkProfileService (profiles s) (builtIns s) (profileIDsByIdentifier s) (bindings s) (bindingsByKey s)
    (bindingsByModel s) (customProperties s) (enumOverrides s) (customModels s) (store s) (changes s + 1).

Definition lift_store {A} (r : result StoreError A) : result ServiceError A :=
  match r with Ok x => Ok x | Err e => Err (StoreFailed e) end.

Definition invalid (key : string) (m : Message) : ServiceError := Invalid {[ key := m ]}.

(** The values of a map, in some order. *)
Definition values {V} (m : gmap string V) : list V := (map_to_list m).*2.

(** ** Profiles: checks and identities *)

(** [strings.TrimPrefix] *)
Definition TrimPrefix (prefix s : string) : string := default s (drop_prefix prefix s).

Definition profileValidationError (prefix : string) (e : ServiceError) : ServiceError :=
  match e with
  | MappingInvalid v =>
      Invalid (kmap (fun key => if is_empty prefix then key
                                else prefix +:+ "." +:+ TrimPrefix "profile." key) (ve_Fields v))
  | e => e
  end.

Definition validateProfile (item : Profile) : result ServiceError unit :=
  match Validate item with
  | Err e => Err (profileValidationError "" (MappingInvalid e))
  | Ok _ =>
      let fields := note (negb (IsUUIDv7 (pr_ID item))) "id" "must be a canonical UUIDv7" ∅ in
      let fields := note (negb (ValidStableID (pr_Identifier item))) "identifier"
        "must be a stable lowercase identifier" fields in
      if (0 <? size fields)%nat then Err (Invalid fields) else Ok tt
  end.

Definition with_identity (item : Profile) (id identifier : string) : Profile :=
  MkProfile (pr_SchemaVersion item) id identifier (pr_Version item) (pr_Kind item) (pr_InputType item)
    (pr_OutputType item) (pr_Default item) (pr_Transforms item).

(** [strings.ReplaceAll(id, "-", "")] *)
Fixpoint without_dashes (s : string) : string :=
  match s with
  | EmptyString => ""
  | String c s => if Ascii.eqb c "-" then without_dashes s else String c (without_dashes s)
  end.

(** [uuid] is the answer of [mapping.NewUUIDv7]. *)
Definition newProfileIdentity (uuid : option string) (item : Profile) : result ServiceError Profile :=
  let identifier := if is_empty (pr_Identifier item) && negb (is_empty (pr_ID item))
                    then pr_ID item else pr_Identifier item in
  guard! ValidStableID identifier
    else invalid "identifier" (Text "must be a stable lowercase identifier") in
  match uuid with
  | None => Err NoRandomness
  | Some id => Ok (with_identity item id identifier)
  end.

Definition readable_identifier (item : Profile) : string :=
  if is_empty (pr_Identifier item) then
    if IsUUIDv7 (pr_ID item) then "profile-" +:+ without_dashes (pr_ID item) else pr_ID item
  else pr_Identifier item.

Definition importedProfileIdentity (uuid : option string) (item : Profile) : result ServiceError Profile :=
  let identifier := readable_identifier item in
  if IsUUIDv7 (pr_ID item) then Ok (with_identity item (pr_ID item) identifier)
  else match uuid with
       | None => Err NoRandomness
       | Some id => Ok (with_identity item id identifier)
       end.

Definition profileLocked (s : ProfileService) (id : string) : option Profile :=
  match builtIns s !! id with Some item => Some item | None => profiles s !! id end.

Definition profileIDForReferenceLocked (s : ProfileService) (reference : string) : string :=
  if is_empty reference then ""
  else if present (profileLocked s reference) then reference
  else default reference (profileIDsByIdentifier s !! reference).

(** ** The models a binding refers to *)

Definition modelExistsLocked (s : ProfileService) (t : Type_) : bool :=
  present (ModelContractFor t) || present (customModels s !! t).

Definition contract_parameter (t : Type_) (path : ParameterPath) : option ModelParameter :=
  contract ← ModelContractFor t;
  first (fun q => if bool_decide (mp_Path q = path) then Some q else None) (mc_Parameters contract).

Definition with_mp_Enum (q : ModelParameter) (l : list string) : ModelParameter :=
  MkModelParameter (mp_Path q) (mp_Name q) (mp_Level q) (mp_Type q) (mp_Unit q) (mp_Readable q) (mp_Writable q)
    (mp_Notifiable q) (mp_Min q) (mp_Max q) (mp_Step q) (mp_StaleAfterSeconds q) l (mp_Publisher q)
    (mp_Consumer q) (mp_PublisherNotes q) (mp_ConsumerNotes q).

Definition modelParameterLocked (s : ProfileService) (t : Type_) (path : ParameterPath) : option ModelParameter :=
  if is_empty t then None
  else
    parameter ← match contract_parameter t path with
                | Some q => Some q
                | None => CustomModelParameter <$> customProperties s !! model_key t path
                end;
    Some (match enumOverrides s !! model_key t path with
          | Some override => if is_enum_type (mp_Type parameter)
                             then with_mp_Enum parameter (eo_Enum override) else parameter
          | None => parameter
          end).

(** ** The checks of a binding *)

Definition validateRuntimeProfile (profile : Profile) (stage : BindingStage) : result ServiceError unit :=
  let fields := note (is_provider stage && match pr_Kind profile with KindTarget => true | _ => false end)
    "profileId" "target profiles cannot be attached to provider properties" ∅ in
  let fields := note (is_consumer stage && match pr_Kind profile with KindProvider => true | _ => false end)
    "profileId" "provider profiles cannot be attached to consumer properties" fields in
  let fields := note (existsb (fun t => bool_decide (tr_Type t = TransformClamp)) (pr_Transforms profile))
    "profileId" "runtime property bindings must be reversible; clamp is not reversible" fields in
  if (0 <? size fields)%nat then Err (Invalid fields) else Ok tt.

Definition bindingValidationError (e : ValidationError) : ServiceError :=
  Invalid (kmap (TrimPrefix "binding.") (ve_Fields e)).

Definition numeric_parameter (q : ModelParameter) : bool := numericType (mp_Type q).

(** The types along a route: source, profile and destination. *)
Definition check_types (s : ProfileService) (item : Binding) (modelParameter : option ModelParameter)
    (consumerProperty : option ConsumerProperty) : result ServiceError unit :=
  let modelType := mp_Type (default zero_parameter modelParameter) in
  if is_empty (mb_ProfileID item) then
    guard! negb (holds (fun c => negb (value_type_eqb modelType (con_Type c))) consumerProperty)
      else invalid "profileId" (Text "a conversion profile is required because the model and consumer types differ") in
    Ok tt
  else
    match profileLocked s (mb_ProfileID item) with
    | None => Err (invalid "profileId" (Text "mapping profile not found"))
    | Some profile =>
        guard! negb (present modelParameter && is_provider (EffectiveStage item) &&
                     negb (value_type_eqb (pr_OutputType profile) modelType))
          else invalid "profileId" (Text "profile output type does not match the unified model property") in
        guard! negb (present modelParameter && is_consumer (EffectiveStage item) &&
                     negb (value_type_eqb (pr_InputType profile) modelType))
          else invalid "profileId" (Text "profile input type does not match the unified model property") in
        guard! negb (holds (fun c => negb (value_type_eqb (pr_OutputType profile) (con_Type c))) consumerProperty)
          else invalid "profileId" (Text "profile output type does not match the consumer property") in
        validateRuntimeProfile profile (EffectiveStage item)
    end.

Definition validateBindingLocked (s : ProfileService) (item : Binding) : result ServiceError unit :=
  match ValidateBinding item with
  | Err e => Err (bindingValidationError e)
  | Ok _ =>
      let modelParameter := modelParameterLocked s (mb_DeviceType item) (ModelPath item) in
      let typed := negb (is_empty (mb_DeviceType item)) in
      guard! negb (typed && negb (modelExistsLocked s (mb_DeviceType item)))
        else invalid "deviceType" (Text "unified model not found") in
      guard! negb (typed && negb (present modelParameter))
        else invalid "modelPropertyId" (Text "unified model property not found") in
      guard! negb (present (mb_PresentationStep item) && holds (fun q => negb (numeric_parameter q)) modelParameter)
        else invalid "presentationStep" (Text "unified model property must be numeric") in
      let consumer := is_consumer (EffectiveStage item) in
      let consumerProperty :=
        if consumer then FindConsumerProperty (mb_ConsumerID item) (EffectiveConsumerDeviceType item)
                           (mb_ConsumerProperty item) else None in
      guard! negb (consumer && negb (present consumerProperty))
        else invalid "consumerProperty" (Text "consumer property not found") in
      check_types s item modelParameter consumerProperty
  end.

(** ** Operations on profiles *)

(** The checks of the bindings that use the profile [id]: whatever the order the bindings
    are visited in, the first failure reports the same field. *)
Definition validateRuntimeProfileUpdate (item : Profile) (bs : gmap string Binding) (id : string)
    : result ServiceError unit :=
  match first (fun b => if mb_ProfileID b =s id then
                          match validateRuntimeProfile item (EffectiveStage b) with Err e => Some e | Ok _ => None end
                        else None) (values bs) with
  | Some e => Err e
  | None => Ok tt
  end.

Definition profileUsedByBinding (bs : gmap string Binding) (id : string) : bool :=
  existsb (fun b => (mb_ProfileID b =s id) && mb_Enabled b) (values bs).

(** [List] and [Export]: identifiers are distinct, so the order decides. *)
Definition ProfileInfo : Type := Profile * bool.
Definition kind_text (k : ProfileKind) : string :=
  match k with
  | KindProvider => "provider" | KindCapability => "capability" | KindTarget => "target" | KindOther s => s
  end.
Definition info_le (a b : ProfileInfo) : Prop :=
  if kind_text (pr_Kind a.1) =s kind_text (pr_Kind b.1)
  then str_leb (pr_Identifier a.1) (pr_Identifier b.1) = true
  else str_leb (kind_text (pr_Kind a.1)) (kind_text (pr_Kind b.1)) = true.
#[export] Instance info_le_dec a b : Decision (info_le a b).
Proof. unfold info_le. destruct (_ =s _); apply _. Defined.
Definition ProfileList (s : ProfileService) : list ProfileInfo :=
  merge_sort info_le (((fun p => (p, true)) <$> values (builtIns s)) ++ ((fun p => (p, false)) <$> values (profiles s))).
Definition identifier_le (a b : Profile) : Prop := str_leb (pr_Identifier a) (pr_Identifier b) = true.
#[export] Instance identifier_le_dec a b : Decision (identifier_le a b) := decide (_ = true).
Definition Export (s : ProfileService) : list Profile := merge_sort identifier_le (values (profiles s)).

Definition Get (s : ProfileService) (id : string) : result ServiceError ProfileInfo :=
  let id := profileIDForReferenceLocked s id in
  match builtIns s !! id, profiles s !! id with
  | Some item, _ => Ok (item, true)
  | None, Some item => Ok (item, false)
  | None, None => Err ErrProfileNotFound
  end.

Definition identifier_taken (s : ProfileService) (identifier : string) : option string :=
  profileIDsByIdentifier s !! identifier.

Definition Create (io : bool) (uuid : option string) (item : Profile) (s : ProfileService)
    : result ServiceError (ProfileService * Profile) :=
  let! item := newProfileIdentity uuid item in
  check! validateProfile item in
  guard! negb (present (builtIns s !! pr_ID item)) else ErrProfileBuiltIn in
  guard! negb (present (profiles s !! pr_ID item)) else ErrProfileExists in
  match identifier_taken s (pr_Identifier item) with
  | Some existing => Err (invalid "identifier" (UsedBy existing))
  | None =>
      let! t := lift_store (SaveMappingProfile io item (store s)) in
      Ok (set_profiles s (<[pr_ID item := item]> (profiles s))
            (<[pr_Identifier item := pr_ID item]> (profileIDsByIdentifier s)) t, item)
  end.

Definition Update (io : bool) (id : string) (item : Profile) (s : ProfileService)
    : result ServiceError (ProfileService * Profile) :=
  let id := profileIDForReferenceLocked s id in
  guard! negb (present (builtIns s !! id)) else ErrProfileBuiltIn in
  match profiles s !! id with
  | None => Err ErrProfileNotFound
  | Some current =>
      let item := with_identity item id (if is_empty (pr_Identifier item) then pr_Identifier current
                                         else pr_Identifier item) in
      check! validateProfile item in
      guard! pr_Version current <? pr_Version item
        else invalid "version" (NotNewer (pr_Version current)) in
      let owner := identifier_taken s (pr_Identifier item) in
      guard! negb (holds (fun owner => negb (owner =s id)) owner)
        else invalid "identifier" (UsedBy (default "" owner)) in
      check! validateRuntimeProfileUpdate item (bindings s) id in
      let! t := lift_store (SaveMappingProfile io item (store s)) in
      let usedByBinding := profileUsedByBinding (bindings s) id in
      let s := set_profiles s (<[id := item]> (profiles s))
                 (<[pr_Identifier item := id]> (delete (pr_Identifier current) (profileIDsByIdentifier s))) t in
      Ok (if usedByBinding then notifyChanged s else s, item)
  end.

Definition Delete (io : bool) (id : string) (s : ProfileService) : result ServiceError ProfileService :=
  let id := profileIDForReferenceLocked s id in
  guard! negb (present (builtIns s !! id)) else ErrProfileBuiltIn in
  match profiles s !! id with
  | None => Err ErrProfileNotFound
  | Some current =>
      guard! negb (existsb (fun b => mb_ProfileID b =s id) (values (bindings s))) else ErrProfileInUse in
      let! t := lift_store (DeleteMappingProfile io id (store s)) in
      Ok (set_profiles s (delete id (profiles s)) (delete (pr_Identifier current) (profileIDsByIdentifier s)) t)
  end.

Definition import_path (index : nat) (field : string) : string :=
  "profiles." +:+ show_Z (Z.of_nat index) +:+ field.

(** The first loop: identities, validation, no duplicates; [uuids] answers [NewUUIDv7]. *)
Fixpoint prepare_import (uuids : nat -> option string) (index : nat) (seen seenIdentifiers : gset string)
    (items : list Profile) : result ServiceError (list Profile) :=
  match items with
  | [] => Ok []
  | item :: items =>
      match importedProfileIdentity (uuids index) item with
      | Err e => Err (profileValidationError (import_path index "") e)
      | Ok item =>
          match validateProfile item with
          | Err e => Err (profileValidationError (import_path index "") e)
          | Ok _ =>
              guard! negb (bool_decide (pr_ID item ∈ seen))
                else invalid (import_path index ".id") (Text "duplicate profile id") in
              guard! negb (bool_decide (pr_Identifier item ∈ seenIdentifiers))
                else invalid (import_path index ".identifier") (Text "duplicate profile identifier") in
              let! prepared := prepare_import uuids (S index) ({[pr_ID item]} ∪ seen)
                                 ({[pr_Identifier item]} ∪ seenIdentifiers) items in
              Ok (item :: prepared)
          end
      end
  end.

(** The second loop, against the profiles there are. *)
Definition check_import (s : ProfileService) (index : nat) (item : Profile) : result ServiceError nat :=
  guard! negb (present (builtIns s !! pr_ID item))
    else invalid (import_path index ".id") (Text "conflicts with a built-in profile") in
  guard! negb (holds (fun current => pr_Version item <=? pr_Version current) (profiles s !! pr_ID item))
    else invalid (import_path index ".version")
           (NotNewer (default 0 (pr_Version <$> profiles s !! pr_ID item))) in
  let owner := identifier_taken s (pr_Identifier item) in
  guard! negb (holds (fun owner => negb (owner =s pr_ID item)) owner)
    else invalid (import_path index ".identifier") (UsedBy (default "" owner)) in
  check! validateRuntimeProfileUpdate item (bindings s) (pr_ID item) in
  Ok (S index).

(** The third loop: one profile enters the memory. *)
Definition import_one (s : ProfileService) (item : Profile) : ProfileService :=
  let identifiers := match profiles s !! pr_ID item with
                     | Some current => delete (pr_Identifier current) (profileIDsByIdentifier s)
                     | None => profileIDsByIdentifier s
                     end in
  set_profiles s (<[pr_ID item := item]> (profiles s)) (<[pr_Identifier item := pr_ID item]> identifiers) (store s).

Definition Import (io : bool) (uuids : nat -> option string) (items : list Profile) (s : ProfileService)
    : result ServiceError (ProfileService * list Profile) :=
  guard! negb (List.length items =? 0)%nat else invalid "profiles" (Text "must not be empty") in
  let! prepared := prepare_import uuids 0 ∅ ∅ items in
  check! each (check_import s) 0%nat prepared in
  let! t := lift_store (SaveMappingProfiles io prepared (store s)) in
  let refreshRuntime := existsb (fun item => profileUsedByBinding (bindings s) (pr_ID item)) prepared in
  let s := fold_left import_one prepared (set_store s t) in
  Ok (if refreshRuntime then notifyChanged s else s, prepared).

(** ** Operations on bindings *)

Definition canonicalBinding (item : Binding) : Binding :=
  let row := binding_row item in
  if is_provider (EffectiveStage item) then row
  else MkBinding (mb_ID row) (mb_Stage row) (mb_ProfileID row) (mb_ProviderID row) (mb_DeviceID row)
    (mb_EndpointID row) (mb_CapabilityID row) (mb_PropertyID row) (mb_DeviceType row) (mb_ConsumerDeviceType row)
    (mb_ModelEndpointID row) (mb_ModelCapabilityID row) (mb_ModelPropertyID row) (mb_ConsumerID row)
    (mb_TargetID row) (mb_ConsumerDeviceID row) (mb_ConsumerProperty row) (mb_Enabled row) false [] None.

Definition with_mb_ID (b : Binding) (id : string) : Binding :=
  MkBinding id (mb_Stage b) (mb_ProfileID b) (mb_ProviderID b) (mb_DeviceID b) (mb_EndpointID b) (mb_CapabilityID b)
    (mb_PropertyID b) (mb_DeviceType b) (mb_ConsumerDeviceType b) (mb_ModelEndpointID b) (mb_ModelCapabilityID b)
    (mb_ModelPropertyID b) (mb_ConsumerID b) (mb_TargetID b) (mb_ConsumerDeviceID b) (mb_ConsumerProperty b)
    (mb_Enabled b) (mb_ReadbackEnabled b) (mb_ReadbackDelaysMS b) (mb_PresentationStep b).

(** [sort.Strings] *)
Definition string_le (a b : string) : Prop := str_leb a b = true.
#[export] Instance string_le_dec a b : Decision (string_le a b) := decide (_ = true).
Definition sort_strings (l : list string) : list string := merge_sort string_le l.

Definition addBindingKeyLocked (key id : string) (m : gmap string (list string)) : gmap string (list string) :=
  let ids := default [] (m !! key) in
  if existsb (fun current => current =s id) ids then m
  else <[key := sort_strings (ids ++ [id])]> m.

Fixpoint remove_id (id : string) (ids : list string) : list string :=
  match ids with
  | [] => []
  | current :: ids => if current =s id then ids else current :: remove_id id ids
  end.

Definition removeBindingKeyLocked (key id : string) (m : gmap string (list string)) : gmap string (list string) :=
  match remove_id id (default [] (m !! key)) with
  | [] => delete key m
  | ids => <[key := ids]> m
  end.

Definition hasOtherBindingKeyLocked (key id : string) (m : gmap string (list string)) : bool :=
  existsb (fun current => negb (current =s id)) (default [] (m !! key)).

(** The binding enters the memory, and leaves it. *)
Definition link_binding (item : Binding) (s : ProfileService) : ProfileService :=
  set_bindings s (<[mb_ID item := item]> (bindings s))
    (addBindingKeyLocked (Key item) (mb_ID item) (bindingsByKey s))
    (if is_provider (EffectiveStage item) then <[ModelKey item := mb_ID item]> (bindingsByModel s)
     else bindingsByModel s) (store s).
Definition unlink_binding (id : string) (current : Binding) (s : ProfileService) : ProfileService :=
  set_bindings s (delete id (bindings s)) (removeBindingKeyLocked (Key current) id (bindingsByKey s))
    (if is_provider (EffectiveStage current) then delete (ModelKey current) (bindingsByModel s)
     else bindingsByModel s) (store s).

(** [ListBindings]: ties come in any order ([ord] is the order of the map). *)
Definition binding_order (a b : Binding) : Prop :=
  if mb_DeviceID a =s mb_DeviceID b then str_leb (Key a) (Key b) = true
  else str_leb (mb_DeviceID a) (mb_DeviceID b) = true.
#[export] Instance binding_order_dec a b : Decision (binding_order a b).
Proof. unfold binding_order. destruct (_ =s _); apply _. Defined.
Definition ListBindings (ord : list string) (s : ProfileService) : list Binding :=
  merge_sort binding_order (omap (fun id => bindings s !! id) ord).

Definition GetBinding (s : ProfileService) (id : string) : result ServiceError Binding :=
  match bindings s !! id with Some item => Ok item | None => Err ErrBindingNotFound end.

(** [random] is the answer of the generator: eight bytes. *)
Definition newBindingID (random : option (list Z)) : result ServiceError string :=
  match random with Some buffer => Ok ("binding-" +:+ hex buffer) | None => Err NoRandomness end.

Definition resolve_profile (s : ProfileService) (item : Binding) : Binding :=
  with_ProfileID item (profileIDForReferenceLocked s (mb_ProfileID item)).

Definition CreateBinding (io : bool) (random : option (list Z)) (item : Binding) (s : ProfileService)
    : result ServiceError (ProfileService * Binding) :=
  let! id := if is_empty (mb_ID item) then newBindingID random else Ok (mb_ID item) in
  let item := resolve_profile s (canonicalBinding (with_mb_ID item id)) in
  check! validateBindingLocked s item in
  guard! negb (present (bindings s !! mb_ID item)) else ErrBindingExists in
  guard! negb (is_consumer (EffectiveStage item) &&
               (0 <? List.length (default [] (bindingsByKey s !! Key item)))%nat) else ErrBindingExists in
  guard! negb (is_provider (EffectiveStage item) && present (bindingsByModel s !! ModelKey item))
    else ErrBindingExists in
  let! t := lift_store (SaveMappingBinding io item (store s)) in
  Ok (notifyChanged (link_binding item (set_store s t)), item).

Definition UpdateBinding (io : bool) (id : string) (item : Binding) (s : ProfileService)
    : result ServiceError (ProfileService * Binding) :=
  let item := resolve_profile s (canonicalBinding (with_mb_ID item id)) in
  match bindings s !! id with
  | None => Err ErrBindingNotFound
  | Some current =>
      check! validateBindingLocked s item in
      guard! negb (is_consumer (EffectiveStage item) && hasOtherBindingKeyLocked (Key item) id (bindingsByKey s))
        else ErrBindingExists in
      guard! negb (is_provider (EffectiveStage item) &&
                   holds (fun owner => negb (owner =s id)) (bindingsByModel s !! ModelKey item))
        else ErrBindingExists in
      let! t := lift_store (SaveMappingBinding io item (store s)) in
      Ok (notifyChanged (link_binding item (unlink_binding id current (set_store s t))), item)
  end.

Definition DeleteBinding (io : bool) (id : string) (s : ProfileService) : result ServiceError ProfileService :=
  match bindings s !! id with
  | None => Err ErrBindingNotFound
  | Some item =>
      let! t := lift_store (DeleteMappingBinding io id (store s)) in
      Ok (notifyChanged (unlink_binding id item (set_store s t)))
  end.

(** The loop of [pruneBindings]: the number deleted, and the error that stopped it. *)
Fixpoint prune_loop (io : string -> bool) (ids : list string) (s : ProfileService)
    : ProfileService * Z * option ServiceError :=
  match ids with
  | [] => (s, 0, None)
  | id :: ids =>
      let item := bindings s !! id in
      match DeleteMappingBinding (io id) id (store s) with
      | Err e => (s, 0, Some (StoreFailed e))
      | Ok t =>
          let s := match item with
                   | Some item => unlink_binding id item (set_store s t)
                   | None => set_store s t
                   end in
          let '(s, deleted, e) := prune_loop io ids s in (s, deleted + 1, e)
      end
  end.

Definition pruneBindings (io : string -> bool) (shouldDelete : Binding -> bool) (s : ProfileService)
    : ProfileService * Z * option ServiceError :=
  let ids := sort_strings (omap (fun kv => if shouldDelete kv.2 then Some kv.1 else None)
                             (map_to_list (bindings s))) in
  let '(s, deleted, e) := prune_loop io ids s in
  (if 0 <? deleted then notifyChanged s else s, deleted, e).

Definition orphaned (knownProviders : gset string) (configuredDevices : gmap string (gset string)) (item : Binding) : bool :=
  let active := configuredDevices !! mb_ProviderID item in
  negb (bool_decide (mb_ProviderID item ∈ knownProviders)) ||
  (present active && negb (bool_decide (mb_DeviceID item ∈ default ∅ active))).

Definition PruneOrphanedBindings (io : string -> bool) (knownProviders : gset string)
    (configuredDevices : gmap string (gset string)) (s : ProfileService) : ProfileService * Z * option ServiceError :=
  pruneBindings io (orphaned knownProviders configuredDevices) s.

Definition PruneProviderBindings (io : string -> bool) (providerID : string) (configuredDevices : gset string)
    (s : ProfileService) : ProfileService * Z * option ServiceError :=
  pruneBindings io (fun item => (mb_ProviderID item =s providerID) &&
                                negb (bool_decide (mb_DeviceID item ∈ configuredDevices))) s.

(** ** Custom models *)

Definition customModelValidationError (e : ValidationError) : ServiceError := Invalid (ve_Fields e).

Definition CreateCustomModel (io : bool) (item : CustomModel) (s : ProfileService)
    : result ServiceError (ProfileService * CustomModel) :=
  match ValidateCustomModel item with
  | Err e => Err (customModelValidationError e)
  | Ok _ =>
      guard! negb (present (ModelContractFor (cu_DeviceType item))) else ErrCustomModelExists in
      guard! negb (present (customModels s !! cu_DeviceType item)) else ErrCustomModelExists in
      let! t := lift_store (SaveCustomModel io item (store s)) in
      Ok (notifyChanged (set_customModels s (<[cu_DeviceType item := item]> (customModels s)) t), item)
  end.

Definition DeleteCustomModel (io : bool) (deviceType : Type_) (s : ProfileService)
    : result ServiceError ProfileService :=
  guard! present (customModels s !! deviceType) else ErrCustomModelNotFound in
  guard! negb (existsb (fun item => cmp_DeviceType item =s deviceType) (values (customProperties s)))
    else ErrProfileInUse in
  guard! negb (existsb (fun b => mb_DeviceType b =s deviceType) (values (bindings s))) else ErrProfileInUse in
  let! t := lift_store (MappingStore.DeleteCustomModel io deviceType (store s)) in
  Ok (notifyChanged (set_customModels s (delete deviceType (customModels s)) t)).

Definition custom_contract (item : CustomModel) : ModelContract.ModelContract :=
  MkModelContract (cu_DeviceType item) (cu_Name item) (cu_Version item) false []
    (MkCustomParameterPolicy (MkParameterRole ParameterCustom "preserve-and-mark-custom")
       (MkParameterRole ParameterCustom "explicit-path-mapping-only")).

Definition with_mc_Parameters (c : ModelContract.ModelContract) (l : list ModelParameter) : ModelContract.ModelContract :=
  MkModelContract (mc_DeviceType c) (mc_Name c) (mc_Version c) (mc_BuiltIn c) l (mc_Custom c).

(** The loop over the custom properties: each extends the first contract of its type. *)
Definition extend_contracts (contracts : list ModelContract.ModelContract) (item : CustomModelProperty)
    : list ModelContract.ModelContract :=
  default contracts (update_first (fun c =>
    if mc_DeviceType c =s cmp_DeviceType item
    then Some (with_mc_Parameters c (mc_Parameters c ++ [CustomModelParameter item])) else None) contracts).

(** [applyModelEnumOverrides]: the last parameter with the path of the override. *)
Definition override_parameter (override : ModelEnumOverride) (l : list ModelParameter) : list ModelParameter :=
  rev (default (rev l) (update_first (fun q =>
    if path_key (mp_Path q) =s path_key (override_path override)
    then Some (if is_enum_type (mp_Type q) then with_mp_Enum q (eo_Enum override) else q) else None) (rev l))).
Definition applyModelEnumOverride (contracts : list ModelContract.ModelContract) (override : ModelEnumOverride)
    : list ModelContract.ModelContract :=
  default contracts (update_first (fun c =>
    if mc_DeviceType c =s eo_DeviceType override
    then Some (with_mc_Parameters c (override_parameter override (mc_Parameters c))) else None) contracts).

Definition parameter_le (a b : ModelParameter) : Prop :=
  str_leb (path_string (mp_Path a)) (path_string (mp_Path b)) = true.
#[export] Instance parameter_le_dec a b : Decision (parameter_le a b) := decide (_ = true).

Definition ServiceModelContracts (s : ProfileService) : list ModelContract.ModelContract :=
  let contracts := ModelContracts ++ (custom_contract <$> values (customModels s)) in
  let contracts := fold_left extend_contracts (values (customProperties s)) contracts in
  let contracts := fold_left applyModelEnumOverride (values (enumOverrides s)) contracts in
  merge_sort contract_le ((fun c => with_mc_Parameters c (merge_sort parameter_le (mc_Parameters c))) <$> contracts).

(** ** Definitions of model properties *)

Definition intersectMinimum (source contract : option float64) : option float64 :=
  match source, contract with
  | None, _ => contract
  | Some _, None => source
  | Some x, Some y => if fgeb x y then source else contract
  end.
Definition intersectMaximum (source contract : option float64) : option float64 :=
  match source, contract with
  | None, _ => contract
  | Some _, None => source
  | Some x, Some y => if fleb x y then source else contract
  end.
Definition stricterStep (source contract : option float64) : option float64 :=
  match source, contract with
  | None, _ => contract
  | Some _, None => source
  | Some x, Some y => if fgeb x y then source else contract
  end.

Definition with_pd_Enum (d : PropertyDefinition) (l : list string) : PropertyDefinition :=
  MkPropertyDefinition (pd_ID d) (pd_Name d) (pd_Type d) (pd_ParameterLevel d) (pd_Unit d) (pd_Readable d)
    (pd_Writable d) (pd_Notifiable d) (pd_Min d) (pd_Max d) (pd_Step d) l (pd_StaleAfterSeconds d).
Definition rename_definition (d : PropertyDefinition) (id : string) : PropertyDefinition :=
  MkPropertyDefinition id (pd_Name d) (pd_Type d) (pd_ParameterLevel d) (pd_Unit d) (pd_Readable d)
    (pd_Writable d) (pd_Notifiable d) (pd_Min d) (pd_Max d) (pd_Step d) (pd_Enum d) (pd_StaleAfterSeconds d).

Definition override_definition (s : ProfileService) (t : Type_) (path : ParameterPath) (d : PropertyDefinition)
    : PropertyDefinition :=
  match enumOverrides s !! model_key t path with
  | Some override => if is_enum_type (pd_Type d) then with_pd_Enum d (eo_Enum override) else d
  | None => d
  end.

(** The definition of the source, bound by the parameter of the model. *)
Definition constrained_definition (path : ParameterPath) (q : ModelParameter) (fallback : PropertyDefinition)
    : PropertyDefinition :=
  MkPropertyDefinition (pp_PropertyID path) (mp_Name q) (mp_Type q) (mp_Level q)
    (if negb (is_empty (mp_Unit q)) then mp_Unit q else pd_Unit fallback)
    (mp_Readable q) (mp_Writable q) (mp_Notifiable q)
    (intersectMinimum (pd_Min fallback) (mp_Min q)) (intersectMaximum (pd_Max fallback) (mp_Max q))
    (stricterStep (pd_Step fallback) (mp_Step q)) (mp_Enum q)
    (if 0 <? mp_StaleAfterSeconds q then mp_StaleAfterSeconds q else pd_StaleAfterSeconds fallback).

Definition ResolveModelDefinition (s : ProfileService) (t : Type_) (path : ParameterPath) (fallback : PropertyDefinition)
    : PropertyDefinition * bool :=
  match customProperties s !! model_key t path with
  | Some item =>
      (override_definition s t path
        (with_pd_Level (rename_definition (cmp_Definition item) (pp_PropertyID path)) ParameterCustom), true)
  | None =>
      match modelParameterLocked s t path with
      | None => (fallback, false)
      | Some q => (override_definition s t path (constrained_definition path q fallback), true)
      end
  end.

(** ** Custom properties *)

Definition with_custom_identity (item : CustomModelProperty) (id : string) : CustomModelProperty :=
  MkCustomProperty id (cmp_DeviceType item) (cmp_EndpointID item) (cmp_EndpointName item) (cmp_EndpointType item)
    (cmp_CapabilityID item) (cmp_CapabilityType item) (with_pd_Level (cmp_Definition item) ParameterCustom).

Definition unknown_model : ServiceError := invalid "deviceType" (Text "must reference an existing unified device model").

Definition CreateCustomModelProperty (io : bool) (item : CustomModelProperty) (s : ProfileService)
    : result ServiceError (ProfileService * CustomModelProperty) :=
  let item := with_custom_identity item (cmp_ID item) in
  match ValidateCustomModelProperty item with
  | Err e => Err (customModelValidationError e)
  | Ok _ =>
      guard! modelExistsLocked s (cmp_DeviceType item) else unknown_model in
      guard! negb (present (modelParameterLocked s (cmp_DeviceType item) (custom_path item)))
        else ErrCustomModelPropertyExists in
      guard! negb (present (customProperties s !! custom_key item)) else ErrCustomModelPropertyExists in
      guard! negb (existsb (fun current => cmp_ID current =s cmp_ID item) (values (customProperties s)))
        else ErrCustomModelPropertyExists in
      let! t := lift_store (SaveCustomModelProperty io item (store s)) in
      Ok (set_customProperties s (<[custom_key item := item]> (customProperties s)) t, item)
  end.

(** The custom property with the identifier: the code takes the first it meets. *)
Definition property_by_id (s : ProfileService) (id : string) : option CustomModelProperty :=
  find_by cmp_ID id (values (customProperties s)).

Definition is_custom_level (l : ParameterLevel) : bool := level_eqb l ParameterCustom.

Definition UpdateCustomModelProperty (io : bool) (id : string) (item : CustomModelProperty) (s : ProfileService)
    : result ServiceError (ProfileService * CustomModelProperty) :=
  let item := with_custom_identity item id in
  match ValidateCustomModelProperty item with
  | Err e => Err (customModelValidationError e)
  | Ok _ =>
      guard! modelExistsLocked s (cmp_DeviceType item) else unknown_model in
      match property_by_id s id with
      | None => Err ErrCustomModelPropertyNotFound
      | Some current =>
          guard! negb (holds (fun q => negb (is_custom_level (mp_Level q)))
                        (modelParameterLocked s (cmp_DeviceType item) (custom_path item)))
            else ErrCustomModelPropertyExists in
          guard! negb (holds (fun owner => negb (cmp_ID owner =s id)) (customProperties s !! custom_key item))
            else ErrCustomModelPropertyExists in
          let! t := lift_store (SaveCustomModelProperty io item (store s)) in
          Ok (notifyChanged (set_customProperties s
                (<[custom_key item := item]> (delete (custom_key current) (customProperties s))) t), item)
      end
  end.

Definition DeleteCustomModelProperty (io : bool) (id : string) (s : ProfileService)
    : result ServiceError ProfileService :=
  match property_by_id s id with
  | None => Err ErrCustomModelPropertyNotFound
  | Some current =>
      guard! negb (existsb (fun b => (path_key (ModelPath b) =s path_key (custom_path current)) &&
                      ((mb_DeviceType b =s cmp_DeviceType current) || is_empty (mb_DeviceType b)))
                    (values (bindings s))) else ErrProfileInUse in
      let! t := lift_store (MappingStore.DeleteCustomModelProperty io id (store s)) in
      Ok (notifyChanged (set_customProperties s (delete (custom_key current) (customProperties s)) t))
  end.

(** ** Option lists *)

Definition with_eo_ID (o : ModelEnumOverride) (id : string) : ModelEnumOverride :=
  MkEnumOverride id (eo_DeviceType o) (eo_EndpointID o) (eo_CapabilityID o) (eo_PropertyID o) (eo_Enum o).

Definition UpsertModelEnumOverride (io : bool) (item : ModelEnumOverride) (s : ProfileService)
    : result ServiceError (ProfileService * ModelEnumOverride) :=
  let item := if is_empty (eo_ID item) then with_eo_ID item (ModelEnumOverrideID (eo_DeviceType item) (override_path item))
              else item in
  match ValidateModelEnumOverride item with
  | Err e => Err (Invalid (ve_Fields e))
  | Ok _ =>
      guard! modelExistsLocked s (eo_DeviceType item) else unknown_model in
      match modelParameterLocked s (eo_DeviceType item) (override_path item) with
      | None => Err (invalid "propertyId" (Text "must reference an existing model property"))
      | Some parameter =>
          guard! is_enum_type (mp_Type parameter)
            else invalid "propertyId" (Text "must reference an enum property") in
          guard! negb (holds (fun owner => negb (eo_ID owner =s eo_ID item)) (enumOverrides s !! override_key item))
            else ErrModelEnumOverrideExists in
          guard! negb (existsb (fun current => (eo_ID current =s eo_ID item) &&
                                  negb (override_key current =s override_key item)) (values (enumOverrides s)))
            else ErrModelEnumOverrideExists in
          let! t := lift_store (SaveModelEnumOverride io item (store s)) in
          Ok (notifyChanged (set_enumOverrides s (<[override_key item := item]> (enumOverrides s)) t), item)
      end
  end.

Definition override_by_id (s : ProfileService) (id : string) : option ModelEnumOverride :=
  find_by eo_ID id (values (enumOverrides s)).

Definition DeleteModelEnumOverride (io : bool) (id : string) (s : ProfileService)
    : result ServiceError ProfileService :=
  match override_by_id s id with
  | None => Err ErrModelEnumOverrideNotFound
  | Some current =>
      let! t := lift_store (MappingStore.DeleteModelEnumOverride io id (store s)) in
      Ok (notifyChanged (set_enumOverrides s (delete (override_key current) (enumOverrides s)) t))
  end.

(** ** Construction *)

Definition builtin_transform (t : TransformType) (factor : option float64) (from to : string) : Transform :=
  MkTransform t factor None None None ∅ ∅ from to [] None "" None None "" "" None None None None "".
Definition builtIn (identifier : string) (kind : ProfileKind) (inputType outputType : ValueType)
    (transforms : list Transform) : Profile :=
  MkProfile 1 (BuiltInProfileID identifier) identifier 1 kind inputType outputType None transforms.

Definition BuiltInProfiles : list Profile :=
  [builtIn "builtin-active-low" KindProvider ValueTypeBool ValueTypeBool [builtin_transform TransformInvert None "" ""];
   builtIn "builtin-celsius-fahrenheit" KindTarget ValueTypeNumber ValueTypeNumber
     [builtin_transform TransformUnit None "celsius" "fahrenheit"];
   builtIn "builtin-ratio-percent" KindCapability ValueTypeNumber ValueTypeNumber
     [builtin_transform TransformScale (Some (of_Z 100)) "" ""];
   builtIn "builtin-percent-ratio" KindCapability ValueTypeNumber ValueTypeNumber
     [builtin_transform TransformScale (Some (of_ratio 1 100)) "" ""]] ++ AutoCapabilityProfiles.

Inductive LoadError :=
| BadBuiltIn (id : string) (e : ServiceError)
| BuiltInConflict (existing id : string)
| LoadStore (e : StoreError)
| LoadRandomness
| IdentifierOwned (id identifier existing : string)   (* uses identifier already owned by *)
| ReservedProfile (id : string)                       (* conflicts with a built-in profile *)
| BadProfile (id : string) (e : ServiceError)
| BadModel (t : Type_) (e : ValidationError)
| ModelConflict (t : Type_)
| BadProperty (id : string) (e : ValidationError)
| DuplicateProperty (id : string)
| PropertyOfUnknownModel (id : string) (t : Type_)
| BadOverride (id : string) (e : ValidationError)
| DuplicateOverride (id : string)
| OverrideOfUnknownModel (id : string) (t : Type_)
| BadBinding (id : string) (e : ServiceError)
| DuplicateBinding (id : string)
| DuplicateModelPath (id : string).

Definition lift_load {A} (r : result StoreError A) : result LoadError A :=
  match r with Ok x => Ok x | Err e => Err (LoadStore e) end.

Definition empty_profile_service (t : MappingStore) : ProfileService :=
  MkProfileService ∅ ∅ ∅ ∅ ∅ ∅ ∅ ∅ ∅ t 0.

Definition load_builtin (s : ProfileService) (item : Profile) : result LoadError ProfileService :=
  match validateProfile item with
  | Err e => Err (BadBuiltIn (pr_ID item) e)
  | Ok _ =>
      match profileIDsByIdentifier s !! pr_Identifier item with
      | Some existing => Err (BuiltInConflict existing (pr_ID item))
      | None => Ok (set_builtIns s (<[pr_ID item := item]> (builtIns s))
                      (<[pr_Identifier item := pr_ID item]> (profileIDsByIdentifier s)))
      end
  end.

(** [migrateStoredProfileIdentities]: the profiles, the migrations, [bindingProfileIDs]
    and [identifiers] so far. *)
Record Migrating := MkMigrating {
  mg_result : list Profile;
  mg_migrations : list ProfileIdentityMigration;
  mg_bindingProfileIDs : gmap string string;
  mg_identifiers : gmap string string;
}.

Definition migrate_one (uuids : nat -> option string) (st : nat * Migrating) (item : Profile)
    : result LoadError (nat * Migrating) :=
  let '(index, mg) := st in
  let previousID := pr_ID item in
  let previousIdentifier := pr_Identifier item in
  let identifier := readable_identifier item in
  let! known := if IsUUIDv7 previousID then Ok (previousID, mg_bindingProfileIDs mg)
                else match uuids index with
                     | None => Err LoadRandomness
                     | Some id => Ok (id, <[previousID := id]> (mg_bindingProfileIDs mg))
                     end in
  let '(id, ids) := known in
  let item := with_identity item id identifier in
  let ids := <[identifier := id]> ids in
  match mg_identifiers mg !! identifier with
  | Some existing => Err (IdentifierOwned previousID identifier existing)
  | None =>
      let migrations := if negb (id =s previousID) || negb (identifier =s previousIdentifier)
                        then mg_migrations mg ++ [MkMigration previousID item] else mg_migrations mg in
      Ok (S index, MkMigrating (mg_result mg ++ [item]) migrations ids (<[identifier := id]> (mg_identifiers mg)))
  end.

Definition replace_migration (m : ProfileIdentityMigration) (x : ProfileIdentityMigration)
    : option ProfileIdentityMigration := if mi_PreviousID x =s mi_PreviousID m then Some m else None.
Definition deduplicateProfileMigrations (items : list ProfileIdentityMigration) : list ProfileIdentityMigration :=
  fold_left (fun l m => default (l ++ [m]) (update_first (replace_migration m) l)) items [].

Definition migrateStoredProfileIdentities (uuids : nat -> option string) (s : ProfileService) (items : list Profile)
    : result LoadError (list Profile * list ProfileIdentityMigration * gmap string string) :=
  let ids := profileIDsByIdentifier s in
  let! r := each (migrate_one uuids) (0%nat, MkMigrating [] [] ids ids) items in
  Ok (mg_result r.2, deduplicateProfileMigrations (mg_migrations r.2), mg_bindingProfileIDs r.2).

Definition load_profile (s : ProfileService) (item : Profile) : result LoadError ProfileService :=
  guard! negb (present (builtIns s !! pr_ID item)) else ReservedProfile (pr_ID item) in
  match validateProfile item with
  | Err e => Err (BadProfile (pr_ID item) e)
  | Ok _ =>
      match profileIDsByIdentifier s !! pr_Identifier item with
      | Some existing => Err (IdentifierOwned (pr_ID item) (pr_Identifier item) existing)
      | None => Ok (set_profiles s (<[pr_ID item := item]> (profiles s))
                      (<[pr_Identifier item := pr_ID item]> (profileIDsByIdentifier s)) (store s))
      end
  end.

Definition load_model (s : ProfileService) (item : CustomModel) : result LoadError ProfileService :=
  match ValidateCustomModel item with
  | Err e => Err (BadModel (cu_DeviceType item) e)
  | Ok _ =>
      guard! negb (present (ModelContractFor (cu_DeviceType item))) else ModelConflict (cu_DeviceType item) in
      Ok (set_customModels s (<[cu_DeviceType item := item]> (customModels s)) (store s))
  end.

Definition load_property (s : ProfileService) (item : CustomModelProperty) : result LoadError ProfileService :=
  match ValidateCustomModelProperty item with
  | Err e => Err (BadProperty (cmp_ID item) e)
  | Ok _ =>
      guard! negb (present (customProperties s !! custom_key item)) else DuplicateProperty (cmp_ID item) in
      guard! modelExistsLocked s (cmp_DeviceType item)
        else PropertyOfUnknownModel (cmp_ID item) (cmp_DeviceType item) in
      Ok (set_customProperties s (<[custom_key item := item]> (customProperties s)) (store s))
  end.

Definition load_override (s : ProfileService) (item : ModelEnumOverride) : result LoadError ProfileService :=
  match ValidateModelEnumOverride item with
  | Err e => Err (BadOverride (eo_ID item) e)
  | Ok _ =>
      guard! negb (present (enumOverrides s !! override_key item)) else DuplicateOverride (eo_ID item) in
      guard! modelExistsLocked s (eo_DeviceType item) else OverrideOfUnknownModel (eo_ID item) (eo_DeviceType item) in
      Ok (set_enumOverrides s (<[override_key item := item]> (enumOverrides s)) (store s))
  end.

Definition load_binding (s : ProfileService) (item : Binding) : result LoadError ProfileService :=
  let item := resolve_profile s item in
  match validateBindingLocked s item with
  | Err e => Err (BadBinding (mb_ID item) e)
  | Ok _ =>
      guard! negb (is_consumer (EffectiveStage item) &&
                   (0 <? List.length (default [] (bindingsByKey s !! Key item)))%nat) else DuplicateBinding (mb_ID item) in
      guard! negb (is_provider (EffectiveStage item) && present (bindingsByModel s !! ModelKey item))
        else DuplicateModelPath (mb_ID item) in
      Ok (link_binding item s)
  end.

(** The rows of the tables, in the order the queries return them; [bs] are the rows of the
    bindings after the migration.  [moves] orders the map [bindingProfileIDs]. *)
Record Rows := MkRows {
  row_profiles : list Profile;
  row_models : list CustomModel;
  row_properties : list CustomModelProperty;
  row_overrides : list ModelEnumOverride;
  row_bindings : gmap string Binding -> list Binding;
}.

Definition load_service (templates : list Profile) (io : bool) (uuids : nat -> option string)
    (moves : gmap string string -> list (string * string)) (rows : Rows) (t : MappingStore)
    : result LoadError ProfileService :=
  let! s := each load_builtin (empty_profile_service t) templates in
  guard! io else LoadStore Unavailable in
  let! migrated := migrateStoredProfileIdentities uuids s (row_profiles rows) in
  let '(migratedItems, migrations, bindingProfileIDs) := migrated in
  let! t := lift_load (MigrateMappingProfileIdentities io migrations (moves bindingProfileIDs) (store s)) in
  let! s := each load_profile (set_store s t) migratedItems in
  let! s := each load_model s (row_models rows) in
  let! s := each load_property s (row_properties rows) in
  let! s := each load_override s (row_overrides rows) in
  each load_binding s (row_bindings rows (binding_rows t)).

Definition NewProfileService (io : bool) (uuids : nat -> option string)
    (moves : gmap string string -> list (string * string)) (rows : Rows) (t : MappingStore)
    : result LoadError ProfileService := load_service BuiltInProfiles io uuids moves rows t.

(** The built-in profiles with the hashes of their identifiers computed, for the proofs
    that evaluate them. *)
Definition builtin_profiles : list Profile := Eval vm_compute in BuiltInProfiles.

Lemma builtin_profiles_eq : BuiltInProfiles = builtin_profiles.
Proof. vm_compute. reflexivity. Qed.
