(* ===== verification/ProfileInvariant.v ===== *)
(** * The memory of the profile service and its tables

    Invariants of the service of ProfileService.v: its indexes are what a scan of the
    bindings gives, its tables hold what its memory holds, and a start on those tables
    gives the same memory again. *)

From S2P Require Import Prelude Float64 DeviceModel Lookup ModelContract ConsumerCatalog Sha256.
From S2P Require Import MappingProfile MappingEngine MappingBinding MappingStore ProfileService.

(** ** Specifications *)

(** The index of the bindings by key: sorted, without empty or repeated entries. *)
Record byKey_ok (bs : gmap string Binding) (m : gmap string (list string)) : Prop := {
  bk_sorted key ids : m !! key = Some ids -> ids <> [] /\ Sorted string_le ids /\ NoDup ids;
  bk_scan key id : id ∈ default [] (m !! key) <-> exists b, bs !! id = Some b /\ Key b = key;
}.

Definition byModel_ok (bs : gmap string Binding) (m : gmap string string) : Prop :=
  forall key id, m !! key = Some id <->
    exists b, bs !! id = Some b /\ EffectiveStage b = StageProvider /\ ModelKey b = key.

Record bindings_wf (bs : gmap string Binding) (byKey : gmap string (list string)) (byModel : gmap string string)
    : Prop := {
  bw_valid id b : bs !! id = Some b -> mb_ID b = id /\ binding_ok b;
  bw_key : byKey_ok bs byKey;
  bw_model : byModel_ok bs byModel;
  bw_consumer id id' b b' : bs !! id = Some b -> bs !! id' = Some b' ->
    EffectiveStage b = StageConsumer -> Key b = Key b' -> id = id';
}.

Definition routed (s : ProfileService) : Prop := bindings_wf (bindings s) (bindingsByKey s) (bindingsByModel s).

(** The index of the identifiers of profiles. *)
Record profiles_wf (ps bi : gmap string Profile) (ids : gmap string string) : Prop := {
  pw_builtin id p : bi !! id = Some p -> pr_ID p = id /\ validateProfile p = Ok tt;
  pw_valid id p : ps !! id = Some p -> pr_ID p = id /\ validateProfile p = Ok tt /\ bi !! id = None;
  pw_index identifier id : ids !! identifier = Some id <->
    exists p, (bi !! id = Some p \/ ps !! id = Some p) /\ pr_Identifier p = identifier;
}.

Definition named (s : ProfileService) : Prop := profiles_wf (profiles s) (builtIns s) (profileIDsByIdentifier s).

(** Custom properties and option lists: under their own key, with distinct identifiers. *)
Record keyed_wf {A} (key id : A -> string) (valid : A -> Prop) (m : gmap string A) : Prop := {
  kw_key k x : m !! k = Some x -> key x = k /\ valid x;
  kw_id k k' x x' : m !! k = Some x -> m !! k' = Some x' -> id x = id x' -> k = k';
}.

Definition property_valid (p : CustomModelProperty) : Prop :=
  ValidateCustomModelProperty p = Ok tt /\ with_custom_identity p (cmp_ID p) = p.
Definition override_valid (o : ModelEnumOverride) : Prop := ValidateModelEnumOverride o = Ok tt.
Definition model_valid (m : CustomModel) : Prop :=
  ValidateCustomModel m = Ok tt /\ ModelContractFor (cu_DeviceType m) = None.

Definition table_of (l : list Profile) : gmap string Profile := fold_left (fun m p => <[pr_ID p := p]> m) l ∅.
(** The built-in profiles by identifier; sealed, since nothing here computes with them. *)
Definition builtin_table_aux : seal (table_of BuiltInProfiles).
Proof. eexists. reflexivity. Qed.
Definition builtin_table : gmap string Profile := builtin_table_aux.(unseal).
Definition builtin_table_eq : builtin_table = table_of BuiltInProfiles := builtin_table_aux.(seal_eq).

Record memory_wf (s : ProfileService) : Prop := {
  mw_builtin : builtIns s = builtin_table;
  mw_named : named s;
  mw_routed : routed s;
  mw_properties : keyed_wf custom_key cmp_ID property_valid (customProperties s);
  mw_overrides : keyed_wf override_key eo_ID override_valid (enumOverrides s);
  mw_models t m : customModels s !! t = Some m -> cu_DeviceType m = t /\ model_valid m;
}.

(** The rows of a table with identifiers for primary keys are the values of the memory. *)
Definition rows_of {A} (id : A -> string) (rows m : gmap string A) : Prop :=
  forall i x, rows !! i = Some x <-> id x = i /\ exists k, m !! k = Some x.

Record mirrored (s : ProfileService) : Prop := {
  mr_profiles : profile_rows (store s) = profiles s;
  mr_bindings : binding_rows (store s) = bindings s;
  mr_canonical id b : bindings s !! id = Some b -> binding_row b = b;
  mr_models : model_rows (store s) = customModels s;
  mr_properties : rows_of cmp_ID (property_rows (store s)) (customProperties s);
  mr_overrides : rows_of eo_ID (override_rows (store s)) (enumOverrides s);
}.

(** What a start asks of the tables beyond the invariants: the bindings are still valid,
    custom properties and option lists belong to models that exist, and no profile has the
    identity of another one for its readable identifier. *)
Definition identifiers_apart (s : ProfileService) : Prop :=
  forall identifier id, profileIDsByIdentifier s !! identifier = Some id ->
    is_Some (profileLocked s identifier) -> identifier = id.

Record restartable (s : ProfileService) : Prop := {
  rs_bindings id b : bindings s !! id = Some b -> validateBindingLocked s b = Ok tt;
  rs_properties k p : customProperties s !! k = Some p -> modelExistsLocked s (cmp_DeviceType p) = true;
  rs_overrides k o : enumOverrides s !! k = Some o -> modelExistsLocked s (eo_DeviceType o) = true;
  rs_apart : identifiers_apart s;
}.

(** The rows the queries list for the tables of [s]. *)
Record lists (s : ProfileService) (rows : Rows) : Prop := {
  ls_profiles : listed (profile_rows (store s)) (row_profiles rows);
  ls_models : listed (model_rows (store s)) (row_models rows);
  ls_properties : listed (property_rows (store s)) (row_properties rows);
  ls_overrides : listed (override_rows (store s)) (row_overrides rows);
  ls_bindings : listed (binding_rows (store s)) (row_bindings rows (binding_rows (store s)));
}.

(** The state with the count of changes a start begins with. *)
Definition restarted (s : ProfileService) : ProfileService :=
  MkProfileService (profiles s) (builtIns s) (profileIDsByIdentifier s) (bindings s) (bindingsByKey s)
    (bindingsByModel s) (customProperties s) (enumOverrides s) (customModels s) (store s) 0.

(** The operations that change the state, when they succeed; pruning changes it even when
    it fails half-way. *)
Inductive pstep : ProfileService -> ProfileService -> Prop :=
| step_create io uuid item s s' r : Create io uuid item s = Ok (s', r) -> pstep s s'
| step_update io id item s s' r : Update io id item s = Ok (s', r) -> pstep s s'
| step_delete io id s s' : Delete io id s = Ok s' -> pstep s s'
| step_import io uuids items s s' r : Import io uuids items s = Ok (s', r) -> pstep s s'
| step_create_binding io random item s s' r : CreateBinding io random item s = Ok (s', r) -> pstep s s'
| step_update_binding io id item s s' r : UpdateBinding io id item s = Ok (s', r) -> pstep s s'
| step_delete_binding io id s s' : DeleteBinding io id s = Ok s' -> pstep s s'
| step_prune_orphaned io known configured s s' n e :
    PruneOrphanedBindings io known configured s = (s', n, e) -> pstep s s'
| step_prune_provider io providerID configured s s' n e :
    PruneProviderBindings io providerID configured s = (s', n, e) -> pstep s s'
| step_create_model io item s s' r : CreateCustomModel io item s = Ok (s', r) -> pstep s s'
| step_delete_model io t s s' : DeleteCustomModel io t s = Ok s' -> pstep s s'
| step_create_property io item s s' r : CreateCustomModelProperty io item s = Ok (s', r) -> pstep s s'
| step_update_property io id item s s' r : UpdateCustomModelProperty io id item s = Ok (s', r) -> pstep s s'
| step_delete_property io id s s' : DeleteCustomModelProperty io id s = Ok s' -> pstep s s'
| step_upsert_override io item s s' r : UpsertModelEnumOverride io item s = Ok (s', r) -> pstep s s'
| step_delete_override io id s s' : DeleteModelEnumOverride io id s = Ok s' -> pstep s s'.

(** The service does not check all that a start asks.  A careful operation is one that also
    keeps the types of the profiles in use, keeps identifiers and identities apart, does not
    change a custom property in use, and does not delete a model that has an option list. *)
Record careful (s s' : ProfileService) : Prop := {
  ca_step : pstep s s';
  ca_types id b p p' : bindings s !! id = Some b ->
    profileLocked s (mb_ProfileID b) = Some p -> profileLocked s' (mb_ProfileID b) = Some p' ->
    pr_InputType p' = pr_InputType p /\ pr_OutputType p' = pr_OutputType p;
  ca_apart : identifiers_apart s';
  ca_property io id item r current : UpdateCustomModelProperty io id item s = Ok (s', r) ->
    property_by_id s id = Some current -> forall i b, bindings s !! i = Some b ->
    mb_DeviceType b = cmp_DeviceType current -> ModelPath b <> custom_path current;
  ca_model io t : DeleteCustomModel io t s = Ok s' ->
    forall k o, enumOverrides s !! k = Some o -> eo_DeviceType o <> t;
}.

(** ** Lemmas on the index by key *)

Lemma string_le_trans : Transitive string_le.
Proof. intros a b c. unfold string_le. apply str_leb_trans. Qed.
Lemma string_le_total a b : string_le a b \/ string_le b a.
Proof. apply str_leb_total. Qed.
Lemma string_le_antisym : AntiSymm (=) string_le.
Proof. intros a b. apply str_leb_antisym. Qed.
#[local] Existing Instances string_le_trans string_le_antisym.
#[local] Instance string_le_Total : Total string_le := string_le_total.

Lemma sort_strings_spec l : Sorted string_le (sort_strings l) /\ sort_strings l ≡ₚ l.
Proof. unfold sort_strings. split; [apply Sorted_merge_sort; apply _|apply merge_sort_Permutation]. Qed.

Lemma existsb_id id ids : existsb (fun current => current =s id) ids = true <-> id ∈ ids.
Proof.
  rewrite existsb_exists. split.
  - intros (x & Hx & ->%bool_decide_eq_true). by apply list_elem_of_In.
  - intros H. exists id. split; [by apply list_elem_of_In|]. by apply bool_decide_eq_true.
Qed.

Lemma remove_id_sublist id ids : remove_id id ids `sublist_of` ids.
Proof.
  induction ids as [|x ids IH]; simpl; [constructor|]. case_bool_decide; [by apply sublist_cons|by apply sublist_skip].
Qed.

Lemma elem_of_remove_id id ids x : NoDup ids -> x ∈ remove_id id ids <-> x ∈ ids /\ x <> id.
Proof.
  induction 1 as [|y ids Hy Hnd IH]; simpl; [set_solver|]. case_bool_decide as E.
  - subst. split; [intros H; split; [by right|by intros ->]|]. intros [[->|H]%elem_of_cons Hne]; done.
  - rewrite !elem_of_cons, IH. naive_solver.
Qed.

Lemma Sorted_remove_id id ids : Sorted string_le ids -> Sorted string_le (remove_id id ids).
Proof.
  intros H. apply StronglySorted_Sorted. apply Sorted_StronglySorted in H; [|apply _].
  revert H. induction ids as [|x ids IH]; simpl; [constructor|]. intros [Hs Hf]%StronglySorted_inv.
  case_bool_decide; [done|]. constructor; [by apply IH|]. rewrite Forall_forall in *.
  intros y Hy. apply Hf. eapply elem_of_sublist; [exact Hy|apply remove_id_sublist].
Qed.

Lemma byKey_empty : byKey_ok ∅ ∅.
Proof. split; [done|]. intros key id. rewrite lookup_empty. simpl. split; [set_solver|]. by intros (b & ? & _). Qed.

Lemma byKey_nodup bs m key : byKey_ok bs m -> NoDup (default [] (m !! key)).
Proof. intros H. destruct (m !! key) as [ids|] eqn:E; [by apply (bk_sorted _ _ H) in E as (_ & _ & ?)|constructor]. Qed.

Lemma byKey_unique bs m m' : byKey_ok bs m -> byKey_ok bs m' -> m = m'.
Proof.
  intros H H'. apply map_eq. intros key.
  assert (Hp : default [] (m !! key) ≡ₚ default [] (m' !! key)).
  { apply NoDup_Permutation; [by eapply byKey_nodup..|]. intros id. by rewrite (bk_scan _ _ H), (bk_scan _ _ H'). }
  destruct (m !! key) as [ids|] eqn:E, (m' !! key) as [ids'|] eqn:E'; simpl in Hp; try done.
  - f_equal. apply (bk_sorted _ _ H) in E as (_ & Hs & _). apply (bk_sorted _ _ H') in E' as (_ & Hs' & _).
    eapply (Sorted_unique string_le); done.
  - apply (bk_sorted _ _ H) in E as [Hne _]. by apply Permutation_nil_r in Hp.
  - apply (bk_sorted _ _ H') in E' as [Hne _]. by apply Permutation_nil_l in Hp.
Qed.

Lemma byKey_add bs m id b :
  byKey_ok bs m -> bs !! id = None -> byKey_ok (<[id := b]> bs) (addBindingKeyLocked (Key b) id m).
Proof.
  intros H Hid. unfold addBindingKeyLocked. set (ids := default [] (m !! Key b)).
  assert (Hn : id ∉ ids).
  { intros Hin. apply (bk_scan _ _ H) in Hin as (b' & Hb' & _). congruence. }
  destruct (existsb _ ids) eqn:E; [by apply existsb_id in E|]. clear E.
  destruct (sort_strings_spec (ids ++ [id])) as [Hs Hp].
  assert (Hnd : NoDup (sort_strings (ids ++ [id]))).
  { rewrite Hp. apply NoDup_app. split_and!; [by eapply byKey_nodup| |apply NoDup_singleton].
    intros x Hx ->%list_elem_of_singleton. done. }
  split.
  - intros key l. destruct (decide (key = Key b)) as [->|Hne].
    + rewrite lookup_insert_eq. intros [= <-]. split_and!; [|done|done].
      intros E. rewrite E in Hp. apply Permutation_nil_l in Hp. by destruct ids.
    + rewrite lookup_insert_ne by done. apply (bk_sorted _ _ H).
  - intros key x. destruct (decide (key = Key b)) as [->|Hne].
    + rewrite lookup_insert_eq. simpl. rewrite Hp, elem_of_app, list_elem_of_singleton.
      unfold ids. rewrite (bk_scan _ _ H). split.
      * intros [(b' & Hb' & E)| ->]; [|exists b; by rewrite lookup_insert_eq].
        exists b'. rewrite lookup_insert_ne; [done|]. intros ->. congruence.
      * intros (b' & Hb' & E). destruct (decide (x = id)) as [->|]; [by right|left].
        rewrite lookup_insert_ne in Hb' by done. by exists b'.
    + rewrite lookup_insert_ne, (bk_scan _ _ H) by done. split.
      * intros (b' & Hb' & E). exists b'. rewrite lookup_insert_ne; [done|]. intros ->. congruence.
      * intros (b' & Hb' & E). destruct (decide (x = id)) as [->|]; [rewrite lookup_insert_eq in Hb'; congruence|].
        rewrite lookup_insert_ne in Hb' by done. by exists b'.
Qed.

Lemma byKey_remove bs m id b :
  byKey_ok bs m -> bs !! id = Some b -> byKey_ok (delete id bs) (removeBindingKeyLocked (Key b) id m).
Proof.
  intros H Hid. unfold removeBindingKeyLocked. set (ids := default [] (m !! Key b)).
  assert (Hnd : NoDup ids) by by eapply byKey_nodup.
  pose proof (fun x => elem_of_remove_id id ids x Hnd) as Hel.
  assert (Hs : Sorted string_le ids).
  { unfold ids. destruct (m !! Key b) eqn:E; [by apply (bk_sorted _ _ H) in E as (_ & ? & _)|constructor]. }
  apply (Sorted_remove_id id) in Hs. pose proof (sublist_NoDup _ _ Hnd (remove_id_sublist id ids)) as Hnd'.
  assert (Hscan : forall x, x ∈ remove_id id ids <-> exists b', delete id bs !! x = Some b' /\ Key b' = Key b).
  { intros x. rewrite Hel. unfold ids. rewrite (bk_scan _ _ H). split.
    - intros [(b' & Hb' & E) Hne]. exists b'. by rewrite lookup_delete_ne.
    - intros (b' & [Hne Hb']%lookup_delete_Some & E). split; [by exists b'|done]. }
  assert (Hother : forall key x, key <> Key b -> x ∈ default [] (m !! key) <->
    exists b', delete id bs !! x = Some b' /\ Key b' = key).
  { intros key x Hne. rewrite (bk_scan _ _ H). split.
    - intros (b' & Hb' & E). exists b'. rewrite lookup_delete_ne; [done|]. intros ->. congruence.
    - intros (b' & [_ Hb']%lookup_delete_Some & E). by exists b'. }
  destruct (remove_id id ids) as [|i l] eqn:El; split.
  - intros key l [_ Hl]%lookup_delete_Some. by apply (bk_sorted _ _ H) in Hl.
  - intros key x. destruct (decide (key = Key b)) as [->|Hne]; [rewrite lookup_delete_eq; simpl; apply Hscan|].
    rewrite lookup_delete_ne by done. by apply Hother.
  - intros key l' [[<- <-]|[_ Hl]]%lookup_insert_Some; [done|]. by apply (bk_sorted _ _ H) in Hl.
  - intros key x. destruct (decide (key = Key b)) as [->|Hne]; [rewrite lookup_insert_eq; simpl; apply Hscan|].
    rewrite lookup_insert_ne by done. by apply Hother.
Qed.

(** ** The index by model path *)

Lemma byModel_add bs m b :
  byModel_ok bs m -> bs !! mb_ID b = None ->
  (EffectiveStage b = StageProvider -> m !! ModelKey b = None) ->
  byModel_ok (<[mb_ID b := b]> bs)
    (if is_provider (EffectiveStage b) then <[ModelKey b := mb_ID b]> m else m).
Proof.
  intros H Hid Hfree key id. unfold is_provider.
  assert (Hold : (exists b', bs !! id = Some b' /\ EffectiveStage b' = StageProvider /\ ModelKey b' = key) <->
    m !! key = Some id) by (symmetry; apply H).
  assert (Hcase : (exists b', <[mb_ID b := b]> bs !! id = Some b' /\ EffectiveStage b' = StageProvider /\ ModelKey b' = key) <->
    (id = mb_ID b /\ EffectiveStage b = StageProvider /\ ModelKey b = key) \/ m !! key = Some id).
  { rewrite <- Hold. destruct (decide (id = mb_ID b)) as [->|Hne].
    - rewrite lookup_insert_eq. split; [intros (b' & [= <-] & ?); by left|].
      intros [(_ & ? & ?)|(b' & Hb' & _)]; [by exists b|congruence].
    - rewrite lookup_insert_ne by done. naive_solver. }
  rewrite Hcase. case_bool_decide as Es.
  - specialize (Hfree Es). rewrite lookup_insert_Some. split.
    + intros [[<- <-]|[Hne ?]]; [by left|by right].
    + intros [(-> & _ & <-)|Hk]; [by left|right]. split; [|done]. intros E. congruence.
  - split; [by right|]. intros [(_ & ? & _)|?]; [congruence|done].
Qed.

Lemma byModel_remove bs m id b :
  byModel_ok bs m -> bs !! id = Some b ->
  byModel_ok (delete id bs) (if is_provider (EffectiveStage b) then delete (ModelKey b) m else m).
Proof.
  intros H Hid key x. unfold is_provider.
  assert (Hcase : (exists b', delete id bs !! x = Some b' /\ EffectiveStage b' = StageProvider /\ ModelKey b' = key) <->
    x <> id /\ m !! key = Some x).
  { rewrite (H key x). split.
    - intros (b' & [? ?]%lookup_delete_Some & ?). split; [congruence|by exists b'].
    - intros (Hne & b' & ? & ?). exists b'. by rewrite lookup_delete_ne. }
  rewrite Hcase. case_bool_decide as Es.
  - assert (Hk : m !! ModelKey b = Some id) by (apply H; by exists b).
    rewrite lookup_delete_Some. split; [|naive_solver congruence]. intros [Hne Hm]. split; [|done].
    intros ->. apply H in Hm as (b' & ? & ? & ?). congruence.
  - split; [|by intros []]. intros Hm. split; [|done]. intros ->. apply H in Hm as (b' & ? & ? & ?). congruence.
Qed.

Lemma byModel_unique bs m m' : byModel_ok bs m -> byModel_ok bs m' -> m = m'.
Proof.
  intros H H'. apply map_eq. intros key. apply option_eq. intros id. by rewrite (H key id), (H' key id).
Qed.

(** ** Bindings enter and leave the memory *)

Lemma Key_stage a b : binding_ok a -> binding_ok b -> Key a = Key b -> EffectiveStage a = EffectiveStage b.
Proof.
  intros Ha Hb E. destruct (bo_stage _ Ha) as [[Ea _]|[Ea _]], (bo_stage _ Hb) as [[Eb _]|[Eb _]];
    rewrite Ea, Eb; try done; exfalso; revert E; unfold Key; rewrite Ea, Eb; simpl.
  - apply stages_apart.
  - intros E. symmetry in E. revert E. apply stages_apart.
Qed.

Lemma routed_link s b :
  routed s -> binding_ok b -> bindings s !! mb_ID b = None ->
  (EffectiveStage b = StageProvider -> bindingsByModel s !! ModelKey b = None) ->
  (EffectiveStage b = StageConsumer -> default [] (bindingsByKey s !! Key b) = []) ->
  routed (link_binding b s).
Proof.
  intros [Hv Hk Hm Hc] Hb Hid Hmodel Hkey. unfold routed, link_binding. simpl.
  assert (Hfresh : forall i x, bindings s !! i = Some x -> EffectiveStage b = StageConsumer -> Key b <> Key x).
  { intros i x Hx Es E. assert (Hin : i ∈ default [] (bindingsByKey s !! Key b)).
    { apply (bk_scan _ _ Hk). by exists x. }
    rewrite Hkey in Hin by done. set_solver. }
  split.
  - intros i x [[<- <-]|[_ Hx]]%lookup_insert_Some; [done|by apply Hv].
  - by apply byKey_add.
  - by apply byModel_add.
  - intros i i' x x' [[<- <-]|[Hne Hx]]%lookup_insert_Some [[<- <-]|[Hne' Hx']]%lookup_insert_Some Es E; try done.
    + by destruct (Hfresh _ _ Hx' Es).
    + apply Hv in Hx as Hok. destruct (Hfresh _ _ Hx); [|done].
      by rewrite <- (Key_stage x b) by (done || apply Hok).
    + by eapply Hc.
Qed.

Lemma routed_unlink s id b :
  routed s -> bindings s !! id = Some b -> routed (unlink_binding id b s).
Proof.
  intros [Hv Hk Hm Hc] Hid. unfold routed, unlink_binding. simpl. split.
  - intros i x [_ Hx]%lookup_delete_Some. by apply Hv.
  - by apply byKey_remove.
  - by apply byModel_remove.
  - intros i i' x x' [_ Hx]%lookup_delete_Some [_ Hx']%lookup_delete_Some. by eapply Hc.
Qed.

Lemma validated_binding s b u : validateBindingLocked s b = Ok u -> binding_ok b.
Proof.
  unfold validateBindingLocked. destruct (ValidateBinding b) eqn:E; [|done]. intros _. by apply ValidateBinding_ok in E.
Qed.

(** What the indexes hold once a binding has left, when the guards of an update pass. *)
Lemma unlinked_key s id b key : routed s -> bindings s !! id = Some b ->
  hasOtherBindingKeyLocked key id (bindingsByKey s) = false ->
  default [] (bindingsByKey (unlink_binding id b s) !! key) = [].
Proof.
  intros Hr Hid Ho. pose proof (routed_unlink _ _ _ Hr Hid) as Hr'.
  apply elem_of_nil_inv. intros x Hx. apply (bk_scan _ _ (bw_key _ _ _ Hr')) in Hx as (b' & Hb' & E).
  simpl in Hb'. apply lookup_delete_Some in Hb' as [Hne Hb'].
  rewrite <- not_true_iff_false in Ho. apply Ho, existsb_exists. exists x. split.
  - apply list_elem_of_In, (bk_scan _ _ (bw_key _ _ _ Hr)). by exists b'.
  - rewrite negb_true_iff. apply bool_decide_eq_false. congruence.
Qed.

Lemma unlinked_model s id b key : routed s -> bindings s !! id = Some b ->
  holds (fun owner => negb (owner =s id)) (bindingsByModel s !! key) = false ->
  bindingsByModel (unlink_binding id b s) !! key = None.
Proof.
  intros Hr Hid Ho. pose proof (routed_unlink _ _ _ Hr Hid) as Hr'.
  apply eq_None_not_Some. intros [x Hx].
  apply (bw_model _ _ _ Hr') in Hx as (b' & Hb' & Es & E).
  simpl in Hb'. apply lookup_delete_Some in Hb' as [Hne Hb'].
  assert (Hx : bindingsByModel s !! key = Some x) by (apply (bw_model _ _ _ Hr); by exists b').
  rewrite Hx in Ho. simpl in Ho. rewrite negb_false_iff in Ho. apply bool_decide_eq_true in Ho. congruence.
Qed.

(** ** Profiles enter and leave the memory *)

Lemma profiles_put ps bi ids item :
  profiles_wf ps bi ids -> validateProfile item = Ok tt -> bi !! pr_ID item = None ->
  (forall owner, ids !! pr_Identifier item = Some owner -> owner = pr_ID item) ->
  profiles_wf (<[pr_ID item := item]> ps) bi
    (<[pr_Identifier item := pr_ID item]>
       (match ps !! pr_ID item with Some current => delete (pr_Identifier current) ids | None => ids end)).
Proof.
  intros [Hb Hv Hi] Hval Hfree Hown. set (id := pr_ID item) in *. split; [done| |].
  - intros i p [[<- <-]|[_ Hp]]%lookup_insert_Some; [done|by apply Hv].
  - intros identifier x. set (ids' := match ps !! id with Some c => _ | None => ids end).
    assert (Hids' : forall i y, ids' !! i = Some y <-> y <> id /\ ids !! i = Some y).
    { intros i y. unfold ids'. rewrite (Hi i y). destruct (ps !! id) as [c|] eqn:Ec.
      - rewrite lookup_delete_Some, (Hi i y). split.
        + intros [Hne (p & Hp & E)]. split; [|by exists p]. intros ->.
          destruct Hp as [Hp|Hp]; [congruence|]. rewrite Ec in Hp. injection Hp as <-. congruence.
        + intros [Hne (p & Hp & E)]. split; [|by exists p]. intros <-. apply Hne.
          assert (H1 : ids !! pr_Identifier c = Some y) by (apply Hi; by exists p).
          assert (H2 : ids !! pr_Identifier c = Some id) by (apply Hi; exists c; by split; [right|]).
          congruence.
      - rewrite (Hi i y). split; [|by intros []]. intros (p & Hp & E). split; [|by exists p]. intros ->. destruct Hp; congruence. }
    rewrite lookup_insert_Some, Hids'. split.
    + intros [[<- <-]|[Hne [Hnid Hx]]].
      * exists item. split; [|done]. right. by rewrite lookup_insert_eq.
      * apply Hi in Hx as (p & Hp & E). exists p. split; [|done]. destruct Hp; [by left|right].
        by rewrite lookup_insert_ne.
    + intros (p & Hp & E). destruct (decide (x = id)) as [->|Hne].
      * left. destruct Hp as [Hp|Hp]; [congruence|]. rewrite lookup_insert_eq in Hp. by simplify_eq.
      * assert (Hx : ids !! identifier = Some x).
        { apply Hi. exists p. split; [|done]. destruct Hp as [Hp|Hp]; [by left|right]. by rewrite lookup_insert_ne in Hp. }
        right. split; [|done]. intros Ei. apply Hne, Hown. congruence.
Qed.

Lemma profiles_delete ps bi ids id current :
  profiles_wf ps bi ids -> ps !! id = Some current ->
  profiles_wf (delete id ps) bi (delete (pr_Identifier current) ids).
Proof.
  intros [Hb Hv Hi] Hid. split; [done| |].
  - intros i p [_ Hp]%lookup_delete_Some. by apply Hv.
  - assert (Hown : ids !! pr_Identifier current = Some id) by (apply Hi; exists current; by split; [right|]).
    destruct (Hv _ _ Hid) as (_ & _ & Hnb).
    intros identifier x. rewrite lookup_delete_Some, (Hi identifier x). split.
    + intros [Hne (p & Hp & E)]. exists p. split; [|done]. destruct Hp as [Hp|Hp]; [by left|right].
      rewrite lookup_delete_ne; [done|]. intros <-. congruence.
    + intros (p & Hp & E). split.
      * intros <-. assert (Hx : ids !! pr_Identifier current = Some x).
        { apply Hi. exists p. split; [|done]. destruct Hp as [Hp|[_ Hp]%lookup_delete_Some]; [by left|by right]. }
        assert (x = id) as -> by congruence. destruct Hp as [Hp|[Hp _]%lookup_delete_Some]; congruence.
      * exists p. split; [|done]. destruct Hp as [Hp|[_ Hp]%lookup_delete_Some]; [by left|by right].
Qed.

(** ** Maps by key, and their tables *)

Section keyed.
Context {A : Type} (key id : A -> string) (valid : A -> Prop).

(** The element [x] may enter: whatever it meets has its identifier. *)
Definition enters (x : A) (m : gmap string A) : Prop :=
  (forall k y, m !! k = Some y -> id y = id x -> k = key x) /\
  (forall y, m !! key x = Some y -> id y = id x).

Lemma keyed_put m x : keyed_wf key id valid m -> valid x -> enters x m -> keyed_wf key id valid (<[key x := x]> m).
Proof.
  intros [Hk Hi] Hx [He _]. split.
  - intros k y [[<- <-]|[_ Hy]]%lookup_insert_Some; [done|by apply Hk].
  - intros k k' y y' [[<- <-]|[Hne Hy]]%lookup_insert_Some [[<- <-]|[Hne' Hy']]%lookup_insert_Some E; try done.
    + by rewrite (He _ _ Hy').
    + by apply (He _ _ Hy).
    + by eapply Hi.
Qed.

Lemma keyed_delete m k : keyed_wf key id valid m -> keyed_wf key id valid (delete k m).
Proof.
  intros [Hk Hi]. split.
  - intros i y [_ Hy]%lookup_delete_Some. by apply Hk.
  - intros i i' y y' [_ Hy]%lookup_delete_Some [_ Hy']%lookup_delete_Some. by eapply Hi.
Qed.

Lemma rows_put rows m x : keyed_wf key id valid m -> rows_of id rows m -> enters x m ->
  rows_of id (<[id x := x]> rows) (<[key x := x]> m).
Proof.
  intros [Hk Hi] Hr [He Ho] i y. rewrite lookup_insert_Some, (Hr i y). split.
  - intros [[<- <-]|[Hne [Hid (k & Hy)]]]; (split; [done|]).
    + exists (key x). by rewrite lookup_insert_eq.
    + exists k. rewrite lookup_insert_ne; [done|]. intros <-. apply Ho in Hy. congruence.
  - intros [Hid (k & [[<- <-]|[Hne Hy]]%lookup_insert_Some)]; [by left|right].
    split; [|split; [done|by exists k]]. intros E. apply Hne. symmetry. eapply He; [exact Hy|congruence].
Qed.

Lemma rows_delete rows m k x : keyed_wf key id valid m -> rows_of id rows m -> m !! k = Some x ->
  rows_of id (delete (id x) rows) (delete k m).
Proof.
  intros [Hk Hi] Hr Hx i y. rewrite lookup_delete_Some, (Hr i y). split.
  - intros [Hne [Hid (k' & Hy)]]. split; [done|]. exists k'. rewrite lookup_delete_ne; [done|].
    intros <-. congruence.
  - intros [Hid (k' & [Hne Hy]%lookup_delete_Some)]. split; [|split; [done|by exists k']].
    intros E. apply Hne. eapply Hi; [done..|congruence].
Qed.

(** The element with an identifier is the one a search finds. *)
Lemma by_id_found m i x : keyed_wf key id valid m -> find_by id i (values m) = Some x ->
  m !! key x = Some x /\ id x = i.
Proof.
  intros [Hk Hi] [Hx E]%find_by_some. split; [|done].
  apply list_elem_of_fmap in Hx as ([k y] & -> & Hx). apply elem_of_map_to_list in Hx. simpl in *.
  destruct (Hk _ _ Hx) as [<- _]. done.
Qed.

Lemma elem_of_values (m : gmap string A) x : x ∈ values m <-> exists k, m !! k = Some x.
Proof.
  unfold values. rewrite list_elem_of_fmap. split.
  - intros ([k y] & -> & H%elem_of_map_to_list). by exists k.
  - intros (k & H). exists (k, x). split; [done|]. by apply elem_of_map_to_list.
Qed.
End keyed.

(** ** The operations keep memory and tables together *)

Definition sound (s : ProfileService) : Prop := memory_wf s /\ mirrored s.

Lemma lift_store_ok {A} (r : result StoreError A) x : lift_store r = Ok x -> r = Ok x.
Proof. unfold lift_store. destruct r; [by intros [= ->]|done]. Qed.

Lemma upsert_row_ok {V} io valid clash id (row : V) rows rows' :
  upsert_row io valid clash id row rows = Ok rows' -> rows' = <[id := row]> rows.
Proof. unfold upsert_row. destruct io; [|done]. destruct (_ && _); [|done]. by intros [= <-]. Qed.

Lemma delete_row_ok {V} io id (rows rows' : gmap string V) :
  delete_row io id rows = Ok rows' -> rows' = delete id rows.
Proof. unfold delete_row. destruct io; [|done]. destruct (present _); [|done]. by intros [= <-]. Qed.

(** [table_case H] replaces a statement that succeeded by its effect on the rows. *)
Ltac table_case H :=
  apply lift_store_ok in H;
  match type of H with
  | (match ?r with Ok _ => _ | Err _ => _ end) = _ =>
      let E := fresh "Erow" in destruct r eqn:E; [|done]; injection H as <-;
      first [apply upsert_row_ok in E as ->|apply delete_row_ok in E as ->]
  end.

Lemma sound_notify s : sound s -> sound (notifyChanged s).
Proof. intros [[] []]. by split; constructor. Qed.

Lemma sound_notify_if (b : bool) s : sound s -> sound (if b then notifyChanged s else s).
Proof. destruct b; [apply sound_notify|done]. Qed.

Lemma save_profiles_ok io items rows rows' :
  each (save_profile_row io) rows items = Ok rows' -> rows' = fold_left (fun m p => <[pr_ID p := p]> m) items rows.
Proof.
  revert rows. induction items as [|p items IH]; intros rows; simpl; [by intros [= ->]|].
  unfold save_profile_row at 1. destruct (upsert_row _ _ _ _ _ _) eqn:E; [|done]. apply upsert_row_ok in E as ->. apply IH.
Qed.

Lemma sound_profiles s p i :
  sound s -> profiles_wf p (builtIns s) i ->
  sound (set_profiles s p i (with_profile_rows (store s) p)).
Proof. intros [[? ? ? ? ? ?] [? ? ? ? ? ?]] Hp. split; by constructor. Qed.

Lemma sound_custom_models s m :
  sound s -> (forall t x, m !! t = Some x -> cu_DeviceType x = t /\ model_valid x) ->
  sound (set_customModels s m (with_model_rows (store s) m)).
Proof. intros [[? ? ? ? ? ?] [? ? ? ? ? ?]] Hp. split; by constructor. Qed.

(** [ok H] follows the branch on which an operation succeeds. *)
Ltac ok H :=
  repeat match type of H with
  | (if ?b then _ else Err _) = Ok _ => let E := fresh "G" in destruct b eqn:E; [|discriminate H]
  | (match ?r with Ok _ => _ | Err _ => Err _ end) = Ok _ => let E := fresh "R" in destruct r eqn:E; [|discriminate H]
  | (match ?r with Some _ => Err _ | None => _ end) = Ok _ => let E := fresh "N" in destruct r eqn:E; [discriminate H|]
  | (match ?r with Some _ => _ | None => Err _ end) = Ok _ => let E := fresh "L" in destruct r eqn:E; [|discriminate H]
  end;
  repeat match goal with u : unit |- _ => destruct u end.

Lemma present_None {A} (o : option A) : negb (present o) = true -> o = None.
Proof. by destruct o. Qed.

Lemma owner_is (o : option string) id :
  negb (holds (fun owner => negb (owner =s id)) o) = true -> forall owner, o = Some owner -> owner = id.
Proof. intros H owner ->. simpl in H. rewrite negb_involutive in H. by apply bool_decide_eq_true in H. Qed.

(** One profile is saved: in the table, in the memory and in the index. *)
Lemma sound_put s item io t u :
  sound s -> validateProfile item = Ok u -> builtIns s !! pr_ID item = None ->
  (forall owner, profileIDsByIdentifier s !! pr_Identifier item = Some owner -> owner = pr_ID item) ->
  lift_store (SaveMappingProfile io item (store s)) = Ok t ->
  sound (set_profiles s (<[pr_ID item := item]> (profiles s))
    (<[pr_Identifier item := pr_ID item]> (match profiles s !! pr_ID item with
       | Some current => delete (pr_Identifier current) (profileIDsByIdentifier s)
       | None => profileIDsByIdentifier s end)) t).
Proof.
  destruct u. intros Hs Hv Hb Ho Ht. apply lift_store_ok in Ht. unfold SaveMappingProfile, SaveMappingProfiles in Ht. ok Ht.
  injection Ht as <-. apply save_profiles_ok in R as ->. simpl. pose proof Hs as [[_ Hn _ _ _ _] Hm].
  rewrite (mr_profiles _ Hm). apply sound_profiles; [done|]. by apply profiles_put.
Qed.

Lemma create_sound io uuid item s s' r : sound s -> Create io uuid item s = Ok (s', r) -> sound s'.
Proof.
  intros Hs H. unfold Create in H. ok H. injection H as <- <-.
  apply present_None in G, G0. unfold identifier_taken in N.
  pose proof (sound_put s _ io _ _ Hs R0 G ltac:(intros owner Hw; congruence) R1) as Hput. by rewrite G0 in Hput.
Qed.

Lemma update_sound io id item s s' r : sound s -> Update io id item s = Ok (s', r) -> sound s'.
Proof.
  intros Hs H. unfold Update in H. ok H. injection H as <- <-. apply sound_notify_if.
  apply present_None in G. pose proof (owner_is _ _ G1) as Ho. unfold identifier_taken in Ho.
  pose proof (sound_put s _ io _ _ Hs R G Ho R1) as Hput. simpl in Hput. by rewrite L in Hput.
Qed.

Lemma delete_sound io id s s' : sound s -> Delete io id s = Ok s' -> sound s'.
Proof.
  intros Hs H. unfold Delete in H. ok H. injection H as <-. apply lift_store_ok in R.
  unfold DeleteMappingProfile in R. ok R. injection R as <-. apply delete_row_ok in R0 as ->.
  pose proof Hs as [[_ Hn _ _ _ _] Hm]. rewrite (mr_profiles _ Hm). apply sound_profiles; [done|].
  by apply profiles_delete.
Qed.

(** *** Imports *)

Lemma prepare_import_ok uuids index seen seenI items l :
  prepare_import uuids index seen seenI items = Ok l ->
  Forall (fun p => validateProfile p = Ok tt /\ (pr_ID p ∉ seen) /\ (pr_Identifier p ∉ seenI)) l /\
  NoDup (pr_ID <$> l) /\ NoDup (pr_Identifier <$> l).
Proof.
  revert index seen seenI l. induction items as [|item items IH]; intros index seen seenI l H; simpl in H.
  { injection H as <-. split_and!; constructor. }
  ok H. injection H as <-. rewrite negb_true_iff in G, G0.
  apply bool_decide_eq_false in G, G0. apply IH in R1 as (Hf & Hi & Hn).
  rewrite Forall_forall in Hf. split_and!.
  - constructor; [by split_and!|]. apply Forall_forall. intros p Hp.
    destruct (Hf p Hp) as (? & ? & ?). split_and!; [done|set_solver..].
  - rewrite fmap_cons. constructor; [|done]. intros (p & E & Hp)%list_elem_of_fmap.
    destruct (Hf p Hp) as (_ & ? & _). set_solver.
  - rewrite fmap_cons. constructor; [|done]. intros (p & E & Hp)%list_elem_of_fmap.
    destruct (Hf p Hp) as (_ & _ & ?). set_solver.
Qed.

(** What the second loop asks of one profile. *)
Record importable (s : ProfileService) (item : Profile) : Prop := {
  im_builtin : builtIns s !! pr_ID item = None;
  im_version p : profiles s !! pr_ID item = Some p -> pr_Version p < pr_Version item;
  im_owner owner : profileIDsByIdentifier s !! pr_Identifier item = Some owner -> owner = pr_ID item;
  im_runtime : validateRuntimeProfileUpdate item (bindings s) (pr_ID item) = Ok tt;
}.

Lemma check_import_ok s index l n : each (check_import s) index l = Ok n -> Forall (importable s) l.
Proof.
  revert index. induction l as [|item l IH]; intros index H; simpl in H; [constructor|].
  destruct (check_import s index item) as [n'|] eqn:E; [|done]. constructor; [|by eapply IH].
  unfold check_import in E. ok E. apply present_None in G. split; [done| |by apply owner_is|done].
  intros p Hp. rewrite Hp in G0. simpl in G0. apply negb_true_iff, Z.leb_gt in G0. done.
Qed.

Lemma import_one_eq s item : import_one s item =
  set_profiles s (profiles (import_one s item)) (profileIDsByIdentifier (import_one s item)) (store s).
Proof. done. Qed.

Lemma import_fold l s :
  named s -> Forall (fun p => validateProfile p = Ok tt) l ->
  Forall (fun p => builtIns s !! pr_ID p = None) l -> NoDup (pr_Identifier <$> l) ->
  Forall (fun p => forall owner, profileIDsByIdentifier s !! pr_Identifier p = Some owner -> owner = pr_ID p) l ->
  exists ids, fold_left import_one l s =
    set_profiles s (fold_left (fun m p => <[pr_ID p := p]> m) l (profiles s)) ids (store s) /\
    profiles_wf (fold_left (fun m p => <[pr_ID p := p]> m) l (profiles s)) (builtIns s) ids.
Proof.
  revert s. induction l as [|item l IH]; intros s Hn Hv Hb Hnd Ho; simpl.
  { exists (profileIDsByIdentifier s). by destruct s. }
  rewrite fmap_cons in Hnd. apply NoDup_cons in Hnd as [Hni Hnd].
  apply Forall_cons in Hv as [Hv Hvs], Hb as [Hb Hbs], Ho as [Ho Hos].
  pose proof (profiles_put _ _ _ _ Hn Hv Hb Ho) as Hput.
  destruct (IH (import_one s item)) as (ids & E & Hwf); [exact Hput|done|done|done| |].
  - rewrite Forall_forall in *. intros p Hp owner. simpl.
    intros [[E _]|[_ Hold]]%lookup_insert_Some.
    + exfalso. apply Hni. rewrite E. by apply list_elem_of_fmap_2.
    + apply (Hos p Hp). destruct (profiles s !! pr_ID item); [|done]. by apply lookup_delete_Some in Hold as [_ ?].
  - exists ids. rewrite E. split; [done|exact Hwf].
Qed.

Lemma import_sound io uuids items s s' r : sound s -> Import io uuids items s = Ok (s', r) -> sound s'.
Proof.
  intros Hs H. unfold Import in H. ok H. lazymatch type of R with _ = Ok ?x => rename x into l end.
  injection H as <- <-. apply sound_notify_if.
  apply lift_store_ok in R1. unfold SaveMappingProfiles in R1. ok R1. injection R1 as <-.
  apply save_profiles_ok in R2 as ->. pose proof Hs as [[_ Hn _ _ _ _] Hm]. rewrite (mr_profiles _ Hm).
  apply prepare_import_ok in R as (Hf & _ & Hnd). apply check_import_ok in R0.
  destruct (import_fold l (set_store s (with_profile_rows (store s)
    (fold_left (fun m p => <[pr_ID p := p]> m) l (profiles s))))) as (ids & -> & Hwf); [exact Hn| | |done| |].
  - eapply Forall_impl; [exact Hf|]. by intros p (? & _).
  - eapply Forall_impl; [exact R0|]. intros p Hp. exact (im_builtin _ _ Hp).
  - eapply Forall_impl; [exact R0|]. intros p Hp. exact (im_owner _ _ Hp).
  - exact (sound_profiles s _ ids Hs Hwf).
Qed.

(** *** Bindings *)

Lemma path_eta p : MkParameterPath (pp_EndpointID p) (pp_CapabilityID p) (pp_PropertyID p) = p.
Proof. by destruct p. Qed.

Lemma stage_stable b b' : mb_Stage b' = EffectiveStage b -> EffectiveStage b' = EffectiveStage b.
Proof.
  intros E. unfold EffectiveStage at 1. rewrite E. unfold EffectiveStage.
  destruct (mb_Stage b) as [| |t]; [done..|]. by destruct (is_empty t) eqn:Et; rewrite ?Et.
Qed.

Lemma path_stable b b' : EffectiveStage b' = EffectiveStage b -> SourcePath b' = SourcePath b ->
  model_columns b' = ModelPath b -> ModelPath b' = ModelPath b.
Proof.
  intros Es Ep Em. unfold ModelPath at 1. change (MkParameterPath _ _ _) with (model_columns b').
  rewrite Es, Ep, Em. unfold ModelPath. cbv zeta.
  fold (model_columns b). destruct (is_provider (EffectiveStage b) && empty_path (model_columns b)) eqn:E.
  - by destruct (is_provider (EffectiveStage b) && empty_path (SourcePath b)).
  - by rewrite E.
Qed.

Lemma row_stage b : EffectiveStage (binding_row b) = EffectiveStage b.
Proof. by apply stage_stable. Qed.
Lemma row_path b : ModelPath (binding_row b) = ModelPath b.
Proof. apply path_stable; [apply row_stage|done|apply path_eta]. Qed.
Lemma canonical_stage b : EffectiveStage (canonicalBinding b) = EffectiveStage b.
Proof. apply stage_stable. unfold canonicalBinding. by destruct (is_provider _). Qed.
Lemma canonical_path b : ModelPath (canonicalBinding b) = ModelPath b.
Proof.
  apply path_stable; [apply canonical_stage|unfold canonicalBinding; by destruct (is_provider _)|].
  unfold canonicalBinding. destruct (is_provider _); apply path_eta.
Qed.

Lemma canonical_ID b : mb_ID (canonicalBinding b) = mb_ID b.
Proof. unfold canonicalBinding. cbv zeta. by destruct (is_provider (EffectiveStage b)). Qed.

Lemma row_fixed b : mb_Stage b = EffectiveStage b -> model_columns b = ModelPath b -> binding_row b = b.
Proof.
  intros Es Em. unfold binding_row. rewrite <- Es, <- Em. unfold model_columns. by destruct b.
Qed.

Lemma binding_row_canonical b : binding_row (canonicalBinding b) = canonicalBinding b.
Proof.
  apply row_fixed; [rewrite canonical_stage|rewrite canonical_path]; unfold canonicalBinding;
    destruct (is_provider _); try done; apply path_eta.
Qed.

Lemma resolved_row s b : binding_row b = b -> binding_row (resolve_profile s b) = resolve_profile s b.
Proof.
  intros E. apply (f_equal (fun x => with_ProfileID x (profileIDForReferenceLocked s (mb_ProfileID b)))) in E. exact E.
Qed.

Lemma sound_bindings s b k m :
  sound s -> bindings_wf b k m -> (forall id x, b !! id = Some x -> binding_row x = x) ->
  sound (set_bindings s b k m (with_binding_rows (store s) b)).
Proof. intros [[? ? ? ? ? ?] [? ? ? ? ? ?]] Hb Hc. split; by constructor. Qed.

Lemma save_binding_ok io item s t : sound s -> binding_row item = item ->
  lift_store (SaveMappingBinding io item (store s)) = Ok t ->
  t = with_binding_rows (store s) (<[mb_ID item := item]> (bindings s)).
Proof.
  intros [_ Hm] Hrow H. apply lift_store_ok in H. unfold SaveMappingBinding in H. ok H. injection H as <-.
  apply upsert_row_ok in R as ->. by rewrite Hrow, (mr_bindings _ Hm).
Qed.

Lemma delete_binding_ok io id s t : sound s ->
  DeleteMappingBinding io id (store s) = Ok t -> t = with_binding_rows (store s) (delete id (bindings s)).
Proof.
  intros [_ Hm] H. unfold DeleteMappingBinding in H. ok H. injection H as <-.
  apply delete_row_ok in R as ->. by rewrite (mr_bindings _ Hm).
Qed.

(** The guards on a new route, with the indexes the binding is checked against. *)
Lemma provider_free s b : negb (is_provider (EffectiveStage b) && present (bindingsByModel s !! ModelKey b)) = true ->
  EffectiveStage b = StageProvider -> bindingsByModel s !! ModelKey b = None.
Proof. intros G E. rewrite E in G. by apply present_None. Qed.

Lemma consumer_free s b :
  negb (is_consumer (EffectiveStage b) && (0 <? List.length (default [] (bindingsByKey s !! Key b)))%nat) = true ->
  EffectiveStage b = StageConsumer -> default [] (bindingsByKey s !! Key b) = [].
Proof. intros G E. rewrite E in G. by destruct (default [] _). Qed.

Lemma create_binding_sound io random item s s' r :
  sound s -> CreateBinding io random item s = Ok (s', r) -> sound s'.
Proof.
  intros Hs H. unfold CreateBinding in H. destruct (if is_empty (mb_ID item) then _ else _) as [id|]; [|done].
  pose proof (resolved_row s _ (binding_row_canonical (with_mb_ID item id))) as Hrow.
  cbv zeta in H. set (b := resolve_profile s _) in *. clearbody b. ok H. injection H as <- <-. apply sound_notify.
  apply validated_binding in R. apply present_None in G. apply (save_binding_ok io) in R0 as ->; [|done..].
  pose proof (routed_link s b (mw_routed _ (proj1 Hs)) R G (provider_free _ _ G1) (consumer_free _ _ G0)) as Hr.
  refine (sound_bindings s _ _ _ Hs Hr _). intros i x Hx. cbn in Hx.
  apply lookup_insert_Some in Hx as [[<- <-]|[_ Hx]]; [done|].
  by eapply (mr_canonical _ (proj2 Hs)).
Qed.

Lemma update_binding_sound io id item s s' r :
  sound s -> UpdateBinding io id item s = Ok (s', r) -> sound s'.
Proof.
  intros Hs H. unfold UpdateBinding in H.
  pose proof (resolved_row s _ (binding_row_canonical (with_mb_ID item id))) as Hrow.
  assert (Hid : mb_ID (resolve_profile s (canonicalBinding (with_mb_ID item id))) = id).
  { exact (canonical_ID (with_mb_ID item id)). }
  cbv zeta in H. set (b := resolve_profile s _) in *. clearbody b. ok H.
  match goal with E : bindings s !! id = Some ?x |- _ => rename x into current end.
  injection H as <- <-. apply sound_notify. apply validated_binding in R.
  apply (save_binding_ok io) in R0 as ->; [|done..]. pose proof (mw_routed _ (proj1 Hs)) as Hr.
  assert (Hr' : routed (link_binding b (unlink_binding id current s))).
  { apply routed_link; [by apply routed_unlink|done|simpl; rewrite Hid; apply lookup_delete_eq| |].
    - intros E. rewrite E in G0. apply (unlinked_model s id current); [done..|]. by apply negb_true_iff in G0.
    - intros E. rewrite E in G. apply (unlinked_key s id current); [done..|]. by apply negb_true_iff in G. }
  rewrite <- Hid at 1. unfold link_binding, unlink_binding. simpl. rewrite Hid, <- (insert_delete_eq (bindings s)).
  unfold link_binding, unlink_binding, routed in Hr'. simpl in Hr'. rewrite Hid in Hr'.
  refine (sound_bindings s _ _ _ Hs Hr' _).
  intros i x Hx. cbn in Hx. apply lookup_insert_Some in Hx as [[<- <-]|[_ [_ Hx]%lookup_delete_Some]]; [done|].
  by eapply (mr_canonical _ (proj2 Hs)).
Qed.

Lemma unlink_sound id b s : sound s -> bindings s !! id = Some b ->
  sound (unlink_binding id b (set_store s (with_binding_rows (store s) (delete id (bindings s))))).
Proof.
  intros Hs Hb. refine (sound_bindings s _ _ _ Hs (routed_unlink s id b (mw_routed _ (proj1 Hs)) Hb) _).
  intros i x Hx. cbn in Hx. apply lookup_delete_Some in Hx as [_ Hx]. by eapply (mr_canonical _ (proj2 Hs)).
Qed.

Lemma delete_binding_sound io id s s' : sound s -> DeleteBinding io id s = Ok s' -> sound s'.
Proof.
  intros Hs H. unfold DeleteBinding in H. ok H. injection H as <-. apply sound_notify.
  apply lift_store_ok in R. apply (delete_binding_ok io) in R as ->; [|done]. by apply unlink_sound.
Qed.

Lemma prune_loop_sound io ids s s' n e : sound s -> prune_loop io ids s = (s', n, e) -> sound s'.
Proof.
  revert s s' n e. induction ids as [|id ids IH]; intros s s' n e Hs H; simpl in H; [by injection H as <- _ _|].
  destruct (DeleteMappingBinding (io id) id (store s)) as [t|] eqn:E; [|by injection H as <- _ _].
  destruct (prune_loop io ids _) as [[s1 n1] e1] eqn:E1. injection H as <- _ _. eapply IH; [|exact E1].
  assert (Hsome : is_Some (bindings s !! id)).
  { clear E1. unfold DeleteMappingBinding in E. ok E. unfold delete_row in R. ok R. rewrite <- (mr_bindings _ (proj2 Hs)).
    destruct (binding_rows (store s) !! id); [by eexists|done]. }
  destruct Hsome as [b Hb]. rewrite Hb. apply delete_binding_ok in E as ->; [|done]. by apply unlink_sound.
Qed.

Lemma prune_sound io f s s' n e : sound s -> pruneBindings io f s = (s', n, e) -> sound s'.
Proof.
  intros Hs H. unfold pruneBindings in H. destruct (prune_loop _ _ _) as [[s1 n1] e1] eqn:E. injection H as <- _ _.
  apply sound_notify_if. by eapply prune_loop_sound.
Qed.

(** *** Custom models, properties and option lists *)

Lemma sound_properties s m rows :
  sound s -> keyed_wf custom_key cmp_ID property_valid m -> rows_of cmp_ID rows m ->
  sound (set_customProperties s m (with_property_rows (store s) rows)).
Proof. intros [[? ? ? ? ? ?] [? ? ? ? ? ?]] Hk Hr. split; by constructor. Qed.

Lemma sound_overrides s m rows :
  sound s -> keyed_wf override_key eo_ID override_valid m -> rows_of eo_ID rows m ->
  sound (set_enumOverrides s m (with_override_rows (store s) rows)).
Proof. intros [[? ? ? ? ? ?] [? ? ? ? ? ?]] Hk Hr. split; by constructor. Qed.

Lemma none_exists {A} (f : A -> bool) (m : gmap string A) :
  negb (existsb f (values m)) = true <-> forall k y, m !! k = Some y -> f y = false.
Proof.
  rewrite negb_true_iff, <- not_true_iff_false, existsb_exists. split.
  - intros H k y Hy. apply not_true_iff_false. intros Hf. apply H. exists y.
    split; [apply list_elem_of_In, elem_of_values; by exists k|done].
  - intros H (y & Hy & Hf). apply list_elem_of_In, elem_of_values in Hy as (k & Hy).
    by rewrite (H k y Hy) in Hf.
Qed.

Lemma create_model_sound io item s s' r : sound s -> CreateCustomModel io item s = Ok (s', r) -> sound s'.
Proof.
  intros Hs H. unfold CreateCustomModel in H. ok H. injection H as <- <-. apply sound_notify.
  apply lift_store_ok in R0. unfold SaveCustomModel in R0. ok R0. injection R0 as <-. apply upsert_row_ok in R1 as ->.
  rewrite (mr_models _ (proj2 Hs)). apply sound_custom_models; [done|].
  intros t x [[<- <-]|[_ Hx]]%lookup_insert_Some; [|by apply (mw_models _ (proj1 Hs))].
  split; [done|]. split; [done|]. by apply present_None.
Qed.

Lemma delete_model_sound io t s s' : sound s -> DeleteCustomModel io t s = Ok s' -> sound s'.
Proof.
  intros Hs H. unfold DeleteCustomModel in H. ok H. injection H as <-. apply sound_notify.
  apply lift_store_ok in R. unfold MappingStore.DeleteCustomModel in R. ok R. injection R as <-.
  apply delete_row_ok in R0 as ->. rewrite (mr_models _ (proj2 Hs)). apply sound_custom_models; [done|].
  intros t' x [_ Hx]%lookup_delete_Some. by apply (mw_models _ (proj1 Hs)).
Qed.

(** An operation that checks the owner of the key and the identifiers of the others. *)
Lemma create_property_sound io item s s' r :
  sound s -> CreateCustomModelProperty io item s = Ok (s', r) -> sound s'.
Proof.
  intros Hs H. unfold CreateCustomModelProperty in H. cbv zeta in H. set (p := with_custom_identity _ _) in *. ok H.
  injection H as <- <-. apply lift_store_ok in R0. unfold SaveCustomModelProperty in R0. ok R0. injection R0 as <-.
  apply upsert_row_ok in R1 as ->. pose proof (mw_properties _ (proj1 Hs)) as Hk.
  apply present_None in G1. rewrite none_exists in G2.
  assert (He : enters custom_key cmp_ID p (customProperties s)).
  { split; [|intros y Hy; congruence]. intros k y Hy E. apply G2 in Hy. by apply bool_decide_eq_false in Hy. }
  apply sound_properties; [done|by apply keyed_put|].
  apply (rows_put custom_key cmp_ID property_valid); [done|apply (mr_properties _ (proj2 Hs))|done].
Qed.

Lemma update_property_sound io id item s s' r :
  sound s -> UpdateCustomModelProperty io id item s = Ok (s', r) -> sound s'.
Proof.
  intros Hs H. unfold UpdateCustomModelProperty in H. cbv zeta in H.
  assert (Hid : cmp_ID (with_custom_identity item id) = id) by done.
  set (p := with_custom_identity _ _) in *. assert (Hp : with_custom_identity p (cmp_ID p) = p) by done.
  clearbody p. ok H. match goal with E : property_by_id s id = Some ?x |- _ => rename x into current end.
  injection H as <- <-. apply sound_notify. apply lift_store_ok in R0. unfold SaveCustomModelProperty in R0.
  ok R0. injection R0 as <-. apply upsert_row_ok in R1 as ->.
  pose proof (mw_properties _ (proj1 Hs)) as Hk. pose proof (mr_properties _ (proj2 Hs)) as Hr.
  apply (by_id_found _ _ _ _ _ _ Hk) in L as [Hcur Ecur].
  assert (He : enters custom_key cmp_ID p (delete (custom_key current) (customProperties s))).
  { split.
    - intros k y [Hne Hy]%lookup_delete_Some E. exfalso. apply Hne. eapply (kw_id _ _ _ _ Hk); [done..|congruence].
    - intros y [_ Hy]%lookup_delete_Some. rewrite Hy in G1. simpl in G1. rewrite negb_involutive in G1.
      apply bool_decide_eq_true in G1. congruence. }
  pose proof (keyed_delete _ _ _ _ (custom_key current) Hk) as Hk'.
  pose proof (rows_delete _ _ _ _ _ _ _ Hk Hr Hcur) as Hr'.
  pose proof (rows_put _ _ _ _ _ _ Hk' Hr' He) as Hr''.
  rewrite Ecur, Hid, insert_delete_eq in Hr''. rewrite Hid. apply sound_properties; [done|by apply keyed_put|done].
Qed.

Lemma delete_property_sound io id s s' : sound s -> DeleteCustomModelProperty io id s = Ok s' -> sound s'.
Proof.
  intros Hs H. unfold DeleteCustomModelProperty in H. ok H.
  match goal with E : property_by_id s id = Some ?x |- _ => rename x into current end.
  injection H as <-. apply sound_notify. apply lift_store_ok in R. unfold MappingStore.DeleteCustomModelProperty in R.
  ok R. injection R as <-. apply delete_row_ok in R0 as ->.
  pose proof (mw_properties _ (proj1 Hs)) as Hk. pose proof (mr_properties _ (proj2 Hs)) as Hr.
  apply (by_id_found _ _ _ _ _ _ Hk) in L as [Hcur <-].
  apply sound_properties; [done|by apply keyed_delete|]. by eapply rows_delete.
Qed.

Lemma upsert_override_sound io item s s' r :
  sound s -> UpsertModelEnumOverride io item s = Ok (s', r) -> sound s'.
Proof.
  intros Hs H. unfold UpsertModelEnumOverride in H. cbv zeta in H. set (o := if is_empty _ then _ else item) in *.
  clearbody o. ok H. injection H as <- <-. apply sound_notify. apply lift_store_ok in R0.
  unfold SaveModelEnumOverride in R0. ok R0. injection R0 as <-. apply upsert_row_ok in R1 as ->.
  rewrite none_exists in G2. pose proof (mw_overrides _ (proj1 Hs)) as Hk.
  assert (He : enters override_key eo_ID o (enumOverrides s)).
  { split.
    - intros k y Hy E. pose proof (G2 _ _ Hy) as Hf. apply (kw_key _ _ _ _ Hk) in Hy as [<- _].
      apply andb_false_iff in Hf as [Hf%bool_decide_eq_false|Hf%negb_false_iff]; [done|by apply bool_decide_eq_true in Hf].
    - intros y Hy. rewrite Hy in G1. simpl in G1. rewrite negb_involutive in G1. by apply bool_decide_eq_true in G1. }
  apply sound_overrides; [done|by apply keyed_put|].
  apply (rows_put override_key eo_ID override_valid); [done|apply (mr_overrides _ (proj2 Hs))|done].
Qed.

Lemma delete_override_sound io id s s' : sound s -> DeleteModelEnumOverride io id s = Ok s' -> sound s'.
Proof.
  intros Hs H. unfold DeleteModelEnumOverride in H. ok H.
  match goal with E : override_by_id s id = Some ?x |- _ => rename x into current end.
  injection H as <-. apply sound_notify. apply lift_store_ok in R. unfold MappingStore.DeleteModelEnumOverride in R.
  ok R. injection R as <-. apply delete_row_ok in R0 as ->.
  pose proof (mw_overrides _ (proj1 Hs)) as Hk. pose proof (mr_overrides _ (proj2 Hs)) as Hr.
  apply (by_id_found _ _ _ _ _ _ Hk) in L as [Hcur <-].
  apply sound_overrides; [done|by apply keyed_delete|]. by eapply rows_delete.
Qed.

(** ** Loading *)

(** The map a loop of insertions makes. *)
Lemma insert_all_lookup {A} (key : A -> string) l (m : gmap string A) k x : NoDup (key <$> l) ->
  fold_left (fun m x => <[key x := x]> m) l m !! k = Some x <->
  (x ∈ l /\ key x = k) \/ (m !! k = Some x /\ (k ∉ key <$> l)).
Proof.
  revert m. induction l as [|y l IH]; intros m Hnd; simpl.
  { split; [intros H; right; split; [done|set_solver]|]. intros [[H _]|[H _]]; [set_solver|done]. }
  rewrite fmap_cons in Hnd. apply NoDup_cons in Hnd as [Hy Hnd]. rewrite (IH _ Hnd), lookup_insert_Some. split.
  - intros [[Hx <-]|[[[<- <-]|[Hne Hm]] Hk]].
    + left. split; [by right|done].
    + left. split; [by left|done].
    + right. split; [done|]. rewrite ?fmap_cons. set_solver.
  - rewrite ?fmap_cons. intros [[[->|Hx]%elem_of_cons <-]|[Hm Hk]].
    + right. split; [by left|done].
    + left. done.
    + right. split; [right; set_solver|set_solver].
Qed.

(** Over the values of a map, the map itself. *)
Lemma insert_all_values {A} (key : A -> string) l (m : gmap string A) : NoDup (key <$> l) ->
  (forall x, x ∈ l <-> m !! key x = Some x) -> (forall k x, m !! k = Some x -> key x = k) ->
  fold_left (fun m x => <[key x := x]> m) l ∅ = m.
Proof.
  intros Hnd Hl Hk. apply map_eq. intros k. apply option_eq. intros x.
  rewrite insert_all_lookup, lookup_empty by done. split.
  - intros [[Hx <-]|[? _]]; [by apply Hl|done].
  - intros Hx. left. pose proof (Hk _ _ Hx) as <-. split; [by apply Hl|done].
Qed.

(** The rows a query lists, when the table holds the values of [m]. *)
Lemma listed_values {A} (key id : A -> string) (rows m : gmap string A) l :
  rows_of id rows m -> (forall k x, m !! k = Some x -> key x = k) -> listed rows l ->
  NoDup (key <$> l) /\ forall x, x ∈ l <-> m !! key x = Some x.
Proof.
  intros Hr Hk Hl.
  assert (Hin : forall x, x ∈ l <-> m !! key x = Some x).
  { intros x. rewrite Hl. change ((map_to_list rows).*2) with (values rows). rewrite elem_of_values. split.
    - intros (i & [_ (k & Hx)]%Hr). by rewrite (Hk _ _ Hx).
    - intros Hx. exists (id x). apply Hr. split; [done|by eexists]. }
  split; [|done].
  assert (Hnd : NoDup l).
  { rewrite Hl. apply NoDup_fmap_2_strong; [|apply NoDup_map_to_list].
    intros [i x] [j y] Hx%elem_of_map_to_list Hy%elem_of_map_to_list E. simpl in *. subst.
    apply Hr in Hx as [<- _], Hy as [<- _]. done. }
  apply NoDup_fmap_2_strong; [|done]. intros x y Hx%Hin Hy%Hin E. rewrite E in Hx. congruence.
Qed.

Lemma rows_self {A} (id : A -> string) (m : gmap string A) :
  (forall k x, m !! k = Some x -> id x = k) -> rows_of id m m.
Proof.
  intros Hk i x. split.
  - intros Hx. split; [by apply Hk|by exists i].
  - intros [<- (k & Hx)]. by rewrite (Hk _ _ Hx).
Qed.

(** *** Built-in profiles *)

Definition builtins_fine : bool :=
  forallb (fun p => is_ok (validateProfile p)) BuiltInProfiles &&
  bool_decide (NoDup (pr_ID <$> BuiltInProfiles)) && bool_decide (NoDup (pr_Identifier <$> BuiltInProfiles)).

Lemma builtins_checked : builtins_fine = true.
Proof. unfold builtins_fine. rewrite builtin_profiles_eq. vm_compute. reflexivity. Qed.

Lemma is_ok_tt {E} (r : result E unit) : is_ok r = true -> r = Ok tt.
Proof. by destruct r as [[]|]. Qed.

Lemma load_builtins l s :
  profiles s = ∅ -> named s -> Forall (fun p => validateProfile p = Ok tt) l ->
  NoDup (pr_ID <$> l) -> NoDup (pr_Identifier <$> l) ->
  Forall (fun p => builtIns s !! pr_ID p = None /\ profileIDsByIdentifier s !! pr_Identifier p = None) l ->
  exists ids, each load_builtin s l = Ok (set_builtIns s (fold_left (fun m p => <[pr_ID p := p]> m) l (builtIns s)) ids) /\
    profiles_wf ∅ (fold_left (fun m p => <[pr_ID p := p]> m) l (builtIns s)) ids.
Proof.
  revert s. induction l as [|p l IH]; intros s Hps Hn Hv Hi Hnd Hf; simpl.
  { exists (profileIDsByIdentifier s). unfold named in Hn. rewrite Hps in Hn. by destruct s. }
  apply Forall_cons in Hv as [Hv Hvs], Hf as [[Hp Hid] Hfs].
  rewrite fmap_cons in Hi, Hnd. apply NoDup_cons in Hi as [Hpi Hi], Hnd as [Hpn Hnd].
  unfold load_builtin at 1. rewrite Hv, Hid.
  destruct (IH (set_builtIns s (<[pr_ID p := p]> (builtIns s)) (<[pr_Identifier p := pr_ID p]> (profileIDsByIdentifier s))))
    as (ids & E & Hwf); [done| |done|done|done| |].
  - unfold named in *. rewrite Hps in Hn. simpl. rewrite Hps. destruct Hn as [Hb _ Hix]. split.
    + intros i q [[<- <-]|[_ Hq]]%lookup_insert_Some; [done|by apply Hb].
    + intros i q. by rewrite lookup_empty.
    + intros i x. rewrite lookup_insert_Some, (Hix i x). split.
      * intros [[<- <-]|[Hne (q & [Hq|Hq] & E)]]; [exists p; split; [left; apply lookup_insert_eq|done]| |done].
        exists q. split; [left|done]. rewrite lookup_insert_ne; [done|]. intros <-. congruence.
      * intros (q & [[[<- <-]|[Hne Hq]]%lookup_insert_Some|Hq] & E); [by left| |done].
        right. split; [|exists q; by split; [left|]]. intros E'. assert (Hx : profileIDsByIdentifier s !! i = Some x).
        { apply Hix. exists q. by split; [left|]. } congruence.
  - rewrite Forall_forall in *. intros q Hq. destruct (Hfs q Hq) as [? ?]. simpl. rewrite !lookup_insert_ne; [done| |].
    + intros E. apply Hpn. rewrite E. by apply list_elem_of_fmap_2.
    + intros E. apply Hpi. rewrite E. by apply list_elem_of_fmap_2.
  - exists ids. split; [exact E|exact Hwf].
Qed.

(** *** Stored profiles *)

Lemma load_profiles l s :
  named s -> Forall (fun p => validateProfile p = Ok tt) l -> NoDup (pr_ID <$> l) -> NoDup (pr_Identifier <$> l) ->
  Forall (fun p => builtIns s !! pr_ID p = None /\ profiles s !! pr_ID p = None /\
                   profileIDsByIdentifier s !! pr_Identifier p = None) l ->
  exists ids, each load_profile s l =
    Ok (set_profiles s (fold_left (fun m p => <[pr_ID p := p]> m) l (profiles s)) ids (store s)) /\
    profiles_wf (fold_left (fun m p => <[pr_ID p := p]> m) l (profiles s)) (builtIns s) ids.
Proof.
  revert s. induction l as [|p l IH]; intros s Hn Hv Hi Hnd Hf; simpl.
  { exists (profileIDsByIdentifier s). by destruct s. }
  apply Forall_cons in Hv as [Hv Hvs], Hf as [(Hb & Hp & Hid) Hfs].
  rewrite fmap_cons in Hi, Hnd. apply NoDup_cons in Hi as [Hpi Hi], Hnd as [Hpn Hnd].
  unfold load_profile at 1. rewrite Hb, Hv, Hid. simpl.
  pose proof (profiles_put _ _ _ _ Hn Hv Hb ltac:(intros owner Ho; congruence)) as Hput. rewrite Hp in Hput.
  destruct (IH (set_profiles s (<[pr_ID p := p]> (profiles s)) (<[pr_Identifier p := pr_ID p]> (profileIDsByIdentifier s))
    (store s))) as (ids & E & Hwf); [exact Hput|done|done|done| |].
  - rewrite Forall_forall in *. intros q Hq. destruct (Hfs q Hq) as (? & ? & ?). simpl.
    rewrite !lookup_insert_ne; [done| |].
    + intros E. apply Hpn. rewrite E. by apply list_elem_of_fmap_2.
    + intros E. apply Hpi. rewrite E. by apply list_elem_of_fmap_2.
  - exists ids. split; [exact E|exact Hwf].
Qed.

(** *** Identities: nothing is left to migrate *)

Lemma no_fields {E} (f : Fields) (e : E) u : (if (0 <? size f)%nat then Err e else Ok u) = Ok tt -> f = ∅.
Proof.
  intros H. apply (fields_error_ok f tt). unfold fields_error. destruct (0 <? size f)%nat; [discriminate H|done].
Qed.

Lemma validated_identity p : validateProfile p = Ok tt ->
  IsUUIDv7 (pr_ID p) = true /\ ValidStableID (pr_Identifier p) = true.
Proof.
  unfold validateProfile. destruct (Validate p); [|done]. cbv zeta. intros H. apply no_fields in H.
  rewrite !note_empty, !negb_false_iff in H. tauto.
Qed.

Lemma readable_kept p : validateProfile p = Ok tt ->
  readable_identifier p = pr_Identifier p /\ with_identity p (pr_ID p) (pr_Identifier p) = p.
Proof.
  intros [_ Hi]%validated_identity. split; [|by destruct p]. unfold readable_identifier.
  destruct (is_empty (pr_Identifier p)) eqn:E; [|done]. apply is_empty_true in E. by rewrite E in Hi.
Qed.

Lemma migrate_nothing uuids l n res ids :
  Forall (fun p => validateProfile p = Ok tt) l -> NoDup (pr_Identifier <$> l) ->
  Forall (fun p => ids !! pr_Identifier p = None) l ->
  exists n', each (migrate_one uuids) (n, MkMigrating res [] ids ids) l =
    Ok (n', MkMigrating (res ++ l) [] (fold_left (fun m p => <[pr_Identifier p := pr_ID p]> m) l ids)
              (fold_left (fun m p => <[pr_Identifier p := pr_ID p]> m) l ids)).
Proof.
  revert n res ids. induction l as [|p l IH]; intros n res ids Hv Hnd Hf; simpl.
  { exists n. by rewrite app_nil_r. }
  apply Forall_cons in Hv as [Hv Hvs], Hf as [Hp Hfs]. rewrite fmap_cons in Hnd. apply NoDup_cons in Hnd as [Hpn Hnd].
  destruct (validated_identity _ Hv) as [Hu _]. destruct (readable_kept _ Hv) as [Hr Hw].
  unfold migrate_one at 1. rewrite Hu, Hr. cbn [mg_identifiers mg_migrations mg_result mg_bindingProfileIDs].
  rewrite Hp, Hw, !bool_decide_eq_true_2 by done. cbn [negb orb].
  destruct (IH (S n) (res ++ [p]) (<[pr_Identifier p := pr_ID p]> ids)) as (n' & E); [done|done| |].
  - rewrite Forall_forall in *. intros q Hq. rewrite lookup_insert_ne; [by apply Hfs|].
    intros E. apply Hpn. rewrite E. by apply list_elem_of_fmap_2.
  - exists n'. etransitivity; [exact E|]. by rewrite <- app_assoc.
Qed.

Lemma moves_nothing moves (rows : gmap string Binding) :
  (forall i id, (i, id) ∈ moves -> i <> id -> forall bid b, rows !! bid = Some b -> mb_ProfileID b <> i) ->
  fold_left move_bindings moves rows = rows.
Proof.
  induction moves as [|[i id] moves IH]; intros H; simpl; [done|].
  assert (Hm : (if i =s id then rows else (fun b => if mb_ProfileID b =s i then with_ProfileID b id else b) <$> rows) = rows).
  { case_bool_decide as E; [done|]. apply map_eq. intros bid. rewrite lookup_fmap.
    destruct (rows !! bid) as [b|] eqn:Eb; simpl; [|done]. rewrite bool_decide_eq_false_2; [done|].
    eapply H; [left|done|done]. }
  rewrite Hm. apply IH. intros j jd Hj. apply H. by right.
Qed.

(** *** Custom models, properties and option lists *)

Lemma load_models l s :
  Forall model_valid l ->
  each load_model s l = Ok (set_customModels s (fold_left (fun m x => <[cu_DeviceType x := x]> m) l (customModels s)) (store s)).
Proof.
  revert s. induction l as [|x l IH]; intros s Hv; simpl; [by destruct s|].
  apply Forall_cons in Hv as [[Hx Hc] Hv]. unfold load_model at 1. rewrite Hx, Hc. simpl. by rewrite IH.
Qed.

Lemma load_properties l s :
  Forall (fun p => ValidateCustomModelProperty p = Ok tt /\ modelExistsLocked s (cmp_DeviceType p) = true /\
                   customProperties s !! custom_key p = None) l -> NoDup (custom_key <$> l) ->
  each load_property s l =
    Ok (set_customProperties s (fold_left (fun m x => <[custom_key x := x]> m) l (customProperties s)) (store s)).
Proof.
  revert s. induction l as [|x l IH]; intros s Hv Hnd; simpl; [by destruct s|].
  apply Forall_cons in Hv as [(Hx & He & Hn) Hv]. rewrite fmap_cons in Hnd. apply NoDup_cons in Hnd as [Hx' Hnd].
  unfold load_property at 1. rewrite Hx, Hn, He. simpl. rewrite IH; [done| |done].
  rewrite Forall_forall in *. intros p Hp. destruct (Hv p Hp) as (? & ? & ?). split_and!; [done..|].
  simpl. rewrite lookup_insert_ne; [done|]. intros E. apply Hx'. rewrite E. by apply list_elem_of_fmap_2.
Qed.

Lemma load_overrides l s :
  Forall (fun o => ValidateModelEnumOverride o = Ok tt /\ modelExistsLocked s (eo_DeviceType o) = true /\
                   enumOverrides s !! override_key o = None) l -> NoDup (override_key <$> l) ->
  each load_override s l =
    Ok (set_enumOverrides s (fold_left (fun m x => <[override_key x := x]> m) l (enumOverrides s)) (store s)).
Proof.
  revert s. induction l as [|x l IH]; intros s Hv Hnd; simpl; [by destruct s|].
  apply Forall_cons in Hv as [(Hx & He & Hn) Hv]. rewrite fmap_cons in Hnd. apply NoDup_cons in Hnd as [Hx' Hnd].
  unfold load_override at 1. rewrite Hx, Hn, He. simpl. rewrite IH; [done| |done].
  rewrite Forall_forall in *. intros p Hp. destruct (Hv p Hp) as (? & ? & ?). split_and!; [done..|].
  simpl. rewrite lookup_insert_ne; [done|]. intros E. apply Hx'. rewrite E. by apply list_elem_of_fmap_2.
Qed.

(** *** Bindings *)

Lemma load_bindings l s bs byKey byModel :
  routed s -> bindings_wf bs byKey byModel ->
  (forall id b, bindings s !! id = Some b -> bs !! id = Some b) ->
  Forall (fun b => bs !! mb_ID b = Some b /\ validateBindingLocked s b = Ok tt /\ resolve_profile s b = b /\
                   bindings s !! mb_ID b = None) l -> NoDup (mb_ID <$> l) ->
  exists k m, each load_binding s l =
    Ok (set_bindings s (fold_left (fun m b => <[mb_ID b := b]> m) l (bindings s)) k m (store s)) /\
    bindings_wf (fold_left (fun m b => <[mb_ID b := b]> m) l (bindings s)) k m.
Proof.
  intros Hr Hbs. revert s Hr. induction l as [|b l IH]; intros s Hr Hsub Hf Hnd; simpl.
  { exists (bindingsByKey s), (bindingsByModel s). by destruct s. }
  apply Forall_cons in Hf as [(Hb & Hv & Hres & Hfree) Hf]. rewrite fmap_cons in Hnd. apply NoDup_cons in Hnd as [Hbn Hnd].
  assert (Hkey : EffectiveStage b = StageConsumer -> default [] (bindingsByKey s !! Key b) = []).
  { intros Es. apply elem_of_nil_inv. intros i Hi. apply (bk_scan _ _ (bw_key _ _ _ Hr)) in Hi as (b' & Hb' & E).
    assert (mb_ID b = i) as Ei by (eapply (bw_consumer _ _ _ Hbs); [exact Hb|by apply Hsub|done|done]).
    congruence. }
  assert (Hmod : EffectiveStage b = StageProvider -> bindingsByModel s !! ModelKey b = None).
  { intros Es. apply eq_None_not_Some. intros [i Hi].
    apply (bw_model _ _ _ Hr) in Hi as (b' & Hb' & Es' & E).
    assert (H1 : byModel !! ModelKey b = Some i) by (apply (bw_model _ _ _ Hbs); exists b'; by split_and!; [apply Hsub|..]).
    assert (H2 : byModel !! ModelKey b = Some (mb_ID b)) by (apply (bw_model _ _ _ Hbs); by exists b). congruence. }
  unfold load_binding at 1. rewrite Hres, Hv. cbv zeta.
  assert (negb (is_consumer (EffectiveStage b) && (0 <? List.length (default [] (bindingsByKey s !! Key b)))%nat) = true) as ->.
  { unfold is_consumer. case_bool_decide as E; [|done]. by rewrite Hkey. }
  assert (negb (is_provider (EffectiveStage b) && present (bindingsByModel s !! ModelKey b)) = true) as ->.
  { unfold is_provider. case_bool_decide as E; [|done]. by rewrite Hmod. }
  destruct (IH (link_binding b s)) as (k & m & E & Hwf).
  - apply routed_link; try done. apply (bw_valid _ _ _ Hbs _ _ Hb).
  - simpl. intros i x [[<- <-]|[_ Hx]]%lookup_insert_Some; [done|by apply Hsub].
  - rewrite Forall_forall in *. intros x Hx. destruct (Hf x Hx) as (? & ? & ? & ?). split_and!; [done..|].
    simpl. rewrite lookup_insert_ne; [done|]. intros E. apply Hbn. rewrite E. by apply list_elem_of_fmap_2.
  - done.
  - exists k, m. split; [exact E|exact Hwf].
Qed.

(** ** A start on the tables of a running service *)

Lemma identifiers_in l (m : gmap string string) i id :
  fold_left (fun m p => <[pr_Identifier p := pr_ID p]> m) l m !! i = Some id ->
  m !! i = Some id \/ exists p, p ∈ l /\ pr_Identifier p = i /\ pr_ID p = id.
Proof.
  revert m. induction l as [|p l IH]; intros m H; simpl in H; [by left|].
  apply IH in H as [[[<- <-]|[_ H]]%lookup_insert_Some|(q & Hq & ? & ?)]; [right; exists p|by left|right; exists q];
    split_and!; try done; [by left|by right].
Qed.

Lemma index_unique ps bi ids ids' : profiles_wf ps bi ids -> profiles_wf ps bi ids' -> ids = ids'.
Proof.
  intros H H'. apply map_eq. intros i. apply option_eq. intros id. by rewrite (pw_index _ _ _ H), (pw_index _ _ _ H').
Qed.

Lemma start_builtins t : exists ids,
  each load_builtin (empty_profile_service t) BuiltInProfiles =
    Ok (set_builtIns (empty_profile_service t) builtin_table ids) /\ profiles_wf ∅ builtin_table ids.
Proof.
  pose proof builtins_checked as H. unfold builtins_fine in H. rewrite builtin_table_eq. unfold table_of.
  revert H. generalize BuiltInProfiles. intros l H.
  apply andb_true_iff in H as [[Hv Hi%bool_decide_eq_true]%andb_true_iff Hn%bool_decide_eq_true].
  apply (load_builtins l (empty_profile_service t)); [done| | |done|done|].
  - change (profiles_wf ∅ ∅ ∅). split; [by intros ? ? ?%lookup_empty_Some..|]. intros i id.
    rewrite lookup_empty. split; [done|]. intros (p & [Hp|Hp] & _); by apply lookup_empty_Some in Hp.
  - rewrite Forall_forall. intros p Hp. rewrite forallb_forall in Hv. by apply is_ok_tt, Hv, list_elem_of_In.
  - apply Forall_forall. intros p _. split; apply lookup_empty.
Qed.

Lemma migrate_store_nothing moves t :
  fold_left move_bindings moves (binding_rows t) = binding_rows t ->
  MigrateMappingProfileIdentities true [] moves t = Ok t.
Proof.
  intros H. unfold MigrateMappingProfileIdentities. destruct moves as [|x moves]; [done|]. simpl each.
  cbv iota beta. rewrite H. by destruct t.
Qed.

Lemma resolved_known s b u : validateBindingLocked s b = Ok u ->
  mb_ProfileID b = "" \/ is_Some (profileLocked s (mb_ProfileID b)).
Proof.
  unfold validateBindingLocked. destruct (ValidateBinding b); [|done]. cbv zeta. intros H. ok H.
  unfold check_types in H. destruct (is_empty (mb_ProfileID b)) eqn:E; [left; by apply is_empty_true|right].
  ok H. by eexists.
Qed.

Lemma resolve_known s b u : validateBindingLocked s b = Ok u -> resolve_profile s b = b.
Proof.
  intros H%resolved_known. assert (E : profileIDForReferenceLocked s (mb_ProfileID b) = mb_ProfileID b).
  { unfold profileIDForReferenceLocked. destruct (is_empty _) eqn:E; [by apply is_empty_true in E|].
    apply is_empty_false in E. destruct H as [H|[p ->]]; done. }
  unfold resolve_profile. rewrite E. by destruct b.
Qed.

Lemma identifier_not_empty s id : named s -> profileIDsByIdentifier s !! "" <> Some id.
Proof.
  intros Hn H. apply (pw_index _ _ _ Hn) in H as (p & Hp & E).
  assert (Hv : validateProfile p = Ok tt) by (destruct Hp as [Hp|Hp]; [by apply (pw_builtin _ _ _ Hn) in Hp as [_ ?]|
    by apply (pw_valid _ _ _ Hn) in Hp as (_ & ? & _)]).
  apply validated_identity in Hv as [_ Hv]. by rewrite E in Hv.
Qed.

(** Nothing of the stored profiles clashes with the built-in ones or with each other. *)
Lemma stored_profiles s ids1 l :
  sound s -> profiles_wf ∅ builtin_table ids1 -> listed (profile_rows (store s)) l ->
  NoDup (pr_ID <$> l) /\ (forall p, p ∈ l <-> profiles s !! pr_ID p = Some p) /\ NoDup (pr_Identifier <$> l) /\
  Forall (fun p => validateProfile p = Ok tt /\ builtin_table !! pr_ID p = None /\ ids1 !! pr_Identifier p = None) l.
Proof.
  intros [[Hb Hn _ _ _ _] Hm] H1 Hl. rewrite (mr_profiles _ Hm) in Hl.
  destruct (listed_values pr_ID pr_ID _ _ l (rows_self pr_ID (profiles s) ltac:(intros; by apply (pw_valid _ _ _ Hn)))
    ltac:(intros; by apply (pw_valid _ _ _ Hn)) Hl) as [Hnd Hin].
  assert (Hix : forall p, p ∈ l -> profileIDsByIdentifier s !! pr_Identifier p = Some (pr_ID p)).
  { intros p Hp%Hin. apply (pw_index _ _ _ Hn). exists p. by split; [right|]. }
  split_and!; [done|done| |].
  - apply NoDup_fmap_2_strong; [|by eapply NoDup_fmap_1]. intros p q Hp Hq E.
    pose proof (Hix p Hp) as Ep. pose proof (Hix q Hq) as Eq. rewrite E, Eq in Ep. injection Ep as Ep.
    apply Hin in Hp, Hq. congruence.
  - apply Forall_forall. intros p Hp. pose proof (Hix p Hp) as Ep. apply Hin in Hp as Hps.
    destruct (pw_valid _ _ _ Hn _ _ Hps) as (_ & Hv & Hnb). rewrite Hb in Hnb. split_and!; [done|done|].
    apply eq_None_not_Some. intros [x Hx]. apply (pw_index _ _ _ H1) in Hx as (q & [Hq|Hq] & E).
    + assert (Hx : profileIDsByIdentifier s !! pr_Identifier p = Some x).
      { apply (pw_index _ _ _ Hn). exists q. rewrite Hb. by split; [left|]. }
      congruence.
    + by apply lookup_empty_Some in Hq.
Qed.

Lemma routed_empty : bindings_wf ∅ ∅ ∅.
Proof.
  split; [by intros ? ? ?%lookup_empty_Some|apply byKey_empty| |by intros ? ? ? ? ?%lookup_empty_Some].
  intros key id. rewrite lookup_empty. split; [done|]. by intros (b & ?%lookup_empty_Some & _).
Qed.

(** The tables other than the profiles, from a state that has them all but is empty otherwise. *)
Lemma load_rest s rows s0 :
  sound s -> restartable s -> lists s rows ->
  s0 = MkProfileService (profiles s) (builtIns s) (profileIDsByIdentifier s) ∅ ∅ ∅ ∅ ∅ ∅ (store s) 0 ->
  (let! s1 := each load_model s0 (row_models rows) in
   let! s2 := each load_property s1 (row_properties rows) in
   let! s3 := each load_override s2 (row_overrides rows) in
   each load_binding s3 (row_bindings rows (binding_rows (store s)))) = Ok (restarted s).
Proof.
  intros Hs Hra Hls ->. pose proof Hs as [[_ _ Hr Hp Ho Hmod] Hm].
  pose proof (ls_models _ _ Hls) as Lm. rewrite (mr_models _ Hm) in Lm.
  destruct (listed_values cu_DeviceType _ _ _ _ (rows_self cu_DeviceType (customModels s) ltac:(intros; by apply Hmod))
    ltac:(intros; by apply Hmod) Lm) as [Nm Im].
  destruct (listed_values custom_key _ _ _ _ (mr_properties _ Hm) ltac:(intros; by apply (kw_key _ _ _ _ Hp))
    (ls_properties _ _ Hls)) as [Np Ip].
  destruct (listed_values override_key _ _ _ _ (mr_overrides _ Hm) ltac:(intros; by apply (kw_key _ _ _ _ Ho))
    (ls_overrides _ _ Hls)) as [No Io].
  pose proof (ls_bindings _ _ Hls) as Lb. rewrite (mr_bindings _ Hm) in Lb |- *.
  destruct (listed_values mb_ID _ _ _ _ (rows_self mb_ID (bindings s) ltac:(intros; by apply (bw_valid _ _ _ Hr)))
    ltac:(intros; by apply (bw_valid _ _ _ Hr)) Lb) as [Nb Ib].
  rewrite load_models.
  2:{ apply Forall_forall. intros x Hx%Im. by apply (Hmod _ _ Hx). }
  cbn [customModels set_customModels]. unfold Type_. rewrite (insert_all_values _ _ _ Nm Im) by (intros; by apply Hmod).
  rewrite load_properties; [|apply Forall_forall; intros x Hx%Ip|done].
  2:{ split_and!; [by apply (kw_key _ _ _ _ Hp _ _ Hx)|by apply (rs_properties _ Hra _ _ Hx)|apply lookup_empty]. }
  cbn [customProperties set_customProperties set_customModels].
  rewrite (insert_all_values _ _ _ Np Ip) by (intros; by apply (kw_key _ _ _ _ Hp)).
  rewrite load_overrides; [|apply Forall_forall; intros x Hx%Io|done].
  2:{ split_and!; [by apply (kw_key _ _ _ _ Ho _ _ Hx)|by apply (rs_overrides _ Hra _ _ Hx)|apply lookup_empty]. }
  cbn [enumOverrides set_enumOverrides set_customProperties set_customModels].
  rewrite (insert_all_values _ _ _ No Io) by (intros; by apply (kw_key _ _ _ _ Ho)).
  set (s3 := set_enumOverrides _ _ _).
  destruct (load_bindings (row_bindings rows (bindings s)) s3 (bindings s) (bindingsByKey s) (bindingsByModel s))
    as (k & m & -> & Hwf).
  - apply routed_empty.
  - exact Hr.
  - change (bindings s3) with (∅ : gmap string Binding). by intros ? ? ?%lookup_empty_Some.
  - apply Forall_forall. intros b Hb%Ib. pose proof (rs_bindings _ Hra _ _ Hb) as Hv.
    split_and!; [done|exact Hv|exact (resolve_known s b tt Hv)|apply lookup_empty].
  - done.
  - change (bindings s3) with (∅ : gmap string Binding) in *.
    rewrite (insert_all_values _ _ _ Nb Ib) in * by (intros; by apply (bw_valid _ _ _ Hr)).
    rewrite (byKey_unique _ _ _ (bw_key _ _ _ Hwf) (bw_key _ _ _ Hr)).
    by rewrite (byModel_unique _ _ _ (bw_model _ _ _ Hwf) (bw_model _ _ _ Hr)).
Qed.

Lemma restart_loads s uuids moves rows :
  sound s -> restartable s -> lists s rows -> (forall m, moves m ≡ₚ map_to_list m) ->
  NewProfileService true uuids moves rows (store s) = Ok (restarted s).
Proof.
  intros Hs Hra Hls Hmoves. unfold NewProfileService, load_service.
  destruct (start_builtins (store s)) as (ids1 & -> & H1). cbv iota beta.
  pose proof Hs as [[Hb Hn Hr Hp Ho Hmod] Hm].
  destruct (stored_profiles s ids1 _ Hs H1 (ls_profiles _ _ Hls)) as (Hnd & Hin & Hnd' & Hall).
  assert (Hall' := Hall). rewrite Forall_forall in Hall'.
  set (s1 := set_builtIns (empty_profile_service (store s)) builtin_table ids1).
  (* identities *)
  unfold migrateStoredProfileIdentities. change (profileIDsByIdentifier s1) with ids1.
  destruct (migrate_nothing uuids (row_profiles rows) 0 [] ids1) as (n & ->); [|done| |].
  { eapply Forall_impl; [exact Hall|]. by intros p (? & _). }
  { eapply Forall_impl; [exact Hall|]. by intros p (_ & _ & ?). }
  cbn [mg_migrations mg_result mg_bindingProfileIDs snd app]. change (deduplicateProfileMigrations []) with (@nil ProfileIdentityMigration).
  set (named_ids := fold_left _ (row_profiles rows) ids1).
  assert (Hids : forall i id, named_ids !! i = Some id -> profileIDsByIdentifier s !! i = Some id).
  { intros i id Hi. apply (pw_index _ _ _ Hn). rewrite Hb. apply identifiers_in in Hi as [Hi|(p & Hpl & <- & <-)].
    - apply (pw_index _ _ _ H1) in Hi as (q & [Hq|Hq] & E); [exists q; by split; [left|]|by apply lookup_empty_Some in Hq].
    - exists p. split; [right|done]. by apply Hin. }
  change (store s1) with (store s). rewrite migrate_store_nothing.
  2:{ apply moves_nothing. intros i id Hi Hne bid b Hbid. rewrite Hmoves in Hi. apply elem_of_map_to_list, Hids in Hi.
      rewrite (mr_bindings _ Hm) in Hbid. intros <-. apply Hne.
      destruct (resolved_known s b tt (rs_bindings _ Hra _ _ Hbid)) as [E|Hk]; [|by apply (rs_apart _ Hra)].
      rewrite E in Hi. by destruct (identifier_not_empty s id). }
  cbv iota beta. change (lift_load (Ok (store s))) with (@Ok LoadError _ (store s)). cbv iota beta.
  change (set_store s1 (store s)) with s1.
  destruct (load_profiles (row_profiles rows) s1) as (ids3 & -> & Hwf).
  { exact H1. }
  { eapply Forall_impl; [exact Hall|]. by intros p (? & _). }
  { done. }
  { done. }
  { eapply Forall_impl; [exact Hall|]. intros p (_ & ? & ?). split_and!; [done|apply lookup_empty|done]. }
  change (profiles s1) with (∅ : gmap string Profile) in *. change (builtIns s1) with builtin_table in Hwf.
  rewrite (insert_all_values _ _ _ Hnd Hin) in * by (intros; by apply (pw_valid _ _ _ Hn)).
  unfold named in Hn. rewrite Hb in Hn. rewrite (index_unique _ _ _ _ Hwf Hn). cbv iota beta.
  apply load_rest; [done..|]. by rewrite Hb.
Qed.

(** ** Careful operations keep the tables restartable *)

Lemma validate_transfer s s' b :
  validateBindingLocked s b = Ok tt ->
  (modelExistsLocked s (mb_DeviceType b) = true -> modelExistsLocked s' (mb_DeviceType b) = true) ->
  mp_Type <$> modelParameterLocked s' (mb_DeviceType b) (ModelPath b) =
    mp_Type <$> modelParameterLocked s (mb_DeviceType b) (ModelPath b) ->
  (forall p, mb_ProfileID b <> "" -> profileLocked s (mb_ProfileID b) = Some p ->
     exists p', profileLocked s' (mb_ProfileID b) = Some p' /\
     pr_InputType p' = pr_InputType p /\ pr_OutputType p' = pr_OutputType p /\
     validateRuntimeProfile p' (EffectiveStage b) = Ok tt) ->
  validateBindingLocked s' b = Ok tt.
Proof.
  unfold validateBindingLocked. destruct (ValidateBinding b); [|done]. cbv zeta. intros H He Hq Hp.
  set (q := modelParameterLocked s _ _) in *. set (q' := modelParameterLocked s' _ _) in *. clearbody q q'.
  set (c := if is_consumer _ then _ else _) in *. clearbody c. ok H.
  assert (negb (negb (is_empty (mb_DeviceType b)) && negb (modelExistsLocked s' (mb_DeviceType b))) = true) as ->.
  { destruct (is_empty (mb_DeviceType b)); [done|]. simpl in *. rewrite negb_involutive in *. by apply He. }
  assert (present q' = present q) as Hpq by (destruct q, q'; done).
  assert (holds (fun q => negb (numeric_parameter q)) q' = holds (fun q => negb (numeric_parameter q)) q) as ->.
  { destruct q, q'; try done. simpl in *. unfold numeric_parameter. by injection Hq as ->. }
  rewrite Hpq, G0, G1.
  assert (Ht : mp_Type (default zero_parameter q') = mp_Type (default zero_parameter q)).
  { destruct q, q'; try done. simpl in *. by injection Hq as ->. }
  unfold check_types in *. rewrite Hpq, Ht. destruct (is_empty (mb_ProfileID b)) eqn:Ee; [done|].
  apply is_empty_false in Ee. destruct (profileLocked s (mb_ProfileID b)) as [p|] eqn:E; [|done].
  destruct (Hp p Ee eq_refl) as (p' & -> & -> & -> & Hr). ok H. exact Hr.
Qed.

Lemma validated_runtime s b p : validateBindingLocked s b = Ok tt -> mb_ProfileID b <> "" ->
  profileLocked s (mb_ProfileID b) = Some p -> validateRuntimeProfile p (EffectiveStage b) = Ok tt.
Proof.
  unfold validateBindingLocked. destruct (ValidateBinding b); [|done]. cbv zeta. intros H Hne Hp. ok H.
  unfold check_types in H. apply is_empty_false in Hne. rewrite Hne, Hp in H. ok H. done.
Qed.

Lemma runtime_update_ok item bs id u : validateRuntimeProfileUpdate item bs id = Ok u ->
  forall i b, bs !! i = Some b -> mb_ProfileID b = id -> validateRuntimeProfile item (EffectiveStage b) = Ok tt.
Proof.
  unfold validateRuntimeProfileUpdate. intros H i b Hb <-. ok H.
  assert (Hin : b ∈ values bs) by (apply elem_of_values; by exists i).
  clear Hb H. revert N. induction (values bs) as [|x l IH]; [set_solver|]. simpl.
  apply elem_of_cons in Hin as [<-|Hin].
  - rewrite bool_decide_eq_true_2 by done. destruct (validateRuntimeProfile _ _) as [[]|]; done.
  - destruct (if mb_ProfileID x =s mb_ProfileID b then _ else _); [done|by apply IH].
Qed.

Lemma restartable_notify s : restartable s -> restartable (notifyChanged s).
Proof. intros [Hb Hp Ho Ha]. split; [exact Hb|exact Hp|exact Ho|exact Ha]. Qed.
Lemma restartable_notify_if (c : bool) s : restartable s -> restartable (if c then notifyChanged s else s).
Proof. destruct c; [apply restartable_notify|done]. Qed.

(** The profiles change: every profile in use is still there, with its types, and still fits. *)
Lemma restartable_profiles s ps ids t :
  restartable s -> identifiers_apart (set_profiles s ps ids t) ->
  (forall id b p, bindings s !! id = Some b -> mb_ProfileID b <> "" -> profileLocked s (mb_ProfileID b) = Some p ->
    exists p', profileLocked (set_profiles s ps ids t) (mb_ProfileID b) = Some p' /\
      pr_InputType p' = pr_InputType p /\ pr_OutputType p' = pr_OutputType p /\
      validateRuntimeProfile p' (EffectiveStage b) = Ok tt) ->
  restartable (set_profiles s ps ids t).
Proof.
  intros [Hb Hp Ho Ha] Ha' H. split; [|exact Hp|exact Ho|exact Ha'].
  intros id b Hid. eapply validate_transfer; [exact (Hb _ _ Hid)|done|done|]. intros p. by apply (H id).
Qed.

(** One profile is put. *)
Lemma restartable_put s s' item ids t :
  restartable s -> s' = set_profiles s (<[pr_ID item := item]> (profiles s)) ids t ->
  identifiers_apart s' ->
  (forall id b p p', bindings s !! id = Some b ->
    profileLocked s (mb_ProfileID b) = Some p -> profileLocked s' (mb_ProfileID b) = Some p' ->
    pr_InputType p' = pr_InputType p /\ pr_OutputType p' = pr_OutputType p) ->
  (forall i b, bindings s !! i = Some b -> mb_ProfileID b = pr_ID item ->
    validateRuntimeProfile item (EffectiveStage b) = Ok tt) ->
  restartable s'.
Proof.
  intros Hs -> Ha Ht Hr. apply restartable_profiles; [done|done|]. intros id b p Hb Hne Hp.
  assert (Hex : exists p', profileLocked (set_profiles s (<[pr_ID item := item]> (profiles s)) ids t) (mb_ProfileID b) = Some p'
    /\ validateRuntimeProfile p' (EffectiveStage b) = Ok tt).
  { unfold profileLocked in *. simpl. destruct (builtIns s !! mb_ProfileID b) eqn:Eb.
    - exists p. split; [done|]. eapply validated_runtime; [by apply (rs_bindings _ Hs id)|done|].
      unfold profileLocked. by rewrite Eb.
    - destruct (decide (mb_ProfileID b = pr_ID item)) as [E|E].
      + exists item. rewrite E, lookup_insert_eq. split; [done|by eapply Hr].
      + exists p. rewrite lookup_insert_ne by done. split; [done|].
        eapply validated_runtime; [by apply (rs_bindings _ Hs id)|done|]. unfold profileLocked. by rewrite Eb. }
  destruct Hex as (p' & Hp' & Hrun). exists p'. destruct (Ht id b p p' Hb Hp Hp') as [? ?]. by split_and!.
Qed.

Lemma locked_absent s id : builtIns s !! id = None -> profiles s !! id = None -> profileLocked s id = None.
Proof. unfold profileLocked. by intros -> ->. Qed.

Lemma create_restartable io uuid item s s' r :
  restartable s -> careful s s' -> Create io uuid item s = Ok (s', r) -> restartable s'.
Proof.
  intros Hs [_ Ht Ha _ _] H. unfold Create in H. ok H. injection H as <- <-.
  apply present_None in G, G0. eapply restartable_put; [exact Hs|reflexivity|exact Ha|exact Ht|].
  intros i b Hb E. exfalso. apply (rs_bindings _ Hs) in Hb. apply resolved_known in Hb as [Hb|[p Hp]].
  - apply validated_identity in R0 as [R0 _]. rewrite <- E, Hb in R0. done.
  - rewrite E, locked_absent in Hp by done. done.
Qed.

Lemma update_restartable io id item s s' r :
  restartable s -> careful s s' -> Update io id item s = Ok (s', r) -> restartable s'.
Proof.
  intros Hs [_ Ht Ha _ _] H. unfold Update in H. cbv zeta in H. ok H. injection H as <- <-.
  apply restartable_notify_if.
  eapply (restartable_put s _ (with_identity item (profileIDForReferenceLocked s id) _)); [exact Hs|reflexivity| | |].
  - destruct (profileUsedByBinding _ _); exact Ha.
  - destruct (profileUsedByBinding _ _); exact Ht.
  - by eapply runtime_update_ok.
Qed.

Lemma delete_restartable io id s s' : restartable s -> careful s s' -> Delete io id s = Ok s' -> restartable s'.
Proof.
  intros Hs [_ Ht Ha _ _] H. unfold Delete in H. cbv zeta in H. ok H. injection H as <-.
  rewrite none_exists in G0. apply restartable_profiles; [done|exact Ha|]. intros i b q Hb Hne Hq.
  exists q. split; [|split; [done|split; [done|]]].
  - unfold profileLocked in *. simpl. destruct (builtIns s !! mb_ProfileID b); [done|].
    rewrite lookup_delete_ne; [done|]. intros E. apply G0 in Hb. rewrite E in Hb. by apply bool_decide_eq_false in Hb.
  - eapply validated_runtime; [by apply (rs_bindings _ Hs i)|done|done].
Qed.

Lemma import_restartable io uuids items s s' r :
  named s -> restartable s -> careful s s' -> Import io uuids items s = Ok (s', r) -> restartable s'.
Proof.
  intros Hn Hs [_ Ht Ha _ _] H. unfold Import in H. cbv zeta in H. ok H.
  lazymatch type of R with _ = Ok ?x => rename x into l end. injection H as <- <-.
  apply restartable_notify_if. apply prepare_import_ok in R as (Hf & Hi & Hnd). apply check_import_ok in R0.
  lazymatch type of R1 with _ = Ok ?x => rename x into t end.
  destruct (import_fold l (set_store s t)) as (ids & E & _); [exact Hn| | |done| |].
  { eapply Forall_impl; [exact Hf|]. by intros p (? & _). }
  { eapply Forall_impl; [exact R0|]. intros p Hp. exact (im_builtin _ _ Hp). }
  { eapply Forall_impl; [exact R0|]. intros p Hp. exact (im_owner _ _ Hp). }
  rewrite E in *. clear E.
  change (set_profiles (set_store s t) ?pp ids ?u) with (set_profiles s pp ids t) in *. cbn [profiles set_store set_customModels] in *.
  set (ps := fold_left _ l (profiles s)) in *.
  assert (Ha' : identifiers_apart (set_profiles s ps ids t)) by (destruct (existsb _ l); exact Ha).
  assert (Ht' : forall id b p p', bindings s !! id = Some b ->
    profileLocked s (mb_ProfileID b) = Some p -> profileLocked (set_profiles s ps ids t) (mb_ProfileID b) = Some p' ->
    pr_InputType p' = pr_InputType p /\ pr_OutputType p' = pr_OutputType p) by (destruct (existsb _ l); exact Ht).
  apply restartable_profiles; [done|exact Ha'|]. intros i b p Hb Hne Hp.
  assert (Hex : exists p', profileLocked (set_profiles s ps ids t) (mb_ProfileID b) = Some p'
    /\ validateRuntimeProfile p' (EffectiveStage b) = Ok tt).
  { assert (Hold : validateRuntimeProfile p (EffectiveStage b) = Ok tt)
      by (eapply validated_runtime; [by apply (rs_bindings _ Hs i)|done|done]).
    unfold profileLocked in *. simpl. destruct (builtIns s !! mb_ProfileID b) eqn:Eb; [by exists p|].
    destruct (decide (mb_ProfileID b ∈ pr_ID <$> l)) as [(q & E & Hq)%list_elem_of_fmap|Hnin].
    - exists q. split; [apply insert_all_lookup; [done|]; left; done|].
      rewrite Forall_forall in R0. by eapply runtime_update_ok; [apply (im_runtime _ _ (R0 q Hq))|exact Hb|].
    - exists p. split; [|done]. apply insert_all_lookup; [done|]. by right. }
  destruct Hex as (p' & Hp' & Hrun). exists p'. destruct (Ht' i b p p' Hb Hp Hp') as [? ?]. by split_and!.
Qed.

(** The bindings change: the new ones are valid. *)
Lemma restartable_bindings s b k m t :
  restartable s -> (forall id x, b !! id = Some x -> validateBindingLocked s x = Ok tt) ->
  restartable (set_bindings s b k m t).
Proof. intros [_ Hp Ho Ha] Hb. split; [exact Hb|exact Hp|exact Ho|exact Ha]. Qed.

Lemma create_binding_restartable io random item s s' r :
  restartable s -> CreateBinding io random item s = Ok (s', r) -> restartable s'.
Proof.
  intros Hs H. unfold CreateBinding in H. destruct (if is_empty (mb_ID item) then _ else _) as [id|]; [|done].
  cbv zeta in H. set (b := resolve_profile s _) in *. clearbody b. ok H. injection H as <- <-.
  apply restartable_notify. refine (restartable_bindings s _ _ _ _ Hs _). intros i x Hx. cbn in Hx.
  apply lookup_insert_Some in Hx as [[<- <-]|[_ Hx]]; [done|by apply (rs_bindings _ Hs i)].
Qed.

Lemma update_binding_restartable io id item s s' r :
  restartable s -> UpdateBinding io id item s = Ok (s', r) -> restartable s'.
Proof.
  intros Hs H. unfold UpdateBinding in H. cbv zeta in H. set (b := resolve_profile s _) in *. clearbody b. ok H.
  injection H as <- <-. apply restartable_notify. refine (restartable_bindings s _ _ _ _ Hs _).
  intros i x Hx. cbn in Hx. apply lookup_insert_Some in Hx as [[<- <-]|[_ Hx]]; [done|].
  apply lookup_delete_Some in Hx as [_ Hx]. by apply (rs_bindings _ Hs i).
Qed.

Lemma restartable_unlink s id b t : restartable s -> restartable (unlink_binding id b (set_store s t)).
Proof.
  intros Hs. refine (restartable_bindings s _ _ _ _ Hs _). intros i x Hx. cbn in Hx.
  apply lookup_delete_Some in Hx as [_ Hx]. by apply (rs_bindings _ Hs i).
Qed.

Lemma delete_binding_restartable io id s s' : restartable s -> DeleteBinding io id s = Ok s' -> restartable s'.
Proof.
  intros Hs H. unfold DeleteBinding in H. ok H. injection H as <-. by apply restartable_notify, restartable_unlink.
Qed.

Lemma prune_loop_restartable io ids s s' n e : restartable s -> prune_loop io ids s = (s', n, e) -> restartable s'.
Proof.
  revert s s' n e. induction ids as [|id ids IH]; intros s s' n e Hs H; simpl in H; [by injection H as <- _ _|].
  destruct (DeleteMappingBinding (io id) id (store s)) as [t|] eqn:E; [|by injection H as <- _ _].
  destruct (prune_loop io ids _) as [[s1 n1] e1] eqn:E1. injection H as <- _ _. eapply IH; [|exact E1].
  destruct (bindings s !! id); [by apply restartable_unlink|].
  destruct Hs as [Hb Hp Ho Ha]. split; [exact Hb|exact Hp|exact Ho|exact Ha].
Qed.

Lemma prune_restartable io f s s' n e : restartable s -> pruneBindings io f s = (s', n, e) -> restartable s'.
Proof.
  intros Hs H. unfold pruneBindings in H. destruct (prune_loop _ _ _) as [[s1 n1] e1] eqn:E. injection H as <- _ _.
  apply restartable_notify_if. by eapply prune_loop_restartable.
Qed.

(** The type of a parameter does not depend on the option lists. *)
Lemma parameter_type s t path :
  mp_Type <$> modelParameterLocked s t path =
  if is_empty t then None
  else match contract_parameter t path with
       | Some q => Some (mp_Type q)
       | None => (fun p => pd_Type (cmp_Definition p)) <$> customProperties s !! model_key t path
       end.
Proof.
  unfold modelParameterLocked. destruct (is_empty t); [done|].
  destruct (enumOverrides s !! model_key t path) as [o|].
  - destruct (contract_parameter t path) as [q|]; simpl; [by destruct (is_enum_type _)|].
    destruct (customProperties s !! model_key t path); simpl; [by destruct (is_enum_type _)|done].
  - destruct (contract_parameter t path); simpl; [done|]. by destruct (customProperties s !! model_key t path).
Qed.

Lemma validated_parameter s b : validateBindingLocked s b = Ok tt -> mb_DeviceType b <> "" ->
  contract_parameter (mb_DeviceType b) (ModelPath b) = None ->
  is_Some (customProperties s !! model_key (mb_DeviceType b) (ModelPath b)).
Proof.
  unfold validateBindingLocked. destruct (ValidateBinding b); [|done]. cbv zeta. intros H Hne Hc. ok H.
  apply is_empty_false in Hne. rewrite Hne in G0. simpl in G0. rewrite negb_involutive in G0.
  pose proof (parameter_type s (mb_DeviceType b) (ModelPath b)) as E. rewrite Hne, Hc in E.
  destruct (modelParameterLocked s (mb_DeviceType b) (ModelPath b)); [|done]. simpl in E.
  destruct (customProperties s !! model_key _ _); [by eexists|done].
Qed.

Lemma model_key_inj t path t' path' : ValidStableID t = true -> path_ok path ->
  model_key t path = model_key t' path' -> t = t' /\ path = path'.
Proof.
  intros Ht (He & Hc & Hp) E.
  change (join_nul [t; pp_EndpointID path; pp_CapabilityID path; pp_PropertyID path] =
          join_nul [t'; pp_EndpointID path'; pp_CapabilityID path'; pp_PropertyID path']) in E.
  apply join_nul_inj in E; [|done|repeat constructor; by apply stable_nul_free].
  destruct path, path'. simpl in *. by simplify_eq.
Qed.

Lemma binding_model_key b t path : binding_ok b -> mb_DeviceType b <> "" ->
  model_key (mb_DeviceType b) (ModelPath b) = model_key t path -> mb_DeviceType b = t /\ ModelPath b = path.
Proof.
  intros Hb Hne. apply model_key_inj; [|apply (bo_model _ Hb)].
  destruct (bo_stage _ Hb) as [[_ Hp]|[_ Hc]]; [|apply (cn_type _ Hc)]. by destruct (bp_type _ Hp).
Qed.

Lemma restartable_properties s m t :
  restartable s -> (forall k p, m !! k = Some p -> modelExistsLocked s (cmp_DeviceType p) = true) ->
  (forall id b, bindings s !! id = Some b -> mb_DeviceType b <> "" ->
    is_Some (customProperties s !! model_key (mb_DeviceType b) (ModelPath b)) ->
    m !! model_key (mb_DeviceType b) (ModelPath b) = customProperties s !! model_key (mb_DeviceType b) (ModelPath b)) ->
  restartable (set_customProperties s m t).
Proof.
  intros [Hb Hp Ho Ha] Hm Hsame. split; [|exact Hm|exact Ho|exact Ha].
  intros id b Hid. pose proof (Hb _ _ Hid) as Hv. eapply validate_transfer; [exact Hv|done| |].
  - rewrite !parameter_type. destruct (is_empty (mb_DeviceType b)) eqn:E; [done|]. apply is_empty_false in E.
    destruct (contract_parameter _ _) eqn:Ec; [done|]. cbn [customProperties set_customProperties].
    rewrite (Hsame id b); [done|done|done|]. by apply validated_parameter.
  - intros p Hne Hpl. exists p. split_and!; [exact Hpl|done|done|]. by eapply validated_runtime.
Qed.

Lemma create_property_restartable io item s s' r :
  restartable s -> CreateCustomModelProperty io item s = Ok (s', r) -> restartable s'.
Proof.
  intros Hs H. unfold CreateCustomModelProperty in H. cbv zeta in H. set (p := with_custom_identity _ _) in *.
  clearbody p. ok H. injection H as <- <-. apply present_None in G1. apply restartable_properties; [done| |].
  - intros k x [[<- <-]|[_ Hx]]%lookup_insert_Some; [done|by apply (rs_properties _ Hs k)].
  - intros id b Hb _ [x Hx]. rewrite lookup_insert_ne; [done|]. intros E. rewrite <- E in Hx. congruence.
Qed.

Lemma update_property_restartable io id item s s' r :
  sound s -> restartable s -> careful s s' -> UpdateCustomModelProperty io id item s = Ok (s', r) -> restartable s'.
Proof.
  intros Hsd Hs [_ _ _ Hprop _] H. specialize (Hprop io id item r).
  pose proof H as Hop. unfold UpdateCustomModelProperty in H. cbv zeta in H.
  set (p := with_custom_identity _ _) in *. clearbody p. ok H.
  lazymatch goal with E : property_by_id s id = Some ?x |- _ => specialize (Hprop x Hop eq_refl); rename x into current end.
  clear Hop. injection H as <- <-. apply restartable_notify.
  pose proof (mw_properties _ (proj1 Hsd)) as Hk. apply (by_id_found _ _ _ _ _ _ Hk) in L as [Hcur Ecur].
  apply restartable_properties; [done| |].
  - intros k x [[<- <-]|[_ [_ Hx]%lookup_delete_Some]]%lookup_insert_Some; [done|by apply (rs_properties _ Hs k)].
  - intros i b Hb Hne [x Hx].
    assert (Hnc : custom_key current <> model_key (mb_DeviceType b) (ModelPath b)).
    { intros E. symmetry in E. apply binding_model_key in E as [Et Ep]; [|by apply (bw_valid _ _ _ (mw_routed _ (proj1 Hsd)) i)|done].
      by apply (Hprop i b Hb). }
    rewrite lookup_insert_ne; [by rewrite lookup_delete_ne|]. intros E. apply Hnc. rewrite <- E in Hx.
    rewrite Hx in G1. simpl in G1. rewrite negb_involutive in G1. apply bool_decide_eq_true in G1.
    rewrite <- E. apply (kw_id _ _ _ _ Hk _ _ current x); [done..|congruence].
Qed.

Lemma delete_property_restartable io id s s' :
  sound s -> restartable s -> DeleteCustomModelProperty io id s = Ok s' -> restartable s'.
Proof.
  intros Hsd Hs H. unfold DeleteCustomModelProperty in H. ok H.
  match goal with E : property_by_id s id = Some ?x |- _ => rename x into current end.
  injection H as <-. apply restartable_notify. rewrite none_exists in G.
  pose proof (mw_properties _ (proj1 Hsd)) as Hk. apply (by_id_found _ _ _ _ _ _ Hk) in L as [Hcur <-].
  apply restartable_properties; [done| |].
  - intros k x [_ Hx]%lookup_delete_Some. by apply (rs_properties _ Hs k).
  - intros i b Hb Hne _. rewrite lookup_delete_ne; [done|]. intros E. symmetry in E.
    apply binding_model_key in E as [Et Ep]; [|by apply (bw_valid _ _ _ (mw_routed _ (proj1 Hsd)) i)|done].
    apply G in Hb. rewrite Et, Ep, !bool_decide_eq_true_2 in Hb by done. done.
Qed.

(** *** Custom models and option lists *)

Lemma create_model_restartable io item s s' r :
  restartable s -> CreateCustomModel io item s = Ok (s', r) -> restartable s'.
Proof.
  intros Hs H. unfold CreateCustomModel in H. ok H. injection H as <- <-. apply restartable_notify.
  match goal with |- restartable ?s1 => assert (He : forall t, modelExistsLocked s t = true -> modelExistsLocked s1 t = true) end.
  { intros t. unfold modelExistsLocked. simpl. rewrite !orb_true_iff. intros [|Ht]; [by left|right].
    destruct (decide (cu_DeviceType item = t)) as [->|Hne]; [by rewrite lookup_insert_eq|by rewrite lookup_insert_ne]. }
  destruct Hs as [Hb Hp Ho Ha]. split; [| | |exact Ha].
  - intros id b Hid. pose proof (Hb _ _ Hid) as Hv. eapply validate_transfer; [exact Hv|apply He|done|].
    intros p Hne Hpl. exists p. split_and!; [exact Hpl|done|done|]. by eapply validated_runtime.
  - intros k p Hkp. by eapply He, Hp.
  - intros k o Hko. by eapply He, Ho.
Qed.

Lemma delete_model_restartable io t s s' :
  restartable s -> careful s s' -> DeleteCustomModel io t s = Ok s' -> restartable s'.
Proof.
  intros Hs [_ _ _ _ Hmodel] H. specialize (Hmodel io t H). unfold DeleteCustomModel in H. ok H.
  injection H as <-. apply restartable_notify. rewrite none_exists in G0. rewrite none_exists in G1.
  match goal with |- restartable ?s1 => assert (He : forall x, x <> t -> modelExistsLocked s x = true -> modelExistsLocked s1 x = true) end.
  { intros x Hne. unfold modelExistsLocked. simpl. by rewrite lookup_delete_ne by done. }
  destruct Hs as [Hb Hp Ho Ha]. split; [| | |exact Ha].
  - intros id b Hid. pose proof (Hb _ _ Hid) as Hv. eapply validate_transfer; [exact Hv| |done|].
    + apply He. intros E. apply G1 in Hid. by apply bool_decide_eq_false in Hid.
    + intros p Hne Hpl. exists p. split_and!; [exact Hpl|done|done|]. by eapply validated_runtime.
  - intros k p Hkp. apply He; [|by eapply Hp]. intros E. apply G0 in Hkp. by apply bool_decide_eq_false in Hkp.
  - intros k o Hko. apply He; [by eapply Hmodel|by eapply Ho].
Qed.

Lemma restartable_overrides s m t :
  restartable s -> (forall k o, m !! k = Some o -> modelExistsLocked s (eo_DeviceType o) = true) ->
  restartable (set_enumOverrides s m t).
Proof.
  intros [Hb Hp Ho Ha] Hm. split; [|exact Hp|exact Hm|exact Ha].
  intros id b Hid. pose proof (Hb _ _ Hid) as Hv. eapply validate_transfer; [exact Hv|done|by rewrite !parameter_type|].
  intros p Hne Hpl. exists p. split_and!; [exact Hpl|done|done|]. by eapply validated_runtime.
Qed.

Lemma upsert_override_restartable io item s s' r :
  restartable s -> UpsertModelEnumOverride io item s = Ok (s', r) -> restartable s'.
Proof.
  intros Hs H. unfold UpsertModelEnumOverride in H. cbv zeta in H. set (o := if is_empty _ then _ else item) in *.
  clearbody o. ok H. injection H as <- <-. apply restartable_notify, restartable_overrides; [done|].
  intros k x [[<- <-]|[_ Hx]]%lookup_insert_Some; [done|by apply (rs_overrides _ Hs k)].
Qed.

Lemma delete_override_restartable io id s s' : restartable s -> DeleteModelEnumOverride io id s = Ok s' -> restartable s'.
Proof.
  intros Hs H. unfold DeleteModelEnumOverride in H. ok H. injection H as <-.
  apply restartable_notify, restartable_overrides; [done|].
  intros k x [_ Hx]%lookup_delete_Some. by apply (rs_overrides _ Hs k).
Qed.
