(* ===== verification/ProfileRuns.v ===== *)
(** * Runs of the profile service and its restarts

    Every run keeps the indexes and the tables of the service in step with its memory
    (ProfileInvariant.v has a lemma for each operation), and a service whose operations
    were careful starts again with the memory it had.  The examples show what a start
    makes of operations that were not. *)

From S2P Require Import Prelude Float64 DeviceModel Lookup ModelContract ConsumerCatalog Sha256.
From S2P Require Import MappingProfile MappingEngine MappingBinding MappingStore ProfileService ProfileInvariant.

(** ** Definitions *)

Definition empty_tables : MappingStore := MkMappingStore ∅ ∅ ∅ ∅ ∅.
Definition no_rows : Rows := MkRows [] [] [] [] (fun rows => (map_to_list rows).*2).

(** The first start, on empty tables. *)
Definition first_start (ids : gmap string string) : ProfileService :=
  set_builtIns (empty_profile_service empty_tables) builtin_table ids.

(** A hub that was started for the first time, and its service ran. *)
Inductive preachable : ProfileService -> Prop :=
| reach_start uuids moves s :
    NewProfileService true uuids moves no_rows empty_tables = Ok s -> preachable s
| reach_step s s' : preachable s -> pstep s s' -> preachable s'.

(** The states careful operations lead to. *)
Inductive carefully_reachable : ProfileService -> Prop :=
| careful_start uuids moves s :
    NewProfileService true uuids moves no_rows empty_tables = Ok s -> carefully_reachable s
| careful_step s s' : carefully_reachable s -> careful s s' -> carefully_reachable s'.

(** What the queries list: each table in the order of its keys. *)
Definition reading (t : MappingStore) : Rows :=
  MkRows (map_to_list (profile_rows t)).*2 (map_to_list (model_rows t)).*2 (map_to_list (property_rows t)).*2
    (map_to_list (override_rows t)).*2 (fun rows => (map_to_list rows).*2).

Definition start (t : MappingStore) : result LoadError ProfileService :=
  NewProfileService true (fun _ => None) map_to_list (reading t) t.

(** ** Runs of the service *)

Lemma careful_restartable s s' : sound s -> restartable s -> careful s s' -> restartable s'.
Proof.
  intros Hs Hr Hc. pose proof (ca_step _ _ Hc) as H. revert Hs Hr Hc. destruct H; intros Hs Hr Hc.
  - by eapply create_restartable.
  - by eapply update_restartable.
  - by eapply delete_restartable.
  - eapply import_restartable; [exact (mw_named _ (proj1 Hs))|done..].
  - by eapply create_binding_restartable.
  - by eapply update_binding_restartable.
  - by eapply delete_binding_restartable.
  - by eapply prune_restartable.
  - by eapply prune_restartable.
  - by eapply create_model_restartable.
  - by eapply delete_model_restartable.
  - by eapply create_property_restartable.
  - by eapply update_property_restartable.
  - by eapply delete_property_restartable.
  - by eapply upsert_override_restartable.
  - by eapply delete_override_restartable.
Qed.

Lemma pstep_sound s s' : sound s -> pstep s s' -> sound s'.
Proof.
  intros Hs H. revert Hs. destruct H; intros Hs.
  - by eapply create_sound.
  - by eapply update_sound.
  - by eapply delete_sound.
  - by eapply import_sound.
  - by eapply create_binding_sound.
  - by eapply update_binding_sound.
  - by eapply delete_binding_sound.
  - by eapply prune_sound.
  - by eapply prune_sound.
  - by eapply create_model_sound.
  - by eapply delete_model_sound.
  - by eapply create_property_sound.
  - by eapply update_property_sound.
  - by eapply delete_property_sound.
  - by eapply upsert_override_sound.
  - by eapply delete_override_sound.
Qed.

Lemma first_start_loads uuids moves :
  exists ids, NewProfileService true uuids moves no_rows empty_tables = Ok (first_start ids) /\
    profiles_wf ∅ builtin_table ids.
Proof.
  unfold NewProfileService, load_service. destruct (start_builtins empty_tables) as (ids & -> & Hwf).
  exists ids. split; [|done]. cbv iota beta. cbn -[MigrateMappingProfileIdentities builtin_table].
  rewrite migrate_store_nothing; [done|]. apply moves_nothing. intros ? ? _ _ bid b Hb. unfold empty_tables in Hb. cbn [binding_rows] in Hb. by apply lookup_empty_Some in Hb.
Qed.

Lemma no_entry {A} k (x : A) : (∅ : gmap string A) !! k = Some x <-> False.
Proof. split; [by intros ?%lookup_empty_Some|done]. Qed.

Definition builtins_apart : bool :=
  forallb (fun p => negb (existsb (fun q => pr_ID q =s pr_Identifier p) BuiltInProfiles)) BuiltInProfiles.

Lemma builtins_apart_checked : builtins_apart = true.
Proof. unfold builtins_apart. rewrite builtin_profiles_eq. vm_compute. reflexivity. Qed.

(** No built-in profile has the identity of one for its readable identifier. *)
Lemma builtin_table_apart id p : builtin_table !! id = Some p -> builtin_table !! pr_Identifier p = None.
Proof.
  intros Hp. apply eq_None_not_Some. intros [q Hq]. revert Hp Hq. pose proof builtins_apart_checked as H.
  pose proof builtins_checked as H1. revert H H1. unfold builtins_apart, builtins_fine. rewrite builtin_table_eq.
  unfold table_of. generalize BuiltInProfiles. intros l H H1.
  apply andb_true_iff in H1 as [[_ Hi%bool_decide_eq_true]%andb_true_iff _].
  rewrite !insert_all_lookup, !no_entry by done. intros [[Hp _]|[[] _]] [[Hq E]|[[] _]].
  rewrite forallb_forall in H. apply list_elem_of_In, H, negb_true_iff in Hp.
  apply not_true_iff_false in Hp. apply Hp, existsb_exists. exists q. split; [by apply list_elem_of_In|].
  by apply bool_decide_eq_true.
Qed.

Lemma empty_keyed {A} (key id : A -> string) valid : keyed_wf key id valid (∅ : gmap string A).
Proof. split; intros *; rewrite !no_entry; naive_solver. Qed.
Lemma empty_rows {A} (id : A -> string) : rows_of id (∅ : gmap string A) ∅.
Proof. intros i x. setoid_rewrite no_entry. naive_solver. Qed.
Lemma empty_routes : bindings_wf ∅ ∅ ∅.
Proof.
  split; [intros *; by rewrite no_entry|split|intros key id|intros *; by rewrite no_entry].
  - intros *. by rewrite no_entry.
  - intros key id. setoid_rewrite no_entry. rewrite lookup_empty. simpl. rewrite elem_of_nil. naive_solver.
  - setoid_rewrite no_entry. naive_solver.
Qed.

Lemma first_start_sound ids : profiles_wf ∅ builtin_table ids -> sound (first_start ids) /\ restartable (first_start ids).
Proof.
  intros Hwf. split; split.
  - split; [done|exact Hwf|exact empty_routes|apply empty_keyed|apply empty_keyed|intros t m; by rewrite no_entry].
  - split; [done|done|intros id b; by rewrite no_entry|done|apply empty_rows|apply empty_rows].
  - intros id b. by rewrite no_entry.
  - intros k p. by rewrite no_entry.
  - intros k o. by rewrite no_entry.
  - intros identifier id Hi [p Hp]. apply (pw_index _ _ _ Hwf) in Hi as (q & [Hq|[]%no_entry] & <-).
    apply builtin_table_apart in Hq. unfold profileLocked in Hp.
    cbn [builtIns profiles first_start set_builtIns empty_profile_service] in Hp. rewrite Hq, lookup_empty in Hp. done.
Qed.

Lemma reachable_sound s : preachable s -> sound s.
Proof.
  induction 1 as [uuids moves s H|]; [|by eapply pstep_sound].
  destruct (first_start_loads uuids moves) as (ids & E & Hwf). rewrite E in H. injection H as <-. by apply first_start_sound.
Qed.

Lemma carefully_sound s : carefully_reachable s -> sound s /\ restartable s.
Proof.
  induction 1 as [uuids moves s H|s s' _ [Hs Hr] Hc].
  { destruct (first_start_loads uuids moves) as (ids & E & Hwf). rewrite E in H. injection H as <-. by apply first_start_sound. } split.
  - by eapply pstep_sound, ca_step.
  - by eapply careful_restartable.
Qed.

Lemma reading_lists s : lists s (reading (store s)).
Proof. split; by unfold listed. Qed.

(** ** Theorems *)

(** C19: whatever the sequence of operations a service answers after its first start, and
    whatever the answers of the database and of the random source, its memory stays well
    formed (every profile, binding, custom property and option list it holds is valid and
    stored under its own key; the indexes by route, by model property and by readable
    identifier are exactly what a scan of the bindings and profiles gives; a model property
    of a device has one provider binding, a target property one consumer binding) and its
    tables hold exactly what its memory holds. *)
Theorem service_invariant s : preachable s -> memory_wf s /\ mirrored s.
Proof. apply reachable_sound. Qed.

(** C20: a service whose operations were careful starts again, on the tables it left and
    whatever order the database lists the rows and the runtime visits its maps in, with the
    profiles, bindings, models, properties, option lists and indexes it had. *)
Theorem restart_restores s uuids moves rows :
  carefully_reachable s -> lists s rows -> (forall m, moves m ≡ₚ map_to_list m) ->
  NewProfileService true uuids moves rows (store s) = Ok (restarted s).
Proof. intros [Hs Hr]%carefully_sound Hl Hm. by apply restart_loads. Qed.

(** ** Examples *)

Definition value_or {E A} (d : A) (r : result E A) : A := match r with Ok x => x | Err _ => d end.

Lemma ok_value {E A} (r : result E A) d : is_ok r = true -> r = Ok (value_or d r).
Proof. by destruct r. Qed.

(** A start with the built-in profiles evaluated. *)
Definition start_evaluated (t : MappingStore) : result LoadError ProfileService :=
  load_service builtin_profiles true (fun _ => None) map_to_list (reading t) t.

Lemma start_eq t : start t = start_evaluated t.
Proof. unfold start, NewProfileService. by rewrite builtin_profiles_eq. Qed.

(** The service of a hub that was started for the first time. *)
Definition started : ProfileService := value_or (empty_profile_service empty_tables) (start_evaluated empty_tables).

Lemma reading_empty : reading empty_tables = no_rows.
Proof. reflexivity. Qed.

Lemma start_succeeds : is_ok (start_evaluated empty_tables) = true.
Proof. vm_compute. reflexivity. Qed.

Lemma started_reachable : preachable started.
Proof.
  pose proof (ok_value _ (empty_profile_service empty_tables) start_succeeds) as H.
  change (start_evaluated empty_tables = Ok started) in H. revert H. rewrite <- start_eq. unfold start.
  rewrite reading_empty. apply reach_start.
Qed.

(** An operation of the service, and the runs of a list of them that all succeed. *)
Record Operation := MkOperation {
  op_run : ProfileService -> result ServiceError ProfileService;
  op_step s s' : op_run s = Ok s' -> pstep s s';
}.

Definition run (ops : list Operation) (s : ProfileService) : result ServiceError ProfileService :=
  each (fun s op => op_run op s) s ops.

Lemma run_reaches ops s s' : preachable s -> run ops s = Ok s' -> preachable s'.
Proof.
  revert s. induction ops as [|op ops IH]; intros s Hs H; unfold run in *; simpl in H; [by injection H as <-|].
  destruct (op_run op s) as [s1|] eqn:E; [|done]. eapply IH; [|exact H]. by eapply reach_step, op_step.
Qed.

Lemma started_reaches ops s : run ops started = Ok s -> preachable s.
Proof. apply run_reaches. exact started_reachable. Qed.

Lemma run_one op s s' : run [op] s = Ok s' -> op_run op s = Ok s'.
Proof. unfold run. simpl. destruct (op_run op s); congruence. Qed.

Lemma answered {A} (f : ProfileService -> result ServiceError (ProfileService * A)) (s s' : ProfileService) :
  (let! r := f s in Ok r.1) = Ok s' -> exists r, f s = Ok (s', r).
Proof. destruct (f s) as [[s1 r]|]; [|done]. intros [= <-]. by exists r. Qed.

Definition op_create (uuid : option string) (item : Profile) : Operation.
Proof. refine (MkOperation (fun s => let! r := Create true uuid item s in Ok r.1) _). intros s s' [r H]%answered. by eapply step_create. Defined.
Definition op_update (id : string) (item : Profile) : Operation.
Proof. refine (MkOperation (fun s => let! r := Update true id item s in Ok r.1) _). intros s s' [r H]%answered. by eapply step_update. Defined.
Definition op_create_binding (item : Binding) : Operation.
Proof. refine (MkOperation (fun s => let! r := CreateBinding true None item s in Ok r.1) _). intros s s' [r H]%answered. by eapply step_create_binding. Defined.
Definition op_create_model (item : CustomModel) : Operation.
Proof. refine (MkOperation (fun s => let! r := CreateCustomModel true item s in Ok r.1) _). intros s s' [r H]%answered. by eapply step_create_model. Defined.
Definition op_delete_model (t : Type_) : Operation.
Proof. refine (MkOperation (ProfileService.DeleteCustomModel true t) _). intros s s' H. by eapply step_delete_model. Defined.
Definition op_create_property (item : CustomModelProperty) : Operation.
Proof. refine (MkOperation (fun s => let! r := CreateCustomModelProperty true item s in Ok r.1) _). intros s s' [r H]%answered. by eapply step_create_property. Defined.
Definition op_update_property (id : string) (item : CustomModelProperty) : Operation.
Proof. refine (MkOperation (fun s => let! r := UpdateCustomModelProperty true id item s in Ok r.1) _). intros s s' [r H]%answered. by eapply step_update_property. Defined.
Definition op_delete_property (id : string) : Operation.
Proof. refine (MkOperation (ProfileService.DeleteCustomModelProperty true id) _). intros s s' H. by eapply step_delete_property. Defined.
Definition op_upsert_override (item : ModelEnumOverride) : Operation.
Proof. refine (MkOperation (fun s => let! r := UpsertModelEnumOverride true item s in Ok r.1) _). intros s s' [r H]%answered. by eapply step_upsert_override. Defined.

Lemma create_binding_answered item s s' :
  run [op_create_binding item] s = Ok s' -> exists b, CreateBinding true None item s = Ok (s', b).
Proof. intros H. apply run_one in H. by apply (answered (CreateBinding true None item)) in H. Qed.

(** A profile for the power of the lamp of MappingBinding.v, a custom model with one
    property, and a binding of that property. *)
Definition uuid_a : string := "018f0000-0000-7000-8000-000000000001".
Definition uuid_b : string := "018f0000-0000-7000-8000-000000000002".
Definition ex_profile (id identifier : string) (version : Z) (t : ValueType) : Profile :=
  MkProfile 1 id identifier version KindProvider t t None [].
Definition ex_model : CustomModel := MkCustomModel "fountain" "Fountain" 1.
Definition ex_property (capability : string) : CustomModelProperty :=
  MkCustomProperty "custom-1" "fountain" "main" "Main" "main" capability "water"
    (MkPropertyDefinition "mode" "Mode" ValueTypeEnum ParameterCustom "" true true false None None None
       ["fast"; "slow"] 0).
Definition ex_water : Binding :=
  MkBinding "binding-3" StageProvider "" "miio" "lamp-1" "main" "water" "mode" "fountain" "" "main" "water" "mode"
    "" "" "" "" true false [] None.

Definition ex_operations : list Operation :=
  [op_create (Some uuid_a) (ex_profile "" "power" 1 ValueTypeBool); op_create_binding (with_ProfileID ex_route "power");
   op_create_model ex_model; op_create_property (ex_property "water"); op_create_binding ex_water;
   op_update "power" (ex_profile "" "power" 2 ValueTypeBool)].

(** The state a list of operations leads to. *)
Definition after (ops : list Operation) : ProfileService := value_or started (run ops started).

Lemma after_run ops : is_ok (run ops started) = true -> run ops started = Ok (after ops).
Proof. apply ok_value. Qed.

Lemma service_invariant_witness :
  size (bindings (after ex_operations)) = 2%nat /\ memory_wf (after ex_operations) /\ mirrored (after ex_operations).
Proof.
  split; [vm_compute; reflexivity|]. apply (service_invariant (after ex_operations)).
  apply (started_reaches ex_operations), after_run. vm_compute. reflexivity.
Defined.

Lemma started_careful : carefully_reachable started.
Proof.
  pose proof (ok_value _ (empty_profile_service empty_tables) start_succeeds) as H.
  change (start_evaluated empty_tables = Ok started) in H. revert H. rewrite <- start_eq. unfold start.
  rewrite reading_empty. apply careful_start.
Qed.

(** A binding is made while there is no other. *)
Lemma first_binding_careful io random item s s' r :
  carefully_reachable s -> bindings s = ∅ -> enumOverrides s = ∅ -> CreateBinding io random item s = Ok (s', r) ->
  careful s s'.
Proof.
  intros Hs Hb Ho H. split.
  - by eapply step_create_binding.
  - intros id b p p'. by rewrite Hb, no_entry.
  - by apply rs_apart, (create_binding_restartable io random item s s' r), H; apply carefully_sound.
  - intros _ id x q current _ _ i b. by rewrite Hb, no_entry.
  - intros _ t _ k o. by rewrite Ho, no_entry.
Qed.

Definition bound : ProfileService := after [op_create_binding ex_route].

Lemma restart_restores_witness :
  bindings bound !! "binding-1" = Some ex_route /\ start (store bound) = Ok (restarted bound).
Proof.
  split; [vm_compute; reflexivity|]. unfold start.
  apply (restart_restores bound); [|apply reading_lists|intros m; reflexivity].
  assert (H : run [op_create_binding ex_route] started = Ok bound) by (apply after_run; vm_compute; reflexivity).
  apply create_binding_answered in H as [b H].
  apply (careful_step started); [exact started_careful|].
  apply (first_binding_careful true None ex_route started bound b); [exact started_careful| | |exact H];
    vm_compute; reflexivity.
Defined.

(** ** Operations a start does not accept *)

(** All the operations are accepted, and the service they lead to does not start again. *)
Definition stops_the_start (ops : list Operation) : Prop :=
  exists s, preachable s /\ run ops started = Ok s /\ is_ok (start (store s)) = false.

Lemma stops ops :
  is_ok (run ops started) = true -> is_ok (start_evaluated (store (after ops))) = false -> stops_the_start ops.
Proof. rewrite <- start_eq. intros Hr Hs. exists (after ops). split_and!; [by eapply started_reaches, after_run|by apply after_run|done]. Qed.

(** C40: operations the service accepts can leave tables it does not start with: a new type
    for a profile in use ([Update] and [Import] check the pipeline of the profile, not the
    types of the properties its bindings join), a new path for a custom property in use,
    and the deletion of a custom model whose option list is still there. *)
Theorem accepted_changes_can_stop_the_start :
  stops_the_start [op_create (Some uuid_a) (ex_profile "" "power" 1 ValueTypeBool);
                   op_create_binding (with_ProfileID ex_route "power");
                   op_update "power" (ex_profile "" "power" 2 ValueTypeInt)] /\
  stops_the_start [op_create_model ex_model; op_create_property (ex_property "water"); op_create_binding ex_water;
                   op_update_property "custom-1" (ex_property "jet")] /\
  stops_the_start [op_create_model ex_model; op_create_property (ex_property "water");
                   op_upsert_override (MkEnumOverride "" "fountain" "main" "water" "mode" ["quick"; "calm"]);
                   op_delete_property "custom-1"; op_delete_model "fountain"].
Proof. split_and!; apply stops; vm_compute; reflexivity. Qed.

(** A profile whose readable identifier is the identity of another one takes the bindings
    of that one at the next start. *)
Example identifier_captures_bindings :
  let s := after [op_create (Some uuid_a) (ex_profile "" "power" 1 ValueTypeBool);
                  op_create_binding (with_ProfileID ex_route uuid_a);
                  op_create (Some uuid_b) (ex_profile "" uuid_a 1 ValueTypeBool)] in
  preachable s /\ mb_ProfileID <$> (bindings s !! "binding-1") = Some uuid_a /\
  mb_ProfileID <$> (bindings (value_or s (start (store s))) !! "binding-1") = Some uuid_b.
Proof.
  cbv zeta. rewrite start_eq. split_and!; [|vm_compute; reflexivity..].
  eapply started_reaches, after_run. vm_compute. reflexivity.
Qed.
