(* ===== verification/DeviceProjection.v ===== *)
(** * Projection of snapshots: backend/internal/application/device_service.go

    A Provider reports its native properties; a mapper turns them into properties of
    the unified model.  [mapSnapshot] builds the unified device: it collects the
    projections of every source property, lets a manual one win over an automatic
    one, rejects two of a kind for one path, adds them to an empty device, keeps the
    commands whose capability survived, checks the result against the model contract
    and applies the user's name and location.

    The mapper is an interface, a record of operations of which the optional ones may
    be absent.  A [counted] computation counts what it maps in the metrics, whether or
    not it fails. *)

From S2P Require Import Prelude Float64 DeviceModel Lookup ModelContract LogicalDevice LogicalCompose.
From S2P Require Import MappingProfile.

(** ** Metrics *)

Inductive Counter :=
| eventsReceived | eventsProcessed | eventsDropped | targetEventsDropped | stateEventsDropped
| deviceEventsReceived | deviceEventsDropped | statesMarkedStale
| commandsStarted | commandsConfirmed | commandsRejected | commandsTimedOut
| commandsSuperseded | commandsCoalesced
| providerClockSkews | providerSnapshotAges | providerEventsIgnored
| mappingApplied | mappingErrors | stateCheckpoints | stateCheckpointErrors | statesRestored.

#[export] Instance Counter_eq_dec : EqDecision Counter.
Proof. solve_decision. Defined.

(** Each counter is an [atomic.Uint64]. *)
Definition Metrics := Counter -> Z.
Definition zero_metrics : Metrics := fun _ => 0.
Definition add_metric (m : Metrics) (c : Counter) (n : Z) : Metrics :=
  fun c' => if decide (c' = c) then u64_add (m c') n else m c'.

(** A computation that fails with [F] and counts. *)
Definition counted (F A : Type) : Type := Metrics -> Metrics * result F A.
Definition cret {F A} (a : A) : counted F A := fun m => (m, Ok a).
Definition cfail {F A} (e : F) : counted F A := fun m => (m, Err e).
Definition ccount {F} (c : Counter) : counted F unit := fun m => (add_metric m c 1, Ok tt).
Definition cbind {F A B} (c : counted F A) (k : A -> counted F B) : counted F B := fun m =>
  match c m with
  | (m, Ok a) => k a m
  | (m, Err e) => (m, Err e)
  end.
Definition clift {F A} (r : result F A) : counted F A := fun m => (m, r).
Notation "'do!' x ':=' c 'in' k" := (cbind c (fun x => k))
  (at level 10, x pattern, c at level 100, k at level 200) : go_scope.

Fixpoint ceach {F S A} (f : S -> A -> counted F S) (s : S) (l : list A) : counted F S :=
  match l with
  | [] => cret s
  | x :: l => do! s := f s x in ceach f s l
  end.

(** ** Enumeration values *)

Definition is_ascii_byte (c : ascii) : bool := (N_of_ascii c <? 128)%N.
Definition lower_byte (c : ascii) : ascii :=
  if between 65 90 c then ascii_of_N (N_of_ascii c + 32) else c.
Fixpoint map_bytes (f : ascii -> ascii) (s : string) : string :=
  match s with
  | EmptyString => EmptyString
  | String c s => String (f c) (map_bytes f s)
  end.

(** The Unicode tables [strings.ToLower] uses beyond ASCII. *)
Class UnicodeLower := unicode_lower : string -> string.

(** [strings.ToLower] *)
Definition ToLower `{UnicodeLower} (s : string) : string :=
  if string_Forall is_ascii_byte s then map_bytes lower_byte s else unicode_lower s.

Definition dash : ascii := "-"%char.
Definition dash_byte (c : ascii) : ascii :=
  if Ascii.eqb c "_"%char || Ascii.eqb c " "%char then dash else c.

(** [strings.Contains(value, "--")] *)
Fixpoint has_double_dash (s : string) : bool :=
  match s with
  | String a (String b _ as r) => (Ascii.eqb a dash && Ascii.eqb b dash) || has_double_dash r
  | _ => false
  end.
(** [strings.ReplaceAll(value, "--", "-")], left to right. *)
Fixpoint replace_double_dash (s : string) : string :=
  match s with
  | String a (String b r as t) =>
      if Ascii.eqb a dash && Ascii.eqb b dash then String dash (replace_double_dash r)
      else String a (replace_double_dash t)
  | _ => s
  end.

(** Every round removes a byte, so their number bounds the rounds. *)
Fixpoint collapse (fuel : nat) (s : string) : string :=
  match fuel with
  | O => s
  | S fuel => if has_double_dash s then collapse fuel (replace_double_dash s) else s
  end.

Fixpoint trim_dashes (s : string) : string :=
  match s with
  | String c r => if Ascii.eqb c dash then trim_dashes r else s
  | EmptyString => s
  end.

Definition canonicalEnumToken `{UnicodeLower} (value : string) : string :=
  let value := map_bytes dash_byte (ToLower (TrimSpace value)) in
  let value := collapse (String.length value) value in
  go_rev (trim_dashes (go_rev (trim_dashes value))).

(** The loop that looks for the only option with the token [canonical]; [None] when
    there are two. *)
Fixpoint unique_option `{UnicodeLower} (canonical : string) (options : list string) (found : string)
    : option string :=
  match options with
  | [] => Some found
  | option :: options =>
      if negb (canonicalEnumToken option =s canonical) then unique_option canonical options found
      else if negb (is_empty found) then None
      else unique_option canonical options option
  end.

Definition alignEnumValue `{UnicodeLower} (value : PropertyValue) (options : list string)
    : PropertyValue :=
  match pv_Type value, pv_String value, options with
  | ValueTypeEnum, Some v, _ :: _ =>
      if existsb (fun option => option =s v) options then value
      else
        match unique_option (canonicalEnumToken v) options "" with
        | None => value
        | Some match_ => if is_empty match_ then value else EnumValue match_
        end
  | _, _, _ => value
  end.

(** ** Names and locations *)

Record LocationRoom := MkLocationRoom { lr_ID : string; lr_HomeID : string; lr_Name : string }.
Record LocationHome := MkLocationHome { lh_ID : string; lh_Name : string; lh_Rooms : list LocationRoom }.
Record LocationPreference := MkLocationPreference {
  lo_DeviceID : string;
  lo_HomeID : string;
  lo_HomeName : string;
  lo_RoomID : string;
  lo_RoomName : string;
}.

(** The maps [names] and [locations] and the list [locationHomes] of the service. *)
Record Preferences := MkPreferences {
  names : gmap string string;
  locations : gmap string LocationPreference;
  locationHomes : list LocationHome;
}.

(** [strings.Fields]: the runs of bytes between spaces; [cur] is the current run,
    reversed.  Every round consumes a byte. *)
Fixpoint fields_loop (fuel : nat) (s cur : string) : list string :=
  let emit := if is_empty cur then [] else [go_rev cur] in
  match fuel with
  | O => emit
  | S fuel =>
      match s with
      | EmptyString => emit
      | String c r =>
          match drop_one space_runes s with
          | Some r' => emit ++ fields_loop fuel r' ""
          | None => fields_loop fuel r (String c cur)
          end
      end
  end.
Definition Fields (s : string) : list string := fields_loop (S (String.length s)) s "".

Definition normalizeLocationName `{UnicodeLower} (value : string) : string :=
  ToLower (String.concat " " (Fields (TrimSpace value))).

Definition sameLocationIdentity `{UnicodeLower} (leftID leftName rightID rightName : string) : bool :=
  if negb (is_empty leftID) && negb (is_empty rightID) && (leftID =s rightID) then true
  else
    let left := normalizeLocationName leftName in
    let right := normalizeLocationName rightName in
    negb (is_empty left) && (left =s right).

Definition canonicalSourceHome `{UnicodeLower} (homes : list LocationHome) (sourceID sourceName : string)
    : option LocationHome :=
  first (fun home => if sameLocationIdentity (lh_ID home) (lh_Name home) sourceID sourceName
                     then Some home else None) homes.
Definition canonicalSourceRoom `{UnicodeLower} (rooms : list LocationRoom) (sourceID sourceName : string)
    : option LocationRoom :=
  first (fun room => if sameLocationIdentity (lr_ID room) (lr_Name room) sourceID sourceName
                     then Some room else None) rooms.

(** The location fields of a device: the effective home and room, the mode, and the
    ones its source reported. *)
Record location := MkLocation {
  at_HomeID : string; at_HomeName : string; at_RoomID : string; at_RoomName : string;
  at_Mode : LocationMode;
  from_HomeID : string; from_HomeName : string; from_RoomID : string; from_RoomName : string;
}.
Definition set_location (d : Device) (l : location) : Device :=
  match d with
  | MkDevice v i p n sn no t _ _ _ _ _ _ _ _ _ av on sq di re rm st me es lu =>
      MkDevice v i p n sn no t (at_HomeID l) (at_HomeName l) (at_RoomID l) (at_RoomName l) (at_Mode l)
        (from_HomeID l) (from_HomeName l) (from_RoomID l) (from_RoomName l) av on sq di re rm st me es lu
  end.

Definition applyDeviceLocation `{UnicodeLower} (p : Preferences) (item : Device) : Device :=
  let '(hi, hn, ri, rn) :=
    if is_empty (d_LocationMode item)
    then (d_HomeID item, d_HomeName item, d_RoomID item, d_RoomName item)
    else (d_SourceHomeID item, d_SourceHomeName item, d_SourceRoomID item, d_SourceRoomName item) in
  match locations p !! d_ID item with
  | Some c =>
      set_location item (MkLocation (lo_HomeID c) (lo_HomeName c) (lo_RoomID c) (lo_RoomName c)
        LocationModeCustom hi hn ri rn)
  | None =>
      match canonicalSourceHome (locationHomes p) hi hn with
      | None => set_location item (MkLocation hi hn ri rn LocationModeSource hi hn ri rn)
      | Some home =>
          match canonicalSourceRoom (lh_Rooms home) ri rn with
          | Some room => set_location item (MkLocation (lh_ID home) (lh_Name home) (lr_ID room)
              (lr_Name room) LocationModeSource hi hn ri rn)
          | None => set_location item (MkLocation (lh_ID home) (lh_Name home) ri rn
              LocationModeSource hi hn ri rn)
          end
      end
  end.

Definition set_name (d : Device) (name source : string) (overridden : bool) : Device :=
  match d with
  | MkDevice v i p _ _ _ t hi hn ri rn lm shi shn sri srn av on sq di re rm st me es lu =>
      MkDevice v i p name source overridden t hi hn ri rn lm shi shn sri srn av on sq di re rm st me es lu
  end.

Definition applyDeviceName (p : Preferences) (item : Device) : Device :=
  let sourceName := if is_empty (d_SourceName item) then d_Name item else d_SourceName item in
  match names p !! d_ID item with
  | Some name => set_name item name sourceName true
  | None => set_name item sourceName sourceName false
  end.

Definition set_LastUpdateAt (d : Device) (lu : Time) : Device :=
  match d with
  | MkDevice v i p n sn no t hi hn ri rn lm shi shn sri srn av on sq di re rm st me es _ =>
      MkDevice v i p n sn no t hi hn ri rn lm shi shn sri srn av on sq di re rm st me es lu
  end.

(** ** The mapper *)

Record ProviderPropertyProjection := MkProviderProjection {
  pj_Path : ParameterPath;
  pj_Definition : PropertyDefinition;
  pj_Value : PropertyValue;
  pj_BindingID : string;
  pj_Explicit : bool;
}.

(** The address of a property: Provider, device and path. *)
Record source := MkSource { src_ProviderID : string; src_DeviceID : string; src_Path : ParameterPath }.

(** An error of the mapper, two projections of a kind to one path (whether manual
    ones), or a device that breaks its contract. *)
Inductive MappingFailure (E : Type) :=
| MapperError (e : E)
| DuplicateProjection (explicit : bool) (path : ParameterPath) (deviceID : string)
| InvalidMappedDevice (e : ModelError).
Arguments MapperError {E} e.
Arguments DuplicateProjection {E} explicit path deviceID.
Arguments InvalidMappedDevice {E} e.

(** The interfaces [ConsumerPropertyMapper] and [ScopedConsumerPropertyMapper]. *)
Record ConsumerPropertyMapper (E : Type) := MkConsumerMapper {
  ProjectConsumerDevice : string -> Device -> result E Device;
  ResolveConsumerWrite : source -> string -> Type_ -> PropertyValue ->
    result E (ParameterPath * PropertyValue * string * bool);
}.
Record ScopedConsumerPropertyMapper (E : Type) := MkScopedMapper {
  ProjectConsumerDeviceInstance : string -> string -> string -> Device -> result E Device;
  ResolveConsumerWriteInstance : source -> string -> string -> string -> Type_ -> PropertyValue ->
    result E (ParameterPath * PropertyValue * string * bool);
}.
Arguments ProjectConsumerDevice {E} c. Arguments ResolveConsumerWrite {E} c.
Arguments ProjectConsumerDeviceInstance {E} s. Arguments ResolveConsumerWriteInstance {E} s.

(** The interface [PropertyMapper], and the ones a mapper may also implement
    ([PropertyPathMapper], [PropertyReadbackPolicyResolver],
    [ProviderPropertyProjector], [MissingProviderPropertyProjector],
    [ModelDefinitionMapper], the two above and [ScopedConsumerPropertyComposer]). *)
Record PropertyMapper (E : Type) := MkMapper {
  TransformProperty : source -> PropertyValue -> Direction -> result E (PropertyValue * string * bool);
  TransformPropertyDefinition : source -> PropertyDefinition -> result E (PropertyDefinition * string * bool);
  ResolvePropertyPath : option (source -> Direction -> result E (ParameterPath * string * bool));
  PropertyReadbackDelays : option (source -> option (list Duration));
  ProjectProviderProperty : option (source -> PropertyDefinition -> PropertyValue ->
    result E (list ProviderPropertyProjection));
  ProjectMissingProviderProperties : option (string -> string -> list ParameterPath ->
    result E (list ProviderPropertyProjection));
  ResolveModelDefinition : option (Type_ -> ParameterPath -> PropertyDefinition ->
    PropertyDefinition * bool);
  consumerMapper : option (ConsumerPropertyMapper E);
  scopedMapper : option (ScopedConsumerPropertyMapper E);
  ProjectConsumerDeviceSourcesInstance : option (string -> string -> string -> Type_ -> list Device ->
    result E Device);
}.
Arguments TransformProperty {E} p. Arguments TransformPropertyDefinition {E} p.
Arguments ResolvePropertyPath {E} p. Arguments PropertyReadbackDelays {E} p.
Arguments ProjectProviderProperty {E} p. Arguments ProjectMissingProviderProperties {E} p.
Arguments ResolveModelDefinition {E} p. Arguments consumerMapper {E} p.
Arguments scopedMapper {E} p. Arguments ProjectConsumerDeviceSourcesInstance {E} p.
Arguments MkMapper {E}.

(** ** The projection *)

(** A property to publish, and the names its endpoint and capability get when they are new. *)
Record projectedProperty := MkProjected {
  pr_path : ParameterPath;
  pr_property : Property;
  pr_endpointName : string;
  pr_endpointType : string;
  pr_capabilityType : string;
  pr_explicit : bool;
}.

(** The slice [projected] and the index [byTarget] into it. *)
Record projecting := MkProjecting {
  projected : list projectedProperty;
  byTarget : gmap string nat;
}.

Section Projection.
Context `{UnicodeLower} {E : Type}.
Implicit Types (mapper : option (PropertyMapper E)) (src : source).

Definition mapProperty mapper src (value : PropertyValue) (direction : Direction)
    : counted (MappingFailure E) (PropertyValue * string * bool) :=
  match mapper with
  | None => cret (value, "", false)
  | Some mp =>
      match TransformProperty mp src value direction with
      | Err e => do! _ := ccount mappingErrors in cfail (MapperError e)
      | Ok (mapped, bindingID, applied) =>
          do! _ := if applied : bool then ccount mappingApplied else cret tt in
          cret (mapped, bindingID, applied)
      end
  end.

Definition resolvePropertyPath mapper src (direction : Direction)
    : result (MappingFailure E) (ParameterPath * string * bool) :=
  match mapper ≫= ResolvePropertyPath with
  | None => Ok (src_Path src, "", false)
  | Some resolve =>
      match resolve src direction with
      | Ok r => Ok r
      | Err e => Err (MapperError e)
      end
  end.

Definition providerPropertyProjections mapper src (property : Property)
    : counted (MappingFailure E) (list ProviderPropertyProjection) :=
  match mapper with
  | None => cret [MkProviderProjection (src_Path src) (p_Definition property) (p_Value property) "" false]
  | Some mp =>
      match ProjectProviderProperty mp with
      | Some project =>
          match project src (p_Definition property) (p_Value property) with
          | Err e => do! _ := ccount mappingErrors in cfail (MapperError e)
          | Ok r =>
              do! _ := ceach (fun _ p => if pj_Explicit p then ccount mappingApplied else cret tt) tt r in
              cret r
          end
      | None =>
          match TransformPropertyDefinition mp src (p_Definition property) with
          | Err e => do! _ := ccount mappingErrors in cfail (MapperError e)
          | Ok (definition, _, definitionApplied) =>
              do! mapped := mapProperty mapper src (p_Value property) DirectionForward in
              let '(value, _, valueApplied) := mapped in
              match resolvePropertyPath mapper src DirectionForward with
              | Err e => do! _ := ccount mappingErrors in cfail e
              | Ok (path, _, pathApplied) =>
                  cret [MkProviderProjection path definition value ""
                          (definitionApplied || valueApplied || pathApplied)]
              end
          end
      end
  end.

(** The closure [addProjection] of [mapSnapshot]; [None] of the resolver is a mapper
    without model definitions. *)
Definition model_definition (mp : PropertyMapper E) (item : Device) (p : ProviderPropertyProjection)
    : option PropertyDefinition :=
  let definition := with_pd_ID (pj_Definition p) (pp_PropertyID (pj_Path p)) in
  match ResolveModelDefinition mp with
  | None => Some definition
  | Some resolve =>
      let '(definition, modelProperty) := resolve (d_Type item) (pj_Path p) definition in
      if modelProperty : bool then Some definition else None
  end.

Definition candidate_of (p : ProviderPropertyProjection) (definition : PropertyDefinition)
    (sourceProperty : Property) (en et ct : string) : projectedProperty :=
  MkProjected (pj_Path p)
    (MkProperty definition (alignEnumValue (pj_Value p) (pd_Enum definition)) (p_StateTransport sourceProperty))
    en et ct (pj_Explicit p).

Definition place (deviceID : string) (st : projecting) (candidate : projectedProperty)
    : result (MappingFailure E) projecting :=
  let key := path_key (pr_path candidate) in
  match byTarget st !! key with
  | None => Ok (MkProjecting (projected st ++ [candidate]) (<[key := List.length (projected st)]> (byTarget st)))
  | Some index =>
      match projected st !! index with
      | None => Ok st
      | Some current =>
          if pr_explicit current && negb (pr_explicit candidate) then Ok st
          else if Bool.eqb (pr_explicit current) (pr_explicit candidate)
          then Err (DuplicateProjection (pr_explicit candidate) (pr_path candidate) deviceID)
          else Ok (MkProjecting (<[index := candidate]> (projected st)) (byTarget st))
      end
  end.

Definition addProjection (mp : PropertyMapper E) (item : Device) (st : projecting)
    (p : ProviderPropertyProjection) (sourceProperty : Property) (en et ct : string)
    : counted (MappingFailure E) projecting :=
  match model_definition mp item p with
  | None => cret st
  | Some definition => clift (place (d_ID item) st (candidate_of p definition sourceProperty en et ct))
  end.

(** The pointer [ensureCapability] returns is used to change the capability, by [f]. *)
Definition ensureCapability (path : ParameterPath) (endpointName endpointType capabilityType : string)
    (f : Capability -> Capability) (endpoints : list Endpoint) : list Endpoint :=
  let endpointName' := if is_empty endpointName || negb (pp_EndpointID path =s "main")
                       then pp_EndpointID path else endpointName in
  let endpointType' := if is_empty endpointType || negb (pp_EndpointID path =s "main")
                       then pp_EndpointID path else endpointType in
  let capabilityType' := if is_empty capabilityType || is_empty (pp_CapabilityID path)
                         then pp_CapabilityID path else capabilityType in
  upsert ep_ID (pp_EndpointID path)
    (MkEndpoint (pp_EndpointID path) endpointName' endpointType'
      [MkCapability (pp_CapabilityID path) capabilityType' [] [] []])
    (logicalCapability (pp_CapabilityID path) capabilityType f) endpoints.

Definition append_property (p : Property) (c : Capability) : Capability :=
  with_Properties c (cap_Properties c ++ [p]).

Definition publish_projected (endpoints : list Endpoint) (p : projectedProperty) : list Endpoint :=
  ensureCapability (pr_path p) (pr_endpointName p) (pr_endpointType p) (pr_capabilityType p)
    (append_property (pr_property p)) endpoints.

(** Into the first endpoint and capability with the identifiers of the source, if any. *)
Definition preserve_commands (e : Endpoint) (endpoints : list Endpoint) (c : Capability) : list Endpoint :=
  match cap_Commands c with
  | [] => endpoints
  | commands =>
      default endpoints (update_first (fun target =>
        if String.eqb (ep_ID target) (ep_ID e) then
          Some (with_Capabilities target (default (ep_Capabilities target) (update_first (fun destination =>
            if String.eqb (cap_ID destination) (cap_ID c)
            then Some (with_Commands destination
                   (fold_left (fun l command => add_unique cd_ID command l) commands (cap_Commands destination)))
            else None) (ep_Capabilities target))))
        else None) endpoints)
  end.
Definition preserveIdentityCommands (source : Device) (endpoints : list Endpoint) : list Endpoint :=
  fold_left (fun l e => fold_left (preserve_commands e) (ep_Capabilities e) l) (d_Endpoints source) endpoints.

(** The properties of a device, in order, with their endpoint and capability. *)
Definition source_properties (item : Device) : list (Endpoint * Capability * Property) :=
  List.concat (List.map (fun e => List.concat (List.map (fun c =>
    List.map (fun p => (e, c, p)) (cap_Properties c)) (ep_Capabilities e))) (d_Endpoints item)).
Definition source_path (x : Endpoint * Capability * Property) : ParameterPath :=
  let '(e, c, p) := x in MkParameterPath (ep_ID e) (cap_ID c) (pd_ID (p_Definition p)).

Definition project_source mapper (mp : PropertyMapper E) (item : Device) (st : projecting)
    (x : Endpoint * Capability * Property) : counted (MappingFailure E) projecting :=
  let '(e, c, p) := x in
  do! projections := providerPropertyProjections mapper
    (MkSource (d_ProviderID item) (d_ID item) (source_path x)) p in
  ceach (fun st pj => addProjection mp item st pj p (ep_Name e) (ep_Type e) (cap_Type c)) st projections.

Definition project_missing (mp : PropertyMapper E) (item : Device) (st : projecting)
    (pj : ProviderPropertyProjection) : counted (MappingFailure E) projecting :=
  let placeholder := MkProperty (pj_Definition pj) (pj_Value pj) (StateTransportOther "") in
  do! st := addProjection mp item st pj placeholder (pp_EndpointID (pj_Path pj))
    (pp_EndpointID (pj_Path pj)) (pp_CapabilityID (pj_Path pj)) in
  do! _ := ccount mappingApplied in
  cret st.

(** Everything the mapper projects of [item], collected. *)
Definition collect mapper (mp : PropertyMapper E) (item : Device) : counted (MappingFailure E) projecting :=
  do! st := ceach (project_source mapper mp item) (MkProjecting [] ∅) (source_properties item) in
  match ProjectMissingProviderProperties mp with
  | None => cret st
  | Some project =>
      match project (d_ProviderID item) (d_ID item) (source_path <$> source_properties item) with
      | Err e => do! _ := ccount mappingErrors in cfail (MapperError e)
      | Ok missing => ceach (project_missing mp item) st missing
      end
  end.

Definition mapSnapshot (prefs : Preferences) mapper (item : Device) : counted (MappingFailure E) Device :=
  match mapper with
  | None => cret (applyDeviceName prefs (applyDeviceLocation prefs item))
  | Some mp =>
      do! st := collect mapper mp item in
      let endpoints := fold_left publish_projected (projected st) [] in
      let result := with_Endpoints item (preserveIdentityCommands item endpoints) in
      match NormalizeModelParameters result with
      | (_, Err e) => cfail (InvalidMappedDevice e)
      | (result, Ok _) => cret (applyDeviceName prefs (applyDeviceLocation prefs result))
      end
  end.

(** ** The latest native snapshot *)

(** What [SourceCatalog] answers: [None] when the Provider has none. *)
Definition Catalog := option (result unit (list Device)).

Definition sourceSnapshots mapper (catalog : Catalog) (fallback : list Device) : list Device :=
  match mapper, catalog with
  | Some _, Some (Ok (_ :: _ as items)) =>
      let byID : gmap string Device := fold_left (fun m item => <[d_ID item := item]> m) items ∅ in
      (fun item => default item (byID !! d_ID item)) <$> fallback
  | _, _ => fallback
  end.

Definition projectLatestSnapshot (prefs : Preferences) mapper (catalog : Catalog) (fallback : Device)
    : counted (MappingFailure E) Device :=
  match sourceSnapshots mapper catalog [fallback] with
  | [item] => mapSnapshot prefs mapper item
  | _ => mapSnapshot prefs mapper fallback
  end.

Definition alignProviderEnumValue (catalog : Catalog) (deviceID : string) (path : ParameterPath)
    (value : PropertyValue) : PropertyValue :=
  match pv_Type value, pv_String value, catalog with
  | ValueTypeEnum, Some _, Some (Ok items) =>
      default value (first (fun item =>
        if String.eqb (d_ID item) deviceID then
          (fun p => alignEnumValue value (pd_Enum (p_Definition p))) <$>
            PropertyAt item (pp_EndpointID path) (pp_CapabilityID path) (pp_PropertyID path)
        else None) items)
  | _, _, _ => value
  end.

End Projection.

(** ** The properties of a device *)

Lemma source_properties_bind d :
  source_properties d =
  d_Endpoints d ≫= fun e => ep_Capabilities e ≫= fun c => (fun p => (e, c, p)) <$> cap_Properties c.
Proof.
  unfold source_properties. induction (d_Endpoints d) as [|e es IH]; [done|]. cbn. rewrite IH. f_equal.
  clear. induction (ep_Capabilities e) as [|c cs IH]; [done|]. cbn. by rewrite IH.
Qed.

Lemma elem_of_source_properties d e c p :
  (e, c, p) ∈ source_properties d <->
  e ∈ d_Endpoints d /\ c ∈ ep_Capabilities e /\ p ∈ cap_Properties c.
Proof.
  rewrite source_properties_bind, list_elem_of_bind. split.
  - intros (e' & He & He'). apply list_elem_of_bind in He as (c' & Hc & Hc').
    apply list_elem_of_fmap in Hc as (p' & [= <- <- <-] & ?). done.
  - intros (He & Hc & Hp). exists e. split; [|done]. apply list_elem_of_bind. exists c.
    split; [|done]. apply list_elem_of_fmap. by exists p.
Qed.

(** ** Enumeration tokens *)

Lemma replace_double_dash_length s :
  has_double_dash s = true -> (String.length (replace_double_dash s) < String.length s)%nat.
Proof.
  enough (forall n s, (String.length s <= n)%nat ->
    (String.length (replace_double_dash s) <= String.length s)%nat /\
    (has_double_dash s = true -> (String.length (replace_double_dash s) < String.length s)%nat)) as H
    by (apply (H (String.length s)); lia).
  clear s. induction n as [|n IH]; intros [|a [|b r]] Hn; cbn [String.length] in Hn; try lia;
    try (cbn; split; [lia|discriminate]).
  assert (Hrep : replace_double_dash (String a (String b r)) =
    if Ascii.eqb a dash && Ascii.eqb b dash then String dash (replace_double_dash r)
    else String a (replace_double_dash (String b r))) by reflexivity.
  assert (Hhas : has_double_dash (String a (String b r)) =
    (Ascii.eqb a dash && Ascii.eqb b dash) || has_double_dash (String b r)) by reflexivity.
  rewrite Hrep, Hhas. destruct (Ascii.eqb a dash && Ascii.eqb b dash).
  - destruct (IH r) as [Hr _]; [lia|]. cbn [String.length]. split; [lia|intros _; lia].
  - destruct (IH (String b r)) as [Hr Hlt]; [cbn [String.length]; lia|].
    clear Hrep. generalize dependent (replace_double_dash (String b r)). intros rep Hr Hlt.
    cbn [String.length] in *. split; [lia|]. intros Hd. specialize (Hlt Hd). lia.
Qed.

Lemma collapse_done fuel s : (String.length s <= fuel)%nat -> has_double_dash (collapse fuel s) = false.
Proof.
  revert s. induction fuel as [|fuel IH]; intros s Hs; cbn [collapse].
  - destruct s; [done|cbn in Hs; lia].
  - destruct (has_double_dash s) eqn:Hd; [|done]. apply IH.
    pose proof (replace_double_dash_length s Hd). lia.
Qed.

(** ** Metrics do not change results *)

Definition steady {F A} (c : counted F A) : Prop := forall m m', (c m).2 = (c m').2.
Definition value_of {F A} (c : counted F A) : result F A := (c zero_metrics).2.

Section steady.
Context {F : Type}.

Lemma steady_ret {A} (a : A) : steady (F := F) (cret a).
Proof. done. Qed.
Lemma steady_fail {A} (e : F) : steady (A := A) (cfail e).
Proof. done. Qed.
Lemma steady_lift {A} (r : result F A) : steady (clift r).
Proof. done. Qed.
Lemma steady_count c : steady (F := F) (ccount c).
Proof. done. Qed.

Lemma cbind_value {A B} (c : counted F A) (k : A -> counted F B) m b :
  (cbind c k m).2 = Ok b -> exists a m', (c m).2 = Ok a /\ (k a m').2 = Ok b.
Proof.
  unfold cbind. destruct (c m) as [m' [a|e]]; [eauto|done].
Qed.

Lemma steady_value {A} (c : counted F A) m : steady c -> (c m).2 = value_of c.
Proof. intros Hc. apply Hc. Qed.

Lemma steady_bind {A B} (c : counted F A) (k : A -> counted F B) :
  steady c -> (forall a, steady (k a)) -> steady (cbind c k).
Proof.
  intros Hc Hk m m'. unfold cbind. specialize (Hc m m').
  destruct (c m) as [m1 [a|e]], (c m') as [m1' [a'|e']]; simpl in Hc; simplify_eq; [apply Hk|done].
Qed.

Lemma steady_each {S A} (f : S -> A -> counted F S) s l :
  (forall s x, steady (f s x)) -> steady (ceach f s l).
Proof.
  intros Hf. revert s. induction l as [|x l IH]; intros s; simpl; [done|].
  apply steady_bind; [apply Hf|intros; apply IH].
Qed.

End steady.

#[export] Hint Resolve steady_ret steady_fail steady_lift steady_count steady_bind steady_each : go.

(** ** Locations and names leave the model alone *)

Lemma validate_set_location d l : ValidateDevice (set_location d l) = ValidateDevice d.
Proof. by destruct d. Qed.
Lemma validate_set_name d n s b : ValidateDevice (set_name d n s b) = ValidateDevice d.
Proof. by destruct d. Qed.

Section preferences.
Context `{UnicodeLower}.

Lemma applyDeviceLocation_eq p d : exists l, applyDeviceLocation p d = set_location d l.
Proof.
  unfold applyDeviceLocation. destruct (is_empty (d_LocationMode d));
    (destruct (locations p !! d_ID d); [eauto|]);
    (destruct (canonicalSourceHome _ _ _); [|eauto]); destruct (canonicalSourceRoom _ _ _); eauto.
Qed.

Lemma applyDeviceName_eq p d : exists n s b, applyDeviceName p d = set_name d n s b.
Proof. unfold applyDeviceName. destruct (names p !! d_ID d); eauto. Qed.

Lemma preferences_eq p d : exists l n s b,
  applyDeviceName p (applyDeviceLocation p d) = set_name (set_location d l) n s b.
Proof.
  destruct (applyDeviceLocation_eq p d) as [l ->].
  destruct (applyDeviceName_eq p (set_location d l)) as (n & s & b & ->). eauto.
Qed.

Lemma preferences_endpoints p d :
  d_Endpoints (applyDeviceName p (applyDeviceLocation p d)) = d_Endpoints d.
Proof. destruct (preferences_eq p d) as (l & n & s & b & ->). by destruct d. Qed.

Lemma preferences_validate p d :
  ValidateDevice (applyDeviceName p (applyDeviceLocation p d)) = ValidateDevice d.
Proof.
  destruct (preferences_eq p d) as (l & n & s & b & ->).
  by rewrite validate_set_name, validate_set_location.
Qed.

End preferences.

(** ** What is collected *)

Lemma ceach_each {F S A} (f : S -> A -> counted F S) (g : S -> A -> result F S) s l m s' :
  (forall s x m s', (f s x m).2 = Ok s' -> g s x = Ok s') ->
  (ceach f s l m).2 = Ok s' -> each g s l = Ok s'.
Proof.
  intros Hfg. revert s m. induction l as [|x l IH]; intros s m; simpl; [by intros [= ->]|].
  intros (s1 & m1 & H1 & H2)%cbind_value. rewrite (Hfg _ _ _ _ H1). by eapply IH.
Qed.

Lemma each_omap {F S A B} (g : S -> B -> result F S) (h : A -> option B) s l :
  each (fun s x => match h x with None => Ok s | Some y => g s y end) s l = each g s (omap h l).
Proof.
  revert s. induction l as [|x l IH]; intros s; simpl; [done|].
  destruct (h x) as [y|]; simpl; [|apply IH]. destruct (g s y); [apply IH|done].
Qed.

Section collected.
Context `{UnicodeLower} {E : Type}.
Implicit Types (mapper : option (PropertyMapper E)) (mp : PropertyMapper E) (item : Device).

(** The projections of a source property. *)
Definition projections_of mapper item (x : Endpoint * Capability * Property)
    : list ProviderPropertyProjection :=
  match value_of (providerPropertyProjections mapper
    (MkSource (d_ProviderID item) (d_ID item) (source_path x)) x.2) with
  | Ok l => l
  | Err _ => []
  end.

Definition missing_of_mapper mp item : list ProviderPropertyProjection :=
  match ProjectMissingProviderProperties mp with
  | None => []
  | Some project =>
      match project (d_ProviderID item) (d_ID item) (source_path <$> source_properties item) with
      | Ok l => l
      | Err _ => []
      end
  end.

(** A projection the model accepts, as a candidate. *)
Definition accept mp item (sourceProperty : Property) (en et ct : string)
    (pj : ProviderPropertyProjection) : option projectedProperty :=
  (fun definition => candidate_of pj definition sourceProperty en et ct) <$> model_definition mp item pj.
Definition accept_missing mp item (pj : ProviderPropertyProjection) : option projectedProperty :=
  accept mp item (MkProperty (pj_Definition pj) (pj_Value pj) (StateTransportOther ""))
    (pp_EndpointID (pj_Path pj)) (pp_EndpointID (pj_Path pj)) (pp_CapabilityID (pj_Path pj)) pj.
Definition candidates_at mapper mp item (x : Endpoint * Capability * Property) : list projectedProperty :=
  omap (accept mp item x.2 (ep_Name x.1.1) (ep_Type x.1.1) (cap_Type x.1.2)) (projections_of mapper item x).

(** Every candidate for a place in the unified device, in the order they come. *)
Definition candidates mapper mp item : list projectedProperty :=
  (source_properties item ≫= candidates_at mapper mp item) ++
  omap (accept_missing mp item) (missing_of_mapper mp item).

Lemma steady_mapProperty mapper src v dir : steady (mapProperty mapper src v dir).
Proof.
  unfold mapProperty. destruct mapper as [mp|]; [|done].
  destruct (TransformProperty mp src v dir) as [[[? ?] []]|]; eauto with go.
Qed.

Lemma steady_projections mapper src p : steady (providerPropertyProjections mapper src p).
Proof.
  unfold providerPropertyProjections. destruct mapper as [mp|]; [|done].
  destruct (ProjectProviderProperty mp) as [project|].
  - destruct (project _ _ _); [|done].
    apply steady_bind; [apply steady_each; intros _ q; by destruct (pj_Explicit q)|done].
  - destruct (TransformPropertyDefinition mp _ _) as [[[? ?] ?]|]; [|done].
    apply steady_bind; [apply steady_mapProperty|]. intros [[? ?] ?].
    destruct (resolvePropertyPath (Some mp) src DirectionForward) as [[[? ?] ?]|]; done.
Qed.

Lemma addProjection_place mp item st pj p en et ct m st' :
  (addProjection mp item st pj p en et ct m).2 = Ok st' ->
  match accept mp item p en et ct pj with
  | None => Ok st
  | Some c => place (d_ID item) st c
  end = @Ok (MappingFailure E) _ st'.
Proof.
  unfold addProjection, accept. destruct (model_definition mp item pj) as [definition|]; simpl; [|done].
  done.
Qed.

Lemma project_source_place mapper mp item st x m st' :
  (project_source mapper mp item st x m).2 = Ok st' ->
  each (place (E := E) (d_ID item)) st (candidates_at mapper mp item x) = Ok st'.
Proof.
  destruct x as [[e c] p]. unfold project_source. intros (l & m1 & Hl & Hst)%cbind_value.
  assert (projections_of mapper item (e, c, p) = l) as Hp.
  { unfold projections_of. cbn [snd]. by rewrite <- (steady_value _ m (steady_projections mapper _ p)), Hl. }
  unfold candidates_at. rewrite Hp, <- each_omap.
  eapply ceach_each; [|exact Hst]. intros st0 pj m0 st1 Hadd. by apply addProjection_place in Hadd.
Qed.

Lemma collect_place mapper mp item m st :
  (collect mapper mp item m).2 = Ok st ->
  each (place (E := E) (d_ID item)) (MkProjecting [] ∅) (candidates mapper mp item) = Ok st.
Proof.
  unfold collect, candidates. intros (st1 & m1 & Hs & Hm)%cbind_value.
  rewrite each_app, <- each_bind.
  erewrite ceach_each; [|intros ? ? ? ?; apply project_source_place|exact Hs].
  unfold missing_of_mapper. destruct (ProjectMissingProviderProperties mp) as [project|]; [|exact Hm].
  destruct (project _ _ _) as [missing|e]; [|by apply cbind_value in Hm as (? & ? & ? & ?)].
  rewrite <- each_omap. eapply ceach_each; [|exact Hm].
  intros s pj m2 s' (s2 & m3 & Hadd & Hret)%cbind_value. apply addProjection_place in Hadd.
  apply cbind_value in Hret as (? & ? & _ & Hret). simpl in Hret. simplify_eq. exact Hadd.
Qed.

(** ** Manual projections win *)

Definition key_at (c : projectedProperty) : string := path_key (pr_path c).

(** After the candidates [done]: each is represented by one of the same path, by a
    manual one when there is one, and there is at most one manual one per path. *)
Record placed (done : list projectedProperty) (st : projecting) : Prop := {
  placed_from c : c ∈ projected st -> c ∈ done;
  placed_index key i : byTarget st !! key = Some i ->
    exists c, projected st !! i = Some c /\ key_at c = key;
  placed_all c : c ∈ done -> is_Some (byTarget st !! key_at c);
  placed_at i c : projected st !! i = Some c -> byTarget st !! key_at c = Some i;
  placed_once : NoDup (key_at <$> filter (fun c => pr_explicit c = true) done);
  placed_auto c c' : c ∈ projected st -> pr_explicit c = false -> c' ∈ done ->
    key_at c' = key_at c -> c' = c;
}.

Lemma placed_nil : placed [] (MkProjecting [] ∅).
Proof.
  constructor; simpl; try (by intros ? ?; rewrite ?lookup_empty, ?lookup_nil);
    try (intros; set_solver). constructor.
Qed.

Lemma filter_snoc_keys done c :
  key_at <$> filter (fun c => pr_explicit c = true) (done ++ [c]) =
  (key_at <$> filter (fun c => pr_explicit c = true) done) ++ (if pr_explicit c then [key_at c] else []).
Proof. rewrite filter_app, fmap_app, filter_cons. by destruct (pr_explicit c). Qed.

Lemma once_snoc done c :
  NoDup (key_at <$> filter (fun c => pr_explicit c = true) done) ->
  (pr_explicit c = true -> forall c', c' ∈ done -> key_at c' = key_at c -> pr_explicit c' = false) ->
  NoDup (key_at <$> filter (fun c => pr_explicit c = true) (done ++ [c])).
Proof.
  intros Hnd Hno. rewrite filter_snoc_keys. destruct (pr_explicit c); [|by rewrite app_nil_r].
  apply NoDup_app. split_and!; [done| |apply NoDup_singleton].
  intros k Hk ->%list_elem_of_singleton. apply list_elem_of_fmap in Hk as (c' & Heq & Hc').
  apply list_elem_of_filter in Hc' as [Hex Hin]. rewrite (Hno eq_refl c') in Hex by done. done.
Qed.

Lemma placed_snoc deviceID done st c st' :
  placed done st -> place (E := E) deviceID st c = Ok st' -> placed (done ++ [c]) st'.
Proof.
  intros [Hfrom Hidx Hall Hat Honce Hauto]. unfold place.
  destruct (byTarget st !! path_key (pr_path c)) as [i|] eqn:Hi.
  - destruct (Hidx _ _ Hi) as (w & Hw & Hkw). rewrite Hw.
    assert (Hwin : w ∈ projected st) by (by eapply list_elem_of_lookup_2).
    destruct (pr_explicit w) eqn:Hew, (pr_explicit c) eqn:Hec; simpl; try done; intros [= <-].
    + constructor; simpl; try done.
      * intros x Hx. apply elem_of_app. left. by apply Hfrom.
      * intros x [Hx|Hx]%elem_of_app; [by apply Hall|]. apply list_elem_of_singleton in Hx as ->. eauto.
      * apply once_snoc; [done|congruence].
      * intros x y Hx Hex [Hy|Hy]%elem_of_app Hk; [by apply Hauto|].
        apply list_elem_of_singleton in Hy as ->. exfalso.
        apply list_elem_of_lookup_1 in Hx as [j Hj]. pose proof (Hat j x Hj) as Hj'.
        unfold key_at in *. rewrite <- Hk, Hi in Hj'. congruence.
    + assert (Hlt : (i < List.length (projected st))%nat) by (by eapply lookup_lt_Some).
      assert (Hold : forall x, x ∈ done -> key_at x = key_at c -> x = w).
      { intros x Hx Hk. apply Hauto; try done. unfold key_at in *; congruence. }
      constructor; simpl.
      * intros x [j Hj]%list_elem_of_lookup_1. apply elem_of_app.
        apply list_lookup_insert_Some in Hj as [(_ & <- & _)|[_ Hj]]; [right; set_solver|].
        left. apply Hfrom. by eapply list_elem_of_lookup_2.
      * intros key j Hj. destruct (decide (i = j)) as [<-|Hne].
        { exists c. rewrite list_lookup_insert_eq by done. split; [done|].
          destruct (Hidx _ _ Hj) as (w' & Hw' & <-). unfold key_at in *; congruence. }
        rewrite list_lookup_insert_ne by done. by apply Hidx.
      * intros x [Hx|Hx]%elem_of_app; [by apply Hall|]. apply list_elem_of_singleton in Hx as ->. eauto.
      * intros j x Hj. destruct (decide (i = j)) as [<-|Hne].
        { rewrite list_lookup_insert_eq in Hj by done. by injection Hj as <-. }
        rewrite list_lookup_insert_ne in Hj by done. by apply Hat.
      * apply once_snoc; [done|]. intros _ x Hx Hk. by rewrite (Hold x Hx Hk).
      * intros x y Hx Hex Hy Hk. apply list_elem_of_lookup_1 in Hx as [j Hj].
        destruct (decide (i = j)) as [<-|Hne].
        { rewrite list_lookup_insert_eq in Hj by done. injection Hj as <-. congruence. }
        rewrite list_lookup_insert_ne in Hj by done.
        apply elem_of_app in Hy as [Hy|Hy]; [apply Hauto; try done; by eapply list_elem_of_lookup_2|].
        apply list_elem_of_singleton in Hy as ->. exfalso. pose proof (Hat j x Hj) as Hj'.
        unfold key_at in *. rewrite <- Hk, Hi in Hj'. congruence.
  - intros [= <-].
    assert (Hno : forall x, x ∈ done -> key_at x <> key_at c).
    { intros x Hx Hk. destruct (Hall x Hx) as [i' Hi']. unfold key_at in *. congruence. }
    constructor; simpl.
    + intros x [Hx|Hx]%elem_of_app; apply elem_of_app; [left; by apply Hfrom|by right].
    + intros key j. rewrite lookup_insert_Some. intros [[<- <-]|[_ Hj]].
      { exists c. by rewrite list_lookup_middle. }
      destruct (Hidx _ _ Hj) as (w & Hw & Hkw). exists w. split; [|done]. by apply lookup_app_l_Some.
    + intros x [Hx|Hx]%elem_of_app.
      { rewrite lookup_insert_ne; [by apply Hall|]. intros Hk. by apply (Hno x Hx). }
      apply list_elem_of_singleton in Hx as ->. unfold key_at. rewrite lookup_insert_eq. eauto.
    + intros j x [Hj|[Hge Hj]]%lookup_app_Some.
      { rewrite lookup_insert_ne; [by apply Hat|]. intros Hk.
        apply (Hno x); [|done]. apply Hfrom. by eapply list_elem_of_lookup_2. }
      apply list_lookup_singleton_Some in Hj as [Hz <-]. unfold key_at. rewrite lookup_insert_eq. f_equal. lia.
    + apply once_snoc; [done|]. intros _ x Hx Hk. by destruct (Hno x Hx).
    + intros x y [Hx|Hx]%elem_of_app Hex [Hy|Hy]%elem_of_app Hk.
      * by apply Hauto.
      * apply list_elem_of_singleton in Hy as ->. destruct (Hno x); [by apply Hfrom|done].
      * apply list_elem_of_singleton in Hx as ->. by destruct (Hno y).
      * by apply list_elem_of_singleton in Hx as ->, Hy as ->.
Qed.

Lemma each_placed deviceID l done st st' :
  placed done st -> each (place (E := E) deviceID) st l = Ok st' -> placed (done ++ l) st'.
Proof.
  revert done st. induction l as [|c l IH]; intros done st Hst; simpl.
  - intros [= <-]. by rewrite app_nil_r.
  - destruct (place deviceID st c) as [st1|] eqn:Hp; [|done]. intros Hl.
    rewrite cons_middle, app_assoc. apply (IH _ st1); [|done]. by eapply placed_snoc.
Qed.

Lemma collect_placed mapper mp item m st :
  (collect mapper mp item m).2 = Ok st -> placed (candidates mapper mp item) st.
Proof.
  intros Hc. apply collect_place in Hc. by apply (each_placed _ _ [] _ _ placed_nil) in Hc.
Qed.

End collected.

(** ** What is published *)

Definition published_of (l : list Endpoint) : list (ParameterPath * Property) :=
  l ≫= fun e => ep_Capabilities e ≫= published_in (ep_ID e).

Lemma update_first_bind {A B} (u : A -> option A) (g : A -> list B) (bs : list B) l l' :
  (forall x y, u x = Some y -> g y ≡ₚ g x ++ bs) ->
  update_first u l = Some l' -> l' ≫= g ≡ₚ (l ≫= g) ++ bs.
Proof.
  intros Hu. revert l'. induction l as [|x l IH]; intros l'; simpl; [done|].
  destruct (u x) as [y|] eqn:Hx.
  - intros [= <-]. cbn. rewrite (Hu _ _ Hx), <- !app_assoc. f_equiv. apply Permutation_app_comm.
  - destruct (update_first u l) as [l0|]; simpl; [|done]. intros [= <-]. cbn.
    rewrite (IH l0 eq_refl). by rewrite app_assoc.
Qed.

Lemma upsert_bind {A B} (id : A -> string) i (fresh : A) (f : A -> A) (g : A -> list B) (bs : list B) l :
  (forall x, id x = i -> g (f x) ≡ₚ g x ++ bs) -> id fresh = i -> g fresh = [] ->
  upsert id i fresh f l ≫= g ≡ₚ (l ≫= g) ++ bs.
Proof.
  intros Hf Hid Hfresh. unfold upsert. destruct (update_first _ l) as [l'|] eqn:Hu.
  - eapply update_first_bind; [|exact Hu]. intros x y. cbn beta.
    destruct (String.eqb_spec (id x) i) as [Hx|]; [|done]. intros [= <-]. by apply Hf.
  - rewrite bind_app. cbn. rewrite app_nil_r, (Hf fresh Hid), Hfresh. done.
Qed.

(** The path and the property a candidate publishes. *)
Definition published_as (c : projectedProperty) : ParameterPath * Property :=
  (MkParameterPath (pp_EndpointID (pr_path c)) (pp_CapabilityID (pr_path c))
     (pd_ID (p_Definition (pr_property c))), pr_property c).

Lemma published_publish l c :
  published_of (publish_projected l c) ≡ₚ published_of l ++ [published_as c].
Proof.
  unfold published_of, publish_projected, ensureCapability.
  apply upsert_bind; [|done|done]. intros e He. cbn [logicalCapability with_Capabilities ep_Capabilities ep_ID].
  apply upsert_bind; [|done|done]. intros k Hk.
  unfold append_property, published_in. cbn [with_Properties cap_Properties cap_ID].
  rewrite fmap_app, He, Hk. done.
Qed.

Lemma published_publish_all cs l :
  published_of (fold_left publish_projected cs l) ≡ₚ published_of l ++ (published_as <$> cs).
Proof.
  revert l. induction cs as [|c cs IH]; intros l; simpl; [by rewrite app_nil_r|].
  rewrite IH, published_publish, <- app_assoc. done.
Qed.

Lemma published_preserve e l c : published_of (preserve_commands e l c) ≡ₚ published_of l.
Proof.
  unfold preserve_commands. destruct (cap_Commands c) as [|x cmds]; [done|].
  destruct (update_first _ l) as [l'|] eqn:Hu; simpl; [|done].
  unfold published_of. rewrite <- (app_nil_r (l ≫= _)). eapply update_first_bind; [|exact Hu].
  intros t t'. cbn beta. destruct (String.eqb (ep_ID t) (ep_ID e)); [|done]. intros [= <-].
  cbn [with_Capabilities ep_Capabilities ep_ID]. rewrite app_nil_r.
  destruct (update_first _ (ep_Capabilities t)) as [caps|] eqn:Hc; simpl; [|done].
  rewrite <- (app_nil_r (ep_Capabilities t ≫= _)). eapply update_first_bind; [|exact Hc].
  intros k k'. cbn beta. destruct (String.eqb (cap_ID k) (cap_ID c)); [|done]. intros [= <-].
  unfold published_in. cbn. by rewrite app_nil_r.
Qed.

Lemma published_preserve_all item l : published_of (preserveIdentityCommands item l) ≡ₚ published_of l.
Proof.
  unfold preserveIdentityCommands. revert l. induction (d_Endpoints item) as [|e es IH]; intros l; simpl; [done|].
  rewrite IH. clear. revert l. induction (ep_Capabilities e) as [|c cs IH]; intros l; simpl; [done|].
  by rewrite IH, published_preserve.
Qed.

Section mapped.
Context `{UnicodeLower} {E : Type}.
Implicit Types (mp : PropertyMapper E) (item : Device).

(** What a successful projection is made of. *)
Lemma mapSnapshot_ok prefs mp item m d :
  (mapSnapshot prefs (Some mp) item m).2 = Ok d ->
  exists st result, placed (candidates (Some mp) mp item) st /\
    ValidateDevice (annotate result) = Ok tt /\ d_Type result = d_Type item /\
    published_of (d_Endpoints result) ≡ₚ (published_as <$> projected st) /\
    d = applyDeviceName prefs (applyDeviceLocation prefs (annotate result)).
Proof.
  unfold mapSnapshot. intros (st & m1 & Hst & Hd)%cbind_value.
  set (result := with_Endpoints item _) in Hd.
  exists st, result. unfold NormalizeModelParameters in Hd.
  destruct (ValidateDevice (annotate result)) as [[]|] eqn:Hv; [|done].
  injection Hd as <-. split_and!; [by eapply collect_placed|done|by destruct item| |done].
  assert (d_Endpoints result = preserveIdentityCommands item (fold_left publish_projected (projected st) []))
    as -> by (by destruct item).
  by rewrite published_preserve_all, published_publish_all.
Qed.

(** C35: what a projection publishes is safe and complete.  When [mapSnapshot] gives a
    device, that device is valid and keeps the contract of its type; every property it
    publishes is a candidate the model accepted (a native attribute the model does not
    define never escapes), at its place and annotated with the level of the contract,
    and it is a manual one if any manual candidate has that path; every candidate is
    represented by one of the same path; and no two manual candidates share a path. *)
Theorem projection_spec prefs mp item m d :
  (mapSnapshot prefs (Some mp) item m).2 = Ok d ->
  let cs := candidates (Some mp) mp item in
  let out c := ((published_as c).1,
    set_level (contract_level (d_Type item) (published_as c).1) (pr_property c)) in
  ValidateDevice d = Ok tt
  /\ (forall x, x ∈ published d -> exists c, c ∈ cs /\ x = out c /\
        (pr_explicit c = false -> forall c', c' ∈ cs -> key_at c' = key_at c -> c' = c))
  /\ (forall c, c ∈ cs -> exists w, w ∈ cs /\ key_at w = key_at c /\ out w ∈ published d)
  /\ NoDup (key_at <$> filter (fun c => pr_explicit c = true) cs).
Proof.
  intros Hd cs out. apply mapSnapshot_ok in Hd as (st & result & Hpl & Hv & Ht & Hpub & ->).
  rewrite preferences_validate. split; [done|].
  assert (Hpublished : forall x, x ∈ published (applyDeviceName prefs (applyDeviceLocation prefs (annotate result)))
    <-> exists c, c ∈ projected st /\ x = out c).
  { intros x. unfold published. rewrite preferences_endpoints. fold (published (annotate result)).
    rewrite published_annotate, list_elem_of_fmap, Ht. setoid_rewrite Hpub. split.
    - intros (y & -> & (c & -> & Hc)%list_elem_of_fmap). by exists c.
    - intros (c & Hc & ->). exists (published_as c). split; [done|]. by apply list_elem_of_fmap_2. }
  split_and!.
  - intros x (c & Hc & ->)%Hpublished. exists c. split_and!; [by eapply placed_from|done|].
    intros Hex c' Hc' Hk. by eapply placed_auto.
  - intros c Hc. destruct (placed_all _ _ Hpl c Hc) as [i Hi].
    destruct (placed_index _ _ Hpl _ _ Hi) as (w & Hw & Hk). apply list_elem_of_lookup_2 in Hw.
    exists w. split_and!; [by eapply placed_from|done|]. apply Hpublished. eauto.
  - by eapply placed_once.
Qed.

End mapped.

(** ** A concrete instance: a native attribute routed by hand over the automatic mapping *)

Definition ex_lower : UnicodeLower := fun s => s.

Definition power_path : ParameterPath := MkParameterPath "main" "switch" "power".

(** It routes [raw/vendor/on-off] to the power switch and leaves other paths alone;
    the model only knows the power switch. *)
Definition ex_mapper : PropertyMapper string :=
  MkMapper (fun _ value _ => Ok (value, "", false)) (fun _ definition => Ok (definition, "", false))
    None None
    (Some (fun src definition value =>
       Ok (if decide (src_Path src = MkParameterPath "raw" "vendor" "on-off")
           then [MkProviderProjection power_path definition value "route" true]
           else [MkProviderProjection (src_Path src) definition value "" false])))
    None
    (Some (fun _ path definition => (definition, bool_decide (path = power_path))))
    None None None.

Definition ex_native : Device :=
  with_Endpoints ex_switch (d_Endpoints ex_switch ++
    [MkEndpoint "raw" "Raw" "raw" [MkCapability "vendor" "vendor"
       [with_p_Value (with_p_Definition ex_power (with_pd_ID (p_Definition ex_power) "on-off")) (BoolValue true);
        with_p_Definition ex_power (with_pd_ID (p_Definition ex_power) "secret")] [] []]]).

Definition no_preferences : Preferences := MkPreferences ∅ ∅ [].

Definition ex_mapped : Device :=
  match (mapSnapshot (H := ex_lower) no_preferences (Some ex_mapper) ex_native zero_metrics).2 with
  | Ok d => d
  | Err _ => zero_device
  end.

(** the power switch shows the routed value, and the other native attributes are gone. *)
Lemma projection_spec_witness :
  (fun x => (x.1, p_Value x.2)) <$> published ex_mapped = [(power_path, BoolValue true)]
  /\ ValidateDevice ex_mapped = Ok tt.
Proof.
  split; [vm_compute; reflexivity|].
  exact (proj1 (projection_spec (H := ex_lower) no_preferences ex_mapper ex_native zero_metrics ex_mapped
    ltac:(vm_compute; reflexivity))).
Defined.
