(* ===== verification/MappingProjection.v ===== *)
(** * Projections through bindings:
    backend/internal/application/profile_binding_service.go (lines 147 to 599) and
    consumer_mapping_service.go

    The profile service as the mapper of the device service (the interface of
    DeviceProjection.v): Provider properties are projected along the bindings of their
    path, writes come back along the binding of the model property, and a consumer sees
    a device with the properties its bindings place. *)

From S2P Require Import Prelude Float64 DeviceModel Lookup ModelContract ConsumerCatalog LogicalDevice LogicalCompose.
From S2P Require Import MappingProfile MappingEngine MappingBinding MappingStore ProfileService ProfileInvariant.
From S2P Require Import DeviceProjection.

(** What a sampled definition was sampled for. *)
Inductive Sample := SampleMinimum | SampleMaximum | SampleStep | SampleOption (raw : string).

(** The errors; [None] is a preview without the payload the definition needs. *)
Inductive MapError :=
| UnknownProfile (id : string)
| ConversionFailed (bindingID : string) (e : PreviewError)
| DefinitionFailed (bindingID : string) (sample : Sample) (e : option PreviewError)
| NoSourceDevices (consumerDeviceID : string)
| UnsupportedType (consumerID : string) (t : Type_)
| ConsumerRefused (e : ConsumerError).

(** ** Bindings of a property *)

Definition probe (src : source) : Binding :=
  let p := src_Path src in
  MkBinding "" StageProvider "" (src_ProviderID src) (src_DeviceID src) (pp_EndpointID p) (pp_CapabilityID p)
    (pp_PropertyID p) "" "" "" "" "" "" "" "" "" false false [] None.

(** The model side of the probe of a write. *)
Definition model_probe (src : source) : Binding :=
  let p := src_Path src in
  MkBinding "" StageProvider "" (src_ProviderID src) (src_DeviceID src) (pp_EndpointID p) (pp_CapabilityID p)
    (pp_PropertyID p) "" "" (pp_EndpointID p) (pp_CapabilityID p) (pp_PropertyID p) "" "" "" "" false false [] None.

Definition enabled (s : ProfileService) (id : string) : option Binding :=
  match bindings s !! id with
  | Some b => if mb_Enabled b then Some b else None
  | None => None
  end.

(** The binding with its profile: no profile is an identity conversion. *)
Definition with_profile (s : ProfileService) (b : Binding) : result MapError (Binding * option Profile) :=
  if is_empty (mb_ProfileID b) then Ok (b, None)
  else match profileLocked s (mb_ProfileID b) with
       | None => Err (UnknownProfile (mb_ProfileID b))
       | Some p => Ok (b, Some p)
       end.

(** [None] when no binding applies. *)
Definition resolveProviderBinding (s : ProfileService) (src : source) (direction : Direction)
    : result MapError (option (Binding * option Profile)) :=
  let found := if is_reverse direction then bindingsByModel s !! ModelKey (model_probe src) ≫= enabled s
               else first (enabled s) (default [] (bindingsByKey s !! Key (probe src))) in
  match found with
  | None => Ok None
  | Some b => let! r := with_profile s b in Ok (Some r)
  end.

Definition preview (profile : Profile) (direction : Direction) (value : option PropertyValue)
    : result PreviewError PropertyValue :=
  let! r := Preview (MkPreviewRequest "" profile direction value) in Ok (rs_Value r).

Definition converted (b : Binding) (r : result PreviewError PropertyValue) : result MapError PropertyValue :=
  match r with Ok v => Ok v | Err e => Err (ConversionFailed (mb_ID b) e) end.

Definition TransformProperty (s : ProfileService) (src : source) (value : PropertyValue) (direction : Direction)
    : result MapError (PropertyValue * string * bool) :=
  let! r := resolveProviderBinding s src direction in
  match r with
  | None => Ok (value, "", false)
  | Some (b, None) => Ok (value, mb_ID b, true)
  | Some (b, Some profile) =>
      let! v := converted b (preview profile direction (Some value)) in Ok (v, mb_ID b, true)
  end.

Definition ResolvePropertyPath (s : ProfileService) (src : source) (direction : Direction)
    : result MapError (ParameterPath * string * bool) :=
  let! r := resolveProviderBinding s src direction in
  match r with
  | None => Ok (src_Path src, "", false)
  | Some (b, _) => Ok (if is_reverse direction then SourcePath b else ModelPath b, mb_ID b, true)
  end.

(** ** Definitions of converted properties *)

Definition with_pd_Step (d : PropertyDefinition) (x : option float64) : PropertyDefinition :=
  MkPropertyDefinition (pd_ID d) (pd_Name d) (pd_Type d) (pd_ParameterLevel d) (pd_Unit d) (pd_Readable d)
    (pd_Writable d) (pd_Notifiable d) (pd_Min d) (pd_Max d) x (pd_Enum d) (pd_StaleAfterSeconds d).
Definition with_pd_Range (d : PropertyDefinition) (lo hi : option float64) : PropertyDefinition :=
  MkPropertyDefinition (pd_ID d) (pd_Name d) (pd_Type d) (pd_ParameterLevel d) (pd_Unit d) (pd_Readable d)
    (pd_Writable d) (pd_Notifiable d) lo hi (pd_Step d) (pd_Enum d) (pd_StaleAfterSeconds d).
Definition with_pd_Unit (d : PropertyDefinition) (unit : string) : PropertyDefinition :=
  MkPropertyDefinition (pd_ID d) (pd_Name d) (pd_Type d) (pd_ParameterLevel d) unit (pd_Readable d)
    (pd_Writable d) (pd_Notifiable d) (pd_Min d) (pd_Max d) (pd_Step d) (pd_Enum d) (pd_StaleAfterSeconds d).
Definition with_pd_Type (d : PropertyDefinition) (t : ValueType) : PropertyDefinition :=
  MkPropertyDefinition (pd_ID d) (pd_Name d) t (pd_ParameterLevel d) (pd_Unit d) (pd_Readable d)
    (pd_Writable d) (pd_Notifiable d) (pd_Min d) (pd_Max d) (pd_Step d) (pd_Enum d) (pd_StaleAfterSeconds d).

Definition isWholeStepMultiple (value sourceStep : float64) : bool :=
  if fleb value fzero || fleb sourceStep fzero then false
  else let multiple := fdiv value sourceStep in
       fleb (Abs (fsub multiple (Round multiple))) (fmul (of_ratio 1 1000000000) (Max fone (Abs multiple))).

Definition applyBindingPresentationStep (d : PropertyDefinition) (b : Binding) : PropertyDefinition :=
  match mb_PresentationStep b, pd_Step d with
  | Some step, Some source =>
      if fleb source fzero || negb (isWholeStepMultiple step source) then d else with_pd_Step d (Some step)
  | _, _ => d
  end.

(** The closure [mapNumber]. *)
Definition mapNumber (profile : Profile) (value : float64) : result (option PreviewError) float64 :=
  let input := if value_type_eqb (pr_InputType profile) ValueTypeInt then IntValue (to_int64 value)
               else NumberValue value in
  match preview profile DirectionForward (Some input) with
  | Err e => Err (Some e)
  | Ok v => match pv_Int v, pv_Number v with
            | Some n, _ => Ok (of_Z n)
            | None, Some x => Ok x
            | None, None => Err None
            end
  end.

Definition sampled {A} (b : Binding) (sample : Sample) (r : result (option PreviewError) A) : result MapError A :=
  match r with Ok x => Ok x | Err e => Err (DefinitionFailed (mb_ID b) sample e) end.

Definition map_limit (b : Binding) (profile : Profile) (sample : Sample) (limit : option float64)
    : result MapError (option float64) :=
  match limit with
  | None => Ok None
  | Some x => let! y := sampled b sample (mapNumber profile x) in Ok (Some y)
  end.

(** A falling conversion exchanges the limits. *)
Definition ordered_limits (lo hi : option float64) : option float64 * option float64 :=
  match lo, hi with
  | Some x, Some y => if fgtb x y then (hi, lo) else (lo, hi)
  | _, _ => (lo, hi)
  end.

Definition hasNonlinearNumericTransform (profile : Profile) : bool :=
  existsb (fun t => match tr_Type t with
    | TransformReciprocal => true
    | TransformUnit => ((tr_FromUnit t =s "kelvin") && (tr_ToUnit t =s "mired")) ||
                       ((tr_FromUnit t =s "mired") && (tr_ToUnit t =s "kelvin"))
    | _ => false end) (pr_Transforms profile).

(** The step of the result: the increment of a linear conversion; [current] when it is zero. *)
Definition map_step (b : Binding) (profile : Profile) (current source : option float64)
    : result MapError (option float64) :=
  match source with
  | None => Ok current
  | Some x =>
      if hasNonlinearNumericTransform profile then Ok None
      else
        let! zero := sampled b SampleStep (mapNumber profile fzero) in
        let! stepped := sampled b SampleStep (mapNumber profile x) in
        let step := Abs (fsub stepped zero) in
        Ok (if fgtb step fzero then Some step
            else if value_type_eqb (pr_OutputType profile) ValueTypeInt then Some fone else current)
  end.

Definition map_option (b : Binding) (profile : Profile) (raw : string) : result MapError string :=
  sampled b (SampleOption raw)
    (match preview profile DirectionForward (Some (EnumValue raw)) with
     | Err e => Err (Some e)
     | Ok v => match pv_String v with Some s => Ok s | None => Err None end
     end).

Definition map_options (b : Binding) (profile : Profile) (options : list string) : result MapError (list string) :=
  each (fun mapped raw => let! s := map_option b profile raw in Ok (mapped ++ [s])) [] options.

Fixpoint unique_from (seen : gset string) (values : list string) : list string :=
  match values with
  | [] => []
  | v :: values => if is_empty v || bool_decide (v ∈ seen) then unique_from seen values
                   else v :: unique_from ({[v]} ∪ seen) values
  end.
Definition uniqueStrings (values : list string) : list string := unique_from ∅ values.

(** The options after one transform. *)
Definition transform_options (values : list string) (t : Transform) : list string :=
  match tr_Type t with
  | TransformRangeEnum => List.map rb_Value (tr_Bands t)
  | TransformBoolEnum => [tr_FalseValue t; tr_TrueValue t]
  | TransformEnum => omap (fun v => tr_Values t !! v) values
  | _ => values
  end.

Definition is_unit (t : Transform) : bool := match tr_Type t with TransformUnit => true | _ => false end.

(** The definition before anything is sampled: fields the new type has no use for are dropped. *)
Definition retyped (profile : Profile) (d : PropertyDefinition) : PropertyDefinition :=
  let r := with_pd_Type d (pr_OutputType profile) in
  let r := if numericType (pr_OutputType profile) then r
           else with_pd_Unit (with_pd_Step (with_pd_Range r None None) None) "" in
  if value_type_eqb (pr_OutputType profile) ValueTypeEnum then r else with_pd_Enum r [].

(** Limits and step of a conversion between numbers. *)
Definition map_limits (b : Binding) (profile : Profile) (d r : PropertyDefinition) : result MapError PropertyDefinition :=
  if numericType (pr_InputType profile) && numericType (pr_OutputType profile) then
    let! lo := map_limit b profile SampleMinimum (pd_Min d) in
    let! hi := map_limit b profile SampleMaximum (pd_Max d) in
    let '(lo, hi) := ordered_limits lo hi in
    let! step := map_step b profile (pd_Step r) (pd_Step d) in
    Ok (with_pd_Step (with_pd_Range r lo hi) step)
  else Ok r.

(** The last unit conversion names the unit. *)
Definition converted_unit (ts : list Transform) (r : PropertyDefinition) : PropertyDefinition :=
  fold_left (fun r t => if is_unit t then with_pd_Unit r (tr_ToUnit t) else r) ts r.

Definition transformProviderPropertyDefinition (b : Binding) (profile : Profile) (d : PropertyDefinition)
    : result MapError PropertyDefinition :=
  let to_enum := value_type_eqb (pr_OutputType profile) ValueTypeEnum in
  let! r := map_limits b profile d (retyped profile d) in
  check! (if value_type_eqb (pr_InputType profile) ValueTypeEnum && to_enum
          then map_options b profile (pd_Enum d) else Ok []) in
  let r := if to_enum then with_pd_Enum r (uniqueStrings (fold_left transform_options (pr_Transforms profile) (pd_Enum d)))
           else r in
  Ok (converted_unit (pr_Transforms profile) r).

Definition TransformPropertyDefinition (s : ProfileService) (src : source) (d : PropertyDefinition)
    : result MapError (PropertyDefinition * string * bool) :=
  let! r := resolveProviderBinding s src DirectionForward in
  match r with
  | None => Ok (d, "", false)
  | Some (b, None) => Ok (applyBindingPresentationStep d b, mb_ID b, true)
  | Some (b, Some profile) =>
      let! d := transformProviderPropertyDefinition b profile d in
      Ok (applyBindingPresentationStep d b, mb_ID b, true)
  end.

(** ** Projections of Provider properties *)

(** One manual route of a source property. *)
Definition project_binding (s : ProfileService) (d : PropertyDefinition) (value : PropertyValue) (b : Binding)
    : result MapError ProviderPropertyProjection :=
  let! r := with_profile s b in
  let! mapped :=
    (match r.2 with
     | None => Ok (d, value)
     | Some profile =>
         let! d := transformProviderPropertyDefinition b profile d in
         let! v := converted b (preview profile DirectionForward (Some value)) in Ok (d, v)
     end) in
  Ok (MkProviderProjection (ModelPath b) (applyBindingPresentationStep mapped.1 b) mapped.2 (mb_ID b) true).

Definition project_bindings (s : ProfileService) (d : PropertyDefinition) (value : PropertyValue) (bs : list Binding)
    : result MapError (list ProviderPropertyProjection) :=
  each (fun l b => let! p := project_binding s d value b in Ok (l ++ [p])) [] bs.

(** The enabled Provider bindings under the key of the property. *)
Definition routes (s : ProfileService) (src : source) : list Binding :=
  List.filter (fun b => is_provider (EffectiveStage b))
    (omap (enabled s) (default [] (bindingsByKey s !! Key (probe src)))).

Definition ProjectProviderProperty (s : ProfileService) (src : source) (d : PropertyDefinition) (value : PropertyValue)
    : result MapError (list ProviderPropertyProjection) :=
  let! l := project_bindings s d value (routes s src) in
  Ok (MkProviderProjection (src_Path src) d value "" false :: l).

Definition binding_id_le (a b : Binding) : Prop := string_le (mb_ID a) (mb_ID b).
#[export] Instance binding_id_le_dec : RelDecision binding_id_le.
Proof. unfold binding_id_le. solve_decision. Defined.

(** An enabled binding of the device whose source is absent and whose profile has a default. *)
Definition missing_route (s : ProfileService) (providerID deviceID : string) (available : gset string)
    (l : list (Binding * Profile)) (b : Binding) : result MapError (list (Binding * Profile)) :=
  if negb (is_provider (EffectiveStage b)) || negb (mb_Enabled b) || negb (mb_ProviderID b =s providerID) ||
     negb (mb_DeviceID b =s deviceID) || is_empty (mb_ProfileID b) then Ok l
  else if bool_decide (path_key (SourcePath b) ∈ available) then Ok l
  else match profileLocked s (mb_ProfileID b) with
       | None => Err (UnknownProfile (mb_ProfileID b))
       | Some profile => Ok (if present (pr_Default profile) then l ++ [(b, profile)] else l)
       end.

Definition project_default (l : list ProviderPropertyProjection) (x : Binding * Profile)
    : result MapError (list ProviderPropertyProjection) :=
  let '(b, profile) := x in
  let! v := converted b (preview profile DirectionForward None) in
  let path := ModelPath b in
  let d := MkPropertyDefinition (pp_PropertyID path) (pp_PropertyID path) (pr_OutputType profile)
             (ParameterOther "") "" true false true None None None [] 0 in
  Ok (l ++ [MkProviderProjection path (applyBindingPresentationStep d b) v (mb_ID b) true]).

Definition route_le (a b : Binding * Profile) : Prop := binding_id_le a.1 b.1.
#[export] Instance route_le_dec : RelDecision route_le.
Proof. unfold route_le. solve_decision. Defined.

(** [order] lists the identifiers of the bindings in the order [range] visits them. *)
Definition ProjectMissingProviderProperties (order : list string) (s : ProfileService) (providerID deviceID : string)
    (available : list ParameterPath) : result MapError (list ProviderPropertyProjection) :=
  let paths := list_to_set (List.map path_key available) in
  let! l := each (missing_route s providerID deviceID paths) [] (omap (fun id => bindings s !! id) order) in
  each project_default [] (merge_sort route_le l).

(** The merged schedules of the enabled bindings that read back; [None] when there are none. *)
Definition PropertyReadbackDelays (s : ProfileService) (src : source) : option (list Duration) :=
  match List.filter mb_ReadbackEnabled (omap (enabled s) (default [] (bindingsByKey s !! Key (probe src)))) with
  | [] => None
  | bs => Some (merge_sort Z.le
            (List.map (fun delay => delay * 1000000)
               (elements (list_to_set (List.concat (List.map mb_ReadbackDelaysMS bs)) : gset Z))))
  end.

(** ** Consumers *)

Definition consumer_probe (src : source) (targetID consumerDeviceID consumerID : string) (t : Type_) (target : string)
    : Binding :=
  MkBinding "" StageConsumer "" (src_ProviderID src) (src_DeviceID src) "" "" "" t "" "" "" "" consumerID targetID
    consumerDeviceID target false false [] None.

Definition resolveConsumerBinding (s : ProfileService) (src : source) (targetID consumerDeviceID consumerID : string)
    (t : Type_) (target : string) : result MapError (option (Binding * option Profile)) :=
  match head (default [] (bindingsByKey s !! Key (consumer_probe src targetID consumerDeviceID consumerID t target)))
        ≫= enabled s with
  | None => Ok None
  | Some b => let! r := with_profile s b in Ok (Some r)
  end.

Definition device_source (item : Device) : source := MkSource (d_ProviderID item) (d_ID item) (MkParameterPath "" "" "").

(** The property replaces the one with its identifier, or is the last one. *)
Definition replace_property (id : string) (p : Property) (c : Capability) : Capability :=
  with_Properties c (match update_first (fun x => if String.eqb (pd_ID (p_Definition x)) id then Some p else None)
                             (cap_Properties c) with
                     | Some l => l
                     | None => cap_Properties c ++ [p]
                     end).

Definition upsertConsumerProperty (item : Device) (path : ParameterPath) (p : Property) : Device :=
  with_Endpoints item
    (ensureCapability path (pp_EndpointID path) (pp_EndpointID path) (pp_CapabilityID path)
       (replace_property (pp_PropertyID path) p) (d_Endpoints item)).

(** The property the binding places at the parameter, if there is one. *)
Definition consumer_value (src : Device) (parameter : ConsumerParameterMapping) (b : Binding)
    (profile : option Profile) : result MapError (option Property) :=
  match property_at src (MappingBinding.ModelPath b), profile with
  | None, None => Ok None
  | None, Some profile =>
      match pr_Default profile with
      | None => Ok None
      | Some _ =>
          let! v := converted b (preview profile DirectionForward None) in
          let id := pp_PropertyID (cm_Source parameter) in
          Ok (Some (MkProperty (MkPropertyDefinition id id (pr_OutputType profile) (ParameterOther "") "" true false
                                  true None None None [] 0) v (StateTransportOther "")))
      end
  | Some p, None => Ok (Some p)
  | Some p, Some profile =>
      let! v := converted b (preview profile DirectionForward (Some (p_Value p))) in
      let! d := transformProviderPropertyDefinition b profile (p_Definition p) in
      Ok (Some (with_p_Definition (with_p_Value p v) d))
  end.

Definition applyConsumerProjection (result : Device) (src : Device) (parameter : ConsumerParameterMapping)
    (b : Binding) (profile : option Profile) : Prelude.result MapError (Device * bool) :=
  let! found := consumer_value src parameter b profile in
  match found with
  | None => Ok (result, false)
  | Some p =>
      let d := with_pd_Level (with_pd_ID (p_Definition p) (pp_PropertyID (cm_Source parameter))) (cm_Level parameter) in
      Ok (upsertConsumerProperty result (cm_Source parameter) (with_p_Definition p d), true)
  end.

Definition refused {A} (r : result ConsumerError A) : result MapError A :=
  match r with Ok x => Ok x | Err e => Err (ConsumerRefused e) end.

Definition project_parameter (s : ProfileService) (consumerID targetID consumerDeviceID : string) (item : Device)
    (result : Device) (parameter : ConsumerParameterMapping) : Prelude.result MapError Device :=
  let! r := resolveConsumerBinding s (device_source item) targetID consumerDeviceID consumerID (d_Type item)
              (cm_Target parameter) in
  match r with
  | None => Ok result
  | Some (b, profile) => let! r := applyConsumerProjection result item parameter b profile in Ok r.1
  end.

Definition ProjectConsumerDeviceInstance (s : ProfileService) (consumerID targetID consumerDeviceID : string)
    (item : Device) : result MapError Device :=
  match ConsumerContract consumerID (d_Type item) with
  | None => Ok item
  | Some contract =>
      let! result := each (project_parameter s consumerID targetID consumerDeviceID item) item (cc_Parameters contract) in
      check! refused (ProjectForConsumer result contract) in
      Ok result
  end.

Definition ProjectConsumerDevice (s : ProfileService) (consumerID : string) (item : Device) : result MapError Device :=
  ProjectConsumerDeviceInstance s consumerID "" "" item.

(** The first source with a binding that places the parameter. *)
Fixpoint project_from (s : ProfileService) (consumerID targetID consumerDeviceID : string) (t : Type_)
    (items : list Device) (result : Device) (parameter : ConsumerParameterMapping) : Prelude.result MapError Device :=
  match items with
  | [] => Ok result
  | src :: items =>
      let! r := resolveConsumerBinding s (device_source src) targetID consumerDeviceID consumerID t
                  (cm_Target parameter) in
      match r with
      | None => project_from s consumerID targetID consumerDeviceID t items result parameter
      | Some (b, profile) =>
          let! r := applyConsumerProjection result src parameter b profile in
          if r.2 : bool then Ok r.1
          else project_from s consumerID targetID consumerDeviceID t items r.1 parameter
      end
  end.

Definition set_Type (d : Device) (t : Type_) : Device :=
  match d with
  | MkDevice v i p n sn no _ hi hn ri rn lm shi shn sri srn av on sq di re rm st me es lu =>
      MkDevice v i p n sn no t hi hn ri rn lm shi shn sri srn av on sq di re rm st me es lu
  end.

(** One of the other sources: the latest update, and online when one of them is. *)
Definition join_source (result current : Device) : Device :=
  let result := if d_LastUpdateAt result <? d_LastUpdateAt current
                then set_LastUpdateAt result (d_LastUpdateAt current) else result in
  if IsOnline current then SetAvailability result AvailabilityOnline else result.

Definition ProjectConsumerDeviceSourcesInstance (s : ProfileService) (consumerID targetID consumerDeviceID : string)
    (targetType : Type_) (items : list Device) : result MapError Device :=
  match items with
  | [] => Err (NoSourceDevices consumerDeviceID)
  | primary :: others =>
      match ConsumerContract consumerID targetType with
      | None => Err (UnsupportedType consumerID targetType)
      | Some contract =>
          let result := set_Type primary targetType in
          let result := if negb (d_Type primary =s targetType) then with_Endpoints result [] else result in
          let result := fold_left join_source others result in
          let! result := each (project_from s consumerID targetID consumerDeviceID targetType items) result
                           (cc_Parameters contract) in
          check! refused (ProjectForConsumer result contract) in
          Ok result
      end
  end.

(** The first parameter of the contract with the path decides. *)
Definition ResolveConsumerWriteInstance (s : ProfileService) (src : source) (targetID consumerDeviceID consumerID : string)
    (t : Type_) (value : PropertyValue) : result MapError (ParameterPath * PropertyValue * string * bool) :=
  let identity := src_Path src in
  match ConsumerContract consumerID t ≫= fun contract =>
          first (fun m => if bool_decide (cm_Source m = identity) then Some m else None) (cc_Parameters contract) with
  | None => Ok (identity, value, "", false)
  | Some parameter =>
      let! r := resolveConsumerBinding s src targetID consumerDeviceID consumerID t (cm_Target parameter) in
      match r with
      | None => Ok (identity, value, "", false)
      | Some (b, None) => Ok (MappingBinding.ModelPath b, value, mb_ID b, true)
      | Some (b, Some profile) =>
          let! v := converted b (preview profile DirectionReverse (Some value)) in
          Ok (MappingBinding.ModelPath b, v, mb_ID b, true)
      end
  end.

Definition ResolveConsumerWrite (s : ProfileService) (src : source) (consumerID : string) (t : Type_)
    (value : PropertyValue) : result MapError (ParameterPath * PropertyValue * string * bool) :=
  ResolveConsumerWriteInstance s src "" "" consumerID t value.

(** The service as the mapper of the device service, with every optional interface. *)
Definition service_mapper (order : list string) (s : ProfileService) : PropertyMapper MapError :=
  MkMapper (TransformProperty s) (TransformPropertyDefinition s) (Some (ResolvePropertyPath s))
    (Some (PropertyReadbackDelays s)) (Some (ProjectProviderProperty s))
    (Some (ProjectMissingProviderProperties order s)) (Some (ProfileService.ResolveModelDefinition s))
    (Some (MkConsumerMapper _ (ProjectConsumerDevice s) (ResolveConsumerWrite s)))
    (Some (MkScopedMapper _ (ProjectConsumerDeviceInstance s) (ResolveConsumerWriteInstance s)))
    (Some (ProjectConsumerDeviceSourcesInstance s)).
