(* ===== verification/MappingRoutes.v ===== *)
(** * Where the projections of bindings lead

    Theorems on MappingProjection.v: writes come back to the property a projection came
    from, the snapshots of a valid device never have two candidates of a kind for one
    place, the definitions of converted properties fit their values, and what a consumer
    sees and what it writes go through the same binding. *)

From S2P Require Import Prelude Float64 DeviceModel Lookup ModelContract ConsumerCatalog LogicalDevice LogicalCompose.
From S2P Require Import MappingProfile MappingEngine MappingBinding MappingStore ProfileService ProfileInvariant.
From S2P Require Import DeviceProjection MappingProjection.

(** ** Bindings of a property *)

Lemma enabled_some s id b : enabled s id = Some b <-> bindings s !! id = Some b /\ mb_Enabled b = true.
Proof.
  unfold enabled. destruct (bindings s !! id) as [b'|]; [|naive_solver].
  destruct (mb_Enabled b') eqn:E; naive_solver congruence.
Qed.

Lemma is_provider_true t : is_provider t = true <-> t = StageProvider.
Proof. by destruct t. Qed.

(** A Provider binding of [src] that is switched on. *)
Record route (s : ProfileService) (src : source) (b : Binding) : Prop := {
  rt_stored : bindings s !! mb_ID b = Some b;
  rt_enabled : mb_Enabled b = true;
  rt_provider : EffectiveStage b = StageProvider;
  rt_source : src = MkSource (mb_ProviderID b) (mb_DeviceID b) (SourcePath b);
}.

Lemma provider_binding_ok b : binding_ok b -> EffectiveStage b = StageProvider ->
  ValidStableID (mb_ProviderID b) = true /\ ValidStableID (mb_DeviceID b) = true /\ path_ok (SourcePath b).
Proof. intros [_ _ _ [[_ [? ? ? ? ? _ _ _]]|[E _]]] Hp; [done|congruence]. Qed.

Lemma Key_probe src : Key (probe src) = provider_key (src_ProviderID src) (src_DeviceID src) (src_Path src).
Proof. by destruct src as [? ? []]. Qed.

Lemma Key_provider b : EffectiveStage b = StageProvider ->
  Key b = provider_key (mb_ProviderID b) (mb_DeviceID b) (SourcePath b).
Proof. intros E. unfold Key. by rewrite E. Qed.

Lemma ModelKey_probe src : ModelKey (model_probe src) = provider_key (src_ProviderID src) (src_DeviceID src) (src_Path src).
Proof.
  destruct src as [p d [e c q]]. unfold ModelKey. f_equal. unfold ModelPath, model_probe, SourcePath. simpl.
  by destruct (empty_path _).
Qed.

Lemma ModelKey_eq b : ModelKey b = provider_key (mb_ProviderID b) (mb_DeviceID b) (ModelPath b).
Proof. done. Qed.

Lemma elem_of_routes s src b : routed s -> b ∈ routes s src <-> route s src b.
Proof.
  intros Hr. unfold routes. rewrite list_elem_of_In, filter_In, <- list_elem_of_In, list_elem_of_omap, is_provider_true.
  split.
  - intros [(id & Hid & [Hb He]%enabled_some) Hp]. apply (bk_scan _ _ (bw_key _ _ _ Hr)) in Hid as (b' & Hb' & Hk).
    assert (b' = b) as -> by congruence. destruct (bw_valid _ _ _ Hr _ _ Hb) as [<- Hok].
    split; [done..|]. rewrite Key_probe, (Key_provider _ Hp) in Hk. apply provider_binding_ok in Hok as (? & ? & ?); [|done].
    apply provider_key_inj in Hk as (-> & -> & ->); [by destruct src|done..].
  - intros [Hb He Hp ->]. split; [|done]. exists (mb_ID b). split; [|by apply enabled_some].
    apply (bk_scan _ _ (bw_key _ _ _ Hr)). exists b. split; [done|]. by rewrite Key_probe, Key_provider.
Qed.

(** The binding of a model property is the one that writes to it follow. *)
Lemma reverse_binding s src b : routed s -> route s src b ->
  bindingsByModel s !! ModelKey (model_probe (MkSource (src_ProviderID src) (src_DeviceID src) (ModelPath b))) ≫=
    enabled s = Some b.
Proof.
  intros Hr [Hb He Hp ->]. rewrite ModelKey_probe. cbn [src_ProviderID src_DeviceID src_Path].
  assert (bindingsByModel s !! provider_key (mb_ProviderID b) (mb_DeviceID b) (ModelPath b) = Some (mb_ID b)) as ->.
  { apply (bw_model _ _ _ Hr). by exists b. }
  by apply enabled_some.
Qed.

(** Two bindings of a device do not lead to one model property. *)
Lemma routes_apart s src src' b b' : routed s -> route s src b -> route s src' b' ->
  src_ProviderID src = src_ProviderID src' -> src_DeviceID src = src_DeviceID src' -> ModelPath b = ModelPath b' -> b = b'.
Proof.
  intros Hr Hb Hb' Ep Ed Em. pose proof (reverse_binding s src b Hr Hb) as H. pose proof (reverse_binding s src' b' Hr Hb') as H'.
  rewrite Ep, Ed, Em in H. congruence.
Qed.

Lemma each_snoc_map {E A B} (f : A -> result E B) l acc r :
  each (fun acc x => let! y := f x in Ok (acc ++ [y])) acc l = Ok r ->
  exists ys, r = acc ++ ys /\ Forall2 (fun x y => f x = Ok y) l ys.
Proof.
  revert acc. induction l as [|x l IH]; intros acc H; simpl in H.
  - injection H as <-. exists []. by rewrite app_nil_r.
  - destruct (f x) as [y|] eqn:E1; [|done]. apply IH in H as (ys & -> & Hf). exists (y :: ys).
    by rewrite <- app_assoc; split; [|constructor].
Qed.

(** A manual projection comes from a binding, and the binding's profile converts it. *)
Lemma project_binding_ok s d v b p : project_binding s d v b = Ok p ->
  pj_Path p = ModelPath b /\ pj_BindingID p = mb_ID b /\ pj_Explicit p = true /\
  exists profile, with_profile s b = Ok (b, profile).
Proof.
  unfold project_binding. destruct (with_profile s b) as [[b' profile]|] eqn:E; [|done]. intros H.
  assert (b' = b) as ->.
  { unfold with_profile in E. destruct (is_empty _); [by injection E as <- _|].
    destruct (profileLocked _ _); [by injection E as <- _|done]. }
  cbv iota beta in H. destruct (match (b, profile).2 with None => _ | Some _ => _ end); [|done].
  injection H as <-. split_and!; [done..|by exists profile].
Qed.

Lemma projections_ok s src d v l : ProjectProviderProperty s src d v = Ok l ->
  exists ps, l = MkProviderProjection (src_Path src) d v "" false :: ps /\
    Forall2 (fun b p => project_binding s d v b = Ok p) (routes s src) ps.
Proof.
  unfold ProjectProviderProperty, project_bindings. destruct (each _ _ _) as [ps|] eqn:E; [|done].
  apply each_snoc_map in E as (ys & -> & Hf). intros [= <-]. by exists ys.
Qed.

(** C10: a manual projection of a Provider property lands on a model property whose writes
    come back to exactly that Provider property, along the same binding: in every state
    the service can reach, [ResolvePropertyPath] in reverse at the place of the projection
    answers the source path, and a write without conversion keeps its value. *)
Theorem writes_reach_their_source s src d v l p :
  memory_wf s -> ProjectProviderProperty s src d v = Ok l -> p ∈ l -> pj_Explicit p = true ->
  let target := MkSource (src_ProviderID src) (src_DeviceID src) (pj_Path p) in
  ResolvePropertyPath s target DirectionReverse = Ok (src_Path src, pj_BindingID p, true) /\
  exists b, bindings s !! pj_BindingID p = Some b /\
    forall w, TransformProperty s target w DirectionReverse =
      (let! r := with_profile s b in
       match r.2 with
       | None => Ok (w, mb_ID b, true)
       | Some profile => let! w' := converted b (preview profile DirectionReverse (Some w)) in Ok (w', mb_ID b, true)
       end).
Proof.
  intros Hs (ps & -> & Hf)%projections_ok [->|Hp]%elem_of_cons Hex; [done|]. intros target.
  apply list_elem_of_lookup in Hp as [i Hi]. destruct (Forall2_lookup_r _ _ _ _ _ Hf Hi) as (b & Hb & Hpb).
  apply list_elem_of_lookup_2, (elem_of_routes _ _ _ (mw_routed _ Hs)) in Hb.
  apply project_binding_ok in Hpb as (Ep & Ei & _ & profile & Hw).
  pose proof (reverse_binding s src b (mw_routed _ Hs) Hb) as Hrev. rewrite <- Ep in Hrev. fold target in Hrev.
  unfold ResolvePropertyPath, TransformProperty, resolveProviderBinding. cbn [is_reverse]. rewrite Hrev, Hw. cbv iota beta.
  rewrite Ei. destruct Hb as [Hb _ _ ->]. split; [done|]. exists b. split; [done|]. intros w. rewrite Hw.
  by destruct profile.
Qed.

(** ** Snapshots never clash *)

Section clashes.
Context {E : Type}.
Implicit Types (c : projectedProperty) (pj : ProviderPropertyProjection).

(** The place of a candidate and whether it is a manual one. *)
Definition tag c : string * bool := (key_at c, pr_explicit c).
Definition projection_tag pj : string * bool := (path_key (pj_Path pj), pj_Explicit pj).

Lemma place_fresh deviceID done st c : placed done st -> tag c ∉ tag <$> done ->
  exists st', place (E := E) deviceID st c = Ok st'.
Proof.
  intros Hst Hc. unfold place. destruct (byTarget st !! path_key (pr_path c)) as [i|] eqn:Hi; [|by eexists].
  destruct (placed_index _ _ Hst _ _ Hi) as (w & Hw & Hk). rewrite Hw.
  destruct (pr_explicit w && negb (pr_explicit c)); [by eexists|].
  destruct (Bool.eqb (pr_explicit w) (pr_explicit c)) eqn:Ee; [|by eexists]. exfalso. apply eqb_prop in Ee.
  apply Hc, list_elem_of_fmap. exists w. unfold tag. rewrite Ee, Hk. split; [done|].
  by eapply placed_from, list_elem_of_lookup_2.
Qed.

Lemma each_place_fresh deviceID l done st : placed done st -> NoDup (tag <$> done ++ l) ->
  exists st', each (place (E := E) deviceID) st l = Ok st'.
Proof.
  revert done st. induction l as [|c l IH]; intros done st Hst Hnd; simpl; [by eexists|].
  assert (Hc : tag c ∉ tag <$> done).
  { rewrite fmap_app in Hnd. apply NoDup_app in Hnd as (_ & Hd & _). intros Hin. apply (Hd _ Hin). by left. }
  destruct (place_fresh deviceID _ _ _ Hst Hc) as [st' Hp]. rewrite Hp. apply (IH (done ++ [c])).
  - by eapply placed_snoc.
  - by rewrite <- app_assoc.
Qed.

(** The error of two candidates of a kind for one place. *)
Definition clash (e : MappingFailure E) : Prop := exists explicit path id, e = DuplicateProjection explicit path id.

(** A computation that succeeds as [r] does, and clashes only when [r] does. *)
Definition follows {S} (r1 : result (MappingFailure E) S) (r : result (MappingFailure E) S) : Prop :=
  match r1 with Ok s => r = Ok s | Err e => clash e -> r = Err e end.

Lemma follows_each {S A} (f : S -> A -> counted (MappingFailure E) S) g s l m :
  (forall s x m, follows (f s x m).2 (g s x)) -> follows (ceach f s l m).2 (each g s l).
Proof.
  intros Hf. revert s m. induction l as [|x l IH]; intros s m; simpl; [done|].
  unfold cbind. specialize (Hf s x m). destruct (f s x m) as [m' [s'|e]]; simpl in *.
  - rewrite Hf. apply IH.
  - intros He. by rewrite Hf.
Qed.

Lemma follows_bind {S} (c : counted (MappingFailure E) S) (k : S -> counted (MappingFailure E) S) r rk m :
  follows (c m).2 r -> (forall s m, follows (k s m).2 (rk s)) ->
  follows (cbind c k m).2 (let! s := r in rk s).
Proof.
  intros Hc Hk. unfold cbind. destruct (c m) as [m' [s|e]]; simpl in *; [rewrite Hc; apply Hk|].
  intros He. by rewrite Hc.
Qed.

End clashes.

Lemma NoDup_injective {A B} (f : A -> B) l x y : NoDup (f <$> l) -> x ∈ l -> y ∈ l -> f x = f y -> x = y.
Proof.
  induction l as [|z l IH]; [set_solver|]. rewrite fmap_cons, NoDup_cons.
  intros [Hz Hnd] [->|Hx]%elem_of_cons [->|Hy]%elem_of_cons Hf; [done| | |by apply IH].
  - exfalso. apply Hz. rewrite Hf. by apply list_elem_of_fmap_2.
  - exfalso. apply Hz. rewrite <- Hf. by apply list_elem_of_fmap_2.
Qed.

Lemma NoDup_map_on {A B} (f : A -> B) l : NoDup l -> (forall x y, x ∈ l -> y ∈ l -> f x = f y -> x = y) -> NoDup (f <$> l).
Proof.
  induction l as [|z l IH]; [constructor|]. rewrite fmap_cons, !NoDup_cons. intros [Hz Hnd] Hf. split.
  - intros (y & E & Hy)%list_elem_of_fmap. apply Hz. rewrite (Hf z y); [done|by left|by right|done].
  - apply IH; [done|]. intros x y Hx Hy. apply Hf; by right.
Qed.

Lemma sublist_bind {A B} (f g : A -> list B) l : (forall x, f x `sublist_of` g x) -> (l ≫= f) `sublist_of` (l ≫= g).
Proof. intros H. induction l as [|x l IH]; simpl; [done|]. by apply sublist_app. Qed.

Lemma fmap_of_bind {A B C} (t : B -> C) (f : A -> list B) l : t <$> (l ≫= f) = l ≫= fun x => t <$> f x.
Proof. induction l as [|x l IH]; [done|]. rewrite !bind_cons, fmap_app. by f_equal. Qed.

Lemma sublist_omap {A B C} (f : A -> option B) (t : B -> C) (u : A -> C) l :
  (forall x y, f x = Some y -> t y = u x) -> (t <$> omap f l) `sublist_of` (u <$> l).
Proof.
  intros H. induction l as [|x l IH]; simpl; [done|]. destruct (f x) as [y|] eqn:Ex; simpl.
  - rewrite (H _ _ Ex). by apply sublist_skip.
  - by apply sublist_cons.
Qed.

Lemma path_key_injective p p' : path_ok p -> path_key p = path_key p' -> p = p'.
Proof.
  intros (He & Hc & Hp) E.
  change (join_nul [pp_EndpointID p; pp_CapabilityID p; pp_PropertyID p] =
          join_nul [pp_EndpointID p'; pp_CapabilityID p'; pp_PropertyID p']) in E.
  apply join_nul_inj in E; [|done|repeat constructor; by apply stable_nul_free].
  destruct p, p'. simpl in *. by simplify_eq.
Qed.

Section snapshots.
Context {lower : UnicodeLower} (s : ProfileService) (order : list string).
Hypothesis Hs : memory_wf s.
Hypothesis Horder : range_of (bindings s) order.
Implicit Types (item : Device).

Lemma follows_source item st x m :
  follows (project_source (Some (service_mapper order s)) (service_mapper order s) item st x m).2
    (each (place (d_ID item)) st (candidates_at (Some (service_mapper order s)) (service_mapper order s) item x)).
Proof.
  destruct x as [[e c] p]. unfold project_source, candidates_at, projections_of. cbn [fst snd].
  rewrite <- (steady_value _ m (steady_projections (Some (service_mapper order s)) _ p)).
  unfold cbind. destruct (providerPropertyProjections _ _ _ m) as [m' [l|er]] eqn:El; cbn [fst snd].
  - rewrite <- each_omap. apply follows_each. intros st0 pj m0. unfold addProjection, accept.
    destruct (model_definition (service_mapper order s) item pj); [|done]. unfold clift, follows. cbn [fmap option_fmap option_map snd].
    by destruct (place _ _ _).
  - intros (? & ? & ? & ->). exfalso. revert El. unfold providerPropertyProjections.
    cbn [service_mapper DeviceProjection.ProjectProviderProperty].
    destruct (ProjectProviderProperty s _ _ _); [|done]. unfold cbind.
    assert (Hno : forall l u m e, (ceach (fun _ q => if pj_Explicit q then ccount mappingApplied else cret tt) u l m).2
      <> @Err (MappingFailure MapError) unit e).
    { intros l0. induction l0 as [|q l0 IH]; intros u m0 e0; simpl; [done|]. unfold cbind. destruct (pj_Explicit q); apply IH. }
    destruct (ceach _ _ _ m) as [m1 [u|e1]] eqn:Ec; [done|].
    exfalso. apply (Hno a tt m e1). by rewrite Ec.
Qed.

Lemma follows_collect item m :
  follows (collect (Some (service_mapper order s)) (service_mapper order s) item m).2
    (each (place (d_ID item)) (MkProjecting [] ∅) (candidates (Some (service_mapper order s)) (service_mapper order s) item)).
Proof.
  unfold collect, candidates. rewrite each_app, <- each_bind. apply follows_bind.
  { apply follows_each. intros. apply follows_source. }
  intros st m'. unfold missing_of_mapper. cbn [service_mapper DeviceProjection.ProjectMissingProviderProperties].
  destruct (ProjectMissingProviderProperties _ _ _ _ _) as [l|e].
  - rewrite <- each_omap. apply follows_each. intros st0 pj m0. unfold project_missing, addProjection, accept_missing, accept.
    destruct (model_definition _ item pj); [|done]. unfold clift, cbind. cbn [fmap option_fmap option_map].
    by destruct (place _ _ _).
  - intros (? & ? & ? & [=]).
Qed.

Definition at_source item (x : Endpoint * Capability * Property) : source :=
  MkSource (d_ProviderID item) (d_ID item) (source_path x).

Definition model_tag (b : Binding) : string * bool := (path_key (ModelPath b), true).

(** The projections of a source property and of the absent ones, by their tags. *)
Lemma projections_tags item x :
  projection_tag <$> projections_of (Some (service_mapper order s)) item x `sublist_of`
    (path_key (source_path x), false) :: (model_tag <$> routes s (at_source item x)).
Proof.
  unfold projections_of. unfold value_of, providerPropertyProjections.
  cbn [service_mapper DeviceProjection.ProjectProviderProperty].
  destruct (ProjectProviderProperty s _ _ _) as [l|] eqn:El; [|apply sublist_nil_l].
  unfold cbind. destruct (ceach _ _ _ _) as [m [u|e]]; [|apply sublist_nil_l].
  apply projections_ok in El as (ps & -> & Hf). unfold cret. cbn [snd]. rewrite fmap_cons. apply sublist_skip.
  fold (at_source item x) in Hf. clear -Hf.
  induction Hf as [|b p bs ps Hp _ IH]; [done|]. apply project_binding_ok in Hp as (E1 & _ & E2 & _).
  rewrite !fmap_cons. unfold projection_tag at 1, model_tag at 1. rewrite E1, E2. by apply sublist_skip.
Qed.

(** The bindings whose defaults stand for absent properties. *)
Record absent item (available : gset string) (b : Binding) : Prop := {
  ab_stored : bindings s !! mb_ID b = Some b;
  ab_enabled : mb_Enabled b = true;
  ab_provider : EffectiveStage b = StageProvider;
  ab_device : mb_ProviderID b = d_ProviderID item /\ mb_DeviceID b = d_ID item;
  ab_source : path_key (SourcePath b) ∉ available;
}.

Lemma missing_ok item available bs acc l :
  Forall (fun b => bindings s !! mb_ID b = Some b) bs ->
  each (missing_route s (d_ProviderID item) (d_ID item) available) acc bs = Ok l ->
  exists l', l = acc ++ l' /\ l'.*1 `sublist_of` bs /\ Forall (absent item available) l'.*1.
Proof.
  revert acc l. induction bs as [|b bs IH]; intros acc l Hf H; simpl in H.
  { injection H as <-. exists []. by rewrite app_nil_r. }
  apply Forall_cons in Hf as [Hb Hf].
  assert (Hskip : forall l, each (missing_route s (d_ProviderID item) (d_ID item) available) acc bs = Ok l ->
    exists l', l = acc ++ l' /\ l'.*1 `sublist_of` b :: bs /\ Forall (absent item available) l'.*1).
  { intros l0 H0. apply IH in H0 as (l' & -> & Hsub & Ha); [|done]. exists l'. split_and!; [done|by apply sublist_cons|done]. }
  unfold missing_route at 1 in H.
  destruct (negb (is_provider (EffectiveStage b)) || _ || _ || _ || _) eqn:Eg; [by apply Hskip|].
  rewrite !orb_false_iff, !negb_false_iff, is_provider_true, !bool_decide_eq_true in Eg.
  destruct Eg as ((((Hp & He) & Epid) & Edev) & _).
  case_bool_decide as Ea; [by apply Hskip|]. destruct (profileLocked s (mb_ProfileID b)) as [profile|]; [|done].
  destruct (present (pr_Default profile)); [|by apply Hskip]. apply IH in H as (l' & -> & Hsub & Ha); [|done].
  exists ((b, profile) :: l'). rewrite <- app_assoc. split_and!; [done|by apply sublist_skip|]. rewrite fmap_cons.
  constructor; [|done]. done.
Qed.

Lemma ordered_bindings : NoDup (omap (fun id => bindings s !! id) order) /\
  Forall (fun b => bindings s !! mb_ID b = Some b) (omap (fun id => bindings s !! id) order).
Proof.
  assert (Hid : forall id b, bindings s !! id = Some b -> mb_ID b = id)
    by (intros id b Hb; by apply (bw_valid _ _ _ (mw_routed _ Hs))).
  split.
  - apply (NoDup_fmap_1 mb_ID). eapply sublist_NoDup; [exact (proj1 Horder)|].
    rewrite <- (list_fmap_id order) at 2. apply sublist_omap. exact Hid.
  - apply Forall_forall. intros b (id & _ & Hb)%list_elem_of_omap. by rewrite (Hid _ _ Hb).
Qed.

Lemma missing_tags item : exists bs,
  projection_tag <$> missing_of_mapper (service_mapper order s) item = model_tag <$> bs /\ NoDup bs /\
  Forall (absent item (list_to_set (path_key <$> (source_path <$> source_properties item)))) bs.
Proof.
  unfold missing_of_mapper. cbn [service_mapper DeviceProjection.ProjectMissingProviderProperties].
  destruct (ProjectMissingProviderProperties _ _ _ _ _) as [ps|] eqn:E; [|exists []; by split_and!; [|constructor|constructor]].
  unfold ProjectMissingProviderProperties in E. destruct ordered_bindings as [Hnd Hst].
  destruct (each (missing_route _ _ _ _) _ _) as [l|] eqn:El; [|done].
  apply missing_ok in El as (l' & -> & Hsub & Ha); [|done]. cbn [app] in E.
  exists (merge_sort route_le l').*1. assert (Hp : (merge_sort route_le l').*1 ≡ₚ l'.*1)
    by (apply fmap_Permutation, merge_sort_Permutation).
  split_and!.
  - revert E. generalize (merge_sort route_le l'). intros l E.
    assert (Hd : forall acc ps, each project_default acc l = Ok ps ->
      projection_tag <$> ps = (projection_tag <$> acc) ++ (model_tag <$> l.*1)).
    { clear. induction l as [|[b profile] l IH]; intros acc ps H; simpl in H.
      - injection H as <-. by rewrite app_nil_r.
      - unfold project_default at 1 in H. destruct (converted b _); [|done]. apply IH in H. rewrite H, fmap_app.
        by rewrite <- app_assoc. }
    by apply Hd in E.
  - rewrite Hp. by eapply sublist_NoDup.
  - rewrite Hp. exact Ha.
Qed.

(** The native properties of a valid device have distinct places. *)
Lemma concat_bind {A B} (f : A -> list B) l : List.concat (List.map f l) = l ≫= f.
Proof. induction l as [|x l IH]; [done|]. simpl. by rewrite IH. Qed.

Lemma source_places item : structure_ok item ->
  NoDup (source_properties item) /\
  (forall x, x ∈ source_properties item -> path_ok (source_path x)) /\
  (forall x y, x ∈ source_properties item -> y ∈ source_properties item ->
     path_key (source_path x) = path_key (source_path y) -> x = y).
Proof.
  intros Hst. destruct (so_endpoints _ Hst) as [He Hef]. rewrite Forall_forall in Hef.
  assert (Hcap : forall e, e ∈ d_Endpoints item -> claims cap_ID capability_ok (ep_Capabilities e)) by apply Hef.
  assert (Hprop : forall e c, e ∈ d_Endpoints item -> c ∈ ep_Capabilities e ->
    ValidStableID (cap_ID c) = true /\ claims (fun p => pd_ID (p_Definition p)) property_ok (cap_Properties c)).
  { intros e c Hin Hc. destruct (Hcap e Hin) as [_ Hf]. rewrite Forall_forall in Hf. by destruct (Hf c Hc) as [? [? _]]. }
  assert (Hok : forall x, x ∈ source_properties item -> path_ok (source_path x)).
  { intros [[e c] p] (Hin & Hc & Hp)%elem_of_source_properties. destruct (Hprop e c Hin Hc) as [? [_ Hf]].
    rewrite Forall_forall in Hf. destruct (Hf p Hp) as [? _]. destruct (Hef e Hin) as [? _]. done. }
  assert (Hinj : forall x y, x ∈ source_properties item -> y ∈ source_properties item ->
     path_key (source_path x) = path_key (source_path y) -> x = y).
  { intros x y Hx Hy E. apply path_key_injective in E; [|by apply Hok]. destruct x as [[e c] p], y as [[e' c'] p'].
    apply elem_of_source_properties in Hx as (Hx & Hc & Hp), Hy as (Hy & Hc' & Hp'). injection E as E1 E2 E3.
    apply (NoDup_injective _ _ _ _ He) in E1 as ->; [|done..].
    apply (NoDup_injective _ _ _ _ (proj1 (Hcap _ Hy))) in E2 as ->; [|done..].
    apply (NoDup_injective _ _ _ _ (proj1 (proj2 (Hprop _ _ Hy Hc)))) in E3 as ->; done. }
  split; [|done]. unfold source_properties. rewrite concat_bind. apply NoDup_bind; [| |by apply NoDup_fmap_1 in He].
  - intros e e' x _ _ H1 H2. rewrite concat_bind in H1, H2.
    apply list_elem_of_bind in H1 as (c & (p & -> & _)%list_elem_of_fmap & _).
    by apply list_elem_of_bind in H2 as (c' & (p' & [= -> _ _] & _)%list_elem_of_fmap & _).
  - intros e Hin. rewrite concat_bind. apply NoDup_bind.
    + intros c c' x _ _ (p & -> & _)%list_elem_of_fmap (p' & [= -> _] & _)%list_elem_of_fmap. done.
    + intros c Hc. apply NoDup_fmap; [by intros ? ? [= ->]|]. destruct (Hprop e c Hin Hc) as [_ [Hnd _]].
      by apply NoDup_fmap_1 in Hnd.
    + destruct (Hcap e Hin) as [Hnd _]. by apply NoDup_fmap_1 in Hnd.
Qed.

Lemma route_model_ok src b : route s src b -> path_ok (ModelPath b).
Proof. intros [Hb _ _ _]. by apply bo_model, (bw_valid _ _ _ (mw_routed _ Hs) _ _ Hb). Qed.

Lemma routes_NoDup src : NoDup (routes s src).
Proof.
  unfold routes. apply NoDup_ListNoDup, List.NoDup_filter, NoDup_ListNoDup. apply (NoDup_fmap_1 mb_ID).
  assert (Hsub : forall ids, mb_ID <$> omap (enabled s) ids `sublist_of` ids).
  { intros ids. rewrite <- (list_fmap_id ids) at 2. apply sublist_omap. intros id b [Hb _]%enabled_some.
    exact (proj1 (bw_valid _ _ _ (mw_routed _ Hs) _ _ Hb)). }
  eapply sublist_NoDup; [|apply Hsub].
  destruct (bindingsByKey s !! Key (probe src)) as [ids|] eqn:E; [|constructor].
  destruct (bk_sorted _ _ (bw_key _ _ _ (mw_routed _ Hs)) _ _ E) as (_ & _ & Hn). exact Hn.
Qed.

Lemma model_tag_inj src src' b b' : route s src b -> route s src' b' ->
  src_ProviderID src = src_ProviderID src' -> src_DeviceID src = src_DeviceID src' -> model_tag b = model_tag b' -> b = b'.
Proof.
  intros Hb Hb' Ep Ed [= E]. eapply routes_apart; [apply Hs|exact Hb|exact Hb'|done|done|].
  apply path_key_injective in E; [done|by eapply route_model_ok].
Qed.

Lemma absent_route item av b : absent item av b -> route s (MkSource (d_ProviderID item) (d_ID item) (SourcePath b)) b.
Proof. intros [? ? ? [<- <-] _]. by split. Qed.

Lemma candidate_tags item : structure_ok item ->
  NoDup (tag <$> candidates (Some (service_mapper order s)) (service_mapper order s) item).
Proof.
  intros Hst. destruct (source_places _ Hst) as (Hnd & Hok & Hinj). destruct (missing_tags item) as (bs & Em & Hbs & Ha).
  rewrite Forall_forall in Ha.
  set (at_x := fun x => (path_key (source_path x), false) :: (model_tag <$> routes s (at_source item x))).
  eapply (sublist_NoDup _ ((source_properties item ≫= at_x) ++ (model_tag <$> bs))).
  2: { unfold candidates. rewrite fmap_app, <- Em. apply sublist_app.
       - rewrite fmap_of_bind. apply sublist_bind. intros x. etransitivity; [|apply projections_tags].
         unfold candidates_at. apply sublist_omap. intros pj c. unfold accept. by destruct (model_definition _ _ _); [intros [= <-]|].
       - apply sublist_omap. intros pj c. unfold accept_missing, accept. by destruct (model_definition _ _ _); [intros [= <-]|]. }
  apply NoDup_app. split_and!.
  - apply NoDup_bind; [| |done].
    + intros x y t Hx Hy [->|(b & -> & Hb)%list_elem_of_fmap]%elem_of_cons [E|(b' & E & Hb')%list_elem_of_fmap]%elem_of_cons.
      * injection E as E. by apply Hinj.
      * done.
      * done.
      * apply elem_of_routes in Hb, Hb'; [|apply Hs..]. pose proof (model_tag_inj _ _ _ _ Hb Hb' eq_refl eq_refl E) as ->.
        apply Hinj; [done..|]. f_equal. destruct Hb as [_ _ _ Eb], Hb' as [_ _ _ Eb']. unfold at_source in *. congruence.
    + intros x Hx. constructor; [by intros (b & [=] & _)%list_elem_of_fmap|]. apply NoDup_map_on; [apply routes_NoDup|].
      intros b b' Hb Hb'. apply elem_of_routes in Hb, Hb'; [|apply Hs..]. by apply (model_tag_inj _ _ _ _ Hb Hb').
  - intros t (x & [->|(b & -> & Hb)%list_elem_of_fmap]%elem_of_cons & Hx)%list_elem_of_bind (b' & E & Hb')%list_elem_of_fmap; [done|].
    apply elem_of_routes in Hb; [|apply Hs]. pose proof (absent_route _ _ _ (Ha _ Hb')) as Hr.
    pose proof (model_tag_inj _ _ _ _ Hb Hr eq_refl eq_refl E) as ->.
    destruct Hb as [_ _ _ Eb]. apply (ab_source _ _ _ (Ha _ Hb')). apply elem_of_list_to_set.
    apply list_elem_of_fmap. exists (SourcePath b'). split; [done|]. apply list_elem_of_fmap. exists x.
    split; [|done]. unfold at_source in Eb. congruence.
  - apply NoDup_map_on; [done|]. intros b b' Hb Hb' E. eapply model_tag_inj; [by eapply absent_route, Ha..|done|done|exact E].
Qed.

End snapshots.

(** C11: with the bindings of the service, no two manual projections and no two automatic
    ones of a valid native device compete for one property of the unified model, whatever
    the profiles convert: [mapSnapshot] never fails with a duplicate. *)
Theorem snapshots_never_clash {lower : UnicodeLower} s order prefs item m explicit path id :
  memory_wf s -> range_of (bindings s) order -> ValidateStructure item = Ok tt ->
  (mapSnapshot prefs (Some (service_mapper order s)) item m).2 <> Err (DuplicateProjection explicit path id).
Proof.
  intros Hs Ho Hst%validate_structure_ok H. unfold mapSnapshot, cbind in H.
  pose proof (follows_collect s order item m) as Hf.
  destruct (each_place_fresh (E := MapError) (d_ID item) (candidates (Some (service_mapper order s)) (service_mapper order s) item)
    [] (MkProjecting [] ∅) placed_nil) as [st Hp]; [by apply candidate_tags|].
  destruct (collect (Some (service_mapper order s)) (service_mapper order s) item m) as [m' [st'|e]]; simpl in *.
  - by destruct (ValidateDevice _).
  - injection H as ->. rewrite Hf in Hp; [done|by eexists _, _, _].
Qed.
