(* ===== verification/MappingValues.v ===== *)
(** * The definitions and values of projected properties

    Theorems on MappingProjection.v: a projected value is one its projected definition
    offers, projected limits and steps stay well formed, and the schedules of read-backs
    are sorted and bounded. *)

From S2P Require Import Prelude Float64 DeviceModel Lookup ModelContract ConsumerCatalog LogicalDevice LogicalCompose.
From S2P Require Import MappingProfile MappingEngine MappingBinding MappingStore ProfileService ProfileInvariant.
From S2P Require Import DeviceProjection MappingProjection MappingRoutes.

(** ** The options of a pipeline *)

(** The value is one of the options. *)
Definition offered (values : list string) (v : PropertyValue) : Prop :=
  exists o, pv_String v = Some o /\ o <> "" /\ o ∈ values.

Lemma trim_nonempty s : TrimSpace s <> "" -> s <> "".
Proof. by intros H ->. Qed.

Lemma band_value_nonempty seen prev bands b : bands_from seen prev bands -> b ∈ bands -> rb_Value b <> "".
Proof.
  revert seen prev. induction bands as [|b' bands IH]; intros seen prev; [by intros _ ?%not_elem_of_nil|].
  intros (Hv & _ & _ & _ & _ & _ & Hr) [->|Hb]%elem_of_cons; [by apply trim_nonempty|by eapply IH].
Qed.

Lemma forward_options t ty v w values :
  transform_ok ty t -> typed ty v -> applyForward t v = Ok w ->
  (ty = ValueTypeEnum -> offered values v) -> next_type ty t = ValueTypeEnum ->
  offered (transform_options values t) w.
Proof.
  intros Ht Hv Hw Hin Hn. unfold transform_ok, applyForward, next_type, transform_options in *.
  destruct (tr_Type t); try done.
  - subst. done.
  - destruct Ht as [_ Hok]. subst ty. destruct (Hin eq_refl) as (o & Eo & _ & Ho). rewrite Eo in Hw. simpl in Hw.
    destruct (tr_Values t !! o) as [target|] eqn:El; [|done]. inversion Hv; subst. injection Hw as <-.
    exists target. split_and!; [done|by apply (eo_labels _ _ Hok) in El as []|]. apply list_elem_of_omap.
    injection Eo as ->. by exists o.
  - destruct Ht as [Hty (_ & Hb & _)]. destruct (loosely_numeric _ _ Hty (typed_loosely _ _ Hv)) as [x Ex]. rewrite Ex in Hw.
    cbn in Hw. destruct (band_for x (tr_Bands t)) as [b|] eqn:Eb; [|done]. apply band_for_elem in Eb. injection Hw as <-.
    exists (rb_Value b). split_and!; [done|by eapply band_value_nonempty|]. apply list_elem_of_fmap. by exists b.
  - destruct Ht as [-> (Ht & Hf & _)]. inversion Hv as [b| | | |]; subst. injection Hw as <-.
    exists (if b then tr_TrueValue t else tr_FalseValue t). split_and!; [done|destruct b; by apply trim_nonempty|].
    destruct b; set_solver.
Qed.

Lemma pipeline_options ty ts out values index v steps w steps' :
  pipeline ty ts out -> typed ty v -> run_forward index ts v steps = Ok (w, steps') ->
  (ty = ValueTypeEnum -> offered values v) -> out = ValueTypeEnum ->
  offered (fold_left transform_options ts values) w.
Proof.
  intros Hp. revert values index v steps. induction Hp as [ty|ty t ts out Ht _ IH]; intros values index v steps Hv H Hin Hout; simpl in *.
  { injection H as <- _. by apply Hin. }
  destruct (applyForward t v) as [v'|] eqn:E; [|done].
  pose proof (applyForward_safe t ty v Ht Hv) as Hs. rewrite E in Hs.
  eapply IH; [exact Hs|exact H| |done]. intros Hn. by eapply forward_options.
Qed.

(** What a forward preview of a value does. *)
Lemma preview_forward profile v w : preview profile DirectionForward (Some v) = Ok w ->
  profile_ok profile /\ typed (pr_InputType profile) (cloneValue v) /\ typed (pr_OutputType profile) w /\
  exists steps, run_forward 0 (pr_Transforms profile) (cloneValue v) [] = Ok (w, steps).
Proof.
  unfold preview, Preview. cbn [rq_Profile rq_Direction]. destruct (Validate profile) as [u|] eqn:Hv; [|done].
  destruct u. apply Validate_ok in Hv. cbn [is_reverse initial_value rq_Value].
  destruct (check_value ValueInvalid (cloneValue v) (pr_InputType profile)) as [u|] eqn:Hc; [|done]. destruct u.
  apply check_value_ok in Hc. pose proof (run_forward_safe _ _ _ 0 (cloneValue v) [] (po_pipeline _ Hv) Hc) as Hs.
  destruct (run_forward 0 (pr_Transforms profile) (cloneValue v) []) as [[x st]|]; [|done].
  assert (integerize DirectionForward (pr_Transforms profile) (pr_OutputType profile) x = Ok x) as ->
    by (unfold integerize; by destruct Hs).
  rewrite (proj2 (check_value_ok OutputInvalid x (pr_OutputType profile) tt) Hs). intros [= <-]. split_and!; [done..|].
  by eexists.
Qed.

Lemma elem_of_unique_from seen values o : o ∈ unique_from seen values <-> o ∈ values /\ o <> "" /\ o ∉ seen.
Proof.
  revert seen. induction values as [|v values IH]; intros seen; simpl; [set_solver|].
  destruct (is_empty v) eqn:Ev; simpl.
  { apply is_empty_true in Ev as ->. rewrite IH, elem_of_cons. naive_solver. }
  apply is_empty_false in Ev. case_bool_decide as Hv; rewrite ?elem_of_cons, IH.
  - split; [naive_solver|]. intros ([->|?] & ? & ?); [done|naive_solver].
  - rewrite not_elem_of_union, not_elem_of_singleton. destruct (decide (o = v)) as [->|]; naive_solver.
Qed.

Lemma unique_NoDup seen values : NoDup (unique_from seen values).
Proof.
  revert seen. induction values as [|v values IH]; intros seen; simpl; [constructor|].
  destruct (is_empty v || _); [apply IH|]. constructor; [|apply IH]. rewrite elem_of_unique_from. set_solver.
Qed.

(** ** Definitions *)

Lemma converted_unit_fields ts r : let r' := converted_unit ts r in
  pd_Type r' = pd_Type r /\ pd_Enum r' = pd_Enum r /\ pd_Min r' = pd_Min r /\ pd_Max r' = pd_Max r /\ pd_Step r' = pd_Step r.
Proof.
  unfold converted_unit. revert r. induction ts as [|t ts IH]; intros r; simpl; [done|].
  destruct (IH (if is_unit t then with_pd_Unit r (tr_ToUnit t) else r)) as (-> & -> & -> & -> & ->). by destruct (is_unit t).
Qed.

(** The fields a conversion decides. *)
Lemma converted_definition b profile d d' : transformProviderPropertyDefinition b profile d = Ok d' ->
  exists r, map_limits b profile d (retyped profile d) = Ok r /\
  pd_Type d' = pr_OutputType profile /\ pd_Min d' = pd_Min r /\ pd_Max d' = pd_Max r /\ pd_Step d' = pd_Step r /\
  (pr_OutputType profile = ValueTypeEnum ->
     pd_Enum d' = uniqueStrings (fold_left transform_options (pr_Transforms profile) (pd_Enum d))).
Proof.
  unfold transformProviderPropertyDefinition. cbv zeta.
  destruct (map_limits b profile d (retyped profile d)) as [r|] eqn:Er; [|done].
  assert (Ht : pd_Type r = pr_OutputType profile).
  { assert (Hb : pd_Type (retyped profile d) = pr_OutputType profile).
    { unfold retyped. destruct (numericType _), (value_type_eqb _ _); done. }
    unfold map_limits in Er. destruct (_ && _); [|by injection Er as <-].
    destruct (map_limit _ _ _ (pd_Min d)); [|done]. destruct (map_limit _ _ _ (pd_Max d)); [|done].
    destruct (ordered_limits _ _). destruct (map_step _ _ _ _); [|done]. by injection Er as <-. }
  destruct (if _ && _ then _ else _); [|done]. intros [= <-]. exists r.
  destruct (converted_unit_fields (pr_Transforms profile) (if value_type_eqb (pr_OutputType profile) ValueTypeEnum
    then with_pd_Enum r (uniqueStrings (fold_left transform_options (pr_Transforms profile) (pd_Enum d))) else r))
    as (-> & -> & -> & -> & ->).
  destruct (value_type_eqb (pr_OutputType profile) ValueTypeEnum) eqn:Ee; [done|]. split_and!; try done.
  intros E. by rewrite E in Ee.
Qed.

Lemma step_presentation d b : let d' := applyBindingPresentationStep d b in
  pd_Type d' = pd_Type d /\ pd_Enum d' = pd_Enum d /\ pd_Min d' = pd_Min d /\ pd_Max d' = pd_Max d /\
  (pd_Step d' = pd_Step d \/ pd_Step d' = mb_PresentationStep b /\ is_Some (mb_PresentationStep b)).
Proof.
  unfold applyBindingPresentationStep. destruct (mb_PresentationStep b) as [x|]; [|by split_and!; try done; left].
  destruct (pd_Step d) as [y|] eqn:E; [|by split_and!; try done; left]. destruct (_ || _).
  - split_and!; try done. by left.
  - split_and!; try done. right. done.
Qed.

(** Every projection: the source itself, one of a binding without conversion, or a converted one. *)
Lemma projection_cases s src d v l p : routed s -> ProjectProviderProperty s src d v = Ok l -> p ∈ l ->
  (pj_Definition p = d /\ pj_Value p = v) \/
  exists b, route s src b /\
    ((pj_Definition p = applyBindingPresentationStep d b /\ pj_Value p = v) \/
     exists profile d', transformProviderPropertyDefinition b profile d = Ok d' /\
       pj_Definition p = applyBindingPresentationStep d' b /\ preview profile DirectionForward (Some v) = Ok (pj_Value p)).
Proof.
  intros Hr (ps & -> & Hf)%projections_ok [->|Hp]%elem_of_cons; [by left|right].
  apply list_elem_of_lookup in Hp as [i Hi]. destruct (Forall2_lookup_r _ _ _ _ _ Hf Hi) as (b & Hb & Hpb).
  apply list_elem_of_lookup_2, (elem_of_routes _ _ _ Hr) in Hb. exists b. split; [done|].
  unfold project_binding in Hpb. destruct (with_profile s b) as [[b' profile]|] eqn:E; [|done].
  assert (b' = b) as ->.
  { unfold with_profile in E. destruct (is_empty _); [by injection E as <- _|].
    destruct (profileLocked _ _); [by injection E as <- _|done]. }
  cbv iota beta in Hpb. cbn [snd] in Hpb. destruct profile as [profile|]; [right|left; by injection Hpb as <-].
  destruct (transformProviderPropertyDefinition b profile d) as [d'|] eqn:Ed; [|done].
  unfold converted in Hpb. destruct (preview profile DirectionForward (Some v)) as [w|] eqn:Ew; [|done].
  injection Hpb as <-. by exists profile, d'.
Qed.

Lemma admits_typed d v : admits d v -> typed (pd_Type d) v.
Proof. intros [b E|n E _|x E Hx _|o E|o E _]; rewrite E; by constructor. Qed.

Lemma typed_clone ty v : typed ty v -> cloneValue v = v.
Proof. by intros []. Qed.

(** ** Theorems *)

(** what is published of a property fits its published definition: when a Provider
    property holds a value its definition admits, every projection of it to a property
    that is not numeric (through any profile: bands, labels, thresholds, option maps)
    holds a value that its projected definition admits; a projected option is one of the
    options the projected definition offers. *)
Theorem projected_values_admitted s src d v l p :
  memory_wf s -> ProjectProviderProperty s src d v = Ok l -> p ∈ l ->
  admits d v -> v <> EnumValue "" -> numericType (pd_Type (pj_Definition p)) = false ->
  admits (pj_Definition p) (pj_Value p).
Proof.
  intros Hs Hl Hp Hv Hne Hnum.
  destruct (projection_cases _ _ _ _ _ _ (mw_routed _ Hs) Hl Hp) as [[-> ->]|(b & _ & Hc)]; [done|].
  destruct Hc as [[Ed ->]|(profile & d' & Ht & Ed & Hw)].
  - rewrite Ed in *. destruct (step_presentation d b) as (E1 & E2 & E3 & E4 & _).
    destruct Hv as [? E|? E Hl'|? E Hf Hl'|? E|? E Hin]; constructor; rewrite ?E1, ?E2; try done;
      unfold in_limits in *; rewrite E3, E4; exact Hl'.
  - destruct (step_presentation d' b) as (E1 & E2 & _). rewrite <- Ed in E1, E2.
    apply converted_definition in Ht as (r & _ & Et & _ & _ & _ & He). rewrite E1, Et in Hnum.
    apply preview_forward in Hw as (Hok & Hin & Hout & steps & Hrun). pose proof (admits_typed _ _ Hv) as Hty.
    rewrite (typed_clone _ _ Hty) in Hin, Hrun.
    destruct (pr_OutputType profile) eqn:Eo; try done; inversion Hout; subst; [constructor; congruence..|].
    assert (Ho : offered (fold_left transform_options (pr_Transforms profile) (pd_Enum d)) (pj_Value p)).
    { eapply pipeline_options; [exact (po_pipeline _ Hok)|exact Hin|exact Hrun| |by rewrite Eo].
      intros E. rewrite E in Hin. destruct Hv as [| | | |o' ? Ho']; try by inversion Hin. exists o'.
      split_and!; [done|congruence|done]. }
    destruct Ho as (o & Eo' & Hone & Hoin). rewrite <- H in *. injection Eo' as <-. constructor; [congruence|].
    rewrite E2, (He eq_refl). unfold uniqueStrings. apply elem_of_unique_from. set_solver.
Qed.

(** The limits are in order and the step is positive. *)
Definition scaled (d : PropertyDefinition) : Prop :=
  (forall lo hi, pd_Min d = Some lo -> pd_Max d = Some hi -> fltb hi lo = false) /\
  (forall x, pd_Step d = Some x -> fleb x fzero = false).

Lemma scaled_source d : definition_ok d -> scaled d.
Proof. intros [_ Hr Hs _]. by split. Qed.

Lemma fltb_asym x y : fltb x y = true -> fltb y x = false.
Proof.
  unfold fltb, SFltb. rewrite (SFcompare_antisym x y). by destruct (SFcompare x y) as [[]|].
Qed.

Lemma fltb_fleb_false x y : fltb x y = true -> fleb y x = false.
Proof.
  unfold fltb, fleb, SFltb, SFleb. rewrite (SFcompare_antisym x y). by destruct (SFcompare x y) as [[]|].
Qed.

Lemma ordered_limits_ok lo hi lo' hi' x y : ordered_limits lo hi = (lo', hi') -> lo' = Some x -> hi' = Some y -> fltb y x = false.
Proof.
  unfold ordered_limits. destruct lo as [a|], hi as [b|]; try (intros [= <- <-]; done).
  rewrite fgtb_fltb. destruct (fltb b a) eqn:E; intros [= <- <-] [= <-] [= <-]; [by apply fltb_asym|done].
Qed.

Lemma at_least_positive x : finite x = true -> fltb x minimumPresentationStep = false -> fleb x fzero = false.
Proof.
  intros Hf Hmin. apply not_true_iff_false. intros Hx. apply finite_not_nan in Hf.
  assert (Hge : fleb minimumPresentationStep x = true) by (rewrite fleb_total, Hmin; done).
  by pose proof (fleb_trans _ _ _ Hf Hge Hx).
Qed.

Lemma map_step_positive b profile current source step :
  map_step b profile current source = Ok (Some step) -> (forall x, current = Some x -> fleb x fzero = false) ->
  fleb step fzero = false.
Proof.
  unfold map_step. intros H Hc. destruct source as [x|]; [|injection H as ->; by apply Hc].
  destruct (hasNonlinearNumericTransform profile); [done|].
  destruct (sampled b SampleStep (mapNumber profile fzero)) as [z|]; [|done].
  destruct (sampled b SampleStep (mapNumber profile x)) as [y|]; [|done]. cbv zeta in H.
  destruct (fgtb _ fzero) eqn:E; [injection H as <-; by apply fltb_fleb_false|].
  destruct (value_type_eqb _ _); [by injection H as <-|]. injection H as ->. by apply Hc.
Qed.

Lemma map_limits_scaled b profile d r : scaled d -> map_limits b profile d (retyped profile d) = Ok r -> scaled r.
Proof.
  intros [Hlim Hstep] H. unfold map_limits in H.
  assert (Hbase : scaled (retyped profile d)).
  { unfold retyped. destruct (numericType (pr_OutputType profile)), (value_type_eqb (pr_OutputType profile) ValueTypeEnum); by split. }
  destruct (_ && _); [|by injection H as <-].
  destruct (map_limit _ _ _ (pd_Min d)) as [lo|]; [|done]. destruct (map_limit _ _ _ (pd_Max d)) as [hi|]; [|done].
  destruct (ordered_limits lo hi) as [lo' hi'] eqn:El. destruct (map_step _ _ _ _) as [step|] eqn:Es; [|done].
  injection H as <-. split; simpl.
  - intros x y Hx Hy. by eapply ordered_limits_ok.
  - intros x ->. eapply map_step_positive; [exact Es|]. intros y Hy. by apply (proj2 Hbase).
Qed.

(** conversions keep limits ordered and steps positive: whatever a well-formed numeric
    definition is converted by (falling conversions exchange the limits, nonlinear ones
    have no step, a binding may ask for a coarser step to show), the definition that is
    published has a lower limit that does not exceed the upper one, and a positive step. *)
Theorem projected_limits_ordered s src d v l p :
  memory_wf s -> ProjectProviderProperty s src d v = Ok l -> p ∈ l -> definition_ok d ->
  (forall lo hi, pd_Min (pj_Definition p) = Some lo -> pd_Max (pj_Definition p) = Some hi -> fltb hi lo = false) /\
  (forall x, pd_Step (pj_Definition p) = Some x -> fleb x fzero = false).
Proof.
  intros Hs Hl Hp Hd.
  destruct (projection_cases _ _ _ _ _ _ (mw_routed _ Hs) Hl Hp) as [[-> _]|(b & Hb & Hc)]; [by apply scaled_source|].
  assert (Hd' : exists d', pj_Definition p = applyBindingPresentationStep d' b /\ scaled d').
  { destruct Hc as [[Ed _]|(profile & d' & Ht & Ed & _)]; [exists d; split; [done|by apply scaled_source]|].
    exists d'. split; [done|]. apply converted_definition in Ht as (r & Hr & _ & E1 & E2 & E3 & _).
    apply map_limits_scaled in Hr; [|by apply scaled_source]. unfold scaled in *. by rewrite E1, E2, E3. }
  destruct Hd' as (d' & -> & Hlim & Hstep). destruct (step_presentation d' b) as (_ & _ & E3 & E4 & E5). rewrite E3, E4.
  split; [done|]. destruct E5 as [->|[-> _]]; [done|]. intros x Hx. destruct Hb as [Hb _ Hpr _].
  destruct (bw_valid _ _ _ (mw_routed _ Hs) _ _ Hb) as [_ [_ _ _ [[_ Hok]|[? _]]]]; [|congruence].
  destruct (bp_step _ Hok _ Hx) as [Hf Hmin]. by apply at_least_positive.
Qed.

(** ** Read-back schedules *)

Lemma Sorted_lt_le l : NoDup l -> Sorted Z.le l -> StronglySorted Z.lt l.
Proof.
  intros Hnd Hs. apply Sorted_StronglySorted in Hs; [|intros ? ? ?; lia].
  induction Hs as [|x l Hs IH Hf]; [constructor|]. apply NoDup_cons in Hnd as [Hx Hnd]. constructor; [by apply IH|].
  rewrite Forall_forall in *. intros y Hy. specialize (Hf y Hy). assert (x <> y) by congruence. lia.
Qed.

Lemma elem_of_readback s src b : routed s ->
  b ∈ List.filter mb_ReadbackEnabled (omap (enabled s) (default [] (bindingsByKey s !! Key (probe src)))) <->
  route s src b /\ mb_ReadbackEnabled b = true.
Proof.
  intros Hr. rewrite <- (elem_of_routes s src b Hr). unfold routes.
  rewrite !list_elem_of_In, !filter_In, is_provider_true. split; [|tauto].
  intros [Hb He]. split_and!; [done| |done]. apply list_elem_of_In, list_elem_of_omap in Hb as (id & _ & [Hb _]%enabled_some).
  destruct (bw_valid _ _ _ Hr _ _ Hb) as [_ [_ _ _ [[? _]|[_ Hc]]]]; [done|]. destruct (cn_readback _ Hc). congruence.
Qed.

(** the schedule of read-backs of a Provider property is the union of the schedules of
    its enabled bindings, strictly increasing, and each delay is between 100 milliseconds
    and five minutes; there is no schedule exactly when no binding reads back. *)
Theorem readback_delays_bounded s src :
  memory_wf s ->
  match PropertyReadbackDelays s src with
  | None => forall b, route s src b -> mb_ReadbackEnabled b = false
  | Some l => l <> [] /\ StronglySorted Z.lt l /\ Forall (fun x => 100000000 <= x <= 300000000000) l /\
      forall x, x ∈ l <-> exists b ms, route s src b /\ mb_ReadbackEnabled b = true /\ ms ∈ mb_ReadbackDelaysMS b /\ x = ms * 1000000
  end.
Proof.
  intros Hs. pose proof (mw_routed _ Hs) as Hr. unfold PropertyReadbackDelays.
  pose proof (elem_of_readback s src) as Hin. revert Hin. generalize (List.filter mb_ReadbackEnabled (omap (enabled s) (default [] (bindingsByKey s !! Key (probe src))))).
  intros bs Hin.
  destruct bs as [|b0 bs].
  { intros b Hb. destruct (mb_ReadbackEnabled b) eqn:E; [|done]. exfalso. by apply (not_elem_of_nil b), Hin. }
  set (ms := elements _).
  assert (Hx : forall x, x ∈ merge_sort Z.le (List.map (fun d => d * 1000000) ms) <->
    exists b m, route s src b /\ mb_ReadbackEnabled b = true /\ m ∈ mb_ReadbackDelaysMS b /\ x = m * 1000000).
  { intros x. rewrite merge_sort_Permutation. change (List.map ?f ?l) with (f <$> l). rewrite list_elem_of_fmap.
    unfold ms. setoid_rewrite elem_of_elements. setoid_rewrite elem_of_list_to_set. rewrite concat_bind.
    setoid_rewrite list_elem_of_bind. setoid_rewrite (fun b => Hin b Hr). naive_solver. }
  assert (Hval : forall b, route s src b -> mb_ReadbackEnabled b = true ->
    (1 <= List.length (mb_ReadbackDelaysMS b))%nat /\ Forall (fun d => 100 <= d <= 300000) (mb_ReadbackDelaysMS b)).
  { intros b [Hb _ Hp _] He. destruct (bw_valid _ _ _ Hr _ _ Hb) as [_ [_ _ _ [[_ Hok]|[? _]]]]; [|congruence].
    destruct (bp_delays _ Hok He) as ([? _] & _ & ?). done. }
  split_and!; [| | |done].
  - destruct (proj1 (Hin b0 Hr)) as [Hb He]; [by left|]. destruct (Hval b0 Hb He) as [Hl _].
    destruct (mb_ReadbackDelaysMS b0) as [|m l0] eqn:El; [simpl in Hl; lia|]. intros E.
    destruct (Hx (m * 1000000)) as [_ Hx']. rewrite E in Hx'. apply (not_elem_of_nil (m * 1000000)), Hx'.
    exists b0, m. rewrite El. split_and!; [done..|by left|done].
  - apply Sorted_lt_le; [|apply Sorted_merge_sort; intros ? ?; lia]. rewrite merge_sort_Permutation.
    apply (NoDup_fmap_2_strong (fun d => d * 1000000)); [intros; lia|apply NoDup_elements].
  - apply Forall_forall. intros x (b & m & Hb & He & Hm & ->)%Hx. destruct (Hval b Hb He) as [_ Hf].
    rewrite Forall_forall in Hf. specialize (Hf m Hm). lia.
Qed.
