(* ===== verification/MappingConsumers.v ===== *)
(** * What consumers see and write

    Theorems on the consumer side of MappingProjection.v: the property a consumer sees at
    a place and the property its writes there change are the same one, and the binding's
    profile converts the values one way and the other. *)

From S2P Require Import Prelude Float64 DeviceModel Lookup ModelContract ConsumerCatalog LogicalDevice LogicalCompose.
From S2P Require Import MappingProfile MappingEngine MappingBinding MappingStore ProfileService ProfileInvariant.
From S2P Require Import DeviceProjection MappingProjection.

(** ** Looking up what was placed *)

Lemma first_upsert_eq {A B} (id : A -> string) i fresh (f : A -> A) (g : A -> option B) l y :
  id fresh = i -> (forall x, id x = i -> id (f x) = i /\ g (f x) = Some y) ->
  first (fun x => if String.eqb (id x) i then g x else None) (upsert id i fresh f l) = Some y.
Proof.
  intros Hfresh Hf. unfold upsert. induction l as [|x l IH]; simpl.
  - destruct (Hf fresh Hfresh) as [-> ->]. by rewrite String.eqb_refl.
  - destruct (String.eqb_spec (id x) i) as [E|E]; simpl.
    + destruct (Hf x E) as [-> ->]. by rewrite String.eqb_refl.
    + destruct (update_first _ l); simpl in *; by destruct (String.eqb_spec (id x) i).
Qed.

Lemma first_upsert_ne {A B} (id : A -> string) i fresh (f : A -> A) (h : A -> option B) l :
  (forall x, id x = i -> h (f x) = h x) -> id fresh = i -> h fresh = None ->
  first h (upsert id i fresh f l) = first h l.
Proof.
  intros Hf Hfresh Hn. unfold upsert. induction l as [|x l IH]; simpl.
  - by rewrite Hf, Hn.
  - destruct (String.eqb_spec (id x) i) as [E|E]; simpl; [by rewrite Hf|].
    destruct (update_first _ l); simpl in *; destruct (h x); done.
Qed.

Lemma property_in_replace q p c : pd_ID (p_Definition p) = q ->
  property_in q (cap_Properties (replace_property q p c)) = Some p.
Proof.
  intros Hp. unfold property_in, replace_property. cbn [cap_Properties with_Properties].
  induction (cap_Properties c) as [|x l IH]; simpl.
  - by rewrite Hp, String.eqb_refl.
  - destruct (String.eqb_spec (pd_ID (p_Definition x)) q) as [E|E]; simpl; [by rewrite Hp, String.eqb_refl|].
    destruct (update_first _ l); simpl in *; by destruct (String.eqb_spec (pd_ID (p_Definition x)) q).
Qed.

Lemma property_in_replace_ne q q' p c : pd_ID (p_Definition p) = q -> q <> q' ->
  property_in q' (cap_Properties (replace_property q p c)) = property_in q' (cap_Properties c).
Proof.
  intros Hp Hne. unfold property_in, replace_property. cbn [cap_Properties with_Properties].
  induction (cap_Properties c) as [|x l IH]; simpl.
  - rewrite Hp. by destruct (String.eqb_spec q q').
  - destruct (String.eqb_spec (pd_ID (p_Definition x)) q) as [E|E]; simpl.
    + rewrite Hp, E. by destruct (String.eqb_spec q q').
    + destruct (update_first _ l); simpl in *; by destruct (String.eqb_spec (pd_ID (p_Definition x)) q').
Qed.

Lemma endpoints_with d l : d_Endpoints (with_Endpoints d l) = l.
Proof. by destruct d. Qed.

Lemma placed_at_path item path p : pd_ID (p_Definition p) = pp_PropertyID path ->
  property_at (upsertConsumerProperty item path p) path = Some p.
Proof.
  intros Hp. unfold property_at, PropertyAt, upsertConsumerProperty, ensureCapability. rewrite endpoints_with.
  apply first_upsert_eq; [done|]. intros e He. split; [done|]. unfold capability_property, logicalCapability.
  cbn [ep_Capabilities with_Capabilities]. apply first_upsert_eq; [done|]. intros c Hc. split; [done|].
  by apply property_in_replace.
Qed.

Lemma placed_elsewhere item path path' p : pd_ID (p_Definition p) = pp_PropertyID path -> path <> path' ->
  property_at (upsertConsumerProperty item path p) path' = property_at item path'.
Proof.
  intros Hp Hne. unfold property_at, PropertyAt, upsertConsumerProperty, ensureCapability. rewrite endpoints_with.
  apply first_upsert_ne; [|done|].
  - intros e He. cbn [ep_ID logicalCapability with_Capabilities]. destruct (String.eqb_spec (ep_ID e) (pp_EndpointID path')) as [Ee|]; [|done].
    unfold capability_property. cbn [ep_Capabilities with_Capabilities]. apply first_upsert_ne; [|done|].
    + intros c Hc. cbn [cap_ID replace_property with_Properties].
      destruct (String.eqb_spec (cap_ID c) (pp_CapabilityID path')) as [Ec|]; [|done]. apply property_in_replace_ne; [done|].
      intros Eq. apply Hne. destruct path, path'. simpl in *. congruence.
    + cbn. by case_match.
  - cbn. by repeat case_match.
Qed.

(** ** The parameters of a contract *)

Definition sources_distinct : bool :=
  forallb (fun a => forallb (fun c => bool_decide (NoDup (cm_Source <$> cc_Parameters c))) (ad_Contracts a))
    BuiltInConsumerAdapters.

Lemma sources_distinct_true : sources_distinct = true.
Proof. vm_compute. reflexivity. Qed.

Lemma contract_sources consumerID t c : ConsumerContract consumerID t = Some c -> NoDup (cm_Source <$> cc_Parameters c).
Proof.
  intros (a & Ha & _ & Hc & _)%ConsumerContract_elem. pose proof sources_distinct_true as H. unfold sources_distinct in H.
  rewrite forallb_forall in H. specialize (H a (proj1 (list_elem_of_In _ _) Ha)). rewrite forallb_forall in H.
  by apply list_elem_of_In, H, bool_decide_eq_true in Hc.
Qed.

Lemma find_parameter l m : NoDup (cm_Source <$> l) -> m ∈ l ->
  first (fun x => if bool_decide (cm_Source x = cm_Source m) then Some x else None) l = Some m.
Proof.
  induction l as [|x l IH]; [by intros _ ?%not_elem_of_nil|]. rewrite fmap_cons, NoDup_cons.
  intros [Hx Hnd] [->|Hm]%elem_of_cons; simpl; [by rewrite bool_decide_eq_true_2|].
  rewrite bool_decide_eq_false_2; [by apply IH|]. intros E. apply Hx. rewrite E. by apply list_elem_of_fmap_2.
Qed.

(** What a binding places is a property with the identifier of the place. *)
Lemma applied_value result src m b profile r : applyConsumerProjection result src m b profile = Ok r ->
  exists found, consumer_value src m b profile = Ok found /\
  match found with
  | None => r = (result, false)
  | Some p => exists q, r = (upsertConsumerProperty result (cm_Source m) q, true) /\
      pd_ID (p_Definition q) = pp_PropertyID (cm_Source m) /\ p_Value q = p_Value p
  end.
Proof.
  unfold applyConsumerProjection. destruct (consumer_value src m b profile) as [[p|]|]; [| |done]; intros [= <-].
  - exists (Some p). split; [done|]. by eexists.
  - by exists None.
Qed.

(** A later parameter does not touch the place of an earlier one. *)
Lemma project_rest s c t cd item result l result' path :
  each (project_parameter s c t cd item) result l = Ok result' -> path ∉ cm_Source <$> l ->
  property_at result' path = property_at result path.
Proof.
  revert result. induction l as [|m l IH]; intros result H Hn; simpl in H; [by injection H as <-|].
  rewrite fmap_cons, not_elem_of_cons in Hn. destruct Hn as [Hne Hn].
  destruct (project_parameter s c t cd item result m) as [r1|] eqn:E; [|done]. rewrite (IH _ H Hn).
  unfold project_parameter in E. destruct (resolveConsumerBinding _ _ _ _ _ _ _) as [[[b profile]|]|]; [| |done].
  2: { by injection E as <-. }
  destruct (applyConsumerProjection result item m b profile) as [r2|] eqn:Ea; [|done]. injection E as <-.
  apply applied_value in Ea as (found & _ & Hr). destruct found as [p|]; [|by rewrite Hr].
  destruct Hr as (q & -> & Hq & _). by apply placed_elsewhere.
Qed.

Lemma project_placed s c t cd item l result result' m b profile p :
  each (project_parameter s c t cd item) result l = Ok result' -> NoDup (cm_Source <$> l) -> m ∈ l ->
  resolveConsumerBinding s (device_source item) t cd c (d_Type item) (cm_Target m) = Ok (Some (b, profile)) ->
  consumer_value item m b profile = Ok (Some p) ->
  exists q, property_at result' (cm_Source m) = Some q /\ p_Value q = p_Value p.
Proof.
  revert result. induction l as [|x l IH]; intros result H Hnd Hm Hb Hp; [by apply not_elem_of_nil in Hm|]. simpl in H.
  rewrite fmap_cons, NoDup_cons in Hnd. destruct Hnd as [Hx Hnd].
  destruct (project_parameter s c t cd item result x) as [r1|] eqn:E; [|done].
  apply elem_of_cons in Hm as [->|Hm]; [|by eapply IH].
  rewrite (project_rest _ _ _ _ _ _ _ _ _ H Hx). unfold project_parameter in E. rewrite Hb in E. cbv iota beta in E.
  destruct (applyConsumerProjection result item x b profile) as [r2|] eqn:Ea; [|done]. injection E as <-.
  apply applied_value in Ea as (found & Hf & Hr). rewrite Hp in Hf. injection Hf as <-.
  destruct Hr as (q & -> & Hq & Hv). exists q. cbn [fst]. by rewrite placed_at_path.
Qed.

Lemma each_step {E S A} (f : S -> A -> result E S) l s s' x : each f s l = Ok s' -> x ∈ l -> exists s0 s1, f s0 x = Ok s1.
Proof.
  revert s. induction l as [|y l IH]; intros s H Hx; [by apply not_elem_of_nil in Hx|]. simpl in H.
  destruct (f s y) as [s1|] eqn:E1; [|done]. apply elem_of_cons in Hx as [->|Hx]; [by exists s, s1|by eapply IH].
Qed.

(** The forward and the reverse conversion of a binding. *)
Definition seen_value (profile : option Profile) (v : PropertyValue) : result PreviewError PropertyValue :=
  match profile with None => Ok v | Some profile => preview profile DirectionForward (Some v) end.
Definition written_value (b : Binding) (profile : option Profile) (v : PropertyValue) : result MapError PropertyValue :=
  match profile with None => Ok v | Some profile => converted b (preview profile DirectionReverse (Some v)) end.

(** C12: what a consumer sees at a place and what it changes by writing there are one
    property: when a binding serves a parameter of the consumer's contract, the projected
    device holds at that place the value of the binding's model property, converted
    forwards by the binding's profile, and a write to that place goes to exactly that
    model property, with the value converted backwards by the same profile. *)
Theorem consumer_routes_agree s c t cd item contract m b profile p result :
  ConsumerContract c (d_Type item) = Some contract -> m ∈ cc_Parameters contract ->
  resolveConsumerBinding s (device_source item) t cd c (d_Type item) (cm_Target m) = Ok (Some (b, profile)) ->
  property_at item (MappingBinding.ModelPath b) = Some p ->
  ProjectConsumerDeviceInstance s c t cd item = Ok result ->
  (exists q, property_at result (cm_Source m) = Some q /\ seen_value profile (p_Value p) = Ok (p_Value q)) /\
  forall v, ResolveConsumerWriteInstance s (MkSource (d_ProviderID item) (d_ID item) (cm_Source m)) t cd c (d_Type item) v =
    (let! w := written_value b profile v in Ok (MappingBinding.ModelPath b, w, mb_ID b, true)).
Proof.
  intros Hc Hm Hb Hp H. pose proof (contract_sources _ _ _ Hc) as Hnd. split.
  - unfold ProjectConsumerDeviceInstance in H. rewrite Hc in H.
    destruct (each _ item (cc_Parameters contract)) as [r|] eqn:E; [|done].
    destruct (refused _); [|done]. injection H as ->.
    assert (Hv : exists q, consumer_value item m b profile = Ok (Some q) /\ seen_value profile (p_Value p) = Ok (p_Value q)).
    { assert (Hok : exists r0 r1, project_parameter s c t cd item r0 m = Ok r1) by (by eapply each_step).
      destruct Hok as (r0 & r1 & Hr). unfold project_parameter in Hr. rewrite Hb in Hr. cbv iota beta in Hr.
      destruct (applyConsumerProjection r0 item m b profile) as [x|] eqn:Ea; [|done].
      apply applied_value in Ea as (found & Hf & _). rewrite Hf. unfold consumer_value in Hf. rewrite Hp in Hf.
      destruct profile as [profile|]; [|injection Hf as <-; by eexists]. unfold converted in Hf. simpl.
      destruct (preview profile DirectionForward (Some (p_Value p))) as [w|]; [|done].
      destruct (transformProviderPropertyDefinition _ _ _); [|done]. injection Hf as <-. by eexists. }
    destruct Hv as (q & Hq & Hs). destruct (project_placed _ _ _ _ _ _ _ _ _ _ _ _ E Hnd Hm Hb Hq) as (q' & ? & Ev).
    exists q'. by rewrite Ev.
  - intros v. unfold ResolveConsumerWriteInstance. cbn [src_Path]. rewrite Hc. cbn [mbind option_bind].
    rewrite (find_parameter _ _ Hnd Hm). change (MkSource (d_ProviderID item) (d_ID item) (cm_Source m)) with
      (MkSource (d_ProviderID item) (d_ID item) (cm_Source m)).
    assert (resolveConsumerBinding s (MkSource (d_ProviderID item) (d_ID item) (cm_Source m)) t cd c (d_Type item) (cm_Target m)
      = Ok (Some (b, profile))) as -> by exact Hb.
    by destruct profile.
Qed.
