(* ===== verification/MappingExamples.v ===== *)
(** * A service with routes

    A concrete run of the profile service: a switch whose raw property is inverted on its
    way to the unified model, a level whose conversion falls, and a consumer route; the
    theorems on projections applied to it. *)

From S2P Require Import Prelude Float64 DeviceModel Lookup ModelContract ConsumerCatalog LogicalDevice LogicalCompose.
From S2P Require Import MappingProfile MappingEngine MappingBinding MappingStore ProfileService ProfileInvariant ProfileRuns.
From S2P Require Import DeviceProjection MappingProjection MappingRoutes MappingValues MappingConsumers.

Definition invert_profile : Profile :=
  MkProfile 1 "" "inverted" 1 KindCapability ValueTypeBool ValueTypeBool None [empty_transform TransformInvert].
Definition falling : Transform :=
  MkTransform TransformScale (Some (of_Z (-1))) None None None ∅ ∅ "" "" [] None "" None None "" "" None None None None "".
Definition falling_profile : Profile :=
  MkProfile 1 "" "falling" 1 KindProvider ValueTypeNumber ValueTypeNumber None [falling].

Definition raw_route : Binding :=
  MkBinding "route-power" StageProvider "inverted" "miio" "lamp-1" "raw" "vendor" "on-off" TypeSwitch ""
    "main" "switch" "power" "" "" "" "" true true [500; 2000] None.
Definition level_route : Binding :=
  MkBinding "route-level" StageProvider "falling" "miio" "lamp-1" "raw" "vendor" "level" "" ""
    "main" "light" "level" "" "" "" "" true false [] None.
Definition homekit_route : Binding := with_ProfileID ex_consumer_route "inverted".

Definition routed_service : ProfileService :=
  after [op_create (Some uuid_a) invert_profile; op_create (Some uuid_b) falling_profile;
         op_create_binding raw_route; op_create_binding level_route; op_create_binding homekit_route].

Lemma routed_service_sound : memory_wf routed_service.
Proof.
  apply reachable_sound. eapply started_reaches, after_run. vm_compute. reflexivity.
Qed.

Definition raw_power : source := MkSource "miio" "lamp-1" (MkParameterPath "raw" "vendor" "on-off").
Definition raw_level : source := MkSource "miio" "lamp-1" (MkParameterPath "raw" "vendor" "level").
Definition power_definition : PropertyDefinition := p_Definition ex_power.
Definition level_definition : PropertyDefinition :=
  MkPropertyDefinition "level" "Level" ValueTypeNumber ParameterOptional "" true true true (Some fzero)
    (Some (of_Z 100)) (Some fone) [] 0.

Definition projections_of_power : list ProviderPropertyProjection :=
  match ProjectProviderProperty routed_service raw_power power_definition (BoolValue true) with
  | Ok l => l | Err _ => [] end.
Definition projections_of_level : list ProviderPropertyProjection :=
  match ProjectProviderProperty routed_service raw_level level_definition (NumberValue (of_Z 30)) with
  | Ok l => l | Err _ => [] end.

Definition manual (l : list ProviderPropertyProjection) : ProviderPropertyProjection :=
  default (MkProviderProjection (MkParameterPath "" "" "") power_definition (BoolValue false) "" false) (l !! 1%nat).

Lemma project_power : ProjectProviderProperty routed_service raw_power power_definition (BoolValue true) = Ok projections_of_power.
Proof. vm_compute. reflexivity. Qed.
Lemma project_level :
  ProjectProviderProperty routed_service raw_level level_definition (NumberValue (of_Z 30)) = Ok projections_of_level.
Proof. vm_compute. reflexivity. Qed.

Lemma manual_in l p : l !! 1%nat = Some p -> manual l ∈ l.
Proof. intros H. unfold manual. rewrite H. by eapply list_elem_of_lookup_2. Qed.

Lemma writes_reach_their_source_witness :
  pj_Value (manual projections_of_power) = BoolValue false /\
  ResolvePropertyPath routed_service (MkSource "miio" "lamp-1" power_path) DirectionReverse =
    Ok (MkParameterPath "raw" "vendor" "on-off", "route-power", true).
Proof.
  split; [vm_compute; reflexivity|].
  refine (eq_trans _ (proj1 (writes_reach_their_source routed_service raw_power power_definition (BoolValue true)
    projections_of_power (manual projections_of_power) routed_service_sound project_power _ _))).
  - vm_compute. reflexivity.
  - apply (manual_in _ (manual projections_of_power)). vm_compute. reflexivity.
  - vm_compute. reflexivity.
Defined.

Definition raw_lamp : Device :=
  with_Endpoints ex_switch
    [MkEndpoint "raw" "Raw" "raw" [MkCapability "vendor" "vendor"
       [with_p_Value (with_p_Definition ex_power (with_pd_ID power_definition "on-off")) (BoolValue true);
        MkProperty level_definition (NumberValue (of_Z 30)) (StateTransportOther "")] [] []]].

Lemma snapshots_never_clash_witness :
  (mapSnapshot (H := ex_lower) no_preferences
     (Some (service_mapper (some_range (bindings routed_service)) routed_service)) raw_lamp zero_metrics).2
  <> Err (DuplicateProjection true power_path "lamp-1").
Proof.
  apply (snapshots_never_clash (lower := ex_lower)).
  - exact routed_service_sound.
  - apply range_of_some_range.
  - vm_compute. reflexivity.
Defined.

Lemma projected_values_admitted_witness : admits (pj_Definition (manual projections_of_power)) (BoolValue false).
Proof.
  refine (eq_ind (pj_Value (manual projections_of_power)) (admits _)
    (projected_values_admitted routed_service raw_power power_definition (BoolValue true)
      projections_of_power (manual projections_of_power) routed_service_sound project_power _ _ _ _) _ _).
  - apply (manual_in _ (manual projections_of_power)). vm_compute. reflexivity.
  - by constructor.
  - done.
  - vm_compute. reflexivity.
  - vm_compute. reflexivity.
Defined.

Lemma projected_limits_ordered_witness :
  pd_Min (pj_Definition (manual projections_of_level)) = Some (of_Z (-100)) /\
  forall x, pd_Step (pj_Definition (manual projections_of_level)) = Some x -> fleb x fzero = false.
Proof.
  split; [vm_compute; reflexivity|].
  apply (projected_limits_ordered routed_service raw_level level_definition (NumberValue (of_Z 30)) projections_of_level).
  - exact routed_service_sound.
  - exact project_level.
  - apply (manual_in _ (manual projections_of_level)). vm_compute. reflexivity.
  - split; [done|by intros lo hi [= <-] [= <-]|by intros x [= <-]|done].
Defined.

Lemma readback_delays_bounded_witness :
  PropertyReadbackDelays routed_service raw_power = Some [500000000; 2000000000] /\
  match PropertyReadbackDelays routed_service raw_power with Some l => StronglySorted Z.lt l | None => False end.
Proof.
  assert (E : PropertyReadbackDelays routed_service raw_power = Some [500000000; 2000000000]) by (vm_compute; reflexivity).
  split; [exact E|]. pose proof (readback_delays_bounded routed_service raw_power routed_service_sound) as H.
  rewrite E in *. apply H.
Defined.

(** The consumer sees the switch of the unified model inverted, and writes it inverted. *)
Definition seen_switch : Device :=
  match ProjectConsumerDeviceInstance routed_service "homekit" "bridge" "lamp" ex_switch with Ok d => d | Err _ => ex_switch end.
Definition switch_contract : ConsumerModelContract :=
  default (MkConsumerContract "" "" []) (ConsumerContract "homekit" TypeSwitch).
Definition switch_parameter : ConsumerParameterMapping :=
  default (MkConsumerMapping power_path power_path "" ParameterRequired) (head (cc_Parameters switch_contract)).

Definition found_route : Binding * option Profile :=
  match resolveConsumerBinding routed_service (device_source ex_switch) "bridge" "lamp" "homekit" TypeSwitch
          (cm_Target switch_parameter) with Ok (Some r) => r | _ => (homekit_route, None) end.

Lemma switch_parameter_known : switch_parameter ∈ cc_Parameters switch_contract.
Proof. apply list_elem_of_lookup_2 with (i := 0%nat). vm_compute. reflexivity. Qed.

Lemma consumer_routes_agree_witness :
  p_Value <$> property_at seen_switch power_path = Some (BoolValue true) /\
  ResolveConsumerWriteInstance routed_service
    (MkSource (d_ProviderID ex_switch) (d_ID ex_switch) (cm_Source switch_parameter)) "bridge" "lamp" "homekit"
    (d_Type ex_switch) (BoolValue true) = Ok (power_path, BoolValue false, "binding-2", true).
Proof.
  split; [vm_compute; reflexivity|].
  assert (Hc : ConsumerContract "homekit" (d_Type ex_switch) = Some switch_contract) by (vm_compute; reflexivity).
  assert (Hr : resolveConsumerBinding routed_service (device_source ex_switch) "bridge" "lamp" "homekit" (d_Type ex_switch)
    (cm_Target switch_parameter) = Ok (Some (found_route.1, found_route.2))) by (vm_compute; reflexivity).
  assert (Hp : property_at ex_switch (MappingBinding.ModelPath found_route.1) = Some ex_power) by (vm_compute; reflexivity).
  assert (Hs : ProjectConsumerDeviceInstance routed_service "homekit" "bridge" "lamp" ex_switch = Ok seen_switch)
    by (vm_compute; reflexivity).
  rewrite (proj2 (consumer_routes_agree _ _ _ _ _ _ _ _ _ _ _ Hc switch_parameter_known Hr Hp Hs) (BoolValue true)).
  vm_compute. reflexivity.
Defined.
