(* ===== verification/DeviceService.v ===== *)
(** * The device service, its state and its event handlers:
    backend/internal/application/device_service.go

    The service composes the registry of devices, the state store, the command tracker
    and the projection of snapshots.  This file has its state, the publication to its
    subscribers, and the handlers of what Providers and the media runtime report:
    snapshots, capability availability, reachability, removal, enabling, and the
    scanner of expired values.

    What the code reads from outside is given: the clock and the generator of command
    identifiers are sequences the service draws from, the orders of the iterations over
    maps are functions, and the answers of Providers and of the preference store are
    arguments of the handler. *)

From S2P Require Import Prelude Float64 DomainState StateStore CommandTracker DeviceRegistry.
From S2P Require Import DeviceModel Lookup ModelContract LogicalDevice LogicalCompose LogicalRuntime MappingProfile.
From S2P Require Import DeviceProjection.

(** ** Field updates of a device *)

Definition set_Disabled (d : DeviceModel.Device) (b : bool) : DeviceModel.Device :=
  match d with
  | MkDevice v i p n sn no t hi hn ri rn lm shi shn sri srn av on sq _ re rm st me es lu =>
      MkDevice v i p n sn no t hi hn ri rn lm shi shn sri srn av on sq b re rm st me es lu
  end.
Definition set_Removed (d : DeviceModel.Device) (b : bool) : DeviceModel.Device :=
  match d with
  | MkDevice v i p n sn no t hi hn ri rn lm shi shn sri srn av on sq di _ rm st me es lu =>
      MkDevice v i p n sn no t hi hn ri rn lm shi shn sri srn av on sq di b rm st me es lu
  end.
Definition set_MappingError (d : DeviceModel.Device) (e : string) : DeviceModel.Device :=
  match d with
  | MkDevice v i p n sn no t hi hn ri rn lm shi shn sri srn av on sq di re rm st _ es lu =>
      MkDevice v i p n sn no t hi hn ri rn lm shi shn sri srn av on sq di re rm st e es lu
  end.

(** ** Errors *)

(** [ErrDeviceNotFound] and [ErrPropertyUnsupported] are those of the Providers. *)
Inductive ServiceError (E : Type) :=
| ErrDeviceDisabled
| ErrCommandSuperseded
| ProviderFailure (e : ProviderError)
| MappingError (e : MappingFailure E)
| PropertyInvalid (e : PropertyError)
| CommandConflict (e : TrackerError)
| ContextDone
| InvalidAvailabilityReport
| PreferencesUnavailable
| PreferencesFailure (text : string).
Arguments ErrDeviceDisabled {E}. Arguments ErrCommandSuperseded {E}. Arguments ProviderFailure {E} e.
Arguments MappingError {E} e. Arguments PropertyInvalid {E} e. Arguments CommandConflict {E} e.
Arguments ContextDone {E}. Arguments InvalidAvailabilityReport {E}.
Arguments PreferencesUnavailable {E}. Arguments PreferencesFailure {E} text.

(** ** State *)

(** A running property write: the value it asks for, its command, how many requests
    joined it, whether its context is cancelled and its channel [done] closed, and then
    its item and error. *)
Record propertyOperation (E : Type) := MkOperation {
  op_expected : PropertyValue;
  op_command : Command;
  op_coalesced : Z;
  op_cancelled : bool;
  op_done : bool;
  op_item : DeviceModel.Device;
  op_err : option (ServiceError E);
}.
Arguments MkOperation {E}. Arguments op_expected {E} p. Arguments op_command {E} p.
Arguments op_coalesced {E} p. Arguments op_cancelled {E} p. Arguments op_done {E} p.
Arguments op_item {E} p. Arguments op_err {E} p.

(** The reads scheduled after writes: the identifier of the latest one per property,
    and whether the service is closing. *)
Record Readbacks := MkReadbacks {
  scheduled : gmap Key Z;
  readbackNext : Z;
  readbackClosed : bool;
}.

(** The largest offsets [recordTimingOffset] saw, and from which device. *)
Record Timing := MkTiming {
  maxClockSkewNanos : Z;
  clockSkewSource : string;
  maxSnapshotAgeNanos : Z;
  snapshotAgeSource : string;
}.

(** The queue of a subscriber; its capacity is 64. *)
Definition queueCapacity : nat := 64.

Record DeviceService (R E : Type) := MkService {
  registry : DeviceRegistry;
  states : Store R;
  tracker : Tracker;
  snapshotSeq : gmap string Z;
  disabled : gset string;
  prefs : Preferences;
  propertyOps : gmap Key nat;
  operations : gmap nat (propertyOperation E);
  listeners : gmap Z (list DeviceModel.Device);
  stateListeners : gmap Z (list StateValue);
  nextID : Z;
  nextStateID : Z;
  metrics : Metrics;
  timing : Timing;
  readbacks : Readbacks;
  ticks : nat;
  drawn : nat;
}.
Arguments MkService {R E}. Arguments registry {R E} d. Arguments states {R E} d.
Arguments tracker {R E} d. Arguments snapshotSeq {R E} d. Arguments disabled {R E} d.
Arguments prefs {R E} d. Arguments propertyOps {R E} d. Arguments operations {R E} d.
Arguments listeners {R E} d. Arguments stateListeners {R E} d. Arguments nextID {R E} d.
Arguments nextStateID {R E} d. Arguments metrics {R E} d. Arguments timing {R E} d.
Arguments readbacks {R E} d. Arguments ticks {R E} d. Arguments drawn {R E} d.

(** [change s] is [s] with some of its fields replaced. *)
Section Updates.
Context {R E : Type}.
Implicit Type s : DeviceService R E.

Definition set_registry s x : DeviceService R E :=
  MkService x (states s) (tracker s) (snapshotSeq s) (disabled s) (prefs s) (propertyOps s)
    (operations s) (listeners s) (stateListeners s) (nextID s) (nextStateID s) (metrics s) (timing s)
    (readbacks s) (ticks s) (drawn s).
Definition set_states s x : DeviceService R E :=
  MkService (registry s) x (tracker s) (snapshotSeq s) (disabled s) (prefs s) (propertyOps s)
    (operations s) (listeners s) (stateListeners s) (nextID s) (nextStateID s) (metrics s) (timing s)
    (readbacks s) (ticks s) (drawn s).
Definition set_tracker s x : DeviceService R E :=
  MkService (registry s) (states s) x (snapshotSeq s) (disabled s) (prefs s) (propertyOps s)
    (operations s) (listeners s) (stateListeners s) (nextID s) (nextStateID s) (metrics s) (timing s)
    (readbacks s) (ticks s) (drawn s).
Definition set_snapshotSeq s x : DeviceService R E :=
  MkService (registry s) (states s) (tracker s) x (disabled s) (prefs s) (propertyOps s)
    (operations s) (listeners s) (stateListeners s) (nextID s) (nextStateID s) (metrics s) (timing s)
    (readbacks s) (ticks s) (drawn s).
Definition set_disabled s x : DeviceService R E :=
  MkService (registry s) (states s) (tracker s) (snapshotSeq s) x (prefs s) (propertyOps s)
    (operations s) (listeners s) (stateListeners s) (nextID s) (nextStateID s) (metrics s) (timing s)
    (readbacks s) (ticks s) (drawn s).
Definition set_operations s ops heap : DeviceService R E :=
  MkService (registry s) (states s) (tracker s) (snapshotSeq s) (disabled s) (prefs s) ops
    heap (listeners s) (stateListeners s) (nextID s) (nextStateID s) (metrics s) (timing s)
    (readbacks s) (ticks s) (drawn s).
Definition set_listeners s ls next : DeviceService R E :=
  MkService (registry s) (states s) (tracker s) (snapshotSeq s) (disabled s) (prefs s) (propertyOps s)
    (operations s) ls (stateListeners s) next (nextStateID s) (metrics s) (timing s)
    (readbacks s) (ticks s) (drawn s).
Definition set_stateListeners s ls next : DeviceService R E :=
  MkService (registry s) (states s) (tracker s) (snapshotSeq s) (disabled s) (prefs s) (propertyOps s)
    (operations s) (listeners s) ls (nextID s) next (metrics s) (timing s)
    (readbacks s) (ticks s) (drawn s).
Definition set_metrics s x : DeviceService R E :=
  MkService (registry s) (states s) (tracker s) (snapshotSeq s) (disabled s) (prefs s) (propertyOps s)
    (operations s) (listeners s) (stateListeners s) (nextID s) (nextStateID s) x (timing s)
    (readbacks s) (ticks s) (drawn s).
Definition set_timing s x : DeviceService R E :=
  MkService (registry s) (states s) (tracker s) (snapshotSeq s) (disabled s) (prefs s) (propertyOps s)
    (operations s) (listeners s) (stateListeners s) (nextID s) (nextStateID s) (metrics s) x
    (readbacks s) (ticks s) (drawn s).
Definition set_ticks s t d : DeviceService R E :=
  MkService (registry s) (states s) (tracker s) (snapshotSeq s) (disabled s) (prefs s) (propertyOps s)
    (operations s) (listeners s) (stateListeners s) (nextID s) (nextStateID s) (metrics s) (timing s)
    (readbacks s) t d.

Definition set_readbacks s x : DeviceService R E :=
  MkService (registry s) (states s) (tracker s) (snapshotSeq s) (disabled s) (prefs s) (propertyOps s)
    (operations s) (listeners s) (stateListeners s) (nextID s) (nextStateID s) (metrics s) (timing s)
    x (ticks s) (drawn s).

Definition count_ s (c : Counter) (n : Z) : DeviceService R E := set_metrics s (add_metric (metrics s) c n).

(** ** Publication to subscribers *)

(** Sending without blocking: a full queue drops the item.  The result is the queues
    and how many dropped it. *)
Definition has_room {A} (q : list A) : bool := (List.length q <? queueCapacity)%nat.
Definition broadcast {A} (x : A) (ls : gmap Z (list A)) : gmap Z (list A) * Z :=
  ((fun q => if has_room q then q ++ [x] else q) <$> ls,
   Z.of_nat (size (filter (fun kv => has_room kv.2 = false) ls))).

Definition publishDevice s (item : DeviceModel.Device) : DeviceService R E :=
  let '(ls, dropped) := broadcast item (listeners s) in
  count_ (set_listeners s ls (nextID s)) targetEventsDropped dropped.
Definition publishState s (value : StateValue) : DeviceService R E :=
  let '(ls, dropped) := broadcast value (stateListeners s) in
  count_ (set_stateListeners s ls (nextStateID s)) stateEventsDropped dropped.
Definition publishStates s (l : list StateValue) : DeviceService R E := fold_left publishState l s.

(** [subscribe] on the two kinds of listeners, the removal of a subscription, and the
    receive of its goroutine. *)
Definition Subscribe s : DeviceService R E * Z :=
  let id := u64_succ (nextID s) in (set_listeners s (<[id := []]> (listeners s)) id, id).
Definition SubscribeStates s : DeviceService R E * Z :=
  let id := u64_succ (nextStateID s) in (set_stateListeners s (<[id := []]> (stateListeners s)) id, id).
Definition removeSubscription s (id : Z) : DeviceService R E :=
  set_listeners s (delete id (listeners s)) (nextID s).
Definition removeStateSubscription s (id : Z) : DeviceService R E :=
  set_stateListeners s (delete id (stateListeners s)) (nextStateID s).
Definition receive {A} (id : Z) (ls : gmap Z (list A)) : gmap Z (list A) * option A :=
  match ls !! id with
  | Some (x :: q) => (<[id := q]> ls, Some x)
  | _ => (ls, None)
  end.

(** ** Snapshot sequences *)

Definition acceptSnapshotSequence s (item : DeviceModel.Device) : DeviceService R E * bool :=
  if d_Sequence item =? 0 then (s, true)
  else
    let current := default 0 (snapshotSeq s !! d_ID item) in
    if (0 <? current) && (d_Sequence item <=? current) then (s, false)
    else (set_snapshotSeq s (<[d_ID item := d_Sequence item]> (snapshotSeq s)), true).

Definition resetSnapshotSequence s (deviceID : string) : DeviceService R E :=
  set_snapshotSeq s (delete deviceID (snapshotSeq s)).

Definition isDeviceDisabled s (id : string) : bool := bool_decide (id ∈ disabled s).

End Updates.

Inductive snapshotTimeOrigin :=
| snapshotTimeOriginProviderEvent | snapshotTimeOriginRefresh | snapshotTimeOriginPropertyRead.

Definition is_refresh (o : snapshotTimeOrigin) : bool :=
  match o with snapshotTimeOriginRefresh => true | _ => false end.
Definition is_event (o : snapshotTimeOrigin) : bool :=
  match o with snapshotTimeOriginProviderEvent => true | _ => false end.
Definition is_read (o : snapshotTimeOrigin) : bool :=
  match o with snapshotTimeOriginPropertyRead => true | _ => false end.

Definition second : Duration := 1000000000.
Definition minute : Duration := 60 * second.
(** [time.Time.Sub]: the difference, saturated. *)
Definition Sub (a b : Time) : Duration := Z.max (- two63) (Z.min (two63 - 1) (a - b)).
Definition absDuration (value : Duration) : Duration := if value <? 0 then i64_wrap (- value) else value.

(** The value of the state store for a payload: [None] when the payload is missing or
    its type unknown. *)
Definition state_value (v : PropertyValue) : option Value :=
  match pv_Type v with
  | ValueTypeBool => DomainState.BoolValue <$> pv_Bool v
  | ValueTypeInt => DomainState.IntValue <$> pv_Int v
  | ValueTypeNumber => DomainState.NumberValue <$> pv_Number v
  | ValueTypeString => DomainState.StringValue <$> pv_String v
  | ValueTypeEnum => DomainState.EnumValue <$> pv_String v
  | ValueTypeOther _ => None
  end.

Definition transport_empty (t : StateTransport) : bool :=
  match t with StateTransportOther s => is_empty s | _ => false end.
Definition is_cloud_http (t : StateTransport) : bool :=
  match t with StateTransportCloudHTTP => true | _ => false end.
Definition is_unknown (a : Availability) : bool :=
  match a with AvailabilityUnknown => true | _ => false end.

Definition unavailableReason (item : DeviceModel.Device) : UnavailableReason :=
  if d_Removed item then UnavailableRemoved
  else if d_Disabled item then UnavailableDisabled
  else if is_unknown (EffectiveAvailability item) then UnavailableAvailabilityUnknown
  else UnavailableDeviceOffline.

(** The key of a property of a device. *)
Definition key_at_path (deviceID : string) (x : Endpoint * Capability * Property) : Key :=
  let '(e, c, p) := x in MkKey deviceID (ep_ID e) (cap_ID c) (pd_ID (p_Definition p)).

(** What an online snapshot reports of a property. *)
Definition reported_state (item : DeviceModel.Device) (receivedAt observedAt : Time) (traceID : string)
    (origin : snapshotTimeOrigin) (x : Endpoint * Capability * Property) : option StateValue :=
  let p := x.2 in
  let transport := if transport_empty (p_StateTransport p) then d_StateTransport item
                   else p_StateTransport p in
  let polled := is_read origin || is_cloud_http transport in
  let stale := pd_StaleAfterSeconds (p_Definition p) in
  (fun v => MkStateValue (key_at_path (d_ID item) x) v (d_ProviderID item)
     (if polled then SourcePolled else SourceReported) observedAt receivedAt
     (if 0 <? stale then receivedAt + i64_wrap (stale * second) else zero_time)
     (d_Sequence item) 0 (if polled then QualityPolled else QualityReported) false false ""
     traceID "") <$> state_value (p_Value p).

(** What is stored for a property of an unavailable device that has no value yet. *)
Definition unknown_state (item : DeviceModel.Device) (now : Time) (reason : UnavailableReason)
    (traceID : string) (x : Endpoint * Capability * Property) : StateValue :=
  MkStateValue (key_at_path (d_ID item) x) zero_value (d_ProviderID item) SourceUnknown now now zero_time
    0 0 QualityUnknown false false reason traceID "".

Section Handlers.
Context {R E : Type} `{PriorityResolver R} `{UnicodeLower}.
Implicit Type s : DeviceService R E.

(** The readings of the clock, the identifiers of commands, and the orders in which
    the maps of states and of commands are visited. *)
Record Environment := MkEnvironment {
  clock : nat -> Time;
  fresh_id : nat -> string;
  key_order : gmap Key StateValue -> list Key;
  command_order : gmap string Command -> list string;
}.
Variable env : Environment.

Definition time_now s : DeviceService R E * Time := (set_ticks s (S (ticks s)) (drawn s), clock env (ticks s)).
Definition keys s : list Key := key_order env (values (states s)).

(** ** Snapshots *)

Definition recordTimingOffset s (item : DeviceModel.Device) (offset : Duration)
    (origin : snapshotTimeOrigin) : DeviceService R E :=
  let source := d_ProviderID item +:+ "/" +:+ d_ID item in
  let nanos := u64_of_i64 offset in
  let t := timing s in
  if is_event origin then
    count_ (if maxClockSkewNanos t <? nanos
            then set_timing s (MkTiming nanos source (maxSnapshotAgeNanos t) (snapshotAgeSource t)) else s)
      providerClockSkews 1
  else
    count_ (if maxSnapshotAgeNanos t <? nanos
            then set_timing s (MkTiming (maxClockSkewNanos t) (clockSkewSource t) nanos source) else s)
      providerSnapshotAges 1.

Definition safeObservedAt s (item : DeviceModel.Device) (receivedAt : Time) (origin : snapshotTimeOrigin)
    : DeviceService R E * Time :=
  let observedAt := d_LastUpdateAt item in
  if IsZero observedAt then (s, receivedAt)
  else if negb (Before observedAt (receivedAt + - (5 * minute)))
          && negb (After observedAt (receivedAt + 5 * minute)) then (s, observedAt)
  else if Before observedAt receivedAt || is_refresh origin then
    (recordTimingOffset s item (absDuration (Sub receivedAt observedAt)) snapshotTimeOriginRefresh, receivedAt)
  else
    (recordTimingOffset s item (Sub observedAt receivedAt) snapshotTimeOriginProviderEvent, receivedAt).

(** [s.states.Apply] and the publication of what changed. *)
Definition apply_state s (value : StateValue) : DeviceService R E :=
  let '(st, applied, changed) := StateStore.Apply (states s) value in
  let s := set_states s st in
  if changed : bool then publishState s applied else s.

Definition applySnapshot s (item : DeviceModel.Device) (traceID : string) (origin : snapshotTimeOrigin)
    : DeviceService R E :=
  let '(s, receivedAt) := time_now s in
  let '(s, observedAt) := safeObservedAt s item receivedAt origin in
  fold_left apply_state
    (omap (reported_state item receivedAt observedAt traceID origin) (source_properties item)) s.

Definition ensure_unknown s (value : StateValue) : DeviceService R E :=
  let '(st, created, changed) := StateStore.EnsureUnknown (states s) value in
  let s := set_states s st in
  if changed : bool then publishState s created else s.

Definition ensureUnknownStates s (item : DeviceModel.Device) (reason : UnavailableReason)
    (traceID : string) : DeviceService R E :=
  let '(s, now) := time_now s in
  fold_left (fun s x => ensure_unknown s (unknown_state item now reason traceID x))
    (source_properties item) s.

(** [s.states.MarkDeviceUnavailable], and the publication of what it marked. *)
Definition markDeviceUnavailable s (deviceID : string) (reason : UnavailableReason)
    (traceIDs : list string) : DeviceService R E * Z :=
  let '(st, stale) := StateStore.MarkDeviceUnavailable (states s) (keys s) deviceID reason traceIDs in
  (publishStates (set_states s st) stale, Z.of_nat (List.length stale)).

(** [s.commands.Confirm], counted. *)
Definition confirm_property s (deviceID endpointID capabilityID propertyID : string)
    (value : PropertyValue) : DeviceService R E :=
  let '(s, now) := time_now s in
  let '(t, confirmed, _) := CommandTracker.Confirm (command_order env) (tracker s) now
    deviceID endpointID capabilityID propertyID value in
  let s := set_tracker s t in
  if confirmed : bool then count_ s commandsConfirmed 1 else s.

Definition confirm_snapshot s (item : DeviceModel.Device) : DeviceService R E :=
  fold_left (fun s x =>
    let '(e, c, p) := x in
    confirm_property s (d_ID item) (ep_ID e) (cap_ID c) (pd_ID (p_Definition p)) (p_Value p))
    (source_properties item) s.

Definition project_latest s (mapper : option (PropertyMapper E)) (catalog : Catalog)
    (item : DeviceModel.Device) : DeviceService R E * result (MappingFailure E) DeviceModel.Device :=
  let '(m, r) := projectLatestSnapshot (prefs s) mapper catalog item (metrics s) in
  (set_metrics s m, r).

(** [mappingErrorText] of an error is a text of its own, not modelled: the argument
    [text] of the handlers. *)
Definition publishMappingError s (id : string) (message : string) : DeviceService R E :=
  match DeviceRegistry.Get (registry s) id with
  | None => s
  | Some item =>
      if d_MappingError item =s message then s
      else
        let item := set_MappingError item message in
        publishDevice (set_registry s (Upsert (registry s) item)) item
  end.

(** Camera media reachability outlives a control-only snapshot. *)
Definition keep_camera_availability s (item : DeviceModel.Device) : DeviceModel.Device :=
  match DeviceRegistry.Get (registry s) (d_ID item) with
  | Some current =>
      if (d_Type item =s TypeCamera) && (d_ProviderID item =s d_ProviderID current)
         && is_unknown (EffectiveAvailability item)
         && negb (is_unknown (EffectiveAvailability current))
         && negb (d_Disabled item) && negb (d_Removed item)
      then SetAvailability item (EffectiveAvailability current)
      else item
  | None => item
  end.

(** The device a handler goes on with, after the projection. *)
Definition incoming_device s (item : DeviceModel.Device) : DeviceModel.Device :=
  let item := NormalizeAvailability (keep_camera_availability s item) in
  let item := if isDeviceDisabled s (d_ID item) then SetOnline (set_Disabled item true) false else item in
  if d_Removed item then SetOnline item false else item.

Definition handle_projected s (item : DeviceModel.Device) (traceID : string)
    (origin : snapshotTimeOrigin) : DeviceService R E :=
  let item := incoming_device s item in
  let '(s, accepted) := if IsOnline item then acceptSnapshotSequence s item else (s, true) in
  if negb accepted then count_ s providerEventsIgnored 1
  else
    let s := if IsOnline item then s else resetSnapshotSequence s (d_ID item) in
    let s := set_registry s (if d_Removed item then Delete (registry s) (d_ID item)
                             else Upsert (registry s) item) in
    let s :=
      if IsOnline item then confirm_snapshot (applySnapshot s item traceID origin) item
      else
        let s := ensureUnknownStates s item (unavailableReason item) traceID in
        let '(s, stale) := markDeviceUnavailable s (d_ID item) (unavailableReason item) [traceID] in
        count_ s statesMarkedStale stale in
    publishDevice s item.

Definition handleDeviceSnapshot s (mapper : option (PropertyMapper E)) (catalog : Catalog)
    (text : MappingFailure E -> string) (item : DeviceModel.Device) (traceID : string)
    (origin : snapshotTimeOrigin) : DeviceService R E :=
  let s := count_ s eventsProcessed 1 in
  match project_latest s mapper catalog item with
  | (s, Err e) => publishMappingError s (d_ID item) (text e)
  | (s, Ok item) => handle_projected s item traceID origin
  end.

(** ** Capability availability *)

Record CapabilityAvailability := MkAvailability {
  ca_ProviderID : string;
  ca_DeviceID : string;
  ca_EndpointID : string;
  ca_CapabilityID : string;
  ca_Available : bool;
}.

Definition handleCapabilityAvailability s (a : CapabilityAvailability) (traceID : string)
    : DeviceService R E :=
  if ca_Available a then s
  else
    match DeviceRegistry.Get (registry s) (ca_DeviceID a) with
    | None => s
    | Some item =>
        if negb (d_ProviderID item =s ca_ProviderID a) || d_Disabled item || d_Removed item then s
        else
          let '(st, changed) := StateStore.MarkCapabilityUnavailable (states s) (keys s)
            (ca_DeviceID a) (ca_EndpointID a) (ca_CapabilityID a)
            UnavailableControlProviderOffline [traceID] in
          publishStates (count_ (set_states s st) statesMarkedStale (Z.of_nat (List.length changed))) changed
    end.

(** The payload of an event of the dispatcher. *)
Inductive Payload :=
| AvailabilityPayload (a : CapabilityAvailability)
| SnapshotPayload (item : DeviceModel.Device) (origin : snapshotTimeOrigin)
| DevicePayload (item : DeviceModel.Device)
| OtherPayload.

Definition handleEvent s (mapper : option (PropertyMapper E)) (catalog : Catalog)
    (text : MappingFailure E -> string) (payload : Payload) (traceID : string) : DeviceService R E :=
  match payload with
  | AvailabilityPayload a => handleCapabilityAvailability s a traceID
  | SnapshotPayload item origin => handleDeviceSnapshot s mapper catalog text item traceID origin
  | DevicePayload item =>
      handleDeviceSnapshot s mapper catalog text item traceID snapshotTimeOriginProviderEvent
  | OtherPayload => s
  end.

(** ** Reachability, removal, enabling *)

Definition availability_eqb (a b : Availability) : bool :=
  match a, b with
  | AvailabilityOnline, AvailabilityOnline | AvailabilityOffline, AvailabilityOffline
  | AvailabilityUnknown, AvailabilityUnknown => true
  | AvailabilityOther x, AvailabilityOther y => x =s y
  | _, _ => false
  end.

(** The device and the error Go returns together. *)
Definition ReportDeviceAvailability s (id : string) (availability : Availability)
    : DeviceService R E * (option DeviceModel.Device * option (ServiceError E)) :=
  match availability with
  | AvailabilityOther _ => (s, (None, Some InvalidAvailabilityReport))
  | _ =>
      match DeviceRegistry.Get (registry s) id with
      | None => (s, (None, Some (ProviderFailure ErrDeviceNotFound)))
      | Some item =>
          if d_Disabled item || d_Removed item then (s, (Some item, Some ErrDeviceDisabled))
          else if availability_eqb (EffectiveAvailability item) availability then (s, (Some item, None))
          else
            let '(s, now) := time_now s in
            let item := set_LastUpdateAt (SetAvailability item availability) now in
            let s := set_registry s (Upsert (registry s) item) in
            let s :=
              match availability with
              | AvailabilityOnline => applySnapshot s item "" snapshotTimeOriginRefresh
              | AvailabilityOffline =>
                  let '(s, stale) := markDeviceUnavailable s id UnavailableDeviceOffline [] in
                  count_ s statesMarkedStale stale
              | _ => s
              end in
            (publishDevice s item, (Some item, None))
      end
  end.

Definition RemoveFromRegistry s (id : string) : DeviceService R E :=
  match DeviceRegistry.Get (registry s) id with
  | None => s
  | Some item =>
      let item := SetOnline (set_Removed item true) false in
      let s := resetSnapshotSequence (set_registry s (Delete (registry s) id)) id in
      let '(s, _) := markDeviceUnavailable s id UnavailableRemoved [] in
      publishDevice s item
  end.

(** [store] is the answer of the preference store, [None] without one; [discovered]
    that of the discoverer. *)
Definition SetDeviceEnabled s (mapper : option (PropertyMapper E)) (catalog : Catalog)
    (text : MappingFailure E -> string) (store : option (result string unit))
    (discovered : option (result unit (list DeviceModel.Device))) (id : string) (enabled : bool)
    : DeviceService R E * result (ServiceError E) DeviceModel.Device :=
  match DeviceRegistry.Get (registry s) id with
  | None => (s, Err (ProviderFailure ErrDeviceNotFound))
  | Some item =>
      match store with
      | None => (s, Err PreferencesUnavailable)
      | Some (Err e) => (s, Err (PreferencesFailure e))
      | Some (Ok _) =>
          if negb enabled then
            let s := set_disabled s ({[id]} ∪ disabled s) in
            let item := SetOnline (set_Disabled item true) false in
            let s := resetSnapshotSequence s id in
            let s := set_registry s (Upsert (registry s) item) in
            let '(s, stale) := markDeviceUnavailable s id UnavailableDisabled [] in
            (publishDevice (count_ s statesMarkedStale stale) item, Ok item)
          else
            let s := resetSnapshotSequence (set_disabled s (disabled s ∖ {[id]})) id in
            let item := set_Disabled item false in
            let found :=
              match discovered with
              | Some (Ok snapshots) => find_by d_ID id snapshots
              | _ => None
              end in
            let '(s, item) :=
              match found with
              | None => (s, item)
              | Some snapshot =>
                  let '(s, projected) := project_latest s mapper catalog snapshot in
                  let item := match projected with
                              | Ok d => d
                              | Err e => set_MappingError snapshot (text e)
                              end in
                  (s, NormalizeAvailability (set_Removed (set_Disabled item false) false))
              end in
            let item := if d_Removed item then SetOnline item false else item in
            let s := set_registry s (Upsert (registry s) item) in
            let s :=
              if IsOnline item then
                applySnapshot (acceptSnapshotSequence s item).1 item "" snapshotTimeOriginRefresh
              else
                let s := ensureUnknownStates s item (unavailableReason item) "" in
                (markDeviceUnavailable s id (unavailableReason item) []).1 in
            (publishDevice s item, Ok item)
      end
  end.

(** ** The scanner: one tick at [now] *)

Definition scan s (now : Time) : DeviceService R E :=
  let '(st, stale) := StateStore.MarkStale (states s) (keys s) now in
  let s := publishStates (count_ (set_states s st) statesMarkedStale (Z.of_nat (List.length stale))) stale in
  let '(t, expired) := CommandTracker.Expire (command_order env) (tracker s) now in
  count_ (set_tracker s t) commandsTimedOut (Z.of_nat (List.length expired)).

(** ** Construction *)

(** A discovered device: the native snapshot if it maps, else the public one with the
    error, else nothing. *)
Definition discover_device s (mapper : option (PropertyMapper E)) (text : MappingFailure E -> string)
    (public : gmap string DeviceModel.Device) (native : DeviceModel.Device) : DeviceService R E :=
  let publish s (item : DeviceModel.Device) :=
    let item := NormalizeAvailability item in
    let s := set_registry s (Upsert (registry s) item) in
    if IsOnline item then
      applySnapshot (acceptSnapshotSequence s item).1 item "" snapshotTimeOriginRefresh
    else ensureUnknownStates s item (unavailableReason item) "" in
  let map s item :=
    let '(m, r) := mapSnapshot (prefs s) mapper item (metrics s) in (set_metrics s m, r) in
  match map s native with
  | (s, Ok item) => publish s item
  | (s, Err e) =>
      match public !! d_ID native with
      | None => s
      | Some item =>
          match map s item with
          | (s, Ok item) => publish s (set_MappingError item (text e))
          | (s, Err _) => s
          end
      end
  end.

Definition empty_service (priority : option R) (timeout : Duration) : DeviceService R E :=
  MkService (NewDeviceRegistry []) (NewStore [priority]) (NewTracker timeout) ∅ ∅ (MkPreferences ∅ ∅ [])
    ∅ ∅ ∅ ∅ 0 0 zero_metrics (MkTiming 0 "" 0 "") (MkReadbacks ∅ 0 false)
    0 0.

(** What the checkpoint store answers: [None] without a store or a saved checkpoint,
    [Err] when it cannot be read or decoded. *)
Definition restoreStateCheckpoint s (saved : option (result unit Checkpoint)) : DeviceService R E :=
  match saved with
  | None => s
  | Some (Err _) => count_ s stateCheckpointErrors 1
  | Some (Ok c) =>
      let '(st, restored) := RestoreCheckpoint (states s) c in
      if restored : bool
      then count_ (set_states s st) statesRestored (Z.of_nat (List.length (cp_Values c)))
      else count_ s stateCheckpointErrors 1
  end.

(** The checkpoint saved, and the count; [answer] is that of the store. *)
Definition saveStateCheckpoint s (answer : option (result unit unit)) : DeviceService R E * option Checkpoint :=
  match answer with
  | None => (s, None)
  | Some (Err _) => (count_ s stateCheckpointErrors 1, None)
  | Some (Ok _) => (count_ s stateCheckpoints 1, Some (takeCheckpoint (states s) (keys s)))
  end.

(** [saved] is what the checkpoint store has, [items] the devices discovered,
    [unavailable] the capabilities the Provider reports as unavailable. *)
Definition NewDeviceService (priority : option R) (mapper : option (PropertyMapper E))
    (text : MappingFailure E -> string) (saved : option (result unit Checkpoint)) (catalog : Catalog)
    (items : list DeviceModel.Device) (unavailable : list CapabilityAvailability) : DeviceService R E :=
  let s := empty_service priority (5 * second) in
  let s := restoreStateCheckpoint s saved in
  let public : gmap string DeviceModel.Device := fold_left (fun m item => <[d_ID item := item]> m) items ∅ in
  let s := fold_left (fun s native => discover_device s mapper text public native)
             (sourceSnapshots mapper catalog items) s in
  fold_left (fun s a =>
    if ca_Available a then s
    else set_states s (StateStore.MarkCapabilityUnavailable (states s) (keys s) (ca_DeviceID a)
           (ca_EndpointID a) (ca_CapabilityID a) UnavailableControlProviderOffline []).1) unavailable s.

End Handlers.

(** ** What the operations leave alone *)

Section Frames.
Context {R E : Type} `{PriorityResolver R} `{UnicodeLower}.
Implicit Type s : DeviceService R E.

(** Publication, metrics and the clock touch nothing the handlers decide on. *)
Record quiet (s s' : DeviceService R E) : Prop := {
  q_registry : registry s' = registry s;
  q_states : states s' = states s;
  q_tracker : tracker s' = tracker s;
  q_seq : snapshotSeq s' = snapshotSeq s;
  q_disabled : disabled s' = disabled s;
  q_ops : propertyOps s' = propertyOps s;
  q_heap : operations s' = operations s;
}.

Lemma quiet_refl s : quiet s s.
Proof. by constructor. Qed.
Lemma quiet_trans s1 s2 s3 : quiet s1 s2 -> quiet s2 s3 -> quiet s1 s3.
Proof. intros [] []. constructor; congruence. Qed.

Lemma quiet_count s c n : quiet s (count_ s c n).
Proof. by constructor. Qed.
Lemma quiet_publishDevice s d : quiet s (publishDevice s d).
Proof. by constructor. Qed.
Lemma quiet_publishState s v : quiet s (publishState s v).
Proof. by constructor. Qed.
Lemma quiet_publishStates s l : quiet s (publishStates s l).
Proof.
  unfold publishStates. revert s. induction l as [|v l IH]; intros s; simpl; [apply quiet_refl|].
  eapply quiet_trans; [apply quiet_publishState|apply IH].
Qed.
Lemma quiet_timing s item o origin : quiet s (recordTimingOffset s item o origin).
Proof. unfold recordTimingOffset. by repeat case_match; constructor. Qed.
Lemma quiet_observed s item r o : quiet s (safeObservedAt s item r o).1.
Proof.
  unfold safeObservedAt. repeat case_match; simpl; auto using quiet_refl, quiet_timing.
Qed.
Lemma quiet_project s (mapper : option (PropertyMapper E)) catalog item :
  quiet s (project_latest s mapper catalog item).1.
Proof. unfold project_latest. destruct (projectLatestSnapshot _ _ _ _ _). by constructor. Qed.

(** The value [safeObservedAt] chooses. *)
Definition observed_at (item : DeviceModel.Device) (receivedAt : Time) : Time :=
  let observedAt := d_LastUpdateAt item in
  if negb (IsZero observedAt) && negb (Before observedAt (receivedAt + - (5 * minute)))
     && negb (After observedAt (receivedAt + 5 * minute)) then observedAt else receivedAt.

Lemma observed_at_eq s item r o : (safeObservedAt s item r o).2 = observed_at item r.
Proof.
  unfold safeObservedAt, observed_at.
  destruct (IsZero (d_LastUpdateAt item)); [done|].
  destruct (Before _ (r + - _)), (After _ (r + _)); simpl; by repeat case_match.
Qed.

(** Only the states of [s'] differ from those of [s]. *)
Record only_states (s s' : DeviceService R E) (st : Store R) : Prop := {
  os_states : states s' = st;
  os_quiet : quiet (set_states s st) s';
}.

Lemma only_states_quiet s s' st s'' : only_states s s' st -> quiet s' s'' -> only_states s s'' st.
Proof.
  intros [Hs Hq] Hq'. constructor; [by rewrite (q_states _ _ Hq')|by eapply quiet_trans].
Qed.

Lemma only_states_trans s s1 st1 s2 st2 :
  only_states s s1 st1 -> only_states s1 s2 st2 -> only_states s s2 st2.
Proof.
  intros [Hs [? ? ? ? ? ? ?]] [Hs2 [? ? ? ? ? ? ?]]. constructor; [done|]. constructor; simpl in *; congruence.
Qed.

Lemma only_states_refl s s' : quiet s s' -> only_states s s' (states s).
Proof. intros [? ? ? ? ? ? ?]. constructor; [done|]. by constructor. Qed.

Lemma apply_state_eq s v : only_states s (apply_state s v) (ApplyWithResult (states s) v).1.1.
Proof.
  unfold apply_state, StateStore.Apply. destruct (ApplyWithResult (states s) v) as [[st x] r].
  simpl. destruct (Applied r); constructor; try done; by constructor.
Qed.

Lemma apply_states_eq l s :
  only_states s (fold_left apply_state l s) (apply_all (states s) l).
Proof.
  revert s. induction l as [|v l IH]; intros s; simpl; [apply only_states_refl, quiet_refl|].
  eapply only_states_trans; [apply apply_state_eq|].
  rewrite <- (os_states _ _ _ (apply_state_eq s v)). apply IH.
Qed.

(** The reports of an online snapshot received at [r]. *)
Definition reports_of (item : DeviceModel.Device) (r : Time) (traceID : string) (origin : snapshotTimeOrigin)
    : list StateValue :=
  omap (reported_state item r (observed_at item r) traceID origin) (source_properties item).

Lemma applySnapshot_eq env s item traceID origin :
  only_states s (applySnapshot env s item traceID origin)
    (apply_all (states s) (reports_of item (clock env (ticks s)) traceID origin)).
Proof.
  unfold applySnapshot, time_now, reports_of.
  pose proof (quiet_observed (set_ticks s (S (ticks s)) (drawn s)) item (clock env (ticks s)) origin) as Hq.
  pose proof (observed_at_eq (set_ticks s (S (ticks s)) (drawn s)) item (clock env (ticks s)) origin) as <-.
  destruct (safeObservedAt _ _ _ _) as [s1 o]. simpl in *.
  assert (states s = states s1) as -> by (by rewrite (q_states _ _ Hq)).
  eapply only_states_trans; [apply only_states_refl|apply apply_states_eq].
  eapply quiet_trans; [|exact Hq]. by constructor.
Qed.

Lemma ensure_unknown_eq s v : only_states s (ensure_unknown s v) (EnsureUnknown (states s) v).1.1.
Proof.
  unfold ensure_unknown. destruct (EnsureUnknown (states s) v) as [[st x] changed].
  simpl. destruct changed; constructor; try done; by constructor.
Qed.

Definition ensure_all (st : Store R) (l : list StateValue) : Store R :=
  fold_left (fun st v => (EnsureUnknown st v).1.1) l st.

Lemma ensureUnknownStates_eq env s item reason traceID :
  only_states s (ensureUnknownStates env s item reason traceID)
    (ensure_all (states s) (unknown_state item (clock env (ticks s)) reason traceID <$> source_properties item)).
Proof.
  unfold ensureUnknownStates, time_now. generalize (clock env (ticks s)). intros now.
  eapply (only_states_trans _ (set_ticks s (S (ticks s)) (drawn s)) (states s));
    [apply only_states_refl; by constructor|].
  assert (states s = states (set_ticks s (S (ticks s)) (drawn s))) as -> by done.
  generalize (set_ticks s (S (ticks s)) (drawn s)). clear s.
  induction (source_properties item) as [|x l IH]; intros s; simpl; [apply only_states_refl, quiet_refl|].
  eapply only_states_trans; [apply ensure_unknown_eq|].
  rewrite <- (os_states _ _ _ (ensure_unknown_eq s _)). apply IH.
Qed.

Lemma markDeviceUnavailable_eq env s id reason traceIDs :
  only_states s (markDeviceUnavailable env s id reason traceIDs).1
    (MarkDeviceUnavailable (states s) (keys env s) id reason traceIDs).1.
Proof.
  unfold markDeviceUnavailable. destruct (MarkDeviceUnavailable _ _ _ _ _) as [st stale]. simpl.
  destruct (quiet_publishStates (set_states s st) stale). constructor; [done|]. by constructor.
Qed.

End Frames.

(** ** The store under a batch of reports *)

Section Batch.
Context {R : Type} `{PriorityResolver R}.
Implicit Types (st : Store R) (v : StateValue).

(** What is held under a key after one report for it. *)
Definition decided st v : option StateValue := values (ApplyWithResult st v).1.1 !! sv_Key v.

Lemma apply_priority_kept st v : priority (ApplyWithResult st v).1.1 = priority st.
Proof. rewrite apply_eq. cbv zeta. by repeat case_match. Qed.

Lemma apply_elsewhere st v k : k <> sv_Key v -> values (ApplyWithResult st v).1.1 !! k = values st !! k.
Proof. intros Hk. destruct (apply_values st v) as [-> | ->]; [done|]. by rewrite lookup_insert_ne. Qed.

Lemma compare_priority st st' cur inc :
  priority st = priority st' -> compareLocked st cur inc = compareLocked st' cur inc.
Proof. intros Hp. unfold compareLocked, providerPriorityLocked. by rewrite Hp. Qed.

(** The decision looks at nothing but the value held and the priorities. *)
Lemma decided_local st st' v :
  priority st = priority st' -> values st !! sv_Key v = values st' !! sv_Key v ->
  decided st v = decided st' v.
Proof.
  intros Hp Hv. unfold decided. rewrite !apply_eq, <- Hv. cbv zeta.
  destruct (values st !! sv_Key v) as [c|] eqn:Hc.
  - rewrite <- (compare_priority st st' c _ Hp).
    destruct (compareLocked st c (normalize v)) as [[d cp] ip].
    destruct (accepting d); simpl; [by rewrite !lookup_insert_eq|congruence].
  - simpl. by rewrite !lookup_insert_eq.
Qed.

Lemma apply_all_pointwise st l :
  NoDup (sv_Key <$> l) ->
  (forall v, v ∈ l -> values (apply_all st l) !! sv_Key v = decided st v) /\
  (forall k, k ∉ sv_Key <$> l -> values (apply_all st l) !! k = values st !! k).
Proof.
  revert st. induction l as [|v l IH]; intros st Hnd; [split; [set_solver|done]|].
  rewrite fmap_cons in Hnd |- *. apply NoDup_cons in Hnd as [Hv Hnd]. simpl.
  destruct (IH (ApplyWithResult st v).1.1 Hnd) as [Hin Hout]. split.
  - intros w [->|Hw]%elem_of_cons; [by apply Hout|]. rewrite Hin by done.
    apply decided_local; [apply apply_priority_kept|]. apply apply_elsewhere.
    intros Heq. apply Hv. rewrite <- Heq. by apply list_elem_of_fmap_2.
  - intros k Hk. rewrite Hout by set_solver. apply apply_elsewhere. set_solver.
Qed.

Lemma ensure_at st v k :
  values (EnsureUnknown st v).1.1 !! k =
  if decide (k = sv_Key v)
  then Some (default (with_Version (normalize (with_Quality v QualityUnknown)) 1) (values st !! k))
  else values st !! k.
Proof.
  unfold EnsureUnknown.
  assert (Hk : sv_Key (normalize (with_Quality v QualityUnknown)) = sv_Key v)
    by (rewrite sv_Key_normalize; by destruct v).
  rewrite Hk. destruct (values st !! sv_Key v) as [c|] eqn:Hc; simpl.
  - case_decide as Hd; [by rewrite Hd, Hc|done].
  - rewrite sv_Key_with_Version, Hk. case_decide as Hd; [subst; by rewrite lookup_insert_eq, Hc|].
    by apply lookup_insert_ne.
Qed.

Lemma ensure_all_some st l k :
  (is_Some (values st !! k) -> values (ensure_all st l) !! k = values st !! k) /\
  (k ∈ sv_Key <$> l -> is_Some (values (ensure_all st l) !! k)) /\
  (k ∉ sv_Key <$> l -> values (ensure_all st l) !! k = values st !! k).
Proof.
  revert st. induction l as [|v l IH]; intros st; [split_and!; set_solver|].
  rewrite fmap_cons. simpl. destruct (IH (EnsureUnknown st v).1.1) as (H1 & H2 & H3).
  pose proof (ensure_at st v k) as Hv.
  split_and!.
  - intros [c Hc]. rewrite H1; rewrite Hv, Hc; [by case_decide|case_decide; eauto].
  - intros [->|Hk]%elem_of_cons; [|by apply H2]. rewrite decide_True in Hv by done.
    rewrite H1; rewrite Hv; eauto.
  - intros [Hne Hk]%not_elem_of_cons. rewrite H3, Hv by done. by rewrite decide_False.
Qed.

End Batch.

(** ** Confirmations by a snapshot *)

Section Confirm.
Context {R E : Type} `{PriorityResolver R} (env : Environment).
Hypothesis order_range : forall m, range_of m (command_order env m).
Implicit Type s : DeviceService R E.

(** The pending key of a property of a device. *)
Definition pending_of (deviceID : string) (x : Endpoint * Capability * Property) : string :=
  let '(e, c, p) := x in pendingKey deviceID (ep_ID e) (cap_ID c) (pd_ID (p_Definition p)).

(** The request [id] waits under [key], as [cmd]; or it has been confirmed. *)
Definition waits (t : Tracker) (key id : string) (cmd : Command) : Prop :=
  pending t !! key = Some id /\ commands t !! id = Some cmd.
Definition settled (t : Tracker) (key id : string) : Prop :=
  pending t !! key = None /\ forall c, commands t !! id = Some c -> cmd_Status c = StatusConfirmed.

Lemma confirm_one t now d e c p v key id cmd :
  wf t -> bounded t ->
  let t' := (Confirm (command_order env) t now d e c p v).1.1 in
  (wf t' /\ bounded t') /\
  (settled t key id -> settled t' key id) /\
  (waits t key id cmd -> waits t' key id cmd \/ settled t' key id) /\
  (waits t key id cmd -> key = pendingKey d e c p -> Equal (cmd_Expected cmd) v = true -> settled t' key id).
Proof.
  intros Hwf Hb. cbv zeta.
  destruct (Confirm_good _ order_range t now d e c p v Hwf Hb) as [Hwf' _ Hb'].
  split; [done|]. pose proof (Confirm_cases _ order_range t now d e c p v Hwf) as Hcase.
  destruct (pending t !! pendingKey d e c p) as [id1|] eqn:Hp.
  2: { rewrite Hcase. simpl. split_and!; [done|by left|]. intros [Hk _] ->. congruence. }
  destruct Hcase as (cmd1 & Hc1 & Hl1 & Hcase).
  destruct (Equal (cmd_Expected cmd1) v) eqn:He.
  2: { rewrite Hcase. simpl. split_and!; [done|by left|]. intros [Hk Hc] -> He'. congruence. }
  destruct Hcase as (t' & cmd' & -> & Hreq & Hst & _ & Hown & Hpend & Hback & Hlive). simpl.
  assert (Hsettled : settled t (pendingKey d e c p) id1 \/ settled t' (pendingKey d e c p) id1).
  { right. split; [rewrite Hpend; apply lookup_delete_eq|]. intros x Hx. by rewrite (Hown x Hx). }
  destruct Hsettled as [[Hno _]|Hsettled]; [congruence|].
  assert (Hkeep : waits t key id cmd -> waits t' key id cmd \/ settled t' key id).
  { intros [Hk Hc]. destruct (decide (key = pendingKey d e c p)) as [->|Hne].
    { right. congruence. }
    left. assert (id <> id1).
    { intros ->. apply Hne. destruct (wf_pending _ Hwf _ _ Hk) as (x & Hx & _ & _ & <-).
      destruct (wf_pending _ Hwf _ _ Hp) as (y & Hy & _ & _ & <-). congruence. }
    split; [by rewrite Hpend, lookup_delete_ne|].
    destruct (wf_pending _ Hwf _ _ Hk) as (x & Hx & Hlx & _). simplify_eq. by apply Hlive. }
  split_and!; [|exact Hkeep|].
  - intros [Hk Hall]. split; [rewrite Hpend; by apply lookup_delete_None; right|].
    intros x Hx. destruct (decide (id = id1)) as [->|Hne]; [by rewrite (Hown x Hx)|].
    apply Hall. by apply (Hback id).
  - intros [Hk Hc] -> _. congruence.
Qed.

Lemma tracker_confirm_snapshot_step s d e c p v :
  tracker (confirm_property env s d e c p v) =
  (Confirm (command_order env) (tracker s) (clock env (ticks s)) d e c p v).1.1.
Proof.
  unfold confirm_property, time_now. simpl.
  destruct (Confirm _ _ _ _ _ _ _ _) as [[t b] n]. by destruct b.
Qed.

Lemma confirm_property_core s d e c p v :
  let s' := confirm_property env s d e c p v in
  registry s' = registry s /\ states s' = states s /\ snapshotSeq s' = snapshotSeq s /\
  disabled s' = disabled s /\ propertyOps s' = propertyOps s /\ operations s' = operations s.
Proof.
  unfold confirm_property, time_now. simpl.
  destruct (Confirm _ _ _ _ _ _ _ _) as [[t b] n]. by destruct b.
Qed.

(** The properties [l] of the device [d] confirm what they can, one after the other. *)
Lemma confirm_fold d l : forall s,
  let s' := fold_left (fun s x => let '(e, c, p) := x in
    confirm_property env s d (ep_ID e) (cap_ID c) (pd_ID (p_Definition p)) (p_Value p)) l s in
  (registry s' = registry s /\ states s' = states s /\ snapshotSeq s' = snapshotSeq s /\
   disabled s' = disabled s /\ propertyOps s' = propertyOps s /\ operations s' = operations s) /\
  (wf (tracker s) -> bounded (tracker s) ->
   (wf (tracker s') /\ bounded (tracker s')) /\
   (forall key id, settled (tracker s) key id -> settled (tracker s') key id) /\
   (forall key id cmd, waits (tracker s) key id cmd ->
      waits (tracker s') key id cmd \/ settled (tracker s') key id) /\
   (forall x id cmd, x ∈ l -> waits (tracker s) (pending_of d x) id cmd ->
      Equal (cmd_Expected cmd) (p_Value x.2) = true -> settled (tracker s') (pending_of d x) id)).
Proof.
  induction l as [|[[e c] p] l IH]; intros s; simpl.
  { split; [done|]. intros. split_and!; try done; [by left|set_solver]. }
  set (s1 := confirm_property _ _ _ _ _ _ _).
  destruct (confirm_property_core s d (ep_ID e) (cap_ID c) (pd_ID (p_Definition p)) (p_Value p))
    as (H1 & H2 & H3 & H4 & H5 & H6). fold s1 in H1, H2, H3, H4, H5, H6.
  destruct (IH s1) as [(E1 & E2 & E3 & E4 & E5 & E6) Ht].
  split; [split_and!; congruence|]. intros Hwf Hb.
  assert (Hstep : forall key id cmd, _) by exact (fun key id cmd => confirm_one (tracker s)
    (clock env (ticks s)) d (ep_ID e) (cap_ID c) (pd_ID (p_Definition p)) (p_Value p) key id cmd Hwf Hb).
  cbv zeta in Hstep. rewrite <- tracker_confirm_snapshot_step in Hstep. fold s1 in Hstep.
  destruct (Hstep "" "" zero_command) as [[Hwf1 Hb1] _].
  destruct (Ht Hwf1 Hb1) as ([Hgood1 Hgood2] & Hset & Hwait & Hall). split_and!; try done.
  - intros key id Hs. destruct (Hstep key id zero_command) as (_ & Hs1 & _). auto.
  - intros key id cmd Hw. destruct (Hstep key id cmd) as (_ & _ & Hw1 & _).
    destruct (Hw1 Hw) as [?|?]; [by apply Hwait|right; by apply Hset].
  - intros x id cmd [->|Hx]%elem_of_cons Hw He.
    + destruct (Hstep (pending_of d (e, c, p)) id cmd) as (_ & _ & _ & Hc). apply Hset. by apply Hc.
    + destruct (Hstep (pending_of d x) id cmd) as (_ & _ & Hw1 & _).
      destruct (Hw1 Hw) as [Hw'|Hs']; [by eapply Hall|by apply Hset].
Qed.

End Confirm.

(** ** Places of a device *)

Lemma claims_inj {A} (id : A -> string) P l x y :
  claims id P l -> x ∈ l -> y ∈ l -> id x = id y -> x = y.
Proof.
  intros [Hnd _] Hx Hy Heq.
  assert (Some x = Some y) as [= ->]; [|done].
  by rewrite <- (find_by_elem id l x Hnd Hx), <- (find_by_elem id l y Hnd Hy), Heq.
Qed.

Lemma claims_found {A} (id : A -> string) P l x : claims id P l -> x ∈ l -> P x.
Proof. intros [_ Hl] Hx. rewrite Forall_forall in Hl. by apply Hl. Qed.

Lemma NoDup_claims {A} (id : A -> string) P l : claims id P l -> NoDup l.
Proof. intros [Hnd _]. by apply NoDup_fmap_1 in Hnd. Qed.

Lemma source_keys_NoDup id d : structure_ok d -> NoDup (key_at_path id <$> source_properties d).
Proof.
  intros Hd. pose proof (so_endpoints d Hd) as He.
  apply NoDup_fmap_2_strong.
  - intros [[e c] p] [[e' c'] p'] (Hin & Hc & Hp)%elem_of_source_properties
      (Hin' & Hc' & Hp')%elem_of_source_properties [= E1 E2 E3].
    pose proof (claims_inj _ _ _ _ _ He Hin Hin' E1) as <-.
    pose proof (claims_found _ _ _ _ He Hin) as Hcaps.
    pose proof (claims_inj _ _ _ _ _ Hcaps Hc Hc' E2) as <-.
    destruct (claims_found _ _ _ _ Hcaps Hc) as [Hprops _].
    by pose proof (claims_inj _ _ _ _ _ Hprops Hp Hp' E3) as <-.
  - rewrite source_properties_bind. apply NoDup_bind; [|intros e Hin; apply NoDup_bind|by eapply NoDup_claims].
    + intros e1 e2 y _ _ (c1 & Hy1 & _)%list_elem_of_bind (c2 & Hy2 & _)%list_elem_of_bind.
      apply list_elem_of_fmap in Hy1 as (p1 & -> & _), Hy2 as (p2 & [= -> _ _] & _). done.
    + intros c1 c2 y _ _ (p1 & -> & _)%list_elem_of_fmap (p2 & [= -> _] & _)%list_elem_of_fmap. done.
    + intros c Hc. apply NoDup_fmap_2_strong; [by intros ? ? _ _ [= ->]|].
      destruct (claims_found _ _ _ _ (claims_found _ _ _ _ He Hin) Hc) as [Hp _]. by eapply NoDup_claims.
    + eapply NoDup_claims. apply (claims_found _ _ _ _ He Hin).
Qed.

Lemma source_value_ok d x :
  structure_ok d -> x ∈ source_properties d -> is_Some (state_value (p_Value x.2)).
Proof.
  intros Hd. destruct x as [[e c] p]. intros (He & Hc & Hp)%elem_of_source_properties.
  pose proof (claims_found _ _ _ _ (so_endpoints d Hd) He) as Hcaps.
  destruct (claims_found _ _ _ _ Hcaps Hc) as [Hprops _].
  destruct (claims_found _ _ _ _ Hprops Hp) as (_ & _ & Hv). simpl.
  unfold state_value. inversion Hv; simpl; eauto.
Qed.

Lemma reported_key item r o tr origin x v :
  reported_state item r o tr origin x = Some v ->
  sv_Key v = key_at_path (d_ID item) x /\ state_value (p_Value x.2) = Some (sv_Value v).
Proof. unfold reported_state. destruct (state_value _); simpl; [|done]. by intros [= <-]. Qed.

(** A device with the properties of a valid one reports each of them once. *)
Lemma reports_keys item item' r tr origin :
  structure_ok item -> source_properties item' = source_properties item ->
  sv_Key <$> reports_of item' r tr origin = key_at_path (d_ID item') <$> source_properties item.
Proof.
  intros Hd Hsp. unfold reports_of. rewrite Hsp.
  assert (Hall : Forall (fun x => is_Some (state_value (p_Value x.2))) (source_properties item))
    by (apply Forall_forall; intros x Hx; by apply (source_value_ok item)).
  clear Hd Hsp. induction Hall as [|x l [v Hv] _ IH]; [done|]. cbn.
  unfold reported_state at 1. rewrite Hv. cbn. by rewrite IH.
Qed.

Lemma reports_elem item item' r tr origin x :
  structure_ok item -> source_properties item' = source_properties item -> x ∈ source_properties item ->
  exists v, v ∈ reports_of item' r tr origin /\
    reported_state item' r (observed_at item' r) tr origin x = Some v /\
    sv_Key v = key_at_path (d_ID item') x /\ state_value (p_Value x.2) = Some (sv_Value v).
Proof.
  intros Hd Hsp Hx. destruct (source_value_ok item x Hd Hx) as [v0 Hv0].
  assert (Hrep : exists v, reported_state item' r (observed_at item' r) tr origin x = Some v).
  { unfold reported_state. rewrite Hv0. simpl. eauto. }
  destruct Hrep as [v Hv]. exists v. split; [|split; [done|exact (reported_key _ _ _ _ _ _ _ Hv)]].
  unfold reports_of. apply list_elem_of_omap. exists x. by rewrite Hsp.
Qed.

(** ** The device a handler goes on with *)

Section Incoming.
Context {R E : Type}.
Implicit Type s : DeviceService R E.

Lemma keep_camera_eq s item :
  keep_camera_availability s item = item \/
  exists av, keep_camera_availability s item = SetAvailability item av.
Proof.
  unfold keep_camera_availability. destruct (DeviceRegistry.Get _ _); [|by left].
  match goal with |- context [if ?b then SetAvailability _ _ else _] => destruct b end; eauto.
Qed.

Lemma incoming_shape s item : exists d av on,
  incoming_device s item = with_availability (set_Disabled item d) av on.
Proof.
  assert (Hset : forall x d av on av' on', with_availability (with_availability (set_Disabled x d) av on) av' on' =
    with_availability (set_Disabled x d) av' on') by by intros [].
  assert (Hdis : forall x d av on d', set_Disabled (with_availability (set_Disabled x d) av on) d' =
    with_availability (set_Disabled x d') av on) by by intros [].
  assert (Hself : exists d av on, keep_camera_availability s item = with_availability (set_Disabled item d) av on).
  { assert (Hi : item = with_availability (set_Disabled item (d_Disabled item)) (d_Availability item) (d_Online item))
      by by destruct item.
    destruct (keep_camera_eq s item) as [->|[av ->]]; [eauto|].
    exists (d_Disabled item). do 2 eexists. unfold SetAvailability. rewrite Hi at 1. by rewrite Hset. }
  destruct Hself as (d & av & on & Hself). unfold incoming_device, NormalizeAvailability, SetOnline, SetAvailability.
  rewrite Hself, Hset. repeat case_match; rewrite ?Hdis, ?Hset; eauto.
Qed.

Lemma incoming_fields s item :
  let item' := incoming_device s item in
  d_ID item' = d_ID item /\ d_Endpoints item' = d_Endpoints item /\ d_Sequence item' = d_Sequence item /\
  d_Removed item' = d_Removed item /\ source_properties item' = source_properties item.
Proof. cbv zeta. destruct (incoming_shape s item) as (d & av & on & ->). by destruct item. Qed.

Lemma with_availability_removed d av on : d_Removed (with_availability d av on) = d_Removed d.
Proof. by destruct d. Qed.

Lemma SetOnline_false d : IsOnline (SetOnline d false) = false.
Proof. by destruct d. Qed.

Lemma incoming_online s item :
  IsOnline (incoming_device s item) = true ->
  d_Removed item = false /\ isDeviceDisabled s (d_ID item) = false.
Proof.
  pose proof (incoming_fields s item) as (_ & _ & _ & Hr & _).
  unfold incoming_device in *. set (i0 := NormalizeAvailability _) in *.
  assert (d_ID i0 = d_ID item) as Hid.
  { unfold i0. rewrite d_ID_Normalize.
    destruct (keep_camera_eq s item) as [->|[av ->]]; [done|apply d_ID_SetAvailability]. }
  rewrite Hid in *. destruct (isDeviceDisabled s (d_ID item)).
  - destruct (d_Removed (SetOnline (set_Disabled i0 true) false)); by rewrite SetOnline_false.
  - destruct (d_Removed i0) eqn:Hi0; [by rewrite SetOnline_false|]. by rewrite <- Hr.
Qed.

End Incoming.

(** ** Handling a snapshot *)

Section Snapshots.
Context {R E : Type} `{PriorityResolver R} (env : Environment).
Hypothesis order_range : forall m, range_of m (command_order env m).
Hypothesis keys_range : forall m, range_of m (key_order env m).
Implicit Type s : DeviceService R E.

(** The handler of an online snapshot, after its sequence was accepted. *)
Lemma handle_online s item traceID origin :
  let item' := incoming_device s item in
  let s1 := set_registry (acceptSnapshotSequence s item').1
    (Upsert (registry (acceptSnapshotSequence s item').1) item') in
  IsOnline item' = true -> (acceptSnapshotSequence s item').2 = true ->
  quiet (confirm_snapshot env (applySnapshot env s1 item' traceID origin) item')
    (handle_projected env s item traceID origin).
Proof.
  intros item' s1 Hon Hacc. unfold handle_projected. fold item'. rewrite Hon.
  subst s1. destruct (acceptSnapshotSequence s item') as [s1 ok]. simpl in *. subst ok. simpl.
  destruct (incoming_online s item Hon) as [Hr _].
  destruct (incoming_fields s item) as (_ & _ & _ & Hr' & _). fold item' in Hr'. rewrite Hr', Hr.
  apply quiet_publishDevice.
Qed.

(** The handler of a snapshot that is not online. *)
Lemma handle_offline s item traceID origin :
  let item' := incoming_device s item in
  let reason := unavailableReason item' in
  let st1 := ensure_all (states s) (unknown_state item' (clock env (ticks s)) reason traceID <$> source_properties item') in
  let s' := handle_projected env s item traceID origin in
  IsOnline item' = false ->
  registry s' = (if d_Removed item then Delete (registry s) (d_ID item) else Upsert (registry s) item') /\
  snapshotSeq s' = delete (d_ID item) (snapshotSeq s) /\
  states s' = (MarkDeviceUnavailable st1 (key_order env (values st1)) (d_ID item) reason [traceID]).1 /\
  tracker s' = tracker s /\ disabled s' = disabled s /\ propertyOps s' = propertyOps s /\
  operations s' = operations s.
Proof.
  intros item' reason st1 s' Hoff. subst s'.
  destruct (incoming_fields s item) as (Hid & _ & _ & Hr & _). fold item' in Hid, Hr.
  unfold handle_projected. fold item'. rewrite Hoff, Hid, Hr. simpl.
  set (s1 := set_registry _ _). fold reason.
  destruct (ensureUnknownStates_eq env s1 item' reason traceID) as [Hst Hq].
  set (s2 := ensureUnknownStates env s1 item' reason traceID) in *.
  destruct (markDeviceUnavailable_eq env s2 (d_ID item) reason [traceID]) as [Hst2 Hq2].
  destruct (markDeviceUnavailable env s2 (d_ID item) reason [traceID]) as [s3 stale]. simpl in *.
  unfold keys in *. rewrite Hst in *. change (states s1) with (states s) in *.
  change (ticks s1) with (ticks s) in *. fold st1 in Hst2, Hq2.
  destruct Hq as [Q1 _ Q3 Q4 Q5 Q6 Q7], Hq2 as [P1 _ P3 P4 P5 P6 P7]. simpl in *.
  split_and!; congruence.
Qed.

(** What an online snapshot does. *)
Lemma online_cases s item traceID origin :
  let item' := incoming_device s item in
  let s' := handle_projected env s item traceID origin in
  let last := default 0 (snapshotSeq s !! d_ID item) in
  let now := clock env (ticks s) in
  wf (tracker s) -> bounded (tracker s) -> structure_ok item -> IsOnline item' = true ->
  if negb (d_Sequence item =? 0) && (0 <? last) && (d_Sequence item <=? last) then quiet s s'
  else
    DeviceRegistry.Get (registry s') (d_ID item) = Some (NormalizeAvailability item')
    /\ (forall x, x ∈ source_properties item -> exists v,
          reported_state item' now (observed_at item' now) traceID origin x = Some v /\
          sv_Key v = key_at_path (d_ID item) x /\ state_value (p_Value x.2) = Some (sv_Value v) /\
          values (states s') !! sv_Key v = decided (states s) v)
    /\ (forall k, DeviceID k <> d_ID item -> values (states s') !! k = values (states s) !! k)
    /\ (forall x id cmd, x ∈ source_properties item -> waits (tracker s) (pending_of (d_ID item) x) id cmd ->
          Equal (cmd_Expected cmd) (p_Value x.2) = true ->
          settled (tracker s') (pending_of (d_ID item) x) id)
    /\ (d_Sequence item <> 0 -> snapshotSeq s' !! d_ID item = Some (d_Sequence item)).
Proof.
  intros item' s' last now Hwf Hb Hok Hon.
  destruct (incoming_fields s item) as (Hid & Hes & Hseq & Hr & Hsp).
  fold item' in Hid, Hes, Hseq, Hr, Hsp.
  pose proof (handle_online s item traceID origin) as Hq. cbv zeta in Hq. fold item' in Hq.
  fold s' in Hq. specialize (Hq Hon).
  unfold acceptSnapshotSequence in Hq. rewrite Hseq, Hid in Hq. fold last in Hq.
  destruct (negb (d_Sequence item =? 0) && (0 <? last) && (d_Sequence item <=? last)) eqn:Hstale.
  { subst s'. unfold handle_projected. fold item'. rewrite Hon. unfold acceptSnapshotSequence.
    rewrite Hseq, Hid. fold last. apply andb_true_iff in Hstale as [[Hz Hl]%andb_true_iff Hle].
    apply negb_true_iff in Hz. rewrite Hz, Hl, Hle. apply quiet_count. }
  set (sa := if d_Sequence item =? 0 then s
             else set_snapshotSeq s (<[d_ID item := d_Sequence item]> (snapshotSeq s))).
  set (s1 := set_registry sa (Upsert (registry s) item')).
  assert (Hq1 : quiet (confirm_snapshot env (applySnapshot env s1 item' traceID origin) item') s').
  { subst s1 sa. destruct (d_Sequence item =? 0) eqn:Hz; [by apply Hq|].
    simpl in Hstale. rewrite Hstale in Hq. by apply Hq. }
  clear Hq. assert (Hs1 : states s1 = states s /\ tracker s1 = tracker s /\ ticks s1 = ticks s)
    by (subst s1 sa; by destruct (d_Sequence item =? 0)).
  destruct Hs1 as (Hst1 & Htr1 & Htk1).
  destruct (applySnapshot_eq env s1 item' traceID origin) as [Hst Hos].
  set (s2 := applySnapshot env s1 item' traceID origin) in *.
  rewrite Hst1, Htk1 in Hst. fold now in Hst.
  destruct (confirm_fold env order_range (d_ID item') (source_properties item') s2)
    as [(C1 & C2 & C3 & _) Hconf].
  fold (confirm_snapshot env s2 item') in C1, C2, C3, Hconf.
  assert (Htr2 : tracker s2 = tracker s) by (rewrite (q_tracker _ _ Hos); exact Htr1).
  rewrite Htr2 in Hconf. destruct (Hconf Hwf Hb) as (_ & _ & _ & Hall). clear Hconf.
  assert (Hstates : states s' = apply_all (states s) (reports_of item' now traceID origin))
    by (by rewrite (q_states _ _ Hq1), C2).
  assert (Hkeys : sv_Key <$> reports_of item' now traceID origin =
    key_at_path (d_ID item) <$> source_properties item)
    by (rewrite (reports_keys item) by done; by rewrite Hid).
  destruct (apply_all_pointwise (states s) (reports_of item' now traceID origin)) as [Hin Hout].
  { rewrite Hkeys. by apply source_keys_NoDup. }
  split_and!.
  - rewrite (q_registry _ _ Hq1), C1, (q_registry _ _ Hos). change (registry (set_states s1 _)) with (Upsert (registry s) item').
    rewrite Get_Upsert, Hid. by rewrite decide_True.
  - intros x Hx. destruct (reports_elem item item' now traceID origin x) as (v & Hv & Hr' & Hk & Hval); [done..|].
    exists v. rewrite <- Hid. split_and!; [done..|]. rewrite Hstates. by apply Hin.
  - intros k Hk. rewrite Hstates. apply Hout. rewrite Hkeys, list_elem_of_fmap.
    intros ([[e c] p] & -> & _). by apply Hk.
  - intros x id cmd Hx Hw He. rewrite (q_tracker _ _ Hq1). rewrite <- Hid in Hw |- *.
    apply (Hall x id cmd); [by rewrite Hsp|done|done].
  - intros Hnz. rewrite (q_seq _ _ Hq1), C3, (q_seq _ _ Hos). subst s1 sa.
    apply Z.eqb_neq in Hnz. rewrite Hnz. simpl. apply lookup_insert_eq.
Qed.

(** C13: an online snapshot reconciles the device.  When its sequence number is not
    newer than the last accepted one it changes nothing but counters and queues.
    Otherwise the registry keeps the device; every property's report is decided by the
    state store on its own merits, with the values of the other devices untouched;
    every pending command that waits for the reported value of its property is
    confirmed and its property is free again; and the sequence number is remembered. *)
Theorem online_snapshot_reconciles s item traceID origin :
  let item' := incoming_device s item in
  let s' := handle_projected env s item traceID origin in
  let last := default 0 (snapshotSeq s !! d_ID item) in
  let now := clock env (ticks s) in
  wf (tracker s) -> bounded (tracker s) -> structure_ok item -> IsOnline item' = true ->
  if negb (d_Sequence item =? 0) && (0 <? last) && (d_Sequence item <=? last) then quiet s s'
  else
    DeviceRegistry.Get (registry s') (d_ID item) = Some (NormalizeAvailability item')
    /\ (forall x, x ∈ source_properties item -> exists v,
          reported_state item' now (observed_at item' now) traceID origin x = Some v /\
          sv_Key v = key_at_path (d_ID item) x /\ state_value (p_Value x.2) = Some (sv_Value v) /\
          values (states s') !! sv_Key v = decided (states s) v)
    /\ (forall k, DeviceID k <> d_ID item -> values (states s') !! k = values (states s) !! k)
    /\ (forall x id cmd, x ∈ source_properties item -> waits (tracker s) (pending_of (d_ID item) x) id cmd ->
          Equal (cmd_Expected cmd) (p_Value x.2) = true ->
          settled (tracker s') (pending_of (d_ID item) x) id)
    /\ (d_Sequence item <> 0 -> snapshotSeq s' !! d_ID item = Some (d_Sequence item)).
Proof. apply online_cases. Qed.

(** a snapshot that is not online silences the device.  Every value of the device
    becomes unavailable with the reason (removed, disabled, unknown or offline), every
    property of the snapshot has a value, the values of the other devices and all
    commands are untouched, the sequence of the device starts afresh, and the registry
    drops the device when it is removed and keeps it otherwise. *)
Theorem offline_snapshot_silences s item traceID origin :
  let item' := incoming_device s item in
  let s' := handle_projected env s item traceID origin in
  IsOnline item' = false ->
  (forall k v, values (states s') !! k = Some v -> DeviceID k = d_ID item ->
     sv_Available v = false /\ sv_UnavailableReason v = unavailableReason item' /\
     sv_Quality v = (if sv_Known v then QualityStale else QualityUnknown))
  /\ (forall x, x ∈ source_properties item ->
        is_Some (values (states s') !! key_at_path (d_ID item) x))
  /\ (forall k, DeviceID k <> d_ID item -> values (states s') !! k = values (states s) !! k)
  /\ tracker s' = tracker s
  /\ snapshotSeq s' !! d_ID item = None
  /\ DeviceRegistry.Get (registry s') (d_ID item) =
       (if d_Removed item then None else Some (NormalizeAvailability item')).
Proof.
  intros item' s' Hoff.
  destruct (incoming_fields s item) as (Hid & _ & _ & _ & Hsp). fold item' in Hid, Hsp.
  destruct (handle_offline s item traceID origin Hoff) as (Hr & Hseq & Hst & Ht & _).
  fold item' s' in Hr, Hseq, Hst, Ht. rewrite Hsp in Hst.
  set (unknown := unknown_state item' (clock env (ticks s)) (unavailableReason item') traceID) in *.
  set (st1 := ensure_all (states s) (unknown <$> source_properties item)) in *.
  assert (Hkeys : sv_Key <$> (unknown <$> source_properties item) = key_at_path (d_ID item) <$> source_properties item).
  { rewrite <- list_fmap_compose. apply list_fmap_ext. intros _ x _. unfold unknown, unknown_state; simpl. by rewrite Hid. }
  destruct (mark_device_unavailable st1 (key_order env (values st1)) (d_ID item) (unavailableReason item')
    [traceID] [traceID] (keys_range _)) as (Hdev & Hother & _).
  rewrite <- Hst in Hdev, Hother. split_and!.
  - exact Hdev.
  - intros x Hx. destruct (ensure_all_some (states s) (unknown <$> source_properties item) (key_at_path (d_ID item) x))
      as (_ & Hin & _). fold st1 in Hin.
    assert (Hk : key_at_path (d_ID item) x ∈ sv_Key <$> (unknown <$> source_properties item))
      by (rewrite Hkeys; by apply list_elem_of_fmap_2).
    destruct (Hin Hk) as [v Hv]. rewrite Hst. unfold MarkDeviceUnavailable.
    rewrite (surjective_pairing (range_update _ _ _)). simpl. rewrite range_update_all by apply keys_range.
    rewrite Hv. simpl. eauto.
  - intros k Hk. rewrite Hother by done.
    apply (ensure_all_some (states s) (unknown <$> source_properties item) k).
    rewrite Hkeys, list_elem_of_fmap. intros ([[e c] p] & -> & _). by apply Hk.
  - exact Ht.
  - rewrite Hseq. apply lookup_delete_eq.
  - rewrite Hr. destruct (d_Removed item); [by rewrite Get_Delete, decide_True|].
    rewrite Get_Upsert, Hid. by rewrite decide_True.
Qed.

End Snapshots.

(** ** Concrete instances *)

Definition ex_env : Environment :=
  MkEnvironment (fun n => 1000 + Z.of_nat n) (fun n => "cmd-" +:+ pretty n) some_range some_range.

(** A hub with the switch [ex_switch], which has sent its first snapshot. *)
Definition ex_hub0 : DeviceService StaticPriorityResolver string := empty_service None 30.
Definition ex_hub : DeviceService StaticPriorityResolver string :=
  handle_projected ex_env ex_hub0 ex_switch "trace" snapshotTimeOriginProviderEvent.

Lemma ex_switch_ok : structure_ok ex_switch.
Proof. apply validate_structure_ok. vm_compute. reflexivity. Qed.

Lemma new_tracker_good timeout : wf (NewTracker timeout) /\ bounded (NewTracker timeout).
Proof.
  split; [|left; simpl; rewrite map_size_empty; lia].
  constructor; simpl; try done; intros; simplify_map_eq.
Qed.

(** a resent snapshot is ignored, a fresh one is taken. *)
Lemma online_snapshot_reconciles_witness :
  quiet ex_hub (handle_projected ex_env ex_hub ex_switch "again" snapshotTimeOriginProviderEvent)
  /\ DeviceRegistry.Get (registry ex_hub) "lamp-1" = Some ex_switch.
Proof.
  assert (Hh : registry ex_hub = MkRegistry {["lamp-1" := ex_switch]}) by (vm_compute; reflexivity).
  split; [|rewrite Hh; reflexivity].
  refine (online_snapshot_reconciles ex_env (fun m => range_of_some_range m) ex_hub ex_switch "again"
    snapshotTimeOriginProviderEvent _ _ ex_switch_ok ltac:(vm_compute; reflexivity)).
  - assert (tracker ex_hub = NewTracker 30) as -> by (vm_compute; reflexivity). apply new_tracker_good.
  - assert (tracker ex_hub = NewTracker 30) as -> by (vm_compute; reflexivity). apply new_tracker_good.
Defined.

(** the switch goes offline. *)
Lemma offline_snapshot_silences_witness :
  let item := SetOnline ex_switch false in
  let s' := handle_projected ex_env ex_hub item "lost" snapshotTimeOriginProviderEvent in
  DeviceRegistry.Get (registry s') "lamp-1" = Some (NormalizeAvailability (incoming_device ex_hub item)).
Proof.
  exact (proj2 (proj2 (proj2 (proj2 (proj2 (offline_snapshot_silences ex_env
    (fun m => range_of_some_range m) ex_hub (SetOnline ex_switch false) "lost"
    snapshotTimeOriginProviderEvent ltac:(vm_compute; reflexivity))))))).
Defined.
