(* ===== verification/PropertyWrite.v ===== *)
(** * Reads, writes and commands of the device service:
    backend/internal/application/device_service.go

    A property write passes several critical sections: it is validated, joined with or
    put before the running write of the property, waits for the gate of the device,
    publishes an optimistic value, is sent to the Provider, and is accepted, rejected
    or superseded.  The sections are definitions of their own; [ExecuteProperty]
    composes them, with [between] as what other goroutines do while it waits: for a
    write it joined (0), for the gate (1), for the Provider (2).

    The answers of Providers are arguments. *)

From S2P Require Import Prelude Float64 DomainState StateStore CommandTracker DeviceRegistry.
From S2P Require Import DeviceModel Lookup ModelContract LogicalDevice LogicalCompose LogicalRuntime MappingProfile.
From S2P Require Import DeviceProjection DeviceService.

(** The device, the command and the error a request returns. *)
Definition Outcome (E : Type) : Type := DeviceModel.Device * Command * option (ServiceError E).
Definition failed {E} (e : ServiceError E) : Outcome E := (zero_device, zero_command, Some e).

(** What [start_write] hands over to the Provider. *)
Record Sending := MkSending {
  sd_command : Command;
  sd_previous : option StateValue;
  sd_provider : string;
  sd_request : PropertyWriteRequest;
  sd_path : ParameterPath;
}.

(** The delays of the reads after a write: [readbackDelays] and [readbackGlobal]. *)
Record ReadbackConfig := MkReadbackConfig {
  readbackDelays : list Duration;
  readbackGlobal : bool;
}.

#[local] Instance duration_le_dec : RelDecision Z.le := _.
(** [slices.Compact] *)
Fixpoint compact (l : list Duration) : list Duration :=
  match l with
  | x :: (y :: _ as r) => if x =? y then compact r else x :: compact r
  | _ => l
  end.
Definition millisecond : Duration := 1000000.
Definition defaultPropertyReadbackDelays : list Duration :=
  [500 * millisecond; 2 * second; 5 * second; 10 * second].
Definition normalizePropertyReadbackDelays (configured : option (list Duration)) : list Duration :=
  compact (merge_sort Z.le (filter (fun d => 0 < d) (default defaultPropertyReadbackDelays configured))).

Definition is_superseded (s : Status) : bool :=
  match s with StatusSuperseded => true | _ => false end.

Definition valueMatchesType (value : PropertyValue) (expected : ValueType) : bool :=
  value_type_eqb (pv_Type value) expected && HasSinglePayload value &&
  match expected with
  | ValueTypeBool => present (pv_Bool value)
  | ValueTypeInt => present (pv_Int value)
  | ValueTypeNumber => present (pv_Number value)
  | ValueTypeString | ValueTypeEnum => present (pv_String value)
  | ValueTypeOther _ => false
  end.

Section Writes.
Context {R E : Type} `{PriorityResolver R} `{UnicodeLower}.
Implicit Type s : DeviceService R E.
Variable env : Environment.

Definition path_of (k : Key) : ParameterPath :=
  MkParameterPath (EndpointID k) (CapabilityID k) (PropertyID k).
Definition property_path (p : ParameterPath) : PropertyPath :=
  MkPropertyPath (pp_EndpointID p) (pp_CapabilityID p) (pp_PropertyID p).

(** ** The command tracker, under the clock *)

Definition get_command s (id : string) : DeviceService R E * (Command * bool) :=
  let '(s, now) := time_now env s in
  let '(t, found, _) := CommandTracker.Get (command_order env) (tracker s) now id in
  (set_tracker s t, found).
Definition supersede_command s (id message : string) : DeviceService R E * (Command * bool) :=
  let '(s, now) := time_now env s in
  let '(t, r, _) := CommandTracker.Supersede (command_order env) (tracker s) now id message in
  (set_tracker s t, r).
Definition add_coalesced s (id : string) (count : Z) : DeviceService R E * (Command * bool) :=
  let '(s, now) := time_now env s in
  let '(t, r, _) := CommandTracker.AddCoalesced (tracker s) now id count in
  (set_tracker s t, r).
Definition sent_command s (id : string) : DeviceService R E :=
  let '(s, now) := time_now env s in
  set_tracker s (CommandTracker.Sent (command_order env) (tracker s) now id).1.1.
Definition accepted_command s (id : string) : DeviceService R E :=
  let '(s, now) := time_now env s in
  set_tracker s (CommandTracker.Accepted (command_order env) (tracker s) now id).1.1.
Definition rejected_command s (id text : string) : DeviceService R E :=
  let '(s, now) := time_now env s in
  set_tracker s (CommandTracker.Rejected (command_order env) (tracker s) now id text).1.1.
Definition confirmed_command s (id : string) : DeviceService R E :=
  let '(s, now) := time_now env s in
  let '(t, ok, _) := CommandTracker.Confirmed (command_order env) (tracker s) now id in
  let s := set_tracker s t in
  if ok : bool then count_ s commandsConfirmed 1 else s.

(** [s.states.ResolveOptimistic], and the publication of what it changed. *)
Definition resolve_optimistic s (commandID : string) (fallback : option StateValue) : DeviceService R E :=
  let '(st, restored, changed) := ResolveOptimistic (states s) (keys env s) commandID fallback in
  let s := set_states s st in
  if changed : bool then publishState s restored else s.

(** ** Validation *)

Definition validatePropertyWrite s (key : Key) (value : PropertyValue) : result (ServiceError E) unit :=
  match DeviceRegistry.Get (registry s) (DeviceID key) with
  | None => Err (ProviderFailure ErrDeviceNotFound)
  | Some item =>
      if d_Disabled item || d_Removed item then Err ErrDeviceDisabled
      else
        match PropertyAt item (EndpointID key) (CapabilityID key) (PropertyID key) with
        | None => Err (ProviderFailure ErrPropertyUnsupported)
        | Some property =>
            if negb (pd_Writable (p_Definition property)) then Err (ProviderFailure ErrPropertyUnsupported)
            else
              match ValidateProperty (with_p_Value property value) with
              | Err e => Err (PropertyInvalid e)
              | Ok _ => Ok tt
              end
        end
  end.

(** ** The running write of a property *)

Definition put_operation s (a : nat) (op : propertyOperation E) : DeviceService R E :=
  set_operations s (propertyOps s) (<[a := op]> (operations s)).
Definition with_op_command (op : propertyOperation E) (c : Command) : propertyOperation E :=
  MkOperation (op_expected op) c (op_coalesced op) (op_cancelled op) (op_done op) (op_item op) (op_err op).

(** A new operation replaces the one of the key, at a free address. *)
Definition replace_operation s (key : Key) (value : PropertyValue) : DeviceService R E * nat :=
  let a := fresh (dom (operations s)) in
  (set_operations s (<[key := a]> (propertyOps s))
     (<[a := MkOperation value zero_command 0 false false zero_device None]> (operations s)), a).

(** The operation and whether the request joined it. *)
Definition beginPropertyOperation s (key : Key) (value : PropertyValue)
    : DeviceService R E * (nat * bool) :=
  match a ← propertyOps s !! key; op ← operations s !! a; Some (a, op) with
  | None => let '(s, a) := replace_operation s key value in (s, (a, false))
  | Some (a, op) =>
      if Equal (op_expected op) value then
        let s := put_operation s a (MkOperation (op_expected op) (op_command op)
          (u64_succ (op_coalesced op)) (op_cancelled op) (op_done op) (op_item op) (op_err op)) in
        let s := count_ s commandsCoalesced 1 in
        let s := if is_empty (cmd_ID (op_command op)) then s
                 else (add_coalesced s (cmd_ID (op_command op)) 1).1 in
        (s, (a, true))
      else
        let '(s, superseded) :=
          if is_empty (cmd_ID (op_command op)) then (s, None)
          else
            let '(s, (current, changed)) := supersede_command s (cmd_ID (op_command op))
              "replaced by a newer property write" in
            (s, if changed : bool then Some current else None) in
        let s := put_operation s a (MkOperation (op_expected op) (op_command op) (op_coalesced op) true
          (op_done op) (op_item op) (op_err op)) in
        let '(s, a) := replace_operation s key value in
        let s := match superseded with
                 | Some c => resolve_optimistic (count_ s commandsSuperseded 1) (cmd_ID c) None
                 | None => s
                 end in
        (s, (a, false))
  end.

(** Whether the operation is still the one of its key. *)
Definition setPropertyOperationCommand s (key : Key) (a : nat) (command : Command)
    : DeviceService R E * bool :=
  match operations s !! a with
  | None => (s, false)
  | Some op =>
      let s := put_operation s a (with_op_command op command) in
      let active := bool_decide (propertyOps s !! key = Some a) in
      if 0 <? op_coalesced op then
        let '(s, (updated, ok)) := add_coalesced s (cmd_ID command) (op_coalesced op) in
        (if ok : bool then
           match operations s !! a with
           | Some op => put_operation s a (with_op_command op updated)
           | None => s
           end
         else s, active)
      else (s, active)
  end.

Definition finishPropertyOperation s (key : Key) (a : nat) (o : Outcome E) : DeviceService R E * Outcome E :=
  let '(item, command, err) := o in
  let '(s, (command, err)) :=
    if is_empty (cmd_ID command) then (s, (command, err))
    else
      let '(s, (current, ok)) := get_command s (cmd_ID command) in
      if ok : bool
      then (s, (current, if is_superseded (cmd_Status current) then Some ErrCommandSuperseded else err))
      else (s, (command, err)) in
  let s :=
    match operations s !! a with
    | None => s
    | Some op =>
        put_operation s a (MkOperation (op_expected op) command (op_coalesced op) true true item err)
    end in
  let s := if bool_decide (propertyOps s !! key = Some a)
           then set_operations s (delete key (propertyOps s)) (operations s) else s in
  (s, (item, command, err)).

(** ** Optimistic values *)

Definition optimistic_state (key : Key) (value : Value) (command : Command) (previous : option StateValue)
    : StateValue :=
  MkStateValue key value
    (match previous with Some p => sv_ProviderID p | None => "command" end)
    SourceOptimistic (cmd_CreatedAt command) (cmd_CreatedAt command) (cmd_Deadline command) 0 0
    QualityOptimistic false false ""
    (if is_empty (cmd_CorrelationID command) then cmd_ID command else cmd_CorrelationID command)
    (cmd_ID command).

Definition applyOptimisticState s (key : Key) (value : PropertyValue) (command : Command)
    (previous : option StateValue) : DeviceService R E :=
  match state_value value with
  | None => s
  | Some v =>
      let '(st, stored) := ApplyOptimistic (states s) (optimistic_state key v command previous) in
      publishState (set_states s st) stored
  end.

Definition rollbackOptimistic s (commandID : string) (previous : option StateValue) : DeviceService R E :=
  resolve_optimistic s commandID previous.

(** [text] is the message of an error. *)
Definition rejectPropertyWrite (text : ServiceError E -> string) s (command : Command)
    (previous : option StateValue) (err : ServiceError E) : DeviceService R E * Outcome E :=
  let s := rejected_command s (cmd_ID command) (text err) in
  let s := rollbackOptimistic s (cmd_ID command) previous in
  let s := count_ s commandsRejected 1 in
  let '(s, (current, _)) := get_command s (cmd_ID command) in
  (s, (zero_device, current, Some err)).

(** ** The write at the gate *)

Inductive Started := Returned (o : Outcome E) | Sent_ (sd : Sending).

(** From the gate of the device up to the call of the Provider; [writer] says whether
    the Provider takes writes. *)
Definition start_write (text : ServiceError E -> string) (mapper : option (PropertyMapper E))
    (catalog : Catalog) (writer : bool) s (key : Key) (a : nat) (value : PropertyValue)
    (correlation : string) : DeviceService R E * Started :=
  let deviceID := DeviceID key in
  let previous := StateStore.Get (states s) key in
  let id := fresh_id env (drawn s) in
  let s := set_ticks s (ticks s) (S (drawn s)) in
  let '(s, now) := time_now env s in
  let '(t, (command, superseded, replayed), _) :=
    BeginPropertyCorrelated (command_order env) (tracker s) now id deviceID (EndpointID key)
      (CapabilityID key) (PropertyID key) value correlation in
  let s := set_tracker s t in
  let '(s, active) := setPropertyOperationCommand s key a command in
  if negb active then
    let s := count_ s commandsStarted 1 in
    let '(s, (current, changed)) :=
      supersede_command s (cmd_ID command) "replaced before provider execution" in
    let s := if changed : bool then count_ s commandsSuperseded 1 else s in
    (s, Returned (zero_device, current, Some ErrCommandSuperseded))
  else if replayed : bool then
    let s := count_ s commandsCoalesced 1 in
    match DeviceRegistry.Get (registry s) deviceID with
    | None => (s, Returned (zero_device, command, Some (ProviderFailure ErrDeviceNotFound)))
    | Some item => (s, Returned (item, command, None))
    end
  else
    let '(s, previous) :=
      match superseded with
      | None => (s, previous)
      | Some c =>
          let s := resolve_optimistic (count_ s commandsSuperseded 1) (cmd_ID c) None in
          (s, StateStore.Get (states s) key)
      end in
    let s := count_ s commandsStarted 1 in
    let s := applyOptimisticState s key value command previous in
    let s := sent_command s (cmd_ID command) in
    let reject s err := let '(s, o) := rejectPropertyWrite text s command previous err in (s, Returned o) in
    if negb writer then reject s (ProviderFailure ErrPropertyUnsupported)
    else
      match DeviceRegistry.Get (registry s) deviceID with
      | None => reject s (ProviderFailure ErrDeviceNotFound)
      | Some registered =>
          let src := MkSource (d_ProviderID registered) deviceID (path_of key) in
          let '(m, mapped) := mapProperty mapper src value DirectionReverse (metrics s) in
          let s := set_metrics s m in
          match mapped with
          | Err e => reject s (MappingError e)
          | Ok (providerValue, _, _) =>
              match resolvePropertyPath mapper src DirectionReverse with
              | Err e => reject s (MappingError e)
              | Ok (providerPath, _, _) =>
                  let providerValue := alignProviderEnumValue catalog deviceID providerPath providerValue in
                  (s, Sent_ (MkSending command previous (d_ProviderID registered)
                         (MkWriteRequest deviceID (property_path providerPath) providerValue) providerPath))
              end
          end
      end.

(** ** The reads after a write *)

(** The goroutine it starts: its identifier, trace and delays. *)
Definition schedulePropertyReadbacks (config : ReadbackConfig) (mapper : option (PropertyMapper E))
    (reader : bool) s (key : Key) (providerID : string) (providerPath : ParameterPath) (traceID : string)
    : DeviceService R E * option (Z * string * list Duration) :=
  if negb reader then (s, None)
  else
    let policy := match mapper ≫= PropertyReadbackDelays with
                  | Some delays => delays (MkSource providerID (DeviceID key) providerPath)
                  | None => None
                  end in
    let '(enabled, configured) := match policy with
                                  | Some delays => (true, delays)
                                  | None => (readbackGlobal config, [])
                                  end in
    if negb enabled then (s, None)
    else
      match DeviceRegistry.Get (registry s) (DeviceID key) with
      | None => (s, None)
      | Some item =>
          if d_Disabled item || d_Removed item then (s, None)
          else
            match PropertyAt item (EndpointID key) (CapabilityID key) (PropertyID key) with
            | None => (s, None)
            | Some property =>
                if negb (pd_Readable (p_Definition property)) then (s, None)
                else if readbackClosed (readbacks s) then (s, None)
                else
                  match (match configured with [] => readbackDelays config | _ => configured end) with
                  | [] => (s, None)
                  | delays =>
                      let id := u64_succ (readbackNext (readbacks s)) in
                      let traceID := if is_empty traceID
                                     then "readback-" +:+ DeviceID key +:+ "-" +:+ PropertyID key
                                     else traceID in
                      (set_readbacks s (MkReadbacks (<[key := id]> (scheduled (readbacks s))) id false),
                       Some (id, traceID, delays))
                  end
            end
      end.

(** The end of that goroutine. *)
Definition readbacks_done s (key : Key) (id : Z) : DeviceService R E :=
  if bool_decide (scheduled (readbacks s) !! key = Some id)
  then set_readbacks s (MkReadbacks (delete key (scheduled (readbacks s))) (readbackNext (readbacks s))
         (readbackClosed (readbacks s)))
  else s.

(** ** The answer of the Provider *)

(** [acknowledges] says whether the Provider acknowledges the write when it is sent. *)
Definition finish_write (text : ServiceError E -> string) (mapping_text : MappingFailure E -> string)
    (config : ReadbackConfig) (mapper : option (PropertyMapper E)) (catalog : Catalog)
    (reader acknowledges : bool) s (key : Key) (sd : Sending)
    (answer : result ProviderError DeviceModel.Device) : DeviceService R E * Outcome E :=
  let command := sd_command sd in
  let '(s, (current, ok)) := get_command s (cmd_ID command) in
  if ok && is_superseded (cmd_Status current) then
    (rollbackOptimistic s (cmd_ID command) (sd_previous sd), (zero_device, current, Some ErrCommandSuperseded))
  else
    match answer with
    | Err e => rejectPropertyWrite text s command (sd_previous sd) (ProviderFailure e)
    | Ok item =>
        let s := accepted_command s (cmd_ID command) in
        let '(s, mapped) := project_latest s mapper catalog item in
        let item := match mapped with Ok d => d | Err _ => item end in
        let s :=
          if acknowledges then
            confirmed_command (handleDeviceSnapshot env s mapper catalog mapping_text item
              (cmd_CorrelationID command) snapshotTimeOriginProviderEvent) (cmd_ID command)
          else (schedulePropertyReadbacks config mapper reader s key (sd_provider sd) (sd_path sd)
                  (cmd_CorrelationID command)).1 in
        let '(s, (current, _)) := get_command s (cmd_ID command) in
        (s, (item, current, None))
    end.

(** ** The whole write *)

(** What the request depends on besides the state: the texts of errors, the
    configuration, the mapper, the catalog, the interfaces of the Provider, its
    answer, and whether the gate was granted. *)
Record WriteContext := MkWriteContext {
  wc_text : ServiceError E -> string;
  wc_mapping_text : MappingFailure E -> string;
  wc_readbacks : ReadbackConfig;
  wc_mapper : option (PropertyMapper E);
  wc_catalog : Catalog;
  wc_reader : bool;
  wc_acknowledges : bool;
  wc_writer : option (PropertyWriteRequest -> result ProviderError DeviceModel.Device);
  wc_gate : bool;
  wc_correlation : string;
}.

Definition ExecuteProperty (w : WriteContext) (between : nat -> DeviceService R E -> DeviceService R E)
    s (key : Key) (value : PropertyValue) : DeviceService R E * Outcome E :=
  match validatePropertyWrite s key value with
  | Err e => (s, failed e)
  | Ok _ =>
      let '(s, (a, joined)) := beginPropertyOperation s key value in
      if joined : bool then
        let s := between 0%nat s in
        match operations s !! a with
        | Some op => if op_done op then (s, (op_item op, op_command op, op_err op))
                     else (s, failed ContextDone)
        | None => (s, failed ContextDone)
        end
      else
        let s := between 1%nat s in
        let '(s, o) :=
          if negb (wc_gate w) then (s, failed ContextDone)
          else
            match start_write (wc_text w) (wc_mapper w) (wc_catalog w) (present (wc_writer w)) s key a
                    value (wc_correlation w) with
            | (s, Returned o) => (s, o)
            | (s, Sent_ sd) =>
                let s := between 2%nat s in
                finish_write (wc_text w) (wc_mapping_text w) (wc_readbacks w) (wc_mapper w)
                  (wc_catalog w) (wc_reader w) (wc_acknowledges w) s key sd
                  (match wc_writer w with
                   | Some write => write (sd_request sd)
                   | None => Err ErrPropertyUnsupported
                   end)
            end in
        finishPropertyOperation s key a o
  end.

Definition ExecutePower (w : WriteContext) (between : nat -> DeviceService R E -> DeviceService R E)
    s (id : string) (power : bool) : DeviceService R E * Outcome E :=
  ExecuteProperty w between s (MkKey id "main" "switch" "power") (BoolValue power).

(** ** Commands *)

(** [range request.Parameters]: the answer is the conjunction over the parameters. *)
Definition validateParameters (definition : CommandDefinition) (parameters : gmap string PropertyValue)
    : bool :=
  let declared : gmap string CommandParameter :=
    fold_left (fun m p => <[cp_ID p := p]> m) (cd_Parameters definition) ∅ in
  forallb (fun p => negb (cp_Required p) || present (parameters !! cp_ID p)) (cd_Parameters definition) &&
  forallb (fun kv => match declared !! kv.1 with
                     | Some p => valueMatchesType kv.2 (cp_Type p)
                     | None => false
                     end) (map_to_list parameters).

Definition command_definition (item : DeviceModel.Device) (path : CommandPath) : option CommandDefinition :=
  first (fun e => if String.eqb (ep_ID e) (lc_EndpointID path) then
    first (fun c => if String.eqb (cap_ID c) (lc_CapabilityID path)
                    then find_by cd_ID (lc_CommandID path) (cap_Commands c) else None)
      (ep_Capabilities e) else None) (d_Endpoints item).

Definition validateCommand s (request : CommandRequest) : result (ServiceError E) unit :=
  match DeviceRegistry.Get (registry s) (cr_DeviceID request) with
  | None => Err (ProviderFailure ErrDeviceNotFound)
  | Some item =>
      if d_Disabled item || d_Removed item then Err ErrDeviceDisabled
      else
        match command_definition item (cr_Path request) with
        | None => Err (ProviderFailure ErrCommandUnsupported)
        | Some definition =>
            if validateParameters definition (cr_Parameters request) then Ok tt
            else Err (ProviderFailure ErrCommandInvalid)
        end
  end.

Definition rejectCommand (text : ServiceError E -> string) s (command : Command) (err : ServiceError E)
    : DeviceService R E * Outcome E :=
  let s := count_ (rejected_command s (cmd_ID command) (text err)) commandsRejected 1 in
  let '(s, (current, _)) := get_command s (cmd_ID command) in
  (s, (zero_device, current, Some err)).

(** [between] as in [ExecuteProperty]: 1 at the gate, 2 at the Provider. *)
Definition ExecuteCommand (text : ServiceError E -> string) (mapper : option (PropertyMapper E))
    (catalog : Catalog) (executor : option (CommandRequest -> result ProviderError DeviceModel.Device))
    (gate : bool) (correlation : string) (between : nat -> DeviceService R E -> DeviceService R E)
    s (request : CommandRequest) : DeviceService R E * Outcome E :=
  if (128 <? String.length (cr_IdempotencyKey request))%nat
  then (s, failed (ProviderFailure ErrCommandInvalid))
  else
    match validateCommand s request with
    | Err e => (s, failed e)
    | Ok _ =>
        let s := between 1%nat s in
        if negb gate then (s, failed ContextDone)
        else
          let id := fresh_id env (drawn s) in
          let s := set_ticks s (ticks s) (S (drawn s)) in
          let '(s, now) := time_now env s in
          let '(t, began, _) :=
            BeginActionIdempotentCorrelated (command_order env) (tracker s) now id (cr_DeviceID request)
              (lc_EndpointID (cr_Path request)) (lc_CapabilityID (cr_Path request))
              (lc_CommandID (cr_Path request)) (cr_Parameters request) (cr_IdempotencyKey request)
              correlation in
          let s := set_tracker s t in
          match began with
          | Err e => (s, failed (CommandConflict e))
          | Ok (command, true) =>
              match DeviceRegistry.Get (registry s) (cr_DeviceID request) with
              | None => (s, (zero_device, command, Some (ProviderFailure ErrDeviceNotFound)))
              | Some item => (s, (item, command, None))
              end
          | Ok (command, false) =>
              let s := count_ s commandsStarted 1 in
              let s := sent_command s (cmd_ID command) in
              match executor with
              | None => rejectCommand text s command (ProviderFailure ErrCommandUnsupported)
              | Some execute =>
                  let s := between 2%nat s in
                  match execute request with
                  | Err e => rejectCommand text s command (ProviderFailure e)
                  | Ok item =>
                      let '(s, mapped) := project_latest s mapper catalog item in
                      let item := match mapped with Ok d => d | Err _ => item end in
                      let s := set_registry s (Upsert (registry s) item) in
                      let s := confirmed_command s (cmd_ID command) in
                      let '(s, (current, _)) := get_command s (cmd_ID command) in
                      (s, (item, current, None))
                  end
              end
          end
    end.

(** ** Reads *)

(** The projection of a read property to the path the reader asked for: the last one,
    a manual one at once. *)
Fixpoint projection_for (path : ParameterPath) (l : list ProviderPropertyProjection)
    (found : option ProviderPropertyProjection) : option ProviderPropertyProjection :=
  match l with
  | [] => found
  | p :: l =>
      if bool_decide (pj_Path p = path)
      then if pj_Explicit p then Some p else projection_for path l (Some p)
      else projection_for path l found
  end.

Definition partial_device (item : DeviceModel.Device) (now : Time) (key : Key) (observed : Property)
    : DeviceModel.Device :=
  MkDevice (d_SchemaVersion item) (d_ID item) (d_ProviderID item) (d_Name item) "" false (d_Type item)
    "" "" "" "" "" "" "" "" "" (d_Availability item) (d_Online item) 0 false false (RuntimeModeOther "")
    (d_StateTransport item) ""
    [MkEndpoint (EndpointID key) (EndpointID key) (EndpointID key)
       [MkCapability (CapabilityID key) (CapabilityID key) [observed] [] []]] now.

Definition reconcileReadProperty s (key : Key) (property : Property) (traceID : string)
    : DeviceService R E :=
  match DeviceRegistry.Get (registry s) (DeviceID key) with
  | None => s
  | Some item =>
      if d_Disabled item || d_Removed item then s
      else
        match PropertyAt item (EndpointID key) (CapabilityID key) (PropertyID key) with
        | None => s
        | Some previous =>
            let s := confirm_property env s (DeviceID key) (EndpointID key) (CapabilityID key)
                       (PropertyID key) (p_Value property) in
            let changed := negb (Equal (p_Value previous) (p_Value property)) in
            let '(s, item) :=
              if changed then
                let '(item, _) := SetProperty item (EndpointID key) (CapabilityID key) (PropertyID key)
                  (p_Value property) in
                let '(s, now) := time_now env s in
                let item := set_LastUpdateAt item now in
                (set_registry s (Upsert (registry s) item), item)
              else (s, item) in
            let observed := MkProperty (p_Definition previous) (p_Value property) (p_StateTransport property) in
            let '(s, now) := time_now env s in
            let s := applySnapshot env s (partial_device item now key observed) traceID
                       snapshotTimeOriginPropertyRead in
            if changed then publishDevice s item else s
        end
  end.

(** [answer] is that of the Provider to the request it is given. *)
Definition ReadProperty (mapper : option (PropertyMapper E))
    (reader : option (PropertyReadRequest -> result ProviderError Property)) s (key : Key)
    (correlation : string) : DeviceService R E * result (ServiceError E) Property :=
  match DeviceRegistry.Get (registry s) (DeviceID key) with
  | Some item =>
      if d_Disabled item || d_Removed item then (s, Err ErrDeviceDisabled)
      else
        match reader with
        | None => (s, Err (ProviderFailure ErrPropertyUnsupported))
        | Some read =>
            match resolvePropertyPath mapper (MkSource (d_ProviderID item) (DeviceID key) (path_of key))
                    DirectionReverse with
            | Err e => (s, Err (MappingError e))
            | Ok (providerPath, _, _) =>
                match read (MkReadRequest (DeviceID key) (property_path providerPath)) with
                | Err e => (s, Err (ProviderFailure e))
                | Ok property =>
                    let '(m, projections) := providerPropertyProjections mapper
                      (MkSource (d_ProviderID item) (DeviceID key) providerPath) property (metrics s) in
                    let s := set_metrics s m in
                    match projections with
                    | Err e => (s, Err (MappingError e))
                    | Ok projections =>
                        match projection_for (path_of key) projections None with
                        | None => (s, Err (ProviderFailure ErrPropertyUnsupported))
                        | Some p =>
                            let definition := with_pd_ID (pj_Definition p) (PropertyID key) in
                            let property := MkProperty definition (pj_Value p) (p_StateTransport property) in
                            let property :=
                              match mapper ≫= ResolveModelDefinition with
                              | None => property
                              | Some resolve =>
                                  let '(definition, found) := resolve (d_Type item) (path_of key) definition in
                                  if found : bool
                                  then MkProperty definition
                                         (alignEnumValue (p_Value property) (pd_Enum definition))
                                         (p_StateTransport property)
                                  else property
                              end in
                            (reconcileReadProperty s key property correlation, Ok property)
                        end
                    end
                end
            end
        end
  | None =>
      match reader with
      | None => (s, Err (ProviderFailure ErrPropertyUnsupported))
      | Some _ => (s, Err (ProviderFailure ErrDeviceNotFound))
      end
  end.

(** The loop of [runPropertyReadbacks]: a read after each delay, [answers] being what
    the Provider answers to each, until the context is cancelled and they end. *)
Fixpoint runPropertyReadbacks (mapper : option (PropertyMapper E)) s (key : Key) (traceID : string)
    (id : Z) (answers : list (PropertyReadRequest -> result ProviderError Property)) : DeviceService R E :=
  match answers with
  | [] => readbacks_done s key id
  | read :: answers =>
      runPropertyReadbacks mapper (ReadProperty mapper (Some read) s key traceID).1 key traceID id answers
  end.

(** ** Consumers *)

Definition ProjectForConsumer (mapper : option (PropertyMapper E)) (consumerID : string)
    (item : DeviceModel.Device) : result E DeviceModel.Device :=
  match mapper ≫= consumerMapper with
  | None => Ok item
  | Some m => ProjectConsumerDevice m consumerID item
  end.

Definition ProjectForConsumerInstance (mapper : option (PropertyMapper E))
    (consumerID targetID consumerDeviceID : string) (item : DeviceModel.Device)
    : result E DeviceModel.Device :=
  match mapper ≫= scopedMapper with
  | None => ProjectForConsumer mapper consumerID item
  | Some m => ProjectConsumerDeviceInstance m consumerID targetID consumerDeviceID item
  end.

(** The write a consumer's request becomes: the property and the value. *)
Definition lift_mapper {A} (r : result E A) : result (ServiceError E) A :=
  match r with Ok a => Ok a | Err e => Err (MappingError (MapperError e)) end.
Definition key_on (deviceID : string) (p : ParameterPath) : Key :=
  MkKey deviceID (pp_EndpointID p) (pp_CapabilityID p) (pp_PropertyID p).

Definition consumer_write (mapper : option (PropertyMapper E)) s (consumerID : string) (key : Key)
    (value : PropertyValue) : result (ServiceError E) (Key * PropertyValue) :=
  match DeviceRegistry.Get (registry s) (DeviceID key) with
  | None => Err (ProviderFailure ErrDeviceNotFound)
  | Some item =>
      match mapper ≫= consumerMapper with
      | None => Ok (key, value)
      | Some m =>
          let! r := lift_mapper (ResolveConsumerWrite m
            (MkSource (d_ProviderID item) (d_ID item) (path_of key)) consumerID (d_Type item) value) in
          let '(path, mapped, _, _) := r in Ok (key_on (DeviceID key) path, mapped)
      end
  end.

Definition consumer_write_instance (mapper : option (PropertyMapper E)) s
    (consumerID targetID consumerDeviceID : string) (key : Key) (value : PropertyValue)
    : result (ServiceError E) (Key * PropertyValue) :=
  match DeviceRegistry.Get (registry s) (DeviceID key) with
  | None => Err (ProviderFailure ErrDeviceNotFound)
  | Some item =>
      match mapper ≫= scopedMapper with
      | None => consumer_write mapper s consumerID key value
      | Some m =>
          let! r := lift_mapper (ResolveConsumerWriteInstance m
            (MkSource (d_ProviderID item) (d_ID item) (path_of key)) targetID consumerDeviceID consumerID
            (d_Type item) value) in
          let '(path, mapped, _, _) := r in Ok (key_on (DeviceID key) path, mapped)
      end
  end.

(** The loop over the sources: the first one with an explicit mapping to a property it
    has. *)
Fixpoint source_write (m : ScopedConsumerPropertyMapper E) s (consumerID targetID consumerDeviceID : string)
    (targetType : Type_) (path : ParameterPath) (value : PropertyValue) (sources : list string)
    : result (ServiceError E) (option (Key * PropertyValue)) :=
  match sources with
  | [] => Ok None
  | id :: sources =>
      match DeviceRegistry.Get (registry s) id with
      | None => Err (ProviderFailure ErrDeviceNotFound)
      | Some item =>
          let! r := lift_mapper (ResolveConsumerWriteInstance m
            (MkSource (d_ProviderID item) (d_ID item) path) targetID consumerDeviceID consumerID
            targetType value) in
          let '(p, mapped, _, applied) := r in
          if (applied : bool) && present (PropertyAt item (pp_EndpointID p) (pp_CapabilityID p) (pp_PropertyID p))
          then Ok (Some (key_on (d_ID item) p, mapped))
          else source_write m s consumerID targetID consumerDeviceID targetType path value sources
      end
  end.

Definition consumer_write_sources (mapper : option (PropertyMapper E)) s
    (consumerID targetID consumerDeviceID : string) (targetType : Type_) (sources : list string)
    (path : ParameterPath) (value : PropertyValue) : result (ServiceError E) (Key * PropertyValue) :=
  match sources with
  | [] => Err (ProviderFailure ErrDeviceNotFound)
  | primary :: _ =>
      match mapper ≫= scopedMapper with
      | None => consumer_write mapper s consumerID (key_on primary path) value
      | Some m =>
          let! explicit := source_write m s consumerID targetID consumerDeviceID targetType path value sources in
          match explicit with
          | Some w => Ok w
          | None =>
              match DeviceRegistry.Get (registry s) primary with
              | None => Err (ProviderFailure ErrDeviceNotFound)
              | Some item =>
                  if negb (d_Type item =s targetType) then Err (ProviderFailure ErrPropertyUnsupported)
                  else Ok (key_on (d_ID item) path, value)
              end
          end
      end
  end.

(** The three operations of a consumer execute the write its request becomes. *)
Definition execute_consumer (w : WriteContext) (between : nat -> DeviceService R E -> DeviceService R E)
    s (write : result (ServiceError E) (Key * PropertyValue)) : DeviceService R E * Outcome E :=
  match write with
  | Err e => (s, failed e)
  | Ok (key, value) => ExecuteProperty w between s key value
  end.

End Writes.

(** ** The life of commands under a write *)

Section Life.
Variable ord : gmap string Command -> list string.
Hypothesis ord_range : forall m, range_of m (ord m).
Implicit Types (t : Tracker) (c : Command).

(** No command is new, none changes its request, and one that changes its status was
    live and is not superseded. *)
Record moves (t t' : Tracker) : Prop := {
  mv_good : wf t -> bounded t -> wf t' /\ bounded t';
  mv_from id c' : wf t -> commands t' !! id = Some c' -> exists c, commands t !! id = Some c /\
    same_request c c' /\
    (cmd_Status c' = cmd_Status c \/ terminal (cmd_Status c) = false /\ cmd_Status c' <> StatusSuperseded);
}.

Lemma moves_refl t : moves t t.
Proof. constructor; [done|]. intros id c _ Hc. exists c. split_and!; [done|apply same_request_refl|by left]. Qed.

Lemma moves_trans t1 t2 t3 : wf t1 -> bounded t1 -> moves t1 t2 -> moves t2 t3 -> moves t1 t3.
Proof.
  intros Hwf Hb [G1 F1] [G2 F2]. destruct (G1 Hwf Hb) as [Hwf2 Hb2]. constructor; [auto|].
  intros id c3 _ H3. destruct (F2 id c3 Hwf2 H3) as (c2 & H2 & Hs2 & Hst2).
  destruct (F1 id c2 Hwf H2) as (c1 & H1 & Hs1 & Hst1). exists c1.
  split_and!; [done|by eapply same_request_trans|].
  destruct Hst2 as [E2|[L2 N2]], Hst1 as [E1|[L1 N1]].
  - left; congruence.
  - right. split; [done|congruence].
  - right. split; [congruence|done].
  - by right.
Qed.

Lemma transition_moves t now id st msg :
  st <> StatusSuperseded -> wf t -> bounded t -> moves t (transition ord t now id st msg).1.1.
Proof.
  intros Hst Ht Hb. pose proof (transition_good ord ord_range t now id st msg Ht Hb) as [W A B].
  constructor; [done|]. intros i c' _ Hc'.
  unfold transition in *. destruct (commands t !! id) as [c|] eqn:Hc.
  2: { apply (moves_refl t); done. }
  destruct (terminal (cmd_Status c)) eqn:Hl; [by apply (moves_refl t)|].
  set (c1 := with_status _ _ _ _ _) in *.
  assert (Hin : <[id := c1]> (commands t) !! i = Some c').
  { simpl in Hc'. destruct (terminal st) eqn:Hs; [|done].
    assert (Hs1 : same_request c c1) by apply same_request_status.
    assert (Ht1 : wf (with_pending (put t id c1) (delete (key_of c1) (pending (put t id c1))))).
    { rewrite (sr_key _ _ Hs1). apply (wf_finish t id c); try done; by destruct c. }
    destruct (trim_spec ord ord_range _ (wf_named _ Ht1)) as [He _]. by apply (ev_sub _ _ He) in Hc'. }
  apply lookup_insert_Some in Hin as [[<- <-]|[_ Hi]].
  - exists c. split_and!; [done|apply same_request_status|]. right. split; [done|]. by destruct c.
  - exists c'. split_and!; [done|apply same_request_refl|by left].
Qed.

Lemma Expire_moves t now : wf t -> bounded t -> moves t (Expire ord t now).1.
Proof.
  intros Ht Hb. destruct (Expire_good ord ord_range t now Ht) as [W A B]. constructor; [done|].
  intros id c' _ Hc'. unfold Expire in *.
  destruct (expire_loop_spec now (ord (commands t)) t) as (H1 & H2 & _ & _ & _); [apply ord_range|done|].
  destruct (expire_loop now (ord (commands t)) t) as [t1 ex]. simpl in *.
  destruct (trim_spec ord ord_range t1 (wf_named _ H1)) as [He _]. apply (ev_sub _ _ He) in Hc'.
  rewrite H2 in Hc'. destruct (commands t !! id) as [c|] eqn:Hc; simpl in Hc'; [|by destruct (bool_decide _)].
  exists c. split; [done|]. destruct (bool_decide _); [|injection Hc' as <-; split; [apply same_request_refl|by left]].
  injection Hc' as <-. destruct (due now c) eqn:Hd; [|split; [apply same_request_refl|by left]].
  split; [apply same_request_status|]. right. split; [by eapply due_live|]. by destruct c.
Qed.

(** What a request that ends does to its command. *)
Lemma transition_ends t now id st msg :
  terminal st = true -> wf t -> forall c, commands (transition ord t now id st msg).1.1 !! id = Some c ->
  terminal (cmd_Status c) = true.
Proof.
  intros Hst Ht c. unfold transition. destruct (commands t !! id) as [c0|] eqn:Hc; [|simpl; congruence].
  destruct (terminal (cmd_Status c0)) eqn:Hl; [simpl; congruence|]. rewrite Hst. simpl.
  set (c1 := with_status _ _ _ _ _).
  assert (Hs1 : same_request c0 c1) by apply same_request_status.
  assert (Ht1 : wf (with_pending (put t id c1) (delete (key_of c1) (pending (put t id c1))))).
  { rewrite (sr_key _ _ Hs1). apply (wf_finish t id c0); try done; by destruct c0. }
  destruct (trim_spec ord ord_range _ (wf_named _ Ht1)) as [He _].
  intros Hc1%(ev_sub _ _ He). simpl in Hc1. rewrite lookup_insert_eq in Hc1. injection Hc1 as <-. by destruct c0.
Qed.

(** A property whose request has ended waits for nothing. *)
Lemma ended_free t t' key id :
  wf t -> wf t' -> moves t t' -> pending t !! key = Some id ->
  (forall c, commands t' !! id = Some c -> terminal (cmd_Status c) = true) ->
  pending t' !! key = None.
Proof.
  intros Hwf Hwf' Hm Hp Hend. destruct (pending t' !! key) as [id'|] eqn:Hp'; [exfalso|done].
  destruct (wf_pending _ Hwf' _ _ Hp') as (c' & Hc' & Hl' & Hk' & Hkey').
  destruct (mv_from _ _ Hm id' c' Hwf Hc') as (c & Hc & Hs & Hst).
  assert (Hl : terminal (cmd_Status c) = false) by (destruct Hst as [Hst|[? _]]; [by rewrite <- Hst|done]).
  assert (Hpc : pending t !! key_of c = Some id').
  { apply (wf_live _ Hwf); [done| |done]. by rewrite <- (sr_kind _ _ Hs). }
  rewrite <- (sr_key _ _ Hs), Hkey' in Hpc. assert (id' = id) as -> by congruence.
  rewrite (Hend c' Hc') in Hl'. done.
Qed.

Lemma free_stays t t' key :
  wf t -> wf t' -> moves t t' -> pending t !! key = None -> pending t' !! key = None.
Proof.
  intros Hwf Hwf' Hm Hno. destruct (pending t' !! key) as [id|] eqn:Hp; [exfalso|done].
  destruct (wf_pending _ Hwf' _ _ Hp) as (c' & Hc' & Hl' & Hk' & Hkey').
  destruct (mv_from _ _ Hm id c' Hwf Hc') as (c & Hc & Hs & Hst).
  assert (Hpc : pending t !! key_of c = Some id).
  { apply (wf_live _ Hwf); [done|by rewrite <- (sr_kind _ _ Hs)|]. destruct Hst as [<-|[? _]]; done. }
  rewrite <- (sr_key _ _ Hs), Hkey', Hno in Hpc. done.
Qed.

(** The command a property gets when none is pending. *)
Lemma begin_fresh t now id d e cap p v co :
  wf t -> pending t !! pendingKey d e cap p = None ->
  exists t' cmd notes, BeginPropertyCorrelated ord t now id d e cap p v co = (t', (cmd, None, false), notes) /\
    cmd_ID cmd = id /\ cmd_Status cmd = StatusQueued /\ cmd_Expected cmd = v /\
    cmd_CreatedAt cmd = now /\ cmd_Deadline cmd = now + Timeout t /\
    commands t' !! id = Some cmd /\ pending t' !! pendingKey d e cap p = Some id.
Proof.
  intros Ht Hp. unfold BeginPropertyCorrelated.
  destruct (prune_spec ord ord_range t (wf_named _ Ht)) as [He _].
  rewrite (ev_pending _ _ He), Hp. do 3 eexists. split; [reflexivity|]. simpl.
  split_and!; try done; apply lookup_insert_eq.
Qed.

End Life.

(** ** One write, alone on its property *)

Section Alone.
Context {R E : Type} `{PriorityResolver R} `{UnicodeLower} (env : Environment).
Hypothesis order_range : forall m, range_of m (command_order env m).
Hypothesis keys_range : forall m, range_of m (key_order env m).
Implicit Type s : DeviceService R E.

Definition pending_key (key : Key) : string :=
  pendingKey (DeviceID key) (EndpointID key) (CapabilityID key) (PropertyID key).

(** Only the tracker of [s'] differs from that of [s], as a write moves it. *)
Record follows s s' : Prop := {
  fo_quiet : quiet (set_tracker s (tracker s')) s';
  fo_moves : moves (tracker s) (tracker s');
}.

Lemma get_command_follows s id : wf (tracker s) -> bounded (tracker s) -> follows s (get_command env s id).1.
Proof.
  intros Ht Hb. unfold get_command, time_now, CommandTracker.Get. simpl.
  pose proof (Expire_moves _ order_range (tracker s) (clock env (ticks s)) Ht Hb) as Hm.
  destruct (Expire _ _ _) as [t ex]. simpl in *. constructor; [by constructor|done].
Qed.

Lemma get_command_found s id c :
  (get_command env s id).2 = (c, true) -> commands (tracker (get_command env s id).1) !! id = Some c.
Proof.
  unfold get_command, time_now, CommandTracker.Get. simpl. destruct (Expire _ _ _) as [t ex]. simpl.
  destruct (commands t !! id) as [c'|] eqn:Hc; congruence.
Qed.

Lemma sent_follows s id : wf (tracker s) -> bounded (tracker s) -> follows s (sent_command env s id).
Proof. intros Ht Hb. constructor; [by constructor|by apply transition_moves]. Qed.
Lemma accepted_follows s id : wf (tracker s) -> bounded (tracker s) -> follows s (accepted_command env s id).
Proof. intros Ht Hb. constructor; [by constructor|by apply transition_moves]. Qed.
Lemma rejected_follows s id text :
  wf (tracker s) -> bounded (tracker s) -> follows s (rejected_command env s id text).
Proof. intros Ht Hb. constructor; [by constructor|by apply transition_moves]. Qed.

(** Nothing else is going on with the property, and the next identifier is new. *)
Record write_ready s (key : Key) : Prop := {
  wr_wf : wf (tracker s);
  wr_bounded : bounded (tracker s);
  wr_new : commands (tracker s) !! fresh_id env (drawn s) = None;
  wr_id : fresh_id env (drawn s) <> "";
  wr_named : well_named (PropertyID key);
  wr_unowned : forall k v, values (states s) !! k = Some v -> sv_PendingCommandID v <> fresh_id env (drawn s);
  wr_free : pending (tracker s) !! pending_key key = None;
}.

(** The service [s'] while the Provider has the write [cmd] of [v], begun in [s]. *)
Record launched s s' (key : Key) (a : nat) (v : Value) (cmd : Command) : Prop := {
  la_registry : registry s' = registry s;
  la_seq : snapshotSeq s' = snapshotSeq s;
  la_disabled : disabled s' = disabled s;
  la_active : propertyOps s' !! key = Some a;
  la_ops : propertyOps s' = propertyOps s;
  la_heap : exists op, operations s' !! a = Some op;
  la_states : states s' =
    (ApplyOptimistic (states s) (optimistic_state key v cmd (values (states s) !! key))).1;
  la_id : cmd_ID cmd = fresh_id env (drawn s);
  la_tracker : exists t1, wf t1 /\ bounded t1 /\ pending t1 !! pending_key key = Some (cmd_ID cmd) /\
    commands t1 !! cmd_ID cmd = Some cmd /\ cmd_Status cmd = StatusQueued /\ moves t1 (tracker s');
}.

Lemma launched_good s s' key a v cmd : launched s s' key a v cmd -> wf (tracker s') /\ bounded (tracker s').
Proof. intros [_ _ _ _ _ _ _ _ (t1 & Hwf & Hb & _ & _ & _ & [G _])]. auto. Qed.

Lemma launched_follows s s1 s2 key a v cmd :
  launched s s1 key a v cmd -> follows s1 s2 -> launched s s2 key a v cmd.
Proof.
  intros [Hr Hs Hd Ha Ho [op Hop] Hst Hid (t1 & Hwf & Hb & Hp & Hc & Hq & Hm1)] [[Q1 Q2 Q3 Q4 Q5 Q6 Q7] Hm].
  cbn [registry states tracker snapshotSeq disabled propertyOps operations set_tracker] in *.
  constructor; try congruence; [exists op; congruence|].
  exists t1. split_and!; try done. by eapply moves_trans.
Qed.

Lemma follows_quiet s s' : quiet s s' -> follows s s'.
Proof. intros []. constructor; [by constructor|]. rewrite q_tracker. apply moves_refl. Qed.

Lemma applyOptimistic_eq s key value v cmd previous :
  state_value value = Some v ->
  only_states s (applyOptimisticState s key value cmd previous)
    (ApplyOptimistic (states s) (optimistic_state key v cmd previous)).1.
Proof.
  intros Hv. unfold applyOptimisticState. rewrite Hv.
  destruct (ApplyOptimistic _ _) as [st stored]. constructor; [done|]. by constructor.
Qed.

(** From the gate to the Provider: the write is launched, and either rejected at once
    or handed over. *)
Lemma start_write_cases text mapper catalog writer s key a op value v correlation :
  write_ready s key -> propertyOps s !! key = Some a -> operations s !! a = Some op ->
  op_coalesced op = 0 -> state_value value = Some v ->
  let r := start_write env text mapper catalog writer s key a value correlation in
  exists cmd s2, launched s s2 key a v cmd /\ cmd_Expected cmd = value /\
    ((exists err, r = (let '(s3, o) := rejectPropertyWrite env text s2 cmd (values (states s) !! key) err in
        (s3, Returned o)))
     \/ (writer = true /\ exists sd, r = (s2, Sent_ sd) /\ sd_command sd = cmd /\
           sd_previous sd = values (states s) !! key)).
Proof.
  intros [Hwf Hb Hnew Hid Hnamed Hun Hfree] Hact Hop Hco Hv. cbv zeta.
  unfold start_write, time_now. cbn [tracker set_ticks ticks drawn].
  destruct (begin_fresh _ order_range (tracker s) (clock env (ticks s)) (fresh_id env (drawn s))
    (DeviceID key) (EndpointID key) (CapabilityID key) (PropertyID key) value correlation Hwf Hfree)
    as (t1 & cmd & notes & Hbegin & Hcid & Hst & Hexp & _ & _ & Hcmd & Hpend).
  pose proof (BeginProperty_good _ order_range (tracker s) (clock env (ticks s)) (fresh_id env (drawn s))
    (DeviceID key) (EndpointID key) (CapabilityID key) (PropertyID key) value correlation Hwf Hb Hnew Hid Hnamed)
    as [Hwf1 _ Hb1].
  rewrite Hbegin in Hwf1, Hb1 |- *. simpl in Hwf1, Hb1.
  set (s1 := set_tracker _ t1). unfold setPropertyOperationCommand.
  change (operations s1) with (operations s). rewrite Hop, Hco. cbn [Z.ltb Z.compare].
  change (propertyOps (put_operation s1 a (with_op_command op cmd))) with (propertyOps s).
  rewrite Hact, bool_decide_true by done. cbn [negb].
  set (s1' := count_ _ commandsStarted 1). change (states s1') with (states s).
  pose proof (applyOptimistic_eq s1' key value v cmd (values (states s) !! key) Hv) as [Hsp Hq].
  set (sp := applyOptimisticState _ _ _ _ _) in *. set (s2 := sent_command env sp (cmd_ID cmd)).
  assert (Htsp : tracker sp = t1) by exact (q_tracker _ _ Hq).
  assert (Hl : launched s s2 key a v cmd).
  { apply (launched_follows s sp); [|apply sent_follows; by rewrite Htsp].
    constructor; try done; try (destruct Hq; done).
    - by rewrite (q_ops _ _ Hq).
    - exists (with_op_command op cmd). rewrite (q_heap _ _ Hq). apply lookup_insert_eq.
    - exists t1. rewrite Hcid, Htsp. split_and!; try done. apply moves_refl. }
  clearbody s2.
  exists cmd. destruct writer; simpl.
  2: { exists s2. split_and!; [done|done|]. left. eexists. reflexivity. }
  destruct (DeviceRegistry.Get (registry s2) (DeviceID key)) as [registered|].
  2: { exists s2. split_and!; [done|done|]. left. eexists. reflexivity. }
  destruct (mapProperty _ _ _ _ _) as [m mapped]. set (s3 := set_metrics s2 m).
  assert (Hl3 : launched s s3 key a v cmd) by (apply (launched_follows s s2); [done|apply follows_quiet; by constructor]).
  exists s3. split_and!; [done|done|].
  destruct mapped as [[[providerValue ?] ?]|e]; [|left; eexists; reflexivity].
  destruct (resolvePropertyPath _ _ _) as [[[path ?] ?]|e]; [|left; eexists; reflexivity].
  right. split; [done|]. eexists. split; [reflexivity|done].
Qed.

(** ** Rolling back *)

(** The value a property is left with when its write fails: the one before, or an
    unavailable one. *)
Definition rolled_back (previous : option StateValue) (x : StateValue) : Prop :=
  match previous with
  | Some old => x = with_Pending (with_Version old (u64_succ (u64_succ (sv_Version old)))) ""
  | None => sv_Quality x = QualityStale /\ sv_Available x = false /\ sv_PendingCommandID x = "" /\
            sv_UnavailableReason x = UnavailableCommandUnconfirmed
  end.

Lemma resolve_optimistic_eq s id fallback :
  only_states s (resolve_optimistic env s id fallback)
    (ResolveOptimistic (states s) (keys env s) id fallback).1.1.
Proof.
  unfold resolve_optimistic. destruct (ResolveOptimistic _ _ _ _) as [[st x] changed]. simpl.
  destruct changed; constructor; try done; by constructor.
Qed.

Lemma optimistic_pending key v cmd previous n :
  sv_PendingCommandID (with_Version (normalize (optimistic_state key v cmd previous)) n) = cmd_ID cmd.
Proof. unfold optimistic_state, normalize. simpl. by destruct (is_empty (v_Kind v)). Qed.

(** No value waits for the command. *)
Definition unowned (st : Store R) (id : string) : Prop := forall k v, values st !! k = Some v -> sv_PendingCommandID v <> id.

(** Rolling back the optimistic value of a command, laid over [st]. *)
Lemma resolve_back st s' key v cmd : states s' = (ApplyOptimistic st (optimistic_state key v cmd (values st !! key))).1 ->
  unowned st (cmd_ID cmd) ->
  exists x, values (states (resolve_optimistic env s' (cmd_ID cmd) (values st !! key))) = <[key := x]> (values st) /\
    rolled_back (values st !! key) x.
Proof.
  intros Hst Hun. rewrite (os_states _ _ _ (resolve_optimistic_eq s' _ _)).
  set (previous := values st !! key) in *.
  assert (Hvals : values (states s') = <[key := with_Version (normalize (optimistic_state key v cmd previous))
    (u64_succ (sv_Version (default zero_state previous)))]> (values st))
    by (rewrite Hst, optimistic_values; done).
  set (opt := with_Version _ _) in Hvals.
  assert (Hopt : sv_PendingCommandID opt = cmd_ID cmd) by apply optimistic_pending.
  assert (Hver : sv_Version opt = u64_succ (sv_Version (default zero_state previous)))
    by apply sv_Version_with_Version.
  unfold keys.
  destruct (resolve_loop_spec (cmd_ID cmd) previous (key_order env (values (states s'))) (values (states s')))
    as [Hnone|(k & cur & new & _ & Hcur & Hpend & Hres & Hv' & Hpn & Hnew)]; [apply keys_range| |].
  - exfalso. destruct (resolve_owned (states s') (key_order env (values (states s'))) (cmd_ID cmd) previous
      (keys_range _)) as [_ Hown]. destruct (Hown key opt) as (new & Hres & _).
    + rewrite Hvals. apply lookup_insert_eq.
    + done.
    + intros k' x Hx Hpx. rewrite Hvals, lookup_insert_Some in Hx. destruct Hx as [[-> _]|[_ Hx]]; [done|].
      by destruct (Hun k' x Hx).
    + unfold ResolveOptimistic in Hres. rewrite Hnone in Hres. by inversion Hres.
  - assert (k = key) as ->.
    { rewrite Hvals, lookup_insert_Some in Hcur. destruct Hcur as [[-> _]|[_ Hcur]]; [done|]. by destruct (Hun k cur Hcur). }
    assert (cur = opt) as -> by (rewrite Hvals, lookup_insert_eq in Hcur; congruence).
    exists new. unfold ResolveOptimistic. rewrite Hres. simpl.
    split; [by rewrite Hvals, insert_insert_eq|]. unfold rolled_back.
    destruct previous as [old|]; [by rewrite Hnew, Hver|]. tauto.
Qed.
Lemma resolve_launched s s' key a v cmd :
  write_ready s key -> launched s s' key a v cmd ->
  exists x, values (states (resolve_optimistic env s' (cmd_ID cmd) (values (states s) !! key))) =
      <[key := x]> (values (states s)) /\ rolled_back (values (states s) !! key) x.
Proof.
  intros Hr Hl. apply (resolve_back (states s) s' key v cmd (la_states _ _ _ _ _ _ Hl)).
  rewrite (la_id _ _ _ _ _ _ Hl). exact (wr_unowned _ _ Hr).
Qed.

(** The service after a failed write. *)
Record rolled s s' (key : Key) (a : nat) (cmd : Command) : Prop := {
  ro_registry : registry s' = registry s;
  ro_ops : propertyOps s' = propertyOps s;
  ro_heap : exists op, operations s' !! a = Some op;
  ro_values : exists x, values (states s') = <[key := x]> (values (states s)) /\
    rolled_back (values (states s) !! key) x;
  ro_tracker : exists t1, wf t1 /\ bounded t1 /\ pending t1 !! pending_key key = Some (cmd_ID cmd) /\
    commands t1 !! cmd_ID cmd = Some cmd /\ cmd_Status cmd = StatusQueued /\ moves t1 (tracker s');
  ro_ended : forall c, commands (tracker s') !! cmd_ID cmd = Some c ->
    terminal (cmd_Status c) = true /\ cmd_Status c <> StatusSuperseded;
}.

Lemma rolled_good s s' key a cmd : rolled s s' key a cmd -> wf (tracker s') /\ bounded (tracker s').
Proof. intros [_ _ _ _ (t1 & Hwf & Hb & _ & _ & _ & [G _]) _]. auto. Qed.

Lemma rolled_follows s s1 s2 key a cmd : rolled s s1 key a cmd -> follows s1 s2 -> rolled s s2 key a cmd.
Proof.
  intros Hro. destruct (rolled_good _ _ _ _ _ Hro) as [Hwf1 Hb1]. revert Hro.
  intros [Hr Ho [op Hop] Hv (t1 & Hwf & Hb & Hp & Hc & Hq & Hm1) He] [[Q1 Q2 Q3 Q4 Q5 Q6 Q7] Hm].
  cbn [registry states tracker snapshotSeq disabled propertyOps operations set_tracker] in *.
  constructor; try congruence; [exists op; congruence|by rewrite Q2|exists t1; split_and!; try done; by eapply moves_trans|].
  intros c Hc2. destruct (mv_from _ _ Hm _ c Hwf1 Hc2) as (c1 & Hc1 & _ & Hst).
  destruct (He c1 Hc1) as [Ht Hs]. destruct Hst as [->|[Hl _]]; [done|congruence].
Qed.

Lemma reject_rolled text s s' key a v cmd err :
  write_ready s key -> launched s s' key a v cmd ->
  let r := rejectPropertyWrite env text s' cmd (values (states s) !! key) err in
  rolled s r.1 key a cmd /\ exists c, r.2 = (zero_device, c, Some err) /\
    (cmd_ID c = "" \/ cmd_ID c = cmd_ID cmd).
Proof.
  intros Hready Hl. destruct (launched_good _ _ _ _ _ _ Hl) as [Hwf Hb].
  pose proof (launched_follows _ _ _ _ _ _ _ Hl (rejected_follows s' (cmd_ID cmd) (text err) Hwf Hb)) as Hl1.
  cbv zeta. unfold rejectPropertyWrite, rollbackOptimistic.
  set (s1 := rejected_command env s' (cmd_ID cmd) (text err)) in *.
  pose proof (resolve_launched s s1 key a v cmd Hready Hl1) as Hvals.
  pose proof (resolve_optimistic_eq s1 (cmd_ID cmd) (values (states s) !! key)) as [_ Hq].
  set (s2 := resolve_optimistic env s1 (cmd_ID cmd) _) in *.
  assert (Hro : rolled s (count_ s2 commandsRejected 1) key a cmd).
  { destruct Hq as [Q1 Q2 Q3 Q4 Q5 Q6 Q7]. destruct Hl1 as [L1 L2 L3 L4 L5 [op L6] L7 L8 L9].
    cbn [registry states tracker snapshotSeq disabled propertyOps operations set_states] in *.
    constructor; try done; cbn [registry states tracker propertyOps operations count_ set_metrics];
      try congruence.
    - exists op. congruence.
    - destruct L9 as (t1 & ? & ? & ? & ? & ? & Hm). exists t1. rewrite Q3. done.
    - rewrite Q3. intros c Hc. split.
      + exact (transition_ends _ order_range (tracker s') (clock env (ticks s')) (cmd_ID cmd) StatusRejected
          (text err) eq_refl Hwf c Hc).
      + destruct L9 as (t1 & Hwf1 & _ & _ & Hcmd & Hst & Hm).
        destruct (mv_from _ _ Hm _ c Hwf1 Hc) as (c1 & Hc1 & _ & [Heq|[_ ?]]); [|done].
        rewrite Hcmd in Hc1. simplify_eq. congruence. }
  destruct (rolled_good _ _ _ _ _ Hro) as [Hwf2 Hb2].
  pose proof (get_command_follows (count_ s2 commandsRejected 1) (cmd_ID cmd) Hwf2 Hb2) as Hf.
  pose proof (rolled_follows _ _ _ _ _ _ Hro Hf) as Hro3.
  pose proof (get_command_found (count_ s2 commandsRejected 1) (cmd_ID cmd)) as Hfound.
  assert (Hnot : forall c, (get_command env (count_ s2 commandsRejected 1) (cmd_ID cmd)).2 = (c, false) -> c = zero_command).
  { intros c. unfold get_command, time_now, CommandTracker.Get. simpl. destruct (Expire _ _ _). simpl.
    by destruct (commands t !! cmd_ID cmd); intros [= <-]. }
  destruct (get_command env _ _) as [s3 [c ok]]. cbn [fst snd] in *. split; [exact Hro3|].
  exists c. split; [done|]. destruct ok; [right|left].
  - destruct (rolled_good _ _ _ _ _ Hro3) as [Hwf3 _]. by destruct (wf_id _ Hwf3 _ _ (Hfound c eq_refl)).
  - by rewrite (Hnot c eq_refl).
Qed.

(** ** The answer of the Provider *)

Lemma launched_calm s s' key a v cmd c :
  launched s s' key a v cmd -> commands (tracker s') !! cmd_ID cmd = Some c ->
  same_request cmd c /\ cmd_Status c <> StatusSuperseded.
Proof.
  intros [_ _ _ _ _ _ _ _ (t1 & Hwf & _ & _ & Hcmd & Hst & Hm)] Hc.
  destruct (mv_from _ _ Hm _ c Hwf Hc) as (c1 & Hc1 & Hs & Hst'). rewrite Hcmd in Hc1. injection Hc1 as <-.
  split; [done|]. destruct Hst' as [->|[_ ?]]; [by rewrite Hst|done].
Qed.

Lemma schedule_quiet config mapper reader s key providerID path traceID :
  quiet s (schedulePropertyReadbacks (E := E) config mapper reader s key providerID path traceID).1.
Proof. unfold schedulePropertyReadbacks. repeat case_match; by constructor. Qed.

Lemma finish_write_cases text mapping_text config mapper catalog reader s s' key a v cmd sd answer :
  write_ready s key -> launched s s' key a v cmd -> sd_command sd = cmd ->
  sd_previous sd = values (states s) !! key ->
  let r := finish_write env text mapping_text config mapper catalog reader false s' key sd answer in
  match answer with
  | Err e => rolled s r.1 key a cmd /\ exists c, r.2 = (zero_device, c, Some (ProviderFailure e)) /\
      (cmd_ID c = "" \/ cmd_ID c = cmd_ID cmd)
  | Ok _ => launched s r.1 key a v cmd /\ exists d c, r.2 = (d, c, None) /\
      (cmd_ID c = "" \/ cmd_ID c = cmd_ID cmd)
  end.
Proof.
  intros Hready Hl Hsd Hprev. cbv zeta. unfold finish_write. rewrite Hsd, Hprev.
  destruct (launched_good _ _ _ _ _ _ Hl) as [Hwf Hb].
  pose proof (launched_follows _ _ _ _ _ _ _ Hl (get_command_follows s' (cmd_ID cmd) Hwf Hb)) as Hl1.
  pose proof (get_command_found s' (cmd_ID cmd)) as Hfound.
  destruct (get_command env s' (cmd_ID cmd)) as [s1 [c ok]]. cbn [fst snd] in *.
  assert (Hns : ok && is_superseded (cmd_Status c) = false).
  { destruct ok; [|done]. simpl. destruct (launched_calm _ _ _ _ _ _ c Hl1 (Hfound c eq_refl)) as [_ Hn].
    by destruct (cmd_Status c). }
  rewrite Hns. destruct answer as [item|e]; [|by eapply reject_rolled].
  destruct (launched_good _ _ _ _ _ _ Hl1) as [Hwf1 Hb1].
  pose proof (launched_follows _ _ _ _ _ _ _ Hl1 (accepted_follows s1 (cmd_ID cmd) Hwf1 Hb1)) as Hl2.
  set (s2 := accepted_command env s1 (cmd_ID cmd)) in *.
  pose proof (quiet_project s2 mapper catalog item) as Hq3.
  destruct (project_latest s2 mapper catalog item) as [s3 mapped]. cbn [fst] in Hq3.
  pose proof (launched_follows _ _ _ _ _ _ _ Hl2 (follows_quiet _ _ Hq3)) as Hl3.
  set (s4 := (schedulePropertyReadbacks _ _ _ _ _ _ _ _).1).
  pose proof (launched_follows _ _ _ _ _ _ _ Hl3 (follows_quiet _ _ (schedule_quiet config mapper reader s3 key
    (sd_provider sd) (sd_path sd) (cmd_CorrelationID cmd)))) as Hl4. fold s4 in Hl4.
  destruct (launched_good _ _ _ _ _ _ Hl4) as [Hwf4 Hb4].
  pose proof (launched_follows _ _ _ _ _ _ _ Hl4 (get_command_follows s4 (cmd_ID cmd) Hwf4 Hb4)) as Hl5.
  pose proof (get_command_found s4 (cmd_ID cmd)) as Hfound5.
  assert (Hnot : forall c, (get_command env s4 (cmd_ID cmd)).2 = (c, false) -> c = zero_command).
  { intros c0. unfold get_command, time_now, CommandTracker.Get. simpl. destruct (Expire _ _ _). simpl.
    by destruct (commands t !! cmd_ID cmd); intros [= <-]. }
  destruct (get_command env s4 (cmd_ID cmd)) as [s5 [c5 ok5]]. cbn [fst snd] in *.
  split; [exact Hl5|]. do 2 eexists. split; [reflexivity|]. destruct ok5; [right|left].
  - destruct (launched_good _ _ _ _ _ _ Hl5) as [Hwf5 _]. by destruct (wf_id _ Hwf5 _ _ (Hfound5 c5 eq_refl)).
  - by rewrite (Hnot c5 eq_refl).
Qed.

(** ** The end of the operation *)

(** [finishPropertyOperation] forgets the operation and, unless the command was
    superseded, keeps the error. *)
Lemma finish_operation s key a op d c err :
  wf (tracker s) -> bounded (tracker s) -> operations s !! a = Some op -> propertyOps s !! key = Some a ->
  (cmd_ID c = "" \/ forall c', commands (tracker s) !! cmd_ID c = Some c' -> cmd_Status c' <> StatusSuperseded) ->
  let r := finishPropertyOperation env s key a (d, c, err) in
  propertyOps r.1 = delete key (propertyOps s) /\ registry r.1 = registry s /\ states r.1 = states s /\
  snapshotSeq r.1 = snapshotSeq s /\ disabled r.1 = disabled s /\
  moves (tracker s) (tracker r.1) /\ r.2.2 = err.
Proof.
  intros Hwf Hb Hop Hkey Hcalm. cbv zeta. unfold finishPropertyOperation.
  assert (Hget : exists s1 c1, (if is_empty (cmd_ID c) then (s, (c, err)) else
      let '(s, (current, ok)) := get_command env s (cmd_ID c) in
      if ok : bool then (s, (current, if is_superseded (cmd_Status current) then Some ErrCommandSuperseded else err))
      else (s, (c, err))) = (s1, (c1, err)) /\ follows s s1).
  { destruct (is_empty (cmd_ID c)) eqn:He; [exists s, c; split; [done|apply follows_quiet, quiet_refl]|].
    pose proof (get_command_follows s (cmd_ID c) Hwf Hb) as Hf.
    pose proof (get_command_found s (cmd_ID c)) as Hfound.
    destruct (get_command env s (cmd_ID c)) as [s1 [c1 ok]]. cbn [fst snd] in *.
    destruct ok; [|by exists s1, c]. exists s1, c1. split; [|done].
    destruct Hcalm as [Hc|Hcalm]; [by rewrite Hc in He|].
    destruct (mv_from _ _ (fo_moves _ _ Hf) _ c1 Hwf (Hfound c1 eq_refl)) as (c0 & Hc0 & _ & Hst).
    assert (cmd_Status c1 <> StatusSuperseded) by (destruct Hst as [->|[_ ?]]; [by apply Hcalm|done]).
    by destruct (cmd_Status c1). }
  destruct Hget as (s1 & c1 & -> & [[Q1 Q2 Q3 Q4 Q5 Q6 Q7] Hm]).
  cbn [registry states tracker snapshotSeq disabled propertyOps operations set_tracker] in *.
  rewrite Q7, Hop. change (propertyOps (put_operation s1 a _)) with (propertyOps s1).
  rewrite Q6, Hkey, bool_decide_true by done. simpl.
  split_and!; try congruence; done.
Qed.

(** ** The whole write *)

Lemma validated_value s key value :
  validatePropertyWrite s key value = Ok tt -> is_Some (state_value value).
Proof.
  unfold validatePropertyWrite. repeat (case_match; try done). intros _.
  match goal with Hv : ValidateProperty _ = Ok _ |- _ => apply validate_property_ok in Hv as (_ & _ & Ha) end.
  cbn [p_Value with_p_Value] in Ha. unfold state_value. destruct Ha; simpl; eauto.
Qed.

(** The operation a request that joins none begins. *)
Lemma begin_alone s key value :
  propertyOps s !! key = None ->
  exists s1 a op, beginPropertyOperation env s key value = (s1, (a, false)) /\
    propertyOps s1 = <[key := a]> (propertyOps s) /\ operations s1 !! a = Some op /\ op_coalesced op = 0 /\
    registry s1 = registry s /\ states s1 = states s /\ tracker s1 = tracker s /\
    snapshotSeq s1 = snapshotSeq s /\ disabled s1 = disabled s /\ drawn s1 = drawn s.
Proof.
  intros Hno. unfold beginPropertyOperation. rewrite Hno. simpl.
  do 3 eexists. split; [reflexivity|]. simpl. split_and!; try apply lookup_insert_eq; done.
Qed.

(** The end of a failed write that had been launched. *)
Lemma finish_rolled s s' key a d c cmd err :
  write_ready s key -> propertyOps s !! key = Some a -> rolled s s' key a cmd ->
  (cmd_ID c = "" \/ cmd_ID c = cmd_ID cmd) ->
  let r := finishPropertyOperation env s' key a (d, c, Some err) in
  registry r.1 = registry s /\ propertyOps r.1 = delete key (propertyOps s) /\
  wf (tracker r.1) /\ bounded (tracker r.1) /\ r.2.2 = Some err /\
  (exists x, values (states r.1) = <[key := x]> (values (states s)) /\
     rolled_back (values (states s) !! key) x) /\
  pending (tracker r.1) !! pending_key key = None.
Proof.
  intros Hready Hact Hro Hc. destruct (rolled_good _ _ _ _ _ Hro) as [Hwf' Hb'].
  pose proof Hro as [Hr Ho [op Hop] Hv (t1 & Hwf & Hb & Hp & Hcmd & _ & Hm1) He].
  destruct (finish_operation s' key a op d c (Some err)) as (F1 & F2 & F3 & _ & _ & F6 & F7); try done.
  { congruence. }
  { destruct Hc as [?|Hc]; [by left|right]. rewrite Hc. intros c' Hc'. by apply He. }
  destruct (finishPropertyOperation env s' key a (d, c, Some err)) as [s2 o]. cbn [fst snd] in *.
  destruct (mv_good _ _ F6 Hwf' Hb') as [Hwf2 Hb2].
  split_and!; try congruence; [by rewrite F3|].
  apply (ended_free t1 (tracker s2) (pending_key key) (cmd_ID cmd)); try done; [by eapply moves_trans|].
  intros c2 Hc2. destruct (mv_from _ _ F6 _ c2 Hwf' Hc2) as (c1 & Hc1 & _ & Hst).
  destruct (He c1 Hc1) as [Hterm _]. destruct Hst as [->|[Hl _]]; [done|congruence].
Qed.

(** The end of an accepted one. *)
Lemma finish_launched s s' key a v d c cmd :
  propertyOps s !! key = Some a -> launched s s' key a v cmd ->
  (cmd_ID c = "" \/ cmd_ID c = cmd_ID cmd) ->
  let r := finishPropertyOperation env s' key a (d, c, None) in
  registry r.1 = registry s /\ propertyOps r.1 = delete key (propertyOps s) /\
  snapshotSeq r.1 = snapshotSeq s /\ disabled r.1 = disabled s /\
  wf (tracker r.1) /\ bounded (tracker r.1) /\ r.2.2 = None /\
  states r.1 = (ApplyOptimistic (states s) (optimistic_state key v cmd (values (states s) !! key))).1 /\
  (forall c, commands (tracker r.1) !! cmd_ID cmd = Some c ->
     same_request cmd c /\ cmd_Status c <> StatusSuperseded /\
     (terminal (cmd_Status c) = false -> pending (tracker r.1) !! pending_key key = Some (cmd_ID cmd))).
Proof.
  intros Hact Hl Hc. destruct (launched_good _ _ _ _ _ _ Hl) as [Hwf' Hb'].
  pose proof Hl as [Hr Hsq Hdis Ha Ho [op Hop] Hst Hid _].
  destruct (finish_operation s' key a op d c None) as (F1 & F2 & F3 & F4 & F5 & F6 & F7); try done.
  { destruct Hc as [?|Hc]; [by left|right]. rewrite Hc. intros c' Hc'. by eapply launched_calm. }
  destruct (finishPropertyOperation env s' key a (d, c, None)) as [s2 o]. cbn [fst snd] in *.
  destruct (mv_good _ _ F6 Hwf' Hb') as [Hwf2 Hb2].
  split_and!; try congruence. intros c2 Hc2.
  destruct (mv_from _ _ F6 _ c2 Hwf' Hc2) as (c1 & Hc1 & Hs & Hst2).
  destruct (launched_calm _ _ _ _ _ _ c1 Hl Hc1) as [Hs1 Hn].
  pose proof (same_request_trans _ _ _ Hs1 Hs) as Hs2.
  split_and!; [done|destruct Hst2 as [->|[_ ?]]; done|]. intros Hlive.
  destruct Hl as [_ _ _ _ _ _ _ _ (t1 & Hwf1 & _ & Hp1 & Hcmd1 & _ & _)].
  destruct (wf_pending _ Hwf1 _ _ Hp1) as (x & Hx & _ & Hk & Hkey). simplify_eq.
  rewrite <- Hkey, <- (sr_key _ _ Hs2). apply (wf_live _ Hwf2); [done| |done]. by rewrite (sr_kind _ _ Hs2).
Qed.

(** What a write that nothing joins or disturbs ends with: an error, and the state
    before; or none, and the write launched and accepted. *)
Definition write_undone s s' (key : Key) : Prop :=
  (states s' = states s \/
   exists x, values (states s') = <[key := x]> (values (states s)) /\
     rolled_back (values (states s) !! key) x) /\
  pending (tracker s') !! pending_key key = None.

Definition write_sent s s' (key : Key) (value : PropertyValue) : Prop :=
  snapshotSeq s' = snapshotSeq s /\ disabled s' = disabled s /\
  exists v cmd, state_value value = Some v /\ cmd_Expected cmd = value /\
    cmd_ID cmd = fresh_id env (drawn s) /\
    states s' = (ApplyOptimistic (states s) (optimistic_state key v cmd (values (states s) !! key))).1 /\
    forall c, commands (tracker s') !! cmd_ID cmd = Some c ->
      same_request cmd c /\ cmd_Status c <> StatusSuperseded /\
      (terminal (cmd_Status c) = false -> pending (tracker s') !! pending_key key = Some (cmd_ID cmd)).

Lemma execute_alone w s key value :
  write_ready s key -> propertyOps s !! key = None -> wc_acknowledges w = false ->
  validatePropertyWrite s key value = Ok tt ->
  let r := ExecuteProperty env w (fun _ s => s) s key value in
  registry r.1 = registry s /\ propertyOps r.1 = propertyOps s /\
  wf (tracker r.1) /\ bounded (tracker r.1) /\
  match r.2.2 with
  | Some _ => write_undone s r.1 key
  | None => write_sent s r.1 key value
  end.
Proof.
  intros Hready Hidle Hack Hvalid. destruct (validated_value s key value Hvalid) as [v Hv].
  cbv zeta. unfold ExecuteProperty. rewrite Hvalid, Hack.
  destruct (begin_alone s key value Hidle) as
    (s1 & a & op & -> & Hops & Hop & Hco & Hreg & Hst & Htr & Hsq & Hdis & Hdr).
  assert (Hready1 : write_ready s1 key).
  { destruct Hready. constructor; rewrite ?Htr, ?Hst, ?Hdr; done. }
  assert (Hact : propertyOps s1 !! key = Some a) by (rewrite Hops; apply lookup_insert_eq).
  assert (Hdel : delete key (propertyOps s1) = propertyOps s) by (rewrite Hops; by apply delete_insert_id).
  assert (Hundone : forall s2 c d err, rolled s1 s2 key a c -> (cmd_ID d = "" \/ cmd_ID d = cmd_ID c) ->
    let r := finishPropertyOperation env s2 key a (zero_device, d, Some err) in
    registry r.1 = registry s /\ propertyOps r.1 = propertyOps s /\ wf (tracker r.1) /\ bounded (tracker r.1) /\
    match r.2.2 with Some _ => write_undone s r.1 key | None => write_sent s r.1 key value end).
  { intros s2 c d err Hro Hd.
    destruct (finish_rolled s1 s2 key a zero_device d c err Hready1 Hact Hro Hd)
      as (F1 & F2 & F3 & F4 & F5 & F6 & F7). cbv zeta. rewrite F5. split_and!; try congruence; try done.
    split; [right; by rewrite <- Hst|done]. }
  destruct (negb (wc_gate w)).
  { destruct (finish_operation s1 key a op zero_device zero_command (Some ContextDone))
      as (F1 & F2 & F3 & F4 & F5 & F6 & F7); try done; [by apply Hready1..|by left|].
    change (failed (E := E) ContextDone) with (zero_device, zero_command, Some (@ContextDone E)).
    destruct (finishPropertyOperation env s1 key a _) as [s' o]. cbn [fst snd] in *.
    rewrite F7. destruct (mv_good _ _ F6) as [Hwf Hb]; [by apply Hready1..|].
    split_and!; try congruence. split; [left; congruence|].
    apply (free_stays _ _ _ (wr_wf _ _ Hready1) Hwf F6). apply Hready1. }
  destruct (start_write_cases (wc_text w) (wc_mapper w) (wc_catalog w) (present (wc_writer w)) s1 key a op value v
    (wc_correlation w) Hready1 Hact Hop Hco Hv) as (cmd & s2 & Hl & Hexp & [[err ->]|(Hw & sd & -> & Hsd & Hprev)]).
  - destruct (reject_rolled (wc_text w) s1 s2 key a v cmd err Hready1 Hl) as (Hro & c & Ho & Hc).
    destruct (rejectPropertyWrite _ _ _ _ _ _) as [s3 o]. cbn [fst snd] in *. rewrite Ho. by eapply Hundone.
  - set (answer := match wc_writer w with Some write => write (sd_request sd) | None => _ end).
    pose proof (finish_write_cases (wc_text w) (wc_mapping_text w) (wc_readbacks w) (wc_mapper w) (wc_catalog w)
      (wc_reader w) s1 s2 key a v cmd sd answer Hready1 Hl Hsd Hprev) as Hfin. cbv zeta in Hfin.
    destruct (finish_write _ _ _ _ _ _ _ _ _ _ _ _) as [s3 o]. cbn [fst snd] in *.
    destruct answer as [item|e].
    + destruct Hfin as (Hl3 & d & c & -> & Hc).
      destruct (finish_launched s1 s3 key a v d c cmd Hact Hl3 Hc)
        as (F1 & F2 & F3 & F4 & F5 & F6 & F7 & F8 & F9). rewrite F7.
      split_and!; try congruence; try done.
      split_and!; try congruence. exists v, cmd. split_and!; try done.
      * rewrite <- Hdr. apply Hl.
      * by rewrite F8, Hst.
    + destruct Hfin as (Hro & c & -> & Hc). by eapply Hundone.
Qed.

(** ** Any write *)

(** The values when the gate is granted, after the command a new one replaces lost its own. *)
Definition replaced s (st : Store R) : Prop :=
  st = states s \/ exists id, st = (ResolveOptimistic (states s) (keys env s) id None).1.1.
(** What a rollback makes of the value [cur] a command still has. *)
Definition taken_back (previous : option StateValue) (cur x : StateValue) : Prop :=
  match previous with
  | Some old => x = with_Pending (with_Version old (u64_succ (sv_Version cur))) ""
  | None => sv_Value x = sv_Value cur /\ sv_Quality x = QualityStale /\ sv_Available x = false /\ sv_PendingCommandID x = ""
  end.

Lemma replaced_unowned s st id : unowned (states s) id -> id <> "" -> replaced s st -> unowned st id.
Proof.
  intros Hun Hne [->|[c ->]]; [done|]. intros k v. unfold ResolveOptimistic.
  destruct (resolve_loop_spec c None (keys env s) (values (states s)) (proj1 (keys_range _))) as [->|(k0 & cur & new & _ & _ & _ & -> & _ & Hp & _)];
    cbn [fst values set_values]; [apply Hun|]. intros [[<- <-]|[_ Hv]]%lookup_insert_Some; [by rewrite Hp|by eapply Hun].
Qed.
Lemma get_command_states s id : states (get_command env s id).1 = states s.
Proof. unfold get_command, time_now. by destruct (CommandTracker.Get _ _ _ _) as [[? ?] ?]. Qed.
Lemma set_command_states s key a c : states (setPropertyOperationCommand env s key a c).1 = states s.
Proof.
  unfold setPropertyOperationCommand. destruct (operations s !! a) as [op|]; [|done]. destruct (0 <? op_coalesced op); [|done].
  unfold add_coalesced, time_now. destruct (CommandTracker.AddCoalesced _ _ _ _) as [[? [? []]] ?]; [|done].
  cbn [operations set_tracker set_ticks]. by destruct (operations _ !! a).
Qed.
Lemma reject_states text s c previous err :
  states (rejectPropertyWrite env text s c previous err).1 = (ResolveOptimistic (states s) (keys env s) (cmd_ID c) previous).1.1.
Proof.
  unfold rejectPropertyWrite, rollbackOptimistic. set (s1 := rejected_command env s _ _). set (s2 := resolve_optimistic _ _ _ _).
  pose proof (get_command_states (count_ s2 commandsRejected 1) (cmd_ID c)) as Hg. destruct (get_command env _ _) as [s3 [c3 b3]]. cbn [fst] in *.
  rewrite Hg. cbn [states count_ set_metrics]. unfold s2. by rewrite (os_states _ _ _ (resolve_optimistic_eq s1 _ _)).
Qed.
Lemma begin_id t now id d e c p v co t' cmd superseded notes :
  BeginPropertyCorrelated (command_order env) t now id d e c p v co = (t', (cmd, superseded, false), notes) -> cmd_ID cmd = id.
Proof.
  unfold BeginPropertyCorrelated. destruct (pending _ !! _); [|by intros [= <- <- <-]]. destruct (negb _); [|by intros [= <- <- <-]].
  destruct (Equal _ _); [done|]. by intros [= <- <- <-].
Qed.

(** A write that fails at the gate. *)
Lemma start_write_values text mapper catalog writer s key a value correlation :
  fresh_id env (drawn s) <> "" -> unowned (states s) (fresh_id env (drawn s)) ->
  match start_write env text mapper catalog writer s key a value correlation with
  | (s', Returned (_, _, Some _)) => exists st, replaced s st /\
      (values (states s') = values st \/ exists x, values (states s') = <[key := x]> (values st) /\ rolled_back (values st !! key) x)
  | (s', Sent_ sd) => cmd_ID (sd_command sd) = fresh_id env (drawn s) /\ exists st, replaced s st /\ sd_previous sd = values st !! key
  | (_, Returned (_, _, None)) => True
  end.
Proof.
  intros Hne Hun. unfold start_write, time_now. cbn [tracker set_ticks ticks drawn].
  destruct (BeginPropertyCorrelated _ _ _ _ _ _ _ _ _ _) as [[t [[cmd superseded] replayed]] notes] eqn:Hbegin.
  set (s0 := set_tracker _ t). pose proof (set_command_states s0 key a cmd) as Hset.
  destruct (setPropertyOperationCommand env s0 key a cmd) as [s1 active]. cbn [fst] in Hset. change (states s0) with (states s) in Hset.
  destruct active; cbn [negb].
  2: { unfold supersede_command, time_now. destruct (CommandTracker.Supersede _ _ _ _ _) as [[t1 [c1 b1]] n1].
       exists (states s). split; [by left|]. left. rewrite <- Hset. by destruct b1. }
  destruct replayed.
  { destruct (DeviceRegistry.Get _ _); [done|]. exists (states s). split; [by left|]. left. by rewrite <- Hset. }
  apply begin_id in Hbegin.
  set (chosen := match superseded with Some _ => _ | None => _ end).
  assert (exists s2, chosen = (s2, values (states s2) !! key) /\ replaced s (states s2)) as (s2 & -> & Hrep).
  { unfold chosen. destruct superseded as [c|]; eexists; (split; [|]).
    - reflexivity.
    - rewrite (os_states _ _ _ (resolve_optimistic_eq _ _ _)). right. exists (cmd_ID c). unfold keys. cbn [states count_ set_metrics]. by rewrite Hset.
    - unfold StateStore.Get. by rewrite Hset.
    - left. exact Hset. }
  clear Hset. pose proof (replaced_unowned s (states s2) (cmd_ID cmd)) as Hun2. rewrite Hbegin in Hun2. specialize (Hun2 Hun Hne Hrep).
  set (st := states s2) in *. set (s3 := count_ s2 commandsStarted 1).
  set (s4 := sent_command env (applyOptimisticState s3 key value cmd (values st !! key)) (cmd_ID cmd)).
  assert (forall s5 err, states s5 = states s4 -> exists x, rejectPropertyWrite env text s5 cmd (values st !! key) err = x /\
    (values (states x.1) = values st \/ exists y, values (states x.1) = <[key := y]> (values st) /\ rolled_back (values st !! key) y) /\
    exists c, x.2 = (zero_device, c, Some err)) as Hreject.
  { intros s5 err H5. eexists. split; [reflexivity|]. split.
    - rewrite reject_states. unfold keys. rewrite H5.
      assert (states s4 = states (applyOptimisticState s3 key value cmd (values st !! key))) as H4 by done.
      destruct (state_value value) as [v|] eqn:Hv.
      + right. rewrite (os_states _ _ _ (applyOptimistic_eq s3 key value v cmd (values st !! key) Hv)) in H4.
        destruct (resolve_back st s4 key v cmd H4) as (x & Hx & Hr); [by rewrite Hbegin|].
        exists x. rewrite (os_states _ _ _ (resolve_optimistic_eq s4 _ _)) in Hx. split; [exact Hx|exact Hr].
      + left. unfold applyOptimisticState in H4. rewrite Hv in H4. rewrite H4. change (states s3) with st.
        rewrite resolve_none; [done|apply keys_range|by rewrite Hbegin].
    - unfold rejectPropertyWrite. destruct (get_command env _ _) as [s6 [c b]]. by exists c. }
  assert (forall s5 err, states s5 = states s4 ->
    match (let '(s6, o) := rejectPropertyWrite env text s5 cmd (values st !! key) err in (s6, Returned o)) with
    | (s', Returned (_, _, Some _)) => exists st, replaced s st /\
        (values (states s') = values st \/ exists x, values (states s') = <[key := x]> (values st) /\ rolled_back (values st !! key) x)
    | (s', Sent_ sd) => cmd_ID (sd_command sd) = fresh_id env (drawn s) /\ exists st, replaced s st /\ sd_previous sd = values st !! key
    | (_, Returned (_, _, None)) => True
    end) as Hrej.
  { intros s5 err H5. destruct (Hreject s5 err H5) as ([s6 o] & -> & Hv & c & Ho). cbn [fst snd] in *. subst o. by exists st. }
  clear Hreject. destruct writer; cbn [negb]; [|by apply Hrej].
  destruct (DeviceRegistry.Get _ _) as [registered|]; [|by apply Hrej].
  destruct (mapProperty _ _ _ _ _) as [m [[[providerValue ?] ?]|e]]; [|by apply Hrej].
  destruct (resolvePropertyPath _ _ _) as [[[path ?] ?]|e]; [|by apply Hrej].
  split; [exact Hbegin|]. by exists st.
Qed.

(** A write that the Provider refuses, or that another has superseded by then. *)
Lemma finish_write_values text mapping_text config mapper catalog reader ack s key sd answer s' d c e :
  finish_write env text mapping_text config mapper catalog reader ack s key sd answer = (s', (d, c, Some e)) ->
  states s' = (ResolveOptimistic (states s) (keys env s) (cmd_ID (sd_command sd)) (sd_previous sd)).1.1.
Proof.
  unfold finish_write. pose proof (get_command_states s (cmd_ID (sd_command sd))) as Hg. destruct (get_command env s _) as [s1 [cur ok]]. cbn [fst] in Hg.
  destruct (ok && is_superseded (cmd_Status cur)).
  { intros [= <- _ _]. unfold rollbackOptimistic, keys. rewrite (os_states _ _ _ (resolve_optimistic_eq s1 _ _)). unfold keys. by rewrite Hg. }
  destruct answer as [item|err].
  - destruct (project_latest _ _ _ _) as [s2 mapped]. by destruct (get_command env _ _) as [s4 [c4 b4]].
  - intros Hr. pose proof (reject_states text s1 (sd_command sd) (sd_previous sd) (ProviderFailure err)) as Hs. rewrite Hr in Hs.
    cbn [fst] in Hs. unfold keys in *. by rewrite Hs, Hg.
Qed.
(** The command takes back what is still its own value in [st], and no other. *)
Definition takes_back (st st' : Store R) (id : string) (previous : option StateValue) : Prop :=
  (forall k, values st !! k = None -> values st' !! k = None) /\
  (forall k v, values st !! k = Some v -> sv_PendingCommandID v <> id -> values st' !! k = Some v) /\
  (forall k cur, values st !! k = Some cur -> sv_PendingCommandID cur = id ->
     (forall k' v, values st !! k' = Some v -> sv_PendingCommandID v = id -> k' = k) ->
     exists x, values st' !! k = Some x /\ taken_back previous cur x).
Lemma resolve_takes (st : Store R) ks id previous : range_of (values st) ks ->
  takes_back st (ResolveOptimistic st ks id previous).1.1 id previous.
Proof.
  intros Hks. destruct (resolve_owned st ks id previous Hks) as [H1 H2]. unfold takes_back. split_and!.
  - intros k Hk. unfold ResolveOptimistic. destruct (resolve_loop_spec id previous ks (values st) (proj1 Hks)) as [->|(k0 & cur & new & _ & Hc & _ & -> & _)]; [done|].
    cbn [fst values set_values]. rewrite lookup_insert_ne; [done|]. intros ->. congruence.
  - exact H1.
  - intros k cur Hk Hp Hu. destruct (H2 k cur Hk Hp Hu) as (new & -> & _ & Hn & Hnew). exists new. cbn [fst values set_values].
    split; [apply lookup_insert_eq|]. unfold taken_back. destruct previous; [done|]. tauto.
Qed.

(** What a write that fails with [e] leaves of the values, whatever [between] does while
    it waits: it was refused, it joined another, its gate was not granted, it failed at
    the gate, or it failed after the Provider was asked; a write that another had
    superseded once it had succeeded is left as it succeeded. *)
Definition failure_leaves (w : WriteContext) (between : nat -> DeviceService R E -> DeviceService R E)
    s (key : Key) (value : PropertyValue) (e : ServiceError E) (st' : Store R) : Prop :=
  let '(s0, (a, joined)) := beginPropertyOperation env s key value in
  let s1 := between 1%nat s0 in
  let id := fresh_id env (drawn s1) in
  match validatePropertyWrite s key value with
  | Err _ => st' = states s
  | Ok _ =>
      if joined : bool then st' = states (between 0%nat s0)
      else if negb (wc_gate w) then st' = states s1
      else
        match start_write env (wc_text w) (wc_mapper w) (wc_catalog w) (present (wc_writer w)) s1 key a value (wc_correlation w) with
        | (s2, Returned (_, _, None)) => e = ErrCommandSuperseded /\ st' = states s2
        | (_, Returned (_, _, Some _)) => id <> "" -> unowned (states s1) id -> exists st, replaced s1 st /\
            (values st' = values st \/ exists x, values st' = <[key := x]> (values st) /\ rolled_back (values st !! key) x)
        | (s2, Sent_ sd) =>
            let s3 := between 2%nat s2 in
            (id <> "" -> unowned (states s1) id ->
             cmd_ID (sd_command sd) = id /\ exists st, replaced s1 st /\ sd_previous sd = values st !! key) /\
            (takes_back (states s3) st' (cmd_ID (sd_command sd)) (sd_previous sd) \/
             e = ErrCommandSuperseded /\ exists item o, finish_write env (wc_text w) (wc_mapping_text w) (wc_readbacks w) (wc_mapper w)
                (wc_catalog w) (wc_reader w) (wc_acknowledges w) s3 key sd (Ok item) = o /\ o.2.2 = None /\ st' = states o.1)
        end
  end.

(** [finishPropertyOperation] leaves the values alone, and the one error it adds is that
    the command was superseded. *)
Lemma finish_operation_states s key a d c err :
  states (finishPropertyOperation env s key a (d, c, err)).1 = states s /\
  ((finishPropertyOperation env s key a (d, c, err)).2.2 = err \/
   (finishPropertyOperation env s key a (d, c, err)).2.2 = Some ErrCommandSuperseded).
Proof.
  unfold finishPropertyOperation. destruct (is_empty (cmd_ID c)).
  - case_match; case_match; (split; [done|by left]).
  - pose proof (get_command_states s (cmd_ID c)) as Hg. destruct (get_command env s (cmd_ID c)) as [s1 [cur ok]]. cbn [fst] in Hg.
    destruct ok; [destruct (is_superseded _)|]; repeat case_match; (split; [done|auto]).
Qed.

Lemma failure_left w between s key value e :
  (ExecuteProperty env w between s key value).2.2 = Some e ->
  failure_leaves w between s key value e (states (ExecuteProperty env w between s key value).1).
Proof.
  unfold ExecuteProperty, failure_leaves. destruct (validatePropertyWrite _ _ _) as [[]|e0].
  2: { by destruct (beginPropertyOperation _ _ _ _) as [? [? ?]]. }
  destruct (beginPropertyOperation _ _ _ _) as [s0 [a joined]]. destruct joined.
  { destruct (operations _ !! a) as [op|]; [|done]. by destruct (op_done op). }
  destruct (wc_gate w); cbn [negb].
  2: { intros _. apply finish_operation_states. }
  pose proof (start_write_values (wc_text w) (wc_mapper w) (wc_catalog w) (present (wc_writer w)) (between 1%nat s0) key a value
    (wc_correlation w)) as Hs.
  destruct (start_write _ _ _ _ _ _ _ _ _ _) as [s2 [[[d c] [err|]]|sd]].
  - intros _ Hne Hun. destruct (finish_operation_states s2 key a d c (Some err)) as [-> _]. by apply Hs.
  - destruct (finish_operation_states s2 key a d c None) as [-> Hr]. intros Hf. rewrite Hf in Hr. destruct Hr as [|[= ->]]; done.
  - destruct (finish_write _ _ _ _ _ _ _ _ _ _ _ _) as [s3 [[d c] err]] eqn:Hfin.
    destruct (finish_operation_states s3 key a d c err) as [-> Hr]. intros Hf. rewrite Hf in Hr. split; [exact Hs|].
    destruct err as [err|].
    + left. rewrite (finish_write_values _ _ _ _ _ _ _ _ _ _ _ _ _ _ _ Hfin). apply resolve_takes, keys_range.
    + right. destruct Hr as [|[= ->]]; [done|]. split; [done|]. 
      match goal with Hf : finish_write _ _ _ _ _ _ _ _ _ _ _ ?x = _ |- _ => destruct x as [item|pe] eqn:Ha end.
      * by exists item, (s3, (d, c, None)).
      * exfalso. revert Hfin. unfold finish_write. destruct (get_command _ _ _) as [? [? ?]]. destruct (_ && _); [done|].
        unfold rejectPropertyWrite. destruct (get_command _ _ _) as [? [? ?]]. done.
Qed.

(** ** What a caller may rely on *)

(** a request is executed only when it may be, and otherwise changes nothing.  The
    refused ones are told apart: an unregistered device, one that is disabled or
    removed, a property that is missing or not writable, a value its definition does
    not admit; none of them reaches the tracker, the store or the Provider. *)
Theorem write_validation w between s key value :
  match validatePropertyWrite s key value with
  | Ok _ => exists item p,
      DeviceRegistry.Get (registry s) (DeviceID key) = Some item /\
      d_Disabled item = false /\ d_Removed item = false /\
      PropertyAt item (EndpointID key) (CapabilityID key) (PropertyID key) = Some p /\
      pd_Writable (p_Definition p) = true /\ admits (p_Definition p) value
  | Err e =>
      ExecuteProperty env w between s key value = (s, (zero_device, zero_command, Some e)) /\
      match DeviceRegistry.Get (registry s) (DeviceID key) with
      | None => e = ProviderFailure ErrDeviceNotFound
      | Some item =>
          if d_Disabled item || d_Removed item then e = ErrDeviceDisabled
          else match PropertyAt item (EndpointID key) (CapabilityID key) (PropertyID key) with
               | Some p => if pd_Writable (p_Definition p)
                           then ~ property_ok (with_p_Value p value) /\ exists v, e = PropertyInvalid v
                           else e = ProviderFailure ErrPropertyUnsupported
               | None => e = ProviderFailure ErrPropertyUnsupported
               end
      end
  end.
Proof.
  destruct (validatePropertyWrite s key value) as [u|e] eqn:Hvalid.
  all: pose proof Hvalid as Hcase; unfold validatePropertyWrite in Hcase.
  2: split; [unfold ExecuteProperty; by rewrite Hvalid|].
  all: destruct (DeviceRegistry.Get (registry s) (DeviceID key)) as [item|]; [|congruence].
  all: destruct (d_Disabled item || d_Removed item) eqn:Hoff; [congruence|].
  all: destruct (PropertyAt item _ _ _) as [p|] eqn:Hp; [|congruence].
  all: destruct (pd_Writable (p_Definition p)) eqn:Hw; simpl in Hcase; [|congruence].
  all: destruct (ValidateProperty (with_p_Value p value)) as [u'|e'] eqn:Hv; simplify_eq.
  - apply orb_false_iff in Hoff as [??]. apply validate_property_ok in Hv as (_ & _ & Ha).
    exists item, p. repeat (split; [done|]). done.
  - split; [|eauto]. intros Hok%(validate_property_ok _ tt). congruence.
Qed.


(** C9: an accepted write shows the requested value at once, as an optimistic one that
    belongs to the command; and the next report the Provider pushes takes its place
    whatever its sequence number, time and priority are.  A report of the requested
    value confirms the command, unless it has ended before, and frees the property. *)
Theorem write_then_report w s key value item e c p traceID :
  write_ready s key -> propertyOps s !! key = None -> wc_acknowledges w = false ->
  validatePropertyWrite s key value = Ok tt ->
  let r := ExecuteProperty env w (fun _ s => s) s key value in
  let s' := handle_projected env r.1 item traceID snapshotTimeOriginProviderEvent in
  let id := fresh_id env (drawn s) in
  r.2.2 = None ->
  structure_ok item -> IsOnline (incoming_device r.1 item) = true ->
  d_Sequence item = 0 \/ default 0 (snapshotSeq s !! d_ID item) < d_Sequence item ->
  (e, c, p) ∈ source_properties item -> key = key_at_path (d_ID item) (e, c, p) ->
  is_cloud_http (if transport_empty (p_StateTransport p) then d_StateTransport item
                 else p_StateTransport p) = false ->
  (exists x, values (states r.1) !! key = Some x /\ sv_Quality x = QualityOptimistic /\
     Some (sv_Value x) = state_value value /\ sv_PendingCommandID x = id) /\
  (exists x, values (states s') !! key = Some x /\ sv_Quality x = QualityReported /\
     Some (sv_Value x) = state_value (p_Value p) /\ sv_PendingCommandID x = "") /\
  (forall cmd, commands (tracker r.1) !! id = Some cmd -> terminal (cmd_Status cmd) = false ->
     Equal value (p_Value p) = true -> settled (tracker s') (pending_key key) id).
Proof.
  intros Hready Hidle Hack Hvalid r s' id Hnone Hok Hon Hseq Hx Hkey Hcloud.
  destruct (execute_alone w s key value Hready Hidle Hack Hvalid) as (_ & _ & Hwf & Hb & Hsent).
  fold r in Hwf, Hb, Hsent. rewrite Hnone in Hsent.
  destruct Hsent as (Hsq & _ & v & cmd & Hv & Hexp & Hid & Hst & Hcmd).
  pose proof (online_cases env order_range r.1 item traceID snapshotTimeOriginProviderEvent Hwf Hb Hok Hon) as Honl.
  cbv zeta in Honl.
  assert (Hfresh : negb (d_Sequence item =? 0) && (0 <? default 0 (snapshotSeq r.1 !! d_ID item))
    && (d_Sequence item <=? default 0 (snapshotSeq r.1 !! d_ID item)) = false).
  { rewrite Hsq. destruct Hseq as [->|Hseq]; [done|]. apply andb_false_iff. right. lia. }
  rewrite Hfresh in Honl.
  destruct Honl as (_ & Hvals & _ & Hconf & _). fold s' in Hvals, Hconf.
  set (opt := optimistic_state key v cmd (values (states s) !! key)) in *.
  set (cur := with_Version (normalize opt) (u64_succ (sv_Version (default zero_state (values (states s) !! key))))).
  assert (Hcur : values (states r.1) !! key = Some cur)
    by (rewrite Hst, optimistic_values; apply lookup_insert_eq).
  assert (Hcurs : sv_Quality cur = QualityOptimistic /\ sv_Value cur = v /\ sv_PendingCommandID cur = id).
  { destruct (normalize_fields opt) as (_ & N1 & _ & _ & _ & _ & _ & _ & N2 & N3).
    subst cur. unfold id. rewrite <- Hid. destruct (normalize opt); simpl in *. by rewrite N1, N2, N3. }
  destruct Hcurs as (Hq & Hval & Hpend). split_and!.
  - exists cur. split_and!; [done|done|by rewrite Hval|done].
  - destruct (Hvals (e, c, p) Hx) as (v0 & Hrep & Hk & Hv0 & Hdec). rewrite <- Hkey in Hk.
    assert (Hv0q : sv_Quality v0 = QualityReported /\ sv_PendingCommandID v0 = "").
    { unfold reported_state in Hrep. cbn [snd] in Hrep.
      replace (d_StateTransport (incoming_device r.1 item)) with (d_StateTransport item) in Hrep
        by (destruct (incoming_shape r.1 item) as (? & ? & ? & ->); by destruct item).
      rewrite Hcloud in Hrep. simpl in Hrep.
      destruct (state_value (p_Value p)); [|done]. by injection Hrep as <-. }
    destruct Hv0q as [Hv0q Hv0p]. rewrite Hk in Hdec. rewrite Hdec.
    destruct (normalize_fields v0) as (_ & N1 & _ & _ & _ & _ & _ & _ & N2 & N3).
    unfold decided. rewrite apply_eq, Hk, Hcur. cbv zeta. unfold compareLocked.
    rewrite Hq, N2, Hv0q. simpl. rewrite lookup_insert_eq. eexists. split; [reflexivity|].
    destruct (normalize v0); simpl in *. rewrite N1, N2, N3. done.
  - intros cmd' Hc' Hlive Heq. unfold id in *. rewrite <- Hid in Hc' |- *.
    destruct (Hcmd cmd' Hc') as (Hs & _ & Hp).
    specialize (Hconf (e, c, p) (cmd_ID cmd) cmd' Hx).
    replace (pending_of (d_ID item) (e, c, p)) with (pending_key key) in Hconf by (by rewrite Hkey).
    apply Hconf; [split; [by apply Hp|done]|]. by rewrite (sr_expected _ _ Hs), Hexp.
Qed.

End Alone.

(** ** Concrete instances *)

Definition ex_request_key : Key := MkKey "lamp-1" "main" "switch" "power".
(** A Provider that takes every write, or none. *)
Definition ex_write (accepts : bool) : WriteContext (E := string) :=
  MkWriteContext (fun _ => "rejected") (fun _ => "mapping") (MkReadbackConfig [] false) None None true false
    (Some (fun _ => if accepts then Ok ex_switch else Err ErrDeviceNotFound)) true "".
Definition ex_reported : DeviceModel.Device :=
  MkDevice 1 "lamp-1" "miio" "Lamp" "" false TypeSwitch "" "" "" "" "" "" "" "" ""
    AvailabilityOnline true 2 false false RuntimeModeLocal (StateTransportOther "") ""
    [MkEndpoint "main" "Main" "switch"
       [MkCapability "switch" "switch" [with_p_Value ex_power (BoolValue true)] [] []]] 6.

Lemma ex_write_ready : write_ready ex_env ex_hub ex_request_key.
Proof.
  assert (Ht : tracker ex_hub = NewTracker 30) by (vm_compute; reflexivity).
  constructor; rewrite ?Ht; try apply new_tracker_good; try (vm_compute; congruence).
  - by exists "r"%char.
  - intros k v Hk. assert (Hall : bool_decide (map_Forall (fun _ x => sv_PendingCommandID x <> fresh_id ex_env (drawn ex_hub))
      (values (states ex_hub))) = true) by (vm_compute; reflexivity).
    exact (bool_decide_eq_true_1 _ Hall k v Hk).
Qed.


(** the lamp is switched on and reports it. *)
Lemma write_then_report_witness :
  let r := ExecuteProperty (H0 := ex_lower) ex_env (ex_write true) (fun _ s => s) ex_hub ex_request_key (BoolValue true) in
  let s' := handle_projected ex_env r.1 ex_reported "trace" snapshotTimeOriginProviderEvent in
  exists x, values (states s') !! ex_request_key = Some x /\ sv_Quality x = QualityReported /\
    Some (sv_Value x) = state_value (BoolValue true) /\ sv_PendingCommandID x = "".
Proof.
  refine (proj1 (proj2 (write_then_report (H0 := ex_lower) ex_env (fun m => range_of_some_range m) (fun m => range_of_some_range m)
    (ex_write true) ex_hub ex_request_key (BoolValue true) ex_reported
    (MkEndpoint "main" "Main" "switch" [MkCapability "switch" "switch" [with_p_Value ex_power (BoolValue true)] [] []])
    (MkCapability "switch" "switch" [with_p_Value ex_power (BoolValue true)] [] [])
    (with_p_Value ex_power (BoolValue true)) "trace" ex_write_ready _ _ _ _ _ _ _ _ _ _))).
  - vm_compute. reflexivity.
  - reflexivity.
  - vm_compute. reflexivity.
  - vm_compute. reflexivity.
  - apply validate_structure_ok. vm_compute. reflexivity.
  - vm_compute. reflexivity.
  - right. vm_compute. reflexivity.
  - vm_compute. apply list_elem_of_here.
  - reflexivity.
  - reflexivity.
Defined.
