(* ===== verification/Cron.v ===== *)
(** * Cron expressions and civil time: backend/internal/domain/aiautomation/automation.go
    (lines 236 to 340)

    The parser of five-field expressions and the test of a time against them. A
    [*time.Location] is the function that gives the offset from UTC at an instant; the
    calendar is the one of Go's [time] package. *)

From S2P Require Import Prelude Float64 DeviceModel FloatText Text.

(** ** Civil time *)

(** The offset in seconds at an instant. *)
Definition Location := Time -> Z.

Record Civil := MkCivil {
  Year : Z; YearDay : Z; Month : Z; Day : Z; Weekday : Z; Hour : Z; Minute : Z;
}.

(** The calendar: days since 1 January of the year 1, which was a Monday. *)
Definition is_leap (y : Z) : bool := (y mod 4 =? 0) && (negb (y mod 100 =? 0) || (y mod 400 =? 0)).

(** The year and the day in the year, from 0. *)
Definition year_day (days : Z) : Z * Z :=
  let n400 := days / 146097 in let d := days mod 146097 in
  let n100 := Z.min 3 (d / 36524) in let d := d - 36524 * n100 in
  let n4 := d / 1461 in let d := d mod 1461 in
  let n1 := Z.min 3 (d / 365) in
  (400 * n400 + 100 * n100 + 4 * n4 + n1 + 1, d - 365 * n1).

(** The days of a common year before each month. *)
Definition months_before : list Z := [0; 31; 59; 90; 120; 151; 181; 212; 243; 273; 304; 334].

(** [m] is the number of the last month that starts by the day. *)
Fixpoint month_from (m : Z) (starts : list Z) (day : Z) (found : Z * Z) : Z * Z :=
  match starts with
  | [] => found
  | s :: starts => month_from (m + 1) starts day (if s <=? day then (m, day - s + 1) else found)
  end.

Definition month_day (leap : bool) (yday : Z) : Z * Z :=
  if leap && (yday =? 59) then (2, 29)
  else month_from 1 months_before (if leap && (59 <? yday) then yday - 1 else yday) (1, yday + 1).

Definition seconds_of (t : Time) : Z := t / 1000000000.

(** [t.In(location)]: the fields the program reads. *)
Definition In_ (zone : Location) (t : Time) : Civil :=
  let seconds := seconds_of t + zone t in
  let days := seconds / 86400 in
  let '(y, yday) := year_day days in
  let '(m, d) := month_day (is_leap y) yday in
  MkCivil y (yday + 1) m d ((days + 1) mod 7) (seconds mod 86400 / 3600) (seconds mod 3600 / 60).

(** ** Expressions *)

Definition MaxCronExpression : Z := 120.

Record cronField := MkCronField { cf_min : Z; cf_max : Z; cf_values : gset Z }.
Definition CronExpression := list cronField.

Inductive CronError :=
| ExpressionLength | ExpressionFields | EmptyItem | InvalidStep | InvalidRange | InvalidValue | OutsideRange.

(** The base of an item and its step. *)
Definition item_step (item : string) (min max : Z) : result CronError (string * Z) :=
  match Cut "/" item with
  | None => Ok (item, 1)
  | Some (before, after) =>
      match Atoi after with
      | None => Err InvalidStep
      | Some parsed => if (parsed <? 1) || (max - min + 1 <? parsed) then Err InvalidStep else Ok (before, parsed)
      end
  end.

(** The limits of the values of an item. *)
Definition item_range (base : string) (min max : Z) : result CronError (Z * Z) :=
  if base =s "*" then Ok (min, max)
  else if Contains base "-" then
    match Cut "-" base with
    | None => Err InvalidRange
    | Some (lower_end, upper_end) =>
        match Atoi lower_end with
        | None => Err InvalidRange
        | Some start => match Atoi upper_end with
                        | None => Err InvalidRange
                        | Some stop => Ok (start, stop)
                        end
        end
    end
  else match Atoi base with
       | None => Err InvalidValue
       | Some parsed => Ok (parsed, parsed)
       end.

(** The loop over the values of an item: a step is at least 1, so [stop - start + 1] rounds are enough. *)
Fixpoint add_values (fuel : nat) (value stop step : Z) (values : gset Z) : gset Z :=
  match fuel with
  | O => values
  | S fuel => if value <=? stop then add_values fuel (value + step) stop step ({[value]} ∪ values) else values
  end.

(** The first value, the last and the step of an item. *)
Definition parse_item (min max : Z) (item : string) : result CronError (Z * Z * Z) :=
  let item := TrimSpace item in
  guard! negb (is_empty item) else EmptyItem in
  let! bs := item_step item min max in
  let! range := item_range bs.1 min max in
  guard! negb ((range.1 <? min) || (max <? range.2) || (range.2 <? range.1)) else OutsideRange in
  Ok (range.1, range.2, bs.2).

Definition add_item (min max : Z) (values : gset Z) (item : string) : result CronError (gset Z) :=
  let! r := parse_item min max item in
  let '(start, stop, step) := r in
  Ok (add_values (Z.to_nat (stop - start + 1)) start stop step values).

Definition parseCronField (raw : string) (min max : Z) : result CronError cronField :=
  let! values := each (add_item min max) ∅ (Split "," raw) in
  Ok (MkCronField min max values).

(** Day-of-week: 7 is Sunday as well. *)
Definition sunday (f : cronField) : cronField :=
  MkCronField (cf_min f) 6 (if bool_decide (7 ∈ cf_values f) then {[0]} ∪ (cf_values f ∖ {[7]}) else cf_values f).

Definition limits : list (Z * Z) := [(0, 59); (0, 23); (1, 31); (1, 12); (0, 7)].

(** One field of the expression, with the position of the field. *)
Definition parse_part (fields : list cronField) (x : string * (Z * Z)) : result CronError (list cronField) :=
  let! f := parseCronField x.1 x.2.1 x.2.2 in
  Ok (fields ++ [if (List.length fields =? 4)%nat then sunday f else f]).

Definition ParseCronExpression (expression : string) : result CronError CronExpression :=
  let expression := TrimSpace expression in
  guard! negb (is_empty expression || (MaxCronExpression <? Z.of_nat (String.length expression))) else ExpressionLength in
  let parts := Fields expression in
  guard! (List.length parts =? 5)%nat else ExpressionFields in
  each parse_part [] (combine parts limits).

Definition matches (f : cronField) (value : Z) : bool := bool_decide (value ∈ cf_values f).

Definition Matches (c : CronExpression) (t : Civil) : bool :=
  match c with
  | [minute; hour; day; month; weekday] =>
      matches minute (Minute t) && matches hour (Hour t) && matches day (Day t) && matches month (Month t) &&
      matches weekday (Weekday t)
  | _ => false
  end.

Definition CronMatches (expression : string) (t : Civil) : bool :=
  match ParseCronExpression expression with Ok parsed => Matches parsed t | Err _ => false end.

(** Every full quarter from 8 to 17 on week days; Sunday as 7; a Thursday in 2026. *)
Definition utc : Location := fun _ => 0.
Definition ex_time : Time := 63921052800 * 1000000000.
Example in_ex : In_ utc ex_time = MkCivil 2026 212 7 31 5 0 0.
Proof. vm_compute. reflexivity. Qed.
Example matches_ex :
  (fun e => CronMatches e (In_ utc ex_time)) <$> ["* * * * *"; "0 0 31 7 5"; "*/15 0-5 * 1,7 1-5"; " 0  0 * * 5,7 "; "0 0 1 * *"; "5/2 * * * *"; "0 0 * * 7"; "0 0 * 7"] =
  [true; true; true; true; false; false; false; false].
Proof. vm_compute. reflexivity. Qed.
Example errors_ex :
  (fun e => match ParseCronExpression e with Ok _ => None | Err e => Some e end) <$>
    ["* * * *"; "60 * * * *"; "*/0 * * * *"; "5-1 * * * *"; "a * * * *"; "1-b * * * *"; ",1 * * * *"; ""] =
  Some <$> [ExpressionFields; OutsideRange; InvalidStep; OutsideRange; InvalidValue; InvalidRange; EmptyItem; ExpressionLength].
Proof. vm_compute. reflexivity. Qed.

(** ** What an item denotes *)

(** The values of an arithmetic progression from [start] to [stop]. *)
Definition in_progression (start stop step v : Z) : Prop := start <= v <= stop /\ (step | v - start).

Lemma progression_step start stop step v : 1 <= step -> start <= stop ->
  in_progression start stop step v <-> v = start \/ in_progression (start + step) stop step v.
Proof.
  intros Hs Hle. unfold in_progression. split.
  - intros [Hv [k Hk]]. destruct (decide (k = 0)) as [->|Hk0]; [left; lia|right].
    assert (1 <= k) by nia. split; [nia|]. exists (k - 1). lia.
  - intros [->|[Hv [k Hk]]]; [split; [lia|exists 0; lia]|]. split; [lia|]. exists (k + 1). lia.
Qed.

Lemma elem_of_add_values fuel start stop step values v : 1 <= step -> stop - start < Z.of_nat fuel ->
  v ∈ add_values fuel start stop step values <-> v ∈ values \/ in_progression start stop step v.
Proof.
  intros Hs. revert start values. induction fuel as [|fuel IH]; intros start values Hf; simpl.
  - split; [by left|]. intros [?|[? _]]; [done|lia].
  - destruct (Z.leb_spec start stop) as [Hle|Hgt].
    + rewrite IH, (progression_step start) by lia. set_solver.
    + split; [by left|]. intros [?|[? _]]; [done|lia].
Qed.

(** The grammar of items.  The part before a step is [*], which stands for all values of the
    field, a range, or a single value; numbers are those [strconv.Atoi] reads. *)
Inductive base_denotes (min max : Z) : string -> Z -> Z -> Prop :=
| base_any : base_denotes min max "*" min max
| base_range l r a b : free_of "-" l = true -> Atoi l = Some a -> Atoi r = Some b ->
    base_denotes min max (l +:+ String "-" r) a b
| base_value s a : s <> "*" -> free_of "-" s = true -> Atoi s = Some a -> base_denotes min max s a a.

(** An item has the values from [start] on, in steps, up to [stop]. *)
Inductive item_denotes (min max : Z) : string -> Z -> Z -> Z -> Prop :=
| item_every base a b : free_of "/" base = true -> base_denotes min max base a b ->
    min <= a -> a <= b -> b <= max -> item_denotes min max base a b 1
| item_steps base s a b k : free_of "/" base = true -> base_denotes min max base a b ->
    min <= a -> a <= b -> b <= max -> Atoi s = Some k -> 1 <= k <= max - min + 1 ->
    item_denotes min max (base +:+ String "/" s) a b k.

(** The field [raw] is a list of items, separated by commas, all in the grammar. *)
Definition well_formed (raw : string) (min max : Z) : Prop :=
  forall item, item ∈ Split "," raw -> exists start stop step, item_denotes min max (TrimSpace item) start stop step.

(** It lists [v]: one of its items denotes it. *)
Definition listed (raw : string) (min max v : Z) : Prop :=
  exists item start stop step, item ∈ Split "," raw /\ item_denotes min max (TrimSpace item) start stop step /\
    in_progression start stop step v.

(** The parser reads the grammar: what it accepts is in it, and all of it is accepted. *)
Lemma item_step_denotes item min max base step : item_step item min max = Ok (base, step) ->
  free_of "/" base = true /\
  (item = base /\ step = 1 \/ exists s, item = base +:+ String "/" s /\ Atoi s = Some step /\ 1 <= step <= max - min + 1).
Proof.
  unfold item_step. pose proof (cut_spec "/" item) as Hc. destruct (Cut "/" item) as [[b a]|].
  - destruct Hc as [-> Hf]. destruct (Atoi a) as [n|] eqn:Ea; [|done]. destruct (_ || _) eqn:E; [done|].
    intros [= <- <-]. split; [done|]. right. exists a. bool_prop. split_and!; [done..|lia|lia].
  - intros [= <- <-]. split; [done|]. by left.
Qed.

Lemma item_range_iff base min max a b : item_range base min max = Ok (a, b) <-> base_denotes min max base a b.
Proof.
  unfold item_range. split.
  - case_bool_decide as Hs; [subst base; intros [= <- <-]; constructor|].
    rewrite contains_free. destruct (free_of "-" base) eqn:Hf; cbn [negb].
    + destruct (Atoi base) eqn:Ea; [|done]. intros [= <- <-]. by constructor.
    + pose proof (cut_spec "-" base) as Hc. destruct (Cut "-" base) as [[l r]|]; [|done]. destruct Hc as [-> Hl].
      destruct (Atoi l) eqn:El; [|done]. destruct (Atoi r) eqn:Er; [|done]. intros [= <- <-]. by constructor.
  - destruct 1 as [|l r a b Hl Ha Hb|s a Hs Hf Ha]; [done|..].
    + rewrite bool_decide_eq_false_2 by (by destruct l as [|c [|]]). rewrite contains_free.
      assert (free_of "-" (l +:+ String "-" r) = false) as ->.
      { unfold free_of in *. rewrite string_Forall_app, Hl. done. }
      cbn [negb]. by rewrite cut_app, Ha, Hb.
    + rewrite bool_decide_eq_false_2, contains_free, Hf by done. cbn [negb]. by rewrite Ha.
Qed.

Lemma base_nonempty min max base a b : base_denotes min max base a b -> base <> "".
Proof. intros [|l r ? ? _ _ _|s ? _ _ H]; [done|by destruct l|]. by intros ->. Qed.

Lemma parse_item_iff min max item start stop step :
  parse_item min max item = Ok (start, stop, step) <-> item_denotes min max (TrimSpace item) start stop step.
Proof.
  unfold parse_item. generalize (TrimSpace item). clear item. intros item. split.
  - destruct (negb (is_empty item)); [|done]. destruct (item_step item min max) as [[base k]|] eqn:Es; [|done].
    cbn [fst snd]. destruct (item_range base min max) as [[a b]|] eqn:Er; [|done]. cbn [fst snd].
    destruct (negb _) eqn:Hb; [|done]. intros [= <- <- <-]. bool_prop. apply item_range_iff in Er.
    apply item_step_denotes in Es as [Hf [[-> ->]|(s & -> & Ha & Hk)]]; [apply item_every|apply item_steps]; (done || lia).
  - destruct 1 as [base a b Hf Hb H1 H2 H3|base s a b k Hf Hb H1 H2 H3 Ha Hk].
    + rewrite (proj2 (is_empty_false base)) by (by eapply base_nonempty). cbn [negb].
      unfold item_step. rewrite cut_free by done. cbn [fst snd]. rewrite (proj2 (item_range_iff _ _ _ _ _) Hb). cbn [fst snd].
      by rewrite (proj2 (Z.ltb_ge a min)), (proj2 (Z.ltb_ge max b)), (proj2 (Z.ltb_ge b a)).
    + rewrite (proj2 (is_empty_false _)) by (by destruct base). cbn [negb].
      unfold item_step. rewrite cut_app by done. rewrite Ha. rewrite (proj2 (Z.ltb_ge k 1)), (proj2 (Z.ltb_ge (max - min + 1) k)) by lia.
      cbn [orb fst snd]. rewrite (proj2 (item_range_iff _ _ _ _ _) Hb). cbn [fst snd].
      by rewrite (proj2 (Z.ltb_ge a min)), (proj2 (Z.ltb_ge max b)), (proj2 (Z.ltb_ge b a)).
Qed.

Lemma denotes_limits min max item start stop step : item_denotes min max item start stop step ->
  1 <= step /\ min <= start /\ start <= stop /\ stop <= max.
Proof. destruct 1; lia. Qed.

Lemma add_item_spec min max values item :
  match add_item min max values item with
  | Ok values' => exists start stop step, item_denotes min max (TrimSpace item) start stop step /\
      forall v, v ∈ values' <-> v ∈ values \/ in_progression start stop step v
  | Err _ => forall start stop step, ~ item_denotes min max (TrimSpace item) start stop step
  end.
Proof.
  unfold add_item. destruct (parse_item min max item) as [[[a b] k]|e] eqn:E.
  - apply parse_item_iff in E. exists a, b, k. split; [done|]. intros v. apply denotes_limits in E. apply elem_of_add_values; lia.
  - intros a b k H. apply parse_item_iff in H. congruence.
Qed.

Lemma item_unique min max item a b k a' b' k' :
  item_denotes min max (TrimSpace item) a b k -> item_denotes min max (TrimSpace item) a' b' k' -> a = a' /\ b = b' /\ k = k'.
Proof. intros H H'. apply parse_item_iff in H, H'. rewrite H in H'. by injection H' as <- <- <-. Qed.

Lemma each_add_item min max items values :
  match each (add_item min max) values items with
  | Ok values' =>
      (forall item, item ∈ items -> exists start stop step, item_denotes min max (TrimSpace item) start stop step) /\
      forall v, v ∈ values' <-> v ∈ values \/ exists item start stop step, item ∈ items /\
        item_denotes min max (TrimSpace item) start stop step /\ in_progression start stop step v
  | Err _ => exists item, item ∈ items /\ forall start stop step, ~ item_denotes min max (TrimSpace item) start stop step
  end.
Proof.
  revert values. induction items as [|item items IH]; intros values; simpl.
  - split; [by intros item ?%not_elem_of_nil|]. intros v. split; [by left|].
    intros [?|(i & ? & ? & ? & Hi & _)]; [done|by apply not_elem_of_nil in Hi].
  - pose proof (add_item_spec min max values item) as Ha. destruct (add_item min max values item) as [values1|e].
    2: { exists item. split; [left|done]. }
    destruct Ha as (a & b & k & Hd & Hv). specialize (IH values1). destruct (each (add_item min max) values1 items) as [values'|e].
    2: { destruct IH as (i & Hi & H). exists i. split; [by right|done]. }
    destruct IH as [Hall Hin]. split; [intros i [->|Hi]%elem_of_cons; [by exists a, b, k|by apply Hall]|].
    intros v. rewrite Hin, Hv. setoid_rewrite elem_of_cons.
    split; [intros [[?|?]|?]; [by left|right; exists item, a, b, k; auto|right; naive_solver]|].
    intros [?|(i & a' & b' & k' & [->|Hi] & Hp' & Hpr)]; [by left; left| |right; naive_solver].
    destruct (item_unique _ _ _ _ _ _ _ _ _ Hd Hp') as (<- & <- & <-). by left; right.
Qed.

(** A field is accepted when it is well formed, and then has the values it lists. *)
Lemma field_spec raw min max :
  match parseCronField raw min max with
  | Ok f => well_formed raw min max /\ forall v, v ∈ cf_values f <-> listed raw min max v
  | Err _ => ~ well_formed raw min max
  end.
Proof.
  unfold parseCronField, well_formed, listed. pose proof (each_add_item min max (Split "," raw) ∅) as H.
  destruct (each _ ∅ _) as [values|e].
  - destruct H as [Hw Hv]. split; [exact Hw|]. intros v. cbn [cf_values]. rewrite Hv. set_solver.
  - destruct H as (item & Hi & Hn). intros Hw. destruct (Hw item Hi) as (a & b & k & H). by apply Hn in H.
Qed.

Lemma matches_sunday f v : 0 <= v < 7 -> matches (sunday f) v = true <-> v ∈ cf_values f \/ v = 0 /\ 7 ∈ cf_values f.
Proof.
  intros Hv. unfold matches, sunday. cbn [cf_values]. rewrite bool_decide_eq_true. case_bool_decide.
  - rewrite elem_of_union, elem_of_difference, !elem_of_singleton. split; [|].
    + intros [->|[? _]]; [by right|by left].
    + intros [?|[-> _]]; [right; split; [done|lia]|by left].
  - split; [by left|]. intros [?|[_ ?]]; done.
Qed.

(** The five fields and their limits. *)
Definition well_formed_fields (parts : list string) : Prop :=
  match parts with
  | [minute; hour; day; month; weekday] =>
      well_formed minute 0 59 /\ well_formed hour 0 23 /\ well_formed day 1 31 /\ well_formed month 1 12 /\
      well_formed weekday 0 7
  | _ => False
  end.

Definition fields_list (parts : list string) (now : Civil) : Prop :=
  match parts with
  | [minute; hour; day; month; weekday] =>
      listed minute 0 59 (Minute now) /\ listed hour 0 23 (Hour now) /\ listed day 1 31 (Day now) /\
      listed month 1 12 (Month now) /\ (listed weekday 0 7 (Weekday now) \/ Weekday now = 0 /\ listed weekday 0 7 7)
  | _ => False
  end.

Lemma parts_spec parts : List.length parts = 5%nat ->
  match each parse_part [] (combine parts limits) with
  | Ok c => well_formed_fields parts /\
      forall now, 0 <= Weekday now < 7 -> Matches c now = true <-> fields_list parts now
  | Err _ => ~ well_formed_fields parts
  end.
Proof.
  destruct parts as [|p1 [|p2 [|p3 [|p4 [|p5 [|]]]]]]; try done. intros _. unfold parse_part. simpl.
  pose proof (field_spec p1 0 59) as H1. destruct (parseCronField p1 0 59) as [f1|]; [|tauto]. simpl.
  pose proof (field_spec p2 0 23) as H2. destruct (parseCronField p2 0 23) as [f2|]; [|tauto]. simpl.
  pose proof (field_spec p3 1 31) as H3. destruct (parseCronField p3 1 31) as [f3|]; [|tauto]. simpl.
  pose proof (field_spec p4 1 12) as H4. destruct (parseCronField p4 1 12) as [f4|]; [|tauto]. simpl.
  pose proof (field_spec p5 0 7) as H5. destruct (parseCronField p5 0 7) as [f5|]; [|tauto]. simpl.
  destruct H1 as [W1 H1], H2 as [W2 H2], H3 as [W3 H3], H4 as [W4 H4], H5 as [W5 H5].
  split; [done|]. intros now Hw. rewrite !andb_true_iff, matches_sunday by done.
  unfold matches. rewrite !bool_decide_eq_true, H1, H2, H3, H4, !H5. tauto.
Qed.

Lemma weekday_range zone t : 0 <= Weekday (In_ zone t) < 7.
Proof.
  unfold In_. destruct (year_day _) as [y yday]. destruct (month_day _ _) as [m d]. cbn [Weekday]. apply Z.mod_pos_bound. lia.
Qed.

(** C30: a cron expression means what its fields list.  An expression is accepted exactly when
    it has 1 to 120 bytes, without the white space around it, and five fields in the grammar:
    items separated by commas, each [*], a value or a range, perhaps with a step; and an
    accepted one matches an instant exactly when the civil minute, hour, day, month and week
    day of that instant in the zone are values its fields list, 7 and 0 both meaning Sunday.
    (A single value with a step stands for the value alone.) *)
Theorem cron_matches_spec expression :
  let parts := Fields (TrimSpace expression) in
  match ParseCronExpression expression with
  | Ok c => well_formed_fields parts /\
      forall zone t, Matches c (In_ zone t) = true <-> fields_list parts (In_ zone t)
  | Err _ => ~ (TrimSpace expression <> "" /\ Z.of_nat (String.length (TrimSpace expression)) <= 120 /\ well_formed_fields parts)
  end.
Proof.
  unfold ParseCronExpression. generalize (TrimSpace expression). clear expression. intros expression.
  destruct (is_empty expression) eqn:Ee; [apply is_empty_true in Ee; subst; by intros [? _]|].
  cbn [orb]. destruct (_ <? _) eqn:El; cbn [negb]; [bool_prop; intros (_ & Hl & _); unfold MaxCronExpression in El; lia|].
  destruct (List.length (Fields expression) =? 5)%nat eqn:E5.
  - apply Nat.eqb_eq, parts_spec in E5. destruct (each _ _ _) as [c|e]; [|by intros (_ & _ & ?)].
    destruct E5 as [Hw Hm]. split; [done|]. intros zone t. apply Hm, weekday_range.
  - apply Nat.eqb_neq in E5. intros (_ & _ & Hw). apply E5.
    destruct (Fields expression) as [|? [|? [|? [|? [|? [|]]]]]]; done.
Qed.

(** ** Printing *)

Definition print_field (values : list Z) : string := Join "," (List.map show_Z values).
Definition print_cron (fields : list (list Z)) : string := Join space (List.map print_field fields).

Definition field_ok (values : list Z) (limit : Z * Z) : Prop :=
  values <> [] /\ Forall (fun v => limit.1 <= v <= limit.2) values.

(** The field with these values. *)
Definition field_of (values : list Z) (limit : Z * Z) : cronField := MkCronField limit.1 limit.2 (list_to_set values).

Lemma digit_visible c : is_digit c = true -> visible c = true /\ Ascii.eqb c "," = false /\ Ascii.eqb c "-" = false /\ Ascii.eqb c "/" = false.
Proof. by destruct c as [[] [] [] [] [] [] [] []]. Qed.

Lemma digits_free s : digits s = true ->
  string_Forall visible s = true /\ free_of "," s = true /\ free_of "-" s = true /\ free_of "/" s = true.
Proof.
  unfold digits, free_of. induction s as [|c s IH]; simpl; [done|]. intros H. bool_prop.
  destruct (digit_visible c) as (-> & -> & -> & ->); [done|]. simpl. by apply IH.
Qed.

Lemma parse_show min max n : 0 <= min -> min <= n <= max -> max < two63 -> parse_item min max (show_Z n) = Ok (n, n, 1).
Proof.
  intros H0 Hn Hm. destruct (show_Z_digits n) as [Hd Hne]; [lia|]. destruct (digits_free _ Hd) as (Hv & _ & Hdash & Hslash).
  unfold parse_item. rewrite trim_word by done. rewrite (proj2 (is_empty_false _)) by done. cbn [negb].
  unfold item_step. rewrite cut_free by done. cbn [fst snd]. unfold item_range.
  rewrite bool_decide_eq_false_2.
  - rewrite contains_free, Hdash. cbn [negb]. rewrite atoi_show by lia. cbn [fst snd].
    by rewrite (proj2 (Z.ltb_ge n min)), (proj2 (Z.ltb_ge max n)), Z.ltb_irrefl by lia.
  - intros E. rewrite E in Hd. done.
Qed.

Lemma split_print values : values <> [] -> Forall (fun v => 0 <= v) values ->
  Split "," (print_field values) = List.map show_Z values.
Proof.
  intros Hne H. apply split_join; [by destruct values|]. apply Forall_map. eapply Forall_impl; [exact H|].
  intros v Hv. by apply digits_free, show_Z_digits.
Qed.

Lemma each_show min max values acc : 0 <= min -> max < two63 -> Forall (fun v => min <= v <= max) values ->
  each (add_item min max) acc (List.map show_Z values) = Ok (list_to_set values ∪ acc).
Proof.
  intros H0 Hm H. revert acc. induction H as [|v values Hv _ IH]; intros acc; simpl.
  - f_equal. set_solver.
  - unfold add_item at 1. rewrite parse_show by done. rewrite Z.sub_diag. simpl. rewrite Z.leb_refl.
    rewrite IH. f_equal. set_solver.
Qed.

Lemma parse_print values min max : 0 <= min -> max < two63 -> field_ok values (min, max) ->
  parseCronField (print_field values) min max = Ok (field_of values (min, max)).
Proof.
  intros H0 Hm [Hne H]. unfold parseCronField. rewrite split_print; [|done|eapply Forall_impl; [exact H|]; intros x Hx; simpl in Hx; lia].
  rewrite each_show by done. unfold field_of. by rewrite (union_empty_r_L (list_to_set values)).
Qed.

Lemma forall_join P sep l : string_Forall P sep = true -> Forall (fun s => string_Forall P s = true) l ->
  string_Forall P (Join sep l) = true.
Proof.
  intros Hs H. induction H as [|s l Hw Hl IH]; [done|]. destruct l as [|s' l]; [done|].
  change (Join sep (s :: s' :: l)) with (s +:+ sep +:+ Join sep (s' :: l)). by rewrite !string_Forall_app, Hw, Hs, IH.
Qed.

Lemma print_field_word values limit : 0 <= limit.1 -> field_ok values limit -> visible_word (print_field values).
Proof.
  intros H0 [Hne H]. destruct H as [|v values Hv H]; [done|].
  assert (Forall (fun v => digits (show_Z v) = true /\ show_Z v <> "") (v :: values)) as Hd.
  { constructor; [apply show_Z_digits; simpl in Hv; lia|]. eapply Forall_impl; [exact H|]. intros x Hx. simpl in Hx. apply show_Z_digits. lia. }
  split.
  - inversion Hd as [|? ? [_ Hv'] _]. unfold print_field. simpl. destruct (List.map show_Z values); [done|].
    by destruct (show_Z v).
  - apply forall_join; [done|]. apply (Forall_map show_Z), (Forall_impl _ _ _ Hd). intros x [Hx _]. by apply digits_free.
Qed.

Lemma join_word l w : Forall visible_word (w :: l) -> exists d t, go_rev (Join space (w :: l)) = String d t /\ visible d = true.
Proof.
  revert w. induction l as [|v l IH]; intros w H; [by apply rev_word; inversion H|].
  change (Join space (w :: v :: l)) with (w +:+ String " "%char (Join space (v :: l))).
  inversion H as [|? ? _ Hl]. destruct (IH v Hl) as (d & t & E & Hd). rewrite go_rev_app, go_rev_cons, E. by exists d, ((t +:+ space) +:+ go_rev w).
Qed.

Lemma trim_words w l : Forall visible_word (w :: l) -> TrimSpace (Join space (w :: l)) = Join space (w :: l).
Proof.
  intros H. destruct (join_word l w H) as (d & t & E & Hd). inversion H as [|? ? [Hne Hw] _]. subst.
  destruct w as [|c w]; [done|]. simpl in Hw. bool_prop.
  assert (exists s, Join space (String c w :: l) = String c s) as [s Es] by (destruct l; eexists; reflexivity).
  rewrite Es in E |- *. by apply (trim_visible c d s t).
Qed.

(** every calendar can be written down: five non-empty lists of values within the
    limits of their fields, printed with commas and spaces in at most 120 bytes, are
    accepted and read back as exactly those values (7 becoming 0 for Sunday). *)
Theorem cron_roundtrip minutes hours days months weekdays :
  let fields := [minutes; hours; days; months; weekdays] in
  Forall2 field_ok fields limits -> Z.of_nat (String.length (print_cron fields)) <= MaxCronExpression ->
  ParseCronExpression (print_cron fields) =
    Ok [field_of minutes (0, 59); field_of hours (0, 23); field_of days (1, 31); field_of months (1, 12);
        sunday (field_of weekdays (0, 7))].
Proof.
  intros fields H Hlen. assert (Hw : Forall visible_word (List.map print_field fields)).
  { apply Forall_map. unfold fields in *. repeat (apply Forall2_cons in H as [? H]).
    repeat constructor; (eapply print_field_word; [|eassumption]; simpl; lia). }
  unfold ParseCronExpression, print_cron in *. fold fields. simpl List.map in *.
  rewrite trim_words by done. destruct (is_empty _) eqn:Ee.
  { apply is_empty_true in Ee. inversion Hw as [|? ? [Hne _] _]. subst.
    exfalso. revert Ee. by destruct (print_field minutes). }
  rewrite (proj2 (Z.ltb_ge _ _)) by done. cbn [orb negb]. unfold Fields. rewrite fields_join by (done || lia).
  cbn [List.length Nat.eqb]. unfold fields in H. repeat (apply Forall2_cons in H as [? H]).
  simpl combine. unfold parse_part. cbn [each fst snd].
  rewrite (parse_print minutes 0 59), (parse_print hours 0 23), (parse_print days 1 31),
    (parse_print months 1 12), (parse_print weekdays 0 7) by (done || unfold two63; lia).
  done.
Qed.

Lemma cron_roundtrip_witness :
  ParseCronExpression "0,30 7 1,15 1,6 5,7" =
    Ok [field_of [0; 30] (0, 59); field_of [7] (0, 23); field_of [1; 15] (1, 31); field_of [1; 6] (1, 12);
        sunday (field_of [5; 7] (0, 7))].
Proof.
  apply (cron_roundtrip [0; 30] [7] [1; 15] [1; 6] [5; 7]).
  - repeat (apply Forall2_cons; split; [split; [done|repeat (apply Forall_cons_2; [simpl; lia|]); by apply Forall_nil_2]|]).
    apply Forall2_nil_2.
  - vm_compute. discriminate.
Defined.
