(* ===== verification/AgentAccess.v ===== *)
(** * What the AI Agent may see and write: backend/internal/domain/mcp/config.go,
    application/mcp_config_service.go, mcp_tool_service.go, mcpbridge/gateway.go and
    persistence/gormstore/mcp_configs.go

    The access an administrator grants to devices and properties, the read model the Agent
    gets, and the gateway through which it writes. A [domainmcp.PropertyPath] has the
    fields of a state key and is compared as one. *)

From S2P Require Import Prelude Float64 DomainState StateStore CommandTracker DeviceRegistry.
From S2P Require Import DeviceModel ModelContract LogicalDevice LogicalRuntime MappingProfile DeviceProjection DeviceService PropertyWrite Text.

(** ** Grants *)

Definition MaxUsageNoteRunes : Z := 1000.

Definition Access := string.
Definition AccessHidden : Access := "hidden".
Definition AccessRead : Access := "read".
Definition AccessConfirm : Access := "confirm".
Definition AccessInherit : Access := "inherit".

Inductive ConfigError := BadPath | BadDeviceID | BadDefaultAccess | BadAccess | NoteTooLong | UnattendedNeedsConfirm.

Definition path_Validate (p : Key) : result ConfigError unit :=
  if ValidStableID (DeviceID p) && ValidStableID (EndpointID p) && ValidStableID (CapabilityID p) && ValidStableID (PropertyID p)
  then Ok tt else Err BadPath.

Record DeviceConfig := MkDeviceConfig {
  dc_DeviceID : string; dc_Enabled : bool; dc_UsageNote : string; dc_DefaultAccess : Access;
}.

Definition normalize_device (c : DeviceConfig) : DeviceConfig :=
  MkDeviceConfig (TrimSpace (dc_DeviceID c)) (dc_Enabled c) (TrimSpace (dc_UsageNote c))
    (if is_empty (dc_DefaultAccess c) then AccessHidden else dc_DefaultAccess c).

Definition validate_device (c : DeviceConfig) : result ConfigError unit :=
  let c := normalize_device c in
  guard! ValidStableID (dc_DeviceID c) else BadDeviceID in
  guard! negb (negb (dc_DefaultAccess c =s AccessHidden) && negb (dc_DefaultAccess c =s AccessRead) &&
               negb (dc_DefaultAccess c =s AccessConfirm)) else BadDefaultAccess in
  guard! negb (MaxUsageNoteRunes <? RuneCountInString (dc_UsageNote c)) else NoteTooLong in
  Ok tt.

Record PropertyConfig := MkPropertyConfig {
  pc_Path : Key; pc_UsageNote : string; pc_Access : Access; pc_AllowUnattendedAI : bool;
}.

Definition trim_path (p : Key) : Key :=
  MkKey (TrimSpace (DeviceID p)) (TrimSpace (EndpointID p)) (TrimSpace (CapabilityID p)) (TrimSpace (PropertyID p)).

Definition normalize_property_config (c : PropertyConfig) : PropertyConfig :=
  MkPropertyConfig (trim_path (pc_Path c)) (TrimSpace (pc_UsageNote c))
    (if is_empty (pc_Access c) then AccessInherit else pc_Access c) (pc_AllowUnattendedAI c).

Definition validate_property_config (c : PropertyConfig) : result ConfigError unit :=
  let c := normalize_property_config c in
  check! path_Validate (pc_Path c) in
  guard! negb (negb (pc_Access c =s AccessInherit) && negb (pc_Access c =s AccessHidden) && negb (pc_Access c =s AccessRead) &&
               negb (pc_Access c =s AccessConfirm)) else BadAccess in
  guard! negb (MaxUsageNoteRunes <? RuneCountInString (pc_UsageNote c)) else NoteTooLong in
  Ok tt.

Record EffectivePropertyConfig := MkEffective {
  ef_Config : PropertyConfig; ef_Enabled : bool; ef_Access : Access; ef_UnattendedAIAllowed : bool;
}.

Definition Effective (d : DeviceConfig) (p : PropertyConfig) : EffectivePropertyConfig :=
  let d := normalize_device d in
  let p := normalize_property_config p in
  let access := if pc_Access p =s AccessInherit then dc_DefaultAccess d else pc_Access p in
  let access := if dc_Enabled d then access else AccessHidden in
  MkEffective p (dc_Enabled d) access (pc_AllowUnattendedAI p && (access =s AccessConfirm)).

(** ** Storage *)

Record McpTables := MkMcpTables { device_configs : gmap string DeviceConfig; property_configs : gmap Key PropertyConfig }.

(** The statements of the tables; [None] is a failure of the database, which changes nothing. *)
Record MCPConfigStore := MkMcpStore {
  GetMCPDeviceConfig : McpTables -> string -> option (option DeviceConfig);
  SaveMCPDeviceConfig : McpTables -> DeviceConfig -> option McpTables;
  ListMCPPropertyConfigs : McpTables -> string -> option (list PropertyConfig);
  GetMCPPropertyConfig : McpTables -> Key -> option (option PropertyConfig);
  SaveMCPPropertyConfig : McpTables -> PropertyConfig -> option McpTables;
  DeleteMCPPropertyConfig : McpTables -> Key -> option McpTables;
}.

Definition config_le (a b : PropertyConfig) : Prop := key_less (pc_Path b) (pc_Path a) = false.
#[local] Instance config_le_dec : RelDecision config_le.
Proof. intros a b. unfold config_le. apply _. Defined.

(** The rows of a device, by their path. *)
Definition property_rows (t : McpTables) (deviceID : string) : list PropertyConfig :=
  merge_sort config_le (List.map (fun kv => normalize_property_config kv.2)
    (List.filter (fun kv => DeviceID kv.1 =s deviceID) (map_to_list (property_configs t)))).

(** The tables of the database. *)
Definition gorm_store : MCPConfigStore :=
  MkMcpStore
    (fun t id => Some (normalize_device <$> device_configs t !! id))
    (fun t c => let c := normalize_device c in
                Some (MkMcpTables (<[dc_DeviceID c := c]> (device_configs t)) (property_configs t)))
    (fun t id => Some (property_rows t id))
    (fun t p => Some (normalize_property_config <$> property_configs t !! p))
    (fun t c => let c := normalize_property_config c in
                Some (MkMcpTables (device_configs t) (<[pc_Path c := c]> (property_configs t))))
    (fun t p => Some (MkMcpTables (device_configs t) (delete p (property_configs t)))).

(** ** The service of grants *)

Inductive AccessError :=
| InvalidConfig (e : ConfigError)
| MCPDeviceNotFound
| MCPPropertyNotFound
| MCPAccessDenied
| StoreFailed.

Definition config_error {A} (r : result ConfigError A) : result AccessError A :=
  match r with Ok x => Ok x | Err e => Err (InvalidConfig e) end.
Definition stored {A} (r : option A) : result AccessError A :=
  match r with Some x => Ok x | None => Err StoreFailed end.

Section Grants.
Variable store : MCPConfigStore.
(** [s.devices.List]. *)
Variable items : list DeviceModel.Device.
Implicit Types (t : McpTables) (p : Key) (id : string).

Definition hasDevice id : bool := existsb (fun item => (d_ID item =s id) && negb (d_Removed item)) items.

(** The first device with the identifier that is not removed decides. *)
Definition hasProperty p : bool :=
  match first (fun item => if (d_ID item =s DeviceID p) && negb (d_Removed item) then Some item else None) items with
  | None => false
  | Some item => present (PropertyAt item (EndpointID p) (CapabilityID p) (PropertyID p))
  end.

Definition Device_ t id : result AccessError DeviceConfig :=
  guard! hasDevice id else MCPDeviceNotFound in
  let! config := stored (GetMCPDeviceConfig store t id) in
  Ok (match config with
      | None => MkDeviceConfig id false "" AccessHidden
      | Some config => normalize_device config
      end).

Definition SaveDevice t (config : DeviceConfig) : result AccessError (McpTables * DeviceConfig) :=
  let config := normalize_device config in
  check! config_error (validate_device config) in
  guard! hasDevice (dc_DeviceID config) else MCPDeviceNotFound in
  let! t := stored (SaveMCPDeviceConfig store t config) in Ok (t, config).

Definition Properties t id : result AccessError (list PropertyConfig) :=
  guard! hasDevice id else MCPDeviceNotFound in stored (ListMCPPropertyConfigs store t id).

Definition SaveProperty t (config : PropertyConfig) : result AccessError (McpTables * PropertyConfig) :=
  let config := normalize_property_config config in
  check! config_error (validate_property_config config) in
  guard! hasProperty (pc_Path config) else MCPPropertyNotFound in
  check! (if pc_AllowUnattendedAI config then
            let! d := Device_ t (DeviceID (pc_Path config)) in
            guard! ef_Access (Effective d config) =s AccessConfirm else InvalidConfig UnattendedNeedsConfirm in Ok tt
          else Ok tt) in
  let! t := stored (SaveMCPPropertyConfig store t config) in Ok (t, config).

Definition DeleteProperty t p : result AccessError McpTables :=
  check! config_error (path_Validate p) in
  guard! hasProperty p else MCPPropertyNotFound in
  stored (DeleteMCPPropertyConfig store t p).

Definition EffectiveProperty t p : result AccessError EffectivePropertyConfig :=
  guard! hasProperty p else MCPPropertyNotFound in
  let! d := Device_ t (DeviceID p) in
  let! found := stored (GetMCPPropertyConfig store t p) in
  Ok (Effective d (default (MkPropertyConfig p "" AccessInherit false) found)).

(** ** The read model of the Agent *)

Record MCPProperty := MkMCPProperty {
  ap_Path : Key; ap_Name : string; ap_Type : ValueType; ap_Unit : string; ap_Readable : bool; ap_Writable : bool;
  ap_Access : Access; ap_UsageNote : string;
}.
Record MCPDevice := MkMCPDevice {
  ad_ID : string; ad_Name : string; ad_Type : Type_; ad_HomeName : string; ad_RoomName : string; ad_Online : bool;
  ad_UsageNote : string; ad_Properties : list MCPProperty;
}.

Definition joined_path (p : Key) : string := EndpointID p +:+ nul +:+ CapabilityID p +:+ nul +:+ PropertyID p.
Definition mcp_property_le (a b : MCPProperty) : Prop := str_leb (joined_path (ap_Path a)) (joined_path (ap_Path b)) = true.
#[local] Instance mcp_property_le_dec : RelDecision mcp_property_le.
Proof. intros a b. unfold mcp_property_le. apply _. Defined.
Definition mcp_device_le (a b : MCPDevice) : Prop := str_leb (ad_ID a) (ad_ID b) = true.
#[local] Instance mcp_device_le_dec : RelDecision mcp_device_le.
Proof. intros a b. unfold mcp_device_le. apply _. Defined.

Definition override_by_path (overrides : list PropertyConfig) : gmap Key PropertyConfig :=
  fold_left (fun m o => <[pc_Path o := o]> m) overrides ∅.

(** A property of the device when its access is not hidden. *)
Definition expose_property (config : DeviceConfig) (overrides : gmap Key PropertyConfig) (deviceID : string)
    (x : Endpoint * Capability * Property) : option MCPProperty :=
  let '(e, c, property) := x in
  let d := p_Definition property in
  let path := MkKey deviceID (ep_ID e) (cap_ID c) (pd_ID d) in
  let effective := Effective config (default (MkPropertyConfig path "" AccessInherit false) (overrides !! path)) in
  if ef_Access effective =s AccessHidden then None
  else Some (MkMCPProperty path (pd_Name d) (pd_Type d) (pd_Unit d) (pd_Readable d) (pd_Writable d)
               (ef_Access effective) (pc_UsageNote (ef_Config effective))).

(** [None] when the device is not visible. *)
Definition exposeDevice t (item : DeviceModel.Device) : result AccessError (option MCPDevice) :=
  let! config := Device_ t (d_ID item) in
  if negb (dc_Enabled config) then Ok None
  else
    let! overrides := Properties t (d_ID item) in
    match omap (expose_property config (override_by_path overrides) (d_ID item)) (source_properties item) with
    | [] => Ok None
    | properties => Ok (Some (MkMCPDevice (d_ID item) (d_Name item) (d_Type item) (d_HomeName item) (d_RoomName item)
                                (IsOnline item) (dc_UsageNote config) (merge_sort mcp_property_le properties)))
    end.

Definition list_device t (l : list MCPDevice) (item : DeviceModel.Device) : result AccessError (list MCPDevice) :=
  if d_Removed item || d_Disabled item then Ok l
  else let! entry := exposeDevice t item in Ok (match entry with Some entry => l ++ [entry] | None => l end).

Definition ListDevices t : result AccessError (list MCPDevice) :=
  let! l := each (list_device t) [] items in Ok (merge_sort mcp_device_le l).

(** [states] is [s.devices.States (deviceID)]. *)
Definition DeviceState t (states : list StateValue) id : result AccessError (MCPDevice * list StateValue) :=
  match first (fun item => if negb (d_ID item =s id) || d_Removed item || d_Disabled item then None else Some item) items with
  | None => Err MCPDeviceNotFound
  | Some item =>
      let! entry := exposeDevice t item in
      match entry with
      | None => Err MCPAccessDenied
      | Some entry =>
          let allowed : gset Key := list_to_set (List.map ap_Path (ad_Properties entry)) in
          Ok (entry, List.filter (fun state => bool_decide (sv_Key state ∈ allowed)) states)
      end
  end.

Definition PropertyAccess t p : result AccessError EffectivePropertyConfig :=
  let! effective := EffectiveProperty t p in
  guard! negb (ef_Access effective =s AccessHidden) else MCPAccessDenied in
  Ok effective.

End Grants.

(** ** The gateway *)

Record AIExecutionMetadata := MkMetadata {
  ai_RunID : string; ai_Source : string; ai_AutomationID : string; ai_AutomationName : string; ai_AutoApproved : bool;
}.
Record GatewayWrite := MkGatewayWrite {
  gw_Path : Key; gw_Value : PropertyValue; gw_ExpectedStateVersion : option Z; gw_AIExecution : option AIExecutionMetadata;
}.

Inductive GatewayError (E : Type) :=
| AccessFailure (e : AccessError)
| GatewayAccessDenied
| StateChanged
| WriteFailure (e : ServiceError E).
Arguments AccessFailure {E} e. Arguments GatewayAccessDenied {E}. Arguments StateChanged {E}. Arguments WriteFailure {E} e.

Definition access {E A} (r : result AccessError A) : result (GatewayError E) A :=
  match r with Ok x => Ok x | Err e => Err (AccessFailure e) end.

Definition stateVersionMatches (states : list StateValue) (path : Key) (version : Z) : bool :=
  match first (fun state => if bool_decide (sv_Key state = path) then Some state else None) states with
  | Some state => sv_Version state =? version
  | None => false
  end.

(** The record of the audit log. *)
Record AuditEvent := MkAuditEvent {
  ev_ResourceID : string; ev_Status : Z; ev_Succeeded : bool; ev_Details : list (string * string);
}.

Definition detail (label value : string) : list (string * string) := if is_empty value then [] else [(label, value)].

Definition audit_event (input : GatewayWrite) (succeeded : bool) : AuditEvent :=
  let p := gw_Path input in
  MkAuditEvent (DeviceID p +:+ "/" +:+ EndpointID p +:+ "/" +:+ CapabilityID p +:+ "/" +:+ PropertyID p)
    (if succeeded then 200 else 409) succeeded
    ((if succeeded then [("command", "accepted")] else []) ++
     match gw_AIExecution input with
     | None => []
     | Some m => detail "agent_run" (ai_RunID m) ++ detail "automation" (ai_AutomationID m) ++
                 detail "automation_name" (ai_AutomationName m) ++ detail "source" (ai_Source m) ++
                 (if ai_AutoApproved m then [("approval", "unattended")] else [])
     end).

(** The audit service, when the gateway has one: what its log becomes with another event;
    [None] is a failure of its store. *)
Definition AuditService := option (list AuditEvent -> AuditEvent -> option (list AuditEvent)).

Definition record (audit : AuditService) (log : list AuditEvent) (event : AuditEvent) : list AuditEvent :=
  match audit with
  | None => log
  | Some append => default log (append log event)
  end.

Section Gateway.
Context {R E : Type} `{PriorityResolver R} `{UnicodeLower}.
Implicit Type s : DeviceService R E.
Variable env : Environment.
Variable store : MCPConfigStore.
Variable audit : AuditService.

Definition List s : list DeviceModel.Device :=
  List_ (registry s) (some_range (devices (registry s))).

Definition States s (deviceID : string) : DeviceService R E * list StateValue :=
  let '(s, now) := time_now env s in
  let '(st, _) := MarkStale (states s) (keys env s) now in
  let s := set_states s st in
  (s, StateStore.Device st (keys env s) deviceID).

(** The grant of a write. *)
Definition check_grant s (t : McpTables) (input : GatewayWrite) : result (GatewayError E) unit :=
  match (let! _ := config_error (path_Validate (gw_Path input)) in PropertyAccess store (List s) t (gw_Path input)) with
  | Err e => Err (AccessFailure e)
  | Ok effective =>
      if negb (ef_Access effective =s AccessConfirm) then Err GatewayAccessDenied
      else if match gw_AIExecution input with Some m => ai_AutoApproved m | None => false end &&
              negb (ef_UnattendedAIAllowed effective) then Err GatewayAccessDenied
      else Ok tt
  end.

(** The version of the state the action was planned for. *)
Definition check_version s (input : GatewayWrite) : DeviceService R E * result (GatewayError E) unit :=
  match gw_ExpectedStateVersion input with
  | None => (s, Ok tt)
  | Some version =>
      let '(s, states) := States s (DeviceID (gw_Path input)) in
      if stateVersionMatches states (gw_Path input) version then (s, Ok tt) else (s, Err StateChanged)
  end.

(** The write of a request that passed both. *)
Definition send_write (w : WriteContext) (between : nat -> DeviceService R E -> DeviceService R E) s (input : GatewayWrite)
    : DeviceService R E * result (GatewayError E) (DeviceModel.Device * Command) :=
  let '(s, (item, command, err)) := ExecuteProperty env w between s (gw_Path input) (gw_Value input) in
  (s, match err with Some e => Err (WriteFailure e) | None => Ok (item, command) end).

(** Nothing is locked in between: [between 3] is what the rest of the service does after the
    grant is read, [between 4] what it does after the version is. *)
Definition executeProperty (w : WriteContext) (between : nat -> DeviceService R E -> DeviceService R E) s
    (log : list AuditEvent) (t : McpTables) (input : GatewayWrite)
    : DeviceService R E * result (GatewayError E) (DeviceModel.Device * Command) * list AuditEvent :=
  let '(s, r) :=
    match check_grant s t input with
    | Err e => (s, Err e)
    | Ok _ =>
        match check_version (between 3%nat s) input with
        | (s, Err e) => (s, Err e)
        | (s, Ok _) => send_write w between (between 4%nat s) input
        end
    end in
  (s, r, record audit log (audit_event input (is_ok r))).

(** Requests with their parameters decoded. *)
Inductive GatewayRequest :=
| RequestListDevices | RequestDeviceState (deviceID : string) | RequestExecuteProperty (input : GatewayWrite)
| RequestMalformed | RequestUnsupported.
Inductive GatewayAnswer :=
| AnswerDevices (l : list MCPDevice) | AnswerState (d : MCPDevice) (states : list StateValue)
| AnswerWritten (d : DeviceModel.Device) (c : Command)
| AnswerError (code : string).

Definition errorFor (e : GatewayError E) : GatewayAnswer :=
  AnswerError
    (match e with
     | AccessFailure MCPDeviceNotFound | AccessFailure MCPPropertyNotFound => "not_found"
     | AccessFailure MCPAccessDenied | GatewayAccessDenied => "access_denied"
     | StateChanged => "state_changed"
     | AccessFailure (InvalidConfig _) => "invalid_request"
     | AccessFailure StoreFailed | WriteFailure _ => "operation_failed"
     end).

Definition ProtocolVersion : string := "1".

Definition Handle (w : WriteContext) (between : nat -> DeviceService R E -> DeviceService R E) s
    (log : list AuditEvent) (t : McpTables) (version id : string) (request : GatewayRequest)
    : DeviceService R E * GatewayAnswer * list AuditEvent :=
  if negb (version =s ProtocolVersion) || is_empty id then (s, AnswerError "invalid_request", log)
  else match request with
       | RequestListDevices =>
           (s, match ListDevices store (List s) t with Ok l => AnswerDevices l | Err e => errorFor (AccessFailure e) end, log)
       | RequestDeviceState deviceID =>
           let '(s', states) := States s deviceID in
           match DeviceState store (List s) t states deviceID with
           | Ok (d, l) => (s', AnswerState d l, log)
           | Err e => (s, errorFor (AccessFailure e), log)
           end
       | RequestExecuteProperty input =>
           let '(s, r, log) := executeProperty w between s log t input in
           (s, match r with Ok (d, c) => AnswerWritten d c | Err e => errorFor e end, log)
       | RequestMalformed => (s, AnswerError "operation_failed", log)
       | RequestUnsupported => (s, AnswerError "method_not_found", log)
       end.

End Gateway.

(** ** The grant of a property *)

(** The access the tables grant to a path: what the read model shows and the gateway checks. *)
Definition grant (t : McpTables) (p : Key) : EffectivePropertyConfig :=
  Effective (default (MkDeviceConfig (DeviceID p) false "" AccessHidden) (device_configs t !! DeviceID p))
    (default (MkPropertyConfig p "" AccessInherit false) (property_configs t !! p)).

(** What that is, in the words of the administrator: nothing is granted on a device without
    a row or one that is not enabled; a row of the property decides when it names an access,
    and otherwise (no row, "inherit" or nothing) the default of the device does. *)
Definition names_access (a : Access) : Prop := a <> "" /\ a <> AccessInherit.
Definition property_names (t : McpTables) (p : Key) (a : Access) : Prop :=
  exists c, property_configs t !! p = Some c /\ pc_Access c = a /\ names_access a.

Definition granted (t : McpTables) (p : Key) (a : Access) : Prop :=
  a <> AccessHidden /\
  exists d, device_configs t !! DeviceID p = Some d /\ dc_Enabled d = true /\
    (property_names t p a \/
     (forall b, ~ property_names t p b) /\ a <> "" /\ dc_DefaultAccess d = a).

Lemma names_access_dec (a : Access) : names_access a \/ (a = "" \/ a = AccessInherit).
Proof. unfold names_access. destruct (decide (a = "")), (decide (a = AccessInherit)); tauto. Qed.

Lemma Effective_named d c a : dc_Enabled d = true -> pc_Access c = a -> names_access a -> ef_Access (Effective d c) = a.
Proof.
  intros He <- [Hn Hi]. unfold Effective. cbn. by rewrite He, (proj2 (is_empty_false _) Hn), bool_decide_eq_false_2.
Qed.

Lemma Effective_default d c a : dc_Enabled d = true -> ~ names_access (pc_Access c) -> a <> AccessHidden ->
  ef_Access (Effective d c) = a <-> a <> "" /\ dc_DefaultAccess d = a.
Proof.
  intros He Hn Ha. assert (E : ef_Access (Effective d c) = dc_DefaultAccess (normalize_device d)).
  { unfold Effective. cbn. rewrite He. destruct (names_access_dec (pc_Access c)) as [?|[->| ->]]; done. }
  rewrite E. cbn. destruct (is_empty (dc_DefaultAccess d)) eqn:Ed.
  - apply is_empty_true in Ed. rewrite Ed. split; [by intros <-|intros [? <-]; done].
  - apply is_empty_false in Ed. split; [by intros <-|by intros [_ ?]].
Qed.

Lemma granted_iff t p a : granted t p a <-> a <> AccessHidden /\ ef_Access (grant t p) = a.
Proof.
  unfold granted, property_names, grant. destruct (decide (a = AccessHidden)) as [->|Ha]; [naive_solver|].
  apply (and_iff_compat_l (a <> AccessHidden)).
  destruct (device_configs t !! DeviceID p) as [d|]; cbn [default Datatypes.id].
  2: { split; [by intros (? & ? & _)|]. by intros <-. }
  destruct (dc_Enabled d) eqn:He.
  2: { split; [intros (? & [= <-] & ? & _); congruence|]. unfold Effective. cbn. rewrite He. by intros <-. }
  set (c := default _ (property_configs t !! p)).
  assert (Hc : forall b, (exists c', property_configs t !! p = Some c' /\ pc_Access c' = b /\ names_access b) <->
    pc_Access c = b /\ names_access b).
  { intros b. subst c. destruct (property_configs t !! p) as [c|]; cbn; [naive_solver|].
    split; [naive_solver|]. by intros [<- [_ []]]. }
  setoid_rewrite Hc. destruct (names_access_dec (pc_Access c)) as [Hn|Hn].
  - rewrite (Effective_named d c _ He eq_refl Hn). split; [|intros <-; exists d; split_and!; [done..|by left]].
    intros (? & _ & _ & [[? _]|[Hno _]]); [done|]. by destruct (Hno (pc_Access c)).
  - assert (Hno : ~ names_access (pc_Access c)) by (intros [? ?]; by destruct Hn).
    rewrite (Effective_default d c a He Hno Ha). split.
    + intros (? & [= <-] & _ & [[<- ?]|(_ & ? & ?)]); done.
    + intros [? ?]. exists d. split_and!; [done..|]. right. split_and!; [by intros b [<- ?]|done..].
Qed.

(** Rows are kept under their valid path. *)
Definition tables_wf (t : McpTables) : Prop :=
  forall k c, property_configs t !! k = Some c -> pc_Path c = k /\ path_Validate k = Ok tt.

Lemma id_char_visible c : id_char c = true -> visible c = true.
Proof. by destruct c as [[] [] [] [] [] [] [] []]. Qed.

Lemma id_alnum_visible c : id_alnum c = true -> visible c = true.
Proof. intros H. apply id_char_visible. unfold id_char. by rewrite H. Qed.

Lemma id_tail_visible n s : id_tail n s = true -> string_Forall visible s = true.
Proof.
  revert n. induction s as [|c s IH]; intros n H; [done|].
  assert (id_alnum c && is_empty s = true \/ exists m, id_char c && id_tail m s = true) as [H'|[m H']].
  { destruct n as [|n]; cbn [id_tail] in H; apply orb_true_iff in H as [H|H]; try discriminate H; eauto. }
  - bool_prop. destruct s; [|done]. simpl. by rewrite id_alnum_visible.
  - bool_prop. simpl. rewrite id_char_visible by done. eauto.
Qed.

Lemma stable_word s : ValidStableID s = true -> visible_word s.
Proof.
  destruct s as [|c s]; [done|]. unfold ValidStableID. intros H. split; [done|]. cbn [string_Forall].
  apply andb_true_iff in H as [Hc H]. rewrite id_alnum_visible by done. cbn [andb]. apply orb_true_iff in H as [H|H].
  - by destruct s.
  - by eapply id_tail_visible.
Qed.

Lemma trim_valid_path p : path_Validate p = Ok tt -> trim_path p = p.
Proof.
  unfold path_Validate, trim_path. destruct p as [d e c x]. simpl. destruct (_ && _) eqn:E; [|done]. intros _.
  bool_prop. by rewrite !trim_word by (by apply stable_word).
Qed.

(** Normalising a stored row again does not change the access. *)
Lemma or_else_idem (a b : string) : (if is_empty (if is_empty a then b else a) then b else (if is_empty a then b else a)) = if is_empty a then b else a.
Proof. destruct a; simpl; [by destruct b|done]. Qed.

Lemma effective_rows d p : ef_Access (Effective (normalize_device d) (normalize_property_config p)) = ef_Access (Effective d p) /\
  ef_UnattendedAIAllowed (Effective (normalize_device d) (normalize_property_config p)) = ef_UnattendedAIAllowed (Effective d p).
Proof. unfold Effective. simpl. by rewrite !or_else_idem. Qed.

Lemma effective_row d p : ef_Access (Effective (normalize_device d) p) = ef_Access (Effective d p) /\
  ef_UnattendedAIAllowed (Effective (normalize_device d) p) = ef_UnattendedAIAllowed (Effective d p).
Proof. unfold Effective. simpl. by rewrite !or_else_idem. Qed.

Section GrantLemmas.
Variable items : list DeviceModel.Device.
Implicit Types (t : McpTables) (p : Key).

Lemma device_grant t id : hasDevice items id = true ->
  Device_ gorm_store items t id =
    Ok (match device_configs t !! id with
        | Some d => normalize_device (normalize_device d)
        | None => MkDeviceConfig id false "" AccessHidden end).
Proof. intros H. unfold Device_. rewrite H. simpl. by destruct (device_configs t !! id). Qed.

Lemma present_first {A} (f : A -> bool) l :
  existsb f l = present (first (fun x => if f x then Some x else None) l).
Proof. induction l as [|x l IH]; [done|]. simpl. by destruct (f x). Qed.

Lemma property_device p : hasProperty items p = true -> hasDevice items (DeviceID p) = true.
Proof. unfold hasProperty, hasDevice. rewrite present_first. by destruct (first _ _). Qed.

(** What the service answers is the grant of the tables. *)
Lemma effective_property_grant t p : hasProperty items p = true ->
  exists ef, EffectiveProperty gorm_store items t p = Ok ef /\ ef_Access ef = ef_Access (grant t p) /\
    ef_UnattendedAIAllowed ef = ef_UnattendedAIAllowed (grant t p).
Proof.
  intros H. unfold EffectiveProperty. rewrite H, device_grant by (by apply property_device). simpl. eexists. split; [done|].
  unfold grant. destruct (device_configs t !! DeviceID p) as [d|]; destruct (property_configs t !! p) as [c|]; simpl;
    by rewrite ?or_else_idem.
Qed.

Lemma access_reads t p ef : PropertyAccess gorm_store items t p = Ok ef ->
  hasProperty items p = true /\ ef_Access ef = ef_Access (grant t p) /\
  ef_UnattendedAIAllowed ef = ef_UnattendedAIAllowed (grant t p) /\ ef_Access (grant t p) <> AccessHidden.
Proof.
  unfold PropertyAccess. destruct (hasProperty items p) eqn:Hp.
  - destruct (effective_property_grant t p Hp) as (e & -> & Ea & Eu). destruct (negb _) eqn:Eh; [|done].
    intros [= <-]. bool_prop. by rewrite <- Ea.
  - unfold EffectiveProperty. by rewrite Hp.
Qed.

End GrantLemmas.

(** ** What the Agent sees *)

Lemma fold_insert_some {K V} `{Countable K} (key : V -> K) (l : list V) (m : gmap K V) k v :
  (forall o, o ∈ l -> key o = k -> o = v) -> v ∈ l -> key v = k ->
  fold_left (fun m o => <[key o := o]> m) l m !! k = Some v.
Proof.
  intros Hf. assert (Hkeep : forall l' (m' : gmap K V), (forall o, o ∈ l' -> key o = k -> o = v) -> m' !! k = Some v ->
    fold_left (fun m o => <[key o := o]> m) l' m' !! k = Some v).
  { clear. intros l'. induction l' as [|o l' IH]; intros m' Hf Hm; [done|]. simpl. apply IH; [set_solver|].
    destruct (decide (key o = k)) as [E|E]; [|by rewrite lookup_insert_ne].
    rewrite (Hf o) by set_solver. rewrite (Hf o) in E by set_solver. by rewrite E, lookup_insert_eq. }
  revert m Hf. induction l as [|o l IH]; intros m Hf Hv Hk; [by apply not_elem_of_nil in Hv|].
  apply elem_of_cons in Hv as [->|Hv].
  - simpl. apply Hkeep; [set_solver|]. by rewrite <- Hk, lookup_insert_eq.
  - simpl. apply IH; [set_solver|done..].
Qed.

Lemma fold_insert_none {K V} `{Countable K} (key : V -> K) (l : list V) (m : gmap K V) k :
  (forall o, o ∈ l -> key o <> k) -> fold_left (fun m o => <[key o := o]> m) l m !! k = m !! k.
Proof.
  revert m. induction l as [|o l IH]; intros m Hf; [done|]. simpl. rewrite IH by set_solver.
  apply lookup_insert_ne. set_solver.
Qed.

Section Views.
Variable items : list DeviceModel.Device.
Variable t : McpTables.
Hypothesis Ht : tables_wf t.
Implicit Types (p : Key) (item : DeviceModel.Device).

Lemma elem_of_property_rows id o : o ∈ property_rows t id <->
  exists k c, property_configs t !! k = Some c /\ DeviceID k = id /\ o = normalize_property_config c.
Proof.
  unfold property_rows. rewrite (merge_sort_Permutation _ _). rewrite list_elem_of_fmap. split.
  - intros ([k c] & -> & Hin). rewrite list_elem_of_In, filter_In, <- list_elem_of_In, elem_of_map_to_list in Hin.
    destruct Hin as [Hin Hd]. simpl in Hd. bool_prop. by exists k, c.
  - intros (k & c & Hc & Hd & ->). exists (k, c). split; [done|].
    rewrite list_elem_of_In, filter_In, <- list_elem_of_In, elem_of_map_to_list. split; [done|]. simpl. by rewrite bool_decide_eq_true.
Qed.

Lemma config_row_path k c : property_configs t !! k = Some c -> pc_Path (normalize_property_config c) = k.
Proof. intros H. destruct (Ht _ _ H) as [Hp Hv]. simpl. rewrite Hp. by apply trim_valid_path. Qed.

Lemma override_row p :
  override_by_path (property_rows t (DeviceID p)) !! p =
  normalize_property_config <$> property_configs t !! p.
Proof.
  unfold override_by_path. destruct (property_configs t !! p) as [c|] eqn:E; simpl.
  - apply fold_insert_some.
    + intros o (k & c' & Hc & _ & ->)%elem_of_property_rows Hk. rewrite (config_row_path _ _ Hc) in Hk. subst k. by simplify_eq.
    + apply elem_of_property_rows. by exists p, c.
    + by apply config_row_path.
  - rewrite fold_insert_none; [done|]. intros o (k & c' & Hc & _ & ->)%elem_of_property_rows Hk.
    rewrite (config_row_path _ _ Hc) in Hk. by simplify_eq.
Qed.

Lemma has_device_item item : item ∈ items -> d_Removed item = false -> hasDevice items (d_ID item) = true.
Proof.
  intros Hin Hr. unfold hasDevice. apply existsb_exists. exists item. split; [by apply list_elem_of_In|].
  by rewrite Hr, bool_decide_eq_true_2.
Qed.

Definition place item (x : Endpoint * Capability * Property) : Key :=
  MkKey (d_ID item) (ep_ID x.1.1) (cap_ID x.1.2) (pd_ID (p_Definition x.2)).

(** A property is exposed with the grant of its place. *)
Lemma exposed_grant item x :
  expose_property (match device_configs t !! d_ID item with
                   | Some d => normalize_device (normalize_device d)
                   | None => MkDeviceConfig (d_ID item) false "" AccessHidden end)
    (override_by_path (property_rows t (d_ID item))) (d_ID item) x = None /\
    ef_Access (grant t (place item x)) = AccessHidden \/
  exists o, expose_property (match device_configs t !! d_ID item with
                   | Some d => normalize_device (normalize_device d)
                   | None => MkDeviceConfig (d_ID item) false "" AccessHidden end)
    (override_by_path (property_rows t (d_ID item))) (d_ID item) x = Some o /\
    ap_Path o = place item x /\ ap_Access o = ef_Access (grant t (place item x)) /\ ap_Access o <> AccessHidden.
Proof.
  destruct x as [[e c] property]. unfold expose_property.
  change (MkKey (d_ID item) (ep_ID e) (cap_ID c) (pd_ID (p_Definition property))) with (place item (e, c, property)).
  pose proof (override_row (place item (e, c, property))) as Ho. simpl DeviceID in Ho. rewrite Ho. clear Ho.
  assert (E : ef_Access (Effective (match device_configs t !! d_ID item with
                   | Some d => normalize_device (normalize_device d)
                   | None => MkDeviceConfig (d_ID item) false "" AccessHidden end)
       (default (MkPropertyConfig (place item (e, c, property)) "" AccessInherit false)
          (normalize_property_config <$> property_configs t !! place item (e, c, property)))) =
    ef_Access (grant t (place item (e, c, property)))).
  { unfold grant, place. simpl DeviceID. destruct (device_configs t !! d_ID item); destruct (property_configs t !! _); simpl;
      by rewrite ?or_else_idem. }
  cbv zeta. match type of E with ef_Access ?x = _ => revert E; generalize x end. intros ef E. rewrite E. case_bool_decide as Hh; [by left|right]. eexists. split; [done|]. by split_and!.
Qed.

Lemma disabled_grant item x d : device_configs t !! d_ID item = Some d -> dc_Enabled d = false ->
  ef_Access (grant t (place item x)) = AccessHidden.
Proof. intros Hd He. unfold grant. simpl. rewrite Hd. simpl. by rewrite He. Qed.

Lemma absent_grant item x : device_configs t !! d_ID item = None -> ef_Access (grant t (place item x)) = AccessHidden.
Proof. intros Hd. unfold grant. simpl. by rewrite Hd. Qed.

(** The entry of a device lists exactly its properties whose grant is not hidden. *)
Definition shows item (o : option MCPDevice) : Prop :=
  forall p a, (exists d x, o = Some d /\ x ∈ ad_Properties d /\ ap_Path x = p /\ ap_Access x = a) <->
    a <> AccessHidden /\ ef_Access (grant t p) = a /\ exists x, x ∈ source_properties item /\ p = place item x.

Lemma expose_shows item : item ∈ items -> d_Removed item = false ->
  exists o, exposeDevice gorm_store items t item = Ok o /\ shows item o.
Proof.
  intros Hin Hr. pose proof (has_device_item _ Hin Hr) as Hd. unfold exposeDevice, Properties. rewrite device_grant by done.
  cbv iota beta. rewrite Hd. simpl stored. cbv iota beta.
  assert (Hhid : (forall x, ef_Access (grant t (place item x)) = AccessHidden) -> shows item None).
  { intros Hh p a. split; [by intros (? & ? & [=] & _)|]. intros (Ha & <- & x & _ & ->). by destruct Ha. }
  destruct (negb _) eqn:En.
  { exists None. split; [done|]. apply Hhid. intros x. destruct (device_configs t !! d_ID item) as [d|] eqn:Ed; [|by apply absent_grant].
    simpl in En. bool_prop. by eapply disabled_grant. }
  set (f := expose_property _ _ _). assert (Hf : forall x, f x = None /\ ef_Access (grant t (place item x)) = AccessHidden \/
    exists o, f x = Some o /\ ap_Path o = place item x /\ ap_Access o = ef_Access (grant t (place item x)) /\ ap_Access o <> AccessHidden)
    by (intros x; apply exposed_grant). clearbody f.
  assert (Hiff : forall p a, (exists o, o ∈ omap f (source_properties item) /\ ap_Path o = p /\ ap_Access o = a) <->
    a <> AccessHidden /\ ef_Access (grant t p) = a /\ exists x, x ∈ source_properties item /\ p = place item x).
  { intros p a. split.
    - intros (o & (x & Hx & E)%list_elem_of_omap & <- & <-). destruct (Hf x) as [[? _]|(o' & E' & Hp & Ha & Hh)]; [congruence|].
      simplify_eq. split_and!; [done|by rewrite Hp|by exists x].
    - intros (Ha & <- & x & Hx & ->). destruct (Hf x) as [[_ ?]|(o & E & Hp & Ho & _)]; [done|].
      exists o. split; [|done]. apply list_elem_of_omap. by exists x. }
  clear Hf Hhid. destruct (omap f (source_properties item)) as [|o l].
  - exists None. split; [done|]. intros p a. rewrite <- Hiff. split; [by intros (? & ? & [=] & _)|].
    intros (o & Ho & _). by apply not_elem_of_nil in Ho.
  - eexists. split; [done|]. intros p a. rewrite <- Hiff. split.
    + intros (d & x & [= <-] & Hx & ? & ?). cbn [ad_Properties] in Hx. rewrite (merge_sort_Permutation _ _) in Hx. by exists x.
    + intros (x & Hx & ? & ?). eexists _, x. split; [done|]. cbn [ad_Properties]. by rewrite (merge_sort_Permutation _ _).
Qed.

Lemma each_listed l acc r : (forall item, item ∈ l -> item ∈ items) -> each (list_device gorm_store items t) acc l = Ok r ->
  forall d, d ∈ r <-> d ∈ acc \/ exists item o, item ∈ l /\ d_Removed item = false /\ d_Disabled item = false /\
    exposeDevice gorm_store items t item = Ok (Some o) /\ d = o.
Proof.
  revert acc. induction l as [|item l IH]; intros acc Hsub Hr d; simpl in Hr.
  - injection Hr as <-. split; [by left|]. intros [?|(? & ? & Hi & _)]; [done|by apply not_elem_of_nil in Hi].
  - destruct (list_device gorm_store items t acc item) as [acc'|] eqn:E; [|done].
    rewrite (IH _ (fun i Hi => Hsub i (list_elem_of_further _ _ _ Hi)) Hr d). unfold list_device in E.
    destruct (d_Removed item || d_Disabled item) eqn:Eg.
    + injection E as <-. apply orb_true_iff in Eg. split; [naive_solver set_solver|].
      intros [?|(i & o & [->|Hi]%elem_of_cons & H1 & H2 & H3)]; [by left| |right; naive_solver].
      destruct Eg; congruence.
    + bool_prop. destruct (exposeDevice gorm_store items t item) as [[o|]|] eqn:Eo; [| |done]; injection E as <-.
      * rewrite elem_of_app, list_elem_of_singleton. split.
        -- intros [[?| ->]|?]; [by left|right; exists item, o; set_solver|right; naive_solver set_solver].
        -- intros [?|(i & o' & [->|Hi]%elem_of_cons & H1 & H2 & H3 & ->)]; [by left; left| |right; naive_solver].
           rewrite Eo in H3. injection H3 as ->. by left; right.
      * split; [naive_solver set_solver|].
        intros [?|(i & o' & [->|Hi]%elem_of_cons & H1 & H2 & H3 & ->)]; [by left|congruence|right; naive_solver].
Qed.

End Views.

(** C27: the Agent sees exactly what was granted: a property with an access is in the list of
    devices the Agent gets if and only if it is a property of a device that is neither
    removed nor disabled, and the administrator granted it that access: the one its row
    names, or else the default of its device, which must be enabled. *)
Theorem agent_sees_grants items t l :
  tables_wf t -> ListDevices gorm_store items t = Ok l ->
  forall p a,
    (exists d x, d ∈ l /\ x ∈ ad_Properties d /\ ap_Path x = p /\ ap_Access x = a) <->
    granted t p a /\
      exists item x, item ∈ items /\ d_Removed item = false /\ d_Disabled item = false /\
        x ∈ source_properties item /\ p = place item x.
Proof.
  intros Ht H p a. rewrite granted_iff, Logic.and_assoc. unfold ListDevices in H. destruct (each _ _ _) as [r|] eqn:E; [|done]. injection H as <-.
  pose proof (each_listed _ _ Ht items [] r (fun _ H => H) E) as Hr. setoid_rewrite (merge_sort_Permutation _ _). split.
  - intros (d & x & Hd & Hx & Hp & Ha). apply Hr in Hd as [?|(item & o & Hi & H1 & H2 & H3 & ->)]; [by apply not_elem_of_nil in H|].
    destruct (expose_shows items t Ht item Hi H1) as (o' & E' & Hs). rewrite H3 in E'. injection E' as <-.
    destruct (proj1 (Hs p a)) as (Hh & Hg & y & Hy & ->); [by exists o, x|]. split_and!; [done..|]. by exists item, y.
  - intros (Hh & Hg & item & y & Hi & H1 & H2 & Hy & ->). destruct (expose_shows items t Ht item Hi H1) as (o & E' & Hs).
    destruct (proj2 (Hs (place item y) a)) as (d & x & -> & Hx & Hp & Ha); [by split_and!; [..|exists y]|].
    exists d, x. split; [|done]. apply Hr. right. by exists item, d.
Qed.

(** ** What the Agent writes *)

Definition auto_approved (input : GatewayWrite) : bool :=
  match gw_AIExecution input with Some m => ai_AutoApproved m | None => false end.

(** The grants a write needs. *)
Definition may_write (items : list DeviceModel.Device) (t : McpTables) (input : GatewayWrite) : Prop :=
  let p := gw_Path input in
  path_Validate p = Ok tt /\ hasProperty items p = true /\ granted t p AccessConfirm /\
  (auto_approved input = true -> exists c, property_configs t !! p = Some c /\ pc_AllowUnattendedAI c = true).

Definition version_matches (input : GatewayWrite) (states : list StateValue) : bool :=
  match gw_ExpectedStateVersion input with
  | None => true
  | Some version => stateVersionMatches states (gw_Path input) version
  end.

Definition refused {E} (e : GatewayError E) : Prop :=
  match e with AccessFailure _ | GatewayAccessDenied => True | StateChanged | WriteFailure _ => False end.

Lemma unattended_grant t p : ef_Access (grant t p) = AccessConfirm ->
  ef_UnattendedAIAllowed (grant t p) = true <->
  exists c, property_configs t !! p = Some c /\ pc_AllowUnattendedAI c = true.
Proof.
  intros Ha. assert (E : ef_UnattendedAIAllowed (grant t p) =
    pc_AllowUnattendedAI (default (MkPropertyConfig p "" AccessInherit false) (property_configs t !! p)) &&
    (ef_Access (grant t p) =s AccessConfirm)) by done.
  rewrite E, Ha, bool_decide_eq_true_2, andb_true_r by done. destruct (property_configs t !! p) as [c|]; cbn.
  - split; [intros H; by exists c|by intros (? & [= <-] & ?)].
  - split; [done|by intros (? & ? & _)].
Qed.

Section GatewayLemmas.
Context {R E : Type} `{PriorityResolver R} `{UnicodeLower}.
Implicit Type s : DeviceService R E.
Variable env : Environment.

(** The service with the states read for the version, when one is expected. *)
Definition version_read s (input : GatewayWrite) : DeviceService R E * list StateValue :=
  match gw_ExpectedStateVersion input with
  | None => (s, [])
  | Some _ => States env s (DeviceID (gw_Path input))
  end.

Lemma check_version_eq s input :
  check_version env s input =
    ((version_read s input).1, if version_matches input (version_read s input).2 then Ok tt else Err StateChanged).
Proof.
  unfold check_version, version_read, version_matches. destruct (gw_ExpectedStateVersion input); [|done].
  destruct (States _ _ _) as [s' states]. cbn [fst snd]. by destruct (stateVersionMatches _ _ _).
Qed.

Lemma check_grant_spec s t input :
  match check_grant gorm_store s t input with
  | Ok _ => may_write (List s) t input
  | Err e => ~ may_write (List s) t input /\ refused e
  end.
Proof.
  unfold check_grant, may_write. destruct (path_Validate (gw_Path input)) as [[]|e]; cbn [config_error].
  2: { split; [|done]. by intros [? _]. }
  destruct (PropertyAccess gorm_store (List s) t (gw_Path input)) as [ef|e] eqn:Ea.
  - destruct (access_reads _ _ _ _ Ea) as (Hp & Eacc & Eun & Hh). rewrite Eacc, Eun.
    destruct (ef_Access (grant t (gw_Path input)) =s AccessConfirm) eqn:Ec; bool_prop; cbn [negb].
    2: { split; [|done]. intros (_ & _ & [_ Hg]%granted_iff & _). done. }
    fold (auto_approved input). pose proof (unattended_grant t _ Ec) as Hu.
    assert (Hg : granted t (gw_Path input) AccessConfirm) by by apply granted_iff.
    destruct (auto_approved input), (ef_UnattendedAIAllowed (grant t (gw_Path input))); cbn [negb andb];
      [split_and!; try done; intros _; by apply Hu| |split_and!; done..].
    split; [|done]. intros (_ & _ & _ & Ha). by apply Hu in Ha.
  - split; [|done]. intros (_ & Hp & [_ Hg]%granted_iff & _). unfold PropertyAccess in Ea.
    destruct (effective_property_grant (List s) t (gw_Path input) Hp) as (ef & Ee & Eacc & _). rewrite Ee in Ea.
    rewrite Eacc, Hg in Ea. done.
Qed.

End GatewayLemmas.

(** *** The record of a write *)

Lemma detail_label x label value : x ∈ detail label value -> x.1 = label.
Proof. unfold detail. destruct (is_empty value); [by intros ?%not_elem_of_nil|by intros ->%list_elem_of_singleton]. Qed.

Local Ltac other_details Hin :=
  rewrite ?elem_of_app in Hin;
  repeat match type of Hin with _ \/ _ => destruct Hin as [Hin|Hin] end;
  first [by apply not_elem_of_nil in Hin | apply detail_label in Hin; discriminate Hin
        | apply list_elem_of_singleton in Hin; discriminate Hin].

Lemma audit_accepted input ok : ("command", "accepted") ∈ ev_Details (audit_event input ok) <-> ok = true.
Proof.
  unfold audit_event. cbn [ev_Details]. destruct ok; [split; [done|intros _; left]|]. split; [|done]. intros Hin.
  destruct (gw_AIExecution input) as [m|]; [destruct (ai_AutoApproved m)|]; cbn [app] in Hin; other_details Hin.
Qed.

Lemma audit_unattended input ok : ("approval", "unattended") ∈ ev_Details (audit_event input ok) <-> auto_approved input = true.
Proof.
  unfold audit_event, auto_approved. cbn [ev_Details]. destruct (gw_AIExecution input) as [m|].
  2: { split; [|done]. intros Hin. destruct ok; other_details Hin. }
  destruct (ai_AutoApproved m).
  - split; [done|]. intros _. rewrite !elem_of_app. do 5 right. by apply list_elem_of_singleton.
  - split; [|done]. intros Hin. destruct ok; other_details Hin.
Qed.

(** C23: the gateway writes for the Agent only what was granted when it read the grants:
    without the "confirm" grant of the property (and, for a write no person approved, a
    stored permission for unattended writes) the service is untouched and the request
    refused; a plan made for another version than the one it then reads is refused;
    otherwise exactly the requested write is executed.  Nothing is locked between these
    three, so that what the rest of the service does in between ([between]) comes before
    the version is read and before the write.  Without an audit service, or when its store
    fails, nothing is recorded and the answer is the same; an audit log that appends gets
    one event, which says whether the write was accepted and whether a person approved it. *)
Theorem gateway_write_spec {R E} `{PriorityResolver R} `{UnicodeLower} env audit w between (s : DeviceService R E) log t input :
  let '(s', r, log') := executeProperty env gorm_store audit w between s log t input in
  (~ may_write (List s) t input -> s' = s /\ exists e, r = Err e /\ refused e) /\
  (may_write (List s) t input ->
     let '(s1, states) := version_read env (between 3%nat s) input in
     if version_matches input states
     then let '(s2, (item, command, err)) := ExecuteProperty env w between (between 4%nat s1) (gw_Path input) (gw_Value input) in
          s' = s2 /\ r = match err with Some e => Err (WriteFailure e) | None => Ok (item, command) end
     else s' = s1 /\ r = Err StateChanged) /\
  match audit with
  | None => log' = log
  | Some append =>
      exists ev, log' = default log (append log ev) /\
        ev_Succeeded ev = is_ok r /\ ev_Status ev = (if is_ok r then 200 else 409) /\
        (("command", "accepted") ∈ ev_Details ev <-> is_ok r = true) /\
        (("approval", "unattended") ∈ ev_Details ev <-> auto_approved input = true)
  end.
Proof.
  unfold executeProperty. pose proof (check_grant_spec s t input) as Hg.
  destruct (match check_grant gorm_store s t input with Err e => _ | Ok _ => _ end) as [s' r] eqn:Er.
  split_and!.
  - intros Hn. destruct (check_grant _ _ _ _) as [[]|e]; [done|]. injection Er as <- <-. split; [done|]. exists e. split; [done|apply Hg].
  - intros Hm. destruct (check_grant _ _ _ _) as [[]|e]; [|by destruct Hg]. rewrite check_version_eq in Er.
    destruct (version_read env (between 3%nat s) input) as [s1 states]. cbn [fst snd] in Er.
    destruct (version_matches input states); [|by injection Er as <- <-].
    unfold send_write in Er. destruct (ExecuteProperty _ _ _ _ _ _) as [s2 [[item command] err]]. by injection Er as <- <-.
  - unfold record. destruct audit as [append|]; [|done]. exists (audit_event input (is_ok r)).
    pose proof (audit_accepted input (is_ok r)). pose proof (audit_unattended input (is_ok r)). done.
Qed.

(** ** The tables stay well formed *)

(** Every operation of the service keeps the rows under their valid path. *)
Inductive agent_step (items : list DeviceModel.Device) (t : McpTables) : McpTables -> Prop :=
| step_save_device c t' c' : SaveDevice gorm_store items t c = Ok (t', c') -> agent_step items t t'
| step_save_property c t' c' : SaveProperty gorm_store items t c = Ok (t', c') -> agent_step items t t'
| step_delete_property p t' : DeleteProperty gorm_store items t p = Ok t' -> agent_step items t t'.

Lemma validated_path c : validate_property_config c = Ok tt -> path_Validate (pc_Path (normalize_property_config c)) = Ok tt.
Proof. unfold validate_property_config. cbv zeta. by destruct (path_Validate (pc_Path (normalize_property_config c))) as [[]|]. Qed.

Lemma agent_step_wf items t t' : tables_wf t -> agent_step items t t' -> tables_wf t'.
Proof.
  intros Ht [c t1 c' H|c t1 c' H|p t1 H].
  - unfold SaveDevice in H. destruct (config_error _); [|done]. destruct (hasDevice _ _); [|done]. by injection H as <- _.
  - unfold SaveProperty in H. destruct (config_error _) as [[]|] eqn:Ev; [|done]. destruct (hasProperty _ _); [|done].
    destruct (if pc_AllowUnattendedAI _ then _ else _) as [[]|]; [|done]. injection H as <- _.
    assert (Hv : path_Validate (pc_Path (normalize_property_config (normalize_property_config c))) = Ok tt).
    { apply validated_path. unfold config_error in Ev. by destruct (validate_property_config _) as [[]|]. }
    intros k v Hk. cbn [property_configs] in Hk. apply lookup_insert_Some in Hk as [[<- <-]|[_ Hk]]; [done|by apply Ht].
  - unfold DeleteProperty in H. destruct (config_error _); [|done]. destruct (hasProperty _ _); [|done]. injection H as <-.
    intros k v Hk. cbn [property_configs] in Hk. apply lookup_delete_Some in Hk as [_ Hk]. by apply Ht.
Qed.

Lemma agent_tables_wf items t : rtc (agent_step items) (MkMcpTables ∅ ∅) t -> tables_wf t.
Proof.
  intros Hr. assert (Ht : tables_wf (MkMcpTables ∅ ∅)) by (intros k c Hk; cbn [property_configs] in Hk; by rewrite lookup_empty in Hk).
  revert Ht. induction Hr as [t|t t' t'' Hs _ IH]; [done|]. intros Ht. by apply IH, (agent_step_wf items t).
Qed.

(** A lamp whose power may be written after a confirmation; its brightness is only read. *)
Definition ex_tables : McpTables :=
  MkMcpTables {["lamp-1" := MkDeviceConfig "lamp-1" true "hall" AccessRead]}
    {[MkKey "lamp-1" "main" "switch" "power" := MkPropertyConfig (MkKey "lamp-1" "main" "switch" "power") "" AccessConfirm true]}.

Definition granted_list : list MCPDevice :=
  match ListDevices gorm_store [ex_switch] ex_tables with Ok l => l | Err _ => [] end.

Lemma ex_tables_wf : tables_wf ex_tables.
Proof.
  intros k c Hk. unfold ex_tables in Hk. cbn [property_configs] in Hk. apply lookup_singleton_Some in Hk as [<- <-].
  split; [done|]. vm_compute. reflexivity.
Qed.

Lemma ex_granted : granted ex_tables (MkKey "lamp-1" "main" "switch" "power") AccessConfirm.
Proof. apply granted_iff. split; [done|vm_compute; reflexivity]. Qed.

Example ex_inherited : granted ex_tables (MkKey "lamp-1" "main" "switch" "brightness") AccessRead.
Proof. apply granted_iff. split; [done|vm_compute; reflexivity]. Qed.

Lemma agent_sees_grants_witness :
  (exists d x, d ∈ granted_list /\ x ∈ ad_Properties d /\ ap_Path x = MkKey "lamp-1" "main" "switch" "power" /\
     ap_Access x = AccessConfirm).
Proof.
  apply (agent_sees_grants [ex_switch] ex_tables granted_list ex_tables_wf).
  - vm_compute. reflexivity.
  - split; [exact ex_granted|].
    exists ex_switch, (default (MkEndpoint "" "" "" [], MkCapability "" "" [] [] [], ex_power) (head (source_properties ex_switch))).
    split_and!; [by apply list_elem_of_singleton|done|done| |vm_compute; reflexivity].
    apply list_elem_of_lookup_2 with (i := 0%nat). vm_compute. reflexivity.
Defined.
