(* ===== verification/Automation.v ===== *)
(** * AI automations: backend/internal/domain/aiautomation/automation.go

    The stored document of an automation, its normalisation and its validation (the cron
    expressions are in Cron.v), and the schedule, trigger and conditions that start it
    (application/ai_automation_service.go, lines 584 to 700). *)

From S2P Require Import Prelude Float64 DomainState DeviceModel FloatText Text Cron AgentAccess.

Definition Kind := string.
Definition KindSchedule : Kind := "schedule".
Definition KindTrigger : Kind := "trigger".
Definition ExecutionMode := string.
Definition ExecutionModeUnattended : ExecutionMode := "unattended".
Definition ExecutionModeManual : ExecutionMode := "manual".
Definition ConditionMatchMode := string.
Definition ConditionMatchAll : ConditionMatchMode := "all".
Definition ConditionMatchAny : ConditionMatchMode := "any".
Definition ConditionOperator := string.
Definition ConditionEquals : ConditionOperator := "equals".
Definition ConditionNotEquals : ConditionOperator := "not_equals".
Definition ConditionGreaterThan : ConditionOperator := "greater_than".
Definition ConditionGreaterThanOrEqual : ConditionOperator := "greater_than_or_equal".
Definition ConditionLessThan : ConditionOperator := "less_than".
Definition ConditionLessThanOrEqual : ConditionOperator := "less_than_or_equal".

Definition MinIntervalSeconds : Z := 60.
Definition MaxIntervalSeconds : Z := 7 * 24 * 60 * 60.
Definition MaxRunHistory : nat := 50.
Definition MaxConditions : nat := 16.

Record Trigger := MkTrigger { tg_Path : Key; tg_Value : PropertyValue }.
Record Condition := MkCondition { cd_Path : Key; cd_Operator : ConditionOperator; cd_Value : PropertyValue }.
Record Action := MkAction {
  ac_Path : Key; ac_Value : PropertyValue; ac_ExpectedStateVersion : option Z; ac_DeviceName : string;
  ac_PropertyName : string; ac_UsageNote : string;
}.
Record RunRecord := MkRunRecord {
  rr_ID : string; rr_Source : string; rr_Status : string; rr_Message : string; rr_Action : option Action;
  rr_AutoApproved : bool; rr_Generation : Z; rr_CreatedAt : Time;
}.
Record Automation := MkAutomation {
  au_ID : string; au_Generation : Z; au_Name : string; au_Enabled : bool; au_Kind : Kind; au_Prompt : string;
  au_ExecutionMode : ExecutionMode; au_IntervalSeconds : Z; au_CronExpression : string; au_CooldownSeconds : Z;
  au_Trigger : option Trigger; au_Conditions : list Condition; au_ConditionMatch : ConditionMatchMode;
  au_LastRunID : string; au_LastRunStatus : string; au_LastRunMessage : string; au_LastRunAt : Time;
  au_RunHistory : list RunRecord; au_CreatedAt : Time; au_UpdatedAt : Time;
}.

(** ** Normalisation *)

Definition or_else (a b : string) : string := if is_empty a then b else a.

Definition normalize_record (r : RunRecord) : RunRecord :=
  MkRunRecord (TrimSpace (rr_ID r)) (TrimSpace (rr_Source r)) (TrimSpace (rr_Status r)) (TrimSpace (rr_Message r))
    (rr_Action r) (rr_AutoApproved r) (rr_Generation r) (rr_CreatedAt r).
Definition normalize_condition (c : Condition) : Condition :=
  MkCondition (trim_path (cd_Path c)) (or_else (TrimSpace (cd_Operator c)) ConditionEquals) (cd_Value c).
Definition normalize_trigger (t : Trigger) : Trigger := MkTrigger (trim_path (tg_Path t)) (tg_Value t).

Definition Normalize (a : Automation) : Automation :=
  MkAutomation (TrimSpace (au_ID a)) (au_Generation a) (TrimSpace (au_Name a)) (au_Enabled a) (au_Kind a)
    (TrimSpace (au_Prompt a)) (or_else (TrimSpace (au_ExecutionMode a)) ExecutionModeUnattended) (au_IntervalSeconds a)
    (TrimSpace (au_CronExpression a))
    (if (au_Kind a =s KindTrigger) && (au_CooldownSeconds a =? 0) then MinIntervalSeconds else au_CooldownSeconds a)
    (normalize_trigger <$> au_Trigger a) (List.map normalize_condition (au_Conditions a))
    (or_else (TrimSpace (au_ConditionMatch a)) ConditionMatchAll)
    (TrimSpace (au_LastRunID a)) (TrimSpace (au_LastRunStatus a)) (TrimSpace (au_LastRunMessage a)) (au_LastRunAt a)
    (List.map normalize_record (take MaxRunHistory (au_RunHistory a))) (au_CreatedAt a) (au_UpdatedAt a).

(** ** Validation *)

Inductive AutomationError :=
| InvalidID | InvalidName | InvalidPrompt | InvalidExecutionMode | InvalidConditionMatch | TooManyConditions
| InvalidCondition | DuplicateCondition | InvalidInterval | IntervalAndCron | InvalidCron (e : CronError)
| ScheduleWithTrigger | InvalidTrigger | InvalidCooldown | TriggerWithInterval | InvalidKind
| AssignedID | PropertyUnavailable | PropertyUnauthorised | DeviceUnavailable.

Definition conditionOperatorAllowed (operator : ConditionOperator) (t : ValueType) : bool :=
  if (operator =s ConditionEquals) || (operator =s ConditionNotEquals) then true
  else if (operator =s ConditionGreaterThan) || (operator =s ConditionGreaterThanOrEqual) ||
          (operator =s ConditionLessThan) || (operator =s ConditionLessThanOrEqual)
  then value_type_eqb t ValueTypeInt || value_type_eqb t ValueTypeNumber
  else false.

Definition validate_condition (seen : gset Key) (c : Condition) : result AutomationError (gset Key) :=
  guard! is_ok (path_Validate (cd_Path c)) && HasSinglePayload (cd_Value c) &&
         conditionOperatorAllowed (cd_Operator c) (pv_Type (cd_Value c)) else InvalidCondition in
  guard! negb (bool_decide (cd_Path c ∈ seen)) else DuplicateCondition in
  Ok ({[cd_Path c]} ∪ seen).

Definition in_limits (lo hi n : Z) : bool := negb ((n <? lo) || (hi <? n)).

Definition validate_schedule (a : Automation) : result AutomationError unit :=
  guard! negb (is_empty (au_CronExpression a) && negb (in_limits MinIntervalSeconds MaxIntervalSeconds (au_IntervalSeconds a)))
    else InvalidInterval in
  check! (if is_empty (au_CronExpression a) then Ok tt
          else if negb (au_IntervalSeconds a =? 0) then Err IntervalAndCron
          else match ParseCronExpression (au_CronExpression a) with Ok _ => Ok tt | Err e => Err (InvalidCron e) end) in
  guard! negb (present (au_Trigger a) || negb (au_CooldownSeconds a =? 0)) else ScheduleWithTrigger in
  Ok tt.

Definition validate_trigger (a : Automation) : result AutomationError unit :=
  guard! match au_Trigger a with
         | None => false
         | Some t => is_ok (path_Validate (tg_Path t)) && HasSinglePayload (tg_Value t)
         end else InvalidTrigger in
  guard! in_limits MinIntervalSeconds MaxIntervalSeconds (au_CooldownSeconds a) else InvalidCooldown in
  guard! au_IntervalSeconds a =? 0 else TriggerWithInterval in
  Ok tt.

Definition Validate (a : Automation) : result AutomationError unit :=
  let a := Normalize a in
  guard! is_empty (au_ID a) || ValidStableID (au_ID a) else InvalidID in
  guard! in_limits 1 120 (RuneCountInString (au_Name a)) else InvalidName in
  guard! in_limits 1 (Z.shiftl 16 10) (RuneCountInString (au_Prompt a)) else InvalidPrompt in
  guard! (au_ExecutionMode a =s ExecutionModeUnattended) || (au_ExecutionMode a =s ExecutionModeManual) else InvalidExecutionMode in
  guard! (au_ConditionMatch a =s ConditionMatchAll) || (au_ConditionMatch a =s ConditionMatchAny) else InvalidConditionMatch in
  guard! (List.length (au_Conditions a) <=? MaxConditions)%nat else TooManyConditions in
  check! each validate_condition ∅ (au_Conditions a) in
  if au_Kind a =s KindSchedule then validate_schedule a
  else if au_Kind a =s KindTrigger then validate_trigger a
  else Err InvalidKind.

(** ** What starts an automation *)

(** A state that may be used: known, available, not stale and not expired. *)
Definition stateUsableForAutomation (state : StateValue) (now : Time) : bool :=
  sv_Known state && sv_Available state && negb (StateStore.is_stale (sv_Quality state)) &&
  (IsZero (sv_ExpiresAt state) || Before now (sv_ExpiresAt state)).

Definition zero_property_value : PropertyValue := MkPropertyValue (ValueTypeOther "") None None None None.

Definition stateToPropertyValue (value : Value) : PropertyValue :=
  let get {A} (f : A -> PropertyValue) (o : option A) := match o with Some x => f x | None => zero_property_value end in
  let kind := v_Kind value in
  if kind =s KindBool then get BoolValue (v_Bool value)
  else if kind =s KindInt then get IntValue (v_Int value)
  else if kind =s KindNumber then get NumberValue (v_Number value)
  else if kind =s KindString then get StringValue (v_String value)
  else if kind =s KindEnum then get EnumValue (v_String value)
  else zero_property_value.

Definition comparableNumbers (left_ right_ : PropertyValue) : option (float64 * float64) :=
  if negb (value_type_eqb (pv_Type left_) (pv_Type right_)) then None
  else match pv_Type left_, pv_Int left_, pv_Int right_, pv_Number left_, pv_Number right_ with
       | ValueTypeInt, Some a, Some b, _, _ => Some (of_Z a, of_Z b)
       | ValueTypeNumber, _, _, Some a, Some b => Some (a, b)
       | _, _, _, _, _ => None
       end.

Definition conditionMatches (c : Condition) (state : StateValue) : bool :=
  let actual := stateToPropertyValue (sv_Value state) in
  if negb (value_type_eqb (pv_Type actual) (pv_Type (cd_Value c))) || negb (HasSinglePayload actual) then false
  else
    let op := cd_Operator c in
    let compare (f : float64 -> float64 -> bool) :=
      match comparableNumbers actual (cd_Value c) with Some (a, b) => f a b | None => false end in
    if op =s ConditionEquals then Equal actual (cd_Value c)
    else if op =s ConditionNotEquals then negb (Equal actual (cd_Value c))
    else if op =s ConditionGreaterThan then compare fgtb
    else if op =s ConditionGreaterThanOrEqual then compare (fun a b => fleb b a)
    else if op =s ConditionLessThan then compare fltb
    else if op =s ConditionLessThanOrEqual then compare fleb
    else false.

Definition triggerMatches (t : Trigger) (state : StateValue) : bool :=
  bool_decide (tg_Path t = sv_Key state) && Equal (stateToPropertyValue (sv_Value state)) (tg_Value t).

(** The state a condition is checked on: the trigger itself, or the current state. [look] is
    [s.devices.States] as a map, and [now p] the reading of the clock when the condition on [p]
    is checked; [None] is a service without devices. *)
Definition condition_state (look : Key -> option StateValue) (trigger : option StateValue) (p : Key) : option StateValue :=
  match trigger with
  | Some state => if bool_decide (sv_Key state = p) then Some state else look p
  | None => look p
  end.

Definition condition_holds (look : Key -> option StateValue) (now : Key -> Time) (trigger : option StateValue) (c : Condition) : bool :=
  match condition_state look trigger (cd_Path c) with
  | Some state => stateUsableForAutomation state (now (cd_Path c)) && conditionMatches c state
  | None => false
  end.

Fixpoint conditions_from (mode : ConditionMatchMode) (look : Key -> option StateValue) (now : Key -> Time)
    (trigger : option StateValue) (l : list Condition) : bool :=
  match l with
  | [] => mode =s ConditionMatchAll
  | c :: l =>
      let matched := condition_holds look now trigger c in
      if mode =s ConditionMatchAny then matched || conditions_from mode look now trigger l
      else matched && conditions_from mode look now trigger l
  end.

Definition conditionsSatisfied (devices : option (Key -> option StateValue)) (now : Key -> Time) (mode : ConditionMatchMode)
    (conditions : list Condition) (trigger : option StateValue) : bool :=
  match conditions, devices with
  | [], _ => true
  | _, None => false
  | _, Some look => conditions_from (or_else mode ConditionMatchAll) look now trigger conditions
  end.

(** [time.Duration(n) * time.Second]. *)
Definition seconds (n : Z) : Duration := i64_wrap (n * 1000000000).

Definition scheduleDue (a : Automation) (now : Time) (location : Location) : bool :=
  if negb (is_empty (au_CronExpression a)) then
    let localNow := In_ location now in
    if negb (CronMatches (au_CronExpression a) localNow) then false
    else if IsZero (au_LastRunAt a) then true
    else
      let last := In_ location (au_LastRunAt a) in
      negb (Year last =? Year localNow) || negb (YearDay last =? YearDay localNow) ||
      negb (Hour last =? Hour localNow) || negb (Minute last =? Minute localNow)
  else
    let base := if IsZero (au_LastRunAt a) then au_UpdatedAt a else au_LastRunAt a in
    negb (IsZero base) && negb (Before now (base + seconds (au_IntervalSeconds a))).

Definition cooldownElapsed (a : Automation) (now : Time) : bool :=
  IsZero (au_LastRunAt a) || negb (Before now (au_LastRunAt a + seconds (au_CooldownSeconds a))).

(** ** When an automation is due *)

(** The minute of an instant on the clock of a zone. *)
Definition local_minute (location : Location) (t : Time) : Z := (seconds_of t + location t) / 60.

(** The parts of the calendar's year. *)
Lemma year_day_parts days : exists n400 n100 n4 n1 yday,
  year_day days = (400 * n400 + 100 * n100 + 4 * n4 + n1 + 1, yday) /\
  days = 146097 * n400 + 36524 * n100 + 1461 * n4 + 365 * n1 + yday /\
  0 <= n100 <= 3 /\ 0 <= n4 <= 24 /\ 0 <= n1 <= 3.
Proof.
  unfold year_day. cbv zeta. eexists (days / 146097), _, _, _, _. split; [reflexivity|].
  split_and!; Z.to_euclidean_division_equations; lia.
Qed.

Lemma year_day_inj days days' : year_day days = year_day days' -> days = days'.
Proof.
  destruct (year_day_parts days) as (a & b & c & d & y & -> & -> & ? & ? & ?).
  destruct (year_day_parts days') as (a' & b' & c' & d' & y' & -> & -> & ? & ? & ?).
  intros [= Hyear ->]. lia.
Qed.

(** Year, day of the year, hour and minute tell the minutes of a zone apart. *)
Lemma civil_minute location t t' :
  (Year (In_ location t) = Year (In_ location t') /\ YearDay (In_ location t) = YearDay (In_ location t') /\
   Hour (In_ location t) = Hour (In_ location t') /\ Minute (In_ location t) = Minute (In_ location t')) <->
  local_minute location t = local_minute location t'.
Proof.
  unfold In_, local_minute. set (a := seconds_of t + location t). set (b := seconds_of t' + location t').
  destruct (year_day (a / 86400)) as [y d] eqn:Ea, (year_day (b / 86400)) as [y' d'] eqn:Eb.
  destruct (month_day _ _) as [m1 d1], (month_day _ _) as [m2 d2]. cbn [Year YearDay Hour Minute]. split.
  - intros (-> & Hd & Hh & Hm). assert (d = d') as -> by lia. rewrite <- Eb in Ea. apply year_day_inj in Ea. revert Ea Hh Hm.
    clearbody a b. clear. intros. Z.to_euclidean_division_equations; lia.
  - intros H. assert (a / 86400 = b / 86400) as E by (clearbody a b; clear -H; Z.to_euclidean_division_equations; lia).
    rewrite E, Eb in Ea. injection Ea as -> ->. split_and!; [done..| |];
      clearbody a b; clear -H; Z.to_euclidean_division_equations; lia.
Qed.

(** a cron automation is due exactly in the minutes its expression matches on the clock
    of the zone, and once per minute: not again in the minute it last ran in. *)
Theorem cron_due_once a now location : au_CronExpression a <> "" ->
  scheduleDue a now location = true <->
    CronMatches (au_CronExpression a) (In_ location now) = true /\
    (IsZero (au_LastRunAt a) = true \/ local_minute location (au_LastRunAt a) <> local_minute location now).
Proof.
  intros Hc. rewrite <- civil_minute. unfold scheduleDue. rewrite (proj2 (is_empty_false _) Hc). cbv zeta.
  cbn [negb]. destruct (CronMatches _ _); [|naive_solver]. cbn [negb]. destruct (IsZero _); [naive_solver|].
  rewrite !orb_true_iff, !negb_true_iff, !Z.eqb_neq. split; [intros H; split; [done|]; right; intros (E1 & E2 & E3 & E4); rewrite E1, E2, E3, E4 in H; tauto|].
  intros [_ [?|H]]; [done|]. destruct (decide (Year (In_ location (au_LastRunAt a)) = Year (In_ location now))); [|tauto].
  destruct (decide (YearDay (In_ location (au_LastRunAt a)) = YearDay (In_ location now))); [|tauto].
  destruct (decide (Hour (In_ location (au_LastRunAt a)) = Hour (In_ location now))); tauto.
Qed.

(** ** Conditions *)

(** A condition is met: there is a state for its property (the trigger's, or else the
    current one), it can be relied on, and its value compares as asked. *)
Definition met (look : Key -> option StateValue) (now : Key -> Time) (trigger : option StateValue) (c : Condition) : Prop :=
  exists state, condition_state look trigger (cd_Path c) = Some state /\
    sv_Known state = true /\ sv_Available state = true /\ sv_Quality state <> QualityStale /\
    (IsZero (sv_ExpiresAt state) = true \/ now (cd_Path c) < sv_ExpiresAt state) /\
    conditionMatches c state = true.

Lemma condition_holds_met look now trigger c : condition_holds look now trigger c = true <-> met look now trigger c.
Proof.
  unfold condition_holds, met, stateUsableForAutomation. destruct (condition_state _ _ _) as [state|]; [|naive_solver].
  assert (Hq : StateStore.is_stale (sv_Quality state) = false <-> sv_Quality state <> QualityStale)
    by (destruct (sv_Quality state); simpl; naive_solver).
  rewrite !andb_true_iff, negb_true_iff, orb_true_iff, Hq. unfold Before. rewrite Z.ltb_lt.
  split; [intros H; exists state; tauto|]. intros (x & [= <-] & H). tauto.
Qed.

(** conditions fail closed: with conditions, an automation goes ahead only when the
    devices can be asked and all its conditions are met (in the mode "any": one of them);
    a property without a reliable state meets no condition. *)
Theorem conditions_fail_closed devices now mode conditions trigger : conditions <> [] ->
  conditionsSatisfied devices now mode conditions trigger = true <->
  exists look, devices = Some look /\
    (mode = ConditionMatchAny /\ Exists (met look now trigger) conditions \/
     (mode = "" \/ mode = ConditionMatchAll) /\ Forall (met look now trigger) conditions).
Proof.
  intros Hne. unfold conditionsSatisfied. destruct devices as [look|]; [|destruct conditions; naive_solver].
  assert (Hfrom : forall m, conditions_from m look now trigger conditions = true <->
    m = ConditionMatchAny /\ Exists (met look now trigger) conditions \/ m = ConditionMatchAll /\ Forall (met look now trigger) conditions).
  { intros m. clear Hne. induction conditions as [|c l IH]; simpl.
    - rewrite bool_decide_eq_true. rewrite Exists_nil, Forall_nil. tauto.
    - rewrite Exists_cons, Forall_cons, <- !condition_holds_met. case_bool_decide as Hm.
      + rewrite orb_true_iff, IH. assert (m <> ConditionMatchAll) by (intros ->; discriminate). tauto.
      + rewrite andb_true_iff, IH. tauto. }
  destruct conditions as [|c l]; [done|]. rewrite Hfrom. unfold or_else.
  destruct (is_empty mode) eqn:Em.
  - apply is_empty_true in Em as ->. split.
    + intros [[Hm _]|[_ H]]; [discriminate|]. exists look. auto.
    + intros (look' & Hl & H). injection Hl as <-. destruct H as [[Hm _]|[_ H]]; [discriminate|]. auto.
  - apply is_empty_false in Em. naive_solver.
Qed.

(** ** Examples *)

Definition ex_cron : Automation :=
  MkAutomation "a" 1 "Lamp" true KindSchedule "Turn the lamp off." ExecutionModeManual 0 "*/15 * * * *" 0 None [] "all" "" "" ""
    (ex_time - 10 * 1000000000) [] zero_time zero_time.

Lemma cron_due_once_witness : scheduleDue ex_cron ex_time utc = true.
Proof.
  apply cron_due_once; [discriminate|]. split; [vm_compute; reflexivity|]. right. vm_compute. discriminate.
Defined.

Definition ex_condition : Condition := MkCondition (MkKey "lamp" "main" "light" "power") ConditionEquals (BoolValue true).

Lemma conditions_fail_closed_witness :
  conditionsSatisfied (Some (fun _ => None)) (fun _ => ex_time) ConditionMatchAny [ex_condition] None = false.
Proof.
  apply not_true_is_false. intros H. apply conditions_fail_closed in H; [|discriminate].
  destruct H as (look & [= <-] & [[_ H]|[[H|H] _]]); [|discriminate..].
  apply Exists_exists in H as (c & _ & state & H & _). discriminate.
Defined.
