(* ===== verification/AutomationService.v ===== *)
(** * The service of AI automations: backend/internal/application/ai_automation_service.go
    and persistence/gormstore/ai_automations.go

    Stored automations, the executions in flight, and the steps of a run: it is started
    (by hand, by its schedule or by a state), the Agent answers, an unattended action is
    approved, the outcome is recorded. Every critical section of the service's mutex is
    one step; what the Agent and the database answer is given. *)

From S2P Require Import Prelude Float64 DomainState DeviceModel FloatText Text Cron AgentAccess Automation.

(** ** Storage *)

Definition trunc_ms (t : Time) : Time := t - t mod 1000000.

Definition with_times (a : Automation) (created updated : Time) : Automation :=
  match a with
  | MkAutomation id g n en k p m i cr cd tg cs cm lr ls lm la rh _ _ =>
      MkAutomation id g n en k p m i cr cd tg cs cm lr ls lm la rh created updated
  end.

(** The rows: the time of creation is kept when a row is replaced, times have milliseconds. *)
Definition Rows := gmap string Automation.
Definition SaveAIAutomation (rows : Rows) (a : Automation) : Rows :=
  let created := match rows !! au_ID a with Some old => au_CreatedAt old | None => trunc_ms (au_CreatedAt a) end in
  <[au_ID a := with_times a created (trunc_ms (au_UpdatedAt a))]> rows.
Definition GetAIAutomation (rows : Rows) (id : string) : option Automation := Normalize <$> rows !! id.
Definition DeleteAIAutomation (rows : Rows) (id : string) : Rows := delete id rows.

Definition row_le (a b : Automation) : Prop :=
  au_CreatedAt a < au_CreatedAt b \/ au_CreatedAt a = au_CreatedAt b /\ str_leb (au_ID a) (au_ID b) = true.
#[local] Instance row_le_dec : RelDecision row_le.
Proof. intros a b. unfold row_le. apply _. Defined.
Definition ListAIAutomations (rows : Rows) : list Automation :=
  List.map Normalize (merge_sort row_le (List.map snd (map_to_list rows))).

(** ** State *)

Record AIAutomationRun := MkRun {
  run_ID : string; run_Source : string; run_Status : string; run_Message : string; run_AutoApproved : bool;
  run_CreatedAt : Time; run_ExpiresAt : Time; run_Action : option Action;
}.
Definition zero_run : AIAutomationRun := MkRun "" "" "" "" false zero_time zero_time None.

(** An [automationExecution], by its address. *)
Record automationExecution := MkExecution { ex_AutomationID : string; ex_generation : Z; ex_cancelled : bool }.

Record AIAutomationService := MkService {
  rows : Rows;
  running : gmap string nat;
  executions : gmap nat automationExecution;
}.

Inductive RunError :=
| ErrAIAutomationNotFound | ErrAIAutomationDisabled | ErrAIAutomationRunNotFound | ErrAIAutomationRunNotApprovable
| ErrAIAutomationSuperseded | AlreadyRunning | AlreadyExists | StoreFailure | RunnerFailure
| InvalidAutomation (e : AutomationError).

Implicit Types (s : AIAutomationService) (value : Automation) (id : string).

Definition set_rows s (x : Rows) : AIAutomationService := MkService x (running s) (executions s).
Definition set_running s (x : gmap string nat) : AIAutomationService := MkService (rows s) x (executions s).
Definition set_executions s (x : gmap nat automationExecution) : AIAutomationService := MkService (rows s) (running s) x.

(** Which statements of the database fail. *)
Record Faults := MkFaults { get_fails : bool; save_fails : bool }.
Definition no_faults : Faults := MkFaults false false.

(** ** Definitions *)

(** The checks of a property that triggers or conditions an automation. [access] is the
    access service, when there is one. *)
Definition validateAutomationProperty (items : list Device)
    (access : option (Key -> result AccessError EffectivePropertyConfig)) (p : Key) (t : ValueType)
    : result AutomationError unit :=
  match first (fun item => if negb (d_ID item =s DeviceID p) || d_Removed item then None else Some item) items with
  | None => Err DeviceUnavailable
  | Some item =>
      guard! match PropertyAt item (EndpointID p) (CapabilityID p) (PropertyID p) with
             | None => false
             | Some property => value_type_eqb (pd_Type (p_Definition property)) t
             end else PropertyUnavailable in
      guard! match access with
             | None => true
             | Some get => match get p with Ok ef => negb (ef_Access ef =s AccessHidden) | Err _ => false end
             end else PropertyUnauthorised in
      Ok tt
  end.

Definition validateDeviceBinding (items : option (list Device))
    (access : option (Key -> result AccessError EffectivePropertyConfig)) value : result AutomationError unit :=
  match items with
  | None => Ok tt
  | Some items =>
      check! (match au_Trigger value with
              | Some t => validateAutomationProperty items access (tg_Path t) (pv_Type (tg_Value t))
              | None => Ok tt
              end) in
      check! each (fun _ c => validateAutomationProperty items access (cd_Path c) (pv_Type (cd_Value c))) tt (au_Conditions value) in
      Ok tt
  end.

Definition cancelRunningLocked s id : AIAutomationService :=
  match running s !! id with
  | None => s
  | Some e => set_executions s (alter (fun x => MkExecution (ex_AutomationID x) (ex_generation x) true) e (executions s))
  end.

(** The fields a new document takes from the stored one. *)
Definition inherit value (existing : Automation) (now : Time) : Automation :=
  match value with
  | MkAutomation id _ n en k p m i cr cd tg cs cm _ _ _ _ _ _ _ =>
      MkAutomation id (u64_succ (au_Generation existing)) n en k p m i cr cd tg cs cm (au_LastRunID existing)
        (au_LastRunStatus existing) (au_LastRunMessage existing) (au_LastRunAt existing) (au_RunHistory existing)
        (au_CreatedAt existing) now
  end.
Definition fresh value (now : Time) : Automation :=
  match value with
  | MkAutomation id _ n en k p m i cr cd tg cs cm _ _ _ _ _ _ _ =>
      MkAutomation id 1 n en k p m i cr cd tg cs cm "" "" "" zero_time [] now now
  end.

Definition set_ID value id : Automation :=
  match value with
  | MkAutomation _ g n en k p m i cr cd tg cs cm lr ls lm la rh ca ua =>
      MkAutomation id g n en k p m i cr cd tg cs cm lr ls lm la rh ca ua
  end.

Section Documents.
Variable items : option (list Device).
Variable access : option (Key -> result AccessError EffectivePropertyConfig).

Definition save s (f : Faults) (now : Time) value (requireExisting : bool)
    : AIAutomationService * result RunError Automation :=
  let value := Normalize value in
  match (let! _ := Validate value in validateDeviceBinding items access value) with
  | Err e => (s, Err (InvalidAutomation e))
  | Ok _ =>
      if get_fails f then (s, Err StoreFailure)
      else match GetAIAutomation (rows s) (au_ID value), requireExisting with
           | None, true => (s, Err ErrAIAutomationNotFound)
           | Some _, false => (s, Err AlreadyExists)
           | found, _ =>
               let '(s, value) := match found with
                                  | Some existing => (cancelRunningLocked s (au_ID value), inherit value existing now)
                                  | None => (s, fresh value now)
                                  end in
               if save_fails f then (s, Err StoreFailure)
               else (set_rows s (SaveAIAutomation (rows s) value), Ok value)
           end
  end.

(** [id] is the one [newAIAutomationID] draws. *)
Definition Create s (f : Faults) (now : Time) id value : AIAutomationService * result RunError Automation :=
  if negb (is_empty (au_ID value)) then (s, Err (InvalidAutomation AssignedID))
  else save s f now (set_ID value id) false.

Definition Update s (f : Faults) (now : Time) id value : AIAutomationService * result RunError Automation :=
  save s f now (set_ID value id) true.

End Documents.

Definition Delete s (f : Faults) id : AIAutomationService * result RunError unit :=
  if get_fails f then (s, Err StoreFailure)
  else match GetAIAutomation (rows s) id with
       | None => (s, Err ErrAIAutomationNotFound)
       | Some _ =>
           let s := cancelRunningLocked s id in
           if save_fails f then (s, Err StoreFailure)
           else (set_rows s (DeleteAIAutomation (rows s) id), Ok tt)
       end.

(** ** Runs *)

(** [e] is the address of the new execution; [None] is "not started". *)
Definition begin s (f : Faults) (e : nat) value : AIAutomationService * result RunError (option nat) :=
  if get_fails f then (s, Err StoreFailure)
  else match GetAIAutomation (rows s) (au_ID value) with
       | None => (s, Ok None)
       | Some current =>
           if negb (au_Enabled current) || negb (au_Generation current =? au_Generation value) then (s, Ok None)
           else match running s !! au_ID value with
                | Some _ => (s, Ok None)
                | None =>
                    (MkService (rows s) (<[au_ID value := e]> (running s))
                       (<[e := MkExecution (au_ID value) (au_Generation value) false]> (executions s)), Ok (Some e))
                end
       end.

Definition end_ s id (e : nat) : AIAutomationService :=
  let s := if bool_decide (running s !! id = Some e) then set_running s (delete id (running s)) else s in
  set_executions s (alter (fun x => MkExecution (ex_AutomationID x) (ex_generation x) true) e (executions s)).

Definition executionCurrentLocked s id (e : nat) : bool := bool_decide (running s !! id = Some e).

Definition generation_of s (e : nat) : Z := match executions s !! e with Some x => ex_generation x | None => 0 end.

(** Whether the runner is asked to approve; the error when it is not. *)
Definition approveUnattended s (f : Faults) value (e : nat) : result RunError unit :=
  guard! executionCurrentLocked s (au_ID value) e else ErrAIAutomationSuperseded in
  guard! negb (get_fails f) else StoreFailure in
  match GetAIAutomation (rows s) (au_ID value) with
  | None => Err ErrAIAutomationSuperseded
  | Some current =>
      guard! negb (negb (au_Enabled current) || negb (au_Generation current =? generation_of s e) ||
                   negb (au_ExecutionMode current =s ExecutionModeUnattended)) else ErrAIAutomationSuperseded in
      Ok tt
  end.

Definition appendRunHistory (history : list RunRecord) (record : RunRecord) : list RunRecord :=
  take MaxRunHistory (record :: history).

Definition with_run value (lastID lastStatus lastMessage : string) (lastAt : Time) (history : list RunRecord) (updated : Time)
    : Automation :=
  match value with
  | MkAutomation id g n en k p m i cr cd tg cs cm _ _ _ _ _ ca _ =>
      MkAutomation id g n en k p m i cr cd tg cs cm lastID lastStatus lastMessage lastAt history ca updated
  end.

Definition recordRun s (f : Faults) value (e : nat) (run : AIAutomationRun) (failed : bool) (now : Time)
    : AIAutomationService * result RunError Automation :=
  if negb (executionCurrentLocked s (au_ID value) e) then (s, Err ErrAIAutomationSuperseded)
  else if get_fails f then (s, Err StoreFailure)
  else match GetAIAutomation (rows s) (au_ID value) with
       | None => (s, Err ErrAIAutomationSuperseded)
       | Some current =>
           if negb (au_Generation current =? generation_of s e) then (s, Err ErrAIAutomationSuperseded)
           else
             let '(lastID, status, message) :=
               if failed && is_empty (run_ID run) then ("", "failed", "AI Agent 请求失败")
               else (run_ID run, run_Status run, run_Message run) in
             let record := MkRunRecord (run_ID run) (run_Source run) status message (run_Action run)
                             (run_AutoApproved run) (au_Generation current) now in
             let current := with_run current lastID status message now (appendRunHistory (au_RunHistory current) record) now in
             if save_fails f then (s, Err StoreFailure)
             else (set_rows s (SaveAIAutomation (rows s) current), Ok current)
       end.

Definition set_run (r : AIAutomationRun) (source status message : string) (auto : bool) (created : Time) (action : option Action)
    : AIAutomationRun := MkRun (run_ID r) source status message auto created (run_ExpiresAt r) action.

(** The run after the decision: what [approveUnattended] or the runner answered for it. *)
Definition decided_run (planned : AIAutomationRun) (answer : result RunError AIAutomationRun) : AIAutomationRun * bool :=
  match answer with
  | Ok approved => (set_run approved (run_Source approved) (run_Status approved) (run_Message approved) (run_AutoApproved approved)
                      (run_CreatedAt approved) (match run_Action approved with Some a => Some a | None => run_Action planned end), false)
  | Err e =>
      (set_run planned (run_Source planned) "failed"
         (match e with ErrAIAutomationSuperseded => "自动任务已变更或停止，设备操作未执行" | _ => "AI 自动批准设备操作失败" end)
         (run_AutoApproved planned) (run_CreatedAt planned) (run_Action planned), true)
  end.

Definition needs_approval value (answer : result RunError AIAutomationRun) : bool :=
  match answer with
  | Ok run => (run_Status run =s "awaiting_approval") && (au_ExecutionMode value =s ExecutionModeUnattended)
  | Err _ => false
  end.

(** The run as it is recorded. *)
Definition finished_run value (source : string) (run : AIAutomationRun) (now : Time) : AIAutomationRun :=
  let created := if IsZero (run_CreatedAt run) then now else run_CreatedAt run in
  set_run run source (run_Status run) (run_Message run)
    ((au_ExecutionMode value =s ExecutionModeUnattended) && (run_Status run =s "executed")) created (run_Action run).

Definition record_index (runID : string) (history : list RunRecord) : option nat :=
  fst <$> list_find (fun r => rr_ID r = runID) history.

(** The checks of [ApproveRun]: the automation, the position and the record to approve. *)
Definition approvable s (f : Faults) (automationID runID : string) : result RunError (Automation * nat * RunRecord) :=
  guard! negb (get_fails f) else StoreFailure in
  match GetAIAutomation (rows s) automationID with
  | None => Err ErrAIAutomationNotFound
  | Some value =>
      guard! au_Enabled value else ErrAIAutomationDisabled in
      match list_find (fun r => rr_ID r = runID) (au_RunHistory value) with
      | None => Err ErrAIAutomationRunNotFound
      | Some (index, record) =>
          guard! negb (negb (rr_Status record =s "awaiting_approval") || negb (rr_Generation record =? au_Generation value))
            else ErrAIAutomationRunNotApprovable in
          Ok (value, index, record)
      end
  end.

Definition approved_record (run : AIAutomationRun) (r : RunRecord) : RunRecord :=
  MkRunRecord (rr_ID r) (rr_Source r) (run_Status run) (run_Message run)
    (match run_Action run with Some a => Some a | None => rr_Action r end) (rr_AutoApproved r) (rr_Generation r) (rr_CreatedAt r).

(** [answer] is what the runner answers for the approval. *)
Definition ApproveRun s (f : Faults) (automationID runID : string) (answer : result RunError AIAutomationRun) (now : Time)
    : AIAutomationService * result RunError (Automation * AIAutomationRun) :=
  match approvable s f automationID runID with
  | Err e => (s, Err e)
  | Ok (value, index, record) =>
      match answer with
      | Err e => (s, Err e)
      | Ok run =>
          let run := set_run run (rr_Source record) (run_Status run) (run_Message run) (rr_AutoApproved record)
                       (run_CreatedAt run) (run_Action run) in
          let '(status, message) := if au_LastRunID value =s run_ID run then (run_Status run, run_Message run)
                                    else (au_LastRunStatus value, au_LastRunMessage value) in
          let value := with_run value (au_LastRunID value) status message (au_LastRunAt value)
                         (alter (approved_record run) index (au_RunHistory value)) now in
          if save_fails f then (s, Err StoreFailure)
          else (set_rows s (SaveAIAutomation (rows s) value), Ok (value, run))
      end
  end.

(** What [RunNow] finds before it begins. *)
Definition run_now s (f : Faults) id : result RunError Automation :=
  guard! negb (get_fails f) else StoreFailure in
  match GetAIAutomation (rows s) id with
  | None => Err ErrAIAutomationNotFound
  | Some value => guard! au_Enabled value else ErrAIAutomationDisabled in Ok value
  end.

(** The automations [RunDue] and [onState] begin. *)
Definition due s (now : Time) (location : Location) (devices : option (Key -> option StateValue)) (clock : Key -> Time)
    : list Automation :=
  List.filter (fun item => au_Enabled item && (au_Kind item =s KindSchedule) && scheduleDue item now location &&
                           conditionsSatisfied devices clock (au_ConditionMatch item) (au_Conditions item) None)
    (ListAIAutomations (rows s)).

Definition triggered s (state : StateValue) (seen now : Time) (devices : option (Key -> option StateValue)) (clock : Key -> Time)
    : list Automation :=
  if negb (stateUsableForAutomation state seen) then []
  else List.filter (fun item =>
         au_Enabled item && (au_Kind item =s KindTrigger) &&
         match au_Trigger item with Some t => triggerMatches t state | None => false end &&
         cooldownElapsed item now &&
         conditionsSatisfied devices clock (au_ConditionMatch item) (au_Conditions item) (Some state))
       (ListAIAutomations (rows s)).
