(* ===== verification/AutomationRuns.v ===== *)
(** * Runs of AI automations as a transition system

    The steps of the automation service interleave: documents are saved and deleted,
    tasks go through the stages of a run, actions are approved by hand, the hub restarts.
    A trace lists what happened; the theorems say that a change of an automation is a
    reliable boundary for unattended writes, and that an automation runs once at a time. *)

From S2P Require Import Prelude Float64 DomainState DeviceModel FloatText Text Cron AgentAccess Automation AutomationService.

(** Where a task stands; [e] is its execution. *)
Inductive Phase :=
| Loaded (value : Automation) (source : string)
| Begun (value : Automation) (source : string) (e : nat)
| Answered (value : Automation) (source : string) (e : nat) (answer : result RunError AIAutomationRun)
| Decided (value : Automation) (source : string) (e : nat) (run : AIAutomationRun) (failed : bool)
| Recorded (value : Automation) (e : nat)
| Finished.

Record System := MkSystem { service : AIAutomationService; tasks : gmap nat Phase }.

Inductive Event :=
| Created (id : string) | Updated (id : string) | Deleted (id : string)
| Began (id : string) (e : nat)
| ApprovedUnattended (id : string) (e : nat) (runID : string)
| ApprovedByHand (id runID : string).

(** How a task comes to be: by hand, by its schedule, or by a state. *)
Inductive loads (s : AIAutomationService) : Automation -> string -> Prop :=
| load_manual f id value : run_now s f id = Ok value -> loads s value "manual"
| load_schedule now location devices clock value :
    value ∈ due s now location devices clock -> loads s value "schedule"
| load_trigger state seen now devices clock value :
    value ∈ triggered s state seen now devices clock -> loads s value "trigger".

Definition saved_event (event : string -> Event) (r : result RunError Automation) : list Event :=
  match r with Ok value => [event (au_ID value)] | Err _ => [] end.

Section Steps.
Variable items : option (list Device).
Variable access : option (Key -> result AccessError EffectivePropertyConfig).

Definition with_task (x : System) (i : nat) (p : Phase) : System := MkSystem (service x) (<[i := p]> (tasks x)).

Inductive sstep (x : System) : list Event -> System -> Prop :=
| step_create f now id value s r :
    Create items access (service x) f now id value = (s, r) -> sstep x (saved_event Created r) (MkSystem s (tasks x))
| step_update f now id value s r :
    Update items access (service x) f now id value = (s, r) -> sstep x (saved_event Updated r) (MkSystem s (tasks x))
| step_delete f id s r :
    Delete (service x) f id = (s, r) -> sstep x (if is_ok r then [Deleted id] else []) (MkSystem s (tasks x))
| step_load i value source :
    tasks x !! i = None -> loads (service x) value source -> sstep x [] (with_task x i (Loaded value source))
| step_begin i f e value source s r :
    tasks x !! i = Some (Loaded value source) -> executions (service x) !! e = None ->
    begin (service x) f e value = (s, r) ->
    sstep x (match r with Ok (Some _) => [Began (au_ID value) e] | _ => [] end)
      (MkSystem s (<[i := match r with Ok (Some _) => Begun value source e | _ => Finished end]> (tasks x)))
| step_answer i value source e answer :
    tasks x !! i = Some (Begun value source e) -> sstep x [] (with_task x i (Answered value source e answer))
| step_skip i value source e answer :
    tasks x !! i = Some (Answered value source e answer) -> needs_approval value answer = false ->
    sstep x [] (with_task x i (Decided value source e (match answer with Ok run => run | Err _ => zero_run end) (negb (is_ok answer))))
| step_refuse i f value source e run err :
    tasks x !! i = Some (Answered value source e (Ok run)) -> needs_approval value (Ok run) = true ->
    approveUnattended (service x) f value e = Err err ->
    sstep x [] (with_task x i (Decided value source e (decided_run run (Err err)).1 (decided_run run (Err err)).2))
| step_approve i f value source e run reply :
    tasks x !! i = Some (Answered value source e (Ok run)) -> needs_approval value (Ok run) = true ->
    approveUnattended (service x) f value e = Ok tt ->
    sstep x [ApprovedUnattended (au_ID value) e (run_ID run)]
      (with_task x i (Decided value source e (decided_run run reply).1 (decided_run run reply).2))
| step_record i f value source e run failed now s r :
    tasks x !! i = Some (Decided value source e run failed) ->
    recordRun (service x) f value e (finished_run value source run now) failed now = (s, r) ->
    sstep x [] (MkSystem s (<[i := Recorded value e]> (tasks x)))
| step_end i value e :
    tasks x !! i = Some (Recorded value e) ->
    sstep x [] (MkSystem (end_ (service x) (au_ID value) e) (<[i := Finished]> (tasks x)))
| step_by_hand f id runID answer now s r :
    ApproveRun (service x) f id runID answer now = (s, r) ->
    sstep x (if is_ok (approvable (service x) f id runID) then [ApprovedByHand id runID] else []) (MkSystem s (tasks x))
| step_restart : sstep x [] (MkSystem (MkService (rows (service x)) ∅ ∅) ∅).

(** What happened since the first start, and where the system is. *)
Inductive traced : list Event -> System -> Prop :=
| traced_start : traced [] (MkSystem (MkService ∅ ∅ ∅) ∅)
| traced_step tr x evs x' : traced tr x -> sstep x evs x' -> traced (tr ++ evs) x'.

End Steps.

Definition created (tr : list Event) : list string := omap (fun ev => match ev with Created id => Some id | _ => None end) tr.
Definition is_update (id : string) (ev : Event) : bool := match ev with Updated i => i =s id | _ => false end.
Definition updates (id : string) (tr : list Event) : Z := Z.of_nat (List.length (List.filter (is_update id) tr)).

(** Generated identifiers do not repeat, and the generation of no automation wraps around. *)
Definition ordinary (tr : list Event) : Prop := NoDup (created tr) /\ Z.of_nat (List.length tr) < two64 - 1.

(** ** The rows *)

Lemma au_ID_Normalize a : au_ID (Normalize a) = TrimSpace (au_ID a).
Proof. done. Qed.
Lemma au_Generation_Normalize a : au_Generation (Normalize a) = au_Generation a.
Proof. done. Qed.

Definition row_ok (k : string) (a : Automation) : Prop :=
  au_ID a = k /\ TrimSpace k = k /\ (List.length (au_RunHistory a) <= MaxRunHistory)%nat.
Definition rows_ok (m : Rows) : Prop := forall k a, m !! k = Some a -> row_ok k a.

Lemma get_row m id a : rows_ok m -> GetAIAutomation m id = Some a ->
  exists b, m !! id = Some b /\ a = Normalize b /\ au_ID a = id /\ TrimSpace id = id /\ au_Generation a = au_Generation b.
Proof.
  unfold GetAIAutomation. intros Hm H. destruct (m !! id) as [b|] eqn:E; [|done]. injection H as <-.
  destruct (Hm _ _ E) as (Hid & Ht & _). exists b. split_and!; [done..| |done|done]. by rewrite au_ID_Normalize, Hid.
Qed.

Lemma get_none m id : GetAIAutomation m id = None -> m !! id = None.
Proof. unfold GetAIAutomation. by destruct (m !! id). Qed.

Lemma save_row_fields m a : exists c u, SaveAIAutomation m a = <[au_ID a := with_times a c u]> m.
Proof. unfold SaveAIAutomation. by eexists _, _. Qed.

Lemma with_times_fields a c u : au_ID (with_times a c u) = au_ID a /\ au_Generation (with_times a c u) = au_Generation a /\
  au_RunHistory (with_times a c u) = au_RunHistory a /\ au_Enabled (with_times a c u) = au_Enabled a.
Proof. by destruct a. Qed.

Lemma history_Normalize a : (List.length (au_RunHistory (Normalize a)) <= MaxRunHistory)%nat.
Proof. simpl. rewrite List.length_map. rewrite length_take. lia. Qed.

(** ** What each operation does to the rows *)

(** The rows change at one automation at most; [g] is its generation afterwards. *)
Definition writes (m m' : Rows) (id : string) (g : Z) : Prop :=
  exists a, m' = <[id := a]> m /\ row_ok id a /\ au_Generation a = g.

Lemma save_writes m a : TrimSpace (au_ID a) = au_ID a -> (List.length (au_RunHistory a) <= MaxRunHistory)%nat ->
  writes m (SaveAIAutomation m a) (au_ID a) (au_Generation a).
Proof.
  intros Ht Hh. destruct (save_row_fields m a) as (c & u & ->). destruct (with_times_fields a c u) as (E1 & E2 & E3 & _).
  exists (with_times a c u). split_and!; [done| |done]. unfold row_ok. by rewrite E1, E3.
Qed.

Lemma writes_ok m m' id g : rows_ok m -> writes m m' id g -> rows_ok m'.
Proof. intros Hm (a & -> & Ha & _) k b [[<- <-]|[_ Hb]]%lookup_insert_Some; [done|by apply Hm]. Qed.

Lemma cancel_rows s id : rows (cancelRunningLocked s id) = rows s /\ running (cancelRunningLocked s id) = running s.
Proof. unfold cancelRunningLocked. by destruct (running s !! id). Qed.

Lemma cancel_executions s id e : exists b, executions (cancelRunningLocked s id) !! e =
  (fun x => MkExecution (ex_AutomationID x) (ex_generation x) (b || ex_cancelled x)) <$> executions s !! e.
Proof.
  assert (Hid : executions s !! e = (fun x => MkExecution (ex_AutomationID x) (ex_generation x) (false || ex_cancelled x)) <$> executions s !! e)
    by (destruct (executions s !! e) as [[]|]; done).
  unfold cancelRunningLocked. destruct (running s !! id) as [e'|]; [|by exists false]. simpl.
  destruct (decide (e = e')) as [<-|Hne]; [exists true|exists false].
  - rewrite lookup_alter_eq. by destruct (executions s !! e).
  - rewrite lookup_alter_ne by done. exact Hid.
Qed.

(** The executions of two services agree up to cancellation. *)
Definition same_executions (s s' : AIAutomationService) : Prop :=
  forall e, (fun x => (ex_AutomationID x, ex_generation x)) <$> executions s' !! e =
            (fun x => (ex_AutomationID x, ex_generation x)) <$> executions s !! e.

Lemma same_executions_refl s : same_executions s s.
Proof. done. Qed.

Lemma cancel_same s id : same_executions s (cancelRunningLocked s id).
Proof. intros e. destruct (cancel_executions s id e) as [b ->]. by destruct (executions s !! e). Qed.

Lemma inherit_fields value existing now : au_ID (inherit value existing now) = au_ID value /\
  au_Generation (inherit value existing now) = u64_succ (au_Generation existing) /\
  au_RunHistory (inherit value existing now) = au_RunHistory existing.
Proof. by destruct value. Qed.
Lemma fresh_fields value now : au_ID (fresh value now) = au_ID value /\ au_Generation (fresh value now) = 1 /\
  au_RunHistory (fresh value now) = [].
Proof. by destruct value. Qed.

Lemma with_run_fields value i st m t h u : au_ID (with_run value i st m t h u) = au_ID value /\
  au_Generation (with_run value i st m t h u) = au_Generation value /\ au_RunHistory (with_run value i st m t h u) = h.
Proof. by destruct value. Qed.

Section Saves.
Variable items : option (list Device).
Variable access : option (Key -> result AccessError EffectivePropertyConfig).

(** A saved document replaces the one with its identifier, with the next generation. *)
Lemma save_spec s f now value requireExisting s' r : rows_ok (rows s) ->
  save items access s f now value requireExisting = (s', r) ->
  running s' = running s /\ same_executions s s' /\
  match r with
  | Err _ => rows s' = rows s
  | Ok a =>
      let found := rows s !! au_ID a in
      present found = requireExisting /\
      writes (rows s) (rows s') (au_ID a) (match found with Some b => u64_succ (au_Generation b) | None => 1 end)
  end.
Proof.
  intros Hm H. unfold save in H. cbv zeta in H.
  assert (Ht : TrimSpace (au_ID (Normalize value)) = au_ID (Normalize value)) by apply trim_idem.
  generalize dependent (Normalize value). clear value. intros value H Ht.
  destruct (let! _ := Validate value in _) as [[]|e]; [|injection H as <- <-; done].
  destruct (get_fails f); [injection H as <- <-; done|].
  destruct (GetAIAutomation (rows s) (au_ID value)) as [existing|] eqn:Eg.
  - destruct requireExisting; [|injection H as <- <-; done].
    destruct (get_row _ _ _ Hm Eg) as (b & Hb & Ee & _ & _ & Eb).
    destruct (cancel_rows s (au_ID value)) as [Er Eru].
    destruct (inherit_fields value existing now) as (E1 & E2 & E3).
    assert (Hh : (List.length (au_RunHistory existing) <= MaxRunHistory)%nat) by (rewrite Ee; apply history_Normalize).
    revert H. generalize dependent (inherit value existing now). intros a E1 E2 E3 H.
    destruct (save_fails f); injection H as <- <-; (split; [done|split; [apply cancel_same|]]); [done|].
    cbn [rows set_rows]. rewrite Er, E1, Hb. split; [done|]. rewrite <- Eb, <- E2.
    rewrite <- E1. apply save_writes; rewrite ?E1; [done|]. by rewrite E3.
  - destruct requireExisting; [injection H as <- <-; done|].
    destruct (fresh_fields value now) as (E1 & E2 & E3). apply get_none in Eg.
    revert H. generalize dependent (fresh value now). intros a E1 E2 E3 H.
    destruct (save_fails f); injection H as <- <-; (split; [done|split; [done|]]); [done|].
    cbn [rows set_rows]. rewrite E1, Eg. split; [done|]. rewrite <- E2, <- E1.
    apply save_writes; rewrite ?E1; [done|]. rewrite E3. simpl. lia.
Qed.

End Saves.

Lemma delete_spec s f id s' r : rows_ok (rows s) -> Delete s f id = (s', r) ->
  running s' = running s /\ same_executions s s' /\
  match r with Err _ => rows s' = rows s | Ok _ => is_Some (rows s !! id) /\ rows s' = delete id (rows s) end.
Proof.
  intros Hm H. unfold Delete in H. destruct (get_fails f); [injection H as <- <-; done|].
  destruct (GetAIAutomation (rows s) id) as [a|] eqn:Eg; [|injection H as <- <-; done].
  destruct (get_row _ _ _ Hm Eg) as (b & Hb & _). destruct (cancel_rows s id) as [Er Eru].
  destruct (save_fails f); injection H as <- <-; (split; [done|split; [apply cancel_same|]]); [done|].
  cbn [rows set_rows]. rewrite Er. split; [by exists b|done].
Qed.

(** Recording a run and approving one by hand keep the generation. *)
Definition rewrites (m m' : Rows) : Prop :=
  m' = m \/ exists id b, m !! id = Some b /\ writes m m' id (au_Generation b).

Lemma rewrite_row m id a i st msg t h u : rows_ok m -> GetAIAutomation m id = Some a ->
  (List.length h <= MaxRunHistory)%nat -> rewrites m (SaveAIAutomation m (with_run a i st msg t h u)).
Proof.
  intros Hm Hg Hh. destruct (get_row _ _ _ Hm Hg) as (b & Hb & _ & Hid & Ht & Eg).
  destruct (with_run_fields a i st msg t h u) as (E1 & E2 & E3). right. exists id, b. split; [done|].
  rewrite <- Eg, <- E2. replace id with (au_ID (with_run a i st msg t h u)) by (by rewrite E1).
  apply save_writes; rewrite ?E1, ?E3, ?Hid; done.
Qed.

Lemma record_spec s f value e run failed now s' r : rows_ok (rows s) ->
  recordRun s f value e run failed now = (s', r) ->
  running s' = running s /\ executions s' = executions s /\ rewrites (rows s) (rows s').
Proof.
  intros Hm H. unfold recordRun in H. destruct (negb _); [injection H as <- <-; by split_and!; [..|left]|].
  destruct (get_fails f); [injection H as <- <-; by split_and!; [..|left]|].
  destruct (GetAIAutomation (rows s) (au_ID value)) as [a|] eqn:Eg; [|injection H as <- <-; by split_and!; [..|left]].
  destruct (negb _) in H; [injection H as <- <-; by split_and!; [..|left]|].
  destruct (if _ && _ then _ else _) as [[lastID status] message] in H.
  destruct (save_fails f); injection H as <- <-; [by split_and!; [..|left]|]. split_and!; [done..|].
  eapply rewrite_row; [done|done|]. unfold appendRunHistory. rewrite length_take. lia.
Qed.

Lemma approve_spec s f id runID answer now s' r : rows_ok (rows s) ->
  ApproveRun s f id runID answer now = (s', r) ->
  running s' = running s /\ executions s' = executions s /\ rewrites (rows s) (rows s').
Proof.
  intros Hm H. unfold ApproveRun in H. destruct (approvable s f id runID) as [[[value index] record]|] eqn:Ea;
    [|injection H as <- <-; by split_and!; [..|left]].
  destruct answer as [run|]; [|injection H as <- <-; by split_and!; [..|left]].
  destruct (if au_LastRunID value =s _ then _ else _) as [status message] in H.
  destruct (save_fails f); injection H as <- <-; [by split_and!; [..|left]|]. split_and!; [done..|].
  unfold approvable in Ea. destruct (negb (get_fails f)); [|done].
  destruct (GetAIAutomation (rows s) id) as [a|] eqn:Eg; [|done]. destruct (au_Enabled a); [|done].
  destruct (list_find _ _) as [[n rec]|]; [|done]. destruct (negb (_ || _)) in Ea; [|done]. injection Ea as <- <- <-.
  eapply rewrite_row; [done|done|]. rewrite length_alter.
  destruct (get_row _ _ _ Hm Eg) as (b & _ & -> & _). apply history_Normalize.
Qed.

Lemma begin_spec s f e value s' r : begin s f e value = (s', r) ->
  match r with
  | Ok (Some e') => e' = e /\ rows s' = rows s /\ running s !! au_ID value = None /\
      running s' = <[au_ID value := e]> (running s) /\
      executions s' = <[e := MkExecution (au_ID value) (au_Generation value) false]> (executions s) /\
      exists a, GetAIAutomation (rows s) (au_ID value) = Some a /\ au_Generation a = au_Generation value
  | _ => s' = s
  end.
Proof.
  unfold begin. intros H. destruct (get_fails f); [injection H as <- <-; done|].
  destruct (GetAIAutomation (rows s) (au_ID value)) as [a|] eqn:Eg; [|injection H as <- <-; done].
  destruct (negb (au_Enabled a) || _) eqn:Eb; [injection H as <- <-; done|]. bool_prop.
  destruct (running s !! au_ID value) eqn:Er; injection H as <- <-; [done|]. split_and!; [done..|]. by exists a.
Qed.

Lemma end_same s id e : rows (end_ s id e) = rows s /\ same_executions s (end_ s id e).
Proof.
  unfold end_. set (s0 := if bool_decide _ then _ else _). assert (rows s0 = rows s /\ executions s0 = executions s) as [<- Ee]
    by (by unfold s0; case_bool_decide).
  split; [done|]. intros k. cbn [executions set_executions]. rewrite Ee.
  destruct (decide (k = e)) as [->|]; [rewrite lookup_alter_eq; by destruct (executions s !! e)|by rewrite lookup_alter_ne].
Qed.

(** ** Counting changes *)

Lemma updates_app id tr tr' : updates id (tr ++ tr') = updates id tr + updates id tr'.
Proof. unfold updates. rewrite List.filter_app, length_app. lia. Qed.

Lemma updates_nonneg id tr : 0 <= updates id tr.
Proof. unfold updates. lia. Qed.

Lemma updates_length id tr : updates id tr <= Z.of_nat (List.length tr).
Proof. unfold updates. induction tr as [|ev tr IH]; simpl; [lia|]. destruct (is_update id ev); simpl; lia. Qed.

Lemma updates_zero id tr : updates id tr = 0 -> Updated id ∉ tr.
Proof.
  unfold updates. intros H Hin. assert (Hf : Updated id ∈ List.filter (is_update id) tr).
  { apply list_elem_of_In, filter_In. split; [by apply list_elem_of_In|]. simpl. by apply bool_decide_eq_true. }
  destruct (List.filter _ tr); [by apply not_elem_of_nil in Hf|]. simpl in H. lia.
Qed.

Lemma updates_saved id a : updates id (saved_event Updated (Ok a)) = if decide (au_ID a = id) then 1 else 0.
Proof. unfold updates. simpl. by destruct (decide (au_ID a = id)) as [<-|H]; [rewrite bool_decide_eq_true_2|rewrite bool_decide_eq_false_2]. Qed.

Lemma ordinary_app tr tr' : ordinary (tr ++ tr') -> ordinary tr.
Proof.
  unfold ordinary, created. rewrite omap_app, NoDup_app, length_app. intros [(H & _) Hl]. split; [done|lia].
Qed.

(** An event that changes no automation. *)
Definition neutral (ev : Event) : Prop :=
  match ev with Created _ | Updated _ | Deleted _ => False | _ => True end.

Lemma neutral_updates id evs : Forall neutral evs -> updates id evs = 0.
Proof.
  unfold updates. induction 1 as [|ev evs Hev _ IH]; [done|]. simpl. by destruct ev.
Qed.

Lemma neutral_not evs : Forall neutral evs -> forall id, (Created id ∉ evs) /\ (Updated id ∉ evs) /\ (Deleted id ∉ evs).
Proof. intros H id. rewrite Forall_forall in H. split_and!; intros Hin; by apply H in Hin. Qed.

(** ** The invariant of a trace *)

Record faithful (tr : list Event) (m : Rows) : Prop := {
  fa_rows : rows_ok m;
  fa_generation : forall id a, m !! id = Some a ->
    au_Generation a = 1 + updates id tr /\ (Deleted id ∉ tr) /\ Created id ∈ tr;
  fa_known : forall id, Created id ∉ tr -> updates id tr = 0 /\ Deleted id ∉ tr;
}.

Lemma created_elem id tr : id ∈ created tr <-> Created id ∈ tr.
Proof.
  unfold created. rewrite list_elem_of_omap. split; [intros (ev & Hin & H); destruct ev; by simplify_eq|].
  intros H. by exists (Created id).
Qed.

Lemma faithful_neutral tr m evs : Forall neutral evs -> faithful tr m -> faithful (tr ++ evs) m.
Proof.
  intros He [H1 H2 H3]. pose proof (neutral_not _ He) as Hn. split; [done| |].
  - intros id a Ha. rewrite updates_app, (neutral_updates id _ He), Z.add_0_r, !elem_of_app.
    destruct (H2 _ _ Ha) as (? & ? & ?). destruct (Hn id) as (_ & _ & ?). tauto.
  - intros id. rewrite updates_app, (neutral_updates id _ He), Z.add_0_r, !elem_of_app. intros Hc.
    destruct (H3 id) as [? ?]; [tauto|]. destruct (Hn id) as (_ & _ & ?). tauto.
Qed.

Lemma faithful_rewrites tr m m' : faithful tr m -> rewrites m m' -> faithful tr m'.
Proof.
  intros [H1 H2 H3] [->|(id & b & Hb & Hw)]; [done|]. split; [by eapply writes_ok| |done].
  destruct Hw as (a & -> & _ & Hg). intros k x [[<- <-]|[_ Hx]]%lookup_insert_Some; [|by apply H2].
  rewrite Hg. by apply H2.
Qed.

Lemma faithful_create tr m m' id : faithful tr m -> ordinary (tr ++ [Created id]) -> m !! id = None -> writes m m' id 1 ->
  faithful (tr ++ [Created id]) m'.
Proof.
  intros [H1 H2 H3] [Hnd _] Hid Hw. unfold created in Hnd. rewrite omap_app, NoDup_app in Hnd. destruct Hnd as (_ & Hnd & _).
  assert (Hc : Created id ∉ tr). { intros Hin. apply created_elem, Hnd in Hin. apply Hin. by apply list_elem_of_singleton. }
  destruct (H3 id Hc) as [Hu Hd]. split; [by eapply writes_ok| |].
  - destruct Hw as (a & -> & _ & Hg). intros k x [[<- <-]|[Hne Hx]]%lookup_insert_Some; rewrite updates_app; cbn.
    + rewrite Hg, Hu. split; [done|]. rewrite !elem_of_app. set_solver.
    + destruct (H2 _ _ Hx) as (-> & ? & ?). split; [unfold updates; simpl; lia|]. rewrite !elem_of_app. set_solver.
  - intros k Hk. rewrite elem_of_app in Hk. destruct (H3 k) as [E ?]; [tauto|]. rewrite updates_app, E. split; [done|].
    rewrite elem_of_app. set_solver.
Qed.

Lemma faithful_update tr m m' id b : faithful tr m -> ordinary (tr ++ [Updated id]) -> m !! id = Some b ->
  writes m m' id (u64_succ (au_Generation b)) -> faithful (tr ++ [Updated id]) m'.
Proof.
  intros [H1 H2 H3] [_ Hlen] Hb Hw. destruct (H2 _ _ Hb) as (Eg & Hd & Hc).
  pose proof (updates_nonneg id tr) as Hn. pose proof (updates_length id tr) as Hl.
  rewrite length_app in Hlen. simpl in Hlen.
  assert (Hone : forall k, updates k [Updated id] = if decide (k = id) then 1 else 0).
  { intros k. unfold updates. simpl. by destruct (decide (k = id)) as [->|]; [rewrite bool_decide_eq_true_2|rewrite bool_decide_eq_false_2]. }
  split; [by eapply writes_ok| |].
  - destruct Hw as (a & -> & _ & Hg). intros k x [[<- <-]|[Hne Hx]]%lookup_insert_Some; rewrite updates_app, Hone, !elem_of_app.
    + rewrite decide_True by done. rewrite Hg, u64_succ_small by lia. split; [lia|]. set_solver.
    + rewrite decide_False by done. destruct (H2 _ _ Hx) as (-> & ? & ?). split; [lia|]. set_solver.
  - intros k Hk. rewrite elem_of_app in Hk. destruct (H3 k) as [E ?]; [tauto|]. rewrite updates_app, E, Hone, elem_of_app.
    destruct (decide (k = id)) as [->|]; [tauto|]. split; [done|]. set_solver.
Qed.

Lemma faithful_delete tr m id : faithful tr m -> is_Some (m !! id) -> faithful (tr ++ [Deleted id]) (delete id m).
Proof.
  intros [H1 H2 H3] [b Hb]. split.
  - intros k a [_ Ha]%lookup_delete_Some. by apply H1.
  - intros k a [Hne Ha]%lookup_delete_Some. destruct (H2 _ _ Ha) as (-> & ? & ?). rewrite updates_app, !elem_of_app.
    unfold updates at 3. simpl. split; [lia|]. set_solver.
  - intros k Hk. rewrite elem_of_app in Hk. destruct (H3 k) as [E ?]; [tauto|]. rewrite updates_app, E, elem_of_app. split; [done|].
    destruct (H2 _ _ Hb) as (_ & _ & Hc). set_solver.
Qed.

(** Every execution began at a known point, with the generation of that time; a running
    automation has its execution. *)
Definition begun_at (tr : list Event) (e : nat) (x : automationExecution) : Prop :=
  exists tr0 tr1, tr = tr0 ++ Began (ex_AutomationID x) e :: tr1 /\ ex_generation x = 1 + updates (ex_AutomationID x) tr0.

Record executed (tr : list Event) (s : AIAutomationService) : Prop := {
  xe_begun : forall e x, executions s !! e = Some x -> begun_at tr e x;
  xe_running : forall id e, running s !! id = Some e -> exists x, executions s !! e = Some x /\ ex_AutomationID x = id;
}.

Lemma begun_app tr evs e x : begun_at tr e x -> begun_at (tr ++ evs) e x.
Proof. intros (tr0 & tr1 & -> & Hg). exists tr0, (tr1 ++ evs). by rewrite <- app_assoc. Qed.

Lemma same_some s s' e x : same_executions s s' -> executions s' !! e = Some x ->
  exists y, executions s !! e = Some y /\ ex_AutomationID y = ex_AutomationID x /\ ex_generation y = ex_generation x.
Proof. intros H E. specialize (H e). rewrite E in H. destruct (executions s !! e) as [y|]; [|done]. injection H as ??. by exists y. Qed.

Lemma executed_same tr s s' evs : executed tr s -> same_executions s s' ->
  (forall id e, running s' !! id = Some e -> running s !! id = Some e) -> executed (tr ++ evs) s'.
Proof.
  intros [H1 H2] Hs Hr. split.
  - intros e x Hx. destruct (same_some _ _ _ _ Hs Hx) as (y & Hy & Ei & Eg).
    destruct (begun_app _ evs _ _ (H1 _ _ Hy)) as (tr0 & tr1 & E & G). exists tr0, tr1. by rewrite <- Ei, <- Eg.
  - intros id e He. destruct (H2 _ _ (Hr _ _ He)) as (x & Hx & <-). specialize (Hs e). rewrite Hx in Hs.
    destruct (executions s' !! e) as [y|] eqn:Ey; [|done]. injection Hs as Hs _. by exists y.
Qed.

Section Traces.
Variable items : option (list Device).
Variable access : option (Key -> result AccessError EffectivePropertyConfig).

Lemma single_neutral ev : neutral ev -> Forall neutral [ev].
Proof. by constructor. Qed.

Lemma step_invariant tr x evs x' : sstep items access x evs x' -> ordinary (tr ++ evs) ->
  faithful tr (rows (service x)) -> executed tr (service x) ->
  faithful (tr ++ evs) (rows (service x')) /\ executed (tr ++ evs) (service x').
Proof.
  intros Hs Hord Hf Hx. pose proof (fa_rows _ _ Hf) as Hm.
  destruct Hs as [f now id value s r H|f now id value s r H|f id s r H|i value source Hi Hl|i f e value source s r Hi He H
    |i value source e answer Hi|i value source e answer Hi Hn|i f value source e run err Hi Hn Ha|i f value source e run reply Hi Hn Ha
    |i f value source e run failed now s r Hi H|i value e Hi|f id runID answer now s r H|]; cbn [service rows with_task].
  - assert (Hsave : running s = running (service x) /\ same_executions (service x) s /\
      match r with Err _ => rows s = rows (service x) | Ok a => rows (service x) !! au_ID a = None /\ writes (rows (service x)) (rows s) (au_ID a) 1 end).
    { unfold Create in H. destruct (negb _); [injection H as <- <-; done|]. apply save_spec in H; [|done].
      destruct H as (? & ? & H). split_and!; [done..|]. destruct r as [a|]; [|done]. destruct H as [Hp Hw].
      destruct (rows (service x) !! au_ID a); [done|]. done. }
    destruct Hsave as (Er & Hse & Hr). split; [|eapply executed_same; [done..|]; by rewrite Er].
    destruct r as [a|]; simpl in *; [|rewrite app_nil_r, Hr; done]. destruct Hr. by apply faithful_create with (m := rows (service x)).
  - unfold Update in H. apply save_spec in H; [|done]. destruct H as (Er & Hse & Hr).
    split; [|eapply executed_same; [done..|]; by rewrite Er].
    destruct r as [a|]; simpl in *; [|rewrite app_nil_r, Hr; done]. destruct Hr as [Hp Hw].
    destruct (rows (service x) !! au_ID a) as [b|] eqn:Eb; [|done]. by eapply faithful_update.
  - apply delete_spec in H; [|done]. destruct H as (Er & Hse & Hr). split; [|eapply executed_same; [done..|]; by rewrite Er].
    destruct r as [[]|]; simpl in *; [|rewrite app_nil_r, Hr; done]. destruct Hr as [Hsome ->]. by apply faithful_delete.
  - rewrite app_nil_r. done.
  - apply begin_spec in H. destruct r as [[e'|]|]; [|subst s; rewrite app_nil_r; done..].
    destruct H as (-> & Er & Hnone & Eru & Ee & a & Ha & Hga). rewrite Er. split; [by apply faithful_neutral; [apply single_neutral|]|].
    destruct (get_row _ _ _ Hm Ha) as (b & Hb & _ & _ & _ & Hgb). destruct (fa_generation _ _ Hf _ _ Hb) as (Hg & _ & _).
    destruct Hx as [H1 H2]. split.
    + rewrite Ee. intros k y [[<- <-]|[_ Hy]]%lookup_insert_Some; [|by apply begun_app, H1].
      exists tr, []. split; [done|]. cbn [ex_generation ex_AutomationID]. rewrite <- Hga, Hgb. exact Hg.
    + rewrite Eru, Ee. intros id k [[<- <-]|[_ Hk]]%lookup_insert_Some; [eexists; split; [apply lookup_insert_eq|done]|].
      destruct (H2 _ _ Hk) as (y & Hy & Hid). exists y. split; [|done]. rewrite lookup_insert_ne; [done|]. intros ->. congruence.
  - rewrite app_nil_r. done.
  - rewrite app_nil_r. done.
  - rewrite app_nil_r. done.
  - split; [by apply faithful_neutral; [apply single_neutral|]|]. by eapply executed_same.
  - rewrite app_nil_r. apply record_spec in H; [|done]. destruct H as (Er & Ee & Hw). split; [by eapply faithful_rewrites|].
    rewrite <- (app_nil_r tr). eapply executed_same; [done| |by rewrite Er]. intros k. by rewrite Ee.
  - rewrite app_nil_r. destruct (end_same (service x) (au_ID value) e) as [Er Hse]. rewrite Er. split; [done|].
    rewrite <- (app_nil_r tr). eapply executed_same; [done..|]. intros id k. unfold end_. cbn [running set_executions].
    case_bool_decide; [|done]. cbn [running set_running]. by intros [_ ?]%lookup_delete_Some.
  - apply approve_spec in H; [|done]. destruct H as (Er & Ee & Hw). split.
    + apply faithful_neutral; [by destruct (is_ok _); repeat constructor|]. by eapply faithful_rewrites.
    + eapply executed_same; [done| |by rewrite Er]. intros k. by rewrite Ee.
  - rewrite app_nil_r. split; [done|]. split; intros k y H; cbn in H; by rewrite lookup_empty in H.
Qed.

Lemma traced_invariant tr x : traced items access tr x -> ordinary tr -> faithful tr (rows (service x)) /\ executed tr (service x).
Proof.
  induction 1 as [|tr x evs x' _ IH Hs]; intros Hord.
  - split; split; cbn; try (intros k a H; by rewrite lookup_empty in H); [by intros k a ?..|].
    intros k _. split; [done|apply not_elem_of_nil].
  - destruct (IH (ordinary_app _ _ Hord)) as [Hf Hx]. by apply (step_invariant tr x evs x').
Qed.

End Traces.

(** ** Tasks and the locks of automations *)

(** The automation and the execution a task holds. *)
Definition live (p : Phase) : option (string * nat) :=
  match p with
  | Begun value _ e | Answered value _ e _ | Decided value _ e _ _ | Recorded value e => Some (au_ID value, e)
  | Loaded _ _ | Finished => None
  end.

Record locked (x : System) : Prop := {
  lk_held : forall i p id e, tasks x !! i = Some p -> live p = Some (id, e) ->
    running (service x) !! id = Some e /\ is_Some (executions (service x) !! e);
  lk_unique : forall i j p q id id' e, tasks x !! i = Some p -> tasks x !! j = Some q ->
    live p = Some (id, e) -> live q = Some (id', e) -> i = j;
  lk_task : forall id e, running (service x) !! id = Some e -> exists i p, tasks x !! i = Some p /\ live p = Some (id, e);
}.

Lemma same_is_Some s s' e : same_executions s s' -> is_Some (executions s !! e) -> is_Some (executions s' !! e).
Proof. intros H Hx. apply (fmap_is_Some (fun x => (ex_AutomationID x, ex_generation x))). rewrite H. by apply fmap_is_Some. Qed.

(** The service changes, no lock is taken or released. *)
Lemma locked_service x s : locked x -> running s = running (service x) -> same_executions (service x) s ->
  locked (MkSystem s (tasks x)).
Proof.
  intros [H1 H2 H3] Er He. split; cbn [service tasks]; rewrite ?Er; [|exact H2|exact H3].
  intros i p id e Hi Hl. destruct (H1 _ _ _ _ Hi Hl). split; [done|by eapply same_is_Some].
Qed.

(** A task goes on, with the lock it has. *)
Lemma locked_phase x i p q : locked x -> tasks x !! i = Some p -> live q = live p -> locked (with_task x i q).
Proof.
  intros [H1 H2 H3] Hi Hl.
  assert (Hback : forall j r, <[i := q]> (tasks x) !! j = Some r -> exists r', tasks x !! j = Some r' /\ live r' = live r).
  { intros j r [[<- <-]|[_ Hj]]%lookup_insert_Some; eauto. }
  split; cbn [service tasks with_task].
  - intros j r id e Hj Hr. destruct (Hback _ _ Hj) as (r' & Hj' & E). rewrite <- E in Hr. by eapply H1.
  - intros j k r t id id' e Hj Hk Hr Ht. destruct (Hback _ _ Hj) as (r' & Hj' & E), (Hback _ _ Hk) as (t' & Hk' & E').
    rewrite <- E in Hr. rewrite <- E' in Ht. by eapply H2.
  - intros id e He. destruct (H3 _ _ He) as (j & r & Hj & Hr). destruct (decide (i = j)) as [<-|Hne].
    + exists i, q. rewrite lookup_insert_eq, Hl. split; [done|]. by simplify_eq.
    + exists j, r. by rewrite lookup_insert_ne.
Qed.

(** A task that holds nothing. *)
Lemma locked_idle x i p q : locked x -> tasks x !! i = p -> (p ≫= live) = None -> live q = None -> locked (with_task x i q).
Proof.
  intros [H1 H2 H3] Hi Hp Hq. split; cbn [service tasks with_task].
  - intros j r id e [[<- <-]|[_ Hj]]%lookup_insert_Some Hr; [by rewrite Hq in Hr|by eapply H1].
  - intros j k r t id id' e [[<- <-]|[_ Hj]]%lookup_insert_Some [[<- <-]|[_ Hk]]%lookup_insert_Some Hr Ht;
      [done|by rewrite Hq in Hr|by rewrite Hq in Ht|by eapply H2].
  - intros id e He. destruct (H3 _ _ He) as (j & r & Hj & Hr). exists j, r. rewrite lookup_insert_ne; [done|].
    intros <-. rewrite Hj in Hi. subst p. simpl in Hp. by rewrite Hr in Hp.
Qed.

Lemma locked_begin x i value source e : locked x -> tasks x !! i = Some (Loaded value source) ->
  executions (service x) !! e = None -> running (service x) !! au_ID value = None ->
  forall s, running s = <[au_ID value := e]> (running (service x)) ->
  executions s = <[e := MkExecution (au_ID value) (au_Generation value) false]> (executions (service x)) ->
  locked (MkSystem s (<[i := Begun value source e]> (tasks x))).
Proof.
  intros [H1 H2 H3] Hi He Hr s Er Ee.
  assert (Hfresh : forall j p id, tasks x !! j = Some p -> live p = Some (id, e) -> False).
  { intros j p id Hj Hl. destruct (H1 _ _ _ _ Hj Hl) as [_ [y Hy]]. by rewrite He in Hy. }
  split; cbn [service tasks]; rewrite ?Er, ?Ee.
  - intros j r id k [[<- <-]|[_ Hj]]%lookup_insert_Some Hl; [injection Hl as <- <-; by rewrite !lookup_insert_eq|].
    destruct (H1 _ _ _ _ Hj Hl) as [Hid Hk]. rewrite !lookup_insert_ne; [done|intros <-; first [congruence|by eapply Hfresh]..].
  - intros j k r t id id' f [[<- <-]|[_ Hj]]%lookup_insert_Some [[<- <-]|[_ Hk]]%lookup_insert_Some Hl Hl'; [done|..|by eapply H2].
    + injection Hl as _ <-. by destruct (Hfresh _ _ _ Hk Hl').
    + injection Hl' as _ <-. by destruct (Hfresh _ _ _ Hj Hl).
  - intros id k [[<- <-]|[_ Hk]]%lookup_insert_Some; [exists i, (Begun value source e); by rewrite lookup_insert_eq|].
    destruct (H3 _ _ Hk) as (j & r & Hj & Hl). exists j, r. rewrite lookup_insert_ne; [done|]. intros <-. by simplify_eq.
Qed.

Lemma locked_end x i value e : locked x -> tasks x !! i = Some (Recorded value e) ->
  locked (MkSystem (end_ (service x) (au_ID value) e) (<[i := Finished]> (tasks x))).
Proof.
  intros [H1 H2 H3] Hi. destruct (H1 i _ (au_ID value) e Hi eq_refl) as [Hr He].
  destruct (end_same (service x) (au_ID value) e) as [_ Hse].
  assert (Er : running (end_ (service x) (au_ID value) e) = delete (au_ID value) (running (service x))).
  { unfold end_. cbn [running set_executions]. by rewrite bool_decide_eq_true_2. }
  split; cbn [service tasks]; rewrite ?Er.
  - intros j r id k [[<- <-]|[Hne Hj]]%lookup_insert_Some Hl; [done|]. destruct (H1 _ _ _ _ Hj Hl) as [Hid Hk].
    split; [|by eapply same_is_Some]. rewrite lookup_delete_ne; [done|]. intros <-. simplify_eq. apply Hne.
    by apply (H2 i j (Recorded value e) r (au_ID value) (au_ID value) e).
  - intros j k r t id id' f [[<- <-]|[_ Hj]]%lookup_insert_Some [[<- <-]|[_ Hk]]%lookup_insert_Some Hl Hl'; try done. by eapply H2.
  - intros id k [Hne Hk]%lookup_delete_Some. destruct (H3 _ _ Hk) as (j & r & Hj & Hl). exists j, r.
    rewrite lookup_insert_ne; [done|]. intros <-.
    rewrite Hi in Hj. injection Hj as <-. by injection Hl as <- <-.
Qed.

Section Theorems.
Variable items : option (list Device).
Variable access : option (Key -> result AccessError EffectivePropertyConfig).

Lemma step_locked x evs x' : sstep items access x evs x' -> rows_ok (rows (service x)) -> locked x -> locked x'.
Proof.
  intros Hs Hm Hx.
  destruct Hs as [f now id value s r H|f now id value s r H|f id s r H|i value source Hi Hl|i f e value source s r Hi He H
    |i value source e answer Hi|i value source e answer Hi Hn|i f value source e run err Hi Hn Ha|i f value source e run reply Hi Hn Ha
    |i f value source e run failed now s r Hi H|i value e Hi|f id runID answer now s r H|].
  - unfold Create in H. destruct (negb _); [injection H as <- <-; by apply locked_service|].
    apply save_spec in H; [|done]. destruct H as (? & ? & _). by apply locked_service.
  - apply save_spec in H; [|done]. destruct H as (? & ? & _). by apply locked_service.
  - apply delete_spec in H; [|done]. destruct H as (? & ? & _). by apply locked_service.
  - by eapply locked_idle.
  - apply begin_spec in H. destruct r as [[e'|]|];
      [|subst s; apply (locked_idle x i (Some (Loaded value source)) Finished); done..].
    destruct H as (-> & _ & Hnone & Er & Ee & _). by apply locked_begin.
  - by eapply locked_phase.
  - by eapply locked_phase.
  - by eapply locked_phase.
  - by eapply locked_phase.
  - apply record_spec in H; [|done]. destruct H as (Er & Ee & _).
    apply (locked_phase (MkSystem s (tasks x)) i (Decided value source e run failed)); [|done..].
    apply locked_service; [done..|]. intros k. by rewrite Ee.
  - by apply locked_end.
  - apply approve_spec in H; [|done]. destruct H as (Er & Ee & _). apply locked_service; [done..|]. intros k. by rewrite Ee.
  - split; cbn; [by intros i p id e Hi|by intros i j p q id id' e Hi|by intros id e He].
Qed.

Lemma step_rows_ok x evs x' : sstep items access x evs x' -> rows_ok (rows (service x)) -> rows_ok (rows (service x')).
Proof.
  intros Hs Hm.
  destruct Hs as [f now id value s r H|f now id value s r H|f id s r H|i value source Hi Hl|i f e value source s r Hi He H
    |i value source e answer Hi|i value source e answer Hi Hn|i f value source e run err Hi Hn Ha|i f value source e run reply Hi Hn Ha
    |i f value source e run failed now s r Hi H|i value e Hi|f id runID answer now s r H|]; cbn [service rows with_task]; try done.
  - unfold Create in H. destruct (negb _); [injection H as <- <-; done|].
    apply save_spec in H; [|done]. destruct H as (_ & _ & H). destruct r; [|by rewrite H]. by eapply writes_ok, H.
  - apply save_spec in H; [|done]. destruct H as (_ & _ & H). destruct r; [|by rewrite H]. by eapply writes_ok, H.
  - apply delete_spec in H; [|done]. destruct H as (_ & _ & H). destruct r; [|by rewrite H]. destruct H as [_ ->].
    intros k b [_ Hb]%lookup_delete_Some. by apply Hm.
  - apply begin_spec in H. destruct r as [[e'|]|]; [|by subst s..]. by destruct H as (_ & -> & _).
  - apply record_spec in H; [|done]. destruct H as (_ & _ & [->|(k & b & _ & H)]); [done|]. by eapply writes_ok.
  - by rewrite (proj1 (end_same _ _ _)).
  - apply approve_spec in H; [|done]. destruct H as (_ & _ & [->|(k & b & _ & H)]); [done|]. by eapply writes_ok.
Qed.

Lemma traced_locked tr x : traced items access tr x -> rows_ok (rows (service x)) /\ locked x.
Proof.
  induction 1 as [|tr x evs x' _ [IH1 IH2] Hs].
  - split; [by intros k a ?|]. split; cbn; [by intros i p id e Hi|by intros i j p q id id' e Hi|by intros id e He].
  - split; [by eapply step_rows_ok|by eapply step_locked].
Qed.

Lemma approve_unattended_ok s f value e : approveUnattended s f value e = Ok tt ->
  running s !! au_ID value = Some e /\
  exists a, GetAIAutomation (rows s) (au_ID value) = Some a /\ au_Enabled a = true /\
            au_ExecutionMode a = ExecutionModeUnattended /\ au_Generation a = generation_of s e.
Proof.
  unfold approveUnattended, executionCurrentLocked. destruct (bool_decide _) eqn:Er; [|done]. apply bool_decide_eq_true in Er.
  destruct (negb (get_fails f)); [|done]. destruct (GetAIAutomation _ _) as [a|]; [|done].
  destruct (negb (_ || _)) eqn:Eb; [|done]. bool_prop. intros _. split; [done|]. exists a. naive_solver.
Qed.

(** C22: an unattended write is approved only for an execution that began and for the
    document it began with: since then the automation was neither updated nor deleted, and
    it is still stored, enabled and unattended. *)
Theorem unattended_approval_safe tr x id e run x' :
  traced items access tr x -> sstep items access x [ApprovedUnattended id e run] x' -> ordinary tr ->
  (exists before after, tr = before ++ Began id e :: after /\ (Updated id ∉ after)) /\ (Deleted id ∉ tr) /\
  exists a, GetAIAutomation (rows (service x)) id = Some a /\ au_Enabled a = true /\
            au_ExecutionMode a = ExecutionModeUnattended /\ au_Generation a = 1 + updates id tr.
Proof.
  intros Htr Hs Hord. destruct (traced_invariant _ _ _ _ Htr Hord) as [Hf [Hb Hr]].
  remember [ApprovedUnattended id e run] as evs eqn:Eevs.
  destruct Hs as [f now i value s r H|f now i value s r H|f i s r H|i value source Hi Hl|i f e' value source s r Hi He H
    |i value source e' answer Hi|i value source e' answer Hi Hn|i f value source e' run' err Hi Hn Ha|i f value source e' run' reply Hi Hn Ha
    |i f value source e' run' failed now s r Hi H|i value e' Hi|f i runID answer now s r H|];
    try done; try (destruct r as [[]|]; done); try (destruct (is_ok _); done).
  injection Eevs as <- <- <-. apply approve_unattended_ok in Ha. destruct Ha as (Hrun & a & Hget & Hen & Hmode & Hgen).
  destruct (Hr _ _ Hrun) as (y & Hy & Hid). destruct (Hb _ _ Hy) as (tr0 & tr1 & E & Hg). rewrite Hid in *.
  destruct (get_row _ _ _ (fa_rows _ _ Hf) Hget) as (b & Hrow & _ & _ & _ & Hgb).
  destruct (fa_generation _ _ Hf _ _ Hrow) as (Hgen' & Hdel & _). unfold generation_of in Hgen. rewrite Hy in Hgen.
  split_and!; [|done|exists a; split_and!; [done..|congruence]]. exists tr0, tr1. split; [done|]. apply updates_zero.
  assert (Hu : updates (au_ID value) tr = updates (au_ID value) tr0) by lia.
  rewrite E, updates_app in Hu. change (Began (au_ID value) e' :: tr1) with ([Began (au_ID value) e'] ++ tr1) in Hu.
  rewrite updates_app in Hu. unfold updates at 2 in Hu. simpl in Hu. lia.
Qed.

(** tasks of one automation exclude each other: of all the tasks that began and did not
    end, no two hold the same automation, and an automation counts as running exactly when
    a task holds it (a lock is never left behind). *)
Theorem one_run_at_a_time tr x : traced items access tr x ->
  (forall i j p q id e e', tasks x !! i = Some p -> tasks x !! j = Some q ->
     live p = Some (id, e) -> live q = Some (id, e') -> i = j /\ e = e') /\
  (forall id e, running (service x) !! id = Some e <-> exists i p, tasks x !! i = Some p /\ live p = Some (id, e)).
Proof.
  intros Htr. destruct (traced_locked _ _ Htr) as [_ [H1 H2 H3]]. split.
  - intros i j p q id e e' Hi Hj Hp Hq. assert (e = e') as <-.
    { destruct (H1 _ _ _ _ Hi Hp), (H1 _ _ _ _ Hj Hq). congruence. }
    split; [|done]. by eapply H2.
  - intros id e. split; [apply H3|]. intros (i & p & Hi & Hp). by destruct (H1 _ _ _ _ Hi Hp).
Qed.

End Theorems.

(** ** An unattended run *)

Module RunExample.

Definition document : Automation :=
  MkAutomation "" 0 "Lamp" true KindSchedule "Turn the lamp off." "" 60 "" 0 None [] "" "" "" "" zero_time [] zero_time zero_time.
Definition stored : AIAutomationService := fst (Create None None (MkService ∅ ∅ ∅) no_faults 1000000000 "lamp-off" document).
Definition loaded : Automation := match run_now stored no_faults "lamp-off" with Ok value => value | Err _ => document end.
Definition begun : AIAutomationService := fst (begin stored no_faults 0 loaded).
Definition planned : AIAutomationRun := MkRun "run-1" "manual" "awaiting_approval" "" false zero_time zero_time None.
Definition system (s : AIAutomationService) (p : Phase) : System := MkSystem s {[0%nat := p]}.

Lemma begun_ok : begin stored no_faults 0 loaded = (begun, Ok (Some 0%nat)).
Proof. vm_compute. reflexivity. Qed.
Lemma stored_ok : Create None None (MkService ∅ ∅ ∅) no_faults 1000000000 "lamp-off" document = (stored, Ok loaded).
Proof. vm_compute. reflexivity. Qed.
Lemma loaded_ID : au_ID loaded = "lamp-off".
Proof. vm_compute. reflexivity. Qed.

Lemma run_traced : traced None None [Created "lamp-off"; Began "lamp-off" 0] (system begun (Answered loaded "manual" 0 (Ok planned))).
Proof.
  change [Created "lamp-off"; Began "lamp-off" 0] with ((((([] ++ [Created "lamp-off"]) ++ []) ++ [Began "lamp-off" 0]) ++ [])).
  eapply traced_step; [|exact (step_answer None None (system begun (Begun loaded "manual" 0)) 0 loaded "manual" 0 (Ok planned) eq_refl)].
  eapply traced_step; [|rewrite <- loaded_ID at 1; exact (step_begin None None (system stored (Loaded loaded "manual")) 0 no_faults 0
    loaded "manual" begun _ eq_refl eq_refl begun_ok)].
  eapply traced_step; [|refine (step_load None None (MkSystem stored ∅) 0 loaded "manual" eq_refl (load_manual _ no_faults "lamp-off" _ _));
    vm_compute; reflexivity].
  eapply traced_step; [apply traced_start|].
  rewrite <- loaded_ID at 1.
  exact (step_create None None (MkSystem (MkService ∅ ∅ ∅) ∅) no_faults 1000000000 "lamp-off" document stored (Ok loaded) stored_ok).
Qed.

Lemma run_ordinary : ordinary [Created "lamp-off"; Began "lamp-off" 0].
Proof. split; [apply NoDup_singleton|done]. Qed.

End RunExample.

Lemma unattended_approval_safe_witness :
  let tr := [Created "lamp-off"; Began "lamp-off" 0] in
  (exists before after, tr = before ++ Began "lamp-off" 0 :: after /\ (Updated "lamp-off" ∉ after)) /\
  (Deleted "lamp-off" ∉ tr) /\
  exists a, GetAIAutomation (rows RunExample.begun) "lamp-off" = Some a /\ au_Enabled a = true /\
            au_ExecutionMode a = ExecutionModeUnattended /\ au_Generation a = 1 + updates "lamp-off" tr.
Proof.
  refine (unattended_approval_safe None None _ _ "lamp-off" 0 "run-1" _ RunExample.run_traced _ RunExample.run_ordinary).
  rewrite <- RunExample.loaded_ID at 1.
  apply (step_approve None None _ 0 no_faults RunExample.loaded "manual" 0 RunExample.planned (Ok RunExample.planned)); vm_compute; reflexivity.
Defined.

Lemma one_run_at_a_time_witness :
  exists i p, tasks (RunExample.system RunExample.begun (Answered RunExample.loaded "manual" 0 (Ok RunExample.planned))) !! i = Some p /\
              live p = Some ("lamp-off", 0%nat).
Proof.
  apply (proj2 (one_run_at_a_time None None _ _ RunExample.run_traced)). vm_compute. reflexivity.
Defined.
