(* ===== verification/AgentRuns.v ===== *)
(** * Runs of the AI Agent: backend/internal/mcpagent/runtime.go

    A conversation with the model ends in a run: an answer, or one prepared action that
    waits for an approval. Approvals execute the action through the gateway (AgentAccess).
    The model and the tools are given: what they answer to what they are asked. *)

From S2P Require Import Prelude Float64 DomainState DeviceModel FloatText Text AgentAccess Automation.
From S2P Require Import StateStore CommandTracker ModelContract DeviceProjection DeviceService PropertyWrite.

Definition pendingActionTTL : Duration := 2 * 60 * 1000000000.
Definition retainedRunTTL : Duration := 24 * 60 * 60 * 1000000000.
Definition maxRetainedRuns : nat := 512.

Definition RunSource := string.
Definition RunSourceInteractive : RunSource := "interactive".
Definition RunSourceManual : RunSource := "manual".
Definition RunSourceSchedule : RunSource := "schedule".
Definition RunSourceTrigger : RunSource := "trigger".

Inductive RunStatus := RunCompleted | RunAwaitingApproval | RunExecuted | RunFailed.
Definition awaiting (s : RunStatus) : bool := match s with RunAwaitingApproval => true | _ => false end.

Record ActionPlan := MkPlan {
  pl_Path : Key; pl_Value : PropertyValue; pl_ExpectedStateVersion : option Z; pl_DeviceName : string;
  pl_PropertyName : string; pl_UsageNote : string;
}.
Record RunContext := MkRunContext {
  rc_Source : RunSource; rc_Trigger : option StateValue; rc_AutomationID : string; rc_AutomationName : string;
}.
Record Run := MkAgentRun {
  rn_ID : string; rn_Status : RunStatus; rn_Message : string; rn_CreatedAt : Time; rn_ExpiresAt : Time;
  rn_Action : option ActionPlan; rn_Source : RunSource; rn_AutomationID : string; rn_AutomationName : string;
}.

Inductive AgentError :=
| ErrRunNotFound | ErrRunNotApprovable | ErrRunApprovalExpired
| ErrAIServiceNotConfigured | ModelFailed | ToolCallLimit
| InvalidWriteRequest | PlanPath (e : ConfigError) | GatewayRefused (code : string) | NotApprovedForControl | StateUnavailable | NotExposed.

(** ** The context of a run *)

Definition automation_source (source : RunSource) : bool :=
  (source =s RunSourceManual) || (source =s RunSourceSchedule) || (source =s RunSourceTrigger).

Definition normalizeRunContext (value : RunContext) : RunContext :=
  let source := if automation_source (rc_Source value) then rc_Source value else RunSourceInteractive in
  let trigger := if source =s RunSourceTrigger then rc_Trigger value else None in
  if (source =s RunSourceInteractive) || negb (ValidStableID (TrimSpace (rc_AutomationID value)))
  then MkRunContext source trigger "" ""
  else MkRunContext source trigger (TrimSpace (rc_AutomationID value)) (TrimSpace (rc_AutomationName value)).

(** ** Planning an action *)

Definition stateUsableForAIControl (state : StateValue) (now : Time) : bool :=
  sv_Known state && sv_Available state && negb (StateStore.is_stale (sv_Quality state)) &&
  (IsZero (sv_ExpiresAt state) || Before now (sv_ExpiresAt state)).

(** [input] are the decoded arguments; [ask] is the gateway's answer to the state of a device. *)
Definition prepareAction (input : option (Key * PropertyValue)) (ask : string -> GatewayAnswer) (now : Time) : result AgentError ActionPlan :=
  match input with
  | None => Err InvalidWriteRequest
  | Some (path, value) =>
      match path_Validate path with
      | Err e => Err (PlanPath e)
      | Ok _ =>
          match ask (DeviceID path) with
          | AnswerState snapshot states =>
              match first (fun p => if bool_decide (ap_Path p = path) then Some p else None) (ad_Properties snapshot) with
              | None => Err NotExposed
              | Some property =>
                  guard! negb (negb (ap_Access property =s AccessConfirm) || negb (ap_Writable property)) else NotApprovedForControl in
                  match first (fun state => if bool_decide (sv_Key state = path) then Some state else None) states with
                  | None => Err StateUnavailable
                  | Some state =>
                      guard! stateUsableForAIControl state now else StateUnavailable in
                      Ok (MkPlan path value (Some (sv_Version state)) (ad_Name snapshot) (ap_Name property) (ap_UsageNote property))
                  end
              end
          | AnswerError code => Err (GatewayRefused code)
          | _ => Err (GatewayRefused "")
          end
      end
  end.

(** ** A conversation *)

Record FunctionCall := MkCall { fc_ID : string; fc_Name : string; fc_Arguments : string }.
Record ToolOutput := MkOutput { to_CallID : string; to_Output : string }.
Record ModelResponse := MkResponse { mr_ID : string; mr_Text : string; mr_Calls : list FunctionCall }.

Section Conversation.
(** The tools: a write is planned or refused, anything else is answered with a text. *)
Variable plan : FunctionCall -> result string ActionPlan.
Variable read : FunctionCall -> string.
(** The answer of the model to the outputs of a round; [None] is a failure. *)
Variable continue_ : string -> list ToolOutput -> option ModelResponse.

(** The calls of a round, in order: the first action that can be planned ends it. *)
Fixpoint call_tools (outputs : list ToolOutput) (calls : list FunctionCall) : list ToolOutput * option ActionPlan :=
  match calls with
  | [] => (outputs, None)
  | c :: calls =>
      if fc_Name c =s "homeloom_prepare_property_write"
      then match plan c with
           | Ok action => (outputs, Some action)
           | Err message => call_tools (outputs ++ [MkOutput (fc_ID c) message]) calls
           end
      else call_tools (outputs ++ [MkOutput (fc_ID c) (read c)]) calls
  end.

Inductive Outcome := Answer (text : string) | Proposal (action : ActionPlan).

(** [left_] rounds are left; the log lists what the model was asked after the start. *)
Fixpoint rounds (left_ : nat) (response : ModelResponse) (log : list (string * list ToolOutput))
    : list (string * list ToolOutput) * result AgentError Outcome :=
  match left_ with
  | O => (log, Err ToolCallLimit)
  | S left_ =>
      match mr_Calls response with
      | [] => (log, Ok (Answer (TrimSpace (mr_Text response))))
      | calls =>
          match call_tools [] calls with
          | (_, Some action) => (log, Ok (Proposal action))
          | (outputs, None) =>
              let log := log ++ [(mr_ID response, outputs)] in
              match continue_ (mr_ID response) outputs with
              | None => (log, Err ModelFailed)
              | Some response => rounds left_ response log
              end
          end
      end
  end.

(** The run a conversation ends in; [start] is the first answer of the model, [None] without
    a model, [Some None] when it fails. *)
Definition RunWithHistory (start : option (option ModelResponse)) (context : RunContext) (id : string) (now : Time)
    : list (string * list ToolOutput) * result AgentError Run :=
  let context := normalizeRunContext context in
  match start with
  | None => ([], Err ErrAIServiceNotConfigured)
  | Some None => ([], Err ModelFailed)
  | Some (Some response) =>
      match rounds 4 response [] with
      | (log, Err e) => (log, Err e)
      | (log, Ok (Answer text)) =>
          (log, Ok (MkAgentRun id RunCompleted (if is_empty text then "已完成状态查询。" else text) now zero_time None
                      (rc_Source context) (rc_AutomationID context) (rc_AutomationName context)))
      | (log, Ok (Proposal action)) =>
          (log, Ok (MkAgentRun id RunAwaitingApproval "已生成设备操作计划，等待你的明确批准。" now (now + pendingActionTTL) (Some action)
                      (rc_Source context) (rc_AutomationID context) (rc_AutomationName context)))
      end
  end.

End Conversation.

(** ** Retained runs *)

Definition Runs := gmap string Run.
Implicit Types (runs : gmap string Run).

Definition run_over (now : Time) (run : Run) : bool :=
  (negb (IsZero (rn_ExpiresAt run)) && negb (After (rn_ExpiresAt run) now)) ||
  (negb (awaiting (rn_Status run)) && negb (IsZero (rn_CreatedAt run)) && negb (After (rn_CreatedAt run + retainedRunTTL) now)).

(** The oldest run that does not wait, as the loop over the map finds it. *)
Fixpoint oldest_run runs (ks : list string) (oldestID : string) (oldestAt : Time) : string :=
  match ks with
  | [] => oldestID
  | id :: ks =>
      match runs !! id with
      | None => oldest_run runs ks oldestID oldestAt
      | Some run =>
          if awaiting (rn_Status run) then oldest_run runs ks oldestID oldestAt
          else if is_empty oldestID || Before (rn_CreatedAt run) oldestAt then oldest_run runs ks id (rn_CreatedAt run)
          else oldest_run runs ks oldestID oldestAt
      end
  end.

Section Retained.
Variable order : gmap string Run -> list string.

(** Every round removes a run: their number bounds the rounds. *)
Fixpoint evict_runs (fuel : nat) runs : gmap string Run :=
  match fuel with
  | O => runs
  | S fuel =>
      if (maxRetainedRuns <? size runs)%nat then
        let oldestID := oldest_run runs (order runs) "" zero_time in
        if is_empty oldestID then runs else evict_runs fuel (delete oldestID runs)
      else runs
  end.

Definition pruneLocked (now : Time) runs : gmap string Run :=
  let runs := filter (fun kv => run_over now kv.2 = false) runs in
  evict_runs (size runs) runs.

Definition save_run (now : Time) runs (run : Run) : gmap string Run :=
  pruneLocked now (<[rn_ID run := run]> (pruneLocked now runs)).

Definition RunByID (now : Time) runs (id : string) : gmap string Run * option Run :=
  let runs := pruneLocked now runs in (runs, runs !! id).

(** ** Approvals *)

(** The first critical section of an approval, before the gateway is asked. *)
Definition claim (now : Time) runs (id : string) : gmap string Run * result AgentError (Run * ActionPlan) :=
  let runs := pruneLocked now runs in
  match runs !! id with
  | None => (runs, Err ErrRunNotFound)
  | Some run =>
      match awaiting (rn_Status run), rn_Action run with
      | true, Some action =>
          if negb (After (rn_ExpiresAt run) now) then (delete id runs, Err ErrRunApprovalExpired)
          else (runs, Ok (run, action))
      | _, _ => (runs, Err ErrRunNotApprovable)
      end
  end.

(** What the gateway is asked. *)
Definition write_request (run : Run) (action : ActionPlan) (autoApproved : bool) : GatewayWrite :=
  MkGatewayWrite (pl_Path action) (pl_Value action) (pl_ExpectedStateVersion action)
    (Some (MkMetadata (rn_ID run) (rn_Source run) (rn_AutomationID run) (rn_AutomationName run) autoApproved)).

(** The outcome the second critical section stores: the command's identifier, or the error's text. *)
Definition decided (run : Run) (answer : result string string) : Run :=
  match answer with
  | Err message => MkAgentRun (rn_ID run) RunFailed ("设备操作未执行：" +:+ TrimSpace message) (rn_CreatedAt run) (rn_ExpiresAt run)
                     (rn_Action run) (rn_Source run) (rn_AutomationID run) (rn_AutomationName run)
  | Ok command => MkAgentRun (rn_ID run) RunExecuted ("设备操作已提交，命令编号：" +:+ (if is_empty command then "已受理" else command))
                    (rn_CreatedAt run) zero_time (rn_Action run) (rn_Source run) (rn_AutomationID run) (rn_AutomationName run)
  end.
Definition finish_approval runs (id : string) (run : Run) (answer : result string string) : gmap string Run :=
  <[id := decided run answer]> runs.

(** What [ApproveUnattended] checks first. *)
Definition unattended_check (now : Time) runs (id : string) : gmap string Run * result AgentError unit :=
  let runs := pruneLocked now runs in
  match runs !! id with
  | None => (runs, Err ErrRunNotFound)
  | Some run =>
      if is_empty (rn_AutomationID run) || negb (automation_source (rn_Source run)) then (runs, Err ErrRunNotApprovable)
      else (runs, Ok tt)
  end.

End Retained.

(** ** What a conversation may end in *)

Section ConversationSpec.
Variable plan : FunctionCall -> result string ActionPlan.
Variable read : FunctionCall -> string.
Variable continue_ : string -> list ToolOutput -> option ModelResponse.

Lemma call_tools_spec calls outputs :
  match call_tools plan read outputs calls with
  | (_, Some action) => exists c, c ∈ calls /\ fc_Name c = "homeloom_prepare_property_write" /\ plan c = Ok action
  | (l, None) => exists l', l = outputs ++ l' /\ List.map to_CallID l' = List.map fc_ID calls
  end.
Proof.
  revert outputs. induction calls as [|c calls IH]; intros outputs; simpl; [exists []; by rewrite app_nil_r|].
  assert (Hnext : forall o, to_CallID o = fc_ID c ->
    match call_tools plan read (outputs ++ [o]) calls with
    | (_, Some action) => exists c', c' ∈ c :: calls /\ fc_Name c' = "homeloom_prepare_property_write" /\ plan c' = Ok action
    | (l, None) => exists l', l = outputs ++ l' /\ List.map to_CallID l' = fc_ID c :: List.map fc_ID calls
    end).
  { intros o Ho. specialize (IH (outputs ++ [o])). destruct (call_tools _ _ _ calls) as [l [action|]].
    - destruct IH as (c' & Hc & Hn & Hp). exists c'. split_and!; [by right|done|done].
    - destruct IH as (l' & -> & Hl). exists (o :: l'). rewrite <- app_assoc. simpl. by rewrite Ho, Hl. }
  case_bool_decide as Hn; [|by apply Hnext]. destruct (plan c) as [action|message] eqn:Ep; [|by apply Hnext].
  exists c. split_and!; [left|done|done].
Qed.

(** The last question of the log and what the model answered to it. *)
Definition last_answer (log : list (string * list ToolOutput)) : option (option ModelResponse) :=
  q ← last log; Some (continue_ q.1 q.2).

(** Where the rounds end: in an answer, an action that a call planned, a failure of the model
    or the limit. *)
Definition rounds_end (n : nat) (l : list (string * list ToolOutput)) (r : result AgentError Outcome) : Prop :=
  match r with
  | Ok (Answer _) => True
  | Ok (Proposal action) => exists c, fc_Name c = "homeloom_prepare_property_write" /\ plan c = Ok action
  | Err ModelFailed => last_answer l = Some None
  | Err ToolCallLimit => List.length l = n /\ last_answer l <> Some None
  | Err _ => False
  end.

Lemma last_answer_cons q l : l <> [] -> last_answer (q :: l) = last_answer l.
Proof. unfold last_answer. by destruct l. Qed.

Lemma rounds_spec n response log :
  let '(log', r) := rounds plan read continue_ n response log in
  exists l, log' = log ++ l /\ (List.length l <= n)%nat /\ rounds_end n l r.
Proof.
  revert response log. induction n as [|n IH]; intros response log; cbn [rounds].
  { exists []. rewrite app_nil_r. by split_and!. }
  destruct (mr_Calls response) as [|c calls]; [exists []; rewrite app_nil_r; split_and!; [done|simpl; lia|done]|].
  pose proof (call_tools_spec (c :: calls) []) as Hc. destruct (call_tools plan read [] (c :: calls)) as [outputs [action|]].
  - exists []. rewrite app_nil_r. split_and!; [done|simpl; lia|]. destruct Hc as (c' & _ & ? & ?). by exists c'.
  - destruct (continue_ (mr_ID response) outputs) as [response'|] eqn:Ea.
    + specialize (IH response' (log ++ [(mr_ID response, outputs)])). destruct (rounds _ _ _ _ _ _) as [log' r].
      destruct IH as (l & -> & Hl & He). exists ((mr_ID response, outputs) :: l). rewrite <- app_assoc.
      split_and!; [done|simpl; lia|]. destruct r as [[]|[]]; try done.
      * destruct l as [|q l]; [done|]. unfold rounds_end. by rewrite last_answer_cons.
      * destruct He as [<- He]. split; [done|]. destruct l as [|q l]; [|by rewrite last_answer_cons].
        unfold last_answer. cbn. by rewrite Ea.
    + eexists. split_and!; [done|simpl; lia|]. unfold rounds_end, last_answer. cbn. by rewrite Ea.
Qed.

(** C39: a conversation ends, in one of five ways, and by itself changes nothing: whatever the
    model answers, it is asked again four times at most.  The run is an answer without an
    action, or one action that a tool call planned, waiting for two minutes for its
    approval; and there is no run when no model is configured, when the model failed (at the
    start, or on the last question asked), or when its four further answers were not
    enough. *)
Theorem conversation_ends start context id now :
  let '(log, r) := RunWithHistory plan read continue_ start context id now in
  (List.length log <= 4)%nat /\
  match r with
  | Ok run =>
      rn_ID run = id /\ rn_CreatedAt run = now /\
      (rn_Status run = RunCompleted /\ rn_Action run = None \/
       rn_Status run = RunAwaitingApproval /\ rn_ExpiresAt run = now + pendingActionTTL /\
       exists c action, fc_Name c = "homeloom_prepare_property_write" /\ plan c = Ok action /\ rn_Action run = Some action)
  | Err ErrAIServiceNotConfigured => start = None /\ log = []
  | Err ModelFailed => start = Some None /\ log = [] \/ last_answer log = Some None
  | Err ToolCallLimit => List.length log = 4%nat /\ last_answer log <> Some None
  | Err _ => False
  end.
Proof.
  unfold RunWithHistory. destruct start as [[response|]|]; [|split; [simpl; lia|by auto]..].
  pose proof (rounds_spec 4 response []) as H. destruct (rounds plan read continue_ 4 response []) as [log r].
  destruct H as (l & -> & Hl & He). cbn [app]. destruct r as [[text|action]|e]; (split; [exact Hl|]).
  - split_and!; [done..|by left].
  - destruct He as (c & ? & ?). split_and!; [done..|]. right. split_and!; [done..|]. by exists c, action.
  - destruct e; try done. by right.
Qed.

End ConversationSpec.

(** only granted properties are planned: a planned write names a property the gateway
    showed with control granted and writable, and the version of a state of it that was
    known, available, not stale and not expired when it was planned. *)
Theorem plans_are_granted input ask now action : prepareAction input ask now = Ok action ->
  exists device states property state,
    ask (DeviceID (pl_Path action)) = AnswerState device states /\
    property ∈ ad_Properties device /\ ap_Path property = pl_Path action /\
    ap_Access property = AccessConfirm /\ ap_Writable property = true /\
    state ∈ states /\ sv_Key state = pl_Path action /\ pl_ExpectedStateVersion action = Some (sv_Version state) /\
    stateUsableForAIControl state now = true /\ input = Some (pl_Path action, pl_Value action).
Proof.
  unfold prepareAction. intros H. destruct input as [[path value]|]; [|done]. destruct (path_Validate path); [|done].
  destruct (ask (DeviceID path)) as [?|device states|? ?|?] eqn:Ea; try done.
  destruct (first _ (ad_Properties device)) as [property|] eqn:Ep; [|done].
  destruct (negb (_ || _)) eqn:Eg; [|done]. destruct (first _ states) as [state|] eqn:Es; [|done].
  destruct (stateUsableForAIControl state now) eqn:Eu; [|done]. injection H as <-. cbn [pl_Path pl_Value pl_ExpectedStateVersion].
  apply first_elem in Ep as (p & Hp & Hpp). destruct (bool_decide (ap_Path p = path)) eqn:Hpath; [|done]. injection Hpp as ->.
  apply first_elem in Es as (st & Hst & Hss). destruct (bool_decide (sv_Key st = path)) eqn:Hkey; [|done]. injection Hss as ->.
  bool_prop. exists device, states, property, state. by split_and!.
Qed.

(** ** Retained runs *)

Section RetainedSpec.
Variable order : gmap string Run -> list string.

Lemma evict_runs_sub fuel runs id run : evict_runs order fuel runs !! id = Some run -> runs !! id = Some run.
Proof.
  revert runs. induction fuel as [|fuel IH]; intros runs; simpl; [done|]. destruct (_ <? _)%nat; [|done].
  destruct (is_empty _); [done|]. intros H%IH. by apply lookup_delete_Some in H as [_ ?].
Qed.

Lemma prune_sub now runs id run : pruneLocked order now runs !! id = Some run -> runs !! id = Some run /\ run_over now run = false.
Proof. intros H%evict_runs_sub. by apply map_lookup_filter_Some in H. Qed.

End RetainedSpec.

(** ** Approvals *)

(** An approval passes two critical sections; in between, without the mutex, it asks the
    gateway, which answers as it likes.  Its stages: the check of [ApproveUnattended] has
    passed; the first section has, at [at_]; the gateway has been asked. *)
Inductive Stage :=
| Checked (id : string)
| Claimed (id : string) (run : Run) (action : ActionPlan) (auto : bool) (at_ : Time)
| Asked (id : string) (run : Run).

Definition claims (id : string) (stage : Stage) : bool :=
  match stage with Checked _ => false | Claimed id' _ _ _ _ | Asked id' _ => id' =s id end.

Record Agent := MkAgent { runs : gmap string Run; approvals : gmap nat Stage }.

(** [Requested request run auto at_]: the gateway is asked for the action of [run], whose
    approval passed its first section at [at_]. *)
Inductive AgentEvent :=
| Saved (run : Run)
| Requested (request : GatewayWrite) (run : Run) (auto : bool) (at_ : Time).

Section AgentSteps.
Variable order : gmap string Run -> list string.
(** Whether approvals of one run exclude each other. *)
Variable exclusive : bool.

Definition unclaimed (x : Agent) (id : string) : Prop :=
  exclusive = true -> forall i stage, approvals x !! i = Some stage -> claims id stage = false.

Inductive agent_step (x : Agent) : list AgentEvent -> Agent -> Prop :=
| step_converse plan read continue_ start context id now later run :
    snd (RunWithHistory plan read continue_ start context id now) = Ok run ->
    agent_step x [Saved run] (MkAgent (save_run order later (runs x) run) (approvals x))
| step_look id now : agent_step x [] (MkAgent (fst (RunByID order now (runs x) id)) (approvals x))
| step_check i id now : approvals x !! i = None -> snd (unattended_check order now (runs x) id) = Ok tt ->
    agent_step x [] (MkAgent (fst (unattended_check order now (runs x) id)) (<[i := Checked id]> (approvals x)))
| step_refused id now e : snd (claim order now (runs x) id) = Err e ->
    agent_step x [] (MkAgent (fst (claim order now (runs x) id)) (approvals x))
| step_claim i id now run action auto :
    approvals x !! i = (if auto : bool then Some (Checked id) else None) -> unclaimed x id ->
    snd (claim order now (runs x) id) = Ok (run, action) ->
    agent_step x [] (MkAgent (fst (claim order now (runs x) id)) (<[i := Claimed id run action auto now]> (approvals x)))
| step_ask i id run action auto at_ : approvals x !! i = Some (Claimed id run action auto at_) ->
    agent_step x [Requested (write_request run action auto) run auto at_] (MkAgent (runs x) (<[i := Asked id run]> (approvals x)))
| step_finish i id run answer : approvals x !! i = Some (Asked id run) ->
    agent_step x [] (MkAgent (finish_approval (runs x) id run answer) (delete i (approvals x))).

Inductive agent_traced : list AgentEvent -> Agent -> Prop :=
| agent_start : agent_traced [] (MkAgent ∅ ∅)
| agent_next tr x evs x' : agent_traced tr x -> agent_step x evs x' -> agent_traced (tr ++ evs) x'.

End AgentSteps.

Definition saved_id (ev : AgentEvent) : option string := match ev with Saved run => Some (rn_ID run) | Requested _ _ _ _ => None end.
(** Identifiers of runs are drawn once. *)
Definition distinct_runs (tr : list AgentEvent) : Prop := NoDup (omap saved_id tr).
Definition is_request (id : string) (ev : AgentEvent) : bool :=
  match ev with Requested _ run _ _ => rn_ID run =s id | Saved _ => false end.
Definition requests (id : string) (tr : list AgentEvent) : nat := List.length (List.filter (is_request id) tr).

(** ** The invariant of approvals *)

Implicit Types (tr : list AgentEvent).

Lemma requests_app id tr tr' : requests id (tr ++ tr') = (requests id tr + requests id tr')%nat.
Proof. unfold requests. by rewrite List.filter_app, List.length_app. Qed.

Lemma saved_elem id tr : id ∈ omap saved_id tr <-> exists run, Saved run ∈ tr /\ rn_ID run = id.
Proof.
  rewrite list_elem_of_omap. split.
  - intros (ev & Hin & H). destruct ev as [run|]; [|done]. injection H as <-. by exists run.
  - intros (run & Hin & <-). by exists (Saved run).
Qed.

(** The run of an identifier is the one that was saved. *)
Lemma saved_unique tr run run' : distinct_runs tr -> Saved run ∈ tr -> Saved run' ∈ tr -> rn_ID run = rn_ID run' -> run = run'.
Proof.
  unfold distinct_runs. induction tr as [|ev tr IH]; [intros _ H; by apply not_elem_of_nil in H|].
  assert (Hin : forall r, Saved r ∈ tr -> rn_ID r ∈ omap saved_id tr) by (intros r Hr; apply saved_elem; by exists r).
  intros Hnd H H' E. destruct ev as [r|rq r au at_]; simpl in Hnd.
  - apply NoDup_cons in Hnd as [Hn Hnd].
    apply elem_of_cons in H as [[= <-]|H], H' as [[= <-]|H']; [done|exfalso; apply Hn; rewrite E; by apply Hin
      |exfalso; apply Hn; rewrite <- E; by apply Hin|by apply IH].
  - apply elem_of_cons in H as [|H], H' as [|H']; try done. by apply IH.
Qed.

(** A stored run is a saved one, perhaps with the outcome of its action. *)
Definition from_saved (tr : list AgentEvent) (id : string) (run : Run) : Prop :=
  exists run0, Saved run0 ∈ tr /\ rn_ID run0 = id /\ (awaiting (rn_Status run) = true -> run = run0) /\
    rn_Source run = rn_Source run0 /\ rn_AutomationID run = rn_AutomationID run0.

Definition for_automation (run : Run) : Prop := rn_AutomationID run <> "" /\ automation_source (rn_Source run) = true.

(** An approval that passed its first section at [at_]. *)
Definition approved (tr : list AgentEvent) (run : Run) (action : ActionPlan) (auto : bool) (at_ : Time) : Prop :=
  Saved run ∈ tr /\ rn_Status run = RunAwaitingApproval /\ rn_Action run = Some action /\ at_ < rn_ExpiresAt run /\
  (auto = true -> for_automation run).

Record approvals_ok (tr : list AgentEvent) (x : Agent) : Prop := {
  ao_runs : forall id run, runs x !! id = Some run -> from_saved tr id run;
  ao_stages : forall i stage, approvals x !! i = Some stage ->
    match stage with
    | Checked id => exists run, Saved run ∈ tr /\ rn_ID run = id /\ for_automation run
    | Claimed id run action auto at_ => approved tr run action auto at_ /\ rn_ID run = id
    | Asked id run => Saved run ∈ tr /\ rn_ID run = id
    end;
  ao_requested : forall request run auto at_, Requested request run auto at_ ∈ tr ->
    exists action, approved tr run action auto at_ /\ request = write_request run action auto;
}.

Section Invariants.
Variable order : gmap string Run -> list string.

Lemma from_saved_app tr evs id run : from_saved tr id run -> from_saved (tr ++ evs) id run.
Proof. intros (run0 & H & Hr). exists run0. split; [|done]. apply elem_of_app. by left. Qed.

Lemma approved_app tr evs run action auto at_ : approved tr run action auto at_ -> approved (tr ++ evs) run action auto at_.
Proof. intros [H Hr]. split; [|done]. apply elem_of_app. by left. Qed.

(** Events leave what was known of the stages and the requests. *)
Lemma stages_app tr evs x i stage : approvals_ok tr x -> approvals x !! i = Some stage ->
  match stage with
  | Checked id => exists run, Saved run ∈ tr ++ evs /\ rn_ID run = id /\ for_automation run
  | Claimed id run action auto at_ => approved (tr ++ evs) run action auto at_ /\ rn_ID run = id
  | Asked id run => Saved run ∈ tr ++ evs /\ rn_ID run = id
  end.
Proof.
  intros Hok H. apply (ao_stages _ _ Hok) in H. destruct stage.
  - destruct H as (run & ? & ?). exists run. split; [|done]. apply elem_of_app. by left.
  - destruct H. split; [by apply approved_app|done].
  - destruct H. split; [|done]. apply elem_of_app. by left.
Qed.

Lemma requested_app tr evs x request run auto at_ : approvals_ok tr x -> Requested request run auto at_ ∈ tr ->
  exists action, approved (tr ++ evs) run action auto at_ /\ request = write_request run action auto.
Proof.
  intros Hok H. destruct (ao_requested _ _ Hok _ _ _ _ H) as (action & ? & ?). exists action.
  split; [by apply approved_app|done].
Qed.

(** Other runs, and no new requests. *)
Lemma approvals_ok_runs tr x m evs : approvals_ok tr x -> (forall ev, ev ∈ evs -> exists run, ev = Saved run) ->
  (forall id run, m !! id = Some run -> from_saved (tr ++ evs) id run) -> approvals_ok (tr ++ evs) (MkAgent m (approvals x)).
Proof.
  intros Hok He Hm. split; cbn [runs approvals]; [done|..].
  - intros i stage Hi. exact (stages_app _ _ _ _ _ Hok Hi).
  - intros request run auto at_ [H|H]%elem_of_app; [by eapply requested_app|by destruct (He _ H)].
Qed.

Lemma claim_sub now m id j run : fst (claim order now m id) !! j = Some run -> m !! j = Some run.
Proof.
  unfold claim. destruct (pruneLocked order now m !! id) as [r|]; [|by intros []%prune_sub].
  destruct (awaiting _); [|by intros []%prune_sub]. destruct (rn_Action r); [|by intros []%prune_sub].
  destruct (negb _); [|by intros []%prune_sub]. cbn [fst]. intros [_ H]%lookup_delete_Some. by apply prune_sub in H as [].
Qed.

Lemma claim_ok now m id run action : snd (claim order now m id) = Ok (run, action) ->
  m !! id = Some run /\ rn_Status run = RunAwaitingApproval /\ rn_Action run = Some action /\ now < rn_ExpiresAt run.
Proof.
  unfold claim. destruct (pruneLocked order now m !! id) as [r|] eqn:E; [|done]. apply prune_sub in E as [E _].
  destruct (awaiting (rn_Status r)) eqn:Ea; [|done]. destruct (rn_Action r) eqn:Ec; [|done].
  destruct (negb _) eqn:En; [done|]. cbn [snd]. intros [= <- <-]. unfold After in En. bool_prop. split_and!; [done| |done|done].
  by destruct (rn_Status r).
Qed.

Lemma unattended_ok now m id : snd (unattended_check order now m id) = Ok tt -> exists run, m !! id = Some run /\ for_automation run.
Proof.
  unfold unattended_check. destruct (pruneLocked order now m !! id) as [r|] eqn:E; [|done]. apply prune_sub in E as [E _].
  destruct (is_empty _ || _) eqn:Eb; [done|]. bool_prop. intros _. exists r. split; [done|]. split; [by apply is_empty_false|done].
Qed.

Lemma unattended_sub now m id j run : fst (unattended_check order now m id) !! j = Some run -> m !! j = Some run.
Proof.
  unfold unattended_check. destruct (pruneLocked order now m !! id) as [r|]; [destruct (_ || _)|]; cbn [fst]; by intros []%prune_sub.
Qed.

Lemma save_run_lookup now m run j r : save_run order now m run !! j = Some r -> j = rn_ID run /\ r = run \/ m !! j = Some r.
Proof. unfold save_run. intros [[[<- <-]|[_ H]]%lookup_insert_Some _]%prune_sub; [by left|right]. by apply prune_sub in H as []. Qed.

Lemma distinct_app tr evs : distinct_runs (tr ++ evs) -> distinct_runs tr.
Proof. unfold distinct_runs. rewrite omap_app, NoDup_app. by intros [? _]. Qed.

(** What the first section of an approval claims was saved and waits. *)
Lemma claimed_approved tr x now id run action (auto : bool) i : approvals_ok tr x -> distinct_runs tr ->
  approvals x !! i = (if auto then Some (Checked id) else None) ->
  snd (claim order now (runs x) id) = Ok (run, action) -> approved tr run action auto now /\ rn_ID run = id.
Proof.
  intros Hok Hd Hi Hc. destruct (claim_ok _ _ _ _ _ Hc) as (Hr & Hst & Hact & Hexp).
  destruct (ao_runs _ _ Hok _ _ Hr) as (run0 & Hs & Hid & Haw & _). rewrite Hst in Haw. specialize (Haw eq_refl). subst run0.
  split; [|done]. split_and!; [done..|]. intros ->.
  destruct (ao_stages _ _ Hok _ _ Hi) as (r & Hr' & Hid' & Ha).
  assert (r = run) as ->; [|done]. apply (saved_unique tr); [done..|congruence].
Qed.

Lemma step_approvals exclusive tr x evs x' : agent_step order exclusive x evs x' -> distinct_runs (tr ++ evs) ->
  approvals_ok tr x -> approvals_ok (tr ++ evs) x'.
Proof.
  intros Hs Hd Hok. assert (Hsub : forall m, (forall j r, m !! j = Some r -> runs x !! j = Some r) -> approvals_ok (tr ++ []) (MkAgent m (approvals x))).
  { intros m Hm. apply approvals_ok_runs; [done|by intros ? ?%not_elem_of_nil|]. intros id run H. rewrite app_nil_r. by apply Hok, Hm. }
  destruct Hs as [plan read continue_ start context id now later run Hr|id now|i id now Hi Hc|id now e He|i id now run action auto Hi Hx Hc
    |i id run action auto at_ Hi|i id run answer Hi].
  - apply approvals_ok_runs; [done|intros ev ->%list_elem_of_singleton; by exists run|].
    intros j r [[-> ->]|H]%save_run_lookup.
    + exists run. split_and!; try done. apply elem_of_app. right. by apply list_elem_of_singleton.
    + by apply from_saved_app, Hok.
  - apply Hsub. intros j r H. by apply prune_sub in H as [].
  - destruct (unattended_ok _ _ _ Hc) as (run & Hr & Ha1 & Ha2). destruct (ao_runs _ _ Hok _ _ Hr) as (run0 & Hs & Hid & _ & Esrc & Eaut).
    destruct (Hsub (fst (unattended_check order now (runs x) id))) as [H1 H2 H3]; [by intros j r ?%unattended_sub|].
    split; cbn [runs approvals] in *; [done| |done].
    intros j stage [[<- <-]|[_ Hj]]%lookup_insert_Some; [|exact (H2 _ _ Hj)]. rewrite app_nil_r. exists run0. split_and!; [done..|].
    split; [by rewrite <- Eaut|by rewrite <- Esrc].
  - apply Hsub. by intros j r ?%claim_sub.
  - rewrite app_nil_r in Hd. destruct (claimed_approved _ _ _ _ _ _ _ _ Hok Hd Hi Hc) as [Ha Hid].
    destruct (Hsub (fst (claim order now (runs x) id))) as [H1 H2 H3]; [by intros j r ?%claim_sub|].
    split; cbn [runs approvals] in *; [done| |done].
    intros j stage [[<- <-]|[_ Hj]]%lookup_insert_Some; [by rewrite app_nil_r|exact (H2 _ _ Hj)].
  - destruct (ao_stages _ _ Hok _ _ Hi) as [Ha Hid]. split; cbn [runs approvals].
    + intros j r Hj. by apply from_saved_app, Hok.
    + intros j stage [[<- <-]|[_ Hj]]%lookup_insert_Some; [|exact (stages_app _ _ _ _ _ Hok Hj)].
      split; [|done]. apply elem_of_app. left. apply Ha.
    + intros rq r au t [H|H]%elem_of_app; [by eapply requested_app|].
      apply list_elem_of_singleton in H as [= -> -> -> ->]. exists action. split; [by apply approved_app|done].
  - destruct (ao_stages _ _ Hok _ _ Hi) as [Hs Hid]. rewrite app_nil_r. split; cbn [runs approvals]; [| |apply Hok].
    + unfold finish_approval. intros j r [[<- <-]|[_ Hj]]%lookup_insert_Some; [|by apply Hok].
      exists run. split_and!; [done..| | |]; by destruct answer.
    + intros j stage [_ Hj]%lookup_delete_Some. exact (ao_stages _ _ Hok _ _ Hj).
Qed.

Lemma agent_invariant exclusive tr x : agent_traced order exclusive tr x -> distinct_runs tr -> approvals_ok tr x.
Proof.
  induction 1 as [|tr x evs x' _ IH Hs]; intros Hd.
  - split; cbn; [by intros id run H|by intros i stage H|by intros rq run au at_ H%not_elem_of_nil].
  - eapply step_approvals; [done..|]. by eapply IH, distinct_app.
Qed.

(** C25: the Agent writes on approval only: every write it sends to the gateway is the action
    of a run that a conversation prepared, and its approval was checked, at [at_], while the
    run waited and within the two minutes of its approval; it has the run's own source and
    automation, and a write sent without a person belongs to a run of an automation. *)
Theorem agent_writes_on_approval exclusive tr x request run auto at_ :
  agent_traced order exclusive tr x -> distinct_runs tr -> Requested request run auto at_ ∈ tr ->
  Saved run ∈ tr /\ exists action, rn_Status run = RunAwaitingApproval /\ rn_Action run = Some action /\
    request = write_request run action auto /\ at_ < rn_ExpiresAt run /\ (auto = true -> for_automation run).
Proof.
  intros Htr Hd H. destruct (ao_requested _ _ (agent_invariant _ _ _ Htr Hd) _ _ _ _ H) as (action & (? & ? & ? & ? & ?) & ?).
  split; [done|]. by exists action.
Qed.

(** ** How often an action is requested *)

(** The approvals of a run, one at a time. *)
Record requests_ok (tr : list AgentEvent) (x : Agent) (id : string) : Prop := {
  rq_once : (requests id tr <= 1)%nat;
  rq_single : forall i j a b, approvals x !! i = Some a -> approvals x !! j = Some b ->
    claims id a = true -> claims id b = true -> i = j;
  rq_claimed : forall i run action auto at_, approvals x !! i = Some (Claimed id run action auto at_) -> requests id tr = 0%nat;
  rq_asked : requests id tr = 1%nat -> (exists i run, approvals x !! i = Some (Asked id run)) \/
     (forall run, runs x !! id = Some run -> awaiting (rn_Status run) = false);
}.

Lemma request_saved tr x id : approvals_ok tr x -> requests id tr <> 0%nat -> exists run, Saved run ∈ tr /\ rn_ID run = id.
Proof.
  intros Hok Hn. unfold requests in Hn. destruct (List.filter (is_request id) tr) as [|ev l] eqn:E; [done|].
  assert (Hin : ev ∈ List.filter (is_request id) tr) by (rewrite E; left).
  apply list_elem_of_In, filter_In in Hin as [Hin Hev]. apply list_elem_of_In in Hin. destruct ev as [|rq run au at_]; [done|].
  simpl in Hev. bool_prop. destruct (ao_requested _ _ Hok _ _ _ _ Hin) as (action & [Hs _] & _). by exists run.
Qed.

(** Other runs and the same stages, or one stage more that claims nothing. *)
Lemma requests_ok_runs tr evs x m l id : requests_ok tr x id -> requests id evs = 0%nat ->
  (requests id tr = 1%nat -> forall run, m !! id = Some run -> runs x !! id = Some run) ->
  (forall i stage, l !! i = Some stage -> approvals x !! i = Some stage \/ exists id', stage = Checked id') ->
  (forall i stage, approvals x !! i = Some stage -> claims id stage = true -> l !! i = Some stage) ->
  requests_ok (tr ++ evs) (MkAgent m l) id.
Proof.
  intros [H1 H2 H3 H4] He Hm Hl Hk. split; rewrite ?requests_app, ?He, ?Nat.add_0_r; cbn [runs approvals]; [done|..].
  - intros i j a b [Ha|[? ->]]%Hl [Hb|[? ->]]%Hl; [by apply H2|done..].
  - intros i run action auto at_ [H|[? [=]]]%Hl. by eapply H3.
  - intros E. destruct (H4 E) as [(i & run & Hi)|H]; [left|right; intros run Hr; by apply H, Hm].
    exists i, run. apply Hk; [done|]. by apply bool_decide_eq_true.
Qed.

Lemma step_requests tr x evs x' id : agent_step order true x evs x' -> distinct_runs (tr ++ evs) -> approvals_ok tr x ->
  requests_ok tr x id -> requests_ok (tr ++ evs) x' id.
Proof.
  intros Hs Hd Hok Hex. pose proof Hex as [H1 H2 H3 H4].
  destruct Hs as [plan read continue_ start context id0 now later run Hr|id0 now|i id0 now Hi Hc|id0 now e He|i id0 now run action auto Hi Hx Hc
    |i id0 run action auto at_ Hi|i id0 run answer Hi].
  - apply (requests_ok_runs _ _ x); [done|done| |by left|done].
    intros E r [[-> ->]|Hr']%save_run_lookup; [|done].
    exfalso. destruct (request_saved tr x (rn_ID run) Hok) as (run0 & Hs0 & E0); [lia|].
    unfold distinct_runs in Hd. rewrite omap_app, NoDup_app in Hd. destruct Hd as (_ & Hd & _).
    apply (Hd (rn_ID run)); [apply saved_elem; by exists run0|simpl; left].
  - apply (requests_ok_runs _ _ x); [done|done| |by left|done]. intros _ r H. by apply prune_sub in H as [].
  - apply (requests_ok_runs _ _ x); [done|done|by intros _ r ?%unattended_sub| |].
    + intros j stage [[_ <-]|[_ ?]]%lookup_insert_Some; [right; by exists id0|by left].
    + intros j stage Hj _. rewrite lookup_insert_ne; [done|]. intros <-. by rewrite Hi in Hj.
  - apply (requests_ok_runs _ _ x); [done|done|by intros _ r ?%claim_sub|by left|done].
  - destruct (claim_ok _ _ _ _ _ Hc) as (Hr & Hst & _). specialize (Hx eq_refl).
    assert (Hne : forall j stage, approvals x !! j = Some stage -> claims id stage = true -> j <> i).
    { intros j stage Hj Hcl ->. rewrite Hi in Hj. destruct auto; [|done]. by injection Hj as <-. }
    rewrite app_nil_r. split; cbn [runs approvals]; [done|..].
    + intros j k a b [[<- <-]|[_ Ha]]%lookup_insert_Some [[<- <-]|[_ Hb]]%lookup_insert_Some Hca Hcb; [done| | |by eapply H2];
        cbn in *; bool_prop; subst id0; [specialize (Hx _ _ Hb)|specialize (Hx _ _ Ha)]; congruence.
    + intros j r ac au t [[<- [= -> _ _ _ _]]|[_ Hj]]%lookup_insert_Some; [|by eapply H3].
      destruct (decide (requests id tr = 1%nat)) as [E1|]; [|lia]. exfalso.
      destruct (H4 E1) as [(k & r' & Hk)|H]; [|specialize (H _ Hr); by rewrite Hst in H].
      specialize (Hx _ _ Hk). cbn in Hx. by bool_prop.
    + intros E1. destruct (H4 E1) as [(k & r & Hk)|H]; [left|right; intros r Hr'%claim_sub; by apply H].
      exists k, r. rewrite lookup_insert_ne; [done|]. intros <-. eapply Hne; [exact Hk| |done]. by apply bool_decide_eq_true.
  - destruct (ao_stages _ _ Hok _ _ Hi) as [_ Hid].
    assert (Hother : forall j stage, j <> i -> approvals x !! j = Some stage -> claims id stage = true -> id0 <> id).
    { intros j stage Hj Hst Hcl ->. apply Hj. eapply H2; [exact Hst|exact Hi|done|]. by apply bool_decide_eq_true. }
    assert (En : requests id [Requested (write_request run action auto) run auto at_] = if id0 =s id then 1%nat else 0%nat).
    { unfold requests. cbn [List.filter is_request]. rewrite Hid. by destruct (id0 =s id). }
    split; rewrite ?requests_app, ?En; cbn [runs approvals].
    + case_bool_decide as E; [|lia]. subst id0. rewrite E in Hi. rewrite (H3 _ _ _ _ _ Hi). lia.
    + intros j k a b [[<- <-]|[? Ha]]%lookup_insert_Some [[<- <-]|[? Hb]]%lookup_insert_Some Hca Hcb; [done| | |by eapply H2];
        cbn in *; bool_prop; exfalso; [eapply (Hother k)|eapply (Hother j)]; eauto.
    + intros j r ac au t [[_ [=]]|[? Hj]]%lookup_insert_Some. rewrite bool_decide_eq_false_2, Nat.add_0_r; [by eapply H3|].
      eapply (Hother j); [done|exact Hj|]. by apply bool_decide_eq_true.
    + case_bool_decide as E; [intros _; left; exists i, run; subst id0; by rewrite <- E, lookup_insert_eq|].
      rewrite Nat.add_0_r. intros E1. destruct (H4 E1) as [(k & r & Hk)|H]; [left|by right].
      exists k, r. rewrite lookup_insert_ne; [done|]. intros <-. by rewrite Hi in Hk.
  - rewrite app_nil_r. split; cbn [runs approvals]; [done|..].
    + intros j k a b [_ Ha]%lookup_delete_Some [_ Hb]%lookup_delete_Some. by eapply H2.
    + intros j r ac au t [_ Hj]%lookup_delete_Some. by eapply H3.
    + intros E. unfold finish_approval. destruct (decide (id = id0)) as [->|Hne].
      * right. intros r [[_ <-]|[? _]]%lookup_insert_Some; [by destruct answer|done].
      * destruct (H4 E) as [(j & r & Hj)|H]; [left|right; intros r [[? _]|[_ Hr]]%lookup_insert_Some; [done|by apply H]].
        exists j, r. rewrite lookup_delete_ne; [done|]. intros <-. rewrite Hi in Hj. by injection Hj.
Qed.

(** C26: as long as no two approvals of one run overlap, the gateway is asked for its action at
    most once: approving again finds the outcome, not the action. *)
Theorem executed_at_most_once tr x id : agent_traced order true tr x -> distinct_runs tr -> (requests id tr <= 1)%nat.
Proof.
  intros Htr Hd. apply (rq_once tr x id). induction Htr as [|tr x evs x' Htr IH Hs].
  - by split; [cbn; lia|intros i j a b ?..|].
  - pose proof (distinct_app _ _ Hd) as Hd'. eapply step_requests; [done..| |by apply IH]. by eapply agent_invariant.
Qed.

End Invariants.

(** ** Examples *)

Definition any_order : gmap string Run -> list string := some_range.
Definition ex_plan : ActionPlan := MkPlan ex_request_key (BoolValue true) (Some 1) "Lamp" "Power" "".
Definition ex_call : FunctionCall := MkCall "call-1" "homeloom_prepare_property_write" "{}".
Definition ex_conversation (context : RunContext) : list (string * list ToolOutput) * result AgentError Run :=
  RunWithHistory (fun _ => Ok ex_plan) (fun _ => "") (fun _ _ => None) (Some (Some (MkResponse "r-1" "" [ex_call]))) context "run-1" 1000000000.
Definition ex_prepared (source automation : string) : Run :=
  MkAgentRun "run-1" RunAwaitingApproval "已生成设备操作计划，等待你的明确批准。" 1000000000 (1000000000 + pendingActionTTL) (Some ex_plan) source automation "".
Definition ex_interactive : Run := ex_prepared "interactive" "".

Lemma ex_saved exclusive : agent_traced any_order exclusive [Saved ex_interactive] (MkAgent {["run-1" := ex_interactive]} ∅).
Proof.
  refine (agent_next any_order exclusive [] (MkAgent ∅ ∅) [Saved ex_interactive] _ (agent_start _ _) _).
  replace {["run-1" := ex_interactive]} with (save_run any_order 1000000000 ∅ ex_interactive) by (vm_compute; reflexivity).
  apply (step_converse any_order exclusive (MkAgent ∅ ∅) (fun _ => Ok ex_plan) (fun _ => "") (fun _ _ => None)
    (Some (Some (MkResponse "r-1" "" [ex_call]))) (MkRunContext "" None "" "") "run-1" 1000000000).
  vm_compute. reflexivity.
Qed.

Definition ex_write_request : GatewayWrite := write_request ex_interactive ex_plan false.
Definition ex_event : AgentEvent := Requested ex_write_request ex_interactive false 1000000001.
Definition ex_runs : gmap string Run := {["run-1" := ex_interactive]}.
Definition ex_claimed : Stage := Claimed "run-1" ex_interactive ex_plan false 1000000001.

Lemma ex_claim : claim any_order 1000000001 ex_runs "run-1" = (ex_runs, Ok (ex_interactive, ex_plan)).
Proof. vm_compute. reflexivity. Qed.

Lemma ex_claims exclusive i m tr : agent_traced any_order exclusive tr (MkAgent ex_runs m) ->
  m !! i = None -> (exclusive = true -> m = ∅) -> agent_traced any_order exclusive tr (MkAgent ex_runs (<[i := ex_claimed]> m)).
Proof.
  intros Htr Hi Hx. rewrite <- (app_nil_r tr). eapply agent_next; [exact Htr|].
  pose proof (step_claim any_order exclusive (MkAgent ex_runs m) i "run-1" 1000000001 ex_interactive ex_plan false) as H.
  cbn [runs approvals] in H. rewrite ex_claim in H. apply H; [done| |done]. intros E j r. cbn. rewrite (Hx E). by rewrite lookup_empty.
Qed.

Lemma ex_asks exclusive i m tr : agent_traced any_order exclusive tr (MkAgent ex_runs m) -> m !! i = Some ex_claimed ->
  agent_traced any_order exclusive (tr ++ [ex_event]) (MkAgent ex_runs (<[i := Asked "run-1" ex_interactive]> m)).
Proof. intros Htr Hi. eapply agent_next; [exact Htr|]. by apply (step_ask any_order exclusive (MkAgent ex_runs m)). Qed.

(** The run is prepared, and its approval asks the gateway. *)
Lemma ex_approved exclusive : exists x, agent_traced any_order exclusive ([Saved ex_interactive] ++ [ex_event]) x.
Proof.
  eexists. refine (ex_asks exclusive 0 {[0%nat := ex_claimed]} _ (ex_claims exclusive 0 ∅ _ (ex_saved exclusive) eq_refl (fun _ => eq_refl)) eq_refl).
Qed.

(** *** The gateway asked twice *)

(** A Provider that switches the lamp on and acknowledges. *)
Definition ex_switching : WriteContext (E := string) :=
  MkWriteContext (fun _ => "rejected") (fun _ => "mapping") (MkReadbackConfig [] false) None None true true
    (Some (fun _ => Ok ex_reported)) true "".

(** Two requests of the gateway that overlap: both check the grant and the version, and then
    both write. *)
Definition ex_overlap : result (GatewayError string) Command * result (GatewayError string) Command :=
  let send s := send_write (H0 := ex_lower) ex_env ex_switching (fun _ s => s) s ex_write_request in
  let command (r : result (GatewayError string) (DeviceModel.Device * Command)) :=
    match r with Ok (_, c) => Ok c | Err e => Err e end in
  match check_grant gorm_store ex_hub ex_tables ex_write_request with
  | Err e => (Err e, Err e)
  | Ok _ =>
      match check_version ex_env ex_hub ex_write_request with
      | (_, Err e) => (Err e, Err e)
      | (s, Ok _) =>
          match check_version ex_env s ex_write_request with
          | (_, Err e) => (Err e, Err e)
          | (s, Ok _) =>
              let '(s, first) := send s in
              let '(_, second) := send s in (command first, command second)
          end
      end
  end.

(** One after the other. *)
Definition ex_in_turn : result (GatewayError string) unit :=
  let '(s, _) := send_write (H0 := ex_lower) ex_env ex_switching (fun _ s => s) ex_hub ex_write_request in
  (check_version ex_env s ex_write_request).2.


Lemma agent_writes_on_approval_witness : exists action, rn_Action ex_interactive = Some action /\ 1000000001 < rn_ExpiresAt ex_interactive.
Proof.
  destruct (ex_approved true) as [x Hx].
  destruct (agent_writes_on_approval any_order true ([Saved ex_interactive] ++ [ex_event]) x
    ex_write_request ex_interactive false 1000000001 Hx)
    as (_ & action & _ & Ha & _ & Hl & _); [apply NoDup_singleton|right; left|]. by exists action.
Defined.

Lemma executed_at_most_once_witness : (requests "run-1" ([Saved ex_interactive] ++ [ex_event]) <= 1)%nat.
Proof.
  destruct (ex_approved true) as [x Hx]. apply (executed_at_most_once any_order _ x "run-1" Hx). apply NoDup_singleton.
Defined.

Definition ex_state : StateValue :=
  MkStateValue (pl_Path ex_plan) zero_value "virtual" SourceUnknown 1 1 zero_time 1 1 QualityReported true true "" "" "".
Definition ex_shown : MCPDevice :=
  MkMCPDevice "lamp-1" "Lamp" "switch" "" "" true "" [MkMCPProperty (pl_Path ex_plan) "Power" ValueTypeBool "" true true AccessConfirm ""].

Lemma plans_are_granted_witness : exists device states property state,
  AnswerState ex_shown [ex_state] = AnswerState device states /\
  property ∈ ad_Properties device /\ ap_Path property = pl_Path ex_plan /\
  ap_Access property = AccessConfirm /\ ap_Writable property = true /\
  state ∈ states /\ sv_Key state = pl_Path ex_plan /\ Some 1 = Some (sv_Version state) /\
  stateUsableForAIControl state 2 = true /\ Some (pl_Path ex_plan, BoolValue true) = Some (pl_Path ex_plan, BoolValue true).
Proof.
  exact (plans_are_granted (Some (pl_Path ex_plan, BoolValue true)) (fun _ => AnswerState ex_shown [ex_state]) 2 ex_plan eq_refl).
Defined.
