(* ===== verification/Auth.v ===== *)
(** * Administrator authentication: backend/internal/application/auth_service.go,
    persistence/gormstore/auth.go and the guard of platform/httpapi/server.go

    The administrator's account, sessions by the digests of their tokens, the limiter of
    failed logins, and the guard in front of the interface.  bcrypt and the random
    generator are not code of the program: the first is a pair of functions the definitions
    take, the second is given as the tokens it draws.  Statements of the database may fail. *)

From S2P Require Import Prelude DeviceModel FloatText Sha256 Text Lookup.

(** ** Storage *)

(** [time.UnixMilli] and back. *)
Definition unix_epoch_ms : Z := 62135596800000.
Definition UnixMilli (t : Time) : Z := t / 1000000 - unix_epoch_ms.
Definition of_UnixMilli (ms : Z) : Time := (ms + unix_epoch_ms) * 1000000.

Record adminUserRow := MkAdmin { ar_Username : string; ar_PasswordHash : string; ar_CreatedAt : Z; ar_UpdatedAt : Z }.
Record adminSessionRow := MkSession { sr_CSRFHash : string; sr_CreatedAt : Z; sr_ExpiresAt : Z; sr_LastSeenAt : Z }.

(** The table of administrators holds one row at most, with the identifier 1 every session refers to. *)
Record AuthTables := MkTables { admin_users : option adminUserRow; admin_sessions : gmap string adminSessionRow }.

(** [None] is a statement that failed, which changes nothing. *)
Record AuthStore := MkAuthStore {
  AdminInitialized : AuthTables -> option bool;
  CreateAdmin : AuthTables -> string -> string -> Time -> option AuthTables;
  AdminPasswordHash : AuthTables -> string -> option (option string);
  SaveAdminSession : AuthTables -> string -> string -> Time -> Time -> option AuthTables;
  AdminSession : AuthTables -> string -> Time -> option (option (string * string * Time));
  TouchAdminSession : AuthTables -> string -> Time -> option AuthTables;
  DeleteAdminSession : AuthTables -> string -> option AuthTables;
  DeleteExpiredAdminSessions : AuthTables -> Time -> option AuthTables;
}.

Inductive AuthOp :=
| OpInitialized | OpCreate | OpPassword | OpSave | OpSession | OpTouch | OpDelete | OpDeleteExpired.

Definition set_sessions (t : AuthTables) (s : gmap string adminSessionRow) : AuthTables := MkTables (admin_users t) s.

(** The database; [fails] tells which statements fail. *)
Definition gorm_auth (fails : AuthOp -> bool) : AuthStore :=
  let attempt {A} (op : AuthOp) (r : option A) := if fails op then None else r in
  MkAuthStore
    (fun t => attempt OpInitialized (Some (present (admin_users t))))
    (fun t username hash at_ => attempt OpCreate
       (match admin_users t with
        | Some _ => None
        | None => Some (MkTables (Some (MkAdmin username hash (UnixMilli at_) (UnixMilli at_))) (admin_sessions t))
        end))
    (fun t username => attempt OpPassword
       (Some (match admin_users t with
              | Some row => if ar_Username row =s username then Some (ar_PasswordHash row) else None
              | None => None
              end)))
    (fun t tokenHash csrfHash created expires => attempt OpSave
       (match admin_sessions t !! tokenHash with
        | Some _ => None
        | None => Some (set_sessions t
            (<[tokenHash := MkSession csrfHash (UnixMilli created) (UnixMilli expires) (UnixMilli created)]> (admin_sessions t)))
        end))
    (fun t tokenHash now => attempt OpSession
       (Some (match admin_sessions t !! tokenHash, admin_users t with
              | Some row, Some user =>
                  if UnixMilli now <? sr_ExpiresAt row
                  then Some (ar_Username user, sr_CSRFHash row, of_UnixMilli (sr_ExpiresAt row)) else None
              | _, _ => None
              end)))
    (fun t tokenHash seen => attempt OpTouch
       (Some (set_sessions t (alter (fun row =>
          MkSession (sr_CSRFHash row) (sr_CreatedAt row) (sr_ExpiresAt row) (UnixMilli seen)) tokenHash (admin_sessions t)))))
    (fun t tokenHash => attempt OpDelete (Some (set_sessions t (delete tokenHash (admin_sessions t)))))
    (fun t now => attempt OpDeleteExpired
       (Some (set_sessions t (filter (fun kv => UnixMilli now < sr_ExpiresAt kv.2) (admin_sessions t))))).

(** ** The service *)

Inductive AuthError :=
| ErrAdminAlreadyInitialized | ErrInvalidCredentials | ErrInvalidSession | ErrInvalidCSRF
| InvalidFields (fields : list string) | HashFailed | RandomFailed | AuthStoreFailed.

Record AuthSession := MkAuthSession {
  as_Username : string; as_Token : string; as_CSRFToken : string; as_ExpiresAt : Time; as_csrfHash : string;
}.
Record AuthStatus := MkAuthStatus { st_Initialized : bool; st_Authenticated : bool; st_Username : string }.

Definition sessionTTL : Duration := 24 * 60 * 60 * 1000000000.

Definition hashToken (token : string) : string := hex (Sum256 (bytes_of token)).
Arguments hashToken : simpl never.

(** [unicode.IsControl] of the first rune. *)
Definition control_rune (s : string) : bool :=
  match s with
  | String c rest =>
      (byte c <? 32) || (byte c =? 127) ||
      (byte c =? 194) && match rest with String d _ => in_bytes 128 159 d | EmptyString => false end
  | EmptyString => false
  end.

(** Whether a rune of the text satisfies the test; a round drops at least one byte. *)
Fixpoint any_rune (fuel : nat) (p : string -> bool) (s : string) : bool :=
  match fuel, s with
  | S fuel, String c rest => p s || any_rune fuel p (skip_rune c rest)
  | _, _ => false
  end.
Definition ContainsRune (p : string -> bool) (s : string) : bool := any_rune (String.length s) p s.

Definition length_within (lo hi : Z) (s : string) : bool :=
  let n := Z.of_nat (String.length s) in (lo <=? n) && (n <=? hi).

Definition validateCredentials (username password : string) : string * list string :=
  let username := TrimSpace username in
  (username,
   (if negb (length_within 3 64 username) then ["username"]
    else if ContainsRune (fun s => control_rune s || present (drop_one space_runes s)) username then ["username"] else []) ++
   (if length_within 12 128 password then [] else ["password"])).

Definition answered {A} (r : option A) : result AuthError A :=
  match r with Some x => Ok x | None => Err AuthStoreFailed end.

Section Service.
Variable store : AuthStore.
(** bcrypt: the hash of a password, [None] when it is refused, and the comparison. *)
Variable GenerateFromPassword : string -> option string.
Variable CompareHashAndPassword : string -> string -> bool.
Variable dummyPasswordHash : string.
Implicit Types (t : AuthTables) (now : Time).

Definition newSession t (username : string) now (token csrf : option string) : AuthTables * result AuthError AuthSession :=
  match token, csrf with
  | Some token, Some csrf =>
      let expiresAt := now + sessionTTL in
      match DeleteExpiredAdminSessions store t now with
      | None => (t, Err AuthStoreFailed)
      | Some t =>
          match SaveAdminSession store t (hashToken token) (hashToken csrf) now expiresAt with
          | None => (t, Err AuthStoreFailed)
          | Some t => (t, Ok (MkAuthSession username token csrf expiresAt (hashToken csrf)))
          end
      end
  | _, _ => (t, Err RandomFailed)
  end.

(** The first part of [Setup]: the name and the hash the administrator gets. *)
Definition setup_check t (username password : string) : result AuthError (string * string) :=
  let '(username, fields) := validateCredentials username password in
  guard! match fields with [] => true | _ => false end else InvalidFields fields in
  let! initialized := answered (AdminInitialized store t) in
  guard! negb initialized else ErrAdminAlreadyInitialized in
  match GenerateFromPassword password with Some hash => Ok (username, hash) | None => Err HashFailed end.

(** The second part, after the password was hashed. *)
Definition setup_create t (username hash : string) now (token csrf : option string) : AuthTables * result AuthError AuthSession :=
  match CreateAdmin store t username hash now with
  | None => (t, Err (match AdminInitialized store t with Some true => ErrAdminAlreadyInitialized | _ => AuthStoreFailed end))
  | Some t => newSession t username now token csrf
  end.

(** [between] is what other requests do while the password is hashed. *)
Definition Setup t (between : AuthTables -> AuthTables) (username password : string) now (token csrf : option string)
    : AuthTables * result AuthError AuthSession :=
  match setup_check t username password with
  | Err e => (t, Err e)
  | Ok (username, hash) => setup_create (between t) username hash now token csrf
  end.

Definition Login t (username password : string) now (token csrf : option string) : AuthTables * result AuthError AuthSession :=
  let username := TrimSpace username in
  match AdminPasswordHash store t username with
  | None => (t, Err AuthStoreFailed)
  | Some found =>
      let comparisonHash := match found with Some hash => hash | None => dummyPasswordHash end in
      if negb (CompareHashAndPassword comparisonHash password) || negb (present found) then (t, Err ErrInvalidCredentials)
      else newSession t username now token csrf
  end.

Definition Authenticate t (token : string) now : AuthTables * result AuthError AuthSession :=
  if is_empty token then (t, Err ErrInvalidSession)
  else
    let tokenHash := hashToken token in
    match AdminSession store t tokenHash now with
    | None => (t, Err AuthStoreFailed)
    | Some None => (t, Err ErrInvalidSession)
    | Some (Some (username, csrfHash, expiresAt)) =>
        match TouchAdminSession store t tokenHash now with
        | None => (t, Err AuthStoreFailed)
        | Some t => (t, Ok (MkAuthSession username token "" expiresAt csrfHash))
        end
    end.

Definition VerifyCSRF (session : AuthSession) (csrfToken : string) : result AuthError unit :=
  guard! negb (is_empty csrfToken || negb (hashToken csrfToken =s as_csrfHash session)) else ErrInvalidCSRF in
  Ok tt.

Definition Logout t (token : string) : AuthTables * result AuthError unit :=
  if is_empty token then (t, Ok tt)
  else match DeleteAdminSession store t (hashToken token) with
       | None => (t, Err AuthStoreFailed)
       | Some t => (t, Ok tt)
       end.

Definition Status t (token : string) now : AuthTables * result AuthError AuthStatus :=
  match AdminInitialized store t with
  | None => (t, Err AuthStoreFailed)
  | Some initialized =>
      if negb initialized || is_empty token then (t, Ok (MkAuthStatus initialized false ""))
      else match Authenticate t token now with
           | (t, Ok session) => (t, Ok (MkAuthStatus true true (as_Username session)))
           | (t, Err ErrInvalidSession) => (t, Ok (MkAuthStatus true false ""))
           | (t, Err e) => (t, Err e)
           end
  end.

(** ** The guard of the interface *)

(** What the guard reads of a request. *)
Record Request := MkRequest { rq_Path : string; rq_Method : string; rq_Cookie : option string; rq_CSRF : string }.

Definition requiresAuthentication (path : string) : bool :=
  if path =s "/metrics" then true
  else if negb (String.prefix "/api/v1/" path) then false
  else negb (existsb (String.eqb path)
    ["/api/v1/system/version"; "/api/v1/auth/status"; "/api/v1/auth/setup"; "/api/v1/auth/login"; "/api/v1/tuya/oauth/callback"]).

Definition auditMethod (method : string) : bool := existsb (String.eqb method) ["POST"; "PUT"; "PATCH"; "DELETE"].

(** [Err] is the status of a refusal; [Ok] lets the request through, with the session it belongs to.
    [enabled] tells whether the server has an authentication service. *)
Definition guard_request (enabled : bool) t (request : Request) now : AuthTables * result Z (option AuthSession) :=
  if negb enabled || negb (requiresAuthentication (rq_Path request)) then (t, Ok None)
  else match rq_Cookie request with
       | None => (t, Err 401)
       | Some cookie =>
           if is_empty cookie then (t, Err 401)
           else match Authenticate t cookie now with
                | (t, Err ErrInvalidSession) => (t, Err 401)
                | (t, Err _) => (t, Err 503)
                | (t, Ok session) =>
                    if auditMethod (rq_Method request) && negb (is_ok (VerifyCSRF session (rq_CSRF request)))
                    then (t, Err 403) else (t, Ok (Some session))
                end
       end.

End Service.

(** ** The limiter of failed logins *)

Record loginAttempt := MkAttempt { la_failures : Z; la_windowStart : Time; la_lockedUntil : Time }.
Definition zero_attempt : loginAttempt := MkAttempt 0 zero_time zero_time.
Definition five_minutes : Duration := 5 * 60 * 1000000000.

(** [a.Sub (b)] saturates. *)
Definition TimeSub (a b : Time) : Duration := Z.max (- two63) (Z.min (two63 - 1) (a - b)).

Definition window_over (now : Time) (a : loginAttempt) : bool :=
  IsZero (la_windowStart a) || (five_minutes <=? TimeSub now (la_windowStart a)).

Definition allowed (now : Time) (m : gmap string loginAttempt) (key : string) : gmap string loginAttempt * (bool * Duration) :=
  let attempt := default zero_attempt (m !! key) in
  if Before now (la_lockedUntil attempt) then (m, (false, TimeSub (la_lockedUntil attempt) now))
  else (if window_over now attempt then delete key m else m, (true, 0)).

(** An entry that is dropped when the table is large. *)
Definition attempt_over (now : Time) (a : loginAttempt) : bool :=
  (negb (IsZero (la_lockedUntil a)) && negb (Before now (la_lockedUntil a))) || (five_minutes <=? TimeSub now (la_windowStart a)).

Definition count_failure (now : Time) (a : loginAttempt) : loginAttempt :=
  let a := if window_over now a then MkAttempt 0 now zero_time else a in
  let failures := la_failures a + 1 in
  MkAttempt failures (la_windowStart a) (if 5 <=? failures then now + five_minutes else la_lockedUntil a).

(** [order] is the order in which a table is visited. *)
Definition failed (now : Time) (order : gmap string loginAttempt -> list string) (m : gmap string loginAttempt) (key : string) : gmap string loginAttempt :=
  let m := if (1024 <=? size m)%nat then filter (fun kv => attempt_over now kv.2 = false) m else m in
  let m := <[key := count_failure now (default zero_attempt (m !! key))]> m in
  if (2048 <? size m)%nat
  then match first (fun k => if k =s key then None else Some k) (order m) with
       | Some k => delete k m
       | None => m
       end
  else m.

Definition succeeded (m : gmap string loginAttempt) (key : string) : gmap string loginAttempt := delete key m.

(** The handler of a login: [input] is the decoded body; the answer is a status, with the session. *)
Definition handle_login (store : AuthStore) (compare : string -> string -> bool) (dummy : string) (order : gmap string loginAttempt -> list string)
    (m : gmap string loginAttempt) (t : AuthTables) (key : string) (input : option (string * string)) (now later : Time) (token csrf : option string)
    : gmap string loginAttempt * AuthTables * result Z AuthSession :=
  match allowed now m key with
  | (m, (false, _)) => (m, t, Err 429)
  | (m, (true, _)) =>
      match input with
      | None => (m, t, Err 400)
      | Some (username, password) =>
          match Login store compare dummy t username password later token csrf with
          | (t, Err ErrInvalidCredentials) => (failed later order m key, t, Err 401)
          | (t, Err _) => (m, t, Err 503)
          | (t, Ok session) => (succeeded m key, t, Ok session)
          end
      end
  end.
