(* ===== verification/AuthRuns.v ===== *)
(** * Sessions over the runs of the service

    A trace lists the sessions issued and ended. The theorems say that the database, which
    knows digests only, answers as a table of live sessions by their tokens would, and that
    the guard lets through what such a session asks for; and that failed logins of one
    client are bounded in every interval of five minutes. *)

From S2P Require Import Prelude DeviceModel FloatText Sha256 Text Lookup Auth.

Inductive AuthEvent :=
| AdminCreated (username hash : string)
| Issued (username token csrf : string) (at_ : Time)
| LoggedOut (token : string).

(** The tables, and the latest reading of the clock. *)
Record AuthState := MkAuthState { clock : Time; tables : AuthTables }.

Definition issued (r : result AuthError AuthSession) (now : Time) : list AuthEvent :=
  match r with Ok s => [Issued (as_Username s) (as_Token s) (as_CSRFToken s) now] | Err _ => [] end.
Definition admin_created (t t' : AuthTables) : list AuthEvent :=
  match admin_users t, admin_users t' with
  | None, Some row => [AdminCreated (ar_Username row) (ar_PasswordHash row)]
  | _, _ => []
  end.

Section Steps.
Variable compare : string -> string -> bool.
Variable dummy : string.

(** One request; any statement may fail in it, and the clock does not go back. *)
Inductive auth_step (x : AuthState) : list AuthEvent -> AuthState -> Prop :=
| step_setup fails username hash now token csrf t r :
    clock x <= now -> setup_create (gorm_auth fails) (tables x) username hash now token csrf = (t, r) ->
    auth_step x (admin_created (tables x) t ++ issued r now) (MkAuthState now t)
| step_login fails username password now token csrf t r :
    clock x <= now -> Login (gorm_auth fails) compare dummy (tables x) username password now token csrf = (t, r) ->
    auth_step x (issued r now) (MkAuthState now t)
| step_authenticate fails token now t r :
    clock x <= now -> Authenticate (gorm_auth fails) (tables x) token now = (t, r) -> auth_step x [] (MkAuthState now t)
| step_logout fails token t r :
    Logout (gorm_auth fails) (tables x) token = (t, r) ->
    auth_step x (if is_ok r && negb (is_empty token) then [LoggedOut token] else []) (MkAuthState (clock x) t).

Inductive auth_traced : list AuthEvent -> AuthState -> Prop :=
| auth_start : auth_traced [] (MkAuthState zero_time (MkTables None ∅))
| auth_next tr x evs x' : auth_traced tr x -> auth_step x evs x' -> auth_traced (tr ++ evs) x'.

End Steps.

(** ** The table of live sessions a trace leaves *)

Record live_session := MkLive { ls_username : string; ls_csrf : string; ls_at : Time }.

Definition session_after (token : string) (acc : option live_session) (ev : AuthEvent) : option live_session :=
  match ev with
  | AdminCreated _ _ => acc
  | Issued u tk csrf at_ => if tk =s token then Some (MkLive u csrf at_) else acc
  | LoggedOut tk => if tk =s token then None else acc
  end.
Definition session_of (tr : list AuthEvent) (token : string) : option live_session := fold_left (session_after token) tr None.

Definition unexpired (s : live_session) (now : Time) : bool := UnixMilli now <? UnixMilli (ls_at s + sessionTTL).

(** The tokens and the CSRF tokens of a trace. *)
Definition event_token (ev : AuthEvent) : option string :=
  match ev with Issued _ tk _ _ | LoggedOut tk => Some tk | AdminCreated _ _ => None end.
Definition tokens (tr : list AuthEvent) : list string := omap event_token tr.
Definition event_csrf (ev : AuthEvent) : option string := match ev with Issued _ _ csrf _ => Some csrf | _ => None end.

(** No two different ones among them have one digest. *)
Definition collision_free (l : list string) : Prop := forall a b, a ∈ l -> b ∈ l -> hashToken a = hashToken b -> a = b.

(** What the guard's answer is, in terms of the live sessions. *)
Definition allowed_by (tr : list AuthEvent) (request : Request) (now : Time) : result Z (option string) :=
  if negb (requiresAuthentication (rq_Path request)) then Ok None
  else match rq_Cookie request with
       | None => Err 401
       | Some token =>
           if is_empty token then Err 401
           else match session_of tr token with
           | Some s =>
               if negb (unexpired s now) then Err 401
               else if auditMethod (rq_Method request) && (is_empty (rq_CSRF request) || negb (rq_CSRF request =s ls_csrf s))
               then Err 403 else Ok (Some (ls_username s))
           | None => Err 401
           end
       end.

(** ** The invariant *)

Record row_of (t : AuthTables) (s : live_session) (row : adminSessionRow) : Prop := {
  ro_csrf : sr_CSRFHash row = hashToken (ls_csrf s);
  ro_expires : sr_ExpiresAt row = UnixMilli (ls_at s + sessionTTL);
  ro_user : exists user, admin_users t = Some user /\ ar_Username user = ls_username s;
}.

Definition agrees (tr : list AuthEvent) (x : AuthState) (token : string) : Prop :=
  match session_of tr token with
  | None => admin_sessions (tables x) !! hashToken token = None
  | Some s =>
      match admin_sessions (tables x) !! hashToken token with
      | Some row => row_of (tables x) s row
      | None => unexpired s (clock x) = false
      end
  end.

Lemma collision_free_app a l l' : collision_free (a :: l ++ l') -> collision_free (a :: l).
Proof. intros H x y Hx Hy. apply H; set_solver. Qed.

Lemma tokens_app tr tr' : tokens (tr ++ tr') = tokens tr ++ tokens tr'.
Proof. apply omap_app. Qed.

Lemma session_of_app tr tr' token : session_of (tr ++ tr') token = fold_left (session_after token) tr' (session_of tr token).
Proof. apply fold_left_app. Qed.

Lemma UnixMilli_mono a b : a <= b -> UnixMilli a <= UnixMilli b.
Proof. intros H. unfold UnixMilli. pose proof (Z.div_le_mono a b 1000000). lia. Qed.

Lemma unexpired_mono s a b : a <= b -> unexpired s a = false -> unexpired s b = false.
Proof. unfold unexpired. intros H%UnixMilli_mono E. bool_prop. apply Z.ltb_ge. lia. Qed.

(** The administrator stays; a session keeps its digest and its end. *)
Definition keeps (t t' : AuthTables) : Prop :=
  (forall user, admin_users t = Some user -> admin_users t' = Some user).
Lemma row_of_keeps t t' s row : keeps t t' -> row_of t s row -> row_of t' s row.
Proof. intros H [H1 H2 (user & Hu & Hn)]. split; [done..|]. eauto. Qed.

Lemma agrees_later tr x now t token : clock x <= now -> keeps (tables x) t ->
  (admin_sessions t !! hashToken token = admin_sessions (tables x) !! hashToken token) ->
  agrees tr x token -> agrees tr (MkAuthState now t) token.
Proof.
  unfold agrees. intros Hc Hk E. cbn [tables clock]. rewrite E. clear E. destruct (session_of tr token) as [s|]; [|done].
  destruct (admin_sessions (tables x) !! hashToken token); [by apply row_of_keeps|by apply unexpired_mono].
Qed.

(** ** Statements *)

Lemma answer_op {A} (b : bool) (r : option A) x : (if b then None else r) = Some x -> b = false /\ r = Some x.
Proof. by destruct b. Qed.

Lemma delete_expired_agrees tr x now fails t token : clock x <= now ->
  DeleteExpiredAdminSessions (gorm_auth fails) (tables x) now = Some t ->
  agrees tr x token -> agrees tr (MkAuthState now t) token.
Proof.
  intros Hc [_ [= <-]]%answer_op H. unfold agrees in *. cbn [tables clock set_sessions admin_sessions].
  destruct (session_of tr token) as [s|]; rewrite map_lookup_filter.
  - destruct (admin_sessions (tables x) !! hashToken token) as [row|]; simpl; [|by eapply unexpired_mono].
    case_guard as Hd; simpl; [by destruct H|]. unfold unexpired. destruct H as [_ He _]. simpl in Hd. rewrite He in Hd. apply Z.ltb_ge. lia.
  - by rewrite H.
Qed.

Lemma new_session_agrees tr x fails username now token csrf t r tk : clock x <= now ->
  (exists user, admin_users (tables x) = Some user /\ ar_Username user = username) ->
  newSession (gorm_auth fails) (tables x) username now token csrf = (t, r) ->
  collision_free (tk :: tokens (tr ++ issued r now)) -> agrees tr x tk -> agrees (tr ++ issued r now) (MkAuthState now t) tk.
Proof.
  intros Hc Hu H Hcf Ha. unfold newSession in H.
  assert (Hsame : agrees (tr ++ []) (MkAuthState now (tables x)) tk) by (rewrite app_nil_r; apply (agrees_later _ x); [done|by intros ?|done..]).
  destruct token as [token|]; [|injection H as <- <-; exact Hsame]. destruct csrf as [csrf|]; [|injection H as <- <-; exact Hsame].
  destruct (DeleteExpiredAdminSessions _ _ _) as [t1|] eqn:E1; [|injection H as <- <-; exact Hsame].
  pose proof (delete_expired_agrees tr x now fails t1 tk Hc E1 Ha) as Hd.
  assert (Ht1 : admin_users t1 = admin_users (tables x)) by (apply answer_op in E1 as [_ [= <-]]; done).
  destruct (SaveAdminSession _ _ _ _ _ _) as [t2|] eqn:E2; injection H as <- <-; [|simpl; by rewrite app_nil_r].
  apply answer_op in E2 as [_ E2]. destruct (admin_sessions t1 !! hashToken token) eqn:Ef; [done|]. injection E2 as <-.
  destruct (decide (token = tk)) as [<-|Hne].
  - unfold agrees. cbn. rewrite session_of_app. cbn. rewrite bool_decide_eq_true_2, lookup_insert_eq by done.
    split; cbn; [done..|]. by rewrite Ht1.
  - assert (Hs : session_of (tr ++ issued (Ok (MkAuthSession username token csrf (now + sessionTTL) (hashToken csrf))) now) tk = session_of tr tk).
    { rewrite session_of_app. cbn. by rewrite bool_decide_eq_false_2. }
    unfold agrees. rewrite Hs. apply (agrees_later tr (MkAuthState now t1)); [done|by intros ?| |exact Hd].
    cbn. rewrite lookup_insert_ne; [done|]. intros E. apply Hne, Hcf; [..|done]; rewrite tokens_app; cbn; set_solver.
Qed.

(** ** Requests *)

Lemma created_session a b tr tk : session_of (tr ++ admin_created a b) tk = session_of tr tk /\ tokens (tr ++ admin_created a b) = tokens tr.
Proof.
  rewrite session_of_app, tokens_app. unfold admin_created. destruct (admin_users a), (admin_users b); cbn; by rewrite ?app_nil_r.
Qed.

Lemma agrees_created tr x a b tk : agrees tr x tk -> agrees (tr ++ admin_created a b) x tk.
Proof. unfold agrees. by rewrite (proj1 (created_session a b tr tk)). Qed.

Lemma new_session_admin fails t username now token csrf t' r :
  newSession (gorm_auth fails) t username now token csrf = (t', r) -> admin_users t' = admin_users t.
Proof.
  unfold newSession. intros H. destruct token, csrf; try (injection H as <- <-; done).
  destruct (DeleteExpiredAdminSessions _ _ _) as [t1|] eqn:E1; [|injection H as <- <-; done]. apply answer_op in E1 as [_ [= <-]].
  destruct (SaveAdminSession _ _ _ _ _ _) as [t2|] eqn:E2; injection H as <- <-; [|done]. apply answer_op in E2 as [_ E2].
  cbn in E2. destruct (filter _ _ !! _); [done|]. by injection E2 as <-.
Qed.

Lemma authenticate_tables fails t token now t' r : Authenticate (gorm_auth fails) t token now = (t', r) ->
  t' = t \/ t' = set_sessions t (alter (fun row =>
    MkSession (sr_CSRFHash row) (sr_CreatedAt row) (sr_ExpiresAt row) (UnixMilli now)) (hashToken token) (admin_sessions t)).
Proof.
  unfold Authenticate. destruct (is_empty token); [intros [= <- <-]; by left|].
  destruct (AdminSession _ _ _ _) as [[[[u c] e]|]|]; [|intros [= <- <-]; by left..].
  destruct (TouchAdminSession _ _ _ _) as [t1|] eqn:E; intros [= <- <-]; [|by left]. apply answer_op in E as [_ [= <-]]. by right.
Qed.

Lemma touch_agrees tr x now h seen tk : clock x <= now -> agrees tr x tk ->
  agrees tr (MkAuthState now (set_sessions (tables x) (alter (fun row =>
    MkSession (sr_CSRFHash row) (sr_CreatedAt row) (sr_ExpiresAt row) seen) h (admin_sessions (tables x))))) tk.
Proof.
  intros Hc Ha. apply (agrees_later _ _ now (tables x)) in Ha; [|done|by intros ?|done].
  unfold agrees in *. cbn [tables clock set_sessions admin_sessions] in *. destruct (decide (h = hashToken tk)) as [->|Hne].
  - rewrite lookup_alter_eq. destruct (session_of tr tk) as [s|]; destruct (admin_sessions (tables x) !! hashToken tk) as [row|]; simpl; try done.
    by destruct Ha.
  - rewrite lookup_alter_ne by done. destruct (session_of tr tk); [|done]. destruct (_ !! _); [|done]. by destruct Ha.
Qed.

Section Traces.
Variable compare : string -> string -> bool.
Variable dummy : string.

Lemma step_agrees tr x evs x' tk : auth_step compare dummy x evs x' -> collision_free (tk :: tokens (tr ++ evs)) ->
  agrees tr x tk -> agrees (tr ++ evs) x' tk.
Proof.
  intros Hs Hcf Ha. destruct Hs as [fails u hash now token csrf t r Hc H|fails u password now token csrf t r Hc H|fails token now t r Hc H|fails token t r H].
  - unfold setup_create in H. destruct (CreateAdmin _ _ _ _ _) as [t1|] eqn:E.
    + apply answer_op in E as [_ E]. destruct (admin_users (tables x)) eqn:Ex; [done|]. injection E as <-.
      pose proof (new_session_admin _ _ _ _ _ _ _ _ H) as Eu.
      rewrite app_assoc in *. eapply (new_session_agrees (tr ++ admin_created (tables x) t) (MkAuthState (clock x) _)); [exact Hc| |exact H|exact Hcf|].
      * cbn. eauto.
      * apply agrees_created. eapply (agrees_later tr x); [done|by intros ?; rewrite Ex|done|done].
    + injection H as <- <-. cbn [issued]. rewrite app_nil_r. apply agrees_created. apply (agrees_later tr x); [done|by intros ?|done..].
  - unfold Login in H. destruct (AdminPasswordHash _ _ _) as [found|] eqn:E; [|injection H as <- <-; cbn; rewrite app_nil_r; apply (agrees_later tr x); [done|by intros ?|done..]].
    destruct (negb _ || negb (present found)) eqn:Eb; [injection H as <- <-; cbn; rewrite app_nil_r; apply (agrees_later tr x); [done|by intros ?|done..]|].
    bool_prop. destruct found as [hash|]; [|done]. apply answer_op in E as [_ E]. injection E as E.
    eapply new_session_agrees; [exact Hc| |exact H|exact Hcf|exact Ha].
    destruct (admin_users (tables x)) as [row|]; [|done]. exists row. split; [done|]. case_bool_decide; [done|by simplify_eq].
  - rewrite app_nil_r. apply authenticate_tables in H as [->| ->].
    + apply (agrees_later tr x); [done|by intros ?|done..].
    + by apply touch_agrees.
  - unfold Logout in H. destruct (is_empty token) eqn:Et.
    { injection H as <- <-. cbn. rewrite app_nil_r. apply (agrees_later tr x); [done|by intros ?|done..]. }
    destruct (DeleteAdminSession _ _ _) as [t1|] eqn:E; injection H as <- <-; cbn;
      [|rewrite app_nil_r; apply (agrees_later tr x); [done|by intros ?|done..]].
    cbn in Hcf. apply answer_op in E as [_ [= <-]]. unfold agrees. rewrite session_of_app. cbn. case_bool_decide as Hd.
    + subst. by rewrite lookup_delete_eq.
    + change (match session_of tr tk with Some s => _ | None => _ end) with (agrees tr (MkAuthState (clock x) (set_sessions (tables x) (delete (hashToken token) (admin_sessions (tables x))))) tk).
      apply (agrees_later tr x); [done|by intros ?| |done]. cbn. rewrite lookup_delete_ne; [done|]. intros E. apply Hd, Hcf; [..|done]; rewrite tokens_app; cbn; set_solver.
Qed.

Lemma traced_agrees tr x tk : auth_traced compare dummy tr x -> collision_free (tk :: tokens tr) -> agrees tr x tk.
Proof.
  induction 1 as [|tr x evs x' _ IH Hs]; intros Hcf; [done|]. eapply step_agrees; [done..|]. apply IH.
  rewrite tokens_app in Hcf. by eapply collision_free_app.
Qed.

Lemma touched_clock fails t token now : fails OpTouch = false ->
  TouchAdminSession (gorm_auth fails) t token now <> None.
Proof. cbn. by intros ->. Qed.

(** What [Authenticate] answers. *)
Lemma authenticate_answer tr x fails token now : auth_traced compare dummy tr x -> collision_free (token :: tokens tr) ->
  clock x <= now -> token <> "" ->
  let r := snd (Authenticate (gorm_auth fails) (tables x) token now) in
  r = Err AuthStoreFailed /\ (fails OpSession || fails OpTouch) = true \/
  match session_of tr token with
  | Some s => if unexpired s now
              then exists session, r = Ok session /\ as_Username session = ls_username s /\ as_csrfHash session = hashToken (ls_csrf s)
              else r = Err ErrInvalidSession
  | None => r = Err ErrInvalidSession
  end.
Proof.
  intros Htr Hcf Hc Hne. pose proof (traced_agrees _ _ _ Htr Hcf) as Ha. unfold agrees in Ha.
  unfold Authenticate. rewrite (proj2 (is_empty_false _) Hne). cbn.
  destruct (fails OpSession); [by left|]. cbn. destruct (session_of tr token) as [s|].
  - destruct (admin_sessions (tables x) !! hashToken token) as [row|] eqn:Er.
    + destruct Ha as [Hcs He (user & -> & Hu)]. cbn [sr_ExpiresAt]. rewrite He. unfold unexpired. destruct (UnixMilli now <? _); [|by right].
      destruct (fails OpTouch); [by left|]. right. eexists. split; [done|]. cbn. by rewrite Hu, Hcs.
    + rewrite (unexpired_mono _ _ _ Hc Ha). by right.
  - rewrite Ha. by right.
Qed.

Lemma session_csrf tr tk s : session_of tr tk = Some s -> ls_csrf s ∈ omap event_csrf tr.
Proof.
  induction tr as [|ev tr IH] using rev_ind; [done|]. rewrite session_of_app, omap_app, elem_of_app. cbn.
  destruct ev as [|u t c a|t]; cbn; [auto|case_bool_decide; [|auto]; intros [= <-]; right; by apply list_elem_of_singleton|case_bool_decide; auto; done].
Qed.

(** C24: the guard of the interface lets through exactly what live sessions ask for: as long
    as the database answers, a protected request passes if and only if its cookie is a token
    that was issued (by the set-up of the administrator or a login), not logged out since,
    and not older than 24 hours, and a request that changes something carries the session's
    CSRF token; the answers 401 and 403 are told apart as in the table of live sessions. *)
Theorem guard_spec tr x fails request now : auth_traced compare dummy tr x -> clock x <= now ->
  (forall cookie, rq_Cookie request = Some cookie -> cookie <> "" -> collision_free (cookie :: tokens tr)) ->
  collision_free (rq_CSRF request :: omap event_csrf tr) ->
  let r := snd (guard_request (gorm_auth fails) true (tables x) request now) in
  r = Err 503 /\ (fails OpSession || fails OpTouch) = true \/
  match allowed_by tr request now with
  | Err status => r = Err status
  | Ok None => r = Ok None
  | Ok (Some username) => exists session, r = Ok (Some session) /\ as_Username session = username
  end.
Proof.
  intros Htr Hc Hck Hcs. unfold guard_request, allowed_by. cbn [negb orb].
  destruct (requiresAuthentication _); [|by right]. cbn [negb]. destruct (rq_Cookie request) as [cookie|] eqn:Ek; [|by right].
  destruct (is_empty cookie) eqn:Ee.
  - by right.
  - apply is_empty_false in Ee. pose proof (authenticate_answer tr x fails cookie now Htr (Hck _ eq_refl Ee) Hc Ee) as Ha. cbv zeta in Ha.
    destruct (Authenticate _ _ _ _) as [t r] eqn:EA. cbn [snd] in Ha. destruct Ha as [[-> Hf]|Ha]; [by left|]. right.
    destruct (session_of tr cookie) as [s|] eqn:Es; [|by subst r]. destruct (unexpired s now); [|by subst r]. cbn [negb].
    destruct Ha as (session & -> & Hu & Hh). unfold VerifyCSRF. rewrite Hh.
    destruct (auditMethod _); cbn [andb]; [|by exists session].
    assert (Hcsrf : (hashToken (rq_CSRF request) =s hashToken (ls_csrf s)) = (rq_CSRF request =s ls_csrf s)).
    { apply session_csrf in Es. apply bool_decide_ext. split; [|by intros ->].
      apply Hcs; [left|right; exact Es]. }
    rewrite Hcsrf. destruct (is_empty (rq_CSRF request) || _); cbn; [done|]. by exists session.
Qed.

End Traces.

(** ** Failed logins of one client *)

Section Limiter.
Variable store : AuthStore.
Variable compare : string -> string -> bool.
Variable dummy : string.
Variable order : gmap string loginAttempt -> list string.
(** The client. *)
Variable k : string.

(** Requests to log in, one after the other: the times of the client's failures, the latest
    first. It does not log in, and the table of attempts stays below the size at which
    entries are dropped. *)
Inductive logins : list Time -> gmap string loginAttempt -> Time -> Prop :=
| logins_start now : 0 < now -> logins [] ∅ now
| logins_next F m clock t key input now later token csrf m' t' r :
    logins F m clock -> clock <= now -> now <= later -> (size m < 1024)%nat ->
    handle_login store compare dummy order m t key input now later token csrf = (m', t', r) ->
    (key = k -> is_ok r = false) ->
    logins ((if (key =s k) && match r with Err 401 => true | _ => false end then [later] else []) ++ F) m' later.

Definition recent (t : Time) (F : list Time) : nat := List.length (List.filter (fun f => t - five_minutes <? f) F).

Lemma recent_app t F G : recent t (F ++ G) = (recent t F + recent t G)%nat.
Proof. unfold recent. by rewrite List.filter_app, List.length_app. Qed.

Lemma recent_length t F : (recent t F <= List.length F)%nat.
Proof. unfold recent. induction F as [|f F IH]; simpl; [done|]. destruct (_ <? _); simpl; lia. Qed.

Lemma recent_later t t' F : t <= t' -> (recent t' F <= recent t F)%nat.
Proof. intros H. unfold recent. induction F as [|f F IH]; [done|]. cbn [List.filter].
  destruct (t' - five_minutes <? f) eqn:E, (t - five_minutes <? f) eqn:E'; cbn [List.length]; bool_prop; lia.
Qed.

Lemma recent_old t F : Forall (fun f => f <= t - five_minutes) F -> recent t F = 0%nat.
Proof. unfold recent. induction 1 as [|f F Hf _ IH]; simpl; [done|]. destruct (_ <? _) eqn:?; bool_prop; [lia|done]. Qed.

Record window_ok (F : list Time) (c : Time) (a : loginAttempt) (cur prev : list Time) : Prop := {
  wo_split : F = cur ++ prev;
  wo_count : Z.of_nat (List.length cur) = la_failures a;
  wo_failures : 1 <= la_failures a <= 5;
  wo_start : 0 < la_windowStart a <= c;
  wo_prev : Forall (fun f => f <= la_windowStart a) prev;
  wo_recent : (recent (la_windowStart a) prev <= 4)%nat;
  wo_open : la_failures a < 5 -> la_lockedUntil a = zero_time;
  wo_locked : la_failures a = 5 -> exists last_, la_lockedUntil a = last_ + five_minutes /\
    la_windowStart a <= last_ <= c /\ Forall (fun f => f <= last_) cur;
}.

Definition limiter_ok (F : list Time) (m : gmap string loginAttempt) (c : Time) : Prop :=
  0 < c /\ Forall (fun f => f <= c) F /\
  match m !! k with None => (recent c F <= 4)%nat | Some a => exists cur prev, window_ok F c a cur prev end.

Lemma window_over_true now a : 0 < la_windowStart a -> window_over now a = true <-> la_windowStart a + five_minutes <= now.
Proof.
  unfold window_over, IsZero, zero_time, TimeSub, five_minutes, two63. intros H.
  rewrite (proj2 (Z.eqb_neq _ _)) by lia. cbn [orb]. rewrite Z.leb_le. lia.
Qed.

Lemma window_over_false now a : 0 < la_windowStart a -> window_over now a = false <-> now < la_windowStart a + five_minutes.
Proof. intros H. rewrite <- not_true_iff_false, window_over_true by done. lia. Qed.

Lemma limiter_later F m c now : c <= now -> limiter_ok F m c -> limiter_ok F m now.
Proof.
  intros Hc (H0 & HF & H). split; [lia|]. split; [eapply Forall_impl; [exact HF|]; simpl; lia|].
  destruct (m !! k) as [a|].
  - destruct H as (cur & prev & [? ? ? [? ?] ? ? ? Hl]). exists cur, prev. split; try done; [lia|].
    intros E. destruct (Hl E) as (l & ? & ? & ?). exists l. split_and!; try done; lia.
  - pose proof (recent_later c now F Hc). lia.
Qed.

(** Once the window is over and no lock runs, few failures are recent. *)
Lemma recent_over F c a cur prev now : window_ok F c a cur prev -> la_windowStart a + five_minutes <= now ->
  la_lockedUntil a <= now -> (recent now F <= 4)%nat.
Proof.
  intros [-> Hc Hf Hs Hp _ _ Hl] Hw Hn. rewrite recent_app, (recent_old now prev), Nat.add_0_r
    by (eapply Forall_impl; [exact Hp|]; simpl; lia).
  destruct (decide (la_failures a = 5)) as [E|].
  - destruct (Hl E) as (l & E' & _ & Hcur). rewrite (recent_old now cur); [lia|]. eapply Forall_impl; [exact Hcur|]. simpl. lia.
  - pose proof (recent_length now cur). lia.
Qed.

(** A look at the limiter keeps the invariant; when it lets the client go on, its window is open. *)
Lemma allowed_ok F m c now key m' b d : c <= now -> limiter_ok F m c -> allowed now m key = (m', (b, d)) ->
  limiter_ok F m' now /\ (size m' <= size m)%nat /\
  (key = k -> b = true -> forall a, m' !! k = Some a -> window_over now a = false /\ la_failures a < 5).
Proof.
  intros Hc Hok%(limiter_later F m c now) H; [|done]. unfold allowed in H.
  destruct (Before now _) eqn:Eb; [injection H as <- <- <-; by split_and!|].
  injection H as <- <- <-. destruct Hok as (H0 & HF & Hm).
  destruct (window_over now (default zero_attempt (m !! key))) eqn:Ew.
  - split; [|split; [apply map_size_delete_le|by intros -> _ a; rewrite lookup_delete_eq]].
    split; [done|split; [done|]]. destruct (decide (key = k)) as [->|Hne]; [|by rewrite lookup_delete_ne].
    rewrite lookup_delete_eq. destruct (m !! k) as [a|] eqn:Ea; [|done]. destruct Hm as (cur & prev & Hw). simpl in Ew, Eb.
    apply window_over_true in Ew; [|apply (wo_start _ _ _ _ _ Hw)]. unfold Before in Eb. bool_prop. by eapply recent_over.
  - split; [done|split; [done|]]. intros -> _ a Ea. rewrite Ea in *. simpl in Ew, Eb. split; [done|].
    destruct Hm as (cur & prev & [_ _ Hf Hs _ _ _ Hl]). apply window_over_false in Ew; [|apply Hs].
    destruct (decide (la_failures a = 5)) as [E|]; [|lia]. destruct (Hl E) as (l & E' & ? & _). unfold Before in Eb. bool_prop. lia.
Qed.

Lemma failed_lookup now m key : (size m < 1024)%nat ->
  failed now order m key = <[key := count_failure now (default zero_attempt (m !! key))]> m.
Proof.
  intros H. unfold failed. rewrite (proj2 (Nat.leb_gt _ _)) by lia. cbv zeta. rewrite (proj2 (Nat.ltb_ge _ _)); [done|].
  pose proof (map_size_insert_le m key (count_failure now (default zero_attempt (m !! key)))). lia.
Qed.

(** A counted failure. *)
Lemma failed_ok F m now later : now <= later -> limiter_ok F m now ->
  (forall a, m !! k = Some a -> window_over now a = false /\ la_failures a < 5) ->
  limiter_ok (later :: F) (<[k := count_failure later (default zero_attempt (m !! k))]> m) later.
Proof.
  intros Hc Hok Ha. apply (limiter_later _ _ _ later) in Hok; [|done]. destruct Hok as (H0 & HF & Hm).
  split_and!; [done|by constructor|]. rewrite lookup_insert_eq.
  assert (Hfresh : (recent later F <= 4)%nat -> exists cur prev, window_ok (later :: F) later (MkAttempt 1 later zero_time) cur prev).
  { intros Hr. exists [later], F. split; cbn; try done; lia. }
  destruct (m !! k) as [a|] eqn:Ea; [|by apply Hfresh]. destruct (Ha a eq_refl) as [_ Hlt]. simpl.
  destruct Hm as (cur & prev & Hw). unfold count_failure. destruct (window_over later a) eqn:Ew.
  - apply Hfresh. apply window_over_true in Ew; [|apply (wo_start _ _ _ _ _ Hw)]. eapply recent_over; [exact Hw|done|].
    rewrite (wo_open _ _ _ _ _ Hw Hlt). unfold zero_time. lia.
  - destruct Hw as [-> Hn Hf Hs Hp Hr Ho Hl]. exists (later :: cur), prev. cbn.
    split; cbn; try done; try lia.
    + intros H5. rewrite (proj2 (Z.leb_gt _ _)) by lia. apply Ho. lia.
    + intros H5. rewrite (proj2 (Z.leb_le _ _)) by lia. exists later. split_and!; try done; try lia.
      apply Forall_app in HF as [HF _]. by constructor.
Qed.

Lemma limiter_other F m c m' : limiter_ok F m c -> m' !! k = m !! k -> limiter_ok F m' c.
Proof. unfold limiter_ok. by intros H ->. Qed.

Lemma handle_cases m t key input now later token csrf m' t' r :
  handle_login store compare dummy order m t key input now later token csrf = (m', t', r) ->
  exists m1 b d, allowed now m key = (m1, (b, d)) /\
    (m' = m1 /\ r <> Err 401 /\ is_ok r = false \/ m' = failed later order m1 key /\ b = true /\ r = Err 401 \/
     m' = succeeded m1 key /\ is_ok r = true).
Proof.
  unfold handle_login. intros H. destruct (allowed now m key) as [m1 [[|] d]]; exists m1; eexists _, d; (split; [done|]);
    [|injection H as <- <- <-; by left]. destruct input as [[u p]|]; [|injection H as <- <- <-; by left].
  destruct (Login _ _ _ _ _ _ _ _ _) as [t1 [s|e]]; [injection H as <- <- <-; auto|].
  destruct e; injection H as <- <- <-; auto.
Qed.

Lemma logins_ok F m c : logins F m c -> limiter_ok F m c.
Proof.
  induction 1 as [now H|F m clock t key input now later token csrf m' t' r _ IH Hc Hl Hsize H Hk].
  - split; [done|split; [constructor|]]. rewrite lookup_empty. unfold recent. simpl. lia.
  - apply handle_cases in H as (m1 & b & d & Ea & Hm'). destruct (allowed_ok _ _ _ _ _ _ _ _ Hc IH Ea) as (Hok & Hs & Ha).
    destruct Hm' as [(-> & Hr & _)|[(-> & -> & ->)|(-> & Hr)]].
    + replace (match r with Err 401 => true | _ => false end) with false.
      * rewrite andb_false_r. by apply (limiter_later F m1 now).
      * destruct r as [|z]; [done|]. destruct z; try done. repeat (destruct p; try done).
    + rewrite failed_lookup by lia. rewrite andb_true_r. case_bool_decide as E.
      * subst key. apply failed_ok with now; [done..|]. by apply Ha.
      * apply (limiter_other F m1); [by apply (limiter_later F m1 now)|]. by apply lookup_insert_ne.
    + assert (key <> k) as Hne by (intros ->; by rewrite Hk in Hr).
      rewrite bool_decide_eq_false_2 by done. apply (limiter_other F m1); [by apply (limiter_later F m1 now)|].
      unfold succeeded. by rewrite lookup_delete_ne.
Qed.

Definition between (t : Time) (f : Time) : bool := (t - five_minutes <? f) && (f <=? t).

(** C38: the limiter of the login page bounds guessing, as long as requests to log in are
    handled one after the other and the limiter knows fewer than 1024 clients: of one client
    that does not log in, at most nine attempts are answered with "invalid credentials" in
    any interval of five minutes (four at the end of one window, five in the next).  Both
    conditions are needed: with 1024 clients a lock that runs can be dropped
    (cleanup_drops_running_locks), and overlapping requests all pass the check. *)
Theorem failures_bounded F m c : logins F m c -> forall t, (List.length (List.filter (between t) F) <= 9)%nat.
Proof.
  induction 1 as [now H|F m clock t0 key input now later token csrf m' t' r Hl IH Hc Hn Hsize H Hk]; intros t; [simpl; lia|].
  pose proof (logins_next _ _ _ _ _ _ _ _ _ _ _ _ _ Hl Hc Hn Hsize H Hk) as Hl'.
  destruct (_ && _); [|apply IH]. cbn [app] in *. simpl. destruct (between t later) eqn:Eb; [|apply IH].
  unfold between in Eb. bool_prop. apply logins_ok in Hl' as (_ & _ & Hm').
  assert (Hle : (List.length (List.filter (between t) F) <= recent later F)%nat).
  { unfold recent, between. clear -H1. induction F as [|f F IH]; [done|]. cbn [List.filter].
    destruct (t - five_minutes <? f) eqn:E1, (later - five_minutes <? f) eqn:E2, (f <=? t); cbn [andb List.length]; bool_prop; lia. }
  assert (Hr : (recent later (later :: F) <= 9)%nat).
  { destruct (m' !! k) as [a|]; [|lia]. destruct Hm' as (cur & prev & [E Hcur Hf [Hs Hs'] _ Hr _ _]). rewrite E, recent_app.
    pose proof (recent_length later cur). pose proof (recent_later _ later prev Hs'). lia. }
  unfold recent in Hr at 1. simpl in Hr. rewrite (proj2 (Z.ltb_lt (later - five_minutes) later)) in Hr by (unfold five_minutes; lia).
  simpl in Hr. unfold recent in Hle. simpl. lia.
Qed.

End Limiter.

(** ** The size of the table *)

Lemma first_other ks key : (exists j, j ∈ ks /\ j <> key) ->
  exists j, first (fun j => if j =s key then None else Some j) ks = Some j /\ j ∈ ks /\ j <> key.
Proof.
  induction ks as [|i ks IH]; [intros (j & H & _); by apply not_elem_of_nil in H|]. intros (j & Hj & Hne). simpl.
  case_bool_decide as E; [|exists i; split_and!; [done|left|done]]. subst i. apply elem_of_cons in Hj as [->|Hj]; [done|].
  destruct IH as (l & ? & ? & ?); [by exists j|]. exists l. split_and!; [done|by right|done].
Qed.

(** the limiter's table stays bounded: however many clients fail, no request leaves more
    than 2048 entries in it. *)
Theorem limiter_table_bounded store compare dummy order m t key input now later token csrf :
  (forall m', range_of m' (order m')) -> (size m <= 2048)%nat ->
  (size (fst (fst (handle_login store compare dummy order m t key input now later token csrf))) <= 2048)%nat.
Proof.
  intros Ho Hm. destruct (handle_login _ _ _ _ _ _ _ _ _ _ _ _) as [[m' t'] r] eqn:H. simpl.
  apply handle_cases in H as (m1 & b & d & Ea & Hm').
  assert (Hs : (size m1 <= 2048)%nat).
  { unfold allowed in Ea. destruct (Before _ _); [by injection Ea as <- _ _|]. injection Ea as <- _ _.
    destruct (window_over _ _); [|done]. pose proof (map_size_delete_le m key). lia. }
  destruct Hm' as [(-> & _)|[(-> & _)|(-> & _)]]; [done| |pose proof (map_size_delete_le m1 key); unfold succeeded; lia].
  unfold failed. set (m2 := if (1024 <=? size m1)%nat then _ else _).
  assert (Hs2 : (size m2 <= 2048)%nat).
  { unfold m2. destruct (_ <=? _)%nat; [|done]. pose proof (map_size_filter (fun kv => attempt_over later kv.2 = false) m1). lia. }
  set (m3 := <[key := _]> m2). assert (Hs3 : (size m3 <= S (size m2))%nat) by apply map_size_insert_le.
  destruct (_ <? _)%nat eqn:El; [|apply Nat.ltb_ge in El; lia]. apply Nat.ltb_lt in El.
  destruct (first_other (order m3) key) as (j & -> & Hj & Hne).
  - destruct (Ho m3) as [_ Hr]. assert (Hd : size (delete key m3) <> 0%nat).
    { rewrite map_size_delete_Some by (by unfold m3; rewrite lookup_insert_eq). lia. }
    destruct (map_choose (delete key m3)) as (j & a & Hj); [by intros E; rewrite E in Hd|].
    apply lookup_delete_Some in Hj as [Hne Hj]. exists j. split; [by apply Hr|done].
  - apply (Ho m3) in Hj. rewrite map_size_delete_Some by done. lia.
Qed.

(** When the table is large, a client whose lock still runs is dropped with its window. *)
Lemma cleanup_drops_running_locks start : 0 < start -> start < two63 ->
  let a := MkAttempt 5 start (start + 9 * 60 * 1000000000) in
  let now := start + five_minutes in
  Before now (la_lockedUntil a) = true /\ attempt_over now a = true.
Proof.
  intros H0 H1. unfold Before, attempt_over, TimeSub, five_minutes. cbn [la_lockedUntil la_windowStart].
  split; [apply Z.ltb_lt; lia|]. apply orb_true_iff. right. apply Z.leb_le. unfold two63. lia.
Qed.

(** ** Examples *)

Definition up (_ : AuthOp) : bool := false.
Definition ex_now : Time := 63921052800 * 1000000000.
Definition ex_created := setup_create (gorm_auth up) (MkTables None ∅) "admin" "hash" ex_now (Some "token") (Some "csrf").
Definition ex_request : Request := MkRequest "/api/v1/devices" "POST" (Some "token") "csrf".
Definition ex_trace : list AuthEvent := [AdminCreated "admin" "hash"; Issued "admin" "token" "csrf" ex_now].

Lemma ex_created_events : admin_created (MkTables None ∅) (fst ex_created) ++ issued (snd ex_created) ex_now = ex_trace.
Proof. vm_compute. reflexivity. Qed.

Lemma ex_traced compare dummy : auth_traced compare dummy ex_trace (MkAuthState ex_now (fst ex_created)).
Proof.
  rewrite <- ex_created_events. set (x := MkAuthState zero_time (MkTables None ∅)).
  exact (auth_next compare dummy [] x _ _ (auth_start compare dummy) (step_setup compare dummy x up "admin" "hash" ex_now
    (Some "token") (Some "csrf") (fst ex_created) (snd ex_created) ltac:(done) (surjective_pairing _))).
Qed.

Lemma single_collision_free a : collision_free [a; a].
Proof. intros x y Hx Hy _. set_solver. Qed.

Lemma guard_spec_witness : exists session,
  snd (guard_request (gorm_auth up) true (fst ex_created) ex_request ex_now) = Ok (Some session) /\ as_Username session = "admin".
Proof.
  destruct (guard_spec (fun _ _ => false) "" ex_trace (MkAuthState ex_now (fst ex_created)) up ex_request ex_now) as [[_ H]|H];
    [apply ex_traced|done|intros cookie [= <-] _; apply single_collision_free|apply single_collision_free|discriminate H|exact H].
Defined.

Definition ex_order : gmap string loginAttempt -> list string := some_range.

Lemma failures_bounded_witness : (List.length (List.filter (between ex_now) [ex_now]) <= 9)%nat.
Proof.
  apply (failures_bounded (gorm_auth up) (fun _ _ => false) "" ex_order "192.0.2.1" [ex_now]
    (fst (fst (handle_login (gorm_auth up) (fun _ _ => false) "" ex_order ∅ (MkTables None ∅) "192.0.2.1" (Some ("admin", "guess")) ex_now ex_now None None))) ex_now).
  refine (logins_next _ _ _ _ _ [] ∅ ex_now (MkTables None ∅) "192.0.2.1" (Some ("admin", "guess")) ex_now ex_now None None _ (MkTables None ∅) (Err 401)
    (logins_start _ _ _ _ _ ex_now eq_refl) _ _ _ _ _); [done|done|vm_compute; lia|vm_compute; reflexivity|done].
Defined.

Lemma limiter_table_bounded_witness :
  (size (fst (fst (handle_login (gorm_auth up) (fun _ _ => false) "" ex_order ∅ (MkTables None ∅) "192.0.2.1" (Some ("admin", "guess")) ex_now ex_now None None))) <= 2048)%nat.
Proof. apply limiter_table_bounded; [intros m'; apply range_of_some_range|vm_compute; lia]. Defined.
