(* ===== verification/Locations.v ===== *)
(** * Names and locations of devices: backend/internal/application/device_service.go
    (lines 465 to 933) and persistence/gormstore/device_preferences.go

    A user may rename a device and place it in a room of a directory of homes. The tables
    keep the directory and the choices; the service keeps a copy of them, and shows every
    device with them. A call of the service is a sequence of transactions, any of which may
    fail, and of accesses to the memory, between which other calls may run. *)

From S2P Require Import Prelude Float64 DomainState StateStore CommandTracker DeviceRegistry.
From S2P Require Import DeviceModel Lookup FloatText Text Sha256 LogicalRuntime DeviceProjection DeviceService Auth.

(** ** Tables *)

(** Homes have a name, rooms a home and a name; preferences are by device. *)
Record LocationTables := MkLocationTables {
  home_rows : gmap string string;
  room_rows : gmap string LocationRoom;
  location_rows : gmap string LocationPreference;
  name_rows : gmap string string;
}.

Definition set_home_rows (t : LocationTables) x := MkLocationTables x (room_rows t) (location_rows t) (name_rows t).
Definition set_room_rows (t : LocationTables) x := MkLocationTables (home_rows t) x (location_rows t) (name_rows t).
Definition set_location_rows (t : LocationTables) x := MkLocationTables (home_rows t) (room_rows t) x (name_rows t).
Definition set_name_rows (t : LocationTables) x := MkLocationTables (home_rows t) (room_rows t) (location_rows t) x.

Inductive LocationError :=
| LocationDeviceNotFound
| LocationUnavailable
| InvalidLocation (fields : list string)
| ErrLocationNotFound
| ErrLocationInUse
| ErrLocationConflict
| LocationDatabaseFailed.

(** What a transaction makes of the tables. *)
Definition transaction A := LocationTables -> result LocationError (LocationTables * A).

(** *** Names *)

Definition ListDeviceNamePreferences : transaction (gmap string string) := fun t => Ok (t, name_rows t).
Definition SetDeviceNamePreference (deviceID name : string) : transaction unit :=
  fun t => Ok (set_name_rows t (<[deviceID := name]> (name_rows t)), tt).
Definition ClearDeviceNamePreference (deviceID : string) : transaction unit :=
  fun t => Ok (set_name_rows t (delete deviceID (name_rows t)), tt).

(** *** The directory *)

(** Another home has the name; another room of the home has it. *)
Definition home_taken (t : LocationTables) (id name : string) : bool :=
  existsb (fun kv => negb (kv.1 =s id) && (kv.2 =s name)) (map_to_list (home_rows t)).
Definition room_taken (t : LocationTables) (id homeID name : string) : bool :=
  existsb (fun kv => negb (kv.1 =s id) && (lr_HomeID kv.2 =s homeID) && (lr_Name kv.2 =s name))
    (map_to_list (room_rows t)).

(** [INSERT ... ON CONFLICT DO NOTHING]; the home of a room is a foreign key. *)
Definition insert_home (t : LocationTables) (id name : string) : LocationTables :=
  if present (home_rows t !! id) || home_taken t id name then t
  else set_home_rows t (<[id := name]> (home_rows t)).
Definition insert_room (t : LocationTables) (id homeID name : string) : result LocationError LocationTables :=
  if present (room_rows t !! id) || room_taken t id homeID name then Ok t
  else if present (home_rows t !! homeID) then Ok (set_room_rows t (<[id := MkLocationRoom id homeID name]> (room_rows t)))
  else Err LocationDatabaseFailed.

Definition ensureLocationPreferenceCatalog (t : LocationTables) (p : LocationPreference)
    : result LocationError LocationTables :=
  let t := insert_home t (lo_HomeID p) (lo_HomeName p) in
  if is_empty (lo_RoomID p) then Ok t else insert_room t (lo_RoomID p) (lo_HomeID p) (lo_RoomName p).

(** The rows come in the order the database scans them. *)
Fixpoint importLegacyLocationPreferences (rows : list LocationPreference) (t : LocationTables)
    : result LocationError LocationTables :=
  match rows with
  | [] => Ok t
  | p :: rows =>
      let! t := ensureLocationPreferenceCatalog t p in
      importLegacyLocationPreferences rows t
  end.

Definition name_leb (a b : string * string) : bool :=
  if a.1 =s b.1 then str_leb a.2 b.2 else str_leb a.1 b.1.
Definition home_le (a b : string * string) : Prop := name_leb (a.2, a.1) (b.2, b.1) = true.
#[export] Instance home_le_dec : RelDecision home_le.
Proof. intros a b. unfold home_le. apply _. Defined.
Definition room_le (a b : LocationRoom) : Prop := name_leb (lr_Name a, lr_ID a) (lr_Name b, lr_ID b) = true.
#[export] Instance room_le_dec : RelDecision room_le.
Proof. intros a b. unfold room_le. apply _. Defined.

(** [ORDER BY name, id] of the homes and, for each, of its rooms. *)
Definition rooms_of (t : LocationTables) (homeID : string) : list LocationRoom :=
  merge_sort room_le (List.filter (fun r => lr_HomeID r =s homeID) (map_to_list (room_rows t)).*2).
Definition homes_of (t : LocationTables) : list LocationHome :=
  (fun kv => MkLocationHome kv.1 kv.2 (rooms_of t kv.1)) <$> merge_sort home_le (map_to_list (home_rows t)).

Section Statements.
(** The order of a scan of the preferences. *)
Variable scanned : gmap string LocationPreference -> list LocationPreference.

Definition ListLocationHomes : transaction (list LocationHome) := fun t =>
  let! t := importLegacyLocationPreferences (scanned (location_rows t)) t in
  Ok (t, homes_of t).
End Statements.

Definition set_HomeName (p : LocationPreference) (name : string) : LocationPreference :=
  MkLocationPreference (lo_DeviceID p) (lo_HomeID p) name (lo_RoomID p) (lo_RoomName p).
Definition set_RoomName (p : LocationPreference) (name : string) : LocationPreference :=
  MkLocationPreference (lo_DeviceID p) (lo_HomeID p) (lo_HomeName p) (lo_RoomID p) name.

Definition SaveLocationHome (id name : string) : transaction unit := fun t =>
  guard! negb (home_taken t id name) else ErrLocationConflict in
  match home_rows t !! id with
  | None => Ok (set_home_rows t (<[id := name]> (home_rows t)), tt)
  | Some _ =>
      let t := set_home_rows t (<[id := name]> (home_rows t)) in
      Ok (set_location_rows t ((fun p => if lo_HomeID p =s id then set_HomeName p name else p) <$> location_rows t), tt)
  end.

Definition placed_in (t : LocationTables) (where_ : LocationPreference -> bool) : bool :=
  existsb (fun kv => where_ kv.2) (map_to_list (location_rows t)).

Definition DeleteLocationHome (id : string) : transaction unit := fun t =>
  guard! present (home_rows t !! id) else ErrLocationNotFound in
  guard! negb (placed_in t (fun p => lo_HomeID p =s id)) else ErrLocationInUse in
  let t := set_room_rows t (filter (fun kv => lr_HomeID kv.2 <> id) (room_rows t)) in
  Ok (set_home_rows t (delete id (home_rows t)), tt).

Definition SaveLocationRoom (room : LocationRoom) : transaction unit := fun t =>
  guard! present (home_rows t !! lr_HomeID room) else ErrLocationNotFound in
  guard! negb (room_taken t (lr_ID room) (lr_HomeID room) (lr_Name room)) else ErrLocationConflict in
  match room_rows t !! lr_ID room with
  | None => Ok (set_room_rows t (<[lr_ID room := room]> (room_rows t)), tt)
  | Some existing =>
      guard! lr_HomeID existing =s lr_HomeID room else ErrLocationConflict in
      let t := set_room_rows t (<[lr_ID room := room]> (room_rows t)) in
      Ok (set_location_rows t
            ((fun p => if lo_RoomID p =s lr_ID room then set_RoomName p (lr_Name room) else p) <$> location_rows t), tt)
  end.

Definition DeleteLocationRoom (id : string) : transaction unit := fun t =>
  guard! present (room_rows t !! id) else ErrLocationNotFound in
  guard! negb (placed_in t (fun p => lo_RoomID p =s id)) else ErrLocationInUse in
  Ok (set_room_rows t (delete id (room_rows t)), tt).

(** *** Choices *)

Definition ListDeviceLocationPreferences : transaction (gmap string LocationPreference) :=
  fun t => Ok (t, location_rows t).
Definition SetDeviceLocationPreference (p : LocationPreference) : transaction unit := fun t =>
  let! t := ensureLocationPreferenceCatalog t p in
  Ok (set_location_rows t (<[lo_DeviceID p := p]> (location_rows t)), tt).
Definition ClearDeviceLocationPreference (deviceID : string) : transaction unit :=
  fun t => Ok (set_location_rows t (delete deviceID (location_rows t)), tt).

(** ** The service *)

Definition set_prefs {R E} (s : DeviceService R E) (x : Preferences) : DeviceService R E :=
  MkService (registry s) (states s) (tracker s) (snapshotSeq s) (disabled s) x (propertyOps s)
    (operations s) (listeners s) (stateListeners s) (nextID s) (nextStateID s) (metrics s) (timing s)
    (readbacks s) (ticks s) (drawn s).

Definition set_names (p : Preferences) x := MkPreferences x (locations p) (locationHomes p).
Definition set_locations (p : Preferences) x := MkPreferences (names p) x (locationHomes p).
Definition set_locationHomes (p : Preferences) x := MkPreferences (names p) (locations p) x.

Definition validLocationName (value : string) : bool :=
  (RuneCountInString value <=? 80) &&
  negb (Contains value NUL || Contains value "013"%char || Contains value "010"%char).
Definition validDeviceName (value : string) : bool :=
  (RuneCountInString value <=? 128) && negb (ContainsRune control_rune value).

Definition customLocationID (kind : string) (values : list string) : string :=
  "homeloom-" +:+ (kind +:+ ("-" +:+ hex (take 8 (Sum256 (bytes_of (Join nul values)))))).
Arguments customLocationID : simpl never.
Definition UnixNano (now : Time) : Z := i64_wrap (now - unix_epoch_ms * 1000000).

Record DeviceLocationInput := MkLocationInput { in_Mode : LocationMode; in_HomeID : string; in_RoomID : string }.

(** A call is what it does next, with the service and the tables in hand, and how it goes on
    with what it saw, until it answers. Each act is one transaction, or one access to the
    memory of the service under a lock; between the acts of a call others may run. What a
    call changed before an error stays. *)
Definition world R E : Type := DeviceService R E * LocationTables.
Inductive call (R E A : Type) :=
| Answer (x : result LocationError A)
| Act (next : world R E -> world R E) (k : world R E -> call R E A).
#[global] Arguments Answer {R E A} x.
#[global] Arguments Act {R E A} next k.

Definition ret {R E A} (x : A) : call R E A := Answer (Ok x).
Definition fail {R E A} (e : LocationError) : call R E A := Answer (Err e).
Fixpoint bind {R E A B} (c : call R E A) (k : A -> call R E B) : call R E B :=
  match c with
  | Answer (Ok x) => k x
  | Answer (Err e) => Answer (Err e)
  | Act next go => Act next (fun w => bind (go w) k)
  end.
Definition memory {R E} : call R E (DeviceService R E) := Act (fun w => w) (fun w => ret w.1).
Definition change {R E} (f : DeviceService R E -> DeviceService R E) : call R E unit :=
  Act (fun w => (f w.1, w.2)) (fun _ => ret tt).
(** A transaction that cannot be executed leaves the tables as they were. *)
Definition executed {A} (io : bool) (c : transaction A) (t : LocationTables) : result LocationError (LocationTables * A) :=
  if io then c t else Err LocationDatabaseFailed.
Definition transact {R E A} (io : bool) (c : transaction A) : call R E A :=
  Act (fun w => match executed io c w.2 with Ok (t, _) => (w.1, t) | Err _ => w end)
      (fun w => match executed io c w.2 with Ok (_, x) => ret x | Err e => fail e end).
(** A call that nothing overlaps. *)
Fixpoint run {R E A} (c : call R E A) (w : world R E) : world R E * result LocationError A :=
  match c with
  | Answer x => (w, x)
  | Act next k => run (k w) (next w)
  end.
Definition require {R E} (b : bool) (e : LocationError) : call R E unit := if b then ret tt else fail e.
Definition found {R E A} (x : option A) (e : LocationError) : call R E A :=
  match x with Some x => ret x | None => fail e end.
Definition when {R E} (b : bool) (c : call R E unit) : call R E unit := if b then c else ret tt.

Notation "'perform!' x ':=' c 'in' k" := (bind c (fun x => k))
  (at level 10, x name, c at level 100, k at level 200) : go_scope.
Notation "'run!' c 'in' k" := (bind c (fun _ => k)) (at level 10, c at level 100, k at level 200) : go_scope.

Section Service.
Context `{UnicodeLower} {R E : Type}.
(** Which of the stores the service has, the orders of the iterations over the registry
    and over the preferences, and which transactions of the call succeed, by number. *)
Variables namePreferences locationPreferences locationCatalog : bool.
Variable listed : gmap string Device -> list string.
Variable scanned : gmap string LocationPreference -> list LocationPreference.
Variable io : nat -> bool.
Implicit Type s : DeviceService R E.

(** The loop at the end of the reloads. *)
Definition reapply (apply : Preferences -> Device -> Device) (publish : bool)
    (changed : Device -> Device -> bool) s : DeviceService R E :=
  fold_left (fun s item =>
    let updated := apply (prefs s) item in
    let s := set_registry s (Upsert (registry s) updated) in
    if publish && changed updated item then publishDevice s updated else s)
    (List_ (registry s) (listed (devices (registry s)))) s.

Definition name_changed (a b : Device) : bool :=
  negb (d_Name a =s d_Name b) || negb (eqb (d_NameOverridden a) (d_NameOverridden b)).
Definition place_changed (a b : Device) : bool :=
  negb (d_HomeName a =s d_HomeName b) || negb (d_RoomName a =s d_RoomName b).
Definition location_changed (a b : Device) : bool :=
  negb (d_HomeID a =s d_HomeID b) || negb (d_HomeName a =s d_HomeName b)
  || negb (d_RoomID a =s d_RoomID b) || negb (d_RoomName a =s d_RoomName b).

(** Stored names are trimmed again, and blank ones ignored. *)
Definition loaded_names (rows : gmap string string) : gmap string string :=
  omap (fun name => let name := TrimSpace name in if is_empty name then None else Some name) rows.

Definition reloadDeviceNamePreferences (n : nat) (publish : bool) : call R E unit :=
  if negb namePreferences then ret tt else
  perform! rows := transact (io n) ListDeviceNamePreferences in
  change (fun s => reapply applyDeviceName publish name_changed
    (set_prefs s (set_names (prefs s) (loaded_names rows)))).

Definition reloadDeviceLocationPreferences (n : nat) (publish : bool) : call R E unit :=
  if negb locationPreferences then ret tt else
  perform! rows := transact (io n) ListDeviceLocationPreferences in
  change (fun s => reapply applyDeviceLocation publish place_changed
    (set_prefs s (set_locations (prefs s) rows))).

Definition reloadDeviceLocationCatalog (n : nat) (publish : bool) : call R E unit :=
  if negb locationCatalog then ret tt else
  perform! homes := transact (io n) (ListLocationHomes scanned) in
  change (fun s => reapply applyDeviceLocation publish location_changed
    (set_prefs s (set_locationHomes (prefs s) homes))).

(** The part of [LoadDevicePreferences] on names and locations. *)
Definition LoadPreferences : call R E unit :=
  run! reloadDeviceLocationPreferences 0 false in
  run! reloadDeviceNamePreferences 1 false in
  reloadDeviceLocationCatalog 2 false.

(** A change of the registry and its publication. *)
Definition show (item : Device) : call R E Device :=
  run! change (fun s => publishDevice (set_registry s (Upsert (registry s) item)) item) in
  ret item.

Definition registered (id : string) : call R E Device :=
  perform! s := memory in found (DeviceRegistry.Get (registry s) id) LocationDeviceNotFound.

Definition SetDeviceName (id name : string) : call R E Device :=
  perform! item := registered id in
  run! require namePreferences LocationUnavailable in
  let name := TrimSpace name in
  run! require (negb (is_empty name) && validDeviceName name) (InvalidLocation ["name"]) in
  run! transact (io 0) (SetDeviceNamePreference id name) in
  run! change (fun s => set_prefs s (set_names (prefs s) (<[id := name]> (names (prefs s))))) in
  perform! s := memory in
  show (applyDeviceName (prefs s) item).

Definition ResetDeviceName (id : string) : call R E Device :=
  perform! item := registered id in
  run! require namePreferences LocationUnavailable in
  run! transact (io 0) (ClearDeviceNamePreference id) in
  run! change (fun s => set_prefs s (set_names (prefs s) (delete id (names (prefs s))))) in
  perform! s := memory in
  show (applyDeviceName (prefs s) item).

Definition ListDeviceLocationHomes (n : nat) : call R E (list LocationHome) :=
  run! require locationCatalog LocationUnavailable in
  perform! homes := transact (io n) (ListLocationHomes scanned) in
  run! change (fun s => set_prefs s (set_locationHomes (prefs s) homes)) in
  ret homes.

(** What a user may choose: a home of the directory, and no room or one of its rooms. *)
Definition select_location (id : string) (homes : list LocationHome) (input : DeviceLocationInput)
    : result LocationError LocationPreference :=
  match find_by lh_ID (in_HomeID input) homes with
  | None => Err (InvalidLocation ["homeId"])
  | Some home =>
      if is_empty (in_RoomID input) then Ok (MkLocationPreference id (lh_ID home) (lh_Name home) "" "")
      else
        match find_by lr_ID (in_RoomID input) (lh_Rooms home) with
        | None => Err (InvalidLocation ["roomId"])
        | Some room => Ok (MkLocationPreference id (lh_ID home) (lh_Name home) (lr_ID room) (lr_Name room))
        end
  end.

Definition of_result {A} (r : result LocationError A) : call R E A :=
  match r with Ok x => ret x | Err e => fail e end.

(** The two halves of [SetDeviceLocation] for a custom location. *)
Definition choose_location (id : string) (input : DeviceLocationInput) : call R E LocationPreference :=
  run! require (negb (is_empty (in_HomeID input))) (InvalidLocation ["homeId"]) in
  perform! homes := ListDeviceLocationHomes 0 in
  of_result (select_location id homes input).
Definition store_location (id : string) (preference : LocationPreference) : call R E unit :=
  run! transact (io 1) (SetDeviceLocationPreference preference) in
  change (fun s => set_prefs s (set_locations (prefs s) (<[id := preference]> (locations (prefs s))))).
Definition clear_location (id : string) : call R E unit :=
  run! transact (io 0) (ClearDeviceLocationPreference id) in
  change (fun s => set_prefs s (set_locations (prefs s) (delete id (locations (prefs s))))).

Definition SetDeviceLocation (id : string) (input : DeviceLocationInput) : call R E Device :=
  perform! item := registered id in
  run! require locationPreferences LocationUnavailable in
  run!
    (if in_Mode input =s LocationModeSource then clear_location id
     else if in_Mode input =s LocationModeCustom then
       (perform! preference := choose_location id input in store_location id preference)
     else fail (InvalidLocation ["mode"])) in
  perform! s := memory in
  show (applyDeviceLocation (prefs s) item).

Definition same_name (a b : string) : bool := normalizeLocationName a =s normalizeLocationName b.

Definition SaveDeviceLocationHome (now : Time) (id name : string) : call R E LocationHome :=
  run! require locationCatalog LocationUnavailable in
  let name := TrimSpace name in
  run! require (negb (is_empty name) && validLocationName name) (InvalidLocation ["name"]) in
  perform! homes := transact (io 0) (ListLocationHomes scanned) in
  let creating := is_empty id in
  let id := if creating then customLocationID "home" [name; show_Z (UnixNano now)] else id in
  run! require (creating || existsb (fun home => lh_ID home =s id) homes) ErrLocationNotFound in
  run! require (negb (existsb (fun home => negb (lh_ID home =s id) && same_name (lh_Name home) name) homes))
    ErrLocationConflict in
  run! transact (io 1) (SaveLocationHome id name) in
  run! reloadDeviceLocationCatalog 2 true in
  run! reloadDeviceLocationPreferences 3 true in
  perform! homes := transact (io 4) (ListLocationHomes scanned) in
  found (find_by lh_ID id homes) ErrLocationNotFound.

Definition DeleteDeviceLocationHome (id : string) : call R E unit :=
  run! require locationCatalog LocationUnavailable in
  run! transact (io 0) (DeleteLocationHome id) in
  reloadDeviceLocationCatalog 1 true.

Definition SaveDeviceLocationRoom (now : Time) (id homeID name : string) : call R E LocationRoom :=
  run! require locationCatalog LocationUnavailable in
  let name := TrimSpace name in
  let fields := (if is_empty homeID then ["homeId"] else []) ++
                (if is_empty name || negb (validLocationName name) then ["name"] else []) in
  run! require (bool_decide (fields = [])) (InvalidLocation fields) in
  perform! homes := transact (io 0) (ListLocationHomes scanned) in
  perform! selectedHome := found (find_by lh_ID homeID homes) ErrLocationNotFound in
  let creating := is_empty id in
  let id := if creating then customLocationID "room" [homeID; name; show_Z (UnixNano now)] else id in
  run! require (creating || existsb (fun room => lr_ID room =s id) (lh_Rooms selectedHome)) ErrLocationNotFound in
  run! require (negb (existsb (fun room => negb (lr_ID room =s id) && same_name (lr_Name room) name)
                 (lh_Rooms selectedHome))) ErrLocationConflict in
  let room := MkLocationRoom id homeID name in
  run! transact (io 1) (SaveLocationRoom room) in
  run! reloadDeviceLocationCatalog 2 true in
  run! reloadDeviceLocationPreferences 3 true in
  ret room.

Definition DeleteDeviceLocationRoom (homeID id : string) : call R E unit :=
  run! require locationCatalog LocationUnavailable in
  perform! homes := transact (io 0) (ListLocationHomes scanned) in
  run! require (existsb (fun home => (lh_ID home =s homeID) && existsb (fun room => lr_ID room =s id) (lh_Rooms home)) homes)
    ErrLocationNotFound in
  run! transact (io 1) (DeleteLocationRoom id) in
  reloadDeviceLocationCatalog 2 true.
End Service.

(** The disabled devices, as their table lists them, are taken offline first. *)
Section Load.
Context {R E : Type} `{PriorityResolver R} `{UnicodeLower}.
Variable env : Environment.

Definition disable_registered (s : DeviceService R E) (id : string) : DeviceService R E :=
  match DeviceRegistry.Get (registry s) id with
  | None => s
  | Some item =>
      let item := SetOnline (set_Disabled item true) false in
      let s := set_registry s (Upsert (registry s) item) in
      let '(st, _) := StateStore.MarkDeviceUnavailable (states s) (keys env s) id UnavailableDisabled [] in
      resetSnapshotSequence (set_states s st) id
  end.
Definition load_disabled (ids : list string) (s : DeviceService R E) : DeviceService R E :=
  fold_left disable_registered ids (set_disabled s (list_to_set ids ∪ disabled s)).

(** [disabledIDs] is what that table answers, [None] when it cannot be read. *)
Definition LoadDevicePreferences (preferences namePreferences locationPreferences locationCatalog : bool) listed scanned io
    (disabledIDs : option (list string)) : call R E unit :=
  run! when preferences
    (perform! ids := found disabledIDs LocationDatabaseFailed in change (load_disabled ids)) in
  LoadPreferences namePreferences locationPreferences locationCatalog listed scanned io.
End Load.
