(* ===== verification/LocationDirectory.v ===== *)
(** * The directory of homes

    What the tables of Locations.v keep: homes and rooms have names of their own, rooms
    belong to a home, and a preference names a home and a room as they are named. Every
    transaction preserves it. *)

From S2P Require Import Prelude Float64 DomainState StateStore CommandTracker DeviceRegistry.
From S2P Require Import DeviceModel Lookup FloatText Text Sha256 LogicalRuntime DeviceProjection DeviceService Auth Locations.

(** ** The directory *)

Section Directory.
Context `{UnicodeLower}.
Implicit Types (t : LocationTables) (p : LocationPreference).

(** A preference names a home of the directory by its current name, and a room of that
    home by its, or no room. *)
Definition placed t p : Prop :=
  home_rows t !! lo_HomeID p = Some (lo_HomeName p) /\
  (lo_RoomID p = "" /\ lo_RoomName p = ""
   \/ lo_RoomID p <> "" /\
      room_rows t !! lo_RoomID p = Some (MkLocationRoom (lo_RoomID p) (lo_HomeID p) (lo_RoomName p))).

Record directory_ok t : Prop := {
  do_homes : forall i j n m, home_rows t !! i = Some n -> home_rows t !! j = Some m ->
    same_name n m = true -> i = j;
  do_room : forall i r, room_rows t !! i = Some r ->
    lr_ID r = i /\ i <> "" /\ is_Some (home_rows t !! lr_HomeID r);
  do_rooms : forall i j r q, room_rows t !! i = Some r -> room_rows t !! j = Some q ->
    lr_HomeID r = lr_HomeID q -> same_name (lr_Name r) (lr_Name q) = true -> i = j;
  do_place : forall d p, location_rows t !! d = Some p -> lo_DeviceID p = d /\ placed t p;
  do_names : forall d n, name_rows t !! d = Some n -> TrimSpace n = n /\ n <> "";
}.

Lemma present_some {A} (x : option A) : present x = true <-> is_Some x.
Proof. destruct x; split; [eauto|done|done|by intros [? ?]]. Qed.
Lemma present_none {A} (x : option A) : present x = false <-> x = None.
Proof. by destruct x. Qed.

Lemma taken_rows {V} (f : string * V -> bool) (m : gmap string V) :
  existsb f (map_to_list m) = true <-> exists i v, m !! i = Some v /\ f (i, v) = true.
Proof.
  rewrite existsb_exists. split.
  - intros ([i v] & Hin & Hf). exists i, v. split; [|done]. by apply elem_of_map_to_list, list_elem_of_In.
  - intros (i & v & Hv & Hf). exists (i, v). split; [|done]. by apply list_elem_of_In, elem_of_map_to_list.
Qed.
Lemma free_rows {V} (f : string * V -> bool) (m : gmap string V) :
  existsb f (map_to_list m) = false <-> forall i v, m !! i = Some v -> f (i, v) = false.
Proof.
  rewrite <- not_true_iff_false, taken_rows. split.
  - intros Hn i v Hv. apply not_true_iff_false. intros Hf. apply Hn. eauto.
  - intros Hn (i & v & Hv & Hf). by rewrite (Hn i v Hv) in Hf.
Qed.

Lemma same_name_refl n : same_name n n = true.
Proof. unfold same_name. by apply bool_decide_eq_true_2. Qed.
Lemma same_name_sym n m : same_name n m = same_name m n.
Proof. unfold same_name. apply bool_decide_ext. split; congruence. Qed.

(** Storing a chosen place, and listing the homes, leave a consistent directory alone. *)
Lemma ensure_placed t p : placed t p -> ensureLocationPreferenceCatalog t p = Ok t.
Proof.
  intros [Hh Hr]. unfold ensureLocationPreferenceCatalog, insert_home, insert_room. rewrite Hh. simpl.
  destruct Hr as [[-> _]|[Hne Hr]]; [done|]. rewrite (proj2 (is_empty_false _) Hne), Hr. done.
Qed.

Lemma import_ok t rows : (forall p, p ∈ rows -> placed t p) -> importLegacyLocationPreferences rows t = Ok t.
Proof.
  induction rows as [|p rows IH]; intros Hp; simpl; [done|].
  rewrite ensure_placed by (apply Hp; left). apply IH. intros q Hq. apply Hp. by right.
Qed.

(** The listing is the directory. *)
Lemma elem_rooms_of t h r : directory_ok t ->
  r ∈ rooms_of t h <-> room_rows t !! lr_ID r = Some r /\ lr_HomeID r = h.
Proof.
  intros Hok. unfold rooms_of. rewrite merge_sort_Permutation, list_elem_of_In, filter_In, bool_decide_eq_true.
  rewrite <- list_elem_of_In, list_elem_of_fmap. split.
  - intros [([i r'] & -> & Hin%elem_of_map_to_list) <-]. simpl. by destruct (do_room t Hok i r' Hin) as [-> _].
  - intros [Hr <-]. split; [|done]. exists (lr_ID r, r). split; [done|by apply elem_of_map_to_list].
Qed.

Lemma elem_homes_of t h : h ∈ homes_of t <->
  home_rows t !! lh_ID h = Some (lh_Name h) /\ lh_Rooms h = rooms_of t (lh_ID h).
Proof.
  unfold homes_of. rewrite list_elem_of_fmap. setoid_rewrite elem_merge_sort. split.
  - intros ([i n] & -> & Hin%elem_of_map_to_list). done.
  - destruct h as [i n rs]; simpl. intros [Hi ->]. exists (i, n). split; [done|by apply elem_of_map_to_list].
Qed.

Lemma homes_of_nodup t : NoDup (lh_ID <$> homes_of t).
Proof.
  unfold homes_of. rewrite <- list_fmap_compose.
  rewrite (fmap_Permutation _ _ _ (merge_sort_Permutation home_le (map_to_list (home_rows t)))).
  apply (NoDup_fst_map_to_list (home_rows t)).
Qed.

Lemma find_home t h :
  find_by lh_ID h (homes_of t) = (fun n => MkLocationHome h n (rooms_of t h)) <$> home_rows t !! h.
Proof.
  destruct (find_by lh_ID h (homes_of t)) as [x|] eqn:Hf.
  - apply find_by_some in Hf as [[Hx Hr]%elem_homes_of <-]. rewrite Hx. destruct x; simpl in *. by rewrite Hr.
  - destruct (home_rows t !! h) as [n|] eqn:Hh; simpl; [|done].
    apply find_by_none in Hf. destruct Hf. apply list_elem_of_fmap.
    exists (MkLocationHome h n (rooms_of t h)). split; [done|]. by apply elem_homes_of.
Qed.

Lemma find_room t h r : directory_ok t -> find_by lr_ID r (rooms_of t h) =
  match room_rows t !! r with Some x => if lr_HomeID x =s h then Some x else None | None => None end.
Proof.
  intros Hok. destruct (find_by lr_ID r (rooms_of t h)) as [x|] eqn:Hf.
  - apply find_by_some in Hf as [[Hx <-]%(elem_rooms_of _ _ _ Hok) <-]. rewrite Hx. by rewrite bool_decide_eq_true_2.
  - destruct (room_rows t !! r) as [x|] eqn:Hr; [|done]. case_bool_decide as Hh; [|done].
    destruct (do_room t Hok r x Hr) as [<- _]. apply find_by_none in Hf. destruct Hf.
    apply list_elem_of_fmap. exists x. split; [done|]. by apply elem_rooms_of.
Qed.

(** What a user may choose is in the directory. *)
Lemma select_placed t id input p : directory_ok t ->
  select_location id (homes_of t) input = Ok p -> lo_DeviceID p = id /\ placed t p.
Proof.
  intros Hok. unfold select_location. rewrite find_home.
  destruct (home_rows t !! in_HomeID input) as [n|] eqn:Hh; simpl; [|done].
  destruct (is_empty (in_RoomID input)) eqn:He.
  { intros [= <-]. split; [done|]. split; [done|by left]. }
  apply is_empty_false in He. rewrite find_room by done.
  destruct (room_rows t !! in_RoomID input) as [r|] eqn:Hr; [|done]. case_bool_decide as Hh'; [|done].
  intros [= <-]. destruct (do_room t Hok _ r Hr) as [Hid _]. split; [done|]. split; [done|right].
  simpl. rewrite Hid. split; [done|]. rewrite Hr. destruct r; simpl in *. by subst.
Qed.

(** Changes of the choices. *)
Lemma directory_names t x : directory_ok t -> (forall d n, x !! d = Some n -> TrimSpace n = n /\ n <> "") ->
  directory_ok (set_name_rows t x).
Proof. intros [? ? ? ? ?] Hx. by constructor. Qed.

Lemma directory_place t d p : directory_ok t -> lo_DeviceID p = d -> placed t p ->
  directory_ok (set_location_rows t (<[d := p]> (location_rows t))).
Proof.
  intros [? ? ? Hp ?] Hd Hpl. constructor; try done. simpl. intros d' p'.
  intros [[-> ->]|[_ Hq]]%lookup_insert_Some; [done|by apply Hp].
Qed.

Lemma directory_unplace t d : directory_ok t -> directory_ok (set_location_rows t (delete d (location_rows t))).
Proof.
  intros [? ? ? Hp ?]. constructor; try done. simpl. intros d' p' [_ Hq]%lookup_delete_Some. by apply Hp.
Qed.

(** Changes of the directory. *)
Lemma placed_home t t' p : room_rows t' = room_rows t ->
  home_rows t' !! lo_HomeID p = home_rows t !! lo_HomeID p -> placed t p -> placed t' p.
Proof. unfold placed. by intros -> ->. Qed.

Lemma save_home t id name t' x : directory_ok t ->
  (forall i n, home_rows t !! i = Some n -> i <> id -> same_name n name = false) ->
  SaveLocationHome id name t = Ok (t', x) ->
  directory_ok t' /\ home_rows t' = <[id := name]> (home_rows t).
Proof.
  intros [Hhomes Hroom Hrooms Hplace Hnames] Hnew. unfold SaveLocationHome.
  destruct (home_taken t id name); simpl; [done|].
  assert (Hunique : forall i j n m, <[id := name]> (home_rows t) !! i = Some n ->
    <[id := name]> (home_rows t) !! j = Some m -> same_name n m = true -> i = j).
  { intros i j n m [[<- <-]|[Hi Hn]]%lookup_insert_Some [[<- <-]|[Hj Hm]]%lookup_insert_Some Hs; [done| | |by eauto].
    - rewrite same_name_sym, (Hnew j m) in Hs; [done|done|done].
    - rewrite (Hnew i n) in Hs; [done|done|done]. }
  assert (Hroom' : forall i r, room_rows t !! i = Some r ->
    lr_ID r = i /\ i <> "" /\ is_Some (<[id := name]> (home_rows t) !! lr_HomeID r)).
  { intros i r Hr. destruct (Hroom i r Hr) as (? & ? & Hs). split_and!; [done|done|].
    rewrite lookup_insert_is_Some'. by right. }
  destruct (home_rows t !! id) as [old|] eqn:Hold; intros [= <- <-]; (split; [|done]); constructor; simpl; try done.
  - intros d p. rewrite lookup_fmap, fmap_Some. intros (q & Hq & ->). destruct (Hplace d q Hq) as [<- [Hh Hr]].
    unfold placed. simpl. case_bool_decide as Hid; simpl.
    + split; [done|]. rewrite Hid, lookup_insert_eq. split; [done|]. destruct q; simpl in *. by subst.
    + split; [done|]. by rewrite lookup_insert_ne.
  - intros d p Hp. destruct (Hplace d p Hp) as [<- Hpl]. split; [done|]. apply (placed_home t); [done| |done].
    simpl. rewrite lookup_insert_ne; [done|]. intros ->. destruct Hpl as [Hh _]. by rewrite Hh in Hold.
Qed.

Lemma unplaced_rows t f : placed_in t f = false ->
  forall d p, location_rows t !! d = Some p -> f p = false.
Proof. unfold placed_in. intros Hn d p. apply ((proj1 (free_rows _ _) Hn) d p). Qed.

Lemma delete_home t id t' x : directory_ok t -> DeleteLocationHome id t = Ok (t', x) ->
  directory_ok t' /\ home_rows t' = delete id (home_rows t) /\ location_rows t' = location_rows t.
Proof.
  intros [Hhomes Hroom Hrooms Hplace Hnames]. unfold DeleteLocationHome.
  destruct (present _); [|done]. destruct (placed_in t _) eqn:Hin; simpl; [done|].
  intros [= <- <-]. split; [|done]. pose proof (unplaced_rows _ _ Hin) as Hfree. constructor; simpl; try done.
  - intros i j n m [_ Hi]%lookup_delete_Some [_ Hj]%lookup_delete_Some. by apply Hhomes.
  - intros i r [Hr Hne]%map_lookup_filter_Some. simpl in Hne. destruct (Hroom i r Hr) as (? & ? & ?).
    by rewrite lookup_delete_ne.
  - intros i j r q [Hr _]%map_lookup_filter_Some [Hq _]%map_lookup_filter_Some. by apply Hrooms.
  - intros d p Hp. destruct (Hplace d p Hp) as [<- [Hh Hr]]. split; [done|].
    pose proof (Hfree _ p Hp) as Hne. apply bool_decide_eq_false in Hne. unfold placed. simpl.
    rewrite lookup_delete_ne by done. split; [done|].
    destruct Hr as [?|[Hr0 Hr]]; [by left|right]. split; [done|].
    apply map_lookup_filter_Some. split; [done|]. done.
Qed.

Lemma save_room t room t' x : directory_ok t -> lr_ID room <> "" ->
  (forall i r, room_rows t !! i = Some r -> i <> lr_ID room -> lr_HomeID r = lr_HomeID room ->
     same_name (lr_Name r) (lr_Name room) = false) ->
  SaveLocationRoom room t = Ok (t', x) ->
  directory_ok t' /\ home_rows t' = home_rows t.
Proof.
  intros [Hhomes Hroom Hrooms Hplace Hnames] Hid Hnew. unfold SaveLocationRoom.
  destruct (present _) eqn:Hhome; [|done]. apply present_some in Hhome.
  destruct (room_taken _ _ _ _); simpl; [done|].
  assert (Hroom' : forall i r, <[lr_ID room := room]> (room_rows t) !! i = Some r ->
    lr_ID r = i /\ i <> "" /\ is_Some (home_rows t !! lr_HomeID r)).
  { intros i r [[<- <-]|[_ Hr]]%lookup_insert_Some; [done|by apply Hroom]. }
  assert (Hrooms' : forall i j r q, <[lr_ID room := room]> (room_rows t) !! i = Some r ->
    <[lr_ID room := room]> (room_rows t) !! j = Some q ->
    lr_HomeID r = lr_HomeID q -> same_name (lr_Name r) (lr_Name q) = true -> i = j).
  { intros i j r q [[<- <-]|[Hi Hr]]%lookup_insert_Some [[<- <-]|[Hj Hq]]%lookup_insert_Some Heq Hs; [done| | |by eauto].
    - rewrite same_name_sym, (Hnew j q) in Hs; by eauto.
    - rewrite (Hnew i r) in Hs; by eauto. }
  destruct (room_rows t !! lr_ID room) as [old|] eqn:Hold.
  - case_bool_decide as Hsame; [|done]. intros [= <- <-]. split; [|done]. constructor; simpl; try done.
    intros d p. rewrite lookup_fmap, fmap_Some. intros (q & Hq & ->). destruct (Hplace d q Hq) as [<- [Hh Hr]].
    unfold placed. simpl. case_bool_decide as Heq; simpl.
    + split; [done|]. split; [done|right]. destruct Hr as [[Hr _]|[Hr0 Hr]]; [congruence|]. split; [done|].
      rewrite Heq, Hold in Hr. injection Hr as ->. simpl in Hsame. rewrite Heq, lookup_insert_eq, Hsame.
      by destruct room.
    + split; [done|]. split; [done|]. by rewrite lookup_insert_ne.
  - intros [= <- <-]. split; [|done]. constructor; simpl; try done.
    intros d p Hp. destruct (Hplace d p Hp) as [<- [Hh Hr]]. split; [done|]. split; [done|]. simpl.
    destruct Hr as [?|[Hr0 Hr]]; [by left|right]. split; [done|]. rewrite lookup_insert_ne; [done|].
    intros E. by rewrite <- E, Hold in Hr.
Qed.

Lemma delete_room t id t' x : directory_ok t -> DeleteLocationRoom id t = Ok (t', x) ->
  directory_ok t' /\ location_rows t' = location_rows t.
Proof.
  intros [Hhomes Hroom Hrooms Hplace Hnames]. unfold DeleteLocationRoom.
  destruct (present _) eqn:Hin0; [|done]. destruct (placed_in t _) eqn:Hin; simpl; [done|].
  intros [= <- <-]. split; [|done]. pose proof (unplaced_rows _ _ Hin) as Hfree. constructor; simpl; try done.
  - intros i r [_ Hr]%lookup_delete_Some. by apply Hroom.
  - intros i j r q [_ Hr]%lookup_delete_Some [_ Hq]%lookup_delete_Some. by apply Hrooms.
  - intros d p Hp. destruct (Hplace d p Hp) as [<- [Hh Hr]]. split; [done|]. split; [done|]. simpl.
    destruct Hr as [?|[Hr0 Hr]]; [by left|right]. split; [done|].
    pose proof (Hfree _ p Hp) as Hne. apply bool_decide_eq_false in Hne. by rewrite lookup_delete_ne.
Qed.
End Directory.
