(* ===== verification/DeviceDisplay.v ===== *)
(** * How a device is shown

    The name and the location of a device as functions of what its Provider reported and
    of the preferences of the service, and the pass over the registry that applies them. *)

From S2P Require Import Prelude Float64 DomainState StateStore CommandTracker DeviceRegistry.
From S2P Require Import DeviceModel Lookup LogicalRuntime DeviceProjection DeviceService Auth Locations.

(** ** What a device shows *)

Section Shown.
Context `{UnicodeLower}.
Implicit Types (p : Preferences) (d : Device).

Definition location_of d : location :=
  MkLocation (d_HomeID d) (d_HomeName d) (d_RoomID d) (d_RoomName d) (d_LocationMode d)
    (d_SourceHomeID d) (d_SourceHomeName d) (d_SourceRoomID d) (d_SourceRoomName d).
Definition name_of d : string * string * bool := (d_Name d, d_SourceName d, d_NameOverridden d).

(** The location and the name the service gives a device. *)
Definition place p (id : string) (l : location) : location :=
  let '(hi, hn, ri, rn) :=
    if is_empty (at_Mode l) then (at_HomeID l, at_HomeName l, at_RoomID l, at_RoomName l)
    else (from_HomeID l, from_HomeName l, from_RoomID l, from_RoomName l) in
  match locations p !! id with
  | Some c => MkLocation (lo_HomeID c) (lo_HomeName c) (lo_RoomID c) (lo_RoomName c) LocationModeCustom hi hn ri rn
  | None =>
      match canonicalSourceHome (locationHomes p) hi hn with
      | None => MkLocation hi hn ri rn LocationModeSource hi hn ri rn
      | Some home =>
          match canonicalSourceRoom (lh_Rooms home) ri rn with
          | Some room => MkLocation (lh_ID home) (lh_Name home) (lr_ID room) (lr_Name room) LocationModeSource hi hn ri rn
          | None => MkLocation (lh_ID home) (lh_Name home) ri rn LocationModeSource hi hn ri rn
          end
      end
  end.
Definition rename p (id : string) (n : string * string * bool) : string * string * bool :=
  let source := if is_empty n.1.2 then n.1.1 else n.1.2 in
  match names p !! id with
  | Some name => (name, source, true)
  | None => (source, source, false)
  end.

Lemma apply_place p d : applyDeviceLocation p d = set_location d (place p (d_ID d) (location_of d)).
Proof.
  unfold applyDeviceLocation, place. simpl. destruct (is_empty (d_LocationMode d)); by repeat case_match.
Qed.
Lemma apply_rename p d :
  applyDeviceName p d = let '(n, s, o) := rename p (d_ID d) (name_of d) in set_name d n s o.
Proof. unfold applyDeviceName, rename. simpl. by case_match. Qed.

Lemma place_idem p id l : place p id (place p id l) = place p id l.
Proof.
  unfold place at 2 3. destruct (if is_empty (at_Mode l) then _ else _) as [[[hi hn] ri] rn].
  unfold place. repeat (case_match; simplify_eq/=); congruence.
Qed.
Lemma rename_idem p id n : n.1.2 <> "" -> rename p id (rename p id n) = rename p id n.
Proof.
  intros Hn. apply is_empty_false in Hn. unfold rename. rewrite Hn. destruct (names p !! id); simpl; by rewrite Hn.
Qed.

Definition place_ok p d : Prop := place p (d_ID d) (location_of d) = location_of d.
Definition name_ok p d : Prop := rename p (d_ID d) (name_of d) = name_of d.

Lemma place_apply p d : place_ok p (applyDeviceLocation p d).
Proof.
  rewrite apply_place. unfold place_ok.
  assert (forall x l, location_of (set_location x l) = l /\ d_ID (set_location x l) = d_ID x) as Hs
    by (intros [] []; done).
  destruct (Hs d (place p (d_ID d) (location_of d))) as [-> ->]. apply place_idem.
Qed.
Lemma name_apply p d : d_SourceName d <> "" -> name_ok p (applyDeviceName p d).
Proof.
  intros Hd. rewrite apply_rename. unfold name_ok.
  pose proof (rename_idem p (d_ID d) (name_of d) Hd) as Hi. destruct (rename p (d_ID d) (name_of d)) as [[n s] o].
  assert (name_of (set_name d n s o) = (n, s, o) /\ d_ID (set_name d n s o) = d_ID d) as [-> ->] by (by destruct d).
  done.
Qed.

(** What one of the two leaves alone. *)
Lemma location_keeps p d : d_ID (applyDeviceLocation p d) = d_ID d /\ name_of (applyDeviceLocation p d) = name_of d.
Proof. rewrite apply_place. by destruct d. Qed.
Lemma name_keeps p d : d_ID (applyDeviceName p d) = d_ID d /\ location_of (applyDeviceName p d) = location_of d.
Proof. rewrite apply_rename. destruct (rename _ _ _) as [[? ?] ?]. by destruct d. Qed.
Lemma source_keeps p d : d_SourceName d <> "" -> d_SourceName (applyDeviceName p d) = d_SourceName d.
Proof.
  intros Hd%is_empty_false. rewrite apply_rename. unfold rename. simpl. rewrite Hd.
  destruct (names p !! d_ID d); by destruct d.
Qed.

Lemma normalize_location d l : normalized d -> NormalizeAvailability (set_location d l) = set_location d l.
Proof.
  unfold normalized. intros Hn. assert (NormalizeAvailability (set_location d l) = set_location (NormalizeAvailability d) l)
    as -> by (destruct d as [? ? ? ? ? ? ? ? ? ? ? ? ? ? ? ? av on]; destruct av, on; done). by rewrite Hn.
Qed.
Lemma normalize_name d n s o : normalized d -> NormalizeAvailability (set_name d n s o) = set_name d n s o.
Proof.
  unfold normalized. intros Hn. assert (NormalizeAvailability (set_name d n s o) = set_name (NormalizeAvailability d) n s o)
    as -> by (destruct d as [? ? ? ? ? ? ? ? ? ? ? ? ? ? ? ? av on]; destruct av, on; done). by rewrite Hn.
Qed.

(** Only the preference of the device counts for it, and the directory. *)
Lemma place_local p q d : locations q !! d_ID d = locations p !! d_ID d -> locationHomes q = locationHomes p ->
  place_ok p d -> place_ok q d.
Proof. unfold place_ok, place. by intros -> ->. Qed.
Lemma name_local p q d : names q !! d_ID d = names p !! d_ID d -> name_ok p d -> name_ok q d.
Proof. unfold name_ok, rename. by intros ->. Qed.

(** A pass over the registry. *)
Definition uniform (f : Preferences -> Device -> Device) : Prop :=
  forall p d, d_ID (f p d) = d_ID d /\ (normalized d -> NormalizeAvailability (f p d) = f p d).
Lemma uniform_location : uniform applyDeviceLocation.
Proof. intros p d. split; [apply location_keeps|]. rewrite apply_place. apply normalize_location. Qed.
Lemma uniform_name : uniform applyDeviceName.
Proof.
  intros p d. split; [apply name_keeps|]. rewrite apply_rename. destruct (rename _ _ _) as [[? ?] ?]. apply normalize_name.
Qed.

Context {R E : Type} (listed : gmap string Device -> list string).
Hypothesis Hlisted : forall m, range_of m (listed m).
Implicit Type s : DeviceService R E.

Lemma publish_keeps s d : registry (publishDevice s d) = registry s /\ prefs (publishDevice s d) = prefs s.
Proof. unfold publishDevice. by destruct (broadcast _ _). Qed.

Lemma reapply_fold f pub ch l s : uniform f -> NoDup (d_ID <$> l) -> Forall normalized l ->
  let s' := fold_left (fun s item =>
    let updated := f (prefs s) item in
    let s := set_registry s (Upsert (registry s) updated) in
    if pub && ch updated item then publishDevice s updated else s) l s in
  prefs s' = prefs s /\
  forall id, devices (registry s') !! id =
    match find_by d_ID id l with Some d => Some (f (prefs s) d) | None => devices (registry s) !! id end.
Proof.
  intros Hf. revert s. induction l as [|d l IH]; intros s Hnd Hno; [done|].
  apply NoDup_cons in Hnd as [Hn Hnd]. apply Forall_cons in Hno as [Hd Hno].
  set (s1 := if pub && ch (f (prefs s) d) d
             then publishDevice (set_registry s (Upsert (registry s) (f (prefs s) d))) (f (prefs s) d)
             else set_registry s (Upsert (registry s) (f (prefs s) d))).
  assert (prefs s1 = prefs s /\ devices (registry s1) = <[d_ID d := f (prefs s) d]> (devices (registry s))) as [Hp Hr].
  { destruct (Hf (prefs s) d) as [Hid Hnorm]. unfold s1.
    destruct (pub && _); [destruct (publish_keeps (set_registry s (Upsert (registry s) (f (prefs s) d))) (f (prefs s) d))
      as [-> ->]|]; simpl; by rewrite (Hnorm Hd), Hid. }
  destruct (IH s1 Hnd Hno) as [Hp' Hr']. cbn [fold_left]. fold s1. split; [etransitivity; [exact Hp'|exact Hp]|]. intros id.
  etransitivity; [apply Hr'|]. rewrite Hp, Hr. unfold find_by. cbn [first]. destruct (String.eqb_spec (d_ID d) id) as [<-|Hne].
  - apply (proj2 (find_by_none d_ID (d_ID d) l)) in Hn. unfold find_by in Hn. rewrite Hn. apply lookup_insert_eq.
  - destruct (first _ l); [done|]. by rewrite lookup_insert_ne.
Qed.

Lemma listed_devices r : registry_wf r ->
  NoDup (d_ID <$> List_ r (listed (devices r))) /\ Forall normalized (List_ r (listed (devices r))) /\
  forall id, find_by d_ID id (List_ r (listed (devices r))) = devices r !! id.
Proof.
  intros Hwf. pose proof (Hlisted (devices r)) as [Hnd Hin]. set (ks := listed (devices r)) in *.
  assert (Hel : forall d, d ∈ List_ r ks <-> devices r !! d_ID d = Some d).
  { intros d. unfold List_. rewrite elem_merge_sort, list_elem_of_omap. split.
    - intros (k & _ & Hd). by destruct (Hwf k d Hd) as [-> _].
    - intros Hd. exists (d_ID d). split; [apply Hin; eauto|done]. }
  assert (Hnodup : NoDup (d_ID <$> List_ r ks)).
  { unfold List_. rewrite (fmap_Permutation _ _ _ (merge_sort_Permutation device_le _)). clear Hin Hel.
    induction Hnd as [|k ks Hk _ IH]; simpl; [constructor|]. destruct (devices r !! k) as [d|] eqn:Hd; simpl; [|done].
    apply NoDup_cons. split; [|done]. destruct (Hwf k d Hd) as [-> _]. rewrite list_elem_of_fmap.
    intros (d' & -> & (k' & Hk' & Hd')%list_elem_of_omap). by destruct (Hwf k' d' Hd') as [<- _]. }
  split_and!; [done| |].
  - apply Forall_forall. intros d Hd%Hel. by destruct (Hwf _ d Hd).
  - intros id. destruct (devices r !! id) as [d|] eqn:Hd.
    + destruct (Hwf id d Hd) as [<- _]. apply find_by_elem; [done|]. by apply Hel.
    + destruct (find_by d_ID id (List_ r ks)) as [d|] eqn:Hf; [|done].
      apply find_by_some in Hf as [Hf%Hel <-]. congruence.
Qed.

Lemma reapply_spec f pub ch s : uniform f -> registry_wf (registry s) ->
  prefs (reapply listed f pub ch s) = prefs s /\
  devices (registry (reapply listed f pub ch s)) = f (prefs s) <$> devices (registry s).
Proof.
  intros Hf Hwf. destruct (listed_devices _ Hwf) as (Hnd & Hno & Hfind).
  destruct (reapply_fold f pub ch _ s Hf Hnd Hno) as [Hp Hr]. split; [exact Hp|].
  apply map_eq. intros id. rewrite lookup_fmap. unfold reapply. etransitivity; [apply Hr|]. rewrite Hfind.
  by destruct (devices (registry s) !! id).
Qed.
End Shown.
