(* ===== verification/LocationHandlers.v ===== *)
(** * The rest of the device service beside names and locations

    The handlers of DeviceService.v and PropertyWrite.v that the runs of LocationRuns.v mix
    with the calls on names and locations: they change the registry only with devices as the
    service shows them, or leave what they show alone; and the cases in which a device is
    not shown as chosen. *)

From S2P Require Import Prelude Float64 DomainState StateStore CommandTracker DeviceRegistry.
From S2P Require Import DeviceModel Lookup ModelContract LogicalDevice LogicalCompose LogicalRuntime DeviceProjection DeviceService.
From S2P Require Import PropertyWrite Locations LocationDirectory DeviceDisplay.

Section Handlers.
Context {R E : Type} `{PriorityResolver R} `{UnicodeLower}.
Implicit Types (s : DeviceService R E) (d : Device).

Definition each s (P : Device -> Prop) : Prop := forall id d, devices (registry s) !! id = Some d -> P d.
(** Devices have a name from their source. *)
Definition sourced s : Prop := registry_wf (registry s) /\ each s (fun d => d_SourceName d <> "").

(** The devices of [s'] are shown as the preferences say, or as they were. *)
Definition undisturbed s s' : Prop :=
  prefs s' = prefs s /\ registry_wf (registry s') /\
  forall id d, devices (registry s') !! id = Some d ->
    (d_SourceName d <> "" /\ name_ok (prefs s) d /\ place_ok (prefs s) d)
    \/ exists d0, devices (registry s) !! id = Some d0 /\ name_of d = name_of d0 /\ location_of d = location_of d0.

(** Neither the registry nor the preferences change. *)
Definition aside s s' : Prop := registry s' = registry s /\ prefs s' = prefs s.

Lemma aside_refl s : aside s s.
Proof. done. Qed.
Lemma aside_trans s1 s2 s3 : aside s1 s2 -> aside s2 s3 -> aside s1 s3.
Proof. unfold aside. intros [-> ->] [-> ->]. done. Qed.
Lemma aside_fold {A} (f : DeviceService R E -> A -> DeviceService R E) l s :
  (forall s x, aside s (f s x)) -> aside s (fold_left f l s).
Proof.
  intros Hf. revert s. induction l as [|x l IH]; intros s; simpl; [apply aside_refl|].
  eapply aside_trans; [apply Hf|apply IH].
Qed.
Lemma aside_publish s d : aside s (publishDevice s d).
Proof. unfold publishDevice. by destruct (broadcast _ _). Qed.
Lemma aside_publishState s v : aside s (publishState s v).
Proof. unfold publishState. by destruct (broadcast _ _). Qed.
Lemma aside_apply s v : aside s (apply_state s v).
Proof.
  unfold apply_state. destruct (StateStore.Apply _ _) as [[st x] []]; [|done].
  apply (aside_publishState (set_states s st)).
Qed.
Lemma aside_timing s item o origin : aside s (recordTimingOffset s item o origin).
Proof. unfold recordTimingOffset. by repeat case_match. Qed.
Lemma aside_observed s item r o : aside s (safeObservedAt s item r o).1.
Proof. unfold safeObservedAt. repeat case_match; simpl; auto using aside_refl, aside_timing. Qed.
Lemma aside_snapshot env s item traceID origin : aside s (applySnapshot env s item traceID origin).
Proof.
  unfold applySnapshot, time_now. pose proof (aside_observed (set_ticks s (S (ticks s)) (drawn s)) item
    (clock env (ticks s)) origin) as Ho. destruct (safeObservedAt _ _ _ _) as [s1 o]. simpl in Ho.
  eapply aside_trans; [exact Ho|]. apply aside_fold. intros. apply aside_apply.
Qed.
Lemma aside_unknown env s item reason traceID : aside s (ensureUnknownStates env s item reason traceID).
Proof.
  unfold ensureUnknownStates, time_now. apply (aside_fold _ _ (set_ticks s (S (ticks s)) (drawn s))). intros s1 x.
  unfold ensure_unknown. destruct (StateStore.EnsureUnknown _ _) as [[st y] []]; [|done].
  apply (aside_publishState (set_states s1 st)).
Qed.
Lemma aside_mark env s id reason traceIDs : aside s (markDeviceUnavailable env s id reason traceIDs).1.
Proof.
  unfold markDeviceUnavailable. destruct (StateStore.MarkDeviceUnavailable _ _ _ _ _) as [st l]. simpl.
  apply (aside_fold publishState l (set_states s st)). intros. apply aside_publishState.
Qed.
Lemma aside_confirm env s item : aside s (confirm_snapshot env s item).
Proof.
  unfold confirm_snapshot. apply aside_fold. intros s1 [[e c] p]. unfold confirm_property, time_now.
  destruct (CommandTracker.Confirm _ _ _ _ _ _ _ _) as [[t []] x]; done.
Qed.
Lemma aside_accept s item : aside s (acceptSnapshotSequence s item).1.
Proof. unfold acceptSnapshotSequence. by repeat case_match. Qed.

(** What a device shows. *)
Definition same_display d d' : Prop := d_ID d' = d_ID d /\ name_of d' = name_of d /\ location_of d' = location_of d.
Lemma same_display_refl d : same_display d d.
Proof. done. Qed.
Lemma same_display_trans d1 d2 d3 : same_display d1 d2 -> same_display d2 d3 -> same_display d1 d3.
Proof. unfold same_display. intros (H1 & H2 & H3) (-> & -> & ->). done. Qed.
Lemma same_availability d av on : same_display d (with_availability d av on).
Proof. by destruct d. Qed.
Lemma same_normalize d : same_display d (NormalizeAvailability d).
Proof. apply same_availability. Qed.
Lemma same_set d av : same_display d (SetAvailability d av).
Proof. apply same_availability. Qed.
Lemma same_online d b : same_display d (SetOnline d b).
Proof. destruct b; apply same_availability. Qed.
Lemma same_disabled d b : same_display d (set_Disabled d b).
Proof. by destruct d. Qed.

Lemma same_incoming s d : same_display d (incoming_device s d).
Proof.
  unfold incoming_device.
  assert (same_display d (keep_camera_availability s d)) as Hk.
  { unfold keep_camera_availability. repeat case_match; auto using same_display_refl, same_set. }
  set (d1 := NormalizeAvailability (keep_camera_availability s d)).
  assert (same_display d d1) as H1 by (eapply same_display_trans; [exact Hk|apply same_normalize]).
  set (d2 := if isDeviceDisabled s (d_ID d1) then _ else _).
  assert (same_display d d2) as H2.
  { unfold d2. case_match; [|done]. eapply same_display_trans; [exact H1|].
    eapply same_display_trans; [apply same_disabled|apply same_online]. }
  case_match; [|done]. eapply same_display_trans; [exact H2|apply same_online].
Qed.

(** The devices of [s'] are those of [s], one of them removed or replaced. *)
Lemma undisturbed_upsert s s' d : registry_wf (registry s) ->
  prefs s' = prefs s -> registry s' = Upsert (registry s) d ->
  (d_SourceName d <> "" /\ name_ok (prefs s) d /\ place_ok (prefs s) d)
  \/ (exists d0, devices (registry s) !! d_ID d = Some d0 /\ name_of d = name_of d0 /\ location_of d = location_of d0) ->
  undisturbed s s'.
Proof.
  intros Hwf Hp Hr Hd. split; [done|]. rewrite Hr. split; [by apply wf_Upsert|]. intros i x.
  destruct (same_normalize d) as (Hid & Hn & Hl). simpl.
  intros [[<- <-]|[_ Hx]]%lookup_insert_Some; [|right; by exists x].
  unfold name_ok, place_ok. rewrite Hid, Hn, Hl. destruct Hd as [(Hs & Hd)|Hd]; [left|by right].
  split; [|exact Hd]. injection Hn as _ -> _. exact Hs.
Qed.

Lemma undisturbed_delete s s' id : registry_wf (registry s) ->
  prefs s' = prefs s -> registry s' = Delete (registry s) id -> undisturbed s s'.
Proof.
  intros Hwf Hp Hr. split; [done|]. rewrite Hr. split; [by apply wf_Delete|]. intros i x.
  simpl. intros [_ Hx]%lookup_delete_Some. right. by exists x.
Qed.

Lemma undisturbed_aside s s' : registry_wf (registry s) -> aside s s' -> undisturbed s s'.
Proof.
  intros Hwf [Hr Hp]. split; [done|]. rewrite Hr. split; [done|]. intros i x Hx. right. by exists x.
Qed.

Lemma shown_same p d d' : same_display d d' -> d_SourceName d <> "" /\ name_ok p d /\ place_ok p d ->
  d_SourceName d' <> "" /\ name_ok p d' /\ place_ok p d'.
Proof.
  intros (Hid & Hn & Hl) (Hs & Hd). unfold name_ok, place_ok. rewrite Hid, Hn, Hl. split; [|exact Hd].
  injection Hn as _ -> _. exact Hs.
Qed.

(** A snapshot the mapper produced, whatever it says. *)
Lemma snapshot_undisturbed env s item traceID origin :
  registry_wf (registry s) -> d_SourceName item <> "" /\ name_ok (prefs s) item /\ place_ok (prefs s) item ->
  undisturbed s (handle_projected env s item traceID origin).
Proof.
  intros Hwf Hitem. unfold handle_projected. pose proof (shown_same _ _ _ (same_incoming s item) Hitem) as Hshown.
  set (d := incoming_device s item) in *.
  assert (exists s1 b, (if IsOnline d then acceptSnapshotSequence s d else (s, true)) = (s1, b) /\ aside s s1)
    as (s1 & b & -> & H1).
  { pose proof (aside_accept s d). destruct (IsOnline d); [|by exists s, true].
    destruct (acceptSnapshotSequence s d) as [s1 b]. by exists s1, b. }
  destruct b; cbn [negb]; [|by apply undisturbed_aside].
  set (s2 := if IsOnline d then s1 else resetSnapshotSequence s1 (d_ID d)).
  assert (aside s s2) as [Hr2 Hp2] by (unfold s2; by destruct (IsOnline d)).
  rewrite Hr2. set (r := if d_Removed d then _ else _).
  set (s3 := if IsOnline d then _ else _). assert (aside (set_registry s2 r) s3) as [Hr3 Hp3].
  { unfold s3. destruct (IsOnline d).
    - eapply aside_trans; [apply aside_snapshot|apply aside_confirm].
    - pose proof (aside_mark env (ensureUnknownStates env (set_registry s2 r) d (unavailableReason d) traceID)
        (d_ID d) (unavailableReason d) [traceID]) as Hm. destruct (markDeviceUnavailable _ _ _ _ _) as [s4 n].
      simpl in Hm. eapply aside_trans; [apply aside_unknown|exact Hm]. }
  destruct (aside_publish s3 d) as [Hr4 Hp4]. simpl in Hr3, Hp3. unfold r in Hr3.
  destruct (d_Removed d).
  - apply (undisturbed_delete _ _ (d_ID d)); [done|congruence|congruence].
  - apply (undisturbed_upsert _ _ d); [done|congruence|congruence|by left].
Qed.

Lemma removal_undisturbed env s id : registry_wf (registry s) -> undisturbed s (RemoveFromRegistry env s id).
Proof.
  intros Hwf. unfold RemoveFromRegistry. destruct (DeviceRegistry.Get (registry s) id) as [d|];
    [|by apply undisturbed_aside].
  set (s1 := resetSnapshotSequence _ id). pose proof (aside_mark env s1 id UnavailableRemoved []) as [Hr Hp].
  destruct (markDeviceUnavailable _ _ _ _ _) as [s2 n]. simpl in Hr, Hp.
  destruct (aside_publish s2 (SetOnline (set_Removed d true) false)) as [Hr' Hp'].
  apply (undisturbed_delete _ _ id); [done|congruence|congruence].
Qed.

Lemma disabling_undisturbed env s mapper catalog text store discovered id : registry_wf (registry s) ->
  undisturbed s (SetDeviceEnabled env s mapper catalog text store discovered id false).1.
Proof.
  intros Hwf. unfold SetDeviceEnabled. destruct (DeviceRegistry.Get (registry s) id) as [d|] eqn:Hd;
    [|by apply undisturbed_aside].
  destruct store as [[x|e]|]; [|by apply undisturbed_aside..]. cbn [negb].
  set (d' := SetOnline (set_Disabled d true) false).
  assert (same_display d d') as (Hid & Hn & Hl)
    by (eapply same_display_trans; [apply same_disabled|apply same_online]).
  set (s1 := set_registry _ _). pose proof (aside_mark env s1 id UnavailableDisabled []) as [Hr Hp].
  destruct (markDeviceUnavailable _ _ _ _ _) as [s2 n]. simpl in Hr, Hp |- *.
  destruct (aside_publish (count_ s2 statesMarkedStale n) d') as [Hr' Hp'].
  apply (undisturbed_upsert _ _ d'); [done|simpl in *; congruence|simpl in *; congruence|right].
  exists d. rewrite Hid. destruct (Hwf id d Hd) as [-> _]. done.
Qed.

(** What a mapper publishes is shown as the preferences say, if it has a name. *)
Lemma projected_shown {F} p (mapper : option (PropertyMapper F)) item m d :
  (mapSnapshot p mapper item m).2 = Ok d -> d_SourceName d <> "" ->
  d_SourceName d <> "" /\ name_ok p d /\ place_ok p d.
Proof.
  intros Hd Hs. split; [done|].
  assert (exists x, d = applyDeviceName p (applyDeviceLocation p x)) as [x ->].
  { destruct mapper as [mp|]; [|injection Hd as <-; by exists item].
    destruct (mapSnapshot_ok p mp item m d Hd) as (st & y & _ & _ & _ & _ & ->). by exists (annotate y). }
  destruct (location_keeps p x) as [Hid Hn]. set (y := applyDeviceLocation p x) in *. split.
  - destruct (String.eq_dec (d_SourceName y) "") as [He|He]; [|by apply name_apply].
    rewrite apply_rename in Hs |- *. unfold rename in Hs |- *. simpl in Hs |- *. rewrite He in Hs |- *. simpl in Hs |- *.
    unfold name_ok, rename. destruct (names p !! d_ID y) as [n|] eqn:Hname;
      destruct y; simpl in *; rewrite Hname; apply is_empty_false in Hs; by rewrite Hs.
  - unfold place_ok. destruct (name_keeps p y) as [-> ->]. apply place_apply.
Qed.

(** A report of a Provider, mapped or not. *)
Lemma report_undisturbed env s mapper catalog (text : MappingFailure E -> string) item traceID origin :
  registry_wf (registry s) ->
  (forall m d, (projectLatestSnapshot (prefs s) mapper catalog item m).2 = Ok d -> d_SourceName d <> "") ->
  undisturbed s (handleDeviceSnapshot env s mapper catalog text item traceID origin).
Proof.
  intros Hwf Hsrc. unfold handleDeviceSnapshot, project_latest. cbn [count_].
  set (s1 := count_ s eventsProcessed 1). change (prefs s1) with (prefs s).
  specialize (Hsrc (metrics s1)). unfold projectLatestSnapshot in *.
  set (native := match sourceSnapshots mapper catalog [item] with [x] => mapSnapshot (prefs s) mapper x | _ => _ end) in *.
  assert (exists x, native = mapSnapshot (prefs s) mapper x) as [x Hx].
  { unfold native. destruct (sourceSnapshots mapper catalog [item]) as [|y [|]]; by eexists. }
  rewrite Hx in *. pose proof (projected_shown (prefs s) mapper x (metrics s1)) as Hshown.
  destruct (mapSnapshot (prefs s) mapper x (metrics s1)) as [m [d|e]]; simpl in Hsrc, Hshown.
  - apply (snapshot_undisturbed env (set_metrics s1 m) d); [done|]. by apply Hshown; [|apply Hsrc].
  - unfold publishMappingError. simpl. destruct (DeviceRegistry.Get (registry s) (d_ID item)) as [d|] eqn:Hd;
      [|by apply undisturbed_aside].
    case_bool_decide; [by apply undisturbed_aside|].
    set (d' := set_MappingError d (text e)).
    destruct (aside_publish (set_registry (set_metrics s1 m) (Upsert (registry s) d')) d') as [Hr Hp].
    apply (undisturbed_upsert _ _ d'); [done|exact Hp|exact Hr|right]. exists d.
    destruct (Hwf _ d Hd) as [Hid _]. assert (d_ID d' = d_ID item) as -> by (by destruct d).
    split; [exact Hd|]. by destruct d.
Qed.

(** A registered device is replaced by one that shows the same. *)
Lemma replaced_undisturbed s s' id d d' : registry_wf (registry s) -> DeviceRegistry.Get (registry s) id = Some d ->
  same_display d d' -> registry s' = Upsert (registry s) d' -> prefs s' = prefs s -> undisturbed s s'.
Proof.
  intros Hwf Hd (Hid & Hn & Hl) Hr Hp. apply (undisturbed_upsert _ _ d'); [done..|right]. exists d. rewrite Hid.
  destruct (Hwf id d Hd) as [-> _]. done.
Qed.
Lemma same_updated d now : same_display d (set_LastUpdateAt d now).
Proof. by destruct d. Qed.
Lemma undisturbed_before s s1 s' : aside s s1 -> undisturbed s1 s' -> undisturbed s s'.
Proof. intros [Hr Hp] (Hp' & Hwf & Hd). split; [congruence|]. split; [done|]. intros i d Hi. rewrite <- Hr, <- Hp. by apply Hd. Qed.
Lemma undisturbed_after s s1 s' : undisturbed s s1 -> aside s1 s' -> undisturbed s s'.
Proof. intros (Hp' & Hwf & Hd) [Hr Hp]. split; [congruence|]. rewrite Hr. by split. Qed.

Lemma availability_undisturbed env s id av : registry_wf (registry s) -> undisturbed s (ReportDeviceAvailability env s id av).1.
Proof.
  intros Hwf. unfold ReportDeviceAvailability. destruct (DeviceRegistry.Get (registry s) id) as [d|] eqn:Hd;
    [|by destruct av; apply undisturbed_aside].
  assert (forall s', undisturbed s s' -> undisturbed s (match av with AvailabilityOther _ => s | _ => s' end)) as Hav.
  { intros s' Hs'. destruct av; [done..|]. by apply undisturbed_aside. }
  destruct (d_Disabled d || d_Removed d); [by destruct av; apply undisturbed_aside|].
  destruct (availability_eqb _ av); [by destruct av; apply undisturbed_aside|]. unfold time_now.
  set (d' := set_LastUpdateAt (SetAvailability d av) _). set (s1 := set_registry _ _).
  assert (forall s2, aside s1 s2 -> undisturbed s (publishDevice s2 d')) as Hend.
  { intros s2 Hs2. eapply undisturbed_after; [|eapply aside_trans; [exact Hs2|apply aside_publish]].
    apply (replaced_undisturbed s s1 id d d'); [done..| |done|done]. eapply same_display_trans; [apply same_set|apply same_updated]. }
  destruct av; cbn [fst]; [apply Hend, aside_snapshot| |apply Hend, aside_refl|by apply undisturbed_aside].
  pose proof (aside_mark env s1 id UnavailableDeviceOffline []) as Hm. destruct (markDeviceUnavailable _ _ _ _ _) as [s2 n]. by apply Hend.
Qed.

(** What the mapper says of a report: the device has a name; it can be mapped at all. *)
Definition named p (mapper : option (PropertyMapper E)) catalog item : Prop :=
  forall m d, (projectLatestSnapshot p mapper catalog item m).2 = Ok d -> d_SourceName d <> "".
Definition maps p (mapper : option (PropertyMapper E)) catalog item : Prop :=
  named p mapper catalog item /\ forall m, is_ok (projectLatestSnapshot p mapper catalog item m).2 = true.

Lemma latest_shown p (mapper : option (PropertyMapper E)) catalog item m d : named p mapper catalog item ->
  (projectLatestSnapshot p mapper catalog item m).2 = Ok d -> d_SourceName d <> "" /\ name_ok p d /\ place_ok p d.
Proof.
  intros Hn Hd. pose proof (Hn m d Hd) as Hs. unfold projectLatestSnapshot in Hd.
  destruct (sourceSnapshots mapper catalog [item]) as [|x [|]]; by eapply projected_shown.
Qed.
(** A mapped device, with what a handler adds to it, is registered. *)
Lemma mapped_undisturbed s s' p (mapper : option (PropertyMapper E)) catalog item d d' m : registry_wf (registry s) -> maps p mapper catalog item ->
  (projectLatestSnapshot p mapper catalog item m).2 = Ok d -> same_display d d' -> p = prefs s ->
  registry s' = Upsert (registry s) d' -> prefs s' = prefs s -> undisturbed s s'.
Proof.
  intros Hwf [Hn _] Hd Hsame -> Hr Hp. apply (undisturbed_upsert _ _ d'); [done..|left].
  apply (shown_same _ d); [done|]. by eapply latest_shown.
Qed.

Lemma enabling_undisturbed env s mapper catalog text store discovered id : registry_wf (registry s) ->
  (forall native item, discovered = Some (Ok native) -> find_by d_ID id native = Some item -> maps (prefs s) mapper catalog item) ->
  undisturbed s (SetDeviceEnabled env s mapper catalog text store discovered id true).1.
Proof.
  intros Hwf Hmaps. unfold SetDeviceEnabled. destruct (DeviceRegistry.Get (registry s) id) as [d|] eqn:Hd; [|by apply undisturbed_aside].
  destruct store as [[x|e]|]; [|by apply undisturbed_aside..]. cbn [negb]. set (s0 := resetSnapshotSequence _ id).
  set (found := match discovered with Some (Ok native) => find_by d_ID id native | _ => None end).
  set (chosen := match found with Some _ => _ | None => _ end).
  assert (exists s1 d1, chosen = (s1, d1) /\ aside s s1 /\
    forall d2 s', same_display d1 d2 -> registry s' = Upsert (registry s) d2 -> prefs s' = prefs s -> undisturbed s s') as (s1 & d1 & -> & H1 & Hreg).
  { unfold chosen. destruct found as [item|] eqn:Hf.
    - unfold found in Hf. destruct discovered as [[native|]|]; [|done..]. pose proof (Hmaps native item eq_refl Hf) as Hm.
      unfold project_latest. destruct (projectLatestSnapshot (prefs s0) mapper catalog item (metrics s0)) as [m r] eqn:Hr.
      pose proof (proj2 Hm (metrics s0)) as Hok. change (prefs s) with (prefs s0) in Hok. rewrite Hr in Hok. destruct r as [y|]; [|done].
      eexists _, _. split; [done|]. split; [done|]. intros d2 s' Hsame Hreg Hp. eapply (mapped_undisturbed s s' (prefs s) mapper catalog item y d2 (metrics s0)); try done.
      + change (prefs s) with (prefs s0). by rewrite Hr.
      + eapply same_display_trans; [|exact Hsame]. eapply same_display_trans; [|apply same_normalize]. by destruct y.
    - eexists _, _. split; [done|]. split; [done|]. intros d2 s' Hsame Hreg Hp. eapply replaced_undisturbed; [done|exact Hd| |done|done].
      eapply same_display_trans; [apply same_disabled|exact Hsame]. }
  set (d2 := if d_Removed d1 then SetOnline d1 false else d1).
  assert (same_display d1 d2) as H2 by (unfold d2; destruct (d_Removed d1); [apply same_online|apply same_display_refl]).
  set (s2 := set_registry _ _). set (s3 := if IsOnline d2 then _ else _).
  assert (aside s2 s3) as H3.
  { unfold s3. destruct (IsOnline d2); [eapply aside_trans; [apply aside_accept|apply aside_snapshot]|].
    eapply aside_trans; [apply aside_unknown|apply aside_mark]. }
  cbn [fst]. eapply undisturbed_after; [|eapply aside_trans; [exact H3|apply aside_publish]].
  destruct H1 as [Hr1 Hp1]. apply (Hreg d2); [done| |done]. unfold s2. cbn [registry set_registry]. by rewrite Hr1.
Qed.

(** *** Writes, commands and reads *)

Lemma aside_resolve env s command fallback : aside s (resolve_optimistic env s command fallback).
Proof.
  unfold resolve_optimistic. destruct (ResolveOptimistic _ _ _ _) as [[st v] []]; [|done]. apply (aside_publishState (set_states s st)).
Qed.
Lemma aside_get env s id : aside s (get_command env s id).1.
Proof. unfold get_command, time_now. by destruct (CommandTracker.Get _ _ _ _) as [[? ?] ?]. Qed.
Lemma aside_confirmed env s id : aside s (confirmed_command env s id).
Proof. unfold confirmed_command, time_now. by destruct (CommandTracker.Confirmed _ _ _ _) as [[? []] ?]. Qed.
Lemma aside_property env s i e c p v : aside s (confirm_property env s i e c p v).
Proof. unfold confirm_property, time_now. by destruct (CommandTracker.Confirm _ _ _ _ _ _ _ _) as [[? []] ?]. Qed.
Lemma aside_reject env text s command previous err : aside s (rejectPropertyWrite env text s command previous err).1.
Proof.
  unfold rejectPropertyWrite. set (s1 := count_ _ commandsRejected 1).
  assert (aside s s1) as H1 by (eapply aside_trans; [|apply (aside_resolve env (rejected_command env s (cmd_ID command) (text err)))]; done).
  pose proof (aside_get env s1 (cmd_ID command)) as Hg. destruct (get_command env s1 (cmd_ID command)) as [s2 [c b]]. by eapply aside_trans.
Qed.
Lemma aside_schedule config (mapper : option (PropertyMapper E)) reader s key provider path trace :
  aside s (schedulePropertyReadbacks config mapper reader s key provider path trace).1.
Proof. unfold schedulePropertyReadbacks. repeat case_match; done. Qed.

(** The end of a write: the Provider answered. *)
Lemma finish_undisturbed env text mapping_text config mapper catalog reader ack s key sd answer : registry_wf (registry s) ->
  (forall item, answer = Ok item -> named (prefs s) mapper catalog item) ->
  (forall item m d, answer = Ok item -> (projectLatestSnapshot (prefs s) mapper catalog item m).2 = Ok d -> named (prefs s) mapper catalog d) ->
  undisturbed s (finish_write env text mapping_text config mapper catalog reader ack s key sd answer).1.
Proof.
  intros Hwf Hn1 Hn2. unfold finish_write. pose proof (aside_get env s (cmd_ID (sd_command sd))) as Hg.
  destruct (get_command env s (cmd_ID (sd_command sd))) as [s1 [c b]]. cbn [fst] in Hg.
  destruct (b && is_superseded (cmd_Status c)). { apply undisturbed_aside; [done|]. eapply aside_trans; [exact Hg|apply aside_resolve]. }
  destruct answer as [item|e]. 2:{ apply undisturbed_aside; [done|]. eapply aside_trans; [exact Hg|apply aside_reject]. }
  set (s2 := accepted_command env s1 _). assert (aside s s2) as H2 by exact Hg. unfold project_latest.
  replace (prefs s2) with (prefs s) by (symmetry; apply H2).
  destruct (projectLatestSnapshot (prefs s) mapper catalog item (metrics s2)) as [m r] eqn:Hr.
  set (item' := match r with Ok d => d | Err _ => item end). set (s3 := if ack then _ else _).
  assert (undisturbed s s3) as H3.
  { unfold s3. destruct ack.
    - eapply undisturbed_after; [|apply aside_confirmed]. eapply (undisturbed_before s (set_metrics s2 m)); [exact H2|].
      apply report_undisturbed; [change (registry_wf (registry s2)); by destruct H2 as [-> _]|]. destruct H2 as [_ Hp2]. change (prefs (set_metrics s2 m)) with (prefs s2).
      rewrite Hp2. unfold item'. destruct r as [d|]; [|by apply Hn1]. apply (Hn2 item (metrics s2) d eq_refl). by rewrite Hr.
    - eapply undisturbed_after; [|apply aside_schedule]. apply undisturbed_aside; [done|exact H2]. }
  pose proof (aside_get env s3 (cmd_ID (sd_command sd))) as Hg3. destruct (get_command env s3 (cmd_ID (sd_command sd))) as [s4 [c4 b4]].
  by eapply undisturbed_after.
Qed.

(** A command whose device can be mapped. *)
Lemma command_undisturbed env text mapper catalog executor gate correlation s request : registry_wf (registry s) ->
  (forall execute item, executor = Some execute -> execute request = Ok item -> maps (prefs s) mapper catalog item) ->
  undisturbed s (ExecuteCommand env text mapper catalog executor gate correlation (fun _ s => s) s request).1.
Proof.
  intros Hwf Hmaps. unfold ExecuteCommand. destruct (128 <? _)%nat; [by apply undisturbed_aside|].
  destruct (validateCommand s request); [|by apply undisturbed_aside]. destruct (negb gate); [by apply undisturbed_aside|]. unfold time_now.
  destruct (BeginActionIdempotentCorrelated _ _ _ _ _ _ _ _ _ _ _) as [[t began] x]. set (s1 := set_tracker _ t).
  assert (aside s s1) as H1 by done. destruct began as [[command [|]]|e]; [| |by apply undisturbed_aside].
  { destruct (DeviceRegistry.Get _ _); by apply undisturbed_aside. }
  set (s2 := sent_command env _ _). assert (aside s s2) as H2 by done.
  assert (forall e, undisturbed s (rejectCommand env text s2 command e).1) as Hreject.
  { intros e. apply undisturbed_aside; [done|]. unfold rejectCommand. set (s3 := count_ _ commandsRejected 1).
    pose proof (aside_get env s3 (cmd_ID command)) as Hg. destruct (get_command env s3 (cmd_ID command)) as [s4 [c b]]. exact Hg. }
  destruct executor as [execute|]; [|apply Hreject]. destruct (execute request) as [item|e] eqn:He; [|apply Hreject].
  pose proof (Hmaps execute item eq_refl He) as Hm. unfold project_latest. change (prefs s2) with (prefs s).
  destruct (projectLatestSnapshot (prefs s) mapper catalog item (metrics s2)) as [m r] eqn:Hr.
  pose proof (proj2 Hm (metrics s2)) as Hok. rewrite Hr in Hok. destruct r as [d|]; [|done]. cbn [fst].
  set (s3 := set_registry _ _). set (s4 := confirmed_command env s3 _).
  pose proof (aside_get env s4 (cmd_ID command)) as Hg. destruct (get_command env s4 (cmd_ID command)) as [s5 [c b]]. cbn [fst] in *.
  eapply undisturbed_after; [|eapply aside_trans; [apply (aside_confirmed env s3)|exact Hg]].
  eapply (mapped_undisturbed s s3 (prefs s) mapper catalog item d d (metrics s2)); try done. by rewrite Hr.
Qed.

Lemma same_property d e c p v : same_display d (SetProperty d e c p v).1.
Proof. unfold SetProperty. destruct (update_first _ _); by destruct d. Qed.
Lemma reconcile_undisturbed env s key property trace : registry_wf (registry s) -> undisturbed s (reconcileReadProperty env s key property trace).
Proof.
  intros Hwf. unfold reconcileReadProperty. destruct (DeviceRegistry.Get (registry s) (DeviceID key)) as [d|] eqn:Hd; [|by apply undisturbed_aside].
  destruct (d_Disabled d || d_Removed d); [by apply undisturbed_aside|]. destruct (PropertyAt _ _ _ _) as [previous|]; [|by apply undisturbed_aside].
  set (s1 := confirm_property _ _ _ _ _ _ _). assert (aside s s1) as H1 by apply aside_property.
  destruct (negb (Equal _ _)).
  - pose proof (same_property d (EndpointID key) (CapabilityID key) (PropertyID key) (p_Value property)) as Hsame.
    destruct (SetProperty _ _ _ _ _) as [d1 b]. cbn [fst] in Hsame. unfold time_now. set (d2 := set_LastUpdateAt d1 _).
    eapply undisturbed_after; [|eapply aside_trans; [apply aside_snapshot|apply aside_publish]].
    destruct H1 as [Hr1 Hp1]. apply (replaced_undisturbed s _ (DeviceID key) d d2); [done..| | |].
    + eapply same_display_trans; [exact Hsame|apply same_updated].
    + cbn [registry set_registry set_ticks]. by rewrite <- Hr1.
    + exact Hp1.
  - unfold time_now. apply undisturbed_aside; [done|]. eapply aside_trans; [exact H1|]. apply (aside_snapshot env (set_ticks s1 _ _)).
Qed.
Lemma read_undisturbed env mapper reader s key trace : registry_wf (registry s) -> undisturbed s (ReadProperty env mapper reader s key trace).1.
Proof.
  intros Hwf. unfold ReadProperty. destruct (DeviceRegistry.Get (registry s) (DeviceID key)) as [d|]; [|by destruct reader; apply undisturbed_aside].
  destruct (d_Disabled d || d_Removed d); [by apply undisturbed_aside|]. destruct reader as [read|]; [|by apply undisturbed_aside].
  destruct (resolvePropertyPath _ _ _) as [[[path x] y]|]; [|by apply undisturbed_aside]. destruct (read _) as [property|]; [|by apply undisturbed_aside].
  destruct (providerPropertyProjections _ _ _ _) as [m [projections|]]; [|by apply undisturbed_aside].
  destruct (projection_for _ _ _) as [p|]; [|by apply undisturbed_aside].
  eapply (undisturbed_before s (set_metrics s m)); [done|]. destruct (mapper ≫= ResolveModelDefinition) as [resolve|]; [|by apply reconcile_undisturbed].
  destruct (resolve _ _ _) as [definition []]; by apply reconcile_undisturbed.
Qed.

(** ** What else may happen *)

(** The device an event reports. *)
Definition reported (payload : Payload) : option Device :=
  match payload with
  | SnapshotPayload item _ | DevicePayload item => Some item
  | AvailabilityPayload _ | OtherPayload => None
  end.

(** The other handlers, whatever their mappers, Providers and stores answer, but for four
    conditions: what a Provider reports is mapped to a device with a name, if it is
    mapped; and to enable a device, and to execute a command, its snapshot can be mapped. *)
Inductive rest s : DeviceService R E -> Prop :=
| rest_event env mapper catalog text payload trace :
    (forall item, reported payload = Some item -> named (prefs s) mapper catalog item) ->
    rest s (handleEvent env s mapper catalog text payload trace)
| rest_availability env id availability : rest s (ReportDeviceAvailability env s id availability).1
| rest_remove env id : rest s (RemoveFromRegistry env s id)
| rest_disable env mapper catalog text store discovered id :
    rest s (SetDeviceEnabled env s mapper catalog text store discovered id false).1
| rest_enable env mapper catalog text store discovered id :
    (forall native item, discovered = Some (Ok native) -> find_by d_ID id native = Some item -> maps (prefs s) mapper catalog item) ->
    rest s (SetDeviceEnabled env s mapper catalog text store discovered id true).1
| rest_write env text mapping_text config mapper catalog reader acknowledges key sd answer :
    (forall item, answer = Ok item -> named (prefs s) mapper catalog item) ->
    (forall item m d, answer = Ok item -> (projectLatestSnapshot (prefs s) mapper catalog item m).2 = Ok d -> named (prefs s) mapper catalog d) ->
    rest s (finish_write env text mapping_text config mapper catalog reader acknowledges s key sd answer).1
| rest_command env text mapper catalog executor gate correlation request :
    (forall execute item, executor = Some execute -> execute request = Ok item -> maps (prefs s) mapper catalog item) ->
    rest s (ExecuteCommand env text mapper catalog executor gate correlation (fun _ s => s) s request).1
| rest_read env mapper reader key trace : rest s (ReadProperty env mapper reader s key trace).1
| rest_aside s' : aside s s' -> rest s s'.

Lemma rest_undisturbed s s' : registry_wf (registry s) -> rest s s' -> undisturbed s s'.
Proof.
  intros Hwf [env mapper catalog text payload trace Hn|env id av|env id|env mapper catalog text store discovered id
    |env mapper catalog text store discovered id Hm|env text mt config mapper catalog reader ack key sd answer H1 H2
    |env text mapper catalog executor gate correlation request Hm|env mapper reader key trace|s1 Ha].
  - destruct payload as [a|item origin|item|]; cbn [handleEvent reported] in *; [|by apply report_undisturbed; [|apply Hn]..|by apply undisturbed_aside].
    apply undisturbed_aside; [done|]. unfold handleCapabilityAvailability. destruct (ca_Available a); [done|].
    destruct (DeviceRegistry.Get _ _); [|done]. destruct (_ || _ || _); [done|].
    destruct (StateStore.MarkCapabilityUnavailable _ _ _ _ _ _ _) as [st l].
    eapply (aside_trans s (count_ (set_states s st) statesMarkedStale (Z.of_nat (length l)))); [done|]. apply (aside_fold publishState). intros. apply aside_publishState.
  - by apply availability_undisturbed.
  - by apply removal_undisturbed.
  - by apply disabling_undisturbed.
  - by apply enabling_undisturbed.
  - by apply finish_undisturbed.
  - by apply command_undisturbed.
  - by apply read_undisturbed.
  - by apply undisturbed_aside.
Qed.
End Handlers.

(** A device without a name from its source takes the name its user gave it for that of
    the source, and a reset does not bring the old one back. *)
Lemma nameless_reset p d n : d_Name d = "" -> d_SourceName d = "" -> n <> "" ->
  let named := applyDeviceName (set_names p (<[d_ID d := n]> (names p))) d in
  let shown_again := applyDeviceName (set_names p (<[d_ID d := n]> (names p))) named in
  d_Name (applyDeviceName (set_names p (delete (d_ID d) (names p))) shown_again) = n.
Proof.
  intros Hn Hs Hne%is_empty_false. destruct d as [v i pr dn dsn dno]. simpl in *. subst. unfold applyDeviceName.
  repeat first [progress simpl | rewrite lookup_insert_eq | rewrite lookup_delete_eq | rewrite Hne]. done.
Qed.

(** Enabling a device whose mapping fails publishes the snapshot of its Provider as it is:
    with its native properties, and without the name and the location its user chose. *)
Lemma enabling_publishes_native `{PriorityResolver R, UnicodeLower} {E} env (s : DeviceService R E) mapper catalog
    text id item native e :
  is_Some (DeviceRegistry.Get (registry s) id) -> find_by d_ID id native = Some item ->
  (forall m, (projectLatestSnapshot (prefs s) mapper catalog item m).2 = Err e) ->
  exists shown, DeviceRegistry.Get (registry
      (SetDeviceEnabled env s mapper catalog text (Some (Ok tt)) (Some (Ok native)) id true).1) id = Some shown /\
    d_Endpoints shown = d_Endpoints item /\ name_of shown = name_of item /\ location_of shown = location_of item.
Proof.
  intros [current Hcur] Hfind Herr. unfold SetDeviceEnabled. rewrite Hcur. cbn [negb]. rewrite Hfind.
  set (s0 := resetSnapshotSequence _ id). unfold project_latest. change (prefs s0) with (prefs s).
  specialize (Herr (metrics s0)). destruct (projectLatestSnapshot _ _ _ _ _) as [m r]. simpl in Herr. subst r.
  set (d := NormalizeAvailability (set_Removed (set_Disabled (set_MappingError item (text e)) false) false)).
  assert (d_Removed d = false /\ d_ID d = id /\ d_Endpoints d = d_Endpoints item /\ name_of d = name_of item
          /\ location_of d = location_of item) as (-> & Hid & Hd).
  { apply find_by_some in Hfind as [_ <-]. unfold d. by destruct item. }
  set (s1 := set_registry _ _). set (s2 := if IsOnline d then _ else _).
  assert (aside s1 s2) as [Hr _].
  { unfold s2. destruct (IsOnline d).
    - eapply aside_trans; [apply aside_accept|apply aside_snapshot].
    - eapply aside_trans; [apply aside_unknown|apply aside_mark]. }
  exists (NormalizeAvailability d). destruct (aside_publish s2 d) as [Hr' _]. cbn [fst].
  rewrite Hr', Hr. unfold s1. simpl. rewrite Get_Upsert, Hid. rewrite decide_True by done. split; [done|].
  destruct (same_normalize d) as (_ & -> & ->). destruct Hd as (<- & <- & <-). by destruct d.
Qed.
