(* ===== verification/LocationRuns.v ===== *)
(** * Names and locations over the runs of the service

    Over runs of calls one after another, and of the other handlers between them: the memory
    of the service agrees with the tables, and every device is shown as its user chose. *)

From S2P Require Import Prelude Float64 DomainState StateStore CommandTracker DeviceRegistry.
From S2P Require Import DeviceModel Lookup ModelContract FloatText Text Sha256 LogicalRuntime DeviceProjection DeviceService Auth.
From S2P Require Import PropertyWrite Locations LocationDirectory DeviceDisplay LocationHandlers.

(** ** Reasoning on calls *)

Section Calls.
Context {R E : Type}.
Implicit Types w : world R E.

(** After the call from [w], [Q] holds of the result, or [Er] of what an error leaves. *)
Definition wp {A} (c : call R E A) (Q : A -> world R E -> Prop) (Er : world R E -> Prop) w : Prop :=
  match run c w with
  | (w', Ok x) => Q x w'
  | (w', Err _) => Er w'
  end.

Lemma run_bind {A B} (c : call R E A) (k : A -> call R E B) : forall w,
  run (bind c k) w = match run c w with (w', Ok x) => run (k x) w' | (w', Err e) => (w', Err e) end.
Proof. induction c as [[x|e]|next go IH]; intros w; simpl; [done..|]. apply IH. Qed.

Lemma wp_bind {A B} (c : call R E A) (k : A -> call R E B) Q Er w :
  wp c (fun x w' => wp (k x) Q Er w') Er w -> wp (bind c k) Q Er w.
Proof. unfold wp. rewrite run_bind. by destruct (run c w) as [w' [x|e]]. Qed.
Lemma wp_ret {A} (x : A) (Q : A -> world R E -> Prop) Er w : Q x w -> wp (ret x) Q Er w.
Proof. done. Qed.
Lemma wp_memory (Q : DeviceService R E -> world R E -> Prop) Er w : Q w.1 w -> wp memory Q Er w.
Proof. done. Qed.
Lemma wp_change f (Q : unit -> world R E -> Prop) Er w : Q tt (f w.1, w.2) -> wp (change f) Q Er w.
Proof. done. Qed.
Lemma wp_require b e (Q : unit -> world R E -> Prop) (Er : world R E -> Prop) w :
  (b = true -> Q tt w) -> Er w -> wp (require b e) Q Er w.
Proof. destruct b; simpl; intros; [by apply wp_ret; auto|done]. Qed.
Lemma wp_found {A} (x : option A) e (Q : A -> world R E -> Prop) (Er : world R E -> Prop) w :
  (forall y, x = Some y -> Q y w) -> Er w -> wp (found x e) Q Er w.
Proof. destruct x; simpl; intros; [by apply wp_ret; auto|done]. Qed.
Lemma wp_result {A} (r : result LocationError A) (Q : A -> world R E -> Prop) (Er : world R E -> Prop) w :
  (forall y, r = Ok y -> Q y w) -> Er w -> wp (of_result r) Q Er w.
Proof. destruct r; simpl; intros; [by apply wp_ret; auto|done]. Qed.
Lemma wp_transact {A} io (c : transaction A) (Q : A -> world R E -> Prop) (Er : world R E -> Prop) w :
  (forall t x, c w.2 = Ok (t, x) -> Q x (w.1, t)) -> Er w -> wp (transact io c) Q Er w.
Proof. unfold wp, transact, executed. cbn [run]. destruct io; [|done]. destruct (c w.2) as [[t x]|e]; cbn; auto. Qed.
(** A transaction that cannot fail fails only with the database. *)
Lemma wp_transact_ok {A} io (c : transaction A) t x (Q : A -> world R E -> Prop) (Er : world R E -> Prop) w :
  c w.2 = Ok (t, x) -> (io = true -> Q x (w.1, t)) -> (io = false -> Er w) -> wp (transact io c) Q Er w.
Proof. unfold wp, transact, executed. cbn [run]. destruct io; [intros ->; cbn; auto|cbn; auto]. Qed.
Lemma wp_mono {A} (c : call R E A) (Q Q' : A -> world R E -> Prop) (Er Er' : world R E -> Prop) w :
  wp c Q Er w -> (forall x w', Q x w' -> Q' x w') -> (forall w', Er w' -> Er' w') -> wp c Q' Er' w.
Proof. unfold wp. destruct (run c w) as [w' [x|e]]; auto. Qed.
End Calls.

(** ** The invariant *)

Section Invariant.
Context `{UnicodeLower} {R E : Type} `{HR : PriorityResolver R}.
Variable listed : gmap string Device -> list string.
Variable scanned : gmap string LocationPreference -> list LocationPreference.
Hypothesis Hlisted : forall m, range_of m (listed m).
Hypothesis Hscanned : forall m p, p ∈ scanned m -> exists d, m !! d = Some p.
(** Whether no transaction of the run failed. *)
Variable reliable : bool.
Implicit Types (w : world R E) (s : DeviceService R E) (t : LocationTables).

Definition sound w : Prop := directory_ok w.2 /\ sourced w.1.
Definition names_shown w : Prop := names (prefs w.1) = name_rows w.2 /\ each w.1 (name_ok (prefs w.1)).
Definition homes_known w : Prop := locationHomes (prefs w.1) = homes_of w.2.
Definition places_shown w : Prop := locations (prefs w.1) = location_rows w.2 /\ each w.1 (place_ok (prefs w.1)).
Definition current w : Prop := names_shown w /\ homes_known w /\ places_shown w.
Definition invariant w : Prop := sound w /\ (reliable = true -> current w).

(** The transactions that succeed. *)
Definition admits (io : nat -> bool) : Prop := reliable = true -> forall n, io n = true.
Lemma admits_false io n : admits io -> io n = false -> reliable = true -> False.
Proof. intros Hio Hn Hr. by rewrite (Hio Hr) in Hn. Qed.

(** Listing the homes changes nothing. *)
Lemma list_homes t : directory_ok t -> ListLocationHomes scanned t = Ok (t, homes_of t).
Proof.
  intros Hok. unfold ListLocationHomes. rewrite import_ok; [done|].
  intros p Hp. destruct (Hscanned _ p Hp) as [d Hd]. by apply (do_place t Hok d p).
Qed.

Lemma loaded_same t : directory_ok t -> loaded_names (name_rows t) = name_rows t.
Proof.
  intros Hok. apply map_eq. intros d. unfold loaded_names. rewrite lookup_omap.
  destruct (name_rows t !! d) as [n|] eqn:Hn; simpl; [|done]. destruct (do_names t Hok d n Hn) as [-> Hne].
  apply is_empty_false in Hne. by rewrite Hne.
Qed.

(** A pass over the registry keeps the names of the sources. *)
Lemma each_devices s (f : Device -> Device) m (P : Device -> Prop) :
  devices (registry s) = f <$> m -> (forall id d, m !! id = Some d -> P (f d)) -> each s P.
Proof. intros Hr Hf id d. rewrite Hr, lookup_fmap, fmap_Some. intros (d0 & Hd & ->). eauto. Qed.

Lemma reapply_sourced f pub ch s : uniform f -> sourced s ->
  (forall p d, d_SourceName d <> "" -> d_SourceName (f p d) <> "") -> sourced (reapply listed f pub ch s).
Proof.
  intros Hf [Hwf Hs] Hkeep. destruct (reapply_spec listed Hlisted f pub ch s Hf Hwf) as [_ Hr]. split.
  - intros id d. rewrite Hr, lookup_fmap, fmap_Some. intros (d0 & Hd & ->). destruct (Hwf id d0 Hd) as [<- Hno].
    destruct (Hf (prefs s) d0) as [-> Hnorm]. split; [done|]. by apply Hnorm.
  - eapply each_devices; [exact Hr|]. intros id d Hd. apply Hkeep. by apply (Hs id).
Qed.

Lemma location_source p d : d_SourceName (applyDeviceLocation p d) = d_SourceName d.
Proof. rewrite apply_place. by destruct d. Qed.

(** *** The reloads *)

Lemma wp_reload_places io n pub w : admits io -> sound w -> (reliable = true -> names_shown w /\ homes_known w) ->
  wp (reloadDeviceLocationPreferences true listed io n pub) (fun _ => invariant) invariant w.
Proof.
  intros Hio [Hok Hs] Hc. unfold reloadDeviceLocationPreferences. simpl. apply wp_bind.
  eapply wp_transact_ok; [done| |intros Hn; split; [by split|]; intros Hr; by destruct (admits_false _ _ Hio Hn Hr)].
  intros _. apply wp_change. simpl. set (s0 := set_prefs w.1 (set_locations (prefs w.1) (location_rows w.2))).
  destruct (reapply_spec listed Hlisted applyDeviceLocation pub place_changed s0 uniform_location (proj1 Hs)) as [Hp Hr].
  split; [split; [done|]|].
  - apply reapply_sourced; [apply uniform_location|exact Hs|]. intros p d. by rewrite location_source.
  - intros Hrel. destruct (Hc Hrel) as [[Hn Hnames] Hh]. unfold current, names_shown, homes_known, places_shown.
    simpl. rewrite Hp. split_and!; [done| |done|done|].
    + eapply each_devices; [exact Hr|]. intros id d Hd. unfold name_ok.
      destruct (location_keeps (prefs s0) d) as [-> ->]. exact (Hnames id d Hd).
    + eapply each_devices; [exact Hr|]. intros id d Hd. apply place_apply.
Qed.

Lemma wp_reload_catalog io n pub (Q : unit -> world R E -> Prop) w : admits io -> sound w ->
  (reliable = true -> names_shown w) ->
  (forall w', sound w' -> (reliable = true -> names_shown w' /\ homes_known w') ->
     (locations (prefs w.1) = location_rows w.2 -> places_shown w') -> Q tt w') ->
  wp (reloadDeviceLocationCatalog true listed scanned io n pub) Q invariant w.
Proof.
  intros Hio [Hok Hs] Hc HQ. unfold reloadDeviceLocationCatalog. simpl. apply wp_bind.
  eapply wp_transact_ok; [by apply list_homes| |intros Hn; split; [by split|]; intros Hr; by destruct (admits_false _ _ Hio Hn Hr)].
  intros _. apply wp_change. simpl. set (s0 := set_prefs w.1 (set_locationHomes (prefs w.1) (homes_of w.2))).
  destruct (reapply_spec listed Hlisted applyDeviceLocation pub location_changed s0 uniform_location (proj1 Hs)) as [Hp Hr].
  apply HQ.
  - split; [done|]. apply reapply_sourced; [apply uniform_location|exact Hs|]. intros p d. by rewrite location_source.
  - intros Hrel. destruct (Hc Hrel) as [Hn Hnames]. unfold names_shown, homes_known. simpl. rewrite Hp.
    split_and!; [done| |done]. eapply each_devices; [exact Hr|]. intros id d Hd. unfold name_ok.
    destruct (location_keeps (prefs s0) d) as [-> ->]. exact (Hnames id d Hd).
  - intros Hl. unfold places_shown. simpl. rewrite Hp. split; [done|].
    eapply each_devices; [exact Hr|]. intros id d Hd. apply place_apply.
Qed.

Lemma wp_reload_names io n pub (Q : unit -> world R E -> Prop) w : admits io -> sound w ->
  (forall w', sound w' -> names_shown w' -> location_rows w'.2 = location_rows w.2 ->
     locations (prefs w'.1) = locations (prefs w.1) -> Q tt w') ->
  wp (reloadDeviceNamePreferences true listed io n pub) Q invariant w.
Proof.
  intros Hio [Hok Hs] HQ. unfold reloadDeviceNamePreferences. simpl. apply wp_bind.
  eapply wp_transact_ok; [done| |intros Hn; split; [by split|]; intros Hr; by destruct (admits_false _ _ Hio Hn Hr)].
  intros _. apply wp_change. simpl. rewrite (loaded_same _ Hok).
  set (s0 := set_prefs w.1 (set_names (prefs w.1) (name_rows w.2))).
  destruct (reapply_spec listed Hlisted applyDeviceName pub name_changed s0 uniform_name (proj1 Hs)) as [Hp Hr].
  apply HQ; simpl; [| |done|by rewrite Hp].
  - split; [done|]. apply reapply_sourced; [apply uniform_name|exact Hs|]. intros p d Hd. by rewrite source_keeps.
  - unfold names_shown. simpl. rewrite Hp. split; [done|].
    eapply each_devices; [exact Hr|]. intros id d Hd. apply name_apply. exact (proj2 Hs id d Hd).
Qed.

(** The start: whatever the memory was, it is read from the tables. *)
Lemma load_invariant io w : admits io -> sound w ->
  wp (LoadPreferences true true true listed scanned io) (fun _ => invariant) invariant w.
Proof.
  intros Hio Hw. unfold LoadPreferences. apply wp_bind.
  assert (wp (reloadDeviceLocationPreferences true listed io 0 false)
    (fun _ w' => sound w' /\ locations (prefs w'.1) = location_rows w'.2) invariant w) as Hl.
  { destruct Hw as [Hok Hs]. unfold reloadDeviceLocationPreferences. simpl. apply wp_bind.
    eapply wp_transact_ok; [done| |intros Hn; split; [by split|]; intros Hr; by destruct (admits_false _ _ Hio Hn Hr)].
    intros _. apply wp_change. simpl.
    destruct (reapply_spec listed Hlisted applyDeviceLocation false place_changed
      (set_prefs w.1 (set_locations (prefs w.1) (location_rows w.2))) uniform_location (proj1 Hs)) as [Hp _].
    rewrite Hp. split; [split; [done|]|done]. apply reapply_sourced; [apply uniform_location|exact Hs|].
    intros p d. by rewrite location_source. }
  eapply wp_mono; [exact Hl| |done]. intros _ w1 [Hw1 Hl1]. apply wp_bind.
  apply wp_reload_names; [done..|]. intros w2 Hw2 Hn2 Hr2 Hp2.
  apply wp_reload_catalog; [done..|]. intros w3 Hw3 Hn3 Hp3. split; [done|]. intros Hrel.
  destruct (Hn3 Hrel) as [? ?]. split_and!; [done..|]. apply Hp3. congruence.
Qed.

(** *** The calls *)

(** A choice for one device: it is shown accordingly, the others as before. *)
Lemma show_invariant w id item d' p t' :
  invariant w -> devices (registry w.1) !! id = Some item ->
  directory_ok t' -> d_ID d' = id -> NormalizeAvailability d' = d' -> d_SourceName d' <> "" ->
  (reliable = true -> current w ->
     names p = name_rows t' /\ locations p = location_rows t' /\ locationHomes p = homes_of t' /\
     name_ok p d' /\ place_ok p d' /\
     forall d, d_ID d <> id -> (name_ok (prefs w.1) d -> name_ok p d) /\ (place_ok (prefs w.1) d -> place_ok p d)) ->
  invariant (publishDevice (set_registry (set_prefs w.1 p) (Upsert (registry w.1) d')) d', t').
Proof.
  intros [[_ [Hwf Hs]] Hc] Hitem Hok Hid Hnorm Hsource Hnew.
  set (s' := set_registry (set_prefs w.1 p) (Upsert (registry w.1) d')).
  destruct (publish_keeps s' d') as [Hr Hp].
  assert (Hdev : devices (registry (publishDevice s' d')) = <[id := d']> (devices (registry w.1))).
  { rewrite Hr. simpl. by rewrite Hnorm, Hid. }
  assert (Hsplit : forall P Q : Device -> Prop, Q d' -> each w.1 P -> (forall d, d_ID d <> id -> P d -> Q d) ->
    each (publishDevice s' d') Q).
  { intros P Q Hd' HP HPQ i d. rewrite Hdev. intros [[<- <-]|[Hne Hd]]%lookup_insert_Some; [done|].
    apply HPQ; [|by apply (HP i)]. destruct (Hwf i d Hd) as [-> _]. congruence. }
  split.
  - unfold sound, sourced. cbn [fst snd]. split; [exact Hok|]. split; [|by eapply Hsplit; [exact Hsource|exact Hs|auto]].
    rewrite Hr. by apply wf_Upsert.
  - intros Hrel. destruct (Hc Hrel) as ([Hn1 Hn2] & Hh & [Hl1 Hl2]).
    destruct (Hnew Hrel (Hc Hrel)) as (Hpn & Hpl & Hph & Hdn & Hdp & Hother).
    unfold current, names_shown, homes_known, places_shown. cbn [fst snd]. rewrite Hp. cbn [prefs set_registry set_prefs].
    split_and!; [done| |done|done|].
    + eapply Hsplit; [exact Hdn|exact Hn2|]. intros d Hd. apply (Hother d Hd).
    + eapply Hsplit; [exact Hdp|exact Hl2|]. intros d Hd. apply (Hother d Hd).
Qed.

Lemma wp_registered id (Q : Device -> world R E -> Prop) (Er : world R E -> Prop) w :
  (forall item, devices (registry w.1) !! id = Some item -> Q item w) -> Er w -> wp (registered id) Q Er w.
Proof. intros HQ HE. unfold registered. apply wp_bind, wp_memory, wp_found; done. Qed.
Lemma wp_show item (Q : Device -> world R E -> Prop) (Er : world R E -> Prop) w :
  Q item (publishDevice (set_registry w.1 (Upsert (registry w.1) item)) item, w.2) -> wp (show item) Q Er w.
Proof. intros HQ. unfold show. by apply wp_bind, wp_change, wp_ret. Qed.

Lemma item_facts w id item : sourced w.1 -> devices (registry w.1) !! id = Some item ->
  d_ID item = id /\ normalized item /\ d_SourceName item <> "".
Proof. intros [Hwf Hs] Hi. destruct (Hwf id item Hi). split_and!; [done..|]. by apply (Hs id). Qed.

(** A new table of names for the device [id], kept in memory as it is stored. *)
Lemma rename_invariant w id item x t' : invariant w -> devices (registry w.1) !! id = Some item ->
  directory_ok t' -> location_rows t' = location_rows w.2 -> homes_of t' = homes_of w.2 ->
  (forall i, i <> id -> x !! i = names (prefs w.1) !! i) -> (names (prefs w.1) = name_rows w.2 -> x = name_rows t') ->
  let p := set_names (prefs w.1) x in
  let d := applyDeviceName p item in
  invariant (publishDevice (set_registry (set_prefs w.1 p) (Upsert (registry w.1) d)) d, t').
Proof.
  intros Hw Hitem Hok Hl Hh Hx Hnames p d. destruct (item_facts w id item (proj2 (proj1 Hw)) Hitem) as (Hid & Hno & Hsrc).
  apply (show_invariant w id item d p t' Hw Hitem Hok); unfold d.
  - rewrite <- Hid. apply name_keeps.
  - by apply uniform_name.
  - by rewrite source_keeps.
  - intros Hrel ([Hn1 Hn2] & Hhk & [Hl1 Hl2]). split_and!; [by apply Hnames|by rewrite Hl|by rewrite Hh| | |].
    + by apply name_apply.
    + unfold place_ok. destruct (name_keeps p item) as [-> ->]. exact (Hl2 id item Hitem).
    + intros d0 Hd0. split; [|done]. intros Hok0. apply (name_local (prefs w.1)); [|done]. by apply Hx.
Qed.

Lemma set_name_invariant io id name w : invariant w ->
  wp (SetDeviceName true io id name) (fun _ => invariant) invariant w.
Proof.
  intros Hw. unfold SetDeviceName. apply wp_bind, wp_registered; [|done]. intros item Hitem. cbn beta.
  apply wp_bind, wp_require; [intros _|done]. apply wp_bind, wp_require; [intros Hname|done].
  apply wp_bind, wp_transact; [|done]. intros t x [= <- <-]. cbn beta. apply wp_bind, wp_change, wp_bind, wp_memory, wp_show.
  bool_prop. apply is_empty_false in H0.
  apply (rename_invariant w id item (<[id:=TrimSpace name]> (names (prefs w.1)))
           (set_name_rows w.2 (<[id:=TrimSpace name]> (name_rows w.2)))); try done.
  - apply directory_names; [apply Hw|]. intros d n [[<- <-]|[_ Hn]]%lookup_insert_Some.
    + split; [apply trim_idem|done].
    + by apply (do_names w.2 (proj1 (proj1 Hw)) d n).
  - intros i Hi. by rewrite lookup_insert_ne.
  - by intros ->.
Qed.

Lemma reset_name_invariant io id w : invariant w ->
  wp (ResetDeviceName true io id) (fun _ => invariant) invariant w.
Proof.
  intros Hw. unfold ResetDeviceName. apply wp_bind, wp_registered; [|done]. intros item Hitem. cbn beta.
  apply wp_bind, wp_require; [intros _|done].
  apply wp_bind, wp_transact; [|done]. intros t x [= <- <-]. cbn beta. apply wp_bind, wp_change, wp_bind, wp_memory, wp_show.
  apply (rename_invariant w id item (delete id (names (prefs w.1)))
           (set_name_rows w.2 (delete id (name_rows w.2)))); try done.
  - apply directory_names; [apply Hw|]. intros d n [_ Hn]%lookup_delete_Some.
    by apply (do_names w.2 (proj1 (proj1 Hw)) d n).
  - intros i Hi. by rewrite lookup_delete_ne.
  - by intros ->.
Qed.

(** The same of places. *)
Lemma replace_invariant w id item x t' : invariant w -> devices (registry w.1) !! id = Some item ->
  directory_ok t' -> name_rows t' = name_rows w.2 -> homes_of t' = homes_of w.2 ->
  (forall i, i <> id -> x !! i = locations (prefs w.1) !! i) ->
  (locations (prefs w.1) = location_rows w.2 -> x = location_rows t') ->
  let p := set_locations (prefs w.1) x in
  let d := applyDeviceLocation p item in
  invariant (publishDevice (set_registry (set_prefs w.1 p) (Upsert (registry w.1) d)) d, t').
Proof.
  intros Hw Hitem Hok Hn Hh Hx Hlocs p d. destruct (item_facts w id item (proj2 (proj1 Hw)) Hitem) as (Hid & Hno & Hsrc).
  apply (show_invariant w id item d p t' Hw Hitem Hok); unfold d.
  - rewrite <- Hid. apply location_keeps.
  - by apply uniform_location.
  - by rewrite location_source.
  - intros Hrel ([Hn1 Hn2] & Hhk & [Hl1 Hl2]). split_and!; [by rewrite Hn|by apply Hlocs|by rewrite Hh| | |].
    + unfold name_ok. destruct (location_keeps p item) as [-> ->]. exact (Hn2 id item Hitem).
    + apply place_apply.
    + intros d0 Hd0. split; [done|]. intros Hok0. apply (place_local (prefs w.1)); [by apply Hx|done|done].
Qed.

(** Reading the directory again is of no consequence. *)
Lemma known_invariant w : invariant w -> invariant (set_prefs w.1 (set_locationHomes (prefs w.1) (homes_of w.2)), w.2).
Proof.
  intros [Hw Hc]. split; [done|]. intros Hrel. destruct (Hc Hrel) as ([Hn1 Hn2] & Hh & [Hl1 Hl2]).
  unfold current, names_shown, homes_known, places_shown in *. simpl. rewrite <- Hh.
  split_and!; [done| |done|done|]; intros id d Hd; [by apply (Hn2 id)|].
  apply (place_local (prefs w.1)); [done|done|]. by apply (Hl2 id).
Qed.

Lemma list_homes_invariant io n (Q : list LocationHome -> world R E -> Prop) w : invariant w ->
  (forall w', invariant w' -> w'.2 = w.2 -> registry w'.1 = registry w.1 -> Q (homes_of w.2) w') ->
  wp (ListDeviceLocationHomes true scanned io n) Q invariant w.
Proof.
  destruct w as [s t]. intros Hw HQ. unfold ListDeviceLocationHomes. apply wp_bind, wp_require; [intros _|done].
  apply wp_bind. eapply wp_transact_ok; [apply list_homes, Hw| |done]. intros _.
  apply wp_bind, wp_change, wp_ret. apply HQ; [by apply (known_invariant (s, t))|done|done].
Qed.

Lemma set_location_invariant io id input w : invariant w ->
  wp (SetDeviceLocation true true scanned io id input) (fun _ => invariant) invariant w.
Proof.
  intros Hw. unfold SetDeviceLocation. apply wp_bind, wp_registered; [|done]. intros item Hitem. cbn beta.
  apply wp_bind, wp_require; [intros _|done]. apply wp_bind.
  case_bool_decide as Hsource; [|case_bool_decide as Hcustom; [|done]].
  - unfold clear_location. apply wp_bind, wp_transact; [|done]. intros t x [= <- <-]. cbn beta.
    apply wp_change, wp_bind, wp_memory, wp_show.
    apply (replace_invariant w id item (delete id (locations (prefs w.1)))
             (set_location_rows w.2 (delete id (location_rows w.2)))); try done.
    + apply directory_unplace, Hw.
    + intros i Hi. by rewrite lookup_delete_ne.
    + by intros ->.
  - apply wp_bind. unfold choose_location. apply wp_bind, wp_require; [intros _|done].
    apply wp_bind, list_homes_invariant; [done|]. intros w1 Hw1 Ht1 Hr1. cbn beta. apply wp_result; [|done].
    intros p Hp. rewrite <- Ht1 in Hp. apply select_placed in Hp as [Hid Hp]; [|apply Hw1].
    unfold store_location. apply wp_bind, wp_transact; [|done]. intros t x. unfold SetDeviceLocationPreference.
    rewrite ensure_placed by done. intros [= <- <-]. cbn beta. apply wp_change, wp_bind, wp_memory, wp_show.
    rewrite Hid. rewrite <- Hr1 in Hitem. apply (replace_invariant w1 id item (<[id:=p]> (locations (prefs w1.1)))
             (set_location_rows w1.2 (<[id:=p]> (location_rows w1.2)))); try done.
    + apply directory_place; [apply Hw1|done|done].
    + intros i Hi. by rewrite lookup_insert_ne.
    + by intros ->.
Qed.

(** A change of the directory itself; the memory follows. *)
Lemma changed_sound w t' : invariant w -> directory_ok t' -> name_rows t' = name_rows w.2 ->
  sound (w.1, t') /\ (reliable = true -> names_shown (w.1, t')).
Proof.
  intros [[_ Hs] Hc] Hok Hn. split; [done|]. intros Hrel. destruct (Hc Hrel) as ([Hn1 Hn2] & _).
  unfold names_shown. simpl. by rewrite Hn.
Qed.

Lemma reload_both io w (Q : unit -> world R E -> Prop) : admits io -> sound w -> (reliable = true -> names_shown w) ->
  (forall w', invariant w' -> Q tt w') ->
  wp (run! reloadDeviceLocationCatalog true listed scanned io 2 true in
      reloadDeviceLocationPreferences true listed io 3 true) Q invariant w.
Proof.
  intros Hio Hw Hn HQ. apply wp_bind, wp_reload_catalog; [done..|]. intros w1 Hw1 Hc1 _.
  eapply wp_mono; [by apply wp_reload_places| |done]. intros [] w2. apply HQ.
Qed.

(** Both reloads in front of the rest of a call. *)
Lemma wp_assoc {A B C} (c : call R E A) (d : call R E B) (k : call R E C) (Q : C -> world R E -> Prop) Er w :
  wp (run! (run! c in d) in k) Q Er w -> wp (run! c in (run! d in k)) Q Er w.
Proof. unfold wp. rewrite !run_bind. destruct (run c w) as [w' [x|e]]; [by rewrite run_bind|done]. Qed.

Lemma wp_homes (io : nat -> bool) (n : nat) (Q : list LocationHome -> world R E -> Prop) w :
  invariant w -> Q (homes_of w.2) w -> wp (transact (io n) (ListLocationHomes scanned)) Q invariant w.
Proof.
  destruct w as [s t]. intros Hw HQ. eapply wp_transact_ok; [apply list_homes, Hw|done|done].
Qed.

Lemma save_home_invariant io now id name w : admits io -> invariant w ->
  wp (SaveDeviceLocationHome true true listed scanned io now id name) (fun _ => invariant) invariant w.
Proof.
  intros Hio Hw. unfold SaveDeviceLocationHome. apply wp_bind, wp_require; [intros _|done].
  apply wp_bind, wp_require; [intros _|done]. apply wp_bind, wp_homes; [done|].
  set (i := if is_empty id then _ else _). apply wp_bind, wp_require; [intros _|done].
  apply wp_bind, wp_require; [intros Hfree%negb_true_iff|done].
  apply wp_bind, wp_transact; [|done]. intros t' x Hsave. cbn beta.
  assert (Hnames : name_rows t' = name_rows w.2).
  { revert Hsave. unfold SaveLocationHome. destruct (negb _); [|done]. by destruct (home_rows w.2 !! i); intros [= <- <-]. }
  apply save_home in Hsave as [Hok _]; [|apply Hw|].
  - destruct (changed_sound w t' Hw Hok Hnames) as [Hs Hn].
    apply wp_assoc, wp_bind, reload_both; [done..|]. intros w' Hw'. apply wp_bind, wp_homes; [done|]. by apply wp_found.
  - intros j n Hj Hne. destruct (same_name n (TrimSpace name)) eqn:Hs; [|done]. exfalso.
    apply not_true_iff_false in Hfree. apply Hfree, existsb_exists.
    exists (MkLocationHome j n (rooms_of w.2 j)). split; [by apply list_elem_of_In, elem_homes_of|].
    simpl. rewrite Hs, bool_decide_eq_false_2 by done. done.
Qed.

Lemma delete_home_invariant io id w : admits io -> invariant w ->
  wp (DeleteDeviceLocationHome true listed scanned io id) (fun _ => invariant) invariant w.
Proof.
  intros Hio Hw. unfold DeleteDeviceLocationHome. apply wp_bind, wp_require; [intros _|done].
  apply wp_bind, wp_transact; [|done]. intros t' x Hdel. cbn beta.
  assert (Hnames : name_rows t' = name_rows w.2).
  { revert Hdel. unfold DeleteLocationHome. destruct (present _); [|done]. destruct (negb _); [|done]. by intros [= <- <-]. }
  apply delete_home in Hdel as (Hok & _ & Hl); [|apply Hw]. destruct (changed_sound w t' Hw Hok Hnames) as [Hs Hn].
  apply wp_reload_catalog; [done..|]. intros w' Hw' Hc Hp. split; [done|]. intros Hrel. destruct (Hc Hrel).
  split_and!; [done..|]. apply Hp. simpl. rewrite Hl. apply (proj2 Hw Hrel).
Qed.

(** Identifiers the service draws are not empty. *)
Lemma custom_nonempty kind values : customLocationID kind values <> "".
Proof. unfold customLocationID. done. Qed.
Lemma drawn_nonempty id kind values : (if is_empty id then customLocationID kind values else id) <> "".
Proof. destruct (is_empty id) eqn:He; [apply custom_nonempty|by apply is_empty_false]. Qed.

Lemma save_room_invariant io now id homeID name w : admits io -> invariant w ->
  wp (SaveDeviceLocationRoom true true listed scanned io now id homeID name) (fun _ => invariant) invariant w.
Proof.
  intros Hio Hw. unfold SaveDeviceLocationRoom. apply wp_bind, wp_require; [intros _|done].
  apply wp_bind, wp_require; [intros _|done]. apply wp_bind, wp_homes; [done|]. apply wp_bind.
  pose proof (drawn_nonempty id "room" [homeID; TrimSpace name; show_Z (UnixNano now)]) as Hi.
  set (i := if is_empty id then _ else _) in *.
  apply wp_found; [|done]. rewrite find_home. intros home Hhome. apply fmap_Some in Hhome as (n & Hn & ->).
  apply wp_bind, wp_require; [intros _|done]. apply wp_bind, wp_require; [intros Hfree%negb_true_iff|done].
  apply wp_bind, wp_transact; [|done]. intros t' x Hsave. cbn beta.
  assert (Hnames : name_rows t' = name_rows w.2).
  { revert Hsave. unfold SaveLocationRoom. destruct (present _); [|done]. destruct (negb _); [|done].
    destruct (room_rows w.2 !! _); [destruct (bool_decide _); [|done]|]; by intros [= <- <-]. }
  apply save_room in Hsave as [Hok _]; [|apply Hw|exact Hi|].
  - destruct (changed_sound w t' Hw Hok Hnames) as [Hs Hn'].
    apply wp_assoc, wp_bind, reload_both; [done..|]. intros w' Hw'. by apply wp_ret.
  - simpl. intros j r Hj Hne Hh. destruct (same_name (lr_Name r) (TrimSpace name)) eqn:Hs; [|done]. exfalso.
    apply not_true_iff_false in Hfree. apply Hfree, existsb_exists. simpl.
    destruct (do_room w.2 (proj1 (proj1 Hw)) j r Hj) as [Hid _].
    exists r. split; [apply list_elem_of_In, elem_rooms_of; [apply Hw|by rewrite Hid]|].
    rewrite Hs, Hid, bool_decide_eq_false_2 by done. done.
Qed.

Lemma delete_room_invariant io homeID id w : admits io -> invariant w ->
  wp (DeleteDeviceLocationRoom true listed scanned io homeID id) (fun _ => invariant) invariant w.
Proof.
  intros Hio Hw. unfold DeleteDeviceLocationRoom. apply wp_bind, wp_require; [intros _|done].
  apply wp_bind, wp_homes; [done|]. apply wp_bind, wp_require; [intros _|done].
  apply wp_bind, wp_transact; [|done]. intros t' x Hdel. cbn beta.
  assert (Hnames : name_rows t' = name_rows w.2).
  { revert Hdel. unfold DeleteLocationRoom. destruct (present _); [|done]. destruct (negb _); [|done]. by intros [= <- <-]. }
  apply delete_room in Hdel as (Hok & Hl); [|apply Hw]. destruct (changed_sound w t' Hw Hok Hnames) as [Hs Hn].
  apply wp_reload_catalog; [done..|]. intros w' Hw' Hc Hp. split; [done|]. intros Hrel. destruct (Hc Hrel).
  split_and!; [done..|]. apply Hp. simpl. rewrite Hl. apply (proj2 Hw Hrel).
Qed.

(** ** Runs *)

Inductive LocationCall :=
| CallSetName (id name : string)
| CallResetName (id : string)
| CallSetLocation (id : string) (input : DeviceLocationInput)
| CallListHomes
| CallSaveHome (now : Time) (id name : string)
| CallDeleteHome (id : string)
| CallSaveRoom (now : Time) (id homeID name : string)
| CallDeleteRoom (homeID id : string).

Definition exec (io : nat -> bool) (c : LocationCall) : call R E unit :=
  match c with
  | CallSetName id name => run! SetDeviceName true io id name in ret tt
  | CallResetName id => run! ResetDeviceName true io id in ret tt
  | CallSetLocation id input => run! SetDeviceLocation true true scanned io id input in ret tt
  | CallListHomes => run! ListDeviceLocationHomes true scanned io 0 in ret tt
  | CallSaveHome now id name => run! SaveDeviceLocationHome true true listed scanned io now id name in ret tt
  | CallDeleteHome id => DeleteDeviceLocationHome true listed scanned io id
  | CallSaveRoom now id homeID name => run! SaveDeviceLocationRoom true true listed scanned io now id homeID name in ret tt
  | CallDeleteRoom homeID id => DeleteDeviceLocationRoom true listed scanned io homeID id
  end.

Definition no_locations : LocationTables := MkLocationTables ∅ ∅ ∅ ∅.

(** From an empty database: the hub starts (again) and reads its preferences, calls are
    executed one after another, and the other handlers run between them. *)
Inductive location_run : world R E -> Prop :=
| run_start io s : admits io -> sourced s ->
    location_run (run (LoadPreferences true true true listed scanned io) (s, no_locations)).1
| run_restart io s w : location_run w -> admits io -> sourced s ->
    location_run (run (LoadPreferences true true true listed scanned io) (s, w.2)).1
| run_call io c w : location_run w -> admits io -> location_run (run (exec io c) w).1
| run_other w s' : location_run w -> rest w.1 s' -> location_run (s', w.2).

Lemma wp_final {A} (c : call R E A) w : wp c (fun _ => invariant) invariant w -> invariant (run c w).1.
Proof. unfold wp. by destruct (run c w) as [w' [x|e]]. Qed.

Lemma wp_done {A} (c : call R E A) w :
  wp c (fun _ => invariant) invariant w -> invariant (run (run! c in ret tt : call R E unit) w).1.
Proof. intros Hc. apply wp_final, wp_bind. eapply wp_mono; [exact Hc| |done]. intros x w' Hw. by apply wp_ret. Qed.

Lemma exec_invariant io c w : admits io -> invariant w -> invariant (run (exec io c) w).1.
Proof.
  intros Hio Hw. destruct c; simpl.
  - by apply wp_done, set_name_invariant.
  - by apply wp_done, reset_name_invariant.
  - by apply wp_done, set_location_invariant.
  - apply wp_done. apply list_homes_invariant; [done|]. by intros.
  - by apply wp_done, save_home_invariant.
  - by apply wp_final, delete_home_invariant.
  - by apply wp_done, save_room_invariant.
  - by apply wp_final, delete_room_invariant.
Qed.

Lemma undisturbed_invariant w s' : invariant w -> undisturbed w.1 s' -> invariant (s', w.2).
Proof.
  intros [[Hok [Hwf Hs]] Hc] (Hp & Hwf' & Hd). split.
  - split; [done|]. split; [done|]. intros id d Hid. destruct (Hd id d Hid) as [[? _]|(d0 & Hd0 & Hn & _)]; [done|].
    injection Hn as _ Hsrc _. rewrite Hsrc. by apply (Hs id).
  - intros Hrel. destruct (Hc Hrel) as ([Hn1 Hn2] & Hh & [Hl1 Hl2]).
    unfold current, names_shown, homes_known, places_shown. simpl. rewrite Hp.
    split_and!; [done| |done|done|]; intros id d Hid;
      (destruct (Hd id d Hid) as [(_ & ? & ?)|(d0 & Hd0 & Hn & Hl)]; [done|]);
      (assert (d_ID d = d_ID d0) as Hids by (destruct (Hwf' id d Hid) as [-> _], (Hwf id d0 Hd0) as [-> _]; done)).
    + unfold name_ok. rewrite Hn, Hids. exact (Hn2 id d0 Hd0).
    + unfold place_ok. rewrite Hl, Hids. exact (Hl2 id d0 Hd0).
Qed.

Lemma empty_directory : directory_ok no_locations.
Proof. constructor; simpl; intros; by simplify_map_eq. Qed.

Lemma run_invariant w : location_run w -> invariant w.
Proof.
  induction 1 as [io s Hio Hs|io s w _ IH Hio Hs|io c w _ IH Hio|w s' _ IH Hu].
  - apply wp_final, load_invariant; [done|]. split; [apply empty_directory|done].
  - apply wp_final, load_invariant; [done|]. split; [apply IH|done].
  - by apply exec_invariant.
  - apply undisturbed_invariant; [done|]. by apply rest_undisturbed; [apply IH|].
Qed.
End Invariant.

Section Theorems.
Context `{UnicodeLower} {R E : Type} `{HR : PriorityResolver R}.
Variable listed : gmap string Device -> list string.
Variable scanned : gmap string LocationPreference -> list LocationPreference.
Hypothesis Hlisted : forall m, range_of m (listed m).
Hypothesis Hscanned : forall m p, p ∈ scanned m -> exists d, m !! d = Some p.

End Theorems.

(** ** The start of the hub *)

Section Start.
Context {R E : Type} `{PriorityResolver R} `{UnicodeLower}.

Lemma disable_undisturbed env (s : DeviceService R E) id :
  registry_wf (registry s) -> undisturbed s (disable_registered env s id).
Proof.
  intros Hwf. unfold disable_registered. destruct (DeviceRegistry.Get (registry s) id) as [d|] eqn:Hd;
    [|by apply undisturbed_aside].
  destruct (StateStore.MarkDeviceUnavailable _ _ _ _ _) as [st l].
  set (d' := SetOnline (set_Disabled d true) false).
  assert (same_display d d') as (Hid & Hn & Hl)
    by (eapply same_display_trans; [apply same_disabled|apply same_online]).
  apply (undisturbed_upsert s _ d'); [done|done|done|right]. exists d. rewrite Hid.
  by destruct (Hwf id d Hd) as [-> _].
Qed.

Lemma undisturbed_sourced (s s' : DeviceService R E) : sourced s -> undisturbed s s' -> sourced s'.
Proof.
  intros [_ Hs] (_ & Hwf & Hd). split; [done|]. intros id d Hid.
  destruct (Hd id d Hid) as [[? _]|(d0 & Hd0 & Hn & _)]; [done|]. injection Hn as _ Hsrc _. rewrite Hsrc. by apply (Hs id).
Qed.

(** Taking the disabled devices offline leaves a hub that can start. *)
Lemma load_disabled_sourced env ids (s : DeviceService R E) : sourced s -> sourced (load_disabled env ids s).
Proof.
  intros Hs. unfold load_disabled. assert (sourced (set_disabled s (list_to_set ids ∪ disabled s))) as Hs' by exact Hs.
  revert Hs'. generalize (set_disabled s (list_to_set ids ∪ disabled s)). clear s Hs. induction ids as [|id ids IH]; intros s Hs; [done|].
  simpl. apply IH. eapply undisturbed_sourced; [exact Hs|]. apply disable_undisturbed, Hs.
Qed.

Lemma load_starts env listed scanned reliable io ids (s : DeviceService R E) :
  admits reliable io -> sourced s ->
  location_run listed scanned reliable
    (run (LoadDevicePreferences env true true true true listed scanned io (Some ids)) (s, no_locations)).1.
Proof.
  intros Hio Hs. change (location_run listed scanned reliable
    (run (LoadPreferences true true true listed scanned io) (load_disabled env ids s, no_locations)).1).
  apply run_start; [done|]. by apply load_disabled_sourced.
Qed.
End Start.

(** ** A concrete hub *)

Module LocationExample.
#[local] Existing Instance ex_lower.

Definition lamp : Device := applyDeviceName no_preferences ex_switch.
Definition hub : DeviceService StaticPriorityResolver string :=
  set_registry ex_hub0 (NewDeviceRegistry [lamp]).
Definition listed (m : gmap string Device) : list string := some_range m.
Definition scanned (m : gmap string LocationPreference) : list LocationPreference := (map_to_list m).*2.
Definition always (n : nat) : bool := true.

Definition started := (run (LoadPreferences true true true listed scanned always) (hub, no_locations)).1.
Definition after (c : LocationCall) (w : world StaticPriorityResolver string) := (run (exec listed scanned always c) w).1.
Definition lake : string := customLocationID "home" ["Lake house"; show_Z (UnixNano 0)].
Definition porch : string := customLocationID "room" [lake; "Porch"; show_Z (UnixNano 0)].

Definition furnished :=
  after (CallSaveRoom 0 "" lake " Porch ") (after (CallSaveHome 0 "" "Lake house") started).
Definition placed_lamp :=
  after (CallSetName "lamp-1" "Porch light")
    (after (CallSetLocation "lamp-1" (MkLocationInput LocationModeCustom lake porch)) furnished).

Lemma listed_ok m : range_of m (listed m).
Proof. apply range_of_some_range. Qed.
Lemma scanned_ok m p : p ∈ scanned m -> exists d, m !! d = Some p.
Proof.
  unfold scanned. rewrite list_elem_of_fmap. intros ([d q] & -> & Hin%elem_of_map_to_list). by exists d.
Qed.

Lemma hub_sourced : sourced hub.
Proof.
  assert (devices (registry hub) = {["lamp-1" := lamp]}) as Hr by (vm_compute; reflexivity).
  split; intros id d; rewrite Hr; intros [<- <-]%lookup_singleton_Some; [split; by vm_compute|by vm_compute].
Qed.

Lemma started_run : location_run listed scanned true started.
Proof. apply run_start; [done|exact hub_sourced]. Qed.
Lemma furnished_run : location_run listed scanned true furnished.
Proof. apply run_call; [|done]. apply run_call; [apply started_run|done]. Qed.
Lemma placed_run : location_run listed scanned true placed_lamp.
Proof. apply run_call; [|done]. apply run_call; [apply furnished_run|done]. Qed.

(** The home gets a new name: the lamp follows, in the table and in the memory. *)
Definition renamed := after (CallSaveHome 0 lake "Cabin") placed_lamp.
Lemma renamed_run : location_run listed scanned true renamed.
Proof. apply run_call; [apply placed_run|done]. Qed.

Definition refused := after (CallDeleteHome lake) renamed.

Definition shown_lamp : Device := default lamp (devices (registry renamed.1) !! "lamp-1").
Lemma shown_lamp_eq : devices (registry renamed.1) !! "lamp-1" = Some shown_lamp.
Proof. vm_compute. reflexivity. Qed.
Lemma shown_lamp_fields :
  (d_Name shown_lamp, d_SourceName shown_lamp) = ("Porch light", "Lamp")
  /\ (d_HomeName shown_lamp, d_RoomName shown_lamp) = ("Cabin", "Porch")
  /\ location_rows renamed.2 !! "lamp-1" = Some (MkLocationPreference "lamp-1" lake "Cabin" porch "Porch").
Proof. split_and!; vm_compute; reflexivity. Qed.

(** Between the two halves of a choice, the home gets a new name: the choice is stored,
    and shown, with the old one. *)
Definition chosen := run (choose_location true scanned always "lamp-1" (MkLocationInput LocationModeCustom lake "")) furnished.
Definition overtaken := after (CallSaveHome 0 lake "Cabin") chosen.1.
Definition stale (p : LocationPreference) := (run (store_location always "lamp-1" p) overtaken).1.
Lemma stale_choice : exists p, chosen.2 = Ok p /\ lo_HomeName p = "Lake house" /\
  location_rows (stale p).2 !! "lamp-1" = Some p /\ home_rows (stale p).2 !! lake = Some "Cabin".
Proof. exists (MkLocationPreference "lamp-1" lake "Lake house" "" ""). split_and!; vm_compute; reflexivity. Qed.

Lemma renamed_pair : location_run listed scanned true (renamed.1, renamed.2).
Proof. rewrite <- surjective_pairing. exact renamed_run. Qed.
End LocationExample.

(** A home in use is not deleted. *)
Lemma home_in_use_kept : home_rows LocationExample.refused.2 !! LocationExample.lake = Some "Cabin".
Proof. vm_compute. reflexivity. Qed.

