(* ===== verification/LocationTraffic.v ===== *)
(** * The directory of homes while calls overlap

    The calls of Locations.v act by act, in any order of the acts of different calls, with
    whatever the memory of the service holds at each: what the tables keep then. *)

From S2P Require Import Prelude Float64 DomainState StateStore CommandTracker DeviceRegistry.
From S2P Require Import DeviceModel Lookup FloatText Text Sha256 LogicalRuntime DeviceProjection DeviceService Auth.
From S2P Require Import Locations LocationDirectory LocationRuns.

#[local] Instance room_eq_dec : EqDecision LocationRoom.
Proof. solve_decision. Defined.

Section Traffic.
Context `{UnicodeLower} {R E : Type}.
Variable listed : gmap string Device -> list string.
Variable scanned : gmap string LocationPreference -> list LocationPreference.
Hypothesis Hscanned : forall m p, p ∈ scanned m -> exists d, m !! d = Some p.
Implicit Types (t : LocationTables).

(** The homes and the rooms there are, and what a call that relies on them knows of them. *)
Definition places t : gmap string string * gmap string LocationRoom := (home_rows t, room_rows t).
Definition knowledge : Type := option (gmap string string * gmap string LocationRoom).
Definition agrees (k : knowledge) t : Prop := forall x, k = Some x -> places t = x.
Definition now (k : knowledge) t : knowledge := (fun _ => places t) <$> k.

(** Each act of the call keeps a consistent directory consistent, as long as nothing but the
    call itself changes the homes and the rooms it knows. *)
Fixpoint keeps {A} (k : knowledge) (c : call R E A) (Q : knowledge -> A -> Prop) : Prop :=
  match c with
  | Answer (Ok x) => Q k x
  | Answer (Err _) => True
  | Act next go => forall w, directory_ok w.2 -> agrees k w.2 ->
      directory_ok (next w).2 /\ keeps (now k (next w).2) (go w) Q
  end.

Lemma now_same k t : agrees k t -> now k t = k.
Proof. destruct k as [x|]; [|done]. intros Hk. cbn. by rewrite (Hk x eq_refl). Qed.
Lemma keeps_bind {A B} (c : call R E A) (f : A -> call R E B) Q : forall k,
  keeps k c (fun k x => keeps k (f x) Q) -> keeps k (bind c f) Q.
Proof.
  induction c as [[x|e]|next go IH]; intros k Hc; [exact Hc|done|]. cbn [bind keeps] in *. intros w Hok Hk.
  destruct (Hc w Hok Hk) as [Hok' Hgo]. split; [done|]. by apply IH.
Qed.
Lemma keeps_weaken {A} (c : call R E A) (Q Q' : knowledge -> A -> Prop) : (forall k x, Q k x -> Q' k x) -> forall k, keeps k c Q -> keeps k c Q'.
Proof.
  intros HQ. induction c as [[x|e]|next go IH]; intros k Hc; [by apply HQ|done|]. intros w Hok Hk.
  destruct (Hc w Hok Hk) as [Hok' Hgo]. split; [done|]. by apply IH.
Qed.
Lemma keeps_memory k (Q : knowledge -> DeviceService R E -> Prop) : (forall s, Q k s) -> keeps k memory Q.
Proof. intros HQ w Hok Hk. split; [done|]. rewrite now_same by done. apply HQ. Qed.
Lemma keeps_change k f (Q : knowledge -> unit -> Prop) : Q k tt -> keeps k (change (R := R) (E := E) f) Q.
Proof. intros HQ w Hok Hk. split; [done|]. cbn [snd]. by rewrite now_same. Qed.
Lemma keeps_transact {A} k io (c : transaction A) (Q : knowledge -> A -> Prop) :
  (forall t t' x, directory_ok t -> agrees k t -> c t = Ok (t', x) -> directory_ok t' /\ Q (now k t') x) ->
  keeps k (transact (R := R) (E := E) io c) Q.
Proof.
  intros Hc w Hok Hk. unfold executed. destruct io; [|done]. destruct (c w.2) as [[t x]|e] eqn:Hx; [|done]. by apply (Hc w.2).
Qed.
Lemma keeps_require k b e (Q : knowledge -> unit -> Prop) : (b = true -> Q k tt) -> keeps k (require (R := R) (E := E) b e) Q.
Proof. destruct b; simpl; auto. Qed.
Lemma keeps_found {A} k (x : option A) e (Q : knowledge -> A -> Prop) : (forall y, x = Some y -> Q k y) -> keeps k (found (R := R) (E := E) x e) Q.
Proof. destruct x; simpl; auto. Qed.
Lemma keeps_result {A} k (x : result LocationError A) (Q : knowledge -> A -> Prop) : (forall y, x = Ok y -> Q k y) -> keeps k (of_result (R := R) (E := E) x) Q.
Proof. destruct x; simpl; auto. Qed.
Lemma keeps_registered k id (Q : knowledge -> Device -> Prop) : (forall d, Q k d) -> keeps k (registered (R := R) (E := E) id) Q.
Proof. intros HQ. apply keeps_bind, keeps_memory. intros s. apply keeps_found. intros d _. apply HQ. Qed.
Lemma keeps_show k d (Q : knowledge -> Device -> Prop) : Q k d -> keeps k (show (R := R) (E := E) d) Q.
Proof. intros HQ. by apply keeps_bind, keeps_change. Qed.

(** Listing the homes, and what is read to load the preferences. *)
Lemma keeps_homes k io (Q : knowledge -> list LocationHome -> Prop) :
  (forall t, directory_ok t -> agrees k t -> Q k (homes_of t)) -> keeps k (transact (R := R) (E := E) io (ListLocationHomes scanned)) Q.
Proof.
  intros HQ. apply keeps_transact. intros t t' x Hok Hk. rewrite (list_homes scanned Hscanned t Hok). intros [= <- <-].
  split; [done|]. rewrite now_same by done. by apply HQ.
Qed.
Lemma keeps_catalog k io n publish (Q : knowledge -> unit -> Prop) : Q k tt ->
  keeps k (reloadDeviceLocationCatalog (R := R) (E := E) true listed scanned io n publish) Q.
Proof. intros HQ. apply keeps_bind, keeps_homes. intros t _ _. by apply keeps_change. Qed.
Lemma keeps_choices k io n publish (Q : knowledge -> unit -> Prop) : Q k tt ->
  keeps k (reloadDeviceLocationPreferences (R := R) (E := E) true listed io n publish) Q.
Proof.
  intros HQ. apply keeps_bind, keeps_transact. intros t t' x Hok Hk [= <- <-]. split; [done|]. rewrite now_same by done. by apply keeps_change.
Qed.
Lemma keeps_names k io n publish (Q : knowledge -> unit -> Prop) : Q k tt ->
  keeps k (reloadDeviceNamePreferences (R := R) (E := E) true listed io n publish) Q.
Proof.
  intros HQ. apply keeps_bind, keeps_transact. intros t t' x Hok Hk [= <- <-]. split; [done|]. rewrite now_same by done. by apply keeps_change.
Qed.
Lemma keeps_list k io n (Q : knowledge -> list LocationHome -> Prop) :
  (forall t, directory_ok t -> agrees k t -> Q k (homes_of t)) -> keeps k (ListDeviceLocationHomes (R := R) (E := E) true scanned io n) Q.
Proof.
  intros HQ. apply keeps_bind, keeps_require. intros _. apply keeps_bind, keeps_homes. intros t Hok Hk.
  apply keeps_bind, keeps_change. by apply HQ.
Qed.

(** *** The calls *)

Lemma name_keeps_directory k io id name : keeps k (SetDeviceName (R := R) (E := E) true io id name) (fun _ _ => True).
Proof.
  apply keeps_bind, keeps_registered. intros item. apply keeps_bind, keeps_require. intros _.
  apply keeps_bind, keeps_require. intros Hname. apply andb_true_iff in Hname as [Hne%negb_true_iff%is_empty_false _].
  apply keeps_bind, keeps_transact. intros t t' x Hok Hk [= <- <-]. split.
  { apply directory_names; [done|]. intros d n [[<- <-]|[_ Hn]]%lookup_insert_Some; [split; [apply trim_idem|done]|by apply (do_names t Hok d n)]. }
  apply keeps_bind, keeps_change, keeps_bind, keeps_memory. intros s. by apply keeps_show.
Qed.
Lemma reset_keeps k io id : keeps k (ResetDeviceName (R := R) (E := E) true io id) (fun _ _ => True).
Proof.
  apply keeps_bind, keeps_registered. intros item. apply keeps_bind, keeps_require. intros _.
  apply keeps_bind, keeps_transact. intros t t' x Hok Hk [= <- <-]. split.
  { apply directory_names; [done|]. intros d n [_ Hn]%lookup_delete_Some. by apply (do_names t Hok d n). }
  apply keeps_bind, keeps_change, keeps_bind, keeps_memory. intros s. by apply keeps_show.
Qed.

Lemma placed_places t t' p : places t' = places t -> placed t p -> placed t' p.
Proof. unfold places, placed. by intros [= -> ->]. Qed.

Lemma location_keeps_directory k io id input : (in_Mode input = LocationModeCustom -> is_Some k) ->
  keeps k (SetDeviceLocation (R := R) (E := E) true true scanned io id input) (fun _ _ => True).
Proof.
  intros Hkn. apply keeps_bind, keeps_registered. intros item. apply keeps_bind, keeps_require. intros _.
  apply keeps_bind. eapply (keeps_weaken _ (fun _ _ => True)).
  { intros k' [] _. apply keeps_bind, keeps_memory. intros s. by apply keeps_show. }
  case_bool_decide as Hsource; [|case_bool_decide as Hcustom; [|done]].
  - apply keeps_bind, keeps_transact. intros t t' x Hok Hk [= <- <-]. split; [by apply directory_unplace|by apply keeps_change].
  - apply keeps_bind, keeps_bind, keeps_require. intros _. apply keeps_bind, keeps_list. intros t Hok Hk. apply keeps_result. intros p Hp.
    apply select_placed in Hp as [Hid Hp]; [|done]. apply keeps_bind, keeps_transact. intros t1 t2 x Hok1 Hk1.
    destruct (Hkn Hcustom) as [y ->]. assert (placed t1 p) as Hp1.
    { apply (placed_places t); [|done]. by rewrite (Hk y eq_refl), (Hk1 y eq_refl). }
    unfold SetDeviceLocationPreference. rewrite (ensure_placed _ _ Hp1). intros [= <- <-]. split; [by apply directory_place|by apply keeps_change].
Qed.

Lemma home_keeps k io time id name : is_Some k ->
  keeps k (SaveDeviceLocationHome (R := R) (E := E) true true listed scanned io time id name) (fun _ _ => True).
Proof.
  intros [y Hy]. apply keeps_bind, keeps_require. intros _. apply keeps_bind, keeps_require. intros _.
  apply keeps_bind, keeps_homes. intros t Hok Hk. cbv zeta. set (i := if is_empty id then customLocationID _ _ else id).
  apply keeps_bind, keeps_require. intros _. apply keeps_bind, keeps_require. intros Hfree%negb_true_iff.
  apply keeps_bind, keeps_transact. intros t1 t2 x Hok1 Hk1 Hsave. apply save_home in Hsave as [Hok2 _]; [|done|].
  - split; [done|]. apply keeps_bind, keeps_catalog, keeps_bind, keeps_choices, keeps_bind, keeps_homes. intros t3 _ _. by apply keeps_found.
  - intros j n Hj Hne. assert (home_rows t1 = home_rows t) as Hsame.
    { pose proof (eq_trans (Hk1 y Hy) (eq_sym (Hk y Hy))) as Heq. by injection Heq. }
    rewrite Hsame in Hj. destruct (same_name n (TrimSpace name)) eqn:Hs; [|done]. exfalso.
    apply not_true_iff_false in Hfree. apply Hfree, existsb_exists.
    exists (MkLocationHome j n (rooms_of t j)). split; [by apply list_elem_of_In, elem_homes_of|].
    simpl. by rewrite Hs, bool_decide_eq_false_2.
Qed.
Lemma home_deleted_keeps k io id : keeps k (DeleteDeviceLocationHome (R := R) (E := E) true listed scanned io id) (fun _ _ => True).
Proof.
  apply keeps_bind, keeps_require. intros _. apply keeps_bind, keeps_transact. intros t t' x Hok Hk Hdel.
  apply delete_home in Hdel as (Hok' & _); [|done]. split; [done|]. by apply keeps_catalog.
Qed.

Lemma room_keeps k io time id homeID name : is_Some k ->
  keeps k (SaveDeviceLocationRoom (R := R) (E := E) true true listed scanned io time id homeID name) (fun _ _ => True).
Proof.
  intros [y Hy]. apply keeps_bind, keeps_require. intros _. apply keeps_bind, keeps_require. intros _.
  apply keeps_bind, keeps_homes. intros t Hok Hk. apply keeps_bind.
  pose proof (drawn_nonempty id "room" [homeID; TrimSpace name; show_Z (UnixNano time)]) as Hi.
  set (i := if is_empty id then _ else _) in *.
  apply keeps_found. rewrite find_home. intros home Hhome. apply fmap_Some in Hhome as (n & Hn & ->).
  apply keeps_bind, keeps_require. intros _. apply keeps_bind, keeps_require. intros Hfree%negb_true_iff.
  apply keeps_bind, keeps_transact. intros t1 t2 x Hok1 Hk1 Hsave. apply save_room in Hsave as [Hok2 _]; [|done|exact Hi|].
  - split; [done|]. by apply keeps_bind, keeps_catalog, keeps_bind, keeps_choices.
  - simpl. intros j r Hj Hne Hh. assert (room_rows t1 = room_rows t) as Hsame.
    { pose proof (eq_trans (Hk1 y Hy) (eq_sym (Hk y Hy))) as Heq. by injection Heq. }
    rewrite Hsame in Hj. destruct (same_name (lr_Name r) (TrimSpace name)) eqn:Hs; [|done]. exfalso.
    apply not_true_iff_false in Hfree. apply Hfree, existsb_exists. simpl. destruct (do_room t Hok j r Hj) as [Hid _].
    exists r. split; [apply list_elem_of_In, elem_rooms_of; [done|by rewrite Hid]|]. by rewrite Hs, Hid, bool_decide_eq_false_2.
Qed.
Lemma room_deleted_keeps k io homeID id : keeps k (DeleteDeviceLocationRoom (R := R) (E := E) true listed scanned io homeID id) (fun _ _ => True).
Proof.
  apply keeps_bind, keeps_require. intros _. apply keeps_bind, keeps_homes. intros t Hok Hk. apply keeps_bind, keeps_require. intros _.
  apply keeps_bind, keeps_transact. intros t1 t2 x Hok1 Hk1 Hdel. apply delete_room in Hdel as (Hok' & _); [|done].
  split; [done|]. by apply keeps_catalog.
Qed.
Lemma load_keeps k io : keeps k (LoadPreferences (R := R) (E := E) true true true listed scanned io) (fun _ _ => True).
Proof. by apply keeps_bind, keeps_choices, keeps_bind, keeps_names, keeps_catalog. Qed.

(** ** Without knowledge *)

(** What every transaction keeps by itself. *)
Record separate t : Prop := {
  se_homes : forall i j n, home_rows t !! i = Some n -> home_rows t !! j = Some n -> i = j;
  se_room : forall i r, room_rows t !! i = Some r -> lr_ID r = i /\ is_Some (home_rows t !! lr_HomeID r);
  se_rooms : forall i j r q, room_rows t !! i = Some r -> room_rows t !! j = Some q ->
    lr_HomeID r = lr_HomeID q -> lr_Name r = lr_Name q -> i = j;
}.
Definition lasting {A} (c : transaction A) : Prop := forall t t' x, separate t -> c t = Ok (t', x) -> separate t'.

Lemma separate_places t t' : places t' = places t -> separate t -> separate t'.
Proof. intros [= Eh Er] []. constructor; rewrite ?Eh, ?Er; done. Qed.
Lemma home_free t id name i n : home_taken t id name = false -> home_rows t !! i = Some n -> n = name -> i = id.
Proof.
  intros Hf Hi ->. pose proof (proj1 (free_rows _ _) Hf i name Hi) as Hn. simpl in Hn. rewrite (bool_decide_eq_true_2 (name = name)) in Hn by done.
  rewrite andb_true_r in Hn. by apply negb_false_iff, bool_decide_eq_true in Hn.
Qed.
Lemma room_free t id home name i r : room_taken t id home name = false -> room_rows t !! i = Some r -> lr_HomeID r = home -> lr_Name r = name -> i = id.
Proof.
  intros Hf Hi <- <-. pose proof (proj1 (free_rows _ _) Hf i r Hi) as Hn. simpl in Hn.
  rewrite (bool_decide_eq_true_2 (lr_HomeID r = lr_HomeID r)), (bool_decide_eq_true_2 (lr_Name r = lr_Name r)), !andb_true_r in Hn by done.
  by apply negb_false_iff, bool_decide_eq_true in Hn.
Qed.
Lemma separate_home t id name : separate t -> home_taken t id name = false -> separate (set_home_rows t (<[id := name]> (home_rows t))).
Proof.
  intros [Hh Hr Hrs] Hf. constructor; simpl; [| |done].
  - intros i j n [[<- <-]|[_ Hi]]%lookup_insert_Some [[<- Hn]|[_ Hj]]%lookup_insert_Some; [done| | |by eapply Hh].
    + symmetry. by eapply home_free.
    + subst n. by eapply home_free.
  - intros i r Hi. destruct (Hr i r Hi) as [? ?]. split; [done|]. rewrite lookup_insert_is_Some'. by right.
Qed.
Lemma separate_room t room : separate t -> room_taken t (lr_ID room) (lr_HomeID room) (lr_Name room) = false -> is_Some (home_rows t !! lr_HomeID room) ->
  separate (set_room_rows t (<[lr_ID room := room]> (room_rows t))).
Proof.
  intros [Hh Hr Hrs] Hf Hs. constructor; simpl; [done|..].
  - intros i r [[<- <-]|[_ Hi]]%lookup_insert_Some; [done|by apply Hr].
  - intros i j r q [[<- <-]|[_ Hi]]%lookup_insert_Some [[<- <-]|[_ Hj]]%lookup_insert_Some Hhome Hname; [done| | |by eapply Hrs].
    + symmetry. by eapply room_free.
    + by eapply room_free.
Qed.

Lemma separate_insert t id name : separate t -> separate (insert_home t id name).
Proof. intros Hs. unfold insert_home. destruct (present _ || _) eqn:Hp; [done|]. apply orb_false_iff in Hp as [_ Hp]. by apply separate_home. Qed.
Lemma separate_catalog t p t' : separate t -> ensureLocationPreferenceCatalog t p = Ok t' -> separate t'.
Proof.
  intros Hs. unfold ensureLocationPreferenceCatalog. pose proof (separate_insert t (lo_HomeID p) (lo_HomeName p) Hs) as Hi.
  destruct (is_empty _); [by intros [= <-]|]. unfold insert_room. destruct (present _ || _) eqn:Hq; [by intros [= <-]|].
  apply orb_false_iff in Hq as [_ Hq]. destruct (present (home_rows _ !! _)) eqn:Hp; [|done]. intros [= <-].
  apply (separate_room _ (MkLocationRoom (lo_RoomID p) (lo_HomeID p) (lo_RoomName p))); [done..|by apply present_some].
Qed.
Lemma lasting_list : lasting (ListLocationHomes scanned).
Proof.
  intros t t' x Hs. unfold ListLocationHomes.
  assert (forall rows t t', separate t -> importLegacyLocationPreferences rows t = Ok t' -> separate t') as Himport.
  { induction rows as [|p rows IH]; intros t1 t2 H1; cbn [importLegacyLocationPreferences]; [by intros [= <-]|].
    destruct (ensureLocationPreferenceCatalog t1 p) as [t3|] eqn:He; [|done]. apply IH. by eapply separate_catalog. }
  destruct (importLegacyLocationPreferences _ t) as [t1|] eqn:Hi; [|done]. intros [= <- <-]. by eapply Himport.
Qed.
Lemma lasting_choice p : lasting (SetDeviceLocationPreference p).
Proof.
  intros t t' x Hs. unfold SetDeviceLocationPreference. destruct (ensureLocationPreferenceCatalog t p) as [t1|] eqn:He; [|done].
  intros [= <- <-]. by apply (separate_places t1), (separate_catalog t p).
Qed.
Lemma lasting_home id name : lasting (SaveLocationHome id name).
Proof.
  intros t t' x Hs. unfold SaveLocationHome. destruct (home_taken t id name) eqn:Hf; [done|]. cbn [negb].
  pose proof (separate_home t id name Hs Hf) as Hh. destruct (home_rows t !! id); intros [= <- <-]; [by eapply separate_places; [|exact Hh]|done].
Qed.
Lemma lasting_home_deleted id : lasting (DeleteLocationHome id).
Proof.
  intros t t' x [Hh Hr Hrs]. unfold DeleteLocationHome. destruct (present _); [|done]. destruct (negb _); [|done]. intros [= <- <-]. constructor; simpl.
  - intros i j n [_ Hi]%lookup_delete_Some [_ Hj]%lookup_delete_Some. by eapply Hh.
  - intros i r [Hi Hne]%map_lookup_filter_Some. simpl in Hne. destruct (Hr i r Hi). by rewrite lookup_delete_ne.
  - intros i j r q [Hi _]%map_lookup_filter_Some [Hj _]%map_lookup_filter_Some. by apply Hrs.
Qed.
Lemma lasting_room room : lasting (SaveLocationRoom room).
Proof.
  intros t t' x Hs. unfold SaveLocationRoom. destruct (present _) eqn:Hp; [|done]. apply present_some in Hp.
  destruct (room_taken _ _ _ _) eqn:Hf; [done|]. cbn [negb]. pose proof (separate_room t room Hs Hf Hp) as Hroom.
  destruct (room_rows t !! lr_ID room); [destruct (bool_decide _); [|done]|]; intros [= <- <-]; [by eapply separate_places; [|exact Hroom]|done].
Qed.
Lemma lasting_room_deleted id : lasting (DeleteLocationRoom id).
Proof.
  intros t t' x [Hh Hr Hrs]. unfold DeleteLocationRoom. destruct (present _); [|done]. destruct (negb _); [|done]. intros [= <- <-]. constructor; simpl; [done|..].
  - intros i r [_ Hi]%lookup_delete_Some. by apply Hr.
  - intros i j r q [_ Hi]%lookup_delete_Some [_ Hj]%lookup_delete_Some. by apply Hrs.
Qed.
Lemma lasting_aside {A} (c : transaction A) : (forall t t' x, c t = Ok (t', x) -> places t' = places t) -> lasting c.
Proof. intros Hc t t' x Hs Hx. apply (separate_places t); [by eapply Hc|done]. Qed.

(** A call whose transactions do. *)
Fixpoint steady {A} (c : call R E A) : Prop :=
  match c with
  | Answer _ => True
  | Act next go => forall w, separate w.2 -> separate (next w).2 /\ steady (go w)
  end.
Lemma acts_bind {A B} (c : call R E A) (f : A -> call R E B) : steady c -> (forall x, steady (f x)) -> steady (bind c f).
Proof.
  intros Hc Hf. induction c as [[x|e]|next go IH]; [apply Hf|done|]. intros w Hw. destruct (Hc w Hw). split; [done|]. by apply IH.
Qed.
Lemma steady_transact {A} io (c : transaction A) : lasting c -> steady (transact (R := R) (E := E) io c).
Proof.
  intros Hc w Hw. unfold executed. destruct io; [|done]. destruct (c w.2) as [[t x]|] eqn:Hx; [|done]. split; [by eapply Hc|done].
Qed.
Lemma steady_memory : steady (memory (R := R) (E := E)).
Proof. done. Qed.
Lemma steady_change f : steady (change (R := R) (E := E) f).
Proof. done. Qed.
Lemma steady_require b e : steady (require (R := R) (E := E) b e).
Proof. by destruct b. Qed.
Lemma steady_found {A} (x : option A) e : steady (found (R := R) (E := E) x e).
Proof. by destruct x. Qed.
Lemma steady_result {A} (x : result LocationError A) : steady (of_result (R := R) (E := E) x).
Proof. by destruct x. Qed.
End Traffic.

Create HintDb steady.
#[export] Hint Resolve steady_transact steady_memory steady_change steady_require steady_found steady_result lasting_list lasting_choice
  lasting_home lasting_home_deleted lasting_room lasting_room_deleted : steady.
#[export] Hint Extern 3 (lasting _) => apply lasting_aside; by intros ? ? ? [= <- <-] : steady.
(** The acts of a call, one after another. *)
Ltac steady_calls :=
  repeat first
    [ progress (cbv beta zeta)
    | match goal with |- steady (if ?b then _ else _) => destruct b end
    | apply acts_bind; [|intros ?]
    | exact I | done
    | solve [auto with steady] ].

Section Runs.
Context `{UnicodeLower} {R E : Type}.
Variable listed : gmap string Device -> list string.
Variable scanned : gmap string LocationPreference -> list LocationPreference.
Hypothesis Hscanned : forall m p, p ∈ scanned m -> exists d, m !! d = Some p.
Implicit Types (t : LocationTables).

Lemma exec_steady io c : steady (exec (R := R) (E := E) listed scanned io c).
Proof.
  destruct c; cbn [exec];
    unfold SetDeviceName, ResetDeviceName, SetDeviceLocation, SaveDeviceLocationHome, DeleteDeviceLocationHome, SaveDeviceLocationRoom,
      DeleteDeviceLocationRoom, clear_location, choose_location, store_location, ListDeviceLocationHomes, registered, show,
      reloadDeviceLocationCatalog, reloadDeviceLocationPreferences; cbn [negb]; steady_calls.
Qed.
Lemma load_steady io : steady (LoadPreferences (R := R) (E := E) true true true listed scanned io).
Proof.
  unfold LoadPreferences, reloadDeviceLocationCatalog, reloadDeviceLocationPreferences, reloadDeviceNamePreferences; cbn [negb]; steady_calls.
Qed.

(** The calls that write what they chose from the homes and rooms they have read. *)
Definition relies (c : LocationCall) : bool :=
  match c with
  | CallSetLocation _ input => in_Mode input =s LocationModeCustom
  | CallSaveHome _ _ _ | CallSaveRoom _ _ _ _ => true
  | _ => false
  end.
(** A call under way: whether it is one of these, and what it is still to do. *)
Definition thread : Type := bool * call R E unit.
Definition over (p : call R E unit) : Prop := exists x, p = Answer x.

(** The acts of any calls, in any order, from an empty database; [s] is whatever the memory
    of the service holds at an act. The process may end at any moment, and a start reads the
    tables as a call does. When [careful], no act changes the homes or the rooms while another
    call that relies on them is under way. *)
Inductive directory_run (careful : bool) : LocationTables -> gmap nat thread -> Prop :=
| dr_first : directory_run careful no_locations ∅
| dr_call t ps n c io : directory_run careful t ps -> ps !! n = None ->
    directory_run careful t (<[n := (relies c, exec listed scanned io c)]> ps)
| dr_load t ps n io : directory_run careful t ps -> ps !! n = None ->
    directory_run careful t (<[n := (false, LoadPreferences true true true listed scanned io)]> ps)
| dr_act t ps n b next go s : directory_run careful t ps -> ps !! n = Some (b, Act next go) ->
    (careful = true -> places (next (s, t)).2 <> places t -> forall m p, m <> n -> ps !! m = Some (true, p) -> over p) ->
    directory_run careful (next (s, t)).2 (<[n := (b, go (s, t))]> ps)
| dr_end t ps : directory_run careful t ps -> directory_run careful t ∅.

Definition known (b : bool) t : knowledge := if b then Some (places t) else None.
Lemma exec_keeps io c t : keeps (known (relies c) t) (exec (R := R) (E := E) listed scanned io c) (fun _ _ => True).
Proof.
  destruct c as [id name|id|id input| |time id name|id|time id homeID name|homeID id]; cbn [exec relies known];
    try (apply keeps_bind; apply (keeps_weaken _ (fun _ _ => True)); [intros k x Hx; exact I|]).
  - apply name_keeps_directory.
  - apply reset_keeps.
  - apply location_keeps_directory; [done|]. intros ->. rewrite bool_decide_eq_true_2 by done. by eexists.
  - by apply keeps_list.
  - apply home_keeps; [done|by eexists].
  - by apply home_deleted_keeps.
  - apply room_keeps; [done|by eexists].
  - by apply room_deleted_keeps.
Qed.

Lemma directory_run_steady careful t ps : directory_run careful t ps ->
  separate t /\ forall n b p, ps !! n = Some (b, p) -> steady p.
Proof.
  induction 1 as [|t ps n c io _ [Hs Hp] _|t ps n io _ [Hs Hp] _|t ps n b next go s _ [Hs Hp] Hn _|t ps _ [Hs _]].
  - split; [|intros n b p Hn; by rewrite lookup_empty in Hn]. constructor; simpl; intros; by simplify_map_eq.
  - split; [done|]. intros m b p [[<- [= <- <-]]|[_ Hm]]%lookup_insert_Some; [apply exec_steady|by eapply Hp].
  - split; [done|]. intros m b p [[<- [= <- <-]]|[_ Hm]]%lookup_insert_Some; [apply load_steady|by eapply Hp].
  - destruct (Hp n b _ Hn (s, t) Hs) as [Hs' Hgo]. split; [done|].
    intros m b' p [[<- [= <- <-]]|[_ Hm]]%lookup_insert_Some; [done|by eapply Hp].
  - split; [done|]. intros n b p Hn. by rewrite lookup_empty in Hn.
Qed.
Lemma directory_run_ok t ps : directory_run true t ps ->
  directory_ok t /\ forall n b p, ps !! n = Some (b, p) -> keeps (known b t) p (fun _ _ => True).
Proof.
  induction 1 as [|t ps n c io _ [Hs Hp] _|t ps n io _ [Hs Hp] _|t ps n b next go s _ [Hs Hp] Hn Hcareful|t ps _ [Hs _]].
  - split; [apply empty_directory|]. intros n b p Hn. by rewrite lookup_empty in Hn.
  - split; [done|]. intros m b p [[<- [= <- <-]]|[_ Hm]]%lookup_insert_Some; [apply exec_keeps|by eapply Hp].
  - split; [done|]. intros m b p [[<- [= <- <-]]|[_ Hm]]%lookup_insert_Some; [by apply load_keeps|by eapply Hp].
  - destruct (Hp n b _ Hn (s, t) Hs) as [Hs' Hgo]. { unfold known. destruct b; [by intros x [= <-]|done]. }
    split; [done|]. intros m b' p [[<- [= <- <-]]|[Hne Hm]]%lookup_insert_Some; [unfold known, now in *; by destruct b|].
    pose proof (Hp m b' p Hm) as Hk. destruct b'; [|exact Hk]. unfold known.
    destruct (decide ((places (next (s, t)).2 : gmap string string * gmap string LocationRoom) = places t)) as [->|Hc]; [exact Hk|].
    destruct (Hcareful eq_refl Hc m p) as [x ->]; [done..|]. by destruct x.
  - split; [done|]. intros n b p Hn. by rewrite lookup_empty in Hn.
Qed.

(** C32: however calls overlap, whatever transactions fail and whatever the memory of the
    service holds, no two homes, and no two rooms of one home, have the same name, and every
    room belongs to a home. When moreover no home or room is changed while another call is
    under way that writes what it chose from them (a choice of a place, a home or a room that
    is saved), names of homes, and of rooms in a home, stay distinct up to case and spaces,
    and every choice of a user names a home, and a room of that home, by the names they have
    now: a home or room in use is never deleted, and renaming one renames it in the choices. *)
Theorem directory_consistent careful t ps : directory_run careful t ps -> separate t /\ (careful = true -> directory_ok t).
Proof. intros Hr. split; [by eapply directory_run_steady|]. intros ->. by eapply directory_run_ok. Qed.
End Runs.

(** ** An example: a name and a place of one lamp are chosen at once *)

Module TrafficExample.
Import LocationExample.
#[local] Existing Instance ex_lower.
Definition state : Type := LocationTables * gmap nat (thread (R := StaticPriorityResolver) (E := string)).

(** The next act of the call [n]; the memory is that of the hub. *)
Definition turn (x : state) (n : nat) : state :=
  match x.2 !! n with
  | Some (b, Act next go) => ((next (hub, x.1)).2, <[n := (b, go (hub, x.1))]> x.2)
  | _ => x
  end.
Definition allowed (x : state) (n : nat) : bool :=
  bool_decide ((places (turn x n).1 : gmap string string * gmap string LocationRoom) = places x.1) || bool_decide (dom x.2 = {[n]}).
Fixpoint all_allowed (x : state) (l : list nat) : bool :=
  match l with [] => true | n :: l => allowed x n && all_allowed (turn x n) l end.

Lemma turn_run x n : directory_run listed scanned true x.1 x.2 -> allowed x n = true -> directory_run listed scanned true (turn x n).1 (turn x n).2.
Proof.
  unfold allowed, turn. intros Hr Ha. destruct (x.2 !! n) as [[b [r|next go]]|] eqn:Hn; [done| |done].
  apply (dr_act _ _ true x.1 x.2 n b next go hub Hr Hn). intros _ Hc m p Hm Hp. apply orb_true_iff in Ha as [Ha|Ha]; apply bool_decide_eq_true in Ha; [done|].
  assert (m ∈ dom x.2) as Hin by (by apply elem_of_dom_2 in Hp). rewrite Ha in Hin. by apply elem_of_singleton in Hin.
Qed.
Lemma turns_run l : forall x, directory_run listed scanned true x.1 x.2 -> all_allowed x l = true ->
  directory_run listed scanned true (fold_left turn l x).1 (fold_left turn l x).2.
Proof.
  induction l as [|n l IH]; intros x Hr Ha; [done|]. cbn [all_allowed] in Ha. apply andb_true_iff in Ha as [Hn Hl].
  cbn [fold_left]. apply IH; [|done]. by apply turn_run.
Qed.

Definition call_ (c : LocationCall) : thread (R := StaticPriorityResolver) (E := string) := (relies c, exec listed scanned always c).
Definition saved : state := fold_left turn (replicate 12 0%nat) (no_locations, {[0%nat := call_ (CallSaveHome 0 "" "Lake house")]}).
Definition both : state := (saved.1, <[2%nat := call_ (CallSetName "lamp-1" " Porch light ")]>
  {[1%nat := call_ (CallSetLocation "lamp-1" (MkLocationInput LocationModeCustom lake ""))]}).
Definition finished : state := fold_left turn [1; 2; 1; 2; 1; 1; 2; 2; 1; 2; 1; 2; 1; 2; 1; 2]%nat both.

Lemma saved_run : directory_run listed scanned true saved.1 saved.2.
Proof.
  apply turns_run; [|vm_compute; reflexivity]. apply (dr_call _ _ true no_locations ∅ 0); [constructor|done].
Qed.
Lemma finished_run : directory_run listed scanned true finished.1 finished.2.
Proof.
  apply turns_run; [|vm_compute; reflexivity]. apply (dr_call _ _ true saved.1 _ 2); [|done].
  apply (dr_call _ _ true saved.1 ∅ 1); [|done]. eapply dr_end, saved_run.
Qed.
Lemma directory_consistent_witness :
  location_rows finished.1 !! "lamp-1" = Some (MkLocationPreference "lamp-1" lake "Lake house" "" "") /\
  name_rows finished.1 !! "lamp-1" = Some "Porch light" /\ directory_ok finished.1.
Proof.
  split; [vm_compute; reflexivity|]. split; [vm_compute; reflexivity|].
  exact (proj2 (directory_consistent listed scanned scanned_ok true finished.1 finished.2 finished_run) eq_refl).
Defined.
End TrafficExample.
