(* ===== verification/TargetConfig.v ===== *)
(** * Configurations of Targets: backend/internal/domain/target/target.go and the defaults
    and checks of application/target_service.go

    A Target publishes devices to HomeKit or to Matter. Its configuration is completed with
    defaults, some of them random, and then checked field by field. Random bytes and
    numbers are given as they are drawn. *)

From S2P Require Import Prelude Float64 DeviceModel Lookup ModelContract ConsumerCatalog FloatText Text.

(** ** Data *)

Record TypeDescriptor := MkDescriptor {
  td_Type : string;
  td_ConsumerID : string;
  td_DefaultIDPrefix : string;
  td_DefaultName : string;
  td_SupportsHomeKitPairing : bool;
}.

Definition builtInTypeDescriptors : list TypeDescriptor :=
  [MkDescriptor "apple-hap" "homekit" "apple" "HomeLoom Apple Home Bridge" true;
   MkDescriptor "homekit-camera" "homekit-camera" "camera-homekit" "HomeLoom HomeKit Camera" true;
   MkDescriptor "matter" "matter" "matter" "HomeLoom Matter Bridge" false;
   MkDescriptor "matter-camera" "matter-camera" "camera-matter" "HomeLoom Matter Camera" false].

Definition DescriptorForType (value : string) : option TypeDescriptor := find_by td_Type value builtInTypeDescriptors.
Definition zero_descriptor : TypeDescriptor := MkDescriptor "" "" "" "" false.
Definition descriptor_of (value : string) : TypeDescriptor := default zero_descriptor (DescriptorForType value).

Definition IsMatterType (value : string) : bool := (value =s "matter") || (value =s "matter-camera").

Record VirtualDevice := MkVirtualDevice {
  vd_ID : string;
  vd_Name : string;
  vd_Type : Type_;
  vd_SourceDeviceID : string;
  vd_AuxiliarySourceDeviceIDs : list string;
  vd_Enabled : bool;
}.

(** The loop that appends what is neither empty nor seen. *)
Definition append_new (result : list string) (id : string) : list string :=
  if is_empty id || bool_decide (id ∈ result) then result else result ++ [id].
Definition SourceDeviceIDs (v : VirtualDevice) : list string :=
  fold_left append_new (vd_SourceDeviceID v :: vd_AuxiliarySourceDeviceIDs v) [].

Record HomeKitConfig := MkHomeKit { hk_Address : string; hk_Pin : string; hk_SetupID : string; hk_StorePath : string }.
Record MatterConfig := MkMatter {
  mt_NetworkInterface : string;
  mt_UDPPort : Z;
  mt_Discriminator : option Z;
  mt_Passcode : string;
  mt_VendorID : Z;
  mt_ProductID : Z;
  mt_ProductName : string;
  mt_SerialNumber : string;
  mt_CommissioningWindowSeconds : Z;
}.
Record Config := MkConfig {
  tc_ID : string;
  tc_Type : string;
  tc_Name : string;
  tc_Enabled : bool;
  tc_HomeKitConfig : option HomeKitConfig;
  tc_MatterConfig : option MatterConfig;
  tc_DeviceIDs : list string;
  tc_Devices : list VirtualDevice;
  tc_Address : string;
  tc_Pin : string;
  tc_SetupID : string;
  tc_StorePath : string;
}.

Definition zero_homekit : HomeKitConfig := MkHomeKit "" "" "" "".
Definition zero_matter : MatterConfig := MkMatter "" 0 None "" 0 0 "" "" 0.

Definition or_else (a b : string) : string := if is_empty a then b else a.

Definition set_flat (c : Config) (h : HomeKitConfig) : Config :=
  MkConfig (tc_ID c) (tc_Type c) (tc_Name c) (tc_Enabled c) (tc_HomeKitConfig c) (tc_MatterConfig c) (tc_DeviceIDs c)
    (tc_Devices c) (hk_Address h) (hk_Pin h) (hk_SetupID h) (hk_StorePath h).
Definition set_protocols (c : Config) (h : option HomeKitConfig) (m : option MatterConfig) : Config :=
  MkConfig (tc_ID c) (tc_Type c) (tc_Name c) (tc_Enabled c) h m (tc_DeviceIDs c)
    (tc_Devices c) (tc_Address c) (tc_Pin c) (tc_SetupID c) (tc_StorePath c).
Definition set_ID (c : Config) (id : string) : Config :=
  MkConfig id (tc_Type c) (tc_Name c) (tc_Enabled c) (tc_HomeKitConfig c) (tc_MatterConfig c) (tc_DeviceIDs c)
    (tc_Devices c) (tc_Address c) (tc_Pin c) (tc_SetupID c) (tc_StorePath c).
Definition set_Type (c : Config) (t : string) : Config :=
  MkConfig (tc_ID c) t (tc_Name c) (tc_Enabled c) (tc_HomeKitConfig c) (tc_MatterConfig c) (tc_DeviceIDs c)
    (tc_Devices c) (tc_Address c) (tc_Pin c) (tc_SetupID c) (tc_StorePath c).
Definition set_Name (c : Config) (n : string) : Config :=
  MkConfig (tc_ID c) (tc_Type c) n (tc_Enabled c) (tc_HomeKitConfig c) (tc_MatterConfig c) (tc_DeviceIDs c)
    (tc_Devices c) (tc_Address c) (tc_Pin c) (tc_SetupID c) (tc_StorePath c).
Definition set_Devices (c : Config) (ids : list string) (devices : list VirtualDevice) : Config :=
  MkConfig (tc_ID c) (tc_Type c) (tc_Name c) (tc_Enabled c) (tc_HomeKitConfig c) (tc_MatterConfig c) ids
    devices (tc_Address c) (tc_Pin c) (tc_SetupID c) (tc_StorePath c).

(** The flat fields of older clients fill what the configuration of the protocol leaves out. *)
Definition merged_homekit (c : Config) : HomeKitConfig :=
  let h := default zero_homekit (tc_HomeKitConfig c) in
  MkHomeKit (or_else (hk_Address h) (tc_Address c)) (or_else (hk_Pin h) (tc_Pin c))
    (or_else (hk_SetupID h) (tc_SetupID c)) (or_else (hk_StorePath h) (tc_StorePath c)).

Definition NormalizeProtocolConfig (c : Config) : Config :=
  if is_empty (tc_Type c) || (tc_Type c =s "apple-hap") || (tc_Type c =s "homekit-camera") then
    let h := merged_homekit c in set_flat (set_protocols c (Some h) None) h
  else if IsMatterType (tc_Type c) then set_flat (set_protocols c None (tc_MatterConfig c)) zero_homekit
  else c.

(** ** Defaults *)

Inductive ConfigField :=
| FieldID | FieldName | FieldType | FieldAddress | FieldPin | FieldSetupID | FieldStorePath
| FieldHomeKitConfig | FieldMatterConfig | FieldDevices
| FieldUDPPort | FieldDiscriminator | FieldPasscode | FieldVendorID | FieldProductID | FieldProductName
| FieldSerialNumber | FieldCommissioningWindow | FieldNetworkInterface
| FieldDeviceID (i : nat) | FieldDeviceName (i : nat) | FieldDeviceType (i : nat) | FieldDeviceEnabled (i : nat)
| FieldSource (i : nat) | FieldAuxiliaries (i : nat) | FieldAuxiliary (i j : nat).

Inductive TargetError :=
| InvalidTarget (fields : list ConfigField)
| RandomFailed
| TargetTypeFixed.

Definition id_byte (c : ascii) : bool :=
  in_bytes 48 57 c || in_bytes 65 90 c || in_bytes 97 122 c || Ascii.eqb c "_" || Ascii.eqb c "-".
(** The regular expression [^[A-Za-z0-9_-]+$]. *)
Definition validTargetID (s : string) : bool := negb (is_empty s) && string_Forall id_byte s.
(** The regular expression [^[A-Za-z0-9._-]+$]. *)
Definition validMatterSerial (s : string) : bool :=
  negb (is_empty s) && string_Forall (fun c => id_byte c || Ascii.eqb c ".") s.

(** The alphabet, and a byte of the random generator for every character. *)
Fixpoint pick (alphabet : string) (n : nat) : ascii :=
  match alphabet, n with
  | String c _, O => c
  | String _ s, S n => pick s n
  | EmptyString, _ => NUL
  end.
Definition randomString (alphabet : string) (random : option (list Z)) : result TargetError string :=
  match random with
  | None => Err RandomFailed
  | Some l => Ok (fold_right (fun b s => String (pick alphabet (Z.to_nat (b mod Z.of_nat (String.length alphabet)))) s) "" l)
  end.

Definition digit_byte (c : ascii) : bool := in_bytes 48 57 c.
(** Whether the bytes of [s] are all the first one. *)
Definition all_same (s : string) : bool :=
  match s with
  | EmptyString => true
  | String c r => string_Forall (fun d => Ascii.eqb d c) r
  end.
Definition validMatterPasscode (value : string) : bool :=
  if negb (Z.of_nat (String.length value) =? 8) then false
  else if negb (string_Forall digit_byte value) then false
  else if (value =s "00000000") || (value =s "12345678") || (value =s "87654321") || str_ltb "99999998" value then false
  else negb (all_same value).

(** [%08d] *)
Definition pad8 (n : Z) : string :=
  let s := show_Z n in String.string_of_list_ascii (repeat "0"%char (8 - String.length s)) +:+ s.
(** The loop draws until a number is a passcode; [draws] are the numbers below 99999998 the
    generator returns, [None] when it fails. *)
Fixpoint randomMatterPasscode (draws : list (option Z)) : option (result TargetError string) :=
  match draws with
  | [] => None
  | None :: _ => Some (Err RandomFailed)
  | Some random :: draws =>
      let passcode := pad8 (random + 1) in
      if validMatterPasscode passcode then Some (Ok passcode) else randomMatterPasscode draws
  end.

(** What one call of [withDefaults] draws: bytes for the identifier, the PIN and the setup
    identifier, the discriminator, and the passcode. *)
Record Draws := MkDraws {
  dr_suffix : option (list Z);
  dr_pin : option (list Z);
  dr_setup : option (list Z);
  dr_discriminator : option Z;
  dr_passcode : result TargetError string;
}.

Definition letters_digits : string := "abcdefghijklmnopqrstuvwxyz0123456789".
Definition capitals_digits : string := "ABCDEFGHIJKLMNOPQRSTUVWXYZ0123456789".

(** [net.SplitHostPort], the port of it. *)
Definition last_colon (s : string) : option (string * string) :=
  match Cut ":" (go_rev s) with
  | Some (port, host) => Some (go_rev host, go_rev port)
  | None => None
  end.
Definition SplitPort (s : string) : option string :=
  match last_colon s with
  | None => None
  | Some (host, port) =>
      match s with
      | String c inner =>
          if Ascii.eqb c "[" then
            match Cut "]" inner with
            | None => None
            | Some (name, rest) =>
                (* the bracket closes just before the last colon *)
                if negb (rest =s ":" +:+ port) then None
                else if Contains name "[" || Contains port "[" || Contains port "]" then None else Some port
            end
          else if Contains host ":" || Contains s "[" || Contains s "]" then None
          else Some port
      | EmptyString => None
      end
  end.

(** The ports the addresses use, and the first one that is free. *)
Definition used_ports (addresses : list string) : list Z :=
  omap (fun a => SplitPort a ≫= Atoi) addresses.
Definition ports : list Z := seqZ 51826 13710.
Definition nextAddress (addresses : list string) : string :=
  let used := used_ports addresses in
  match list_find (fun p => p ∉ used) ports with
  | Some (_, p) => ":" +:+ show_Z p
  | None => ":0"
  end.

Definition DefaultMatterVendorID : Z := 0xFFF1.
Definition DefaultMatterProductID : Z := 0x8000.
Definition DefaultMatterCommissioningWindowSeconds : Z := 900.

Definition or_draw (value : string) (draw : result TargetError string) : result TargetError string :=
  if is_empty value then draw else Ok value.

Definition homekit_defaults (addresses : list string) (draws : Draws) (c : Config) : result TargetError Config :=
  guard! negb (present (tc_MatterConfig c)) else InvalidTarget [FieldMatterConfig] in
  let c := NormalizeProtocolConfig c in
  let address := or_else (tc_Address c) (nextAddress addresses) in
  let! pin := or_draw (tc_Pin c) (randomString "0123456789" (dr_pin draws)) in
  let! setup := or_draw (tc_SetupID c) (randomString capitals_digits (dr_setup draws)) in
  Ok (NormalizeProtocolConfig (set_flat c (MkHomeKit address pin setup ("data/hap/" +:+ tc_ID c)))).

Definition or_number (a b : Z) : Z := if a =? 0 then b else a.

Definition matter_defaults (draws : Draws) (c : Config) : result TargetError Config :=
  guard! negb (present (tc_HomeKitConfig c)) && is_empty (tc_Address c) && is_empty (tc_Pin c)
         && is_empty (tc_SetupID c) && is_empty (tc_StorePath c) else InvalidTarget [FieldHomeKitConfig] in
  let m := default zero_matter (tc_MatterConfig c) in
  let! discriminator :=
    match mt_Discriminator m, dr_discriminator draws with
    | Some d, _ | None, Some d => Ok d
    | None, None => Err RandomFailed
    end in
  let! passcode := or_draw (mt_Passcode m) (dr_passcode draws) in
  Ok (NormalizeProtocolConfig (set_protocols c (tc_HomeKitConfig c) (Some
    (MkMatter (mt_NetworkInterface m) (mt_UDPPort m) (Some discriminator) passcode
      (or_number (mt_VendorID m) DefaultMatterVendorID) (or_number (mt_ProductID m) DefaultMatterProductID)
      (or_else (mt_ProductName m)
         (if tc_Type c =s "matter-camera" then "HomeLoom Matter Camera" else "HomeLoom Matter Bridge"))
      (or_else (mt_SerialNumber m) (tc_ID c))
      (or_number (mt_CommissioningWindowSeconds m) DefaultMatterCommissioningWindowSeconds))))).

(** A list of devices by their sources alone, and the sources of the enabled devices. *)
Definition expand_devices (ids : list string) (devices : list VirtualDevice) : list VirtualDevice :=
  match devices with
  | [] => (fun id => MkVirtualDevice id id "" id [] true) <$> ids
  | _ => devices
  end.
Definition active_sources (devices : list VirtualDevice) : list string :=
  fold_left (fun seen v => if vd_Enabled v then fold_left append_new (SourceDeviceIDs v) seen else seen) devices [].

Definition withDefaults (addresses : list string) (draws : Draws) (c : Config) : result TargetError Config :=
  let c := set_Type c (or_else (tc_Type c) "apple-hap") in
  let d := descriptor_of (tc_Type c) in
  let! id :=
    if is_empty (tc_ID c) then
      let! suffix := randomString letters_digits (dr_suffix draws) in
      Ok ((if present (DescriptorForType (tc_Type c)) then td_DefaultIDPrefix d else "target") +:+ "-" +:+ suffix)
    else Ok (tc_ID c) in
  let c := set_ID c id in
  guard! validTargetID id else InvalidTarget [FieldID] in
  let c := set_Name c (or_else (tc_Name c)
    (if present (DescriptorForType (tc_Type c)) then td_DefaultName d else "HomeLoom Target")) in
  let! c := if td_SupportsHomeKitPairing d then homekit_defaults addresses draws c else Ok c in
  let! c := if IsMatterType (tc_Type c) then matter_defaults draws c else Ok c in
  let devices := expand_devices (tc_DeviceIDs c) (tc_Devices c) in
  Ok (set_Devices c (active_sources devices) devices).

(** ** Checks *)

Definition when_ (b : bool) (f : ConfigField) : list ConfigField := if b then [f] else [].
Definition blank (s : string) : bool := is_empty (TrimSpace s).

Definition homekit_fields (c : Config) : list ConfigField :=
  when_ (is_empty (tc_Address c)) FieldAddress ++
  when_ (negb (Z.of_nat (String.length (tc_Pin c)) =? 8) || negb (string_Forall digit_byte (tc_Pin c))) FieldPin ++
  when_ (negb (Z.of_nat (String.length (tc_SetupID c)) =? 4)) FieldSetupID ++
  when_ (is_empty (tc_StorePath c)) FieldStorePath.

Definition camera_fields (devices : list VirtualDevice) : list ConfigField :=
  match devices with
  | [camera] =>
      when_ (negb (vd_Type camera =s TypeCamera)) (FieldDeviceType 0) ++
      when_ (negb (bool_decide (vd_AuxiliarySourceDeviceIDs camera = []))) (FieldAuxiliaries 0) ++
      when_ (negb (vd_Enabled camera)) (FieldDeviceEnabled 0)
  | _ => [FieldDevices]
  end.

Definition matter_fields (m : option MatterConfig) : list ConfigField :=
  match m with
  | None => [FieldMatterConfig]
  | Some m =>
      when_ ((0 <? mt_UDPPort m) && (mt_UDPPort m <? 1024)) FieldUDPPort ++
      when_ (match mt_Discriminator m with Some d => 4095 <? d | None => true end) FieldDiscriminator ++
      when_ (negb (validMatterPasscode (mt_Passcode m))) FieldPasscode ++
      when_ (mt_VendorID m =? 0) FieldVendorID ++
      when_ (mt_ProductID m =? 0) FieldProductID ++
      when_ (blank (mt_ProductName m) || (32 <? RuneCountInString (mt_ProductName m))) FieldProductName ++
      when_ (negb (validMatterSerial (mt_SerialNumber m)) || (32 <? Z.of_nat (String.length (mt_SerialNumber m))))
        FieldSerialNumber ++
      when_ ((mt_CommissioningWindowSeconds m <? 180) || (900 <? mt_CommissioningWindowSeconds m))
        FieldCommissioningWindow ++
      when_ ((128 <? Z.of_nat (String.length (mt_NetworkInterface m))) || Contains (mt_NetworkInterface m) NUL
             || Contains (mt_NetworkInterface m) "013" || Contains (mt_NetworkInterface m) "010") FieldNetworkInterface
  end.

Definition source_bad (s : string) : bool := blank s || negb (ValidStableID s).

(** [seen] are the sources before; [j] the index. *)
Fixpoint auxiliary_fields (i j : nat) (seen : list string) (ids : list string) : list ConfigField :=
  match ids with
  | [] => []
  | id :: ids =>
      when_ (source_bad id || bool_decide (id ∈ seen)) (FieldAuxiliary i j) ++ auxiliary_fields i (S j) (id :: seen) ids
  end.

(** Whether a consumer publishes devices of the type. *)
Definition type_supported (consumer : string) (t : Type_) : bool :=
  is_empty t ||
  present (ModelContractFor t) &&
  (let '(known, supported) := ConsumerModelSupport consumer t in negb (known && negb supported)).

Fixpoint device_fields (consumer : string) (i : nat) (seen : list string) (devices : list VirtualDevice) : list ConfigField :=
  match devices with
  | [] => []
  | v :: devices =>
      when_ (negb (validTargetID (vd_ID v)) || bool_decide (vd_ID v ∈ seen)) (FieldDeviceID i) ++
      when_ (blank (vd_Name v)) (FieldDeviceName i) ++
      when_ (source_bad (vd_SourceDeviceID v)) (FieldSource i) ++
      auxiliary_fields i 0 [vd_SourceDeviceID v] (vd_AuxiliarySourceDeviceIDs v) ++
      when_ (negb (type_supported consumer (vd_Type v))) (FieldDeviceType i) ++
      device_fields consumer (S i) (vd_ID v :: seen) devices
  end.

(** The fields with an error; the code keeps them as the keys of a map. *)
Definition target_fields (c : Config) : list ConfigField :=
  let d := descriptor_of (tc_Type c) in
  when_ (blank (tc_ID c)) FieldID ++
  when_ (blank (tc_Name c)) FieldName ++
  when_ (negb (present (DescriptorForType (tc_Type c)))) FieldType ++
  (if td_SupportsHomeKitPairing d then homekit_fields c else []) ++
  (if (tc_Type c =s "homekit-camera") || (tc_Type c =s "matter-camera") then camera_fields (tc_Devices c) else []) ++
  (if IsMatterType (tc_Type c) then matter_fields (tc_MatterConfig c) else []) ++
  device_fields (td_ConsumerID d) 0 [] (tc_Devices c).

Definition validateTarget (c : Config) : result TargetError unit :=
  match target_fields c with
  | [] => Ok tt
  | fields => Err (InvalidTarget fields)
  end.

(** ** Defaults settle a configuration *)

Definition is_homekit (t : string) : bool := (t =s "apple-hap") || (t =s "homekit-camera").

(** The types there are. *)
Lemma descriptor_cases t : present (DescriptorForType t) = true ->
  (is_homekit t = true /\ IsMatterType t = false /\ td_SupportsHomeKitPairing (descriptor_of t) = true) \/
  (is_homekit t = false /\ IsMatterType t = true /\ td_SupportsHomeKitPairing (descriptor_of t) = false).
Proof.
  unfold descriptor_of, DescriptorForType, find_by, builtInTypeDescriptors. cbn [first td_Type].
  repeat match goal with |- context [String.eqb ?a t] => destruct (String.eqb_spec a t) as [<-|]; [intros _; vm_compute; auto|] end.
  done.
Qed.

Lemma normalize_homekit c : is_homekit (tc_Type c) = true ->
  NormalizeProtocolConfig c = set_flat (set_protocols c (Some (merged_homekit c)) None) (merged_homekit c).
Proof.
  unfold is_homekit, NormalizeProtocolConfig. intros H. rewrite <- orb_assoc, H. by rewrite orb_true_r.
Qed.
Lemma normalize_matter c : IsMatterType (tc_Type c) = true ->
  NormalizeProtocolConfig c = set_flat (set_protocols c None (tc_MatterConfig c)) zero_homekit.
Proof.
  intros H. unfold NormalizeProtocolConfig. rewrite H. unfold IsMatterType in H. apply orb_true_iff in H.
  destruct H as [H%bool_decide_eq_true|H%bool_decide_eq_true]; by rewrite H.
Qed.

Lemma or_else_same a : or_else a a = a.
Proof. unfold or_else. by destruct (is_empty a). Qed.

Lemma merged_flat c h : tc_HomeKitConfig c = Some h -> hk_Address h = tc_Address c -> hk_Pin h = tc_Pin c ->
  hk_SetupID h = tc_SetupID c -> hk_StorePath h = tc_StorePath c -> merged_homekit c = h.
Proof.
  intros Hh Ha Hp Hs Ht. unfold merged_homekit. rewrite Hh. simpl. rewrite <- Ha, <- Hp, <- Hs, <- Ht, !or_else_same. by destruct h.
Qed.

Lemma normalize_config_idem c : NormalizeProtocolConfig (NormalizeProtocolConfig c) = NormalizeProtocolConfig c.
Proof.
  unfold NormalizeProtocolConfig at 2 3.
  destruct (is_empty (tc_Type c) || (tc_Type c =s "apple-hap") || (tc_Type c =s "homekit-camera")) eqn:Hk.
  - unfold NormalizeProtocolConfig. cbn [tc_Type set_flat set_protocols]. rewrite Hk.
    set (h := merged_homekit c).
    assert (merged_homekit (set_flat (set_protocols c (Some h) None) h) = h) as -> by (by apply merged_flat). done.
  - destruct (IsMatterType (tc_Type c)) eqn:Hm; unfold NormalizeProtocolConfig; cbn [tc_Type set_flat set_protocols]; by rewrite Hk, Hm.
Qed.

(** What [withDefaults] gives: a fixed point of the normalisation, with the protocol of its
    type complete and the sources of its devices listed. *)
Record settled (c : Config) : Prop := {
  st_normal : NormalizeProtocolConfig c = c;
  st_id : validTargetID (tc_ID c) = true;
  st_type : tc_Type c <> "";
  st_name : tc_Name c <> "";
  st_sources : tc_DeviceIDs c = active_sources (tc_Devices c);
  st_homekit : is_homekit (tc_Type c) = true ->
    tc_MatterConfig c = None /\ tc_HomeKitConfig c = Some (merged_homekit c) /\
    tc_Address c <> "" /\ tc_StorePath c <> "" /\
    tc_Pin c = hk_Pin (merged_homekit c) /\ tc_SetupID c = hk_SetupID (merged_homekit c);
  st_matter : IsMatterType (tc_Type c) = true ->
    tc_HomeKitConfig c = None /\ tc_Address c = "" /\ tc_Pin c = "" /\ tc_SetupID c = "" /\ tc_StorePath c = "" /\
    exists m, tc_MatterConfig c = Some m /\ is_Some (mt_Discriminator m) /\ mt_VendorID m <> 0 /\ mt_ProductID m <> 0
      /\ mt_ProductName m <> "" /\ mt_SerialNumber m <> "" /\ mt_CommissioningWindowSeconds m <> 0;
}.

Lemma or_else_nonempty a b : b <> "" -> or_else a b <> "".
Proof. unfold or_else. destruct (is_empty a) eqn:E; [done|intros _; by apply is_empty_false]. Qed.
Lemma or_number_nonzero a b : b <> 0 -> or_number a b <> 0.
Proof. unfold or_number. by destruct (Z.eqb_spec a 0). Qed.
Lemma address_nonempty l : nextAddress l <> "".
Proof. unfold nextAddress. by destruct (list_find _ _) as [[? ?]|]. Qed.

(** The defaults of one protocol keep the rest. *)
Definition same_rest (c c' : Config) : Prop :=
  tc_ID c' = tc_ID c /\ tc_Type c' = tc_Type c /\ tc_Name c' = tc_Name c /\ tc_Enabled c' = tc_Enabled c /\
  tc_DeviceIDs c' = tc_DeviceIDs c /\ tc_Devices c' = tc_Devices c.

Lemma homekit_defaults_ok l draws c c' : is_homekit (tc_Type c) = true -> homekit_defaults l draws c = Ok c' ->
  same_rest c c' /\ NormalizeProtocolConfig c' = c' /\ tc_MatterConfig c' = None /\
  tc_HomeKitConfig c' = Some (merged_homekit c') /\ tc_Address c' <> "" /\ tc_StorePath c' <> "" /\
  tc_Pin c' = hk_Pin (merged_homekit c') /\ tc_SetupID c' = hk_SetupID (merged_homekit c').
Proof.
  intros Ht. unfold homekit_defaults. destruct (negb (present (tc_MatterConfig c))); [|done].
  rewrite (normalize_homekit c Ht). cbn [tc_Address tc_Pin tc_SetupID tc_ID set_flat set_protocols].
  destruct (or_draw _ (randomString "0123456789" _)) as [pin|]; [|done].
  destruct (or_draw _ (randomString capitals_digits _)) as [setup|]; [|done]. intros [= <-].
  set (c1 := set_flat _ _). assert (is_homekit (tc_Type c1) = true) as Ht1 by exact Ht.
  pose proof (normalize_config_idem c1) as Hi. rewrite (normalize_homekit c1 Ht1) in Hi |- *. set (h := merged_homekit c1) in *.
  assert (merged_homekit (set_flat (set_protocols c1 (Some h) None) h) = h) as Hh by (by apply merged_flat).
  rewrite Hh. split_and!; try done; cbn [tc_Address tc_StorePath set_flat].
  - unfold h, merged_homekit. cbn [hk_Address]. apply or_else_nonempty. unfold c1. cbn [tc_Address set_flat hk_Address].
    apply or_else_nonempty, address_nonempty.
  - unfold h, merged_homekit. cbn [hk_StorePath]. by apply or_else_nonempty.
Qed.

Lemma matter_defaults_ok draws c c' : IsMatterType (tc_Type c) = true -> tc_ID c <> "" -> matter_defaults draws c = Ok c' ->
  same_rest c c' /\ NormalizeProtocolConfig c' = c' /\
  tc_HomeKitConfig c' = None /\ tc_Address c' = "" /\ tc_Pin c' = "" /\ tc_SetupID c' = "" /\ tc_StorePath c' = "" /\
  exists m, tc_MatterConfig c' = Some m /\ is_Some (mt_Discriminator m) /\ mt_VendorID m <> 0 /\ mt_ProductID m <> 0
    /\ mt_ProductName m <> "" /\ mt_SerialNumber m <> "" /\ mt_CommissioningWindowSeconds m <> 0.
Proof.
  intros Ht Hid. unfold matter_defaults. destruct (negb (present (tc_HomeKitConfig c)) && _ && _ && _ && _); [|done].
  set (m := default zero_matter (tc_MatterConfig c)).
  destruct (match mt_Discriminator m with Some d => _ | None => _ end) as [d|]; [|done].
  destruct (or_draw (mt_Passcode m) (dr_passcode draws)) as [passcode|]; [|done]. intros [= <-].
  set (c1 := set_protocols _ _ _). assert (IsMatterType (tc_Type c1) = true) as Ht1 by exact Ht.
  pose proof (normalize_config_idem c1) as Hi. rewrite (normalize_matter c1 Ht1) in Hi |- *. split_and!; try done.
  eexists. split; [reflexivity|]. cbn. split_and!; [by eexists|by apply or_number_nonzero|by apply or_number_nonzero| | |by apply or_number_nonzero].
  - apply or_else_nonempty. by destruct (tc_Type c =s "matter-camera").
  - by apply or_else_nonempty.
Qed.

Lemma expand_settled devices : expand_devices (active_sources devices) devices = devices.
Proof. by destruct devices. Qed.

Lemma set_Devices_settled c : settled c \/ tc_DeviceIDs c = active_sources (tc_Devices c) ->
  set_Devices c (active_sources (tc_Devices c)) (tc_Devices c) = c.
Proof. intros Hs. assert (tc_DeviceIDs c = active_sources (tc_Devices c)) as <- by (destruct Hs as [[]|]; done). by destruct c. Qed.

Lemma normalize_devices c ids devices :
  NormalizeProtocolConfig (set_Devices c ids devices) = set_Devices (NormalizeProtocolConfig c) ids devices.
Proof.
  unfold NormalizeProtocolConfig. cbn [tc_Type set_Devices].
  destruct (_ || _ || _); [done|]. by destruct (IsMatterType (tc_Type c)).
Qed.
Lemma merged_devices c ids devices : merged_homekit (set_Devices c ids devices) = merged_homekit c.
Proof. done. Qed.

Lemma neither_normal c : tc_Type c <> "" -> is_homekit (tc_Type c) = false -> IsMatterType (tc_Type c) = false ->
  NormalizeProtocolConfig c = c.
Proof.
  intros Ht%is_empty_false Hh Hm. unfold NormalizeProtocolConfig. rewrite <- orb_assoc. unfold is_homekit in Hh.
  by rewrite Ht, Hh, Hm.
Qed.

Lemma pairing_homekit t : td_SupportsHomeKitPairing (descriptor_of t) = is_homekit t.
Proof.
  destruct (present (DescriptorForType t)) eqn:Hp.
  - apply descriptor_cases in Hp as [(-> & _ & ->)|(-> & _ & ->)]; done.
  - unfold descriptor_of. destruct (DescriptorForType t) as [d|] eqn:Hd; [done|]. clear Hp. rename Hd into Hp. cbn [default]. unfold is_homekit.
    destruct (bool_decide_reflect (t = "apple-hap")) as [->|]; [by vm_compute in Hp|].
    destruct (bool_decide_reflect (t = "homekit-camera")) as [->|]; [by vm_compute in Hp|]. done.
Qed.

Lemma default_name_nonempty t : present (DescriptorForType t) = true -> td_DefaultName (descriptor_of t) <> "".
Proof.
  unfold descriptor_of, DescriptorForType, find_by, builtInTypeDescriptors. cbn [first td_Type].
  repeat match goal with |- context [String.eqb ?a t] => destruct (String.eqb_spec a t) as [<-|]; [intros _; by vm_compute|] end.
  done.
Qed.

(** What [withDefaults] gives is settled. *)
Lemma defaults_settle l draws c c' : withDefaults l draws c = Ok c' -> settled c'.
Proof.
  unfold withDefaults. set (c0 := set_Type c _). set (t := tc_Type c0).
  assert (t <> "") as Ht by (by apply or_else_nonempty).
  destruct (if is_empty (tc_ID c0) then _ else _) as [i|e]; [|done].
  destruct (validTargetID i) eqn:Hi; [|done]. set (c1 := set_Name (set_ID c0 i) _).
  assert (tc_Name c1 <> "") as Hn.
  { apply or_else_nonempty. change (tc_Type (set_ID c0 i)) with t. destruct (present (DescriptorForType t)) eqn:Hp; [|done].
    by apply default_name_nonempty. }
  assert (i <> "") as Hne by (intros ->; by vm_compute in Hi).
  cbn [tc_Type set_Name set_ID]. fold t. rewrite pairing_homekit.
  assert (is_homekit t = true -> IsMatterType t = false) as Hdisjoint.
  { unfold is_homekit, IsMatterType. intros [Hb|Hb]%orb_true_iff; apply bool_decide_eq_true in Hb; by rewrite Hb. }
  destruct (is_homekit t) eqn:Hk.
  - destruct (homekit_defaults l draws c1) as [c2|] eqn:Hd; [|done].
    apply homekit_defaults_ok in Hd as ((Hid & Hty & Hna & _ & _ & _) & Hnorm & H1); [|exact Hk].
    assert (tc_Type c2 = t) as Ht2 by (by rewrite Hty). rewrite Ht2, Hdisjoint by done. intros [= <-].
    constructor; cbn [tc_ID tc_Type tc_Name tc_DeviceIDs tc_Devices set_Devices tc_MatterConfig tc_HomeKitConfig tc_Address tc_StorePath tc_Pin tc_SetupID].
    + by rewrite normalize_devices, Hnorm.
    + by rewrite Hid.
    + by rewrite Ht2.
    + by rewrite Hna.
    + done.
    + rewrite merged_devices. done.
    + by rewrite Ht2, Hdisjoint.
  - change (tc_Type c1) with t. destruct (IsMatterType t) eqn:Hm.
    + destruct (matter_defaults draws c1) as [c2|] eqn:Hd; [|done].
      apply matter_defaults_ok in Hd as ((Hid & Hty & Hna & _ & _ & _) & Hnorm & H1); [|exact Hm|exact Hne].
      assert (tc_Type c2 = t) as Ht2 by (by rewrite Hty). intros [= <-].
      constructor; cbn [tc_ID tc_Type tc_Name tc_DeviceIDs tc_Devices set_Devices tc_MatterConfig tc_HomeKitConfig tc_Address tc_StorePath tc_Pin tc_SetupID].
      * by rewrite normalize_devices, Hnorm.
      * by rewrite Hid.
      * by rewrite Ht2.
      * by rewrite Hna.
      * done.
      * by rewrite Ht2, Hk.
      * done.
    + intros [= <-].
      constructor; cbn [tc_ID tc_Type tc_Name tc_DeviceIDs tc_Devices set_Devices]; try done.
      * rewrite normalize_devices. by rewrite neither_normal.
      * intros Hx. change (is_homekit t = true) in Hx. congruence.
      * intros Hx. change (IsMatterType t = true) in Hx. congruence.
Qed.

Lemma when_nil b f : when_ b f = [] -> b = false.
Proof. by destruct b. Qed.
Lemma or_else_left a b : a <> "" -> or_else a b = a.
Proof. intros Ha%is_empty_false. unfold or_else. by rewrite Ha. Qed.
Lemma or_number_left a b : a <> 0 -> or_number a b = a.
Proof. intros Ha%Z.eqb_neq. unfold or_number. by rewrite Ha. Qed.
Lemma or_draw_left a d : a <> "" -> or_draw a d = Ok a.
Proof. intros Ha%is_empty_false. unfold or_draw. by rewrite Ha. Qed.

(** The parts of a valid configuration the defaults look at. *)
Lemma valid_parts c : validateTarget c = Ok tt ->
  present (DescriptorForType (tc_Type c)) = true /\
  (is_homekit (tc_Type c) = true -> tc_Pin c <> "" /\ tc_SetupID c <> "") /\
  (IsMatterType (tc_Type c) = true -> forall m, tc_MatterConfig c = Some m -> mt_Passcode m <> "").
Proof.
  unfold validateTarget. destruct (target_fields c) eqn:Hf; [|done]. intros _. unfold target_fields in Hf.
  repeat (apply app_eq_nil in Hf as [? Hf]). rewrite pairing_homekit in *. split_and!.
  - by match goal with H : when_ (negb (present _)) _ = [] |- _ => apply when_nil, negb_false_iff in H end.
  - intros Hk. rewrite Hk in *. unfold homekit_fields in *.
    repeat match goal with H : _ ++ _ = [] |- _ => apply app_eq_nil in H as [? H] end.
    repeat match goal with H : when_ _ _ = [] |- _ => apply when_nil in H end. bool_prop.
    split; intros E; rewrite E in *; done.
  - intros Hm m Hmc. rewrite Hm in *. rewrite Hmc in *. unfold matter_fields in *.
    repeat match goal with H : _ ++ _ = [] |- _ => apply app_eq_nil in H as [? H] end.
    repeat match goal with H : when_ _ _ = [] |- _ => apply when_nil in H end. bool_prop.
    all: intros E; match goal with H : validMatterPasscode _ = true |- _ => rewrite E in H; by vm_compute in H end.
Qed.

(** What is settled, and has the codes that are drawn, is completed to itself. *)
Definition drawn (c : Config) : Prop :=
  present (DescriptorForType (tc_Type c)) = true /\
  (is_homekit (tc_Type c) = true -> tc_Pin c <> "" /\ tc_SetupID c <> "") /\
  (IsMatterType (tc_Type c) = true -> forall m, tc_MatterConfig c = Some m -> mt_Passcode m <> "").
Lemma defaults_fixed l' draws' c' : settled c' -> drawn c' -> withDefaults l' draws' c' = Ok c'.
Proof.
  intros Hs (Hp & Hpin & Hpass). destruct Hs as [Hnorm Hid Hty Hna Hsrc Hhk Hmt]. unfold withDefaults.
  rewrite (or_else_left (tc_Type c')) by done. assert (set_Type c' (tc_Type c') = c') as -> by (by destruct c').
  assert (tc_ID c' <> "") as Hne by (intros E; rewrite E in Hid; by vm_compute in Hid).
  rewrite (proj2 (is_empty_false _) Hne). cbn [set_ID]. assert (set_ID c' (tc_ID c') = c') as -> by (by destruct c').
  rewrite Hid. rewrite (or_else_left (tc_Name c')) by done. assert (set_Name c' (tc_Name c') = c') as -> by (by destruct c').
  rewrite pairing_homekit. destruct (descriptor_cases _ Hp) as [(Hk & Hm & _)|(Hk & Hm & _)]; rewrite Hk.
  - destruct (Hpin Hk) as [Hp1 Hp2]. destruct (Hhk Hk) as (Hm0 & Hh & Ha & Hst & Epin & Eset).
    assert (homekit_defaults l' draws' c' = Ok c') as ->.
    { unfold homekit_defaults. rewrite Hm0. cbn [present negb]. rewrite Hnorm.
      rewrite !or_draw_left by done. rewrite or_else_left by done. f_equal.
      set (c1 := set_flat c' _). assert (is_homekit (tc_Type c1) = true) as Hk1 by exact Hk.
      rewrite (normalize_homekit c1 Hk1).
      rewrite (normalize_homekit c' Hk) in Hnorm.
      assert (merged_homekit c1 = merged_homekit c') as ->.
      { assert (hk_Address (merged_homekit c') = tc_Address c' /\ hk_StorePath (merged_homekit c') = tc_StorePath c') as [Ea Es].
        { split; rewrite <- Hnorm at 2; done. }
        unfold merged_homekit at 1. cbn [c1 tc_HomeKitConfig set_flat]. rewrite Hh. cbn [default]. cbv [Datatypes.id].
        rewrite !or_else_left by congruence. by destruct (merged_homekit c'). }
      rewrite <- Hnorm at 3. by destruct c'. }
    rewrite Hm, Hsrc, expand_settled. f_equal. apply set_Devices_settled. by right.
  - rewrite Hm. destruct (Hmt Hm) as (Hh0 & Ha & Hpi & Hse & Hst & m & Hmm & [d Hdis] & Hv1 & Hv2 & Hv3 & Hv4 & Hv5).
    assert (matter_defaults draws' c' = Ok c') as ->.
    { unfold matter_defaults. rewrite Hh0, Ha, Hpi, Hse, Hst, Hmm. cbn [present negb is_empty andb default]. cbv [Datatypes.id].
      rewrite Hdis. rewrite or_draw_left by (by apply Hpass). f_equal.
      rewrite !or_number_left, !or_else_left by done. rewrite <- Hdis.
      assert (MkMatter (mt_NetworkInterface m) (mt_UDPPort m) (mt_Discriminator m) (mt_Passcode m) (mt_VendorID m)
        (mt_ProductID m) (mt_ProductName m) (mt_SerialNumber m) (mt_CommissioningWindowSeconds m) = m) as -> by (by destruct m).
      rewrite <- Hmm, <- Hh0. rewrite <- Hnorm at 4. f_equal. by destruct c'. }
    rewrite Hsrc, expand_settled. f_equal. apply set_Devices_settled. by right.
Qed.

(** saving a configuration again changes nothing. What [withDefaults] completed and
    [validateTarget] accepted is completed to itself, whatever addresses are in use and
    whatever is drawn: pairing codes, discriminators and passcodes are drawn once. *)
Theorem defaults_stable l draws c c' l' draws' :
  withDefaults l draws c = Ok c' -> validateTarget c' = Ok tt -> withDefaults l' draws' c' = Ok c'.
Proof. intros Hd%defaults_settle Hv. by apply defaults_fixed, valid_parts. Qed.

Lemma defaults_stable_witness :
  let draws := MkDraws (Some [0; 1; 2; 3; 4; 5]) (Some [3; 1; 4; 1; 5; 9; 2; 6]) (Some [7; 8; 9; 10]) (Some 3840) (Err RandomFailed) in
  let request := MkConfig "" "apple-hap" "" true None None [] [] "" "" "" "" in
  exists c, withDefaults [":51826"] draws request = Ok c /\ validateTarget c = Ok tt /\
    (tc_ID c, tc_Address c, tc_Pin c) = ("apple-abcdef"%string, ":51827"%string, "31415926"%string) /\
    withDefaults [] (MkDraws None None None None (Err RandomFailed)) c = Ok c.
Proof.
  cbv zeta. set (draws := MkDraws _ _ _ _ _). set (request := MkConfig _ _ _ _ _ _ _ _ _ _ _ _).
  destruct (withDefaults [":51826"] draws request) as [c|] eqn:Hd; [|by vm_compute in Hd].
  assert (validateTarget c = Ok tt) as Hv by (vm_compute in Hd; injection Hd as <-; vm_compute; reflexivity).
  exists c. split; [done|]. split; [exact Hv|]. split; [vm_compute in Hd; injection Hd as <-; vm_compute; reflexivity|].
  exact (defaults_stable [":51826"] draws request c [] (MkDraws None None None None (Err RandomFailed)) Hd Hv).
Defined.

(** ** Addresses *)

Lemma omap_length_le {A B} (f : A -> option B) l : (length (omap f l) <= length l)%nat.
Proof. induction l as [|x l IH]; csimpl; [done|]. destruct (f x); csimpl; lia. Qed.

(** a bridge gets an address of its own. While fewer Targets exist than there are ports,
    the default address has a port from 51826 on that no Target uses, and the first such. *)
Theorem next_address_free addresses : (length addresses < length ports)%nat ->
  exists p, nextAddress addresses = ":" +:+ show_Z p /\ 51826 <= p <= 65535 /\
    (forall a, a ∈ addresses -> SplitPort a ≫= Atoi <> Some p) /\
    forall q, 51826 <= q < p -> exists a, a ∈ addresses /\ SplitPort a ≫= Atoi = Some q.
Proof.
  intros Hlen. unfold nextAddress. destruct (list_find _ ports) as [[n p]|] eqn:Hf.
  - apply list_find_Some in Hf as (Hp & Hfree & Hbefore). unfold ports in Hp, Hbefore. apply lookup_seqZ in Hp as [-> Hn].
    exists (51826 + Z.of_nat n). split; [done|]. split; [lia|]. split.
    + intros a Ha Hs. apply Hfree. unfold used_ports. apply list_elem_of_omap. by exists a.
    + intros q Hq. assert (q ∈ used_ports addresses) as Hin.
      { apply dec_stable. apply (Hbefore (Z.to_nat (q - 51826))); [apply lookup_seqZ; lia|lia]. }
      unfold used_ports in Hin. by apply list_elem_of_omap in Hin.
  - apply list_find_None in Hf. exfalso.
    assert (length ports <= length (used_ports addresses))%nat as Hle.
    { apply submseteq_length, NoDup_submseteq; [apply NoDup_seqZ|]. intros p Hp. rewrite Forall_forall in Hf.
      by apply dec_stable, Hf. }
    pose proof (omap_length_le (fun a => SplitPort a ≫= Atoi) addresses). unfold used_ports in Hle. lia.
Qed.

Lemma next_address_free_witness : (length [":51826"; ":51828"; "nowhere"] < length ports)%nat /\
  exists p, nextAddress [":51826"; ":51828"; "nowhere"] = ":" +:+ show_Z p /\ 51826 <= p <= 65535.
Proof.
  split; [unfold ports; rewrite length_seqZ; simpl; lia|].
  destruct (next_address_free [":51826"; ":51828"; "nowhere"]) as (p & Hp & Hr & _); [unfold ports; rewrite length_seqZ; simpl; lia|].
  exists p. split; [exact Hp|exact Hr].
Defined.
