(* ===== verification/TargetStore.v ===== *)
(** * The tables of Targets: backend/internal/persistence/gormstore/targets.go,
    matter_storage.go and homekit_ids.go

    Configurations with their virtual devices, and the identities controllers know a Target
    by: Matter endpoints, HomeKit accessories and their resources. What is stored encrypted
    stands for what it decrypts to. *)

From S2P Require Import Prelude Float64 DeviceModel Lookup ModelContract ConsumerCatalog FloatText Text MappingBinding TargetConfig.

Record MatterIdentity := MkIdentity { me_EndpointID : Z; me_DeviceType : Type_; me_Tombstone : bool }.

(** Identities are by Target and consumer device, accessories by Target and device, their
    resources by a key besides. Bindings are the table of the mappings. *)
Record TargetTables := MkTargetTables {
  target_rows : gmap string Config;
  identities : gmap (string * string) MatterIdentity;
  accessories : gmap (string * string) Z;
  resources : gmap (string * string * string) Z;
  runtime_values : gmap (string * string) string;
  bindings : gmap string Binding;
}.

Definition set_target_rows (t : TargetTables) x :=
  MkTargetTables x (identities t) (accessories t) (resources t) (runtime_values t) (bindings t).
Definition set_identities (t : TargetTables) x :=
  MkTargetTables (target_rows t) x (accessories t) (resources t) (runtime_values t) (bindings t).
Definition set_accessories (t : TargetTables) x :=
  MkTargetTables (target_rows t) (identities t) x (resources t) (runtime_values t) (bindings t).
Definition set_resources (t : TargetTables) x :=
  MkTargetTables (target_rows t) (identities t) (accessories t) x (runtime_values t) (bindings t).
Definition set_runtime_values (t : TargetTables) x :=
  MkTargetTables (target_rows t) (identities t) (accessories t) (resources t) x (bindings t).
Definition set_bindings (t : TargetTables) x :=
  MkTargetTables (target_rows t) (identities t) (accessories t) (resources t) (runtime_values t) x.

Inductive TargetStoreError :=
| TargetDatabaseFailed
| TargetConstraintFailed
| TargetTypeChanged
| TargetRowNotFound
| NotMatterTarget
| InvalidStorageArgument
| ErrMatterDeviceTypeChange
| ErrMatterEndpointIDsExhausted
| MatterIdentityNotFound.

(** A transaction: whether the database can execute it, and what it does. *)
Definition commit {A} (io : bool) (r : result TargetStoreError A) : result TargetStoreError A :=
  if io then r else Err TargetDatabaseFailed.

(** ** Configurations *)

(** The row of a configuration: the flat fields, the protocol of Matter, the devices. *)
Definition row_of (c : Config) : Config :=
  let m := default zero_matter (tc_MatterConfig c) in
  let m := MkMatter (mt_NetworkInterface m) (mt_UDPPort m) (Some (default 0 (mt_Discriminator m))) (mt_Passcode m)
             (mt_VendorID m) (mt_ProductID m) (mt_ProductName m) (mt_SerialNumber m) (mt_CommissioningWindowSeconds m) in
  set_Devices (set_protocols c None (Some m)) [] (expand_devices (tc_DeviceIDs c) (tc_Devices c)).

(** A column is unique among the enabled Targets, where it is not empty. *)
Definition column_taken (column : Config -> string) (t : TargetTables) (c : Config) : bool :=
  tc_Enabled c && negb (is_empty (column c)) &&
  existsb (fun kv => negb (kv.1 =s tc_ID c) && tc_Enabled kv.2 && (column kv.2 =s column c)) (map_to_list (target_rows t)).

(** The type a device has while it is enabled; the last of the devices with an identifier. *)
Definition active_types (devices : list VirtualDevice) : gmap string Type_ :=
  fold_left (fun m v => if vd_Enabled v then <[vd_ID v := vd_Type v]> m else m) devices ∅.

(** The endpoints of a Matter bridge follow its devices. *)
Definition type_changes (id : string) (active : gmap string Type_) (t : TargetTables) : bool :=
  existsb (fun kv => (kv.1.1 =s id) &&
    match active !! kv.1.2 with Some next => negb (next =s me_DeviceType kv.2) | None => false end)
    (map_to_list (identities t)).
Definition synchronize (id : string) (active : gmap string Type_) (k : string * string) (x : MatterIdentity) : MatterIdentity :=
  if k.1 =s id then MkIdentity (me_EndpointID x) (me_DeviceType x) (negb (present (active !! k.2))) else x.

(** The sources and the type of the devices; and the consumer mappings they leave stale. *)
Definition device_scopes (devices : list VirtualDevice) : gmap string (list string * Type_) :=
  fold_left (fun m v => <[vd_ID v := (SourceDeviceIDs v, vd_Type v)]> m) devices ∅.
Definition scoped (id : string) (b : Binding) : bool :=
  bool_decide (mb_Stage b = StageConsumer) && (mb_TargetID b =s id).
Definition stale_binding (scopes : gmap string (list string * Type_)) (b : Binding) : bool :=
  match scopes !! mb_ConsumerDeviceID b with
  | None => true
  | Some (sources, type) =>
      negb (bool_decide (mb_DeviceID b ∈ sources)) || negb (EffectiveConsumerDeviceType b =s type)
  end.

Definition SaveTarget (io : bool) (t : TargetTables) (c : Config) : result TargetStoreError TargetTables :=
  let c := NormalizeProtocolConfig c in
  let row := row_of c in
  let devices := tc_Devices row in
  commit io (
    guard! match target_rows t !! tc_ID c with
           | Some existing => tc_Type existing =s tc_Type c
           | None => true
           end else TargetTypeChanged in
    guard! negb (column_taken tc_Address t row || column_taken tc_SetupID t row || column_taken tc_StorePath t row)
      else TargetConstraintFailed in
    guard! bool_decide (NoDup (vd_ID <$> devices)) else TargetConstraintFailed in
    let t := set_target_rows t (<[tc_ID c := row]> (target_rows t)) in
    let! t :=
      if tc_Type c =s "matter" then
        let active := active_types devices in
        guard! negb (type_changes (tc_ID c) active t) else ErrMatterDeviceTypeChange in
        Ok (set_identities t (map_imap (fun k x => Some (synchronize (tc_ID c) active k x)) (identities t)))
      else Ok t in
    let scopes := device_scopes devices in
    Ok (set_bindings t (filter (fun kv => negb (scoped (tc_ID c) kv.2 && stale_binding scopes kv.2) = true) (bindings t)))).

(** Rows of other tables refer to the Target and go with it. *)
Definition DeleteTarget (io : bool) (t : TargetTables) (id : string) : result TargetStoreError TargetTables :=
  commit io (
    guard! present (target_rows t !! id) else TargetRowNotFound in
    Ok (MkTargetTables (delete id (target_rows t))
          (filter (fun kv => kv.1.1 <> id) (identities t))
          (filter (fun kv => kv.1.1 <> id) (accessories t))
          (filter (fun kv => kv.1.1.1 <> id) (resources t))
          (filter (fun kv => kv.1.1 <> id) (runtime_values t))
          (filter (fun kv => scoped id kv.2 = false) (bindings t)))).

Definition vdevice_le (a b : VirtualDevice) : Prop := str_leb (vd_ID a) (vd_ID b) = true.
#[export] Instance vdevice_le_dec : RelDecision vdevice_le.
Proof. intros a b. unfold vdevice_le. apply _. Defined.

(** A row read back: all devices of a Target are written at once, so that their order is
    that of their identifiers. *)
Definition list_target (row : Config) : Config :=
  let devices := merge_sort vdevice_le (tc_Devices row) in
  let c := NormalizeProtocolConfig
    (set_protocols row None (if IsMatterType (tc_Type row) then tc_MatterConfig row else None)) in
  set_Devices c (active_sources devices) devices.
Definition ListTargets (io : bool) (t : TargetTables) : result TargetStoreError (gmap string Config) :=
  commit io (Ok (list_target <$> target_rows t)).

(** ** Matter *)

Definition requireMatterTarget (t : TargetTables) (id : string) : result TargetStoreError unit :=
  match target_rows t !! id with
  | None => Err TargetRowNotFound
  | Some row => if IsMatterType (tc_Type row) then Ok tt else Err NotMatterTarget
  end.

Definition maxMatterEndpointID : Z := 65534.

(** [COALESCE(MAX(...), floor)] over the rows [ids] of a scope. *)
Definition max_or (floor : Z) (ids : list Z) : Z :=
  match ids with
  | [] => floor
  | id :: ids => fold_left Z.max ids id
  end.
Definition endpoint_ids (t : TargetTables) (id : string) : list Z :=
  omap (fun kv => if kv.1.1 =s id then Some (me_EndpointID kv.2) else None) (map_to_list (identities t)).

Definition AllocateMatterEndpoint (io : bool) (t : TargetTables) (targetID device : string) (type : Type_)
    : result TargetStoreError (TargetTables * (Z * bool)) :=
  guard! negb (blank targetID) && negb (blank device) else InvalidStorageArgument in
  guard! negb (is_empty type) && present (ModelContractFor type) else InvalidStorageArgument in
  commit io (
    check! requireMatterTarget t targetID in
    match identities t !! (targetID, device) with
    | Some existing =>
        guard! me_DeviceType existing =s type else ErrMatterDeviceTypeChange in
        if me_Tombstone existing then
          Ok (set_identities t (<[(targetID, device) := MkIdentity (me_EndpointID existing) (me_DeviceType existing) false]>
                                  (identities t)), (me_EndpointID existing, true))
        else Ok (t, (me_EndpointID existing, false))
    | None =>
        let maxID := max_or 1 (endpoint_ids t targetID) in
        guard! maxID <? maxMatterEndpointID else ErrMatterEndpointIDsExhausted in
        Ok (set_identities t (<[(targetID, device) := MkIdentity (maxID + 1) type false]> (identities t)), (maxID + 1, true))
    end).

Definition TombstoneMatterEndpoint (io : bool) (t : TargetTables) (targetID device : string)
    : result TargetStoreError TargetTables :=
  guard! negb (blank targetID) && negb (blank device) else InvalidStorageArgument in
  commit io (
    check! requireMatterTarget t targetID in
    match identities t !! (targetID, device) with
    | None => Err MatterIdentityNotFound
    | Some x => Ok (set_identities t (<[(targetID, device) := MkIdentity (me_EndpointID x) (me_DeviceType x) true]> (identities t)))
    end).

Definition ConfirmMatterEndpointDeviceType (io : bool) (t : TargetTables) (targetID device : string) (type : Type_)
    (confirmed : bool) : result TargetStoreError TargetTables :=
  guard! confirmed else ErrMatterDeviceTypeChange in
  guard! negb (is_empty type) && present (ModelContractFor type) else InvalidStorageArgument in
  commit io (
    check! requireMatterTarget t targetID in
    match identities t !! (targetID, device) with
    | None => Err MatterIdentityNotFound
    | Some x => Ok (set_identities t (<[(targetID, device) := MkIdentity (me_EndpointID x) type (me_Tombstone x)]> (identities t)))
    end).

Definition MatterEndpointIdentity (io : bool) (t : TargetTables) (targetID device : string)
    : result TargetStoreError (option MatterIdentity) :=
  guard! negb (blank targetID) && negb (blank device) else InvalidStorageArgument in
  guard! io else TargetDatabaseFailed in
  check! requireMatterTarget t targetID in
  Ok (identities t !! (targetID, device)).

Definition validateMatterRuntimeKey (targetID key : string) : bool :=
  negb (blank targetID) && negb (is_empty key) && (Z.of_nat (String.length key) <=? 1024) && negb (Contains key NUL).

Definition PutMatterRuntimeValue (io : bool) (t : TargetTables) (targetID key value : string)
    : result TargetStoreError TargetTables :=
  guard! validateMatterRuntimeKey targetID key else InvalidStorageArgument in
  commit io (
    check! requireMatterTarget t targetID in
    Ok (set_runtime_values t (<[(targetID, key) := value]> (runtime_values t)))).
Definition GetMatterRuntimeValue (io : bool) (t : TargetTables) (targetID key : string)
    : result TargetStoreError (option string) :=
  guard! validateMatterRuntimeKey targetID key else InvalidStorageArgument in
  guard! io else TargetDatabaseFailed in
  check! requireMatterTarget t targetID in
  Ok (runtime_values t !! (targetID, key)).
Definition DeleteMatterRuntimeValue (io : bool) (t : TargetTables) (targetID key : string)
    : result TargetStoreError TargetTables :=
  guard! validateMatterRuntimeKey targetID key else InvalidStorageArgument in
  guard! io else TargetDatabaseFailed in
  check! requireMatterTarget t targetID in
  Ok (set_runtime_values t (delete (targetID, key) (runtime_values t))).
Definition ClearMatterRuntimeValues (io : bool) (t : TargetTables) (targetID : string)
    : result TargetStoreError TargetTables :=
  guard! negb (blank targetID) else InvalidStorageArgument in
  commit io (
    check! requireMatterTarget t targetID in
    Ok (set_runtime_values t (filter (fun kv => kv.1.1 <> targetID) (runtime_values t)))).

(** ** HomeKit *)

Definition accessory_ids (t : TargetTables) (targetID : string) : list Z :=
  omap (fun kv => if kv.1.1 =s targetID then Some kv.2 else None) (map_to_list (accessories t)).
Definition resource_ids (t : TargetTables) (targetID device : string) : list Z :=
  omap (fun kv => if (kv.1.1.1 =s targetID) && (kv.1.1.2 =s device) then Some kv.2 else None) (map_to_list (resources t)).

(** The Target of an accessory and of a resource is a foreign key. *)
Definition HomeKitAccessoryAID (io : bool) (t : TargetTables) (targetID device : string)
    : result TargetStoreError (TargetTables * Z) :=
  commit io (
    match accessories t !! (targetID, device) with
    | Some aid => Ok (t, aid)
    | None =>
        guard! present (target_rows t !! targetID) else TargetConstraintFailed in
        let aid := max_or 1 (accessory_ids t targetID) + 1 in
        Ok (set_accessories t (<[(targetID, device) := aid]> (accessories t)), aid)
    end).

Definition HomeKitIID (io : bool) (t : TargetTables) (targetID device resource : string)
    : result TargetStoreError (TargetTables * Z) :=
  commit io (
    match resources t !! (targetID, device, resource) with
    | Some iid => Ok (t, iid)
    | None =>
        guard! present (target_rows t !! targetID) else TargetConstraintFailed in
        let iid := max_or 0 (resource_ids t targetID device) + 1 in
        Ok (set_resources t (<[(targetID, device, resource) := iid]> (resources t)), iid)
    end).

(** ** Starting *)

(** A start that finds no Target creates one. *)
Definition default_target : Config :=
  MkConfig "apple-main" "apple-hap" "HomeLoom 主桥" true None (Some (MkMatter "" 0 (Some 0) "" 0 0 "" "" 0)) [] []
    ":51826" "00102003" "HLM1" "./data/hap/apple-main".
Definition seedDefaults (t : TargetTables) : TargetTables :=
  if decide (target_rows t = ∅) then set_target_rows t (<[tc_ID default_target := default_target]> (target_rows t)) else t.

(** ** Runs *)

Inductive TargetOp :=
| OpSave (c : Config)
| OpDelete (id : string)
| OpAllocate (target device : string) (type : Type_)
| OpTombstone (target device : string)
| OpConfirm (target device : string) (type : Type_) (confirmed : bool)
| OpPut (target key value : string)
| OpDeleteValue (target key : string)
| OpClear (target : string)
| OpAccessory (target device : string)
| OpResource (target device resource : string)
| OpMappings (m : gmap string Binding) (* the mappings are written by their own service *)
| OpSeed.

Definition executed {A} (t : TargetTables) (f : A -> TargetTables) (r : result TargetStoreError A) : TargetTables :=
  match r with Ok x => f x | Err _ => t end.
Definition apply_op (io : bool) (t : TargetTables) (op : TargetOp) : TargetTables :=
  match op with
  | OpSave c => executed t id (SaveTarget io t c)
  | OpDelete i => executed t id (DeleteTarget io t i)
  | OpAllocate i d ty => executed t fst (AllocateMatterEndpoint io t i d ty)
  | OpTombstone i d => executed t id (TombstoneMatterEndpoint io t i d)
  | OpConfirm i d ty b => executed t id (ConfirmMatterEndpointDeviceType io t i d ty b)
  | OpPut i k v => executed t id (PutMatterRuntimeValue io t i k v)
  | OpDeleteValue i k => executed t id (DeleteMatterRuntimeValue io t i k)
  | OpClear i => executed t id (ClearMatterRuntimeValues io t i)
  | OpAccessory i d => executed t fst (HomeKitAccessoryAID io t i d)
  | OpResource i d k => executed t fst (HomeKitIID io t i d k)
  | OpMappings m => set_bindings t m
  | OpSeed => if io then seedDefaults t else t
  end.

(** Operations that do not delete the Target [id]. *)
Inductive later (id : string) : TargetTables -> TargetTables -> Prop :=
| later_refl t : later id t t
| later_step io op t t' : op <> OpDelete id -> later id (apply_op io t op) t' -> later id t t'.

Definition no_targets : TargetTables := MkTargetTables ∅ ∅ ∅ ∅ ∅ ∅.
Inductive target_run : TargetTables -> Prop :=
| target_start : target_run no_targets
| target_next io op t : target_run t -> target_run (apply_op io t op).

(** ** Identities are given once *)

Lemma fold_max_ge l x y : x ∈ l \/ x <= y -> x <= fold_left Z.max l y.
Proof.
  revert y. induction l as [|z l IH]; intros y; simpl; [intros [Hx|]; [by apply not_elem_of_nil in Hx|done]|].
  intros [[->|Hx]%elem_of_cons|Hx]; apply IH; [right; lia|by left|right; lia].
Qed.
Lemma max_or_ge floor ids x : x ∈ ids -> x <= max_or floor ids.
Proof.
  destruct ids as [|y ids]; simpl; [by intros Hx%not_elem_of_nil|].
  intros [->|Hx]%elem_of_cons; apply fold_max_ge; [right; lia|by left].
Qed.
Lemma max_or_bounds floor ids lo hi : floor <= hi -> lo <= floor -> (forall x, x ∈ ids -> lo <= x <= hi) ->
  lo <= max_or floor ids <= hi.
Proof.
  intros Hf Hlo Hids. destruct ids as [|y ids]; simpl; [lia|].
  assert (forall l z, lo <= z <= hi -> (forall x, x ∈ l -> lo <= x <= hi) -> lo <= fold_left Z.max l z <= hi) as Hl.
  { induction l as [|w l IH]; intros z Hz Hl; simpl; [done|]. apply IH; [|set_solver].
    pose proof (Hl w (list_elem_of_here _ _)). lia. }
  apply Hl; [apply Hids; left|]. intros x Hx. apply Hids. by right.
Qed.

(** An injective table of numbers, by scopes: a new key gets one more than the greatest. *)
Section Scopes.
Context `{Countable K} {V : Type} (number : V -> Z) (scope : K -> K -> Prop).

Definition distinct (m : gmap K V) : Prop :=
  forall k l x y, m !! k = Some x -> m !! l = Some y -> scope k l -> number x = number y -> k = l.

Lemma distinct_subseteq m m' : distinct m ->
  (forall k x, m' !! k = Some x -> exists y, m !! k = Some y /\ number y = number x) -> distinct m'.
Proof.
  intros Hm Hs k l x y Hk Hl Hkl Hxy. destruct (Hs k x Hk) as (x' & Hx & Ex), (Hs l y Hl) as (y' & Hy & Ey).
  apply (Hm k l x' y'); [done..|congruence].
Qed.

Lemma distinct_fresh m k x : distinct m -> (forall j l, scope j l -> scope l j) ->
  (forall l y, m !! l = Some y -> scope k l -> number y < number x) -> distinct (<[k := x]> m).
Proof.
  intros Hm Hsym Hfresh j l y z [[<- <-]|[Hj Hy]]%lookup_insert_Some [[<- <-]|[Hl Hz]]%lookup_insert_Some Hjl Hyz; [done| | |by eauto].
  - pose proof (Hfresh l z Hz Hjl). lia.
  - pose proof (Hfresh j y Hy (Hsym _ _ Hjl)). lia.
Qed.
End Scopes.

Definition same_target (k l : string * string) : Prop := k.1 = l.1.
Definition same_accessory (k l : string * string * string) : Prop := k.1 = l.1.

Record ids_ok (t : TargetTables) : Prop := {
  io_endpoints : distinct me_EndpointID same_target (identities t);
  io_range : forall k x, identities t !! k = Some x -> 2 <= me_EndpointID x <= maxMatterEndpointID;
  io_accessories : distinct id same_target (accessories t);
  io_accessory_range : forall k x, accessories t !! k = Some x -> 2 <= x;
  io_resources : distinct id same_accessory (resources t);
}.

(** What was given stays given. *)
Record keeps (id : string) (t t' : TargetTables) : Prop := {
  kp_endpoints : forall d x, identities t !! (id, d) = Some x ->
    exists y, identities t' !! (id, d) = Some y /\ me_EndpointID y = me_EndpointID x;
  kp_accessories : forall d x, accessories t !! (id, d) = Some x -> accessories t' !! (id, d) = Some x;
  kp_resources : forall d r x, resources t !! (id, d, r) = Some x -> resources t' !! (id, d, r) = Some x;
}.
Lemma keeps_refl id t : keeps id t t.
Proof. constructor; eauto. Qed.
Lemma keeps_trans id t1 t2 t3 : keeps id t1 t2 -> keeps id t2 t3 -> keeps id t1 t3.
Proof.
  intros [H1 H2 H3] [K1 K2 K3]. constructor; [|auto..].
  intros d x (y & Hy & Ey)%H1. apply K1 in Hy as (z & Hz & Ez). exists z. split; [done|congruence].
Qed.

(** Changes of identities that keep their numbers. *)
Lemma ids_same t m : ids_ok t ->
  (forall k x, m !! k = Some x -> exists y, identities t !! k = Some y /\ me_EndpointID y = me_EndpointID x) ->
  ids_ok (set_identities t m).
Proof.
  intros [? Hr ? ? ?] Hm. constructor; simpl; try done; [by eapply distinct_subseteq|].
  intros k x (y & Hy & <-)%Hm. by apply (Hr k).
Qed.
Lemma keeps_same id t m :
  (forall d x, identities t !! (id, d) = Some x -> exists y, m !! (id, d) = Some y /\ me_EndpointID y = me_EndpointID x) ->
  keeps id t (set_identities t m).
Proof. intros Hm. constructor; simpl; auto. Qed.

Lemma insert_same (m : gmap (string * string) MatterIdentity) k x y : m !! k = Some x -> me_EndpointID y = me_EndpointID x ->
  (forall l z, <[k := y]> m !! l = Some z -> exists u, m !! l = Some u /\ me_EndpointID u = me_EndpointID z) /\
  (forall l z, m !! l = Some z -> exists u, <[k := y]> m !! l = Some u /\ me_EndpointID u = me_EndpointID z).
Proof.
  intros Hk E. split; intros l z.
  - intros [[<- <-]|[_ Hl]]%lookup_insert_Some; eauto.
  - intros Hl. destruct (decide (k = l)) as [->|Hne]; [exists y; rewrite lookup_insert_eq; split; [done|congruence]|].
    exists z. by rewrite lookup_insert_ne.
Qed.

Lemma elem_endpoint_ids t i d x : identities t !! (i, d) = Some x -> me_EndpointID x ∈ endpoint_ids t i.
Proof.
  intros Hx. unfold endpoint_ids. apply list_elem_of_omap. exists ((i, d), x).
  split; [by apply elem_of_map_to_list|]. simpl. by rewrite bool_decide_eq_true_2.
Qed.
Lemma endpoint_ids_range t i z : ids_ok t -> z ∈ endpoint_ids t i -> 2 <= z <= maxMatterEndpointID.
Proof.
  intros Hok. unfold endpoint_ids. rewrite list_elem_of_omap. intros ([k x] & Hin%elem_of_map_to_list & Hz).
  case_bool_decide; [|done]. injection Hz as <-. by apply (io_range t Hok k).
Qed.
Lemma elem_accessory_ids t i d x : accessories t !! (i, d) = Some x -> x ∈ accessory_ids t i.
Proof.
  intros Hx. unfold accessory_ids. apply list_elem_of_omap. exists ((i, d), x).
  split; [by apply elem_of_map_to_list|]. simpl. by rewrite bool_decide_eq_true_2.
Qed.
Lemma elem_resource_ids t i d r x : resources t !! (i, d, r) = Some x -> x ∈ resource_ids t i d.
Proof.
  intros Hx. unfold resource_ids. apply list_elem_of_omap. exists ((i, d, r), x).
  split; [by apply elem_of_map_to_list|]. simpl. by rewrite !bool_decide_eq_true_2.
Qed.

(** Every operation keeps the numbers distinct, and those of Targets it does not delete. *)
Definition good id t t' : Prop := ids_ok t' /\ keeps id t t'.
Lemma numbers_refl id t : ids_ok t -> good id t t.
Proof. split; [done|apply keeps_refl]. Qed.
Lemma good_same id t k x y : ids_ok t -> identities t !! k = Some x -> me_EndpointID y = me_EndpointID x ->
  good id t (set_identities t (<[k := y]> (identities t))).
Proof.
  intros Hok Hk E. destruct (insert_same _ k x y Hk E) as [Hback Hforth].
  split; [by apply ids_same|]. apply keeps_same. intros d z. apply Hforth.
Qed.
Lemma good_rows id t rows : ids_ok t -> good id t (set_target_rows t rows).
Proof. intros [? ? ? ? ?]. split; constructor; simpl; eauto. Qed.
Lemma good_bindings id t b : ids_ok t -> good id t (set_bindings t b).
Proof. intros [? ? ? ? ?]. split; constructor; simpl; eauto. Qed.
Lemma good_values id t v : ids_ok t -> good id t (set_runtime_values t v).
Proof. intros [? ? ? ? ?]. split; constructor; simpl; eauto. Qed.
Lemma good_trans id t1 t2 t3 : good id t1 t2 -> (ids_ok t2 -> good id t2 t3) -> good id t1 t3.
Proof. intros [H1 H2] H3. destruct (H3 H1) as [H4 H5]. split; [done|by eapply keeps_trans]. Qed.

Lemma good_executed {A} id t (f : A -> TargetTables) r : ids_ok t ->
  (forall x, r = Ok x -> good id t (f x)) -> good id t (executed t f r).
Proof. intros Hok Hr. destruct r; simpl; [by apply Hr|by apply numbers_refl]. Qed.

Lemma good_save id io t c t' : ids_ok t -> SaveTarget io t c = Ok t' -> good id t t'.
Proof.
  intros Hok. unfold SaveTarget, commit. set (n := NormalizeProtocolConfig c). destruct io; [|done].
  destruct (match target_rows t !! tc_ID n with Some x => tc_Type x =s tc_Type n | None => true end); [|done].
  destruct (negb (_ || _ || _)); [|done]. destruct (bool_decide (NoDup _)); [|done].
  set (t1 := set_target_rows t _). assert (good id t t1) as H1 by by apply good_rows.
  destruct (tc_Type n =s "matter").
  - destruct (negb (type_changes _ _ _)); [|done]. intros [= <-]. eapply good_trans; [exact H1|]. intros Hok1.
    eapply good_trans; [|intros; by apply good_bindings]. split; [apply ids_same; [done|]|apply keeps_same].
    + intros k x. rewrite map_lookup_imap. intros Hx. apply bind_Some in Hx as (y & Hy & [= <-]).
      exists y. split; [done|]. unfold synchronize. by case_match.
    + intros d x Hx. rewrite map_lookup_imap. simpl in Hx |- *. rewrite Hx. simpl. eexists. split; [done|]. unfold synchronize. by case_match.
  - intros [= <-]. eapply good_trans; [exact H1|]. intros Hok1. by apply good_bindings.
Qed.

Lemma ids_deleted io t i t' : ids_ok t -> DeleteTarget io t i = Ok t' -> ids_ok t'.
Proof.
  intros [? Hr ? Ha ?]. unfold DeleteTarget, commit. destruct io; [|done]. destruct (present _); [|done]. intros [= <-].
  constructor; simpl.
  - eapply distinct_subseteq; [done|]. intros k x [Hx _]%map_lookup_filter_Some. eauto.
  - intros k x [Hx _]%map_lookup_filter_Some. by apply (Hr k).
  - eapply distinct_subseteq; [done|]. intros k x [Hx _]%map_lookup_filter_Some. eauto.
  - intros k x [Hx _]%map_lookup_filter_Some. by apply (Ha k).
  - eapply distinct_subseteq; [done|]. intros k x [Hx _]%map_lookup_filter_Some. eauto.
Qed.
Lemma keeps_deleted id io t i t' : i <> id -> DeleteTarget io t i = Ok t' -> keeps id t t'.
Proof.
  intros Hne. unfold DeleteTarget, commit. destruct io; [|done]. destruct (present _); [|done]. intros [= <-].
  constructor; simpl.
  - intros d x Hx. exists x. split; [|done]. apply map_lookup_filter_Some. split; [done|]. simpl. congruence.
  - intros d x Hx. apply map_lookup_filter_Some. split; [done|]. simpl. congruence.
  - intros d r x Hx. apply map_lookup_filter_Some. split; [done|]. simpl. congruence.
Qed.

(** What an allocation gives: the number the device has, or else a new one. *)
Lemma allocate_spec id io t i d ty t' e b : ids_ok t -> AllocateMatterEndpoint io t i d ty = Ok (t', (e, b)) ->
  good id t t' /\ exists x, identities t' !! (i, d) = Some x /\ me_EndpointID x = e.
Proof.
  intros Hok. unfold AllocateMatterEndpoint, commit. destruct (negb (blank i) && _); [|done].
  destruct (negb (is_empty ty) && _); [|done]. destruct io; [|done]. destruct (requireMatterTarget t i); [|done].
  destruct (identities t !! (i, d)) as [x|] eqn:Hx.
  - destruct (me_DeviceType x =s ty); [|done]. destruct (me_Tombstone x); intros [= <- <- <-].
    + split; [by eapply good_same|]. simpl. rewrite lookup_insert_eq. eexists. by split.
    + split; [by apply numbers_refl|]. exists x. by split.
  - destruct (Z.ltb_spec (max_or 1 (endpoint_ids t i)) maxMatterEndpointID) as [Hlt|]; [|done].
    intros [= <- <- <-]. simpl. split; [|rewrite lookup_insert_eq; eexists; by split].
    pose proof (max_or_bounds 1 (endpoint_ids t i) 1 maxMatterEndpointID) as Hb.
    assert (1 <= max_or 1 (endpoint_ids t i) <= maxMatterEndpointID) as Hmax.
    { apply Hb; [done|done|]. intros z Hz. pose proof (endpoint_ids_range t i z Hok Hz). lia. }
    split; [|apply keeps_same].
    + destruct Hok as [Hd Hr ? ? ?]. constructor; simpl; try done.
      * apply distinct_fresh; [done|unfold same_target; congruence|]. intros [j l] y Hy Hj. unfold same_target in Hj. simpl in Hj |- *.
        subst j. pose proof (max_or_ge 1 _ _ (elem_endpoint_ids t i l y Hy)). lia.
      * intros k y [[<- <-]|[_ Hy]]%lookup_insert_Some; [simpl; lia|by apply (Hr k)].
    + intros l y Hy. destruct (decide ((i, d) = (id, l))) as [Heq|Hne]; [rewrite <- Heq in Hy; congruence|].
      exists y. by rewrite lookup_insert_ne.
Qed.

Lemma accessory_spec id io t i d t' e : ids_ok t -> HomeKitAccessoryAID io t i d = Ok (t', e) ->
  good id t t' /\ accessories t' !! (i, d) = Some e.
Proof.
  intros Hok. unfold HomeKitAccessoryAID, commit. destruct io; [|done].
  destruct (accessories t !! (i, d)) as [x|] eqn:Hx; [intros [= <- <-]; split; [by apply numbers_refl|done]|].
  destruct (present _); [|done]. intros [= <- <-]. simpl. split; [|by rewrite lookup_insert_eq].
  destruct Hok as [? ? Hd Hr ?]. split; constructor; simpl; try done.
  - apply distinct_fresh; [done|unfold same_target; congruence|]. intros [j l] y Hy Hj. unfold same_target in Hj. simpl in Hj |- *.
    subst j. pose proof (max_or_ge 1 _ _ (elem_accessory_ids t i l y Hy)). unfold Datatypes.id. lia.
  - intros k y [[<- <-]|[_ Hy]]%lookup_insert_Some; [|by apply (Hr k)].
    assert (1 <= max_or 1 (accessory_ids t i)); [|lia]. destruct (accessory_ids t i) as [|z l] eqn:Hl; [done|].
    rewrite <- Hl. assert (z ∈ accessory_ids t i) as Hz by (rewrite Hl; left).
    pose proof (max_or_ge 1 _ _ Hz). unfold accessory_ids in Hz. rewrite list_elem_of_omap in Hz.
    destruct Hz as ([k y] & Hin%elem_of_map_to_list & Hz). case_bool_decide; [|done]. injection Hz as <-.
    pose proof (Hr k _ Hin). simpl in *. lia.
  - eauto.
  - intros l y Hy. destruct (decide ((i, d) = (id, l))) as [Heq|Hne]; [rewrite <- Heq in Hy; congruence|].
    by rewrite lookup_insert_ne.
Qed.

Lemma resource_spec id io t i d r t' e : ids_ok t -> HomeKitIID io t i d r = Ok (t', e) ->
  good id t t' /\ resources t' !! (i, d, r) = Some e.
Proof.
  intros Hok. unfold HomeKitIID, commit. destruct io; [|done].
  destruct (resources t !! (i, d, r)) as [x|] eqn:Hx; [intros [= <- <-]; split; [by apply numbers_refl|done]|].
  destruct (present _); [|done]. intros [= <- <-]. simpl. split; [|by rewrite lookup_insert_eq].
  destruct Hok as [? ? ? ? Hd]. split; constructor; simpl; try done.
  - apply distinct_fresh; [done|unfold same_accessory; congruence|]. intros [[j l] s] y Hy Hj. unfold same_accessory in Hj.
    simpl in Hj |- *. injection Hj as <- <-. pose proof (max_or_ge 0 _ _ (elem_resource_ids t i d s y Hy)). unfold Datatypes.id. lia.
  - eauto.
  - intros l s y Hy. destruct (decide ((i, d, r) = (id, l, s))) as [Heq|Hne]; [rewrite <- Heq in Hy; congruence|].
    by rewrite lookup_insert_ne.
Qed.

Lemma step_good id io t op : ids_ok t -> op <> OpDelete id -> good id t (apply_op io t op).
Proof.
  intros Hok Hne. destruct op as [c|i|i d ty|i d|i d ty b|i k v|i k|i|i d|i d r|m|]; simpl.
  - apply good_executed; [done|]. intros x Hx. by eapply good_save.
  - apply good_executed; [done|]. intros t' Hr. split; [by eapply ids_deleted|]. eapply keeps_deleted; [|exact Hr]. congruence.
  - apply good_executed; [done|]. intros [t' [e b]] Hx. by eapply allocate_spec.
  - apply good_executed; [done|]. intros t'. unfold TombstoneMatterEndpoint, commit. destruct (negb _ && _); [|done].
    destruct io; [|done]. destruct (requireMatterTarget t i); [|done]. destruct (identities t !! (i, d)) eqn:Hx; [|done].
    intros [= <-]. by eapply good_same.
  - apply good_executed; [done|]. intros t'. unfold ConfirmMatterEndpointDeviceType, commit. destruct b; [|done].
    destruct (negb _ && _); [|done]. destruct io; [|done]. destruct (requireMatterTarget t i); [|done].
    destruct (identities t !! (i, d)) eqn:Hx; [|done]. intros [= <-]. by eapply good_same.
  - apply good_executed; [done|]. intros t'. unfold PutMatterRuntimeValue, commit. repeat case_match; try done.
    intros [= <-]. by apply good_values.
  - apply good_executed; [done|]. intros t'. unfold DeleteMatterRuntimeValue. repeat case_match; try done.
    intros [= <-]. by apply good_values.
  - apply good_executed; [done|]. intros t'. unfold ClearMatterRuntimeValues, commit. repeat case_match; try done.
    intros [= <-]. by apply good_values.
  - apply good_executed; [done|]. intros [t' e] Hx. by eapply accessory_spec.
  - apply good_executed; [done|]. intros [t' e] Hx. by eapply resource_spec.
  - by apply good_bindings.
  - destruct io; [|by apply numbers_refl]. unfold seedDefaults. case_decide; [by apply good_rows|by apply numbers_refl].
Qed.
Lemma step_ids io t op : ids_ok t -> ids_ok (apply_op io t op).
Proof.
  intros Hok. destruct op as [c|i|i d ty|i d|i d ty b|i k v|i k|i|i d|i d r|m|];
    try by apply (step_good "" io t _ Hok).
  simpl. destruct (DeleteTarget io t i) eqn:Hr; simpl; [by eapply ids_deleted|done].
Qed.

Lemma run_ids t : target_run t -> ids_ok t.
Proof.
  induction 1 as [|io op t _ IH]; [|by apply step_ids].
  constructor; unfold distinct; simpl; intros; simplify_map_eq.
Qed.
Lemma later_good i t t' : later i t t' -> ids_ok t -> good i t t'.
Proof.
  induction 1 as [t|io op t t' Hne _ IH]; intros Hok; [by apply numbers_refl|].
  eapply good_trans; [by apply step_good|exact IH].
Qed.

(** C16: a Matter controller finds a device behind the endpoint it had. Once a device of a
    Target has been given an endpoint, it gets the same number ever after, and no other
    device of that Target gets it: whatever is saved, removed, restored, confirmed or reset,
    in whatever order and with whatever failures of the database, until the Target itself is
    deleted. The numbers stay within the range of the bridge. *)
Theorem endpoints_stable t io i d ty t1 e b t2 io' d' ty' t3 e' b' : target_run t ->
  AllocateMatterEndpoint io t i d ty = Ok (t1, (e, b)) -> later i t1 t2 ->
  AllocateMatterEndpoint io' t2 i d' ty' = Ok (t3, (e', b')) ->
  2 <= e <= maxMatterEndpointID /\ (e' = e <-> d' = d).
Proof.
  intros Ht%run_ids Ha Hl Hb. destruct (allocate_spec i _ _ _ _ _ _ _ _ Ht Ha) as [[Ht1 _] (x & Hx & Ex)].
  destruct (later_good _ _ _ Hl Ht1) as [Ht2 Hk]. destruct (kp_endpoints _ _ _ Hk _ _ Hx) as (y & Hy & Ey).
  destruct (allocate_spec i _ _ _ _ _ _ _ _ Ht2 Hb) as [[Ht3 Hk'] (z & Hz & Ez)].
  destruct (kp_endpoints _ _ _ Hk' _ _ Hy) as (w & Hw & Ew).
  split; [rewrite <- Ex; by apply (io_range _ Ht1 (i, d))|]. split; [intros ->|intros ->].
  - assert ((i, d') = (i, d)) as [= ->]; [|done]. by apply (io_endpoints _ Ht3 _ _ z w); [..|done|congruence].
  - assert (z = w) by congruence. congruence.
Qed.

Lemma endpoints_stable_witness :
  let io := fun t op => apply_op true t op in
  let config := MkConfig "bridge" "matter" "Bridge" true None (Some zero_matter) []
    [MkVirtualDevice "lamp" "Lamp" TypeLightbulb "source" [] true] "" "" "" "" in
  let t := io no_targets (OpSave config) in
  let t1 := io t (OpAllocate "bridge" "lamp" TypeLightbulb) in
  let t2 := io (io t1 (OpTombstone "bridge" "lamp")) (OpAllocate "bridge" "plug" TypeSwitch) in
  AllocateMatterEndpoint true t "bridge" "lamp" TypeLightbulb = Ok (t1, (2, true)) /\
  AllocateMatterEndpoint true t2 "bridge" "lamp" TypeLightbulb =
    Ok (io t2 (OpAllocate "bridge" "lamp" TypeLightbulb), (2, true)) /\
  2 <= 2 <= maxMatterEndpointID /\ (2 = 2 <-> "lamp" = "lamp").
Proof.
  set (io := fun t op => apply_op true t op).
  set (config := MkConfig _ _ _ _ _ _ _ _ _ _ _ _). cbv zeta.
  set (t := io no_targets _). set (t1 := io t _). set (t2 := io (io t1 _) _).
  assert (AllocateMatterEndpoint true t "bridge" "lamp" TypeLightbulb = Ok (t1, (2, true))) as H1 by (vm_compute; reflexivity).
  assert (AllocateMatterEndpoint true t2 "bridge" "lamp" TypeLightbulb =
    Ok (io t2 (OpAllocate "bridge" "lamp" TypeLightbulb), (2, true))) as H2 by (vm_compute; reflexivity).
  split; [exact H1|]. split; [exact H2|].
  apply (endpoints_stable t true "bridge" "lamp" TypeLightbulb t1 2 true t2 true "lamp" TypeLightbulb
    (io t2 (OpAllocate "bridge" "lamp" TypeLightbulb)) 2 true).
  - apply (target_next true), target_start.
  - exact H1.
  - apply (later_step _ true (OpTombstone "bridge" "lamp")); [done|].
    apply (later_step _ true (OpAllocate "bridge" "plug" TypeSwitch)); [done|]. apply later_refl.
  - exact H2.
Defined.

(** a HomeKit controller finds an accessory by the number it had: a device of a Target is
    given one once, no other device of that Target gets it until the Target is deleted, and
    none gets that of the bridge. *)
Theorem accessories_stable t io i d t1 n t2 io' d' t3 n' : target_run t ->
  HomeKitAccessoryAID io t i d = Ok (t1, n) -> later i t1 t2 -> HomeKitAccessoryAID io' t2 i d' = Ok (t3, n') ->
  2 <= n /\ (n' = n <-> d' = d).
Proof.
  intros Ht%run_ids Ha Hl Hb.
  destruct (accessory_spec i _ _ _ _ _ _ Ht Ha) as [[Ht1 _] Hx]. pose proof (io_accessory_range _ Ht1 _ _ Hx) as Hn.
  destruct (later_good _ _ _ Hl Ht1) as [Ht2 Hk]. apply (kp_accessories _ _ _ Hk) in Hx.
  destruct (accessory_spec i _ _ _ _ _ _ Ht2 Hb) as [[Ht3 Hk'] Hz]. apply (kp_accessories _ _ _ Hk') in Hx.
  split; [done|]. split; [intros ->|intros ->; congruence].
  assert ((i, d') = (i, d)) as [= ->]; [|done]. by apply (io_accessories _ Ht3 _ _ n n).
Qed.

Lemma accessories_stable_witness :
  let hap := MkConfig "hap" "apple-hap" "Bridge" true None None [] [] ":51826" "" "" "" in
  let t := apply_op true no_targets (OpSave hap) in
  let t1 := apply_op true t (OpAccessory "hap" "lamp") in
  let t2 := apply_op true t1 (OpAccessory "hap" "plug") in
  HomeKitAccessoryAID true t "hap" "lamp" = Ok (t1, 2) /\ HomeKitAccessoryAID true t1 "hap" "plug" = Ok (t2, 3) /\
  2 <= 2 /\ (3 = 2 <-> "plug" = "lamp").
Proof.
  cbv zeta. set (hap := MkConfig _ _ _ _ _ _ _ _ _ _ _ _). set (t := apply_op true no_targets _).
  set (t1 := apply_op true t _). set (t2 := apply_op true t1 _).
  assert (HomeKitAccessoryAID true t "hap" "lamp" = Ok (t1, 2)) as H1 by (vm_compute; reflexivity).
  assert (HomeKitAccessoryAID true t1 "hap" "plug" = Ok (t2, 3)) as H2 by (vm_compute; reflexivity).
  split; [exact H1|]. split; [exact H2|].
  apply (accessories_stable t true "hap" "lamp" t1 2 t1 true "plug" t2 3);
    [apply (target_next true), target_start|exact H1|apply later_refl|exact H2].
Defined.

(** within an accessory, a service or characteristic is given its number once, and no
    other of the accessory gets it. *)
Theorem resources_stable t io i d r t1 n t2 io' r' t3 n' : target_run t ->
  HomeKitIID io t i d r = Ok (t1, n) -> later i t1 t2 -> HomeKitIID io' t2 i d r' = Ok (t3, n') ->
  (n' = n <-> r' = r).
Proof.
  intros Ht%run_ids Ha Hl Hb. destruct (resource_spec i _ _ _ _ _ _ _ Ht Ha) as [[Ht1 _] Hx].
  destruct (later_good _ _ _ Hl Ht1) as [Ht2 Hk]. apply (kp_resources _ _ _ Hk) in Hx.
  destruct (resource_spec i _ _ _ _ _ _ _ Ht2 Hb) as [[Ht3 Hk'] Hz]. apply (kp_resources _ _ _ Hk') in Hx.
  split; [intros ->|intros ->; congruence].
  assert ((i, d, r') = (i, d, r)) as [= ->]; [|done]. by apply (io_resources _ Ht3 _ _ n n).
Qed.

Lemma resources_stable_witness :
  let hap := MkConfig "hap" "apple-hap" "Bridge" true None None [] [] ":51826" "" "" "" in
  let t := apply_op true no_targets (OpSave hap) in
  let t1 := apply_op true t (OpResource "hap" "lamp" "on") in
  let t2 := apply_op true t1 (OpSave hap) in
  HomeKitIID true t "hap" "lamp" "on" = Ok (t1, 1) /\ HomeKitIID true t2 "hap" "lamp" "on" = Ok (t2, 1) /\
  (1 = 1 <-> "on" = "on").
Proof.
  cbv zeta. set (hap := MkConfig _ _ _ _ _ _ _ _ _ _ _ _). set (t := apply_op true no_targets _).
  set (t1 := apply_op true t _). set (t2 := apply_op true t1 _).
  assert (HomeKitIID true t "hap" "lamp" "on" = Ok (t1, 1)) as H1 by (vm_compute; reflexivity).
  assert (HomeKitIID true t2 "hap" "lamp" "on" = Ok (t2, 1)) as H2 by (vm_compute; reflexivity).
  split; [exact H1|]. split; [exact H2|].
  apply (resources_stable t true "hap" "lamp" "on" t1 1 t2 true "on" t2 1);
    [apply (target_next true), target_start|exact H1|apply (later_step _ true (OpSave hap)); [done|apply later_refl]|exact H2].
Defined.
