(* ===== verification/TargetRows.v ===== *)
(** * What a save of a Target writes: persistence/gormstore/targets.go

    The mappings and endpoints a save keeps, and configurations read back after a restart. *)

From S2P Require Import Prelude Float64 DeviceModel Lookup ModelContract ConsumerCatalog FloatText Text MappingBinding TargetConfig TargetStore.

(** ** Devices *)

Lemma fold_insert_lookup {A B} (p : A -> bool) (key : A -> string) (f : A -> B) l : forall (m : gmap string B) k y,
  NoDup (key <$> l) ->
  fold_left (fun m v => if p v then <[key v := f v]> m else m) l m !! k = Some y <->
  (exists v, v ∈ l /\ p v = true /\ key v = k /\ f v = y) \/ (m !! k = Some y /\ forall v, v ∈ l -> p v = true -> key v <> k).
Proof.
  induction l as [|v l IH]; intros m k y; simpl.
  { intros _. split; [intros Hm; right; split; [done|]; intros v Hv; by apply not_elem_of_nil in Hv|].
    intros [(v & Hv & _)|[Hm _]]; [by apply not_elem_of_nil in Hv|done]. }
  intros [Hv Hl]%NoDup_cons. rewrite (IH _ _ _ Hl). setoid_rewrite elem_of_cons.
  assert (forall w, w ∈ l -> key w = key v -> False) as Hw.
  { intros w Hin E. apply Hv. rewrite <- E. by apply list_elem_of_fmap_2. }
  destruct (p v) eqn:Hp; [destruct (decide (key v = k)) as [<-|Hne]; [rewrite lookup_insert_eq|rewrite lookup_insert_ne by done]|].
  - split.
    + intros [(w & Hin & _ & E & _)|[[= <-] _]]; [by destruct (Hw w)|]. left. exists v. auto.
    + intros [(w & [->|Hin] & _ & E & <-)|[_ Hn]]; [|by destruct (Hw w)|by destruct (Hn v (or_introl eq_refl))].
      right. split; [done|]. intros w Hin _ Ew. by apply (Hw w).
  - split.
    + intros [(w & Hin & ?)|[Hm Hn]]; [left; exists w; naive_solver|]. right. split; [done|]. intros w [->|Hin]; auto.
    + intros [(w & [->|Hin] & Hpw & E & <-)|[Hm Hn]]; [done|left; eauto 6|right; eauto].
  - split.
    + intros [(w & Hin & ?)|[Hm Hn]]; [left; exists w; naive_solver|]. right. split; [done|]. intros w [->|Hin]; [congruence|auto].
    + intros [(w & [->|Hin] & Hpw & ?)|[Hm Hn]]; [congruence|left; eauto|right; eauto].
Qed.

Lemma device_scopes_lookup devices k (y : list string * string) : NoDup (vd_ID <$> devices) ->
  device_scopes devices !! k = Some y <->
  exists v, v ∈ devices /\ vd_ID v = k /\ (SourceDeviceIDs v, vd_Type v) = y.
Proof.
  intros Hd. unfold device_scopes.
  pose proof (fold_insert_lookup (fun _ => true) vd_ID (fun v => (SourceDeviceIDs v, vd_Type v)) devices ∅ k y Hd) as Hl.
  cbv beta iota in Hl. rewrite Hl, lookup_empty. naive_solver.
Qed.
Lemma active_types_lookup devices k (y : string) : NoDup (vd_ID <$> devices) ->
  active_types devices !! k = Some y <-> exists v, v ∈ devices /\ vd_Enabled v = true /\ vd_ID v = k /\ vd_Type v = y.
Proof.
  intros Hd. unfold active_types. rewrite (fold_insert_lookup vd_Enabled vd_ID vd_Type devices ∅ k y Hd), lookup_empty. naive_solver.
Qed.

(** A mapping fits the devices when it names one of them, one of its sources and its type. *)
Definition fits (devices : list VirtualDevice) (b : Binding) : Prop :=
  exists v, v ∈ devices /\ vd_ID v = mb_ConsumerDeviceID b /\ mb_DeviceID b ∈ SourceDeviceIDs v /\
            EffectiveConsumerDeviceType b = vd_Type v.
Lemma stale_fits devices b : NoDup (vd_ID <$> devices) -> stale_binding (device_scopes devices) b = false <-> fits devices b.
Proof.
  intros Hd. unfold stale_binding, fits. destruct (device_scopes devices !! mb_ConsumerDeviceID b) as [[s ty]|] eqn:Hs.
  - apply device_scopes_lookup in Hs as (v & Hv & E & [= <- <-]); [|done].
    rewrite orb_false_iff, !negb_false_iff, !bool_decide_eq_true. split; [intros [? ?]; eauto|].
    intros (w & Hw & Ew & ? & ?). assert (w = v) as ->; [|done].
    pose proof (find_by_elem vd_ID devices v Hd Hv) as Fv. pose proof (find_by_elem vd_ID devices w Hd Hw) as Fw. rewrite Ew, <- E in Fw. congruence.
  - split; [done|]. intros (v & Hv & E & _).
    pose proof (proj2 (device_scopes_lookup devices (mb_ConsumerDeviceID b) (SourceDeviceIDs v, vd_Type v) Hd)) as Hx.
    refine (eq_ind_r (fun o => o = Some _ -> true = false) _ Hs (Hx _)); [discriminate|by exists v].
Qed.

Lemma normal_tc_ID c : tc_ID (NormalizeProtocolConfig c) = tc_ID c.
Proof. unfold NormalizeProtocolConfig. by repeat case_match. Qed.
Lemma normal_tc_Type c : tc_Type (NormalizeProtocolConfig c) = tc_Type c.
Proof. unfold NormalizeProtocolConfig. by repeat case_match. Qed.
Lemma normal_devices c : expand_devices (tc_DeviceIDs (NormalizeProtocolConfig c)) (tc_Devices (NormalizeProtocolConfig c)) =
  expand_devices (tc_DeviceIDs c) (tc_Devices c).
Proof. unfold NormalizeProtocolConfig. by repeat case_match. Qed.

(** The parts of a save that is accepted. *)
Lemma save_parts io t c t' (devices := expand_devices (tc_DeviceIDs c) (tc_Devices c)) : SaveTarget io t c = Ok t' ->
  NoDup (vd_ID <$> devices) /\
  (forall row, target_rows t !! tc_ID c = Some row -> tc_Type row = tc_Type c) /\
  target_rows t' = <[tc_ID c := row_of (NormalizeProtocolConfig c)]> (target_rows t) /\
  bindings t' = filter (fun kv => negb (scoped (tc_ID c) kv.2 && stale_binding (device_scopes devices) kv.2) = true) (bindings t) /\
  (if tc_Type c =s "matter" then
     type_changes (tc_ID c) (active_types devices) t = false /\
     identities t' = map_imap (fun k x => Some (synchronize (tc_ID c) (active_types devices) k x)) (identities t)
   else identities t' = identities t) /\
  accessories t' = accessories t /\ resources t' = resources t /\ runtime_values t' = runtime_values t.
Proof.
  unfold SaveTarget, commit. destruct io; [|done].
  assert (tc_Devices (row_of (NormalizeProtocolConfig c)) = devices) as ->. { apply normal_devices. }
  rewrite normal_tc_ID, normal_tc_Type.
  destruct (match target_rows t !! tc_ID c with Some x => tc_Type x =s tc_Type c | None => true end) eqn:Hty; [|done].
  destruct (negb (_ || _ || _)); [|done]. destruct (bool_decide_reflect (NoDup (vd_ID <$> devices))) as [Hd|]; [|done].
  assert (forall row, target_rows t !! tc_ID c = Some row -> tc_Type row = tc_Type c) as Hrow.
  { intros row Hr. rewrite Hr in Hty. by apply bool_decide_eq_true in Hty. }
  destruct (tc_Type c =s "matter").
  - destruct (type_changes _ _ _) eqn:Hch; [done|]. cbn [negb]. intros [= <-]. auto 10.
  - intros [= <-]. auto 10.
Qed.

Lemma existsb_none {A} (f : A -> bool) l x : existsb f l = false -> x ∈ l -> f x = false.
Proof.
  intros Hl Hx. destruct (f x) eqn:Hf; [|done]. assert (existsb f l = true); [|congruence].
  apply existsb_exists. exists x. split; [by apply list_elem_of_In|done].
Qed.
Lemma changes_false id devices t d x v : NoDup (vd_ID <$> devices) -> type_changes id (active_types devices) t = false ->
  identities t !! (id, d) = Some x -> v ∈ devices -> vd_Enabled v = true -> vd_ID v = d -> vd_Type v = me_DeviceType x.
Proof.
  intros Hd Hch Hx Hv He Ed. unfold type_changes in Hch. 
  apply (existsb_none _ _ ((id, d), x)) in Hch; [|by apply elem_of_map_to_list]. cbn [fst snd] in Hch.
  rewrite bool_decide_eq_true_2 in Hch by done. rewrite (proj2 (active_types_lookup devices d (vd_Type v) Hd)) in Hch by eauto.
  by apply negb_false_iff, bool_decide_eq_true in Hch.
Qed.

(** a save leaves the tables consistent with the devices it wrote. Of the mappings into
    the Target exactly those are kept that name one of the devices, one of its sources and
    its type; all other mappings stay. On a Matter bridge an endpoint is alive exactly
    while its device is enabled, and no device changes the type of its endpoint. Nothing of
    another Target changes. *)
Theorem save_consistent io t c t' (devices := expand_devices (tc_DeviceIDs c) (tc_Devices c)) : SaveTarget io t c = Ok t' ->
  (forall k b, bindings t' !! k = Some b <-> bindings t !! k = Some b /\
     (mb_Stage b = StageConsumer -> mb_TargetID b = tc_ID c -> fits devices b)) /\
  (tc_Type c = "matter" -> forall d x, identities t' !! (tc_ID c, d) = Some x ->
     (me_Tombstone x = false <-> exists v, v ∈ devices /\ vd_Enabled v = true /\ vd_ID v = d) /\
     (forall v, v ∈ devices -> vd_Enabled v = true -> vd_ID v = d -> vd_Type v = me_DeviceType x)) /\
  (forall i, i <> tc_ID c -> target_rows t' !! i = target_rows t !! i /\ forall d, identities t' !! (i, d) = identities t !! (i, d)).
Proof.
  intros (Hd & _ & Hrows & Hb & Hi & _)%save_parts. fold devices in Hd, Hb, Hi. split_and!.
  - intros k b. rewrite Hb, map_lookup_filter_Some. simpl. rewrite negb_true_iff, andb_false_iff, stale_fits by done.
    unfold scoped. rewrite andb_false_iff, !bool_decide_eq_false. split; [intros [? ?]; split; [done|tauto]|intros [? Hf]; split; [done|]].
    destruct (decide (mb_Stage b = StageConsumer)); [|tauto]. destruct (decide (mb_TargetID b = tc_ID c)); tauto.
  - intros Ht d x. rewrite bool_decide_eq_true_2 in Hi by done. destruct Hi as [Hch ->]. rewrite map_lookup_imap.
    intros (y & Hy & [= <-])%bind_Some. unfold synchronize. cbn [fst snd]. rewrite bool_decide_eq_true_2 by done. cbn [me_Tombstone me_DeviceType].
    split; [|intros v; by apply (changes_false _ _ _ _ _ _ Hd Hch Hy)].
    rewrite negb_false_iff. destruct (active_types devices !! d) as [ty|] eqn:Ha; cbn [present]; (split; [intros|]); try done.
    + apply active_types_lookup in Ha as (v & ? & ? & ? & _); eauto.
    + intros (v & Hv & He & Ed). pose proof (proj2 (active_types_lookup devices d (vd_Type v) Hd)) as Hx.
      refine (eq_ind_r (fun o => o = Some _ -> false = true) _ Ha (Hx _)); [discriminate|by exists v].
  - intros i Hne. rewrite Hrows, lookup_insert_ne by done. split; [done|]. intros d. destruct (tc_Type c =s "matter"); [|by rewrite Hi].
    destruct Hi as [_ ->]. rewrite map_lookup_imap. unfold synchronize. cbn [fst]. rewrite bool_decide_eq_false_2 by done. by destruct (identities t !! (i, d)).
Qed.

Lemma save_consistent_witness :
  let lamp := MkVirtualDevice "lamp" "Lamp" TypeLightbulb "source" [] true in
  let bridge devices := MkConfig "bridge" "matter" "Bridge" true None (Some zero_matter) [] devices "" "" "" "" in
  let t := apply_op true (apply_op true no_targets (OpSave (bridge [lamp]))) (OpAllocate "bridge" "lamp" TypeLightbulb) in
  let t' := apply_op true t (OpSave (bridge [])) in
  SaveTarget true t (bridge []) = Ok t' /\
  identities t' !! ("bridge", "lamp") = Some (MkIdentity 2 TypeLightbulb true) /\
  (true = false <-> exists v, v ∈ [] /\ vd_Enabled v = true /\ vd_ID v = "lamp").
Proof.
  cbv zeta. set (bridge := fun devices => _). set (t := apply_op true (apply_op true _ _) _).
  assert (SaveTarget true t (bridge []) = Ok (apply_op true t (OpSave (bridge [])))) as H by (vm_compute; reflexivity).
  assert (identities (apply_op true t (OpSave (bridge []))) !! ("bridge", "lamp") = Some (MkIdentity 2 TypeLightbulb true)) as Hx
    by (vm_compute; reflexivity).
  split; [exact H|]. split; [exact Hx|].
  destruct (save_consistent true t (bridge []) _ H) as (_ & Hm & _). exact (proj1 (Hm eq_refl "lamp" _ Hx)).
Defined.

(** ** Reading back *)

Lemma row_normal c : settled c -> present (DescriptorForType (tc_Type c)) = true ->
  let row := row_of c in
  NormalizeProtocolConfig (set_protocols row None (if IsMatterType (tc_Type row) then tc_MatterConfig row else None)) =
  set_Devices c [] (tc_Devices c).
Proof.
  intros [Hnorm _ _ _ Hsrc Hhk Hmt] Hp. cbv zeta.
  assert (expand_devices (tc_DeviceIDs c) (tc_Devices c) = tc_Devices c) as Hdev by (rewrite Hsrc; apply expand_settled).
  unfold row_of. rewrite Hdev. cbn [tc_Type set_Devices set_protocols tc_MatterConfig].
  destruct (descriptor_cases _ Hp) as [(Hk & Hm & _)|(Hk & Hm & _)]; rewrite Hm.
  - destruct (Hhk Hk) as (Hm0 & Hh & _ & _ & Epin & Eset). rewrite normalize_homekit by exact Hk.
    set (c1 := set_protocols _ None None). rewrite (normalize_homekit c Hk) in Hnorm.
    assert (merged_homekit c1 = merged_homekit c) as ->.
    { pose proof (f_equal tc_Address Hnorm) as Ea. pose proof (f_equal tc_StorePath Hnorm) as Es.
      cbn [tc_Address tc_StorePath set_flat] in Ea, Es.
      transitivity (MkHomeKit (tc_Address c) (tc_Pin c) (tc_SetupID c) (tc_StorePath c)); [done|].
      rewrite <- Ea, <- Es, Epin, Eset. by destruct (merged_homekit c). }
    transitivity (set_Devices (set_flat (set_protocols c (Some (merged_homekit c)) None) (merged_homekit c)) [] (tc_Devices c));
      [done|by rewrite Hnorm].
  - destruct (Hmt Hm) as (Hh0 & Ha & Hpi & Hse & Hst & m & Hmm & [d Hdis] & _). rewrite normalize_matter by exact Hm.
    rewrite Hmm. cbn [default set_protocols set_Devices tc_MatterConfig]. cbv [Datatypes.id]. rewrite Hdis. cbn [default]. cbv [Datatypes.id].
    destruct c, m; simpl in *; subst. simpl in *. subst. done.
Qed.

(** A configuration as it is read back: with its devices in the order of their identifiers. *)
Definition reread (c : Config) : Config :=
  let devices := merge_sort vdevice_le (tc_Devices c) in set_Devices c (active_sources devices) devices.

Lemma list_row c : settled c -> present (DescriptorForType (tc_Type c)) = true -> list_target (row_of c) = reread c.
Proof.
  intros Hs Hp. pose proof (row_normal c Hs Hp) as Hrow. cbv zeta in Hrow. unfold list_target. rewrite Hrow.
  assert (tc_Devices (row_of c) = tc_Devices c) as ->; [|done].
  cbn [row_of tc_Devices set_Devices]. rewrite (st_sources _ Hs). apply expand_settled.
Qed.

(** a configuration survives a restart. What the defaults completed, the checks accepted
    and the table took is read back as it was, with its pairing codes, the devices in the
    order of their identifiers; other Targets are read as before. *)
Theorem target_roundtrip l draws request c io t t' : withDefaults l draws request = Ok c -> validateTarget c = Ok tt ->
  SaveTarget io t c = Ok t' ->
  let devices := merge_sort vdevice_le (tc_Devices c) in
  exists before after, ListTargets true t = Ok before /\ ListTargets true t' = Ok after /\
    after !! tc_ID c = Some (set_Devices c (active_sources devices) devices) /\ devices ≡ₚ tc_Devices c /\
    forall i, i <> tc_ID c -> after !! i = before !! i.
Proof.
  intros Hs%defaults_settle Hv (_ & _ & Hrows & _)%save_parts devices. do 2 eexists. split_and!; [done|done|..].
  - rewrite lookup_fmap, Hrows, lookup_insert_eq. cbn [fmap option_fmap option_map]. rewrite (st_normal _ Hs).
    by rewrite list_row by (done || by apply valid_parts).
  - apply merge_sort_Permutation.
  - intros i Hne. by rewrite !lookup_fmap, Hrows, lookup_insert_ne.
Qed.

Lemma target_roundtrip_witness :
  let draws := MkDraws (Some [0; 0; 0; 0; 0; 0]) (Some [3; 1; 4; 1; 5; 9; 2; 6]) (Some [0; 1; 2; 3]) None (Err RandomFailed) in
  let request := MkConfig "" "apple-hap" "" true None None [] [] "" "" "" "" in
  exists c t', withDefaults [":51826"] draws request = Ok c /\ validateTarget c = Ok tt /\ tc_Pin c = "31415926" /\
    SaveTarget true no_targets c = Ok t' /\
    exists before after, ListTargets true no_targets = Ok before /\ ListTargets true t' = Ok after /\
      after !! tc_ID c = Some c.
Proof.
  cbv zeta. set (draws := MkDraws _ _ _ _ _). set (request := MkConfig _ _ _ _ _ _ _ _ _ _ _ _).
  destruct (withDefaults [":51826"] draws request) as [c|] eqn:Hd; [|by vm_compute in Hd].
  assert (validateTarget c = Ok tt) as Hv by (vm_compute in Hd; injection Hd as <-; vm_compute; reflexivity).
  destruct (SaveTarget true no_targets c) as [t'|] eqn:Hs; [|vm_compute in Hd; injection Hd as <-; by vm_compute in Hs].
  exists c, t'. split; [done|]. split; [exact Hv|]. split; [vm_compute in Hd; injection Hd as <-; by vm_compute|]. split; [exact Hs|].
  destruct (target_roundtrip [":51826"] draws request c true no_targets t' Hd Hv Hs) as (before & after & H1 & H2 & H3 & _).
  exists before, after. split; [exact H1|]. split; [exact H2|]. rewrite H3. vm_compute in Hd. injection Hd as <-. reflexivity.
Defined.
