(* ===== verification/TargetService.v ===== *)
(** * The service of Targets: backend/internal/application/target_service.go

    What users ask of Targets: to save, delete, list and pair them. The service keeps the
    configurations and what is known of each Target in memory beside the tables, and drives
    the runtime that publishes devices through an interface. Calls that change the tables hold
    no lock between what they read, the tables, the runtime and the memory: they are given
    whole, as when nothing overlaps them, and as the sections between which others may run. *)

From S2P Require Import Prelude Float64 DeviceModel Lookup ModelContract ConsumerCatalog FloatText Text MappingBinding TargetConfig TargetStore TargetRows.

(** ** Data *)

Record TargetIssue := MkIssue { is_DeviceID : string; is_DeviceName : string; is_DeviceType : string; is_Stage : string; is_Message : string }.

(** The part of [TargetInfo] that is about Matter. *)
Record MatterInfo := MkMatterInfo {
  mi_NetworkInterface : string;
  mi_UDPPort : Z;
  mi_Discriminator : Z;
  mi_VendorID : Z;
  mi_ProductID : Z;
  mi_ProductName : string;
  mi_SerialNumber : string;
  mi_CommissioningWindowSeconds : Z;
  mi_CommissioningState : string;
  mi_CommissioningWindowOpen : bool;
  mi_CommissioningWindowExpiresAt : string;
  mi_ManualPairingCode : string;
  mi_SetupPayload : string;
  mi_FabricCount : Z;
  mi_Fabrics : list (string * string);
  mi_EndpointCount : Z;
  mi_ProtocolVersion : string;
  mi_Certification : string;
}.
Definition no_matter : MatterInfo := MkMatterInfo "" 0 0 0 0 "" "" 0 "" false "" "" "" 0 [] 0 "" "".

Record TargetInfo := MkInfo {
  ti_ID : string;
  ti_Type : string;
  ti_ConsumerID : string;
  ti_Name : string;
  ti_Enabled : bool;
  ti_Status : string;
  ti_Address : string;
  ti_SetupID : string;
  ti_PairingCode : string;
  ti_SetupURI : string;
  ti_Paired : bool;
  ti_DeviceIDs : list string;
  ti_Devices : list VirtualDevice;
  ti_Error : string;
  ti_Issues : list TargetIssue;
  ti_Diagnostics : gmap string string;
  ti_Matter : MatterInfo;
  ti_Removed : bool;
}.
Definition zero_info : TargetInfo := MkInfo "" "" "" "" false "" "" "" "" "" false [] [] "" [] ∅ no_matter false.

Record TargetRegistration := MkRegistration { rg_Info : TargetInfo; rg_QR : string }.
Definition zero_registration : TargetRegistration := MkRegistration zero_info "".

Definition set_ConsumerID (i : TargetInfo) x := MkInfo (ti_ID i) (ti_Type i) x (ti_Name i) (ti_Enabled i) (ti_Status i) (ti_Address i)
  (ti_SetupID i) (ti_PairingCode i) (ti_SetupURI i) (ti_Paired i) (ti_DeviceIDs i) (ti_Devices i) (ti_Error i) (ti_Issues i)
  (ti_Diagnostics i) (ti_Matter i) (ti_Removed i).
Definition set_Status (i : TargetInfo) x := MkInfo (ti_ID i) (ti_Type i) (ti_ConsumerID i) (ti_Name i) (ti_Enabled i) x (ti_Address i)
  (ti_SetupID i) (ti_PairingCode i) (ti_SetupURI i) (ti_Paired i) (ti_DeviceIDs i) (ti_Devices i) (ti_Error i) (ti_Issues i)
  (ti_Diagnostics i) (ti_Matter i) (ti_Removed i).
Definition set_Error (i : TargetInfo) x := MkInfo (ti_ID i) (ti_Type i) (ti_ConsumerID i) (ti_Name i) (ti_Enabled i) (ti_Status i) (ti_Address i)
  (ti_SetupID i) (ti_PairingCode i) (ti_SetupURI i) (ti_Paired i) (ti_DeviceIDs i) (ti_Devices i) x (ti_Issues i)
  (ti_Diagnostics i) (ti_Matter i) (ti_Removed i).
Definition set_Paired (i : TargetInfo) x := MkInfo (ti_ID i) (ti_Type i) (ti_ConsumerID i) (ti_Name i) (ti_Enabled i) (ti_Status i) (ti_Address i)
  (ti_SetupID i) (ti_PairingCode i) (ti_SetupURI i) x (ti_DeviceIDs i) (ti_Devices i) (ti_Error i) (ti_Issues i)
  (ti_Diagnostics i) (ti_Matter i) (ti_Removed i).
Definition set_codes (i : TargetInfo) setupID code uri := MkInfo (ti_ID i) (ti_Type i) (ti_ConsumerID i) (ti_Name i) (ti_Enabled i)
  (ti_Status i) (ti_Address i) setupID code uri (ti_Paired i) (ti_DeviceIDs i) (ti_Devices i) (ti_Error i) (ti_Issues i)
  (ti_Diagnostics i) (ti_Matter i) (ti_Removed i).
Definition set_Removed (i : TargetInfo) id x := MkInfo id (ti_Type i) (ti_ConsumerID i) (ti_Name i) (ti_Enabled i)
  (ti_Status i) (ti_Address i) (ti_SetupID i) (ti_PairingCode i) (ti_SetupURI i) (ti_Paired i) (ti_DeviceIDs i) (ti_Devices i)
  (ti_Error i) (ti_Issues i) (ti_Diagnostics i) (ti_Matter i) x.
Definition with_Info (r : TargetRegistration) i := MkRegistration i (rg_QR r).

Definition pairingSafeInfo (i : TargetInfo) : TargetInfo := if ti_Paired i then set_codes i "" "" "" else i.
Definition targetConsumerID (t : string) : string := td_ConsumerID (descriptor_of t).

Definition applyMatterConfigInfo (i : MatterInfo) (c : Config) : MatterInfo :=
  match IsMatterType (tc_Type c), tc_MatterConfig c with
  | true, Some m =>
      MkMatterInfo (mt_NetworkInterface m) (mt_UDPPort m) (default (mi_Discriminator i) (mt_Discriminator m))
        (mt_VendorID m) (mt_ProductID m) (mt_ProductName m) (mt_SerialNumber m) (mt_CommissioningWindowSeconds m)
        (or_else (mi_CommissioningState i) "uncommissioned") (mi_CommissioningWindowOpen i) (mi_CommissioningWindowExpiresAt i)
        (mi_ManualPairingCode i) (mi_SetupPayload i) (mi_FabricCount i) (mi_Fabrics i) (mi_EndpointCount i) "1.6.0" "test"
  | _, _ => i
  end.
Definition TargetInfoFromConfig (c : Config) (status : string) : TargetInfo :=
  MkInfo (tc_ID c) (tc_Type c) (targetConsumerID (tc_Type c)) (tc_Name c) (tc_Enabled c) status (tc_Address c) (tc_SetupID c)
    "" "" false (tc_DeviceIDs c) (tc_Devices c) "" [] ∅ (applyMatterConfigInfo no_matter c) false.

(** ** The runtime *)

Definition RuntimeError := string.
(** A call of the runtime: it keeps a state [R] of its own, and the numbers it gives to
    devices are in the tables. *)
Definition Call (R A : Type) : Type := R -> TargetTables -> (R * TargetTables) * result RuntimeError A.

Inductive MatterControl :=
| OpenWindow (seconds : Z)
| CloseWindow
| RemoveFabric (fabricID : string)
| FactoryReset.

(** [TargetRuntime], and the interfaces a runtime may implement besides. *)
Class TargetRuntime (R : Type) := {
  IsPaired : R -> Config -> bool;
  Apply : Config -> Call R TargetRegistration;
  Remove : string -> Call R unit;
  ResetPairing : Config -> Call R TargetRegistration;
  RemoveTarget : option (Config -> Call R unit);
  MatterTargetRuntime : option (MatterControl -> string -> Call R TargetRegistration);
  ConfirmEndpoint : option (string -> string -> Type_ -> Call R unit);
  RuntimeInfo : option (R -> Config -> TargetInfo);
}.

(** What the service relies on: the runtime leaves the configurations in the tables alone,
    and answers for the Target it is asked about. *)
Definition keeps_rows {R A} (f : Call R A) : Prop :=
  forall r t, target_rows (f r t).1.2 = target_rows t.
Class RuntimeLaws R `{TargetRuntime R} := {
  apply_rows c : keeps_rows (Apply c);
  apply_names c r t x : (Apply c r t).2 = Ok x -> ti_ID (rg_Info x) = tc_ID c;
  remove_rows i : keeps_rows (Remove i);
  reset_rows c : keeps_rows (ResetPairing c);
  remove_target_rows f c : RemoveTarget = Some f -> keeps_rows (f c);
  control_rows f k i : MatterTargetRuntime = Some f -> keeps_rows (f k i);
  confirm_rows f i d ty : ConfirmEndpoint = Some f -> keeps_rows (f i d ty);
}.

(** The libraries that draw pairing codes: [homekit-qr] and [go-qrcode]. *)
Class PairingCodes := {
  ComposeSetupURI : string -> string -> string -> option string; (* category, pin, setup identifier *)
  GenerateQRPNG : string -> string -> string -> option string;
  FormatPairingCode : string -> string;
  EncodeQR : string -> option string;
}.

Inductive ServiceError :=
| TargetRejected (e : TargetError)
| TargetStoreFailed (e : TargetStoreError)
| RuntimeFailed (e : RuntimeError)
| TargetStoreUnavailable
| TargetRuntimeUnavailable
| PairingCodesFailed
| ErrTargetNotFound
| NotHomeKitTarget
| NotMatter
| AlreadyPaired
| QRNotFound
| InvalidWindow
| FabricRequired
| UnknownEndpoint
| EndpointTypeUnsupported
| EndpointTypeUnchanged.

Section Service.
Context {R : Type} `{TargetRuntime R} `{PairingCodes}.

(** [ts_tables] are the tables of the store, if there is one; [ts_notified] are the infos
    given to the listeners. *)
Record TargetService := MkTargets {
  ts_order : list string;
  ts_targets : gmap string TargetRegistration;
  ts_configs : gmap string Config;
  ts_stored : bool;
  ts_tables : TargetTables;
  ts_runtime : option R;
  ts_notified : list TargetInfo;
}.

Definition with_tables s t := MkTargets (ts_order s) (ts_targets s) (ts_configs s) (ts_stored s) t (ts_runtime s) (ts_notified s).
Definition with_runtime s r t := MkTargets (ts_order s) (ts_targets s) (ts_configs s) (ts_stored s) t (Some r) (ts_notified s).
Definition with_targets s x := MkTargets (ts_order s) x (ts_configs s) (ts_stored s) (ts_tables s) (ts_runtime s) (ts_notified s).
Definition with_configs s x := MkTargets (ts_order s) (ts_targets s) x (ts_stored s) (ts_tables s) (ts_runtime s) (ts_notified s).
Definition with_order s x := MkTargets x (ts_targets s) (ts_configs s) (ts_stored s) (ts_tables s) (ts_runtime s) (ts_notified s).
Definition notify s i := MkTargets (ts_order s) (ts_targets s) (ts_configs s) (ts_stored s) (ts_tables s) (ts_runtime s) (ts_notified s ++ [i]).

(** A call of the runtime. *)
Definition ask {A} (s : TargetService) (r : R) (f : Call R A) : TargetService * result RuntimeError A :=
  let '((r, t), x) := f r (ts_tables s) in (with_runtime s r t, x).

(** The registration of a Target replaces the one it had, and its listeners hear of it. *)
Definition registered (s : TargetService) (id : string) (x : TargetRegistration) : TargetService :=
  notify (with_targets s (<[id := x]> (ts_targets s))) (rg_Info x).

Definition insert_config (m : gmap string Config) (c : Config) : gmap string Config :=
  let c := NormalizeProtocolConfig c in <[tc_ID c := c]> m.
Definition NewTargetService (registrations : list TargetRegistration) (stored : bool) (t : TargetTables)
    (configs : list Config) : TargetService :=
  MkTargets (ti_ID ∘ rg_Info <$> registrations)
    (fold_left (fun m x => <[ti_ID (rg_Info x) := x]> m) registrations ∅)
    (fold_left insert_config configs ∅) stored t None [].

Definition info_of (s : TargetService) (id : string) : TargetInfo := rg_Info (default zero_registration (ts_targets s !! id)).
(** Whether a HomeKit Target is paired: the runtime knows, if there is one. *)
Definition paired (s : TargetService) (c : Config) (known : bool) : bool :=
  match ts_runtime s with
  | Some r => if td_SupportsHomeKitPairing (descriptor_of (tc_Type c)) then IsPaired r c else known
  | None => known
  end.
Definition safe_registration (s : TargetService) (c : Config) (x : TargetRegistration) : TargetRegistration :=
  match ts_runtime s with
  | Some r => if td_SupportsHomeKitPairing (descriptor_of (tc_Type c))
              then with_Info x (pairingSafeInfo (set_Paired (rg_Info x) (IsPaired r c))) else x
  | None => x
  end.

(** [Refresh], with the configurations in the order their map gave them. *)
Fixpoint refresh (s : TargetService) (configs : list Config) : TargetService * result ServiceError unit :=
  match configs with
  | [] => (s, Ok tt)
  | c :: configs =>
      match ts_runtime s with
      | None => (s, Ok tt)
      | Some r =>
          match ask s r (Apply c) with
          | (s, Err e) => (s, Err (RuntimeFailed e))
          | (s, Ok x) =>
              let x := with_Info x (set_ConsumerID (rg_Info x) (targetConsumerID (tc_Type c))) in
              refresh (registered s (tc_ID c) (safe_registration s c x)) configs
          end
      end
  end.
Definition Refresh (s : TargetService) (ids : list string) : TargetService * result ServiceError unit :=
  refresh s (filter (fun c => tc_Enabled c = true) (omap (fun id => ts_configs s !! id) ids)).

(** What an edit keeps of the configuration there was. *)
Definition keep_homekit (existing item : Config) (wasPaired : bool) : Config :=
  let next := merged_homekit item in
  let next := MkHomeKit (hk_Address next)
    (if is_empty (hk_Pin next) || wasPaired then tc_Pin existing else hk_Pin next)
    (if is_empty (hk_SetupID next) || wasPaired then tc_SetupID existing else hk_SetupID next)
    (hk_StorePath next) in
  set_flat (set_protocols item (Some next) (tc_MatterConfig item)) next.
Definition keep_matter (existing item : Config) : Config :=
  let previous := default zero_matter (tc_MatterConfig existing) in
  let next := default previous (tc_MatterConfig item) in
  set_protocols item (tc_HomeKitConfig item) (Some (MkMatter (mt_NetworkInterface next) (mt_UDPPort next)
    (match mt_Discriminator next with Some d => Some d | None => mt_Discriminator previous end)
    (or_else (mt_Passcode next) (mt_Passcode previous)) (mt_VendorID next) (mt_ProductID next) (mt_ProductName next)
    (mt_SerialNumber next) (mt_CommissioningWindowSeconds next))).
Definition edited (s : TargetService) (item : Config) : result TargetError Config :=
  match ts_configs s !! tc_ID item with
  | None => Ok item
  | Some existing =>
      guard! tc_Type item =s tc_Type existing else TargetTypeFixed in
      let wasPaired := paired s existing (ti_Paired (info_of s (tc_ID item))) in
      let item := if (tc_Type existing =s "apple-hap") || (tc_Type existing =s "homekit-camera")
                  then keep_homekit existing item wasPaired else item in
      Ok (if IsMatterType (tc_Type existing) then keep_matter existing item else item)
  end.

Definition addresses (s : TargetService) : list string :=
  (fun kv => ti_Address (rg_Info kv.2)) <$> map_to_list (ts_targets s).
Definition accepted (s : TargetService) (draws : Draws) (item : Config) : result TargetError Config :=
  let! item := edited s item in
  let! item := withDefaults (addresses s) draws item in
  check! validateTarget item in
  Ok item.

(** What is known of a Target that was saved. *)
Definition saved_registration (s : TargetService) (item : Config) : TargetService * result ServiceError TargetRegistration :=
  let info := TargetInfoFromConfig item "disabled" in
  match ts_runtime s with
  | Some r =>
      match ask s r (Apply item) with
      | (s, Err e) => (s, Ok (MkRegistration (set_Error (set_Status info "error") e) ""))
      | (s, Ok x) => (s, Ok (with_Info x (set_ConsumerID (rg_Info x) (targetConsumerID (tc_Type item)))))
      end
  | None =>
      if td_SupportsHomeKitPairing (descriptor_of (tc_Type item)) then
        let category := if tc_Type item =s "homekit-camera" then "ip-camera" else "bridge" in
        match ComposeSetupURI category (tc_Pin item) (tc_SetupID item), GenerateQRPNG category (tc_Pin item) (tc_SetupID item) with
        | Some uri, Some qr => (s, Ok (MkRegistration (set_codes info (ti_SetupID info) (FormatPairingCode (tc_Pin item)) uri) qr))
        | _, _ => (s, Err PairingCodesFailed)
        end
      else (s, Ok (MkRegistration info ""))
  end.

Definition remember (s : TargetService) (item : Config) (x : TargetRegistration) : TargetService :=
  let s := if present (ts_targets s !! tc_ID item) then s else with_order s (ts_order s ++ [tc_ID item]) in
  registered (with_configs s (<[tc_ID item := item]> (ts_configs s))) (tc_ID item) x.

(** [Save]; [io] tells whether the database executes the transaction. *)
Definition Save (io : bool) (draws : Draws) (s : TargetService) (item : Config) : TargetService * result ServiceError TargetInfo :=
  match accepted s draws item with
  | Err e => (s, Err (TargetRejected e))
  | Ok item =>
      if negb (ts_stored s) then (s, Err TargetStoreUnavailable)
      else match SaveTarget io (ts_tables s) item with
      | Err e => (s, Err (TargetStoreFailed e))
      | Ok t =>
          match saved_registration (with_tables s t) item with
          | (s, Err e) => (s, Err e)
          | (s, Ok x) =>
              let x := safe_registration s item x in
              (remember s item x, Ok (rg_Info x))
          end
      end
  end.

(** The first [id] leaves the order. *)
Fixpoint remove_first (id : string) (l : list string) : list string :=
  match l with
  | [] => []
  | x :: l => if x =s id then l else x :: remove_first id l
  end.
Definition forget (s : TargetService) (id : string) : TargetService :=
  let info := info_of s id in
  let s := with_configs (with_targets s (delete id (ts_targets s))) (delete id (ts_configs s)) in
  notify (with_order s (remove_first id (ts_order s))) (set_Removed info id true).

(** Camera publications keep their pairing outside the tables: it is removed first. *)
Definition remove_camera (s : TargetService) (c : Config) : TargetService * result ServiceError unit :=
  match ts_runtime s, RemoveTarget with
  | Some r, Some f =>
      match ask s r (f c) with
      | (s, Err e) => (s, Err (RuntimeFailed e))
      | (s, Ok _) => (s, Ok tt)
      end
  | _, _ => (s, Err TargetRuntimeUnavailable)
  end.
Definition Delete (io : bool) (s : TargetService) (id : string) : TargetService * result ServiceError unit :=
  if negb (ts_stored s) then (s, Err TargetStoreUnavailable)
  else
    let camera := match ts_configs s !! id with Some c => tc_Type c =s "homekit-camera" | None => false end in
    let '(s, cleaned) := match camera, ts_configs s !! id with true, Some c => remove_camera s c | _, _ => (s, Ok tt) end in
    match cleaned with
    | Err e => (s, Err e)
    | Ok _ =>
        match DeleteTarget io (ts_tables s) id with
        | Err e => (s, Err (TargetStoreFailed e))
        | Ok t =>
            let s := with_tables s t in
            let s := match ts_runtime s with
                     | Some r => if camera then s else (ask s r (Remove id)).1
                     | None => s
                     end in
            (forget s id, Ok tt)
        end
    end.

(** New pairing codes; [pin] and [setup] are the bytes drawn for them. *)
Definition with_codes (c : Config) (pin setup : string) : Config :=
  let h := MkHomeKit (tc_Address c) pin setup (tc_StorePath c) in
  set_flat (set_protocols c
    ((fun h => MkHomeKit (hk_Address h) pin setup (hk_StorePath h)) <$> tc_HomeKitConfig c) (tc_MatterConfig c)) h.
Definition new_codes (s : TargetService) (pin setup : option (list Z)) (id : string) : result ServiceError Config :=
  match ts_configs s !! id with
  | None => Err ErrTargetNotFound
  | Some c =>
      guard! td_SupportsHomeKitPairing (descriptor_of (tc_Type c)) else NotHomeKitTarget in
      let wasPaired := match ts_runtime s with Some r => IsPaired r c | None => ti_Paired (info_of s id) end in
      guard! negb wasPaired else AlreadyPaired in
      match randomString "0123456789" pin, randomString capitals_digits setup with
      | Ok pin, Ok setup => Ok (with_codes c pin setup)
      | _, _ => Err (TargetRejected RandomFailed)
      end
  end.
Definition RegeneratePairing (io : bool) (draws : Draws) (pin setup : option (list Z)) (s : TargetService) (id : string)
    : TargetService * result ServiceError TargetInfo :=
  match new_codes s pin setup id with
  | Err e => (s, Err e)
  | Ok c => Save io draws s c
  end.

(** What the runtime says of a Matter Target, with the error that was known. *)
Definition reported (f : R -> Config -> TargetInfo) (r : R) (c : Config) (known : string) : TargetInfo :=
  let i := f r c in
  if (ti_Status i =s "error") && is_empty (ti_Error i) then set_Error i known else i.
Definition SetStatus (s : TargetService) (id status : string) : TargetService :=
  match ts_targets s !! id with
  | None => s
  | Some x =>
      let info := set_Status (rg_Info x) status in
      let info :=
        match ts_configs s !! id, ts_runtime s, RuntimeInfo with
        | Some c, Some r, Some f =>
            if IsMatterType (tc_Type c) then set_Status (reported f r c (ti_Error info)) status else info
        | _, _, _ => info
        end in
      registered s id (with_Info x info)
  end.

Definition ClearPairingIdentity (s : TargetService) (id : string) : TargetService * result ServiceError TargetInfo :=
  match ts_configs s !! id with
  | None => (s, Err ErrTargetNotFound)
  | Some c =>
      if negb (td_SupportsHomeKitPairing (descriptor_of (tc_Type c))) then (s, Err NotHomeKitTarget)
      else match ts_runtime s with
      | None => (s, Err TargetRuntimeUnavailable)
      | Some r =>
          match ask s r (ResetPairing c) with
          | (s, Err e) => (SetStatus s id "error", Err (RuntimeFailed e))
          | (s, Ok x) => (registered s id x, Ok (rg_Info x))
          end
      end
  end.

(** One Target of the list. *)
Definition listed (s : TargetService) (id : string) : TargetService * TargetInfo :=
  let info := info_of s id in
  match ts_configs s !! id, ts_runtime s with
  | Some c, Some r =>
      let info := if td_SupportsHomeKitPairing (descriptor_of (tc_Type c)) then set_Paired info (IsPaired r c) else info in
      match RuntimeInfo with
      | Some f =>
          if IsMatterType (tc_Type c) then
            let info := reported f r c (ti_Error info) in
            (with_targets s (<[id := with_Info (default zero_registration (ts_targets s !! id)) info]> (ts_targets s)),
             pairingSafeInfo info)
          else (s, pairingSafeInfo info)
      | None => (s, pairingSafeInfo info)
      end
  | _, _ => (s, pairingSafeInfo info)
  end.
Fixpoint list_loop (s : TargetService) (ids : list string) : TargetService * list TargetInfo :=
  match ids with
  | [] => (s, [])
  | id :: ids =>
      let '(s, i) := listed s id in
      let '(s, l) := list_loop s ids in (s, i :: l)
  end.
Definition List (s : TargetService) : TargetService * list TargetInfo := list_loop s (ts_order s).

Definition QR (s : TargetService) (id : string) : result ServiceError string :=
  match ts_targets s !! id with
  | None => Err QRNotFound
  | Some x =>
      let known := ti_Paired (rg_Info x) in
      let wasPaired := match ts_configs s !! id, ts_runtime s with Some c, Some r => IsPaired r c | _, _ => known end in
      guard! negb wasPaired && negb (is_empty (rg_QR x)) else QRNotFound in
      Ok (rg_QR x)
  end.

Definition MatterQR (s : TargetService) (id : string) : TargetService * result ServiceError string :=
  match ts_targets s !! id with
  | None => (s, Err QRNotFound)
  | Some x =>
      let '(s, x) :=
        match ts_configs s !! id, ts_runtime s, RuntimeInfo with
        | Some c, Some r, Some f =>
            let x := with_Info x (f r c) in (with_targets s (<[id := x]> (ts_targets s)), x)
        | _, _, _ => (s, x)
        end in
      let i := rg_Info x in
      if negb (IsMatterType (ti_Type i)) || negb (mi_CommissioningWindowOpen (ti_Matter i)) || is_empty (mi_SetupPayload (ti_Matter i))
      then (s, Err QRNotFound)
      else (s, match EncodeQR (mi_SetupPayload (ti_Matter i)) with Some png => Ok png | None => Err PairingCodesFailed end)
  end.

(** ** Matter *)

Definition keep_QR (s : TargetService) (id : string) (x : TargetRegistration) : TargetRegistration :=
  match ts_targets s !! id with
  | Some previous => if is_empty (rg_QR x) then MkRegistration (rg_Info x) (rg_QR previous) else x
  | None => x
  end.
Definition applyMatterRegistration (s : TargetService) (id : string) (r : result RuntimeError TargetRegistration)
    : TargetService * result ServiceError TargetInfo :=
  match r with
  | Err e => (s, Err (RuntimeFailed e))
  | Ok x =>
      let x := keep_QR s id (with_Info x (set_ConsumerID (rg_Info x) (targetConsumerID (ti_Type (rg_Info x))))) in
      (registered s id x, Ok (rg_Info x))
  end.

Definition matterRuntime (s : TargetService) (id : string)
    : result ServiceError (Config * R * (MatterControl -> string -> Call R TargetRegistration)) :=
  match ts_configs s !! id with
  | None => Err ErrTargetNotFound
  | Some c =>
      guard! IsMatterType (tc_Type c) else NotMatter in
      match ts_runtime s, MatterTargetRuntime with
      | Some r, Some f => Ok (c, r, f)
      | _, _ => Err TargetRuntimeUnavailable
      end
  end.
Definition control (s : TargetService) (id : string) (k : MatterControl) : TargetService * result ServiceError TargetInfo :=
  match matterRuntime s id with
  | Err e => (s, Err e)
  | Ok (c, r, f) => let '(s, x) := ask s r (f k id) in applyMatterRegistration s id x
  end.
Definition OpenMatterCommissioningWindow (s : TargetService) (id : string) (seconds : Z)
    : TargetService * result ServiceError TargetInfo :=
  match matterRuntime s id with
  | Err e => (s, Err e)
  | Ok (c, r, f) =>
      let seconds := match seconds =? 0, tc_MatterConfig c with
                     | true, Some m => mt_CommissioningWindowSeconds m
                     | _, _ => seconds
                     end in
      if (seconds <? 180) || (900 <? seconds) then (s, Err InvalidWindow)
      else let '(s, x) := ask s r (f (OpenWindow seconds) id) in applyMatterRegistration s id x
  end.
Definition CloseMatterCommissioningWindow (s : TargetService) (id : string) := control s id CloseWindow.
Definition RemoveMatterFabric (s : TargetService) (id fabricID : string) : TargetService * result ServiceError TargetInfo :=
  if blank fabricID then (s, Err FabricRequired) else control s id (RemoveFabric fabricID).
Definition FactoryResetMatter (s : TargetService) (id : string) := control s id FactoryReset.

(** The first device [id], with its type. *)
Fixpoint retype (id : string) (type : Type_) (l : list VirtualDevice) : option (Type_ * list VirtualDevice) :=
  match l with
  | [] => None
  | v :: l =>
      if vd_ID v =s id then
        Some (vd_Type v, MkVirtualDevice (vd_ID v) (vd_Name v) type (vd_SourceDeviceID v) (vd_AuxiliarySourceDeviceIDs v) (vd_Enabled v) :: l)
      else match retype id type l with Some (t, l) => Some (t, v :: l) | None => None end
  end.

Definition endpoint_change (s : TargetService) (id device : string) (type : Type_)
    : result ServiceError (R * (string -> string -> Type_ -> Call R unit) * Type_ * Config) :=
  match ts_configs s !! id with
  | None => Err ErrTargetNotFound
  | Some c =>
      guard! tc_Type c =s "matter" else NotMatter in
      guard! negb (blank device) else UnknownEndpoint in
      match ts_runtime s, ConfirmEndpoint with
      | Some r, Some f =>
          guard! ts_stored s else TargetStoreUnavailable in
          guard! present (ConsumerContract "matter" type) else EndpointTypeUnsupported in
          match retype device type (tc_Devices c) with
          | None => Err UnknownEndpoint
          | Some (previous, devices) =>
              guard! negb (previous =s type) else EndpointTypeUnchanged in
              let next := set_Devices c (tc_DeviceIDs c) devices in
              match validateTarget next with
              | Err e => Err (TargetRejected e)
              | Ok _ => Ok (r, f, previous, next)
              end
          end
      | _, _ => Err TargetRuntimeUnavailable
      end
  end.

(** What is known of the Target whose endpoint changed its type. *)
Definition confirmed_registration (next : Config) (x : result RuntimeError TargetRegistration) : TargetRegistration :=
  match x with
  | Err e => MkRegistration (set_Error (TargetInfoFromConfig next "error")
      ("Matter endpoint type was confirmed and persisted, but applying the target failed: " +:+ e)) ""
  | Ok x => with_Info x (set_ConsumerID (rg_Info x) "matter")
  end.

Definition ConfirmMatterEndpointDeviceType (io : bool) (s : TargetService) (id device : string) (type : Type_)
    : TargetService * result ServiceError TargetInfo :=
  match endpoint_change s id device type with
  | Err e => (s, Err e)
  | Ok (r, f, previous, next) =>
      let '((r, t), confirmed) := f id device type r (ts_tables s) in
      match confirmed with
      | Err e => (with_runtime s r t, Err (RuntimeFailed e))
      | Ok _ =>
          match SaveTarget io t next with
          | Err e =>
              (* back to the type there was, which may fail as well *)
              let '((r, t), _) := f id device previous r t in (with_runtime s r t, Err (TargetStoreFailed e))
          | Ok t =>
              let '((r, t), x) := Apply next r t in
              let s := with_runtime s r t in
              let x := keep_QR s id (confirmed_registration next x) in
              (registered (with_configs s (<[id := next]> (ts_configs s))) id x, Ok (rg_Info x))
          end
      end
  end.

(** ** The sections of the calls that change the tables *)

(** A call in progress, after its first section; each constructor has what the call holds
    until its next section: [Save], then [Delete], then the confirmation of an endpoint. *)
Inductive Pending :=
| Accepted (c : Config)
| Stored (c : Config)
| Applied (c : Config) (x : TargetRegistration)
| Known (c : Config) (x : TargetRegistration)
| Leaving (id : string) (config : option Config)
| Cleaned (id : string) (camera : bool)
| Dropped (id : string) (camera : bool)
| Stopped (id : string)
| Retyping (id device : string) (type previous : Type_) (next : Config)
| Retyped (id device : string) (previous : Type_) (next : Config)
| Reverting (id device : string) (previous : Type_) (e : TargetStoreError)
| Republishing (id : string) (next : Config)
| Republished (id : string) (next : Config) (x : TargetRegistration).

(** The Target a call is about. *)
Definition pending_id (p : Pending) : string :=
  match p with
  | Accepted c | Stored c | Applied c _ | Known c _ => tc_ID c
  | Leaving id _ | Cleaned id _ | Dropped id _ | Stopped id => id
  | Retyping id _ _ _ _ | Retyped id _ _ _ | Reverting id _ _ _ | Republishing id _ | Republished id _ _ => id
  end.
(** What its row of the tables is by now, when the call wrote it. *)
Definition committed (p : Pending) : option (option Config) :=
  match p with
  | Stored c | Applied c _ | Known c _ | Republishing _ c | Republished _ c _ => Some (Some c)
  | Dropped _ _ | Stopped _ => Some None
  | _ => None
  end.

(** The first sections: they read the memory of the service. *)
Definition begin_save (s : TargetService) (draws : Draws) (item : Config) : result ServiceError Pending :=
  match accepted s draws item with
  | Err e => Err (TargetRejected e)
  | Ok c => guard! ts_stored s else TargetStoreUnavailable in Ok (Accepted c)
  end.
Definition begin_delete (s : TargetService) (id : string) : result ServiceError Pending :=
  guard! ts_stored s else TargetStoreUnavailable in Ok (Leaving id (ts_configs s !! id)).
Definition begin_confirm (s : TargetService) (id device : string) (type : Type_) : result ServiceError Pending :=
  match endpoint_change s id device type with
  | Err e => Err e
  | Ok (_, _, previous, next) => Ok (Retyping id device type previous next)
  end.

Inductive Progress :=
| Going (p : Pending)
| Done (r : result ServiceError (option TargetInfo)).

(** The next section of a call. *)
Definition proceed (io : bool) (s : TargetService) (p : Pending) : TargetService * Progress :=
  match p with
  | Accepted c =>
      match SaveTarget io (ts_tables s) c with
      | Err e => (s, Done (Err (TargetStoreFailed e)))
      | Ok t => (with_tables s t, Going (Stored c))
      end
  | Stored c =>
      match saved_registration s c with
      | (s, Err e) => (s, Done (Err e))
      | (s, Ok x) => (s, Going (Applied c x))
      end
  | Applied c x => (s, Going (Known c (safe_registration s c x)))
  | Known c x => (remember s c x, Done (Ok (Some (rg_Info x))))
  | Leaving id config =>
      match config with
      | Some c =>
          if tc_Type c =s "homekit-camera" then
            match remove_camera s c with
            | (s, Err e) => (s, Done (Err e))
            | (s, Ok _) => (s, Going (Cleaned id true))
            end
          else (s, Going (Cleaned id false))
      | None => (s, Going (Cleaned id false))
      end
  | Cleaned id camera =>
      match DeleteTarget io (ts_tables s) id with
      | Err e => (s, Done (Err (TargetStoreFailed e)))
      | Ok t => (with_tables s t, Going (Dropped id camera))
      end
  | Dropped id camera =>
      (match ts_runtime s with
       | Some r => if camera then s else (ask s r (Remove id)).1
       | None => s
       end, Going (Stopped id))
  | Stopped id => (forget s id, Done (Ok None))
  | Retyping id device type previous next =>
      match ts_runtime s, ConfirmEndpoint with
      | Some r, Some f =>
          match ask s r (f id device type) with
          | (s, Err e) => (s, Done (Err (RuntimeFailed e)))
          | (s, Ok _) => (s, Going (Retyped id device previous next))
          end
      | _, _ => (s, Done (Err TargetRuntimeUnavailable))
      end
  | Retyped id device previous next =>
      match SaveTarget io (ts_tables s) next with
      | Err e => (s, Going (Reverting id device previous e))
      | Ok t => (with_tables s t, Going (Republishing id next))
      end
  | Reverting id device previous e =>
      (match ts_runtime s, ConfirmEndpoint with
       | Some r, Some f => (ask s r (f id device previous)).1
       | _, _ => s
       end, Done (Err (TargetStoreFailed e)))
  | Republishing id next =>
      match ts_runtime s with
      | Some r => let '(s, x) := ask s r (Apply next) in (s, Going (Republished id next (confirmed_registration next x)))
      | None => (s, Done (Err TargetRuntimeUnavailable))
      end
  | Republished id next x =>
      let x := keep_QR s id x in
      (registered (with_configs s (<[id := next]> (ts_configs s))) id x, Done (Ok (Some (rg_Info x))))
  end.

(** A call that nothing overlaps. *)
Fixpoint finish (sections : nat) (io : bool) (s : TargetService) (p : Pending) : TargetService * Progress :=
  match sections with
  | O => (s, Going p)
  | S n => match proceed io s p with (s, Going p) => finish n io s p | answer => answer end
  end.

(** The whole calls are their sections, one after another. *)
Lemma save_in_sections io draws s item :
  match begin_save s draws item with
  | Err e => Save io draws s item = (s, Err e)
  | Ok p => finish 4 io s p = ((Save io draws s item).1, Done (match (Save io draws s item).2 with Ok i => Ok (Some i) | Err e => Err e end))
  end.
Proof.
  unfold begin_save, Save. destruct (accepted s draws item) as [c|]; [|done]. destruct (ts_stored s); [|done]. cbn [negb finish proceed].
  destruct (SaveTarget io (ts_tables s) c) as [t|]; [|done]. cbn [proceed].
  by destruct (saved_registration (with_tables s t) c) as [s1 [x|e]].
Qed.
Lemma delete_in_sections io s id :
  match begin_delete s id with
  | Err e => Delete io s id = (s, Err e)
  | Ok p => finish 4 io s p = ((Delete io s id).1, Done (match (Delete io s id).2 with Ok _ => Ok None | Err e => Err e end))
  end.
Proof.
  unfold begin_delete, Delete. destruct (ts_stored s); [|done]. cbn [negb finish proceed].
  set (w := match (match ts_configs s !! id with Some _ => _ | None => _ end) with true => _ | false => _ end).
  destruct (ts_configs s !! id) as [c|]; [case_bool_decide|]; subst w; [|cbn [proceed]; by destruct (DeleteTarget _ _ id)..].
  destruct (remove_camera s c) as [s1 [[]|e]]; [|done]. cbn [proceed]. destruct (DeleteTarget _ _ id); [|done].
  cbn [proceed]. by destruct (ts_runtime _).
Qed.
Lemma confirm_in_sections io s id device type :
  match begin_confirm s id device type with
  | Err e => ConfirmMatterEndpointDeviceType io s id device type = (s, Err e)
  | Ok p => finish 4 io s p = ((ConfirmMatterEndpointDeviceType io s id device type).1,
      Done (match (ConfirmMatterEndpointDeviceType io s id device type).2 with Ok i => Ok (Some i) | Err e => Err e end))
  end.
Proof.
  unfold begin_confirm, ConfirmMatterEndpointDeviceType. destruct (endpoint_change s id device type) as [[[[r f] previous] next]|] eqn:He; [|done].
  assert (ts_runtime s = Some r /\ ConfirmEndpoint = Some f) as [Hr Hf].
  { revert He. unfold endpoint_change. destruct (ts_configs s !! id); [|done]. destruct (bool_decide _); [|done]. destruct (negb _); [|done].
    destruct (ts_runtime s); [|done]. destruct ConfirmEndpoint; [|done]. destruct (ts_stored s); [|done]. destruct (present _); [|done].
    destruct (retype _ _ _) as [[? ?]|]; [|done]. destruct (negb _); [|done]. destruct (validateTarget _); [|done]. by intros [= -> ->]. }
  cbn [finish proceed]. rewrite Hr, Hf. unfold ask at 1. destruct (f id device type r (ts_tables s)) as [[r1 t1] [[]|e]]; [|done]. cbn [proceed ts_tables with_runtime].
  destruct (SaveTarget io t1 next) as [t2|e]; cbn [proceed ts_runtime with_tables with_runtime]; [unfold ask; cbn [ts_tables with_tables with_runtime]; by destruct (Apply next r1 t2) as [[r3 t3] x]|].
  rewrite Hf. unfold ask. cbn [ts_tables with_runtime]. by destruct (f id device previous r1 t1) as [[r2 t2] x].
Qed.

(** ** Starting: backend/cmd/homeloom/main.go *)

(** Every configuration is applied; one that fails is known by its error. *)
Fixpoint start_targets (r : R) (t : TargetTables) (configs : list Config) : (R * TargetTables) * list TargetRegistration :=
  match configs with
  | [] => ((r, t), [])
  | c :: configs =>
      let '((r, t), x) := Apply c r t in
      let registration := match x with
        | Ok x => x
        | Err e => MkRegistration (set_Error (TargetInfoFromConfig c "error") e) ""
        end in
      let '(w, l) := start_targets r t configs in (w, registration :: l)
  end.
Definition SetRuntime (s : TargetService) (r : R) : TargetService := with_runtime s r (ts_tables s).
Definition start (r : R) (t : TargetTables) (configs : list Config) : TargetService :=
  let '((r, t), registrations) := start_targets r t configs in
  SetRuntime (NewTargetService registrations true t configs) r.
End Service.

Arguments TargetService : clear implicits.
