(* ===== verification/TargetRuns.v ===== *)
(** * Runs of the service of Targets

    Any calls, restarts and changes of the runtime, the sections of calls about different
    Targets in any order: what the service holds in memory is what a restart would load.
    Calls one after another: pairing codes stay while a controller is paired. *)

From S2P Require Import Prelude Float64 DeviceModel Lookup ModelContract ConsumerCatalog FloatText Text MappingBinding TargetConfig TargetStore TargetRows TargetService.

Section Runs.
Context {R : Type} `{RuntimeLaws R} `{PairingCodes}.
Implicit Types (s : TargetService R) (c : Config) (ps : gmap string Pending).

Inductive ServiceOp :=
| DoSave (io : bool) (draws : Draws) (c : Config)
| DoDelete (io : bool) (id : string)
| DoRegenerate (io : bool) (draws : Draws) (pin setup : option (list Z)) (id : string)
| DoClear (id : string)
| DoRefresh (ids : list string)
| DoStatus (id status : string)
| DoList
| DoMatterQR (id : string)
| DoOpen (id : string) (seconds : Z)
| DoClose (id : string)
| DoRemoveFabric (id fabric : string)
| DoFactoryReset (id : string)
| DoConfirm (io : bool) (id device : string) (type : Type_).

Definition perform s (op : ServiceOp) : TargetService R :=
  match op with
  | DoSave io draws c => (Save io draws s c).1
  | DoDelete io i => (Delete io s i).1
  | DoRegenerate io draws pin setup i => (RegeneratePairing io draws pin setup s i).1
  | DoClear i => (ClearPairingIdentity s i).1
  | DoRefresh ids => (Refresh s ids).1
  | DoStatus i status => SetStatus s i status
  | DoList => (List s).1
  | DoMatterQR i => (MatterQR s i).1
  | DoOpen i n => (OpenMatterCommissioningWindow s i n).1
  | DoClose i => (CloseMatterCommissioningWindow s i).1
  | DoRemoveFabric i f => (RemoveMatterFabric s i f).1
  | DoFactoryReset i => (FactoryResetMatter s i).1
  | DoConfirm io i d ty => (ConfirmMatterEndpointDeviceType io s i d ty).1
  end.

(** The configurations a restart loads, in some order. *)
Definition loaded (t : TargetTables) : list Config := snd <$> map_to_list (list_target <$> target_rows t).

(** A start on tables there are: a default Target is created when there is none. *)
Definition started r t configs : TargetService R := start r (seedDefaults t) configs.

(** The service from its first start on: calls, restarts, and what the runtime and other
    services do to the runtime and the tables in between. *)
Inductive service_run : TargetService R -> Prop :=
| run_first r configs : configs ≡ₚ loaded (seedDefaults no_targets) -> service_run (started r no_targets configs)
| run_call s op : service_run s -> service_run (perform s op)
| run_aside s r t : service_run s -> target_rows t = target_rows (ts_tables s) -> service_run (with_runtime s r t)
| run_restart s r configs : service_run s -> configs ≡ₚ loaded (seedDefaults (ts_tables s)) ->
    service_run (started r (ts_tables s) configs).

(** The calls in progress after a section of the call about [i]. *)
Definition settle ps (i : string) (o : Progress) : gmap string Pending :=
  match o with Going p => <[i := p]> ps | Done _ => delete i ps end.
(** The first section of a call. *)
Inductive begins s : Pending -> Prop :=
| begins_save draws item p : begin_save s draws item = Ok p -> begins s p
| begins_delete i p : begin_delete s i = Ok p -> begins s p
| begins_confirm i d ty p : begin_confirm s i d ty = Ok p -> begins s p.
(** The calls that write no row of the tables. *)
Definition writes_rows (op : ServiceOp) : bool :=
  match op with DoSave _ _ _ | DoDelete _ _ | DoRegenerate _ _ _ _ _ | DoConfirm _ _ _ _ => true | _ => false end.

(** The service while calls overlap: the sections of calls that save, delete or retype
    different Targets come in any order, and so does what other calls learn of a Target that
    is still there; the process may end, and start again, in the middle of calls. *)
Inductive traffic : TargetService R -> gmap string Pending -> Prop :=
| traffic_first r configs : configs ≡ₚ loaded (seedDefaults no_targets) -> traffic (started r no_targets configs) ∅
| traffic_begin s ps p : traffic s ps -> begins s p -> ps !! pending_id p = None -> traffic s (<[pending_id p := p]> ps)
| traffic_proceed io s ps i p : traffic s ps -> ps !! i = Some p -> traffic (proceed io s p).1 (settle ps i (proceed io s p).2)
| traffic_call s ps op : traffic s ps -> writes_rows op = false -> traffic (perform s op) ps
| traffic_registered s ps i x : traffic s ps -> is_Some (ts_targets s !! i) -> traffic (registered s i x) ps
| traffic_aside s ps r t : traffic s ps -> target_rows t = target_rows (ts_tables s) -> traffic (with_runtime s r t) ps
| traffic_restart s ps r configs : traffic s ps -> configs ≡ₚ loaded (seedDefaults (ts_tables s)) -> traffic (started r (ts_tables s) configs) ∅.

(** ** Memory and tables agree *)

Definition complete c : Prop :=
  settled c /\ present (DescriptorForType (tc_Type c)) = true /\ NoDup (vd_ID <$> tc_Devices c) /\
  (is_homekit (tc_Type c) = true -> tc_Pin c <> "" /\ tc_SetupID c <> "").

(** The configuration a row holds: the one in memory, unless a call in progress wrote it. *)
Definition owned (ps : gmap string Pending) s (i : string) : option Config :=
  match ps !! i with
  | Some p => default (ts_configs s !! i) (committed p)
  | None => ts_configs s !! i
  end.
(** What a call in progress relies on. *)
Definition stage_ok s (i : string) (p : Pending) : Prop :=
  pending_id p = i /\
  match p with
  | Accepted c => settled c /\ validateTarget c = Ok tt
  | Stored c | Applied c _ | Known c _ => complete c
  | Retyping _ _ _ _ c | Retyped _ _ _ c => tc_ID c = i /\ settled c /\ validateTarget c = Ok tt /\ is_Some (ts_targets s !! i)
  | Republishing _ c | Republished _ c _ => tc_ID c = i /\ complete c /\ is_Some (ts_targets s !! i)
  | Leaving _ _ | Cleaned _ _ | Dropped _ _ | Stopped _ | Reverting _ _ _ _ => True
  end.

(** The service while the calls [ps] are in progress. *)
Record service_ok ps s : Prop := {
  so_runtime : is_Some (ts_runtime s);
  so_stored : ts_stored s = true;
  so_order : NoDup (ts_order s);
  so_listed : forall i, i ∈ ts_order s <-> is_Some (ts_targets s !! i);
  so_configs : forall i, is_Some (ts_configs s !! i) <-> is_Some (ts_targets s !! i);
  so_complete : forall i c, ts_configs s !! i = Some c -> tc_ID c = i /\ complete c;
  so_rows : forall i, list_target <$> target_rows (ts_tables s) !! i = reread <$> owned ps s i;
  so_stages : forall i p, ps !! i = Some p -> stage_ok s i p;
}.
#[local] Arguments so_runtime {ps} s _.
#[local] Arguments so_stored {ps} s _.
#[local] Arguments so_order {ps} s _.
#[local] Arguments so_listed {ps} s _.
#[local] Arguments so_configs {ps} s _.
#[local] Arguments so_complete {ps} s _.
#[local] Arguments so_rows {ps} s _.
#[local] Arguments so_stages {ps} s _.

Lemma stage_mono s s' i p : (is_Some (ts_targets s !! i) -> is_Some (ts_targets s' !! i)) -> stage_ok s i p -> stage_ok s' i p.
Proof. destruct p; unfold stage_ok; naive_solver. Qed.

(** What memory and the runtime do beside the calls in progress. *)
Section Beside.
Variable ps : gmap string Pending.

Lemma ok_runtime s r t : service_ok ps s -> target_rows t = target_rows (ts_tables s) -> service_ok ps (with_runtime s r t).
Proof. intros [] E. constructor; simpl; auto. by rewrite E. Qed.
Lemma ok_targets s i x : service_ok ps s -> is_Some (ts_targets s !! i) -> service_ok ps (with_targets s (<[i := x]> (ts_targets s))).
Proof.
  intros [] Hi. assert (forall j, is_Some (<[i := x]> (ts_targets s) !! j) <-> is_Some (ts_targets s !! j)) as E.
  { intros j. destruct (decide (i = j)) as [->|Hne]; [rewrite lookup_insert_eq; split; [done|by eexists]|by rewrite lookup_insert_ne]. }
  constructor; simpl; try done; [intros j; by rewrite E..|]. intros j p Hp. eapply stage_mono; [|by eauto]. cbn [ts_targets with_targets]. by rewrite E.
Qed.
Lemma ok_notify s i : service_ok ps s -> service_ok ps (notify s i).
Proof. intros []. by constructor. Qed.
Lemma ok_registered s i x : service_ok ps s -> is_Some (ts_targets s !! i) -> service_ok ps (registered s i x).
Proof. intros. by apply ok_notify, ok_targets. Qed.

(** A call of the runtime leaves all but the tables and the runtime alone. *)
Lemma ask_same {A} s r (f : Call R A) s' x : ask s r f = (s', x) -> keeps_rows f ->
  exists r' t', s' = with_runtime s r' t' /\ target_rows t' = target_rows (ts_tables s).
Proof.
  unfold ask. intros Ha Hf. specialize (Hf r (ts_tables s)). destruct (f r (ts_tables s)) as [[r' t'] y].
  injection Ha as <- <-. eauto.
Qed.
Lemma ok_ask {A} s r (f : Call R A) s' x : ask s r f = (s', x) -> keeps_rows f -> service_ok ps s ->
  service_ok ps s' /\ ts_targets s' = ts_targets s /\ ts_configs s' = ts_configs s.
Proof. intros Ha Hf Hok. destruct (ask_same _ _ _ _ _ Ha Hf) as (r' & t' & -> & E). split; [by apply ok_runtime|done]. Qed.

Lemma known_target s i c : service_ok ps s -> ts_configs s !! i = Some c -> is_Some (ts_targets s !! i).
Proof. intros Hok Hc. apply (so_configs s Hok). by eexists. Qed.

Lemma refresh_ok cs : forall s, service_ok ps s -> (forall c, c ∈ cs -> is_Some (ts_targets s !! tc_ID c)) -> service_ok ps (refresh s cs).1.
Proof.
  induction cs as [|c cs IH]; intros s Hok Hcs; simpl; [done|]. destruct (ts_runtime s) as [r|]; [|done].
  destruct (ask s r (Apply c)) as [s' [x|e]] eqn:Ha; destruct (ok_ask _ _ _ _ _ Ha (apply_rows c) Hok) as (Hok' & Ht & _); simpl; [|done].
  assert (is_Some (ts_targets s' !! tc_ID c)) as Hc by (rewrite Ht; apply Hcs; left).
  apply IH; [by apply ok_registered|]. intros d Hd. cbn [ts_targets registered notify with_targets]. rewrite lookup_insert_is_Some', Ht.
  right. apply Hcs. by right.
Qed.

Lemma status_ok s i status : service_ok ps s -> service_ok ps (SetStatus s i status).
Proof. intros Hok. unfold SetStatus. destruct (ts_targets s !! i) eqn:Hi; [|done]. apply ok_registered; [done|by rewrite Hi]. Qed.
Lemma status_targets s i status j : is_Some (ts_targets s !! j) -> is_Some (ts_targets (SetStatus s i status) !! j).
Proof.
  unfold SetStatus. destruct (ts_targets s !! i); [|done]. cbn [ts_targets registered notify with_targets].
  rewrite lookup_insert_is_Some'. by right.
Qed.
Lemma clear_ok s i : service_ok ps s -> service_ok ps (ClearPairingIdentity s i).1.
Proof.
  intros Hok. unfold ClearPairingIdentity. destruct (ts_configs s !! i) as [c|] eqn:Hc; [|done]. destruct (negb _); [done|].
  destruct (ts_runtime s) as [r|]; [|done]. destruct (ask s r (ResetPairing c)) as [s' [x|e]] eqn:Ha;
    destruct (ok_ask _ _ _ _ _ Ha (reset_rows c) Hok) as (Hok' & Ht & _); simpl; [|by apply status_ok].
  apply ok_registered; [done|]. rewrite Ht. by eapply known_target.
Qed.

Lemma listed_target_ok s i : service_ok ps s -> service_ok ps (listed s i).1.
Proof.
  intros Hok. unfold listed. destruct (ts_configs s !! i) as [c|] eqn:Hc; [|done]. destruct (ts_runtime s) as [r|]; [|done].
  destruct RuntimeInfo as [f|]; [|done]. destruct (IsMatterType (tc_Type c)); [|done].
  apply ok_targets; [done|]. by eapply known_target.
Qed.
Lemma list_ok l : forall s, service_ok ps s -> service_ok ps (list_loop s l).1.
Proof.
  induction l as [|i l IH]; intros s Hok; simpl; [done|]. pose proof (listed_target_ok s i Hok) as Hi. destruct (listed s i) as [s1 x].
  specialize (IH s1 Hi). by destruct (list_loop s1 l).
Qed.
Lemma matter_qr_ok s i : service_ok ps s -> service_ok ps (MatterQR s i).1.
Proof.
  intros Hok. unfold MatterQR. destruct (ts_targets s !! i) as [x|] eqn:Hx; [|done].
  set (w := match ts_configs s !! i with Some _ => _ | None => _ end). assert (service_ok ps w.1) as Hw.
  { unfold w. destruct (ts_configs s !! i); [|done]. destruct (ts_runtime s); [|done]. destruct RuntimeInfo; [|done].
    apply ok_targets; [done|by eexists]. }
  destruct w as [s1 y]. cbn [fst] in Hw. by destruct (negb _ || _ || _).
Qed.

Lemma applied_ok s i x : service_ok ps s -> is_Some (ts_targets s !! i) -> service_ok ps (applyMatterRegistration s i x).1.
Proof. intros Hok Hi. unfold applyMatterRegistration. destruct x; [|done]. by apply ok_registered. Qed.
Lemma matter_runtime_spec s i c r f : matterRuntime s i = Ok (c, r, f) ->
  ts_configs s !! i = Some c /\ MatterTargetRuntime = Some f.
Proof.
  unfold matterRuntime. destruct (ts_configs s !! i) as [d|]; [|done]. destruct (IsMatterType _); [|done].
  destruct (ts_runtime s); [|done]. destruct MatterTargetRuntime; [|done]. by intros [= <- <- <-].
Qed.
Lemma controlled_ok s i c r f k : service_ok ps s -> matterRuntime s i = Ok (c, r, f) ->
  service_ok ps (let '(s, x) := ask s r (f k i) in applyMatterRegistration s i x).1.
Proof.
  intros Hok [Hc Hf]%matter_runtime_spec. destruct (ask s r (f k i)) as [s' x] eqn:Ha.
  destruct (ok_ask _ _ _ _ _ Ha (control_rows f k i Hf) Hok) as (Hok' & Ht & _). apply applied_ok; [done|].
  rewrite Ht. by eapply known_target.
Qed.
Lemma control_ok s i k : service_ok ps s -> service_ok ps (control s i k).1.
Proof. intros Hok. unfold control. destruct (matterRuntime s i) as [[[c r] f]|] eqn:Hm; [by eapply controlled_ok|done]. Qed.
Lemma open_ok s i n : service_ok ps s -> service_ok ps (OpenMatterCommissioningWindow s i n).1.
Proof.
  intros Hok. unfold OpenMatterCommissioningWindow. destruct (matterRuntime s i) as [[[c r] f]|] eqn:Hm; [|done].
  destruct (_ || _); [done|by eapply controlled_ok].
Qed.

Lemma perform_ok s op : writes_rows op = false -> service_ok ps s -> service_ok ps (perform s op).
Proof.
  intros Hop Hok. destruct op as [io dr c|io i|io dr pin setup i|i|ids|i st| |i|i n|i|i f|i|io i d ty]; try done; simpl.
  - by apply clear_ok.
  - apply refresh_ok; [done|]. intros c [_ Hc]%list_elem_of_filter. apply list_elem_of_omap in Hc as (j & _ & Hj).
    destruct (so_complete s Hok _ _ Hj) as [-> _]. by eapply known_target.
  - by apply status_ok.
  - by apply list_ok.
  - by apply matter_qr_ok.
  - by apply open_ok.
  - by apply control_ok.
  - unfold RemoveMatterFabric. destruct (blank f); [done|by apply control_ok].
  - by apply control_ok.
Qed.

Lemma remove_camera_ok s c : service_ok ps s -> service_ok ps (remove_camera s c).1 /\ ts_configs (remove_camera s c).1 = ts_configs s.
Proof.
  intros Hok. unfold remove_camera. destruct (ts_runtime s) as [r|]; [|done]. destruct RemoveTarget as [f|] eqn:Hf; [|done].
  destruct (ask s r (f c)) as [s' x] eqn:Ha. destruct (ok_ask _ _ _ _ _ Ha (remove_target_rows f c Hf) Hok) as (Hok' & _ & E).
  by destruct x.
Qed.

End Beside.

(** The rows with a configuration saved. *)
Lemma saved_complete io t c t' : settled c -> validateTarget c = Ok tt -> SaveTarget io t c = Ok t' -> complete c.
Proof.
  intros Hs Hv (Hd & _)%save_parts. destruct (valid_parts c Hv) as (Hp & Hk & _).
  split_and!; [done..| |done]. by rewrite (st_sources _ Hs), expand_settled in Hd.
Qed.
Lemma saved_rows io t c t' : complete c -> SaveTarget io t c = Ok t' ->
  forall i, list_target <$> target_rows t' !! i = if decide (tc_ID c = i) then Some (reread c) else list_target <$> target_rows t !! i.
Proof.
  intros (Hs & Hp & _) (_ & _ & Hrows & _)%save_parts i. rewrite Hrows, (st_normal _ Hs). destruct (decide (tc_ID c = i)) as [<-|Hne].
  - rewrite lookup_insert_eq. simpl. by rewrite list_row.
  - by rewrite lookup_insert_ne.
Qed.

Lemma accepted_settled s draws item c : accepted s draws item = Ok c -> settled c /\ validateTarget c = Ok tt.
Proof.
  unfold accepted. destruct (edited s item) as [item'|]; [|done]. destruct (withDefaults _ _ _) as [c'|] eqn:Hd; [|done].
  destruct (validateTarget c') as [[]|] eqn:Hv; [|done]. intros [= <-]. split; [|done]. by eapply defaults_settle.
Qed.
Lemma accepted_complete s draws item c io t t' : accepted s draws item = Ok c -> SaveTarget io t c = Ok t' -> complete c.
Proof. intros [Hs Hv]%accepted_settled Hsave. by eapply saved_complete. Qed.

Lemma saved_registration_same s r c s' x : ts_runtime s = Some r -> saved_registration s c = (s', x) ->
  exists r' t' y, s' = with_runtime s r' t' /\ target_rows t' = target_rows (ts_tables s) /\ x = Ok y.
Proof.
  unfold saved_registration. intros ->. destruct (ask s r (Apply c)) as [s1 y] eqn:Ha.
  destruct (ask_same _ _ _ _ _ Ha (apply_rows c)) as (r' & t' & -> & E). destruct y; intros [= <- <-]; eauto 6.
Qed.

Lemma remove_first_spec i l : NoDup l -> NoDup (remove_first i l) /\ forall j, j ∈ remove_first i l <-> j ∈ l /\ j <> i.
Proof.
  induction l as [|x l IH]; simpl; [intros _; split; [constructor|]; intros j; rewrite elem_of_nil; tauto|].
  intros [Hx Hl]%NoDup_cons. destruct (IH Hl) as [Hn He]. case_bool_decide as E.
  - subst x. split; [done|]. intros j. rewrite elem_of_cons. naive_solver.
  - split; [apply NoDup_cons; split; [rewrite He; tauto|done]|]. intros j. rewrite !elem_of_cons, He. naive_solver.
Qed.

Lemma deleted_rows io t id t' : DeleteTarget io t id = Ok t' ->
  forall i, target_rows t' !! i = if decide (id = i) then None else target_rows t !! i.
Proof.
  unfold DeleteTarget, commit. destruct io; [|done]. destruct (present _); [|done]. intros [= <-] i. cbn [target_rows].
  case_decide as Hi; [by rewrite Hi, lookup_delete_eq|by rewrite lookup_delete_ne].
Qed.

Lemma retype_sources i ty l t l' : retype i ty l = Some (t, l') -> forall seen,
  fold_left (fun seen v => if vd_Enabled v then fold_left append_new (SourceDeviceIDs v) seen else seen) l' seen =
  fold_left (fun seen v => if vd_Enabled v then fold_left append_new (SourceDeviceIDs v) seen else seen) l seen.
Proof.
  revert l'. induction l as [|v l IH]; intros l'; simpl; [done|]. case_bool_decide.
  - intros [= <- <-] seen. done.
  - destruct (retype i ty l) as [[t1 l1]|]; [|done]. intros [= <- <-] seen. simpl. by apply IH.
Qed.
Lemma retyped_settled c l : settled c -> active_sources l = active_sources (tc_Devices c) ->
  settled (set_Devices c (tc_DeviceIDs c) l).
Proof.
  intros [Hn Hi Ht Hna Hs Hh Hm] E. constructor; cbn [tc_ID tc_Type tc_Name tc_DeviceIDs tc_Devices set_Devices]; try done.
  - by rewrite normalize_devices, Hn.
  - by rewrite Hs.
Qed.

Lemma endpoint_change_spec ps s i d ty r f previous next : service_ok ps s ->
  endpoint_change s i d ty = Ok (r, f, previous, next) ->
  exists c, ts_configs s !! i = Some c /\ tc_ID next = i /\ settled next /\ validateTarget next = Ok tt /\ ConfirmEndpoint = Some f /\
    tc_Type c = "matter" /\ tc_Type next = "matter" /\ retype d ty (tc_Devices c) = Some (previous, tc_Devices next).
Proof.
  intros Hok. unfold endpoint_change. destruct (ts_configs s !! i) as [c|] eqn:Hc; [|done].
  destruct (bool_decide_reflect (tc_Type c = "matter")) as [Ht|]; [|done]. destruct (negb (blank d)); [|done].
  destruct (ts_runtime s); [|done]. destruct ConfirmEndpoint as [g|]; [|done]. destruct (ts_stored s); [|done].
  destruct (present _); [|done]. destruct (retype d ty (tc_Devices c)) as [[p l]|] eqn:Hre; [|done]. destruct (negb _); [|done].
  destruct (validateTarget _) as [[]|] eqn:Hv; [|done]. intros [= <- <- <- <-].
  destruct (so_complete s Hok _ _ Hc) as (Hi & Hs & _). exists c. split_and!; try done. apply retyped_settled; [done|]. by apply (retype_sources _ _ _ _ _ Hre).
Qed.

(** ** The sections of a call *)

(** A call goes on without writing: what the row should be stays the same. *)
Lemma ok_going ps s i p : service_ok ps s -> stage_ok s i p -> owned (<[i := p]> ps) s i = owned ps s i -> service_ok (<[i := p]> ps) s.
Proof.
  intros [Hr Hst Ho Hl Hc Hcm Hrow Hs] Hp E. constructor; try done.
  - intros j. rewrite Hrow. destruct (decide (i = j)) as [<-|Hne]; [by rewrite E|]. unfold owned. by rewrite lookup_insert_ne.
  - intros j q [[<- <-]|[_ Hq]]%lookup_insert_Some; [done|by apply Hs].
Qed.
(** It writes the row of its Target. *)
Lemma ok_written ps s t i p o : service_ok ps s -> stage_ok s i p -> committed p = Some o ->
  (forall j, list_target <$> target_rows t !! j = if decide (i = j) then reread <$> o else list_target <$> target_rows (ts_tables s) !! j) ->
  service_ok (<[i := p]> ps) (with_tables s t).
Proof.
  intros [Hr Hst Ho Hl Hc Hcm Hrow Hs] Hp E Ht. constructor; try done; cbn [ts_tables with_tables].
  - intros j. rewrite Ht. unfold owned. destruct (decide (i = j)) as [<-|Hne]; [by rewrite lookup_insert_eq, E|]. rewrite lookup_insert_ne by done. apply Hrow.
  - intros j q [[<- <-]|[_ Hq]]%lookup_insert_Some; [done|by apply Hs].
Qed.
(** It ends before it wrote anything. *)
Lemma ok_failed ps s i p : service_ok ps s -> ps !! i = Some p -> committed p = None -> service_ok (delete i ps) s.
Proof.
  intros [Hr Hst Ho Hl Hc Hcm Hrow Hs] Hp E. constructor; try done.
  - intros j. rewrite Hrow. unfold owned. destruct (decide (i = j)) as [<-|Hne]; [by rewrite lookup_delete_eq, Hp, E|by rewrite lookup_delete_ne].
  - intros j q [_ Hq]%lookup_delete_Some. by apply Hs.
Qed.

(** The last sections bring the memory in agreement with the row. *)
Lemma ok_remember ps s p c x : service_ok ps s -> ps !! tc_ID c = Some p -> committed p = Some (Some c) -> complete c ->
  service_ok (delete (tc_ID c) ps) (remember s c x).
Proof.
  intros [Hr Hst Ho Hl Hc Hcm Hrow Hs] Hp Hcp Hcc. unfold remember. set (s1 := if present _ then _ else _).
  assert (ts_runtime s1 = ts_runtime s /\ ts_stored s1 = ts_stored s /\ ts_configs s1 = ts_configs s /\ ts_tables s1 = ts_tables s /\ ts_targets s1 = ts_targets s) as (E1 & E2 & E3 & E4 & E5) by (unfold s1; by destruct (present _)).
  assert (NoDup (ts_order s1) /\ forall i, i ∈ ts_order s1 <-> i = tc_ID c \/ is_Some (ts_targets s !! i)) as [Ho1 Hl1].
  { unfold s1. destruct (ts_targets s !! tc_ID c) as [y|] eqn:Hy; cbn [present ts_order with_order with_tables].
    - split; [done|]. intros i. rewrite Hl. split; [by right|]. intros [->|Hi]; [by eexists|done].
    - split.
      + apply NoDup_app. split; [done|]. split; [|apply NoDup_singleton]. intros i Hi%Hl E%list_elem_of_singleton. subst i. destruct Hi; congruence.
      + intros i. rewrite elem_of_app, list_elem_of_singleton, Hl. tauto. }
  constructor; cbn [ts_targets ts_order ts_configs ts_stored ts_tables ts_runtime registered notify with_targets with_configs];
    rewrite ?E1, ?E2, ?E3, ?E4, ?E5; try done.
  - intros i. rewrite Hl1, lookup_insert_is_Some'. naive_solver.
  - intros i. by rewrite !lookup_insert_is_Some', Hc.
  - intros i d [[<- <-]|[_ Hd]]%lookup_insert_Some; [done|by apply Hcm].
  - intros i. rewrite Hrow. unfold owned. cbn [ts_configs registered notify with_targets with_configs]. rewrite ?E3. destruct (decide (tc_ID c = i)) as [<-|Hne].
    + by rewrite lookup_delete_eq, lookup_insert_eq, Hp, Hcp.
    + by rewrite lookup_delete_ne, lookup_insert_ne.
  - intros i q [_ Hq]%lookup_delete_Some. eapply stage_mono; [|by apply Hs]. cbn [ts_targets registered notify with_targets with_configs].
    rewrite ?E5, lookup_insert_is_Some'. by right.
Qed.
Lemma ok_forget ps s p id : service_ok ps s -> ps !! id = Some p -> committed p = Some None -> service_ok (delete id ps) (forget s id).
Proof.
  intros [Hr Hst Ho Hl Hc Hcm Hrow Hs] Hp Hcp. destruct (remove_first_spec id _ Ho) as [Ho' Hl'].
  constructor; cbn [ts_targets ts_order ts_configs ts_stored ts_tables ts_runtime forget notify with_order with_targets with_configs with_tables]; try done.
  - intros i. rewrite Hl', Hl, lookup_delete_is_Some. naive_solver.
  - intros i. by rewrite !lookup_delete_is_Some, Hc.
  - intros i d [_ Hd]%lookup_delete_Some. by apply Hcm.
  - intros i. rewrite Hrow. unfold owned. cbn [ts_configs forget notify with_order with_targets with_configs]. destruct (decide (id = i)) as [<-|Hne].
    + by rewrite !lookup_delete_eq, Hp, Hcp.
    + by rewrite !lookup_delete_ne.
  - intros i q [Hne Hq]%lookup_delete_Some. eapply stage_mono; [|by apply Hs]. cbn [ts_targets forget notify with_order with_targets with_configs].
    by rewrite lookup_delete_ne.
Qed.

Lemma proceed_ok io ps s i p : service_ok ps s -> ps !! i = Some p ->
  service_ok (settle ps i (proceed io s p).2) (proceed io s p).1.
Proof.
  intros Hok Hp. destruct (so_stages s Hok i p Hp) as [Hi Hst]. destruct (so_runtime s Hok) as [r Hr].
  assert (forall s' q, service_ok ps s' -> ts_configs s' = ts_configs s -> committed q = committed p -> stage_ok s' i q -> service_ok (<[i := q]> ps) s') as Hgo.
  { intros s' q Hok' E Ec Hq. apply ok_going; [done..|]. unfold owned. by rewrite lookup_insert_eq, Hp, Ec. }
  assert (committed p = None -> service_ok (delete i ps) s) as Hfail by (by apply ok_failed).
  destruct p as [c|c|c x|c x|j config|j camera|j camera|j|j d ty prev c|j d prev c|j d prev e|j c|j c x]; cbn [proceed pending_id] in *; subst i.
  - destruct (SaveTarget io (ts_tables s) c) as [t|e] eqn:Hsave; cbn [fst snd settle]; [|by apply Hfail].
    pose proof (saved_complete _ _ _ _ (proj1 Hst) (proj2 Hst) Hsave) as Hc.
    eapply ok_written; [done|by split|done|]. intros i. by rewrite (saved_rows _ _ _ _ Hc Hsave).
  - destruct (saved_registration s c) as [s1 y] eqn:Hreg. destruct (saved_registration_same _ _ _ _ _ Hr Hreg) as (r' & t' & x & -> & E & ->).
    cbn [fst snd settle]. apply Hgo; [by apply ok_runtime|done|done|by split].
  - by apply Hgo.
  - by eapply ok_remember.
  - destruct config as [c|]; [case_bool_decide|]; [|by apply Hgo..]. destruct (remove_camera_ok ps s c Hok) as [Hok' Ec].
    destruct (remove_camera s c) as [s1 [[]|e]]; cbn [fst snd settle] in *; [by apply Hgo|by eapply ok_failed].
  - destruct (DeleteTarget io (ts_tables s) j) as [t|e] eqn:Hd; cbn [fst snd settle]; [|by apply Hfail].
    eapply ok_written; [done|by split|done|]. intros i. rewrite (deleted_rows _ _ _ _ Hd). by case_decide.
  - cbn [fst snd settle]. rewrite Hr. destruct camera; [by apply Hgo|]. destruct (ask s r (Remove j)) as [s1 y] eqn:Ha.
    destruct (ok_ask ps _ _ _ _ _ Ha (remove_rows j) Hok) as (Hok' & _ & Ec). by apply Hgo.
  - by eapply ok_forget.
  - rewrite Hr. destruct ConfirmEndpoint as [f|] eqn:Hf; [|by apply Hfail].
    destruct (ask s r (f j d ty)) as [s1 y] eqn:Ha. destruct (ok_ask ps _ _ _ _ _ Ha (confirm_rows f j d ty Hf) Hok) as (Hok' & Et & Ec).
    destruct y; cbn [fst snd settle]; [|by eapply ok_failed]. apply Hgo; [done..|]. split; [done|]. by rewrite Et.
  - destruct Hst as (Hj & Hs & Hv & Ht). destruct (SaveTarget io (ts_tables s) c) as [t|e] eqn:Hsave; cbn [fst snd settle]; [|by apply Hgo].
    pose proof (saved_complete _ _ _ _ Hs Hv Hsave) as Hc. eapply ok_written; [done|by split|done|].
    intros i. by rewrite (saved_rows _ _ _ _ Hc Hsave), Hj.
  - rewrite Hr. cbn [fst snd settle]. destruct ConfirmEndpoint as [f|] eqn:Hf; [|by apply Hfail].
    destruct (ask s r (f j d prev)) as [s1 y] eqn:Ha. destruct (ok_ask ps _ _ _ _ _ Ha (confirm_rows f j d prev Hf) Hok) as (Hok' & _). by eapply ok_failed.
  - rewrite Hr. destruct Hst as (Hj & Hc & Ht). destruct (ask s r (Apply c)) as [s1 y] eqn:Ha.
    destruct (ok_ask ps _ _ _ _ _ Ha (apply_rows c) Hok) as (Hok' & Et & Ec). cbn [fst snd settle]. apply Hgo; [done..|]. split; [done|]. by rewrite Et.
  - destruct Hst as (Hj & Hc & [y Hy]). cbn [fst snd settle]. subst j.
    pose proof (ok_remember ps s _ c (keep_QR s (tc_ID c) x) Hok Hp eq_refl Hc) as Hrem. unfold remember in Hrem. by rewrite Hy in Hrem.
Qed.

Lemma begin_ok ps s p : service_ok ps s -> begins s p -> ps !! pending_id p = None -> service_ok (<[pending_id p := p]> ps) s.
Proof.
  intros Hok Hb Hn. assert (stage_ok s (pending_id p) p /\ committed p = None) as [Hst Hc].
  { destruct Hb as [dr item p Hb|i p Hb|i d ty p Hb].
    - unfold begin_save in Hb. destruct (accepted s dr item) as [c|] eqn:Ha; [|done]. destruct (ts_stored s); [|done]. injection Hb as <-.
      split; [split; [done|by eapply accepted_settled]|done].
    - unfold begin_delete in Hb. destruct (ts_stored s); [|done]. by injection Hb as <-.
    - unfold begin_confirm in Hb. destruct (endpoint_change s i d ty) as [[[[r f] prev] c]|] eqn:He; [|done]. injection Hb as <-.
      destruct (endpoint_change_spec _ _ _ _ _ _ _ _ _ Hok He) as (c0 & Hc0 & Hi & Hs & Hv & _).
      split; [|done]. split; [done|]. split_and!; [done..|]. by eapply known_target. }
  apply ok_going; [done..|]. unfold owned. by rewrite lookup_insert_eq, Hn, Hc.
Qed.

(** What a save that is accepted does. *)
Lemma save_steps ps io draws s item s' info : service_ok ps s -> Save io draws s item = (s', Ok info) ->
  exists c t r' t' x, accepted s draws item = Ok c /\ SaveTarget io (ts_tables s) c = Ok t /\ target_rows t' = target_rows t /\
    s' = remember (with_tables (with_runtime s r' (ts_tables s)) t') c x.
Proof.
  intros Hok. unfold Save. destruct (accepted s draws item) as [c|] eqn:Hacc; [|done]. rewrite (so_stored s Hok). cbn [negb].
  destruct (SaveTarget io (ts_tables s) c) as [t|] eqn:Hsave; [|done]. destruct (so_runtime s Hok) as [r Hr].
  destruct (saved_registration (with_tables s t) c) as [s1 y] eqn:Hreg.
  destruct (saved_registration_same (with_tables s t) r _ _ _ Hr Hreg) as (r' & t' & x & -> & E & ->). intros [= <- _].
  exists c, t, r', t'. eexists. split; [done|]. split; [done|]. split; [exact E|]. reflexivity.
Qed.
(** ** Restarts *)

#[local] Instance vdevice_le_total : Total vdevice_le.
Proof. intros a b. unfold vdevice_le. apply str_leb_total. Qed.
#[local] Instance vdevice_le_trans : Transitive vdevice_le.
Proof. intros a b c. unfold vdevice_le. apply str_leb_trans. Qed.

Lemma reread_devices c : tc_Devices (reread c) ≡ₚ tc_Devices c.
Proof. apply merge_sort_Permutation. Qed.
Lemma reread_complete c : complete c -> complete (reread c).
Proof.
  intros ([Hn Hi Ht Hna Hs Hh Hm] & Hp & Hd & Hk). split_and!; [|done|by rewrite reread_devices|done].
  unfold reread. constructor; cbn [tc_ID tc_Type tc_Name tc_DeviceIDs tc_Devices set_Devices]; try done. by rewrite normalize_devices, Hn.
Qed.
Lemma reread_idem c : NoDup (vd_ID <$> tc_Devices c) -> reread (reread c) = reread c.
Proof.
  intros Hd. unfold reread. cbn [tc_Devices set_Devices]. set (l := merge_sort vdevice_le (tc_Devices c)).
  assert (merge_sort vdevice_le l = l) as ->; [|done].
  apply (StronglySorted_unique_strong vdevice_le);
    [|apply (StronglySorted_merge_sort vdevice_le)|apply (StronglySorted_merge_sort vdevice_le)|apply merge_sort_Permutation].
  intros a b Ha Hb Hab Hba. unfold vdevice_le in *. pose proof (str_leb_antisym _ _ Hab Hba) as E.
  rewrite merge_sort_Permutation in Ha. unfold l in Ha, Hb. rewrite merge_sort_Permutation in Ha, Hb.
  pose proof (find_by_elem vd_ID _ a Hd Ha) as Fa. pose proof (find_by_elem vd_ID _ b Hd Hb) as Fb. rewrite E in Fa. congruence.
Qed.

Lemma start_targets_spec configs : forall r t, target_rows (start_targets r t configs).1.2 = target_rows t /\
  ti_ID ∘ rg_Info <$> (start_targets r t configs).2 = tc_ID <$> configs.
Proof.
  induction configs as [|c configs IH]; intros r t; simpl; [done|]. pose proof (apply_rows c r t) as Hr. pose proof (apply_names c r t) as Hn.
  destruct (Apply c r t) as [[r1 t1] x]. cbn [fst snd] in Hr, Hn. destruct (IH r1 t1) as [E1 E2].
  destruct (start_targets r1 t1 configs) as [[r2 t2] l]. cbn [fst snd] in *. split; [congruence|]. rewrite !fmap_cons, E2. f_equal.
  destruct x; [by apply Hn|done].
Qed.

Lemma registrations_lookup l i : NoDup (ti_ID ∘ rg_Info <$> l) ->
  is_Some (fold_left (fun m x => <[ti_ID (rg_Info x) := x]> m) l (∅ : gmap string TargetRegistration) !! i) <->
  i ∈ (ti_ID ∘ rg_Info <$> l).
Proof.
  intros Hl. pose proof (fun y => fold_insert_lookup (fun _ => true) (ti_ID ∘ rg_Info) (fun x => x) l ∅ i y Hl) as Hx.
  cbv beta iota in Hx. unfold is_Some. setoid_rewrite Hx. rewrite list_elem_of_fmap. setoid_rewrite lookup_empty. naive_solver.
Qed.
Lemma configs_lookup l i c : Forall (fun d => NormalizeProtocolConfig d = d) l -> NoDup (tc_ID <$> l) ->
  fold_left insert_config l ∅ !! i = Some c <-> c ∈ l /\ tc_ID c = i.
Proof.
  intros Hn Hl. assert (fold_left insert_config l ∅ = fold_left (fun m d => <[tc_ID d := d]> m) l ∅) as ->.
  { generalize (∅ : gmap string Config). clear Hl. induction Hn as [|d l Hd _ IH]; intros m; simpl; [done|]. rewrite IH. f_equal.
    unfold insert_config. by rewrite Hd. }
  pose proof (fold_insert_lookup (fun _ => true) tc_ID (fun d => d) l ∅ i c Hl) as Hx. cbv beta iota in Hx.
  rewrite Hx, lookup_empty. naive_solver.
Qed.

(** What the tables hold when the service is in agreement with them. *)
Definition rows_ok (t : TargetTables) : Prop :=
  forall i c, list_target <$> target_rows t !! i = Some c -> tc_ID c = i /\ complete c /\ reread c = c.

Lemma service_rows ps s : service_ok ps s -> rows_ok (ts_tables s).
Proof.
  intros Hok i c Hc. rewrite (so_rows s Hok) in Hc.
  assert (forall d, owned ps s i = Some d -> tc_ID d = i /\ complete d) as Hown.
  { intros d. unfold owned. destruct (ps !! i) as [p|] eqn:Hp; [|by apply (so_complete s Hok)].
    destruct (so_stages s Hok i p Hp) as [Hi Hst]. destruct p; cbn [committed default from_option]; try (by apply (so_complete s Hok)); naive_solver. }
  destruct (owned ps s i) as [d|]; [|done]. injection Hc as <-. destruct (Hown d eq_refl) as [Hi Hcm].
  split; [exact Hi|]. split; [by apply reread_complete|]. apply reread_idem, Hcm.
Qed.

Lemma loaded_elem t c : rows_ok t -> c ∈ loaded t <-> list_target <$> target_rows t !! tc_ID c = Some c.
Proof.
  intros Ht. unfold loaded. rewrite list_elem_of_fmap. split.
  - intros ([i d] & -> & Hd%elem_of_map_to_list). rewrite lookup_fmap in Hd. cbn [snd]. by destruct (Ht i d Hd) as [-> _].
  - intros Hc. exists (tc_ID c, c). split; [done|]. apply elem_of_map_to_list. by rewrite lookup_fmap.
Qed.
Lemma loaded_NoDup t : rows_ok t -> NoDup (tc_ID <$> loaded t).
Proof.
  intros Ht. unfold loaded. rewrite <- list_fmap_compose.
  assert (forall l : list (string * Config), Forall (fun kv => tc_ID kv.2 = kv.1) l -> (tc_ID ∘ snd <$> l) = l.*1) as E.
  { induction 1 as [|kv l Hkv _ IH]; [done|]. rewrite !fmap_cons, IH. by f_equal. }
  rewrite E; [apply NoDup_fst_map_to_list|]. apply Forall_forall. intros [i c] Hc%elem_of_map_to_list.
  rewrite lookup_fmap in Hc. by destruct (Ht i c Hc).
Qed.

(** The configurations of a service that starts. *)
Lemma configs_loaded t configs i : rows_ok t -> configs ≡ₚ loaded t ->
  fold_left insert_config configs (∅ : gmap string Config) !! i = list_target <$> target_rows t !! i.
Proof.
  intros Ht Hp.
  assert (forall c, c ∈ configs <-> list_target <$> target_rows t !! tc_ID c = Some c) as Hin.
  { intros c. rewrite Hp. by apply loaded_elem. }
  assert (Forall (fun d => NormalizeProtocolConfig d = d) configs) as Hnorm.
  { apply Forall_forall. intros c Hc%Hin. by destruct (Ht _ _ Hc) as (_ & [[Hn] _] & _). }
  assert (NoDup (tc_ID <$> configs)) as Hnd by (rewrite Hp; by apply loaded_NoDup).
  apply option_eq. intros c. rewrite configs_lookup, Hin by done. split; [by intros [? <-]|].
  intros Hc. by destruct (Ht _ _ Hc) as [<- _].
Qed.
Lemma start_same r t configs :
  ts_configs (start r t configs) = fold_left insert_config configs ∅ /\
  target_rows (ts_tables (start r t configs)) = target_rows t /\
  ts_order (start r t configs) = tc_ID <$> configs /\
  (NoDup (tc_ID <$> configs) -> forall i, is_Some (ts_targets (start r t configs) !! i) <-> i ∈ (tc_ID <$> configs)).
Proof.
  unfold start. destruct (start_targets_spec configs r t) as [Hrows Hids]. destruct (start_targets r t configs) as [[r1 t1] l].
  cbn [fst snd] in *. split; [done|]. split; [done|]. split; [done|]. rewrite <- Hids. intros Hl i. by apply registrations_lookup.
Qed.

Lemma start_ok r t configs : rows_ok t -> configs ≡ₚ loaded t -> service_ok ∅ (start r t configs).
Proof.
  intros Ht Hp. destruct (start_same r t configs) as (Hc & Hrows & Ho & Hl).
  pose proof (loaded_NoDup t Ht) as Hnd. rewrite <- Hp in Hnd. specialize (Hl Hnd).
  assert (forall i, ts_configs (start r t configs) !! i = list_target <$> target_rows t !! i) as Hcfg.
  { intros i. rewrite Hc. by apply configs_loaded. }
  constructor.
  - unfold start. destruct (start_targets r t configs) as [[? ?] ?]. by eexists.
  - unfold start. by destruct (start_targets r t configs) as [[? ?] ?].
  - by rewrite Ho.
  - intros i. by rewrite Hl, Ho.
  - intros i. rewrite Hl, Hcfg, Hp, list_elem_of_fmap. split.
    + intros [c Hci]. destruct (Ht i c Hci) as [<- _]. exists c. split; [done|]. by apply loaded_elem.
    + intros (c & -> & Hci%loaded_elem); [by eexists|done].
  - intros i c Hci. rewrite Hcfg in Hci. by destruct (Ht i c Hci) as (? & ? & _).
  - intros i. unfold owned. rewrite lookup_empty, Hrows, Hcfg. destruct (list_target <$> target_rows t !! i) as [c|] eqn:Hci; [|done].
    simpl. by destruct (Ht i c Hci) as (_ & _ & ->).
  - intros i q Hq. by rewrite lookup_empty in Hq.
Qed.

Lemma default_complete : complete (list_target default_target) /\ reread (list_target default_target) = list_target default_target.
Proof.
  split; [|vm_compute; reflexivity]. split_and!; [|vm_compute; reflexivity|apply NoDup_nil_2|intros _; split; vm_compute; discriminate].
  constructor; try (vm_compute; reflexivity); try (vm_compute; discriminate).
  intros _. split_and!; vm_compute; (reflexivity || discriminate).
Qed.
Lemma seed_ok t : rows_ok t -> rows_ok (seedDefaults t).
Proof.
  intros Ht i c. unfold seedDefaults. case_decide; [|by apply Ht]. cbn [target_rows set_target_rows].
  destruct (decide (tc_ID default_target = i)) as [<-|Hne]; [rewrite lookup_insert_eq|rewrite lookup_insert_ne by done; by apply Ht].
  intros [= <-]. split; [vm_compute; reflexivity|]. exact default_complete.
Qed.

Lemma traffic_ok s ps : traffic s ps -> service_ok ps s.
Proof.
  induction 1 as [r configs Hp|s ps p _ IH Hb Hn|io s ps i p _ IH Hp|s ps op _ IH Hop|s ps i x _ IH Hi|s ps r t _ IH E|s ps r configs _ IH Hp].
  - apply start_ok; [|done]. apply seed_ok. by intros i c.
  - by apply begin_ok.
  - by apply proceed_ok.
  - by apply perform_ok.
  - by apply ok_registered.
  - by apply ok_runtime.
  - apply start_ok; [|done]. by eapply seed_ok, service_rows.
Qed.

(** A call that nothing overlaps is such a run. *)
Lemma traffic_finish n io : forall s ps i p s' r, traffic s ps -> ps !! i = Some p -> finish n io s p = (s', Done r) -> traffic s' (delete i ps).
Proof.
  induction n as [|n IH]; intros s ps i p s' r Ht Hp; cbn [finish]; [done|].
  pose proof (traffic_proceed io s ps i p Ht Hp) as Hn. destruct (proceed io s p) as [s1 [q|y]]; cbn [fst snd settle] in Hn.
  - intros Hf. pose proof (IH _ _ i _ _ _ Hn (lookup_insert_eq _ _ _) Hf) as Hd. by rewrite delete_insert_eq in Hd.
  - by intros [= <- <-].
Qed.
Lemma traffic_whole n io s ps p s' r : traffic s ps -> begins s p -> ps !! pending_id p = None -> finish n io s p = (s', Done r) -> traffic s' ps.
Proof.
  intros Ht Hb Hn Hf. pose proof (traffic_begin _ _ _ Ht Hb Hn) as Hg.
  pose proof (traffic_finish _ _ _ _ _ _ _ _ Hg (lookup_insert_eq _ _ _) Hf) as Hd. by rewrite delete_insert_eq, delete_id in Hd.
Qed.
Lemma traffic_delete io s ps i : traffic s ps -> ps !! i = None -> traffic (Delete io s i).1 ps.
Proof.
  intros Ht Hn. pose proof (delete_in_sections io s i) as Hs. destruct (begin_delete s i) as [p|] eqn:Hb; [|by rewrite Hs].
  eapply traffic_whole; [done|by econstructor| |done]. revert Hb. unfold begin_delete. destruct (ts_stored s); [|done]. by intros [= <-].
Qed.
Lemma traffic_save io draws s c : traffic s ∅ -> traffic (Save io draws s c).1 ∅.
Proof.
  intros Ht. pose proof (save_in_sections io draws s c) as Hs. destruct (begin_save s draws c) eqn:Hb; [|by rewrite Hs].
  eapply traffic_whole; [done|by econstructor|done|done].
Qed.
Lemma run_traffic s : service_run s -> traffic s ∅.
Proof.
  induction 1 as [r configs Hp|s op _ IH|s r t _ IH E|s r configs _ IH Hp]; [by constructor| |by constructor|by eapply traffic_restart].
  destruct op as [io dr c|io i|io dr pin setup i|i|ids|i st| |i|i n|i|i f|i|io i d ty]; try (by apply (traffic_call s ∅ _ IH)); cbn [perform].
  - by apply traffic_save.
  - by apply traffic_delete.
  - unfold RegeneratePairing. destruct (new_codes s pin setup i); [by apply traffic_save|done].
  - pose proof (confirm_in_sections io s i d ty) as Hs. destruct (begin_confirm s i d ty) eqn:Hb; [|by rewrite Hs].
    eapply traffic_whole; [done|by eapply begins_confirm|done|done].
Qed.
Lemma run_ok s : service_run s -> service_ok ∅ s.
Proof. intros Hs. by apply traffic_ok, run_traffic. Qed.
Lemma serial_rows s i : service_ok ∅ s -> list_target <$> target_rows (ts_tables s) !! i = reread <$> ts_configs s !! i.
Proof. intros Hok. rewrite (so_rows s Hok). unfold owned. by rewrite lookup_empty. Qed.
Lemma listed_known ps s i : service_ok ps s -> i ∈ ts_order s <-> is_Some (ts_configs s !! i).
Proof. intros Hok. by rewrite (so_listed _ Hok), (so_configs _ Hok). Qed.
Lemma serial_empty s : service_ok ∅ s -> target_rows (ts_tables s) = ∅ <-> ts_order s = [].
Proof.
  intros Hok. rewrite map_empty. split.
  - intros E. destruct (ts_order s) as [|j l] eqn:Ho; [done|]. assert (j ∈ ts_order s) as Hin by (rewrite Ho; left).
    apply (listed_known ∅ s j Hok) in Hin as [c Hc]. pose proof (serial_rows s j Hok) as Hj. by rewrite E, Hc in Hj.
  - intros E j. pose proof (serial_rows s j Hok) as Hj. destruct (ts_configs s !! j) as [c|] eqn:Hc.
    + assert (j ∈ ts_order s) as Hin by (apply (listed_known ∅ s j Hok); by eexists). rewrite E in Hin. by apply not_elem_of_nil in Hin.
    + by destruct (target_rows (ts_tables s) !! j).
Qed.

(** C17: what the service holds in memory is what the tables hold, while calls about different
    Targets overlap in any order of their sections and the process may end at any moment.
    Unless the tables are empty, a restart finds for each Target the configuration in memory;
    where a call in progress has written the row already, it finds the one of that save, or
    no Target after that deletion. The devices come back in the order of their identifiers.
    When the tables are empty, it finds the default bridge alone. While no call is in
    progress the tables are empty exactly when no Target is listed. At all times each Target
    in memory is listed once. *)
Theorem memory_survives_restart s ps r configs : traffic s ps -> configs ≡ₚ loaded (seedDefaults (ts_tables s)) ->
  let s' := started r (ts_tables s) configs in
  (forall i, ts_configs s' !! i =
     if decide (target_rows (ts_tables s) = ∅) then (if decide (i = "apple-main") then Some (list_target default_target) else None)
     else reread <$> match ps !! i with
                     | Some p => match committed p with Some written => written | None => ts_configs s !! i end
                     | None => ts_configs s !! i
                     end) /\
  (ps = ∅ -> target_rows (ts_tables s) = ∅ <-> ts_order s = []) /\
  (NoDup (ts_order s) /\ forall i, i ∈ ts_order s <-> is_Some (ts_configs s !! i)) /\
  (NoDup (ts_order s') /\ forall i, i ∈ ts_order s' <-> is_Some (ts_configs s' !! i)).
Proof.
  intros Hrun Hp s'. pose proof (traffic_ok s ps Hrun) as Hok. pose proof (traffic_ok s' ∅ (traffic_restart s ps r configs Hrun Hp)) as Hok'.
  split; [|split; [intros ->; by apply serial_empty|split; (split; [by eapply so_order|intros i; by eapply listed_known])]].
  intros i. unfold s', started. rewrite (proj1 (start_same r _ configs)), (configs_loaded (seedDefaults (ts_tables s)));
    [|by eapply seed_ok, service_rows|done].
  unfold seedDefaults. destruct (decide (target_rows (ts_tables s) = ∅)) as [E|E].
  - cbn [target_rows set_target_rows]. rewrite E. case_decide as Hi.
    + subst i. by rewrite lookup_insert_eq.
    + rewrite lookup_insert_ne; [by rewrite lookup_empty|]. intros Ei. apply Hi. by rewrite <- Ei.
  - apply (so_rows s Hok).
Qed.

(** ** Pairing codes *)

Lemma homekit_defaults_fields l draws c c' (h := merged_homekit c) : is_homekit (tc_Type c) = true ->
  homekit_defaults l draws c = Ok c' ->
  (hk_Pin h <> "" -> tc_Pin c' = hk_Pin h) /\ (hk_SetupID h <> "" -> tc_SetupID c' = hk_SetupID h) /\
  (hk_Address h <> "" -> tc_Address c' = hk_Address h) /\ tc_StorePath c' = or_else (hk_StorePath h) ("data/hap/" +:+ tc_ID c).
Proof.
  intros Ht. unfold homekit_defaults. destruct (negb (present (tc_MatterConfig c))); [|done].
  rewrite (normalize_homekit c Ht). cbn [tc_Address tc_Pin tc_SetupID tc_ID set_flat set_protocols]. fold h.
  destruct (or_draw (hk_Pin h) _) as [pin|]; [|done]. destruct (or_draw (hk_SetupID h) _) as [setup|]; [|done]. intros [= <-].
  rewrite normalize_homekit by exact Ht. unfold merged_homekit. cbn [tc_Pin tc_SetupID tc_Address tc_StorePath set_flat hk_Pin hk_SetupID hk_Address hk_StorePath set_protocols tc_HomeKitConfig default from_option].
  cbv [Datatypes.id]. split_and!; [apply or_else_left..|done].
Qed.

Lemma defaults_homekit l draws c c' (h := merged_homekit c) : is_homekit (tc_Type c) = true -> tc_ID c <> "" ->
  withDefaults l draws c = Ok c' ->
  tc_ID c' = tc_ID c /\ tc_Type c' = tc_Type c /\
  (hk_Pin h <> "" -> tc_Pin c' = hk_Pin h) /\ (hk_SetupID h <> "" -> tc_SetupID c' = hk_SetupID h) /\
  (hk_Address h <> "" -> tc_Address c' = hk_Address h) /\ tc_StorePath c' = or_else (hk_StorePath h) ("data/hap/" +:+ tc_ID c).
Proof.
  intros Hk Hi. unfold withDefaults. assert (tc_Type c <> "") as Hty by (intros E; rewrite E in Hk; by vm_compute in Hk).
  rewrite (or_else_left (tc_Type c)) by done. cbn [tc_ID set_Type tc_Type]. rewrite (proj2 (is_empty_false _) Hi).
  destruct (validTargetID (tc_ID c)); [|done]. rewrite pairing_homekit, Hk. set (c1 := set_Name _ _).
  destruct (homekit_defaults l draws c1) as [c2|] eqn:Hd; [|done].
  pose proof (homekit_defaults_fields l draws c1 c2 Hk Hd) as Hf.
  apply homekit_defaults_ok in Hd as ((Hid & Hty2 & _) & _); [|exact Hk].
  assert (IsMatterType (tc_Type c2) = false) as ->.
  { rewrite Hty2. change (tc_Type c1) with (tc_Type c). unfold is_homekit in Hk. apply orb_true_iff in Hk as [E|E]; apply bool_decide_eq_true in E; by rewrite E. }
  intros [= <-]. cbn [tc_ID tc_Type tc_Pin tc_SetupID tc_Address tc_StorePath set_Devices]. split; [exact Hid|]. split; [exact Hty2|]. exact Hf.
Qed.

Lemma kept_merged existing item b (next := merged_homekit item) :
  merged_homekit (keep_homekit existing item b) =
  MkHomeKit (hk_Address next) (if is_empty (hk_Pin next) || b then tc_Pin existing else hk_Pin next)
    (if is_empty (hk_SetupID next) || b then tc_SetupID existing else hk_SetupID next) (hk_StorePath next).
Proof. unfold keep_homekit. fold next. by apply merged_flat. Qed.

(** A save of a HomeKit Target that exists. *)
Lemma save_homekit io draws s item s' info r c : service_run s -> ts_runtime s = Some r ->
  ts_configs s !! tc_ID item = Some c -> is_homekit (tc_Type c) = true -> Save io draws s item = (s', Ok info) ->
  exists c', ts_configs s' !! tc_ID item = Some c' /\ tc_Type item = tc_Type c /\
    withDefaults (addresses s) draws (keep_homekit c item (IsPaired r c)) = Ok c' /\ validateTarget c' = Ok tt /\
    forall i, i <> tc_ID item -> ts_configs s' !! i = ts_configs s !! i.
Proof.
  intros Hrun Hr Hc Hk Hsave. pose proof (run_ok s Hrun) as Hok.
  destruct (save_steps _ _ _ _ _ _ _ Hok Hsave) as (c' & t & r' & t' & x & Hacc & Hst & E & ->).
  destruct (so_complete s Hok _ _ Hc) as (Hid & Hcs & Hkn & _ & _). unfold accepted, edited in Hacc. rewrite Hc in Hacc.
  destruct (bool_decide_reflect (tc_Type item = tc_Type c)) as [Hty|]; [|done]. unfold is_homekit in Hk. rewrite Hk in Hacc. fold (is_homekit (tc_Type c)) in Hk.
  destruct (descriptor_cases _ Hkn) as [(_ & Hm & Hp)|(Hk' & _)]; [|congruence]. rewrite Hm in Hacc.
  unfold paired in Hacc. rewrite Hr, Hp in Hacc.
  destruct (withDefaults _ _ _) as [c1|] eqn:Hd; [|done]. destruct (validateTarget c1) as [[]|] eqn:Hv; [|done]. injection Hacc as <-.
  assert (tc_ID c1 = tc_ID item) as Hci.
  { apply defaults_homekit in Hd as [-> _]; [done| |].
    - unfold keep_homekit. cbn [tc_Type set_flat set_protocols]. by rewrite Hty.
    - unfold keep_homekit. cbn [tc_ID set_flat set_protocols]. rewrite <- Hid. intros E1. pose proof (st_id _ Hcs) as Hv1.
      rewrite E1 in Hv1. by vm_compute in Hv1. }
  exists c1. unfold remember. cbn [ts_targets with_tables with_runtime]. destruct (present (ts_targets s !! tc_ID c1));
    cbn [ts_configs registered notify with_targets with_configs with_order with_tables with_runtime]; rewrite Hci;
    (split; [by rewrite lookup_insert_eq|]); (split; [done|]); (split; [done|]); (split; [done|]);
    intros i Hne; by rewrite lookup_insert_ne by congruence.
Qed.

(** C15: no edit separates a HomeKit Target from the controllers that are paired with it. While
    the runtime says it is paired, a save keeps its PIN and its setup identifier whatever the
    request gives for them, and its type; and it keeps the pairing in the directory of the
    Target unless the request names another. The table has the same. *)
Theorem identity_kept_while_paired io draws s item s' info r c : service_run s -> ts_runtime s = Some r ->
  ts_configs s !! tc_ID item = Some c -> is_homekit (tc_Type c) = true -> IsPaired r c = true ->
  Save io draws s item = (s', Ok info) ->
  exists c', ts_configs s' !! tc_ID item = Some c' /\
    list_target <$> target_rows (ts_tables s') !! tc_ID item = Some (reread c') /\
    tc_Pin c' = tc_Pin c /\ tc_SetupID c' = tc_SetupID c /\ tc_Type c' = tc_Type c /\
    (hk_StorePath (merged_homekit item) = "" -> tc_StorePath c' = "data/hap/" +:+ tc_ID item).
Proof.
  intros Hrun Hr Hc Hk Hpaired Hsave. pose proof (run_ok s Hrun) as Hok.
  destruct (save_homekit _ _ _ _ _ _ _ _ Hrun Hr Hc Hk Hsave) as (c' & Hc' & Hty & Hd & _ & _). exists c'. split; [exact Hc'|].
  assert (service_ok ∅ s') as Hok' by (pose proof (run_ok _ (run_call s (DoSave io draws item) Hrun)) as Hs; cbn [perform] in Hs; by rewrite Hsave in Hs).
  split; [by rewrite (serial_rows _ _ Hok'), Hc'|].
  destruct (so_complete s Hok _ _ Hc) as (Hid & Hcs & Hkn & _ & Hcodes). destruct (Hcodes Hk) as [Hpin Hsetup].
  assert (tc_ID item <> "") as Hne.
  { rewrite <- Hid. intros E1. pose proof (st_id _ Hcs) as Hv1. rewrite E1 in Hv1. by vm_compute in Hv1. }
  apply defaults_homekit in Hd as (_ & Ht' & Hp & Hs & _ & Hpath); [| |exact Hne].
  - rewrite kept_merged, Hpaired, !orb_true_r in Hp, Hs, Hpath. cbn [hk_Pin hk_SetupID hk_StorePath] in *.
    split; [by apply Hp|]. split; [by apply Hs|]. split; [rewrite Ht'; exact Hty|]. intros E. rewrite Hpath, E. done.
  - unfold keep_homekit. cbn [tc_Type set_flat set_protocols]. by rewrite Hty.
Qed.

(** A path a request names is kept, although the defaults mean to set it. *)
Lemma client_path_kept io draws s item s' info r c : service_run s -> ts_runtime s = Some r ->
  ts_configs s !! tc_ID item = Some c -> is_homekit (tc_Type c) = true -> Save io draws s item = (s', Ok info) ->
  tc_ID item <> "" -> hk_StorePath (merged_homekit item) <> "" ->
  exists c', ts_configs s' !! tc_ID item = Some c' /\ tc_StorePath c' = hk_StorePath (merged_homekit item).
Proof.
  intros Hrun Hr Hc Hk Hsave Hne Hpath. destruct (save_homekit _ _ _ _ _ _ _ _ Hrun Hr Hc Hk Hsave) as (c' & Hc' & Hty & Hd & _).
  exists c'. split; [exact Hc'|]. apply defaults_homekit in Hd as (_ & _ & _ & _ & _ & E); [| |exact Hne].
  - by rewrite E, kept_merged, or_else_left.
  - unfold keep_homekit. cbn [tc_Type set_flat set_protocols]. by rewrite Hty.
Qed.

Lemma with_codes_settled c pin setup : complete c -> is_homekit (tc_Type c) = true -> pin <> "" -> setup <> "" ->
  settled (with_codes c pin setup) /\ drawn (with_codes c pin setup) /\
  keep_homekit c (with_codes c pin setup) false = with_codes c pin setup.
Proof.
  intros ([Hn Hi Ht Hna Hs Hh Hm] & Hp & _) Hk Hpin Hsetup. destruct (Hh Hk) as (Em & Eh & Ha & Hst & _ & _).
  set (h := MkHomeKit (tc_Address c) pin setup (tc_StorePath c)).
  assert (with_codes c pin setup = set_flat (set_protocols c (Some h) None) h) as ->.
  { unfold with_codes. fold h. rewrite Em, Eh. cbn [fmap option_fmap option_map]. rewrite (normalize_homekit c Hk) in Hn.
    pose proof (f_equal tc_Address Hn) as Ea. pose proof (f_equal tc_StorePath Hn) as Es. cbn [tc_Address tc_StorePath set_flat] in Ea, Es.
    by rewrite Ea, Es. }
  set (c1 := set_flat _ h). assert (merged_homekit c1 = h) as Eh1 by (by apply merged_flat).
  assert (NormalizeProtocolConfig c1 = c1) as Hn1 by (rewrite normalize_homekit by exact Hk; rewrite Eh1; done).
  split; [|split].
  - constructor; try done.
    + intros _. rewrite Eh1. done.
    + intros Hmt. change (IsMatterType (tc_Type c) = true) in Hmt. destruct (descriptor_cases _ Hp) as [(_ & E & _)|(E & _)]; congruence.
  - split; [exact Hp|]. split; [done|]. intros Hmt m. done.
  - unfold keep_homekit. rewrite Eh1. cbn [hk_Pin hk_SetupID h hk_Address hk_StorePath].
    rewrite (proj2 (is_empty_false pin) Hpin), (proj2 (is_empty_false setup) Hsetup). cbn [orb]. done.
Qed.

Lemma random_nonempty alphabet b l v : randomString alphabet (Some (b :: l)) = Ok v -> v <> "".
Proof. by intros [= <-]. Qed.

(** new pairing codes are given only to a Target no controller is paired with, and
    change nothing but the PIN and the setup identifier: the type, the address, the
    directory, the devices and every other Target stay as they are. *)
Theorem regenerate_spec io draws pin0 pins setup0 setups s id s' info r : service_run s -> ts_runtime s = Some r ->
  RegeneratePairing io draws (Some (pin0 :: pins)) (Some (setup0 :: setups)) s id = (s', Ok info) ->
  exists c pin setup, ts_configs s !! id = Some c /\ is_homekit (tc_Type c) = true /\ IsPaired r c = false /\
    randomString "0123456789" (Some (pin0 :: pins)) = Ok pin /\ randomString capitals_digits (Some (setup0 :: setups)) = Ok setup /\
    ts_configs s' !! id = Some (with_codes c pin setup) /\
    forall i, i <> id -> ts_configs s' !! i = ts_configs s !! i.
Proof.
  intros Hrun Hr. unfold RegeneratePairing, new_codes. destruct (ts_configs s !! id) as [c|] eqn:Hc; [|done]. rewrite pairing_homekit.
  destruct (is_homekit (tc_Type c)) eqn:Hk; [|done]. rewrite Hr. destruct (IsPaired r c) eqn:Hp; [done|]. cbn [negb].
  destruct (randomString "0123456789" _) as [pin|] eqn:Epin; [|done]. destruct (randomString capitals_digits _) as [setup|] eqn:Esetup; [|done].
  intros Hsave. pose proof (random_nonempty _ _ _ _ Epin) as Hpin. pose proof (random_nonempty _ _ _ _ Esetup) as Hsetup.
  destruct (so_complete s (run_ok s Hrun) _ _ Hc) as [Hid Hcm].
  destruct (with_codes_settled c pin setup Hcm Hk Hpin Hsetup) as (Hs1 & Hd1 & Hkeep).
  assert (tc_ID (with_codes c pin setup) = id) as Hid1 by exact Hid.
  destruct (save_homekit io draws s (with_codes c pin setup) s' info r c Hrun Hr) as (c' & Hc' & _ & Hd & _ & Hother);
    [by rewrite Hid1|done..|]. rewrite Hp, Hkeep, (defaults_fixed _ _ _ Hs1 Hd1) in Hd. injection Hd as <-. rewrite Hid1 in Hc', Hother.
  exists c, pin, setup. split_and!; done.
Qed.
End Runs.

(** ** An example: a runtime that knows which Targets are paired *)

Module TargetExample.
#[local] Instance bare_runtime : TargetRuntime (gset string) := {
  IsPaired r c := bool_decide (tc_ID c ∈ r);
  Apply c r t := ((r, t), Ok (MkRegistration (TargetInfoFromConfig c "running") "qr"));
  Remove i r t := ((r ∖ {[i]}, t), Ok tt);
  ResetPairing c r t := ((r ∖ {[tc_ID c]}, t), Ok (MkRegistration (TargetInfoFromConfig c "running") "qr"));
  RemoveTarget := Some (fun c r t => ((r ∖ {[tc_ID c]}, t), Ok tt));
  MatterTargetRuntime := None;
  ConfirmEndpoint := Some (fun i d ty r t =>
    match TargetStore.ConfirmMatterEndpointDeviceType true t i d ty true with
    | Ok t => ((r, t), Ok tt)
    | Err _ => ((r, t), Err "endpoint")
    end);
  RuntimeInfo := None;
}.
#[local] Instance bare_laws : RuntimeLaws (gset string).
Proof.
  split; try done.
  - by intros c r t x [= <-].
  - by intros f c [= <-] r t.
  - intros f i d ty [= <-] r t. unfold TargetStore.ConfirmMatterEndpointDeviceType, commit. by repeat case_match; simplify_eq.
Qed.
#[local] Instance no_codes : PairingCodes := {
  ComposeSetupURI _ _ _ := None; GenerateQRPNG _ _ _ := None; FormatPairingCode code := code; EncodeQR _ := None }.

Definition draws := MkDraws (Some [0; 1; 2; 3; 4; 5]) (Some [3; 1; 4; 1; 5; 9; 2; 6]) (Some [7; 8; 9; 10]) None (Err RandomFailed).
Definition request := MkConfig "" "apple-hap" "" true None None [] [] "" "" "" "".
Definition first : TargetService (gset string) := started {["apple-abcdef"]} no_targets [list_target default_target].
Definition second := perform first (DoSave true draws request).
(** An edit that asks for another PIN. *)
Definition edit := MkConfig "apple-abcdef" "apple-hap" "Home" true None None [] [] "" "00112233" "" "".

Lemma second_run : service_run second.
Proof. apply run_call, run_first. reflexivity. Qed.

(** A save of one Target that has written its row, while another Target is deleted. *)
Definition saving : Pending := match begin_save second draws edit with Ok p => p | Err _ => Stopped "" end.
Definition half := (proceed true second saving).1.
Definition stored : Pending := match (proceed true second saving).2 with Going p => p | Done _ => Stopped "" end.
Definition busy := (Delete true half "apple-main").1.
Lemma busy_traffic : traffic busy {["apple-abcdef" := stored]}.
Proof.
  apply traffic_delete; [|reflexivity].
  assert (traffic second {["apple-abcdef" := saving]}) as Hs.
  { apply (traffic_begin second ∅ saving); [apply run_traffic, second_run| |reflexivity].
    apply (begins_save _ draws edit). vm_compute. reflexivity. }
  apply (traffic_proceed true _ _ "apple-abcdef" saving) in Hs; [|reflexivity].
  replace {["apple-abcdef" := stored]} with (settle {["apple-abcdef" := saving]} "apple-abcdef" (proceed true second saving).2); [exact Hs|].
  vm_compute. reflexivity.
Qed.
Lemma memory_survives_restart_witness :
  let s' := started ∅ (ts_tables busy) (loaded (seedDefaults (ts_tables busy))) in
  tc_Name <$> ts_configs busy !! "apple-abcdef" = Some "HomeLoom Apple Home Bridge" /\ tc_Name <$> ts_configs s' !! "apple-abcdef" = Some "Home" /\
  ts_configs s' !! "apple-main" = None.
Proof.
  split; [vm_compute; reflexivity|].
  destruct (memory_survives_restart busy {["apple-abcdef" := stored]} ∅ (loaded (seedDefaults (ts_tables busy))) busy_traffic) as [Hc _]; [reflexivity|].
  rewrite !Hc, decide_False; [|vm_compute; discriminate]. split; vm_compute; reflexivity.
Defined.

(** Calls about one Target that overlap are another matter: a save that a deletion overtakes
    leaves a Target in memory that no restart finds. *)
Definition overtaken :=
  match finish 3 true second saving with
  | (s, Going p) => (proceed true (Delete true s "apple-abcdef").1 p).1
  | (s, Done _) => s
  end.
Lemma save_overtaken_by_delete :
  ts_order overtaken = ["apple-main"; "apple-abcdef"] /\ target_rows (ts_tables overtaken) !! "apple-abcdef" = None.
Proof. split; vm_compute; reflexivity. Qed.

Lemma identity_kept_while_paired_witness :
  exists c s' info, ts_configs second !! "apple-abcdef" = Some c /\ tc_Pin c = "31415926" /\
    Save true draws second edit = (s', Ok info) /\
    exists c', ts_configs s' !! "apple-abcdef" = Some c' /\ tc_Pin c' = "31415926" /\ tc_SetupID c' = tc_SetupID c.
Proof.
  destruct (ts_configs second !! "apple-abcdef") as [c|] eqn:Hc; [|by vm_compute in Hc].
  assert (tc_Pin c = "31415926" /\ is_homekit (tc_Type c) = true /\ IsPaired (R := gset string) {["apple-abcdef"]} c = true) as (Hp & Hk & Hpa).
  { vm_compute in Hc. injection Hc as <-. split; [reflexivity|]. split; vm_compute; reflexivity. }
  destruct (Save true draws second edit) as [s' [info|e]] eqn:Hs; [|by vm_compute in Hs].
  exists c, s', info. split; [reflexivity|]. split; [exact Hp|]. split; [reflexivity|].
  destruct (identity_kept_while_paired true draws second edit s' info {["apple-abcdef"]} c second_run) as (c' & H1 & _ & H2 & H3 & _);
    [vm_compute; reflexivity|exact Hc|exact Hk|exact Hpa|exact Hs|].
  exists c'. split; [exact H1|]. split; [rewrite H2; exact Hp|exact H3].
Defined.

(** Once the pairing is gone. *)
Definition third := with_runtime second ∅ (ts_tables second).
Lemma third_run : service_run third.
Proof. apply run_aside; [apply second_run|reflexivity]. Qed.
Lemma regenerate_spec_witness :
  exists s' info c pin setup,
    RegeneratePairing true draws (Some [2; 7; 1; 8; 2; 8; 1; 8]) (Some [0; 0; 0; 0]) third "apple-abcdef" = (s', Ok info) /\
    ts_configs third !! "apple-abcdef" = Some c /\ randomString "0123456789" (Some [2; 7; 1; 8; 2; 8; 1; 8]) = Ok pin /\
    ts_configs s' !! "apple-abcdef" = Some (with_codes c pin setup).
Proof.
  destruct (RegeneratePairing true draws (Some [2; 7; 1; 8; 2; 8; 1; 8]) (Some [0; 0; 0; 0]) third "apple-abcdef")
    as [s' [info|e]] eqn:Hr; [|by vm_compute in Hr].
  destruct (regenerate_spec true draws 2 [7; 1; 8; 2; 8; 1; 8] 0 [0; 0; 0] third "apple-abcdef" s' info ∅ third_run)
    as (c & pin & setup & Hc & _ & _ & Hp & _ & Hc' & _); [reflexivity|exact Hr|].
  exists s', info, c, pin, setup. split; [reflexivity|]. split; [exact Hc|]. split; [exact Hp|exact Hc'].
Defined.
End TargetExample.
