(* ===== verification/TargetManager.v ===== *)
(** * The Target manager: backend/internal/runtime/targetmanager/manager.go

    The manager starts and stops the publications of Targets. It implements the interface
    the service of Targets relies on. What the HomeKit and Matter libraries and the cameras
    do is an interface in turn; a publication runs in a goroutine, known by the channel it
    closes when it ends. *)

From S2P Require Import Prelude Float64 DeviceModel Lookup ModelContract ConsumerCatalog FloatText Text MappingBinding TargetConfig TargetStore TargetRows TargetService.

(** ** Publications *)

Record PairingInfo := MkPairing { pi_Code : string; pi_SetupID : string; pi_SetupURI : string; pi_QR : string }.
Definition no_pairing : PairingInfo := MkPairing "" "" "" "".

Record CommissioningState := MkCommissioning {
  cs_State : string;
  cs_WindowOpen : bool;
  cs_WindowExpiresAt : string;
  cs_FabricCount : Z;
  cs_Fabrics : list (string * string);
  cs_EndpointCount : Z;
  cs_UDPPort : Z;
  cs_ManualPairingCode : string;
  cs_SetupPayload : string;
}.

(** [managedTarget]: a HomeKit bridge, a Matter node or the publication of a camera. *)
Inductive managedTarget (T : Type) :=
| HAPTarget (t : T)
| managedMatterTarget (t : T)
| managedCameraPublication (targetID deviceID : string) (pairing : PairingInfo).
Arguments HAPTarget {T} t.
Arguments managedMatterTarget {T} t.
Arguments managedCameraPublication {T} targetID deviceID pairing.

(** What [Apply] sees first of a publication that starts: it is ready or its time is over,
    it ended, or its caller gave up (only while it waits for a Matter node). *)
Inductive Startup :=
| Started
| Exited (e : option RuntimeError)
| CallerGone (e : RuntimeError).

(** The libraries ([T] are the bridges and nodes they create, [W] what they keep), the
    cameras, the file system, and whether the database executes a transaction. *)
Class Publications (W T : Type) := {
  CheckAddressAvailable : string -> W -> option RuntimeError;
  NewHomeKit : Config -> W -> TargetTables -> (W * TargetTables) * result RuntimeError T;
  NewMatter : Config -> W -> TargetTables -> (W * TargetTables) * result RuntimeError T;
  Start : managedTarget T -> W -> W * Startup;
  (** the outcome of waiting for the end of a cancelled goroutine *)
  Cancel : managedTarget T -> W -> W * option RuntimeError;
  HAPIsPaired : T -> W -> bool;
  HAPPairingInfo : T -> W -> PairingInfo;
  HAPIssues : T -> W -> list TargetIssue;
  PublishedAccessoryCount : T -> W -> Z;
  MatterStatus : T -> W -> CommissioningState;
  ControlMatter : MatterControl -> T -> W -> W * option RuntimeError;
  HasPairings : string -> W -> result RuntimeError bool;
  RemoveDirectory : string -> W -> W * option RuntimeError;
  EnableHomeKitCamera : string -> string -> string -> W -> W * result RuntimeError (PairingInfo * string);
  InspectHomeKitCamera : string -> W -> bool;
  ResetHomeKitCamera : string -> string -> W -> W * option RuntimeError;
  Transaction : W -> W * bool;
}.

(** The libraries write the numbers they give, never a configuration. *)
Class PublicationLaws W T `{Publications W T} := {
  homekit_rows c w t : target_rows (NewHomeKit c w t).1.2 = target_rows t;
  matter_rows c w t : target_rows (NewMatter c w t).1.2 = target_rows t;
}.

Section Manager.
Context {W T : Type} `{Publications W T}.

(** [rn_done] stands for the channel of the goroutine. *)
Record runningTarget := MkRunning {
  rn_done : nat;
  rn_address : string;
  rn_target : managedTarget T;
  rn_config : Config;
}.

(** [mg_live] are the goroutines that run, with the Target each was started for; those in
    [mg_leaving] were cancelled by a stop that did not see their end. [mg_next] numbers
    goroutines. Cameras and the storage of Matter are optional. *)
Record Manager := MkManager {
  mg_running : gmap string runningTarget;
  mg_live : gmap nat string;
  mg_leaving : gset nat;
  mg_next : nat;
  mg_cameras : bool;
  mg_storage : bool;
  mg_statuses : list (string * string);
  mg_world : W;
}.
Definition set_running m x := MkManager x (mg_live m) (mg_leaving m) (mg_next m) (mg_cameras m) (mg_storage m) (mg_statuses m) (mg_world m).
Definition set_live m x := MkManager (mg_running m) x (mg_leaving m) (mg_next m) (mg_cameras m) (mg_storage m) (mg_statuses m) (mg_world m).
Definition set_leaving m x := MkManager (mg_running m) (mg_live m) x (mg_next m) (mg_cameras m) (mg_storage m) (mg_statuses m) (mg_world m).
Definition set_world m x := MkManager (mg_running m) (mg_live m) (mg_leaving m) (mg_next m) (mg_cameras m) (mg_storage m) (mg_statuses m) x.
Definition setStatus m id status :=
  MkManager (mg_running m) (mg_live m) (mg_leaving m) (mg_next m) (mg_cameras m) (mg_storage m) (mg_statuses m ++ [(id, status)]) (mg_world m).

(** ** Stopping *)

(** The first section of [stop]: the entry is taken. *)
Definition take (m : Manager) (id : string) : Manager * option runningTarget :=
  match mg_running m !! id with
  | None => (m, None)
  | Some x => (set_running m (delete id (mg_running m)), Some x)
  end.
(** The rest of it: the goroutine is cancelled and its end is waited for. When its caller gives
    up or five seconds are over, [stop] returns an error and the goroutine goes on. *)
Definition cancel (m : Manager) (x : option runningTarget) : Manager * option RuntimeError :=
  match x with
  | None => (m, None)
  | Some x =>
      let '(w, e) := Cancel (rn_target x) (mg_world m) in
      let m := set_world m w in
      match e with
      | None => (set_live m (delete (rn_done x) (mg_live m)), None)
      | Some e =>
          (if present (mg_live m !! rn_done x) then set_leaving m ({[rn_done x]} ∪ mg_leaving m) else m, Some e)
      end
  end.
Definition stop (m : Manager) (id : string) : Manager * option RuntimeError :=
  let '(m, x) := take m id in cancel m x.

(** A goroutine ends: with an error, and unless it was cancelled, it takes its own entry away. *)
Definition exited (m : Manager) (done : nat) (e : option RuntimeError) : Manager :=
  match mg_live m !! done with
  | None => m
  | Some id =>
      let leaving := bool_decide (done ∈ mg_leaving m) in
      let m := set_leaving (set_live m (delete done (mg_live m))) (mg_leaving m ∖ {[done]}) in
      match leaving, e with
      | true, _ | _, None => m
      | false, Some _ =>
          let m := match mg_running m !! id with
                   | Some x => if (rn_done x =? done)%nat then set_running m (delete id (mg_running m)) else m
                   | None => m
                   end in
          setStatus m id "error"
      end
  end.

(** ** What is known of a Target *)

Definition managedIsPaired (w : W) (x : managedTarget T) : bool :=
  match x with
  | HAPTarget t => HAPIsPaired t w
  | managedMatterTarget t => 0 <? cs_FabricCount (MatterStatus t w)
  | managedCameraPublication _ device _ => InspectHomeKitCamera device w
  end.
Definition managedPairingInfo (w : W) (x : managedTarget T) : PairingInfo :=
  match x with
  | HAPTarget t => HAPPairingInfo t w
  | managedMatterTarget _ => no_pairing
  | managedCameraPublication _ _ pairing => pairing
  end.

Definition the_camera (c : Config) : option VirtualDevice := match tc_Devices c with [v] => Some v | _ => None end.
Definition ManagerIsPaired (m : Manager) (c : Config) : bool :=
  let running := (fun x => managedIsPaired (mg_world m) (rn_target x)) <$> mg_running m !! tc_ID c in
  if IsMatterType (tc_Type c) then default false running
  else if negb (td_SupportsHomeKitPairing (descriptor_of (tc_Type c))) then false
  else match running with
       | Some b => b
       | None =>
           match (tc_Type c =s "homekit-camera") && mg_cameras m, the_camera c with
           | true, Some v => InspectHomeKitCamera (vd_SourceDeviceID v) (mg_world m)
           | _, _ =>
               if is_empty (tc_StorePath c) then false
               else match HasPairings (tc_StorePath c) (mg_world m) with Ok b => b | Err _ => false end
           end
       end.

Definition infoFromConfig (c : Config) (status : string) : TargetInfo :=
  let matter := match tc_MatterConfig c with
    | None => no_matter
    | Some m => MkMatterInfo (mt_NetworkInterface m) (mt_UDPPort m) (default 0 (mt_Discriminator m)) (mt_VendorID m)
        (mt_ProductID m) (mt_ProductName m) (mt_SerialNumber m) (mt_CommissioningWindowSeconds m) "" false "" "" "" 0 [] 0 "1.6.0" "test"
    end in
  MkInfo (tc_ID c) (tc_Type c) (td_ConsumerID (descriptor_of (tc_Type c))) (tc_Name c) (tc_Enabled c) status (tc_Address c)
    (tc_SetupID c) "" "" false (tc_DeviceIDs c) (tc_Devices c) "" [] ∅ matter false.

Definition set_Matter (i : TargetInfo) x := MkInfo (ti_ID i) (ti_Type i) (ti_ConsumerID i) (ti_Name i) (ti_Enabled i) (ti_Status i)
  (ti_Address i) (ti_SetupID i) (ti_PairingCode i) (ti_SetupURI i) (ti_Paired i) (ti_DeviceIDs i) (ti_Devices i) (ti_Error i)
  (ti_Issues i) (ti_Diagnostics i) x (ti_Removed i).
Definition set_issues (i : TargetInfo) error issues diagnostics := MkInfo (ti_ID i) (ti_Type i) (ti_ConsumerID i) (ti_Name i)
  (ti_Enabled i) (ti_Status i) (ti_Address i) (ti_SetupID i) (ti_PairingCode i) (ti_SetupURI i) (ti_Paired i) (ti_DeviceIDs i)
  (ti_Devices i) error issues diagnostics (ti_Matter i) (ti_Removed i).

Definition applyMatterStatus (w : W) (i : TargetInfo) (x : managedTarget T) : TargetInfo :=
  match x with
  | managedMatterTarget t =>
      let s := MatterStatus t w in let m := ti_Matter i in
      set_Matter i (MkMatterInfo (mi_NetworkInterface m) (if cs_UDPPort s =? 0 then mi_UDPPort m else cs_UDPPort s)
        (mi_Discriminator m) (mi_VendorID m) (mi_ProductID m) (mi_ProductName m) (mi_SerialNumber m)
        (mi_CommissioningWindowSeconds m) (cs_State s) (cs_WindowOpen s) (cs_WindowExpiresAt s) (cs_ManualPairingCode s)
        (cs_SetupPayload s) (cs_FabricCount s) (cs_Fabrics s) (cs_EndpointCount s) (mi_ProtocolVersion m) (mi_Certification m))
  | _ => i
  end.

Definition issue_summary (x : TargetIssue) : string :=
  or_else (or_else (is_DeviceName x) (is_DeviceID x)) (is_DeviceType x) +:+ ": " +:+ is_Message x.
Definition issues_error (summaries : list string) : string :=
  let n := show_Z (Z.of_nat (length summaries)) in
  match summaries with
  | [] => ""
  | [one] => "1 台设备未能发布到桥：" +:+ one
  | one :: _ => n +:+ " 台设备未能发布到桥：" +:+ one +:+ " 等 " +:+ n +:+ " 项问题"
  end.
Definition applyTargetDiagnostics (w : W) (i : TargetInfo) (x : managedTarget T) : TargetInfo :=
  match x with
  | HAPTarget t =>
      match HAPIssues t w with
      | [] => i
      | issues =>
          let summaries := issue_summary <$> issues in
          set_issues i (or_else (ti_Error i) (issues_error summaries)) issues
            (<["issueSummary" := Join " | " summaries]>
              (<["publishedAccessories" := show_Z (PublishedAccessoryCount t w)]>
                {["skippedAccessories" := show_Z (Z.of_nat (length issues))]}))
      end
  | _ => i
  end.

(** ** Applying a configuration *)

Definition set_Address (c : Config) (address : string) : Config :=
  set_flat c (MkHomeKit address (tc_Pin c) (tc_SetupID c) (tc_StorePath c)).

Definition address_free (m : Manager) (c : Config) : option RuntimeError :=
  let same := match mg_running m !! tc_ID c with Some x => rn_address x =s tc_Address c | None => false end in
  if (tc_Type c =s "apple-hap") && negb same then CheckAddressAvailable (tc_Address c) (mg_world m) else None.

(** A bridge or a node is created before the old one is stopped. *)
Definition created (m : Manager) (t : TargetTables) (f : Config -> W -> TargetTables -> (W * TargetTables) * result RuntimeError T)
    (wrap : T -> managedTarget T) (c : Config) : (Manager * TargetTables) * result RuntimeError (managedTarget T) :=
  let '((w, t), x) := f c (mg_world m) t in
  ((set_world m w, t), match x with Ok x => Ok (wrap x) | Err e => Err e end).

(** A camera is published again by its own runtime, after the old publication was stopped. *)
Definition publish_camera (m : Manager) (c : Config) : Manager * result RuntimeError (Config * managedTarget T) :=
  if negb (mg_cameras m) then (m, Err "HomeKit Camera publication runtime is unavailable")
  else match the_camera c with
  | None => (m, Err "HomeKit Camera target requires exactly one camera device")
  | Some v =>
      if negb (vd_Type v =s TypeCamera) then (m, Err "HomeKit Camera target requires exactly one camera device")
      else match stop m (tc_ID c) with
      | (m, Some e) => (m, Err e)
      | (m, None) =>
          let '(w, x) := EnableHomeKitCamera (tc_ID c) (vd_SourceDeviceID v) (tc_Name c) (mg_world m) in
          let m := set_world m w in
          match x with
          | Err e => (m, Err e)
          | Ok (pairing, address) =>
              (m, Ok (set_Address c address, managedCameraPublication (tc_ID c) (vd_SourceDeviceID v) pairing))
          end
      end
  end.

(** The sections of [Apply] between which other calls may run: a publication is created,
    the old one stopped, the new one registered, its start awaited. [prepare] says whether
    the old one was stopped already. *)
Definition prepare (m : Manager) (t : TargetTables) (c : Config)
    : (Manager * TargetTables) * result RuntimeError (Config * managedTarget T * bool) :=
  match address_free m c with
  | Some e => ((m, t), Err e)
  | None =>
      if tc_Type c =s "apple-hap" then
        let '(mt, x) := created m t NewHomeKit HAPTarget c in
        (mt, match x with Ok x => Ok (c, x, false) | Err e => Err e end)
      else if IsMatterType (tc_Type c) then
        match tc_MatterConfig c with
        | None => ((m, t), Err "Matter protocol configuration is required")
        | Some _ =>
            if negb (mg_storage m) then ((m, t), Err "Matter persistent storage is unavailable")
            else
              let '(mt, x) := created m t NewMatter managedMatterTarget c in
              (mt, match x with Ok x => Ok (c, x, false) | Err e => Err e end)
        end
      else if tc_Type c =s "homekit-camera" then
        let '(m, x) := publish_camera m c in
        ((m, t), match x with Ok (c, x) => Ok (c, x, true) | Err e => Err e end)
      else ((m, t), Err ("target type " +:+ tc_Type c +:+ " is not implemented"))
  end.

(** The new publication is registered and its goroutine started. *)
Definition register (m : Manager) (c : Config) (x : managedTarget T) : Manager :=
  let done := mg_next m in
  MkManager (<[tc_ID c := MkRunning done (tc_Address c) x c]> (mg_running m)) (<[done := tc_ID c]> (mg_live m)) (mg_leaving m) (S done)
    (mg_cameras m) (mg_storage m) (mg_statuses m) (mg_world m).

Definition running_info (m : Manager) (c : Config) (x : managedTarget T) : TargetRegistration :=
  let w := mg_world m in
  let pairing := managedPairingInfo w x in
  let i := set_Paired (infoFromConfig c "running") (managedIsPaired w x) in
  let i := applyTargetDiagnostics w (applyMatterStatus w i x) x in
  let i := if ti_Paired i then i
           else set_codes i (if is_empty (pi_SetupID pairing) then ti_SetupID i else pi_SetupID pairing) (pi_Code pairing) (pi_SetupURI pairing) in
  MkRegistration i (pi_QR pairing).

(** What [Apply] waits for. The goroutine that ended with an error leaves the map, and
    [Apply] takes away whatever is registered for the Target then. *)
Definition await (m : Manager) (c : Config) (done : nat) (x : managedTarget T) : Manager * result RuntimeError TargetRegistration :=
  let '(w, s) := Start x (mg_world m) in
  let m := set_world m w in
  match s with
  | Started => (m, Ok (running_info m c x))
  | Exited e =>
      let m := exited m done e in
      (set_running m (delete (tc_ID c) (mg_running m)), Err (default "target stopped during startup" e))
  | CallerGone e => ((stop m (tc_ID c)).1, Err ("start target: " +:+ e))
  end.

Definition Apply (c : Config) (m : Manager) (t : TargetTables) : (Manager * TargetTables) * result RuntimeError TargetRegistration :=
  let c := NormalizeProtocolConfig c in
  if negb (tc_Enabled c) then
    match stop m (tc_ID c) with
    | (m, Some e) => ((m, t), Err e)
    | (m, None) => ((m, t), Ok (MkRegistration (set_Paired (infoFromConfig c "disabled") (ManagerIsPaired m c)) ""))
    end
  else
    let '((m, t), x) := prepare m t c in
    match x with
    | Err e => ((m, t), Err e)
    | Ok (c, x, stopped) =>
        match (if stopped : bool then (m, None) else stop m (tc_ID c)) with
        | (m, Some e) => ((m, t), Err e)
        | (m, None) =>
            let done := mg_next m in
            let '(m, r) := await (register m c x) c done x in ((m, t), r)
        end
    end.

(** ** The other calls *)

Definition RuntimeInfo (m : Manager) (c : Config) : TargetInfo :=
  match mg_running m !! tc_ID c with
  | None => infoFromConfig c (if tc_Enabled c then "error" else "disabled")
  | Some x =>
      let w := mg_world m in
      let i := set_Paired (infoFromConfig c "running") (managedIsPaired w (rn_target x)) in
      applyTargetDiagnostics w (applyMatterStatus w i (rn_target x)) (rn_target x)
  end.

Definition Remove (id : string) (m : Manager) (t : TargetTables) : (Manager * TargetTables) * result RuntimeError unit :=
  let '(m, e) := stop m id in ((m, t), match e with Some e => Err e | None => Ok tt end).

(** The publication of a camera and its pairing. *)
Definition reset_camera (m : Manager) (c : Config) : Manager * option RuntimeError :=
  match mg_cameras m, the_camera c with
  | true, Some v => let '(w, e) := ResetHomeKitCamera (tc_ID c) (vd_SourceDeviceID v) (mg_world m) in (set_world m w, e)
  | _, _ => (m, Some "HomeKit Camera publication runtime is unavailable")
  end.
Definition RemoveTarget (c : Config) (m : Manager) (t : TargetTables) : (Manager * TargetTables) * result RuntimeError unit :=
  match stop m (tc_ID c) with
  | (m, Some e) => ((m, t), Err e)
  | (m, None) =>
      if tc_Type c =s "homekit-camera" then
        let '(m, e) := reset_camera m c in ((m, t), match e with Some e => Err e | None => Ok tt end)
      else ((m, t), Ok tt)
  end.

(** [filepath.Clean]: whether the path is rooted, and its elements. *)
Definition clean_element (rooted : bool) (out : list string) (x : string) : list string :=
  if is_empty x || (x =s ".") then out
  else if x =s ".." then
    match out with
    | y :: l => if y =s ".." then ".." :: out else l
    | [] => if rooted then [] else [".."]
    end
  else x :: out.
(** The elements are in reverse order, the last one first. *)
Definition Clean (path : string) : bool * list string :=
  let rooted := match path with String c _ => Ascii.eqb c "/" | EmptyString => false end in
  (rooted, fold_left (clean_element rooted) (Split "/" path) []).
Definition Base (p : bool * list string) : string :=
  match p with (_, x :: _) => x | (true, []) => "/" | (false, []) => "." end.
Definition Dir (p : bool * list string) : bool * list string := (p.1, tail p.2).

(** The directory of a bridge is removed only when it is named after it, below [hap]. *)
Definition removePairingIdentity (m : Manager) (id path : string) : Manager * option RuntimeError :=
  let clean := Clean path in
  if bool_decide (clean = (false, [])) || negb (Base clean =s id) || negb (Base (Dir clean) =s "hap")
  then (m, Some ("refuse unsafe HomeKit identity path " +:+ path))
  else let '(w, e) := RemoveDirectory path (mg_world m) in (set_world m w, e).

Definition ResetPairing (c : Config) (m : Manager) (t : TargetTables) : (Manager * TargetTables) * result RuntimeError TargetRegistration :=
  if tc_Type c =s "homekit-camera" then
    if negb (mg_cameras m && present (the_camera c)) then ((m, t), Err "HomeKit Camera publication runtime is unavailable")
    else match stop m (tc_ID c) with
    | (m, Some e) => ((m, t), Err e)
    | (m, None) =>
        match reset_camera m c with
        | (m, Some e) => ((m, t), Err e)
        | (m, None) => Apply c m t
        end
    end
  else if negb (tc_Type c =s "apple-hap") then ((m, t), Err "target type does not support pairing reset")
  else match stop m (tc_ID c) with
  | (m, Some e) => ((m, t), Err e)
  | (m, None) =>
      match removePairingIdentity m (tc_ID c) (tc_StorePath c) with
      | (m, Some e) => ((m, t), Err e)
      | (m, None) => Apply c m t
      end
  end.

(** [Close] stops what runs, in the order the map gives, up to the first failure. *)
Fixpoint Close (m : Manager) (ids : list string) : Manager * option RuntimeError :=
  match ids with
  | [] => (m, None)
  | id :: ids =>
      match stop m id with
      | (m, Some e) => (m, Some e)
      | (m, None) => Close m ids
      end
  end.

(** [OpenCommissioningWindow], [CloseCommissioningWindow], [RemoveFabric], [FactoryResetMatter]. *)
Definition control_matter (k : MatterControl) (id : string) (m : Manager) (t : TargetTables)
    : (Manager * TargetTables) * result RuntimeError TargetRegistration :=
  match mg_running m !! id with
  | None => ((m, t), Err "target not found")
  | Some x =>
      match rn_target x with
      | managedMatterTarget y =>
          let '(w, e) := ControlMatter k y (mg_world m) in
          let m := set_world m w in
          match e with
          | Some e => ((m, t), Err e)
          | None => ((m, t), Ok (MkRegistration (applyMatterStatus w (infoFromConfig (rn_config x) "running") (rn_target x)) ""))
          end
      | _ => ((m, t), Err "target is not a Matter runtime")
      end
  end.

(** The type of an endpoint is confirmed in the tables, and then recorded in the audit log;
    when only that fails, the call fails with the type changed. *)
Definition ConfirmMatterEndpointDeviceType (id device : string) (type : Type_) (m : Manager) (t : TargetTables)
    : (Manager * TargetTables) * result RuntimeError unit :=
  if negb (mg_storage m) then ((m, t), Err "Matter persistent storage is unavailable")
  else
    let '(w, io) := Transaction (mg_world m) in
    match TargetStore.ConfirmMatterEndpointDeviceType io t id device type true with
    | Err _ => ((set_world m w, t), Err "confirm Matter endpoint device type")
    | Ok t =>
        let '(w, io) := Transaction w in
        ((set_world m w, t), if io : bool then Ok tt else Err "record audit event")
    end.
End Manager.

Arguments Manager : clear implicits.
Arguments runningTarget : clear implicits.

(** The manager is a runtime of Targets. *)
#[export] Instance manager_runtime {W T} `{Publications W T} : TargetRuntime (Manager W T) := {
  IsPaired := ManagerIsPaired;
  TargetService.Apply := Apply;
  TargetService.Remove := Remove;
  TargetService.ResetPairing := ResetPairing;
  TargetService.RemoveTarget := Some RemoveTarget;
  MatterTargetRuntime := Some control_matter;
  ConfirmEndpoint := Some ConfirmMatterEndpointDeviceType;
  TargetService.RuntimeInfo := Some RuntimeInfo;
}.
