(* ===== verification/TargetManagerRuns.v ===== *)
(** * Runs of the Target manager

    The manager keeps the promises the service of Targets relies on. While calls for one
    Target do not overlap, each goroutine that publishes is the registered one of its Target;
    when two overlap, one goroutine is lost. *)

From S2P Require Import Prelude Float64 DeviceModel Lookup ModelContract ConsumerCatalog FloatText Text MappingBinding TargetConfig TargetStore TargetRows TargetService TargetRuns TargetManager.

Section Laws.
Context {W T : Type} `{PublicationLaws W T}.
Implicit Types (m : Manager W T) (c : Config).

(** ** The interface of the service *)

Lemma publish_same m c m' c' x : publish_camera m c = (m', Ok (c', x)) -> tc_ID c' = tc_ID c.
Proof.
  unfold publish_camera. destruct (negb (mg_cameras m)); [done|]. destruct (the_camera c); [|done]. destruct (negb _); [done|].
  destruct (stop m (tc_ID c)) as [m1 [e|]]; [done|]. destruct (EnableHomeKitCamera _ _ _ _) as [w [[p a]|e]]; [|done].
  by intros [= _ <- _].
Qed.
Lemma prepare_same m t c : target_rows (prepare m t c).1.2 = target_rows t /\
  forall c' x b, (prepare m t c).2 = Ok (c', x, b) -> tc_ID c' = tc_ID c.
Proof.
  unfold prepare. destruct (address_free m c); [done|]. destruct (tc_Type c =s "apple-hap").
  { unfold created. pose proof (homekit_rows c (mg_world m) t) as Hr. destruct (NewHomeKit c (mg_world m) t) as [[w t'] [y|e]];
      cbn [fst snd] in *; (split; [done|]); intros c' x b; [by intros [= <- _ _]|done]. }
  destruct (IsMatterType (tc_Type c)).
  { destruct (tc_MatterConfig c); [|done]. destruct (negb _); [done|]. unfold created. pose proof (matter_rows c (mg_world m) t) as Hr.
    destruct (NewMatter c (mg_world m) t) as [[w t'] [y|e]]; cbn [fst snd] in *; (split; [done|]); intros c' x b; [by intros [= <- _ _]|done]. }
  destruct (tc_Type c =s "homekit-camera"); [|done]. destruct (publish_camera m c) as [m1 [[c1 y]|e]] eqn:Hp; (split; [done|]); [|done].
  intros c' x b [= <- _ _]. by eapply publish_same.
Qed.

Lemma info_id c status : ti_ID (infoFromConfig c status) = tc_ID c.
Proof. done. Qed.
Lemma running_info_id m c x : ti_ID (rg_Info (running_info m c x)) = tc_ID c.
Proof.
  unfold running_info. cbn [rg_Info]. set (i := applyTargetDiagnostics _ _ _).
  assert (ti_ID i = tc_ID c) as Hi.
  { unfold i, applyTargetDiagnostics, applyMatterStatus. destruct x; [|done..]. by destruct (HAPIssues _ _). }
  by destruct (ti_Paired i).
Qed.

Lemma apply_same c m t : target_rows (Apply c m t).1.2 = target_rows t /\
  forall x, (Apply c m t).2 = Ok x -> ti_ID (rg_Info x) = tc_ID c.
Proof.
  unfold Apply. set (n := NormalizeProtocolConfig c). assert (tc_ID n = tc_ID c) as Hn by apply normal_tc_ID.
  destruct (negb (tc_Enabled n)).
  { destruct (stop m (tc_ID n)) as [m1 [e|]]; (split; [done|]); [done|]. intros x [= <-]. exact Hn. }
  destruct (prepare_same m t n) as [Hr Hid]. destruct (prepare m t n) as [[m1 t1] [[[c1 x1] b]|e]]; [|done].
  cbn [fst snd] in Hr, Hid. specialize (Hid _ _ _ eq_refl).
  destruct (if b then (m1, None) else stop m1 (tc_ID c1)) as [m2 [e|]]; [done|].
  unfold await. destruct (Start x1 _) as [w s]. destruct s as [|e|e]; (split; [done|]); [|done..].
  intros x [= <-]. rewrite running_info_id. congruence.
Qed.

#[export] Instance manager_laws : RuntimeLaws (Manager W T).
Proof.
  split.
  - intros c m t. apply apply_same.
  - intros c m t x. apply apply_same.
  - intros i m t. cbn. unfold Remove. by destruct (stop m i).
  - intros c m t. cbn. unfold ResetPairing. destruct (tc_Type c =s "homekit-camera").
    { destruct (negb _); [done|]. destruct (stop m (tc_ID c)) as [m1 [e|]]; [done|]. destruct (reset_camera m1 c) as [m2 [e|]]; [done|apply apply_same]. }
    destruct (negb _); [done|]. destruct (stop m (tc_ID c)) as [m1 [e|]]; [done|].
    destruct (removePairingIdentity m1 _ _) as [m2 [e|]]; [done|apply apply_same].
  - intros f c [= <-] m t. unfold RemoveTarget. destruct (stop m (tc_ID c)) as [m1 [e|]]; [done|].
    destruct (_ =s _); [|done]. by destruct (reset_camera m1 c).
  - intros f k i [= <-] m t. unfold control_matter. destruct (mg_running m !! i) as [x|]; [|done].
    destruct (rn_target x); [done| |done]. by destruct (ControlMatter _ _ _) as [w [e|]].
  - intros f i d ty [= <-] m t. unfold ConfirmMatterEndpointDeviceType. destruct (negb _); [done|].
    destruct (Transaction _) as [w io]. destruct (TargetStore.ConfirmMatterEndpointDeviceType io t i d ty true) as [t'|] eqn:Hc; [|done].
    destruct (Transaction w) as [w2 io2]. cbn [fst snd]. unfold TargetStore.ConfirmMatterEndpointDeviceType, commit in Hc.
    by repeat case_match; simplify_eq.
Qed.
End Laws.

(** ** Goroutines *)

Section Goroutines.
Context {W T : Type} `{Publications W T}.
Implicit Types (m : Manager W T) (c : Config).

(** Each goroutine that runs, and was not told to stop, is the registered one of its Target. *)
Record manager_ok m : Prop := {
  mo_config : forall i x, mg_running m !! i = Some x -> tc_ID (rn_config x) = i /\ (rn_done x < mg_next m)%nat;
  mo_live : forall n i, mg_live m !! n = Some i -> n ∉ mg_leaving m -> exists x, mg_running m !! i = Some x /\ rn_done x = n;
  mo_leaving : forall n, n ∈ mg_leaving m -> is_Some (mg_live m !! n) /\ (n < mg_next m)%nat;
  mo_entry : forall i x, mg_running m !! i = Some x -> rn_done x ∉ mg_leaving m;
  mo_distinct : forall i j x y, mg_running m !! i = Some x -> mg_running m !! j = Some y -> rn_done x = rn_done y -> i = j;
}.
(** No goroutine runs for a Target, but for those told to stop. *)
Definition idle m id : Prop := forall n, mg_live m !! n = Some id -> n ∈ mg_leaving m.

Lemma ok_world m w : manager_ok m -> manager_ok (set_world m w).
Proof. by intros []. Qed.

(** What a stop leaves: no entry, and the goroutine of the entry ended or told to stop. *)
Lemma stop_cases m id :
  (stop m id).1 = m /\ mg_running m !! id = None /\ (stop m id).2 = None \/
  exists x w, mg_running m !! id = Some x /\
    mg_running (stop m id).1 = delete id (mg_running m) /\ mg_next (stop m id).1 = mg_next m /\
    (Cancel (rn_target x) (mg_world m)) = (w, (stop m id).2) /\
    match (stop m id).2 with
    | None => mg_live (stop m id).1 = delete (rn_done x) (mg_live m) /\ mg_leaving (stop m id).1 = mg_leaving m
    | Some _ => mg_live (stop m id).1 = mg_live m /\
        mg_leaving (stop m id).1 = if present (mg_live m !! rn_done x) then {[rn_done x]} ∪ mg_leaving m else mg_leaving m
    end.
Proof.
  unfold stop, take. destruct (mg_running m !! id) as [x|] eqn:Hx; cbn [cancel]; [right|by left].
  cbn [mg_world set_running]. destruct (Cancel _ _) as [w e] eqn:Hc. exists x, w. split; [done|].
  destruct e as [e|]; cbn [fst snd]; [|by split_and!].
  cbn [mg_live set_world set_running]. by destruct (present _).
Qed.

Lemma present_Some {A} (o : option A) : present o = true <-> is_Some o.
Proof. destruct o; simpl; [split; [by eexists|done]|split; [done|by intros []]]. Qed.

Lemma stop_ok m id : manager_ok m -> manager_ok (stop m id).1 /\ idle (stop m id).1 id /\ mg_running (stop m id).1 !! id = None.
Proof.
  intros Hok. pose proof Hok as [Hc Hl Hv He Hd].
  destruct (stop_cases m id) as [(-> & Hr & _)|(x & w & Hx & Er & En & _ & Hcase)].
  { split_and!; [done| |done]. intros n Hn. destruct (decide (n ∈ mg_leaving m)) as [|Hne]; [done|].
    destruct (Hl n id Hn Hne) as (y & Hy & _). congruence. }
  assert (forall n i, n <> rn_done x -> n ∉ mg_leaving m -> mg_live m !! n = Some i ->
    exists y, delete id (mg_running m) !! i = Some y /\ rn_done y = n) as Hother.
  { intros n i Hn Hne Hi. destruct (Hl _ _ Hi Hne) as (y & Hy & E). exists y. split; [|done].
    rewrite lookup_delete_ne; [done|]. intros ->. congruence. }
  assert (forall n, mg_live m !! n = Some id -> n ∉ mg_leaving m -> n = rn_done x) as Hid.
  { intros n Hn Hne. destruct (Hl _ _ Hn Hne) as (y & Hy & E). congruence. }
  split; [|split; [|by rewrite Er, lookup_delete_eq]].
  - constructor; rewrite ?Er, ?En; [intros i y [_ Hy]%lookup_delete_Some; by apply Hc|..
      |intros i j y z [_ Hy]%lookup_delete_Some [_ Hz]%lookup_delete_Some; by apply Hd];
      (destruct (stop m id).2; destruct Hcase as [El Ev]; rewrite ?El, ?Ev).
    + intros n i Hi Hne. apply Hother; [|by destruct (present _); set_solver|done].
      intros ->. rewrite Hi in Hne. cbn [present] in Hne. set_solver.
    + intros n i [Hn Hi]%lookup_delete_Some Hne. by apply Hother.
    + intros n Hn. destruct (present _) eqn:Hp; [|by apply Hv]. apply elem_of_union in Hn as [->%elem_of_singleton|Hn]; [|by apply Hv].
      split; [by apply present_Some|by apply (Hc id)].
    + intros n Hn. destruct (Hv n Hn) as [Hs Hlt]. split; [|done]. destruct (decide (n = rn_done x)) as [->|Hne].
      * by destruct (He id x Hx).
      * by rewrite lookup_delete_ne.
    + intros i y [Hi Hy]%lookup_delete_Some. pose proof (He i y Hy) as Hn. destruct (present _); [|done].
      intros [E%elem_of_singleton|?]%elem_of_union; [|done]. apply Hi. by eapply Hd.
    + intros i y [_ Hy]%lookup_delete_Some. by apply (He i).
  - intros n Hn. destruct (decide (n ∈ mg_leaving m)) as [Hin|Hne].
    + destruct (stop m id).2; destruct Hcase as [El Ev]; rewrite Ev; [destruct (present _); set_solver|done].
    + destruct (stop m id).2; destruct Hcase as [El Ev]; rewrite El in Hn; rewrite Ev.
      * pose proof (Hid n Hn Hne) as ->. rewrite Hn. cbn [present]. set_solver.
      * apply lookup_delete_Some in Hn as [Hn1 Hn2]. by destruct Hn1; symmetry; apply Hid.
Qed.

Lemma register_ok m c x : manager_ok m -> idle m (tc_ID c) -> manager_ok (register m c x).
Proof.
  intros [Hc Hl Hv He Hd] Hi. constructor; cbn [mg_running mg_live mg_leaving mg_next register].
  - intros i y [[<- <-]|[_ Hy]]%lookup_insert_Some; [simpl; split; [done|lia]|]. destruct (Hc i y Hy). split; [done|lia].
  - intros n i [[<- <-]|[Hn Hy]]%lookup_insert_Some Hne; [rewrite lookup_insert_eq; eexists; by split|].
    rewrite lookup_insert_ne; [by apply Hl|]. intros <-. by apply Hne, Hi.
  - intros n Hn. destruct (Hv n Hn) as [Hs Hlt]. rewrite lookup_insert_ne by lia. split; [done|lia].
  - intros i y [[<- <-]|[_ Hy]]%lookup_insert_Some; [|by apply (He i)]. intros Hn. apply Hv in Hn as [_ Hn]. simpl in Hn. lia.
  - intros i k y z [[<- <-]|[Hn Hy]]%lookup_insert_Some [[<- <-]|[Hn' Hz]]%lookup_insert_Some E; [done| | |by eapply Hd];
      [destruct (Hc _ _ Hz)|destruct (Hc _ _ Hy)]; simpl in *; lia.
Qed.

Lemma ended_ok m n : manager_ok m -> manager_ok (set_leaving (set_live m (delete n (mg_live m))) (mg_leaving m ∖ {[n]})).
Proof.
  intros [Hc Hl Hv He Hd]. constructor; cbn [mg_running mg_live mg_leaving mg_next set_live set_leaving]; [done|..|done].
  - intros k i [Hne Hk]%lookup_delete_Some Hnl. apply Hl; [done|]. set_solver.
  - intros k [Hk Hne]%elem_of_difference. rewrite lookup_delete_ne; [by apply Hv|]. set_solver.
  - intros i x Hx [Hk _]%elem_of_difference. by apply (He i x).
Qed.

Lemma unregistered_ok m id : manager_ok m -> idle m id -> manager_ok (set_running m (delete id (mg_running m))).
Proof.
  intros [Hc Hl Hv He Hd] Hi. constructor; cbn [mg_running mg_live mg_leaving mg_next set_running]; [|..|done| |].
  - intros i y [_ Hy]%lookup_delete_Some. by apply Hc.
  - intros n i Hn Hne. destruct (Hl n i Hn Hne) as (y & Hy & E). exists y. split; [|done]. rewrite lookup_delete_ne; [done|].
    intros <-. by apply Hne, Hi.
  - intros i x [_ Hx]%lookup_delete_Some. by apply (He i).
  - intros i j y z [_ Hy]%lookup_delete_Some [_ Hz]%lookup_delete_Some. by apply Hd.
Qed.

Lemma set_status_ok m id status : manager_ok m -> manager_ok (setStatus m id status).
Proof. by intros []. Qed.

(** The goroutine of an entry ended: none is left for its Target. *)
Lemma ended_idle m n id x : manager_ok m -> mg_running m !! id = Some x -> rn_done x = n ->
  idle (set_leaving (set_live m (delete n (mg_live m))) (mg_leaving m ∖ {[n]})) id.
Proof.
  intros [Hc Hl Hv He Hd] Hx E k. cbn [mg_live mg_leaving set_live set_leaving]. intros [Hne Hk]%lookup_delete_Some.
  destruct (decide (k ∈ mg_leaving m)) as [|Hnl]; [set_solver|]. destruct (Hl k id Hk Hnl) as (y & Hy & E'). congruence.
Qed.

Lemma exited_ok m n e : manager_ok m -> manager_ok (exited m n e).
Proof.
  intros Hok. pose proof (ended_ok m n Hok) as Hend. unfold exited. destruct (mg_live m !! n) as [id|] eqn:Hn; [|done].
  case_bool_decide as Hin; [done|]. destruct e; [|done]. destruct (mo_live m Hok n id Hn Hin) as (x & Hx & E).
  cbn [mg_running set_live set_leaving]. rewrite Hx, E, Nat.eqb_refl. apply set_status_ok.
  apply (unregistered_ok _ id Hend). by eapply ended_idle.
Qed.

(** The publication that was just registered is awaited. *)
Lemma await_ok m c x : manager_ok m -> idle m (tc_ID c) -> manager_ok (await (register m c x) c (mg_next m) x).1.
Proof.
  intros Hok Hi. pose proof (register_ok m c x Hok Hi) as Hreg. unfold await. destruct (Start x _) as [w s].
  assert (manager_ok (set_world (register m c x) w)) as Hw by by apply ok_world.
  destruct s as [|e|e]; [done| |by apply stop_ok]. cbn [fst].
  apply unregistered_ok; [by apply exited_ok|]. set (m1 := set_world _ _) in *. set (y := MkRunning (mg_next m) (tc_Address c) x c).
  assert (mg_running m1 !! tc_ID c = Some y) as Hy by apply lookup_insert_eq.
  assert (mg_live m1 !! mg_next m = Some (tc_ID c)) as Hn by apply lookup_insert_eq.
  pose proof (ended_idle m1 (mg_next m) (tc_ID c) y Hw Hy eq_refl) as Hend. unfold exited. rewrite Hn.
  destruct (bool_decide _); [done|]. destruct e; [|done]. by destruct (mg_running _ !! _) as [z|]; [destruct (_ =? _)%nat|].
Qed.

Lemma created_ok m t f wrap c : manager_ok m -> manager_ok (created m t f wrap c).1.1.
Proof. intros Hok. unfold created. destruct (f c (mg_world m) t) as [[w t'] x]. by apply ok_world. Qed.
Lemma publish_ok m c m' r : manager_ok m -> publish_camera m c = (m', r) -> manager_ok m' /\ (is_ok r = true -> idle m' (tc_ID c)).
Proof.
  intros Hok. unfold publish_camera. destruct (negb (mg_cameras m)); [by intros [= <- <-]|]. destruct (the_camera c); [|by intros [= <- <-]].
  destruct (negb _); [by intros [= <- <-]|]. destruct (stop_ok m (tc_ID c) Hok) as (Hs & Hi & _).
  destruct (stop m (tc_ID c)) as [m1 [e|]]; [by intros [= <- <-]|]. cbn [fst] in Hs, Hi.
  destruct (EnableHomeKitCamera _ _ _ _) as [w [[p a]|e]]; intros [= <- <-]; (split; [by apply ok_world|done]).
Qed.

Lemma prepare_ok m t c : manager_ok m -> manager_ok (prepare m t c).1.1 /\
  forall c' x b, (prepare m t c).2 = Ok (c', x, b) -> tc_ID c' = tc_ID c /\ (b = true -> idle (prepare m t c).1.1 (tc_ID c)).
Proof.
  intros Hok. unfold prepare. destruct (address_free m c); [done|]. destruct (tc_Type c =s "apple-hap").
  { pose proof (created_ok m t NewHomeKit HAPTarget c Hok) as Hc. destruct (created m t NewHomeKit HAPTarget c) as [[m1 t1] [y|e]];
      (split; [exact Hc|]); intros c' x b; [by intros [= <- _ <-]|done]. }
  destruct (IsMatterType (tc_Type c)).
  { destruct (tc_MatterConfig c); [|done]. destruct (negb _); [done|].
    pose proof (created_ok m t NewMatter managedMatterTarget c Hok) as Hc. destruct (created m t NewMatter managedMatterTarget c) as [[m1 t1] [y|e]];
      (split; [exact Hc|]); intros c' x b; [by intros [= <- _ <-]|done]. }
  destruct (tc_Type c =s "homekit-camera"); [|done]. destruct (publish_camera m c) as [m1 r] eqn:Hp.
  destruct (publish_ok _ _ _ _ Hok Hp) as [Hm1 Hi]. destruct r as [[c1 y]|e]; (split; [exact Hm1|]); intros c' x b; [|done].
  intros [= <- _ <-]. split; [by eapply publish_same|]. intros _. by apply Hi.
Qed.

Lemma apply_ok c m t : manager_ok m -> manager_ok (Apply c m t).1.1.
Proof.
  intros Hok. unfold Apply. set (n := NormalizeProtocolConfig c). destruct (negb (tc_Enabled n)).
  { pose proof (stop_ok m (tc_ID n) Hok) as [Hs _]. by destruct (stop m (tc_ID n)) as [m1 [e|]]. }
  destruct (prepare_ok m t n Hok) as [Hp Hid]. destruct (prepare m t n) as [[m1 t1] [[[c1 x1] b]|e]]; [|done].
  cbn [fst snd] in Hp, Hid. destruct (Hid _ _ _ eq_refl) as [Ec Hb]. rewrite <- Ec in Hb.
  destruct b.
  - pose proof (await_ok m1 c1 x1 Hp (Hb eq_refl)) as Ha. by destruct (await _ c1 _ x1) as [m2 r].
  - destruct (stop_ok m1 (tc_ID c1) Hp) as (Hs & Hi & _). destruct (stop m1 (tc_ID c1)) as [m2 [e|]]; [done|]. cbn [fst] in Hs, Hi.
    pose proof (await_ok m2 c1 x1 Hs Hi) as Ha. by destruct (await _ c1 _ x1) as [m3 r].
Qed.

Lemma reset_camera_ok m c : manager_ok m -> manager_ok (reset_camera m c).1.
Proof.
  intros Hok. unfold reset_camera. destruct (mg_cameras m), (the_camera c) as [v|]; try done.
  destruct (ResetHomeKitCamera _ _ _) as [w e]. by apply ok_world.
Qed.
Lemma reset_ok c m t : manager_ok m -> manager_ok (ResetPairing c m t).1.1.
Proof.
  intros Hok. unfold ResetPairing. pose proof (stop_ok m (tc_ID c) Hok) as [Hs _]. destruct (tc_Type c =s "homekit-camera").
  - destruct (negb _); [done|]. destruct (stop m (tc_ID c)) as [m1 [e|]]; [done|]. cbn [fst] in Hs.
    pose proof (reset_camera_ok m1 c Hs) as Hr. destruct (reset_camera m1 c) as [m2 [e|]]; [done|by apply apply_ok].
  - destruct (negb _); [done|]. destruct (stop m (tc_ID c)) as [m1 [e|]]; [done|]. cbn [fst] in Hs.
    unfold removePairingIdentity. destruct (_ || _ || _); [done|]. destruct (RemoveDirectory _ _) as [w [e|]]; [by apply ok_world|].
    apply apply_ok. by apply ok_world.
Qed.
Lemma remove_target_ok c m t : manager_ok m -> manager_ok (RemoveTarget c m t).1.1.
Proof.
  intros Hok. unfold RemoveTarget. pose proof (stop_ok m (tc_ID c) Hok) as [Hs _]. destruct (stop m (tc_ID c)) as [m1 [e|]]; [done|].
  cbn [fst] in Hs. destruct (_ =s _); [|done]. pose proof (reset_camera_ok m1 c Hs) as Hr. by destruct (reset_camera m1 c).
Qed.
Lemma close_ok ids : forall m, manager_ok m -> manager_ok (Close m ids).1.
Proof.
  induction ids as [|i ids IH]; intros m Hok; simpl; [done|]. pose proof (stop_ok m i Hok) as [Hs _].
  destruct (stop m i) as [m1 [e|]]; [done|]. by apply IH.
Qed.

(** What happens to a manager, one call after another; goroutines end and the outside
    changes at any time. *)
Inductive ManagerOp :=
| MApply (t : TargetTables) (c : Config)
| MRemove (id : string)
| MRemoveTarget (t : TargetTables) (c : Config)
| MReset (t : TargetTables) (c : Config)
| MClose (ids : list string)
| MControl (k : MatterControl) (id : string)
| MConfirm (t : TargetTables) (id device : string) (type : Type_)
| MExited (done : nat) (e : option RuntimeError)
| MWorld (w : W).
Definition manage m (op : ManagerOp) : Manager W T :=
  match op with
  | MApply t c => (Apply c m t).1.1
  | MRemove i => (stop m i).1
  | MRemoveTarget t c => (RemoveTarget c m t).1.1
  | MReset t c => (ResetPairing c m t).1.1
  | MClose ids => (Close m ids).1
  | MControl k i => (control_matter k i m no_targets).1.1
  | MConfirm t i d ty => (ConfirmMatterEndpointDeviceType i d ty m t).1.1
  | MExited n e => exited m n e
  | MWorld w => set_world m w
  end.
Definition NewManager (cameras storage : bool) (w : W) : Manager W T := MkManager ∅ ∅ ∅ 0 cameras storage [] w.

Lemma manage_ok m op : manager_ok m -> manager_ok (manage m op).
Proof.
  intros Hok. destruct op as [t c|i|t c|t c|ids|k i|t i d ty|n e|w]; cbn [manage].
  - by apply apply_ok.
  - by apply stop_ok.
  - by apply remove_target_ok.
  - by apply reset_ok.
  - by apply close_ok.
  - unfold control_matter. destruct (mg_running m !! i) as [x|]; [|done]. destruct (rn_target x); [done| |done].
    destruct (ControlMatter _ _ _) as [w [e|]]; by apply ok_world.
  - unfold ConfirmMatterEndpointDeviceType. destruct (negb _); [done|]. destruct (Transaction _) as [w io].
    destruct (TargetStore.ConfirmMatterEndpointDeviceType io t i d ty true); [|by apply ok_world]. destruct (Transaction w). by apply ok_world.
  - by apply exited_ok.
  - by apply ok_world.
Qed.

Lemma new_ok cameras storage w : manager_ok (NewManager cameras storage w).
Proof. constructor; simpl; intros; simplify_map_eq; set_solver. Qed.
Lemma manages_ok ops : forall m, manager_ok m -> manager_ok (fold_left manage ops m).
Proof. induction ops as [|op ops IH]; intros m Hm; simpl; [done|]. by apply IH, manage_ok. Qed.

(** When every stop sees the end of its goroutine, none is left that was told to stop. *)
Definition stops_end : Prop := forall x w, (Cancel x w).2 = None.

Lemma stop_leaves_none m id : stops_end -> mg_leaving m = ∅ -> mg_leaving (stop m id).1 = ∅.
Proof.
  intros Hs Hm. destruct (stop_cases m id) as [(-> & _)|(x & w & _ & _ & _ & Hc & Hcase)]; [done|].
  specialize (Hs (rn_target x) (mg_world m)). rewrite Hc in Hs. cbn [snd] in Hs. rewrite Hs in Hcase. by destruct Hcase as [_ ->].
Qed.
Lemma exited_leaves_none m n e : mg_leaving m = ∅ -> mg_leaving (exited m n e) = ∅.
Proof.
  intros Hm. unfold exited. destruct (mg_live m !! n) as [id|]; [|done]. assert (∅ ∖ {[n]} =@{gset nat} ∅) as E by set_solver. rewrite Hm.
  destruct (bool_decide _); [done|]. destruct e; [|done]. by destruct (mg_running _ !! _) as [z|]; [destruct (_ =? _)%nat|].
Qed.
Lemma await_leaves_none m c n x : stops_end -> mg_leaving m = ∅ -> mg_leaving (await m c n x).1 = ∅.
Proof.
  intros Hs Hm. unfold await. destruct (Start x _) as [w []]; [done| |by apply stop_leaves_none].
  by apply (exited_leaves_none (set_world m w)).
Qed.
Lemma prepare_leaves_none m t c : stops_end -> mg_leaving m = ∅ -> mg_leaving (prepare m t c).1.1 = ∅.
Proof.
  intros Hs Hm. unfold prepare, created. destruct (address_free m c); [done|]. destruct (_ =s _); [by destruct (NewHomeKit _ _ _) as [[? ?] ?]|].
  destruct (IsMatterType _). { destruct (tc_MatterConfig c); [|done]. destruct (negb _); [done|]. by destruct (NewMatter _ _ _) as [[? ?] ?]. }
  destruct (_ =s _); [|done]. unfold publish_camera. destruct (negb _); [done|]. destruct (the_camera c); [|done]. destruct (negb _); [done|].
  pose proof (stop_leaves_none m (tc_ID c) Hs Hm) as Hst. destruct (stop m (tc_ID c)) as [m2 [e|]]; [done|].
  by destruct (EnableHomeKitCamera _ _ _ _) as [w [[p a]|e]].
Qed.
Lemma apply_leaves_none c m t : stops_end -> mg_leaving m = ∅ -> mg_leaving (Apply c m t).1.1 = ∅.
Proof.
  intros Hs Hm. unfold Apply. destruct (negb _).
  { pose proof (stop_leaves_none m (tc_ID (NormalizeProtocolConfig c)) Hs Hm) as Hst. by destruct (stop m _) as [m1 [e|]]. }
  pose proof (prepare_leaves_none m t (NormalizeProtocolConfig c) Hs Hm) as Hp.
  destruct (prepare m t _) as [[m1 t1] [[[c1 x1] b]|e]]; [|done]. cbn [fst] in Hp.
  assert (mg_leaving (if b then (m1, None) else stop m1 (tc_ID c1)).1 = ∅) as Hst by (destruct b; [done|by apply stop_leaves_none]).
  destruct (if b then _ else _) as [m2 [e|]]; [done|]. cbn [fst] in Hst.
  pose proof (await_leaves_none (register m2 c1 x1) c1 (mg_next m2) x1 Hs Hst) as Ha. by destruct (await _ c1 _ x1) as [m3 r].
Qed.
Lemma manage_leaves_none m op : stops_end -> mg_leaving m = ∅ -> mg_leaving (manage m op) = ∅.
Proof.
  intros Hs Hm. assert (forall id, mg_leaving (stop m id).1 = ∅) as Hst by (intros id; by apply stop_leaves_none).
  destruct op as [t c|i|t c|t c|ids|k i|t i d ty|n e|w]; cbn [manage]; [by apply apply_leaves_none|done|..].
  - unfold RemoveTarget. specialize (Hst (tc_ID c)). destruct (stop m (tc_ID c)) as [m1 [e|]]; [done|]. destruct (_ =s _); [|done].
    unfold reset_camera. destruct (mg_cameras m1), (the_camera c); try done. by destruct (ResetHomeKitCamera _ _ _).
  - unfold ResetPairing. specialize (Hst (tc_ID c)). destruct (_ =s _).
    + destruct (negb _); [done|]. destruct (stop m (tc_ID c)) as [m1 [e|]]; [done|]. unfold reset_camera.
      destruct (mg_cameras m1), (the_camera c); try done. destruct (ResetHomeKitCamera _ _ _) as [w [e|]]; [done|by apply apply_leaves_none].
    + destruct (negb _); [done|]. destruct (stop m (tc_ID c)) as [m1 [e|]]; [done|]. unfold removePairingIdentity.
      destruct (_ || _ || _); [done|]. destruct (RemoveDirectory _ _) as [w [e|]]; [done|by apply apply_leaves_none].
  - clear Hst. revert m Hm. induction ids as [|i ids IH]; intros m Hm; simpl; [done|].
    pose proof (stop_leaves_none m i Hs Hm) as Hst. destruct (stop m i) as [m1 [e|]]; [done|]. by apply IH.
  - unfold control_matter. destruct (mg_running m !! i) as [x|]; [|done]. destruct (rn_target x); [done| |done].
    by destruct (ControlMatter _ _ _) as [w [e|]].
  - unfold ConfirmMatterEndpointDeviceType. destruct (negb _); [done|]. destruct (Transaction _) as [w io].
    destruct (TargetStore.ConfirmMatterEndpointDeviceType io t i d ty true); [|done]. by destruct (Transaction w).
  - by apply exited_leaves_none.
  - done.
Qed.

(** C18: no publication is lost while the calls of a manager run one after another: whatever
    starts, stops, failures, crashes and changes of configuration there were, each goroutine
    that runs is the one registered for its Target, the only such one for it, or was told
    to stop by a stop that gave up waiting for it (its caller gone, or five seconds over).
    Stopping the Target of a registered one ends it, or gives up and leaves it told to stop;
    and when no stop gives up, every goroutine that runs is registered. *)
Theorem live_is_registered cameras storage w ops :
  let m := fold_left manage ops (NewManager cameras storage w) in
  (forall n id, mg_live m !! n = Some id ->
    n ∈ mg_leaving m \/
    (exists x, mg_running m !! id = Some x /\ rn_done x = n /\ tc_ID (rn_config x) = id) /\
    (forall n', mg_live m !! n' = Some id -> n' ∉ mg_leaving m -> n' = n) /\
    let '(m', e) := stop m id in
    mg_running m' !! id = None /\
    match e with
    | None => mg_live m' !! n = None
    | Some _ => mg_live m' !! n = Some id /\ n ∈ mg_leaving m'
    end) /\
  (stops_end -> mg_leaving m = ∅).
Proof.
  intros m. pose proof (manages_ok ops _ (new_ok cameras storage w)) as Hok. fold m in Hok. split.
  - intros n id Hn. destruct (decide (n ∈ mg_leaving m)) as [|Hne]; [by left|right].
    destruct (mo_live m Hok n id Hn Hne) as (x & Hx & E). split; [|split].
    + exists x. split; [done|]. split; [done|]. by apply (mo_config m Hok id x).
    + intros n' Hn' Hne'. destruct (mo_live m Hok n' id Hn' Hne') as (y & Hy & E'). congruence.
    + destruct (stop_cases m id) as [(_ & Hno & _)|(y & w' & Hy & Hr & _ & _ & Hcase)]; [congruence|].
      destruct (stop m id) as [m' e]. cbn [fst snd] in *. assert (y = x) as -> by congruence.
      split; [by rewrite Hr, lookup_delete_eq|]. rewrite E, Hn in Hcase.
      destruct e; destruct Hcase as [-> Hv]; [|by rewrite lookup_delete_eq]. split; [done|]. rewrite Hv. cbn [present]. set_solver.
  - intros Hs. unfold m. assert (mg_leaving (NewManager cameras storage w) = ∅) as H0 by done. revert H0.
    generalize (NewManager cameras storage w). clear m Hok. induction ops as [|op ops IH]; intros m Hm; simpl; [done|].
    by apply IH, manage_leaves_none.
Qed.

(** ** Overlapping calls *)

(** The sections of calls, in any interleaving, that do not end the goroutine [h]. *)
Inductive section (h : nat) : Manager W T -> Manager W T -> Prop :=
| section_prepare m t c : section h m (prepare m t c).1.1
| section_stop m id : section h m (stop m id).1
| section_register m c x : section h m (register m c x)
| section_await m c n x : (n = h -> forall e, (Start x (mg_world m)).2 <> Exited e) -> section h m (await m c n x).1
| section_exited m n e : n <> h -> section h m (exited m n e)
| section_world m w : section h m (set_world m w).

(** A goroutine nothing refers to. *)
Definition lost (h : nat) (id : string) m : Prop :=
  mg_live m !! h = Some id /\ (h < mg_next m)%nat /\ forall i x, mg_running m !! i = Some x -> rn_done x <> h.

Lemma lost_world h id m w : lost h id m -> lost h id (set_world m w).
Proof. done. Qed.
Lemma lost_stop h id m i : lost h id m -> lost h id (stop m i).1.
Proof.
  intros (Hl & Hn & Hr). destruct (stop_cases m i) as [(-> & _)|(x & w & Hx & Er & En & _ & Hcase)]; [done|].
  unfold lost. rewrite Er, En. split; [|split; [done|]; intros j y [_ Hy]%lookup_delete_Some; by apply (Hr j)].
  destruct (stop m i).2; destruct Hcase as [-> _]; [done|]. rewrite lookup_delete_ne; [done|by apply (Hr i)].
Qed.
Lemma lost_exited h id m n e : n <> h -> lost h id m -> lost h id (exited m n e).
Proof.
  intros Hne (Hl & Hn & Hr). unfold exited. destruct (mg_live m !! n) as [i|] eqn:Hi; [|done].
  assert (delete n (mg_live m) !! h = Some id) as Hl' by (by rewrite lookup_delete_ne).
  destruct (bool_decide _); [done|]. destruct e; [|done]. cbn [mg_running set_live set_leaving].
  assert (forall j y, delete i (mg_running m) !! j = Some y -> rn_done y <> h) as Hr' by (intros j y [_ Hy]%lookup_delete_Some; by apply (Hr j)).
  destruct (mg_running m !! i) as [x|]; [destruct (_ =? _)%nat|]; done.
Qed.
Lemma lost_section h id m m' : section h m m' -> lost h id m -> lost h id m'.
Proof.
  intros [m1 t c|m1 i|m1 c x|m1 c n x Hs|m1 n e Hne|m1 w] Hl; [|by apply lost_stop| | |by apply lost_exited|by apply lost_world].
  - unfold prepare, created. destruct (address_free m1 c); [done|]. destruct (_ =s _); [by destruct (NewHomeKit _ _ _) as [[? ?] ?]|].
    destruct (IsMatterType _). { destruct (tc_MatterConfig c); [|done]. destruct (negb _); [done|]. by destruct (NewMatter _ _ _) as [[? ?] ?]. }
    destruct (_ =s _); [|done]. unfold publish_camera. destruct (negb _); [done|]. destruct (the_camera c); [|done]. destruct (negb _); [done|].
    pose proof (lost_stop h id m1 (tc_ID c) Hl) as Hst. destruct (stop m1 (tc_ID c)) as [m2 [e|]]; [done|].
    by destruct (EnableHomeKitCamera _ _ _ _) as [w [[p a]|e]].
  - destruct Hl as (Hl & Hn & Hr). split; [|split]; cbn [mg_running mg_live mg_next register].
    + rewrite lookup_insert_ne by lia. done.
    + lia.
    + intros i y [[<- <-]|[_ Hy]]%lookup_insert_Some; [simpl; lia|by apply (Hr i)].
  - unfold await. destruct (Start x (mg_world m1)) as [w s]. cbn [snd] in Hs.
    assert (lost h id (set_world m1 w)) as Hw by by apply lost_world.
    destruct s as [|e|e]; [done| |by apply lost_stop]. cbn [fst].
    assert (n <> h) as Hne by (intros E; by destruct (Hs E e)).
    destruct (lost_exited h id _ n e Hne Hw) as (Hl' & Hn' & Hr'). split; [done|]. split; [done|].
    cbn [mg_running set_running]. intros j y [_ Hy]%lookup_delete_Some. by apply (Hr' j).
Qed.

(** C37: calls for one Target that overlap lose a publication. When two calls have each
    created their publication and stopped the old one before either registers, the second
    registration takes the place of the first, whose goroutine nothing refers to: whatever
    calls follow, stops of that Target included, it goes on until it ends by itself. *)
Theorem overlapping_applies_leak cameras storage w ops t c1 c2 m1 t1 c1' x1 m2 t2 c2' x2 m3 m4 m :
  prepare (fold_left manage ops (NewManager cameras storage w)) t c1 = ((m1, t1), Ok (c1', x1, false)) ->
  prepare m1 t1 c2 = ((m2, t2), Ok (c2', x2, false)) -> tc_ID c2' = tc_ID c1' ->
  stop m2 (tc_ID c1') = (m3, None) -> stop m3 (tc_ID c2') = (m4, None) ->
  let h := mg_next m4 in
  rtc (section h) (register (register m4 c1' x1) c2' x2) m ->
  mg_live m !! h = Some (tc_ID c1') /\ forall i x, mg_running m !! i = Some x -> rn_done x <> h.
Proof.
  intros H1 H2 E H3 H4 h Hm.
  assert (manager_ok m4) as Hok.
  { pose proof (manages_ok ops (NewManager cameras storage w) (new_ok cameras storage w)) as Hok.
    pose proof (proj1 (prepare_ok _ t c1 Hok)) as Hok1. rewrite H1 in Hok1.
    pose proof (proj1 (prepare_ok m1 t1 c2 Hok1)) as Hok2. rewrite H2 in Hok2.
    pose proof (proj1 (stop_ok m2 (tc_ID c1') Hok2)) as Hok3. rewrite H3 in Hok3.
    pose proof (proj1 (stop_ok m3 (tc_ID c2') Hok3)) as Hok4. by rewrite H4 in Hok4. }
  assert (lost h (tc_ID c1') (register (register m4 c1' x1) c2' x2)) as Hlost.
  { split; [|split]; cbn [mg_running mg_live mg_next register].
    - rewrite lookup_insert_ne by (unfold h; lia). by rewrite lookup_insert_eq.
    - unfold h. lia.
    - intros i x [[<- <-]|[Hi Hx]]%lookup_insert_Some; [simpl; unfold h; lia|].
      rewrite lookup_insert_ne in Hx by congruence. destruct (mo_config m4 Hok i x Hx). unfold h. lia. }
  assert (lost h (tc_ID c1') m) as (Hl & _ & Hr); [|done].
  clear -Hm Hlost. induction Hm as [|m5 m6 m7 Hs _ IH]; [done|]. apply IH. by eapply lost_section.
Qed.
End Goroutines.

(** The service of Targets over this manager. *)
Lemma managed_service_ok {W T} `{PublicationLaws W T} `{PairingCodes} (s : TargetService (Manager W T)) :
  service_run s -> service_ok ∅ s.
Proof. apply run_ok. Qed.

(** ** An example: bridges that start at once *)

Module ManagerExample.
#[local] Instance plain : Publications unit string := {
  CheckAddressAvailable _ _ := None;
  NewHomeKit c w t := ((w, t), Ok (tc_ID c));
  NewMatter c w t := ((w, t), Ok (tc_ID c));
  Start _ w := (w, Started);
  Cancel _ w := (w, None);
  HAPIsPaired _ _ := false;
  HAPPairingInfo _ _ := no_pairing;
  HAPIssues _ _ := [];
  PublishedAccessoryCount _ _ := 0;
  MatterStatus _ _ := MkCommissioning "uncommissioned" false "" 0 [] 0 0 "" "";
  ControlMatter _ _ w := (w, None);
  HasPairings _ _ := Ok false;
  RemoveDirectory _ w := (w, None);
  EnableHomeKitCamera _ _ _ w := (w, Err "no camera");
  InspectHomeKitCamera _ _ := false;
  ResetHomeKitCamera _ _ w := (w, None);
  Transaction w := (w, true);
}.
#[local] Instance plain_laws : PublicationLaws unit string.
Proof. by split. Qed.

Definition bridge := MkConfig "home" "apple-hap" "Home" true None None [] [] ":51826" "31415926" "HOME" "data/hap/home".

Lemma live_is_registered_witness :
  let m := fold_left manage [MApply no_targets bridge; MApply no_targets bridge] (NewManager false false tt) in
  mg_live m !! 1%nat = Some "home" /\ mg_live m !! 0%nat = None /\ mg_leaving m = ∅ /\ mg_live (stop m "home").1 !! 1%nat = None.
Proof.
  cbv zeta. set (m := fold_left manage _ _). assert (mg_live m !! 1%nat = Some "home") as H1 by (vm_compute; reflexivity).
  destruct (live_is_registered false false tt [MApply no_targets bridge; MApply no_targets bridge]) as [Hl Hs].
  specialize (Hs (fun _ _ => eq_refl)). fold m in Hl, Hs. split; [exact H1|]. split; [vm_compute; reflexivity|]. split; [exact Hs|].
  destruct (Hl 1%nat "home" H1) as [Hin|(_ & _ & H2)]; [rewrite Hs in Hin; by apply not_elem_of_empty in Hin|].
  assert (Hnone : (stop m "home").2 = None) by (vm_compute; reflexivity).
  destruct (stop m "home") as [m' e]. cbn [fst snd] in *. rewrite Hnone in H2. apply H2.
Defined.

(** The two publications, and a stop of the Target after them. *)
Definition fresh : Manager unit string := NewManager false false tt.
Definition home := NormalizeProtocolConfig bridge.
Definition both := register (register fresh home (HAPTarget "home")) home (HAPTarget "home").
Lemma overlapping_applies_leak_witness :
  let m := (stop both "home").1 in
  mg_running m !! "home" = None /\ mg_live m !! 0%nat = Some "home" /\ mg_live m !! 1%nat = None.
Proof.
  cbv zeta. split; [vm_compute; reflexivity|]. split; [|vm_compute; reflexivity].
  apply (overlapping_applies_leak false false tt [] no_targets home home fresh no_targets home (HAPTarget "home")
    fresh no_targets home (HAPTarget "home") fresh fresh (stop both "home").1);
    [vm_compute; reflexivity|vm_compute; reflexivity|reflexivity|vm_compute; reflexivity|vm_compute; reflexivity|].
  apply rtc_once. apply (section_stop 0 both "home").
Defined.
End ManagerExample.
