(* ===== verification/Settings.v ===== *)
(** * Runtime settings: backend/internal/application/settings_service.go and
    persistence/gormstore/settings.go

    How long a command is waited for and how many are kept. The settings are texts in a
    table, numbers in the service, and in force in the command tracker. *)

From S2P Require Import Prelude Float64 DeviceModel FloatText Text CommandTracker.

Definition commandTimeoutSetting : string := "command_timeout_seconds".
Definition commandHistorySetting : string := "command_history_limit".

Record RuntimeSettings := MkSettings { rs_CommandTimeoutSeconds : Z; rs_CommandHistoryLimit : Z }.

Inductive SettingsError :=
| SettingsDatabaseFailed
| InvalidStoredTimeout
| InvalidStoredLimit
| InvalidTimeout
| InvalidLimit.

(** ** The table *)

Definition GetSetting (io : bool) (t : gmap string string) (key : string) : result SettingsError (option string) :=
  if io then Ok (t !! key) else Err SettingsDatabaseFailed.
(** One transaction writes all values. *)
Definition SaveSettings (io : bool) (t values : gmap string string) : result SettingsError (gmap string string) :=
  if io then Ok (values ∪ t) else Err SettingsDatabaseFailed.

(** ** The service *)

Record SettingsService := MkService {
  ss_current : RuntimeSettings;
  ss_table : gmap string string;
  ss_commands : Tracker;
}.

Definition valid_timeout (seconds : Z) : bool := negb ((seconds <? 1) || (300 <? seconds)).
Definition valid_limit (limit : Z) : bool := negb ((limit <? 100) || (10000 <? limit)).

Definition Seconds (n : Z) : Duration := n * 1000000000.

Section Service.
Variable ord : gmap string Command -> list string.

Definition in_force (commands : Tracker) (s : RuntimeSettings) : Tracker :=
  SetMaxItems ord (SetTimeout commands (Seconds (rs_CommandTimeoutSeconds s))) (rs_CommandHistoryLimit s).

(** A setting that is stored, or else its default and the text to store. *)
Definition load_setting (io : bool) (t : gmap string string) (key : string) (valid : Z -> bool) (e : SettingsError) (standard : Z)
    : result SettingsError (Z * gmap string string) :=
  let! stored := GetSetting io t key in
  match stored with
  | Some value =>
      match Atoi value with
      | Some n => if valid n then Ok (n, ∅) else Err e
      | None => Err e
      end
  | None => Ok (standard, {[key := show_Z standard]})
  end.

(** The statements of the database succeed or fail as [io1], [io2] and [io3] say. *)
Definition NewSettingsService (io1 io2 io3 : bool) (t : gmap string string) (commands : Tracker)
    : gmap string string * result SettingsError SettingsService :=
  match
    (let! timeout := load_setting io1 t commandTimeoutSetting valid_timeout InvalidStoredTimeout 5 in
     let! history := load_setting io2 t commandHistorySetting valid_limit InvalidStoredLimit 1000 in
     let missing := timeout.2 ∪ history.2 in
     let! t := if bool_decide (missing = ∅) then Ok t else SaveSettings io3 t missing in
     Ok (MkSettings timeout.1 history.1, t))
  with
  | Ok (current, t) => (t, Ok (MkService current t (in_force commands current)))
  | Err e => (t, Err e)
  end.

Definition Save (io : bool) (s : SettingsService) (next : RuntimeSettings) : SettingsService * result SettingsError RuntimeSettings :=
  if negb (valid_timeout (rs_CommandTimeoutSeconds next)) then (s, Err InvalidTimeout)
  else if negb (valid_limit (rs_CommandHistoryLimit next)) then (s, Err InvalidLimit)
  else match SaveSettings io (ss_table s)
      {[commandTimeoutSetting := show_Z (rs_CommandTimeoutSeconds next); commandHistorySetting := show_Z (rs_CommandHistoryLimit next)]} with
  | Err e => (s, Err e)
  | Ok t => (MkService next t (in_force (ss_commands s) next), Ok next)
  end.

(** A service from its first start on: saves, changes of the commands by their tracker, and
    restarts with a tracker that is new. *)
Inductive settings_run : SettingsService -> Prop :=
| settings_first io1 io2 io3 commands s : (NewSettingsService io1 io2 io3 ∅ commands).2 = Ok s -> settings_run s
| settings_save io s next : settings_run s -> settings_run (Save io s next).1
| settings_commands s commands : settings_run s -> Timeout commands = Timeout (ss_commands s) ->
    maxItems commands = maxItems (ss_commands s) -> settings_run (MkService (ss_current s) (ss_table s) commands)
| settings_restart io1 io2 io3 s commands s' : settings_run s ->
    (NewSettingsService io1 io2 io3 (ss_table s) commands).2 = Ok s' -> settings_run s'.
End Service.

(** ** What is set is in force *)

Section Laws.
Context (ord : gmap string Command -> list string).

Lemma remove_oldest_same ks t : timeoutNanos (removeOldestTerminalLocked ks t).1 = timeoutNanos t /\
  maxItems (removeOldestTerminalLocked ks t).1 = maxItems t.
Proof. unfold removeOldestTerminalLocked. by repeat case_match. Qed.
Lemma evict_same over fuel : forall t, timeoutNanos (evict ord over fuel t) = timeoutNanos t /\ maxItems (evict ord over fuel t) = maxItems t.
Proof.
  induction fuel as [|fuel IH]; intros t; simpl; [done|]. destruct (over _); [|done].
  pose proof (remove_oldest_same (ord (commands t)) t) as Hr. destruct (removeOldestTerminalLocked _ t) as [t' []]; simpl in Hr; [|done].
  destruct (IH t') as [-> ->]. exact Hr.
Qed.
Lemma in_force_spec commands s : valid_limit (rs_CommandHistoryLimit s) = true ->
  Timeout (in_force ord commands s) = Seconds (rs_CommandTimeoutSeconds s) /\ maxItems (in_force ord commands s) = rs_CommandHistoryLimit s.
Proof.
  intros Hv. unfold in_force, SetMaxItems, trim, Timeout. set (t := with_maxItems _ _).
  destruct (evict_same (fun n => maxItems t <? n) (S (size (CommandTracker.commands t))) t) as [-> ->]. split; [done|].
  unfold t. cbn [maxItems with_maxItems]. unfold valid_limit in Hv. apply negb_true_iff, orb_false_iff in Hv as [Hv _].
  apply Z.ltb_ge in Hv. destruct (Z.ltb_spec (rs_CommandHistoryLimit s) 1); lia.
Qed.

Definition stored (t : gmap string string) (s : RuntimeSettings) : Prop :=
  t !! commandTimeoutSetting = Some (show_Z (rs_CommandTimeoutSeconds s)) /\
  t !! commandHistorySetting = Some (show_Z (rs_CommandHistoryLimit s)).
Definition valid (s : RuntimeSettings) : bool := valid_timeout (rs_CommandTimeoutSeconds s) && valid_limit (rs_CommandHistoryLimit s).

Lemma valid_bounds s : valid s = true -> 1 <= rs_CommandTimeoutSeconds s <= 300 /\ 100 <= rs_CommandHistoryLimit s <= 10000.
Proof. unfold valid, valid_timeout, valid_limit. intros. bool_prop. lia. Qed.

Lemma load_stored t key p e standard n : t !! key = Some (show_Z n) -> 0 <= n < two63 -> p n = true ->
  load_setting true t key p e standard = Ok (n, ∅).
Proof. intros Ht Hn Hp. unfold load_setting, GetSetting. rewrite Ht. rewrite atoi_show by done. by rewrite Hp. Qed.

Lemma start_stored commands t s : stored t s -> valid s = true ->
  NewSettingsService ord true true true t commands = (t, Ok (MkService s t (in_force ord commands s))).
Proof.
  intros [H1 H2] Hv. pose proof (valid_bounds s Hv) as [B1 B2]. unfold valid in Hv. apply andb_true_iff in Hv as [V1 V2].
  unfold NewSettingsService. rewrite (load_stored t _ _ _ _ (rs_CommandTimeoutSeconds s)), (load_stored t _ _ _ _ (rs_CommandHistoryLimit s));
    [|done|unfold two63; lia|done|done|unfold two63; lia|done]. cbn. by destruct s.
Qed.

Record agrees (s : SettingsService) : Prop := {
  ag_valid : valid (ss_current s) = true;
  ag_stored : stored (ss_table s) (ss_current s);
  ag_timeout : Timeout (ss_commands s) = Seconds (rs_CommandTimeoutSeconds (ss_current s));
  ag_limit : maxItems (ss_commands s) = rs_CommandHistoryLimit (ss_current s);
}.
Lemma agrees_forced commands t s : valid s = true -> stored t s -> agrees (MkService s t (in_force ord commands s)).
Proof.
  intros Hv Hs. pose proof Hv as Hv2. unfold valid in Hv2. apply andb_true_iff in Hv2 as [_ Hl].
  destruct (in_force_spec commands s Hl). by constructor.
Qed.
Lemma first_start io1 io2 io3 commands s : (NewSettingsService ord io1 io2 io3 ∅ commands).2 = Ok s -> agrees s.
Proof.
  unfold NewSettingsService, load_setting, GetSetting. destruct io1; [|done]. destruct io2; [|done]. cbn [lookup].
  rewrite !lookup_empty. cbn [fst snd]. rewrite bool_decide_eq_false_2 by (vm_compute; discriminate).
  destruct io3; [|done]. cbn [SaveSettings fst snd]. intros [= <-]. apply agrees_forced; [reflexivity|]. split; vm_compute; reflexivity.
Qed.
Lemma restarted io1 io2 io3 commands t s s' : stored t s -> valid s = true ->
  (NewSettingsService ord io1 io2 io3 t commands).2 = Ok s' -> s' = MkService s t (in_force ord commands s).
Proof.
  intros Hs Hv. pose proof (start_stored commands t s Hs Hv) as Hstart. intros Hn.
  destruct io1; [|done]. destruct io2; [|unfold NewSettingsService in Hn; by destruct (load_setting true t commandTimeoutSetting _ _ _)].
  destruct io3; [rewrite Hstart in Hn; by injection Hn as <-|]. revert Hn Hstart. unfold NewSettingsService.
  destruct (load_setting true t commandTimeoutSetting _ _ _) as [a|]; [|done]. destruct (load_setting true t commandHistorySetting _ _ _) as [b|]; [|done].
  case_bool_decide; [|done]. intros [= <-] E. cbn in E. congruence.
Qed.

Lemma saved_agrees io s next : agrees s -> agrees (Save ord io s next).1.
Proof.
  intros Ha. unfold Save. destruct (valid_timeout _) eqn:V1; [|done]. destruct (valid_limit _) eqn:V2; [|done]. cbn [negb].
  unfold SaveSettings. destruct io; [|done]. cbn [fst]. apply agrees_forced; [unfold valid; by rewrite V1, V2|].
  split; rewrite lookup_union_l'.
  - by rewrite lookup_insert_eq.
  - rewrite lookup_insert_eq. by eexists.
  - by rewrite lookup_insert_ne, lookup_singleton_eq.
  - rewrite lookup_insert_ne, lookup_singleton_eq by done. by eexists.
Qed.

(** The settings in force are the ones stored, and within their bounds, after any saves,
    failures and restarts; and every restart on them succeeds and keeps them. *)
Theorem settings_in_force s commands : settings_run ord s ->
  1 <= rs_CommandTimeoutSeconds (ss_current s) <= 300 /\ 100 <= rs_CommandHistoryLimit (ss_current s) <= 10000 /\
  Timeout (ss_commands s) = Seconds (rs_CommandTimeoutSeconds (ss_current s)) /\
  maxItems (ss_commands s) = rs_CommandHistoryLimit (ss_current s) /\
  NewSettingsService ord true true true (ss_table s) commands =
    (ss_table s, Ok (MkService (ss_current s) (ss_table s) (in_force ord commands (ss_current s)))).
Proof.
  intros Hr. assert (agrees s) as [Hv Hs Ht Hl].
  { induction Hr as [io1 io2 io3 c s Hn|io s next _ IH|s c _ [Hv Hs Ht Hl] E1 E2|io1 io2 io3 s c s' _ [Hv Hs _ _] Hn].
    - by eapply first_start.
    - by apply saved_agrees.
    - constructor; cbn [ss_current ss_table ss_commands]; [done..|congruence|congruence].
    - rewrite (restarted _ _ _ _ _ _ _ Hs Hv Hn). by apply agrees_forced. }
  pose proof (valid_bounds _ Hv). split_and!; try tauto. by apply start_stored.
Qed.
End Laws.

Definition ex_settings : result SettingsError SettingsService :=
  (NewSettingsService (fun m => (map_to_list m).*1) true true true ∅ (NewTracker 0)).2.
Lemma settings_in_force_witness : exists s, ex_settings = Ok s /\
  Timeout (ss_commands s) = Seconds 5 /\ maxItems (ss_commands s) = 1000.
Proof.
  destruct ex_settings as [s|] eqn:Hs; [|by vm_compute in Hs]. exists s. split; [done|].
  destruct (settings_in_force (fun m => (map_to_list m).*1) s (NewTracker 0)) as (_ & _ & -> & -> & _).
  - apply (settings_first _ true true true (NewTracker 0)). exact Hs.
  - vm_compute in Hs. injection Hs as <-. split; reflexivity.
Defined.
